(* ===== verification/_CoqProject ===== *)
-Q . S2P
Prelude.v
Endian.v
Tlv.v
Fsm.v
DiamFsm.v
SipFsm.v
SipDialog.v
SmsFsm.v
IpPool.v
Gtp2.v
Gtp1.v
Diam.v
Rtp.v
Rtcp.v
SmsIntl.v
SmsUd.v
SmsText.v
SmsTime.v
SmsAddr.v
SmsTpdu.v
SmsPdu.v
SmsRp.v
JsonStr.v
JsonParse.v
JsonGrammar.v
JsonSound.v
JsonNav.v
JsonNum.v
JsonWrite.v
JsonBuild.v
JsonRound.v
GtpuKern.v
GtpuCsum.v
GtpuPath.v
GtpuTunnel.v
GtpuExample.v
SipStr.v
SipMsg.v
SipWrite.v
SipUri.v
SipScan.v
SipName.v
SipParse.v
SipRound.v
SipValue.v
SipUriRound.v
SdpMsg.v
SdpAttr.v
SdpWrite.v
SdpScan.v
SdpParse.v
SdpAccess.v
SdpRound.v
SdpBack.v
NetLoop.v
NetTimer.v
NetHook.v
NetTxq.v
NetQueue.v
DnsMsg.v
DnsName.v
DnsQname.v
DnsSafe.v
DnsQuery.v
DnsResolver.v
DnsReply.v
Nlmsg.v
Rtnl.v
Xfrm.v
