(* ===== verification/Prelude.v ===== *)
(** * A verification library for the mobile-core protocol toolkit

    The program is a set of C libraries for the signalling and media protocols of
    a mobile core network: codecs that work in place on caller-supplied buffers, the
    state machines of the protocols, an address pool, an event loop with a transmit
    queue and a DNS resolver on it, requests to the Linux kernel, and a GTP-U datapath
    that runs in it.  Each part below is modelled as executable definitions, one
    per C function and under its name, and the theorems are about these.

    ** Conventions

    This file has what all parts share.  A C integer is a [Z] and a conversion
    writes its wrap-around ([u8] .. [u64], [i32], [i64]).  A buffer is a [mem], the
    list of its octets, accessed with [rd], [wr], [rdn], [wrn] and [copy]; code that
    can go wrong runs in the monad [res], whose outcome [Ub] stands for what C
    leaves undefined: an access out of bounds, a signed overflow, an arithmetic
    shift too far.  So a theorem that concludes [f x = Ok y] says that [f] is
    memory safe on [x] and returns [y].  Error codes are values; where the
    code returns a status and fills an output, the model returns the output under
    a constructor or an [option].  A pointer into a buffer is an offset, or a view
    of an offset and a length.  Allocation, clocks, epoll, sendmmsg and other
    answers of the system are arguments of the definitions.

    ** The parts, file by file

    - [Endian]: [task/inc/endian.h], loads and stores of network-order integers.
    - [Tlv]: [task/inc/tlv.h], the generic type-length-value codec behind GTPv2,
      Diameter and netlink: wire profiles, iterator, writer, grouped entries.
    - [Fsm]: [task/src/fsm.c], the table-driven state-machine engine.
    - [DiamFsm], [SipFsm], [SipDialog], [SmsFsm]: the transition tables of
      [diam/src/diam_fsm.c], [sip/src/sip_fsm.c], [sip/src/sip_dialog.c] and
      [sms/src/sms_fsm.c], built on the engine.
    - [IpPool]: [task/src/ippool.c], the address pool.
    - [Gtp2], [Gtp1]: [gtp/v2/src/gtp2.c], [gtp2_ie.c], [gtp/v1/src/gtp1.c].
    - [Diam]: [diam/src/diam.c], the Diameter header and AVPs.
    - [Rtp], [Rtcp]: [rtp/src/rtp.c] and [rtp/src/rtcp.c], the packet codecs and the
      receiver statistics.
    - [SmsIntl], [SmsUd], [SmsText]: [sms/src/sms_intl.h] and [sms/src/sms_ud.c], the
      UTF-8 scanner, the 7-bit alphabet and its packing, user data and its header;
      [SmsText] has the text-level specification and its round trip.
    - [SmsTime], [SmsAddr], [SmsTpdu]: [sms/src/sms.c] and [sms/src/sms_write.c], time
      stamps and validity periods, addresses, and the six transport PDUs; [SmsPdu] has
      the abstract PDUs and their round trip.
    - [SmsRp]: [sms/src/sms_rp.c], the relay layer, and both layers composed.
    - [JsonStr], [JsonParse], [JsonNum], [JsonNav], [JsonWrite]: [json/src/json_str.c],
      [json.c] and [json_write.c].  [JsonGrammar] and [JsonSound] state the grammar and
      that the parser accepts exactly it, [JsonBuild] and [JsonRound] what the writer
      writes and that it is parsed back.
    - [GtpuKern]: [gtp/u/bpf/gtpu_kern.c], the two traffic-control programs over their
      maps.  [GtpuCsum] is the theory of its checksums, [GtpuPath] of what happens to any
      frame; [GtpuTunnel] says by octets which frames are delivered, and has the round
      trip through a tunnel, [GtpuExample] concrete frames.
    - [SipStr], [SipMsg], [SipWrite], [SipUri]: [sip/src/sip_intl.h], [sip.c],
      [sip_write.c] and [sip_uri.c].  [SipScan] is the theory of the scanning loops,
      [SipName] of the name tables; [SipParse] and [SipValue] are about any input,
      [SipRound] and [SipUriRound] about written messages and values.
    - [SdpMsg], [SdpAttr], [SdpWrite]: [sdp/src/sdp.c] and [sdp_write.c], on the helpers of
      the SIP text.  [SdpScan], [SdpParse], [SdpAccess], [SdpRound] and [SdpBack] have the
      theory, in the same division.
    - [NetLoop], [NetTimer], [NetHook]: [net/src/loop.c], the event loop; the second
      file has the theory of the timer heap, the third that of the hooks.
    - [NetTxq], [NetQueue]: [net/src/addr.c] and [net/src/txq.c], the transmit queue
      on that loop, and its theory.
    - [DnsMsg]: [net/src/dns.c], the resolver, its datagrams and its timers on the loop.
      [DnsName] and [DnsQname] are about names read and written, [DnsSafe] about any
      response, [DnsQuery] and [DnsResolver] about the queries over a run of events,
      [DnsReply] about answers.
    - [Nlmsg], [Rtnl], [Xfrm]: [nlmsg/rtnl/src/rtnl.c] and [nlmsg/xfrm/src/xfrm.c], requests
      written with [Tlv] and the exchange with the kernel; what the two sources repeat
      word for word is in [Nlmsg].

    ** What the theorems show

    - Codecs.  What is written is read back (message round trips, for any tree of
      grouped elements, any header shape, any packing offset, any sequence of calls of
      a text writer; the one exception is an SMS sender name of seven septets, and the
      theorems say what becomes of it); where a grammar says what is a text, the parser accepts exactly
      that; reading an arbitrary buffer never leaves it, ends, and yields entries within
      it or the documented error; a writer that does not fit reports it and stays failed.
    - State machines.  The engine fires the first matching row and terminates
      once; each table implements a transition relation stated on its own, and
      reachability invariants of the protocols follow.
    - Stateful components.  The address pool, the RTP source tracker, the JSON writer, the
      timers, the hooks and the transmit queue each refine an abstract machine (a lease
      set, exact unbounded bookkeeping, a stack of containers, a bag of timers, an
      ordered set, a FIFO) for every sequence of calls, with a representation invariant
      that every call keeps.  The resolver calls every query back at most once and, left
      without answers, after a bounded number of timer expiries.
    - The datapath.  Both programs decide on any frame within its bounds, and what is
      delivered is exactly the G-PDUs of a tunnel; a packet comes out of the other end of
      a tunnel as it went in, with its checksum right; fragments follow their first one.
    - Requests.  Each builder refuses or lays down a request as a table of its arguments
      says, and the request reads back with the iterator; the tables also show two
      addresses of xfrm.c that are not refused.

    ** Bounds and fuel

    Buffers in the theorems are at most [OBJ_MAX] octets long, the largest C object.
    Loops over a buffer have the number of octets left as fuel (each step consumes
    one), heap sifting the size of the heap, ring loops the number of cells; the
    theorems state the result for that fuel, so running out of it, which would be
    [Ub], is excluded and not assumed away.  Where the code has a bound of its own the
    fuel covers it: a domain name goes through at most 40 pointers and has at most 255
    characters, so 300 steps are enough; a free query identifier is among 65536.  The
    iterations of the event loop, of a flush and of a wait for the kernel are driven by
    lists of answers of the system.

    ** Not modelled

    Functions that only release memory, log output ([task/src/mesg.c]), output
    structures that a failed call has partly filled, and the conversions of addresses to
    and from text (the C library's).  Sockets and TLS ([net/src/sock.c], [tls.c]) and the
    loader of the datapath ([gtp/u/src/gtpu_ebpf.c]) are sequences of calls of the
    system, OpenSSL and libbpf.  The JSON writer's doubles print with [snprintf] and
    read back with [strtod]; reading [resolv.conf] is file input, its result an argument.
    What the kernel, the clock and the allocator answer, how the kernel lays out its
    structures, and the maps and helpers of the datapath's programs are arguments, or
    fields of a class with the laws their documentation states.  A callback of the
    application is the last step of what calls it: one that calls back into the library
    from inside is not followed.  The C++ bindings, the code generators with the message
    layers they generate, the examples and the tests are glue around these parts. *)

From stdpp Require Export prelude.
From Stdlib Require Export Lia.

#[export] Set Default Goal Selector "!".

Open Scope Z_scope.

(** ** Fixed-width unsigned and signed integers

    A C integer is a [Z]; a conversion to an [n]-bit unsigned type is the
    residue modulo [2^n], and a conversion to a signed type the
    two's-complement reading of that residue (what gcc and clang define). *)

Definition u8 (x : Z) : Z := x mod 256.
Definition u16 (x : Z) : Z := x mod 65536.
Definition u32 (x : Z) : Z := x mod 4294967296.
Definition u64 (x : Z) : Z := x mod 18446744073709551616.

Definition i32 (x : Z) : Z :=
  let y := u32 x in if y <? 2147483648 then y else y - 4294967296.
Definition i64 (x : Z) : Z :=
  let y := u64 x in
  if y <? 9223372036854775808 then y else y - 18446744073709551616.

Definition UINT16_MAX : Z := 65535.
Definition UINT32_MAX : Z := 4294967295.
Definition UINT64_MAX : Z := 18446744073709551615.

(** No object is larger than this; buffers in the theorems are at most as
    long, so that offsets into them never wrap a [size_t]. *)
Definition OBJ_MAX : Z := 9223372036854775807.

Lemma u8_small x : 0 <= x < 256 → u8 x = x.
Proof. apply Z.mod_small. Qed.
Lemma u16_small x : 0 <= x < 65536 → u16 x = x.
Proof. apply Z.mod_small. Qed.
Lemma u32_small x : 0 <= x < 4294967296 → u32 x = x.
Proof. apply Z.mod_small. Qed.
Lemma u64_small x : 0 <= x < 18446744073709551616 → u64 x = x.
Proof. apply Z.mod_small. Qed.
Lemma u8_range x : 0 <= u8 x < 256.
Proof. by apply Z.mod_pos_bound. Qed.
Lemma u16_range x : 0 <= u16 x < 65536.
Proof. by apply Z.mod_pos_bound. Qed.
Lemma u32_range x : 0 <= u32 x < 4294967296.
Proof. by apply Z.mod_pos_bound. Qed.
Lemma u64_range x : 0 <= u64 x < 18446744073709551616.
Proof. by apply Z.mod_pos_bound. Qed.

Lemma i32_small x : 0 <= x < 2147483648 → i32 x = x.
Proof.
  intros. unfold i32. rewrite u32_small by lia.
  destruct (Z.ltb_spec x 2147483648); lia.
Qed.

Lemma i32_u32 x : -2147483648 <= x < 2147483648 → i32 (u32 x) = x.
Proof.
  intros. unfold i32, u32. rewrite Z.mod_mod by lia.
  destruct (Z.ltb_spec (x mod 4294967296) 2147483648);
    Z.to_euclidean_division_equations; lia.
Qed.

Lemma i64_u64 x :
  -9223372036854775808 <= x < 9223372036854775808 → i64 (u64 x) = x.
Proof.
  intros. unfold i64, u64. rewrite Z.mod_mod by lia.
  destruct (Z.ltb_spec (x mod 18446744073709551616) 9223372036854775808);
    Z.to_euclidean_division_equations; lia.
Qed.

(** ** Outcomes

    [Ok a] is a normal return, [Err rc] the return of the negative error code
    [rc] by a decoder whose output parameter is then meaningless, and [Ub] an
    access outside an object: undefined behaviour.  Memory safety of a routine
    is the theorem that it never yields [Ub]. *)

Inductive res (A : Type) : Type :=
| Ok (a : A)
| Err (rc : Z)
| Ub.
Arguments Ok {A} a.
Arguments Err {A} rc.
Arguments Ub {A}.

#[export] Instance res_ret : MRet res := @Ok.
#[export] Instance res_bind : MBind res := λ A B f m,
  match m with Ok a => f a | Err rc => Err rc | Ub => Ub end.

#[export] Instance res_eq_dec `{EqDecision A} : EqDecision (res A).
Proof. solve_decision. Defined.

Definition safe {A} (r : res A) : Prop := r ≠ Ub.

Lemma safe_Ok {A} (a : A) : safe (Ok a).
Proof. done. Qed.
Lemma safe_Err {A} rc : safe (@Err A rc).
Proof. done. Qed.
Lemma bind_assoc {A B C} (m : res A) (f : A → res B) (g : B → res C) :
  (m ≫= f) ≫= g = m ≫= (λ a, f a ≫= g).
Proof. by destruct m. Qed.

(** Runs a bind whose first computation has been evaluated. *)
Ltac bstep := cbn [mbind res_bind].

(** ** Memory

    A buffer is the list of its octets; pointers into it are offsets. *)

Abbreviation mem := (list Z).

Definition mlen (m : mem) : Z := Z.of_nat (length m).

(** [p[i]] read and written. *)
Definition rd (m : mem) (i : Z) : res Z :=
  if i <? 0 then Ub else
  match m !! Z.to_nat i with Some v => Ok v | None => Ub end.

Definition wr (m : mem) (i v : Z) : res mem :=
  if (0 <=? i) && (i <? mlen m) then Ok (<[Z.to_nat i := v]> m) else Ub.

(** [memcpy]/[memset] at an offset, and the bytes a [memcpy] reads. *)
Definition splice (m : mem) (i : Z) (bs : list Z) : mem :=
  take (Z.to_nat i) m ++ bs ++ drop (Z.to_nat (i + mlen bs)) m.

Definition slice (m : mem) (i n : Z) : list Z :=
  take (Z.to_nat n) (drop (Z.to_nat i) m).

Definition wrn (m : mem) (i : Z) (bs : list Z) : res mem :=
  if (0 <=? i) && (i + mlen bs <=? mlen m) then Ok (splice m i bs) else Ub.

Definition rdn (m : mem) (i n : Z) : res (list Z) :=
  if (0 <=? i) && (0 <=? n) && (i + n <=? mlen m) then Ok (slice m i n) else Ub.

Definition zeros (n : Z) : list Z := replicate (Z.to_nat n) 0.

(** An automatic array before it is written.  Its cells hold a value that is
    no octet, so that [bytes_ok] of what a routine emits shows that no
    uninitialised cell escapes. *)
Definition uninit (n : Z) : mem := replicate (Z.to_nat n) (-1).

Definition bytes_ok (m : list Z) : Prop := Forall (λ b, 0 <= b < 256) m.

(** The octet at an in-range offset. *)
Definition get (m : mem) (i : Z) : Z := nth (Z.to_nat i) m 0.

(** ** Lemmas on memory *)

Create HintDb cmem.
Create Rewrite HintDb cmem.

Lemma mlen_nonneg m : 0 <= mlen m.
Proof. unfold mlen. lia. Qed.
Lemma mlen_nil : mlen [] = 0.
Proof. done. Qed.
Lemma mlen_cons b m : mlen (b :: m) = 1 + mlen m.
Proof. unfold mlen. rewrite length_cons. lia. Qed.
Lemma mlen_app m1 m2 : mlen (m1 ++ m2) = mlen m1 + mlen m2.
Proof. unfold mlen. rewrite length_app. lia. Qed.
Lemma mlen_zeros n : 0 <= n → mlen (zeros n) = n.
Proof. intros. unfold mlen, zeros. rewrite length_replicate. lia. Qed.
Lemma mlen_uninit n : 0 <= n → mlen (uninit n) = n.
Proof. intros. unfold mlen, uninit. rewrite length_replicate. lia. Qed.
Lemma mlen_take n m : 0 <= n <= mlen m → mlen (take (Z.to_nat n) m) = n.
Proof. unfold mlen. intros. rewrite length_take. lia. Qed.
Lemma mlen_drop n m : 0 <= n <= mlen m → mlen (drop (Z.to_nat n) m) = mlen m - n.
Proof. unfold mlen. intros. rewrite length_drop. lia. Qed.
Lemma mlen_slice m i n :
  0 <= i → 0 <= n → i + n <= mlen m → mlen (slice m i n) = n.
Proof. unfold mlen, slice. intros. rewrite length_take, length_drop. lia. Qed.
Lemma mlen_splice m i bs :
  0 <= i → i + mlen bs <= mlen m → mlen (splice m i bs) = mlen m.
Proof.
  unfold mlen, splice. intros.
  rewrite !length_app, length_take, length_drop. unfold mlen. lia.
Qed.

(** Length arithmetic: [mlen_simp] computes the length of a buffer from its
    parts; files that add constructors of buffers extend [mlen_hook]. *)
Ltac mlen_hook := fail.
Ltac mlen_simp :=
  repeat first
    [ rewrite mlen_nil | rewrite mlen_cons | rewrite mlen_app
    | rewrite mlen_zeros by lia | rewrite mlen_uninit by lia
    | rewrite mlen_take by mlia | rewrite mlen_drop by mlia
    | rewrite mlen_slice by mlia | rewrite mlen_splice by mlia
    | mlen_hook ]
with mlia := mlen_simp; lia.

(** Evaluates the conversions between [Z] and [nat] literals. *)
Ltac nat_consts :=
  repeat match goal with
  | |- context [Z.to_nat (Z.pos ?p)] =>
      let k := eval vm_compute in (Z.to_nat (Z.pos p)) in
      change (Z.to_nat (Z.pos p)) with k
  | |- context [Z.to_nat 0] => change (Z.to_nat 0) with 0%nat
  | |- context [Z.of_nat O] => change (Z.of_nat 0) with 0
  | |- context [Z.of_nat (S ?n)] =>
      let k := eval vm_compute in (Z.of_nat (S n)) in
      lazymatch k with
      | Z.pos _ => change (Z.of_nat (S n)) with k
      end
  end.

(** *** Reads *)

Lemma rd_Ok m i : 0 <= i < mlen m → rd m i = Ok (get m i).
Proof.
  unfold mlen. intros. unfold rd, get. destruct (Z.ltb_spec i 0); [lia|].
  destruct (lookup_lt_is_Some_2 m (Z.to_nat i)) as [v Hv]; [lia|].
  rewrite Hv. by rewrite (nth_lookup_Some m (Z.to_nat i) 0 v Hv).
Qed.

Lemma get_range m i : bytes_ok m → 0 <= get m i < 256.
Proof.
  intros H. unfold get. rewrite nth_lookup.
  destruct (m !! Z.to_nat i) eqn:E; simpl; [|lia].
  by apply (Forall_lookup_1 _ _ _ _ H E).
Qed.

Lemma get_app_l m1 m2 i : 0 <= i < mlen m1 → get (m1 ++ m2) i = get m1 i.
Proof. unfold mlen, get. intros. rewrite app_nth1 by lia. done. Qed.
Lemma get_app_r m1 m2 i : 0 <= i → get (m1 ++ m2) (mlen m1 + i) = get m2 i.
Proof.
  unfold mlen, get. intros. rewrite app_nth2 by lia. f_equal. lia.
Qed.
Lemma get_app_ge m1 m2 i : mlen m1 <= i → get (m1 ++ m2) i = get m2 (i - mlen m1).
Proof.
  intros. rewrite <-(get_app_r m1 m2 (i - mlen m1)) by lia. f_equal. lia.
Qed.
Lemma get_drop m i j : 0 <= i → 0 <= j → get (drop (Z.to_nat i) m) j = get m (i + j).
Proof.
  intros. unfold get. rewrite !nth_lookup, lookup_drop. do 2 f_equal. lia.
Qed.

Lemma rdn_Ok m i n :
  0 <= i → 0 <= n → i + n <= mlen m → rdn m i n = Ok (slice m i n).
Proof.
  intros. unfold rdn.
  destruct (Z.leb_spec 0 i), (Z.leb_spec 0 n), (Z.leb_spec (i + n) (mlen m)); done || lia.
Qed.

(** *** Slices *)

Lemma slice_app_l m1 m2 i n :
  0 <= i → 0 <= n → i + n <= mlen m1 → slice (m1 ++ m2) i n = slice m1 i n.
Proof.
  unfold mlen, slice. intros. rewrite drop_app_le by lia.
  rewrite take_app_le; [done|]. rewrite length_drop. lia.
Qed.
Lemma slice_app_r m1 m2 i n :
  0 <= i → slice (m1 ++ m2) (mlen m1 + i) n = slice m2 i n.
Proof.
  unfold mlen, slice. intros. rewrite drop_app_ge by lia. do 2 f_equal. lia.
Qed.
Lemma slice_app_ge m1 m2 i n :
  mlen m1 <= i → slice (m1 ++ m2) i n = slice m2 (i - mlen m1) n.
Proof.
  unfold mlen, slice. intros. rewrite drop_app_ge by lia. do 2 f_equal. lia.
Qed.
Lemma slice_full m n : n = mlen m → slice m 0 n = m.
Proof. intros ->. unfold slice, mlen. rewrite drop_0. apply take_ge. lia. Qed.
Lemma slice_0 m i : slice m i 0 = [].
Proof. done. Qed.
Lemma slice_slice m i n j k :
  0 <= i → 0 <= j → 0 <= k → j + k <= n → slice (slice m i n) j k = slice m (i + j) k.
Proof.
  intros. unfold slice. rewrite skipn_firstn_comm, take_take, drop_drop.
  f_equal; [lia|]. f_equal. lia.
Qed.
Lemma get_slice m i n j : 0 <= i → 0 <= j < n → get (slice m i n) j = get m (i + j).
Proof.
  intros. unfold get, slice. rewrite !nth_lookup, lookup_take_lt by lia.
  rewrite lookup_drop. do 2 f_equal. lia.
Qed.
Lemma slice_cons m i n :
  0 <= i < mlen m → 0 < n → slice m i n = get m i :: slice m (i + 1) (n - 1).
Proof.
  unfold mlen. intros. unfold slice, get.
  destruct (lookup_lt_is_Some_2 m (Z.to_nat i)) as [v Hv]; [lia|].
  rewrite (drop_S _ _ _ Hv). rewrite (nth_lookup_Some m (Z.to_nat i) 0 v Hv).
  replace (Z.to_nat n) with (S (Z.to_nat (n - 1))) by lia.
  replace (Z.to_nat (i + 1)) with (S (Z.to_nat i)) by lia. done.
Qed.
Lemma slice_split m p n k :
  0 <= p → 0 <= n → 0 <= k → slice m p (n + k) = slice m p n ++ slice m (p + n) k.
Proof.
  intros. unfold slice.
  rewrite Z2Nat.inj_add, <-take_take_drop, drop_drop by lia.
  do 3 f_equal. lia.
Qed.
Lemma slice_get m i n :
  0 <= i → 0 <= n → i + n <= mlen m →
  slice m i n = map (λ k, get m (i + Z.of_nat k)) (seq 0 (Z.to_nat n)).
Proof.
  intros Hi Hn Hb. remember (Z.to_nat n) as k eqn:Hk. revert i n Hi Hn Hb Hk.
  induction k as [|k IH]; intros.
  - by replace n with 0 by lia.
  - rewrite slice_cons by lia. rewrite (IH (i + 1)) by lia. simpl.
    rewrite Z.add_0_r. f_equal. rewrite <-seq_shift, map_map.
    apply map_ext. intros. f_equal. lia.
Qed.
Lemma bytes_ok_slice m i n : bytes_ok m → bytes_ok (slice m i n).
Proof. intros. unfold slice. by apply Forall_take, Forall_drop. Qed.

(** *** Writes *)

Lemma wrn_Ok m i bs :
  0 <= i → i + mlen bs <= mlen m → wrn m i bs = Ok (splice m i bs).
Proof.
  intros. unfold wrn.
  destruct (Z.leb_spec 0 i), (Z.leb_spec (i + mlen bs) (mlen m)); done || lia.
Qed.

Lemma wr_wrn m i v : wr m i v = wrn m i [v].
Proof.
  unfold wr, wrn. rewrite mlen_cons, mlen_nil.
  destruct (Z.leb_spec 0 i), (Z.ltb_spec i (mlen m)), (Z.leb_spec (i + (1 + 0)) (mlen m));
    try done; try lia. simpl. f_equal. unfold mlen in *.
  rewrite insert_take_drop by lia. unfold splice. simpl. do 3 f_equal.
  unfold mlen; simpl. lia.
Qed.

Lemma splice_app m i bs cs :
  0 <= i → i + mlen bs <= mlen m →
  splice (splice m i bs) (i + mlen bs) cs = splice m i (bs ++ cs).
Proof.
  intros. assert (mlen (take (Z.to_nat i) m) = i) as Ht.
  { apply mlen_take. pose proof (mlen_nonneg bs). lia. }
  unfold splice. rewrite mlen_app. rewrite (app_assoc (take _ m) bs).
  rewrite take_app_length'; [|unfold mlen in *; rewrite length_app; lia].
  rewrite drop_app_ge by (unfold mlen in *; rewrite length_app; lia).
  rewrite drop_drop, <-!app_assoc. do 4 f_equal.
  unfold mlen in *. rewrite length_app. lia.
Qed.

(** Two adjacent writes are one. *)
Lemma wrn_app m i bs cs :
  wrn m i bs ≫= (λ m', wrn m' (i + mlen bs) cs) = wrn m i (bs ++ cs).
Proof.
  pose proof (mlen_nonneg bs). pose proof (mlen_nonneg cs).
  unfold wrn. rewrite mlen_app.
  destruct (Z.leb_spec 0 i); simpl; [|done].
  destruct (Z.leb_spec (i + mlen bs) (mlen m)); simpl.
  - rewrite mlen_splice by lia.
    destruct (Z.leb_spec 0 (i + mlen bs)); [|lia]. simpl.
    destruct (Z.leb_spec (i + mlen bs + mlen cs) (mlen m)),
      (Z.leb_spec (i + (mlen bs + mlen cs)) (mlen m)); try done; try lia.
    by rewrite splice_app by lia.
  - destruct (Z.leb_spec (i + (mlen bs + mlen cs)) (mlen m)); [lia|done].
Qed.

(** A write inside a range just written is a write into what was put there. *)
Lemma splice_in m i bs j cs :
  0 <= i → i + mlen bs <= mlen m → 0 <= j → j + mlen cs <= mlen bs →
  splice (splice m i bs) (i + j) cs = splice m i (splice bs j cs).
Proof.
  intros. pose proof (mlen_nonneg cs).
  assert (mlen (take (Z.to_nat i) m) = i) as Ht by (apply mlen_take; lia).
  unfold splice at 1 2. unfold splice at 1.
  rewrite mlen_splice by lia.
  assert (length (take (Z.to_nat i) m) = Z.to_nat i) as Hl by (unfold mlen in Ht; lia).
  rewrite take_app_ge by lia. rewrite Hl.
  rewrite take_app_le by (unfold mlen in *; lia).
  rewrite drop_app_ge by (rewrite Hl; unfold mlen in *; lia). rewrite Hl.
  rewrite drop_app_le by (unfold mlen in *; lia).
  unfold splice. rewrite <-!app_assoc. do 2 f_equal; [f_equal; lia|].
  do 2 f_equal. f_equal. lia.
Qed.

Lemma splice_0 m bs : splice m 0 bs = bs ++ drop (length bs) m.
Proof. unfold splice, mlen. by rewrite Z.add_0_l, Nat2Z.id. Qed.

Lemma splice_nil m i : splice m i [] = m.
Proof.
  unfold splice. rewrite mlen_nil, Z.add_0_r. simpl. apply take_drop.
Qed.

Lemma bytes_ok_app a b : bytes_ok (a ++ b) ↔ bytes_ok a ∧ bytes_ok b.
Proof. apply Forall_app. Qed.
Lemma bytes_ok_cons x b : bytes_ok (x :: b) ↔ 0 <= x < 256 ∧ bytes_ok b.
Proof. apply Forall_cons_iff. Qed.
Lemma bytes_ok_nil : bytes_ok [].
Proof. constructor. Qed.
Lemma bytes_ok_zeros n : bytes_ok (zeros n).
Proof. apply Forall_replicate. lia. Qed.
Lemma bytes_ok_splice m i bs : bytes_ok m → bytes_ok bs → bytes_ok (splice m i bs).
Proof.
  intros. unfold splice. rewrite !bytes_ok_app.
  split_and!; [by apply Forall_take|done|by apply Forall_drop].
Qed.

(** Octet lists built from octets; files that add encodings extend the hook. *)
Ltac bytes_hook := fail.
Ltac bytes_tac :=
  repeat first
    [ done | lia | bytes_hook | apply bytes_ok_nil | apply bytes_ok_zeros | apply u8_range
    | apply Z.mod_pos_bound; lia | apply bytes_ok_app; split | apply bytes_ok_cons; split ].

#[export] Hint Resolve bytes_ok_nil bytes_ok_zeros bytes_ok_splice bytes_ok_slice
  u8_range mlen_nonneg : cmem.

(** *** Reading back what was written *)

Lemma slice_splice_same m i n bs :
  n = mlen bs → 0 <= i → i + mlen bs <= mlen m → slice (splice m i bs) i n = bs.
Proof.
  intros ->. intros. unfold splice. pose proof (mlen_nonneg bs).
  rewrite slice_app_ge by (rewrite mlen_take; lia). rewrite mlen_take, Z.sub_diag by lia.
  by rewrite slice_app_l, slice_full by lia.
Qed.

Lemma slice_splice_disj m i bs j n :
  0 <= i → i + mlen bs <= mlen m → 0 <= j → 0 <= n → j + n <= mlen m →
  j + n <= i ∨ i + mlen bs <= j →
  slice (splice m i bs) j n = slice m j n.
Proof.
  intros ? ? ? ? ? [?|?]; pose proof (mlen_nonneg bs); unfold splice.
  - rewrite slice_app_l by (rewrite ?mlen_take; lia).
    unfold slice. rewrite skipn_firstn_comm, take_take. f_equal. lia.
  - rewrite app_assoc.
    rewrite slice_app_ge, mlen_app, mlen_take by (rewrite ?mlen_app, ?mlen_take; lia).
    unfold slice. rewrite drop_drop. do 2 f_equal. lia.
Qed.

Lemma get_splice_same m i v : 0 <= i < mlen m → get (splice m i [v]) i = v.
Proof.
  intros. unfold splice.
  rewrite get_app_ge by (rewrite mlen_take; lia). by rewrite mlen_take, Z.sub_diag by lia.
Qed.

Lemma get_via_slice m i : 0 <= i < mlen m → slice m i 1 = [get m i].
Proof. intros. by rewrite slice_cons by lia. Qed.

(** *** Writes out of order *)

Lemma splice_snoc m i bs cs :
  0 <= i → i + mlen bs + mlen cs <= mlen m →
  splice (splice m (i + mlen bs) cs) i bs = splice m i (bs ++ cs).
Proof.
  intros. pose proof (mlen_nonneg bs). pose proof (mlen_nonneg cs).
  unfold splice. rewrite mlen_app.
  rewrite take_app_le by (unfold mlen in *; rewrite length_take; lia).
  rewrite take_take, Nat.min_l by (unfold mlen in *; lia).
  rewrite <-app_assoc. do 2 f_equal.
  rewrite drop_app_ge by (rewrite length_take; unfold mlen in *; lia).
  replace (Z.to_nat (i + mlen bs) - length (take (Z.to_nat (i + mlen bs)) m))%nat with 0%nat
    by (rewrite length_take; unfold mlen in *; lia).
  rewrite drop_0. do 2 f_equal. lia.
Qed.

(** *** Writes into appended buffers, and disjoint writes *)

Lemma splice_app_l a b i bs :
  0 <= i → i + mlen bs <= mlen a → splice (a ++ b) i bs = splice a i bs ++ b.
Proof.
  intros. unfold splice. pose proof (mlen_nonneg bs). unfold mlen in *.
  by rewrite take_app_le, drop_app_le, <-!app_assoc by lia.
Qed.

Lemma splice_app_ge a b i bs :
  mlen a <= i → splice (a ++ b) i bs = a ++ splice b (i - mlen a) bs.
Proof.
  intros. unfold splice. pose proof (mlen_nonneg bs). unfold mlen in *.
  rewrite take_app_ge, drop_app_ge, <-!app_assoc by lia.
  do 2 f_equal; [f_equal; lia|]. do 2 f_equal. lia.
Qed.

Lemma mem_split m i : 0 <= i <= mlen m →
  ∃ a b, m = a ++ b ∧ mlen a = i.
Proof.
  intros. exists (take (Z.to_nat i) m), (drop (Z.to_nat i) m).
  rewrite take_drop, mlen_take by lia. done.
Qed.

Lemma splice_comm m i a j b :
  0 <= i → i + mlen a <= j → j + mlen b <= mlen m →
  splice (splice m i a) j b = splice (splice m j b) i a.
Proof.
  intros. pose proof (mlen_nonneg a). pose proof (mlen_nonneg b).
  destruct (mem_split m j) as (l & r & -> & <-); [lia|]. rewrite mlen_app in *.
  rewrite splice_app_l, (splice_app_ge l r) by lia.
  rewrite splice_app_ge, splice_app_l by mlia. do 2 f_equal. mlia.
Qed.

Lemma take_splice m i bs n :
  0 <= i → i + mlen bs <= n → n <= mlen m →
  take (Z.to_nat n) (splice m i bs) = splice (take (Z.to_nat n) m) i bs.
Proof.
  intros. pose proof (mlen_nonneg bs).
  destruct (mem_split m n) as (l & r & -> & <-); [lia|].
  rewrite splice_app_l by lia. unfold mlen. rewrite Nat2Z.id.
  rewrite take_app_length, take_app_length'; [done|].
  pose proof (mlen_splice l i bs). unfold mlen in *. lia.
Qed.

Lemma take_splice_end m i bs :
  0 <= i → i + mlen bs <= mlen m →
  take (Z.to_nat (i + mlen bs)) (splice m i bs) = take (Z.to_nat i) m ++ bs.
Proof.
  intros. unfold splice. pose proof (mlen_nonneg bs). rewrite app_assoc.
  apply take_app_length'. pose proof (mlen_take i m). unfold mlen in *.
  rewrite length_app. lia.
Qed.

(** ** Sequencing of writes *)

Lemma bind_ext {A B} (m : res A) (f g : A → res B) :
  (∀ a, f a = g a) → m ≫= f = m ≫= g.
Proof. intros H. destruct m; simpl; [apply H|done|done]. Qed.

Lemma wr_cons m i j v bs :
  j = i + 1 → wr m i v ≫= (λ m', wrn m' j bs) = wrn m i (v :: bs).
Proof.
  intros ->. rewrite wr_wrn. exact (wrn_app m i [v] bs).
Qed.

(** A write right after what has been written at [i] extends it. *)
Lemma wrn_next {A} (m : mem) i j bs cs (k : mem → res A) :
  j = i + mlen bs → 0 <= i → j + mlen cs <= mlen m →
  wrn (splice m i bs) j cs ≫= k = k (splice m i (bs ++ cs)).
Proof.
  intros -> Hi Hl. pose proof (mlen_nonneg bs). pose proof (mlen_nonneg cs).
  rewrite wrn_Ok by (rewrite ?mlen_splice by lia; lia). bstep. by rewrite splice_app by lia.
Qed.

(** The first write at [i]. *)
Lemma wrn_first {A} (m : mem) i cs (k : mem → res A) :
  0 <= i → i + mlen cs <= mlen m → wrn m i cs ≫= k = k (splice m i cs).
Proof. intros. by rewrite wrn_Ok. Qed.

(** Reads out of a buffer given as a concatenation. *)
Lemma rd_slice m i x : 0 <= i → slice m i 1 = [x] → rd m i = Ok x.
Proof.
  intros Hi Hs. assert (i < mlen m).
  { destruct (Z.lt_ge_cases i (mlen m)) as [|Hge]; [done|]. exfalso.
    unfold slice, mlen in *. rewrite drop_ge in Hs by lia. by rewrite take_nil in Hs. }
  rewrite rd_Ok by lia. rewrite get_via_slice in Hs by lia. congruence.
Qed.

Lemma slice_whole m i n : i = 0 → n = mlen m → slice m i n = m.
Proof. intros ->. apply slice_full. Qed.

(** Computes a slice of a concatenation that falls on its joints. *)
Ltac slice_at :=
  rewrite <-?app_assoc;
  repeat match goal with
  | |- context [slice (?a ++ ?b) ?i ?n] =>
      first [rewrite (slice_app_ge a b i n) by mlia | rewrite (slice_app_l a b i n) by mlia]
  end;
  repeat match goal with
  | |- context [slice ?a ?i ?n] => rewrite (slice_whole a i n) by mlia
  end.

(** *** Octets found at an offset *)

(** [bs] stands in [m] at [p]. *)
Definition holds (m : mem) (p : Z) (bs : list Z) : Prop :=
  0 <= p ∧ p + mlen bs <= mlen m ∧ slice m p (mlen bs) = bs.

Lemma holds_app m p a b : holds m p (a ++ b) → holds m p a ∧ holds m (p + mlen a) b.
Proof.
  unfold holds. rewrite mlen_app. intros (Hp & Hl & Hs).
  pose proof (mlen_nonneg a). pose proof (mlen_nonneg b).
  rewrite slice_split in Hs by lia.
  apply app_inj_1 in Hs as [Ha Hb].
  - split_and!; done || lia.
  - pose proof (mlen_slice m p (mlen a)). unfold mlen in *. lia.
Qed.
Lemma holds_cons m p x b : holds m p (x :: b) → rd m p = Ok x ∧ holds m (p + 1) b.
Proof.
  intros H. destruct (holds_app m p [x] b H) as [(Hp & _ & Hs) Hb].
  split; [|done]. by apply rd_slice.
Qed.
Lemma holds_pos m p b : holds m p b → 0 <= p ∧ p + mlen b <= mlen m.
Proof. by intros (? & ? & _). Qed.
Lemma holds_rdn m p b n : holds m p b → n = mlen b → rdn m p n = Ok b.
Proof.
  intros (Hp & Hl & Hs) ->. pose proof (mlen_nonneg b). rewrite rdn_Ok by lia. by rewrite Hs.
Qed.
Lemma holds_here m bs p r : p = mlen m → holds (m ++ bs ++ r) p bs.
Proof.
  intros ->. pose proof (mlen_nonneg m). pose proof (mlen_nonneg r).
  pose proof (mlen_nonneg bs). split_and!; [lia|mlia|].
  by rewrite slice_app_ge, Z.sub_diag, slice_app_l, slice_full by lia.
Qed.

(** A write over the octets a [memset] left. *)
Lemma splice_over m b j bs k cs :
  j = b + mlen bs → 0 <= b → mlen cs <= k → b + mlen bs + k <= mlen m →
  splice (splice m b (bs ++ zeros k)) j cs = splice m b ((bs ++ cs) ++ zeros (k - mlen cs)).
Proof.
  intros -> Hb Hk Hl. pose proof (mlen_nonneg bs). pose proof (mlen_nonneg cs).
  rewrite splice_in by mlia.
  f_equal. rewrite splice_app_ge, Z.sub_diag by lia. rewrite <-app_assoc. f_equal.
  rewrite splice_0. f_equal. unfold zeros. rewrite drop_replicate. f_equal.
  unfold mlen. lia.
Qed.
Lemma wrn_over {A} m b j bs k cs (K : mem → res A) :
  j = b + mlen bs → 0 <= b → mlen cs <= k → b + mlen bs + k <= mlen m →
  wrn (splice m b (bs ++ zeros k)) j cs ≫= K = K (splice m b ((bs ++ cs) ++ zeros (k - mlen cs))).
Proof.
  intros -> Hb Hk Hl. pose proof (mlen_nonneg bs). pose proof (mlen_nonneg cs).
  rewrite wrn_Ok by mlia. bstep. by rewrite splice_over by lia.
Qed.
Lemma zeros_cons k : 0 < k → zeros k = 0 :: zeros (k - 1).
Proof. intros. unfold zeros. by replace (Z.to_nat k) with (S (Z.to_nat (k - 1))) by lia. Qed.

(** Folds a chain of byte writes at consecutive offsets into one [wrn]. *)
Ltac wr_chain :=
  lazymatch goal with
  | |- wr _ _ _ = _ => apply wr_wrn
  | |- _ = _ =>
      etransitivity;
      [ apply bind_ext; intros ?; wr_chain
      | apply wr_cons; lia ]
  end.

(** ** Bit operations as arithmetic *)

Lemma lor_low x y k : 0 <= k → 0 <= y < 2 ^ k → Z.lor (Z.shiftl x k) y = x * 2 ^ k + y.
Proof.
  intros Hk Hy. rewrite <-Z.shiftl_mul_pow2 by done.
  rewrite <-Z.lxor_lor; [rewrite <-Z.add_nocarry_lxor; [done|]|];
    (apply Z.bits_inj'; intros n Hn; rewrite Z.land_spec, Z.bits_0, Z.shiftl_spec by done;
     destruct (Z.ltb_spec n k);
     [rewrite (Z.testbit_neg_r x) by lia; done
     |rewrite (proj1 (Z.bounded_iff_bits_nonneg k y Hk (proj1 Hy)) (proj2 Hy) n) by lia;
      apply andb_false_r]).
Qed.

(** Joins two adjacent octets of a big-endian load. *)
Lemma lor_octets a b j k :
  0 <= k → j = k + 8 → 0 <= b < 256 →
  Z.lor (Z.shiftl a j) (Z.shiftl b k) = Z.shiftl (a * 256 + b) k.
Proof.
  intros Hk -> Hb. rewrite Z.add_comm, <-Z.shiftl_shiftl, <-Z.shiftl_lor by lia.
  by rewrite lor_low by lia.
Qed.

Lemma lor_octet a b : 0 <= b < 256 → Z.lor (Z.shiftl a 8) b = a * 256 + b.
Proof. intros. by rewrite lor_low by lia. Qed.

Lemma shiftr_div x k : 0 <= k → Z.shiftr x k = x / 2 ^ k.
Proof. apply Z.shiftr_div_pow2. Qed.

(** ** Decidable facts about one octet, by enumeration *)

Lemma byte_forall (P : Z → bool) :
  forallb P (seqZ 0 256) = true → ∀ b, 0 <= b < 256 → P b = true.
Proof.
  intros H b Hb. rewrite forallb_forall in H. apply H.
  apply list_elem_of_In, elem_of_seqZ. lia.
Qed.

Lemma byte_prop (P : Z → Prop) `{∀ x, Decision (P x)} :
  forallb (λ x, bool_decide (P x)) (seqZ 0 256) = true → ∀ b, 0 <= b < 256 → P b.
Proof.
  intros E b Hb. apply (proj1 (bool_decide_eq_true (P b))).
  exact (byte_forall (λ x, @bool_decide (P x) (H x)) E b Hb).
Qed.

(** [byte_decide b] closes a decidable goal about the octet [b]. *)
Ltac byte_decide b :=
  pattern b;
  lazymatch goal with
  | |- ?P b => refine (byte_prop P _ b _); [vm_compute; reflexivity | done || lia]
  end.
