(* ===== verification/Endian.v ===== *)
(** * Endian: big-endian loads and stores

    Models [task/inc/endian.h].  Each helper is the byte-wise read or write of
    the source; the lemmas relate it to the abstract encoding [be_bytes] and
    decoding [be_val] of a whole field, which is what the codecs reason with. *)

From S2P Require Import Prelude.

(** ** The source's helpers *)

Definition be16_load (m : mem) (p : Z) : res Z :=
  a ← rd m p; b ← rd m (p + 1);
  Ok (u16 (Z.lor (u16 (Z.shiftl a 8)) b)).

Definition be24_load (m : mem) (p : Z) : res Z :=
  a ← rd m p; b ← rd m (p + 1); c ← rd m (p + 2);
  Ok (Z.lor (Z.lor (Z.shiftl a 16) (Z.shiftl b 8)) c).

Definition be32_load (m : mem) (p : Z) : res Z :=
  a ← rd m p; b ← rd m (p + 1); c ← rd m (p + 2); d ← rd m (p + 3);
  Ok (Z.lor (Z.lor (Z.lor (Z.shiftl a 24) (Z.shiftl b 16)) (Z.shiftl c 8)) d).

Definition be40_load (m : mem) (p : Z) : res Z :=
  a ← rd m p; b ← rd m (p + 1); c ← rd m (p + 2); d ← rd m (p + 3);
  e ← rd m (p + 4);
  Ok (Z.lor (Z.lor (Z.lor (Z.lor (Z.shiftl a 32) (Z.shiftl b 24)) (Z.shiftl c 16))
        (Z.shiftl d 8)) e).

Definition be64_load (m : mem) (p : Z) : res Z :=
  hi ← be32_load m p; lo ← be32_load m (p + 4);
  Ok (Z.lor (Z.shiftl hi 32) lo).

Definition be16_store (m : mem) (p v : Z) : res mem :=
  m ← wr m p (u8 (Z.shiftr v 8)); wr m (p + 1) (u8 v).

Definition be24_store (m : mem) (p v : Z) : res mem :=
  m ← wr m p (u8 (Z.shiftr v 16)); m ← wr m (p + 1) (u8 (Z.shiftr v 8));
  wr m (p + 2) (u8 v).

Definition be32_store (m : mem) (p v : Z) : res mem :=
  m ← wr m p (u8 (Z.shiftr v 24)); m ← wr m (p + 1) (u8 (Z.shiftr v 16));
  m ← wr m (p + 2) (u8 (Z.shiftr v 8)); wr m (p + 3) (u8 v).

Definition be40_store (m : mem) (p v : Z) : res mem :=
  m ← wr m p (u8 (Z.shiftr v 32)); m ← wr m (p + 1) (u8 (Z.shiftr v 24));
  m ← wr m (p + 2) (u8 (Z.shiftr v 16)); m ← wr m (p + 3) (u8 (Z.shiftr v 8));
  wr m (p + 4) (u8 v).

Definition be64_store (m : mem) (p v : Z) : res mem :=
  m ← be32_store m p (u32 (Z.shiftr v 32)); be32_store m (p + 4) (u32 v).

(** ** Fields as octet lists *)

(** The [n] low octets of [v], most significant first. *)
Fixpoint be_bytes (n : nat) (v : Z) : list Z :=
  match n with
  | O => []
  | S k => (v / 256 ^ Z.of_nat k) mod 256 :: be_bytes k v
  end.

Fixpoint be_val (bs : list Z) : Z :=
  match bs with
  | [] => 0
  | b :: bs => b * 256 ^ Z.of_nat (length bs) + be_val bs
  end.

Lemma length_be_bytes n v : length (be_bytes n v) = n.
Proof. induction n; simpl; congruence. Qed.
Lemma mlen_be_bytes n v : mlen (be_bytes n v) = Z.of_nat n.
Proof. unfold mlen. by rewrite length_be_bytes. Qed.

Ltac mlen_hook ::= rewrite mlen_be_bytes.

Lemma be_bytes_ok n v : bytes_ok (be_bytes n v).
Proof.
  induction n; simpl; constructor; [|done]. by apply Z.mod_pos_bound.
Qed.

Ltac bytes_hook ::= apply be_bytes_ok.

Lemma be_val_range bs : bytes_ok bs → 0 <= be_val bs < 256 ^ Z.of_nat (length bs).
Proof.
  induction 1 as [|b bs Hb _ IH]; simpl; [lia|].
  rewrite Nat2Z.inj_succ, Z.pow_succ_r by lia. nia.
Qed.

Lemma be_val_bytes n v : be_val (be_bytes n v) = v mod 256 ^ Z.of_nat n.
Proof.
  induction n as [|n IH]; simpl; [by rewrite Z.mod_1_r|].
  rewrite IH, length_be_bytes, Nat2Z.inj_succ, Z.pow_succ_r, (Z.mul_comm 256) by lia.
  rewrite Z.rem_mul_r by lia. lia.
Qed.

Lemma be_bytes_mod n v : be_bytes n (v mod 256 ^ Z.of_nat n) = be_bytes n v.
Proof.
  assert (∀ k, (k <= n)%nat → be_bytes k (v mod 256 ^ Z.of_nat n) = be_bytes k v) as H.
  { induction k as [|k IH]; intros Hk; [done|]. simpl. rewrite IH by lia. f_equal.
    replace (Z.of_nat n) with (Z.of_nat k + 1 + Z.of_nat (n - k - 1)) by lia.
    rewrite !Z.pow_add_r, Z.pow_1_r, <-Z.mul_assoc by lia.
    rewrite (Z.rem_mul_r v (256 ^ Z.of_nat k)) by lia.
    rewrite (Z.mul_comm (256 ^ Z.of_nat k)), Z.div_add by lia.
    rewrite Z.div_small by (apply Z.mod_pos_bound; lia). rewrite Z.add_0_l.
    rewrite Z.rem_mul_r by lia.
    rewrite (Z.mul_comm 256), Z.mod_add by lia. by rewrite Z.mod_mod. }
  by apply H.
Qed.

Lemma be_bytes_val bs : bytes_ok bs → be_bytes (length bs) (be_val bs) = bs.
Proof.
  induction 1 as [|b bs Hb Hbs IH]; [done|]. simpl.
  pose proof (be_val_range bs Hbs).
  assert (256 ^ Z.of_nat (length bs) ≠ 0) by lia.
  rewrite Z.div_add_l by done. rewrite (Z.div_small (be_val bs)) by done.
  rewrite Z.add_0_r, Z.mod_small by done.
  f_equal. transitivity (be_bytes (length bs) (be_val bs)); [|done].
  rewrite <-be_bytes_mod, (Z.add_comm _ (be_val bs)), Z.mod_add by done.
  apply be_bytes_mod.
Qed.

(** ** The helpers in terms of fields *)

Ltac store_bytes :=
  etransitivity; [wr_chain|]; f_equal; unfold u8; rewrite ?shiftr_div by lia;
  simpl; repeat f_equal; try (symmetry; apply Z.div_1_r).

Lemma be16_store_bytes m p v : be16_store m p v = wrn m p (be_bytes 2 v).
Proof. unfold be16_store. store_bytes. Qed.
Lemma be24_store_bytes m p v : be24_store m p v = wrn m p (be_bytes 3 v).
Proof. unfold be24_store. store_bytes. Qed.
Lemma be32_store_bytes m p v : be32_store m p v = wrn m p (be_bytes 4 v).
Proof. unfold be32_store. store_bytes. Qed.
Lemma be40_store_bytes m p v : be40_store m p v = wrn m p (be_bytes 5 v).
Proof. unfold be40_store. store_bytes. Qed.

Lemma be_bytes_app j k v :
  be_bytes (j + k) v = be_bytes j (v / 256 ^ Z.of_nat k) ++ be_bytes k v.
Proof.
  induction j as [|j IH]; simpl; [done|]. rewrite IH. f_equal.
  rewrite Nat2Z.inj_add, Z.pow_add_r, Z.mul_comm, Z.div_div by lia. done.
Qed.

Lemma be64_store_bytes m p v : be64_store m p v = wrn m p (be_bytes 8 v).
Proof.
  unfold be64_store. rewrite be32_store_bytes.
  erewrite bind_ext by (intros; apply be32_store_bytes).
  rewrite (wrn_app m p (be_bytes 4 _) (be_bytes 4 _)). f_equal.
  change 8%nat with (4 + 4)%nat. rewrite (be_bytes_app 4 4 v), shiftr_div by lia.
  f_equal; apply (be_bytes_mod 4).
Qed.

Lemma be_val_app a b : be_val (a ++ b) = be_val a * 256 ^ Z.of_nat (length b) + be_val b.
Proof.
  induction a as [|x a IH]; simpl; [lia|].
  rewrite IH, length_app, Nat2Z.inj_add, Z.pow_add_r by lia. lia.
Qed.

(** A field found at an offset. *)
Lemma holds_field m p k v n : holds m p (be_bytes k v) → n = Z.of_nat k →
  0 <= v < 256 ^ Z.of_nat k → be_val (slice m p n) = v.
Proof.
  intros (_ & _ & Hs) -> Hv. rewrite mlen_be_bytes in Hs. rewrite Hs, be_val_bytes.
  by apply Z.mod_small.
Qed.

Ltac load_bytes :=
  rewrite !rd_Ok by lia; simpl;
  rewrite slice_get by lia; nat_consts; simpl; nat_consts; rewrite ?Z.add_0_r; f_equal;
  rewrite ?(lor_octets _ _ 32 24), ?(lor_octets _ _ 24 16), ?(lor_octets _ _ 16 8),
    ?lor_octet by (done || by apply get_range).

Section loads.
Context (m : mem) (Hm : bytes_ok m).

Lemma be16_load_val p :
  0 <= p → p + 2 <= mlen m → be16_load m p = Ok (be_val (slice m p 2)).
Proof using Hm.
  intros. unfold be16_load. load_bytes.
  pose proof (get_range m p Hm). pose proof (get_range m (p + 1) Hm).
  rewrite (u16_small (Z.shiftl _ 8)) by (rewrite Z.shiftl_mul_pow2 by lia; lia).
  rewrite lor_octet by done. rewrite u16_small by lia. lia.
Qed.
Lemma be24_load_val p :
  0 <= p → p + 3 <= mlen m → be24_load m p = Ok (be_val (slice m p 3)).
Proof using Hm. intros. unfold be24_load. load_bytes. lia. Qed.
Lemma be32_load_val p :
  0 <= p → p + 4 <= mlen m → be32_load m p = Ok (be_val (slice m p 4)).
Proof using Hm. intros. unfold be32_load. load_bytes. lia. Qed.
Lemma be40_load_val p :
  0 <= p → p + 5 <= mlen m → be40_load m p = Ok (be_val (slice m p 5)).
Proof using Hm. intros. unfold be40_load. load_bytes. lia. Qed.

Lemma be64_load_val p :
  0 <= p → p + 8 <= mlen m → be64_load m p = Ok (be_val (slice m p 8)).
Proof using Hm.
  intros. unfold be64_load. rewrite !be32_load_val by lia. simpl. f_equal.
  assert (length (slice m (p + 4) 4) = 4%nat) as Hl.
  { pose proof (mlen_slice m (p + 4) 4). unfold mlen in *. lia. }
  pose proof (be_val_range (slice m (p + 4) 4) ltac:(auto with cmem)) as Hr.
  rewrite Hl in Hr. change 8 with (4 + 4). rewrite slice_split, be_val_app, Hl by lia.
  by rewrite lor_low by lia.
Qed.
End loads.

#[export] Hint Rewrite be16_store_bytes be24_store_bytes be32_store_bytes be40_store_bytes
  be64_store_bytes : cmem.
