(* ===== verification/Tlv.v ===== *)
(** * Tlv: the generic zero-copy TLV codec

    Models [task/inc/tlv.h]: the wire-format descriptor, the iterator and the
    write buffer with its sticky overflow.  A view's [value] pointer is the
    offset of the value in the buffer that is walked, so nothing is copied. *)

From Stdlib Require Import Sorted.
From S2P Require Import Prelude Endian.

(** The byte order of the machine; host-order fields (netlink) depend on it. *)
Class HostOrder : Type := host_big : bool.

Definition TLV_OK : Z := 0.
Definition TLV_E_OVERFLOW : Z := -1.
Definition TLV_E_INVAL : Z := -2.
Definition TLV_NO_META : Z := 255.

(** ** Data *)

Record tlv_prof := TlvProf {
  hdr_len : Z; type_off : Z; type_size : Z; len_off : Z; len_size : Z;
  meta_off : Z; align : Z; len_incl_hdr : bool; big_endian : bool }.

Definition TLV_PROF_GTP2C : tlv_prof :=
  {| hdr_len := 4; type_off := 0; type_size := 1; len_off := 1; len_size := 2;
     meta_off := 3; align := 1; len_incl_hdr := false; big_endian := true |}.

Definition TLV_PROF_DIAMETER : tlv_prof :=
  {| hdr_len := 8; type_off := 0; type_size := 4; len_off := 5; len_size := 3;
     meta_off := 4; align := 4; len_incl_hdr := true; big_endian := true |}.

Definition TLV_PROF_NETLINK : tlv_prof :=
  {| hdr_len := 4; type_off := 2; type_size := 2; len_off := 0; len_size := 2;
     meta_off := TLV_NO_META; align := 4; len_incl_hdr := true; big_endian := false |}.

Record tlv_view := TlvView { v_type : Z; v_len : Z; v_meta : Z; v_value : Z }.

Record tlv_iter := TlvIter { it_cur : Z; it_end : Z; it_prof : tlv_prof }.

Record tlv_wbuf := TlvWbuf { w_buf : mem; w_cap : Z; w_off : Z; w_overflow : bool }.

Section codec.
Context `{HO : HostOrder}.

(** ** Header fields *)

(** An integer object read from, and copied to, its bytes in memory. *)
Definition host_val (bs : list Z) : Z :=
  if host_big then be_val bs else be_val (rev bs).
Definition host_bytes (n : nat) (v : Z) : list Z :=
  if host_big then be_bytes n v else rev (be_bytes n v).

Fixpoint load_loop (m : mem) (p : Z) (n : nat) (i v : Z) : res Z :=
  match n with
  | O => Ok v
  | S n => b ← rd m (p + i); load_loop m p n (i + 1) (Z.lor (u32 (Z.shiftl v 8)) b)
  end.

Definition tlv_load (m : mem) (p size : Z) (be : bool) : res Z :=
  if be then load_loop m p (Z.to_nat size) 0 0
  else if size =? 2 then bs ← rdn m p 2; Ok (host_val bs)
  else if size =? 4 then bs ← rdn m p 4; Ok (host_val bs)
  else rd m p.

Fixpoint store_loop (m : mem) (p : Z) (n : nat) (v : Z) : res mem :=
  match n with
  | O => Ok m
  | S i => m ← wr m (p + Z.of_nat i) (u8 v); store_loop m p i (Z.shiftr v 8)
  end.

Definition tlv_store (m : mem) (p size : Z) (be : bool) (v : Z) : res mem :=
  if be then store_loop m p (Z.to_nat size) v
  else if size =? 2 then wrn m p (host_bytes 2 (u16 v))
  else if size =? 4 then wrn m p (host_bytes 4 v)
  else wr m p (u8 v).

Definition tlv_len_max (size : Z) : Z :=
  if 4 <=? size then UINT32_MAX else u32 (Z.shiftl 1 (8 * size)) - 1.

(** ** Zero-copy decode *)

Definition tlv_iter_init (p : tlv_prof) (payload len : Z) : tlv_iter :=
  {| it_cur := payload; it_end := payload + len; it_prof := p |}.

Definition tlv_iter_grouped (p : tlv_prof) (grouped : tlv_view) : tlv_iter :=
  {| it_cur := v_value grouped; it_end := v_value grouped + v_len grouped;
     it_prof := p |}.

(** [n] rounded up to the profile's alignment. *)
Definition round_up (p : tlv_prof) (n : Z) : Z :=
  if 1 <? align p then
    let rem := n mod align p in
    if rem =? 0 then n else u64 (n + (align p - rem))
  else n.

(** [None] is the [false] return: end of stream, or a malformed entry. *)
Definition tlv_iter_next (m : mem) (it : tlv_iter) :
    res (option (tlv_view * tlv_iter)) :=
  let p := it_prof it in
  let avail := u64 (it_end it - it_cur it) in
  if avail <? hdr_len p then Ok None else
  lfield ← tlv_load m (it_cur it + len_off p) (len_size p) (big_endian p);
  if len_incl_hdr p && (lfield <? hdr_len p) then Ok None else
  let vlen := if len_incl_hdr p then u32 (lfield - hdr_len p) else lfield in
  if u64 (avail - hdr_len p) <? vlen then Ok None else
  type ← tlv_load m (it_cur it + type_off p) (type_size p) (big_endian p);
  meta ← (if meta_off p =? TLV_NO_META then Ok 0 else rd m (it_cur it + meta_off p));
  let out := {| v_type := type; v_len := vlen; v_meta := meta;
                v_value := it_cur it + hdr_len p |} in
  let adv := round_up p (u64 (hdr_len p + vlen)) in
  Ok (Some (out, {| it_cur := it_cur it + (if adv <? avail then adv else avail);
                    it_end := it_end it; it_prof := p |})).

(** ** Encode *)

Definition tlv_wbuf_init (buf : mem) (cap : Z) : tlv_wbuf :=
  {| w_buf := buf; w_cap := cap; w_off := 0; w_overflow := false |}.

Definition set_overflow (w : tlv_wbuf) : tlv_wbuf :=
  {| w_buf := w_buf w; w_cap := w_cap w; w_off := w_off w; w_overflow := true |}.
Definition set_buf (w : tlv_wbuf) (b : mem) (off : Z) : tlv_wbuf :=
  {| w_buf := b; w_cap := w_cap w; w_off := off; w_overflow := w_overflow w |}.

Definition tlv_wbuf_reserve (w : tlv_wbuf) (n : Z) : tlv_wbuf * Z :=
  if w_overflow w then (w, TLV_E_OVERFLOW)
  else if u64 (w_cap w - w_off w) <? n then (set_overflow w, TLV_E_OVERFLOW)
  else (w, TLV_OK).

Definition tlv_put (w : tlv_wbuf) (p : tlv_prof) (type meta : Z) (val : mem) (vlen : Z) :
    res (tlv_wbuf * Z) :=
  let lfield := if len_incl_hdr p then u32 (hdr_len p + vlen) else vlen in
  if (lfield <? vlen) || (tlv_len_max (len_size p) <? lfield) then Ok (w, TLV_E_INVAL) else
  let total := round_up p (u64 (hdr_len p + vlen)) in
  let '(w, rc) := tlv_wbuf_reserve w total in
  if negb (rc =? 0) then Ok (w, rc) else
  let q := w_off w in
  b ← wrn (w_buf w) q (zeros (hdr_len p));
  b ← tlv_store b (q + type_off p) (type_size p) (big_endian p) type;
  b ← tlv_store b (q + len_off p) (len_size p) (big_endian p) lfield;
  b ← (if meta_off p =? TLV_NO_META then Ok b else wr b (q + meta_off p) meta);
  b ← (if vlen =? 0 then Ok b else bs ← rdn val 0 vlen; wrn b (q + hdr_len p) bs);
  b ← wrn b (q + hdr_len p + vlen) (zeros (total - hdr_len p - vlen));
  Ok (set_buf w b (u64 (w_off w + total)), TLV_OK).

Definition tlv_put_u8 (w : tlv_wbuf) (p : tlv_prof) (type meta v : Z) : res (tlv_wbuf * Z) :=
  tlv_put w p type meta [v] 1.

Definition tlv_put_u16 (w : tlv_wbuf) (p : tlv_prof) (type meta v : Z) : res (tlv_wbuf * Z) :=
  b ← tlv_store (uninit 2) 0 2 (big_endian p) v;
  tlv_put w p type meta b 2.

Definition tlv_put_u32 (w : tlv_wbuf) (p : tlv_prof) (type meta v : Z) : res (tlv_wbuf * Z) :=
  b ← tlv_store (uninit 4) 0 4 (big_endian p) v;
  tlv_put w p type meta b 4.

Definition tlv_begin (w : tlv_wbuf) (p : tlv_prof) (type meta : Z) : res (tlv_wbuf * Z) :=
  let '(w, rc) := tlv_wbuf_reserve w (hdr_len p) in
  if negb (rc =? 0) then Ok (w, rc) else
  let off := w_off w in
  b ← wrn (w_buf w) off (zeros (hdr_len p));
  b ← tlv_store b (off + type_off p) (type_size p) (big_endian p) type;
  b ← (if meta_off p =? TLV_NO_META then Ok b else wr b (off + meta_off p) meta);
  Ok (set_buf w b (u64 (off + hdr_len p)), i32 off).

Definition tlv_end (w : tlv_wbuf) (p : tlv_prof) (handle : Z) : res (tlv_wbuf * Z) :=
  if w_overflow w then Ok (w, TLV_E_OVERFLOW) else
  if handle <? 0 then Ok (w, TLV_E_INVAL) else
  let off := handle in
  if w_off w <? u64 (off + hdr_len p) then Ok (w, TLV_E_INVAL) else
  let content := u64 (w_off w - off) in
  let lfield := if len_incl_hdr p then content else u64 (content - hdr_len p) in
  if tlv_len_max (len_size p) <? lfield then Ok (w, TLV_E_OVERFLOW) else
  b ← tlv_store (w_buf w) (off + len_off p) (len_size p) (big_endian p) (u32 lfield);
  let w := set_buf w b (w_off w) in
  if 1 <? align p then
    let rem := content mod align p in
    if negb (rem =? 0) then
      let pad := align p - rem in
      let '(w, rc) := tlv_wbuf_reserve w pad in
      if negb (rc =? 0) then Ok (w, rc) else
      b ← wrn (w_buf w) (w_off w) (zeros pad);
      Ok (set_buf w b (u64 (w_off w + pad)), TLV_OK)
    else Ok (w, TLV_OK)
  else Ok (w, TLV_OK).
End codec.

(** ** Profiles the codec supports *)

(** The fields lie in the header without overlap and have a width the loads
    and stores handle. *)
Definition field_okb (be : bool) (size : Z) : bool :=
  (1 <=? size) && (size <=? 4) && (be || negb (size =? 3)).
Definition disjointb (o1 n1 o2 n2 : Z) : bool := (o1 + n1 <=? o2) || (o2 + n2 <=? o1).

Definition prof_okb (p : tlv_prof) : bool :=
  (hdr_len p <? 255) && (1 <=? align p) && (align p <? 256) &&
  field_okb (big_endian p) (type_size p) && field_okb (big_endian p) (len_size p) &&
  (0 <=? type_off p) && (type_off p + type_size p <=? hdr_len p) &&
  (0 <=? len_off p) && (len_off p + len_size p <=? hdr_len p) &&
  disjointb (type_off p) (type_size p) (len_off p) (len_size p) &&
  ((meta_off p =? TLV_NO_META) ||
   (0 <=? meta_off p) && (meta_off p <? hdr_len p) &&
   disjointb (meta_off p) 1 (type_off p) (type_size p) &&
   disjointb (meta_off p) 1 (len_off p) (len_size p)).

Class ProfOk (p : tlv_prof) : Prop := prof_ok : prof_okb p = true.

#[export] Instance gtp2c_ok : ProfOk TLV_PROF_GTP2C.
Proof. reflexivity. Qed.
#[export] Instance diameter_ok : ProfOk TLV_PROF_DIAMETER.
Proof. reflexivity. Qed.
#[export] Instance netlink_ok : ProfOk TLV_PROF_NETLINK.
Proof. reflexivity. Qed.

Lemma field_okb_spec be size :
  field_okb be size = true → 1 <= size <= 4 ∧ (be = true ∨ size ≠ 3).
Proof. unfold field_okb. destruct be; simpl; lia. Qed.
Lemma disjointb_spec o1 n1 o2 n2 :
  disjointb o1 n1 o2 n2 = true → o1 + n1 <= o2 ∨ o2 + n2 <= o1.
Proof. unfold disjointb. lia. Qed.

Record prof_props (p : tlv_prof) : Prop := {
  pp_hdr : 0 < hdr_len p < 255;
  pp_align : 1 <= align p < 256;
  pp_tsize : 1 <= type_size p <= 4 ∧ (big_endian p = true ∨ type_size p ≠ 3);
  pp_lsize : 1 <= len_size p <= 4 ∧ (big_endian p = true ∨ len_size p ≠ 3);
  pp_type : 0 <= type_off p ∧ type_off p + type_size p <= hdr_len p;
  pp_len : 0 <= len_off p ∧ len_off p + len_size p <= hdr_len p;
  pp_tl : type_off p + type_size p <= len_off p ∨ len_off p + len_size p <= type_off p;
  pp_meta : meta_off p = TLV_NO_META ∨
    (0 <= meta_off p < hdr_len p ∧
     (meta_off p + 1 <= type_off p ∨ type_off p + type_size p <= meta_off p) ∧
     (meta_off p + 1 <= len_off p ∨ len_off p + len_size p <= meta_off p)) }.

Lemma prof_ok_props p `{!ProfOk p} : prof_props p.
Proof.
  unfold ProfOk, prof_okb in *. repeat rewrite andb_true_iff in *. destruct_and!.
  repeat match goal with
  | H : field_okb _ _ = true |- _ => apply field_okb_spec in H
  end. unfold disjointb, TLV_NO_META in *. constructor; unfold TLV_NO_META; done || lia.
Qed.

Lemma len_size_pow p `{!ProfOk p} : 256 ^ len_size p <= 4294967296.
Proof.
  destruct (prof_ok_props p) as [_ _ _ [? _] _ _ _ _].
  change 4294967296 with (256 ^ 4). apply Z.pow_le_mono_r; lia.
Qed.

(** ** Fields and headers as octet lists *)

Section fields.
Context `{HO : HostOrder}.

Definition field_bytes (be : bool) (size v : Z) : list Z :=
  if be || host_big then be_bytes (Z.to_nat size) v
  else rev (be_bytes (Z.to_nat size) v).
Definition field_val (be : bool) (bs : list Z) : Z :=
  if be || host_big then be_val bs else be_val (rev bs).

Lemma mlen_field_bytes be size v : 0 <= size → mlen (field_bytes be size v) = size.
Proof.
  intros. unfold field_bytes, mlen.
  destruct (be || host_big); rewrite ?length_rev, length_be_bytes; lia.
Qed.
Ltac mlen_hook ::= first
  [ rewrite mlen_be_bytes | rewrite mlen_field_bytes by lia ].

Lemma field_bytes_ok be size v : bytes_ok (field_bytes be size v).
Proof.
  unfold field_bytes.
  destruct (be || host_big); [|apply Forall_rev]; apply be_bytes_ok.
Qed.

Lemma field_val_bytes be size v :
  0 <= size → field_val be (field_bytes be size v) = v mod 256 ^ size.
Proof.
  intros. unfold field_val, field_bytes.
  destruct (be || host_big); rewrite ?rev_involutive, be_val_bytes; do 2 f_equal; lia.
Qed.

Lemma field_val_range be size bs :
  bytes_ok bs → mlen bs = size → 0 <= field_val be bs < 256 ^ size.
Proof.
  intros Hbs <-. unfold field_val, mlen.
  destruct (be || host_big); [by apply be_val_range|].
  rewrite <-length_rev. apply be_val_range. by apply Forall_rev.
Qed.

Lemma store_loop_bytes p n : ∀ m v,
  0 <= p → p + Z.of_nat n <= mlen m →
  store_loop m p n v = wrn m p (be_bytes n v).
Proof.
  induction n as [|n IH]; intros m v Hp Hm; cbn [store_loop].
  - cbn [be_bytes]. rewrite wrn_Ok by (rewrite ?mlen_nil; lia). by rewrite splice_nil.
  - rewrite wr_wrn, wrn_Ok by (rewrite ?mlen_cons, ?mlen_nil; lia). cbn [mbind res_bind].
    assert (mlen (splice m (p + Z.of_nat n) [u8 v]) = mlen m) as Hl
      by (apply mlen_splice; rewrite ?mlen_cons, ?mlen_nil; lia).
    rewrite IH, !wrn_Ok by (rewrite ?Hl, ?mlen_be_bytes; lia).
    f_equal. rewrite <-(mlen_be_bytes n (Z.shiftr v 8)).
    rewrite splice_snoc by (rewrite ?mlen_be_bytes, ?mlen_cons, ?mlen_nil; lia).
    f_equal.
    replace (S n) with (n + 1)%nat by lia. rewrite be_bytes_app, shiftr_div by lia.
    f_equal. simpl. by rewrite Z.div_1_r.
Qed.

Lemma tlv_store_bytes m p be size v :
  1 <= size <= 4 → be = true ∨ size ≠ 3 → 0 <= p → p + size <= mlen m →
  tlv_store m p size be v = wrn m p (field_bytes be size v).
Proof.
  intros Hs Hbe Hp Hm. unfold tlv_store, field_bytes. destruct be; simpl.
  - apply store_loop_bytes; lia.
  - unfold host_bytes.
    destruct (Z.eqb_spec size 2) as [->|]; [nat_consts; f_equal; destruct host_big|].
    + apply (be_bytes_mod 2).
    + f_equal. apply (be_bytes_mod 2).
    + destruct (Z.eqb_spec size 4) as [->|]; [done|].
      replace size with 1 by lia. rewrite wr_wrn. f_equal.
      by destruct host_big; simpl; rewrite Z.div_1_r.
Qed.

Lemma load_loop_val m p n : ∀ i v,
  bytes_ok m → 0 <= p + i → p + i + Z.of_nat n <= mlen m →
  0 <= v → v * 256 ^ Z.of_nat n + 256 ^ Z.of_nat n <= 4294967296 →
  load_loop m p n i v =
    Ok (v * 256 ^ Z.of_nat n + be_val (slice m (p + i) (Z.of_nat n))).
Proof.
  induction n as [|n IH]; intros i v Hm Hi Hr Hv Hb; simpl.
  - nat_consts. f_equal. lia.
  - rewrite rd_Ok by lia. simpl. pose proof (get_range m (p + i) Hm) as Hg.
    rewrite Nat2Z.inj_succ, Z.pow_succ_r in * by lia.
    rewrite u32_small by (rewrite Z.shiftl_mul_pow2 by lia; nia).
    rewrite lor_octet by done. rewrite IH by (done || lia || nia). f_equal.
    rewrite (slice_cons m (p + i)) by lia.
    replace (p + (i + 1)) with (p + i + 1) by lia.
    replace (Z.succ (Z.of_nat n) - 1) with (Z.of_nat n) by lia. simpl.
    assert (length (slice m (p + i + 1) (Z.of_nat n)) = n) as ->; [|lia].
    pose proof (mlen_slice m (p + i + 1) (Z.of_nat n)). unfold mlen in *. lia.
Qed.

Lemma tlv_load_val m p be size :
  bytes_ok m → 1 <= size <= 4 → be = true ∨ size ≠ 3 → 0 <= p → p + size <= mlen m →
  tlv_load m p size be = Ok (field_val be (slice m p size)).
Proof.
  intros Hok Hs Hbe Hp Hm. unfold tlv_load, field_val. destruct be; simpl.
  - assert (size = 1 ∨ size = 2 ∨ size = 3 ∨ size = 4) as Hc by lia.
    rewrite load_loop_val by (done || lia || destruct_or! Hc; subst; simpl; nat_consts; lia).
    rewrite Z.mul_0_l, !Z.add_0_l, Z.add_0_r, Z2Nat.id by lia. done.
  - unfold host_val. destruct (Z.eqb_spec size 2) as [->|]; [by rewrite rdn_Ok by lia|].
    destruct (Z.eqb_spec size 4) as [->|]; [by rewrite rdn_Ok by lia|].
    replace size with 1 by lia. rewrite rd_Ok, get_via_slice by lia. f_equal.
    destruct host_big; simpl; lia.
Qed.

(** The header octets of an entry. *)
Definition tlv_hdr (p : tlv_prof) (type lfield meta : Z) : list Z :=
  let h := splice (zeros (hdr_len p)) (type_off p)
             (field_bytes (big_endian p) (type_size p) type) in
  let h := splice h (len_off p) (field_bytes (big_endian p) (len_size p) lfield) in
  if meta_off p =? TLV_NO_META then h else splice h (meta_off p) [meta].

Context (p : tlv_prof) `{POK : !ProfOk p}.

Ltac prof_facts :=
  destruct (prof_ok_props p) as [Hh Ha [Hts Hts'] [Hls Hls'] Ht Hl Htl Hmt].

Lemma mlen_tlv_hdr type lfield meta : mlen (tlv_hdr p type lfield meta) = hdr_len p.
Proof using POK.
  prof_facts. unfold tlv_hdr. destruct (Z.eqb_spec (meta_off p) TLV_NO_META);
    [mlia|destruct Hmt; [done|]; mlia].
Qed.

Lemma tlv_hdr_ok type lfield meta : 0 <= meta < 256 → bytes_ok (tlv_hdr p type lfield meta).
Proof.
  intros. unfold tlv_hdr. pose proof field_bytes_ok.
  destruct (Z.eqb_spec (meta_off p) TLV_NO_META); auto using bytes_ok_splice with cmem.
  apply bytes_ok_splice; [auto using bytes_ok_splice with cmem|].
  apply bytes_ok_cons. auto with cmem.
Qed.

Lemma tlv_hdr_len type lfield meta :
  slice (tlv_hdr p type lfield meta) (len_off p) (len_size p)
    = field_bytes (big_endian p) (len_size p) lfield.
Proof using POK.
  prof_facts. unfold tlv_hdr.
  destruct (Z.eqb_spec (meta_off p) TLV_NO_META) as [E|E].
  - apply slice_splice_same; mlia.
  - destruct Hmt; [done|]. rewrite slice_splice_disj by mlia.
    apply slice_splice_same; mlia.
Qed.

Lemma tlv_hdr_type type lfield meta :
  slice (tlv_hdr p type lfield meta) (type_off p) (type_size p)
    = field_bytes (big_endian p) (type_size p) type.
Proof using POK.
  prof_facts. unfold tlv_hdr.
  destruct (Z.eqb_spec (meta_off p) TLV_NO_META) as [E|E].
  - rewrite slice_splice_disj by mlia.
    apply slice_splice_same; mlia.
  - destruct Hmt; [done|]. rewrite !slice_splice_disj by mlia.
    apply slice_splice_same; mlia.
Qed.

Lemma tlv_hdr_meta type lfield meta :
  meta_off p ≠ TLV_NO_META → get (tlv_hdr p type lfield meta) (meta_off p) = meta.
Proof using POK.
  prof_facts. intros. unfold tlv_hdr. destruct Hmt; [done|].
  destruct (Z.eqb_spec (meta_off p) TLV_NO_META) as [E|E]; [done|].
  apply get_splice_same. mlia.
Qed.
End fields.

Ltac mlen_hook ::= first
  [ rewrite mlen_be_bytes | rewrite mlen_field_bytes by lia | rewrite mlen_tlv_hdr by exact _ ].

(** ** The write buffer as a stream *)

Section writer.
Context `{HO : HostOrder} (p : tlv_prof) `{POK : !ProfOk p}.

Definition wbuf_wf (w : tlv_wbuf) : Prop :=
  0 <= w_off w <= w_cap w ∧ w_cap w <= mlen (w_buf w) <= OBJ_MAX.

(** What has been written so far. *)
Definition written (w : tlv_wbuf) : list Z := take (Z.to_nat (w_off w)) (w_buf w).

Definition append (w : tlv_wbuf) (bs : list Z) : tlv_wbuf :=
  set_buf w (splice (w_buf w) (w_off w) bs) (w_off w + mlen bs).

(** [w'] is [w] with [bs] added to its stream. *)
Definition emits (w w' : tlv_wbuf) (bs : list Z) : Prop :=
  wbuf_wf w' ∧ w_cap w' = w_cap w ∧ w_overflow w' = w_overflow w ∧
  written w' = written w ++ bs.

Definition roomb (w : tlv_wbuf) (n : Z) : bool :=
  negb (w_overflow w) && (n <=? w_cap w - w_off w).

(** The length field of an entry, whether it fits its width, and the octets
    of a whole entry. *)
Definition len_field (vlen : Z) : Z := if len_incl_hdr p then hdr_len p + vlen else vlen.
Definition len_fits (vlen : Z) : bool := len_field vlen <? 256 ^ len_size p.

Definition pad_len (n : Z) : Z :=
  if 1 <? align p then if n mod align p =? 0 then 0 else align p - n mod align p else 0.

Definition tlv_entry (type meta : Z) (val : list Z) : list Z :=
  tlv_hdr p type (len_field (mlen val)) meta ++ val ++
  zeros (pad_len (hdr_len p + mlen val)).

Lemma written_append w bs :
  wbuf_wf w → mlen bs <= w_cap w - w_off w → written (append w bs) = written w ++ bs.
Proof.
  intros [? ?] ?. unfold written, append; simpl. apply take_splice_end; lia.
Qed.

Lemma append_wf w bs :
  wbuf_wf w → mlen bs <= w_cap w - w_off w → wbuf_wf (append w bs).
Proof.
  intros [? ?] ?. pose proof (mlen_nonneg bs). unfold wbuf_wf, append; simpl.
  rewrite mlen_splice; lia.
Qed.

Lemma append_emits w bs :
  wbuf_wf w → roomb w (mlen bs) = true → emits w (append w bs) bs.
Proof.
  intros Hw Hr. unfold roomb in Hr.
  split_and!; [apply append_wf; [done|lia]|done..|apply written_append; [done|lia]].
Qed.

Lemma mlen_written w : wbuf_wf w → mlen (written w) = w_off w.
Proof. intros [? ?]. unfold written. apply mlen_take. lia. Qed.

Lemma pad_len_range n : 0 <= pad_len n < 256.
Proof using POK.
  destruct (prof_ok_props p) as [_ ? _ _ _ _ _ _]. unfold pad_len.
  destruct (Z.ltb_spec 1 (align p)), (Z.eqb_spec (n mod align p) 0); try lia.
  pose proof (Z.mod_pos_bound n (align p)). lia.
Qed.

Lemma round_up_pad n : 0 <= n <= OBJ_MAX → round_up p n = n + pad_len n.
Proof using POK.
  intros. pose proof (pad_len_range n). unfold OBJ_MAX in *.
  unfold round_up. unfold pad_len in *.
  destruct (1 <? align p), (n mod align p =? 0); rewrite ?u64_small by lia; lia.
Qed.

Lemma tlv_len_max_spec n : 1 <= n <= 4 → tlv_len_max n = 256 ^ n - 1.
Proof.
  intros. assert (n = 1 ∨ n = 2 ∨ n = 3 ∨ n = 4) as Hc by lia.
  by destruct_or! Hc; subst.
Qed.

Lemma mlen_tlv_entry type meta val :
  mlen (tlv_entry type meta val)
    = hdr_len p + mlen val + pad_len (hdr_len p + mlen val).
Proof using POK.
  unfold tlv_entry. pose proof (pad_len_range (hdr_len p + mlen val)). mlia.
Qed.

Lemma set_overflow_id w : w_overflow w = true → set_overflow w = w.
Proof. destruct w; simpl. by intros ->. Qed.

Lemma reserve_spec w n :
  wbuf_wf w →
  tlv_wbuf_reserve w n =
    if roomb w n then (w, TLV_OK) else (set_overflow w, TLV_E_OVERFLOW).
Proof.
  intros [? ?]. unfold tlv_wbuf_reserve, roomb, OBJ_MAX in *.
  destruct (w_overflow w) eqn:Ho; simpl; [by rewrite set_overflow_id|].
  rewrite u64_small by lia.
  destruct (Z.ltb_spec (w_cap w - w_off w) n), (Z.leb_spec n (w_cap w - w_off w)); done || lia.
Qed.
End writer.

Ltac mlen_hook ::= first
  [ rewrite mlen_be_bytes | rewrite mlen_field_bytes by lia | rewrite mlen_tlv_hdr by exact _
  | rewrite mlen_tlv_entry by exact _ ].

(** ** What the write operations do *)

Section puts.
Context `{HO : HostOrder} (p : tlv_prof) `{POK : !ProfOk p}.

Ltac prof_facts :=
  destruct (prof_ok_props p) as [Hh Ha [Hts Hts'] [Hls Hls'] Ht Hl Htl Hmt].

(** The header as [tlv_begin] leaves it, without its length. *)
Definition tlv_hdr0 (type meta : Z) : list Z :=
  let h := splice (zeros (hdr_len p)) (type_off p)
             (field_bytes (big_endian p) (type_size p) type) in
  if meta_off p =? TLV_NO_META then h else splice h (meta_off p) [meta].

Lemma mlen_tlv_hdr0 type meta : mlen (tlv_hdr0 type meta) = hdr_len p.
Proof using POK.
  prof_facts. unfold tlv_hdr0. destruct (Z.eqb_spec (meta_off p) TLV_NO_META);
    [mlia|destruct Hmt; [done|]; mlia].
Qed.

Ltac mlen_hook ::= first
  [ rewrite mlen_be_bytes | rewrite mlen_field_bytes by lia
  | rewrite mlen_tlv_hdr by exact _ | rewrite mlen_tlv_entry by exact _
  | rewrite mlen_tlv_hdr0 ].

Lemma tlv_hdr0_len type meta lfield :
  splice (tlv_hdr0 type meta) (len_off p)
    (field_bytes (big_endian p) (len_size p) lfield) = tlv_hdr p type lfield meta.
Proof using POK.
  prof_facts. unfold tlv_hdr0, tlv_hdr.
  destruct (Z.eqb_spec (meta_off p) TLV_NO_META) as [|E]; [done|].
  destruct Hmt as [|(? & ? & [?|?])]; [done|..].
  - apply splice_comm; mlia.
  - symmetry. apply splice_comm; mlia.
Qed.

(** The stores of [tlv_put]'s header, at an offset with room for it. *)
Lemma put_hdr {A} (k : mem → res A) b q type lfield meta :
  0 <= q → q + hdr_len p <= mlen b →
  (b ← wrn b q (zeros (hdr_len p));
   b ← tlv_store b (q + type_off p) (type_size p) (big_endian p) type;
   b ← tlv_store b (q + len_off p) (len_size p) (big_endian p) lfield;
   b ← (if meta_off p =? TLV_NO_META then Ok b else wr b (q + meta_off p) meta);
   k b)
  = k (splice b q (tlv_hdr p type lfield meta)).
Proof using POK.
  prof_facts. intros. rewrite wrn_Ok by mlia. simpl.
  rewrite tlv_store_bytes, wrn_Ok by (done || mlia). simpl.
  rewrite tlv_store_bytes, wrn_Ok by (done || mlia). simpl.
  rewrite !splice_in by mlia. unfold tlv_hdr.
  destruct (Z.eqb_spec (meta_off p) TLV_NO_META); [done|]. destruct Hmt; [done|].
  rewrite wr_wrn, wrn_Ok, splice_in by mlia. done.
Qed.

Lemma begin_hdr {A} (k : mem → res A) b q type meta :
  0 <= q → q + hdr_len p <= mlen b →
  (b ← wrn b q (zeros (hdr_len p));
   b ← tlv_store b (q + type_off p) (type_size p) (big_endian p) type;
   b ← (if meta_off p =? TLV_NO_META then Ok b else wr b (q + meta_off p) meta);
   k b)
  = k (splice b q (tlv_hdr0 type meta)).
Proof using POK.
  prof_facts. intros. rewrite wrn_Ok by mlia. simpl.
  rewrite tlv_store_bytes, wrn_Ok by (done || mlia). simpl.
  rewrite !splice_in by mlia. unfold tlv_hdr0.
  destruct (Z.eqb_spec (meta_off p) TLV_NO_META); [done|]. destruct Hmt; [done|].
  rewrite wr_wrn, wrn_Ok, splice_in by mlia. done.
Qed.

(** The guard of [tlv_put] on the length field. *)
Lemma put_guard vlen :
  0 <= vlen < 4294967296 →
  let lfield := if len_incl_hdr p then u32 (hdr_len p + vlen) else vlen in
  (lfield <? vlen) || (tlv_len_max (len_size p) <? lfield) = negb (len_fits p vlen) ∧
  (len_fits p vlen = true → lfield = len_field p vlen).
Proof using POK.
  prof_facts. intros Hv. rewrite tlv_len_max_spec by lia.
  unfold len_fits, len_field.
  pose proof (len_size_pow p).
  destruct (len_incl_hdr p); simpl; [|lia]. unfold u32.
  destruct (Z.lt_ge_cases (hdr_len p + vlen) 4294967296).
  - rewrite Z.mod_small by lia. lia.
  - rewrite <-(Z.mod_add _ (-1)), Z.mod_small by lia. lia.
Qed.

Theorem tlv_put_eq w type meta val :
  wbuf_wf w → mlen val < 4294967296 →
  tlv_put w p type meta val (mlen val) =
    Ok (if len_fits p (mlen val) then
          if roomb w (mlen (tlv_entry p type meta val))
          then (append w (tlv_entry p type meta val), TLV_OK)
          else (set_overflow w, TLV_E_OVERFLOW)
        else (w, TLV_E_INVAL)).
Proof using POK.
  intros Hw Hv. pose proof (mlen_nonneg val) as Hv0. prof_facts.
  destruct (put_guard (mlen val)) as [Hg Hlf]; [lia|]. unfold tlv_put.
  rewrite Hg. destruct (len_fits p (mlen val)) eqn:Hfit; [|done].
  rewrite Hlf by done. cbn [negb].
  rewrite u64_small, (round_up_pad p) by (unfold OBJ_MAX; lia).
  rewrite reserve_spec, mlen_tlv_entry by done.
  pose proof (pad_len_range p (hdr_len p + mlen val)).
  destruct (roomb w _) eqn:Hroom; [|done]. cbn [negb Z.eqb TLV_OK].
  unfold roomb in Hroom. destruct Hw as [Ho Hc]. unfold OBJ_MAX in *.
  rewrite put_hdr by lia.
  set (h := tlv_hdr p type (len_field p (mlen val)) meta).
  assert (mlen h = hdr_len p) as Hhl by apply mlen_tlv_hdr, POK.
  assert ((if mlen val =? 0 then Ok (splice (w_buf w) (w_off w) h)
           else bs ← rdn val 0 (mlen val);
                wrn (splice (w_buf w) (w_off w) h) (w_off w + hdr_len p) bs)
          = Ok (splice (w_buf w) (w_off w) (h ++ val))) as ->.
  { destruct (Z.eqb_spec (mlen val) 0) as [E|E].
    - destruct val; [by rewrite app_nil_r|rewrite mlen_cons in E; pose proof (mlen_nonneg val); lia].
    - rewrite rdn_Ok, slice_full by lia. simpl.
      rewrite wrn_Ok by mlia. by rewrite <-Hhl, splice_app by lia. }
  simpl. rewrite wrn_Ok by mlia. simpl.
  replace (w_off w + hdr_len p + mlen val) with (w_off w + mlen (h ++ val)) by mlia.
  rewrite splice_app by mlia. rewrite u64_small by lia.
  unfold append. rewrite mlen_tlv_entry by exact _. unfold tlv_entry.
  do 3 f_equal.
  fold h. rewrite <-app_assoc. do 3 f_equal. f_equal. lia.
Qed.

(** Only the first [n] octets of the value buffer are read. *)
Lemma tlv_put_take w type meta val n :
  0 <= n <= mlen val →
  tlv_put w p type meta val n = tlv_put w p type meta (slice val 0 n) n.
Proof using.
  intros Hn. unfold tlv_put. rewrite (rdn_Ok val) by lia.
  rewrite (rdn_Ok (slice val 0 n)) by (rewrite ?mlen_slice by lia; lia).
  rewrite (slice_slice val 0 n 0 n) by lia. done.
Qed.

Lemma tlv_begin_eq w type meta :
  wbuf_wf w →
  tlv_begin w p type meta =
    Ok (if roomb w (hdr_len p)
        then (append w (tlv_hdr0 type meta), i32 (w_off w))
        else (set_overflow w, TLV_E_OVERFLOW)).
Proof using POK.
  intros Hw. prof_facts. unfold tlv_begin. rewrite reserve_spec by done.
  destruct (roomb w _) eqn:Hroom; [|done]. cbn [negb Z.eqb TLV_OK].
  unfold roomb in Hroom. destruct Hw as [Ho Hc]. unfold OBJ_MAX in *.
  rewrite begin_hdr, u64_small by lia. unfold append. by rewrite mlen_tlv_hdr0.
Qed.

Lemma roomb_overflow w n : roomb w n = true → w_overflow w = false.
Proof. unfold roomb. by destruct (w_overflow w). Qed.

(** Appending padding, as the tail of [tlv_end] does. *)
Lemma pad_eq w pad :
  wbuf_wf w → 0 < pad → roomb w pad = true →
  (let '(w, rc) := tlv_wbuf_reserve w pad in
   if negb (rc =? 0) then Ok (w, rc) else
   b ← wrn (w_buf w) (w_off w) (zeros pad);
   Ok (set_buf w b (u64 (w_off w + pad)), TLV_OK))
  = Ok (append w (zeros pad), TLV_OK).
Proof.
  intros Hw Hp Hr. rewrite reserve_spec, Hr by done. cbn [negb Z.eqb TLV_OK].
  unfold roomb in Hr. destruct Hw as [Ho Hc]. unfold OBJ_MAX in *.
  rewrite wrn_Ok by mlia. simpl. rewrite u64_small by lia.
  unfold append. rewrite mlen_zeros by lia. done.
Qed.

(** [tlv_end] fills in the length of the header at its handle, and pads. *)
Lemma tlv_end_eq w pre type meta body :
  wbuf_wf w → w_overflow w = false →
  written w = pre ++ tlv_hdr0 type meta ++ body →
  len_fits p (mlen body) = true →
  roomb w (pad_len p (hdr_len p + mlen body)) = true →
  ∃ w', tlv_end w p (mlen pre) = Ok (w', TLV_OK) ∧ wbuf_wf w' ∧
    w_cap w' = w_cap w ∧ w_overflow w' = false ∧
    written w' = pre ++ tlv_entry p type meta body.
Proof using POK.
  intros Hw Hno Hwr Hfit Hr. prof_facts.
  pose proof (mlen_written w Hw) as Hoff. rewrite Hwr in Hoff.
  rewrite !mlen_app, mlen_tlv_hdr0 in Hoff.
  pose proof (mlen_nonneg pre). pose proof (mlen_nonneg body).
  pose proof Hw as [Ho Hc]. unfold OBJ_MAX in *.
  unfold tlv_end. rewrite Hno.
  destruct (Z.ltb_spec (mlen pre) 0); [lia|].
  rewrite !u64_small by lia.
  destruct (Z.ltb_spec (w_off w) (mlen pre + hdr_len p)); [lia|].
  replace (if len_incl_hdr p then w_off w - mlen pre else w_off w - mlen pre - hdr_len p)
    with (len_field p (mlen body)) by (unfold len_field; destruct (len_incl_hdr p); lia).
  pose proof (len_size_pow p).
  unfold len_fits in Hfit.
  destruct (Z.ltb_spec (tlv_len_max (len_size p)) (len_field p (mlen body))) as [Hx|_].
  { rewrite tlv_len_max_spec in Hx by lia. lia. }
  rewrite u32_small by (unfold len_field in *; destruct (len_incl_hdr p); lia).
  rewrite tlv_store_bytes, wrn_Ok by (done || mlia). simpl.
  set (w1 := set_buf w _ _).
  assert (written w1 = pre ++ tlv_hdr p type (len_field p (mlen body)) meta ++ body) as Hw1.
  { unfold written, w1; simpl. rewrite take_splice by mlia.
    fold (written w). rewrite Hwr, splice_app_ge by lia.
    rewrite splice_app_l by mlia.
    replace (mlen pre + len_off p - mlen pre) with (len_off p) by lia.
    by rewrite tlv_hdr0_len. }
  assert (wbuf_wf w1) as Hwf1.
  { split; simpl; [done|]. unfold OBJ_MAX. mlia. }
  replace (w_off w - mlen pre) with (hdr_len p + mlen body) by lia.
  assert (∀ n, roomb w1 n = roomb w n) as Hrm by done.
  assert (w_overflow w1 = false) as Hno1 by done.
  assert (w_cap w1 = w_cap w) as Hcap1 by done. clearbody w1.
  unfold tlv_entry. unfold pad_len in *.
  destruct (1 <? align p);
    [|exists w1; rewrite app_nil_r; split_and!; done].
  destruct (Z.eqb_spec ((hdr_len p + mlen body) mod align p) 0); simpl;
    [exists w1; rewrite app_nil_r; split_and!; done|].
  pose proof (Z.mod_pos_bound (hdr_len p + mlen body) (align p)).
  rewrite pad_eq by (rewrite ?Hrm; done || lia).
  destruct (append_emits w1 (zeros (align p - (hdr_len p + mlen body) mod align p)))
    as (? & ? & ? & Hwa); [done|rewrite Hrm, mlen_zeros by lia; done|].
  eexists; split_and!; [done|done|congruence|congruence|].
  by rewrite Hwa, Hw1, <-!app_assoc.
Qed.
End puts.

(** ** Walking a stream *)

Section walk.
Context `{HO : HostOrder} (p : tlv_prof) `{POK : !ProfOk p}.

Ltac prof_facts :=
  destruct (prof_ok_props p) as [Hh Ha [Hts Hts'] [Hls Hls'] Ht Hl Htl Hmt].

(** The caller's loop [while (tlv_iter_next(&it, &v))]; running out of fuel
    counts as a failure. *)
Fixpoint tlv_walk (fuel : nat) (m : mem) (it : tlv_iter) : res (list tlv_view) :=
  match fuel with
  | O => Ub
  | S fuel =>
      r ← tlv_iter_next m it;
      match r with
      | None => Ok []
      | Some (v, it) => vs ← tlv_walk fuel m it; Ok (v :: vs)
      end
  end.

Definition iter_wf (m : mem) (it : tlv_iter) : Prop :=
  it_prof it = p ∧ bytes_ok m ∧ mlen m <= OBJ_MAX ∧
  0 <= it_cur it <= it_end it ∧ it_end it <= mlen m.

Definition view_in (it : tlv_iter) (v : tlv_view) : Prop :=
  it_cur it + hdr_len p <= v_value v ∧ 0 <= v_len v ∧
  v_value v + v_len v <= it_end it.

Lemma iter_next_safe m it :
  iter_wf m it →
  tlv_iter_next m it = Ok None ∨
  ∃ v it', tlv_iter_next m it = Ok (Some (v, it')) ∧ iter_wf m it' ∧
    view_in it v ∧ v_value v = it_cur it + hdr_len p ∧
    it_end it' = it_end it ∧ v_value v + v_len v <= it_cur it'.
Proof using POK.
  destruct it as [cur fin p']. intros (Hp & Hok & Hmax & Hcur & Hend).
  simpl in *. subst p'. prof_facts. unfold OBJ_MAX in *.
  unfold tlv_iter_next; simpl. rewrite u64_small by lia.
  destruct (Z.ltb_spec (fin - cur) (hdr_len p)); [by left|].
  rewrite (tlv_load_val m (cur + len_off p)) by (done || lia). cbn [mbind res_bind].
  set (lf := field_val _ _).
  assert (0 <= lf < 4294967296) as Hlf.
  { pose proof (field_val_range (big_endian p) (len_size p)
      (slice m (cur + len_off p) (len_size p))) as Hr.
    pose proof (len_size_pow p).
    specialize (Hr (bytes_ok_slice _ _ _ Hok)). rewrite mlen_slice in Hr by lia.
    specialize (Hr eq_refl). fold lf in Hr. lia. }
  destruct (len_incl_hdr p && (lf <? hdr_len p)) eqn:E1; [by left|].
  set (vl := if len_incl_hdr p then u32 (lf - hdr_len p) else lf).
  assert (0 <= vl < 4294967296) as Hvl.
  { unfold vl. destruct (len_incl_hdr p); simpl in E1; [|lia]. apply u32_range. }
  rewrite u64_small by lia.
  destruct (Z.ltb_spec (fin - cur - hdr_len p) vl); [by left|].
  rewrite tlv_load_val by (done || lia). simpl.
  assert (∃ b, (if meta_off p =? TLV_NO_META then Ok 0 else rd m (cur + meta_off p)) = Ok b)
    as [b ->].
  { destruct (Z.eqb_spec (meta_off p) TLV_NO_META); [by eexists|].
    destruct Hmt; [done|]. rewrite rd_Ok by lia. by eexists. }
  simpl. right. do 2 eexists. split; [done|].
  rewrite u64_small, (round_up_pad p) by (unfold OBJ_MAX; lia).
  pose proof (pad_len_range p (hdr_len p + vl)).
  unfold iter_wf, view_in; simpl. unfold OBJ_MAX.
  destruct (Z.ltb_spec (hdr_len p + vl + pad_len p (hdr_len p + vl)) (fin - cur));
    split_and!; done || lia.
Qed.

(** The fields of a view are as wide as the profile's. *)
Lemma iter_next_ranges m it v it' :
  iter_wf m it → tlv_iter_next m it = Ok (Some (v, it')) →
  0 <= v_type v < 256 ^ type_size p ∧ 0 <= v_len v < 256 ^ len_size p ∧ 0 <= v_meta v < 256.
Proof using POK.
  destruct it as [cur fin p']. intros (Hp & Hok & Hmax & Hcur & Hend).
  simpl in *. subst p'. prof_facts. unfold OBJ_MAX in *.
  unfold tlv_iter_next; simpl. rewrite u64_small by lia.
  destruct (Z.ltb_spec (fin - cur) (hdr_len p)); [done|].
  rewrite (tlv_load_val m (cur + len_off p)) by (done || lia). bstep.
  pose proof (field_val_range (big_endian p) (len_size p) (slice m (cur + len_off p) (len_size p))
    (bytes_ok_slice _ _ _ Hok) ltac:(by rewrite mlen_slice by lia)) as Hlf.
  set (lf := field_val _ _) in *. pose proof (len_size_pow p).
  destruct (len_incl_hdr p) eqn:Ei; simpl.
  - destruct (Z.ltb_spec lf (hdr_len p)); [done|]. rewrite u32_small by lia.
    destruct (_ <? _); [done|]. rewrite tlv_load_val by (done || lia). bstep.
    pose proof (field_val_range (big_endian p) (type_size p) (slice m (cur + type_off p) (type_size p))
      (bytes_ok_slice _ _ _ Hok) ltac:(by rewrite mlen_slice by lia)) as Hty.
    destruct (Z.eqb_spec (meta_off p) TLV_NO_META).
    + intros [= <- <-]; simpl. lia.
    + destruct Hmt; [done|]. rewrite rd_Ok by lia. pose proof (get_range m (cur + meta_off p) Hok).
      intros [= <- <-]; simpl. lia.
  - destruct (_ <? _); [done|]. rewrite tlv_load_val by (done || lia). bstep.
    pose proof (field_val_range (big_endian p) (type_size p) (slice m (cur + type_off p) (type_size p))
      (bytes_ok_slice _ _ _ Hok) ltac:(by rewrite mlen_slice by lia)) as Hty.
    destruct (Z.eqb_spec (meta_off p) TLV_NO_META).
    + intros [= <- <-]; simpl. lia.
    + destruct Hmt; [done|]. rewrite rd_Ok by lia. pose proof (get_range m (cur + meta_off p) Hok).
      intros [= <- <-]; simpl. lia.
Qed.

(** An entry at the cursor is what the iterator yields. *)
Lemma iter_next_entry m it type meta val rest :
  iter_wf m it →
  slice m (it_cur it) (it_end it - it_cur it) = tlv_entry p type meta val ++ rest →
  len_fits p (mlen val) = true → 0 <= type < 256 ^ type_size p →
  tlv_iter_next m it =
    Ok (Some ({| v_type := type; v_len := mlen val;
                 v_meta := if meta_off p =? TLV_NO_META then 0 else meta;
                 v_value := it_cur it + hdr_len p |},
              {| it_cur := it_cur it + mlen (tlv_entry p type meta val);
                 it_end := it_end it; it_prof := p |})).
Proof using POK.
  destruct it as [cur fin p']. intros (Hp & Hok & Hmax & Hcur & Hend) Hs Hfit Hty.
  simpl in *. subst p'. prof_facts. unfold OBJ_MAX in *.
  pose proof (mlen_nonneg rest). pose proof (mlen_nonneg val).
  pose proof (pad_len_range p (hdr_len p + mlen val)).
  assert (fin - cur = mlen (tlv_entry p type meta val) + mlen rest) as Hlen.
  { rewrite <-mlen_app, <-Hs, mlen_slice by lia. done. }
  rewrite mlen_tlv_entry in Hlen by exact _.
  set (h := tlv_hdr p type (len_field p (mlen val)) meta).
  assert (mlen h = hdr_len p) as Hhl by apply mlen_tlv_hdr, POK.
  assert (slice m cur (hdr_len p) = h) as Hhs.
  { transitivity (slice (slice m cur (fin - cur)) 0 (hdr_len p)).
    - rewrite slice_slice by lia. by rewrite Z.add_0_r.
    - rewrite Hs. unfold tlv_entry. fold h. rewrite <-app_assoc.
      rewrite slice_app_l by lia. by apply slice_full. }
  assert (∀ o n, 0 <= o → 0 <= n → o + n <= hdr_len p →
    slice m (cur + o) n = slice h o n) as Hsl.
  { intros. rewrite <-Hhs, slice_slice by lia. done. }
  unfold tlv_iter_next; simpl. rewrite (u64_small (fin - cur)) by lia.
  destruct (Z.ltb_spec (fin - cur) (hdr_len p)); [lia|].
  rewrite (tlv_load_val m (cur + len_off p)), Hsl by (done || lia).
  unfold h. rewrite tlv_hdr_len by exact _. cbn [mbind res_bind]. unfold len_fits in Hfit.
  assert (0 <= len_field p (mlen val)) by (unfold len_field; destruct (len_incl_hdr p); lia).
  rewrite field_val_bytes, Z.mod_small by lia.
  destruct (len_incl_hdr p && (len_field p (mlen val) <? hdr_len p)) eqn:E1.
  { unfold len_field in E1. destruct (len_incl_hdr p); simpl in E1; lia. }
  pose proof (len_size_pow p).
  assert ((if len_incl_hdr p then u32 (len_field p (mlen val) - hdr_len p)
           else len_field p (mlen val)) = mlen val) as ->.
  { unfold len_field in *. destruct (len_incl_hdr p); [rewrite u32_small|]; lia. }
  rewrite (u64_small (fin - cur - _)) by lia.
  destruct (Z.ltb_spec (fin - cur - hdr_len p) (mlen val)); [lia|].
  rewrite (tlv_load_val m (cur + type_off p)), Hsl by (done || lia).
  unfold h. rewrite tlv_hdr_type by exact _.
  rewrite field_val_bytes, Z.mod_small by lia. simpl.
  assert ((if meta_off p =? TLV_NO_META then Ok 0 else rd m (cur + meta_off p))
    = Ok (if meta_off p =? TLV_NO_META then 0 else meta)) as ->.
  { destruct (Z.eqb_spec (meta_off p) TLV_NO_META); [done|].
    destruct Hmt; [done|]. rewrite rd_Ok by lia. f_equal.
    rewrite <-(get_slice m cur (hdr_len p)), Hhs by lia. by apply tlv_hdr_meta. }
  simpl. rewrite u64_small, (round_up_pad p) by (unfold OBJ_MAX; lia).
  rewrite mlen_tlv_entry by exact _. do 4 f_equal.
  destruct (Z.ltb_spec (hdr_len p + mlen val + pad_len p (hdr_len p + mlen val)) (fin - cur));
    lia.
Qed.
End walk.

(** ** Nested entries *)

#[local] Set Warnings "-register-all".

(** An entry, or a grouped entry with its children. *)
Inductive tlv_tree :=
| Leaf (type meta : Z) (val : list Z)
| Group (type meta : Z) (cs : list tlv_tree).

Section tree_ind.
Variable P : tlv_tree → Prop.
Hypothesis Pleaf : ∀ type meta val, P (Leaf type meta val).
Hypothesis Pgroup : ∀ type meta cs, Forall P cs → P (Group type meta cs).

Fixpoint tlv_tree_ind' (t : tlv_tree) : P t :=
  match t with
  | Leaf type meta val => Pleaf type meta val
  | Group type meta cs =>
      Pgroup type meta cs
        ((fix go cs : Forall P cs :=
            match cs with
            | [] => Forall_nil_2 P
            | c :: cs => Forall_cons_2 P c cs (tlv_tree_ind' c) (go cs)
            end) cs)
  end.
End tree_ind.

Section trees.
Context `{HO : HostOrder} (p : tlv_prof) `{POK : !ProfOk p}.

Fixpoint tree_bytes (t : tlv_tree) : list Z :=
  match t with
  | Leaf type meta val => tlv_entry p type meta val
  | Group type meta cs => tlv_entry p type meta (concat (map tree_bytes cs))
  end.
Definition trees_bytes (ts : list tlv_tree) : list Z := concat (map tree_bytes ts).

(** Writing with [tlv_put] for leaves and a [tlv_begin]/[tlv_end] pair around
    the children of a group, as the message encoders do. *)
Definition write_list (f : tlv_wbuf → tlv_tree → res (tlv_wbuf * Z)) :=
  fix go (w : tlv_wbuf) (ts : list tlv_tree) : res (tlv_wbuf * Z) :=
    match ts with
    | [] => Ok (w, TLV_OK)
    | t :: ts =>
        '(w, rc) ← f w t;
        if negb (rc =? 0) then Ok (w, rc) else go w ts
    end.

Fixpoint tree_write (w : tlv_wbuf) (t : tlv_tree) : res (tlv_wbuf * Z) :=
  match t with
  | Leaf type meta val => tlv_put w p type meta val (mlen val)
  | Group type meta cs =>
      '(w, h) ← tlv_begin w p type meta;
      if h <? 0 then Ok (w, h) else
      '(w, rc) ← write_list tree_write w cs;
      if negb (rc =? 0) then Ok (w, rc) else tlv_end w p h
  end.

(** Reading back: [grouped] says which types are walked with a nested
    iterator, as the generated message layers know from the specification. *)
Variable grouped : Z → bool.

Fixpoint tree_read (fuel : nat) (m : mem) (it : tlv_iter) : res (list tlv_tree) :=
  match fuel with
  | O => Ub
  | S fuel =>
      r ← tlv_iter_next m it;
      match r with
      | None => Ok []
      | Some (v, it) =>
          t ← (if grouped (v_type v)
               then cs ← tree_read fuel m (tlv_iter_grouped p v);
                    Ok (Group (v_type v) (v_meta v) cs)
               else val ← rdn m (v_value v) (v_len v);
                    Ok (Leaf (v_type v) (v_meta v) val));
          ts ← tree_read fuel m it; Ok (t :: ts)
      end
  end.

(** What an entry must satisfy to be representable in the profile. *)
Definition node_ok (type meta : Z) (val : list Z) : Prop :=
  0 <= type < 256 ^ type_size p ∧
  (if meta_off p =? TLV_NO_META then meta = 0 else 0 <= meta < 256) ∧
  len_fits p (mlen val) = true.

Fixpoint tree_ok (t : tlv_tree) : Prop :=
  match t with
  | Leaf type meta val =>
      node_ok type meta val ∧ bytes_ok val ∧ grouped type = false
  | Group type meta cs =>
      node_ok type meta (trees_bytes cs) ∧ grouped type = true ∧
      (fix go cs := match cs with [] => True | c :: cs => tree_ok c ∧ go cs end) cs
  end.

Lemma trees_ok cs :
  (fix go cs := match cs with [] => True | c :: cs => tree_ok c ∧ go cs end) cs
  ↔ Forall tree_ok cs.
Proof.
  induction cs as [|c cs IH]; [by split|].
  rewrite Forall_cons_iff. by rewrite <-IH.
Qed.

Lemma node_meta type meta val : node_ok type meta val → 0 <= meta < 256.
Proof. intros (_ & Hm & _). destruct (meta_off p =? TLV_NO_META); lia. Qed.

Lemma len_fits_bound vlen : 0 <= vlen → len_fits p vlen = true → vlen < 4294967296.
Proof using POK.
  destruct (prof_ok_props p) as [? _ _ _ _ _ _ _]. pose proof (len_size_pow p).
  unfold len_fits, len_field. destruct (len_incl_hdr p); lia.
Qed.

Lemma tlv_entry_ok type meta val :
  node_ok type meta val → bytes_ok val → bytes_ok (tlv_entry p type meta val).
Proof using POK.
  intros Hn Hv. unfold tlv_entry. rewrite !bytes_ok_app.
  split_and!; [|done|auto with cmem]. eapply tlv_hdr_ok, node_meta, Hn.
Qed.

Lemma trees_bytes_ok ts :
  Forall (λ t, tree_ok t → bytes_ok (tree_bytes t)) ts →
  Forall tree_ok ts → bytes_ok (trees_bytes ts).
Proof.
  unfold trees_bytes. induction 1 as [|t ts Ht _ IH]; simpl; [constructor|].
  rewrite Forall_cons_iff. intros [? ?]. apply bytes_ok_app. auto.
Qed.

Lemma tree_bytes_ok t : tree_ok t → bytes_ok (tree_bytes t).
Proof using POK.
  induction t as [type meta val|type meta cs IH] using tlv_tree_ind'; simpl.
  - intros (? & ? & ?). by apply tlv_entry_ok.
  - rewrite trees_ok. intros (? & ? & ?). apply tlv_entry_ok; [done|].
    by apply trees_bytes_ok.
Qed.

Lemma emits_refl w : wbuf_wf w → emits w w [].
Proof. intros. unfold emits. by rewrite app_nil_r. Qed.
Lemma emits_trans w1 w2 w3 a b : emits w1 w2 a → emits w2 w3 b → emits w1 w3 (a ++ b).
Proof.
  intros (? & ? & ? & E1) (? & ? & ? & E2). unfold emits.
  rewrite E2, E1, <-app_assoc. split_and!; congruence || done.
Qed.
Lemma emits_off w w' bs :
  wbuf_wf w → emits w w' bs → w_off w' = w_off w + mlen bs.
Proof.
  intros Hw (Hw' & _ & _ & H).
  by rewrite <-(mlen_written w'), H, mlen_app, mlen_written by done.
Qed.
Lemma emits_room w w' bs n :
  wbuf_wf w → emits w w' bs → roomb w (mlen bs + n) = true → roomb w' n = true.
Proof.
  intros Hw He. pose proof (emits_off _ _ _ Hw He). destruct He as (_ & ? & ? & _).
  unfold roomb. intros. destruct (w_overflow w) eqn:?; [done|].
  replace (w_overflow w') with false by congruence. simpl in *. lia.
Qed.
Lemma roomb_le w n k : k <= n → roomb w n = true → roomb w k = true.
Proof. unfold roomb. destruct (w_overflow w); simpl; lia || done. Qed.

(** The writer emits exactly the encoding of the tree. *)
Definition writes (t : tlv_tree) : Prop :=
  ∀ w, wbuf_wf w → w_cap w < 2147483648 → tree_ok t →
    roomb w (mlen (tree_bytes t)) = true →
    ∃ w', tree_write w t = Ok (w', TLV_OK) ∧ emits w w' (tree_bytes t).

Lemma write_list_emits ts w :
  Forall writes ts → wbuf_wf w → w_cap w < 2147483648 → Forall tree_ok ts →
  roomb w (mlen (trees_bytes ts)) = true →
  ∃ w', write_list tree_write w ts = Ok (w', TLV_OK) ∧ emits w w' (trees_bytes ts).
Proof.
  intros Hts. revert w. induction Hts as [|t ts Ht _ IH]; intros w Hw Hc Hok Hr.
  { exists w. split; [done|]. by apply emits_refl. }
  apply Forall_cons_iff in Hok as [Hokt Hoks].
  unfold trees_bytes in Hr |- *. simpl in Hr |- *. fold (trees_bytes ts) in *.
  rewrite mlen_app in Hr. pose proof (mlen_nonneg (trees_bytes ts)).
  destruct (Ht w) as (w1 & -> & He1); [done..|eapply roomb_le; [|done]; lia|]. simpl.
  destruct (IH w1) as (w2 & -> & He2); [apply He1|destruct He1 as (_ & -> & _); lia|done
    |by eapply emits_room|].
  exists w2. split; [done|]. by eapply emits_trans.
Qed.

Lemma leaf_writes type meta val : writes (Leaf type meta val).
Proof using POK.
  intros w Hw Hc (Hn & Hv & _) Hr. simpl in *.
  pose proof (len_fits_bound (mlen val) (mlen_nonneg val) (proj2 (proj2 Hn))).
  rewrite tlv_put_eq, (proj2 (proj2 Hn)), Hr by (exact _ || done).
  eexists. split; [done|]. by apply append_emits.
Qed.

Lemma group_writes type meta cs : Forall writes cs → writes (Group type meta cs).
Proof using POK.
  intros Hcs w Hw Hc (Hn & Hg & Hok) Hr. apply trees_ok in Hok. simpl in *.
  fold (trees_bytes cs) in *. destruct Hn as (Hty & Hme & Hfit).
  rewrite mlen_tlv_entry in Hr by exact _.
  pose proof (pad_len_range p (hdr_len p + mlen (trees_bytes cs))).
  pose proof (mlen_nonneg (trees_bytes cs)).
  rewrite tlv_begin_eq by (exact _ || done).
  assert (roomb w (hdr_len p) = true) as Hr0 by (eapply roomb_le; [|done]; lia).
  rewrite Hr0. simpl. pose proof Hw as [Ho _].
  rewrite i32_small by lia. destruct (Z.ltb_spec (w_off w) 0); [lia|].
  pose proof (append_emits w (tlv_hdr0 p type meta) Hw) as He0.
  rewrite mlen_tlv_hdr0 in He0 by exact _. specialize (He0 Hr0).
  set (w0 := append _ _) in *. clearbody w0.
  assert (roomb w0 (mlen (trees_bytes cs) + pad_len p (hdr_len p + mlen (trees_bytes cs)))
    = true) as Hr1.
  { eapply emits_room; [exact Hw|exact He0|]. rewrite mlen_tlv_hdr0 by exact _.
    by rewrite Z.add_assoc. }
  destruct (write_list_emits cs w0) as (w1 & -> & He1);
    [done|apply He0|destruct He0 as (_ & -> & _); lia|done|eapply roomb_le; [|done]; lia|].
  simpl. pose proof (emits_trans _ _ _ _ _ He0 He1) as He.
  destruct (tlv_end_eq p w1 (written w) type meta (trees_bytes cs))
    as (w2 & Hend & Hw2 & Hcap & Hov & Hwr2).
  - apply He.
  - destruct He as (_ & _ & -> & _). by apply roomb_overflow in Hr.
  - apply He.
  - done.
  - eapply emits_room; [|exact He1|done]. apply He0.
  - rewrite mlen_written in Hend by done. exists w2. split; [done|].
    destruct He as (_ & Hc1 & _ & _). apply roomb_overflow in Hr.
    split_and!; congruence || done.
Qed.

Lemma tree_writes t : writes t.
Proof using POK.
  induction t using tlv_tree_ind'; [apply leaf_writes|by apply group_writes].
Qed.

(** The top node of a tree, and the two ways it is read. *)
Lemma tree_node t :
  tree_ok t →
  ∃ type meta val, tree_bytes t = tlv_entry p type meta val ∧ node_ok type meta val ∧
    (t = Leaf type meta val ∧ grouped type = false ∨
     ∃ cs, t = Group type meta cs ∧ grouped type = true ∧ val = trees_bytes cs ∧
       Forall tree_ok cs).
Proof.
  destruct t as [type meta val|type meta cs]; simpl.
  - intros (? & ? & ?). exists type, meta, val. auto.
  - rewrite trees_ok. intros (? & ? & ?). exists type, meta, (trees_bytes cs).
    split_and!; [done..|]. right. eauto.
Qed.

(** Where the value and the rest of the stream lie after an entry. *)
Lemma entry_layout m cur n type meta val rest :
  0 <= cur → 0 <= n → cur + n <= mlen m →
  slice m cur n = tlv_entry p type meta val ++ rest →
  n = mlen (tlv_entry p type meta val) + mlen rest ∧
  slice m (cur + hdr_len p) (mlen val) = val ∧
  slice m (cur + mlen (tlv_entry p type meta val)) (mlen rest) = rest.
Proof using POK.
  intros Hc Hn Hm Hs. pose proof (mlen_nonneg val). pose proof (mlen_nonneg rest).
  pose proof (pad_len_range p (hdr_len p + mlen val)).
  destruct (prof_ok_props p) as [Hh _ _ _ _ _ _ _].
  assert (n = mlen (tlv_entry p type meta val) + mlen rest) as Hlen
    by (rewrite <-mlen_app, <-Hs, mlen_slice by lia; done).
  pose proof (mlen_tlv_entry p type meta val) as Hel.
  split_and!; [done|..]; rewrite <-(slice_slice m _ n), Hs by lia.
  - unfold tlv_entry. rewrite <-!app_assoc, slice_app_ge by mlia.
    rewrite mlen_tlv_hdr, Z.sub_diag, slice_app_l, slice_full by (exact _ || lia). done.
  - rewrite slice_app_ge, Z.sub_diag, slice_full by lia. done.
Qed.

(** Reading a stream of encoded trees gives the trees back. *)
Lemma tree_read_bytes fuel : ∀ m it ts,
  (Z.to_nat (it_end it - it_cur it) < fuel)%nat → iter_wf p m it →
  Forall tree_ok ts → slice m (it_cur it) (it_end it - it_cur it) = trees_bytes ts →
  tree_read fuel m it = Ok ts.
Proof using POK.
  destruct (prof_ok_props p) as [Hh _ _ _ _ _ _ _].
  induction fuel as [|fuel IH]; intros m it ts Hf Hwf Hok Hs; [lia|].
  pose proof Hwf as (Hp & Hb & Hmx & Hcur & Hend). cbn [tree_read].
  destruct ts as [|t ts].
  { assert (mlen (slice m (it_cur it) (it_end it - it_cur it)) = 0) as Hl by by rewrite Hs.
    rewrite mlen_slice in Hl by lia. unfold tlv_iter_next.
    rewrite u64_small by (unfold OBJ_MAX in *; lia). rewrite Hp.
    destruct (Z.ltb_spec (it_end it - it_cur it) (hdr_len p)); [done|lia]. }
  apply Forall_cons_iff in Hok as [Hokt Hoks].
  destruct (tree_node t Hokt) as (type & meta & val & Hbt & Hn & Ht).
  unfold trees_bytes in Hs; simpl in Hs. fold (trees_bytes ts) in Hs. rewrite Hbt in Hs.
  pose proof Hn as (Hty & Hme & Hfit).
  rewrite (iter_next_entry p m it type meta val (trees_bytes ts)) by done. simpl.
  replace (if meta_off p =? TLV_NO_META then 0 else meta) with meta
    by (destruct (meta_off p =? TLV_NO_META); done).
  apply entry_layout in Hs as (Hlen & Hval & Hrest); [|lia..].
  pose proof (mlen_tlv_entry p type meta val). pose proof (mlen_nonneg val).
  pose proof (pad_len_range p (hdr_len p + mlen val)). pose proof (mlen_nonneg (trees_bytes ts)).
  rewrite (IH m _ ts); [|simpl; lia|split_and!; simpl; done || lia|done|simpl].
  - destruct Ht as [[-> ->]|(cs & -> & -> & Hcs & Hok')].
    + rewrite rdn_Ok, Hval by lia. done.
    + rewrite (IH m _ cs); [done|simpl; lia|split_and!; simpl; done || lia|done|simpl].
      rewrite <-Hcs. etransitivity; [|exact Hval]. f_equal. lia.
  - etransitivity; [|exact Hrest]. f_equal. lia.
Qed.
End trees.

(** ** Properties *)

(** One call of the write API. *)
Inductive wop :=
| OpPut (type meta : Z) (val : list Z)
| OpBegin (type meta : Z)
| OpEnd (handle : Z).

Section properties.
Context `{HO : HostOrder} (p : tlv_prof) `{POK : !ProfOk p}.

Lemma walk_views fuel : ∀ m it,
  (Z.to_nat (it_end it - it_cur it) < fuel)%nat → iter_wf p m it →
  ∃ vs, tlv_walk fuel m it = Ok vs ∧ Forall (view_in p it) vs ∧
    StronglySorted (λ v v', v_value v + v_len v + hdr_len p <= v_value v') vs.
Proof using POK.
  destruct (prof_ok_props p) as [Hh _ _ _ _ _ _ _].
  induction fuel as [|fuel IH]; intros m it Hf Hwf; [lia|]. cbn [tlv_walk].
  destruct (iter_next_safe p m it Hwf)
    as [->|(v & it' & -> & Hwf' & Hin & Hval & Hend & Hcur)]; simpl.
  { exists []. by repeat constructor. }
  pose proof Hwf as (_ & _ & _ & ? & ?). pose proof Hin as (? & ? & ?).
  destruct (IH m it') as (vs & -> & Hall & Hsort); [lia|done|]. simpl.
  exists (v :: vs). split_and!; [done| |].
  - constructor; [done|]. eapply Forall_impl; [exact Hall|].
    intros v' (? & ? & ?). unfold view_in. lia.
  - constructor; [done|]. eapply Forall_impl; [exact Hall|].
    intros v' (? & ? & ?). lia.
Qed.

(** C4: Walking any byte buffer with any of the supported wire profiles is
    memory-safe and terminates: the loop over [tlv_iter_next] never reads
    outside the buffer, stops within one step per remaining octet, and
    yields views that lie inside the walked range, in order and without
    overlapping one another or one another's headers. *)
Theorem tlv_walk_safe m it :
  iter_wf p m it →
  ∃ vs, tlv_walk (S (Z.to_nat (it_end it - it_cur it))) m it = Ok vs ∧
    Forall (view_in p it) vs ∧
    StronglySorted (λ v v', v_value v + v_len v + hdr_len p <= v_value v') vs.
Proof using POK. apply walk_views. lia. Qed.

(** [tlv_put] refines appending to a byte stream: for every writer and
    entry it returns [TLV_E_INVAL] and changes nothing when the length field
    cannot carry the value, sets the sticky flag and returns
    [TLV_E_OVERFLOW] when there is no room (or the flag was set), and
    otherwise appends exactly the header, the value and the alignment
    padding of the entry; it never writes outside the buffer. *)
Theorem tlv_put_refines w type meta val :
  wbuf_wf w → mlen val < 4294967296 →
  ∃ w' rc, tlv_put w p type meta val (mlen val) = Ok (w', rc) ∧
    (if negb (len_fits p (mlen val)) then rc = TLV_E_INVAL ∧ w' = w
     else if negb (roomb w (mlen (tlv_entry p type meta val)))
     then rc = TLV_E_OVERFLOW ∧ w' = set_overflow w
     else rc = TLV_OK ∧ emits w w' (tlv_entry p type meta val)).
Proof using POK.
  intros. rewrite tlv_put_eq by (exact _ || done).
  destruct (len_fits p (mlen val)); [|by do 2 eexists].
  destruct (roomb w _) eqn:Hr; [|by do 2 eexists].
  do 2 eexists. split; [done|]. split; [done|]. by apply append_emits.
Qed.

(** C1: Nested entries round trip: a forest written with [tlv_put] for plain
    entries and [tlv_begin] ... [tlv_end] around the children of grouped
    ones is read back unchanged by walking the written octets, with a nested
    iterator over each grouped view. *)
Theorem tlv_tree_roundtrip grouped ts buf :
  Forall (tree_ok p grouped) ts →
  mlen (trees_bytes p ts) <= mlen buf < 2147483648 →
  ∃ w, write_list (tree_write p) (tlv_wbuf_init buf (mlen buf)) ts = Ok (w, TLV_OK) ∧
    tree_read p grouped (S (Z.to_nat (w_off w))) (written w)
      (tlv_iter_init p 0 (w_off w)) = Ok ts.
Proof using POK.
  intros Hok Hlen. pose proof (mlen_nonneg (trees_bytes p ts)).
  assert (wbuf_wf (tlv_wbuf_init buf (mlen buf))) as Hw
    by (unfold wbuf_wf, OBJ_MAX; simpl; lia).
  destruct (write_list_emits p grouped ts (tlv_wbuf_init buf (mlen buf)))
    as (w & Hwr & He).
  - apply Forall_forall. intros. by apply tree_writes.
  - done.
  - simpl. lia.
  - done.
  - unfold roomb; simpl. lia.
  - exists w. split; [done|]. pose proof (emits_off _ _ _ Hw He) as Hoff.
    destruct He as (Hwf & _ & _ & Hbs). simpl in Hbs, Hoff. rewrite Hbs.
    apply tree_read_bytes; try done; unfold tlv_iter_init; simpl; [lia| |].
    + split_and!; simpl; try done; try (unfold OBJ_MAX; lia).
      apply trees_bytes_ok with grouped; [|done].
      apply Forall_forall. intros. by eapply tree_bytes_ok.
    + rewrite Z.sub_0_r. apply slice_full. lia.
Qed.

Definition run_op (w : tlv_wbuf) (o : wop) : res (tlv_wbuf * Z) :=
  match o with
  | OpPut type meta val => tlv_put w p type meta val (mlen val)
  | OpBegin type meta => tlv_begin w p type meta
  | OpEnd h => tlv_end w p h
  end.

Fixpoint run_ops (w : tlv_wbuf) (os : list wop) : res (tlv_wbuf * list Z) :=
  match os with
  | [] => Ok (w, [])
  | o :: os =>
      '(w, rc) ← run_op w o; '(w, rcs) ← run_ops w os; Ok (w, rc :: rcs)
  end.

(** Overflow is sticky: once the flag of a write buffer is set, every
    later call of the write API, in any sequence, returns a negative code
    and leaves the buffer, its offset and the flag as they are. *)
Theorem tlv_overflow_sticky w os :
  w_overflow w = true →
  ∃ rcs, run_ops w os = Ok (w, rcs) ∧ length rcs = length os ∧ Forall (λ rc, rc < 0) rcs.
Proof.
  intros Ho. assert (∀ o, ∃ rc, run_op w o = Ok (w, rc) ∧ rc < 0) as Hop.
  { assert (∀ n, tlv_wbuf_reserve w n = (w, TLV_E_OVERFLOW)) as Hres
      by (intros; unfold tlv_wbuf_reserve; by rewrite Ho).
    intros [type meta val|type meta|h]; simpl;
      unfold tlv_put, tlv_begin, tlv_end; rewrite ?Hres, ?Ho; [|by eexists..].
    destruct (_ || _); by eexists. }
  induction os as [|o os (rcs & IH & Hl & Hf)]; simpl; [by exists []|].
  destruct (Hop o) as (rc & -> & Hrc). simpl. rewrite IH. simpl.
  exists (rc :: rcs). simpl. split_and!; [done|lia|by constructor].
Qed.
End properties.

(** *** Instances of the properties on concrete data *)

(** A GTPv2-C message body: a Recovery IE and a grouped Bearer Context holding
    an EPS Bearer ID. *)
Definition ex_forest : list tlv_tree :=
  [Leaf 3 0 [7]; Group 93 1 [Leaf 73 0 [5]]].
Definition ex_grouped (type : Z) : bool := type =? 93.
Definition ex_bytes : mem := [3; 0; 1; 0; 7; 93; 0; 5; 1; 73; 0; 1; 0; 5].

Lemma tlv_walk_safe_witness :
  iter_wf TLV_PROF_GTP2C ex_bytes (tlv_iter_init TLV_PROF_GTP2C 0 14) ∧
  ∃ vs, tlv_walk (HO := false) 15 ex_bytes (tlv_iter_init TLV_PROF_GTP2C 0 14) = Ok vs ∧
    Forall (view_in TLV_PROF_GTP2C (tlv_iter_init TLV_PROF_GTP2C 0 14)) vs ∧
    StronglySorted (λ v v', v_value v + v_len v + 4 <= v_value v') vs.
Proof.
  assert (iter_wf TLV_PROF_GTP2C ex_bytes (tlv_iter_init TLV_PROF_GTP2C 0 14)) as H.
  { split_and!; try done. by repeat constructor. }
  split; [exact H|].
  exact (tlv_walk_safe (HO := false) TLV_PROF_GTP2C ex_bytes _ H).
Defined.

Lemma tlv_put_refines_witness :
  ∃ w' rc, tlv_put (HO := false) (tlv_wbuf_init (zeros 12) 12) TLV_PROF_DIAMETER 263 64 [97] 1
             = Ok (w', rc) ∧
    rc = TLV_OK ∧
    emits (tlv_wbuf_init (zeros 12) 12) w' [0; 0; 1; 7; 64; 0; 0; 9; 97; 0; 0; 0].
Proof.
  apply (tlv_put_refines (HO := false) TLV_PROF_DIAMETER
           (tlv_wbuf_init (zeros 12) 12) 263 64 [97]).
  - by vm_compute.
  - done.
Defined.

Lemma tlv_tree_roundtrip_witness :
  ∃ w, write_list (tree_write (HO := false) TLV_PROF_GTP2C)
         (tlv_wbuf_init (zeros 64) 64) ex_forest = Ok (w, TLV_OK) ∧
    tree_read (HO := false) TLV_PROF_GTP2C ex_grouped (S (Z.to_nat (w_off w))) (written w)
      (tlv_iter_init TLV_PROF_GTP2C 0 (w_off w)) = Ok ex_forest.
Proof.
  apply (tlv_tree_roundtrip (HO := false) TLV_PROF_GTP2C ex_grouped ex_forest (zeros 64)).
  - repeat constructor; try done; try (by vm_compute); by repeat constructor.
  - by vm_compute.
Defined.

Lemma tlv_overflow_sticky_witness :
  ∃ rcs, run_ops (HO := false) TLV_PROF_GTP2C (set_overflow (tlv_wbuf_init (zeros 4) 4))
           [OpPut 3 0 [7]; OpBegin 93 0; OpEnd 0]
         = Ok (set_overflow (tlv_wbuf_init (zeros 4) 4), rcs) ∧
    length rcs = 3%nat ∧ Forall (λ rc, rc < 0) rcs.
Proof.
  apply (tlv_overflow_sticky (HO := false) TLV_PROF_GTP2C
    (set_overflow (tlv_wbuf_init (zeros 4) 4)) [OpPut 3 0 [7]; OpBegin 93 0; OpEnd 0]).
  reflexivity.
Defined.
