(* ===== verification/Fsm.v ===== *)
(** * Fsm: the table-driven state-machine engine

    Models [task/inc/fsm.h] and [task/src/fsm.c].  A machine is the record of
    the source; the growable entry array is the list of its entries with the
    capacity it was allocated for.  Hooks and callbacks are functions on a
    world [W] that stands for the state outside the machine, and the
    allocator is a parameter whose answers decide the out-of-memory paths. *)

From stdpp Require Import strings.
From S2P Require Import Prelude.

Definition fsm_state_any : Z := -65535.     (* -0xFFFF *)
Definition fsm_state_current : Z := -65520. (* -0xFFF0 *)
Definition fsm_state_none : Z := -65280.    (* -0xFF00 *)
Definition fsm_state_final : Z := -61440.   (* -0xF000 *)
Definition fsm_action_any : Z := -65535.

Definition FSM_OK : Z := 0.
Definition FSM_E_INVAL : Z := -1.
Definition FSM_E_FINAL : Z := -2.
Definition FSM_E_NOMATCH : Z := -3.
Definition FSM_E_NOMEM : Z := -4.

(** The answers of [calloc] and [realloc] (by requested entry capacity). *)
Record allocator := Allocator { calloc_ok : bool; realloc_ok : Z → bool }.

Section engine.
Context {D A C W : Type}.

(** ** Data *)

Record fsm_entry := FsmEntry {
  e_from : Z; e_action : Z; e_cond : D → D → W → bool; e_to : Z;
  e_exec : option (A → W → Z * W); e_desc : string }.

Record fsm := Fsm {
  debug : bool; current : Z; term : Z;
  entries : list fsm_entry; cap : Z;
  callback_term : option (option C → W → Z * W); callback_data : option C }.

Definition count (self : fsm) : Z := Z.of_nat (length (entries self)).

Definition set_current (self : fsm) (s : Z) : fsm :=
  {| debug := debug self; current := s; term := term self; entries := entries self;
     cap := cap self; callback_term := callback_term self;
     callback_data := callback_data self |}.

(** ** Operations *)

Definition fsm_exec_nothing (_ : A) (w : W) : Z * W := (0, w).
Definition fsm_cond_always (_ _ : D) (_ : W) : bool := true.

Definition FSM_ADD (from action : Z) (cond : D → D → W → bool) (to : Z)
    (exec : option (A → W → Z * W)) (desc : string) : fsm_entry :=
  FsmEntry from action cond to exec desc.
Definition FSM_ADD_ALWAYS (from action to : Z) (exec : option (A → W → Z * W))
    (desc : string) : fsm_entry :=
  FSM_ADD from action fsm_cond_always to exec desc.
Definition FSM_ADD_NOTHING (from action : Z) (cond : D → D → W → bool) (desc : string) :
    fsm_entry :=
  FSM_ADD from action cond from (Some fsm_exec_nothing) desc.
Definition FSM_ADD_ALWAYS_NOTHING (from : Z) (desc : string) : fsm_entry :=
  FSM_ADD from fsm_action_any fsm_cond_always from (Some fsm_exec_nothing) desc.

Definition fsm_create (al : allocator) (state_curr state_term : Z) : option fsm :=
  if calloc_ok al then
    Some {| debug := false; current := state_curr; term := state_term; entries := [];
            cap := 0; callback_term := None; callback_data := None |}
  else None.

(** Makes room for one more entry; [None] is a failed [realloc]. *)
Definition fsm_entry_add (al : allocator) (self : fsm) : option fsm :=
  if count self =? cap self then
    let ncap := if cap self =? 0 then 16 else cap self * 2 in
    if realloc_ok al ncap then
      Some {| debug := debug self; current := current self; term := term self;
              entries := entries self; cap := ncap;
              callback_term := callback_term self; callback_data := callback_data self |}
    else None
  else Some self.

(** The slot [fsm_entry_add] returned, filled. *)
Definition push_entry (self : fsm) (e : fsm_entry) : fsm :=
  {| debug := debug self; current := current self; term := term self;
     entries := entries self ++ [e]; cap := cap self;
     callback_term := callback_term self; callback_data := callback_data self |}.

Fixpoint fsm_set_loop (al : allocator) (self : fsm) (args : list fsm_entry) : fsm * Z :=
  match args with
  | [] => (self, FSM_OK)
  | e :: args =>
      match fsm_entry_add al self with
      | Some self => fsm_set_loop al (push_entry self e) args
      | None => (self, FSM_E_NOMEM)
      end
  end.

Definition fsm_set (al : allocator) (self : option fsm) (args : list fsm_entry) :
    option fsm * Z :=
  match self with
  | None => (None, FSM_E_INVAL)
  | Some self => let '(self, ret) := fsm_set_loop al self args in (Some self, ret)
  end.

Definition fsm_set_callback_terminated (self : option fsm)
    (callback : option (option C → W → Z * W)) (data : option C) : option fsm * Z :=
  match self with
  | Some self =>
      (Some {| debug := debug self; current := current self; term := term self;
               entries := entries self; cap := cap self;
               callback_term := callback; callback_data := data |}, 0)
  | None => (None, FSM_E_INVAL)
  end.

Definition fsm_set_debug (self : option fsm) (on : bool) : option fsm :=
  match self with
  | Some self =>
      Some {| debug := on; current := current self; term := term self;
              entries := entries self; cap := cap self;
              callback_term := callback_term self; callback_data := callback_data self |}
  | None => None
  end.

Definition fsm_terminated (self : option fsm) : bool :=
  match self with Some self => current self =? term self | None => true end.

(** The three [continue] tests of the scan loop: an entry that passes fires. *)
Definition entry_skipped (self : fsm) (e : fsm_entry) (action : Z) (d1 d2 : D) (w : W) : bool :=
  if (negb (e_from e =? fsm_state_any) && negb (e_from e =? fsm_state_current)) &&
     negb (e_from e =? current self) then true
  else if negb (e_action e =? fsm_action_any) && negb (e_action e =? action) then true
  else negb (e_cond e d1 d2 w).

Fixpoint fsm_scan (self : fsm) (es : list fsm_entry) (action : Z) (d1 d2 : D) (w : W) :
    option fsm_entry :=
  match es with
  | [] => None
  | e :: es =>
      if entry_skipped self e action d1 d2 w then fsm_scan self es action d1 d2 w
      else Some e
  end.

Definition fsm_act (self : option fsm) (action : Z) (d1 d2 : D) (args : A) (w : W) :
    option fsm * W * Z :=
  match self with
  | None => (None, w, FSM_E_INVAL)
  | Some self =>
      if fsm_terminated (Some self) then (Some self, w, FSM_E_FINAL) else
      match fsm_scan self (entries self) action d1 d2 w with
      | None => (Some self, w, FSM_E_NOMATCH)
      | Some entry =>
          let self :=
            if negb (e_to entry =? fsm_state_any) && negb (e_to entry =? fsm_state_current)
            then set_current self (e_to entry) else self in
          let '(ret_exec, w) :=
            match e_exec entry with Some f => f args w | None => (0, w) end in
          let terminates := negb (ret_exec =? 0) || (current self =? term self) in
          if terminates then
            let self := set_current self (term self) in
            let w := match callback_term self with
                     | Some cb => (cb (callback_data self) w).2
                     | None => w
                     end in
            (Some self, w, ret_exec)
          else (Some self, w, ret_exec)
      end
  end.

Definition fsm_get_current_state (self : option fsm) : Z :=
  match self with Some self => current self | None => fsm_state_none end.

Definition fsm_set_current_state (self : option fsm) (new_state : Z) : option fsm * Z :=
  match self with
  | Some self => (Some (set_current self new_state), 0)
  | None => (None, FSM_E_INVAL)
  end.
End engine.

Arguments fsm_entry : clear implicits.
Arguments fsm : clear implicits.

(** ** What one call does *)

Section acts.
Context {D A C W : Type}.
Implicit Types (self : fsm D A C W) (e : fsm_entry D A W).

(** The entry applies to the current state, the action and the guard. *)
Definition fires (self : fsm D A C W) (e : fsm_entry D A W) (action : Z) (d1 d2 : D) (w : W) :
    Prop :=
  (e_from e = fsm_state_any ∨ e_from e = fsm_state_current ∨ e_from e = current self) ∧
  (e_action e = fsm_action_any ∨ e_action e = action) ∧ e_cond e d1 d2 w = true.

(** Where the entry leads: its to-state, or nowhere for the two sentinels. *)
Definition dest (self : fsm D A C W) (e : fsm_entry D A W) : Z :=
  if (e_to e =? fsm_state_any) || (e_to e =? fsm_state_current) then current self
  else e_to e.

Definition run_exec (e : fsm_entry D A W) (args : A) (w : W) : Z * W :=
  match e_exec e with Some f => f args w | None => (0, w) end.

Definition notify (self : fsm D A C W) (w : W) : W :=
  match callback_term self with Some cb => (cb (callback_data self) w).2 | None => w end.

Lemma entry_skipped_fires self e action d1 d2 w :
  entry_skipped self e action d1 d2 w = false ↔ fires self e action d1 d2 w.
Proof.
  unfold entry_skipped, fires.
  destruct (Z.eqb_spec (e_from e) fsm_state_any), (Z.eqb_spec (e_from e) fsm_state_current),
    (Z.eqb_spec (e_from e) (current self)), (Z.eqb_spec (e_action e) fsm_action_any),
    (Z.eqb_spec (e_action e) action); simpl; rewrite ?negb_false_iff; intuition congruence.
Qed.

Lemma fsm_scan_first self es action d1 d2 w :
  match fsm_scan self es action d1 d2 w with
  | Some e => ∃ i, es !! i = Some e ∧ fires self e action d1 d2 w ∧
      ∀ j e', (j < i)%nat → es !! j = Some e' → ¬ fires self e' action d1 d2 w
  | None => ∀ e, e ∈ es → ¬ fires self e action d1 d2 w
  end.
Proof.
  induction es as [|e es IH]; simpl; [set_solver|].
  destruct (entry_skipped self e action d1 d2 w) eqn:Hs.
  - assert (¬ fires self e action d1 d2 w) as Hn
      by (rewrite <-entry_skipped_fires; congruence).
    destruct (fsm_scan self es action d1 d2 w) as [e'|].
    + destruct IH as (i & Hi & Hf & Hj). exists (S i). split_and!; [done..|].
      intros [|j] e'' Hlt Hl; [simpl in Hl; congruence|]. apply (Hj j); [lia|done].
    + intros e' [->|?]%elem_of_cons; [done|]. by apply IH.
  - exists 0%nat. split_and!; [done|by apply entry_skipped_fires|lia].
Qed.

(** The result of a call once the entry is chosen. *)
Lemma fsm_act_entry self action d1 d2 args w e :
  current self ≠ term self → fsm_scan self (entries self) action d1 d2 w = Some e →
  fsm_act (Some self) action d1 d2 args w =
    let '(rc, w') := run_exec e args w in
    if negb (rc =? 0) || (dest self e =? term self)
    then (Some (set_current self (term self)), notify self w', rc)
    else (Some (set_current self (dest self e)), w', rc).
Proof.
  intros Hc Hs. unfold fsm_act, fsm_terminated.
  destruct (Z.eqb_spec (current self) (term self)); [done|]. rewrite Hs.
  unfold dest, run_exec. destruct self as [dbg cur tm es cp cb cd]; simpl in *.
  destruct (e_to e =? fsm_state_any), (e_to e =? fsm_state_current); simpl;
    destruct (match e_exec e with Some f => f args w | None => (0, w) end) as [rc w'];
    destruct (rc =? 0); simpl; try done;
    match goal with |- context [?a =? tm] => destruct (a =? tm) end; done.
Qed.

Lemma fsm_act_none self action d1 d2 args w :
  current self ≠ term self → fsm_scan self (entries self) action d1 d2 w = None →
  fsm_act (Some self) action d1 d2 args w = (Some self, w, FSM_E_NOMATCH).
Proof.
  intros Hc Hs. unfold fsm_act, fsm_terminated.
  destruct (Z.eqb_spec (current self) (term self)); [done|]. by rewrite Hs.
Qed.

(** C3: One [fsm_act] call follows the documented table semantics on every
    branch: without a machine nothing happens and [FSM_E_INVAL] is returned; in the terminal state nothing happens and [FSM_E_FINAL] is
    returned; with no applicable entry the machine is unchanged and
    [FSM_E_NOMATCH] is returned; otherwise the first applicable entry in the
    order of addition fires, its hook's result is returned, a non-zero result
    or an arrival at the terminal state ends in the terminal state with the
    termination callback run, and the other outcomes just move the machine. *)
Theorem fsm_act_first_match self action d1 d2 args w :
  fsm_act (None : option (fsm D A C W)) action d1 d2 args w = (None, w, FSM_E_INVAL) ∧
  let r := fsm_act (Some self) action d1 d2 args w in
  if current self =? term self then r = (Some self, w, FSM_E_FINAL)
  else
    (r = (Some self, w, FSM_E_NOMATCH) ∧
     ∀ e, e ∈ entries self → ¬ fires self e action d1 d2 w) ∨
    ∃ i e, entries self !! i = Some e ∧ fires self e action d1 d2 w ∧
      (∀ j e', (j < i)%nat → entries self !! j = Some e' → ¬ fires self e' action d1 d2 w) ∧
      let '(rc, w') := run_exec e args w in
      r = if bool_decide (rc ≠ 0 ∨ dest self e = term self)
          then (Some (set_current self (term self)), notify self w', rc)
          else (Some (set_current self (dest self e)), w', rc).
Proof.
  split; [done|]. intros r. unfold r. clear r.
  destruct (Z.eqb_spec (current self) (term self)) as [E|E].
  { unfold fsm_act, fsm_terminated. rewrite E, Z.eqb_refl. done. }
  pose proof (fsm_scan_first self (entries self) action d1 d2 w) as Hf.
  destruct (fsm_scan self (entries self) action d1 d2 w) as [e|] eqn:Hs.
  - right. destruct Hf as (i & Hi & Hfi & Hj). exists i, e. split_and!; [done..|].
    rewrite (fsm_act_entry _ _ _ _ _ _ e) by done.
    destruct (run_exec e args w) as [rc w'].
    case_bool_decide as Hb; destruct (Z.eqb_spec rc 0), (Z.eqb_spec (dest self e) (term self));
      simpl; try done; exfalso; tauto || (apply Hb; tauto).
  - left. split; [by apply fsm_act_none|done].
Qed.
End acts.

(** ** Runs *)

Section runs.
Context {D A C W : Type}.

(** The caller's sequence of calls on one machine, with their results. *)
Fixpoint fsm_run (self : option (fsm D A C W)) (acts : list (Z * D * D * A)) (w : W) :
    option (fsm D A C W) * W * list Z :=
  match acts with
  | [] => (self, w, [])
  | (action, d1, d2, args) :: acts =>
      let '(self, w, rc) := fsm_act self action d1 d2 args w in
      let '(self, w, rcs) := fsm_run self acts w in
      (self, w, rc :: rcs)
  end.

Lemma fsm_run_terminated self acts w :
  current self = term self →
  fsm_run (Some self) acts w = (Some self, w, replicate (length acts) FSM_E_FINAL).
Proof.
  intros E. induction acts as [|[[[? ?] ?] ?] acts IH]; simpl; [done|].
  rewrite E, Z.eqb_refl, IH. done.
Qed.
End runs.

Section callback.
Context {D A C V : Type}.

(** A machine whose termination callback counts its calls in the second
    component of the world, which no hook touches. *)
Definition counting (self : fsm D A C (V * nat)) : Prop :=
  (∀ d v n, option_map (λ cb, cb d (v, n)) (callback_term self) = Some (0, (v, S n))) ∧
  ∀ e f args v n, e ∈ entries self → e_exec e = Some f → (f args (v, n)).2.2 = n.

Lemma counting_run acts : ∀ (self : fsm D A C (V * nat)) v n,
  counting self → current self ≠ term self →
  ∃ self' v' rcs,
    fsm_run (Some self) acts (v, n) =
      (Some self', (v', if fsm_terminated (Some self') then S n else n), rcs).
Proof.
  induction acts as [|[[[ev d1] d2] args] acts IH]; intros self v n [Hcb Hex] Hc;
    cbn [fsm_run].
  { exists self, v, []. simpl. destruct (Z.eqb_spec (current self) (term self)); done. }
  pose proof (fsm_scan_first self (entries self) ev d1 d2 (v, n)) as Hf.
  destruct (fsm_scan self (entries self) ev d1 d2 (v, n)) as [e|] eqn:Hs.
  - rewrite (fsm_act_entry self ev d1 d2 args (v, n) e Hc Hs).
    destruct Hf as (i & Hi & _). apply list_elem_of_lookup_2 in Hi.
    assert ((run_exec e args (v, n)).2.2 = n) as Hn.
    { unfold run_exec. destruct (e_exec e) as [f|] eqn:He; [|done]. eauto. }
    destruct (run_exec e args (v, n)) as [rc [v' n']]; simpl in Hn; subst n'.
    destruct (negb (rc =? 0) || (dest self e =? term self)) eqn:Hb.
    + rewrite fsm_run_terminated by done. unfold notify.
      specialize (Hcb (callback_data self) v' n).
      destruct (callback_term self) as [cb|] eqn:Ecb; [|done]. simpl in *.
      injection Hcb as ->. exists (set_current self (term self)), v'. eexists.
      simpl. rewrite Z.eqb_refl. reflexivity.
    + destruct (IH (set_current self (dest self e)) v' n) as (s' & v2 & rcs & ->).
      * done.
      * simpl. intros E. rewrite E, Z.eqb_refl, orb_true_r in Hb. done.
      * do 3 eexists. done.
  - rewrite fsm_act_none by done.
    destruct (IH self v n) as (s' & v2 & rcs & ->); [done..|]. do 3 eexists. done.
Qed.
End callback.

(** Termination is signalled exactly once: in any run of a machine that
    starts outside its terminal state, the termination callback has been
    called once if the machine ended in its terminal state and never
    otherwise, and once terminated every further call returns [FSM_E_FINAL]
    without running a hook or changing anything. *)
Theorem fsm_callback_once {D A C V} (self : fsm D A C (V * nat)) acts later v :
  counting self → current self ≠ term self →
  ∃ self' v' rcs,
    let n := if fsm_terminated (Some self') then 1%nat else 0%nat in
    fsm_run (Some self) acts (v, 0%nat) = (Some self', (v', n), rcs) ∧
    (fsm_terminated (Some self') = true →
     fsm_run (Some self') later (v', n)
       = (Some self', (v', n), replicate (length later) FSM_E_FINAL)).
Proof.
  intros Hcnt Hc. destruct (counting_run acts self v 0 Hcnt Hc) as (self' & v' & rcs & Hr).
  exists self', v', rcs. split; [exact Hr|]. intros Ht. apply fsm_run_terminated.
  by apply Z.eqb_eq.
Qed.

(** ** Building the table *)

Section tables.
Context {D A C W : Type}.
Implicit Types (self : fsm D A C W) (args : list (fsm_entry D A W)).

(** The array never holds more than it was allocated for. *)
Definition cap_ok (self : fsm D A C W) : Prop := count self <= cap self ∧ 0 <= cap self.

Lemma count_push self e : count (push_entry self e) = count self + 1.
Proof. unfold count, push_entry; simpl. rewrite length_app; simpl. lia. Qed.

Lemma entry_add_spec al self :
  cap_ok self →
  match fsm_entry_add al self with
  | Some self' => entries self' = entries self ∧ current self' = current self ∧
      term self' = term self ∧ count self' < cap self' ∧ cap self <= cap self'
  | None => count self = cap self ∧
      realloc_ok al (if cap self =? 0 then 16 else cap self * 2) = false
  end.
Proof.
  intros [Hc H0]. unfold fsm_entry_add.
  destruct (Z.eqb_spec (count self) (cap self)) as [E|E]; [|split_and!; done || lia].
  destruct (realloc_ok al _) eqn:Hr; [|done]. split_and!; try done;
    unfold count in *; simpl; destruct (Z.eqb_spec (cap self) 0); lia.
Qed.

Lemma fsm_set_loop_spec al args : ∀ self,
  cap_ok self →
  ∃ k self' ret, fsm_set_loop al self args = (self', ret) ∧ cap_ok self' ∧
    entries self' = entries self ++ take k args ∧
    current self' = current self ∧ term self' = term self ∧
    ((ret = FSM_OK ∧ k = length args) ∨
     (ret = FSM_E_NOMEM ∧ (k < length args)%nat ∧ ∃ n, realloc_ok al n = false)).
Proof.
  induction args as [|e args IH]; intros self Hc; cbn [fsm_set_loop].
  { exists 0%nat, self, FSM_OK. rewrite app_nil_r. split_and!; try done. by left. }
  pose proof (entry_add_spec al self Hc) as Ha.
  destruct (fsm_entry_add al self) as [self1|].
  - destruct Ha as (He & Hcu & Ht & Hcap & Hge).
    destruct (IH (push_entry self1 e)) as (k & self' & ret & -> & Hc' & He' & Hcu' & Ht' & Hr).
    { split; rewrite ?count_push; unfold cap_ok, count in *; simpl; lia. }
    exists (S k), self', ret. simpl in *. rewrite He' , He, <-app_assoc.
    split_and!; try done; try congruence.
    destruct Hr as [[? ?]|(? & ? & ?)]; [left|right]; split_and!; done || lia.
  - exists 0%nat, self, FSM_E_NOMEM. simpl. rewrite app_nil_r. split_and!; try done.
    right. split_and!; [done|lia|]. destruct Ha as [_ Ha]. by eexists.
Qed.

(** [fsm_set] appends the given entries in order after the existing ones
    and touches nothing else; it reports [FSM_E_NOMEM] only when an allocation
    failed, in which case the entries before the failure are kept, and the
    entry count never exceeds the allocated capacity. *)
Theorem fsm_set_appends al self args :
  cap_ok self →
  ∃ k self' ret, fsm_set al (Some self) args = (Some self', ret) ∧ cap_ok self' ∧
    entries self' = entries self ++ take k args ∧
    current self' = current self ∧ term self' = term self ∧
    ((ret = FSM_OK ∧ k = length args) ∨
     (ret = FSM_E_NOMEM ∧ (k < length args)%nat ∧ ∃ n, realloc_ok al n = false)).
Proof.
  intros Hc. destruct (fsm_set_loop_spec al args self Hc) as (k & self' & ret & Hr & ?).
  exists k, self', ret. unfold fsm_set. by rewrite Hr.
Qed.
End tables.

(** ** Plain machines and their runs

    The protocol tables use [fsm_cond_always] and [fsm_exec_nothing] only, so
    a call is a function of the state and the event. *)

Abbreviation tfsm := (fsm unit unit unit unit).
Abbreviation tentry := (fsm_entry unit unit unit).

Definition tact (self : tfsm) (ev : Z) : tfsm * Z :=
  match fsm_act (Some self) ev tt tt tt tt with
  | (Some self', _, rc) => (self', rc)
  | (None, _, rc) => (self, rc)
  end.

Definition row (from ev to : Z) (desc : string) : tentry :=
  FSM_ADD_ALWAYS from ev to (Some fsm_exec_nothing) desc.

(** The machine with a given table, as the builders leave it when the table
    fits the first allocation of 16 entries. *)
Definition tmachine (init trm : Z) (table : list tentry) : tfsm :=
  {| debug := false; current := init; term := trm; entries := table; cap := 16;
     callback_term := None; callback_data := None |}.

Lemma tmachine_set_loop al init trm table : ∀ es,
  (length es + length table <= 16)%nat →
  fsm_set_loop al (tmachine init trm es) table = (tmachine init trm (es ++ table), FSM_OK).
Proof.
  induction table as [|e table IH]; intros es Hl; cbn [fsm_set_loop].
  { by rewrite app_nil_r. }
  unfold fsm_entry_add, count; simpl in *.
  destruct (Z.eqb_spec (Z.of_nat (length es)) 16); [lia|].
  change (push_entry (tmachine init trm es) e) with (tmachine init trm (es ++ [e])).
  rewrite IH by (rewrite length_app; simpl; lia). by rewrite <-app_assoc.
Qed.

Lemma tmachine_built al init trm e table :
  (length table < 16)%nat → calloc_ok al = true → realloc_ok al 16 = true →
  match fsm_create al init trm with
  | None => None
  | Some fsm => (fsm_set al (Some fsm) (e :: table)).1
  end = Some (tmachine init trm (e :: table)).
Proof.
  intros Hl Hc Hr. unfold fsm_create. rewrite Hc. cbn [fsm_set fsm_set_loop].
  unfold fsm_entry_add at 1; simpl. rewrite Hr.
  change (push_entry _ e) with (tmachine init trm [e]).
  by rewrite tmachine_set_loop by (simpl; lia).
Qed.

(** A run, feeding each event and the call's result to a monitor. *)
Fixpoint trun {M} (mon : M → Z → Z → M) (self : tfsm) (m : M) (evs : list Z) : tfsm * M :=
  match evs with
  | [] => (self, m)
  | ev :: evs => let '(self', rc) := tact self ev in trun mon self' (mon m ev rc) evs
  end.

Lemma set_current_twice {D A C W} (self : fsm D A C W) s t :
  set_current (set_current self s) t = set_current self t.
Proof. done. Qed.
Lemma set_current_id {D A C W} (self : fsm D A C W) : set_current self (current self) = self.
Proof. by destruct self. Qed.

(** A call only moves the machine: table and terminal state stay. *)
Lemma tact_set_current self ev : ∃ s rc, tact self ev = (set_current self s, rc).
Proof.
  unfold tact. destruct (Z.eq_dec (current self) (term self)) as [E|E].
  - unfold fsm_act, fsm_terminated. rewrite E, Z.eqb_refl.
    exists (current self), FSM_E_FINAL. by rewrite set_current_id.
  - destruct (fsm_scan self (entries self) ev tt tt tt) as [e|] eqn:Hs.
    + rewrite (fsm_act_entry _ _ _ _ _ _ e) by done.
      destruct (run_exec e () ()) as [rc []].
      destruct (_ || _); do 2 eexists; done.
    + rewrite fsm_act_none by done. exists (current self), FSM_E_NOMATCH.
      by rewrite set_current_id.
Qed.

Section monitors.
Context {M : Type} `{!EqDecision M} (mon : M → Z → Z → M) (self : tfsm) (evs : list Z).

(** [S] is closed under every event of [evs]. *)
Definition closedb (S : list (Z * M)) : bool :=
  forallb (λ sm,
    forallb (λ ev,
      let '(self', rc) := tact (set_current self sm.1) ev in
      bool_decide ((current self', mon sm.2 ev rc) ∈ S)) evs) S.

Lemma monitor_sound S run : ∀ s m,
  closedb S = true → (s, m) ∈ S → Forall (λ ev, ev ∈ evs) run →
  ∃ s' m', trun mon (set_current self s) m run = (set_current self s', m') ∧ (s', m') ∈ S.
Proof.
  induction run as [|ev run IH]; intros s m Hcl Hin Hrun; cbn [trun]; [eauto|].
  apply Forall_cons_iff in Hrun as [Hev Hrun].
  destruct (tact_set_current (set_current self s) ev) as (s1 & rc & Ht).
  rewrite Ht, set_current_twice. apply IH; [done| |done].
  unfold closedb in Hcl. rewrite forallb_forall in Hcl.
  specialize (Hcl (s, m)). rewrite <-list_elem_of_In in Hcl. specialize (Hcl Hin).
  rewrite forallb_forall in Hcl. specialize (Hcl ev).
  rewrite <-list_elem_of_In in Hcl. specialize (Hcl Hev). simpl in Hcl.
  rewrite Ht in Hcl. simpl in Hcl. by apply bool_decide_eq_true in Hcl.
Qed.
End monitors.

(** *** Instances of the properties on concrete machines *)

Definition ex_machine : fsm unit unit unit (unit * nat) :=
  {| debug := false; current := 0; term := 9;
     entries := [FSM_ADD_ALWAYS 0 1 5 None "start"; FSM_ADD_ALWAYS fsm_state_any 2 9 None "stop"];
     cap := 16; callback_term := Some (λ _ w, (0, (w.1, S w.2))); callback_data := None |}.

Lemma fsm_callback_once_witness :
  counting ex_machine ∧
  ∃ self' v' rcs,
    let n := if fsm_terminated (Some self') then 1%nat else 0%nat in
    fsm_run (Some ex_machine) [(1, tt, tt, tt); (2, tt, tt, tt)] (tt, 0%nat)
      = (Some self', (v', n), rcs) ∧
    (fsm_terminated (Some self') = true →
     fsm_run (Some self') [(2, tt, tt, tt)] (v', n)
       = (Some self', (v', n), replicate 1 FSM_E_FINAL)).
Proof.
  assert (counting ex_machine) as H.
  { split; [done|]. intros e f args v n He. simpl in He.
    repeat (apply elem_of_cons in He as [->|He]; [done|]). by apply not_elem_of_nil in He. }
  split; [exact H|].
  exact (fsm_callback_once ex_machine [(1, tt, tt, tt); (2, tt, tt, tt)] [(2, tt, tt, tt)] tt H
           ltac:(done)).
Defined.

Lemma fsm_set_appends_witness :
  ∃ k self' ret,
    fsm_set (Allocator true (λ n, n <=? 16)) (Some ex_machine)
      [FSM_ADD_ALWAYS_NOTHING 5 "ignore"] = (Some self', ret) ∧ cap_ok self' ∧
    entries self' = entries ex_machine ++ take k [FSM_ADD_ALWAYS_NOTHING 5 "ignore"] ∧
    current self' = 0 ∧ term self' = 9 ∧
    ((ret = FSM_OK ∧ k = 1%nat) ∨
     (ret = FSM_E_NOMEM ∧ (k < 1)%nat ∧ ∃ n, (n <=? 16) = false)).
Proof.
  apply (fsm_set_appends (Allocator true (λ n, n <=? 16)) ex_machine
           [FSM_ADD_ALWAYS_NOTHING 5 "ignore"]).
  by vm_compute.
Defined.
