(* ===== verification/DiamFsm.v ===== *)
(** * DiamFsm: the Diameter session state machines

    Models [diam/inc/diam_fsm.h] and [diam/src/diam_fsm.c]: the transition
    tables of the client and the server authorization session, built on the
    engine of Fsm.v, against the transition diagram of the header. *)

From stdpp Require Import strings.
From S2P Require Import Prelude Fsm.

(** ** Vocabulary *)

Inductive diam_sess_state :=
| ST_IDLE | ST_PENDING | ST_OPEN | ST_DISCON | ST_CLOSED.

Inductive diam_sess_event :=
| EV_SEND_REQUEST | EV_RECV_REQUEST | EV_ANSWER_OK | EV_ANSWER_FAIL | EV_REAUTH
| EV_SEND_STR | EV_RECV_STR | EV_RECV_STA | EV_ABORT | EV_TIMEOUT.

#[export] Instance diam_sess_state_eq_dec : EqDecision diam_sess_state.
Proof. solve_decision. Defined.
#[export] Instance diam_sess_event_eq_dec : EqDecision diam_sess_event.
Proof. solve_decision. Defined.

Definition st_id (s : diam_sess_state) : Z :=
  match s with
  | ST_IDLE => 0 | ST_PENDING => 1 | ST_OPEN => 2 | ST_DISCON => 3 | ST_CLOSED => 4
  end.
Definition ev_id (e : diam_sess_event) : Z :=
  match e with
  | EV_SEND_REQUEST => 0 | EV_RECV_REQUEST => 1 | EV_ANSWER_OK => 2 | EV_ANSWER_FAIL => 3
  | EV_REAUTH => 4 | EV_SEND_STR => 5 | EV_RECV_STR => 6 | EV_RECV_STA => 7
  | EV_ABORT => 8 | EV_TIMEOUT => 9
  end.

#[local] Coercion st_id : diam_sess_state >-> Z.
#[local] Coercion ev_id : diam_sess_event >-> Z.

(** ** The tables *)

Definition sess_client_table : list tentry :=
  [ row ST_IDLE EV_SEND_REQUEST ST_PENDING "client: idle -auth request sent-> pending";
    row ST_PENDING EV_ANSWER_OK ST_OPEN "client: pending -successful answer-> open";
    row ST_PENDING EV_ANSWER_FAIL ST_CLOSED "client: pending -failed answer-> closed";
    row ST_PENDING EV_TIMEOUT ST_CLOSED "client: pending -Tx expired-> closed";
    row ST_OPEN EV_REAUTH ST_OPEN "client: open -re-auth-> open";
    row ST_OPEN EV_SEND_REQUEST ST_OPEN "client: open -auth request sent-> open";
    row ST_OPEN EV_ANSWER_OK ST_OPEN "client: open -successful answer-> open";
    row ST_OPEN EV_ANSWER_FAIL ST_CLOSED "client: open -failed answer-> closed";
    row ST_OPEN EV_SEND_STR ST_DISCON "client: open -STR sent-> discon";
    row ST_OPEN EV_ABORT ST_DISCON "client: open -ASR received, STR follows-> discon";
    row ST_OPEN EV_TIMEOUT ST_CLOSED "client: open -session timer expired-> closed";
    row ST_DISCON EV_RECV_STA ST_CLOSED "client: discon -STA received-> closed";
    row ST_DISCON EV_TIMEOUT ST_CLOSED "client: discon -Tx expired-> closed" ].

Definition sess_server_table : list tentry :=
  [ row ST_IDLE EV_RECV_REQUEST ST_PENDING "server: idle -auth request received-> pending";
    row ST_PENDING EV_ANSWER_OK ST_OPEN "server: pending -successful answer sent-> open";
    row ST_PENDING EV_ANSWER_FAIL ST_CLOSED "server: pending -failed answer sent-> closed";
    row ST_OPEN EV_REAUTH ST_OPEN "server: open -re-auth-> open";
    row ST_OPEN EV_RECV_REQUEST ST_OPEN "server: open -auth request received-> open";
    row ST_OPEN EV_ANSWER_OK ST_OPEN "server: open -successful answer sent-> open";
    row ST_OPEN EV_ANSWER_FAIL ST_CLOSED "server: open -failed answer sent-> closed";
    row ST_OPEN EV_RECV_STR ST_CLOSED "server: open -STR received, STA sent-> closed";
    row ST_OPEN EV_ABORT ST_DISCON "server: open -ASR sent-> discon";
    row ST_OPEN EV_TIMEOUT ST_CLOSED "server: open -session timer expired-> closed";
    row ST_DISCON EV_RECV_STR ST_CLOSED "server: discon -STR received, STA sent-> closed";
    row ST_DISCON EV_TIMEOUT ST_CLOSED "server: discon -no STR came-> closed" ].

Definition diam_sess_fsm_client (al : allocator) : option tfsm :=
  match fsm_create al ST_IDLE ST_CLOSED with
  | None => None
  | Some fsm => (fsm_set al (Some fsm) sess_client_table).1
  end.

Definition diam_sess_fsm_server (al : allocator) : option tfsm :=
  match fsm_create al ST_IDLE ST_CLOSED with
  | None => None
  | Some fsm => (fsm_set al (Some fsm) sess_server_table).1
  end.

Definition diam_sess_state_name (state : Z) : string :=
  if state =? ST_IDLE then "Idle" else if state =? ST_PENDING then "Pending"
  else if state =? ST_OPEN then "Open" else if state =? ST_DISCON then "Discon"
  else if state =? ST_CLOSED then "Closed" else "?".

Definition diam_sess_event_name (event : Z) : string :=
  if event =? EV_SEND_REQUEST then "auth request sent"
  else if event =? EV_RECV_REQUEST then "auth request received"
  else if event =? EV_ANSWER_OK then "successful answer"
  else if event =? EV_ANSWER_FAIL then "failed answer"
  else if event =? EV_REAUTH then "re-authorization"
  else if event =? EV_SEND_STR then "STR sent"
  else if event =? EV_RECV_STR then "STR received"
  else if event =? EV_RECV_STA then "STA received"
  else if event =? EV_ABORT then "session abort"
  else if event =? EV_TIMEOUT then "timeout" else "?".

(** ** The diagrams of the header *)

(** Transitions drawn in [diam_fsm.h] for the client, with the mid-session
    authorization exchange that the comment in the table adds to it. *)
Inductive client_step : diam_sess_state → diam_sess_event → diam_sess_state → Prop :=
| c_request : client_step ST_IDLE EV_SEND_REQUEST ST_PENDING
| c_granted : client_step ST_PENDING EV_ANSWER_OK ST_OPEN
| c_denied : client_step ST_PENDING EV_ANSWER_FAIL ST_CLOSED
| c_reauth : client_step ST_OPEN EV_REAUTH ST_OPEN
| c_str : client_step ST_OPEN EV_SEND_STR ST_DISCON
| c_abort : client_step ST_OPEN EV_ABORT ST_DISCON
| c_sta : client_step ST_DISCON EV_RECV_STA ST_CLOSED
| c_timeout s : s ∈ [ST_PENDING; ST_OPEN; ST_DISCON] → client_step s EV_TIMEOUT ST_CLOSED
| c_mid_request : client_step ST_OPEN EV_SEND_REQUEST ST_OPEN
| c_mid_granted : client_step ST_OPEN EV_ANSWER_OK ST_OPEN
| c_mid_denied : client_step ST_OPEN EV_ANSWER_FAIL ST_CLOSED.

(** The server's diagram.  The header also draws a timeout out of PENDING;
    the table has no such row, see [diam_timeout_closes]. *)
Inductive server_step : diam_sess_state → diam_sess_event → diam_sess_state → Prop :=
| s_request : server_step ST_IDLE EV_RECV_REQUEST ST_PENDING
| s_granted : server_step ST_PENDING EV_ANSWER_OK ST_OPEN
| s_denied : server_step ST_PENDING EV_ANSWER_FAIL ST_CLOSED
| s_reauth : server_step ST_OPEN EV_REAUTH ST_OPEN
| s_abort : server_step ST_OPEN EV_ABORT ST_DISCON
| s_str s : s ∈ [ST_OPEN; ST_DISCON] → server_step s EV_RECV_STR ST_CLOSED
| s_timeout s : s ∈ [ST_OPEN; ST_DISCON] → server_step s EV_TIMEOUT ST_CLOSED
| s_mid_request : server_step ST_OPEN EV_RECV_REQUEST ST_OPEN
| s_mid_granted : server_step ST_OPEN EV_ANSWER_OK ST_OPEN
| s_mid_denied : server_step ST_OPEN EV_ANSWER_FAIL ST_CLOSED.

(** The machines an allocator without failures yields. *)
Definition machine (table : list tentry) : tfsm := tmachine ST_IDLE ST_CLOSED table.

(** The machine in state [s]. *)
Definition client (s : diam_sess_state) : tfsm := set_current (machine sess_client_table) s.
Definition server (s : diam_sess_state) : tfsm := set_current (machine sess_server_table) s.

Lemma diam_sess_fsm_client_eq al :
  calloc_ok al = true → realloc_ok al 16 = true →
  diam_sess_fsm_client al = Some (client ST_IDLE).
Proof.
  intros. apply tmachine_built; [simpl; lia|done..].
Qed.

Lemma diam_sess_fsm_server_eq al :
  calloc_ok al = true → realloc_ok al 16 = true →
  diam_sess_fsm_server al = Some (server ST_IDLE).
Proof.
  intros. apply tmachine_built; [simpl; lia|done..].
Qed.

(** [m] in state [s] answers the event [e] as [step] says. *)
Definition conforms (step : diam_sess_state → diam_sess_event → diam_sess_state → Prop)
    (m : diam_sess_state → tfsm) (s : diam_sess_state) (e : diam_sess_event) : Prop :=
  if decide (s = ST_CLOSED) then tact (m s) e = (m s, FSM_E_FINAL)
  else (∃ s', step s e s' ∧ tact (m s) e = (m s', FSM_OK)) ∨
       ((∀ s', ¬ step s e s') ∧ tact (m s) e = (m s, FSM_E_NOMATCH)).

Ltac conform :=
  unfold conforms; case_decide; [try discriminate; reflexivity|];
  first
    [ done
    | left; eexists; split; [constructor; set_solver|reflexivity]
    | right; split; [intros ? Hs; inversion Hs; set_solver|reflexivity] ].

Lemma client_conforms s e : conforms client_step client s e.
Proof. destruct s, e; conform. Qed.
Lemma server_conforms s e : conforms server_step server s e.
Proof. destruct s, e; conform. Qed.

(** With memory available, the session machines that the two builders
    return implement the transition diagrams of the header exactly: in every
    state an event moves the machine along the diagram's edge with a zero
    return, is refused with [FSM_E_NOMATCH] and no change when the diagram
    has no such edge, and is answered [FSM_E_FINAL] once closed. *)
Theorem diam_sess_conforms al s e :
  calloc_ok al = true → realloc_ok al 16 = true →
  diam_sess_fsm_client al = Some (client ST_IDLE) ∧
  diam_sess_fsm_server al = Some (server ST_IDLE) ∧
  conforms client_step client s e ∧ conforms server_step server s e.
Proof.
  intros. split_and!; [by apply diam_sess_fsm_client_eq|by apply diam_sess_fsm_server_eq
    |apply client_conforms|apply server_conforms].
Qed.

Lemma diam_sess_conforms_witness :
  diam_sess_fsm_client (Allocator true (λ _, true)) = Some (client ST_IDLE) ∧
  diam_sess_fsm_server (Allocator true (λ _, true)) = Some (server ST_IDLE) ∧
  conforms client_step client ST_OPEN EV_SEND_STR ∧
  conforms server_step server ST_OPEN EV_SEND_STR.
Proof.
  exact (diam_sess_conforms (Allocator true (λ _, true)) ST_OPEN EV_SEND_STR eq_refl eq_refl).
Defined.

(** ** Runs *)

Definition all_events : list Z :=
  map ev_id [EV_SEND_REQUEST; EV_RECV_REQUEST; EV_ANSWER_OK; EV_ANSWER_FAIL; EV_REAUTH;
    EV_SEND_STR; EV_RECV_STR; EV_RECV_STA; EV_ABORT; EV_TIMEOUT].

(** What has been accepted so far: nothing, an authorization request, or a
    request followed by a successful answer. *)
Inductive auth := AuthNone | AuthAsked | AuthGranted.
#[export] Instance auth_eq_dec : EqDecision auth.
Proof. solve_decision. Defined.

Definition auth_monitor (m : auth) (ev rc : Z) : auth :=
  if negb (rc =? FSM_OK) then m
  else if (ev =? EV_SEND_REQUEST) || (ev =? EV_RECV_REQUEST)
  then match m with AuthNone => AuthAsked | _ => m end
  else if ev =? EV_ANSWER_OK
  then match m with AuthAsked => AuthGranted | _ => m end
  else m.

Definition auth_states : list (Z * auth) :=
  [ (ST_IDLE : Z, AuthNone); (ST_PENDING : Z, AuthAsked); (ST_OPEN : Z, AuthGranted);
    (ST_DISCON : Z, AuthGranted); (ST_CLOSED : Z, AuthAsked); (ST_CLOSED : Z, AuthGranted) ].

Lemma diam_events_all (evs : list diam_sess_event) : Forall (λ ev, ev ∈ all_events) (map ev_id evs).
Proof.
  apply Forall_forall. intros x Hx. apply list_elem_of_In, in_map_iff in Hx as ([] & <- & _);
    apply list_elem_of_In; simpl; tauto.
Qed.

(** A Diameter session is never open, nor being disconnected, without
    authorization: after any sequence of events on a fresh client or server
    machine, if the state is OPEN or DISCON then a request was accepted and a
    later successful answer was accepted. *)
Theorem diam_open_authorized (m : diam_sess_state → tfsm) evs :
  m = client ∨ m = server →
  ∃ s' a, trun auth_monitor (m ST_IDLE) AuthNone (map ev_id evs)
            = (set_current (m ST_IDLE) s', a) ∧
    (s' = ST_OPEN ∨ s' = ST_DISCON → a = AuthGranted).
Proof.
  intros [-> | ->].
  - destruct (monitor_sound auth_monitor (machine sess_client_table) all_events auth_states
      (map ev_id evs) ST_IDLE AuthNone) as (s' & a & Hr & Hin);
      [by vm_compute|set_solver|apply diam_events_all|].
    exists s', a. split; [exact Hr|]. unfold auth_states in Hin. set_solver.
  - destruct (monitor_sound auth_monitor (machine sess_server_table) all_events auth_states
      (map ev_id evs) ST_IDLE AuthNone) as (s' & a & Hr & Hin);
      [by vm_compute|set_solver|apply diam_events_all|].
    exists s', a. split; [exact Hr|]. unfold auth_states in Hin. set_solver.
Qed.

Lemma diam_open_authorized_witness :
  ∃ s' a, trun auth_monitor (client ST_IDLE) AuthNone
            (map ev_id [EV_SEND_REQUEST; EV_TIMEOUT; EV_ANSWER_OK])
            = (set_current (client ST_IDLE) s', a) ∧
    (s' = ST_OPEN ∨ s' = ST_DISCON → a = AuthGranted).
Proof.
  exact (diam_open_authorized client [EV_SEND_REQUEST; EV_TIMEOUT; EV_ANSWER_OK]
           (or_introl eq_refl)).
Defined.

(** A timeout closes a session that is under way: it takes the client out
    of PENDING, OPEN and DISCON, and the server out of OPEN and DISCON, to
    CLOSED.  In PENDING the server refuses it and stays, contrary to the
    diagram in the header. *)
Theorem diam_timeout_closes s :
  s ∈ [ST_PENDING; ST_OPEN; ST_DISCON] →
  tact (client s) EV_TIMEOUT = (client ST_CLOSED, FSM_OK) ∧
  tact (server s) EV_TIMEOUT =
    if decide (s = ST_PENDING) then (server ST_PENDING, FSM_E_NOMATCH)
    else (server ST_CLOSED, FSM_OK).
Proof.
  intros Hs. destruct s; try (exfalso; set_solver); split; reflexivity.
Qed.

Lemma diam_timeout_closes_witness :
  tact (client ST_PENDING) EV_TIMEOUT = (client ST_CLOSED, FSM_OK) ∧
  tact (server ST_PENDING) EV_TIMEOUT = (server ST_PENDING, FSM_E_NOMATCH).
Proof.
  apply (diam_timeout_closes ST_PENDING). apply list_elem_of_In. simpl. tauto.
Defined.
