(* ===== verification/SipFsm.v ===== *)
(** * SipFsm: the SIP transaction state machines

    Models [sip/inc/sip_fsm.h] and [sip/src/sip_fsm.c]: the four RFC 3261
    transaction tables built on the engine of Fsm.v. *)

From stdpp Require Import strings.
From S2P Require Import Prelude Fsm.

Module SipTrans.

(** ** Vocabulary *)

Inductive sip_trans_state :=
| ST_INIT | ST_CALLING | ST_TRYING | ST_PROCEEDING | ST_COMPLETED | ST_CONFIRMED
| ST_TERMINATED.

Inductive sip_trans_event :=
| EV_SEND_REQUEST | EV_RECV_REQUEST | EV_RECV_1XX | EV_RECV_2XX | EV_RECV_3XX_6XX
| EV_SEND_1XX | EV_SEND_2XX | EV_SEND_3XX_6XX | EV_RECV_ACK | EV_TIMER_RETRANSMIT
| EV_TIMER_TIMEOUT | EV_TIMER_TERMINATE | EV_TRANSPORT_ERR.

Definition st_id (s : sip_trans_state) : Z :=
  match s with
  | ST_INIT => 0 | ST_CALLING => 1 | ST_TRYING => 2 | ST_PROCEEDING => 3
  | ST_COMPLETED => 4 | ST_CONFIRMED => 5 | ST_TERMINATED => 6
  end.
Definition ev_id (e : sip_trans_event) : Z :=
  match e with
  | EV_SEND_REQUEST => 0 | EV_RECV_REQUEST => 1 | EV_RECV_1XX => 2 | EV_RECV_2XX => 3
  | EV_RECV_3XX_6XX => 4 | EV_SEND_1XX => 5 | EV_SEND_2XX => 6 | EV_SEND_3XX_6XX => 7
  | EV_RECV_ACK => 8 | EV_TIMER_RETRANSMIT => 9 | EV_TIMER_TIMEOUT => 10
  | EV_TIMER_TERMINATE => 11 | EV_TRANSPORT_ERR => 12
  end.

#[local] Coercion st_id : sip_trans_state >-> Z.
#[local] Coercion ev_id : sip_trans_event >-> Z.

(** ** The tables *)

Definition invite_client_table : list tentry :=
  [ row ST_INIT EV_SEND_REQUEST ST_CALLING "invite client: init -INVITE out-> calling";
    row ST_CALLING EV_TIMER_RETRANSMIT ST_CALLING
      "invite client: calling -timer A, retransmit-> calling";
    row ST_CALLING EV_RECV_1XX ST_PROCEEDING "invite client: calling -1xx-> proceeding";
    row ST_CALLING EV_RECV_2XX ST_TERMINATED "invite client: calling -2xx to TU-> terminated";
    row ST_CALLING EV_RECV_3XX_6XX ST_COMPLETED
      "invite client: calling -3xx-6xx, ACK out-> completed";
    row ST_CALLING EV_TIMER_TIMEOUT ST_TERMINATED
      "invite client: calling -timer B-> terminated";
    row ST_PROCEEDING EV_RECV_1XX ST_PROCEEDING
      "invite client: proceeding -1xx-> proceeding";
    row ST_PROCEEDING EV_RECV_2XX ST_TERMINATED
      "invite client: proceeding -2xx to TU-> terminated";
    row ST_PROCEEDING EV_RECV_3XX_6XX ST_COMPLETED
      "invite client: proceeding -3xx-6xx, ACK out-> completed";
    row ST_COMPLETED EV_RECV_3XX_6XX ST_COMPLETED
      "invite client: completed -retransmission, ACK again-> completed";
    row ST_COMPLETED EV_TIMER_TERMINATE ST_TERMINATED
      "invite client: completed -timer D-> terminated";
    row fsm_state_any EV_TRANSPORT_ERR ST_TERMINATED
      "invite client: transport error -> terminated" ].

Definition invite_server_table : list tentry :=
  [ row ST_INIT EV_RECV_REQUEST ST_PROCEEDING
      "invite server: init -INVITE in, 100 out-> proceeding";
    row ST_PROCEEDING EV_RECV_REQUEST ST_PROCEEDING
      "invite server: proceeding -retransmission, resend provisional-> proceeding";
    row ST_PROCEEDING EV_SEND_1XX ST_PROCEEDING
      "invite server: proceeding -1xx out-> proceeding";
    row ST_PROCEEDING EV_SEND_2XX ST_TERMINATED
      "invite server: proceeding -2xx out (TU owns retransmissions)-> terminated";
    row ST_PROCEEDING EV_SEND_3XX_6XX ST_COMPLETED
      "invite server: proceeding -3xx-6xx out-> completed";
    row ST_COMPLETED EV_RECV_REQUEST ST_COMPLETED
      "invite server: completed -retransmission, resend final-> completed";
    row ST_COMPLETED EV_TIMER_RETRANSMIT ST_COMPLETED
      "invite server: completed -timer G, retransmit final-> completed";
    row ST_COMPLETED EV_RECV_ACK ST_CONFIRMED "invite server: completed -ACK-> confirmed";
    row ST_COMPLETED EV_TIMER_TIMEOUT ST_TERMINATED
      "invite server: completed -timer H, no ACK-> terminated";
    row ST_CONFIRMED EV_RECV_ACK ST_CONFIRMED
      "invite server: confirmed -ACK absorbed-> confirmed";
    row ST_CONFIRMED EV_TIMER_TERMINATE ST_TERMINATED
      "invite server: confirmed -timer I-> terminated";
    row fsm_state_any EV_TRANSPORT_ERR ST_TERMINATED
      "invite server: transport error -> terminated" ].

Definition non_invite_client_table : list tentry :=
  [ row ST_INIT EV_SEND_REQUEST ST_TRYING "client: init -request out-> trying";
    row ST_TRYING EV_TIMER_RETRANSMIT ST_TRYING
      "client: trying -timer E, retransmit-> trying";
    row ST_TRYING EV_RECV_1XX ST_PROCEEDING "client: trying -1xx-> proceeding";
    row ST_TRYING EV_RECV_2XX ST_COMPLETED "client: trying -2xx-> completed";
    row ST_TRYING EV_RECV_3XX_6XX ST_COMPLETED "client: trying -3xx-6xx-> completed";
    row ST_TRYING EV_TIMER_TIMEOUT ST_TERMINATED "client: trying -timer F-> terminated";
    row ST_PROCEEDING EV_TIMER_RETRANSMIT ST_PROCEEDING
      "client: proceeding -timer E, retransmit-> proceeding";
    row ST_PROCEEDING EV_RECV_1XX ST_PROCEEDING "client: proceeding -1xx-> proceeding";
    row ST_PROCEEDING EV_RECV_2XX ST_COMPLETED "client: proceeding -2xx-> completed";
    row ST_PROCEEDING EV_RECV_3XX_6XX ST_COMPLETED
      "client: proceeding -3xx-6xx-> completed";
    row ST_PROCEEDING EV_TIMER_TIMEOUT ST_TERMINATED
      "client: proceeding -timer F-> terminated";
    row ST_COMPLETED EV_RECV_2XX ST_COMPLETED
      "client: completed -retransmission absorbed-> completed";
    row ST_COMPLETED EV_RECV_3XX_6XX ST_COMPLETED
      "client: completed -retransmission absorbed-> completed";
    row ST_COMPLETED EV_TIMER_TERMINATE ST_TERMINATED
      "client: completed -timer K-> terminated";
    row fsm_state_any EV_TRANSPORT_ERR ST_TERMINATED
      "client: transport error -> terminated" ].

Definition non_invite_server_table : list tentry :=
  [ row ST_INIT EV_RECV_REQUEST ST_TRYING "server: init -request in, to TU-> trying";
    row ST_TRYING EV_RECV_REQUEST ST_TRYING
      "server: trying -retransmission absorbed-> trying";
    row ST_TRYING EV_SEND_1XX ST_PROCEEDING "server: trying -1xx out-> proceeding";
    row ST_TRYING EV_SEND_2XX ST_COMPLETED "server: trying -2xx out-> completed";
    row ST_TRYING EV_SEND_3XX_6XX ST_COMPLETED "server: trying -3xx-6xx out-> completed";
    row ST_PROCEEDING EV_RECV_REQUEST ST_PROCEEDING
      "server: proceeding -retransmission, resend provisional-> proceeding";
    row ST_PROCEEDING EV_SEND_1XX ST_PROCEEDING "server: proceeding -1xx out-> proceeding";
    row ST_PROCEEDING EV_SEND_2XX ST_COMPLETED "server: proceeding -2xx out-> completed";
    row ST_PROCEEDING EV_SEND_3XX_6XX ST_COMPLETED
      "server: proceeding -3xx-6xx out-> completed";
    row ST_COMPLETED EV_RECV_REQUEST ST_COMPLETED
      "server: completed -retransmission, resend final-> completed";
    row ST_COMPLETED EV_TIMER_TERMINATE ST_TERMINATED
      "server: completed -timer J-> terminated";
    row fsm_state_any EV_TRANSPORT_ERR ST_TERMINATED
      "server: transport error -> terminated" ].

(** ** The builders *)

Definition build (al : allocator) (table : list tentry) : option tfsm :=
  match fsm_create al ST_INIT ST_TERMINATED with
  | None => None
  | Some fsm => (fsm_set al (Some fsm) table).1
  end.

Definition sip_trans_fsm_invite_client (al : allocator) : option tfsm :=
  build al invite_client_table.
Definition sip_trans_fsm_invite_server (al : allocator) : option tfsm :=
  build al invite_server_table.
Definition sip_trans_fsm_client (al : allocator) : option tfsm := build al non_invite_client_table.
Definition sip_trans_fsm_server (al : allocator) : option tfsm := build al non_invite_server_table.

Definition sip_trans_state_name (state : Z) : string :=
  if state =? ST_INIT then "Init" else if state =? ST_CALLING then "Calling"
  else if state =? ST_TRYING then "Trying" else if state =? ST_PROCEEDING then "Proceeding"
  else if state =? ST_COMPLETED then "Completed"
  else if state =? ST_CONFIRMED then "Confirmed"
  else if state =? ST_TERMINATED then "Terminated" else "?".

Definition sip_trans_event_name (event : Z) : string :=
  if event =? EV_SEND_REQUEST then "request sent"
  else if event =? EV_RECV_REQUEST then "request received"
  else if event =? EV_RECV_1XX then "1xx received"
  else if event =? EV_RECV_2XX then "2xx received"
  else if event =? EV_RECV_3XX_6XX then "3xx-6xx received"
  else if event =? EV_SEND_1XX then "1xx sent"
  else if event =? EV_SEND_2XX then "2xx sent"
  else if event =? EV_SEND_3XX_6XX then "3xx-6xx sent"
  else if event =? EV_RECV_ACK then "ACK received"
  else if event =? EV_TIMER_RETRANSMIT then "retransmit timer"
  else if event =? EV_TIMER_TIMEOUT then "timeout timer"
  else if event =? EV_TIMER_TERMINATE then "terminate timer"
  else if event =? EV_TRANSPORT_ERR then "transport error" else "?".

(** ** Runs *)

Definition machine (table : list tentry) : tfsm := tmachine ST_INIT ST_TERMINATED table.

Definition all_events : list Z :=
  map ev_id [EV_SEND_REQUEST; EV_RECV_REQUEST; EV_RECV_1XX; EV_RECV_2XX; EV_RECV_3XX_6XX;
    EV_SEND_1XX; EV_SEND_2XX; EV_SEND_3XX_6XX; EV_RECV_ACK; EV_TIMER_RETRANSMIT;
    EV_TIMER_TIMEOUT; EV_TIMER_TERMINATE; EV_TRANSPORT_ERR].

Lemma sip_events_all (evs : list sip_trans_event) : Forall (λ ev, ev ∈ all_events) (map ev_id evs).
Proof.
  apply Forall_forall. intros x Hx. apply list_elem_of_In, in_map_iff in Hx as ([] & <- & _);
    apply list_elem_of_In; simpl; tauto.
Qed.

(** What the transaction has accepted so far: whether its request went
    through, and which final responses (2xx, other) did, up to two of each. *)
Record seen := Seen { req : bool; ok2xx : nat; fail36 : nat }.
#[export] Instance seen_eq_dec : EqDecision seen.
Proof. solve_decision. Defined.

Definition bump (n : nat) : nat := match n with O => 1%nat | _ => 2%nat end.

Definition final_monitor (m : seen) (ev rc : Z) : seen :=
  if negb (rc =? FSM_OK) then m
  else if (ev =? EV_SEND_REQUEST) || (ev =? EV_RECV_REQUEST)
  then Seen true (ok2xx m) (fail36 m)
  else if (ev =? EV_SEND_2XX) || (ev =? EV_RECV_2XX)
  then Seen (req m) (bump (ok2xx m)) (fail36 m)
  else if (ev =? EV_SEND_3XX_6XX) || (ev =? EV_RECV_3XX_6XX)
  then Seen (req m) (ok2xx m) (bump (fail36 m))
  else m.

Definition no_final : seen := Seen true 0 0.

Definition server_states : list (Z * seen) :=
  [ (ST_INIT : Z, Seen false 0 0); (ST_TRYING : Z, no_final); (ST_PROCEEDING : Z, no_final);
    (ST_COMPLETED : Z, Seen true 1 0); (ST_COMPLETED : Z, Seen true 0 1);
    (ST_CONFIRMED : Z, Seen true 0 1); (ST_TERMINATED : Z, Seen false 0 0);
    (ST_TERMINATED : Z, no_final); (ST_TERMINATED : Z, Seen true 1 0);
    (ST_TERMINATED : Z, Seen true 0 1) ].

Definition invite_server_states : list (Z * seen) :=
  [ (ST_INIT : Z, Seen false 0 0); (ST_PROCEEDING : Z, no_final);
    (ST_COMPLETED : Z, Seen true 0 1); (ST_CONFIRMED : Z, Seen true 0 1);
    (ST_TERMINATED : Z, Seen false 0 0); (ST_TERMINATED : Z, no_final);
    (ST_TERMINATED : Z, Seen true 1 0); (ST_TERMINATED : Z, Seen true 0 1) ].

Definition invite_client_states : list (Z * seen) :=
  [ (ST_INIT : Z, Seen false 0 0); (ST_CALLING : Z, no_final); (ST_PROCEEDING : Z, no_final);
    (ST_COMPLETED : Z, Seen true 0 1); (ST_COMPLETED : Z, Seen true 0 2);
    (ST_TERMINATED : Z, Seen false 0 0); (ST_TERMINATED : Z, no_final);
    (ST_TERMINATED : Z, Seen true 1 0); (ST_TERMINATED : Z, Seen true 0 1);
    (ST_TERMINATED : Z, Seen true 0 2) ].

(** The accepted responses are consistent with one answer to one request. *)
Definition one_final (s : Z) (m : seen) : Prop :=
  (ok2xx m + fail36 m <= 1)%nat ∧ ((ok2xx m + fail36 m)%nat ≠ 0%nat → req m = true) ∧
  (s = ST_CONFIRMED → fail36 m = 1%nat).

Ltac one_final_tac := unfold one_final; simpl; split_and!; (lia || done).

(** A server transaction answers its request once: in any sequence of
    events on a fresh INVITE or non-INVITE server machine at most one final
    response is accepted for sending, and only after the request was
    received; the INVITE server is confirmed only after a non-2xx final. *)
Theorem sip_server_answers_once table evs :
  table = invite_server_table ∨ table = non_invite_server_table →
  ∃ s m, trun final_monitor (machine table) (Seen false 0 0) (map ev_id evs)
           = (set_current (machine table) s, m) ∧ one_final s m.
Proof.
  intros [-> | ->].
  - destruct (monitor_sound final_monitor (machine invite_server_table) all_events
      invite_server_states (map ev_id evs) ST_INIT (Seen false 0 0)) as (s & m & Hr & Hin);
      [by vm_compute|apply list_elem_of_In; simpl; tauto|apply sip_events_all|].
    exists s, m. split; [exact Hr|]. apply list_elem_of_In in Hin. simpl in Hin.
    destruct_or! Hin; try done; injection Hin as <- <-; one_final_tac.
  - destruct (monitor_sound final_monitor (machine non_invite_server_table) all_events
      server_states (map ev_id evs) ST_INIT (Seen false 0 0)) as (s & m & Hr & Hin);
      [by vm_compute|apply list_elem_of_In; simpl; tauto|apply sip_events_all|].
    exists s, m. split; [exact Hr|]. apply list_elem_of_In in Hin. simpl in Hin.
    destruct_or! Hin; try done; injection Hin as <- <-; one_final_tac.
Qed.

Lemma sip_server_answers_once_witness :
  ∃ s m, trun final_monitor (machine invite_server_table) (Seen false 0 0)
           (map ev_id [EV_RECV_REQUEST; EV_SEND_3XX_6XX; EV_SEND_2XX; EV_RECV_ACK])
           = (set_current (machine invite_server_table) s, m) ∧ one_final s m.
Proof.
  exact (sip_server_answers_once invite_server_table
           [EV_RECV_REQUEST; EV_SEND_3XX_6XX; EV_SEND_2XX; EV_RECV_ACK] (or_introl eq_refl)).
Defined.

(** An INVITE client transaction has one outcome: in any sequence of
    events on a fresh machine a 2xx response is accepted at most once, never
    together with a 3xx-6xx response (only the latter may repeat, to be
    acknowledged again), and no response is accepted before the request. *)
Theorem sip_invite_client_outcome evs :
  ∃ s m, trun final_monitor (machine invite_client_table) (Seen false 0 0) (map ev_id evs)
           = (set_current (machine invite_client_table) s, m) ∧
    (ok2xx m <= 1)%nat ∧ (ok2xx m = 0%nat ∨ fail36 m = 0%nat) ∧
    ((ok2xx m + fail36 m)%nat ≠ 0%nat → req m = true) ∧
    (s = ST_COMPLETED → ok2xx m = 0%nat ∧ fail36 m ≠ 0%nat).
Proof.
  destruct (monitor_sound final_monitor (machine invite_client_table) all_events
    invite_client_states (map ev_id evs) ST_INIT (Seen false 0 0)) as (s & m & Hr & Hin);
    [by vm_compute|apply list_elem_of_In; simpl; tauto|apply sip_events_all|].
  exists s, m. split; [exact Hr|]. apply list_elem_of_In in Hin. simpl in Hin.
  destruct_or! Hin; try done; injection Hin as <- <-; simpl; split_and!; (lia || done).
Qed.

(** With memory available each builder returns the machine of its table,
    and a transport error ends a transaction from every state that is not
    terminal, whichever of the four machines it is; afterwards every event is
    refused with [FSM_E_FINAL]. *)
Theorem sip_transport_error_terminates al table s e :
  calloc_ok al = true → realloc_ok al 16 = true → s ≠ ST_TERMINATED →
  table ∈ [invite_client_table; invite_server_table; non_invite_client_table; non_invite_server_table] →
  build al table = Some (machine table) ∧
  tact (set_current (machine table) s) EV_TRANSPORT_ERR
    = (set_current (machine table) ST_TERMINATED, FSM_OK) ∧
  tact (set_current (machine table) ST_TERMINATED) (ev_id e)
    = (set_current (machine table) ST_TERMINATED, FSM_E_FINAL).
Proof.
  intros Hc Hr Hs Ht. split.
  - apply list_elem_of_In in Ht. simpl in Ht.
    destruct_or! Ht; try done; subst; (apply tmachine_built; [simpl; lia|done..]).
  - split; [|reflexivity]. apply list_elem_of_In in Ht. simpl in Ht.
    destruct_or! Ht; try done; subst; destruct s; done || reflexivity.
Qed.

Lemma sip_transport_error_terminates_witness :
  build (Allocator true (λ _, true)) non_invite_client_table = Some (machine non_invite_client_table) ∧
  tact (set_current (machine non_invite_client_table) ST_PROCEEDING) EV_TRANSPORT_ERR
    = (set_current (machine non_invite_client_table) ST_TERMINATED, FSM_OK) ∧
  tact (set_current (machine non_invite_client_table) ST_TERMINATED) (ev_id EV_RECV_2XX)
    = (set_current (machine non_invite_client_table) ST_TERMINATED, FSM_E_FINAL).
Proof.
  apply (sip_transport_error_terminates (Allocator true (λ _, true)) non_invite_client_table
           ST_PROCEEDING EV_RECV_2XX); try reflexivity; [discriminate|].
  apply list_elem_of_In. simpl. tauto.
Defined.

End SipTrans.
