(* ===== verification/SipDialog.v ===== *)
(** * SipDialog: the SIP dialog, registration and digest machines

    Models [sip/inc/sip_dialog.h] and [sip/src/sip_dialog.c]: the three tables
    above the transaction layer, built on the engine of Fsm.v, their builders
    and name functions. *)

From stdpp Require Import strings.
From S2P Require Import Prelude Fsm.

Module SipDialog.

(** ** Vocabulary *)

Inductive sip_dialog_state :=
| DIALOG_INIT | DIALOG_EARLY | DIALOG_CONFIRMED | DIALOG_TERMINATED.
Inductive sip_dialog_event := DIALOG_EV_EARLY | DIALOG_EV_CONFIRM | DIALOG_EV_TERMINATE.

Inductive sip_reg_state :=
| REG_IDLE | REG_REGISTERING | REG_CHALLENGED | REG_AUTHENTICATING | REG_REGISTERED
| REG_REFRESHING | REG_DEREGISTERING | REG_DONE | REG_FAILED.
Inductive sip_reg_event :=
| REG_EV_SEND | REG_EV_CHALLENGE | REG_EV_AUTH | REG_EV_OK | REG_EV_FAIL | REG_EV_REFRESH
| REG_EV_DEREGISTER.

Inductive sip_auth_state :=
| AUTH_INIT | AUTH_PENDING | AUTH_CHALLENGED | AUTH_AUTHENTICATED | AUTH_FAILED.
Inductive sip_auth_event :=
| AUTH_EV_SEND | AUTH_EV_CHALLENGE | AUTH_EV_SUCCESS | AUTH_EV_FAILURE | AUTH_EV_GIVE_UP.

Definition dialog_st (s : sip_dialog_state) : Z :=
  match s with
  | DIALOG_INIT => 0 | DIALOG_EARLY => 1 | DIALOG_CONFIRMED => 2 | DIALOG_TERMINATED => 3
  end.
Definition dialog_ev (e : sip_dialog_event) : Z :=
  match e with DIALOG_EV_EARLY => 0 | DIALOG_EV_CONFIRM => 1 | DIALOG_EV_TERMINATE => 2 end.
Definition reg_st (s : sip_reg_state) : Z :=
  match s with
  | REG_IDLE => 0 | REG_REGISTERING => 1 | REG_CHALLENGED => 2 | REG_AUTHENTICATING => 3
  | REG_REGISTERED => 4 | REG_REFRESHING => 5 | REG_DEREGISTERING => 6 | REG_DONE => 7
  | REG_FAILED => 8
  end.
Definition reg_ev (e : sip_reg_event) : Z :=
  match e with
  | REG_EV_SEND => 0 | REG_EV_CHALLENGE => 1 | REG_EV_AUTH => 2 | REG_EV_OK => 3
  | REG_EV_FAIL => 4 | REG_EV_REFRESH => 5 | REG_EV_DEREGISTER => 6
  end.
Definition auth_st (s : sip_auth_state) : Z :=
  match s with
  | AUTH_INIT => 0 | AUTH_PENDING => 1 | AUTH_CHALLENGED => 2 | AUTH_AUTHENTICATED => 3
  | AUTH_FAILED => 4
  end.
Definition auth_ev (e : sip_auth_event) : Z :=
  match e with
  | AUTH_EV_SEND => 0 | AUTH_EV_CHALLENGE => 1 | AUTH_EV_SUCCESS => 2 | AUTH_EV_FAILURE => 3
  | AUTH_EV_GIVE_UP => 4
  end.

#[local] Coercion dialog_st : sip_dialog_state >-> Z.
#[local] Coercion dialog_ev : sip_dialog_event >-> Z.
#[local] Coercion reg_st : sip_reg_state >-> Z.
#[local] Coercion reg_ev : sip_reg_event >-> Z.
#[local] Coercion auth_st : sip_auth_state >-> Z.
#[local] Coercion auth_ev : sip_auth_event >-> Z.

(** ** The tables *)

Definition dialog_table : list tentry :=
  [ row DIALOG_INIT DIALOG_EV_EARLY DIALOG_EARLY "dialog: init -1xx with to-tag-> early";
    row DIALOG_INIT DIALOG_EV_CONFIRM DIALOG_CONFIRMED "dialog: init -2xx-> confirmed";
    row DIALOG_INIT DIALOG_EV_TERMINATE DIALOG_TERMINATED
      "dialog: init -non-2xx final / error-> terminated";
    row DIALOG_EARLY DIALOG_EV_EARLY DIALOG_EARLY "dialog: early -another 1xx-> early";
    row DIALOG_EARLY DIALOG_EV_CONFIRM DIALOG_CONFIRMED "dialog: early -2xx-> confirmed";
    row DIALOG_EARLY DIALOG_EV_TERMINATE DIALOG_TERMINATED
      "dialog: early -non-2xx final / error-> terminated";
    row DIALOG_CONFIRMED DIALOG_EV_CONFIRM DIALOG_CONFIRMED
      "dialog: confirmed -2xx retransmission-> confirmed";
    row DIALOG_CONFIRMED DIALOG_EV_TERMINATE DIALOG_TERMINATED
      "dialog: confirmed -BYE / error-> terminated" ].

Definition reg_table : list tentry :=
  [ row REG_IDLE REG_EV_SEND REG_REGISTERING "register: idle -REGISTER out-> registering";
    row REG_REGISTERING REG_EV_CHALLENGE REG_CHALLENGED
      "register: registering -401/407-> challenged";
    row REG_REGISTERING REG_EV_OK REG_REGISTERED
      "register: registering -200 (no challenge)-> registered";
    row REG_REGISTERING REG_EV_FAIL REG_FAILED "register: registering -rejected-> failed";
    row REG_CHALLENGED REG_EV_AUTH REG_AUTHENTICATING
      "register: challenged -credentialed REGISTER out-> authenticating";
    row REG_CHALLENGED REG_EV_FAIL REG_FAILED
      "register: challenged -retry cap / bad credentials-> failed";
    row REG_AUTHENTICATING REG_EV_OK REG_REGISTERED
      "register: authenticating -200-> registered";
    row REG_AUTHENTICATING REG_EV_CHALLENGE REG_CHALLENGED
      "register: authenticating -stale-nonce 401-> challenged";
    row REG_AUTHENTICATING REG_EV_FAIL REG_FAILED
      "register: authenticating -rejected-> failed";
    row REG_REGISTERED REG_EV_REFRESH REG_REFRESHING
      "register: registered -re-REGISTER out-> refreshing";
    row REG_REGISTERED REG_EV_DEREGISTER REG_DEREGISTERING
      "register: registered -REGISTER Expires:0 out-> deregistering";
    row REG_REFRESHING REG_EV_OK REG_REGISTERED "register: refreshing -200-> registered";
    row REG_REFRESHING REG_EV_CHALLENGE REG_CHALLENGED
      "register: refreshing -stale-nonce 401-> challenged";
    row REG_REFRESHING REG_EV_FAIL REG_FAILED "register: refreshing -rejected-> failed";
    row REG_DEREGISTERING REG_EV_OK REG_DONE "register: deregistering -200-> done";
    row REG_DEREGISTERING REG_EV_FAIL REG_FAILED "register: deregistering -rejected-> failed" ].

Definition auth_table : list tentry :=
  [ row AUTH_INIT AUTH_EV_SEND AUTH_PENDING "auth: init -request out-> pending";
    row AUTH_PENDING AUTH_EV_CHALLENGE AUTH_CHALLENGED "auth: pending -401/407-> challenged";
    row AUTH_PENDING AUTH_EV_SUCCESS AUTH_AUTHENTICATED "auth: pending -2xx-> authenticated";
    row AUTH_PENDING AUTH_EV_FAILURE AUTH_FAILED "auth: pending -non-auth rejection-> failed";
    row AUTH_CHALLENGED AUTH_EV_SEND AUTH_PENDING
      "auth: challenged -credentialed request out-> pending";
    row AUTH_CHALLENGED AUTH_EV_GIVE_UP AUTH_FAILED
      "auth: challenged -retry cap / stale loop-> failed";
    row AUTH_AUTHENTICATED AUTH_EV_SEND AUTH_PENDING
      "auth: authenticated -re-auth request out-> pending" ].

(** ** The builders *)

Definition build3 (al : allocator) (init trm : Z) (table : list tentry) : option tfsm :=
  match fsm_create al init trm with
  | None => None
  | Some fsm => (fsm_set al (Some fsm) table).1
  end.

Definition sip_dialog_fsm (al : allocator) : option tfsm :=
  build3 al DIALOG_INIT DIALOG_TERMINATED dialog_table.
Definition sip_reg_fsm (al : allocator) : option tfsm := build3 al REG_IDLE REG_FAILED reg_table.
Definition sip_auth_fsm (al : allocator) : option tfsm :=
  build3 al AUTH_INIT AUTH_FAILED auth_table.

(** ** Names *)

Definition sip_dialog_state_name (state : Z) : string :=
  if state =? DIALOG_INIT then "Init" else if state =? DIALOG_EARLY then "Early"
  else if state =? DIALOG_CONFIRMED then "Confirmed"
  else if state =? DIALOG_TERMINATED then "Terminated" else "?".
Definition sip_dialog_event_name (event : Z) : string :=
  if event =? DIALOG_EV_EARLY then "early (1xx with to-tag)"
  else if event =? DIALOG_EV_CONFIRM then "confirm (2xx)"
  else if event =? DIALOG_EV_TERMINATE then "terminate" else "?".
Definition sip_reg_state_name (state : Z) : string :=
  if state =? REG_IDLE then "Idle" else if state =? REG_REGISTERING then "Registering"
  else if state =? REG_CHALLENGED then "Challenged"
  else if state =? REG_AUTHENTICATING then "Authenticating"
  else if state =? REG_REGISTERED then "Registered"
  else if state =? REG_REFRESHING then "Refreshing"
  else if state =? REG_DEREGISTERING then "Deregistering"
  else if state =? REG_DONE then "Done" else if state =? REG_FAILED then "Failed" else "?".
Definition sip_reg_event_name (event : Z) : string :=
  if event =? REG_EV_SEND then "REGISTER sent"
  else if event =? REG_EV_CHALLENGE then "401/407 challenge"
  else if event =? REG_EV_AUTH then "credentialed REGISTER sent"
  else if event =? REG_EV_OK then "200 OK" else if event =? REG_EV_FAIL then "rejected"
  else if event =? REG_EV_REFRESH then "refresh sent"
  else if event =? REG_EV_DEREGISTER then "de-register sent" else "?".
Definition sip_auth_state_name (state : Z) : string :=
  if state =? AUTH_INIT then "Init" else if state =? AUTH_PENDING then "Pending"
  else if state =? AUTH_CHALLENGED then "Challenged"
  else if state =? AUTH_AUTHENTICATED then "Authenticated"
  else if state =? AUTH_FAILED then "Failed" else "?".
Definition sip_auth_event_name (event : Z) : string :=
  if event =? AUTH_EV_SEND then "request sent"
  else if event =? AUTH_EV_CHALLENGE then "401/407 challenge"
  else if event =? AUTH_EV_SUCCESS then "2xx" else if event =? AUTH_EV_FAILURE then "rejection"
  else if event =? AUTH_EV_GIVE_UP then "give up" else "?".

(** ** The registration drives the digest machine *)

Definition reg_machine : tfsm := tmachine REG_IDLE REG_FAILED reg_table.
Definition auth_machine : tfsm := tmachine AUTH_INIT AUTH_FAILED auth_table.
Definition dialog_machine : tfsm := tmachine DIALOG_INIT DIALOG_TERMINATED dialog_table.

(** What a registration event is to the digest machine in state [a]: every
    REGISTER sent is a request, the answers are its answers, and a failure
    while the challenge is being answered is giving up. *)
Definition auth_view (a ev : Z) : Z :=
  if (ev =? REG_EV_SEND) || (ev =? REG_EV_AUTH) || (ev =? REG_EV_REFRESH) || (ev =? REG_EV_DEREGISTER)
  then AUTH_EV_SEND
  else if ev =? REG_EV_CHALLENGE then AUTH_EV_CHALLENGE
  else if ev =? REG_EV_OK then AUTH_EV_SUCCESS
  else if a =? AUTH_CHALLENGED then AUTH_EV_GIVE_UP else AUTH_EV_FAILURE.

(** The digest machine fed with the accepted events, and whether it has
    accepted every one. *)
Definition auth_monitor (m : Z * bool) (ev rc : Z) : Z * bool :=
  if negb (rc =? FSM_OK) then m
  else let '(self, rc') := tact (set_current auth_machine m.1) (auth_view m.1 ev) in
       (current self, m.2 && (rc' =? FSM_OK)).

(** The digest state a registration state stands on. *)
Definition auth_of (s : sip_reg_state) : sip_auth_state :=
  match s with
  | REG_IDLE => AUTH_INIT
  | REG_REGISTERING | REG_AUTHENTICATING | REG_REFRESHING | REG_DEREGISTERING => AUTH_PENDING
  | REG_CHALLENGED => AUTH_CHALLENGED
  | REG_REGISTERED | REG_DONE => AUTH_AUTHENTICATED
  | REG_FAILED => AUTH_FAILED
  end.

Definition all_reg_states : list sip_reg_state :=
  [REG_IDLE; REG_REGISTERING; REG_CHALLENGED; REG_AUTHENTICATING; REG_REGISTERED;
   REG_REFRESHING; REG_DEREGISTERING; REG_DONE; REG_FAILED].
Definition all_reg_events : list Z :=
  map reg_ev [REG_EV_SEND; REG_EV_CHALLENGE; REG_EV_AUTH; REG_EV_OK; REG_EV_FAIL;
    REG_EV_REFRESH; REG_EV_DEREGISTER].
Definition joint_states : list (Z * (Z * bool)) :=
  map (λ s, (reg_st s, (auth_st (auth_of s), true))) all_reg_states.

Lemma reg_events_all (evs : list sip_reg_event) : Forall (λ ev, ev ∈ all_reg_events) (map reg_ev evs).
Proof.
  apply Forall_forall. intros x Hx. apply list_elem_of_In, in_map_iff in Hx as ([] & <- & _);
    apply list_elem_of_In; simpl; tauto.
Qed.

(** The registration procedure delegates its challenges to the digest
    machine soundly: whatever events a fresh registration machine is fed, the
    digest machine that is told of each accepted one accepts it too, and the two
    stay in corresponding states; with memory available the builders return
    exactly these machines. *)
Theorem sip_reg_delegates_auth evs al :
  calloc_ok al = true → realloc_ok al 16 = true →
  sip_reg_fsm al = Some reg_machine ∧ sip_auth_fsm al = Some auth_machine ∧
  ∃ s : sip_reg_state,
    trun auth_monitor reg_machine (auth_st AUTH_INIT, true) (map reg_ev evs)
      = (set_current reg_machine s, (auth_st (auth_of s), true)).
Proof.
  intros Hc Hr. split_and!; [apply tmachine_built; [simpl; lia|done..]..|].
  destruct (monitor_sound auth_monitor reg_machine all_reg_events joint_states
    (map reg_ev evs) REG_IDLE (auth_st AUTH_INIT, true)) as (s & m & Hrun & Hin);
    [by vm_compute|apply list_elem_of_In; simpl; tauto|apply reg_events_all|].
  apply list_elem_of_In, in_map_iff in Hin as (st & [= <- <-] & _). by exists st.
Qed.

Lemma sip_reg_delegates_auth_witness :
  sip_reg_fsm (Allocator true (λ _, true)) = Some reg_machine ∧
  sip_auth_fsm (Allocator true (λ _, true)) = Some auth_machine ∧
  ∃ s : sip_reg_state,
    trun auth_monitor reg_machine (auth_st AUTH_INIT, true)
      (map reg_ev [REG_EV_SEND; REG_EV_CHALLENGE; REG_EV_AUTH; REG_EV_OK; REG_EV_REFRESH; REG_EV_FAIL])
      = (set_current reg_machine s, (auth_st (auth_of s), true)).
Proof.
  exact (sip_reg_delegates_auth
    [REG_EV_SEND; REG_EV_CHALLENGE; REG_EV_AUTH; REG_EV_OK; REG_EV_REFRESH; REG_EV_FAIL]
    (Allocator true (λ _, true)) eq_refl eq_refl).
Defined.

(** ** The dialog's life *)

(** Accepted events so far: a provisional, a 2xx, an end. *)
Record life := Life { early : bool; confirmed : bool; ended : bool }.
#[export] Instance life_eq_dec : EqDecision life.
Proof. solve_decision. Defined.

Definition life_monitor (m : life) (ev rc : Z) : life :=
  if negb (rc =? FSM_OK) then m
  else if ev =? DIALOG_EV_EARLY then Life true (confirmed m) (ended m)
  else if ev =? DIALOG_EV_CONFIRM then Life (early m) true (ended m)
  else Life (early m) (confirmed m) true.

(** The state the accepted events determine. *)
Definition life_state (m : life) : sip_dialog_state :=
  if ended m then DIALOG_TERMINATED else if confirmed m then DIALOG_CONFIRMED
  else if early m then DIALOG_EARLY else DIALOG_INIT.

Definition dialog_states : list (Z * life) :=
  map (λ m, (dialog_st (life_state m), m))
    (e ← [false; true]; c ← [false; true]; d ← [false; true]; [Life e c d]).

Lemma dialog_events_all (evs : list sip_dialog_event) :
  Forall (λ ev, ev ∈ [0; 1; 2]) (map dialog_ev evs).
Proof.
  apply Forall_forall. intros x Hx. apply list_elem_of_In, in_map_iff in Hx as ([] & <- & _);
    apply list_elem_of_In; simpl; tauto.
Qed.

(** The dialog machine's state is the history of the dialog: whatever events
    a fresh machine is fed, it is terminated exactly when an end was accepted,
    confirmed exactly when a 2xx was and no end, early exactly when only
    provisionals were, and initial when nothing was. *)
Theorem sip_dialog_history evs :
  ∃ m, trun life_monitor dialog_machine (Life false false false) (map dialog_ev evs)
         = (set_current dialog_machine (life_state m), m).
Proof.
  destruct (monitor_sound life_monitor dialog_machine [0; 1; 2] dialog_states
    (map dialog_ev evs) DIALOG_INIT (Life false false false)) as (s & m & Hrun & Hin);
    [by vm_compute|apply list_elem_of_In; simpl; tauto|apply dialog_events_all|].
  apply list_elem_of_In, in_map_iff in Hin as (st & [= <- <-] & _). by exists st.
Qed.

End SipDialog.
