(* ===== verification/SmsFsm.v ===== *)
(** * SmsFsm: the SMS transfer transactions

    Models [sms/inc/sms_fsm.h] and [sms/src/sms_fsm.c]: the mobile-originated
    and mobile-terminated relay-layer tables, built on the engine of Fsm.v. *)

From stdpp Require Import strings.
From S2P Require Import Prelude Fsm.

Module SmsTrans.

(** ** Vocabulary *)

Inductive sms_trans_state :=
| ST_IDLE | ST_WAIT_ACK | ST_DELIVERED | ST_FAILED | ST_ABORTED.

Inductive sms_trans_event :=
| EV_SEND_DATA | EV_RECV_DATA | EV_SEND_ACK | EV_RECV_ACK | EV_SEND_ERROR | EV_RECV_ERROR
| EV_TIMER | EV_ABORT.

Definition st_id (s : sms_trans_state) : Z :=
  match s with
  | ST_IDLE => 0 | ST_WAIT_ACK => 1 | ST_DELIVERED => 2 | ST_FAILED => 3 | ST_ABORTED => 4
  end.
Definition ev_id (e : sms_trans_event) : Z :=
  match e with
  | EV_SEND_DATA => 0 | EV_RECV_DATA => 1 | EV_SEND_ACK => 2 | EV_RECV_ACK => 3
  | EV_SEND_ERROR => 4 | EV_RECV_ERROR => 5 | EV_TIMER => 6 | EV_ABORT => 7
  end.

#[local] Coercion st_id : sms_trans_state >-> Z.
#[local] Coercion ev_id : sms_trans_event >-> Z.

(** ** The tables *)

Definition mo_table : list tentry :=
  [ row ST_IDLE EV_SEND_DATA ST_WAIT_ACK "mo: idle -RP-DATA out, start TR1M-> wait-ack";
    row ST_WAIT_ACK EV_RECV_ACK ST_DELIVERED "mo: wait-ack -RP-ACK-> delivered";
    row ST_WAIT_ACK EV_RECV_ERROR ST_FAILED "mo: wait-ack -RP-ERROR-> failed";
    row ST_WAIT_ACK EV_TIMER ST_FAILED "mo: wait-ack -TR1M expired-> failed";
    row fsm_state_any EV_ABORT ST_ABORTED "mo: abort -> aborted" ].

Definition mt_table : list tentry :=
  [ row ST_IDLE EV_RECV_DATA ST_WAIT_ACK "mt: idle -RP-DATA in, start TR2M-> wait-ack";
    row ST_IDLE EV_SEND_DATA ST_WAIT_ACK "mt: idle -RP-DATA out to the MS-> wait-ack";
    row ST_WAIT_ACK EV_RECV_DATA ST_WAIT_ACK "mt: wait-ack -RP-DATA repeat-> wait-ack";
    row ST_WAIT_ACK EV_SEND_ACK ST_DELIVERED "mt: wait-ack -RP-ACK out-> delivered";
    row ST_WAIT_ACK EV_RECV_ACK ST_DELIVERED "mt: wait-ack -RP-ACK in-> delivered";
    row ST_WAIT_ACK EV_SEND_ERROR ST_FAILED "mt: wait-ack -RP-ERROR out-> failed";
    row ST_WAIT_ACK EV_RECV_ERROR ST_FAILED "mt: wait-ack -RP-ERROR in-> failed";
    row ST_WAIT_ACK EV_TIMER ST_FAILED "mt: wait-ack -TR2M expired-> failed";
    row fsm_state_any EV_ABORT ST_ABORTED "mt: abort -> aborted" ].

Definition build (al : allocator) (table : list tentry) : option tfsm :=
  match fsm_create al ST_IDLE ST_ABORTED with
  | None => None
  | Some fsm => (fsm_set al (Some fsm) table).1
  end.

Definition sms_trans_fsm_mo (al : allocator) : option tfsm := build al mo_table.
Definition sms_trans_fsm_mt (al : allocator) : option tfsm := build al mt_table.

Definition sms_trans_state_name (state : Z) : string :=
  if state =? ST_IDLE then "idle" else if state =? ST_WAIT_ACK then "wait-ack"
  else if state =? ST_DELIVERED then "delivered" else if state =? ST_FAILED then "failed"
  else if state =? ST_ABORTED then "aborted" else "?".

Definition sms_trans_event_name (event : Z) : string :=
  if event =? EV_SEND_DATA then "send RP-DATA" else if event =? EV_RECV_DATA then "recv RP-DATA"
  else if event =? EV_SEND_ACK then "send RP-ACK" else if event =? EV_RECV_ACK then "recv RP-ACK"
  else if event =? EV_SEND_ERROR then "send RP-ERROR"
  else if event =? EV_RECV_ERROR then "recv RP-ERROR"
  else if event =? EV_TIMER then "timer" else if event =? EV_ABORT then "abort" else "?".

(** ** Runs *)

Definition machine (table : list tentry) : tfsm := tmachine ST_IDLE ST_ABORTED table.

Definition all_events : list Z :=
  map ev_id [EV_SEND_DATA; EV_RECV_DATA; EV_SEND_ACK; EV_RECV_ACK; EV_SEND_ERROR;
    EV_RECV_ERROR; EV_TIMER; EV_ABORT].

Lemma sms_events_all (evs : list sms_trans_event) : Forall (λ ev, ev ∈ all_events) (map ev_id evs).
Proof.
  apply Forall_forall. intros x Hx. apply list_elem_of_In, in_map_iff in Hx as ([] & <- & _);
    apply list_elem_of_In; simpl; tauto.
Qed.

(** The accepted outcome reports of a transfer, counted up to two of each, and
    whether its data went out or came in. *)
Record reports := Reports { data : bool; acks : nat; failures : nat }.
#[export] Instance reports_eq_dec : EqDecision reports.
Proof. solve_decision. Defined.

Definition bump (n : nat) : nat := match n with O => 1%nat | _ => 2%nat end.

Definition report_monitor (m : reports) (ev rc : Z) : reports :=
  if negb (rc =? FSM_OK) then m
  else if (ev =? EV_SEND_DATA) || (ev =? EV_RECV_DATA)
  then Reports true (acks m) (failures m)
  else if (ev =? EV_SEND_ACK) || (ev =? EV_RECV_ACK)
  then Reports (data m) (bump (acks m)) (failures m)
  else if (ev =? EV_SEND_ERROR) || (ev =? EV_RECV_ERROR) || (ev =? EV_TIMER)
  then Reports (data m) (acks m) (bump (failures m))
  else m.

Definition report_states : list (Z * reports) :=
  [ (ST_IDLE : Z, Reports false 0 0); (ST_WAIT_ACK : Z, Reports true 0 0);
    (ST_DELIVERED : Z, Reports true 1 0); (ST_FAILED : Z, Reports true 0 1);
    (ST_ABORTED : Z, Reports false 0 0); (ST_ABORTED : Z, Reports true 0 0);
    (ST_ABORTED : Z, Reports true 1 0); (ST_ABORTED : Z, Reports true 0 1) ].

(** The state tells the outcome. *)
Definition outcome_ok (s : Z) (m : reports) : Prop :=
  (acks m + failures m <= 1)%nat ∧ ((acks m + failures m)%nat ≠ 0%nat → data m = true) ∧
  (s = ST_DELIVERED → acks m = 1%nat) ∧ (s = ST_FAILED → failures m = 1%nat).

(** A short message transfer has exactly one outcome: in any sequence of
    events on a fresh MO or MT machine at most one report (an acknowledgement,
    an error or the timer) is accepted, only after RP-DATA went through; the
    state is DELIVERED only if the acknowledgement was accepted and FAILED
    only if an error or the timer was. *)
Theorem sms_transfer_outcome table evs :
  table = mo_table ∨ table = mt_table →
  ∃ s m, trun report_monitor (machine table) (Reports false 0 0) (map ev_id evs)
           = (set_current (machine table) s, m) ∧ outcome_ok s m.
Proof.
  intros Ht.
  destruct (monitor_sound report_monitor (machine table) all_events report_states
    (map ev_id evs) ST_IDLE (Reports false 0 0)) as (s & m & Hr & Hin);
    [destruct Ht as [-> | ->]; by vm_compute|apply list_elem_of_In; simpl; tauto
    |apply sms_events_all|].
  exists s, m. split; [exact Hr|]. apply list_elem_of_In in Hin. simpl in Hin.
  destruct_or! Hin; try done; injection Hin as <- <-; unfold outcome_ok; simpl;
    split_and!; (lia || done).
Qed.

Lemma sms_transfer_outcome_witness :
  ∃ s m, trun report_monitor (machine mt_table) (Reports false 0 0)
           (map ev_id [EV_RECV_DATA; EV_RECV_DATA; EV_SEND_ACK; EV_TIMER])
           = (set_current (machine mt_table) s, m) ∧ outcome_ok s m.
Proof.
  exact (sms_transfer_outcome mt_table [EV_RECV_DATA; EV_RECV_DATA; EV_SEND_ACK; EV_TIMER]
           (or_intror eq_refl)).
Defined.

(** A machine whose table could not be allocated. *)
Definition bare : tfsm :=
  {| debug := false; current := ST_IDLE; term := ST_ABORTED; entries := []; cap := 0;
     callback_term := None; callback_data := None |}.

(** What the MO and MT builders do with memory: they return no machine
    when the machine itself cannot be allocated, the machine with its full
    table when both allocations succeed, and, since the result of [fsm_set]
    is not looked at, a machine with an empty table that refuses every event
    when only the table cannot be allocated. *)
Theorem sms_builders_memory al table e :
  table = mo_table ∨ table = mt_table →
  (build al table =
     if negb (calloc_ok al) then None
     else if realloc_ok al 16 then Some (machine table) else Some bare) ∧
  tact bare (ev_id e) = (bare, FSM_E_NOMATCH).
Proof.
  intros Ht. split; [|reflexivity]. destruct (calloc_ok al) eqn:Hc; simpl.
  - destruct (realloc_ok al 16) eqn:Hr.
    + destruct Ht as [-> | ->]; (apply tmachine_built; [simpl; lia|done..]).
    + destruct Ht as [-> | ->]; unfold build, fsm_create; rewrite Hc; simpl;
        unfold fsm_entry_add; simpl; rewrite Hr; reflexivity.
  - unfold build, fsm_create. by rewrite Hc.
Qed.

Lemma sms_builders_memory_witness :
  build (Allocator true (λ _, false)) mo_table = Some bare ∧
  tact bare (ev_id EV_SEND_DATA) = (bare, FSM_E_NOMATCH).
Proof.
  exact (sms_builders_memory (Allocator true (λ _, false)) mo_table EV_SEND_DATA
           (or_introl eq_refl)).
Defined.

End SmsTrans.
