(* ===== verification/IpPool.v ===== *)
(** * IpPool: the address pool

    Models [task/inc/ippool.h] and [task/src/ippool.c]: address arithmetic on
    network-order octets, the occupancy bitmap with its rotating cursor, and
    the operations on it.  Log calls have no effect on the state and are left
    out; the two [calloc] calls of [pool_new] are the parameter [alloc]. *)

From stdpp Require Import gmap.
From S2P Require Import Prelude Endian.

Definition IPPOOL_OK : Z := 0.
Definition IPPOOL_E_INVAL : Z := -1.
Definition IPPOOL_E_NOMEM : Z := -2.
Definition IPPOOL_E_FULL : Z := -3.
Definition IPPOOL_E_RANGE : Z := -4.
Definition IPPOOL_E_INUSE : Z := -5.
Definition IPPOOL_E_FREE : Z := -6.

Definition IPPOOL_V4 : Z := 4.
Definition IPPOOL_V6 : Z := 16.
Definition IPPOOL_MAX_SIZE : Z := 16777216. (* 1u << 24 *)

(** ** Data *)

Record ippool_addr := IpAddr { a_len : Z; a_b : mem }.

Record ippool := IpPool {
  p_len : Z; p_base : mem; p_size : Z; p_used : Z; p_cursor : Z;
  p_bits : list Z; p_words : Z }.

Definition set_slots (self : ippool) (bits : list Z) (used cursor : Z) : ippool :=
  {| p_len := p_len self; p_base := p_base self; p_size := p_size self; p_used := used;
     p_cursor := cursor; p_bits := bits; p_words := p_words self |}.

(** ** Addresses *)

Definition ippool_addr4 (host_order : Z) : res ippool_addr :=
  b ← wr (zeros 16) 0 (u8 (Z.shiftr host_order 24));
  b ← wr b 1 (u8 (Z.shiftr host_order 16));
  b ← wr b 2 (u8 (Z.shiftr host_order 8));
  b ← wr b 3 (u8 host_order);
  Ok {| a_len := IPPOOL_V4; a_b := b |}.

Definition ippool_addr6 (bytes : mem) : res ippool_addr :=
  bs ← rdn bytes 0 16;
  b ← wrn (zeros 16) 0 bs;
  Ok {| a_len := IPPOOL_V6; a_b := b |}.

Definition ippool_addr4_u32 (a : ippool_addr) : res Z :=
  b0 ← rd (a_b a) 0; b1 ← rd (a_b a) 1; b2 ← rd (a_b a) 2; b3 ← rd (a_b a) 3;
  Ok (Z.lor (Z.lor (Z.lor (Z.shiftl b0 24) (Z.shiftl b1 16)) (Z.shiftl b2 8)) b3).

Definition ippool_addr_eq (x y : ippool_addr) : res bool :=
  if negb (a_len x =? a_len y) then Ok false else
  bx ← rdn (a_b x) 0 (a_len x); byy ← rdn (a_b y) 0 (a_len x);
  Ok (bool_decide (bx = byy)).

(** The lowest set bit of a non-zero word. *)
Fixpoint ctz_loop (fuel : nat) (v n : Z) : Z :=
  match fuel with
  | O => n
  | S fuel => if Z.land v 1 =? 0 then ctz_loop fuel (Z.shiftr v 1) (n + 1) else n
  end.
Definition ippool_ctz64 (v : Z) : Z := ctz_loop 64 v 0.

Fixpoint offset_loop (i : nat) (out : mem) (carry : Z) : res mem :=
  match i with
  | O => Ok out
  | S i =>
      if carry =? 0 then Ok out else
      b ← rd out (Z.of_nat i);
      let carry := u64 (carry + b) in
      out ← wr out (Z.of_nat i) (u8 carry);
      offset_loop i out (Z.shiftr carry 8)
  end.

Definition addr_offset (addr : mem) (len index : Z) (out : mem) : res mem :=
  bs ← rdn addr 0 len;
  out ← wrn out 0 bs;
  offset_loop (Z.to_nat len) out index.

Fixpoint delta_loop (i : nat) (a b diff : mem) (borrow : Z) : res (mem * Z) :=
  match i with
  | O => Ok (diff, borrow)
  | S i =>
      x ← rd a (Z.of_nat i); y ← rd b (Z.of_nat i);
      let v := u32 (x - y - borrow) in
      diff ← wr diff (Z.of_nat i) (u8 v);
      delta_loop i a b diff (Z.land (Z.shiftr v 8) 1)
  end.

(** [for (i = lo; i < len; ++i) if (diff[i]) return false] *)
Fixpoint wide_loop (n : nat) (i : Z) (diff : mem) : res bool :=
  match n with
  | O => Ok false
  | S n => b ← rd diff i; if negb (b =? 0) then Ok true else wide_loop n (i + 1) diff
  end.

Fixpoint join_loop (n : nat) (i : Z) (diff : mem) (d : Z) : res Z :=
  match n with
  | O => Ok d
  | S n => b ← rd diff i; join_loop n (i + 1) diff (Z.lor (u64 (Z.shiftl d 8)) b)
  end.

(** [None] is the [false] return. *)
Definition addr_delta (a b : mem) (len : Z) : res (option Z) :=
  '(diff, borrow) ← delta_loop (Z.to_nat len) a b (uninit 16) 0;
  if negb (borrow =? 0) then Ok None else
  wide ← wide_loop (Z.to_nat (len - 8)) 0 diff;
  if wide : bool then Ok None else
  let lo := if 8 <? len then len - 8 else 0 in
  d ← join_loop (Z.to_nat (len - lo)) lo diff 0;
  Ok (Some d).

(** ** Construction *)

(** [~0ULL << k] *)
Definition ones_from (k : Z) : Z := u64 (Z.shiftl UINT64_MAX k).

Definition mark_tail (size words : Z) (bits : list Z) : res (list Z) :=
  let tail := Z.land size 63 in
  if tail =? 0 then Ok bits else wr bits (words - 1) (ones_from tail).

(** [None] is the [NULL] return. *)
Definition pool_new (alloc : bool * bool) (base : mem) (len size : Z) :
    res (option ippool) :=
  if size =? 0 then Ok None else
  let size := if IPPOOL_MAX_SIZE <? size then IPPOOL_MAX_SIZE else size in
  if negb alloc.1 then Ok None else
  let words := (size + 63) / 64 in
  if negb alloc.2 then Ok None else
  bs ← rdn base 0 len;
  b ← wrn (zeros 16) 0 bs;
  bits ← mark_tail (u32 size) words (zeros words);
  Ok (Some {| p_len := len; p_base := b; p_size := u32 size; p_used := 0; p_cursor := 0;
              p_bits := bits; p_words := words |}).

Fixpoint mask_loop (n : nat) (i prefix_len : Z) (b net : mem) : res mem :=
  match n with
  | O => Ok net
  | S n =>
      let keep := if i * 8 <? prefix_len then prefix_len - i * 8 else 0 in
      let mask := if 8 <=? keep then 255 else u8 (Z.shiftl 255 (8 - keep)) in
      x ← rd b i;
      net ← wr net i (Z.land x mask);
      mask_loop n (i + 1) prefix_len b net
  end.

Definition ippool_create (alloc : bool * bool) (prefix : option ippool_addr)
    (prefix_len : Z) : res (option ippool) :=
  match prefix with
  | None => Ok None
  | Some prefix =>
      if negb (a_len prefix =? IPPOOL_V4) && negb (a_len prefix =? IPPOOL_V6) then Ok None else
      let len := a_len prefix in
      let bits := len * 8 in
      if bits <? prefix_len then Ok None else
      let hostbits := bits - prefix_len in
      net ← mask_loop (Z.to_nat len) 0 prefix_len (a_b prefix) (uninit 16);
      if 64 <=? hostbits then pool_new alloc net len IPPOOL_MAX_SIZE else
      let size := u64 (Z.shiftl 1 hostbits) in
      if (len =? IPPOOL_V4) && (2 <=? hostbits) then
        first ← addr_offset net len 1 (uninit 16);
        pool_new alloc first len (size - 2)
      else pool_new alloc net len size
  end.

Definition ippool_create_range (alloc : bool * bool) (first last : option ippool_addr) :
    res (option ippool) :=
  match first, last with
  | Some first, Some last =>
      if negb (a_len first =? a_len last) ||
         (negb (a_len first =? IPPOOL_V4) && negb (a_len first =? IPPOOL_V6)) then Ok None else
      delta ← addr_delta (a_b last) (a_b first) (a_len first);
      match delta with
      | None => Ok None
      | Some delta =>
          if delta =? UINT64_MAX
          then pool_new alloc (a_b first) (a_len first) IPPOOL_MAX_SIZE
          else pool_new alloc (a_b first) (a_len first) (u64 (delta + 1))
      end
  | _, _ => Ok None
  end.

(** ** Allocation *)

Definition slot_addr (self : ippool) (slot : Z) : res ippool_addr :=
  b ← addr_offset (p_base self) (p_len self) slot (zeros 16);
  Ok {| a_len := p_len self; a_b := b |}.

(** One [for] iteration per unit of fuel: [words + 1] of them.  [out] is the
    caller's object, written on success only. *)
Fixpoint alloc_loop (fuel : nat) (self : ippool) (w mask : Z) (out : ippool_addr) :
    res (ippool * Z * ippool_addr) :=
  match fuel with
  | O => Ok (self, IPPOOL_E_FULL, out)
  | S fuel =>
      word ← rd (p_bits self) w;
      let free_bits := Z.land (u64 (Z.lnot word)) mask in
      if negb (free_bits =? 0) then
        let slot := u32 (u32 (Z.shiftl w 6) + ippool_ctz64 free_bits) in
        bits ← wr (p_bits self) w (Z.lor word (u64 (Z.shiftl 1 (Z.land slot 63))));
        let cursor := if u32 (slot + 1) <? p_size self then u32 (slot + 1) else 0 in
        let self := set_slots self bits (u32 (p_used self + 1)) cursor in
        a ← slot_addr self slot;
        Ok (self, IPPOOL_OK, a)
      else alloc_loop fuel self (if w + 1 =? p_words self then 0 else w + 1) UINT64_MAX out
  end.

(** The [self] and [out] pointers are nullable: [None] is [NULL]. *)
Definition ippool_alloc (self : option ippool) (out : option ippool_addr) :
    res (option ippool * Z * option ippool_addr) :=
  match self, out with
  | Some self, Some out =>
      if p_used self =? p_size self then Ok (Some self, IPPOOL_E_FULL, Some out) else
      '(self, rc, out) ←
        alloc_loop (Z.to_nat (p_words self + 1)) self (Z.shiftr (p_cursor self) 6)
          (ones_from (Z.land (p_cursor self) 63)) out;
      Ok (Some self, rc, Some out)
  | _, _ => Ok (self, IPPOOL_E_INVAL, out)
  end.

Definition ippool_index_of (self : option ippool) (addr : option ippool_addr) : res Z :=
  match self, addr with
  | Some self, Some addr =>
      if negb (a_len addr =? p_len self) then Ok (-1) else
      delta ← addr_delta (a_b addr) (p_base self) (p_len self);
      match delta with
      | None => Ok (-1)
      | Some delta => if p_size self <=? delta then Ok (-1) else Ok (i64 delta)
      end
  | _, _ => Ok (-1)
  end.

Definition ippool_reserve (self : option ippool) (addr : option ippool_addr) :
    res (option ippool * Z) :=
  match self, addr with
  | Some p, Some _ =>
      i ← ippool_index_of self addr;
      if i <? 0 then Ok (self, IPPOOL_E_RANGE) else
      let bit := u64 (Z.shiftl 1 (Z.land (u32 i) 63)) in
      word ← rd (p_bits p) (Z.shiftr (u32 i) 6);
      if negb (Z.land word bit =? 0) then Ok (self, IPPOOL_E_INUSE) else
      bits ← wr (p_bits p) (Z.shiftr (u32 i) 6) (Z.lor word bit);
      Ok (Some (set_slots p bits (u32 (p_used p + 1)) (p_cursor p)), IPPOOL_OK)
  | _, _ => Ok (self, IPPOOL_E_INVAL)
  end.

Definition ippool_free (self : option ippool) (addr : option ippool_addr) :
    res (option ippool * Z) :=
  match self, addr with
  | Some p, Some _ =>
      i ← ippool_index_of self addr;
      if i <? 0 then Ok (self, IPPOOL_E_RANGE) else
      let bit := u64 (Z.shiftl 1 (Z.land (u32 i) 63)) in
      word ← rd (p_bits p) (Z.shiftr (u32 i) 6);
      if Z.land word bit =? 0 then Ok (self, IPPOOL_E_FREE) else
      bits ← wr (p_bits p) (Z.shiftr (u32 i) 6) (Z.land word (u64 (Z.lnot bit)));
      Ok (Some (set_slots p bits (u32 (p_used p - 1)) (p_cursor p)), IPPOOL_OK)
  | _, _ => Ok (self, IPPOOL_E_INVAL)
  end.

Definition ippool_reset (self : option ippool) : res (option ippool) :=
  match self with
  | None => Ok None
  | Some p =>
      bits ← wrn (p_bits p) 0 (zeros (p_words p));
      bits ← mark_tail (p_size p) (p_words p) bits;
      Ok (Some (set_slots p bits 0 0))
  end.

Definition ippool_is_allocated (self : option ippool) (addr : option ippool_addr) : res bool :=
  i ← ippool_index_of self addr;
  if i <? 0 then Ok false else
  match self with
  | Some p =>
      word ← rd (p_bits p) (Z.shiftr (u32 i) 6);
      Ok (negb (Z.land word (u64 (Z.shiftl 1 (Z.land (u32 i) 63))) =? 0))
  | None => Ub
  end.

Definition ippool_size (self : option ippool) : Z :=
  match self with Some p => p_size p | None => 0 end.
Definition ippool_used (self : option ippool) : Z :=
  match self with Some p => p_used p | None => 0 end.
Definition ippool_avail (self : option ippool) : Z :=
  match self with Some p => u32 (p_size p - p_used p) | None => 0 end.

Definition ippool_addr_at (self : option ippool) (index : Z) (out : option ippool_addr) :
    res (Z * option ippool_addr) :=
  match self, out with
  | Some p, Some _ =>
      if p_size p <=? index then Ok (IPPOOL_E_RANGE, out) else
      a ← slot_addr p index; Ok (IPPOOL_OK, Some a)
  | _, _ => Ok (IPPOOL_E_INVAL, out)
  end.

(** ** Address arithmetic on values *)

(** The value of the [len] significant octets. *)
Definition aval (len : Z) (b : mem) : Z := be_val (take (Z.to_nat len) b).

Lemma wr_app (a : mem) x r i v : mlen a = i → wr (a ++ x :: r) i v = Ok (a ++ v :: r).
Proof.
  intros <-. pose proof (mlen_nonneg a). pose proof (mlen_nonneg r).
  rewrite wr_wrn, wrn_Ok by mlia. rewrite splice_app_ge, Z.sub_diag by lia.
  by rewrite splice_0.
Qed.
Lemma rd_app (a : mem) x r i : mlen a = i → rd (a ++ x :: r) i = Ok x.
Proof.
  intros <-. pose proof (mlen_nonneg a). pose proof (mlen_nonneg r).
  rewrite rd_Ok by mlia. by rewrite get_app_ge, Z.sub_diag by lia.
Qed.

(** The first [S i] cells of a buffer as their last one after the others. *)
Lemma mem_snoc (m : mem) (i : nat) :
  (i < length m)%nat → ∃ a x r, m = a ++ x :: r ∧ length a = i ∧
    take i m = a ∧ take (S i) m = a ++ [x].
Proof.
  intros H. destruct (lookup_lt_is_Some_2 m i H) as [x Hx].
  exists (take i m), x, (drop (S i) m). rewrite take_drop_middle, length_take by done.
  split_and!; [done|lia|done|by apply take_S_r].
Qed.

Lemma be_val_snoc a x : be_val (a ++ [x]) = be_val a * 256 + x.
Proof. rewrite be_val_app. simpl. lia. Qed.

Lemma be_bytes_snoc n v : be_bytes (S n) v = be_bytes n (v / 256) ++ [v mod 256].
Proof.
  rewrite <-Nat.add_1_r, be_bytes_app. simpl. by rewrite Z.div_1_r.
Qed.

(** Carry propagation is addition modulo [256^i]. *)
Lemma offset_loop_eq i : ∀ out carry,
  (i <= length out)%nat → bytes_ok (take i out) → 0 <= carry < 4294967296 →
  offset_loop i out carry = Ok (be_bytes i (be_val (take i out) + carry) ++ drop i out).
Proof.
  induction i as [|i IH]; intros out carry Hl Hok Hc; [done|]. cbn [offset_loop].
  destruct (mem_snoc out i) as (a & x & r & -> & Ha & Ht & HtS); [lia|].
  rewrite HtS in Hok |- *. apply bytes_ok_app in Hok as [Hoka Hx].
  apply bytes_ok_cons in Hx as [Hx _].
  assert (drop (S i) (a ++ x :: r) = r) as Hd.
  { rewrite drop_app_ge by lia. by replace (S i - length a)%nat with 1%nat by lia. }
  destruct (Z.eqb_spec carry 0) as [->|Hn].
  { rewrite Hd, Z.add_0_r. replace (S i) with (length (a ++ [x])) by (rewrite length_app; simpl; lia).
    rewrite be_bytes_val by (rewrite bytes_ok_app, bytes_ok_cons; auto with cmem).
    by rewrite <-app_assoc. }
  assert (mlen a = Z.of_nat i) as Hma by (unfold mlen; lia).
  rewrite rd_app by done. bstep. rewrite wr_app by done. bstep.
  assert (take i (a ++ u8 (u64 (carry + x)) :: r) = a) as Hta by (by apply take_app_length').
  rewrite u64_small in * by lia. rewrite shiftr_div by lia.
  rewrite IH; [|rewrite length_app; simpl; lia|by rewrite Hta|
    split; [apply Z.div_pos; lia|apply Z.div_lt_upper_bound; lia]].
  rewrite Hta, Hd. rewrite be_bytes_snoc, be_val_snoc, <-app_assoc. rewrite drop_app_length' by done.
  do 2 f_equal.
  - f_equal. change (2 ^ 8) with 256.
    replace (be_val a * 256 + x + carry) with (be_val a * 256 + (carry + x)) by lia.
    by rewrite Z.div_add_l by lia.
  - f_equal. unfold u8. replace (be_val a * 256 + x + carry)
      with (carry + x + be_val a * 256) by lia. by rewrite Z.mod_add by lia.
Qed.

Lemma addr_offset_eq addr len index out :
  0 <= len <= mlen addr → len <= mlen out → bytes_ok (take (Z.to_nat len) addr) →
  0 <= index < 4294967296 →
  addr_offset addr len index out =
    Ok (be_bytes (Z.to_nat len) (aval len addr + index) ++ drop (Z.to_nat len) out).
Proof.
  intros. unfold addr_offset. rewrite rdn_Ok by lia. simpl.
  assert (slice addr 0 len = take (Z.to_nat len) addr) as Hs by done. rewrite Hs.
  assert (length (take (Z.to_nat len) addr) = Z.to_nat len) as Hl
    by (rewrite length_take; unfold mlen in *; lia).
  rewrite wrn_Ok by (rewrite ?mlen_take; lia). simpl. rewrite splice_0, Hl.
  assert (take (Z.to_nat len) (take (Z.to_nat len) addr ++ drop (Z.to_nat len) out) =
    take (Z.to_nat len) addr) as Ht by (by apply take_app_length').
  rewrite offset_loop_eq; [|rewrite length_app, Hl; lia|by rewrite Ht|lia].
  rewrite Ht, drop_app_length' by done. done.
Qed.

(** Borrow propagation is subtraction modulo [256^i]. *)
Lemma delta_loop_eq i : ∀ a b diff borrow,
  (i <= length a)%nat → (i <= length b)%nat → (i <= length diff)%nat →
  bytes_ok a → bytes_ok b → 0 <= borrow <= 1 →
  delta_loop i a b diff borrow =
    Ok (be_bytes i (be_val (take i a) - be_val (take i b) - borrow) ++ drop i diff,
        if be_val (take i a) <? be_val (take i b) + borrow then 1 else 0).
Proof.
  induction i as [|i IH]; intros a b diff borrow Ha Hb Hd Hoka Hokb Hbor.
  { simpl. destruct (Z.ltb_spec 0 (0 + borrow)); do 2 f_equal; lia. }
  cbn [delta_loop].
  destruct (mem_snoc a i) as (a' & x & ra & Ea & Hal & Hta & HtaS); [lia|].
  destruct (mem_snoc b i) as (b' & y & rb & Eb & Hbl & Htb & HtbS); [lia|].
  destruct (mem_snoc diff i) as (d' & z & rd' & Ed & Hdl & Htd & HtdS); [lia|].
  assert (0 <= x < 256 ∧ bytes_ok a') as [Hx Hoka'].
  { rewrite Ea in Hoka. apply bytes_ok_app in Hoka as [? Hoka].
    by apply bytes_ok_cons in Hoka as [? _]. }
  assert (0 <= y < 256 ∧ bytes_ok b') as [Hy Hokb'].
  { rewrite Eb in Hokb. apply bytes_ok_app in Hokb as [? Hokb].
    by apply bytes_ok_cons in Hokb as [? _]. }
  rewrite (rd_Ok a), (rd_Ok b) by (unfold mlen; lia). bstep.
  rewrite Ed, wr_app by (unfold mlen; lia). bstep.
  replace (get a (Z.of_nat i)) with x
    by (rewrite Ea, get_app_ge by (unfold mlen; lia); unfold mlen; by rewrite Hal, Z.sub_diag).
  replace (get b (Z.of_nat i)) with y
    by (rewrite Eb, get_app_ge by (unfold mlen; lia); unfold mlen; by rewrite Hbl, Z.sub_diag).
  set (v := x - y - borrow).
  assert (Z.land (Z.shiftr (u32 v) 8) 1 = if v <? 0 then 1 else 0) as Hbit.
  { rewrite shiftr_div, (Z.land_ones _ 1) by lia. change (2 ^ 1) with 2. change (2 ^ 8) with 256.
    unfold u32, v. destruct (Z.ltb_spec (x - y - borrow) 0); Z.to_euclidean_division_equations; lia. }
  rewrite Hbit. rewrite IH; [|lia|lia|rewrite length_app; simpl; lia|done|done|by destruct (v <? 0)].
  rewrite Hta, Htb, HtaS, HtbS, !be_val_snoc, be_bytes_snoc.
  assert (∃ q, v = 256 * q + v mod 256 ∧ q = if v <? 0 then -1 else 0) as (q & Hq & Hq').
  { exists (v / 256). split; [by apply Z.div_mod|].
    unfold v. destruct (Z.ltb_spec (x - y - borrow) 0); Z.to_euclidean_division_equations; lia. }
  do 2 f_equal.
  - rewrite drop_app_length', drop_app_ge by lia.
    replace (S i - length d')%nat with 1%nat by lia. simpl. rewrite <-app_assoc. f_equal.
    + f_equal. replace (be_val a' * 256 + x - (be_val b' * 256 + y) - borrow)
        with ((be_val a' - be_val b') * 256 + v) by (unfold v; lia).
      rewrite Z.div_add_l by lia. destruct (v <? 0); Z.to_euclidean_division_equations; lia.
    + simpl. f_equal. replace (be_val a' * 256 + x - (be_val b' * 256 + y) - borrow)
        with (v + (be_val a' - be_val b') * 256) by (unfold v; lia).
      rewrite Z.mod_add by lia. unfold u8, u32.
      change 4294967296 with (256 * 16777216). rewrite Z.rem_mul_r by lia.
      rewrite Z.mul_comm, Z.mod_add by lia. by rewrite Z.mod_mod.
  - unfold v in *. destruct (Z.ltb_spec (x - y - borrow) 0);
    destruct (Z.ltb_spec (be_val a' * 256 + x) (be_val b' * 256 + y + borrow)),
      (Z.ltb_spec (be_val a') (be_val b' + 1)), (Z.ltb_spec (be_val a') (be_val b' + 0)); done || lia.
Qed.

Lemma wide_loop_eq n : ∀ i diff,
  0 <= i → i + Z.of_nat n <= mlen diff → bytes_ok (slice diff i (Z.of_nat n)) →
  wide_loop n i diff = Ok (negb (be_val (slice diff i (Z.of_nat n)) =? 0)).
Proof.
  induction n as [|n IH]; intros i diff Hi Hl Hok; [done|]. cbn [wide_loop].
  rewrite rd_Ok by lia. bstep. rewrite slice_cons in * by lia.
  apply bytes_ok_cons in Hok as [Hb Hok].
  replace (Z.of_nat (S n) - 1) with (Z.of_nat n) in * by lia.
  pose proof (be_val_range _ Hok) as Hr. cbn [be_val].
  destruct (Z.eqb_spec (get diff i) 0) as [->|Hn]; simpl.
  - rewrite IH by (done || lia). do 2 f_equal.
  - destruct (Z.eqb_spec (get diff i * 256 ^ Z.of_nat (length (slice diff (i + 1) (Z.of_nat n))) +
      be_val (slice diff (i + 1) (Z.of_nat n))) 0); [nia|done].
Qed.

Lemma join_loop_eq n : ∀ i diff d,
  0 <= i → i + Z.of_nat n <= mlen diff → bytes_ok (slice diff i (Z.of_nat n)) →
  0 <= d → (d + 1) * 256 ^ Z.of_nat n <= 18446744073709551616 →
  join_loop n i diff d = Ok (d * 256 ^ Z.of_nat n + be_val (slice diff i (Z.of_nat n))).
Proof.
  induction n as [|n IH]; intros i diff d Hi Hl Hok Hd Hb.
  { cbn [join_loop]. simpl (Z.of_nat 0). rewrite slice_0. f_equal. simpl. lia. }
  cbn [join_loop]. rewrite rd_Ok by lia. bstep. rewrite slice_cons in * by lia.
  apply bytes_ok_cons in Hok as [Hx Hok].
  replace (Z.of_nat (S n) - 1) with (Z.of_nat n) in * by lia.
  rewrite Nat2Z.inj_succ, Z.pow_succ_r in * by lia.
  assert (length (slice diff (i + 1) (Z.of_nat n)) = n) as Hsl.
  { pose proof (mlen_slice diff (i + 1) (Z.of_nat n)). unfold mlen in *. lia. }
  rewrite u64_small by (rewrite Z.shiftl_mul_pow2 by lia; nia).
  rewrite lor_octet by done. rewrite IH by (done || nia). cbn [be_val]. rewrite Hsl. f_equal. lia.
Qed.

Lemma addr_delta_eq a b len :
  len = 4 ∨ len = 16 → mlen a = 16 → mlen b = 16 → bytes_ok a → bytes_ok b →
  addr_delta a b len =
    Ok (if (aval len b <=? aval len a) && (aval len a - aval len b <? 18446744073709551616)
        then Some (aval len a - aval len b) else None).
Proof.
  intros Hlen Ha Hb Hoka Hokb. unfold addr_delta.
  assert (length a = 16%nat ∧ length b = 16%nat) as [Hal Hbl] by (unfold mlen in *; lia).
  rewrite delta_loop_eq by (try done; rewrite ?Hal, ?Hbl; unfold uninit; rewrite ?length_replicate; lia).
  bstep. fold (aval len a) (aval len b).
  assert (∀ m, bytes_ok m → mlen m = 16 → 0 <= aval len m < 256 ^ len) as Hav.
  { intros m Hm Hml. pose proof (be_val_range (take (Z.to_nat len) m) ltac:(by apply Forall_take)).
    rewrite length_take in H. unfold aval, mlen in *.
    replace (Z.of_nat (Z.to_nat len `min` length m)) with len in H by lia. done. }
  pose proof (Hav a Hoka Ha). pose proof (Hav b Hokb Hb).
  rewrite Z.add_0_r, Z.sub_0_r.
  destruct (Z.ltb_spec (aval len a) (aval len b)), (Z.leb_spec (aval len b) (aval len a));
    try lia; [done|]. cbn [negb Z.eqb andb].
  set (D := aval len a - aval len b) in *.
  assert (be_val (be_bytes (Z.to_nat len) D) = D) as HD.
  { rewrite be_val_bytes, Z.mod_small by (rewrite Z2Nat.id by lia; lia). done. }
  pose proof (be_bytes_ok (Z.to_nat len) D) as HDok.
  destruct Hlen as [-> | ->].
  - change (Z.to_nat 4) with 4%nat in *. change (Z.to_nat (4 - 8)) with 0%nat. change (8 <? 4) with false. cbn iota. cbn [wide_loop]. bstep.
    change (Z.to_nat (4 - 0)) with 4%nat.
    rewrite join_loop_eq; [|lia|mlen_simp; pose proof (mlen_nonneg (drop 4 (uninit 16))); lia| |lia|lia].
    all: rewrite slice_app_l, slice_full by mlia. 2: done. bstep.
    rewrite HD. destruct (Z.ltb_spec D 18446744073709551616); [done|lia].
  - change (16 - 8) with 8. change (Z.to_nat 16) with 16%nat in *. change (8 <? 16) with true. cbn iota.
    change (Z.to_nat (16 - 8)) with 8%nat. change (Z.to_nat 8) with 8%nat.
    change (drop 16 (uninit 16)) with (@nil Z). rewrite app_nil_r.
    change 16%nat with (8 + 8)%nat in *. rewrite be_bytes_app in *.
    rewrite be_val_app, length_be_bytes in HD. apply bytes_ok_app in HDok as [? ?].
    rewrite wide_loop_eq; [|lia|mlia|by rewrite slice_app_l, slice_full by mlia].
    rewrite slice_app_l, slice_full by mlia. bstep.
    rewrite join_loop_eq; [|lia|mlia| |lia|lia].
    2: by rewrite slice_app_ge, slice_full by mlia.
    rewrite slice_app_ge, slice_full by mlia. bstep.
    pose proof (be_val_range (be_bytes 8 D)) as Hr. rewrite length_be_bytes in Hr.
    specialize (Hr ltac:(done)).
    pose proof (be_val_range (be_bytes 8 (D / 256 ^ Z.of_nat 8))) as Hr2. specialize (Hr2 ltac:(done)).
    destruct (Z.eqb_spec (be_val (be_bytes 8 (D / 256 ^ Z.of_nat 8))) 0) as [E|E]; cbn [negb].
    + rewrite E in HD. destruct (Z.ltb_spec D 18446744073709551616); [|lia].
      by rewrite HD.
    + destruct (Z.ltb_spec D 18446744073709551616); [nia|done].
Qed.

(** ** Words and bits *)

Lemma u64_bits x j : 0 <= j → Z.testbit (u64 x) j = (j <? 64) && Z.testbit x j.
Proof.
  intros. unfold u64. change 18446744073709551616 with (2 ^ 64).
  destruct (Z.ltb_spec j 64); [by rewrite Z.mod_pow2_bits_low|by rewrite Z.mod_pow2_bits_high].
Qed.

Lemma ones_from_bits k j :
  0 <= k → 0 <= j < 64 → Z.testbit (ones_from k) j = (k <=? j).
Proof.
  intros. unfold ones_from. rewrite u64_bits, Z.shiftl_spec by lia.
  change UINT64_MAX with (Z.ones 64). rewrite Z.testbit_ones by lia.
  destruct (Z.ltb_spec j 64), (Z.leb_spec k j), (Z.leb_spec 0 (j - k)), (Z.ltb_spec (j - k) 64);
    done || lia.
Qed.

Lemma bit_spec b j : 0 <= b < 64 → 0 <= j →
  Z.testbit (u64 (Z.shiftl 1 b)) j = (j =? b).
Proof.
  intros. rewrite u64_bits, Z.shiftl_1_l, Z.pow2_bits_eqb by lia.
  destruct (Z.ltb_spec j 64), (Z.eqb_spec j b), (Z.eqb_spec b j); done || lia.
Qed.

Lemma land_bit w b : 0 <= b < 64 →
  (Z.land w (u64 (Z.shiftl 1 b)) =? 0) = negb (Z.testbit w b).
Proof.
  intros. destruct (Z.eqb_spec (Z.land w (u64 (Z.shiftl 1 b))) 0) as [E|E].
  - assert (Z.testbit (Z.land w (u64 (Z.shiftl 1 b))) b = false) as H'
      by (by rewrite E, Z.bits_0).
    rewrite Z.land_spec, bit_spec, Z.eqb_refl, andb_true_r in H' by lia. by rewrite H'.
  - destruct (Z.testbit w b) eqn:Hw; [done|]. destruct E. apply Z.bits_inj'. intros j Hj.
    rewrite Z.land_spec, bit_spec, Z.bits_0 by lia.
    destruct (Z.eqb_spec j b) as [->|]; [by rewrite Hw|apply andb_false_r].
Qed.

Definition is_word (w : Z) : Prop := 0 <= w < 18446744073709551616.

Lemma word_iff_bits w : 0 <= w → is_word w ↔ ∀ j, 64 <= j → Z.testbit w j = false.
Proof.
  intros. unfold is_word. rewrite <-(Z.bounded_iff_bits_nonneg 64) by lia.
  change (2 ^ 64) with 18446744073709551616. lia.
Qed.

Lemma is_word_lor a b : is_word a → is_word b → is_word (Z.lor a b).
Proof.
  intros Ha Hb. pose proof Ha. pose proof Hb. unfold is_word in *.
  apply word_iff_bits; [apply Z.lor_nonneg; lia|].
  intros j Hj. rewrite Z.lor_spec.
  by rewrite (proj1 (word_iff_bits a ltac:(lia)) Ha j), (proj1 (word_iff_bits b ltac:(lia)) Hb j).
Qed.

Lemma is_word_land a b : is_word a → 0 <= b → is_word (Z.land a b).
Proof.
  intros Ha Hb. pose proof Ha. unfold is_word in *.
  apply word_iff_bits; [apply Z.land_nonneg; lia|].
  intros j Hj. by rewrite Z.land_spec, (proj1 (word_iff_bits a ltac:(lia)) Ha j).
Qed.

(** The count-trailing-zeros loop finds the lowest set bit. *)
Lemma ctz_loop_spec fuel : ∀ v n,
  0 < v < 2 ^ Z.of_nat fuel →
  n <= ctz_loop fuel v n < n + Z.of_nat fuel ∧
  Z.testbit v (ctz_loop fuel v n - n) = true ∧
  ∀ j, 0 <= j < ctz_loop fuel v n - n → Z.testbit v j = false.
Proof.
  induction fuel as [|fuel IH]; intros v n Hv.
  { simpl in Hv. lia. }
  cbn [ctz_loop]. rewrite Nat2Z.inj_succ, Z.pow_succ_r in Hv by lia.
  replace (Z.land v 1) with (v mod 2) by (symmetry; by apply (Z.land_ones v 1)).
  assert (Z.testbit v 0 = negb (v mod 2 =? 0)) as H0.
  { rewrite <-Z.bit0_mod. by destruct (Z.testbit v 0). }
  destruct (Z.eqb_spec (v mod 2) 0) as [E|E].
  - rewrite shiftr_div by lia. change (2 ^ 1) with 2.
    destruct (IH (v / 2) (n + 1)) as (Hr & Hb & Hl); [Z.to_euclidean_division_equations; lia|].
    set (c := ctz_loop fuel (v / 2) (n + 1)) in *. split_and!; [lia|lia| |].
    + rewrite <-Hb, Z.div2_bits by lia. f_equal. lia.
    + intros j Hj. destruct (Z.eq_dec j 0) as [->|]; [by rewrite H0|].
      rewrite <-(Hl (j - 1)), Z.div2_bits by lia. f_equal. lia.
  - split_and!; [lia|lia| |lia]. by rewrite Z.sub_diag, H0.
Qed.

Lemma ctz64_spec v : is_word v → v ≠ 0 →
  0 <= ippool_ctz64 v < 64 ∧ Z.testbit v (ippool_ctz64 v) = true ∧
  ∀ j, 0 <= j < ippool_ctz64 v → Z.testbit v j = false.
Proof.
  intros Hv Hn. unfold ippool_ctz64, is_word in *.
  destruct (ctz_loop_spec 64 v 0) as (H1 & H2 & H3).
  { change (2 ^ Z.of_nat 64) with 18446744073709551616. lia. }
  rewrite Z.sub_0_r in *. split_and!; [lia|lia|done|done].
Qed.

(** ** The pool's invariant *)

(** Slot [i] is marked in the bitmap. *)
Definition held (bits : list Z) (i : Z) : bool := Z.testbit (get bits (i / 64)) (i mod 64).

(** The allocated slots. *)
Definition slots (p : ippool) : gset Z :=
  list_to_set (filter (λ i, held (p_bits p) i = true) (seqZ 0 (p_size p))).

Definition base_val (p : ippool) : Z := aval (p_len p) (p_base p).

(** The address of slot [i]. *)
Definition addr_of (p : ippool) (i : Z) : ippool_addr :=
  {| a_len := p_len p;
     a_b := be_bytes (Z.to_nat (p_len p)) (base_val p + i) ++ zeros (16 - p_len p) |}.

Record pool_wf (p : ippool) : Prop := PoolWf {
  wf_len : p_len p = 4 ∨ p_len p = 16;
  wf_base : mlen (p_base p) = 16;
  wf_base_ok : bytes_ok (p_base p);
  wf_size : 1 <= p_size p <= IPPOOL_MAX_SIZE;
  wf_words : p_words p = (p_size p + 63) / 64;
  wf_bits : mlen (p_bits p) = p_words p;
  wf_bits_ok : Forall is_word (p_bits p);
  wf_tail : ∀ i, p_size p <= i < 64 * p_words p → held (p_bits p) i = true;
  wf_cursor : 0 <= p_cursor p < p_size p;
  wf_used : p_used p = Z.of_nat (size (slots p));
  wf_end : base_val p + p_size p <= 256 ^ p_len p }.

Definition addr_wf (a : ippool_addr) : Prop := mlen (a_b a) = 16 ∧ bytes_ok (a_b a).

Lemma elem_of_slots p i :
  i ∈ slots p ↔ 0 <= i < p_size p ∧ held (p_bits p) i = true.
Proof.
  unfold slots. rewrite elem_of_list_to_set, list_elem_of_filter, elem_of_seqZ.
  split; intros; destruct_and?; split_and!; done || lia.
Qed.

Lemma slots_bound p : Z.of_nat (size (slots p)) <= Z.max 0 (p_size p).
Proof.
  assert (slots p ⊆ list_to_set (seqZ 0 (p_size p))) as Hs.
  { intros i. rewrite elem_of_slots, elem_of_list_to_set, elem_of_seqZ. lia. }
  apply subseteq_size in Hs. rewrite size_list_to_set in Hs by apply NoDup_seqZ.
  rewrite length_seqZ in Hs. lia.
Qed.

(** A pool has as many members as slots only when every slot is one. *)
Lemma slots_full p : 0 <= p_size p → Z.of_nat (size (slots p)) = p_size p →
  ∀ i, 0 <= i < p_size p → i ∈ slots p.
Proof.
  intros H0 Hs i Hi. destruct (decide (i ∈ slots p)) as [|Hn]; [done|].
  assert ({[i]} ∪ slots p ⊆ list_to_set (seqZ 0 (p_size p))) as Hsub.
  { intros j. rewrite elem_of_union, elem_of_singleton, elem_of_slots, elem_of_list_to_set,
      elem_of_seqZ. lia. }
  apply subseteq_size in Hsub. rewrite size_list_to_set in Hsub by apply NoDup_seqZ.
  rewrite length_seqZ, size_union, size_singleton in Hsub by set_solver. lia.
Qed.

Lemma get_insert bits w v j :
  0 <= w < mlen bits → 0 <= j →
  get (<[Z.to_nat w := v]> bits) j = if j =? w then v else get bits j.
Proof.
  unfold mlen, get. intros. rewrite !nth_lookup.
  destruct (Z.eqb_spec j w) as [->|]; [by rewrite list_lookup_insert_eq by lia|].
  by rewrite list_lookup_insert_ne by lia.
Qed.

Lemma held_insert bits w v i :
  0 <= w < mlen bits → 0 <= i →
  held (<[Z.to_nat w := v]> bits) i =
    if i / 64 =? w then Z.testbit v (i mod 64) else held bits i.
Proof.
  intros. unfold held. rewrite get_insert by (try done; by apply Z.div_pos).
  by destruct (i / 64 =? w).
Qed.

Lemma slot_index i : 0 <= i < 4294967296 →
  Z.shiftr (u32 i) 6 = i / 64 ∧ Z.land (u32 i) 63 = i mod 64.
Proof.
  intros. rewrite u32_small by done. rewrite shiftr_div by lia.
  split; [done|]. by apply (Z.land_ones i 6).
Qed.

(** The bitmap after slot [i] is marked, and after it is cleared. *)
Definition mark (bits : list Z) (i : Z) : list Z :=
  <[Z.to_nat (i / 64) := Z.lor (get bits (i / 64)) (u64 (Z.shiftl 1 (i mod 64)))]> bits.
Definition clear (bits : list Z) (i : Z) : list Z :=
  <[Z.to_nat (i / 64) :=
      Z.land (get bits (i / 64)) (u64 (Z.lnot (u64 (Z.shiftl 1 (i mod 64)))))]> bits.

Lemma div_mod_inj i j k : 0 < k → i / k = j / k → i mod k = j mod k → i = j.
Proof.
  intros Hk E1 E2. rewrite (Z.div_mod i k), (Z.div_mod j k) by lia. lia.
Qed.

Lemma held_mark bits i j :
  0 <= i → i / 64 < mlen bits → 0 <= j →
  held (mark bits i) j = (j =? i) || held bits j.
Proof.
  intros. unfold mark. rewrite held_insert by first [done | split; [by apply Z.div_pos|done]].
  pose proof (Z.mod_pos_bound i 64). pose proof (Z.mod_pos_bound j 64).
  destruct (Z.eqb_spec (j / 64) (i / 64)) as [E|E].
  - rewrite Z.lor_spec, bit_spec by lia. rewrite orb_comm, <-E. f_equal.
    destruct (Z.eqb_spec (j mod 64) (i mod 64)), (Z.eqb_spec j i) as [->|]; try done.
    by destruct (div_mod_inj j i 64).
  - destruct (Z.eqb_spec j i) as [->|]; done.
Qed.

Lemma held_clear bits i j :
  0 <= i → i / 64 < mlen bits → 0 <= j →
  held (clear bits i) j = negb (j =? i) && held bits j.
Proof.
  intros. unfold clear. rewrite held_insert by first [done | split; [by apply Z.div_pos|done]].
  pose proof (Z.mod_pos_bound i 64). pose proof (Z.mod_pos_bound j 64).
  destruct (Z.eqb_spec (j / 64) (i / 64)) as [E|E].
  - rewrite Z.land_spec, u64_bits, Z.lnot_spec, bit_spec by lia. rewrite <-E.
    fold (held bits j). destruct (Z.ltb_spec (j mod 64) 64); [|lia]. rewrite andb_comm. simpl.
    destruct (Z.eqb_spec (j mod 64) (i mod 64)), (Z.eqb_spec j i) as [->|]; try done.
    by destruct (div_mod_inj j i 64).
  - destruct (Z.eqb_spec j i) as [->|]; done.
Qed.

Section pool.
Context (p : ippool) (Hwf : pool_wf p).

Lemma words_bound : 0 < p_words p ∧ p_size p <= 64 * p_words p < p_size p + 64.
Proof using Hwf.
  destruct Hwf. unfold IPPOOL_MAX_SIZE in *. Z.to_euclidean_division_equations; lia.
Qed.

Lemma slot_word i : 0 <= i < 64 * p_words p → 0 <= i / 64 < mlen (p_bits p).
Proof using Hwf.
  intros. rewrite (wf_bits p Hwf). split; [apply Z.div_pos; lia|apply Z.div_lt_upper_bound; lia].
Qed.

Lemma word_ok w : 0 <= w < p_words p → is_word (get (p_bits p) w).
Proof using Hwf.
  intros. pose proof (wf_bits p Hwf) as Hb. unfold get, mlen in *.
  apply Forall_nth; [apply (wf_bits_ok p Hwf)|lia].
Qed.

Lemma rd_word w : 0 <= w < p_words p → rd (p_bits p) w = Ok (get (p_bits p) w).
Proof using Hwf. intros. apply rd_Ok. by rewrite (wf_bits p Hwf). Qed.
Lemma wr_word w v :
  0 <= w < p_words p → wr (p_bits p) w v = Ok (<[Z.to_nat w := v]> (p_bits p)).
Proof using Hwf.
  intros. unfold wr. rewrite (wf_bits p Hwf).
  destruct (Z.leb_spec 0 w), (Z.ltb_spec w (p_words p)); done || lia.
Qed.

Lemma slots_update bits u c i (b : bool) :
  0 <= i < p_size p →
  (∀ j, 0 <= j → held bits j = if j =? i then b else held (p_bits p) j) →
  slots (set_slots p bits u c) = if b then {[i]} ∪ slots p else slots p ∖ {[i]}.
Proof using.
  intros Hi Hh. apply set_eq. intros j. rewrite elem_of_slots. simpl.
  assert (0 <= j → held bits j = true ↔ if j =? i then b = true else held (p_bits p) j = true) as Hj.
  { intros. rewrite Hh by done. by destruct (j =? i). }
  destruct b; rewrite ?elem_of_union, ?elem_of_difference, elem_of_singleton, elem_of_slots;
    destruct (Z.eqb_spec j i); naive_solver lia.
Qed.

(** Updating one slot of the bitmap and the counter with it keeps the invariant. *)
Lemma wf_update bits u c i (b : bool) :
  0 <= i < p_size p → mlen bits = p_words p → Forall is_word bits →
  (∀ j, 0 <= j → held bits j = if j =? i then b else held (p_bits p) j) →
  0 <= c < p_size p →
  u = (if b then p_used p + (if held (p_bits p) i then 0 else 1)
       else p_used p - (if held (p_bits p) i then 1 else 0)) →
  pool_wf (set_slots p bits u c).
Proof using Hwf.
  intros Hi Hm Hok Hh Hc Hu. destruct Hwf.
  constructor; try done.
  - simpl. intros j Hj. rewrite Hh by lia. destruct (Z.eqb_spec j i); [lia|auto].
  - change (u = Z.of_nat (size (slots (set_slots p bits u c)))).
    rewrite (slots_update bits u c i b Hi Hh).
    pose proof (elem_of_slots p i) as He.
    destruct b, (held (p_bits p) i) eqn:Ehi.
    + replace ({[i]} ∪ slots p) with (slots p) by set_solver. lia.
    + rewrite size_union, size_singleton by set_solver. lia.
    + rewrite size_difference, size_singleton by set_solver.
      assert (size ({[i]} : gset Z) <= size (slots p))%nat by (apply subseteq_size; set_solver).
      rewrite size_singleton in *. lia.
    + replace (slots p ∖ {[i]}) with (slots p) by set_solver. lia.
Qed.

Lemma mark_facts i : 0 <= i < p_size p →
  mlen (mark (p_bits p) i) = p_words p ∧ Forall is_word (mark (p_bits p) i) ∧
  ∀ j, 0 <= j → held (mark (p_bits p) i) j = if j =? i then true else held (p_bits p) j.
Proof using Hwf.
  intros Hi. pose proof words_bound. pose proof (slot_word i ltac:(lia)).
  split_and!.
  - unfold mark, mlen. by rewrite length_insert, <-(wf_bits p Hwf).
  - unfold mark. apply Forall_insert; [apply (wf_bits_ok p Hwf)|].
    apply is_word_lor; [apply word_ok; by rewrite <-(wf_bits p Hwf)|apply u64_range].
  - intros j Hj. rewrite held_mark by lia. by destruct (j =? i).
Qed.

Lemma clear_facts i : 0 <= i < p_size p →
  mlen (clear (p_bits p) i) = p_words p ∧ Forall is_word (clear (p_bits p) i) ∧
  ∀ j, 0 <= j → held (clear (p_bits p) i) j = if j =? i then false else held (p_bits p) j.
Proof using Hwf.
  intros Hi. pose proof words_bound. pose proof (slot_word i ltac:(lia)).
  split_and!.
  - unfold clear, mlen. by rewrite length_insert, <-(wf_bits p Hwf).
  - unfold clear. apply Forall_insert; [apply (wf_bits_ok p Hwf)|].
    apply is_word_land; [apply word_ok; by rewrite <-(wf_bits p Hwf)|apply u64_range].
  - intros j Hj. rewrite held_clear by lia. by destruct (j =? i).
Qed.

Lemma slot_addr_eq i : 0 <= i < p_size p → slot_addr p i = Ok (addr_of p i).
Proof using Hwf.
  intros. destruct Hwf. unfold slot_addr. unfold IPPOOL_MAX_SIZE in *.
  rewrite addr_offset_eq
    by first [by apply Forall_take | rewrite ?wf_base0, ?mlen_zeros by lia; lia].
  bstep. unfold addr_of, base_val. do 3 f_equal. unfold zeros.
  rewrite drop_replicate. f_equal. lia.
Qed.
End pool.

(** ** The scan *)

Definition free_in (bits : list Z) (i : Z) : bool := negb (held bits i).

Lemma find_app {A} (f : A → bool) l k :
  find f (l ++ k) = match find f l with Some x => Some x | None => find f k end.
Proof. induction l as [|x l IH]; simpl; [done|]. by destruct (f x). Qed.

Lemma find_none_iff {A} (f : A → bool) l : find f l = None ↔ ∀ x, x ∈ l → f x = false.
Proof.
  split.
  - intros H x Hx. by apply (find_none f l H x), list_elem_of_In.
  - induction l as [|x l IH]; intros H; simpl; [done|].
    rewrite H by set_solver. apply IH. set_solver.
Qed.

Lemma seqZ_split a n k : 0 <= n → 0 <= k → seqZ a (n + k) = seqZ a n ++ seqZ (a + n) k.
Proof. apply seqZ_app. Qed.

Lemma find_seqZ_some f a n i :
  a <= i < a + n → f i = true → (∀ j, a <= j < i → f j = false) →
  find f (seqZ a n) = Some i.
Proof.
  intros Hi Hf Hl. replace n with ((i - a) + (n - (i - a))) by lia.
  rewrite seqZ_split, find_app by lia.
  rewrite (proj2 (find_none_iff f (seqZ a (i - a)))) by (intros x; rewrite elem_of_seqZ; intros; apply Hl; lia).
  rewrite seqZ_cons by lia. replace (a + (i - a)) with i by lia. simpl. by rewrite Hf.
Qed.

(** What one iteration looks at: the bits of word [w] from bit [k] on. *)
Lemma word_scan bits w k :
  0 <= w → 0 <= k < 64 → is_word (get bits w) →
  let free_bits := Z.land (u64 (Z.lnot (get bits w))) (ones_from k) in
  is_word free_bits ∧
  find (free_in bits) (seqZ (64 * w + k) (64 - k)) =
    if free_bits =? 0 then None else Some (64 * w + ippool_ctz64 free_bits).
Proof.
  intros Hw Hk Hword free_bits.
  assert (is_word free_bits) as Hfw by (apply is_word_land; apply u64_range).
  split; [done|].
  assert (∀ j, 0 <= j < 64 → Z.testbit free_bits j = free_in bits (64 * w + j) && (k <=? j)) as Hb.
  { intros j Hj. unfold free_bits. rewrite Z.land_spec, ones_from_bits, u64_bits, Z.lnot_spec by lia.
    unfold free_in, held. replace ((64 * w + j) / 64) with w by (Z.to_euclidean_division_equations; lia).
    replace ((64 * w + j) mod 64) with j by (Z.to_euclidean_division_equations; lia).
    destruct (Z.ltb_spec j 64); [done|lia]. }
  destruct (Z.eqb_spec free_bits 0) as [E|E].
  - apply find_none_iff. intros i. rewrite elem_of_seqZ. intros Hi.
    specialize (Hb (i - 64 * w) ltac:(lia)). rewrite E, Z.bits_0 in Hb.
    replace (64 * w + (i - 64 * w)) with i in Hb by lia.
    destruct (Z.leb_spec k (i - 64 * w)); [|lia]. by rewrite andb_true_r in Hb.
  - destruct (ctz64_spec free_bits Hfw E) as (Hc & Ht & Hl).
    rewrite Hb in Ht by lia. apply andb_true_iff in Ht as [Ht Hk'].
    apply Z.leb_le in Hk'. apply find_seqZ_some; [lia|done|].
    intros j Hj. specialize (Hl (j - 64 * w) ltac:(lia)). rewrite Hb in Hl by lia.
    replace (64 * w + (j - 64 * w)) with j in Hl by lia.
    destruct (Z.leb_spec k (j - 64 * w)); [|lia]. by rewrite andb_true_r in Hl.
Qed.

(** The slots [alloc_loop] visits, in order. *)
Fixpoint sweep (fuel : nat) (words w k : Z) : list Z :=
  match fuel with
  | O => []
  | S fuel => seqZ (64 * w + k) (64 - k) ++ sweep fuel words (if w + 1 =? words then 0 else w + 1) 0
  end.

(** The pool after the allocation of slot [i]. *)
Definition claim (p : ippool) (i : Z) : ippool :=
  set_slots p (mark (p_bits p) i) (p_used p + 1) (if i + 1 <? p_size p then i + 1 else 0).

Lemma claim_wf p i : pool_wf p → 0 <= i < p_size p → held (p_bits p) i = false →
  pool_wf (claim p i) ∧ slots (claim p i) = {[i]} ∪ slots p.
Proof.
  intros Hwf Hi Hh. destruct (mark_facts p Hwf i Hi) as (? & ? & ?). split.
  - apply wf_update with (i := i) (b := true); try done.
    + destruct (Z.ltb_spec (i + 1) (p_size p)); lia.
    + by rewrite Hh.
  - by apply (slots_update p _ _ _ i true).
Qed.

Lemma used_bound p : pool_wf p → 0 <= p_used p <= p_size p.
Proof. intros H. rewrite (wf_used p H). pose proof (slots_bound p). pose proof (wf_size p H). lia. Qed.

Lemma alloc_loop_eq p : pool_wf p → ∀ fuel w k out,
  0 <= w < p_words p → 0 <= k < 64 →
  alloc_loop fuel p w (ones_from k) out =
    Ok (match find (free_in (p_bits p)) (sweep fuel (p_words p) w k) with
        | Some i => (claim p i, IPPOOL_OK, addr_of p i)
        | None => (p, IPPOOL_E_FULL, out)
        end).
Proof.
  intros Hwf. pose proof (words_bound p Hwf) as Hwb. pose proof (wf_size p Hwf) as Hsz.
  unfold IPPOOL_MAX_SIZE in Hsz.
  induction fuel as [|fuel IH]; intros w k out Hw Hk; [done|].
  cbn [alloc_loop sweep]. rewrite (rd_word p Hwf) by done. bstep.
  destruct (word_scan (p_bits p) w k) as [Hfw Hfind]; [lia|done|by apply word_ok|].
  set (free_bits := Z.land (u64 (Z.lnot (get (p_bits p) w))) (ones_from k)) in *.
  rewrite find_app, Hfind. destruct (Z.eqb_spec free_bits 0) as [E|E]; cbn [negb].
  { change UINT64_MAX with (ones_from 0). apply IH; [|lia].
    destruct (Z.eqb_spec (w + 1) (p_words p)); lia. }
  pose proof (ctz64_spec free_bits Hfw E) as (Hc & _ & _).
  set (c := ippool_ctz64 free_bits) in *.
  assert (free_in (p_bits p) (64 * w + c) = true) as Hfree
    by (apply find_some in Hfind as [_ Hfind]; done).
  assert (64 * w + c < p_size p) as Hlt.
  { destruct (Z.lt_ge_cases (64 * w + c) (p_size p)) as [|Hge]; [done|].
    unfold free_in in Hfree. rewrite (wf_tail p Hwf) in Hfree by lia. done. }
  rewrite Z.shiftl_mul_pow2 by lia. change (2 ^ 6) with 64.
  rewrite (u32_small (w * 64)) by lia. rewrite (Z.mul_comm w 64).
  rewrite (u32_small (64 * w + c)) by lia. rewrite (u32_small (64 * w + c + 1)) by lia.
  set (i := 64 * w + c) in *.
  assert (i / 64 = w ∧ i mod 64 = c) as [Hdiv Hmod]
    by (unfold i; Z.to_euclidean_division_equations; lia).
  replace (Z.land i 63) with c by (rewrite <-Hmod; symmetry; by apply (Z.land_ones i 6)).
  rewrite (wr_word p Hwf) by done. bstep.
  replace (<[Z.to_nat w := _]> (p_bits p)) with (mark (p_bits p) i)
    by (unfold mark; by rewrite Hdiv, Hmod).
  pose proof (used_bound p Hwf). rewrite (u32_small (p_used p + 1)) by lia.
  fold (claim p i). assert (pool_wf (claim p i)) as Hcw.
  { apply claim_wf; [done|unfold i; lia|]. by apply negb_true_iff. }
  rewrite (slot_addr_eq _ Hcw) by (simpl; unfold i; lia). done.
Qed.

Lemma sweep_run words n : ∀ m w k,
  (0 < n)%nat → 0 <= w → w + Z.of_nat n <= words → 0 <= k < 64 →
  sweep (n + m) words w k =
    seqZ (64 * w + k) (64 * Z.of_nat n - k) ++
    sweep m words (if w + Z.of_nat n =? words then 0 else w + Z.of_nat n) 0.
Proof.
  induction n as [|n IH]; intros m w k Hn Hw Hle Hk; [lia|]. cbn [sweep Nat.add].
  destruct (decide (n = 0%nat)) as [->|Hn0]; [done|].
  destruct (Z.eqb_spec (w + 1) words); [lia|]. rewrite IH by lia.
  rewrite app_assoc. f_equal.
  - replace (64 * Z.of_nat (S n) - k) with ((64 - k) + (64 * Z.of_nat n - 0)) by lia.
    rewrite seqZ_split by lia. do 2 f_equal. lia.
  - by replace (w + 1 + Z.of_nat n) with (w + Z.of_nat (S n)) by lia.
Qed.

(** The slots in the order the cursor meets them. *)
Definition rotation (size cursor : Z) : list Z := seqZ cursor (size - cursor) ++ seqZ 0 cursor.

(** The first free slot at or after the cursor, wrapping around. *)
Definition next_free (p : ippool) : option Z :=
  find (free_in (p_bits p)) (rotation (p_size p) (p_cursor p)).

Lemma find_sweep p : pool_wf p →
  find (free_in (p_bits p))
    (sweep (Z.to_nat (p_words p + 1)) (p_words p) (p_cursor p / 64) (p_cursor p mod 64)) =
  next_free p.
Proof.
  intros Hwf. pose proof (words_bound p Hwf). destruct (wf_cursor p Hwf) as [Hc0 Hc].
  set (c := p_cursor p) in *. set (w := c / 64).
  assert (64 * w + c mod 64 = c ∧ 0 <= c mod 64 < 64 ∧ 0 <= w < p_words p) as (Hcw & Hm & Hw).
  { unfold w. Z.to_euclidean_division_equations; lia. }
  replace (Z.to_nat (p_words p + 1)) with (Z.to_nat (p_words p - w) + (Z.to_nat (w + 1) + 0))%nat by lia.
  rewrite sweep_run, Z2Nat.id by lia. destruct (Z.eqb_spec (w + (p_words p - w)) (p_words p)); [|lia].
  rewrite sweep_run, Z2Nat.id by lia. cbn [sweep]. rewrite app_nil_r, Hcw.
  replace (64 * (p_words p - w) - c mod 64) with ((p_size p - c) + (64 * p_words p - p_size p)) by lia.
  rewrite seqZ_split by lia. replace (64 * (w + 1) - 0) with (c + (64 - c mod 64)) by lia.
  rewrite (seqZ_split (64 * 0 + 0)) by lia. unfold next_free, rotation. fold c.
  rewrite !find_app. destruct (find _ (seqZ c _)) eqn:Efront; [done|].
  rewrite (proj2 (find_none_iff _ (seqZ (c + (p_size p - c)) _))).
  2: { intros x. rewrite elem_of_seqZ. intros Hx. unfold free_in.
       by rewrite (wf_tail p Hwf) by lia. }
  change (64 * 0 + 0) with 0. destruct (find _ (seqZ 0 c)) eqn:Eback; [done|].
  apply find_none_iff. intros x. rewrite elem_of_seqZ. intros Hx.
  destruct (Z.lt_ge_cases x (p_size p)).
  - apply (proj1 (find_none_iff _ _) Efront). apply elem_of_seqZ. lia.
  - unfold free_in. by rewrite (wf_tail p Hwf) by lia.
Qed.

Lemma next_free_Some p i : pool_wf p → next_free p = Some i → 0 <= i < p_size p ∧ held (p_bits p) i = false.
Proof.
  intros Hwf H. apply find_some in H as [Hin Hf]. apply negb_true_iff in Hf.
  pose proof (wf_cursor p Hwf). unfold rotation in Hin.
  apply list_elem_of_In in Hin. rewrite elem_of_app, !elem_of_seqZ in Hin. split; [lia|done].
Qed.

Lemma next_free_None p : pool_wf p → next_free p = None ↔ p_used p = p_size p.
Proof.
  intros Hwf. pose proof (wf_cursor p Hwf). pose proof (wf_size p Hwf).
  unfold next_free. rewrite find_none_iff, (wf_used p Hwf). split.
  - intros Hall. assert (list_to_set (seqZ 0 (p_size p)) ⊆ slots p) as Hs.
    { intros i. rewrite elem_of_list_to_set, elem_of_seqZ, elem_of_slots. intros Hi.
      split; [lia|]. apply negb_false_iff, Hall. unfold rotation.
      rewrite elem_of_app, !elem_of_seqZ. lia. }
    apply subseteq_size in Hs. rewrite size_list_to_set, length_seqZ in Hs by apply NoDup_seqZ.
    pose proof (slots_bound p). lia.
  - intros Hu i Hi. unfold rotation in Hi. rewrite elem_of_app, !elem_of_seqZ in Hi.
    assert (i ∈ slots p) as Hin by (apply slots_full; lia).
    apply elem_of_slots in Hin as [_ Hin]. unfold free_in. by rewrite Hin.
Qed.

Lemma ippool_alloc_eq p out : pool_wf p →
  ippool_alloc (Some p) (Some out) =
    Ok (match next_free p with
        | Some i => (Some (claim p i), IPPOOL_OK, Some (addr_of p i))
        | None => (Some p, IPPOOL_E_FULL, Some out)
        end).
Proof.
  intros Hwf. unfold ippool_alloc.
  destruct (Z.eqb_spec (p_used p) (p_size p)) as [E|E].
  { by rewrite (proj2 (next_free_None p Hwf) E). }
  pose proof (words_bound p Hwf). pose proof (wf_cursor p Hwf). pose proof (wf_size p Hwf).
  rewrite shiftr_div by lia. change (2 ^ 6) with 64.
  replace (Z.land (p_cursor p) 63) with (p_cursor p mod 64)
    by (symmetry; by apply (Z.land_ones (p_cursor p) 6)).
  rewrite alloc_loop_eq, find_sweep by (try done; Z.to_euclidean_division_equations; lia).
  bstep. by destruct (next_free p).
Qed.

(** ** The other operations *)

(** The slot of an address, or -1. *)
Definition slot_of (p : ippool) (a : ippool_addr) : Z :=
  let d := aval (p_len p) (a_b a) - base_val p in
  if (a_len a =? p_len p) && (0 <=? d) && (d <? p_size p) then d else -1.

Lemma ippool_index_of_eq p a : pool_wf p → addr_wf a →
  ippool_index_of (Some p) (Some a) = Ok (slot_of p a).
Proof.
  intros Hwf [Ha Hok]. unfold ippool_index_of, slot_of.
  destruct (Z.eqb_spec (a_len a) (p_len p)) as [E|E]; cbn [negb andb]; [|done].
  destruct (wf_size p Hwf). unfold IPPOOL_MAX_SIZE in *.
  rewrite addr_delta_eq by (done || apply Hwf). bstep. fold (base_val p).
  set (d := aval (p_len p) (a_b a) - base_val p).
  destruct (Z.leb_spec (base_val p) (aval (p_len p) (a_b a))), (Z.leb_spec 0 d);
    unfold d in *; try lia; cbn [andb]; [|done]. fold d in H2 |- *.
  destruct (Z.ltb_spec d 18446744073709551616), (Z.ltb_spec d (p_size p)); try lia; cbn [andb];
    try destruct (Z.leb_spec (p_size p) d); try lia; try done.
  f_equal. unfold i64. rewrite u64_small by lia. by destruct (Z.ltb_spec d 9223372036854775808); [|lia].
Qed.

Lemma slot_of_range p a : slot_of p a = -1 ∨ 0 <= slot_of p a < p_size p.
Proof.
  unfold slot_of. destruct (_ =? _); simpl; [|by left].
  destruct (Z.leb_spec 0 (aval (p_len p) (a_b a) - base_val p)); simpl; [|by left].
  destruct (Z.ltb_spec (aval (p_len p) (a_b a) - base_val p) (p_size p)); [right; lia|by left].
Qed.

Section ops.
Context (p : ippool) (Hwf : pool_wf p) (a : ippool_addr) (Ha : addr_wf a).

(** The word and the bit of a slot, as the three lookups compute them. *)
Lemma slot_lookup i : 0 <= i < p_size p →
  rd (p_bits p) (Z.shiftr (u32 i) 6) = Ok (get (p_bits p) (i / 64)) ∧
  (Z.land (get (p_bits p) (i / 64)) (u64 (Z.shiftl 1 (Z.land (u32 i) 63))) =? 0) =
    negb (held (p_bits p) i) ∧
  ∀ v, wr (p_bits p) (Z.shiftr (u32 i) 6) v = Ok (<[Z.to_nat (i / 64) := v]> (p_bits p)).
Proof using Hwf.
  intros Hi. pose proof (wf_size p Hwf). unfold IPPOOL_MAX_SIZE in *.
  pose proof (words_bound p Hwf). pose proof (slot_word p Hwf i ltac:(lia)) as Hw.
  rewrite (wf_bits p Hwf) in Hw. destruct (slot_index i) as [-> ->]; [lia|].
  split_and!; [by apply rd_word|apply land_bit, Z.mod_pos_bound; lia|intros; by apply wr_word].
Qed.

Lemma ippool_reserve_eq :
  ippool_reserve (Some p) (Some a) =
    Ok (let i := slot_of p a in
        if i <? 0 then (Some p, IPPOOL_E_RANGE) else
        if held (p_bits p) i then (Some p, IPPOOL_E_INUSE) else
        (Some (set_slots p (mark (p_bits p) i) (p_used p + 1) (p_cursor p)), IPPOOL_OK)).
Proof using Hwf Ha.
  unfold ippool_reserve. rewrite ippool_index_of_eq by done. bstep. cbn zeta.
  destruct (slot_of_range p a) as [->|Hi]; [done|].
  destruct (Z.ltb_spec (slot_of p a) 0); [lia|].
  pose proof (used_bound p Hwf). pose proof (wf_size p Hwf). unfold IPPOOL_MAX_SIZE in *.
  destruct (slot_lookup _ Hi) as (Hrd & Hbit & Hwr). rewrite Hrd. bstep. rewrite Hbit. rewrite negb_involutive.
  destruct (held (p_bits p) (slot_of p a)); [done|]. rewrite Hwr. bstep.
  rewrite (u32_small (p_used p + 1)) by lia. unfold mark.
  destruct (slot_index (slot_of p a)) as [_ ->]; [lia|done].
Qed.

Lemma ippool_free_eq :
  ippool_free (Some p) (Some a) =
    Ok (let i := slot_of p a in
        if i <? 0 then (Some p, IPPOOL_E_RANGE) else
        if negb (held (p_bits p) i) then (Some p, IPPOOL_E_FREE) else
        (Some (set_slots p (clear (p_bits p) i) (p_used p - 1) (p_cursor p)), IPPOOL_OK)).
Proof using Hwf Ha.
  unfold ippool_free. rewrite ippool_index_of_eq by done. bstep. cbn zeta.
  destruct (slot_of_range p a) as [->|Hi]; [done|].
  destruct (Z.ltb_spec (slot_of p a) 0); [lia|].
  pose proof (used_bound p Hwf). pose proof (wf_size p Hwf). unfold IPPOOL_MAX_SIZE in *.
  destruct (slot_lookup _ Hi) as (Hrd & Hbit & Hwr). rewrite Hrd. bstep. rewrite Hbit.
  destruct (held (p_bits p) (slot_of p a)) eqn:Eh; cbn [negb]; [|done]. rewrite Hwr. bstep.
  assert (0 < p_used p).
  { rewrite (wf_used p Hwf). assert ({[slot_of p a]} ⊆ slots p) as Hs
      by (apply singleton_subseteq_l; by apply elem_of_slots).
    apply subseteq_size in Hs. rewrite size_singleton in Hs. lia. }
  rewrite (u32_small (p_used p - 1)) by lia. unfold clear.
  destruct (slot_index (slot_of p a)) as [_ ->]; [lia|done].
Qed.

Lemma ippool_is_allocated_eq :
  ippool_is_allocated (Some p) (Some a) =
    Ok (bool_decide (slot_of p a ∈ slots p)).
Proof using Hwf Ha.
  unfold ippool_is_allocated. rewrite ippool_index_of_eq by done. bstep.
  destruct (slot_of_range p a) as [->|Hi].
  { f_equal. symmetry. apply bool_decide_eq_false. rewrite elem_of_slots. lia. }
  destruct (Z.ltb_spec (slot_of p a) 0); [lia|].
  destruct (slot_lookup _ Hi) as (Hrd & Hbit & _). rewrite Hrd. bstep. rewrite Hbit. rewrite negb_involutive. f_equal.
  destruct (held (p_bits p) (slot_of p a)) eqn:Eh; symmetry.
  - apply bool_decide_eq_true. by apply elem_of_slots.
  - apply bool_decide_eq_false. rewrite elem_of_slots. intros [_ ?]. congruence.
Qed.
End ops.

(** A bitmap freshly cleared and with its padding marked. *)
Definition fresh_bits (size : Z) : list Z :=
  let words := (size + 63) / 64 in
  if size mod 64 =? 0 then zeros words
  else <[Z.to_nat (words - 1) := ones_from (size mod 64)]> (zeros words).

Lemma mark_tail_eq size : 1 <= size →
  mark_tail size ((size + 63) / 64) (zeros ((size + 63) / 64)) = Ok (fresh_bits size).
Proof.
  intros. unfold mark_tail, fresh_bits.
  replace (Z.land size 63) with (size mod 64) by (symmetry; by apply (Z.land_ones size 6)).
  destruct (size mod 64 =? 0); [done|]. unfold wr.
  assert (0 < (size + 63) / 64) by (apply Z.div_str_pos; lia). rewrite mlen_zeros by lia.
  destruct (Z.leb_spec 0 ((size + 63) / 64 - 1)), (Z.ltb_spec ((size + 63) / 64 - 1) ((size + 63) / 64));
    done || lia.
Qed.

Lemma get_zeros n i : get (zeros n) i = 0.
Proof. unfold get, zeros. rewrite nth_lookup. by destruct (_ !! _) eqn:E; [apply lookup_replicate_1 in E as [-> _]|]. Qed.

Lemma held_fresh size i : 1 <= size → 0 <= i < 64 * ((size + 63) / 64) →
  held (fresh_bits size) i = (size <=? i).
Proof.
  intros Hs Hi. unfold fresh_bits.
  destruct (Z.eqb_spec (size mod 64) 0) as [E|E].
  - unfold held. rewrite get_zeros, Z.bits_0. symmetry. apply Z.leb_gt.
    Z.to_euclidean_division_equations; lia.
  - assert (0 < (size + 63) / 64) by (apply Z.div_str_pos; lia).
    rewrite held_insert by (rewrite ?mlen_zeros by lia; lia).
    pose proof (Z.mod_pos_bound i 64 ltac:(lia)). pose proof (Z.mod_pos_bound size 64 ltac:(lia)).
    destruct (Z.eqb_spec (i / 64) ((size + 63) / 64 - 1)) as [Ei|Ei].
    + rewrite ones_from_bits by lia.
      destruct (Z.leb_spec (size mod 64) (i mod 64)), (Z.leb_spec size i); try done;
        exfalso; Z.to_euclidean_division_equations; lia.
    + unfold held. rewrite get_zeros, Z.bits_0. symmetry. apply Z.leb_gt.
      Z.to_euclidean_division_equations; lia.
Qed.

(** A pool with the fresh bitmap is well formed and empty. *)
Lemma fresh_wf len base size :
  len = 4 ∨ len = 16 → mlen base = 16 → bytes_ok base → 1 <= size <= IPPOOL_MAX_SIZE →
  aval len base + size <= 256 ^ len →
  let p := {| p_len := len; p_base := base; p_size := size; p_used := 0; p_cursor := 0;
              p_bits := fresh_bits size; p_words := (size + 63) / 64 |} in
  pool_wf p ∧ slots p = ∅.
Proof.
  intros Hlen Hb Hok Hsz Hend p.
  assert (0 < (size + 63) / 64) by (apply Z.div_str_pos; lia).
  assert (slots p = ∅) as Hemp.
  { apply set_eq. intros i. rewrite elem_of_slots. split; [|set_solver]. simpl. intros [Hi Hh].
    rewrite held_fresh in Hh by (Z.to_euclidean_division_equations; lia). lia. }
  split; [|done]. constructor; simpl; try done.
  - unfold fresh_bits. destruct (_ =? 0); [by rewrite mlen_zeros by lia|].
    unfold mlen. rewrite length_insert. fold (mlen (zeros ((size + 63) / 64))). by rewrite mlen_zeros by lia.
  - unfold fresh_bits. assert (Forall is_word (zeros ((size + 63) / 64))).
    { apply Forall_replicate. done. }
    destruct (_ =? 0); [done|]. apply Forall_insert; [done|]. apply u64_range.
  - intros i Hi. rewrite held_fresh by lia. apply Z.leb_le; lia.
  - lia.
  - by rewrite Hemp, size_empty.
Qed.

Lemma ippool_reset_eq p : pool_wf p →
  ippool_reset (Some p) = Ok (Some (set_slots p (fresh_bits (p_size p)) 0 0)).
Proof.
  intros Hwf. unfold ippool_reset. pose proof (words_bound p Hwf). pose proof (wf_size p Hwf).
  rewrite wrn_Ok by (rewrite ?mlen_zeros, ?(wf_bits p Hwf) by lia; lia). bstep.
  replace (splice (p_bits p) 0 (zeros (p_words p))) with (zeros (p_words p)).
  2: { rewrite splice_0, drop_ge, app_nil_r; [done|].
       pose proof (wf_bits p Hwf). unfold mlen, zeros in *. rewrite length_replicate. lia. }
  rewrite (wf_words p Hwf) at 1 2. rewrite mark_tail_eq by lia. done.
Qed.

Lemma reset_wf p : pool_wf p →
  let q := set_slots p (fresh_bits (p_size p)) 0 0 in pool_wf q ∧ slots q = ∅.
Proof.
  intros Hwf. destruct (fresh_wf (p_len p) (p_base p) (p_size p)) as [H1 H2]; try apply Hwf.
  unfold set_slots. simpl. by rewrite (wf_words p Hwf).
Qed.

(** ** Construction *)

Definition fresh_pool (len : Z) (base : mem) (size : Z) : ippool :=
  {| p_len := len; p_base := take (Z.to_nat len) base ++ zeros (16 - len); p_size := size;
     p_used := 0; p_cursor := 0; p_bits := fresh_bits size; p_words := (size + 63) / 64 |}.

Lemma pool_new_eq alloc base len size :
  len = 4 ∨ len = 16 → len <= mlen base → 1 <= size →
  pool_new alloc base len size =
    Ok (if alloc.1 && alloc.2 then Some (fresh_pool len base (Z.min size IPPOOL_MAX_SIZE)) else None).
Proof.
  intros Hlen Hb Hs. unfold pool_new. destruct (Z.eqb_spec size 0); [lia|].
  replace (if IPPOOL_MAX_SIZE <? size then IPPOOL_MAX_SIZE else size) with (Z.min size IPPOOL_MAX_SIZE)
    by (destruct (Z.ltb_spec IPPOOL_MAX_SIZE size); lia).
  assert (1 <= Z.min size IPPOOL_MAX_SIZE <= 16777216) by (unfold IPPOOL_MAX_SIZE; lia).
  set (sz := Z.min size IPPOOL_MAX_SIZE) in *.
  destruct alloc.1; [|done]. destruct alloc.2; [|done]. cbn [negb andb].
  rewrite rdn_Ok by lia. bstep.
  assert (mlen (slice base 0 len) = len) as Hl by (apply mlen_slice; lia).
  rewrite wrn_Ok by (rewrite ?Hl, ?mlen_zeros by lia; lia). bstep.
  rewrite u32_small by lia. rewrite mark_tail_eq by lia. bstep.
  unfold fresh_pool. do 3 f_equal. rewrite splice_0. f_equal.
  unfold zeros. rewrite drop_replicate. f_equal. unfold mlen in Hl. lia.
Qed.

Lemma fresh_pool_wf len base size :
  len = 4 ∨ len = 16 → len <= mlen base → bytes_ok (take (Z.to_nat len) base) →
  1 <= size <= IPPOOL_MAX_SIZE → aval len base + size <= 256 ^ len →
  pool_wf (fresh_pool len base size) ∧ slots (fresh_pool len base size) = ∅ ∧
  base_val (fresh_pool len base size) = aval len base.
Proof.
  intros Hlen Hb Hok Hs Hend.
  assert (length (take (Z.to_nat len) base) = Z.to_nat len) as Hl
    by (rewrite length_take; unfold mlen in *; lia).
  assert (aval len (take (Z.to_nat len) base ++ zeros (16 - len)) = aval len base) as Hv.
  { unfold aval. by rewrite take_app_length'. }
  destruct (fresh_wf len (take (Z.to_nat len) base ++ zeros (16 - len)) size); try done.
  - rewrite mlen_app, mlen_zeros by lia. unfold mlen. lia.
  - apply bytes_ok_app. auto with cmem.
  - by rewrite Hv.
Qed.

(** The prefix octets with the host part masked off. *)
Definition octet_mask (keep : Z) : Z := if 8 <=? keep then 255 else u8 (Z.shiftl 255 (8 - keep)).
Fixpoint masked (pl : Z) (bs : list Z) : list Z :=
  match bs with
  | [] => []
  | b :: bs => Z.land b (octet_mask pl) :: masked (Z.max 0 (pl - 8)) bs
  end.

Lemma mask_loop_eq n : ∀ i pl b d r,
  0 <= i → mlen d = i → (n <= length r)%nat → i + Z.of_nat n <= mlen b →
  mask_loop n i pl b (d ++ r) =
    Ok (d ++ masked (Z.max 0 (pl - i * 8)) (slice b i (Z.of_nat n)) ++ drop n r).
Proof.
  induction n as [|n IH]; intros i pl b d r Hi Hd Hr Hb; [done|].
  destruct r as [|x r]; [simpl in Hr; lia|]. cbn [mask_loop].
  rewrite rd_Ok by lia. bstep. rewrite wr_app by done. bstep.
  replace (if i * 8 <? pl then pl - i * 8 else 0) with (Z.max 0 (pl - i * 8))
    by (destruct (Z.ltb_spec (i * 8) pl); lia).
  rewrite (cons_middle _ d r), app_assoc, IH by (rewrite ?mlen_app, ?mlen_cons, ?mlen_nil; simpl in *; lia).
  rewrite (slice_cons b i) by lia. cbn [masked drop]. rewrite <-app_assoc. simpl.
  replace (Z.of_nat (S n) - 1) with (Z.of_nat n) by lia. do 5 f_equal. lia.
Qed.

Lemma octet_mask_floor pl b : 0 <= pl < 8 → 0 <= b < 256 →
  Z.land b (octet_mask pl) = b / 2 ^ (8 - pl) * 2 ^ (8 - pl).
Proof.
  intros Hp Hb. assert (pl ∈ seqZ 0 8) as Hin by (apply elem_of_seqZ; lia).
  assert (Forall (λ pl, ∀ b, 0 <= b < 256 →
    Z.land b (octet_mask pl) = b / 2 ^ (8 - pl) * 2 ^ (8 - pl)) (seqZ 0 8)) as Hall.
  { vm_compute seqZ. rewrite !Forall_cons, Forall_nil. clear.
    split_and!; try done; intros b Hb; byte_decide b. }
  by apply (proj1 (Forall_forall _ _) Hall pl Hin).
Qed.

Lemma masked_zero bs : bytes_ok bs → be_val (masked 0 bs) = 0 ∧ bytes_ok (masked 0 bs).
Proof.
  induction 1 as [|b bs Hb Hbs [IH1 IH2]]; cbn [masked be_val]; [auto with cmem|].
  change (Z.max 0 (0 - 8)) with 0. rewrite octet_mask_floor, Z.div_small by (simpl; lia).
  rewrite IH1. split; [lia|]. by apply bytes_ok_cons.
Qed.

Lemma length_masked bs : ∀ pl, length (masked pl bs) = length bs.
Proof. induction bs; intros; simpl; congruence. Qed.

Lemma floor_mul_add a v k m : 0 < k → 0 < m → (a * (k * m) + v) / k * k = a * (k * m) + v / k * k.
Proof.
  intros. replace (a * (k * m) + v) with (a * m * k + v) by lia.
  rewrite Z.div_add_l by lia. lia.
Qed.

(** Masking rounds the prefix down to a multiple of [2^hostbits]. *)
Lemma masked_floor bs : ∀ pl, bytes_ok bs → 0 <= pl <= 8 * mlen bs →
  bytes_ok (masked pl bs) ∧
  be_val (masked pl bs) = be_val bs / 2 ^ (8 * mlen bs - pl) * 2 ^ (8 * mlen bs - pl).
Proof.
  induction bs as [|b bs IH]; intros pl Hok Hpl.
  { rewrite mlen_nil in *. split; [done|]. by replace pl with 0 by lia. }
  apply bytes_ok_cons in Hok as [Hb Hok]. cbn [masked be_val].
  rewrite mlen_cons in *. rewrite length_masked.
  pose proof (mlen_nonneg bs). fold (mlen bs).
  assert (256 ^ mlen bs = 2 ^ (8 * mlen bs)) as Hpow by (by rewrite (Z.pow_mul_r 2 8) by lia).
  pose proof (be_val_range bs Hok) as Hr. fold (mlen bs) in Hr.
  destruct (Z.leb_spec 8 pl) as [Hge|Hlt].
  - destruct (IH (pl - 8) Hok) as [IHok IHv]; [lia|]. rewrite Z.max_r, IHv by lia.
    replace (Z.land b (octet_mask pl)) with b.
    2: { unfold octet_mask. destruct (Z.leb_spec 8 pl); [|lia]. symmetry. byte_decide b. }
    split; [by apply bytes_ok_cons|].
    replace (8 * (1 + mlen bs) - pl) with (8 * mlen bs - (pl - 8)) by lia.
    set (h := 8 * mlen bs - (pl - 8)). rewrite Hpow.
    replace (8 * mlen bs) with (h + (pl - 8)) by (unfold h; lia). rewrite Z.pow_add_r by lia.
    by rewrite floor_mul_add by lia.
  - rewrite Z.max_l by lia. destruct (masked_zero bs Hok) as [-> Hmok].
    rewrite octet_mask_floor by lia.
    replace (8 * (1 + mlen bs) - pl) with ((8 - pl) + 8 * mlen bs) by lia.
    rewrite Hpow in *. rewrite !Z.pow_add_r by lia. set (P := 2 ^ (8 * mlen bs)) in *.
    assert (0 < 2 ^ (8 - pl)) by lia.
    assert ((b * P + be_val bs) / (2 ^ (8 - pl) * P) = b / 2 ^ (8 - pl)) as ->.
    { rewrite (Z.mul_comm (2 ^ (8 - pl)) P), <-Z.div_div by lia.
      rewrite Z.div_add_l, (Z.div_small (be_val bs)), Z.add_0_r by lia. done. }
    split; [|lia]. apply bytes_ok_cons. split; [|done].
    pose proof (Z.mul_div_le b (2 ^ (8 - pl)) ltac:(lia)).
    pose proof (Z.div_pos b (2 ^ (8 - pl)) ltac:(lia) ltac:(lia)). nia.
Qed.

(** What the documentation says a prefix covers: first address and count. *)
Definition scope_first (len v h : Z) : Z := if (len =? 4) && (2 <=? h) then v + 1 else v.
Definition scope_count (len h : Z) : Z := if (len =? 4) && (2 <=? h) then 2 ^ h - 2 else 2 ^ h.

Definition ready (alloc : bool * bool) : bool := alloc.1 && alloc.2.

Section create.
Context (pre : ippool_addr) (pl : Z).
Context (Hpre : addr_wf pre) (Hlen : a_len pre = 4 ∨ a_len pre = 16) (Hpl : 0 <= pl <= 8 * a_len pre).

(** The [net] buffer after the masking loop, and the number it holds. *)
Definition net_of : mem :=
  masked pl (take (Z.to_nat (a_len pre)) (a_b pre)) ++ drop (Z.to_nat (a_len pre)) (uninit 16).
Definition hostbits_of : Z := 8 * a_len pre - pl.
Definition network_of : Z :=
  aval (a_len pre) (a_b pre) / 2 ^ hostbits_of * 2 ^ hostbits_of.

Lemma net_facts :
  a_len pre <= mlen net_of ∧ bytes_ok (take (Z.to_nat (a_len pre)) net_of) ∧
  aval (a_len pre) net_of = network_of.
Proof using Hpre Hlen Hpl.
  destruct Hpre as [Hm Hok].
  assert (mlen (take (Z.to_nat (a_len pre)) (a_b pre)) = a_len pre) as Hbl by (apply mlen_take; lia).
  destruct (masked_floor (take (Z.to_nat (a_len pre)) (a_b pre)) pl) as [Hmok Hmv];
    [by apply Forall_take|by rewrite Hbl|]. rewrite Hbl in Hmv.
  pose proof (length_masked (take (Z.to_nat (a_len pre)) (a_b pre)) pl) as Hml.
  assert (take (Z.to_nat (a_len pre)) net_of = masked pl (take (Z.to_nat (a_len pre)) (a_b pre))) as Hnt.
  { unfold net_of. apply take_app_length'. unfold mlen in Hbl. lia. }
  unfold aval. rewrite Hnt. split_and!; [|done|done].
  unfold net_of. rewrite mlen_app, mlen_drop by (rewrite mlen_uninit; lia).
  rewrite mlen_uninit by lia. unfold mlen in *. lia.
Qed.

Lemma network_bounds : 0 <= network_of ∧ 0 < 2 ^ hostbits_of ∧
  network_of + 2 ^ hostbits_of <= 256 ^ a_len pre.
Proof using Hpre Hlen Hpl.
  destruct Hpre as [Hm Hok]. unfold network_of, hostbits_of.
  set (A := aval (a_len pre) (a_b pre)). set (h := 8 * a_len pre - pl).
  assert (256 ^ a_len pre = 2 ^ (pl + h)) as Hpow.
  { replace (pl + h) with (8 * a_len pre) by lia. by rewrite (Z.pow_mul_r 2 8) by lia. }
  assert (0 <= A < 256 ^ a_len pre) as Hav.
  { pose proof (be_val_range (take (Z.to_nat (a_len pre)) (a_b pre))) as Hr.
    fold (mlen (take (Z.to_nat (a_len pre)) (a_b pre))) in Hr. rewrite mlen_take in Hr by lia.
    apply Hr. by apply Forall_take. }
  assert (0 < 2 ^ h) by (apply Z.pow_pos_nonneg; lia).
  rewrite Hpow, Z.pow_add_r in * by lia.
  assert (A / 2 ^ h < 2 ^ pl) by (apply Z.div_lt_upper_bound; lia).
  assert (0 <= A / 2 ^ h) by (apply Z.div_pos; lia). nia.
Qed.

Lemma create_unfold alloc :
  ippool_create alloc (Some pre) pl =
    if 64 <=? hostbits_of then pool_new alloc net_of (a_len pre) IPPOOL_MAX_SIZE else
    if (a_len pre =? 4) && (2 <=? hostbits_of)
    then first ← addr_offset net_of (a_len pre) 1 (uninit 16);
         pool_new alloc first (a_len pre) (2 ^ hostbits_of - 2)
    else pool_new alloc net_of (a_len pre) (2 ^ hostbits_of).
Proof using Hpre Hlen Hpl.
  destruct Hpre as [Hm Hok]. unfold ippool_create, IPPOOL_V4, IPPOOL_V6.
  replace (negb (a_len pre =? 4) && negb (a_len pre =? 16)) with false
    by (destruct Hlen as [-> | ->]; done).
  rewrite (Z.mul_comm (a_len pre) 8). destruct (Z.ltb_spec (8 * a_len pre) pl); [lia|].
  fold hostbits_of. 
  pose proof (mask_loop_eq (Z.to_nat (a_len pre)) 0 pl (a_b pre) [] (uninit 16)) as Hml.
  rewrite (app_nil_l (uninit 16)), app_nil_l in Hml.
  rewrite Hml by (try done; unfold uninit; rewrite ?length_replicate; unfold mlen in *; lia).
  bstep. rewrite Z.mul_0_l, Z.sub_0_r, Z.max_r, Z2Nat.id by lia.
  change (slice (a_b pre) 0 (a_len pre)) with (take (Z.to_nat (a_len pre)) (a_b pre)).
  fold net_of.
  destruct (Z.leb_spec 64 hostbits_of) as [|Hlt]; [done|]. rewrite Z.shiftl_1_l.
  rewrite u64_small; [done|]. change 18446744073709551616 with (2 ^ 64).
  split; [|apply Z.pow_lt_mono_r; unfold hostbits_of in *; lia].
  apply Z.lt_le_incl, Z.pow_pos_nonneg; unfold hostbits_of in *; lia.
Qed.

Lemma ippool_create_eq alloc :
  ∃ base, ippool_create alloc (Some pre) pl =
      Ok (if ready alloc
          then Some (fresh_pool (a_len pre) base
                       (Z.min (scope_count (a_len pre) hostbits_of) IPPOOL_MAX_SIZE))
          else None) ∧
    a_len pre <= mlen base ∧ bytes_ok (take (Z.to_nat (a_len pre)) base) ∧
    aval (a_len pre) base = scope_first (a_len pre) network_of hostbits_of ∧
    1 <= scope_count (a_len pre) hostbits_of ∧
    scope_first (a_len pre) network_of hostbits_of + scope_count (a_len pre) hostbits_of
      <= 256 ^ a_len pre.
Proof using Hpre Hlen Hpl.
  destruct net_facts as (Hnl & Hnok & Hnv). destruct network_bounds as (Hn0 & Hp & Hn).
  rewrite create_unfold. unfold scope_first, scope_count.
  destruct (Z.leb_spec 64 hostbits_of) as [Hge|Hlt].
  { assert (2 ^ 64 <= 2 ^ hostbits_of) by (apply Z.pow_le_mono_r; lia).
    exists net_of. replace (a_len pre =? 4) with false
      by (symmetry; apply Z.eqb_neq; unfold hostbits_of in *; lia). cbn [andb].
    rewrite pool_new_eq by (done || unfold IPPOOL_MAX_SIZE; lia).
    rewrite !Z.min_r by (unfold IPPOOL_MAX_SIZE; lia). split_and!; done || lia. }
  destruct ((a_len pre =? 4) && (2 <=? hostbits_of)) eqn:E.
  2: { exists net_of. rewrite pool_new_eq by (done || lia). split_and!; done || lia. }
  apply andb_true_iff in E as [E4%Z.eqb_eq E2%Z.leb_le].
  assert (2 ^ 2 <= 2 ^ hostbits_of) by (apply Z.pow_le_mono_r; lia).
  rewrite addr_offset_eq by (try done; rewrite ?mlen_uninit by lia; lia). bstep. rewrite Hnv.
  eexists. rewrite pool_new_eq; [|done| |lia]; [split_and!; [done| | | |lia|lia]|].
  all: rewrite ?E4.
  - rewrite mlen_app, mlen_be_bytes. pose proof (mlen_nonneg (drop (Z.to_nat 4) (uninit 16))). lia.
  - rewrite take_app_length' by (by rewrite length_be_bytes). apply be_bytes_ok.
  - unfold aval. rewrite take_app_length' by (by rewrite length_be_bytes).
    rewrite be_val_bytes, Z.mod_small by (rewrite Z2Nat.id, <-E4 by lia; lia). done.
  - rewrite mlen_app, mlen_be_bytes. pose proof (mlen_nonneg (drop (Z.to_nat 4) (uninit 16))). lia.
Qed.
End create.

(** ** The pool against its abstract specification *)

(** The client's view: the set of leased slots and the rotating cursor. *)
Record lease := Lease { l_set : gset Z; l_cursor : Z }.
Definition abs (p : ippool) : lease := {| l_set := slots p; l_cursor := p_cursor p |}.

Inductive pool_op :=
| PAlloc (out : ippool_addr)
| PReserve (addr : ippool_addr)
| PFree (addr : ippool_addr)
| PIsAllocated (addr : ippool_addr)
| PReset.

Definition op_wf (op : pool_op) : Prop :=
  match op with PAlloc a | PReserve a | PFree a | PIsAllocated a => addr_wf a | PReset => True end.

(** A call on the pool: its state, the returned code and the output object. *)
Definition pool_step (self : option ippool) (op : pool_op) :
    res (option ippool * (Z * option ippool_addr)) :=
  match op with
  | PAlloc out => '(self, rc, out) ← ippool_alloc self (Some out); Ok (self, (rc, out))
  | PReserve a => '(self, rc) ← ippool_reserve self (Some a); Ok (self, (rc, None))
  | PFree a => '(self, rc) ← ippool_free self (Some a); Ok (self, (rc, None))
  | PIsAllocated a => b ← ippool_is_allocated self (Some a); Ok (self, (Z.b2z b, None))
  | PReset => self ← ippool_reset self; Ok (self, (IPPOOL_OK, None))
  end.

Fixpoint pool_run (self : option ippool) (ops : list pool_op) :
    res (option ippool * list (Z * option ippool_addr)) :=
  match ops with
  | [] => Ok (self, [])
  | op :: ops =>
      '(self, o) ← pool_step self op;
      '(self, os) ← pool_run self ops; Ok (self, o :: os)
  end.

(** The same calls on the client's view; [geo] gives the address range only. *)
Definition lease_step (geo : ippool) (s : lease) (op : pool_op) :
    lease * (Z * option ippool_addr) :=
  match op with
  | PAlloc out =>
      match find (λ i, bool_decide (i ∉ l_set s)) (rotation (p_size geo) (l_cursor s)) with
      | Some i =>
          ({| l_set := {[i]} ∪ l_set s; l_cursor := if i + 1 <? p_size geo then i + 1 else 0 |},
           (IPPOOL_OK, Some (addr_of geo i)))
      | None => (s, (IPPOOL_E_FULL, Some out))
      end
  | PReserve a =>
      let i := slot_of geo a in
      if i <? 0 then (s, (IPPOOL_E_RANGE, None)) else
      if decide (i ∈ l_set s) then (s, (IPPOOL_E_INUSE, None)) else
      ({| l_set := {[i]} ∪ l_set s; l_cursor := l_cursor s |}, (IPPOOL_OK, None))
  | PFree a =>
      let i := slot_of geo a in
      if i <? 0 then (s, (IPPOOL_E_RANGE, None)) else
      if decide (i ∈ l_set s)
      then ({| l_set := l_set s ∖ {[i]}; l_cursor := l_cursor s |}, (IPPOOL_OK, None))
      else (s, (IPPOOL_E_FREE, None))
  | PIsAllocated a => (s, (Z.b2z (bool_decide (slot_of geo a ∈ l_set s)), None))
  | PReset => ({| l_set := ∅; l_cursor := 0 |}, (IPPOOL_OK, None))
  end.

Fixpoint lease_run (geo : ippool) (s : lease) (ops : list pool_op) :
    lease * list (Z * option ippool_addr) :=
  match ops with
  | [] => (s, [])
  | op :: ops =>
      let (s, o) := lease_step geo s op in
      let (s, os) := lease_run geo s ops in (s, o :: os)
  end.

Definition same_range (p q : ippool) : Prop :=
  p_len p = p_len q ∧ p_base p = p_base q ∧ p_size p = p_size q.

Lemma find_ext {A} (f g : A → bool) l : (∀ x, x ∈ l → f x = g x) → find f l = find g l.
Proof.
  induction l as [|x l IH]; intros H; simpl; [done|].
  rewrite H by set_solver. destruct (g x); [done|]. apply IH. set_solver.
Qed.

Lemma elem_of_rotation size c i : 0 <= c < size → i ∈ rotation size c ↔ 0 <= i < size.
Proof. intros. unfold rotation. rewrite elem_of_app, !elem_of_seqZ. lia. Qed.

Lemma held_slots p i : 0 <= i < p_size p → held (p_bits p) i = bool_decide (i ∈ slots p).
Proof.
  intros. destruct (held (p_bits p) i) eqn:E; symmetry.
  - apply bool_decide_eq_true. by apply elem_of_slots.
  - apply bool_decide_eq_false. rewrite elem_of_slots. intros [_ ?]. congruence.
Qed.

Lemma next_free_slots p : pool_wf p →
  next_free p = find (λ i, bool_decide (i ∉ slots p)) (rotation (p_size p) (p_cursor p)).
Proof.
  intros Hwf. apply find_ext. intros i. rewrite elem_of_rotation by apply (wf_cursor p Hwf).
  intros Hi. unfold free_in. rewrite held_slots by done. by rewrite bool_decide_not.
Qed.

(** One call: the view of the new state and the output are the specified ones. *)
Lemma pool_step_eq p op : pool_wf p → op_wf op →
  ∃ p', pool_step (Some p) op = Ok (Some p', (lease_step p (abs p) op).2) ∧
    pool_wf p' ∧ same_range p' p ∧ abs p' = (lease_step p (abs p) op).1.
Proof.
  intros Hwf Hop. destruct op as [out|a|a|a|]; cbn [pool_step lease_step abs l_set l_cursor op_wf] in *.
  - rewrite ippool_alloc_eq, <-next_free_slots by done. bstep.
    destruct (next_free p) as [i|] eqn:En; bstep; [|by exists p].
    destruct (next_free_Some p i Hwf En) as [Hi Hh]. destruct (claim_wf p i) as [Hcw Hcs]; try done.
    exists (claim p i). split_and!; try done. unfold abs. by rewrite Hcs.
  - rewrite ippool_reserve_eq by done. bstep. cbn zeta.
    destruct (slot_of_range p a) as [->|Hi]; [by exists p|].
    destruct (Z.ltb_spec (slot_of p a) 0); [lia|]. rewrite held_slots by done.
    destruct (decide (slot_of p a ∈ slots p)) as [Hin|Hin].
    { rewrite bool_decide_true by done. by exists p. }
    rewrite bool_decide_false by done. destruct (mark_facts p Hwf _ Hi) as (? & ? & ?).
    eexists. split; [done|]. split_and!; try done.
    + eapply wf_update with (b := true); try done; [apply Hwf|].
      rewrite held_slots by done. by rewrite bool_decide_false.
    + unfold abs. simpl. f_equal. by apply (slots_update p _ _ _ (slot_of p a) true).
  - rewrite ippool_free_eq by done. bstep. cbn zeta.
    destruct (slot_of_range p a) as [->|Hi]; [by exists p|].
    destruct (Z.ltb_spec (slot_of p a) 0); [lia|]. rewrite held_slots by done.
    destruct (decide (slot_of p a ∈ slots p)) as [Hin|Hin].
    2: { rewrite bool_decide_false by done. by exists p. }
    rewrite bool_decide_true by done. destruct (clear_facts p Hwf _ Hi) as (? & ? & ?).
    eexists. split; [done|]. split_and!; try done.
    + eapply wf_update with (b := false); try done; [apply Hwf|].
      rewrite held_slots by done. by rewrite bool_decide_true.
    + unfold abs. simpl. f_equal. by apply (slots_update p _ _ _ (slot_of p a) false).
  - rewrite ippool_is_allocated_eq by done. bstep. by exists p.
  - rewrite ippool_reset_eq by done. bstep. destruct (reset_wf p Hwf) as [Hrw Hrs].
    eexists. split; [done|]. split_and!; try done. unfold abs. by rewrite Hrs.
Qed.

(** A view transition depends on the pool's range only. *)
Lemma lease_run_range p q ops : same_range p q → ∀ s, lease_run p s ops = lease_run q s ops.
Proof.
  intros (Hl & Hb & Hs). induction ops as [|op ops IH]; intros s; [done|]. cbn [lease_run].
  assert (lease_step p s op = lease_step q s op) as ->.
  { unfold lease_step, addr_of, slot_of, base_val. by rewrite Hl, Hb, Hs. }
  destruct (lease_step q s op) as [s' o]. by rewrite IH.
Qed.

(** C2: a pool in a well-formed state behaves, for any sequence of calls, as the
    client's view does: allocation hands out the first free slot in rotation
    order and fails with IPPOOL_E_FULL exactly when there is none, reservation
    and release change one slot or report range, in-use and double-free, a
    reset forgets every lease; the bitmap, its padding, the cursor and the used
    counter stay consistent and no access leaves the bitmap. *)
Theorem ippool_refines_lease ops : ∀ p, pool_wf p → Forall op_wf ops →
  ∃ p', pool_run (Some p) ops = Ok (Some p', (lease_run p (abs p) ops).2) ∧
    pool_wf p' ∧ same_range p' p ∧ abs p' = (lease_run p (abs p) ops).1.
Proof.
  induction ops as [|op ops IH]; intros p Hwf Hops; [by exists p|].
  apply Forall_cons in Hops as [Hop Hops]. cbn [pool_run lease_run].
  destruct (pool_step_eq p op Hwf Hop) as (p1 & -> & Hwf1 & Hr1 & Ha1). bstep.
  destruct (IH p1 Hwf1 Hops) as (p2 & -> & Hwf2 & Hr2 & Ha2). bstep.
  rewrite (lease_run_range p1 p ops Hr1), Ha1 in *.
  destruct (lease_step p (abs p) op) as [s o]. simpl in *.
  destruct (lease_run p s ops) as [s2 os]. simpl in *.
  exists p2. split_and!; try done. unfold same_range in *. destruct_and!. split_and!; congruence.
Qed.

(** 10.45.0.1 .. 10.45.0.14, the pool of 10.45.0.0/28. *)
Definition example_addr (d : Z) : ippool_addr := {| a_len := 4; a_b := [10; 45; 0; d] ++ zeros 12 |}.
Definition example_pool : ippool := fresh_pool 4 ([10; 45; 0; 1] ++ zeros 12) 14.

Lemma example_addr_wf d : 0 <= d < 256 → addr_wf (example_addr d).
Proof.
  intros. split; [done|]. simpl. rewrite !bytes_ok_cons. split_and!; try lia. apply bytes_ok_zeros.
Qed.
Lemma example_pool_wf : pool_wf example_pool.
Proof.
  apply fresh_pool_wf; [by left|by vm_compute| |done|by vm_compute].
  apply Forall_take. apply (proj2 (example_addr_wf 1 ltac:(lia))).
Qed.

Lemma ippool_refines_lease_witness :
  ∃ p', pool_run (Some example_pool)
      [PAlloc (example_addr 0); PReserve (example_addr 2); PAlloc (example_addr 0);
       PFree (example_addr 1); PFree (example_addr 1); PAlloc (example_addr 0);
       PReserve (example_addr 99)] =
    Ok (Some p', [(0, Some (example_addr 1)); (0, None); (0, Some (example_addr 3)); (0, None);
                  (IPPOOL_E_FREE, None); (0, Some (example_addr 4)); (IPPOOL_E_RANGE, None)]).
Proof.
  destruct (ippool_refines_lease
      [PAlloc (example_addr 0); PReserve (example_addr 2); PAlloc (example_addr 0);
       PFree (example_addr 1); PFree (example_addr 1); PAlloc (example_addr 0);
       PReserve (example_addr 99)] example_pool example_pool_wf) as (p' & H & _).
  { repeat (apply Forall_cons; split; [apply example_addr_wf; lia|]). apply Forall_nil_2. }
  exists p'. rewrite H. vm_compute. reflexivity.
Defined.

(** Creating a pool over a prefix yields a well-formed, empty pool whose
    slot 0 is the masked network address and whose size is the number of
    addresses the prefix covers, except that an IPv4 prefix shorter than /31
    starts after the network address and stops before the broadcast address,
    and that a pool is clamped to IPPOOL_MAX_SIZE; a missing prefix, an unknown
    family, a prefix longer than the address and an allocation failure give
    NULL. *)
Theorem ippool_create_scope alloc pre pl :
  addr_wf pre → 0 <= pl < 256 →
  if bool_decide (a_len pre = 4 ∨ a_len pre = 16) && (pl <=? 8 * a_len pre) && ready alloc
  then ∃ p, ippool_create alloc (Some pre) pl = Ok (Some p) ∧ pool_wf p ∧ slots p = ∅ ∧
         p_len p = a_len pre ∧
         let h := 8 * a_len pre - pl in
         let network := aval (a_len pre) (a_b pre) / 2 ^ h * 2 ^ h in
         base_val p = scope_first (a_len pre) network h ∧
         p_size p = Z.min (scope_count (a_len pre) h) IPPOOL_MAX_SIZE
  else ippool_create alloc (Some pre) pl = Ok None.
Proof.
  intros Hpre Hpl. case_bool_decide as Hlen; cbn [andb].
  2: { unfold ippool_create, IPPOOL_V4, IPPOOL_V6.
       destruct (Z.eqb_spec (a_len pre) 4), (Z.eqb_spec (a_len pre) 16); tauto. }
  destruct (Z.leb_spec pl (8 * a_len pre)) as [Hle|Hgt]; cbn [andb].
  2: { unfold ippool_create. rewrite (Z.mul_comm (a_len pre) 8).
       destruct (_ && _); [done|]. by destruct (Z.ltb_spec (8 * a_len pre) pl); [|lia]. }
  destruct (ippool_create_eq pre pl Hpre Hlen ltac:(lia) alloc)
    as (base & -> & Hbl & Hbok & Hbv & Hc & Hend).
  destruct (ready alloc); [|done]. eexists. split; [done|].
  destruct (fresh_pool_wf (a_len pre) base
    (Z.min (scope_count (a_len pre) (hostbits_of pre pl)) IPPOOL_MAX_SIZE)) as (? & ? & ?);
    try done; [unfold IPPOOL_MAX_SIZE; lia|lia|]. split_and!; try done. etransitivity; [eassumption|exact Hbv].
Qed.

Lemma ippool_create_scope_witness :
  ∃ p, ippool_create (true, true) (Some (example_addr 9)) 28 = Ok (Some p) ∧ pool_wf p ∧
    p_size p = 14 ∧ base_val p = 170721281.
Proof.
  pose proof (ippool_create_scope (true, true) (example_addr 9) 28
    (example_addr_wf 9 ltac:(lia)) ltac:(lia)) as H.
  destruct H as (p & H1 & H2 & _ & _ & H3 & H4). exists p. split_and!; [done|done|by rewrite H4|by rewrite H3].
Defined.

(** Creating a pool over an explicit range yields a well-formed, empty pool
    of exactly the addresses first..last, clamped to IPPOOL_MAX_SIZE, and NULL
    when the families differ, last precedes first, the range is wider than 2^64
    addresses or memory is short. *)
Theorem ippool_create_range_spec alloc a b :
  addr_wf a → addr_wf b →
  let d := aval (a_len a) (a_b b) - aval (a_len a) (a_b a) in
  if bool_decide (a_len a = a_len b ∧ (a_len a = 4 ∨ a_len a = 16) ∧ 0 <= d < 2 ^ 64) && ready alloc
  then ∃ p, ippool_create_range alloc (Some a) (Some b) = Ok (Some p) ∧ pool_wf p ∧ slots p = ∅ ∧
         p_len p = a_len a ∧ base_val p = aval (a_len a) (a_b a) ∧
         p_size p = Z.min (d + 1) IPPOOL_MAX_SIZE
  else ippool_create_range alloc (Some a) (Some b) = Ok None.
Proof.
  intros [Ha Hoka] [Hb Hokb] d. unfold ippool_create_range, IPPOOL_V4, IPPOOL_V6.
  destruct (Z.eqb_spec (a_len a) (a_len b)) as [El|El]; cbn [negb orb].
  2: by rewrite bool_decide_false by tauto.
  destruct (decide (a_len a = 4 ∨ a_len a = 16)) as [Hlen|Hlen].
  2: { rewrite bool_decide_false by tauto.
       destruct (Z.eqb_spec (a_len a) 4), (Z.eqb_spec (a_len a) 16); first [done | exfalso; tauto]. }
  replace (negb (a_len a =? 4) && negb (a_len a =? 16)) with false by (by destruct Hlen as [-> | ->]).
  rewrite addr_delta_eq by done. bstep. fold d.
  replace ((aval (a_len a) (a_b a) <=? aval (a_len a) (a_b b)) && (d <? 18446744073709551616))
    with (bool_decide (0 <= d < 2 ^ 64)).
  2: { change (2 ^ 64) with 18446744073709551616. unfold d.
       case_bool_decide; symmetry; [apply andb_true_iff|apply andb_false_iff];
         rewrite ?Z.leb_le, ?Z.ltb_lt, ?Z.leb_gt, ?Z.ltb_ge; lia. }
  destruct (decide (0 <= d < 2 ^ 64)) as [Hd|Hd].
  2: { by rewrite !bool_decide_false by tauto. }
  rewrite !bool_decide_true by done. cbn [andb]. change (2 ^ 64) with 18446744073709551616 in Hd.
  assert ((if d =? UINT64_MAX then pool_new alloc (a_b a) (a_len a) IPPOOL_MAX_SIZE
           else pool_new alloc (a_b a) (a_len a) (u64 (d + 1))) =
    Ok (if ready alloc then Some (fresh_pool (a_len a) (a_b a) (Z.min (d + 1) IPPOOL_MAX_SIZE)) else None)) as ->.
  { unfold UINT64_MAX. destruct (Z.eqb_spec d 18446744073709551615) as [E|E].
    - rewrite pool_new_eq by (done || unfold IPPOOL_MAX_SIZE; lia).
      by replace (Z.min (d + 1) IPPOOL_MAX_SIZE) with (Z.min IPPOOL_MAX_SIZE IPPOOL_MAX_SIZE)
        by (unfold IPPOOL_MAX_SIZE; lia).
    - rewrite u64_small by lia. by rewrite pool_new_eq by (done || lia). }
  destruct (ready alloc); [|done]. eexists. split; [done|].
  assert (aval (a_len a) (a_b b) < 256 ^ a_len a) as Hbv.
  { pose proof (be_val_range (take (Z.to_nat (a_len a)) (a_b b))) as Hr.
    fold (mlen (take (Z.to_nat (a_len a)) (a_b b))) in Hr. rewrite mlen_take in Hr by lia.
    apply Hr. by apply Forall_take. }
  destruct (fresh_pool_wf (a_len a) (a_b a) (Z.min (d + 1) IPPOOL_MAX_SIZE)) as (? & ? & ?);
    try done; [lia|by apply Forall_take|unfold IPPOOL_MAX_SIZE; lia|unfold d; lia].
Qed.

Lemma ippool_create_range_spec_witness :
  (∃ p, ippool_create_range (true, true) (Some (example_addr 100)) (Some (example_addr 200)) =
     Ok (Some p) ∧ p_size p = 101) ∧
  ippool_create_range (true, true) (Some (example_addr 200)) (Some (example_addr 100)) = Ok None.
Proof.
  split.
  - pose proof (ippool_create_range_spec (true, true) (example_addr 100) (example_addr 200)
      (example_addr_wf 100 ltac:(lia)) (example_addr_wf 200 ltac:(lia))) as H.
    destruct H as (p & H1 & _ & _ & _ & _ & H2). exists p. split; [done|]. by rewrite H2.
  - exact (ippool_create_range_spec (true, true) (example_addr 200) (example_addr 100)
      (example_addr_wf 200 ltac:(lia)) (example_addr_wf 100 ltac:(lia))).
Defined.

(** ** Numbering and reuse *)

Lemma base_val_nonneg p : pool_wf p → 0 <= base_val p.
Proof.
  intros Hwf. pose proof (be_val_range (take (Z.to_nat (p_len p)) (p_base p))) as H.
  apply H. apply Forall_take, Hwf.
Qed.

Lemma addr_of_facts p i : pool_wf p → 0 <= i < p_size p →
  addr_wf (addr_of p i) ∧ aval (p_len p) (a_b (addr_of p i)) = base_val p + i.
Proof.
  intros Hwf Hi. pose proof (base_val_nonneg p Hwf). pose proof (wf_end p Hwf).
  pose proof (wf_len p Hwf). unfold addr_of. simpl. split.
  - split; simpl; [rewrite mlen_app, mlen_be_bytes, mlen_zeros by lia; lia|].
    apply bytes_ok_app. split; [apply be_bytes_ok|apply bytes_ok_zeros].
  - unfold aval. rewrite take_app_length' by (by rewrite length_be_bytes).
    rewrite be_val_bytes, Z2Nat.id, Z.mod_small by lia. done.
Qed.

Lemma slot_of_addr_of p i : pool_wf p → 0 <= i < p_size p → slot_of p (addr_of p i) = i.
Proof.
  intros Hwf Hi. destruct (addr_of_facts p i Hwf Hi) as [_ Hv]. unfold slot_of. rewrite Hv.
  replace (base_val p + i - base_val p) with i by lia. simpl. rewrite Z.eqb_refl.
  destruct (Z.leb_spec 0 i), (Z.ltb_spec i (p_size p)); done || lia.
Qed.

(** The numbering of a pool is a bijection between slots and addresses:
    ippool_addr_at gives every slot below the size an address that
    ippool_index_of maps back to the slot and IPPOOL_E_RANGE to any other; and
    ippool_index_of gives any address -1 or the slot whose address has the same
    significant octets. *)
Theorem ippool_numbering p i a out :
  pool_wf p → 0 <= i < 4294967296 → addr_wf a →
  (if i <? p_size p
   then ∃ x, ippool_addr_at (Some p) i (Some out) = Ok (IPPOOL_OK, Some x) ∧
          ippool_index_of (Some p) (Some x) = Ok i
   else ippool_addr_at (Some p) i (Some out) = Ok (IPPOOL_E_RANGE, Some out)) ∧
  (ippool_index_of (Some p) (Some a) = Ok (-1) ∨
   ∃ j x, ippool_index_of (Some p) (Some a) = Ok j ∧ 0 <= j < p_size p ∧
     ippool_addr_at (Some p) j (Some out) = Ok (IPPOOL_OK, Some x) ∧
     ippool_addr_eq x a = Ok true).
Proof.
  intros Hwf Hi Ha. split.
  - unfold ippool_addr_at. destruct (Z.ltb_spec i (p_size p)) as [Hlt|Hge].
    + destruct (Z.leb_spec (p_size p) i); [lia|]. rewrite slot_addr_eq by (done || lia). bstep.
      eexists. split; [done|]. destruct (addr_of_facts p i Hwf ltac:(lia)) as [Hx _].
      rewrite ippool_index_of_eq, slot_of_addr_of by (done || lia). done.
    + by destruct (Z.leb_spec (p_size p) i); [|lia].
  - rewrite ippool_index_of_eq by done.
    destruct (slot_of_range p a) as [->|Hj]; [by left|right].
    exists (slot_of p a), (addr_of p (slot_of p a)). split_and!; try done; try lia.
    + unfold ippool_addr_at. destruct (Z.leb_spec (p_size p) (slot_of p a)); [lia|].
      by rewrite slot_addr_eq.
    + destruct (addr_of_facts p _ Hwf Hj) as [[Hxl Hxok] Hxv]. destruct Ha as [Hal Haok].
      unfold slot_of in *. destruct (Z.eqb_spec (a_len a) (p_len p)) as [E|]; simpl in Hj; [|lia].
      destruct (Z.leb_spec 0 (aval (p_len p) (a_b a) - base_val p)); simpl in Hj; [|lia].
      destruct (Z.ltb_spec (aval (p_len p) (a_b a) - base_val p) (p_size p)); [|lia]. simpl in *.
      pose proof (wf_len p Hwf). unfold ippool_addr_eq. simpl. rewrite E, Z.eqb_refl. cbn [negb].
      rewrite !rdn_Ok by lia. bstep. f_equal. apply bool_decide_eq_true.
      replace (base_val p + (aval (p_len p) (a_b a) - base_val p)) with (aval (p_len p) (a_b a)) by lia.
      unfold slice. rewrite !drop_0, take_app_length' by (by rewrite length_be_bytes).
      unfold aval. rewrite <-(be_bytes_val (take (Z.to_nat (p_len p)) (a_b a))) at 2
        by (by apply Forall_take). f_equal. rewrite length_take. unfold mlen in *. lia.
Qed.

Lemma ippool_numbering_witness :
  ippool_addr_at (Some example_pool) 13 (Some (example_addr 0)) = Ok (IPPOOL_OK, Some (example_addr 14)) ∧
  ippool_index_of (Some example_pool) (Some (example_addr 14)) = Ok 13 ∧
  ippool_index_of (Some example_pool) (Some (example_addr 15)) = Ok (-1).
Proof.
  destruct (ippool_numbering example_pool 13 (example_addr 15) (example_addr 0) example_pool_wf
    ltac:(lia) (example_addr_wf 15 ltac:(lia))) as [H [H'|(j & x & H1 & H2 & _)]].
  - destruct H as (x & H1 & H2). vm_compute in H1. injection H1 as <-. split_and!; done.
  - vm_compute in H1. injection H1 as <-. lia.
Defined.

(** From just past slot [i] the rotation meets [i] last. *)
Lemma rotation_last size i : 0 <= i < size →
  ∃ l, rotation size (if i + 1 <? size then i + 1 else 0) = l ++ [i] ∧
    ∀ j, j ∈ l ↔ 0 <= j < size ∧ j ≠ i.
Proof.
  intros Hi. unfold rotation. destruct (Z.ltb_spec (i + 1) size).
  - exists (seqZ (i + 1) (size - (i + 1)) ++ seqZ 0 i). split.
    + by rewrite (seqZ_split 0 i 1), app_assoc by lia.
    + intros j. rewrite elem_of_app, !elem_of_seqZ. lia.
  - exists (seqZ 0 i). replace (size - 0) with (i + 1) by lia. split.
    + by rewrite seqZ_split, app_nil_r by lia.
    + intros j. rewrite elem_of_seqZ. lia.
Qed.

Lemma next_free_last p i : pool_wf p → 0 <= i < p_size p →
  p_cursor p = (if i + 1 <? p_size p then i + 1 else 0) → next_free p = Some i →
  p_used p = p_size p - 1.
Proof.
  intros Hwf Hi Hc Hn. destruct (next_free_Some p i Hwf Hn) as [_ Hh].
  destruct (claim_wf p i Hwf Hi Hh) as [Hcw Hcs].
  enough (p_used (claim p i) = p_size (claim p i)) by (simpl in *; lia).
  apply next_free_None; [done|]. rewrite next_free_slots, Hcs by done. apply find_none_iff.
  intros j. rewrite elem_of_rotation by apply (wf_cursor _ Hcw). simpl. intros Hj.
  apply bool_decide_eq_false. intros Hnj. apply Hnj.
  destruct (decide (j = i)) as [->|Hne]; [set_solver|]. apply elem_of_union_r, elem_of_slots.
  split; [done|]. apply negb_false_iff. change (free_in (p_bits p) j = false).
  destruct (rotation_last (p_size p) i Hi) as (l & Hl & Hin).
  unfold next_free in Hn. rewrite Hc, Hl, find_app in Hn.
  destruct (find (free_in (p_bits p)) l) eqn:Ef.
  - injection Hn as ->. apply find_some in Ef as [Ef _]. apply list_elem_of_In, Hin in Ef. lia.
  - apply (proj1 (find_none_iff _ _) Ef). by apply Hin.
Qed.

(** The address just released is the last to be handed out again: when an
    allocated address is released and the next allocation returns it, every
    other address of the pool is in use. *)
Theorem ippool_quarantine p p1 p2 p3 out a :
  pool_wf p →
  ippool_alloc (Some p) (Some out) = Ok (Some p1, IPPOOL_OK, Some a) →
  ippool_free (Some p1) (Some a) = Ok (Some p2, IPPOOL_OK) →
  ippool_alloc (Some p2) (Some out) = Ok (Some p3, IPPOOL_OK, Some a) →
  p_used p2 = p_size p2 - 1.
Proof.
  intros Hwf H1 H2 H3. rewrite ippool_alloc_eq in H1 by done.
  destruct (next_free p) as [i|] eqn:En; [|done].
  destruct (next_free_Some p i Hwf En) as [Hi Hh].
  destruct (claim_wf p i Hwf Hi Hh) as [Hwf1 Hs1]. injection H1 as <- <-.
  destruct (addr_of_facts p i Hwf Hi) as [Ha _].
  assert (slot_of (claim p i) (addr_of p i) = i) as Hslot
    by exact (slot_of_addr_of (claim p i) i Hwf1 Hi).
  assert (i ∈ slots (claim p i)) as Hin by set_solver.
  rewrite ippool_free_eq in H2 by done. cbn zeta in H2. rewrite Hslot in H2.
  destruct (Z.ltb_spec i 0); [lia|]. rewrite held_slots, bool_decide_true in H2 by done.
  injection H2 as <-. destruct (clear_facts (claim p i) Hwf1 i Hi) as (Hc1 & Hc2 & Hc3).
  assert (held (p_bits (claim p i)) i = true) as Hhc
    by (rewrite held_slots by done; by apply bool_decide_eq_true).
  set (p2 := set_slots _ _ _ _) in *. assert (pool_wf p2) as Hwf2.
  { apply (wf_update _ Hwf1 _ _ _ i false); try done; [apply Hwf1|]. by rewrite Hhc. }
  rewrite ippool_alloc_eq in H3 by done.
  destruct (next_free p2) as [j|] eqn:En2; [|done]. injection H3 as _ Haddr.
  destruct (next_free_Some p2 j Hwf2 En2) as [Hj _].
  apply (next_free_last p2 i Hwf2 Hi); [done|]. rewrite En2. f_equal.
  rewrite <-(slot_of_addr_of p2 j Hwf2 Hj). unfold addr_of at 1. simpl.
  transitivity (slot_of p2 (addr_of p i)); [|exact Hslot].
  f_equal. unfold addr_of. f_equal. exact Haddr.
Qed.

Lemma ippool_quarantine_witness :
  ∃ p1 p2 p3, let p := fresh_pool 4 [10; 45; 0; 1] 1 in
    ippool_alloc (Some p) (Some (example_addr 0)) = Ok (Some p1, IPPOOL_OK, Some (example_addr 1)) ∧
    ippool_free (Some p1) (Some (example_addr 1)) = Ok (Some p2, IPPOOL_OK) ∧
    ippool_alloc (Some p2) (Some (example_addr 0)) = Ok (Some p3, IPPOOL_OK, Some (example_addr 1)) ∧
    p_used p2 = p_size p2 - 1.
Proof.
  eexists _, _, _. split_and!; [vm_compute; reflexivity..|].
  eapply (ippool_quarantine (fresh_pool 4 [10; 45; 0; 1] 1) _ _ _ (example_addr 0) (example_addr 1));
    [|vm_compute; reflexivity..].
  apply fresh_pool_wf; [by left|by vm_compute| |done|by vm_compute].
  simpl. rewrite !bytes_ok_cons. split_and!; try lia. apply bytes_ok_nil.
Defined.
