(* ===== verification/Gtp2.v ===== *)
(** * Gtp2: the GTPv2-C codec

    Models [gtp/v2/src/gtp2.c] (message header, binding of the TLV codec to the
    GTPv2-C profile, length backfill) and [gtp/v2/src/gtp2_ie.c] (typed views of
    F-TEID, Bearer QoS, PAA and AMBR).  A nullable pointer argument is an
    [option]; [out] says whether the output pointer is non-NULL. *)

From S2P Require Import Prelude Endian Tlv.

Definition GTP2_VERSION : Z := 2.
Definition GTP2_HDR_FIXED_LEN : Z := 8.
Definition GTP2_HDR_WITH_TEID : Z := 12.

Definition GTP2_OK : Z := 0.
Definition GTP2_E_SHORT : Z := -1.
Definition GTP2_E_VERSION : Z := -2.
Definition GTP2_E_LENGTH : Z := -3.
Definition GTP2_E_OVERFLOW : Z := -4.
Definition GTP2_E_INVAL : Z := -5.

Definition GTP2_IE_AMBR : Z := 72.
Definition GTP2_IE_PAA : Z := 79.
Definition GTP2_IE_BEARER_QOS : Z := 80.
Definition GTP2_IE_FTEID : Z := 87.

Definition GTP2_PDN_IPV4 : Z := 1.
Definition GTP2_PDN_IPV6 : Z := 2.
Definition GTP2_PDN_IPV4V6 : Z := 3.

(** ** Data *)

Record gtp2_hdr := Gtp2Hdr {
  h_version : Z; h_piggyback : bool; h_has_teid : bool; h_has_mp : bool;
  h_message_type : Z; h_length : Z; h_teid : Z; h_sequence : Z; h_priority : Z }.

Record gtp2_ie_view := Gtp2IeView {
  ie_type : Z; ie_instance : Z; ie_len : Z; ie_value : Z }.

Record gtp2_fteid := Gtp2Fteid {
  f_v4 : bool; f_v6 : bool; f_if_type : Z; f_teid : Z; f_addr4 : mem; f_addr6 : mem }.

Record gtp2_bearer_qos := Gtp2BearerQos {
  q_pci : Z; q_pl : Z; q_pvi : Z; q_qci : Z;
  q_mbr_ul : Z; q_mbr_dl : Z; q_gbr_ul : Z; q_gbr_dl : Z }.

Record gtp2_paa := Gtp2Paa {
  pa_pdn_type : Z; pa_prefix_len : Z; pa_addr4 : mem; pa_addr6 : mem }.

Record gtp2_ambr := Gtp2Ambr { am_ul_kbps : Z; am_dl_kbps : Z }.

(** [(x & mask) != 0] *)
Definition flag (x mask : Z) : bool := negb (Z.land x mask =? 0).
(** [if (b) flags |= mask] *)
Definition or_if (flags : Z) (b : bool) (mask : Z) : Z := if b then Z.lor flags mask else flags.

Section gtp2.
Context `{HO : HostOrder}.

(** ** Header *)

Definition gtp2_tlv_err (rc : Z) : Z :=
  if rc =? TLV_OK then GTP2_OK
  else if rc =? TLV_E_OVERFLOW then GTP2_E_OVERFLOW else GTP2_E_INVAL.

Definition gtp2_hdr_decode (buf : option mem) (len : Z) (out : bool) : res (gtp2_hdr * Z) :=
  match buf, out with
  | Some buf, true =>
      if len <? GTP2_HDR_FIXED_LEN then Err GTP2_E_SHORT else
      flags ← rd buf 0;
      let version := u8 (Z.land (Z.shiftr flags 5) 7) in
      let piggyback := flag flags 16 in
      let has_teid := flag flags 8 in
      let has_mp := flag flags 4 in
      message_type ← rd buf 1;
      length ← be16_load buf 2;
      if negb (version =? GTP2_VERSION) then Err GTP2_E_VERSION else
      let hdr_len := if has_teid then GTP2_HDR_WITH_TEID else GTP2_HDR_FIXED_LEN in
      if len <? hdr_len then Err GTP2_E_SHORT else
      let total := length + 4 in
      if len <? total then Err GTP2_E_LENGTH else
      if total <? hdr_len then Err GTP2_E_LENGTH else
      teid ← (if has_teid then be32_load buf 4 else Ok 0);
      let p := if has_teid then 8 else 4 in
      sequence ← be24_load buf p;
      let p := p + 3 in
      priority ← (if has_mp then b ← rd buf p; Ok (u8 (Z.land (Z.shiftr b 4) 15)) else Ok 0);
      Ok ({| h_version := version; h_piggyback := piggyback; h_has_teid := has_teid;
             h_has_mp := has_mp; h_message_type := message_type; h_length := length;
             h_teid := teid; h_sequence := sequence; h_priority := priority |}, hdr_len)
  | _, _ => Err GTP2_E_INVAL
  end.

Definition gtp2_hdr_encode (buf : option mem) (cap : Z) (hdr : option gtp2_hdr) :
    res (option mem * Z) :=
  match buf, hdr with
  | Some b, Some hdr =>
      let hdr_len := if h_has_teid hdr then GTP2_HDR_WITH_TEID else GTP2_HDR_FIXED_LEN in
      if cap <? hdr_len then Ok (buf, GTP2_E_OVERFLOW) else
      let flags := u8 (Z.shiftl GTP2_VERSION 5) in
      let flags := or_if flags (h_piggyback hdr) 16 in
      let flags := or_if flags (h_has_teid hdr) 8 in
      let flags := or_if flags (h_has_mp hdr) 4 in
      b ← wr b 0 flags;
      b ← wr b 1 (h_message_type hdr);
      b ← be16_store b 2 (h_length hdr);
      b ← (if h_has_teid hdr then be32_store b 4 (h_teid hdr) else Ok b);
      let p := if h_has_teid hdr then 8 else 4 in
      b ← be24_store b p (Z.land (h_sequence hdr) 16777215);
      let p := p + 3 in
      b ← wr b p (if h_has_mp hdr then u8 (Z.shiftl (Z.land (h_priority hdr) 15) 4) else 0);
      Ok (Some b, hdr_len)
  | _, _ => Ok (buf, GTP2_E_INVAL)
  end.

(** ** Information elements *)

Definition gtp2_ie_iter_init (payload len : Z) : tlv_iter :=
  tlv_iter_init TLV_PROF_GTP2C payload len.

Definition gtp2_ie_iter_next (m : mem) (it : tlv_iter) :
    res (option (gtp2_ie_view * tlv_iter)) :=
  r ← tlv_iter_next m it;
  match r with
  | None => Ok None
  | Some (v, it) =>
      Ok (Some ({| ie_type := u8 (v_type v); ie_len := u16 (v_len v);
                   ie_instance := u8 (Z.land (v_meta v) 15); ie_value := v_value v |}, it))
  end.

Definition gtp2_ie_iter_grouped (grouped : gtp2_ie_view) : tlv_iter :=
  tlv_iter_init TLV_PROF_GTP2C (ie_value grouped) (ie_len grouped).

Definition gtp2_wbuf_init (buf : mem) (cap : Z) : tlv_wbuf := tlv_wbuf_init buf cap.

Definition gtp2_ie_put (w : tlv_wbuf) (type instance : Z) (val : mem) (vlen : Z) :
    res (tlv_wbuf * Z) :=
  '(w, rc) ← tlv_put w TLV_PROF_GTP2C type (u8 (Z.land instance 15)) val vlen;
  Ok (w, gtp2_tlv_err rc).

Definition gtp2_ie_put_u8 (w : tlv_wbuf) (type instance v : Z) : res (tlv_wbuf * Z) :=
  gtp2_ie_put w type instance [v] 1.

Definition gtp2_ie_put_u16 (w : tlv_wbuf) (type instance v : Z) : res (tlv_wbuf * Z) :=
  b ← be16_store (uninit 2) 0 v; gtp2_ie_put w type instance b 2.

Definition gtp2_ie_put_u32 (w : tlv_wbuf) (type instance v : Z) : res (tlv_wbuf * Z) :=
  b ← be32_store (uninit 4) 0 v; gtp2_ie_put w type instance b 4.

Definition gtp2_ie_begin (w : tlv_wbuf) (type instance : Z) : res (tlv_wbuf * Z) :=
  '(w, h) ← tlv_begin w TLV_PROF_GTP2C type (u8 (Z.land instance 15));
  Ok (w, if h <? 0 then gtp2_tlv_err h else h).

Definition gtp2_ie_end (w : tlv_wbuf) (handle : Z) : res (tlv_wbuf * Z) :=
  '(w, rc) ← tlv_end w TLV_PROF_GTP2C handle; Ok (w, gtp2_tlv_err rc).

Definition gtp2_hdr_finalize (w : tlv_wbuf) (hdr_off : Z) : res (tlv_wbuf * Z) :=
  if w_overflow w then Ok (w, GTP2_E_OVERFLOW) else
  if w_off w <? u64 (hdr_off + GTP2_HDR_FIXED_LEN) then Ok (w, GTP2_E_INVAL) else
  let total := u64 (w_off w - hdr_off) in
  if total <? 4 then Ok (w, GTP2_E_INVAL) else
  let length_field := u64 (total - 4) in
  if 65535 <? length_field then Ok (w, GTP2_E_OVERFLOW) else
  b ← be16_store (w_buf w) (hdr_off + 2) (u16 length_field);
  Ok (set_buf w b (w_off w), GTP2_OK).

(** ** Typed information elements *)

Definition gtp2_fteid_decode (m : mem) (ie : option gtp2_ie_view) (out : bool) :
    res gtp2_fteid :=
  match ie, out with
  | Some ie, true =>
      if ie_len ie <? 5 then Err GTP2_E_SHORT else
      let v := ie_value ie in
      v0 ← rd m v;
      let v4 := flag v0 128 in
      let v6 := flag v0 64 in
      let if_type := u8 (Z.land v0 63) in
      teid ← be32_load m (v + 1);
      let n := 5 in
      addr4 ← (if v4 then if ie_len ie <? n + 4 then Err GTP2_E_SHORT else rdn m (v + n) 4
               else Ok (zeros 4));
      let n := if v4 then n + 4 else n in
      addr6 ← (if v6 then if ie_len ie <? n + 16 then Err GTP2_E_SHORT else rdn m (v + n) 16
               else Ok (zeros 16));
      Ok {| f_v4 := v4; f_v6 := v6; f_if_type := if_type; f_teid := teid;
            f_addr4 := addr4; f_addr6 := addr6 |}
  | _, _ => Err GTP2_E_INVAL
  end.

Definition gtp2_fteid_put (w : option tlv_wbuf) (instance : Z) (f : option gtp2_fteid) :
    res (option tlv_wbuf * Z) :=
  match w, f with
  | Some w', Some f =>
      if negb (f_v4 f) && negb (f_v6 f) then Ok (w, GTP2_E_INVAL) else
      v ← wr (uninit 25) 0
            (u8 (Z.lor (Z.lor (if f_v4 f then 128 else 0) (if f_v6 f then 64 else 0))
                   (Z.land (f_if_type f) 63)));
      v ← be32_store v 1 (f_teid f);
      let n := 5 in
      v ← (if f_v4 f then bs ← rdn (f_addr4 f) 0 4; wrn v n bs else Ok v);
      let n := if f_v4 f then n + 4 else n in
      v ← (if f_v6 f then bs ← rdn (f_addr6 f) 0 16; wrn v n bs else Ok v);
      let n := if f_v6 f then n + 16 else n in
      '(w, rc) ← gtp2_ie_put w' GTP2_IE_FTEID instance v n;
      Ok (Some w, rc)
  | _, _ => Ok (w, GTP2_E_INVAL)
  end.

Definition gtp2_bearer_qos_decode (m : mem) (ie : option gtp2_ie_view) (out : bool) :
    res gtp2_bearer_qos :=
  match ie, out with
  | Some ie, true =>
      if ie_len ie <? 22 then Err GTP2_E_SHORT else
      let v := ie_value ie in
      v0 ← rd m v; v1 ← rd m (v + 1);
      mbr_ul ← be40_load m (v + 2); mbr_dl ← be40_load m (v + 7);
      gbr_ul ← be40_load m (v + 12); gbr_dl ← be40_load m (v + 17);
      Ok {| q_pci := u8 (Z.land (Z.shiftr v0 6) 1); q_pl := u8 (Z.land (Z.shiftr v0 2) 15);
            q_pvi := u8 (Z.land v0 1); q_qci := v1; q_mbr_ul := mbr_ul; q_mbr_dl := mbr_dl;
            q_gbr_ul := gbr_ul; q_gbr_dl := gbr_dl |}
  | _, _ => Err GTP2_E_INVAL
  end.

Definition gtp2_bearer_qos_put (w : option tlv_wbuf) (instance : Z)
    (q : option gtp2_bearer_qos) : res (option tlv_wbuf * Z) :=
  match w, q with
  | Some w', Some q =>
      v ← wr (uninit 22) 0
            (u8 (Z.lor (Z.lor (Z.shiftl (Z.land (q_pci q) 1) 6)
                          (Z.shiftl (Z.land (q_pl q) 15) 2)) (Z.land (q_pvi q) 1)));
      v ← wr v 1 (q_qci q);
      v ← be40_store v 2 (q_mbr_ul q); v ← be40_store v 7 (q_mbr_dl q);
      v ← be40_store v 12 (q_gbr_ul q); v ← be40_store v 17 (q_gbr_dl q);
      '(w, rc) ← gtp2_ie_put w' GTP2_IE_BEARER_QOS instance v 22;
      Ok (Some w, rc)
  | _, _ => Ok (w, GTP2_E_INVAL)
  end.

Definition gtp2_paa_decode (m : mem) (ie : option gtp2_ie_view) (out : bool) : res gtp2_paa :=
  match ie, out with
  | Some ie, true =>
      if ie_len ie <? 1 then Err GTP2_E_SHORT else
      let v := ie_value ie in
      v0 ← rd m v;
      let pdn_type := u8 (Z.land v0 7) in
      if pdn_type =? GTP2_PDN_IPV4 then
        if ie_len ie <? 5 then Err GTP2_E_SHORT else
        addr4 ← rdn m (v + 1) 4;
        Ok {| pa_pdn_type := pdn_type; pa_prefix_len := 0; pa_addr4 := addr4;
              pa_addr6 := zeros 16 |}
      else if pdn_type =? GTP2_PDN_IPV6 then
        if ie_len ie <? 18 then Err GTP2_E_SHORT else
        prefix_len ← rd m (v + 1); addr6 ← rdn m (v + 2) 16;
        Ok {| pa_pdn_type := pdn_type; pa_prefix_len := prefix_len; pa_addr4 := zeros 4;
              pa_addr6 := addr6 |}
      else if pdn_type =? GTP2_PDN_IPV4V6 then
        if ie_len ie <? 22 then Err GTP2_E_SHORT else
        prefix_len ← rd m (v + 1); addr6 ← rdn m (v + 2) 16; addr4 ← rdn m (v + 18) 4;
        Ok {| pa_pdn_type := pdn_type; pa_prefix_len := prefix_len; pa_addr4 := addr4;
              pa_addr6 := addr6 |}
      else Err GTP2_E_INVAL
  | _, _ => Err GTP2_E_INVAL
  end.

Definition gtp2_paa_put (w : option tlv_wbuf) (instance : Z) (p : option gtp2_paa) :
    res (option tlv_wbuf * Z) :=
  match w, p with
  | Some w', Some p =>
      v ← wr (uninit 22) 0 (u8 (Z.land (pa_pdn_type p) 7));
      r ← (if pa_pdn_type p =? GTP2_PDN_IPV4 then
             bs ← rdn (pa_addr4 p) 0 4; v ← wrn v 1 bs; Ok (Some (v, 5))
           else if pa_pdn_type p =? GTP2_PDN_IPV6 then
             v ← wr v 1 (pa_prefix_len p);
             bs ← rdn (pa_addr6 p) 0 16; v ← wrn v 2 bs; Ok (Some (v, 18))
           else if pa_pdn_type p =? GTP2_PDN_IPV4V6 then
             v ← wr v 1 (pa_prefix_len p);
             bs ← rdn (pa_addr6 p) 0 16; v ← wrn v 2 bs;
             bs ← rdn (pa_addr4 p) 0 4; v ← wrn v 18 bs; Ok (Some (v, 22))
           else Ok None);
      match r with
      | None => Ok (w, GTP2_E_INVAL)
      | Some (v, n) => '(w, rc) ← gtp2_ie_put w' GTP2_IE_PAA instance v n; Ok (Some w, rc)
      end
  | _, _ => Ok (w, GTP2_E_INVAL)
  end.

Definition gtp2_ambr_decode (m : mem) (ie : option gtp2_ie_view) (out : bool) : res gtp2_ambr :=
  match ie, out with
  | Some ie, true =>
      if ie_len ie <? 8 then Err GTP2_E_SHORT else
      ul ← be32_load m (ie_value ie); dl ← be32_load m (ie_value ie + 4);
      Ok {| am_ul_kbps := ul; am_dl_kbps := dl |}
  | _, _ => Err GTP2_E_INVAL
  end.

Definition gtp2_ambr_put (w : option tlv_wbuf) (instance : Z) (a : option gtp2_ambr) :
    res (option tlv_wbuf * Z) :=
  match w, a with
  | Some w', Some a =>
      v ← be32_store (uninit 8) 0 (am_ul_kbps a);
      v ← be32_store v 4 (am_dl_kbps a);
      '(w, rc) ← gtp2_ie_put w' GTP2_IE_AMBR instance v 8;
      Ok (Some w, rc)
  | _, _ => Ok (w, GTP2_E_INVAL)
  end.
End gtp2.

(** ** The header *)

(** The octets of a header. *)
Definition hdr_flags (h : gtp2_hdr) : Z :=
  or_if (or_if (or_if 64 (h_piggyback h) 16) (h_has_teid h) 8) (h_has_mp h) 4.
Definition hdr_prio (h : gtp2_hdr) : Z :=
  if h_has_mp h then u8 (Z.shiftl (Z.land (h_priority h) 15) 4) else 0.
Definition hdr_bytes (h : gtp2_hdr) : list Z :=
  [hdr_flags h; h_message_type h] ++ be_bytes 2 (h_length h) ++
  (if h_has_teid h then be_bytes 4 (h_teid h) else []) ++
  be_bytes 3 (h_sequence h) ++ [hdr_prio h].

Definition hdr_size (h : gtp2_hdr) : Z := if h_has_teid h then 12 else 8.

Lemma gtp2_mlen_hdr_bytes h : mlen (hdr_bytes h) = hdr_size h.
Proof. unfold hdr_bytes, hdr_size. destruct (h_has_teid h); mlia. Qed.

Lemma seq_mask v : be_bytes 3 (Z.land v 16777215) = be_bytes 3 v.
Proof.
  change 16777215 with (Z.ones 24). rewrite Z.land_ones by lia. apply (be_bytes_mod 3).
Qed.

Lemma gtp2_hdr_encode_eq b cap h :
  cap <= mlen b →
  gtp2_hdr_encode (Some b) cap (Some h) =
    Ok (if cap <? hdr_size h then (Some b, GTP2_E_OVERFLOW)
        else (Some (splice b 0 (hdr_bytes h)), hdr_size h)).
Proof.
  intros Hc. unfold gtp2_hdr_encode, GTP2_HDR_WITH_TEID, GTP2_HDR_FIXED_LEN. fold (hdr_size h).
  destruct (Z.ltb_spec cap (hdr_size h)); [done|].
  change (u8 (Z.shiftl GTP2_VERSION 5)) with 64. fold (hdr_flags h) (hdr_prio h).
  unfold hdr_size, hdr_bytes in *.
  destruct (h_has_teid h);
    (rewrite wr_wrn, wrn_first by mlia; rewrite wr_wrn, wrn_next by mlia;
     rewrite be16_store_bytes, wrn_next by mlia).
  - rewrite be32_store_bytes, wrn_next by mlia. rewrite be24_store_bytes, wrn_next by mlia.
    rewrite wr_wrn, wrn_next by mlia. by rewrite seq_mask, <-!app_assoc.
  - bstep. rewrite be24_store_bytes, wrn_next by mlia.
    rewrite wr_wrn, wrn_next by mlia. by rewrite seq_mask, <-!app_assoc.
Qed.

(** What a decoder makes of an encoded header: unused fields are zeroed and
    the others truncated to their wire width. *)
Definition hdr_norm (h : gtp2_hdr) : gtp2_hdr :=
  {| h_version := GTP2_VERSION; h_piggyback := h_piggyback h; h_has_teid := h_has_teid h;
     h_has_mp := h_has_mp h; h_message_type := h_message_type h; h_length := h_length h;
     h_teid := if h_has_teid h then h_teid h else 0; h_sequence := h_sequence h mod 2 ^ 24;
     h_priority := if h_has_mp h then h_priority h mod 16 else 0 |}.

Definition hdr_ok (h : gtp2_hdr) : Prop :=
  0 <= h_message_type h < 256 ∧ 0 <= h_length h < 65536 ∧ 0 <= h_teid h < 4294967296.

Lemma gtp2_hdr_flags_decode h :
  0 <= hdr_flags h < 256 ∧ u8 (Z.land (Z.shiftr (hdr_flags h) 5) 7) = 2 ∧
  flag (hdr_flags h) 16 = h_piggyback h ∧ flag (hdr_flags h) 8 = h_has_teid h ∧
  flag (hdr_flags h) 4 = h_has_mp h.
Proof.
  unfold hdr_flags. by destruct (h_piggyback h), (h_has_teid h), (h_has_mp h).
Qed.

Lemma hdr_prio_decode h :
  0 <= hdr_prio h < 256 ∧
  (h_has_mp h = true → u8 (Z.land (Z.shiftr (hdr_prio h) 4) 15) = h_priority h mod 16).
Proof.
  unfold hdr_prio. destruct (h_has_mp h); [|done].
  change 15 with (Z.ones 4). rewrite !Z.land_ones by lia. change (2 ^ 4) with 16.
  pose proof (Z.mod_pos_bound (h_priority h) 16 ltac:(lia)) as Hp.
  split; [apply u8_range|intros _].
  rewrite Z.shiftl_mul_pow2, (u8_small (_ * _)), shiftr_div, Z.div_mul by lia.
  rewrite Z.mod_mod by lia. by rewrite u8_small by lia.
Qed.

Lemma gtp2_hdr_bytes_ok h : hdr_ok h → bytes_ok (hdr_bytes h).
Proof.
  intros (Hm & _ & _). destruct (gtp2_hdr_flags_decode h) as [Hf _]. destruct (hdr_prio_decode h) as [Hp _].
  unfold hdr_bytes. destruct (h_has_teid h);
    rewrite !bytes_ok_app, ?bytes_ok_cons; split_and!; try done; try lia; apply be_bytes_ok || apply bytes_ok_nil.
Qed.

Lemma gtp2_hdr_decode_bytes h rest len :
  hdr_ok h → bytes_ok rest → len <= hdr_size h + mlen rest →
  hdr_size h <= h_length h + 4 <= len →
  gtp2_hdr_decode (Some (hdr_bytes h ++ rest)) len true = Ok (hdr_norm h, hdr_size h).
Proof.
  intros Hok Hrest Hlen Htot. pose proof (gtp2_hdr_bytes_ok h Hok) as Hbok.
  assert (bytes_ok (hdr_bytes h ++ rest)) as Hmok by (by apply bytes_ok_app).
  destruct Hok as (Hm & Hl & Ht). pose proof (mlen_nonneg rest).
  destruct (gtp2_hdr_flags_decode h) as (_ & Hver & Hpb & Hteid & Hmp).
  destruct (hdr_prio_decode h) as (_ & Hprio).
  assert (mlen (hdr_bytes h ++ rest) = hdr_size h + mlen rest) as Hml
    by (rewrite mlen_app, gtp2_mlen_hdr_bytes; done).
  assert (8 <= hdr_size h) by (unfold hdr_size; destruct (h_has_teid h); lia).
  unfold gtp2_hdr_decode, GTP2_HDR_FIXED_LEN, GTP2_HDR_WITH_TEID.
  destruct (Z.ltb_spec len 8); [lia|].
  rewrite (rd_slice _ 0 (hdr_flags h)) by done. bstep.
  rewrite (rd_slice _ 1 (h_message_type h)) by done. bstep.
  rewrite be16_load_val by (done || lia). bstep. rewrite Hver, Hpb, Hteid, Hmp.
  change (negb (2 =? GTP2_VERSION)) with false. fold (hdr_size h). cbn iota.
  assert (be_val (slice (hdr_bytes h ++ rest) 2 2) = h_length h) as ->.
  { unfold hdr_bytes. slice_at. rewrite be_val_bytes, Z.mod_small; [done|]. simpl Z.of_nat. lia. }
  destruct (Z.ltb_spec len (hdr_size h)); [lia|]. destruct (Z.ltb_spec len (h_length h + 4)); [lia|].
  destruct (Z.ltb_spec (h_length h + 4) (hdr_size h)); [lia|].
  unfold hdr_norm.
  assert (be_val (be_bytes 3 (h_sequence h)) = h_sequence h mod 2 ^ 24) as Hseq by apply be_val_bytes.
  assert (be_val (be_bytes 4 (h_teid h)) = h_teid h) as Htd
    by (rewrite be_val_bytes, Z.mod_small; [done|simpl Z.of_nat; lia]).
  unfold hdr_bytes, hdr_size in *. destruct (h_has_teid h); bstep.
  - rewrite be32_load_val by (done || lia). bstep. rewrite be24_load_val by (done || lia). bstep.
    slice_at. rewrite Hseq, Htd. destruct (h_has_mp h); [|done].
    rewrite (rd_slice _ _ (hdr_prio h)) by (try lia; slice_at; done). bstep. by rewrite Hprio.
  - rewrite be24_load_val by (done || lia). bstep.
    slice_at. rewrite Hseq. destruct (h_has_mp h); [|done].
    rewrite (rd_slice _ _ (hdr_prio h)) by (try lia; slice_at; done). bstep. by rewrite Hprio.
Qed.

(** ** Whole messages *)

Section messages.
Context `{HO : HostOrder}.
Abbreviation prof := TLV_PROF_GTP2C.

(** Elements written the way the message encoders write them: [gtp2_ie_put] for
    plain ones, [gtp2_ie_begin] and [gtp2_ie_end] around grouped ones. *)
Fixpoint ie_write (w : tlv_wbuf) (t : tlv_tree) : res (tlv_wbuf * Z) :=
  match t with
  | Leaf type inst val => gtp2_ie_put w type inst val (mlen val)
  | Group type inst cs =>
      '(w, h) ← gtp2_ie_begin w type inst;
      if h <? 0 then Ok (w, h) else
      '(w, rc) ← write_list ie_write w cs;
      if negb (rc =? 0) then Ok (w, rc) else gtp2_ie_end w h
  end.

(** And read back with nested iterators; [grouped] is the grammar's knowledge. *)
Fixpoint ie_read (grouped : Z → bool) (fuel : nat) (m : mem) (it : tlv_iter) :
    res (list tlv_tree) :=
  match fuel with
  | O => Ub
  | S fuel =>
      r ← gtp2_ie_iter_next m it;
      match r with
      | None => Ok []
      | Some (v, it) =>
          t ← (if grouped (ie_type v)
               then cs ← ie_read grouped fuel m (gtp2_ie_iter_grouped v);
                    Ok (Group (ie_type v) (ie_instance v) cs)
               else val ← rdn m (ie_value v) (ie_len v);
                    Ok (Leaf (ie_type v) (ie_instance v) val));
          ts ← ie_read grouped fuel m it; Ok (t :: ts)
      end
  end.

Definition gtp2_message_write (buf : mem) (h : gtp2_hdr) (ts : list tlv_tree) :
    res (tlv_wbuf * Z) :=
  let w := gtp2_wbuf_init buf (mlen buf) in
  '(b, n) ← gtp2_hdr_encode (Some (w_buf w)) (w_cap w) (Some h);
  if n <? 0 then Ok (w, n) else
  '(w, rc) ← write_list ie_write (set_buf w (default [] b) n) ts;
  if negb (rc =? 0) then Ok (w, rc) else gtp2_hdr_finalize w 0.

Definition gtp2_message_read (grouped : Z → bool) (m : mem) : res (gtp2_hdr * list tlv_tree) :=
  '(h, n) ← gtp2_hdr_decode (Some m) (mlen m) true;
  ts ← ie_read grouped (S (length m)) m (gtp2_ie_iter_init n (h_length h + 4 - n));
  Ok (h, ts).

(** Instances are four bits wide. *)
Fixpoint inst_ok (t : tlv_tree) : Prop :=
  match t with
  | Leaf _ inst _ => 0 <= inst < 16
  | Group _ inst cs =>
      0 <= inst < 16 ∧ (fix go cs := match cs with [] => True | c :: cs => inst_ok c ∧ go cs end) cs
  end.
Fixpoint mask_inst (t : tlv_tree) : tlv_tree :=
  match t with
  | Leaf type inst val => Leaf type (inst mod 16) val
  | Group type inst cs => Group type (inst mod 16) (map mask_inst cs)
  end.

Lemma inst_oks cs :
  (fix go cs := match cs with [] => True | c :: cs => inst_ok c ∧ go cs end) cs ↔ Forall inst_ok cs.
Proof. induction cs as [|c cs IH]; [by split|]. rewrite Forall_cons_iff. by rewrite <-IH. Qed.

Lemma mask_inst_id t : inst_ok t → mask_inst t = t.
Proof.
  induction t as [type inst val|type inst cs IH] using tlv_tree_ind'; simpl.
  - intros. by rewrite Z.mod_small.
  - rewrite inst_oks. intros [Hi Hcs]. rewrite Z.mod_small by done. f_equal.
    induction IH as [|c cs Hc _ IHcs]; [done|]. apply Forall_cons in Hcs as [? ?].
    simpl. rewrite Hc by done. f_equal. by apply IHcs.
Qed.

Lemma inst_mask inst : u8 (Z.land inst 15) = inst mod 16.
Proof.
  change 15 with (Z.ones 4). rewrite Z.land_ones by lia. change (2 ^ 4) with 16.
  apply u8_small. pose proof (Z.mod_pos_bound inst 16). lia.
Qed.

(** The wrapper writes what the generic codec writes. *)
Lemma ie_write_eq t : inst_ok t → ∀ w w',
  tree_write prof w t = Ok (w', TLV_OK) → ie_write w t = Ok (w', GTP2_OK).
Proof.
  induction t as [type inst val|type inst cs IH] using tlv_tree_ind'; simpl; intros Hi w w' Hw.
  - unfold gtp2_ie_put. rewrite inst_mask, Z.mod_small by done. rewrite Hw. done.
  - rewrite inst_oks in Hi. destruct Hi as [Hi Hcs].
    unfold gtp2_ie_begin. rewrite inst_mask, Z.mod_small by done.
    destruct (tlv_begin w prof type inst) as [[w1 h]| |]; try done. simpl in *.
    destruct (Z.ltb_spec h 0) as [Hneg|Hpos].
    { injection Hw as _ ->. unfold TLV_OK in Hneg. lia. }
    destruct (Z.ltb_spec h 0); [lia|].
    destruct (write_list (tree_write prof) w1 cs) as [[w2 rc]| |] eqn:Ews; try done. simpl in Hw.
    destruct (Z.eqb_spec rc 0) as [->|Hrc]; simpl in Hw.
    2: { injection Hw as _ ->. done. }
    assert (write_list ie_write w1 cs = Ok (w2, TLV_OK)) as ->.
    { clear Hw. revert w1 Ews. induction IH as [|c cs Hc _ IHcs]; intros w1 Ews; simpl in *; [done|].
      apply Forall_cons in Hcs as [Hic Hcs].
      destruct (tree_write prof w1 c) as [[w3 rc]| |] eqn:Et; try done. simpl in Ews.
      destruct (Z.eqb_spec rc 0) as [->|Hrc]; simpl in Ews; [|by injection Ews as _ ->].
      rewrite (Hc Hic _ _ Et). simpl. by apply IHcs. }
    simpl. unfold gtp2_ie_end. by rewrite Hw.
Qed.

Lemma ie_write_list ts : Forall inst_ok ts → ∀ w w',
  write_list (tree_write prof) w ts = Ok (w', TLV_OK) → write_list ie_write w ts = Ok (w', GTP2_OK).
Proof.
  induction 1 as [|t ts Ht _ IH]; intros w w' Hw; simpl in *; [done|].
  destruct (tree_write prof w t) as [[w1 rc]| |] eqn:Et; try done. simpl in Hw.
  destruct (Z.eqb_spec rc 0) as [->|Hrc]; simpl in Hw; [|by injection Hw as _ ->].
  rewrite (ie_write_eq t Ht _ _ Et). simpl. by apply IH.
Qed.

Lemma ie_read_eq grouped fuel : ∀ m it, iter_wf prof m it →
  ie_read grouped fuel m it =
    (ts ← tree_read prof grouped fuel m it; Ok (map mask_inst ts)).
Proof.
  induction fuel as [|fuel IH]; intros m it Hwf; [done|]. cbn [ie_read tree_read].
  unfold gtp2_ie_iter_next.
  destruct (iter_next_safe prof m it Hwf)
    as [E|(v & it' & E & Hwf' & Hin & _ & _ & _)]; rewrite E; bstep; [done|].
  destruct (iter_next_ranges prof m it v it' Hwf E) as (Hty & Hvl & Hmt).
  change (256 ^ type_size prof) with 256 in Hty. change (256 ^ len_size prof) with 65536 in Hvl.
  simpl. rewrite inst_mask, (u8_small (v_type v)), (u16_small (v_len v)) by lia.
  rewrite (IH m it' Hwf').
  destruct (grouped (v_type v)).
  - unfold gtp2_ie_iter_grouped, tlv_iter_init, tlv_iter_grouped. simpl.
    destruct Hin as (Hin1 & Hin2 & Hin3). pose proof Hwf as (_ & Hok & Hmx & Hc & He). simpl in Hin1.
    rewrite (IH m {| it_cur := v_value v; it_end := v_value v + v_len v; it_prof := prof |})
      by (split_and!; simpl; done || lia).
    destruct (tree_read _ _ _ _ {| it_cur := _ |}); try done. simpl.
    by destruct (tree_read _ _ _ _ it').
  - destruct (rdn _ _ _); try done. simpl. by destruct (tree_read _ _ _ _ it').
Qed.
End messages.

Definition set_length (h : gtp2_hdr) (n : Z) : gtp2_hdr :=
  {| h_version := h_version h; h_piggyback := h_piggyback h; h_has_teid := h_has_teid h;
     h_has_mp := h_has_mp h; h_message_type := h_message_type h; h_length := n;
     h_teid := h_teid h; h_sequence := h_sequence h; h_priority := h_priority h |}.

Lemma hdr_bytes_length h n :
  splice (hdr_bytes h) 2 (be_bytes 2 n) = hdr_bytes (set_length h n).
Proof.
  unfold hdr_bytes. simpl (h_has_teid (set_length h n)).
  rewrite splice_app_ge by mlia. rewrite splice_app_l by mlia.
  replace (2 - mlen [hdr_flags h; h_message_type h]) with 0 by mlia.
  rewrite splice_0, length_be_bytes, drop_ge, app_nil_r by (by rewrite length_be_bytes). done.
Qed.

(** [gtp2_hdr_finalize] writes the length of everything after octet 4. *)
Lemma gtp2_hdr_finalize_eq `{HO : HostOrder} w h body :
  wbuf_wf w → w_overflow w = false → written w = hdr_bytes h ++ body →
  w_off w - 4 < 65536 →
  ∃ w', gtp2_hdr_finalize w 0 = Ok (w', GTP2_OK) ∧ w_off w' = w_off w ∧
    written w' = hdr_bytes (set_length h (w_off w - 4)) ++ body.
Proof.
  intros Hw Hno Hwr Hlim. pose proof (mlen_written w Hw) as Hoff.
  rewrite Hwr, mlen_app, gtp2_mlen_hdr_bytes in Hoff. pose proof (mlen_nonneg body).
  assert (8 <= hdr_size h <= 12) by (unfold hdr_size; destruct (h_has_teid h); lia).
  destruct Hw as [Ho Hc]. unfold OBJ_MAX in *.
  unfold gtp2_hdr_finalize, GTP2_HDR_FIXED_LEN. rewrite Hno, !u64_small by lia.
  destruct (Z.ltb_spec (w_off w) (0 + 8)); [lia|]. rewrite Z.sub_0_r.
  destruct (Z.ltb_spec (w_off w) 4); [lia|]. rewrite ?u64_small by lia.
  destruct (Z.ltb_spec 65535 (w_off w - 4)); [lia|].
  rewrite be16_store_bytes, u16_small, wrn_Ok by mlia. bstep.
  eexists. split; [done|]. split; [done|]. unfold written; cbn [set_buf w_buf w_off].
  rewrite take_splice by mlia. fold (written w). rewrite Hwr.
  change (0 + 2) with 2. rewrite splice_app_l by (rewrite ?gtp2_mlen_hdr_bytes; mlia). by rewrite hdr_bytes_length.
Qed.

(** C27: a GTPv2-C message round trips: a header encoded into a buffer, elements
    (plain and grouped) written after it and the length backfilled are decoded
    to the same header, with the length of the whole message and unused fields
    zeroed, and to the same elements, read from where the decoder says they
    begin. *)
Theorem gtp2_message_roundtrip `{HO : HostOrder} grouped h ts buf :
  hdr_ok h → Forall (tree_ok TLV_PROF_GTP2C grouped) ts → Forall inst_ok ts →
  hdr_size h + mlen (trees_bytes TLV_PROF_GTP2C ts) <= Z.min (mlen buf) 65539 →
  mlen buf < 2147483648 →
  ∃ w, gtp2_message_write buf h ts = Ok (w, GTP2_OK) ∧
    w_off w = hdr_size h + mlen (trees_bytes TLV_PROF_GTP2C ts) ∧
    gtp2_message_read grouped (written w) = Ok (hdr_norm (set_length h (w_off w - 4)), ts).
Proof.
  intros Hh Hts Hinst Hlen Hbuf. set (body := trees_bytes TLV_PROF_GTP2C ts) in *.
  pose proof (mlen_nonneg body). pose proof (gtp2_mlen_hdr_bytes h) as Hhl.
  assert (8 <= hdr_size h <= 12) by (unfold hdr_size; destruct (h_has_teid h); lia).
  unfold gtp2_message_write. rewrite gtp2_hdr_encode_eq by (simpl; lia). simpl.
  destruct (Z.ltb_spec (mlen buf) (hdr_size h)); [lia|]. bstep.
  destruct (Z.ltb_spec (hdr_size h) 0); [lia|].
  set (w0 := set_buf _ _ _).
  assert (wbuf_wf w0) as Hw0.
  { unfold wbuf_wf, w0, OBJ_MAX; simpl. rewrite mlen_splice by lia. lia. }
  assert (written w0 = hdr_bytes h) as Hwr0.
  { unfold written, w0; simpl. rewrite <-Hhl at 1.
    rewrite <-(Z.add_0_l (mlen (hdr_bytes h))), take_splice_end by lia. done. }
  destruct (write_list_emits TLV_PROF_GTP2C grouped ts w0) as (w1 & Hwl & He).
  { apply Forall_forall. intros. by apply tree_writes. }
  { done. } { simpl. lia. } { done. }
  { unfold roomb; simpl. fold body. lia. }
  fold body in He. rewrite (ie_write_list ts Hinst _ _ Hwl). bstep. simpl.
  pose proof (emits_off _ _ _ Hw0 He) as Hoff. destruct He as (Hw1 & Hcap & Hov & Hwr1).
  rewrite Hwr0 in Hwr1. simpl in Hoff.
  destruct (gtp2_hdr_finalize_eq w1 h body) as (w2 & Hfin & Hoff2 & Hwr2); [done..|lia|].
  exists w2. split; [done|]. split; [lia|].
  rewrite Hoff2, Hwr2.
  assert (hdr_ok (set_length h (w_off w1 - 4))) as Hh'
    by (destruct Hh as (? & ? & ?); split_and!; simpl; lia || done).
  assert (hdr_size (set_length h (w_off w1 - 4)) = hdr_size h) as Hsz by done.
  assert (h_length (hdr_norm (set_length h (w_off w1 - 4))) = w_off w1 - 4) as Hl' by done.
  assert (h_length (set_length h (w_off w1 - 4)) = w_off w1 - 4) as Hl'' by done.
  set (h' := set_length h (w_off w1 - 4)) in *. clearbody h'.
  assert (bytes_ok body) as Hbok.
  { apply trees_bytes_ok with grouped; [|done]. apply Forall_forall. intros. by eapply tree_bytes_ok. }
  pose proof (gtp2_mlen_hdr_bytes h') as Hhl'. rewrite Hsz in Hhl'.
  assert (mlen (hdr_bytes h' ++ body) = w_off w1) as Hml by (rewrite mlen_app; lia).
  unfold gtp2_message_read. rewrite gtp2_hdr_decode_bytes by (done || lia).
  bstep. rewrite Hl', Hsz.
  replace (w_off w1 - 4 + 4 - hdr_size h) with (mlen body) by lia.
  assert (bytes_ok (hdr_bytes h' ++ body)) as Hmok
    by (apply bytes_ok_app; split; [by apply gtp2_hdr_bytes_ok|done]).
  assert (slice (hdr_bytes h' ++ body) (hdr_size h) (mlen body) = body) as Hsl
    by (rewrite slice_app_ge by lia; apply slice_whole; lia).
  set (m := hdr_bytes h' ++ body) in *. clearbody m.
  assert (iter_wf TLV_PROF_GTP2C m (gtp2_ie_iter_init (hdr_size h) (mlen body))) as Hit
    by (unfold iter_wf, OBJ_MAX; simpl; split_and!; done || lia).
  rewrite ie_read_eq by done.
  rewrite (tree_read_bytes TLV_PROF_GTP2C grouped _ _ _ ts); try done.
  - simpl. do 2 f_equal.
    rewrite <-(map_id ts) at 2. apply map_ext_Forall. eapply Forall_impl; [exact Hinst|].
    intros t Ht. by apply mask_inst_id.
  - unfold mlen in *. simpl. lia.
  - simpl. by replace (hdr_size h + mlen body - hdr_size h) with (mlen body) by lia.
Qed.

(** ** Typed elements *)

(** What a typed element codec promises the message layer: [put] appends one
    element whose value is [sub_val], and [decode] reads such a value back. *)
Class SubIe (T : Type) := {
  sub_type : Z;
  sub_put : HostOrder → option tlv_wbuf → Z → option T → res (option tlv_wbuf * Z);
  sub_decode : mem → option gtp2_ie_view → bool → res T;
  sub_val : T → option (list Z);
  sub_norm : T → T;
  sub_wf : T → Prop;
  sub_type_ok : 0 <= sub_type < 256;
  sub_val_ok x v : sub_wf x → sub_val x = Some v → bytes_ok v ∧ mlen v <= 25;
  sub_put_law HO w inst x : sub_wf x →
    sub_put HO (Some w) inst (Some x) =
      match sub_val x with
      | Some v => '(w, rc) ← @gtp2_ie_put HO w sub_type inst v (mlen v); Ok (Some w, rc)
      | None => Ok (Some w, GTP2_E_INVAL)
      end;
  sub_decode_law m ie x v : sub_wf x → sub_val x = Some v → bytes_ok m →
    0 <= ie_value ie → ie_value ie + ie_len ie <= mlen m → ie_len ie = mlen v →
    slice m (ie_value ie) (ie_len ie) = v →
    sub_decode m (Some ie) true = Ok (sub_norm x) }.

Lemma gtp2_ie_put_take `{HO : HostOrder} w type inst val n :
  0 <= n <= mlen val → gtp2_ie_put w type inst val n = gtp2_ie_put w type inst (slice val 0 n) n.
Proof. intros. unfold gtp2_ie_put. by rewrite tlv_put_take. Qed.

(** A value buffer filled from its start, and the part of it that is put. *)
Lemma gtp2_put_filled `{HO : HostOrder} w type inst b bs n :
  n = mlen bs → mlen bs <= mlen b →
  gtp2_ie_put w type inst (splice b 0 bs) n = gtp2_ie_put w type inst bs (mlen bs).
Proof.
  intros -> Hb. pose proof (mlen_nonneg bs).
  rewrite gtp2_ie_put_take by (rewrite mlen_splice by lia; lia).
  by rewrite slice_splice_same by lia.
Qed.

(** Reads inside an element's value are reads of the value's octets. *)
Lemma view_slice m v n val i k :
  slice m v n = val → 0 <= v → 0 <= i → 0 <= k → i + k <= n →
  slice m (v + i) k = slice val i k.
Proof. intros <- ????. by rewrite slice_slice by lia. Qed.

(** *** F-TEID *)

Definition fteid_flags (f : gtp2_fteid) : Z :=
  u8 (Z.lor (Z.lor (if f_v4 f then 128 else 0) (if f_v6 f then 64 else 0))
        (Z.land (f_if_type f) 63)).
Definition fteid_val (f : gtp2_fteid) : option (list Z) :=
  if f_v4 f || f_v6 f then
    Some (([fteid_flags f] ++ be_bytes 4 (f_teid f)) ++ (if f_v4 f then f_addr4 f else []) ++
      (if f_v6 f then f_addr6 f else []))
  else None.
Definition fteid_norm (f : gtp2_fteid) : gtp2_fteid :=
  {| f_v4 := f_v4 f; f_v6 := f_v6 f; f_if_type := f_if_type f mod 64; f_teid := f_teid f;
     f_addr4 := if f_v4 f then f_addr4 f else zeros 4;
     f_addr6 := if f_v6 f then f_addr6 f else zeros 16 |}.
Definition fteid_wf (f : gtp2_fteid) : Prop :=
  0 <= f_teid f < 4294967296 ∧ mlen (f_addr4 f) = 4 ∧ bytes_ok (f_addr4 f) ∧
  mlen (f_addr6 f) = 16 ∧ bytes_ok (f_addr6 f).

Lemma fteid_flags_decode f :
  0 <= fteid_flags f < 256 ∧ flag (fteid_flags f) 128 = f_v4 f ∧
  flag (fteid_flags f) 64 = f_v6 f ∧ u8 (Z.land (fteid_flags f) 63) = f_if_type f mod 64.
Proof.
  unfold fteid_flags.
  replace (Z.land (f_if_type f) 63) with (f_if_type f mod 64)
    by (symmetry; by apply (Z.land_ones (f_if_type f) 6)).
  assert (0 <= f_if_type f mod 64 < 256) as Hr
    by (pose proof (Z.mod_pos_bound (f_if_type f) 64); lia).
  assert (f_if_type f mod 64 < 64) as Hlt by (apply Z.mod_pos_bound; lia).
  revert Hr Hlt. generalize (f_if_type f mod 64). intros x Hx Hlt. split; [apply u8_range|].
  destruct (f_v4 f), (f_v6 f); revert Hlt; byte_decide x.
Qed.

Lemma fteid_val_ok f v : fteid_wf f → fteid_val f = Some v → bytes_ok v ∧ mlen v <= 25.
Proof.
  intros (? & H4 & H4ok & H6 & H6ok) Hv. unfold fteid_val in Hv.
  destruct (fteid_flags_decode f) as [Hf _].
  destruct (f_v4 f), (f_v6 f); try done; apply (inj Some) in Hv as <-;
    (split; [bytes_tac|mlia]).
Qed.

Lemma gtp2_fteid_put_eq HO w inst f : fteid_wf f →
  @gtp2_fteid_put HO (Some w) inst (Some f) =
    match fteid_val f with
    | Some v => '(w, rc) ← @gtp2_ie_put HO w GTP2_IE_FTEID inst v (mlen v); Ok (Some w, rc)
    | None => Ok (Some w, GTP2_E_INVAL)
    end.
Proof.
  intros (Ht & H4 & _ & H6 & _). unfold gtp2_fteid_put, fteid_val. fold (fteid_flags f).
  destruct (f_v4 f) eqn:E4, (f_v6 f) eqn:E6; [..|done]; cbn [negb andb orb];
    (rewrite wr_wrn, wrn_first by mlia; rewrite be32_store_bytes, wrn_next by mlia).
  - rewrite !rdn_Ok by lia. bstep. rewrite !slice_full by lia. rewrite wrn_next, wrn_next by mlia.
    rewrite gtp2_put_filled by mlia. by rewrite <-!app_assoc.
  - rewrite !rdn_Ok by lia. bstep. rewrite !slice_full by lia. rewrite wrn_next by mlia. bstep.
    rewrite gtp2_put_filled by mlia. by rewrite app_nil_r.
  - bstep. rewrite !rdn_Ok by lia. bstep. rewrite !slice_full by lia. rewrite wrn_next by mlia. bstep.
    by rewrite gtp2_put_filled by mlia.
Qed.

Lemma gtp2_fteid_decode_eq m ie f v : fteid_wf f → fteid_val f = Some v → bytes_ok m →
  0 <= ie_value ie → ie_value ie + ie_len ie <= mlen m → ie_len ie = mlen v →
  slice m (ie_value ie) (ie_len ie) = v →
  gtp2_fteid_decode m (Some ie) true = Ok (fteid_norm f).
Proof.
  intros (Ht & H4 & _ & H6 & _) Hv Hm Hv0 Hend Hlen Hs. pose proof (mlen_nonneg v).
  destruct (fteid_flags_decode f) as (_ & F4 & F6 & Fi).
  unfold fteid_val in Hv. unfold gtp2_fteid_decode, fteid_norm.
  assert (be_val (be_bytes 4 (f_teid f)) = f_teid f) as Htd
    by (rewrite be_val_bytes, Z.mod_small; [done|simpl Z.of_nat; lia]).
  assert (∀ i k, 0 <= i → 0 <= k → i + k <= ie_len ie → slice m (ie_value ie + i) k = slice v i k) as Hsl
    by (intros; by eapply view_slice).
  destruct (f_v4 f) eqn:E4, (f_v6 f) eqn:E6; try done; apply (inj Some) in Hv;
    (assert (5 <= mlen v) by (rewrite <-Hv; mlia);
     destruct (Z.ltb_spec (ie_len ie) 5); [lia|];
     rewrite (rd_slice _ _ (fteid_flags f))
       by (try lia; rewrite <-(Z.add_0_r (ie_value ie)), Hsl, <-Hv by lia; slice_at; done); bstep;
     rewrite F4, F6, Fi, be32_load_val by (done || lia); bstep;
     rewrite Hsl by lia;
     rewrite <-Hv; slice_at; rewrite Htd; rewrite <-Hv in Hlen; revert Hlen; mlen_simp; intros Hlen).
  - destruct (Z.ltb_spec (ie_len ie) (5 + 4)); [lia|]. rewrite rdn_Ok by lia. bstep.
    destruct (Z.ltb_spec (ie_len ie) (5 + 4 + 16)); [lia|]. rewrite rdn_Ok by lia. bstep.
    rewrite !Hsl, <-Hv by lia. slice_at. done.
  - destruct (Z.ltb_spec (ie_len ie) (5 + 4)); [lia|]. rewrite rdn_Ok by lia. bstep.
    rewrite !Hsl, <-Hv by lia. slice_at. done.
  - bstep. destruct (Z.ltb_spec (ie_len ie) (5 + 16)); [lia|]. rewrite rdn_Ok by lia. bstep.
    rewrite !Hsl, <-Hv by lia. slice_at. done.
Qed.

#[export] Instance fteid_sub : SubIe gtp2_fteid := {|
  sub_type := GTP2_IE_FTEID; sub_put := @gtp2_fteid_put; sub_decode := gtp2_fteid_decode;
  sub_val := fteid_val; sub_norm := fteid_norm; sub_wf := fteid_wf;
  sub_val_ok := fteid_val_ok; sub_put_law := gtp2_fteid_put_eq;
  sub_decode_law := gtp2_fteid_decode_eq; sub_type_ok := ltac:(unfold GTP2_IE_FTEID; lia) |}.

(** *** Bearer QoS *)

Definition qos_flags (q : gtp2_bearer_qos) : Z :=
  u8 (Z.lor (Z.lor (Z.shiftl (Z.land (q_pci q) 1) 6) (Z.shiftl (Z.land (q_pl q) 15) 2))
        (Z.land (q_pvi q) 1)).
Definition qos_val (q : gtp2_bearer_qos) : list Z :=
  [qos_flags q; q_qci q] ++ be_bytes 5 (q_mbr_ul q) ++ be_bytes 5 (q_mbr_dl q) ++
  be_bytes 5 (q_gbr_ul q) ++ be_bytes 5 (q_gbr_dl q).
Definition qos_norm (q : gtp2_bearer_qos) : gtp2_bearer_qos :=
  {| q_pci := q_pci q mod 2; q_pl := q_pl q mod 16; q_pvi := q_pvi q mod 2; q_qci := q_qci q;
     q_mbr_ul := q_mbr_ul q mod 2 ^ 40; q_mbr_dl := q_mbr_dl q mod 2 ^ 40;
     q_gbr_ul := q_gbr_ul q mod 2 ^ 40; q_gbr_dl := q_gbr_dl q mod 2 ^ 40 |}.
Definition qos_wf (q : gtp2_bearer_qos) : Prop := 0 <= q_qci q < 256.

Lemma qos_flags_decode q :
  0 <= qos_flags q < 256 ∧ u8 (Z.land (Z.shiftr (qos_flags q) 6) 1) = q_pci q mod 2 ∧
  u8 (Z.land (Z.shiftr (qos_flags q) 2) 15) = q_pl q mod 16 ∧
  u8 (Z.land (qos_flags q) 1) = q_pvi q mod 2.
Proof.
  unfold qos_flags. split; [apply u8_range|].
  replace (Z.land (q_pci q) 1) with (q_pci q mod 2) by (symmetry; by apply (Z.land_ones _ 1)).
  replace (Z.land (q_pvi q) 1) with (q_pvi q mod 2) by (symmetry; by apply (Z.land_ones _ 1)).
  replace (Z.land (q_pl q) 15) with (q_pl q mod 16) by (symmetry; by apply (Z.land_ones _ 4)).
  assert (q_pl q mod 16 < 16) as Hlt by (apply Z.mod_pos_bound; lia).
  assert (0 <= q_pl q mod 16 < 256) as Hr by (pose proof (Z.mod_pos_bound (q_pl q) 16); lia).
  pose proof (Zmod_odd (q_pci q)) as ->. pose proof (Zmod_odd (q_pvi q)) as ->.
  revert Hlt Hr. generalize (q_pl q mod 16). intros x Hlt Hr. revert Hlt.
  destruct (Z.odd (q_pci q)), (Z.odd (q_pvi q)); byte_decide x.
Qed.

Lemma qos_val_ok q v : qos_wf q → Some (qos_val q) = Some v → bytes_ok v ∧ mlen v <= 25.
Proof.
  intros Hw Hv. apply (inj Some) in Hv as <-. destruct (qos_flags_decode q) as [? _].
  unfold qos_wf, qos_val in *. split; [bytes_tac|mlia].
Qed.

Lemma gtp2_bearer_qos_put_eq HO w inst q : qos_wf q →
  @gtp2_bearer_qos_put HO (Some w) inst (Some q) =
    ('(w, rc) ← @gtp2_ie_put HO w GTP2_IE_BEARER_QOS inst (qos_val q) (mlen (qos_val q));
     Ok (Some w, rc)).
Proof.
  intros _. unfold gtp2_bearer_qos_put. fold (qos_flags q).
  rewrite wr_wrn, wrn_first by mlia. rewrite wr_wrn, wrn_next by mlia.
  rewrite be40_store_bytes, wrn_next by mlia. rewrite be40_store_bytes, wrn_next by mlia.
  rewrite be40_store_bytes, wrn_next by mlia. rewrite be40_store_bytes, wrn_next by mlia.
  rewrite gtp2_put_filled by mlia. by rewrite <-!app_assoc.
Qed.

Lemma gtp2_bearer_qos_decode_eq m ie q v : qos_wf q → Some (qos_val q) = Some v → bytes_ok m →
  0 <= ie_value ie → ie_value ie + ie_len ie <= mlen m → ie_len ie = mlen v →
  slice m (ie_value ie) (ie_len ie) = v →
  gtp2_bearer_qos_decode m (Some ie) true = Ok (qos_norm q).
Proof.
  intros Hw Hv Hm Hv0 Hend Hlen Hs. apply (inj Some) in Hv as <-.
  destruct (qos_flags_decode q) as (_ & Fpci & Fpl & Fpvi).
  assert (mlen (qos_val q) = 22) as Hl by (unfold qos_val; mlia).
  unfold gtp2_bearer_qos_decode, qos_norm. destruct (Z.ltb_spec (ie_len ie) 22); [lia|].
  assert (∀ i k, 0 <= i → 0 <= k → i + k <= ie_len ie →
    slice m (ie_value ie + i) k = slice (qos_val q) i k) as Hsl by (intros; by eapply view_slice).
  rewrite (rd_slice _ (ie_value ie) (qos_flags q))
    by (try lia; rewrite <-(Z.add_0_r (ie_value ie)), Hsl by lia; done). bstep.
  rewrite (rd_slice _ (ie_value ie + 1) (q_qci q)) by (try lia; rewrite Hsl by lia; done). bstep.
  rewrite !be40_load_val by (done || lia). bstep. rewrite !Hsl by lia. unfold qos_val. slice_at.
  rewrite !be_val_bytes, Fpci, Fpl, Fpvi. done.
Qed.

#[export] Instance qos_sub : SubIe gtp2_bearer_qos := {|
  sub_type := GTP2_IE_BEARER_QOS; sub_put := @gtp2_bearer_qos_put;
  sub_decode := gtp2_bearer_qos_decode; sub_val q := Some (qos_val q); sub_norm := qos_norm;
  sub_wf := qos_wf; sub_val_ok := qos_val_ok; sub_put_law := gtp2_bearer_qos_put_eq;
  sub_decode_law := gtp2_bearer_qos_decode_eq;
  sub_type_ok := ltac:(unfold GTP2_IE_BEARER_QOS; lia) |}.

(** *** AMBR *)

Definition ambr_val (a : gtp2_ambr) : list Z :=
  be_bytes 4 (am_ul_kbps a) ++ be_bytes 4 (am_dl_kbps a).
Definition ambr_wf (a : gtp2_ambr) : Prop :=
  0 <= am_ul_kbps a < 4294967296 ∧ 0 <= am_dl_kbps a < 4294967296.

Lemma ambr_val_ok a v : ambr_wf a → Some (ambr_val a) = Some v → bytes_ok v ∧ mlen v <= 25.
Proof. intros _ Hv. apply (inj Some) in Hv as <-. unfold ambr_val. split; [bytes_tac|mlia]. Qed.

Lemma gtp2_ambr_put_eq HO w inst a : ambr_wf a →
  @gtp2_ambr_put HO (Some w) inst (Some a) =
    ('(w, rc) ← @gtp2_ie_put HO w GTP2_IE_AMBR inst (ambr_val a) (mlen (ambr_val a)); Ok (Some w, rc)).
Proof.
  intros _. unfold gtp2_ambr_put. rewrite be32_store_bytes, wrn_first by mlia.
  rewrite be32_store_bytes, wrn_next by mlia. by rewrite gtp2_put_filled by mlia.
Qed.

Lemma gtp2_ambr_decode_eq m ie a v : ambr_wf a → Some (ambr_val a) = Some v → bytes_ok m →
  0 <= ie_value ie → ie_value ie + ie_len ie <= mlen m → ie_len ie = mlen v →
  slice m (ie_value ie) (ie_len ie) = v →
  gtp2_ambr_decode m (Some ie) true = Ok a.
Proof.
  intros [Hu Hd] Hv Hm Hv0 Hend Hlen Hs. apply (inj Some) in Hv as <-.
  assert (mlen (ambr_val a) = 8) as Hl by (unfold ambr_val; mlia).
  unfold gtp2_ambr_decode. destruct (Z.ltb_spec (ie_len ie) 8); [lia|].
  rewrite be32_load_val by (done || lia). bstep. rewrite be32_load_val by (done || lia). bstep.
  rewrite <-(Z.add_0_r (ie_value ie)) at 1.
  rewrite !(view_slice m _ _ _ _ _ Hs) by lia. unfold ambr_val. slice_at.
  rewrite !be_val_bytes, !Z.mod_small by (simpl Z.of_nat; lia). by destruct a.
Qed.

#[export] Instance ambr_sub : SubIe gtp2_ambr := {|
  sub_type := GTP2_IE_AMBR; sub_put := @gtp2_ambr_put; sub_decode := gtp2_ambr_decode;
  sub_val a := Some (ambr_val a); sub_norm a := a; sub_wf := ambr_wf;
  sub_val_ok := ambr_val_ok; sub_put_law := gtp2_ambr_put_eq;
  sub_decode_law := gtp2_ambr_decode_eq; sub_type_ok := ltac:(unfold GTP2_IE_AMBR; lia) |}.

(** *** PDN address allocation *)

Definition paa_val (p : gtp2_paa) : option (list Z) :=
  if pa_pdn_type p =? GTP2_PDN_IPV4 then Some ([1] ++ pa_addr4 p)
  else if pa_pdn_type p =? GTP2_PDN_IPV6 then Some ([2; pa_prefix_len p] ++ pa_addr6 p)
  else if pa_pdn_type p =? GTP2_PDN_IPV4V6
  then Some ([3; pa_prefix_len p] ++ pa_addr6 p ++ pa_addr4 p)
  else None.
Definition paa_norm (p : gtp2_paa) : gtp2_paa :=
  {| pa_pdn_type := pa_pdn_type p;
     pa_prefix_len := if pa_pdn_type p =? GTP2_PDN_IPV4 then 0 else pa_prefix_len p;
     pa_addr4 := if pa_pdn_type p =? GTP2_PDN_IPV6 then zeros 4 else pa_addr4 p;
     pa_addr6 := if pa_pdn_type p =? GTP2_PDN_IPV4 then zeros 16 else pa_addr6 p |}.
Definition paa_wf (p : gtp2_paa) : Prop :=
  0 <= pa_prefix_len p < 256 ∧ mlen (pa_addr4 p) = 4 ∧ bytes_ok (pa_addr4 p) ∧
  mlen (pa_addr6 p) = 16 ∧ bytes_ok (pa_addr6 p).

(** The three PDN types a value can have, the type replaced in a goal. *)
Lemma paa_cases p v : paa_val p = Some v →
  pa_pdn_type p = GTP2_PDN_IPV4 ∧ v = [1] ++ pa_addr4 p ∨
  pa_pdn_type p = GTP2_PDN_IPV6 ∧ v = [2; pa_prefix_len p] ++ pa_addr6 p ∨
  pa_pdn_type p = GTP2_PDN_IPV4V6 ∧ v = [3; pa_prefix_len p] ++ pa_addr6 p ++ pa_addr4 p.
Proof.
  unfold paa_val.
  destruct (Z.eqb_spec (pa_pdn_type p) GTP2_PDN_IPV4);
    [|destruct (Z.eqb_spec (pa_pdn_type p) GTP2_PDN_IPV6);
      [|destruct (Z.eqb_spec (pa_pdn_type p) GTP2_PDN_IPV4V6)]]; intros [= <-]; tauto.
Qed.

Lemma paa_val_ok p v : paa_wf p → paa_val p = Some v → bytes_ok v ∧ mlen v <= 25.
Proof.
  intros (? & H4 & ? & H6 & ?) Hv. apply paa_cases in Hv as [[_ ->]|[[_ ->]|[_ ->]]];
    (split; [bytes_tac|mlia]).
Qed.

Lemma gtp2_paa_put_eq HO w inst p : paa_wf p →
  @gtp2_paa_put HO (Some w) inst (Some p) =
    match paa_val p with
    | Some v => '(w, rc) ← @gtp2_ie_put HO w GTP2_IE_PAA inst v (mlen v); Ok (Some w, rc)
    | None => Ok (Some w, GTP2_E_INVAL)
    end.
Proof.
  intros (_ & H4 & _ & H6 & _). unfold gtp2_paa_put, paa_val.
  rewrite wr_wrn, wrn_first by mlia. rewrite !wr_wrn, !rdn_Ok by lia. bstep.
  rewrite !slice_full by lia.
  destruct (Z.eqb_spec (pa_pdn_type p) GTP2_PDN_IPV4) as [->|].
  { rewrite wrn_next by mlia. bstep. by rewrite gtp2_put_filled by mlia. }
  destruct (Z.eqb_spec (pa_pdn_type p) GTP2_PDN_IPV6) as [->|].
  { rewrite wrn_next, wrn_next by mlia. bstep. rewrite gtp2_put_filled by mlia. done. }
  destruct (Z.eqb_spec (pa_pdn_type p) GTP2_PDN_IPV4V6) as [->|]; [|done].
  rewrite wrn_next, wrn_next, wrn_next by mlia. bstep. rewrite gtp2_put_filled by mlia.
  by rewrite <-!app_assoc.
Qed.

Lemma gtp2_paa_decode_eq m ie p v : paa_wf p → paa_val p = Some v → bytes_ok m →
  0 <= ie_value ie → ie_value ie + ie_len ie <= mlen m → ie_len ie = mlen v →
  slice m (ie_value ie) (ie_len ie) = v →
  gtp2_paa_decode m (Some ie) true = Ok (paa_norm p).
Proof.
  intros (_ & H4 & _ & H6 & _) Hv Hm Hv0 Hend Hlen Hs. unfold gtp2_paa_decode, paa_norm.
  assert (∀ i k, 0 <= i → 0 <= k → i + k <= ie_len ie → slice m (ie_value ie + i) k = slice v i k) as Hsl
    by (intros; by eapply view_slice).
  apply paa_cases in Hv as [[-> Ev]|[[-> Ev]|[-> Ev]]].
  all: assert (mlen v = mlen v) as Hl by done; rewrite Ev in Hl at 2; revert Hl; mlen_simp; intros Hl;
    (destruct (Z.ltb_spec (ie_len ie) 1); [lia|]);
    erewrite (rd_slice _ (ie_value ie))
      by (try lia; rewrite <-(Z.add_0_r (ie_value ie)), Hsl, Ev by lia; done); bstep;
    change (u8 (Z.land 1 7)) with 1; change (u8 (Z.land 2 7)) with 2; change (u8 (Z.land 3 7)) with 3;
    cbn -[rdn rd slice mlen].
  - destruct (Z.ltb_spec (ie_len ie) 5); [lia|]. rewrite rdn_Ok by lia. bstep.
    rewrite Hsl, Ev by lia. slice_at. done.
  - destruct (Z.ltb_spec (ie_len ie) 18); [lia|].
    erewrite rd_slice by (try lia; rewrite Hsl, Ev by lia; done). bstep. rewrite rdn_Ok by lia. bstep.
    rewrite Hsl, Ev by lia. slice_at. done.
  - destruct (Z.ltb_spec (ie_len ie) 22); [lia|].
    erewrite rd_slice by (try lia; rewrite Hsl, Ev by lia; done). bstep. rewrite !rdn_Ok by lia. bstep.
    rewrite !Hsl, Ev by lia. slice_at. done.
Qed.

#[export] Instance paa_sub : SubIe gtp2_paa := {|
  sub_type := GTP2_IE_PAA; sub_put := @gtp2_paa_put; sub_decode := gtp2_paa_decode;
  sub_val := paa_val; sub_norm := paa_norm; sub_wf := paa_wf;
  sub_val_ok := paa_val_ok; sub_put_law := gtp2_paa_put_eq;
  sub_decode_law := gtp2_paa_decode_eq; sub_type_ok := ltac:(unfold GTP2_IE_PAA; lia) |}.

(** A typed element (F-TEID, Bearer QoS, PAA, AMBR) that has a wire form round
    trips: the put appends one element, the element iterator started where it was
    written yields a view of the right type and four-bit instance, and decoding
    that view gives the structure back with its fields cut to their wire width
    and the absent addresses zeroed; a structure without a wire form is refused
    with GTP2_E_INVAL and nothing is written. *)
Theorem gtp2_subie_roundtrip `{HO : HostOrder} {T} `{SubIe T} w inst (x : T) :
  wbuf_wf w → bytes_ok (written w) → sub_wf x → roomb w 29 = true →
  match sub_val x with
  | None => sub_put HO (Some w) inst (Some x) = Ok (Some w, GTP2_E_INVAL)
  | Some v => ∃ w' view it',
      sub_put HO (Some w) inst (Some x) = Ok (Some w', GTP2_OK) ∧
      gtp2_ie_iter_next (written w') (gtp2_ie_iter_init (w_off w) (w_off w' - w_off w)) =
        Ok (Some (view, it')) ∧
      ie_type view = sub_type ∧ ie_instance view = inst mod 16 ∧
      it_cur it' = w_off w' ∧ sub_decode (written w') (Some view) true = Ok (sub_norm x)
  end.
Proof.
  intros Hw Hwok Hx Hroom. rewrite sub_put_law by done.
  destruct (sub_val x) as [v|] eqn:Ev; [|done].
  destruct (sub_val_ok x v Hx Ev) as [Hvok Hvl]. pose proof (mlen_nonneg v).
  pose proof sub_type_ok as Hty. pose proof (Z.mod_pos_bound inst 16 ltac:(lia)) as Hi.
  unfold gtp2_ie_put. rewrite inst_mask, tlv_put_eq by (exact _ || done || lia).
  assert (len_fits TLV_PROF_GTP2C (mlen v) = true) as Hfit
    by (unfold len_fits, len_field; simpl; lia).
  set (e := tlv_entry TLV_PROF_GTP2C sub_type (inst mod 16) v).
  assert (mlen e = 4 + mlen v) as Hel by (unfold e; rewrite mlen_tlv_entry by exact _; unfold pad_len; simpl; lia).
  rewrite Hfit. assert (roomb w (mlen e) = true) as Hr by (eapply roomb_le; [|done]; lia).
  rewrite Hr. bstep.
  destruct (append_emits w e Hw Hr) as (Hw' & _ & _ & Hwr).
  assert (w_off (append w e) = w_off w + mlen e) as Hoff by done.
  set (w' := append w e) in *. clearbody w'.
  assert (bytes_ok e) as Heok.
  { apply tlv_entry_ok; [exact _| |done]. unfold node_ok. simpl. split_and!; done || lia. }
  assert (bytes_ok (written w')) as Hok' by (rewrite Hwr; by apply bytes_ok_app).
  pose proof (mlen_written w' Hw') as Hml. pose proof (mlen_written w Hw) as Hml0.
  pose proof Hw' as [? [? ?]]. pose proof Hw as [? _].
  assert (slice (written w') (w_off w) (mlen e) = e) as Hse
    by (rewrite Hwr, slice_app_ge, slice_whole by lia; done).
  eexists w', _, _. split; [done|]. unfold gtp2_ie_iter_next, gtp2_ie_iter_init.
  rewrite (iter_next_entry TLV_PROF_GTP2C _ _ sub_type (inst mod 16) v []).
  - bstep. split; [done|]. simpl. rewrite inst_mask, !u8_small, u16_small, Z.mod_mod by lia.
    split_and!; [done|done|fold e; lia|].
    apply (sub_decode_law _ _ _ v); simpl; try done; try lia.
    rewrite (view_slice _ _ _ _ 4 (mlen v) Hse) by lia. unfold e, tlv_entry.
    pose proof (mlen_tlv_hdr TLV_PROF_GTP2C sub_type (len_field TLV_PROF_GTP2C (mlen v)) (inst mod 16))
      as Hh. simpl in Hh.
    rewrite slice_app_ge, Hh, slice_app_l, slice_whole by lia. done.
  - unfold iter_wf; simpl. split_and!; done || lia.
  - simpl. rewrite app_nil_r. etransitivity; [|exact Hse]. f_equal. lia.
  - done.
  - done.
Qed.

Definition ex_fteid : gtp2_fteid :=
  {| f_v4 := true; f_v6 := false; f_if_type := 10; f_teid := 305419896;
     f_addr4 := [10; 0; 0; 1]; f_addr6 := zeros 16 |}.

Lemma gtp2_subie_roundtrip_witness :
  let w := gtp2_wbuf_init (zeros 40) 40 in
  ∃ w' view it',
    @gtp2_fteid_put false (Some w) 2 (Some ex_fteid) = Ok (Some w', GTP2_OK) ∧
    @gtp2_ie_iter_next false (written w') (gtp2_ie_iter_init 0 (w_off w')) = Ok (Some (view, it')) ∧
    ie_type view = GTP2_IE_FTEID ∧ ie_instance view = 2 ∧
    gtp2_fteid_decode (written w') (Some view) true = Ok ex_fteid.
Proof.
  assert (fteid_wf ex_fteid) as Hx.
  { unfold fteid_wf, ex_fteid; simpl.
    split_and!; try lia; try done; [bytes_tac|apply bytes_ok_zeros]. }
  destruct (@gtp2_subie_roundtrip false gtp2_fteid _ (gtp2_wbuf_init (zeros 40) 40) 2 ex_fteid)
    as (w' & view & it' & H1 & H2 & H3 & H4 & _ & H6);
    [by vm_compute|apply bytes_ok_nil|exact Hx|done|].
  exists w', view, it'. split_and!; [exact H1| |exact H3|exact H4|exact H6].
  rewrite <-H2. f_equal. f_equal. simpl. lia.
Defined.

(** Decoding a header from any buffer is total and memory-safe and reports
    exactly what is wrong: GTP2_E_SHORT when the octets do not hold the header
    its T flag announces, GTP2_E_VERSION when the version is not 2,
    GTP2_E_LENGTH otherwise; a decoded header lies within the message, the
    message within the buffer, and every field within its width. *)
Theorem gtp2_hdr_decode_total m len :
  bytes_ok m → 0 <= len <= mlen m →
  let teid_flag := flag (get m 0) 8 in
  match gtp2_hdr_decode (Some m) len true with
  | Ok (h, n) =>
      n = (if teid_flag then 12 else 8) ∧ n <= h_length h + 4 <= len ∧ hdr_ok h ∧
      h_has_teid h = teid_flag ∧ hdr_norm h = h
  | Err rc =>
      rc = GTP2_E_SHORT ∧ (len < 8 ∨ get m 0 / 32 = 2 ∧ teid_flag = true ∧ len < 12) ∨
      rc = GTP2_E_VERSION ∧ get m 0 / 32 ≠ 2 ∨
      rc = GTP2_E_LENGTH ∧
        (len < be_val (slice m 2 2) + 4 ∨
         be_val (slice m 2 2) + 4 < (if teid_flag then 12 else 8))
  | Ub => False
  end.
Proof.
  intros Hm Hl. cbn zeta. unfold gtp2_hdr_decode, GTP2_HDR_FIXED_LEN, GTP2_HDR_WITH_TEID.
  destruct (Z.ltb_spec len 8); [left; split; [done|lia]|].
  pose proof (get_range m 0 Hm) as Hf. pose proof (get_range m 1 Hm) as Hmt.
  rewrite (rd_Ok m 0) by lia. bstep. rewrite (rd_Ok m 1) by lia. bstep.
  rewrite be16_load_val by (done || lia). bstep.
  assert (u8 (Z.land (Z.shiftr (get m 0) 5) 7) = get m 0 / 32) as ->.
  { revert Hf. generalize (get m 0). intros b Hb. byte_decide b. }
  set (teid_flag := flag (get m 0) 8). set (L := be_val (slice m 2 2)).
  assert (0 <= L < 65536) as HL.
  { pose proof (be_val_range (slice m 2 2) ltac:(auto with cmem)) as Hr.
    fold (mlen (slice m 2 2)) in Hr. rewrite mlen_slice in Hr by lia. exact Hr. }
  destruct (Z.eqb_spec (get m 0 / 32) GTP2_VERSION) as [Ev|Ev]; cbn [negb];
    [|right; left; split; [done|exact Ev]].
  rewrite Ev. set (n := if teid_flag then 12 else 8).
  destruct (Z.ltb_spec len n).
  { left. split; [done|]. right. unfold n in *. destruct teid_flag; [split_and!; done || lia|lia]. }
  destruct (Z.ltb_spec len (L + 4)); [right; right; split; [done|by left]|].
  destruct (Z.ltb_spec (L + 4) n); [right; right; split; [done|by right]|].
  assert (∀ i k, 0 <= i → 0 <= k → i + k <= mlen m → 0 <= be_val (slice m i k) < 256 ^ k) as Hrng.
  { intros i k ???. pose proof (be_val_range (slice m i k) ltac:(auto with cmem)) as Hr.
    fold (mlen (slice m i k)) in Hr. by rewrite mlen_slice in Hr by lia. }
  set (p := if teid_flag then 8 else 4).
  assert (8 <= n ∧ p + 4 <= n ∧ 4 <= p) as (Hn8 & Hpn & Hp4) by (unfold n, p; destruct teid_flag; lia).
  assert (∃ t, (if teid_flag then be32_load m 4 else Ok 0) = Ok t ∧ 0 <= t < 4294967296 ∧
    (if teid_flag then t else 0) = t) as (t & -> & Ht & Htn).
  { unfold n in *. destruct teid_flag; [|by eexists].
    rewrite be32_load_val by (done || lia). eexists. split; [done|]. split; [apply (Hrng 4 4); lia|done]. }
  bstep. rewrite be24_load_val by (done || lia). bstep.
  assert (∃ q, (if flag (get m 0) 4 then b ← rd m (p + 3); Ok (u8 (Z.land (Z.shiftr b 4) 15)) else Ok 0)
    = Ok q ∧ (if flag (get m 0) 4 then q mod 16 else 0) = q) as (q & -> & Hq).
  { destruct (flag (get m 0) 4); [|by eexists]. rewrite rd_Ok by lia. bstep. eexists. split; [done|].
    pose proof (get_range m (p + 3) Hm) as Hg. revert Hg. generalize (get m (p + 3)). intros b Hb.
    byte_decide b. }
  bstep. unfold hdr_norm, hdr_ok; simpl.
  split_and!; try done; try lia.
  rewrite Htn, Hq, Z.mod_small by (apply (Hrng p 3); lia). done.
Qed.

Lemma gtp2_hdr_decode_total_witness :
  ∃ h n, gtp2_hdr_decode (Some [64; 1; 0; 4; 0; 0; 7; 0]) 8 true = Ok (h, n) ∧
    n = 8 ∧ n <= h_length h + 4 <= 8 ∧ hdr_norm h = h.
Proof.
  assert (bytes_ok [64; 1; 0; 4; 0; 0; 7; 0]) as Hok by bytes_tac.
  pose proof (gtp2_hdr_decode_total [64; 1; 0; 4; 0; 0; 7; 0] 8 Hok ltac:(by vm_compute)) as H.
  destruct (gtp2_hdr_decode (Some [64; 1; 0; 4; 0; 0; 7; 0]) 8 true) as [[h n]|rc|] eqn:E;
    [|vm_compute in E; done..].
  destruct H as (H1 & H2 & _ & _ & H3). exists h, n. done.
Defined.

Lemma gtp2_message_roundtrip_witness :
  let h := {| h_version := 2; h_piggyback := false; h_has_teid := true; h_has_mp := false;
              h_message_type := 32; h_length := 0; h_teid := 5; h_sequence := 1; h_priority := 0 |} in
  let ts := [Leaf 3 0 [7]; Group 93 1 [Leaf 73 0 [5]]] in
  ∃ w, @gtp2_message_write false (zeros 64) h ts = Ok (w, GTP2_OK) ∧ w_off w = 26 ∧
    @gtp2_message_read false (λ t, t =? 93) (written w) = Ok (hdr_norm (set_length h 22), ts).
Proof.
  cbn zeta. set (h := {| h_version := 2 |}). set (ts := [Leaf 3 0 [7]; Group 93 1 [Leaf 73 0 [5]]]).
  destruct (@gtp2_message_roundtrip false (λ t, t =? 93) h ts (zeros 64)) as (w & H1 & H2 & H3).
  - unfold hdr_ok; simpl. lia.
  - unfold ts. repeat apply Forall_cons_2; [..|apply Forall_nil_2]; simpl; unfold node_ok; simpl;
      split_and!; try lia; try done; bytes_tac.
  - unfold ts. repeat apply Forall_cons_2; [..|apply Forall_nil_2]; simpl; lia.
  - by vm_compute.
  - by vm_compute.
  - exists w. assert (w_off w = 26) as Hw by (rewrite H2; by vm_compute). rewrite Hw in H3.
    split_and!; [exact H1|exact Hw|exact H3].
Defined.
