(* ===== verification/Gtp1.v ===== *)
(** * Gtp1: the GTPv1-C codec

    Models [gtp/v1/src/gtp1.c]: the header with its optional octets and
    extension-header chain, the iterator over the mixed TV/TLV elements and the
    writers.  The TV length table is the caller's: a list of 128 lengths. *)

From S2P Require Import Prelude Endian Tlv.

Module Gtp1.

Definition GTP1_VERSION : Z := 1.
Definition GTP1_HDR_MIN : Z := 8.
Definition GTP1_HDR_CTRL : Z := 12.
Definition GTP1_TLV_HDR_LEN : Z := 3.

Definition GTP1_OK : Z := 0.
Definition GTP1_E_SHORT : Z := -1.
Definition GTP1_E_VERSION : Z := -2.
Definition GTP1_E_LENGTH : Z := -3.
Definition GTP1_E_OVERFLOW : Z := -4.
Definition GTP1_E_INVAL : Z := -5.

Definition FLAG_PN : Z := 1.
Definition FLAG_S : Z := 2.
Definition FLAG_E : Z := 4.
Definition FLAG_PT : Z := 16.

Record gtp1_hdr := Gtp1Hdr {
  version : Z; pt : bool; e : bool; s : bool; pn : bool; message_type : Z; length : Z;
  teid : Z; sequence : Z; npdu : Z; next_ext : Z }.

Record gtp1_ie_view := Gtp1IeView { type : Z; len : Z; value : Z }.

Record gtp1_ie_iter := Gtp1IeIter { cur : Z; fin : Z; tvlen : option (list Z) }.

Definition set (x mask : Z) : bool := negb (Z.land x mask =? 0).

(** ** Header *)

(** The extension-header loop: [len(1) | content | next(1)], lengths in units of
    four octets.  One unit of fuel per header. *)
Fixpoint ext_loop (fuel : nat) (buf : mem) (total off next : Z) : res Z :=
  match fuel with
  | O => Ub
  | S fuel =>
      if next =? 0 then Ok off else
      if total <=? off then Err GTP1_E_LENGTH else
      l ← rd buf off;
      let n := l * 4 in
      if (n =? 0) || (total <? off + n) then Err GTP1_E_LENGTH else
      next ← rd buf (off + n - 1);
      ext_loop fuel buf total (off + n) next
  end.

Definition gtp1_hdr_decode (buf : option mem) (len : Z) (out : bool) : res (gtp1_hdr * Z) :=
  match buf, out with
  | Some buf, true =>
      if len <? GTP1_HDR_MIN then Err GTP1_E_SHORT else
      flags ← rd buf 0;
      let version := u8 (Z.shiftr flags 5) in
      if negb (version =? GTP1_VERSION) then Err GTP1_E_VERSION else
      let pt := set flags FLAG_PT in
      if negb pt then Err GTP1_E_VERSION else
      let e := set flags FLAG_E in
      let s := set flags FLAG_S in
      let pn := set flags FLAG_PN in
      message_type ← rd buf 1;
      length ← be16_load buf 2;
      teid ← be32_load buf 4;
      let total := GTP1_HDR_MIN + length in
      if len <? total then Err GTP1_E_LENGTH else
      if e || s || pn then
        if total <? GTP1_HDR_CTRL then Err GTP1_E_LENGTH else
        sequence ← (if s then be16_load buf 8 else Ok 0);
        npdu ← (if pn then rd buf 10 else Ok 0);
        next ← (if e then rd buf 11 else Ok 0);
        off ← ext_loop (S (Z.to_nat total)) buf total GTP1_HDR_CTRL next;
        Ok ({| version := version; pt := pt; e := e; s := s; pn := pn;
               message_type := message_type; length := length; teid := teid;
               sequence := sequence; npdu := npdu; next_ext := next |}, i32 off)
      else
        Ok ({| version := version; pt := pt; e := e; s := s; pn := pn;
               message_type := message_type; length := length; teid := teid;
               sequence := 0; npdu := 0; next_ext := 0 |}, GTP1_HDR_MIN)
  | _, _ => Err GTP1_E_INVAL
  end.

Definition gtp1_hdr_encode (buf : option mem) (cap : Z) (hdr : option gtp1_hdr) :
    res (option mem * Z) :=
  match buf, hdr with
  | Some b, Some hdr =>
      if cap <? GTP1_HDR_CTRL then Ok (buf, GTP1_E_OVERFLOW) else
      b ← wr b 0 (u8 (Z.lor (Z.lor (Z.shiftl GTP1_VERSION 5) FLAG_PT) FLAG_S));
      b ← wr b 1 (message_type hdr);
      b ← be16_store b 2 (length hdr);
      b ← be32_store b 4 (teid hdr);
      b ← be16_store b 8 (sequence hdr);
      b ← wr b 10 0;
      b ← wr b 11 0;
      Ok (Some b, GTP1_HDR_CTRL)
  | _, _ => Ok (buf, GTP1_E_INVAL)
  end.

Definition gtp1_hdr_finalize (w : option tlv_wbuf) (hdr_off : Z) : res (option tlv_wbuf * Z) :=
  match w with
  | None => Ok (None, GTP1_E_INVAL)
  | Some w' =>
      if w_overflow w' then Ok (w, GTP1_E_OVERFLOW) else
      if w_off w' <? u64 (hdr_off + GTP1_HDR_MIN) then Ok (w, GTP1_E_INVAL) else
      let payload := u64 (w_off w' - hdr_off - GTP1_HDR_MIN) in
      if UINT16_MAX <? payload then Ok (w, GTP1_E_OVERFLOW) else
      b ← be16_store (w_buf w') (hdr_off + 2) (u16 payload);
      Ok (Some (set_buf w' b (w_off w')), GTP1_OK)
  end.

(** ** Elements *)

Definition gtp1_ie_iter_init (payload len : Z) (tvlen : option (list Z)) : gtp1_ie_iter :=
  {| cur := payload; fin := payload + len; tvlen := tvlen |}.

(** [None] is the [false] return. *)
Definition gtp1_ie_iter_next (m : mem) (it : gtp1_ie_iter) :
    res (option (gtp1_ie_view * gtp1_ie_iter)) :=
  let avail := u64 (fin it - cur it) in
  if avail <? 1 then Ok None else
  ty ← rd m (cur it);
  if ty <? 128 then
    vlen ← match tvlen it with Some t => rd t ty | None => Ok 0 end;
    if (vlen =? 0) || (avail <? 1 + vlen) then Ok None else
    Ok (Some ({| type := ty; len := vlen; value := cur it + 1 |},
              {| cur := cur it + (1 + vlen); fin := fin it; tvlen := tvlen it |}))
  else
    if avail <? GTP1_TLV_HDR_LEN then Ok None else
    vlen ← be16_load m (cur it + 1);
    if u64 (avail - GTP1_TLV_HDR_LEN) <? vlen then Ok None else
    Ok (Some ({| type := ty; len := vlen; value := cur it + GTP1_TLV_HDR_LEN |},
              {| cur := cur it + (GTP1_TLV_HDR_LEN + vlen); fin := fin it; tvlen := tvlen it |})).

Definition gtp1_wbuf_init (buf : mem) (cap : Z) : tlv_wbuf := tlv_wbuf_init buf cap.

(** [memcpy(dst, val, vlen)]; copying no octets from NULL does nothing. *)
Definition copy_val (b : mem) (p : Z) (val : option mem) (vlen : Z) : res mem :=
  match val with
  | Some val => bs ← rdn val 0 vlen; wrn b p bs
  | None => if vlen =? 0 then Ok b else Ub
  end.

Definition gtp1_ie_put_tv (w : option tlv_wbuf) (ty : Z) (val : option mem) (vlen : Z) :
    res (option tlv_wbuf * Z) :=
  match w with
  | None => Ok (None, GTP1_E_INVAL)
  | Some w' =>
      if negb (bool_decide (is_Some val)) && negb (vlen =? 0) then Ok (w, GTP1_E_INVAL) else
      let '(w', rc) := tlv_wbuf_reserve w' (1 + vlen) in
      if negb (rc =? 0) then Ok (Some w', GTP1_E_OVERFLOW) else
      let q := w_off w' in
      b ← wr (w_buf w') q ty;
      b ← copy_val b (q + 1) val vlen;
      Ok (Some (set_buf w' b (u64 (w_off w' + (1 + vlen)))), GTP1_OK)
  end.

Definition gtp1_ie_put_tlv (w : option tlv_wbuf) (ty : Z) (val : option mem) (vlen : Z) :
    res (option tlv_wbuf * Z) :=
  match w with
  | None => Ok (None, GTP1_E_INVAL)
  | Some w' =>
      if negb (bool_decide (is_Some val)) && negb (vlen =? 0) then Ok (w, GTP1_E_INVAL) else
      let '(w', rc) := tlv_wbuf_reserve w' (GTP1_TLV_HDR_LEN + vlen) in
      if negb (rc =? 0) then Ok (Some w', GTP1_E_OVERFLOW) else
      let q := w_off w' in
      b ← wr (w_buf w') q ty;
      b ← be16_store b (q + 1) vlen;
      b ← copy_val b (q + GTP1_TLV_HDR_LEN) val vlen;
      Ok (Some (set_buf w' b (u64 (w_off w' + (GTP1_TLV_HDR_LEN + vlen)))), GTP1_OK)
  end.

Definition gtp1_ie_put_tv_u8 (w : option tlv_wbuf) (ty v : Z) : res (option tlv_wbuf * Z) :=
  gtp1_ie_put_tv w ty (Some [v]) 1.
Definition gtp1_ie_put_tv_u16 (w : option tlv_wbuf) (ty v : Z) : res (option tlv_wbuf * Z) :=
  b ← be16_store (uninit 2) 0 v; gtp1_ie_put_tv w ty (Some b) 2.
Definition gtp1_ie_put_tv_u32 (w : option tlv_wbuf) (ty v : Z) : res (option tlv_wbuf * Z) :=
  b ← be32_store (uninit 4) 0 v; gtp1_ie_put_tv w ty (Some b) 4.
Definition gtp1_ie_put_tlv_u8 (w : option tlv_wbuf) (ty v : Z) : res (option tlv_wbuf * Z) :=
  gtp1_ie_put_tlv w ty (Some [v]) 1.
Definition gtp1_ie_put_tlv_u16 (w : option tlv_wbuf) (ty v : Z) : res (option tlv_wbuf * Z) :=
  b ← be16_store (uninit 2) 0 v; gtp1_ie_put_tlv w ty (Some b) 2.
Definition gtp1_ie_put_tlv_u32 (w : option tlv_wbuf) (ty v : Z) : res (option tlv_wbuf * Z) :=
  b ← be32_store (uninit 4) 0 v; gtp1_ie_put_tlv w ty (Some b) 4.

(** ** The header's properties *)

Lemma be_slice_range m i k : bytes_ok m → 0 <= i → 0 <= k → i + k <= mlen m →
  0 <= be_val (slice m i k) < 256 ^ k.
Proof.
  intros. pose proof (be_val_range (slice m i k) ltac:(auto with cmem)) as Hr.
  fold (mlen (slice m i k)) in Hr. by rewrite mlen_slice in Hr by lia.
Qed.

(** The chain ends: each header advances the offset by at least four. *)
Lemma ext_loop_total fuel : ∀ buf total off next,
  bytes_ok buf → 0 <= off <= total → total <= mlen buf → (Z.to_nat (total - off) < fuel)%nat →
  match ext_loop fuel buf total off next with
  | Ok off' => off <= off' <= total
  | Err rc => rc = GTP1_E_LENGTH ∧ next ≠ 0
  | Ub => False
  end.
Proof.
  induction fuel as [|fuel IH]; intros buf total off next Hok Ho Ht Hf; [lia|]. cbn [ext_loop].
  destruct (Z.eqb_spec next 0); [lia|]. destruct (Z.leb_spec total off); [done|].
  pose proof (get_range buf off Hok). rewrite rd_Ok by lia. bstep.
  destruct (Z.eqb_spec (get buf off * 4) 0), (Z.ltb_spec total (off + get buf off * 4));
    cbn [orb]; try done.
  rewrite rd_Ok by lia. bstep.
  specialize (IH buf total (off + get buf off * 4) (get buf (off + get buf off * 4 - 1))
    Hok ltac:(lia) Ht ltac:(lia)).
  destruct (ext_loop fuel _ _ _ _); [lia|naive_solver|done].
Qed.

(** C30: decoding a GTPv1-C header from any buffer is total and memory-safe, the
    walk over the extension headers ends, the offset of the elements lies within
    the message and the message within the buffer, and an error names its cause:
    too short, not GTP version 1 (or GTP'), or inconsistent lengths. *)
Theorem gtp1_hdr_decode_total m n :
  bytes_ok m → 0 <= n <= mlen m →
  match gtp1_hdr_decode (Some m) n true with
  | Ok (h, off) =>
      version h = 1 ∧ pt h = true ∧
      (if e h || s h || pn h then 12 else 8) <= off <= 8 + length h ∧ 8 + length h <= n ∧
      (s h = false → sequence h = 0) ∧ (pn h = false → npdu h = 0) ∧
      (e h = false → next_ext h = 0 ∧ off <= 12)
  | Err rc =>
      rc = GTP1_E_SHORT ∧ n < 8 ∨
      rc = GTP1_E_VERSION ∧ get m 0 / 16 ≠ 3 ∨
      rc = GTP1_E_LENGTH ∧
        (n < 8 + be_val (slice m 2 2) ∨
         set (get m 0) 7 = true ∧ (8 + be_val (slice m 2 2) < 12 ∨ set (get m 0) FLAG_E = true))
  | Ub => False
  end.
Proof.
  intros Hm Hl. unfold gtp1_hdr_decode, GTP1_HDR_MIN, GTP1_HDR_CTRL.
  destruct (Z.ltb_spec n 8); [by left|].
  pose proof (get_range m 0 Hm) as Hf.
  rewrite (rd_Ok m 0) by lia. bstep.
  assert (u8 (Z.shiftr (get m 0) 5) = get m 0 / 32) as ->
    by (revert Hf; generalize (get m 0); intros b Hb; byte_decide b).
  assert (get m 0 / 16 = 3 ↔ get m 0 / 32 = 1 ∧ set (get m 0) FLAG_PT = true) as H3
    by (revert Hf; generalize (get m 0); intros b Hb; byte_decide b).
  assert (set (get m 0) FLAG_E || set (get m 0) FLAG_S || set (get m 0) FLAG_PN = set (get m 0) 7) as H7
    by (revert Hf; generalize (get m 0); intros b Hb; byte_decide b).
  destruct (Z.eqb_spec (get m 0 / 32) GTP1_VERSION) as [Ev|Ev]; cbn [negb].
  2: { right; left. split; [done|]. rewrite H3. intros [? _]. by apply Ev. }
  destruct (set (get m 0) FLAG_PT) eqn:Ept; cbn [negb].
  2: { right; left. split; [done|]. rewrite H3. by intros [_ ?]. }
  rewrite (rd_Ok m 1) by lia. bstep. rewrite (be16_load_val m Hm 2) by lia. bstep.
  rewrite be32_load_val by (done || lia). bstep.
  pose proof (be_slice_range m 2 2 Hm ltac:(lia) ltac:(lia) ltac:(lia)) as HL.
  set (L := be_val (slice m 2 2)) in *. change (256 ^ 2) with 65536 in HL.
  destruct (Z.ltb_spec n (8 + L)); [right; right; split; [done|by left]|].
  rewrite H7. destruct (set (get m 0) 7) eqn:E7.
  2: { simpl. apply orb_false_iff in H7 as [H7 Hpn]. apply orb_false_iff in H7 as [He Hs].
       rewrite He, Hs, Hpn. split_and!; done || lia. }
  destruct (Z.ltb_spec (8 + L) 12); [right; right; split; [done|right; split; [done|by left]]|].
  assert (∃ q, (if set (get m 0) FLAG_S then be16_load m 8 else Ok 0) = Ok q ∧
    (set (get m 0) FLAG_S = false → q = 0)) as (q & -> & Hq).
  { destruct (set (get m 0) FLAG_S); [|by eexists]. rewrite be16_load_val by (done || lia). by eexists. }
  assert (∃ d, (if set (get m 0) FLAG_PN then rd m 10 else Ok 0) = Ok d ∧
    (set (get m 0) FLAG_PN = false → d = 0)) as (d & -> & Hd).
  { destruct (set (get m 0) FLAG_PN); [|by eexists]. rewrite rd_Ok by lia. by eexists. }
  assert (∃ x, (if set (get m 0) FLAG_E then rd m 11 else Ok 0) = Ok x ∧
    (set (get m 0) FLAG_E = false → x = 0)) as (x & -> & Hx).
  { destruct (set (get m 0) FLAG_E); [|by eexists]. rewrite rd_Ok by lia. by eexists. }
  bstep. pose proof (ext_loop_total (S (Z.to_nat (8 + L))) m (8 + L) 12 x Hm ltac:(lia) ltac:(lia)
    ltac:(lia)) as Hext.
  destruct (ext_loop _ _ _ _ _) as [off|rc|] eqn:Ee; bstep.
  - simpl. rewrite H7, i32_small by lia. split_and!; try done; try lia.
    intros He. split; [auto|]. rewrite (Hx He) in Ee. cbn [ext_loop Z.eqb] in Ee.
    injection Ee as <-. lia.
  - destruct Hext as [-> Hxn]. right; right. split; [done|]. right. split; [done|]. right.
    destruct (set (get m 0) FLAG_E); [done|]. by destruct Hxn, Hx.
  - done.
Qed.

Lemma gtp1_hdr_decode_total_witness :
  ∃ h off, gtp1_hdr_decode (Some [54; 16; 0; 8; 0; 0; 0; 1; 0; 9; 0; 192; 1; 0; 0; 0]) 16 true =
      Ok (h, off) ∧ 12 <= off <= 8 + length h ∧ 8 + length h <= 16.
Proof.
  assert (bytes_ok [54; 16; 0; 8; 0; 0; 0; 1; 0; 9; 0; 192; 1; 0; 0; 0]) as Hok by bytes_tac.
  pose proof (gtp1_hdr_decode_total _ 16 Hok ltac:(by vm_compute)) as H.
  destruct (gtp1_hdr_decode _ 16 true) as [[h off]|rc|] eqn:E; [|vm_compute in E; done..].
  destruct H as (_ & _ & H2 & H3 & _). vm_compute in E. injection E as <- <-. eauto.
Defined.

(** ** Whole messages *)

(** An element, TV below type 128 and TLV from there on. *)
Record elem := Elem { el_type : Z; el_val : list Z }.

Definition elem_bytes (x : elem) : list Z :=
  if el_type x <? 128 then [el_type x] ++ el_val x
  else ([el_type x] ++ be_bytes 2 (mlen (el_val x))) ++ el_val x.
Definition elems_bytes (xs : list elem) : list Z := concat (map elem_bytes xs).

Definition elem_put (w : option tlv_wbuf) (x : elem) : res (option tlv_wbuf * Z) :=
  if el_type x <? 128 then gtp1_ie_put_tv w (el_type x) (Some (el_val x)) (mlen (el_val x))
  else gtp1_ie_put_tlv w (el_type x) (Some (el_val x)) (mlen (el_val x)).

Fixpoint elems_put (w : option tlv_wbuf) (xs : list elem) : res (option tlv_wbuf * Z) :=
  match xs with
  | [] => Ok (w, GTP1_OK)
  | x :: xs => '(w, rc) ← elem_put w x; if negb (rc =? 0) then Ok (w, rc) else elems_put w xs
  end.

Fixpoint elems_read (fuel : nat) (m : mem) (it : gtp1_ie_iter) : res (list elem) :=
  match fuel with
  | O => Ub
  | S fuel =>
      r ← gtp1_ie_iter_next m it;
      match r with
      | None => Ok []
      | Some (v, it) =>
          val ← rdn m (value v) (len v);
          xs ← elems_read fuel m it; Ok ({| el_type := type v; el_val := val |} :: xs)
      end
  end.

Definition gtp1_message_write (buf : mem) (h : gtp1_hdr) (xs : list elem) :
    res (option tlv_wbuf * Z) :=
  let w := gtp1_wbuf_init buf (mlen buf) in
  '(b, n) ← gtp1_hdr_encode (Some (w_buf w)) (w_cap w) (Some h);
  if n <? 0 then Ok (Some w, n) else
  '(w, rc) ← elems_put (Some (set_buf w (default [] b) n)) xs;
  if negb (rc =? 0) then Ok (w, rc) else gtp1_hdr_finalize w 0.

Definition gtp1_message_read (tbl : list Z) (m : mem) : res (gtp1_hdr * list elem) :=
  '(h, off) ← gtp1_hdr_decode (Some m) (mlen m) true;
  xs ← elems_read (S (List.length m)) m
         (gtp1_ie_iter_init off (GTP1_HDR_MIN + length h - off) (Some tbl));
  Ok (h, xs).

(** An element is writable as it is readable: its octets are octets, its length
    fits, and a TV element has the length the table knows. *)
Definition elem_ok (tbl : list Z) (x : elem) : Prop :=
  0 <= el_type x < 256 ∧ bytes_ok (el_val x) ∧ mlen (el_val x) < 65536 ∧
  (el_type x < 128 → 0 < mlen (el_val x) ∧ rd tbl (el_type x) = Ok (mlen (el_val x))).

Lemma elem_put_eq w x :
  wbuf_wf w → mlen (el_val x) < 65536 →
  elem_put (Some w) x =
    Ok (if roomb w (mlen (elem_bytes x)) then (Some (append w (elem_bytes x)), GTP1_OK)
        else (Some (set_overflow w), GTP1_E_OVERFLOW)).
Proof.
  intros Hw Hl. pose proof (mlen_nonneg (el_val x)). pose proof Hw as [Ho Hc]. unfold OBJ_MAX in *.
  unfold elem_put, elem_bytes, gtp1_ie_put_tv, gtp1_ie_put_tlv, GTP1_TLV_HDR_LEN, copy_val.
  rewrite bool_decide_true by done. cbn [negb andb]. destruct (Z.ltb_spec (el_type x) 128).
  - rewrite reserve_spec by done. replace (1 + mlen (el_val x)) with (mlen ([el_type x] ++ el_val x)) by mlia.
    destruct (roomb w _) eqn:Hr; [|done]. cbn [negb Z.eqb TLV_OK].
    unfold roomb in Hr. apply andb_true_iff in Hr as [_ Hr%Z.leb_le]. revert Hr; mlen_simp; intros Hr.
    rewrite wr_wrn, wrn_first by mlia. rewrite rdn_Ok, slice_full by lia. bstep.
    rewrite wrn_next by mlia. rewrite u64_small by lia. unfold append. do 5 f_equal. mlia.
  - rewrite reserve_spec by done.
    replace (3 + mlen (el_val x)) with (mlen (([el_type x] ++ be_bytes 2 (mlen (el_val x))) ++ el_val x)) by mlia.
    destruct (roomb w _) eqn:Hr; [|done]. cbn [negb Z.eqb TLV_OK].
    unfold roomb in Hr. apply andb_true_iff in Hr as [_ Hr%Z.leb_le]. revert Hr; mlen_simp; intros Hr.
    rewrite wr_wrn, wrn_first by mlia. rewrite be16_store_bytes, wrn_next by mlia.
    rewrite rdn_Ok, slice_full by lia. bstep.
    rewrite wrn_next by mlia. rewrite u64_small by lia. unfold append. do 5 f_equal. mlia.
Qed.

Lemma elems_put_emits tbl xs : ∀ w,
  wbuf_wf w → Forall (elem_ok tbl) xs → roomb w (mlen (elems_bytes xs)) = true →
  ∃ w', elems_put (Some w) xs = Ok (Some w', GTP1_OK) ∧ emits w w' (elems_bytes xs).
Proof.
  induction xs as [|x xs IH]; intros w Hw Hok Hr.
  { exists w. split; [done|]. by apply emits_refl. }
  apply Forall_cons in Hok as [Hx Hxs]. unfold elems_bytes in Hr |- *. simpl in Hr |- *.
  fold (elems_bytes xs) in *. rewrite mlen_app in Hr. pose proof (mlen_nonneg (elems_bytes xs)).
  assert (roomb w (mlen (elem_bytes x)) = true) as Hrx by (eapply roomb_le; [|done]; lia).
  rewrite elem_put_eq, Hrx by (done || apply Hx). bstep. cbn [negb Z.eqb GTP1_OK].
  pose proof (append_emits w (elem_bytes x) Hw Hrx) as He.
  destruct (IH (append w (elem_bytes x))) as (w' & -> & He'); [apply He|done|by eapply emits_room|].
  exists w'. split; [done|]. by eapply emits_trans.
Qed.

Lemma elem_bytes_ok tbl x : elem_ok tbl x → bytes_ok (elem_bytes x).
Proof.
  intros (Ht & Hv & _). unfold elem_bytes. destruct (_ <? _); bytes_tac.
Qed.
Lemma elems_bytes_ok tbl xs : Forall (elem_ok tbl) xs → bytes_ok (elems_bytes xs).
Proof.
  unfold elems_bytes. induction 1 as [|x xs Hx _ IH]; simpl; [apply bytes_ok_nil|].
  apply bytes_ok_app. split; [by eapply elem_bytes_ok|done].
Qed.

(** An element at the cursor is what the iterator yields. *)
Lemma iter_next_elem m it tbl x rest :
  bytes_ok m → mlen m <= OBJ_MAX → 0 <= cur it <= fin it → fin it <= mlen m →
  tvlen it = Some tbl → elem_ok tbl x →
  slice m (cur it) (fin it - cur it) = elem_bytes x ++ rest →
  ∃ v, gtp1_ie_iter_next m it =
      Ok (Some (v, {| cur := cur it + mlen (elem_bytes x); fin := fin it; tvlen := Some tbl |})) ∧
    type v = el_type x ∧ rdn m (value v) (len v) = Ok (el_val x).
Proof.
  intros Hm Hmx Hc Hf Ht (Hty & Hv & Hvl & Htv) Hs. unfold OBJ_MAX in *.
  pose proof (mlen_nonneg (el_val x)). pose proof (mlen_nonneg rest).
  assert (fin it - cur it = mlen (elem_bytes x) + mlen rest) as Hlen
    by (rewrite <-mlen_app, <-Hs, mlen_slice by lia; done).
  assert (∀ i k, 0 <= i → 0 <= k → i + k <= fin it - cur it →
    slice m (cur it + i) k = slice (elem_bytes x ++ rest) i k) as Hsl.
  { intros. rewrite <-Hs, slice_slice by lia. done. }
  unfold gtp1_ie_iter_next, GTP1_TLV_HDR_LEN. rewrite (u64_small (fin it - cur it)) by lia.
  assert (1 <= mlen (elem_bytes x)) by (unfold elem_bytes; destruct (_ <? _); mlia).
  destruct (Z.ltb_spec (fin it - cur it) 1); [lia|].
  rewrite (rd_slice _ (cur it) (el_type x)).
  2: lia.
  2: { rewrite <-(Z.add_0_r (cur it)), Hsl by lia. unfold elem_bytes. by destruct (_ <? _). }
  bstep. rewrite Ht. unfold elem_bytes in *.
  destruct (Z.ltb_spec (el_type x) 128) as [Htlv|Htlv]; revert Hlen; mlen_simp; intros Hlen.
  - destruct (Htv Htlv) as [Hpos ->]. bstep.
    destruct (Z.eqb_spec (mlen (el_val x)) 0), (Z.ltb_spec (fin it - cur it) (1 + mlen (el_val x)));
      try lia. cbn [orb]. eexists. split; [do 4 f_equal; mlia|]. simpl. split; [done|].
    rewrite rdn_Ok, Hsl by lia. f_equal. slice_at. done.
  - destruct (Z.ltb_spec (fin it - cur it) 3); [lia|]. rewrite be16_load_val by (done || lia). bstep.
    rewrite Hsl by lia. slice_at. rewrite be_val_bytes, Z.mod_small by (simpl Z.of_nat; lia).
    rewrite u64_small by lia. destruct (Z.ltb_spec (fin it - cur it - 3) (mlen (el_val x))); [lia|].
    eexists. split; [do 4 f_equal; mlia|]. simpl. split; [done|].
    rewrite rdn_Ok, Hsl by lia. f_equal. slice_at. done.
Qed.

Lemma elems_read_bytes tbl fuel : ∀ m it xs,
  (Z.to_nat (fin it - cur it) < fuel)%nat → bytes_ok m → mlen m <= OBJ_MAX →
  0 <= cur it <= fin it → fin it <= mlen m → tvlen it = Some tbl → Forall (elem_ok tbl) xs →
  slice m (cur it) (fin it - cur it) = elems_bytes xs → elems_read fuel m it = Ok xs.
Proof.
  induction fuel as [|fuel IH]; intros m it xs Hfu Hm Hmx Hc Hf Ht Hok Hs; [lia|]. cbn [elems_read].
  destruct xs as [|x xs].
  { assert (mlen (slice m (cur it) (fin it - cur it)) = 0) as Hl by by rewrite Hs.
    rewrite mlen_slice in Hl by lia. unfold gtp1_ie_iter_next.
    rewrite u64_small by (unfold OBJ_MAX in *; lia).
    destruct (Z.ltb_spec (fin it - cur it) 1); [done|lia]. }
  apply Forall_cons in Hok as [Hx Hxs]. unfold elems_bytes in Hs; simpl in Hs.
  fold (elems_bytes xs) in Hs.
  destruct (iter_next_elem m it tbl x (elems_bytes xs)) as (v & -> & Hvt & Hrd); try done.
  bstep. rewrite Hrd. bstep.
  assert (fin it - cur it = mlen (elem_bytes x) + mlen (elems_bytes xs)) as Hlen
    by (rewrite <-mlen_app, <-Hs, mlen_slice by lia; done).
  pose proof (mlen_nonneg (elems_bytes xs)).
  assert (1 <= mlen (elem_bytes x)).
  { pose proof (mlen_nonneg (el_val x)). unfold elem_bytes. destruct (_ <? _); mlia. }
  rewrite (IH m _ xs); try done; simpl; try lia.
  - bstep. rewrite Hvt. by destruct x.
  - rewrite <-(slice_slice m (cur it) (fin it - cur it)), Hs by lia.
    rewrite slice_app_ge by lia. apply slice_whole; lia.
Qed.

Definition hdr_bytes (h : gtp1_hdr) : list Z :=
  [50; message_type h] ++ be_bytes 2 (length h) ++ be_bytes 4 (teid h) ++
  be_bytes 2 (sequence h) ++ [0; 0].

Lemma gtp1_mlen_hdr_bytes h : mlen (hdr_bytes h) = 12.
Proof. unfold hdr_bytes. mlia. Qed.

(** What is on the wire of a header: the control-plane form, S set, E and PN clear. *)
Definition hdr_norm (h : gtp1_hdr) (n : Z) : gtp1_hdr :=
  {| version := 1; pt := true; e := false; s := true; pn := false;
     message_type := message_type h; length := n; teid := teid h; sequence := sequence h;
     npdu := 0; next_ext := 0 |}.
Definition hdr_ok (h : gtp1_hdr) : Prop :=
  0 <= message_type h < 256 ∧ 0 <= teid h < 4294967296 ∧ 0 <= sequence h < 65536.

Lemma gtp1_hdr_encode_eq b cap h :
  cap <= mlen b →
  gtp1_hdr_encode (Some b) cap (Some h) =
    Ok (if cap <? 12 then (Some b, GTP1_E_OVERFLOW) else (Some (splice b 0 (hdr_bytes h)), 12)).
Proof.
  intros Hc. unfold gtp1_hdr_encode, GTP1_HDR_CTRL. destruct (Z.ltb_spec cap 12); [done|].
  rewrite wr_wrn, wrn_first by mlia. rewrite wr_wrn, wrn_next by mlia.
  rewrite be16_store_bytes, wrn_next by mlia. rewrite be32_store_bytes, wrn_next by mlia.
  rewrite be16_store_bytes, wrn_next by mlia. rewrite wr_wrn, wrn_next by mlia.
  rewrite wr_wrn, wrn_next by mlia. by rewrite <-!app_assoc.
Qed.

Lemma gtp1_hdr_decode_bytes h n rest :
  hdr_ok h → bytes_ok rest → 4 <= n < 65536 → mlen rest = n - 4 →
  gtp1_hdr_decode (Some (hdr_bytes (hdr_norm h n) ++ rest)) (8 + n) true = Ok (hdr_norm h n, 12).
Proof.
  intros (Hmt & Ht & Hs) Hr Hn Hl. unfold gtp1_hdr_decode, GTP1_HDR_MIN, GTP1_HDR_CTRL.
  destruct (Z.ltb_spec (8 + n) 8); [lia|]. unfold hdr_bytes. simpl (message_type _).
  simpl (length _). simpl (teid _). simpl (sequence _).
  set (m := _ ++ rest).
  assert (bytes_ok m) as Hm by (unfold m; bytes_tac).
  assert (mlen m = 8 + n) as Hml by (unfold m; mlia).
  rewrite (rd_slice m 0 50) by done. bstep.
  change (u8 (Z.shiftr 50 5)) with 1. change (set 50 FLAG_PT) with true.
  change (set 50 FLAG_E) with false. change (set 50 FLAG_S) with true.
  change (set 50 FLAG_PN) with false. cbn [negb orb Z.eqb Pos.eqb GTP1_VERSION].
  rewrite (rd_slice m 1 (message_type h)) by done. bstep.
  rewrite (be16_load_val m Hm 2), (be16_load_val m Hm 8) by lia. bstep.
  rewrite (be32_load_val m Hm 4) by lia. bstep. unfold m. slice_at.
  rewrite !be_val_bytes, !Z.mod_small by (simpl Z.of_nat; lia).
  destruct (Z.ltb_spec (8 + n) (8 + n)); [lia|]. destruct (Z.ltb_spec (8 + n) 12); [lia|]. done.
Qed.

Lemma gtp1_hdr_finalize_eq w h body :
  wbuf_wf w → w_overflow w = false → written w = hdr_bytes h ++ body → w_off w - 8 < 65536 →
  ∃ w', gtp1_hdr_finalize (Some w) 0 = Ok (Some w', GTP1_OK) ∧ w_off w' = w_off w ∧
    written w' = hdr_bytes (hdr_norm h (w_off w - 8)) ++ body.
Proof.
  intros Hw Hno Hwr Hlim. pose proof (mlen_written w Hw) as Hoff.
  rewrite Hwr, mlen_app, gtp1_mlen_hdr_bytes in Hoff. pose proof (mlen_nonneg body).
  destruct Hw as [Ho Hc]. unfold OBJ_MAX in *.
  unfold gtp1_hdr_finalize, GTP1_HDR_MIN, UINT16_MAX. rewrite Hno, (u64_small (0 + 8)) by lia.
  destruct (Z.ltb_spec (w_off w) (0 + 8)); [lia|]. rewrite Z.sub_0_r, u64_small by lia.
  destruct (Z.ltb_spec 65535 (w_off w - 8)); [lia|].
  rewrite be16_store_bytes, u16_small, wrn_Ok by mlia. bstep.
  eexists. split; [done|]. split; [done|]. unfold written; cbn [set_buf w_buf w_off].
  rewrite take_splice by mlia. fold (written w). rewrite Hwr.
  change (0 + 2) with 2. rewrite splice_app_l by (rewrite ?gtp1_mlen_hdr_bytes; mlia).
  reflexivity.
Qed.

(** C29: a GTPv1-C message round trips: a header, TV and TLV elements written after
    it and the length backfilled decode to the same header, in its control-plane
    form and with the message's length, and to the same elements. *)
Theorem gtp1_message_roundtrip tbl h xs buf :
  hdr_ok h → Forall (elem_ok tbl) xs →
  12 + mlen (elems_bytes xs) <= Z.min (mlen buf) 65543 → mlen buf <= OBJ_MAX →
  ∃ w, gtp1_message_write buf h xs = Ok (Some w, GTP1_OK) ∧
    w_off w = 12 + mlen (elems_bytes xs) ∧
    gtp1_message_read tbl (written w) = Ok (hdr_norm h (w_off w - 8), xs).
Proof.
  intros Hh Hxs Hlen Hbuf. set (body := elems_bytes xs) in *.
  pose proof (mlen_nonneg body). pose proof (gtp1_mlen_hdr_bytes h) as Hhl. unfold OBJ_MAX in *.
  unfold gtp1_message_write. rewrite gtp1_hdr_encode_eq by (simpl; lia). simpl.
  destruct (Z.ltb_spec (mlen buf) 12); [lia|]. bstep. change (12 <? 0) with false. cbn iota.
  set (w0 := set_buf _ _ _).
  assert (wbuf_wf w0) as Hw0.
  { unfold wbuf_wf, w0, OBJ_MAX; simpl. rewrite mlen_splice by lia. lia. }
  assert (written w0 = hdr_bytes h) as Hwr0.
  { change (written w0) with (take (Z.to_nat 12) (splice buf 0 (hdr_bytes h))).
    rewrite <-Hhl. rewrite <-(Z.add_0_l (mlen (hdr_bytes h))), take_splice_end by lia. done. }
  destruct (elems_put_emits tbl xs w0) as (w1 & Hwl & He); [done..| |].
  { unfold roomb; simpl. fold body. lia. }
  fold body in He. rewrite Hwl. bstep. cbn [negb Z.eqb GTP1_OK].
  pose proof (emits_off _ _ _ Hw0 He) as Hoff. destruct He as (Hw1 & Hcap & Hov & Hwr1).
  rewrite Hwr0 in Hwr1. simpl in Hoff.
  destruct (gtp1_hdr_finalize_eq w1 h body) as (w2 & Hfin & Hoff2 & Hwr2); [done..|lia|].
  exists w2. split; [done|]. split; [lia|]. rewrite Hoff2, Hwr2.
  assert (bytes_ok body) as Hbok by (by eapply elems_bytes_ok).
  pose proof (gtp1_mlen_hdr_bytes (hdr_norm h (w_off w1 - 8))) as Hhl'.
  assert (mlen (hdr_bytes (hdr_norm h (w_off w1 - 8)) ++ body) = 8 + (w_off w1 - 8)) as Hml
    by (rewrite mlen_app; lia).
  unfold gtp1_message_read. rewrite Hml, gtp1_hdr_decode_bytes by (done || lia). bstep.
  change (length (hdr_norm h (w_off w1 - 8))) with (w_off w1 - 8).
  assert (bytes_ok (hdr_bytes (hdr_norm h (w_off w1 - 8)) ++ body)) as Hmok.
  { destruct Hh as (? & _ & _). unfold hdr_bytes. simpl (message_type _). bytes_tac. }
  assert (slice (hdr_bytes (hdr_norm h (w_off w1 - 8)) ++ body) 12 (mlen body) = body) as Hsl
    by (rewrite slice_app_ge by lia; apply slice_whole; lia).
  set (m := hdr_bytes (hdr_norm h (w_off w1 - 8)) ++ body) in *. clearbody m. unfold GTP1_HDR_MIN.
  rewrite (elems_read_bytes tbl _ m _ xs); try done; simpl; unfold OBJ_MAX; try lia.
  - unfold mlen in *. lia.
  - replace (12 + (8 + (w_off w1 - 8) - 12) - 12) with (mlen body) by lia. done.
Qed.

Definition ex_table : list Z := <[14%nat := 1]> (<[2%nat := 8]> (zeros 128)).

Lemma gtp1_message_roundtrip_witness :
  let h := {| version := 1; pt := true; e := false; s := true; pn := false; message_type := 16;
              length := 0; teid := 77; sequence := 9; npdu := 0; next_ext := 0 |} in
  let xs := [Elem 14 [5]; Elem 133 [10; 0; 0; 1]] in
  ∃ w, gtp1_message_write (zeros 64) h xs = Ok (Some w, GTP1_OK) ∧ w_off w = 21 ∧
    gtp1_message_read ex_table (written w) = Ok (hdr_norm h 13, xs).
Proof.
  cbn zeta. set (h := {| version := 1 |}). set (xs := [Elem 14 [5]; Elem 133 [10; 0; 0; 1]]).
  destruct (gtp1_message_roundtrip ex_table h xs (zeros 64)) as (w & H1 & H2 & H3).
  - unfold hdr_ok; simpl. lia.
  - unfold xs. repeat apply Forall_cons_2; [..|apply Forall_nil_2]; unfold elem_ok; simpl;
      (split_and!; [lia|lia|bytes_tac|by vm_compute|intros; try lia; by vm_compute]).
  - by vm_compute.
  - by vm_compute.
  - exists w. assert (w_off w = 21) as Hw by (rewrite H2; by vm_compute). rewrite Hw in H3.
    split_and!; [exact H1|exact Hw|exact H3].
Defined.

End Gtp1.
