(* ===== verification/Diam.v ===== *)
(** * Diam: the Diameter base codec

    Models [diam/src/diam.c]: the message header, the AVP iterator with the
    Vendor-ID carried in the value, lookup, typed readers, the AVP writers and
    the length backfill.  Nullable pointers are options; [out] says whether an
    output pointer is non-NULL. *)

From S2P Require Import Prelude Endian Tlv.

Module Diam.

Definition DIAM_VERSION : Z := 1.
Definition DIAM_HDR_LEN : Z := 20.

Definition DIAM_HDR_F_REQUEST : Z := 128.
Definition DIAM_HDR_F_PROXIABLE : Z := 64.
Definition DIAM_HDR_F_ERROR : Z := 32.
Definition DIAM_HDR_F_RETRANSMIT : Z := 16.
Definition DIAM_AVP_F_VENDOR : Z := 128.

Definition DIAM_OK : Z := 0.
Definition DIAM_E_SHORT : Z := -1.
Definition DIAM_E_VERSION : Z := -2.
Definition DIAM_E_LENGTH : Z := -3.
Definition DIAM_E_OVERFLOW : Z := -4.
Definition DIAM_E_INVAL : Z := -5.
Definition DIAM_E_TYPE : Z := -6.

(** ** Data *)

Record diam_hdr := DiamHdr {
  d_version : Z; d_length : Z; d_request : bool; d_proxiable : bool; d_error : bool;
  d_retransmit : bool; d_cmd_code : Z; d_app_id : Z; d_hbh : Z; d_e2e : Z }.

Record diam_avp_view := DiamAvpView {
  a_code : Z; a_flags : Z; a_vendor_id : Z; a_len : Z; a_value : Z }.

Section diam.
Context `{HO : HostOrder}.
Abbreviation prof := TLV_PROF_DIAMETER.

Definition diam_tlv_err (rc : Z) : Z :=
  if rc =? TLV_OK then DIAM_OK
  else if rc =? TLV_E_OVERFLOW then DIAM_E_OVERFLOW else DIAM_E_INVAL.

(** Raw append; [p] is the source, NULL only when [n] is 0. *)
Definition wbuf_append (w : tlv_wbuf) (p : option mem) (n : Z) : res (tlv_wbuf * Z) :=
  let '(w, rc) := tlv_wbuf_reserve w n in
  if negb (rc =? 0) then Ok (w, rc) else
  b ← (if negb (n =? 0)
       then match p with
            | Some p => bs ← rdn p 0 n; wrn (w_buf w) (w_off w) bs
            | None => Ub
            end
       else Ok (w_buf w));
  Ok (set_buf w b (u64 (w_off w + n)), TLV_OK).

(** ** Header *)

Definition set (x mask : Z) : bool := negb (Z.land x mask =? 0).
Definition or_if (flags : Z) (b : bool) (mask : Z) : Z := if b then Z.lor flags mask else flags.

Definition diam_hdr_decode (buf : option mem) (len : Z) (out : bool) : res (diam_hdr * Z) :=
  match buf, out with
  | Some buf, true =>
      if len <? DIAM_HDR_LEN then Err DIAM_E_SHORT else
      version ← rd buf 0;
      length ← be24_load buf 1;
      flags ← rd buf 4;
      cmd_code ← be24_load buf 5;
      app_id ← be32_load buf 8;
      hbh ← be32_load buf 12;
      e2e ← be32_load buf 16;
      if negb (version =? DIAM_VERSION) then Err DIAM_E_VERSION else
      if length <? DIAM_HDR_LEN then Err DIAM_E_LENGTH else
      if len <? length then Err DIAM_E_LENGTH else
      if negb (Z.land length 3 =? 0) then Err DIAM_E_LENGTH else
      Ok ({| d_version := version; d_length := length;
             d_request := set flags DIAM_HDR_F_REQUEST;
             d_proxiable := set flags DIAM_HDR_F_PROXIABLE;
             d_error := set flags DIAM_HDR_F_ERROR;
             d_retransmit := set flags DIAM_HDR_F_RETRANSMIT;
             d_cmd_code := cmd_code; d_app_id := app_id; d_hbh := hbh; d_e2e := e2e |},
          DIAM_HDR_LEN)
  | _, _ => Err DIAM_E_INVAL
  end.

Definition hdr_flags (hdr : diam_hdr) : Z :=
  or_if (or_if (or_if (or_if 0 (d_request hdr) DIAM_HDR_F_REQUEST)
    (d_proxiable hdr) DIAM_HDR_F_PROXIABLE) (d_error hdr) DIAM_HDR_F_ERROR)
    (d_retransmit hdr) DIAM_HDR_F_RETRANSMIT.

Definition diam_hdr_encode (buf : option mem) (cap : Z) (hdr : option diam_hdr) :
    res (option mem * Z) :=
  match buf, hdr with
  | Some b, Some hdr =>
      if cap <? DIAM_HDR_LEN then Ok (buf, DIAM_E_OVERFLOW) else
      if 16777215 <? d_length hdr then Ok (buf, DIAM_E_INVAL) else
      if 16777215 <? d_cmd_code hdr then Ok (buf, DIAM_E_INVAL) else
      b ← wr b 0 DIAM_VERSION;
      b ← be24_store b 1 (d_length hdr);
      b ← wr b 4 (hdr_flags hdr);
      b ← be24_store b 5 (d_cmd_code hdr);
      b ← be32_store b 8 (d_app_id hdr);
      b ← be32_store b 12 (d_hbh hdr);
      b ← be32_store b 16 (d_e2e hdr);
      Ok (Some b, DIAM_HDR_LEN)
  | _, _ => Ok (buf, DIAM_E_INVAL)
  end.

(** ** Reading AVPs *)

Definition diam_avp_iter_init (payload len : Z) : tlv_iter := tlv_iter_init prof payload len.

Definition diam_avp_iter_next (m : mem) (it : tlv_iter) :
    res (option (diam_avp_view * tlv_iter)) :=
  r ← tlv_iter_next m it;
  match r with
  | None => Ok None
  | Some (v, it) =>
      if set (v_meta v) DIAM_AVP_F_VENDOR then
        if v_len v <? 4 then Ok None else
        vendor_id ← be32_load m (v_value v);
        Ok (Some ({| a_code := v_type v; a_flags := v_meta v; a_vendor_id := vendor_id;
                     a_len := u32 (v_len v - 4); a_value := v_value v + 4 |}, it))
      else
        Ok (Some ({| a_code := v_type v; a_flags := v_meta v; a_vendor_id := 0;
                     a_len := v_len v; a_value := v_value v |}, it))
  end.

Definition diam_avp_iter_grouped (grouped : diam_avp_view) : tlv_iter :=
  tlv_iter_init prof (a_value grouped) (a_len grouped).

(** The search loop; [None] is the [false] return. *)
Fixpoint find_loop (fuel : nat) (m : mem) (it : tlv_iter) (code vendor_id : Z) :
    res (option diam_avp_view) :=
  match fuel with
  | O => Ub
  | S fuel =>
      r ← diam_avp_iter_next m it;
      match r with
      | None => Ok None
      | Some (out, it) =>
          if (a_code out =? code) && (a_vendor_id out =? vendor_id) then Ok (Some out)
          else find_loop fuel m it code vendor_id
      end
  end.

Definition diam_avp_find (m : mem) (payload len code vendor_id : Z) :
    res (option diam_avp_view) :=
  find_loop (S (Z.to_nat len)) m (diam_avp_iter_init payload len) code vendor_id.

Definition diam_avp_u32 (m : mem) (avp : option diam_avp_view) (out : bool) : res Z :=
  match avp, out with
  | Some avp, true =>
      if negb (a_len avp =? 4) then Err DIAM_E_TYPE else be32_load m (a_value avp)
  | _, _ => Err DIAM_E_INVAL
  end.

Definition diam_avp_u64 (m : mem) (avp : option diam_avp_view) (out : bool) : res Z :=
  match avp, out with
  | Some avp, true =>
      if negb (a_len avp =? 8) then Err DIAM_E_TYPE else be64_load m (a_value avp)
  | _, _ => Err DIAM_E_INVAL
  end.

(** The signed readers store through [out] without testing it. *)
Definition diam_avp_i32 (m : mem) (avp : option diam_avp_view) (out : bool) : res Z :=
  u ← diam_avp_u32 m avp true; if out then Ok (i32 u) else Ub.
Definition diam_avp_i64 (m : mem) (avp : option diam_avp_view) (out : bool) : res Z :=
  u ← diam_avp_u64 m avp true; if out then Ok (i64 u) else Ub.

(** Family, offset of the address octets and their number. *)
Definition diam_avp_addr (m : mem) (avp : option diam_avp_view) (out : bool) :
    res (Z * Z * Z) :=
  match avp, out with
  | Some avp, true =>
      if a_len avp <? 2 then Err DIAM_E_TYPE else
      family ← be16_load m (a_value avp);
      Ok (family, a_value avp + 2, u32 (a_len avp - 2))
  | _, _ => Err DIAM_E_INVAL
  end.

(** ** Writing AVPs *)

Definition diam_wbuf_init (buf : mem) (cap : Z) : tlv_wbuf := tlv_wbuf_init buf cap.

(** The normalised flags and the return code. *)
Definition diam_flags (flags vendor_id : Z) : Z * Z :=
  if negb (vendor_id =? 0) then (Z.lor flags DIAM_AVP_F_VENDOR, DIAM_OK)
  else if set flags DIAM_AVP_F_VENDOR then (flags, DIAM_E_INVAL)
  else (flags, DIAM_OK).

Definition diam_avp_put (w : option tlv_wbuf) (code flags vendor_id : Z) (val : option mem)
    (vlen : Z) : res (option tlv_wbuf * Z) :=
  match w with
  | None => Ok (None, DIAM_E_INVAL)
  | Some w' =>
      if negb (bool_decide (is_Some val)) && negb (vlen =? 0) then Ok (w, DIAM_E_INVAL) else
      let '(flags, rc) := diam_flags flags vendor_id in
      if negb (rc =? 0) then Ok (w, rc) else
      if vendor_id =? 0 then
        '(w', rc) ← tlv_put w' prof code flags (default [] val) vlen;
        Ok (Some w', diam_tlv_err rc)
      else
        '(w', h) ← tlv_begin w' prof code flags;
        if h <? 0 then Ok (Some w', diam_tlv_err h) else
        vid ← be32_store (uninit 4) 0 vendor_id;
        '(w', arc) ← wbuf_append w' (Some vid) 4;
        '(w', arc) ← (if arc =? 0 then wbuf_append w' val vlen else Ok (w', arc));
        if negb (arc =? 0) then Ok (Some w', diam_tlv_err arc) else
        '(w', rc) ← tlv_end w' prof h;
        Ok (Some w', diam_tlv_err rc)
  end.

Definition diam_avp_put_u32 (w : option tlv_wbuf) (code flags vendor_id v : Z) :
    res (option tlv_wbuf * Z) :=
  b ← be32_store (uninit 4) 0 v; diam_avp_put w code flags vendor_id (Some b) 4.
Definition diam_avp_put_u64 (w : option tlv_wbuf) (code flags vendor_id v : Z) :
    res (option tlv_wbuf * Z) :=
  b ← be64_store (uninit 8) 0 v; diam_avp_put w code flags vendor_id (Some b) 8.
Definition diam_avp_put_i32 (w : option tlv_wbuf) (code flags vendor_id v : Z) :
    res (option tlv_wbuf * Z) :=
  diam_avp_put_u32 w code flags vendor_id (u32 v).
Definition diam_avp_put_i64 (w : option tlv_wbuf) (code flags vendor_id v : Z) :
    res (option tlv_wbuf * Z) :=
  diam_avp_put_u64 w code flags vendor_id (u64 v).

(** [strlen]: the octets before the first zero; running off the object is [Ub]. *)
Fixpoint strlen (s : mem) : res Z :=
  match s with
  | [] => Ub
  | c :: s => if c =? 0 then Ok 0 else n ← strlen s; Ok (n + 1)
  end.

Definition diam_avp_put_str (w : option tlv_wbuf) (code flags vendor_id : Z) (s : option mem) :
    res (option tlv_wbuf * Z) :=
  match s with
  | None => Ok (w, DIAM_E_INVAL)
  | Some str =>
      n ← strlen str;
      if UINT32_MAX <? n then Ok (w, DIAM_E_INVAL) else
      diam_avp_put w code flags vendor_id s (u32 n)
  end.

Definition diam_avp_begin (w : option tlv_wbuf) (code flags vendor_id : Z) :
    res (option tlv_wbuf * Z) :=
  match w with
  | None => Ok (None, DIAM_E_INVAL)
  | Some w' =>
      let '(flags, rc) := diam_flags flags vendor_id in
      if negb (rc =? 0) then Ok (w, rc) else
      '(w', h) ← tlv_begin w' prof code flags;
      if h <? 0 then Ok (Some w', diam_tlv_err h) else
      if negb (vendor_id =? 0) then
        vid ← be32_store (uninit 4) 0 vendor_id;
        '(w', arc) ← wbuf_append w' (Some vid) 4;
        if negb (arc =? 0) then Ok (Some w', diam_tlv_err arc) else Ok (Some w', h)
      else Ok (Some w', h)
  end.

Definition diam_avp_end (w : tlv_wbuf) (handle : Z) : res (tlv_wbuf * Z) :=
  '(w, rc) ← tlv_end w prof handle; Ok (w, diam_tlv_err rc).

Definition diam_avp_put_addr (w : option tlv_wbuf) (code flags vendor_id family : Z)
    (addr : option mem) (addr_len : Z) : res (option tlv_wbuf * Z) :=
  if negb (bool_decide (is_Some addr)) && negb (addr_len =? 0) then Ok (w, DIAM_E_INVAL) else
  '(w, h) ← diam_avp_begin w code flags vendor_id;
  if h <? 0 then Ok (w, h) else
  match w with
  | None => Ub
  | Some w =>
      fam ← be16_store (uninit 2) 0 family;
      '(w, rc) ← wbuf_append w (Some fam) 2;
      '(w, rc) ← (if rc =? 0 then wbuf_append w addr addr_len else Ok (w, rc));
      if negb (rc =? 0) then Ok (Some w, diam_tlv_err rc) else
      '(w, rc) ← diam_avp_end w h; Ok (Some w, rc)
  end.

Definition diam_hdr_finalize (w : option tlv_wbuf) (hdr_off : Z) : res (option tlv_wbuf * Z) :=
  match w with
  | None => Ok (None, DIAM_E_INVAL)
  | Some w' =>
      if w_overflow w' then Ok (w, DIAM_E_OVERFLOW) else
      if w_off w' <? u64 (hdr_off + DIAM_HDR_LEN) then Ok (w, DIAM_E_INVAL) else
      let total := u64 (w_off w' - hdr_off) in
      if 16777215 <? total then Ok (w, DIAM_E_OVERFLOW) else
      b ← be24_store (w_buf w') (hdr_off + 1) (u32 total);
      Ok (Some (set_buf w' b (w_off w')), DIAM_OK)
  end.
End diam.

(** ** The header *)

Definition hdr_bytes (h : diam_hdr) : list Z :=
  [1] ++ be_bytes 3 (d_length h) ++ [hdr_flags h] ++ be_bytes 3 (d_cmd_code h) ++
  be_bytes 4 (d_app_id h) ++ be_bytes 4 (d_hbh h) ++ be_bytes 4 (d_e2e h).

Lemma diam_mlen_hdr_bytes h : mlen (hdr_bytes h) = 20.
Proof. unfold hdr_bytes. mlia. Qed.

Definition hdr_ok (h : diam_hdr) : Prop :=
  0 <= d_length h < 16777216 ∧ 0 <= d_cmd_code h < 16777216 ∧ 0 <= d_app_id h < 4294967296 ∧
  0 <= d_hbh h < 4294967296 ∧ 0 <= d_e2e h < 4294967296.

Definition set_length (h : diam_hdr) (n : Z) : diam_hdr :=
  {| d_version := 1; d_length := n; d_request := d_request h; d_proxiable := d_proxiable h;
     d_error := d_error h; d_retransmit := d_retransmit h; d_cmd_code := d_cmd_code h;
     d_app_id := d_app_id h; d_hbh := d_hbh h; d_e2e := d_e2e h |}.

Lemma diam_hdr_flags_decode h :
  0 <= hdr_flags h < 256 ∧ set (hdr_flags h) DIAM_HDR_F_REQUEST = d_request h ∧
  set (hdr_flags h) DIAM_HDR_F_PROXIABLE = d_proxiable h ∧
  set (hdr_flags h) DIAM_HDR_F_ERROR = d_error h ∧
  set (hdr_flags h) DIAM_HDR_F_RETRANSMIT = d_retransmit h.
Proof.
  unfold hdr_flags. by destruct (d_request h), (d_proxiable h), (d_error h), (d_retransmit h).
Qed.

Lemma diam_hdr_bytes_ok h : bytes_ok (hdr_bytes h).
Proof. destruct (diam_hdr_flags_decode h) as [? _]. unfold hdr_bytes. bytes_tac. Qed.

Lemma diam_hdr_encode_eq b cap h :
  cap <= mlen b → hdr_ok h →
  diam_hdr_encode (Some b) cap (Some h) =
    Ok (if cap <? 20 then (Some b, DIAM_E_OVERFLOW) else (Some (splice b 0 (hdr_bytes h)), 20)).
Proof.
  intros Hc (Hl & Hcm & _). unfold diam_hdr_encode, DIAM_HDR_LEN.
  destruct (Z.ltb_spec cap 20); [done|].
  destruct (Z.ltb_spec 16777215 (d_length h)); [lia|].
  destruct (Z.ltb_spec 16777215 (d_cmd_code h)); [lia|].
  rewrite wr_wrn, wrn_first by mlia. rewrite be24_store_bytes, wrn_next by mlia.
  rewrite wr_wrn, wrn_next by mlia. rewrite be24_store_bytes, wrn_next by mlia.
  rewrite be32_store_bytes, wrn_next by mlia. rewrite be32_store_bytes, wrn_next by mlia.
  rewrite be32_store_bytes, wrn_next by mlia. by rewrite <-!app_assoc.
Qed.

Lemma land3 n : Z.land n 3 = n mod 4.
Proof. by apply (Z.land_ones n 2). Qed.

Lemma diam_hdr_decode_bytes h rest :
  hdr_ok h → bytes_ok rest → d_length h = 20 + mlen rest → d_length h mod 4 = 0 →
  diam_hdr_decode (Some (hdr_bytes h ++ rest)) (d_length h) true = Ok (set_length h (d_length h), 20).
Proof.
  intros (Hl & Hcm & Ha & Hh & He) Hr Hlen Hmod. pose proof (mlen_nonneg rest).
  destruct (diam_hdr_flags_decode h) as (_ & F1 & F2 & F3 & F4).
  pose proof (diam_hdr_bytes_ok h). assert (bytes_ok (hdr_bytes h ++ rest)) as Hm by (by apply bytes_ok_app).
  assert (mlen (hdr_bytes h ++ rest) = d_length h) as Hml by (rewrite mlen_app, diam_mlen_hdr_bytes; lia).
  unfold diam_hdr_decode, DIAM_HDR_LEN. destruct (Z.ltb_spec (d_length h) 20); [lia|].
  rewrite (rd_slice _ 0 1) by done. bstep. rewrite (be24_load_val _ Hm 1) by lia. bstep.
  rewrite (rd_slice _ 4 (hdr_flags h)) by (try lia; unfold hdr_bytes; slice_at; done). bstep.
  rewrite (be24_load_val _ Hm 5) by lia. bstep. rewrite (be32_load_val _ Hm 8) by lia. bstep.
  rewrite (be32_load_val _ Hm 12) by lia. bstep. rewrite (be32_load_val _ Hm 16) by lia. bstep.
  unfold hdr_bytes. slice_at. rewrite !be_val_bytes, !Z.mod_small by (simpl Z.of_nat; lia).
  change (negb (1 =? DIAM_VERSION)) with false. cbn iota.
  destruct (Z.ltb_spec (d_length h) 20); [lia|].
  destruct (Z.ltb_spec (d_length h) (d_length h)); [lia|].
  rewrite land3, Hmod. by rewrite F1, F2, F3, F4.
Qed.

(** Decoding a Diameter header from any buffer is total and memory-safe: it
    succeeds exactly on a version-1 header whose length covers the header, fits
    the buffer and is a multiple of four, and otherwise reports the first of
    DIAM_E_SHORT, DIAM_E_VERSION and DIAM_E_LENGTH that applies; the fields are
    the big-endian values of their octets. *)
Theorem diam_hdr_decode_total m n :
  bytes_ok m → 0 <= n <= mlen m →
  diam_hdr_decode (Some m) n true =
    let L := be_val (slice m 1 3) in
    if n <? 20 then Err DIAM_E_SHORT
    else if negb (get m 0 =? 1) then Err DIAM_E_VERSION
    else if (20 <=? L) && (L <=? n) && (L mod 4 =? 0)
    then Ok ({| d_version := 1; d_length := L; d_request := set (get m 4) 128;
                d_proxiable := set (get m 4) 64; d_error := set (get m 4) 32;
                d_retransmit := set (get m 4) 16; d_cmd_code := be_val (slice m 5 3);
                d_app_id := be_val (slice m 8 4); d_hbh := be_val (slice m 12 4);
                d_e2e := be_val (slice m 16 4) |}, 20)
    else Err DIAM_E_LENGTH.
Proof.
  intros Hm Hn. cbn zeta. unfold diam_hdr_decode, DIAM_HDR_LEN.
  destruct (Z.ltb_spec n 20); [done|].
  rewrite (rd_Ok m 0) by lia. bstep. rewrite (be24_load_val m Hm 1) by lia. bstep.
  rewrite (rd_Ok m 4) by lia. bstep. rewrite (be24_load_val m Hm 5) by lia. bstep.
  rewrite (be32_load_val m Hm 8) by lia. bstep. rewrite (be32_load_val m Hm 12) by lia. bstep.
  rewrite (be32_load_val m Hm 16) by lia. bstep. set (L := be_val (slice m 1 3)).
  unfold DIAM_VERSION. destruct (Z.eqb_spec (get m 0) 1) as [->|]; [|done]. cbn [negb].
  rewrite land3. destruct (Z.ltb_spec L 20), (Z.leb_spec 20 L); try lia; [done|].
  destruct (Z.ltb_spec n L), (Z.leb_spec L n); try lia; [done|].
  by destruct (L mod 4 =? 0).
Qed.

Lemma diam_hdr_decode_total_witness :
  diam_hdr_decode (Some ([1; 0; 0; 20; 128; 0; 1; 1] ++ zeros 12)) 20 true =
    Ok (DiamHdr 1 20 true false false false 257 0 0 0, 20) ∧
  diam_hdr_decode (Some ([1; 0; 0; 21; 128; 0; 1; 1] ++ zeros 13)) 21 true = Err DIAM_E_LENGTH.
Proof.
  split.
  - rewrite (diam_hdr_decode_total ([1; 0; 0; 20; 128; 0; 1; 1] ++ zeros 12) 20);
      [by vm_compute|bytes_tac|by vm_compute].
  - rewrite (diam_hdr_decode_total ([1; 0; 0; 21; 128; 0; 1; 1] ++ zeros 13) 21);
      [by vm_compute|bytes_tac|by vm_compute].
Defined.

(** ** AVPs and groups of them *)

#[local] Set Warnings "-register-all".

Inductive avp :=
| Plain (code flags vendor : Z) (data : list Z)
| Grp (code flags vendor : Z) (cs : list avp).

Section avp_ind.
Variable P : avp → Prop.
Hypothesis Pplain : ∀ code flags vendor data, P (Plain code flags vendor data).
Hypothesis Pgrp : ∀ code flags vendor cs, Forall P cs → P (Grp code flags vendor cs).

Fixpoint avp_ind' (t : avp) : P t :=
  match t with
  | Plain code flags vendor data => Pplain code flags vendor data
  | Grp code flags vendor cs =>
      Pgrp code flags vendor cs
        ((fix go cs : Forall P cs :=
            match cs with
            | [] => Forall_nil_2 P
            | c :: cs => Forall_cons_2 P c cs (avp_ind' c) (go cs)
            end) cs)
  end.
End avp_ind.

Section avps.
Context `{HO : HostOrder}.
Abbreviation prof := TLV_PROF_DIAMETER.

Definition avp_flags (flags vendor : Z) : Z := if vendor =? 0 then flags else Z.lor flags 128.
Definition vendor_bytes (vendor : Z) : list Z := if vendor =? 0 then [] else be_bytes 4 vendor.
Definition avp_entry (code flags vendor : Z) (body : list Z) : list Z :=
  tlv_entry prof code (avp_flags flags vendor) (vendor_bytes vendor ++ body).

Fixpoint avp_bytes (t : avp) : list Z :=
  match t with
  | Plain code flags vendor data => avp_entry code flags vendor data
  | Grp code flags vendor cs => avp_entry code flags vendor (concat (map avp_bytes cs))
  end.
Definition avps_bytes (ts : list avp) : list Z := concat (map avp_bytes ts).

(** Writing: [diam_avp_put] for plain AVPs, [diam_avp_begin] and [diam_avp_end]
    around the members of a group. *)
Definition avp_list (f : option tlv_wbuf → avp → res (option tlv_wbuf * Z)) :=
  fix go (w : option tlv_wbuf) (ts : list avp) {struct ts} : res (option tlv_wbuf * Z) :=
    match ts with
    | [] => Ok (w, DIAM_OK)
    | t :: ts => '(w, rc) ← f w t; if negb (rc =? 0) then Ok (w, rc) else go w ts
    end.

Fixpoint avp_write (w : option tlv_wbuf) (t : avp) : res (option tlv_wbuf * Z) :=
  match t with
  | Plain code flags vendor data => diam_avp_put w code flags vendor (Some data) (mlen data)
  | Grp code flags vendor cs =>
      '(w, h) ← diam_avp_begin w code flags vendor;
      if h <? 0 then Ok (w, h) else
      '(w, rc) ← avp_list avp_write w cs;
      if negb (rc =? 0) then Ok (w, rc) else
      match w with
      | Some w => '(w, rc) ← diam_avp_end w h; Ok (Some w, rc)
      | None => Ub
      end
  end.

(** Reading with nested iterators; [grouped] is the dictionary's knowledge. *)
Fixpoint avp_read (grouped : Z → Z → bool) (fuel : nat) (m : mem) (it : tlv_iter) :
    res (list avp) :=
  match fuel with
  | O => Ub
  | S fuel =>
      r ← diam_avp_iter_next m it;
      match r with
      | None => Ok []
      | Some (v, it) =>
          t ← (if grouped (a_code v) (a_vendor_id v)
               then cs ← avp_read grouped fuel m (diam_avp_iter_grouped v);
                    Ok (Grp (a_code v) (a_flags v) (a_vendor_id v) cs)
               else data ← rdn m (a_value v) (a_len v);
                    Ok (Plain (a_code v) (a_flags v) (a_vendor_id v) data));
          ts ← avp_read grouped fuel m it; Ok (t :: ts)
      end
  end.

(** What an AVP must satisfy to be representable, and how it is read back. *)
Definition avp_node_ok (code flags vendor : Z) (body : list Z) : Prop :=
  0 <= code < 4294967296 ∧ 0 <= flags < 256 ∧ 0 <= vendor < 4294967296 ∧
  (vendor = 0 → set flags DIAM_AVP_F_VENDOR = false) ∧
  8 + mlen (vendor_bytes vendor ++ body) < 16777216.

Fixpoint avp_ok (grouped : Z → Z → bool) (t : avp) : Prop :=
  match t with
  | Plain code flags vendor data =>
      avp_node_ok code flags vendor data ∧ bytes_ok data ∧ grouped code vendor = false
  | Grp code flags vendor cs =>
      avp_node_ok code flags vendor (avps_bytes cs) ∧ grouped code vendor = true ∧
      (fix go cs := match cs with [] => True | c :: cs => avp_ok grouped c ∧ go cs end) cs
  end.

Fixpoint avp_norm (t : avp) : avp :=
  match t with
  | Plain code flags vendor data => Plain code (avp_flags flags vendor) vendor data
  | Grp code flags vendor cs => Grp code (avp_flags flags vendor) vendor (map avp_norm cs)
  end.

Lemma avp_oks grouped cs :
  (fix go cs := match cs with [] => True | c :: cs => avp_ok grouped c ∧ go cs end) cs
  ↔ Forall (avp_ok grouped) cs.
Proof. induction cs as [|c cs IH]; [by split|]. rewrite Forall_cons_iff. by rewrite <-IH. Qed.

Lemma vendor_range vendor : 0 <= mlen (vendor_bytes vendor) <= 4.
Proof. unfold vendor_bytes. destruct (vendor =? 0); mlia. Qed.

Lemma avp_flags_facts flags vendor :
  0 <= flags < 256 → (vendor = 0 → set flags DIAM_AVP_F_VENDOR = false) →
  0 <= avp_flags flags vendor < 256 ∧
  set (avp_flags flags vendor) DIAM_AVP_F_VENDOR = negb (vendor =? 0) ∧
  diam_flags flags vendor = (avp_flags flags vendor, DIAM_OK).
Proof.
  intros Hf Hv. unfold avp_flags, diam_flags. destruct (Z.eqb_spec vendor 0) as [E|E]; cbn [negb].
  - rewrite (Hv E). done.
  - split; [|split; [|done]]; revert Hf; generalize flags; intros b Hb; byte_decide b.
Qed.

Lemma node_len_fits code flags vendor body :
  avp_node_ok code flags vendor body → len_fits prof (mlen (vendor_bytes vendor ++ body)) = true.
Proof. intros (_ & _ & _ & _ & H). unfold len_fits, len_field. simpl. apply Z.ltb_lt. lia. Qed.

Lemma mlen_avp_entry code flags vendor body :
  mlen (avp_entry code flags vendor body) =
    8 + mlen (vendor_bytes vendor ++ body) +
    pad_len prof (8 + mlen (vendor_bytes vendor ++ body)).
Proof. unfold avp_entry. by rewrite mlen_tlv_entry by exact _. Qed.

Lemma diam_tlv_err_neg rc : rc ≠ 0 → diam_tlv_err rc < 0.
Proof.
  intros. unfold diam_tlv_err, TLV_OK, DIAM_E_OVERFLOW, DIAM_E_INVAL.
  destruct (Z.eqb_spec rc 0); [done|]. destruct (rc =? TLV_E_OVERFLOW); lia.
Qed.

Lemma wbuf_append_eq w bs n :
  wbuf_wf w → n = mlen bs →
  wbuf_append w (Some bs) n =
    Ok (if roomb w n then (append w bs, TLV_OK) else (set_overflow w, TLV_E_OVERFLOW)).
Proof.
  intros Hw ->. pose proof (mlen_nonneg bs). unfold wbuf_append. rewrite reserve_spec by done.
  destruct (roomb w (mlen bs)) eqn:Hr; [|done]. cbn [negb Z.eqb TLV_OK].
  unfold roomb in Hr. apply andb_true_iff in Hr as [_ Hr%Z.leb_le].
  destruct Hw as [Ho Hc]. unfold OBJ_MAX in *. unfold append.
  destruct (Z.eqb_spec (mlen bs) 0) as [E|E]; cbn [negb].
  - bstep. rewrite u64_small by lia. destruct bs; [by rewrite splice_nil|].
    rewrite mlen_cons in E. pose proof (mlen_nonneg bs). lia.
  - rewrite rdn_Ok, slice_full by lia. bstep. rewrite wrn_Ok by lia. bstep. by rewrite u64_small by lia.
Qed.

(** Opening an AVP writes its header, length open, and the Vendor-ID. *)
Lemma diam_avp_begin_eq w code flags vendor body :
  wbuf_wf w → w_cap w < 2147483648 → avp_node_ok code flags vendor body →
  roomb w (8 + mlen (vendor_bytes vendor)) = true →
  ∃ w1, diam_avp_begin (Some w) code flags vendor = Ok (Some w1, w_off w) ∧
    emits w w1 (tlv_hdr0 prof code (avp_flags flags vendor) ++ vendor_bytes vendor).
Proof.
  intros Hw Hc (Hcode & Hf & Hv & Hvf & _) Hr. pose proof (vendor_range vendor).
  destruct (avp_flags_facts flags vendor Hf Hvf) as (Hfr & _ & Hdf).
  unfold diam_avp_begin. rewrite Hdf. cbn [negb Z.eqb DIAM_OK].
  assert (roomb w 8 = true) as Hr0 by (eapply roomb_le; [|done]; lia).
  rewrite tlv_begin_eq by (exact _ || done). simpl (hdr_len _). rewrite Hr0. bstep.
  pose proof Hw as [Ho _]. rewrite i32_small by lia. destruct (Z.ltb_spec (w_off w) 0); [lia|].
  pose proof (append_emits w (tlv_hdr0 prof code (avp_flags flags vendor)) Hw) as He0.
  rewrite mlen_tlv_hdr0 in He0 by exact _. specialize (He0 Hr0).
  set (w0 := append _ _) in *. clearbody w0.
  unfold vendor_bytes in *. destruct (Z.eqb_spec vendor 0); cbn [negb].
  { exists w0. split; [done|]. by rewrite app_nil_r. }
  rewrite be32_store_bytes, wrn_first by mlia. rewrite splice_0, drop_ge, app_nil_r by (by rewrite length_be_bytes).
  assert (roomb w0 4 = true) as Hr1.
  { eapply emits_room; [exact Hw|exact He0|]. rewrite mlen_tlv_hdr0 by exact _. simpl.
    eapply roomb_le; [|exact Hr]. mlia. }
  rewrite wbuf_append_eq, Hr1 by (apply He0 || mlia). bstep. cbn [negb Z.eqb TLV_OK].
  eexists. split; [done|]. eapply emits_trans; [exact He0|]. apply append_emits; [apply He0|].
  by rewrite mlen_be_bytes.
Qed.

(** Closing it fills in the length and pads. *)
Lemma diam_avp_end_emits w w1 code flags vendor body :
  wbuf_wf w → avp_node_ok code flags vendor body →
  emits w w1 ((tlv_hdr0 prof code (avp_flags flags vendor) ++ vendor_bytes vendor) ++ body) →
  roomb w (mlen (avp_entry code flags vendor body)) = true →
  ∃ w2, tlv_end w1 prof (w_off w) = Ok (w2, TLV_OK) ∧ emits w w2 (avp_entry code flags vendor body).
Proof.
  intros Hw Hn He Hr. pose proof (node_len_fits _ _ _ _ Hn) as Hfit.
  pose proof He as (Hw1 & Hcap & Hov & Hwr). pose proof (roomb_overflow _ _ Hr) as Hno.
  rewrite mlen_avp_entry in Hr.
  destruct (tlv_end_eq prof w1 (written w) code (avp_flags flags vendor) (vendor_bytes vendor ++ body))
    as (w2 & Hend & Hw2 & Hc2 & Ho2 & Hwr2).
  - done.
  - congruence.
  - by rewrite Hwr, <-!app_assoc.
  - done.
  - eapply emits_room; [exact Hw|exact He|]. rewrite <-app_assoc, mlen_app, mlen_tlv_hdr0 by exact _.
    exact Hr.
  - rewrite mlen_written in Hend by done. exists w2. split; [done|]. split_and!; congruence || done.
Qed.

Definition avp_writes (grouped : Z → Z → bool) (t : avp) : Prop :=
  ∀ w, wbuf_wf w → w_cap w < 2147483648 → avp_ok grouped t → roomb w (mlen (avp_bytes t)) = true →
    ∃ w', avp_write (Some w) t = Ok (Some w', DIAM_OK) ∧ emits w w' (avp_bytes t).

Lemma plain_writes grouped code flags vendor data : avp_writes grouped (Plain code flags vendor data).
Proof.
  intros w Hw Hc (Hn & Hd & _) Hr. cbn [avp_write avp_bytes] in *.
  pose proof (node_len_fits _ _ _ _ Hn) as Hfit. pose proof Hn as (Hcode & Hf & Hv & Hvf & Hlen).
  destruct (avp_flags_facts flags vendor Hf Hvf) as (Hfr & _ & Hdf). pose proof (mlen_nonneg data).
  pose proof (vendor_range vendor) as Hvr. rewrite mlen_app in Hlen.
  unfold diam_avp_put. rewrite bool_decide_true, Hdf by done. cbn [negb andb Z.eqb DIAM_OK default].
  destruct (Z.eqb_spec vendor 0) as [E|E].
  - unfold avp_entry in *. replace (vendor_bytes vendor) with (@nil Z) in *
      by (unfold vendor_bytes; by rewrite E). rewrite app_nil_l in *.
    rewrite tlv_put_eq, Hfit, Hr by (exact _ || done || lia). bstep.
    eexists. split; [done|]. by apply append_emits.
  - rewrite mlen_avp_entry, mlen_app in Hr.
    pose proof (pad_len_range prof (8 + (mlen (vendor_bytes vendor) + mlen data))).
    assert (roomb w (8 + mlen (vendor_bytes vendor)) = true) as Hr0 by (eapply roomb_le; [|done]; lia).
    destruct (diam_avp_begin_eq w code flags vendor data Hw Hc Hn Hr0) as (w1 & Hb & He1).
    unfold diam_avp_begin in Hb. rewrite Hdf in Hb. cbn [negb Z.eqb DIAM_OK] in Hb.
    destruct (tlv_begin w prof code (avp_flags flags vendor)) as [[w0 h]| |]; try done. bstep.
    cbn [mbind res_bind] in Hb. destruct (Z.ltb_spec h 0) as [Hneg|Hpos].
    { injection Hb as _ Hb. pose proof Hw as [Ho _]. pose proof (diam_tlv_err_neg h). lia. }
    destruct (Z.eqb_spec vendor 0); [done|]. cbn [negb] in Hb.
    destruct (be32_store (uninit 4) 0 vendor) as [vid| |]; try done. bstep. cbn [mbind res_bind] in Hb.
    destruct (wbuf_append w0 (Some vid) 4) as [[w0' arc]| |]; try done. bstep. cbn [mbind res_bind] in Hb.
    destruct (Z.eqb_spec arc 0) as [Ea|Ea]; cbn [negb] in Hb.
    2: { injection Hb as _ Hb. pose proof Hw as [Ho _]. pose proof (diam_tlv_err_neg arc). lia. }
    injection Hb as -> ->.
    assert (roomb w1 (mlen data) = true) as Hr1.
    { eapply emits_room; [exact Hw|exact He1|]. rewrite mlen_app, mlen_tlv_hdr0 by exact _. simpl.
      eapply roomb_le; [|exact Hr]. lia. }
    rewrite wbuf_append_eq, Hr1 by (done || apply He1). bstep. cbn [negb Z.eqb TLV_OK].
    destruct (diam_avp_end_emits w (append w1 data) code flags vendor data) as (w2 & -> & He2);
      [done|done| |by rewrite mlen_avp_entry, mlen_app|].
    { eapply emits_trans; [exact He1|]. apply append_emits; [apply He1|done]. }
    bstep. by exists w2.
Qed.

Lemma avp_list_emits grouped ts w :
  Forall (avp_writes grouped) ts → wbuf_wf w → w_cap w < 2147483648 → Forall (avp_ok grouped) ts →
  roomb w (mlen (avps_bytes ts)) = true →
  ∃ w', avp_list avp_write (Some w) ts = Ok (Some w', DIAM_OK) ∧ emits w w' (avps_bytes ts).
Proof.
  intros Hts. revert w. induction Hts as [|t ts Ht _ IH]; intros w Hw Hc Hok Hr.
  { exists w. split; [done|]. by apply emits_refl. }
  apply Forall_cons_iff in Hok as [Hokt Hoks].
  unfold avps_bytes in Hr |- *. simpl in Hr |- *. fold (avps_bytes ts) in *.
  rewrite mlen_app in Hr. pose proof (mlen_nonneg (avps_bytes ts)).
  destruct (Ht w) as (w1 & -> & He1); [done..|eapply roomb_le; [|done]; lia|]. bstep.
  cbn [negb Z.eqb DIAM_OK].
  destruct (IH w1) as (w2 & -> & He2); [apply He1|destruct He1 as (_ & -> & _); lia|done
    |by eapply emits_room|].
  exists w2. split; [done|]. by eapply emits_trans.
Qed.

Lemma grp_writes grouped code flags vendor cs :
  Forall (avp_writes grouped) cs → avp_writes grouped (Grp code flags vendor cs).
Proof.
  intros Hcs w Hw Hc (Hn & Hg & Hok) Hr. apply avp_oks in Hok. cbn [avp_write avp_bytes] in *.
  fold (avps_bytes cs) in *. pose proof Hr as Hr'. rewrite mlen_avp_entry, mlen_app in Hr'.
  pose proof (pad_len_range prof (8 + (mlen (vendor_bytes vendor) + mlen (avps_bytes cs)))).
  pose proof (mlen_nonneg (avps_bytes cs)). pose proof (vendor_range vendor).
  destruct (diam_avp_begin_eq w code flags vendor (avps_bytes cs) Hw Hc Hn) as (w1 & -> & He1);
    [eapply roomb_le; [|done]; lia|]. bstep.
  pose proof Hw as [Ho _]. destruct (Z.ltb_spec (w_off w) 0); [lia|].
  destruct (avp_list_emits grouped cs w1) as (w2 & -> & He2);
    [done|apply He1|destruct He1 as (_ & -> & _); lia|done| |].
  { eapply emits_room; [exact Hw|exact He1|]. rewrite mlen_app, mlen_tlv_hdr0 by exact _. simpl.
    eapply roomb_le; [|exact Hr']. lia. }
  bstep. cbn [negb Z.eqb DIAM_OK]. unfold diam_avp_end.
  destruct (diam_avp_end_emits w w2 code flags vendor (avps_bytes cs)) as (w3 & -> & He3);
    [done|done|by eapply emits_trans|done|].
  bstep. by exists w3.
Qed.

Lemma avp_writes_all grouped t : avp_writes grouped t.
Proof. induction t using avp_ind'; [apply plain_writes|by apply grp_writes]. Qed.

Lemma avp_entry_ok code flags vendor body :
  avp_node_ok code flags vendor body → bytes_ok body → bytes_ok (avp_entry code flags vendor body).
Proof.
  intros (Hcode & Hf & Hv & Hvf & Hlen) Hb.
  destruct (avp_flags_facts flags vendor Hf Hvf) as (Hfr & _).
  apply tlv_entry_ok; [exact _| |].
  - unfold node_ok. simpl. split_and!; try lia. unfold len_fits, len_field. simpl. apply Z.ltb_lt. lia.
  - apply bytes_ok_app. split; [|done]. unfold vendor_bytes. destruct (_ =? _); bytes_tac.
Qed.

Lemma avps_bytes_ok grouped ts :
  Forall (λ t, avp_ok grouped t → bytes_ok (avp_bytes t)) ts →
  Forall (avp_ok grouped) ts → bytes_ok (avps_bytes ts).
Proof.
  unfold avps_bytes. induction 1 as [|t ts Ht _ IH]; simpl; [constructor|].
  rewrite Forall_cons_iff. intros [? ?]. apply bytes_ok_app. auto.
Qed.

Lemma avp_bytes_ok grouped t : avp_ok grouped t → bytes_ok (avp_bytes t).
Proof.
  induction t as [code flags vendor data|code flags vendor cs IH] using avp_ind'; simpl.
  - intros (? & ? & ?). by apply avp_entry_ok.
  - rewrite avp_oks. intros (? & _ & Hcs). apply avp_entry_ok; [done|]. by eapply avps_bytes_ok.
Qed.

(** An encoded AVP at the cursor is what the iterator yields, Vendor-ID taken out
    of its value. *)
Lemma next_avp m it code flags vendor body rest :
  iter_wf prof m it → avp_node_ok code flags vendor body →
  slice m (it_cur it) (it_end it - it_cur it) = avp_entry code flags vendor body ++ rest →
  diam_avp_iter_next m it =
    Ok (Some ({| a_code := code; a_flags := avp_flags flags vendor; a_vendor_id := vendor;
                 a_len := mlen body; a_value := it_cur it + 8 + mlen (vendor_bytes vendor) |},
              {| it_cur := it_cur it + mlen (avp_entry code flags vendor body);
                 it_end := it_end it; it_prof := prof |})) ∧
  slice m (it_cur it + 8 + mlen (vendor_bytes vendor)) (mlen body) = body.
Proof.
  intros Hwf Hn Hs. pose proof (node_len_fits _ _ _ _ Hn) as Hfit.
  pose proof Hn as (Hcode & Hf & Hv & Hvf & Hlen).
  destruct (avp_flags_facts flags vendor Hf Hvf) as (_ & Hset & _).
  pose proof Hwf as (Hp & Hok & Hmx & Hcur & Hend).
  assert (it_end it - it_cur it = mlen (avp_entry code flags vendor body) + mlen rest) as Hsz
    by (rewrite <-mlen_app, <-Hs, mlen_slice by lia; done).
  pose proof (mlen_nonneg rest). pose proof (mlen_nonneg body). pose proof (vendor_range vendor).
  pose proof (pad_len_range prof (8 + mlen (vendor_bytes vendor ++ body))).
  rewrite mlen_avp_entry in Hsz.
  pose proof Hs as Hs'. unfold avp_entry in Hs'.
  apply entry_layout in Hs' as (_ & Hval & _); [|exact _|lia..]. simpl (hdr_len _) in Hval.
  assert (mlen (vendor_bytes vendor ++ body) = mlen (vendor_bytes vendor) + mlen body) as Hvb by apply mlen_app.
  assert (∀ i k, 0 <= i → 0 <= k → i + k <= mlen (vendor_bytes vendor ++ body) →
    slice m (it_cur it + 8 + i) k = slice (vendor_bytes vendor ++ body) i k) as Hsl.
  { intros. rewrite <-Hval. by rewrite slice_slice by lia. }
  split; [|rewrite Hsl, slice_app_ge by lia; apply slice_whole; lia].
  unfold diam_avp_iter_next.
  rewrite (iter_next_entry prof m it code (avp_flags flags vendor) (vendor_bytes vendor ++ body) rest)
    by (done || exact _). bstep. simpl (v_meta _). change (meta_off prof =? TLV_NO_META) with false.
  cbn iota. rewrite Hset. fold (avp_entry code flags vendor body).
  cbn [v_len v_type v_value hdr_len prof].
  destruct (Z.eqb_spec vendor 0) as [E|E]; cbn [negb].
  - assert (vendor_bytes vendor = []) as Hvn by (unfold vendor_bytes; by rewrite E).
    rewrite Hvn, E. rewrite mlen_nil, Z.add_0_r. done.
  - assert (vendor_bytes vendor = be_bytes 4 vendor) as Hvn
      by (unfold vendor_bytes; by destruct (Z.eqb_spec vendor 0)).
    assert (mlen (vendor_bytes vendor) = 4) as Hv4 by (by rewrite Hvn, mlen_be_bytes).
    destruct (Z.ltb_spec (mlen (vendor_bytes vendor ++ body)) 4); [lia|].
    rewrite be32_load_val by (done || lia). bstep.
    replace (slice m (it_cur it + 8) 4) with (be_bytes 4 vendor).
    2: { rewrite <-(Z.add_0_r (it_cur it + 8)), Hsl, Hvn by lia. slice_at. done. }
    rewrite be_val_bytes, Z.mod_small by (simpl Z.of_nat; lia).
    rewrite u32_small, Hvb, Hv4 by lia. by replace (4 + mlen body - 4) with (mlen body) by lia.
Qed.

(** Reading a stream of encoded AVPs gives the AVPs back. *)
Lemma avp_read_bytes grouped fuel : ∀ m it ts,
  (Z.to_nat (it_end it - it_cur it) < fuel)%nat → iter_wf prof m it →
  Forall (avp_ok grouped) ts → slice m (it_cur it) (it_end it - it_cur it) = avps_bytes ts →
  avp_read grouped fuel m it = Ok (map avp_norm ts).
Proof.
  induction fuel as [|fuel IH]; intros m it ts Hfu Hwf Hok Hs; [lia|].
  pose proof Hwf as (Hp & Hb & Hmx & Hcur & Hend). cbn [avp_read].
  destruct ts as [|t ts].
  { assert (mlen (slice m (it_cur it) (it_end it - it_cur it)) = 0) as Hl by by rewrite Hs.
    rewrite mlen_slice in Hl by lia. unfold diam_avp_iter_next, tlv_iter_next.
    rewrite u64_small by (unfold OBJ_MAX in *; lia). rewrite Hp.
    destruct (Z.ltb_spec (it_end it - it_cur it) (hdr_len prof)); [done|simpl in *; lia]. }
  apply Forall_cons_iff in Hok as [Hokt Hoks].
  unfold avps_bytes in Hs; simpl in Hs. fold (avps_bytes ts) in Hs.
  assert (∃ code flags vendor body, avp_bytes t = avp_entry code flags vendor body ∧
    avp_node_ok code flags vendor body ∧
    (t = Plain code flags vendor body ∧ grouped code vendor = false ∨
     ∃ cs, t = Grp code flags vendor cs ∧ grouped code vendor = true ∧ body = avps_bytes cs ∧
       Forall (avp_ok grouped) cs)) as (code & flags & vendor & body & Hbt & Hn & Ht).
  { destruct t as [code flags vendor data|code flags vendor cs]; simpl in Hokt.
    - destruct Hokt as (? & ? & ?). exists code, flags, vendor, data. auto.
    - rewrite avp_oks in Hokt. destruct Hokt as (? & ? & ?).
      exists code, flags, vendor, (avps_bytes cs). split_and!; [done..|]. right. eauto. }
  rewrite Hbt in Hs.
  destruct (next_avp m it code flags vendor body (avps_bytes ts) Hwf Hn Hs) as [-> Hbody]. bstep.
  assert (it_end it - it_cur it = mlen (avp_entry code flags vendor body) + mlen (avps_bytes ts)) as Hsz
    by (rewrite <-mlen_app, <-Hs, mlen_slice by lia; done).
  pose proof (mlen_avp_entry code flags vendor body) as Hel. rewrite mlen_app in Hel.
  pose proof (mlen_nonneg body). pose proof (vendor_range vendor). pose proof (mlen_nonneg (avps_bytes ts)).
  pose proof (pad_len_range prof (8 + (mlen (vendor_bytes vendor) + mlen body))).
  cbn [a_code a_vendor_id a_flags a_value a_len].
  rewrite (IH m _ ts); [|simpl; lia|split_and!; simpl; done || lia|done|simpl].
  - destruct Ht as [[-> ->]|(cs & -> & -> & Hcs & Hok')].
    + rewrite rdn_Ok, Hbody by lia. done.
    + rewrite (IH m _ cs); [done|simpl; lia|split_and!; simpl; done || lia|done|simpl].
      rewrite <-Hcs. etransitivity; [|exact Hbody]. f_equal. lia.
  - rewrite <-(slice_slice m (it_cur it) (it_end it - it_cur it)), Hs by lia.
    rewrite slice_app_ge by lia. apply slice_whole; lia.
Qed.
End avps.

(** ** Whole messages *)

Definition diam_message_write `{HO : HostOrder} (buf : mem) (h : diam_hdr) (ts : list avp) :
    res (option tlv_wbuf * Z) :=
  let w := diam_wbuf_init buf (mlen buf) in
  '(b, n) ← diam_hdr_encode (Some (w_buf w)) (w_cap w) (Some h);
  if n <? 0 then Ok (Some w, n) else
  '(w, rc) ← avp_list avp_write (Some (set_buf w (default [] b) n)) ts;
  if negb (rc =? 0) then Ok (w, rc) else diam_hdr_finalize w 0.

Definition diam_message_read `{HO : HostOrder} (grouped : Z → Z → bool) (m : mem) :
    res (diam_hdr * list avp) :=
  '(h, n) ← diam_hdr_decode (Some m) (mlen m) true;
  ts ← avp_read grouped (S (length m)) m (diam_avp_iter_init n (d_length h - n));
  Ok (h, ts).

Lemma diam_hdr_finalize_eq w h body :
  wbuf_wf w → w_overflow w = false → written w = hdr_bytes h ++ body → w_off w < 16777216 →
  ∃ w', diam_hdr_finalize (Some w) 0 = Ok (Some w', DIAM_OK) ∧ w_off w' = w_off w ∧
    written w' = hdr_bytes (set_length h (w_off w)) ++ body.
Proof.
  intros Hw Hno Hwr Hlim. pose proof (mlen_written w Hw) as Hoff.
  rewrite Hwr, mlen_app, diam_mlen_hdr_bytes in Hoff. pose proof (mlen_nonneg body).
  destruct Hw as [Ho Hc]. unfold OBJ_MAX in *.
  unfold diam_hdr_finalize, DIAM_HDR_LEN. rewrite Hno, (u64_small (0 + 20)) by lia.
  destruct (Z.ltb_spec (w_off w) (0 + 20)); [lia|]. rewrite Z.sub_0_r, u64_small by lia.
  destruct (Z.ltb_spec 16777215 (w_off w)); [lia|].
  rewrite be24_store_bytes, u32_small, wrn_Ok by mlia. bstep.
  eexists. split; [done|]. split; [done|]. unfold written; cbn [set_buf w_buf w_off].
  rewrite take_splice by mlia. fold (written w). rewrite Hwr.
  rewrite splice_app_l by (rewrite ?diam_mlen_hdr_bytes; mlia). reflexivity.
Qed.

Lemma avps_mod4 `{HO : HostOrder} ts : mlen (avps_bytes ts) mod 4 = 0.
Proof.
  assert (∀ t, mlen (avp_bytes t) mod 4 = 0) as H.
  { assert (∀ n, (n + pad_len TLV_PROF_DIAMETER n) mod 4 = 0) as Hp.
    { intros n. unfold pad_len; simpl. destruct (Z.eqb_spec (n mod 4) 0);
        Z.to_euclidean_division_equations; lia. }
    intros [code flags vendor data|code flags vendor cs]; simpl; rewrite mlen_avp_entry; apply Hp. }
  unfold avps_bytes. induction ts as [|t ts IH]; simpl; [done|].
  rewrite mlen_app, Z.add_mod, H, IH by lia. done.
Qed.

(** C28: a Diameter message round trips: a header, plain and grouped AVPs with or
    without a Vendor-ID written after it and the length backfilled decode to the
    same header, carrying the message's length, and to the same AVPs, the V bit
    set on those with a vendor. *)
Theorem diam_message_roundtrip `{HO : HostOrder} grouped h ts buf :
  hdr_ok h → Forall (avp_ok grouped) ts →
  20 + mlen (avps_bytes ts) <= Z.min (mlen buf) 16777215 → mlen buf < 2147483648 →
  ∃ w, diam_message_write buf h ts = Ok (Some w, DIAM_OK) ∧
    w_off w = 20 + mlen (avps_bytes ts) ∧
    diam_message_read grouped (written w) = Ok (set_length h (w_off w), map avp_norm ts).
Proof.
  intros Hh Hts Hlen Hbuf. pose proof (avps_mod4 ts) as Hmod. set (body := avps_bytes ts) in *.
  pose proof (mlen_nonneg body). pose proof (diam_mlen_hdr_bytes h) as Hhl.
  unfold diam_message_write. rewrite diam_hdr_encode_eq by (simpl; done || lia). simpl.
  destruct (Z.ltb_spec (mlen buf) 20); [lia|]. bstep. change (20 <? 0) with false. cbn iota.
  set (w0 := set_buf _ _ _).
  assert (wbuf_wf w0) as Hw0.
  { unfold wbuf_wf, w0, OBJ_MAX; simpl. rewrite mlen_splice by lia. lia. }
  assert (written w0 = hdr_bytes h) as Hwr0.
  { change (written w0) with (take (Z.to_nat 20) (splice buf 0 (hdr_bytes h))).
    rewrite <-Hhl. rewrite <-(Z.add_0_l (mlen (hdr_bytes h))), take_splice_end by lia. done. }
  destruct (avp_list_emits grouped ts w0) as (w1 & Hwl & He).
  { apply Forall_forall. intros. by apply avp_writes_all. }
  { done. } { simpl. lia. } { done. }
  { unfold roomb; simpl. fold body. lia. }
  fold body in He. rewrite Hwl. bstep. cbn [negb Z.eqb DIAM_OK].
  pose proof (emits_off _ _ _ Hw0 He) as Hoff. destruct He as (Hw1 & Hcap & Hov & Hwr1).
  rewrite Hwr0 in Hwr1. simpl in Hoff.
  destruct (diam_hdr_finalize_eq w1 h body) as (w2 & Hfin & Hoff2 & Hwr2); [done..|lia|].
  exists w2. split; [done|]. split; [lia|]. rewrite Hoff2, Hwr2.
  assert (bytes_ok body) as Hbok.
  { eapply avps_bytes_ok; [|done]. apply Forall_forall. intros. by eapply avp_bytes_ok. }
  set (h' := set_length h (w_off w1)). pose proof (diam_mlen_hdr_bytes h') as Hhl'.
  assert (hdr_ok h') as Hh' by (destruct Hh as (? & ? & ? & ? & ?); split_and!; simpl; lia || done).
  assert (mlen (hdr_bytes h' ++ body) = d_length h') as Hml by (rewrite mlen_app; simpl; lia).
  unfold diam_message_read. rewrite Hml, diam_hdr_decode_bytes.
  2: done. 2: done. 2: simpl; lia.
  2: { simpl. rewrite Hoff, Z.add_mod, Hmod by lia. done. }
  bstep. change (d_length (set_length h' (d_length h'))) with (w_off w1).
  assert (bytes_ok (hdr_bytes h' ++ body)) as Hmok by (apply bytes_ok_app; split; [apply diam_hdr_bytes_ok|done]).
  assert (slice (hdr_bytes h' ++ body) 20 (mlen body) = body) as Hsl
    by (rewrite slice_app_ge by lia; apply slice_whole; lia).
  change (d_length h') with (w_off w1) in Hml.
  set (m := hdr_bytes h' ++ body) in *. clearbody m.
  rewrite (avp_read_bytes grouped _ m _ ts); [done|unfold mlen in *; simpl; lia| |done|].
  - unfold iter_wf, OBJ_MAX; simpl. split_and!; done || lia.
  - simpl. by replace (20 + (w_off w1 - 20) - 20) with (mlen body) by lia.
Qed.

Lemma diam_message_roundtrip_witness :
  let h := DiamHdr 1 0 true true false false 272 4 1 2 in
  let ts := [Plain 263 64 0 [97; 98; 99]; Grp 456 64 10415 [Plain 432 64 0 [0; 0; 0; 1]]] in
  ∃ w, @diam_message_write false (zeros 128) h ts = Ok (Some w, DIAM_OK) ∧ w_off w = 56 ∧
    @diam_message_read false (λ c v, c =? 456) (written w) =
      Ok (set_length h 56,
          [Plain 263 64 0 [97; 98; 99]; Grp 456 192 10415 [Plain 432 64 0 [0; 0; 0; 1]]]).
Proof.
  cbn zeta. set (h := DiamHdr 1 0 true true false false 272 4 1 2).
  set (ts := [Plain 263 64 0 [97; 98; 99]; Grp 456 64 10415 [Plain 432 64 0 [0; 0; 0; 1]]]).
  destruct (@diam_message_roundtrip false (λ c v, c =? 456) h ts (zeros 128)) as (w & H1 & H2 & H3).
  - unfold hdr_ok; simpl. lia.
  - unfold ts. repeat apply Forall_cons_2; [..|apply Forall_nil_2]; simpl; unfold avp_node_ok;
      split_and!; try lia; try done; bytes_tac.
  - by vm_compute.
  - by vm_compute.
  - exists w. assert (w_off w = 56) as Hw by (rewrite H2; by vm_compute). rewrite Hw in H3.
    split_and!; [exact H1|exact Hw|exact H3].
Defined.

(** ** Lookup and typed values *)

Section lookup.
Context `{HO : HostOrder}.
Abbreviation prof := TLV_PROF_DIAMETER.

(** The caller's loop [while (diam_avp_iter_next(&it, &v))]. *)
Fixpoint diam_walk (fuel : nat) (m : mem) (it : tlv_iter) : res (list diam_avp_view) :=
  match fuel with
  | O => Ub
  | S fuel =>
      r ← diam_avp_iter_next m it;
      match r with
      | None => Ok []
      | Some (v, it) => vs ← diam_walk fuel m it; Ok (v :: vs)
      end
  end.

Definition avp_in (it : tlv_iter) (v : diam_avp_view) : Prop :=
  it_cur it + 8 <= a_value v ∧ 0 <= a_len v ∧ a_value v + a_len v <= it_end it ∧
  (set (a_flags v) DIAM_AVP_F_VENDOR = false → a_vendor_id v = 0).

(** One step either stops or yields an AVP inside the range and moves on. *)
Lemma diam_next_safe m it : iter_wf prof m it →
  diam_avp_iter_next m it = Ok None ∨
  ∃ v it', diam_avp_iter_next m it = Ok (Some (v, it')) ∧ iter_wf prof m it' ∧ avp_in it v ∧
    it_end it' = it_end it ∧ it_cur it + 8 <= it_cur it'.
Proof.
  intros Hwf. unfold diam_avp_iter_next.
  destruct (iter_next_safe prof m it Hwf)
    as [->|(v & it' & E & Hwf' & (Hi1 & Hi2 & Hi3) & Hval & Hend & Hcur)]; [by left|].
  destruct (iter_next_ranges prof m it v it' Hwf E) as (Hty & Hvl & Hmt).
  rewrite E. bstep. simpl (hdr_len _) in *. change (256 ^ len_size prof) with 16777216 in Hvl.
  pose proof Hwf as (_ & Hok & Hmx & Hc & He).
  destruct (set (v_meta v) DIAM_AVP_F_VENDOR) eqn:Ev.
  - destruct (Z.ltb_spec (v_len v) 4); [by left|right].
    rewrite be32_load_val by (done || lia). bstep. do 2 eexists. split; [done|].
    split; [done|]. unfold avp_in; simpl. rewrite u32_small, Ev by lia. split_and!; done || lia.
  - right. do 2 eexists. split; [done|]. split; [done|]. unfold avp_in; simpl. split_and!; done || lia.
Qed.

Lemma diam_walk_find fuel : ∀ m it code vendor,
  (Z.to_nat (it_end it - it_cur it) < fuel)%nat → iter_wf prof m it →
  ∃ vs, diam_walk fuel m it = Ok vs ∧ Forall (avp_in it) vs ∧
    find_loop fuel m it code vendor =
      Ok (find (λ v, (a_code v =? code) && (a_vendor_id v =? vendor)) vs).
Proof.
  induction fuel as [|fuel IH]; intros m it code vendor Hf Hwf; [lia|]. cbn [diam_walk find_loop].
  destruct (diam_next_safe m it Hwf) as [->|(v & it' & -> & Hwf' & Hin & Hend & Hcur)]; bstep.
  { exists []. split_and!; [done|apply Forall_nil_2|done]. }
  pose proof Hwf as (_ & _ & _ & ? & ?). pose proof Hwf' as (_ & _ & _ & ? & _).
  destruct (IH m it' code vendor) as (vs & -> & Hall & Hfind); [lia|done|]. bstep.
  exists (v :: vs). split_and!; [done| |].
  - apply Forall_cons. split; [done|]. eapply Forall_impl; [exact Hall|].
    intros v' (? & ? & ? & ?). unfold avp_in. split_and!; done || lia.
  - cbn [find]. destruct (_ && _); [done|exact Hfind].
Qed.

(** Over any payload the AVP walk is memory-safe, ends, and yields data ranges
    inside the payload, and diam_avp_find returns the first AVP of that walk with
    the wanted code and vendor, or false when there is none. *)
Theorem diam_avp_find_first m payload len code vendor :
  bytes_ok m → 0 <= payload → 0 <= len → payload + len <= mlen m <= OBJ_MAX →
  ∃ vs, diam_walk (S (Z.to_nat len)) m (diam_avp_iter_init payload len) = Ok vs ∧
    Forall (λ v, payload <= a_value v ∧ a_value v + a_len v <= payload + len ∧ 0 <= a_len v) vs ∧
    diam_avp_find m payload len code vendor =
      Ok (find (λ v, (a_code v =? code) && (a_vendor_id v =? vendor)) vs).
Proof.
  intros Hm Hp Hl He.
  destruct (diam_walk_find (S (Z.to_nat len)) m (diam_avp_iter_init payload len) code vendor)
    as (vs & Hw & Hall & Hf).
  - simpl. lia.
  - unfold iter_wf; simpl. split_and!; done || lia.
  - exists vs. split_and!; [done| |done]. eapply Forall_impl; [exact Hall|].
    intros v (? & ? & ? & _). simpl in *. lia.
Qed.

(** What was put last is found by an iterator started before it. *)
Lemma put_then_next w code flags vendor bs :
  wbuf_wf w → bytes_ok (written w) → w_cap w < 2147483648 → bytes_ok bs → mlen bs <= 8 →
  avp_node_ok code flags vendor bs → roomb w 28 = true →
  ∃ w' v it', diam_avp_put (Some w) code flags vendor (Some bs) (mlen bs) = Ok (Some w', DIAM_OK) ∧
    bytes_ok (written w') ∧
    diam_avp_iter_next (written w') (diam_avp_iter_init (w_off w) (w_off w' - w_off w)) =
      Ok (Some (v, it')) ∧
    (a_code v = code ∧ a_vendor_id v = vendor ∧ a_len v = mlen bs) ∧
    (0 <= a_value v ∧ a_value v + a_len v <= mlen (written w')) ∧
    slice (written w') (a_value v) (mlen bs) = bs.
Proof.
  intros Hw Hwok Hc Hbs Hbl Hn Hr. pose proof (vendor_range vendor). pose proof (mlen_nonneg bs).
  pose proof (mlen_avp_entry code flags vendor bs) as Hel. rewrite mlen_app in Hel.
  assert (pad_len prof (8 + (mlen (vendor_bytes vendor) + mlen bs)) <= 3 ∧
    0 <= pad_len prof (8 + (mlen (vendor_bytes vendor) + mlen bs))) as [Hpad Hpad0].
  { split; [|apply pad_len_range; exact _]. unfold pad_len; simpl.
    pose proof (Z.mod_pos_bound (8 + (mlen (vendor_bytes vendor) + mlen bs)) 4).
    destruct (Z.eqb_spec ((8 + (mlen (vendor_bytes vendor) + mlen bs)) mod 4) 0); lia. }
  destruct (plain_writes (λ _ _, false) code flags vendor bs w Hw Hc) as (w' & Hput & He).
  { split_and!; done. }
  { eapply roomb_le; [|exact Hr]. cbn [avp_bytes]. lia. }
  cbn [avp_write avp_bytes] in Hput, He. pose proof (emits_off _ _ _ Hw He) as Hoff.
  destruct He as (Hw' & _ & _ & Hwr). pose proof Hw' as [Ho' [Hc' Hm']]. pose proof Hw as [Ho _].
  pose proof (mlen_written w' Hw') as Hml. pose proof (mlen_written w Hw) as Hml0.
  assert (bytes_ok (written w')) as Hok'.
  { rewrite Hwr. apply bytes_ok_app. split; [done|]. by apply avp_entry_ok. }
  destruct (next_avp (written w') (diam_avp_iter_init (w_off w) (w_off w' - w_off w))
    code flags vendor bs []) as [Hnext Hsl].
  - unfold iter_wf; simpl. split_and!; done || lia.
  - done.
  - rewrite app_nil_r, Hwr. cbn [diam_avp_iter_init tlv_iter_init it_cur it_end].
    rewrite slice_app_ge by lia. apply slice_whole; lia.
  - eexists w', _, _. split_and!; [done|done|exact Hnext|done..|simpl; lia|simpl; lia|exact Hsl].
Qed.
End lookup.

Lemma store32_uninit v : be32_store (uninit 4) 0 v = Ok (be_bytes 4 v).
Proof. by rewrite be32_store_bytes. Qed.
Lemma store64_uninit v : be64_store (uninit 8) 0 v = Ok (be_bytes 8 v).
Proof. by rewrite be64_store_bytes. Qed.

(** The view [v] shows [bs]. *)
Definition shows (m : mem) (v : diam_avp_view) (bs : list Z) : Prop :=
  bytes_ok m ∧ 0 <= a_value v ∧ a_value v + a_len v <= mlen m ∧ a_len v = mlen bs ∧
  slice m (a_value v) (mlen bs) = bs.

Lemma diam_avp_u32_eq m v x : shows m v (be_bytes 4 x) →
  diam_avp_u32 m (Some v) true = Ok (x mod 2 ^ 32).
Proof.
  intros (Hm & H0 & He & Hl & Hs). rewrite mlen_be_bytes in *. unfold diam_avp_u32. rewrite Hl.
  simpl. rewrite be32_load_val by (done || lia). f_equal. rewrite (Hs : slice _ _ 4 = _).
  exact (be_val_bytes 4 x).
Qed.
Lemma diam_avp_u64_eq m v x : shows m v (be_bytes 8 x) →
  diam_avp_u64 m (Some v) true = Ok (x mod 2 ^ 64).
Proof.
  intros (Hm & H0 & He & Hl & Hs). rewrite mlen_be_bytes in *. unfold diam_avp_u64. rewrite Hl.
  simpl. rewrite be64_load_val by (done || lia). f_equal. rewrite (Hs : slice _ _ 8 = _).
  exact (be_val_bytes 8 x).
Qed.

(** The typed put [put] and reader [read] agree on [x]. *)
Definition typed_roundtrip (w : tlv_wbuf) (code vendor : Z)
    (put : option tlv_wbuf → Z → res (option tlv_wbuf * Z))
    (next : mem → tlv_iter → res (option (diam_avp_view * tlv_iter)))
    (read : mem → option diam_avp_view → bool → res Z) (x : Z) : Prop :=
  ∃ w' v it', put (Some w) x = Ok (Some w', DIAM_OK) ∧
    next (written w') (diam_avp_iter_init (w_off w) (w_off w' - w_off w)) = Ok (Some (v, it')) ∧
    a_code v = code ∧ a_vendor_id v = vendor ∧ read (written w') (Some v) true = Ok x.

(** Integers written as AVPs are read back: a 32- or 64-bit, signed or unsigned
    value put with a code and an optional vendor is found by the iterator at the
    place it was written and the reader of its type returns it. *)
Theorem diam_typed_roundtrip `{HO : HostOrder} w code flags vendor x :
  wbuf_wf w → bytes_ok (written w) → w_cap w < 2147483648 →
  avp_node_ok code flags vendor (zeros 8) → roomb w 28 = true →
  let rt put read := typed_roundtrip w code vendor (λ w x, put w code flags vendor x)
                       diam_avp_iter_next read x in
  (0 <= x < 2 ^ 32 → rt diam_avp_put_u32 diam_avp_u32) ∧
  (0 <= x < 2 ^ 64 → rt diam_avp_put_u64 diam_avp_u64) ∧
  (- 2 ^ 31 <= x < 2 ^ 31 → rt diam_avp_put_i32 diam_avp_i32) ∧
  (- 2 ^ 63 <= x < 2 ^ 63 → rt diam_avp_put_i64 diam_avp_i64).
Proof.
  intros Hw Hwok Hc Hn Hr rt.
  assert (∀ k y, (k = 4 ∨ k = 8)%nat →
    ∃ w' v it', diam_avp_put (Some w) code flags vendor (Some (be_bytes k y)) (Z.of_nat k) =
        Ok (Some w', DIAM_OK) ∧
      diam_avp_iter_next (written w') (diam_avp_iter_init (w_off w) (w_off w' - w_off w)) =
        Ok (Some (v, it')) ∧ (a_code v = code ∧ a_vendor_id v = vendor) ∧
      shows (written w') v (be_bytes k y)) as Hput.
  { intros k y Hk. assert (Z.of_nat k <= 8) by lia. rewrite <-(mlen_be_bytes k y).
    destruct (put_then_next w code flags vendor (be_bytes k y))
      as (w' & v & it' & H1 & H2 & H3 & (H4 & H5 & H6) & (H7 & H8) & H9); try done.
    - apply be_bytes_ok.
    - by rewrite mlen_be_bytes.
    - destruct Hn as (? & ? & ? & ? & Hlen). unfold avp_node_ok. split_and!; try done; try lia.
      rewrite mlen_app, mlen_zeros in Hlen by lia. mlia.
    - exists w', v, it'. split_and!; try done. }
  split_and!; intros Hx; unfold rt, typed_roundtrip, diam_avp_put_i32, diam_avp_put_i64,
    diam_avp_put_u32, diam_avp_put_u64, diam_avp_i32, diam_avp_i64;
    rewrite ?store32_uninit, ?store64_uninit; bstep.
  - destruct (Hput 4%nat x ltac:(lia)) as (w' & v & it' & H1 & H2 & [H3 H4] & H5).
    exists w', v, it'. split_and!; try done. by rewrite (diam_avp_u32_eq _ _ x), Z.mod_small.
  - destruct (Hput 8%nat x ltac:(lia)) as (w' & v & it' & H1 & H2 & [H3 H4] & H5).
    exists w', v, it'. split_and!; try done. by rewrite (diam_avp_u64_eq _ _ x), Z.mod_small.
  - destruct (Hput 4%nat (u32 x) ltac:(lia)) as (w' & v & it' & H1 & H2 & [H3 H4] & H5).
    exists w', v, it'. split_and!; try done. rewrite (diam_avp_u32_eq _ _ (u32 x)) by done. bstep.
    f_equal. rewrite Z.mod_small by apply u32_range. apply i32_u32. lia.
  - destruct (Hput 8%nat (u64 x) ltac:(lia)) as (w' & v & it' & H1 & H2 & [H3 H4] & H5).
    exists w', v, it'. split_and!; try done. rewrite (diam_avp_u64_eq _ _ (u64 x)) by done. bstep.
    f_equal. rewrite Z.mod_small by apply u64_range. apply i64_u64. lia.
Qed.

Lemma diam_typed_roundtrip_witness :
  ∃ w' v it', @diam_avp_put_i32 false (Some (diam_wbuf_init (zeros 40) 40)) 900 64 10415 (-5) =
      Ok (Some w', DIAM_OK) ∧
    @diam_avp_iter_next false (written w') (diam_avp_iter_init 0 (w_off w' - 0)) = Ok (Some (v, it')) ∧
    a_code v = 900 ∧ a_vendor_id v = 10415 ∧ diam_avp_i32 (written w') (Some v) true = Ok (-5).
Proof.
  apply (@diam_typed_roundtrip false (diam_wbuf_init (zeros 40) 40) 900 64 10415 (-5));
    [by vm_compute|apply bytes_ok_nil|by vm_compute| |done|by vm_compute].
  unfold avp_node_ok. split_and!; try lia. by vm_compute.
Defined.

Lemma diam_avp_find_first_witness :
  let m := [0; 0; 1; 7; 64; 0; 0; 9; 65; 0; 0; 0; 0; 0; 1; 8; 64; 0; 0; 8] in
  ∃ vs, @diam_walk false 21 m (diam_avp_iter_init 0 20) = Ok vs ∧
    @diam_avp_find false m 0 20 264 0 =
      Ok (find (λ v, (a_code v =? 264) && (a_vendor_id v =? 0)) vs) ∧
    @diam_avp_find false m 0 20 264 0 = Ok (Some (DiamAvpView 264 64 0 0 20)).
Proof.
  cbn zeta. set (m := [0; 0; 1; 7; 64; 0; 0; 9; 65; 0; 0; 0; 0; 0; 1; 8; 64; 0; 0; 8]).
  assert (bytes_ok m) as Hm by (unfold m; bytes_tac).
  destruct (@diam_avp_find_first false m 0 20 264 0 Hm) as (vs & H1 & _ & H2);
    [lia|lia|by vm_compute|].
  exists vs. split_and!; [exact H1|exact H2|by vm_compute].
Defined.

End Diam.
