(* ===== verification/Rtp.v ===== *)
(** * Rtp: RTP packets and the receiver's source statistics

    Models [rtp/src/rtp.c]: the octet accessors of [rtp_intl.h], the packet
    parser and encoder, the per-source tracker of RFC 3550 appendix A (sequence
    validation, extended sequence numbers, jitter, report blocks) and the NTP
    conversion.  A pointer is a buffer with an offset into it, or NULL. *)

From S2P Require Import Prelude Endian.

Module Rtp.

Definition RTP_OK : Z := 0.
Definition RTP_E_SHORT : Z := -1.
Definition RTP_E_VERSION : Z := -2.
Definition RTP_E_FORMAT : Z := -3.
Definition RTP_E_OVERFLOW : Z := -4.
Definition RTP_E_INVAL : Z := -5.
Definition RTP_VERSION : Z := 2.
Definition RTP_MAX_CSRC : Z := 15.
Definition RTP_HDR_LEN : Z := 12.

(** ** Octet accessors *)

Definition rtp_rd16 (m : mem) (p : Z) : res Z :=
  a ← rd m p; b ← rd m (p + 1); Ok (u16 (Z.lor (Z.shiftl a 8) b)).

Definition rtp_rd32 (m : mem) (p : Z) : res Z :=
  a ← rd m p; b ← rd m (p + 1); c ← rd m (p + 2); d ← rd m (p + 3);
  Ok (Z.lor (Z.lor (Z.lor (Z.shiftl a 24) (Z.shiftl b 16)) (Z.shiftl c 8)) d).

Definition rtp_wr16 (m : mem) (p v : Z) : res mem :=
  m ← wr m p (u8 (Z.shiftr v 8)); wr m (p + 1) (u8 v).

Definition rtp_wr32 (m : mem) (p v : Z) : res mem :=
  m ← wr m p (u8 (Z.shiftr v 24)); m ← wr m (p + 1) (u8 (Z.shiftr v 16));
  m ← wr m (p + 2) (u8 (Z.shiftr v 8)); wr m (p + 3) (u8 v).

(** ** Packets *)

Definition ptr : Type := option (mem * Z).

Record rtp_pkt := RtpPkt {
  marker : bool; pt : Z; seqn : Z; ts : Z; ssrc : Z; cc : Z; csrc : list Z;
  has_ext : bool; ext_profile : Z; ext : ptr; ext_len : Z;
  payload : ptr; payload_len : Z }.

(** The loop that reads the contributing sources: [n] of them from the [i]-th. *)
Fixpoint csrc_read (n : nat) (b : mem) (i : Z) (cs : list Z) : res (list Z) :=
  match n with
  | O => Ok cs
  | S n =>
      v ← rtp_rd32 b (RTP_HDR_LEN + i * 4);
      cs ← wr cs i v;
      csrc_read n b (i + 1) cs
  end.

(** The extension block: profile, pointer, length in octets, and the offset
    behind it. *)
Definition parse_ext (b : mem) (len off : Z) (has_ext : bool) : res (Z * ptr * Z * Z) :=
  if has_ext then
    if len <? off + 4 then Err RTP_E_SHORT else
    ext_profile ← rtp_rd16 b off;
    w ← rtp_rd16 b (off + 2);
    let ext_len := w * 4 in
    let off := off + 4 in
    if len <? off + ext_len then Err RTP_E_SHORT else
    Ok (ext_profile, Some (b, off), ext_len, off + ext_len)
  else Ok (0, None, 0, off).

(** The payload's length without the padding its last octet counts. *)
Definition strip_padding (b : mem) (len plen : Z) (pad : bool) : res Z :=
  if pad then
    if plen =? 0 then Err RTP_E_FORMAT else
    npad ← rd b (len - 1);
    if (npad =? 0) || (plen <? npad) then Err RTP_E_FORMAT else Ok (plen - npad)
  else Ok plen.

(** [p] says whether the output pointer is given. *)
Definition rtp_pkt_parse (p : bool) (buf : option mem) (len : Z) : res rtp_pkt :=
  match p, buf with
  | true, Some b =>
      if len <? RTP_HDR_LEN then Err RTP_E_SHORT else
      b0 ← rd b 0;
      if negb (u8 (Z.shiftr b0 6) =? RTP_VERSION) then Err RTP_E_VERSION else
      let pad := negb (Z.land (Z.shiftr b0 5) 1 =? 0) in
      let has_ext := negb (Z.land (Z.shiftr b0 4) 1 =? 0) in
      let cc := Z.land b0 15 in
      b1 ← rd b 1;
      let marker := negb (Z.land (Z.shiftr b1 7) 1 =? 0) in
      let pt := Z.land b1 127 in
      seqn ← rtp_rd16 b 2;
      ts ← rtp_rd32 b 4;
      ssrc ← rtp_rd32 b 8;
      let off := RTP_HDR_LEN + cc * 4 in
      if len <? off then Err RTP_E_SHORT else
      csrc ← csrc_read (Z.to_nat cc) b 0 (zeros RTP_MAX_CSRC);
      '(ext_profile, ext, ext_len, off) ← parse_ext b len off has_ext;
      plen ← strip_padding b len (len - off) pad;
      Ok {| marker := marker; pt := pt; seqn := seqn; ts := ts; ssrc := ssrc; cc := cc;
            csrc := csrc; has_ext := has_ext; ext_profile := ext_profile; ext := ext;
            ext_len := ext_len; payload := Some (b, off); payload_len := u32 plen |}
  | _, _ => Err RTP_E_INVAL
  end.

(** [memcpy(b + off, src, n)]; copying no octets from NULL does nothing. *)
Definition copy_from (b : mem) (off : Z) (src : ptr) (n : Z) : res mem :=
  match src with
  | Some (m, o) => bs ← rdn m o n; wrn b off bs
  | None => if n =? 0 then Ok b else Ub
  end.

Definition is_null (q : ptr) : bool := match q with None => true | Some _ => false end.

(** The loop that writes the contributing sources; it returns [off] too. *)
Fixpoint csrc_write (n : nat) (b : mem) (off i : Z) (cs : list Z) : res (mem * Z) :=
  match n with
  | O => Ok (b, off)
  | S n =>
      v ← rd cs i;
      b ← rtp_wr32 b off v;
      csrc_write n b (off + 4) (i + 1) cs
  end.

(** The extension block. *)
Definition write_ext (p : rtp_pkt) (b : mem) (off : Z) : res (mem * Z) :=
  if has_ext p then
    b ← rtp_wr16 b off (ext_profile p);
    b ← rtp_wr16 b (off + 2) (u16 (ext_len p / 4));
    let off := off + 4 in
    b ← copy_from b off (ext p) (ext_len p);
    Ok (b, off + ext_len p)
  else Ok (b, off).

(** [4 + p->ext_len] is 32-bit arithmetic; the sum around it is [size_t]'s. *)
Definition pkt_need (p : rtp_pkt) : Z :=
  u64 (RTP_HDR_LEN + cc p * 4 + (if has_ext p then u32 (4 + ext_len p) else 0) +
       payload_len p).

Definition rtp_pkt_encode (p : option rtp_pkt) (buf : option mem) (cap : Z) :
    res (option mem * Z) :=
  match p, buf with
  | Some p, Some b =>
      if (RTP_MAX_CSRC <? cc p) || (127 <? pt p) then Ok (buf, RTP_E_INVAL) else
      if has_ext p && (negb (ext_len p mod 4 =? 0) || (negb (ext_len p =? 0) && is_null (ext p)))
      then Ok (buf, RTP_E_INVAL) else
      if negb (payload_len p =? 0) && is_null (payload p) then Ok (buf, RTP_E_INVAL) else
      let need := pkt_need p in
      if cap <? need then Ok (buf, RTP_E_OVERFLOW) else
      b ← wr b 0 (u8 (Z.lor (Z.lor (Z.shiftl RTP_VERSION 6) (if has_ext p then 16 else 0)) (cc p)));
      b ← wr b 1 (u8 (Z.lor (if marker p then 128 else 0) (pt p)));
      b ← rtp_wr16 b 2 (seqn p);
      b ← rtp_wr32 b 4 (ts p);
      b ← rtp_wr32 b 8 (ssrc p);
      '(b, off) ← csrc_write (Z.to_nat (cc p)) b RTP_HDR_LEN 0 (csrc p);
      '(b, off) ← write_ext p b off;
      b ← (if negb (payload_len p =? 0) then copy_from b off (payload p) (payload_len p) else Ok b);
      Ok (Some b, i32 need)
  | _, _ => Ok (buf, RTP_E_INVAL)
  end.

(** ** Source statistics *)

Definition RTP_SEQ_MOD : Z := 65536.
Definition RTP_MAX_DROPOUT : Z := 3000.
Definition RTP_MAX_MISORDER : Z := 100.
Definition RTP_MIN_SEQUENTIAL : Z := 2.

Record rtp_source := RtpSource {
  s_ssrc : Z; max_seq : Z; cycles : Z; base_seq : Z; bad_seq : Z; probation : Z;
  received : Z; expected_prior : Z; received_prior : Z; has_transit : bool;
  transit : Z; s_jitter : Z }.

Record rtcp_report := RtcpReport {
  r_ssrc : Z; fraction : Z; lost : Z; last_seq : Z; jitter : Z; lsr : Z; dlsr : Z }.

Definition source_reset (s : rtp_source) (seq : Z) : rtp_source :=
  {| s_ssrc := s_ssrc s; max_seq := seq; cycles := 0; base_seq := seq;
     bad_seq := RTP_SEQ_MOD + 1; probation := probation s; received := 0;
     expected_prior := 0; received_prior := 0; has_transit := has_transit s;
     transit := transit s; s_jitter := s_jitter s |}.

Definition zero_source : rtp_source :=
  RtpSource 0 0 0 0 0 0 0 0 0 false 0 0.

Definition set_seq (s : rtp_source) (max cyc bad prob recv : Z) : rtp_source :=
  {| s_ssrc := s_ssrc s; max_seq := max; cycles := cyc; base_seq := base_seq s;
     bad_seq := bad; probation := prob; received := recv;
     expected_prior := expected_prior s; received_prior := received_prior s;
     has_transit := has_transit s; transit := transit s; s_jitter := s_jitter s |}.

Definition set_received (s : rtp_source) (recv : Z) : rtp_source :=
  set_seq s (max_seq s) (cycles s) (bad_seq s) (probation s) recv.
Definition set_max (s : rtp_source) (max : Z) : rtp_source :=
  set_seq s max (cycles s) (bad_seq s) (probation s) (received s).
Definition set_cycles (s : rtp_source) (cyc : Z) : rtp_source :=
  set_seq s (max_seq s) cyc (bad_seq s) (probation s) (received s).
Definition set_bad (s : rtp_source) (bad : Z) : rtp_source :=
  set_seq s (max_seq s) (cycles s) bad (probation s) (received s).
Definition set_probation (s : rtp_source) (prob : Z) : rtp_source :=
  set_seq s (max_seq s) (cycles s) (bad_seq s) prob (received s).

Definition rtp_source_init (ssrc seq : Z) : rtp_source :=
  let s := {| s_ssrc := ssrc; max_seq := max_seq zero_source; cycles := cycles zero_source;
              base_seq := base_seq zero_source; bad_seq := bad_seq zero_source;
              probation := probation zero_source; received := received zero_source;
              expected_prior := expected_prior zero_source;
              received_prior := received_prior zero_source;
              has_transit := has_transit zero_source; transit := transit zero_source;
              s_jitter := s_jitter zero_source |} in
  let s := source_reset s seq in
  let s := set_max s (u16 (seq - 1)) in
  set_probation s RTP_MIN_SEQUENTIAL.

Definition rtp_source_update (s : rtp_source) (seq : Z) : rtp_source * Z :=
  let udelta := u16 (seq - max_seq s) in
  if negb (probation s =? 0) then
    if seq =? u16 (max_seq s + 1) then
      let s := set_probation s (u32 (probation s - 1)) in
      let s := set_max s seq in
      if probation s =? 0 then
        let s := source_reset s seq in
        (set_received s (u32 (received s + 1)), 1)
      else (s, 0)
    else
      let s := set_probation s (RTP_MIN_SEQUENTIAL - 1) in
      (set_max s seq, 0)
  else if udelta <? RTP_MAX_DROPOUT then
    let s := if seq <? max_seq s then set_cycles s (u32 (cycles s + RTP_SEQ_MOD)) else s in
    let s := set_max s seq in
    (set_received s (u32 (received s + 1)), 1)
  else if udelta <=? RTP_SEQ_MOD - RTP_MAX_MISORDER then
    if seq =? bad_seq s then
      let s := source_reset s seq in
      (set_received s (u32 (received s + 1)), 1)
    else (set_bad s (u16 (seq + 1)), 0)
  else (set_received s (u32 (received s + 1)), 1).

(** [-(int32_t)d] is undefined for the least 32-bit integer. *)
Definition rtp_source_jitter (s : rtp_source) (rtp_ts arrival : Z) : res rtp_source :=
  let t := u32 (arrival - rtp_ts) in
  let with_transit j :=
    {| s_ssrc := s_ssrc s; max_seq := max_seq s; cycles := cycles s; base_seq := base_seq s;
       bad_seq := bad_seq s; probation := probation s; received := received s;
       expected_prior := expected_prior s; received_prior := received_prior s;
       has_transit := true; transit := t; s_jitter := j |} in
  if negb (has_transit s) then Ok (with_transit (s_jitter s)) else
  let d := u32 (t - transit s) in
  d ← (if i32 d <? 0 then if i32 d =? -2147483648 then Ub else Ok (u32 (- i32 d)) else Ok d);
  Ok (with_transit (u32 (s_jitter s + u32 (d - Z.shiftr (u32 (s_jitter s + 8)) 4)))).

(** [lost_interval << 8] on an [int32_t] that does not hold it is undefined; the
    division is on the unsigned 32-bit type. *)
Definition rtp_source_report (s : rtp_source) : res (rtp_source * rtcp_report) :=
  let ext_max := u32 (cycles s + max_seq s) in
  let expected := u32 (ext_max - base_seq s + 1) in
  let l := i32 (u32 (expected - received s)) in
  let l := if 8388607 <? l then 8388607 else l in
  let l := if l <? -8388608 then -8388608 else l in
  let expected_interval := u32 (expected - expected_prior s) in
  let received_interval := u32 (received s - received_prior s) in
  let s' :=
    {| s_ssrc := s_ssrc s; max_seq := max_seq s; cycles := cycles s; base_seq := base_seq s;
       bad_seq := bad_seq s; probation := probation s; received := received s;
       expected_prior := expected; received_prior := received s;
       has_transit := has_transit s; transit := transit s; s_jitter := s_jitter s |} in
  let lost_interval := i32 (u32 (expected_interval - received_interval)) in
  fraction ←
    (if negb (expected_interval =? 0) && (0 <? lost_interval) then
       if 2147483647 <? Z.shiftl lost_interval 8 then Ub else
       Ok (u8 (u32 (Z.shiftl lost_interval 8) / expected_interval))
     else Ok 0);
  Ok (s', {| r_ssrc := s_ssrc s; fraction := fraction; lost := l; last_seq := ext_max;
             jitter := Z.shiftr (s_jitter s) 4; lsr := 0; dlsr := 0 |}).

(** ** NTP wallclock: the conversion of what [clock_gettime] returned *)

Definition NTP_UNIX_OFFSET : Z := 2208988800.

Definition rtp_ntp_now (tv_sec tv_nsec : Z) : Z * Z :=
  (u32 (u32 tv_sec + NTP_UNIX_OFFSET), u32 (u64 (Z.shiftl (u64 tv_nsec) 32) / 1000000000)).

(** ** The accessors in terms of fields *)

Lemma rtp_rd16_val m p : bytes_ok m → 0 <= p → p + 2 <= mlen m →
  rtp_rd16 m p = Ok (be_val (slice m p 2)).
Proof.
  intros Hm ? ?. rewrite <-be16_load_val by done. unfold rtp_rd16, be16_load.
  rewrite !rd_Ok by lia. bstep. pose proof (get_range m p Hm).
  by rewrite (u16_small (Z.shiftl _ 8)) by (rewrite Z.shiftl_mul_pow2 by lia; lia).
Qed.
Lemma rtp_rd32_val m p : bytes_ok m → 0 <= p → p + 4 <= mlen m →
  rtp_rd32 m p = Ok (be_val (slice m p 4)).
Proof. intros. by apply be32_load_val. Qed.
Lemma rtp_wr16_bytes m p v : rtp_wr16 m p v = wrn m p (be_bytes 2 v).
Proof. apply be16_store_bytes. Qed.
Lemma rtp_wr32_bytes m p v : rtp_wr32 m p v = wrn m p (be_bytes 4 v).
Proof. apply be32_store_bytes. Qed.

(** The value of the [k] octets at [i]. *)
Lemma be_field_range m i k : bytes_ok m → 0 <= i → 0 <= k → i + k <= mlen m →
  0 <= be_val (slice m i k) < 256 ^ k.
Proof.
  intros. pose proof (be_val_range (slice m i k) ltac:(auto with cmem)) as Hr.
  fold (mlen (slice m i k)) in Hr. by rewrite mlen_slice in Hr by lia.
Qed.

(** The words from the [i]-th contributing source on. *)
Definition csrc_words (m : mem) (i : Z) (n : nat) : list Z :=
  map (λ k, be_val (slice m (RTP_HDR_LEN + (i + Z.of_nat k) * 4) 4)) (seq 0 n).

Lemma csrc_words_S m i n :
  csrc_words m i (S n) = be_val (slice m (RTP_HDR_LEN + i * 4) 4) :: csrc_words m (i + 1) n.
Proof.
  unfold csrc_words. cbn [seq map]. rewrite Z.add_0_r. f_equal.
  rewrite <-seq_shift, map_map. apply map_ext. intros. do 3 f_equal. lia.
Qed.

Lemma csrc_read_words m n : ∀ i cs, bytes_ok m →
  0 <= i → i + Z.of_nat n <= mlen cs → 12 + (i + Z.of_nat n) * 4 <= mlen m →
  csrc_read n m i cs = Ok (splice cs i (csrc_words m i n)).
Proof.
  induction n as [|n IH]; intros i cs Hm Hi Hn Hl; [by rewrite splice_nil|].
  cbn [csrc_read]. unfold RTP_HDR_LEN. rewrite rtp_rd32_val by (done || lia). bstep.
  rewrite wr_wrn, wrn_Ok by mlia. bstep.
  rewrite IH by (done || mlia). f_equal. rewrite csrc_words_S.
  refine (splice_app cs i [_] (csrc_words m (i + 1) n) _ _); mlia.
Qed.

(** ** The parser's properties *)

(** Where the payload of the packet in [m] starts, as its header says. *)
Definition ext_at (m : mem) : Z := 12 + get m 0 mod 16 * 4.
Definition has_ext_bit (m : mem) : bool := Z.testbit (get m 0) 4.
Definition pad_bit (m : mem) : bool := Z.testbit (get m 0) 5.
Definition payload_at (m : mem) : Z :=
  ext_at m + (if has_ext_bit m then 4 + be_val (slice m (ext_at m + 2) 2) * 4 else 0).

Lemma first_octet b : 0 <= b < 256 →
  u8 (Z.shiftr b 6) = b / 64 ∧ Z.land b 15 = b mod 16 ∧
  negb (Z.land (Z.shiftr b 5) 1 =? 0) = Z.testbit b 5 ∧
  negb (Z.land (Z.shiftr b 4) 1 =? 0) = Z.testbit b 4.
Proof. intros. byte_decide b. Qed.

Lemma second_octet b : 0 <= b < 256 →
  Z.land b 127 = b mod 128 ∧ negb (Z.land (Z.shiftr b 7) 1 =? 0) = (128 <=? b).
Proof. intros. byte_decide b. Qed.

Lemma payload_at_ge m : bytes_ok m → 12 <= payload_at m.
Proof.
  intros Hm. unfold payload_at, ext_at.
  pose proof (be_val_range (slice m (12 + get m 0 mod 16 * 4 + 2) 2) ltac:(auto with cmem)).
  pose proof (Z.mod_pos_bound (get m 0) 16 ltac:(lia)). destruct (has_ext_bit m); lia.
Qed.

Lemma parse_ext_total m n : bytes_ok m → 0 <= n <= mlen m → ext_at m <= n →
  match parse_ext m n (ext_at m) (has_ext_bit m) with
  | Ok (prof, e, elen, off) =>
      off = payload_at m ∧ payload_at m <= n ∧
      (has_ext_bit m = true → e = Some (m, ext_at m + 4) ∧
         prof = be_val (slice m (ext_at m) 2) ∧ ext_at m + 4 + elen = payload_at m)
  | Err rc => rc = RTP_E_SHORT ∧ has_ext_bit m = true ∧ (n < ext_at m + 4 ∨ n < payload_at m)
  | Ub => False
  end.
Proof.
  intros Hm Hn He. pose proof (Z.mod_pos_bound (get m 0) 16 ltac:(lia)) as Hc.
  assert (12 <= ext_at m) by (unfold ext_at; lia).
  unfold parse_ext, payload_at. destruct (has_ext_bit m); [|split_and!; done || lia].
  destruct (Z.ltb_spec n (ext_at m + 4)); [by auto|].
  rewrite !rtp_rd16_val by (done || lia). bstep.
  destruct (Z.ltb_spec n (ext_at m + 4 + be_val (slice m (ext_at m + 2) 2) * 4)).
  - split_and!; try done. right. lia.
  - split_and!; [lia..|]. intros _. split_and!; done || lia.
Qed.

Lemma strip_padding_total m n pad plen : bytes_ok m → 0 < n <= mlen m → 0 <= plen →
  match strip_padding m n plen pad with
  | Ok k => k = plen - (if pad then get m (n - 1) else 0) ∧ 0 <= k
  | Err rc => rc = RTP_E_FORMAT ∧ pad = true ∧
      (plen = 0 ∨ get m (n - 1) = 0 ∨ plen < get m (n - 1))
  | Ub => False
  end.
Proof.
  intros Hm Hn Hp. unfold strip_padding. destruct pad; [|lia].
  destruct (Z.eqb_spec plen 0); [by auto|]. rewrite rd_Ok by lia. bstep.
  pose proof (get_range m (n - 1) Hm).
  destruct (Z.eqb_spec (get m (n - 1)) 0), (Z.ltb_spec plen (get m (n - 1))); cbn [orb];
    try (split_and!; by auto); lia.
Qed.

Lemma parse_spec m n :
  bytes_ok m → 0 <= n <= mlen m → n < 4294967296 →
  match rtp_pkt_parse true (Some m) n with
  | Ok p =>
      12 <= n ∧ get m 0 / 64 = 2 ∧
      marker p = (128 <=? get m 1) ∧ pt p = get m 1 mod 128 ∧
      seqn p = be_val (slice m 2 2) ∧ ts p = be_val (slice m 4 4) ∧
      ssrc p = be_val (slice m 8 4) ∧
      cc p = get m 0 mod 16 ∧ take (Z.to_nat (cc p)) (csrc p) = csrc_words m 0 (Z.to_nat (cc p)) ∧
      has_ext p = has_ext_bit m ∧
      (has_ext p = true → ext p = Some (m, ext_at m + 4) ∧
         ext_profile p = be_val (slice m (ext_at m) 2) ∧
         ext_at m + 4 + ext_len p = payload_at m) ∧
      payload p = Some (m, payload_at m) ∧ payload_at m <= n ∧
      payload_at m + payload_len p = n - (if pad_bit m then get m (n - 1) else 0) ∧
      0 <= payload_len p
  | Err rc =>
      rc = RTP_E_SHORT ∧
        (n < 12 ∨ n < ext_at m ∨ has_ext_bit m = true ∧ (n < ext_at m + 4 ∨ n < payload_at m)) ∨
      rc = RTP_E_VERSION ∧ get m 0 / 64 ≠ 2 ∨
      rc = RTP_E_FORMAT ∧ pad_bit m = true ∧ payload_at m <= n ∧
        (n = payload_at m ∨ get m (n - 1) = 0 ∨ n - payload_at m < get m (n - 1))
  | Ub => False
  end.
Proof.
  intros Hm Hn Hn32. unfold rtp_pkt_parse. unfold RTP_HDR_LEN at 1.
  destruct (Z.ltb_spec n 12); [left; auto|].
  rewrite (rd_Ok m 0) by lia. bstep.
  pose proof (get_range m 0 Hm) as H0. destruct (first_octet _ H0) as (-> & -> & Ep & Ex).
  rewrite Ep, Ex. fold (pad_bit m) (has_ext_bit m). clear Ep Ex.
  destruct (Z.eqb_spec (get m 0 / 64) RTP_VERSION) as [Ev|]; cbn [negb]; [|auto].
  rewrite (rd_Ok m 1) by lia. bstep.
  pose proof (get_range m 1 Hm) as H1. destruct (second_octet _ H1) as (-> & ->).
  rewrite rtp_rd16_val, !rtp_rd32_val by (done || lia). bstep.
  pose proof (Z.mod_pos_bound (get m 0) 16 ltac:(lia)) as Hc.
  change (RTP_HDR_LEN + get m 0 mod 16 * 4) with (ext_at m).
  assert (ext_at m = 12 + get m 0 mod 16 * 4) as He by done.
  destruct (Z.ltb_spec n (ext_at m)); [left; auto|].
  assert (mlen (zeros RTP_MAX_CSRC) = 15) as Hz by done.
  rewrite csrc_read_words by (done || lia).
  bstep. pose proof (parse_ext_total m n Hm Hn ltac:(lia)) as Hx.
  destruct (parse_ext _ _ _ _) as [[[[prof e] elen] off]|rc|]; bstep; [|left; tauto|done].
  destruct Hx as (-> & Hle & Hx).
  pose proof (strip_padding_total m n (pad_bit m) (n - payload_at m) Hm ltac:(lia) ltac:(lia)) as Hs.
  destruct (strip_padding _ _ _ _) as [k|rc|]; bstep; [|right; right|done].
  2: { destruct Hs as (-> & ? & Hs). split_and!; try done. destruct Hs as [|]; [left; lia|auto]. }
  destruct Hs as [-> Hk]. cbn [marker pt seqn ts ssrc cc csrc has_ext ext_profile ext ext_len payload payload_len].
  pose proof (payload_at_ge m Hm).
  rewrite u32_small by (destruct (pad_bit m); pose proof (get_range m (n - 1) Hm); lia).
  split_and!; try done; try lia; try tauto.
  rewrite splice_0, take_app_length'; [done|].
  unfold csrc_words. by rewrite length_map, length_seq.
Qed.

(** Parsing an RTP packet from any buffer is total and memory-safe: the
    fields are the header's, the contributing sources, the header extension and
    the payload lie where the header puts them and inside the buffer, padding is
    stripped, and an error names its cause: too short for what the header
    claims, a version other than 2, or an impossible padding count. *)
Theorem rtp_pkt_parse_total m n :
  bytes_ok m → 0 <= n <= mlen m → n < 4294967296 →
  match rtp_pkt_parse true (Some m) n with
  | Ok p =>
      12 <= n ∧ get m 0 / 64 = 2 ∧
      marker p = (128 <=? get m 1) ∧ pt p = get m 1 mod 128 ∧
      seqn p = be_val (slice m 2 2) ∧ ts p = be_val (slice m 4 4) ∧
      ssrc p = be_val (slice m 8 4) ∧
      cc p = get m 0 mod 16 ∧ take (Z.to_nat (cc p)) (csrc p) = csrc_words m 0 (Z.to_nat (cc p)) ∧
      has_ext p = has_ext_bit m ∧
      (has_ext p = true → ext p = Some (m, ext_at m + 4) ∧
         ext_profile p = be_val (slice m (ext_at m) 2) ∧
         ext_at m + 4 + ext_len p = payload_at m) ∧
      payload p = Some (m, payload_at m) ∧ payload_at m <= n ∧
      payload_at m + payload_len p = n - (if pad_bit m then get m (n - 1) else 0) ∧
      0 <= payload_len p
  | Err rc =>
      rc = RTP_E_SHORT ∧
        (n < 12 ∨ n < ext_at m ∨ has_ext_bit m = true ∧ (n < ext_at m + 4 ∨ n < payload_at m)) ∨
      rc = RTP_E_VERSION ∧ get m 0 / 64 ≠ 2 ∨
      rc = RTP_E_FORMAT ∧ pad_bit m = true ∧ payload_at m <= n ∧
        (n = payload_at m ∨ get m (n - 1) = 0 ∨ n - payload_at m < get m (n - 1))
  | Ub => False
  end.
Proof. apply parse_spec. Qed.

Lemma rtp_pkt_parse_total_witness :
  ∃ p, rtp_pkt_parse true (Some [176; 128; 0; 9; 0; 0; 0; 1; 0; 0; 0; 2; 190; 222; 0; 1; 1; 2; 3; 4;
      7; 0; 0; 3]) 24 = Ok p ∧ payload_len p = 1.
Proof.
  set (m := [176; 128; 0; 9; 0; 0; 0; 1; 0; 0; 0; 2; 190; 222; 0; 1; 1; 2; 3; 4; 7; 0; 0; 3]).
  assert (bytes_ok m) as Hok by bytes_tac.
  pose proof (rtp_pkt_parse_total m 24 Hok ltac:(by vm_compute) ltac:(lia)) as H.
  destruct (rtp_pkt_parse true (Some m) 24) as [p|rc|] eqn:E; [|vm_compute in E; done..].
  exists p. split; [done|]. destruct H as (_ & _ & _ & _ & _ & _ & _ & _ & _ & _ & _ & _ & _ & H & _).
  change (payload_at m) with 20 in H. change (pad_bit m) with true in H.
  change (get m (24 - 1)) with 3 in H. cbn iota in H. lia.
Defined.

(** ** Encoding and decoding back *)

(** A packet as a value: the octets its pointers reach. *)
Definition ptr_bytes (q : ptr) (n : Z) : list Z :=
  match q with Some (m, o) => slice m o n | None => [] end.
Definition ptr_ok (q : ptr) (n : Z) : Prop :=
  match q with Some (m, o) => bytes_ok m ∧ 0 <= o ∧ o + n <= mlen m | None => n = 0 end.

Definition ext_bytes (p : rtp_pkt) : list Z :=
  if has_ext p then be_bytes 2 (ext_profile p) ++ be_bytes 2 (ext_len p / 4) ++
    ptr_bytes (ext p) (ext_len p)
  else [].
Definition csrcs (p : rtp_pkt) : list Z := take (Z.to_nat (cc p)) (csrc p).
Definition words_bytes (cs : list Z) : list Z := concat (map (be_bytes 4) cs).
Definition fixed_bytes (p : rtp_pkt) : list Z :=
  [128 + (if has_ext p then 16 else 0) + cc p; (if marker p then 128 else 0) + pt p] ++
  be_bytes 2 (seqn p) ++ be_bytes 4 (ts p) ++ be_bytes 4 (ssrc p).
Definition pkt_bytes (p : rtp_pkt) : list Z :=
  fixed_bytes p ++ words_bytes (csrcs p) ++ ext_bytes p ++ ptr_bytes (payload p) (payload_len p).

(** A packet whose fields fit their types and the format. *)
Record pkt_wf (p : rtp_pkt) : Prop := {
  wf_pt : 0 <= pt p < 128;
  wf_seq : 0 <= seqn p < 65536;
  wf_ts : 0 <= ts p < 4294967296;
  wf_ssrc : 0 <= ssrc p < 4294967296;
  wf_cc : 0 <= cc p <= 15;
  wf_csrc : mlen (csrc p) = 15;
  wf_csrcs : Forall (λ c, 0 <= c < 4294967296) (csrc p);
  wf_ext : has_ext p = true → 0 <= ext_profile p < 65536 ∧ 0 <= ext_len p <= 262140 ∧
             ext_len p mod 4 = 0 ∧ ptr_ok (ext p) (ext_len p);
  wf_payload : 0 <= payload_len p < 4294967296 ∧ ptr_ok (payload p) (payload_len p) }.

Lemma mlen_ptr_bytes q n : 0 <= n → ptr_ok q n → mlen (ptr_bytes q n) = n.
Proof. destruct q as [[m o]|]; simpl; [intros ? (? & ? & ?); by mlia|by intros ? ->]. Qed.
Lemma ptr_bytes_ok q n : ptr_ok q n → bytes_ok (ptr_bytes q n).
Proof. destruct q as [[m o]|]; simpl; [intros (? & _); auto with cmem|constructor]. Qed.
Lemma mlen_words_bytes cs : mlen (words_bytes cs) = 4 * mlen cs.
Proof.
  induction cs; [done|]. unfold words_bytes in *. cbn [map concat].
  rewrite mlen_app, mlen_be_bytes, IHcs, mlen_cons. lia.
Qed.
Lemma words_bytes_ok cs : bytes_ok (words_bytes cs).
Proof.
  induction cs; [constructor|]. apply bytes_ok_app. split; [apply be_bytes_ok|done].
Qed.

Lemma copy_from_ptr b off q n : 0 <= n → ptr_ok q n → 0 <= off → off + n <= mlen b →
  copy_from b off q n = Ok (splice b off (ptr_bytes q n)).
Proof.
  intros Hn Hq Ho Hl. destruct q as [[m o]|]; simpl in *.
  - destruct Hq as (_ & ? & ?). rewrite rdn_Ok by lia. bstep. by rewrite wrn_Ok by mlia.
  - subst n. by rewrite splice_nil.
Qed.

Lemma csrc_write_words n : ∀ b off i cs, 0 <= off → off + 4 * Z.of_nat n <= mlen b →
  0 <= i → i + Z.of_nat n <= mlen cs →
  csrc_write n b off i cs =
    Ok (splice b off (words_bytes (slice cs i (Z.of_nat n))), off + 4 * Z.of_nat n).
Proof.
  induction n as [|n IH]; intros b off i cs Ho Hb Hi Hc.
  { rewrite slice_0. unfold words_bytes. cbn [csrc_write map concat].
    rewrite splice_nil. do 2 f_equal. lia. }
  cbn [csrc_write]. rewrite rd_Ok by lia. bstep. rewrite rtp_wr32_bytes, wrn_Ok by mlia. bstep.
  rewrite IH by mlia. do 2 f_equal; [|lia].
  rewrite (slice_cons cs i) by lia. replace (Z.of_nat (S n) - 1) with (Z.of_nat n) by lia.
  unfold words_bytes. cbn [map concat].
  pose proof (splice_app b off (be_bytes 4 (get cs i))
    (concat (map (be_bytes 4) (slice cs (i + 1) (Z.of_nat n)))) Ho ltac:(mlia)) as Hs.
  by rewrite mlen_be_bytes in Hs.
Qed.

(** The bit fields of the first two octets are disjoint. *)
Lemma octet0_sum (x : bool) c : 0 <= c <= 15 →
  u8 (Z.lor (Z.lor (Z.shiftl RTP_VERSION 6) (if x then 16 else 0)) c) =
    128 + (if x then 16 else 0) + c.
Proof.
  intros. assert (0 <= c < 256) as Hc by lia. revert H. destruct x; revert Hc; generalize c.
  - intros d Hd. byte_decide d.
  - intros d Hd. byte_decide d.
Qed.
Lemma octet1_sum (x : bool) t : 0 <= t < 128 →
  u8 (Z.lor (if x then 128 else 0) t) = (if x then 128 else 0) + t.
Proof.
  intros. assert (0 <= t < 256) as Ht by lia. revert H. destruct x; revert Ht; generalize t.
  - intros d Hd. byte_decide d.
  - intros d Hd. byte_decide d.
Qed.

Section encode.
Context (p : rtp_pkt) (Hwf : pkt_wf p).

Lemma mlen_fixed_bytes : mlen (fixed_bytes p) = 12.
Proof. unfold fixed_bytes. mlia. Qed.
Lemma mlen_csrcs : mlen (words_bytes (csrcs p)) = 4 * cc p.
Proof using Hwf.
  destruct Hwf. rewrite mlen_words_bytes. unfold csrcs. by rewrite mlen_take by lia.
Qed.
Lemma mlen_ext_bytes : mlen (ext_bytes p) = if has_ext p then 4 + ext_len p else 0.
Proof using Hwf.
  unfold ext_bytes. destruct (has_ext p) eqn:E; [|done].
  destruct (wf_ext p Hwf E) as (_ & ? & _ & ?).
  rewrite !mlen_app, !mlen_be_bytes, mlen_ptr_bytes by (done || lia). lia.
Qed.

Lemma mlen_pkt_bytes : mlen (pkt_bytes p) = pkt_need p.
Proof using Hwf.
  unfold pkt_bytes. rewrite !mlen_app, mlen_fixed_bytes, mlen_csrcs, mlen_ext_bytes.
  destruct (wf_payload p Hwf). rewrite mlen_ptr_bytes by (done || lia).
  unfold pkt_need, RTP_HDR_LEN. pose proof (wf_cc p Hwf). pose proof (wf_ext p Hwf) as Hx.
  destruct (has_ext p).
  - destruct Hx as (_ & ? & _); [done|]. rewrite u32_small, u64_small by lia. lia.
  - rewrite u64_small by lia. lia.
Qed.

(** The arguments pass the encoder's checks. *)
Lemma encode_args :
  (RTP_MAX_CSRC <? cc p) || (127 <? pt p) = false ∧
  has_ext p && (negb (ext_len p mod 4 =? 0) || (negb (ext_len p =? 0) && is_null (ext p))) = false ∧
  negb (payload_len p =? 0) && is_null (payload p) = false.
Proof using Hwf.
  destruct Hwf as [? ? ? ? ? ? ? Hx [? Hp]]. unfold RTP_MAX_CSRC. split_and!.
  - destruct (Z.ltb_spec 15 (cc p)), (Z.ltb_spec 127 (pt p)); done || lia.
  - destruct (has_ext p); [|done]. destruct Hx as (_ & _ & -> & Hq); [done|].
    destruct (ext p); simpl in *; [by rewrite andb_false_r|]. by rewrite Hq.
  - destruct (payload p); simpl in *; [by rewrite andb_false_r|]. by rewrite Hp.
Qed.

(** The encoder's second half, on a buffer that holds [bs] already. *)
Lemma encode_ext b bs off :
  off = mlen bs → mlen bs + mlen (ext_bytes p) <= mlen b →
  write_ext p (splice b 0 bs) off =
    Ok (splice b 0 (bs ++ ext_bytes p), off + mlen (ext_bytes p)).
Proof using Hwf.
  intros -> Hl. rewrite mlen_ext_bytes in *. unfold write_ext, ext_bytes.
  pose proof (mlen_nonneg bs). destruct (has_ext p) eqn:E; bstep.
  2: { by rewrite app_nil_r, Z.add_0_r. }
  destruct (wf_ext p Hwf E) as (_ & Hr & _ & Hq).
  rewrite rtp_wr16_bytes, wrn_next by mlia.
  rewrite rtp_wr16_bytes, wrn_next by mlia.
  rewrite u16_small by (pose proof (Z.div_le_upper_bound (ext_len p) 4 65535);
    pose proof (Z.div_pos (ext_len p) 4); lia).
  rewrite copy_from_ptr by (done || lia || mlia). bstep.
  replace (mlen bs + 4) with (0 + mlen ((bs ++ be_bytes 2 (ext_profile p)) ++
    be_bytes 2 (ext_len p / 4))) by mlia.
  rewrite splice_app by mlia. rewrite <-!app_assoc. do 2 f_equal. mlia.
Qed.

Lemma encode_payload b bs : mlen bs + payload_len p <= mlen b →
  (if negb (payload_len p =? 0) then copy_from (splice b 0 bs) (mlen bs) (payload p) (payload_len p)
   else Ok (splice b 0 bs)) = Ok (splice b 0 (bs ++ ptr_bytes (payload p) (payload_len p))).
Proof using Hwf.
  intros Hl. destruct (wf_payload p Hwf) as [? Hq]. pose proof (mlen_nonneg bs).
  destruct (Z.eqb_spec (payload_len p) 0) as [E|]; cbn [negb].
  - rewrite E. destruct (payload p) as [[m o]|]; simpl; by rewrite app_nil_r.
  - rewrite copy_from_ptr by (done || lia || mlia). f_equal. rewrite <-splice_app by lia. done.
Qed.

Lemma encode_bytes b cap : pkt_need p <= cap <= mlen b →
  rtp_pkt_encode (Some p) (Some b) cap =
    Ok (Some (splice b 0 (pkt_bytes p)), i32 (pkt_need p)).
Proof using Hwf.
  intros Hc. pose proof mlen_pkt_bytes as Hl. unfold pkt_bytes in *.
  rewrite !mlen_app, mlen_fixed_bytes, mlen_csrcs in Hl.
  pose proof (mlen_nonneg (ext_bytes p)). destruct (wf_payload p Hwf) as [Hp Hq].
  rewrite mlen_ptr_bytes in Hl by (done || lia).
  unfold rtp_pkt_encode. destruct encode_args as (-> & -> & ->).
  destruct (Z.ltb_spec cap (pkt_need p)); [lia|]. pose proof (wf_cc p Hwf).
  rewrite octet0_sum, octet1_sum by (done || apply Hwf).
  rewrite wr_wrn, wrn_first by mlia. rewrite wr_wrn, wrn_next by mlia.
  rewrite rtp_wr16_bytes, wrn_next by mlia. rewrite rtp_wr32_bytes, wrn_next by mlia.
  rewrite rtp_wr32_bytes, wrn_next by mlia.
  rewrite csrc_write_words by (rewrite ?(wf_csrc p Hwf); unfold RTP_HDR_LEN; mlia). bstep.
  rewrite <-!app_assoc. fold (fixed_bytes p). unfold slice. rewrite drop_0, Z2Nat.id by lia.
  fold (csrcs p).
  replace RTP_HDR_LEN with (0 + mlen (fixed_bytes p)) at 1 by by rewrite mlen_fixed_bytes.
  rewrite splice_app by (rewrite ?mlen_fixed_bytes; lia).
  rewrite encode_ext by (rewrite mlen_app, mlen_fixed_bytes, mlen_csrcs; unfold RTP_HDR_LEN; lia).
  bstep. replace (RTP_HDR_LEN + 4 * cc p + mlen (ext_bytes p)) with
    (mlen ((fixed_bytes p ++ words_bytes (csrcs p)) ++ ext_bytes p))
    by (rewrite !mlen_app, mlen_fixed_bytes, mlen_csrcs; unfold RTP_HDR_LEN; lia).
  rewrite encode_payload by (rewrite !mlen_app, mlen_fixed_bytes, mlen_csrcs; lia).
  bstep. by rewrite <-!app_assoc.
Qed.
End encode.

(** Equal as values: everything but the pointers, and the octets these reach. *)
Record same_pkt (p q : rtp_pkt) : Prop := {
  same_marker : marker q = marker p;
  same_pt : pt q = pt p;
  same_seq : seqn q = seqn p;
  same_ts : ts q = ts p;
  same_ssrc : ssrc q = ssrc p;
  same_cc : cc q = cc p;
  same_csrcs : csrcs q = csrcs p;
  same_has_ext : has_ext q = has_ext p;
  same_ext : has_ext p = true → ext_profile q = ext_profile p ∧ ext_len q = ext_len p ∧
               ptr_bytes (ext q) (ext_len q) = ptr_bytes (ext p) (ext_len p);
  same_payload_len : payload_len q = payload_len p;
  same_payload : ptr_bytes (payload q) (payload_len q) = ptr_bytes (payload p) (payload_len p) }.

Lemma octet0_fields (x : bool) c b : b = 128 + (if x then 16 else 0) + c → 0 <= c <= 15 →
  b / 64 = 2 ∧ b mod 16 = c ∧ Z.testbit b 4 = x ∧ Z.testbit b 5 = false.
Proof.
  intros ->. intros. assert (0 <= c < 256) as Hc by lia. revert H. destruct x; revert Hc; generalize c.
  - intros d Hd. byte_decide d.
  - intros d Hd. byte_decide d.
Qed.
Lemma octet1_fields (x : bool) t b : b = (if x then 128 else 0) + t → 0 <= t < 128 →
  (128 <=? b) = x ∧ b mod 128 = t.
Proof.
  intros ->. intros. assert (0 <= t < 256) as Ht by lia. revert H. destruct x; revert Ht; generalize t.
  - intros d Hd. byte_decide d.
  - intros d Hd. byte_decide d.
Qed.

Lemma be_val_field k v : 0 <= v < 256 ^ Z.of_nat k → be_val (be_bytes k v) = v.
Proof. intros. rewrite be_val_bytes. by apply Z.mod_small. Qed.

Lemma csrc_words_bytes cs : ∀ pre post i, mlen pre = 12 + 4 * i → 0 <= i →
  Forall (λ c, 0 <= c < 4294967296) cs →
  csrc_words (pre ++ words_bytes cs ++ post) i (length cs) = cs.
Proof.
  induction cs as [|c cs IH]; intros pre post i Hp Hi Hc; [done|].
  apply Forall_cons_iff in Hc as [Hc Hcs]. cbn [length]. rewrite csrc_words_S.
  unfold RTP_HDR_LEN, words_bytes. cbn [map concat]. fold (words_bytes cs). f_equal.
  - slice_at. by rewrite be_val_field by (change (256 ^ Z.of_nat 4) with 4294967296; done).
  - rewrite <-app_assoc, (app_assoc pre). apply IH; [mlia|lia|done].
Qed.

Section decode.
Context (p : rtp_pkt) (Hwf : pkt_wf p) (r : mem).
Let m := pkt_bytes p ++ r.

Lemma enc_octets :
  get m 0 = 128 + (if has_ext p then 16 else 0) + cc p ∧
  get m 1 = (if marker p then 128 else 0) + pt p.
Proof. done. Qed.

Lemma enc_fixed :
  be_val (slice m 2 2) = seqn p ∧ be_val (slice m 4 4) = ts p ∧ be_val (slice m 8 4) = ssrc p.
Proof using Hwf.
  unfold m, pkt_bytes, fixed_bytes. split_and!; slice_at; apply be_val_field; apply Hwf.
Qed.

Lemma enc_ext_at : ext_at m = 12 + 4 * cc p ∧ has_ext_bit m = has_ext p ∧ pad_bit m = false.
Proof using Hwf.
  destruct enc_octets as [E0 _]. unfold ext_at, has_ext_bit, pad_bit.
  destruct (octet0_fields (has_ext p) (cc p) _ E0 (wf_cc p Hwf)) as (_ & -> & -> & ->).
  split_and!; done || lia.
Qed.

Lemma enc_csrcs : csrc_words m 0 (Z.to_nat (cc p)) = csrcs p.
Proof using Hwf.
  assert (length (csrcs p) = Z.to_nat (cc p)) as <-.
  { pose proof (wf_cc p Hwf). pose proof (wf_csrc p Hwf). unfold csrcs, mlen in *.
    rewrite length_take. lia. }
  unfold m, pkt_bytes. rewrite <-!app_assoc. apply csrc_words_bytes; [|done|].
  - by rewrite mlen_fixed_bytes.
  - apply Forall_take, Hwf.
Qed.

Lemma enc_ext : has_ext p = true →
  be_val (slice m (ext_at m) 2) = ext_profile p ∧
  payload_at m = ext_at m + 4 + ext_len p ∧
  slice m (ext_at m + 4) (ext_len p) = ptr_bytes (ext p) (ext_len p).
Proof using Hwf.
  intros E. destruct enc_ext_at as (Ha & Hb & _). unfold payload_at. rewrite Hb, E, Ha.
  destruct (wf_ext p Hwf E) as (Hpr & Hl & H4 & Hq).
  pose proof (mlen_fixed_bytes p). pose proof (mlen_csrcs p Hwf). pose proof (wf_cc p Hwf).
  pose proof (mlen_ptr_bytes _ _ (proj1 Hl) Hq).
  unfold m, pkt_bytes, ext_bytes. rewrite E. split_and!; slice_at.
  - by apply be_val_field.
  - pose proof (Z.div_mod (ext_len p) 4 ltac:(done)). rewrite be_val_field; [lia|]. change (256 ^ Z.of_nat 2) with 65536. lia.
  - done.
Qed.

Lemma enc_payload :
  payload_at m + payload_len p = pkt_need p ∧
  slice m (payload_at m) (payload_len p) = ptr_bytes (payload p) (payload_len p).
Proof using Hwf.
  assert (payload_at m = mlen (fixed_bytes p ++ words_bytes (csrcs p) ++ ext_bytes p)) as Ep.
  { rewrite !mlen_app, mlen_fixed_bytes, mlen_csrcs, mlen_ext_bytes by done.
    destruct enc_ext_at as (Ha & Hb & _). destruct (has_ext p) eqn:E.
    - destruct enc_ext as (_ & -> & _); [done|]. lia.
    - unfold payload_at. rewrite Hb. lia. }
  destruct (wf_payload p Hwf) as [Hl Hq]. pose proof (mlen_ptr_bytes _ _ (proj1 Hl) Hq) as Hm.
  rewrite Ep. split.
  - rewrite <-mlen_pkt_bytes by done. unfold pkt_bytes. rewrite !mlen_app, Hm. lia.
  - unfold m, pkt_bytes. rewrite (app_assoc (words_bytes _)), (app_assoc (fixed_bytes _)), <-app_assoc.
    rewrite slice_app_ge, Z.sub_diag by lia. by rewrite slice_app_l, slice_full by lia.
Qed.
End decode.

Lemma get_past m i : mlen m <= i → get m i = 0.
Proof. unfold mlen, get. intros. apply nth_overflow. lia. Qed.
Lemma bytes_ok_pkt p : pkt_wf p → bytes_ok (pkt_bytes p).
Proof.
  intros Hwf. pose proof (wf_cc p Hwf). pose proof (wf_pt p Hwf).
  unfold pkt_bytes, fixed_bytes, ext_bytes. rewrite !bytes_ok_app, !bytes_ok_cons.
  split_and!; try apply be_bytes_ok; try apply bytes_ok_nil; try apply words_bytes_ok;
    try (destruct (has_ext p); lia); try (destruct (marker p); lia).
  - destruct (has_ext p) eqn:E; [|constructor]. rewrite !bytes_ok_app.
    split_and!; [apply be_bytes_ok..|]. by apply ptr_bytes_ok, Hwf.
  - by apply ptr_bytes_ok, Hwf.
Qed.

Lemma encoded_parses p (Hwf : pkt_wf p) r : bytes_ok r → pkt_need p <= 2147483647 →
  ∃ q, rtp_pkt_parse true (Some (pkt_bytes p ++ r)) (pkt_need p) = Ok q ∧ same_pkt p q.
Proof.
  intros Hr Hn. pose proof (mlen_pkt_bytes p Hwf) as Hl. pose proof (mlen_nonneg (pkt_bytes p)).
  assert (bytes_ok (pkt_bytes p ++ r)) as Hok by (apply bytes_ok_app; eauto using bytes_ok_pkt).
  pose proof (payload_at_ge _ Hok) as Hge.
  pose proof (parse_spec (pkt_bytes p ++ r) (pkt_need p) Hok) as Hs.
  destruct (enc_octets p r) as [E0 E1], (enc_fixed p Hwf r) as (Hseq & Hts & Hss),
    (enc_ext_at p Hwf r) as (Ha & Hx & Hpad), (enc_payload p Hwf r) as (Hp & Hpb).
  pose proof (enc_csrcs p Hwf r) as Hcs. pose proof (enc_ext p Hwf r) as Hext.
  destruct (octet0_fields _ _ _ E0 (wf_cc p Hwf)) as (Hv & Hcc & _ & _).
  destruct (octet1_fields _ _ _ E1 (wf_pt p Hwf)) as (Hmk & Hpt).
  assert (ext_at (pkt_bytes p ++ r) <= payload_at (pkt_bytes p ++ r)) as Hle.
  { unfold payload_at. rewrite Hx. destruct (has_ext p) eqn:E; [|lia].
    pose proof (be_val_range (slice (pkt_bytes p ++ r) (ext_at (pkt_bytes p ++ r) + 2) 2)
      ltac:(auto with cmem)). lia. }
  pose proof (proj1 (wf_payload p Hwf)) as Hpl.
  revert Hs Hpb Hcs Hext. rewrite Hmk, Hpt, Hseq, Hts, Hss, Hcc, Hx, Hpad, Hv.
  set (m := pkt_bytes p ++ r) in *. intros Hs Hpb Hcs Hext.
  specialize (Hs ltac:(unfold m; rewrite mlen_app; pose proof (mlen_nonneg r); lia) ltac:(lia)).
  destruct (rtp_pkt_parse true (Some m) (pkt_need p)) as [q|rc|]; [|exfalso|done].
  2: { destruct Hs as [(_ & Hs)|[(_ & Hs)|(_ & Hs & _)]]; [|done..].
       destruct Hs as [|[|[? [|]]]]; [lia..| |lia].
       destruct (Hext ltac:(done)) as (_ & ? & _). pose proof (wf_ext p Hwf ltac:(done)). lia. }
  exists q. split; [done|].
  destruct Hs as (_ & _ & ? & ? & ? & ? & ? & Hc & Hcs' & He & Hex & Hpp & _ & Hlen & _).
  assert (payload_len q = payload_len p) as Hple by lia.
  split; try done.
  - unfold csrcs at 1. by rewrite Hcs', Hc.
  - intros E. destruct (Hex ltac:(congruence)) as (Hq & Hprof & Hlq), (Hext E) as (Hpr & Hla & Hb).
    assert (ext_len q = ext_len p) as -> by lia. rewrite Hq. by rewrite Hprof.
  - rewrite Hple, Hpp. done.
Qed.

(** Encoding a well-formed packet into a buffer that holds it writes exactly
    the announced octets, and parsing them gives the packet back: flags, numbers,
    contributing sources, header extension and payload.  A buffer that is too
    small is left alone and reported. *)
Theorem rtp_pkt_roundtrip p b cap :
  pkt_wf p → bytes_ok b → 0 <= cap <= mlen b → pkt_need p <= 2147483647 →
  if cap <? pkt_need p then
    rtp_pkt_encode (Some p) (Some b) cap = Ok (Some b, RTP_E_OVERFLOW)
  else
    ∃ b' n q, rtp_pkt_encode (Some p) (Some b) cap = Ok (Some b', n) ∧
      drop (Z.to_nat n) b' = drop (Z.to_nat n) b ∧
      rtp_pkt_parse true (Some b') n = Ok q ∧ same_pkt p q.
Proof.
  intros Hwf Hb Hc Hn. destruct (Z.ltb_spec cap (pkt_need p)).
  { unfold rtp_pkt_encode. destruct (encode_args p Hwf) as (-> & -> & ->).
    by destruct (Z.ltb_spec cap (pkt_need p)); [|lia]. }
  rewrite encode_bytes by (done || lia). pose proof (mlen_pkt_bytes p Hwf) as Hl.
  pose proof (mlen_nonneg (pkt_bytes p)). rewrite i32_small by lia. rewrite splice_0.
  set (r := drop (length (pkt_bytes p)) b). do 2 eexists.
  assert (drop (Z.to_nat (pkt_need p)) (pkt_bytes p ++ r) = drop (Z.to_nat (pkt_need p)) b) as Hd.
  { rewrite <-Hl. unfold mlen. rewrite Nat2Z.id. by rewrite drop_app_length. }
  destruct (encoded_parses p Hwf r) as (q & Hq & Hs); [by apply Forall_drop|done|].
  by exists q.
Qed.

Definition demo_pkt : rtp_pkt :=
  {| marker := true; pt := 96; seqn := 48879; ts := 305419896; ssrc := 3405691582; cc := 2;
     csrc := 286331153 :: 572662306 :: zeros 13; has_ext := true; ext_profile := 48862;
     ext := Some ([1; 2; 3; 4; 5; 6; 7; 8], 0); ext_len := 8;
     payload := Some ([9; 222; 173; 190], 1); payload_len := 3 |}.

Lemma demo_pkt_wf : pkt_wf demo_pkt.
Proof.
  split; simpl; try lia; try done.
  - unfold zeros. simpl. repeat constructor; lia.
  - intros _. split_and!; try lia; try done. bytes_tac.
  - split_and!; try lia; try done. bytes_tac.
Qed.

Lemma rtp_pkt_roundtrip_witness :
  ∃ b' n q, rtp_pkt_encode (Some demo_pkt) (Some (zeros 40)) 40 = Ok (Some b', n) ∧
    rtp_pkt_parse true (Some b') n = Ok q ∧ same_pkt demo_pkt q.
Proof.
  destruct (rtp_pkt_roundtrip demo_pkt (zeros 40) 40 demo_pkt_wf (bytes_ok_zeros 40)
    ltac:(by vm_compute) ltac:(by vm_compute)) as (b' & n & q & ? & _ & ? & ?).
  exists b', n, q. by split_and!.
Defined.

(** The size check adds [4 + ext_len] in 32 bits: an extension of [2^32 - 4]
    octets passes it for a twelve-octet buffer, and the encoder writes past it. *)
Theorem rtp_encode_ext_wraps m b sn t src :
  mlen b = 12 →
  let p := {| marker := false; pt := 0; seqn := sn; ts := t; ssrc := src; cc := 0; csrc := zeros 15;
              has_ext := true; ext_profile := 0; ext := Some (m, 0); ext_len := 4294967292;
              payload := None; payload_len := 0 |} in
  pkt_need p = 12 ∧ rtp_pkt_encode (Some p) (Some b) 12 = Ub.
Proof.
  intros Hb p. split; [done|]. unfold rtp_pkt_encode. change (pkt_need p) with 12.
  unfold p. cbn -[wr rtp_wr16 rtp_wr32 mbind Z.lor u8 be_bytes]. bstep.
  rewrite wr_wrn, wrn_first by mlia. rewrite wr_wrn, wrn_next by mlia.
  rewrite rtp_wr16_bytes, wrn_next by mlia. rewrite rtp_wr32_bytes, wrn_next by mlia.
  rewrite rtp_wr32_bytes, wrn_next by mlia.
  change (negb (4294967292 mod 4 =? 0)) with false. change (Z.to_nat 0) with 0%nat.
  cbn [orb csrc_write]. bstep.
  rewrite rtp_wr16_bytes. unfold wrn. rewrite mlen_splice by mlia. mlen_simp. by rewrite Hb.
Qed.

(** ** The source tracker

    What the tracker stands for: the unwrapped sequence number of the first
    packet counted, the highest one, the packets counted, and both figures at
    the last report. *)

Record track := Track { t_first : Z; t_top : Z; t_count : Z; t_expected0 : Z; t_count0 : Z }.

Inductive event :=
| Arrive (x : Z)   (* a packet with unwrapped sequence number [x] *)
| Report.

Definition t_expected (t : track) : Z := t_top t - t_first t + 1.

Definition track_step (t : track) (e : event) : track :=
  match e with
  | Arrive x => Track (t_first t) (Z.max (t_top t) x) (t_count t + 1) (t_expected0 t) (t_count0 t)
  | Report => Track (t_first t) (t_top t) (t_count t) (t_expected t) (t_count t)
  end.

Inductive output := Counted (b : Z) | Block (fraction lost last_seq : Z).

(** RFC 3550 A.3 on exact numbers. *)
Definition track_output (t : track) (e : event) : output :=
  match e with
  | Arrive _ => Counted 1
  | Report =>
      let exp := t_expected t - t_expected0 t in
      let lst := exp - (t_count t - t_count0 t) in
      Block (if (0 <? exp) && (0 <? lst) then lst * 256 / exp else 0)
        (Z.max (-8388608) (Z.min 8388607 (t_expected t - t_count t)))
        (t_top t)
  end.

(** What the tracker is good for: a packet arrives less than 3000 ahead of the
    highest one or fewer than 100 behind it, no count reaches [2^31], and an
    interval between reports expects fewer than [2^23] packets. *)
Definition in_window (t : track) (e : event) : Prop :=
  match e with
  | Arrive x => t_top t - RTP_MAX_MISORDER < x < t_top t + RTP_MAX_DROPOUT ∧
      x < 2147483648 ∧ t_count t + 1 < 2147483648
  | Report => t_expected t - t_expected0 t < 8388608
  end.

Fixpoint track_run (t : track) (es : list event) : list output :=
  match es with [] => [] | e :: es => track_output t e :: track_run (track_step t e) es end.
Fixpoint in_order (t : track) (es : list event) : Prop :=
  match es with [] => True | e :: es => in_window t e ∧ in_order (track_step t e) es end.

Definition source_step (s : rtp_source) (e : event) : res (rtp_source * output) :=
  match e with
  | Arrive x => let '(s, b) := rtp_source_update s (u16 x) in Ok (s, Counted b)
  | Report =>
      '(s, r) ← rtp_source_report s; Ok (s, Block (fraction r) (lost r) (last_seq r))
  end.

Fixpoint source_run (s : rtp_source) (es : list event) : res (list output) :=
  match es with
  | [] => Ok []
  | e :: es => '(s, o) ← source_step s e; os ← source_run s es; Ok (o :: os)
  end.

(** The tracker's fields are the abstract figures in their widths. *)
Record tracks (s : rtp_source) (t : track) : Prop := {
  tr_valid : probation s = 0;
  tr_first : base_seq s = t_first t ∧ 0 <= t_first t < 65536;
  tr_max : max_seq s = t_top t mod 65536;
  tr_cycles : cycles s = t_top t - t_top t mod 65536;
  tr_top : t_first t <= t_top t < 2147483648;
  tr_count : received s = t_count t ∧ 1 <= t_count t < 2147483648;
  tr_exp0 : expected_prior s = t_expected0 t ∧ 0 <= t_expected0 t <= t_expected t;
  tr_count0 : received_prior s = t_count0 t ∧ 0 <= t_count0 t <= t_count t;
  tr_interval : t_expected0 t = t_expected t ∨ t_count0 t < t_count t }.

Lemma update_tracks s t x :
  tracks s t → in_window t (Arrive x) →
  ∃ s', rtp_source_update s (u16 x) = (s', 1) ∧ tracks s' (track_step t (Arrive x)).
Proof.
  intros [Hv [Hb Hb0] Hm Hc Ht [Hr Hr0] [He He0] [Hp Hp0] Hi] (Hw & Hx & Hn).
  unfold RTP_MAX_MISORDER, RTP_MAX_DROPOUT in Hw.
  unfold rtp_source_update. rewrite Hv. cbn [Z.eqb negb].
  unfold t_expected in *.
  assert (u16 (u16 x - max_seq s) = (x - t_top t) mod 65536) as ->.
  { rewrite Hm. unfold u16. by rewrite <-Zminus_mod. }
  assert (0 <= t_top t) by lia.
  destruct (Z.lt_ge_cases x (t_top t)) as [Hlt|Hge].
  - (* a late packet *)
    assert ((x - t_top t) mod 65536 = 65536 + (x - t_top t)) as ->.
    { rewrite <-(Z.mod_add _ 1) by done. rewrite Z.mod_small; lia. }
    destruct (Z.ltb_spec (65536 + (x - t_top t)) RTP_MAX_DROPOUT) as [Hd|_];
      [unfold RTP_MAX_DROPOUT in Hd; lia|].
    destruct (Z.leb_spec (65536 + (x - t_top t)) (RTP_SEQ_MOD - RTP_MAX_MISORDER)) as [Hd|_];
      [unfold RTP_SEQ_MOD, RTP_MAX_MISORDER in Hd; lia|].
    eexists. split; [done|]. cbn [track_step]. rewrite Z.max_l by lia.
    split; unfold t_expected; cbn; try done; try lia. rewrite u32_small by lia. lia.
  - (* in order, possibly past a wrap of the 16-bit number *)
    rewrite (Z.mod_small (x - t_top t)) by lia.
    destruct (Z.ltb_spec (x - t_top t) RTP_MAX_DROPOUT) as [_|Hd];
      [|unfold RTP_MAX_DROPOUT in Hd; lia].
    eexists. split; [done|]. cbn [track_step]. rewrite Z.max_r by lia.
    assert (cycles (if u16 x <? max_seq s then set_cycles s (u32 (cycles s + RTP_SEQ_MOD)) else s) =
      x - x mod 65536) as Hcy.
    { rewrite Hm, Hc. unfold u16, RTP_SEQ_MOD.
      destruct (Z.ltb_spec (x mod 65536) (t_top t mod 65536)); cbn [set_cycles set_seq cycles].
      - rewrite u32_small; Z.to_euclidean_division_equations; lia.
      - rewrite Hc. Z.to_euclidean_division_equations; lia. }
    split; cbn [probation base_seq max_seq cycles received expected_prior received_prior
      set_received set_max set_seq t_first t_top t_count t_expected0 t_count0];
      destruct (u16 x <? max_seq s); unfold t_expected; cbn in Hcy |- *; try done; try lia;
      rewrite u32_small by lia; lia.
Qed.

Lemma report_tracks s t :
  tracks s t → in_window t Report →
  ∃ s' r, rtp_source_report s = Ok (s', r) ∧ tracks s' (track_step t Report) ∧
    track_output t Report = Block (fraction r) (lost r) (last_seq r).
Proof.
  intros [Hv [Hb Hb0] Hm Hc Ht [Hr Hr0] [He He0] [Hp Hp0] Hi] Hw.
  unfold rtp_source_report. unfold in_window, t_expected in *.
  assert (u32 (cycles s + max_seq s) = t_top t) as ->.
  { rewrite Hc, Hm. rewrite u32_small; lia. }
  rewrite Hb, (u32_small (t_top t - t_first t + 1)) by lia.
  rewrite Hr, He, Hp.
  rewrite (u32_small (t_top t - t_first t + 1 - t_expected0 t)),
    (u32_small (t_count t - t_count0 t)) by lia.
  rewrite !i32_u32 by lia. unfold track_output, t_expected.
  set (ex := t_top t - t_first t + 1 - t_expected0 t) in *.
  assert (ex = t_top t - t_first t + 1 - t_expected0 t) as Hex by done.
  set (lt := ex - (t_count t - t_count0 t)).
  assert (lt = ex - (t_count t - t_count0 t)) as Hlt by done. clearbody lt ex.
  assert ((if negb (ex =? 0) && (0 <? lt) then
      if 2147483647 <? Z.shiftl lt 8 then Ub else Ok (u8 (u32 (Z.shiftl lt 8) / ex))
    else Ok 0) = Ok (if (0 <? ex) && (0 <? lt) then lt * 256 / ex else 0)) as ->.
  { rewrite Z.shiftl_mul_pow2 by lia. change (2 ^ 8) with 256.
    destruct (Z.eqb_spec ex 0), (Z.ltb_spec 0 ex), (Z.ltb_spec 0 lt); cbn [negb andb];
      try done; try lia.
    destruct (Z.ltb_spec 2147483647 (lt * 256)); [lia|]. rewrite u32_small by lia. f_equal.
    apply u8_small. split; [apply Z.div_pos; lia|]. apply Z.div_lt_upper_bound; lia. }
  bstep. do 2 eexists. split; [done|]. split.
  - split; unfold t_expected; cbn; unfold t_expected; done || lia.
  - cbn [fraction lost last_seq]. f_equal.
    destruct (Z.ltb_spec 8388607 (t_top t - t_first t + 1 - t_count t)).
    { change (8388607 <? -8388608) with false. cbn iota. lia. }
    destruct (Z.ltb_spec (t_top t - t_first t + 1 - t_count t) (-8388608)); lia.
Qed.

Lemma run_tracks es : ∀ s t, tracks s t → in_order t es → source_run s es = Ok (track_run t es).
Proof.
  induction es as [|e es IH]; intros s t Ht Ho; [done|]. destruct Ho as [Hw Ho].
  cbn [source_run track_run]. destruct e as [x|]; cbn [source_step].
  - destruct (update_tracks s t x Ht Hw) as (s' & -> & Ht'). bstep.
    by rewrite (IH s' _ Ht' Ho).
  - destruct (report_tracks s t Ht Hw) as (s' & r & -> & Ht' & ->). bstep.
    by rewrite (IH s' _ Ht' Ho).
Qed.

(** Two packets in sequence end the probation and start the counting. *)
Lemma validated s x : probation s = 1 → max_seq s = u16 x →
  ∃ s', rtp_source_update s (u16 (x + 1)) = (s', 1) ∧
    tracks s' (Track (u16 (x + 1)) (u16 (x + 1)) 1 0 0).
Proof.
  intros Hp Hm. unfold rtp_source_update. rewrite Hp, Hm. cbn [Z.eqb negb].
  assert (u16 (u16 x + 1) = u16 (x + 1)) as -> by (unfold u16; by rewrite Zplus_mod_idemp_l).
  rewrite Z.eqb_refl. eexists. split; [done|].
  pose proof (u16_range (x + 1)) as Hr.
  split; unfold t_expected; cbn; try done; try lia.
  - by rewrite Z.mod_small.
  - rewrite Z.mod_small by done. lia.
Qed.

(** No packet is the successor of the one before it. *)
Fixpoint no_pair (prev : Z) (xs : list Z) : Prop :=
  match xs with [] => True | x :: xs => u16 x ≠ u16 (prev + 1) ∧ no_pair x xs end.

Fixpoint last_of (prev : Z) (xs : list Z) : Z :=
  match xs with [] => prev | x :: xs => last_of x xs end.

Lemma probation_run xs : ∀ s p es, probation s = 1 → max_seq s = u16 p → no_pair p xs →
  ∃ s', probation s' = 1 ∧ max_seq s' = u16 (last_of p xs) ∧
    source_run s (map Arrive xs ++ es) =
      (os ← source_run s' es; Ok (replicate (length xs) (Counted 0) ++ os)).
Proof.
  induction xs as [|x xs IH]; intros s p es Hp Hm Hn.
  { exists s. split_and!; try done. cbn. by destruct (source_run s es). }
  destruct Hn as [Hx Hn]. cbn [map app source_run source_step].
  unfold rtp_source_update. rewrite Hp, Hm. cbn [Z.eqb negb].
  assert (u16 (u16 p + 1) = u16 (p + 1)) as -> by (unfold u16; by rewrite Zplus_mod_idemp_l).
  destruct (Z.eqb_spec (u16 x) (u16 (p + 1))); [done|]. bstep.
  destruct (IH (set_max (set_probation s (RTP_MIN_SEQUENTIAL - 1)) (u16 x)) x es)
    as (s' & ? & Hl & ->); [done..|].
  exists s'. split_and!; [done| |].
  - done.
  - by destruct (source_run s' es).
Qed.

(** C31: the source tracker refines exact bookkeeping.  A new source counts
    nothing until two packets arrive in sequence, whatever came before; from
    then on, for every run of packets inside the reordering window and of
    reports, the 16-bit arithmetic reconstructs the unwrapped highest sequence
    number, and each report block carries the exact fraction lost since the
    last report, the cumulative loss clamped to 24 bits and that number. *)
Theorem rtp_source_refines ssrc seq y xs es :
  no_pair y xs →
  let x := last_of y xs + 1 in
  let t := Track (u16 x) (u16 x) 1 0 0 in
  in_order t es →
  source_run (rtp_source_init ssrc seq) (map Arrive (y :: xs) ++ Arrive x :: es) =
    Ok (replicate (S (length xs)) (Counted 0) ++ Counted 1 :: track_run t es).
Proof.
  intros Hn x t Ho. cbn [map app source_run source_step].
  assert (∃ s, rtp_source_update (rtp_source_init ssrc seq) (u16 y) = (s, 0) ∧
    probation s = 1 ∧ max_seq s = u16 y) as (s & -> & Hp & Hm).
  { unfold rtp_source_update. cbn [probation rtp_source_init set_probation set_seq].
    change (negb (RTP_MIN_SEQUENTIAL =? 0)) with true. cbn iota.
    destruct (u16 y =? _); by eexists. }
  bstep. destruct (probation_run xs s y (Arrive x :: es) Hp Hm Hn) as (s1 & Hp1 & Hm1 & ->).
  cbn [source_run source_step].
  destruct (validated s1 (last_of y xs) Hp1 Hm1) as (s2 & Hu & Ht). fold x in Hu, Ht.
  rewrite Hu. bstep. by rewrite (run_tracks es s2 t Ht Ho).
Qed.

Lemma rtp_source_refines_witness :
  source_run (rtp_source_init 7 100) [Arrive 100; Arrive 90; Arrive 65534; Arrive 65535;
      Arrive 65537; Arrive 65536; Arrive 65540; Report; Arrive 65541; Report] =
    Ok [Counted 0; Counted 0; Counted 0; Counted 1; Counted 1; Counted 1; Counted 1;
        Block 85 2 65540; Counted 1; Block 0 2 65541].
Proof.
  apply (rtp_source_refines 7 100 100 [90; 65534] [Arrive 65537; Arrive 65536; Arrive 65540;
    Report; Arrive 65541; Report]); by vm_compute.
Defined.

(** A packet far outside the window is not counted and leaves the
    bookkeeping as it was, unless it is the successor of another such packet:
    then the sender is taken to have restarted and counting starts over there. *)
Theorem rtp_source_resync s t x :
  tracks s t → RTP_MAX_DROPOUT <= (x - t_top t) mod 65536 <= RTP_SEQ_MOD - RTP_MAX_MISORDER →
  if u16 x =? bad_seq s then
    ∃ s', rtp_source_update s (u16 x) = (s', 1) ∧ tracks s' (Track (u16 x) (u16 x) 1 0 0)
  else
    ∃ s', rtp_source_update s (u16 x) = (s', 0) ∧ tracks s' t ∧ bad_seq s' = u16 (x + 1).
Proof.
  intros Ht [Hx1 Hx2]. destruct Ht as [Hv [Hb Hb0] Hm Hc Ht Hr He Hp Hi].
  unfold rtp_source_update. rewrite Hv. cbn [Z.eqb negb].
  assert (u16 (u16 x - max_seq s) = (x - t_top t) mod 65536) as ->.
  { rewrite Hm. unfold u16. by rewrite <-Zminus_mod. }
  destruct (Z.ltb_spec ((x - t_top t) mod 65536) RTP_MAX_DROPOUT); [lia|].
  destruct (Z.leb_spec ((x - t_top t) mod 65536) (RTP_SEQ_MOD - RTP_MAX_MISORDER)); [|lia].
  pose proof (u16_range x) as Hu.
  destruct (u16 x =? bad_seq s); (eexists; split; [done|]).
  - split; unfold t_expected; cbn; try done; try lia.
    + by rewrite Z.mod_small.
    + rewrite Z.mod_small by done. lia.
  - split; [split; cbn; done || lia|]. cbn. unfold u16. by rewrite Zplus_mod_idemp_l.
Qed.

Definition demo_source : rtp_source :=
  (rtp_source_update (rtp_source_update (rtp_source_init 7 100) 100).1 101).1.

Lemma rtp_source_resync_witness :
  ∃ s', rtp_source_update demo_source 40000 = (s', 0) ∧
    tracks s' (Track 101 101 1 0 0) ∧ bad_seq s' = 40001.
Proof.
  assert (tracks demo_source (Track 101 101 1 0 0)) as Ht
    by (split; unfold t_expected; cbn; done || lia).
  exact (rtp_source_resync demo_source (Track 101 101 1 0 0) 40000 Ht ltac:(by vm_compute)).
Defined.

(** ** Jitter *)

(** Samples by their exact stamp and arrival time; the code sees 32 bits. *)
Fixpoint jitter_run (s : rtp_source) (xs : list (Z * Z)) : res rtp_source :=
  match xs with
  | [] => Ok s
  | (stamp, arrival) :: xs => s ← rtp_source_jitter s (u32 stamp) (u32 arrival); jitter_run s xs
  end.

(** The estimator of RFC 3550 A.8 on exact numbers, [prev] the last transit time. *)
Fixpoint jitter_spec (prev j : Z) (xs : list (Z * Z)) : Z :=
  match xs with
  | [] => j
  | (stamp, arrival) :: xs =>
      let t := arrival - stamp in jitter_spec t (j + Z.abs (t - prev) - (j + 8) / 16) xs
  end.

(** Consecutive transit times differ by at most [d]. *)
Fixpoint steady (d prev : Z) (xs : list (Z * Z)) : Prop :=
  match xs with
  | [] => True
  | (stamp, arrival) :: xs =>
      Z.abs (arrival - stamp - prev) <= d ∧ steady d (arrival - stamp) xs
  end.

Lemma abs_delta d : -2147483648 < d < 2147483648 →
  (if i32 (u32 d) <? 0 then if i32 (u32 d) =? -2147483648 then Ub else Ok (u32 (- i32 (u32 d)))
   else Ok (u32 d)) = Ok (Z.abs d).
Proof.
  intros. rewrite i32_u32 by lia. destruct (Z.ltb_spec d 0), (Z.eqb_spec d (-2147483648));
    try lia; f_equal; rewrite u32_small; lia.
Qed.

Lemma transit_wraps a b : u32 (u32 a - u32 b) = u32 (a - b).
Proof. unfold u32. by rewrite <-Zminus_mod. Qed.

Lemma jitter_run_spec d xs : 0 <= d < 268435455 → ∀ s prev,
  has_transit s = true → transit s = u32 prev → 0 <= s_jitter s <= 16 * d + 7 →
  steady d prev xs →
  ∃ s', jitter_run s xs = Ok s' ∧ s_jitter s' = jitter_spec prev (s_jitter s) xs ∧
    0 <= s_jitter s' <= 16 * d + 7.
Proof.
  intros Hd. induction xs as [|[stamp arr] xs IH]; intros s prev Hh Ht Hj Hs; [by exists s|].
  destruct Hs as [Hdel Hs]. cbn [jitter_run jitter_spec]. unfold rtp_source_jitter.
  rewrite Hh. cbn [negb]. rewrite Ht.
  rewrite !transit_wraps.
  rewrite abs_delta by lia. bstep. rewrite (u32_small (s_jitter s + 8)) by lia.
  rewrite shiftr_div by lia. change (2 ^ 4) with 16.
  set (j := s_jitter s + Z.abs (arr - stamp - prev) - (s_jitter s + 8) / 16).
  assert (0 <= j <= 16 * d + 7) as Hj'.
  { unfold j. Z.to_euclidean_division_equations; lia. }
  assert (u32 (s_jitter s + u32 (Z.abs (arr - stamp - prev) - (s_jitter s + 8) / 16)) = j) as ->.
  { unfold u32. rewrite Zplus_mod_idemp_r, Z.add_sub_assoc. apply Z.mod_small. fold j. lia. }
  match goal with |- context [jitter_run ?s1 xs] =>
    destruct (IH s1 (arr - stamp)) as (s' & -> & Hs' & Hr); [done..|] end.
  by exists s'.
Qed.

(** C32: over packets whose relative transit times change by at most [d] from one
    to the next, the fixed-point jitter follows the estimator of RFC 3550 A.8
    exactly, through the wrap-around of the 32-bit time stamps and clocks, and
    the jitter a report carries never exceeds [d]. *)
Theorem rtp_jitter_exact ssrc seq d stamp arrival xs :
  0 <= d < 268435455 → steady d (arrival - stamp) xs →
  ∃ s, jitter_run (rtp_source_init ssrc seq) ((stamp, arrival) :: xs) = Ok s ∧
    s_jitter s = jitter_spec (arrival - stamp) 0 xs ∧ Z.shiftr (s_jitter s) 4 <= d.
Proof.
  intros Hd Hs. cbn [jitter_run]. unfold rtp_source_jitter at 1. cbn [has_transit rtp_source_init
    set_probation set_max set_seq source_reset zero_source negb]. bstep.
  match goal with |- context [jitter_run ?s1 xs] =>
    destruct (jitter_run_spec d xs Hd s1 (arrival - stamp)) as (s & -> & Hj & Hr);
      [done|apply transit_wraps|cbn; lia|done|] end.
  exists s. split_and!; [done|done|]. rewrite shiftr_div by lia. change (2 ^ 4) with 16.
  apply Z.lt_succ_r, Z.div_lt_upper_bound; lia.
Qed.

Lemma rtp_jitter_exact_witness :
  ∃ s, jitter_run (rtp_source_init 7 100)
      [(4294967200, 100); (4294967360, 290); (4294967520, 420); (4294967680, 610)] = Ok s ∧
    s_jitter s = 84 ∧ Z.shiftr (s_jitter s) 4 <= 30.
Proof.
  exact (rtp_jitter_exact 7 100 30 4294967200 100
    [(4294967360, 290); (4294967520, 420); (4294967680, 610)] ltac:(lia) ltac:(by vm_compute)).
Defined.

(** Two packets whose transit times are [2^31] apart make the code negate the
    least 32-bit integer. *)
Theorem rtp_jitter_least_difference ssrc seq :
  jitter_run (rtp_source_init ssrc seq) [(0, 0); (2147483648, 0)] = Ub.
Proof. reflexivity. Qed.

End Rtp.
