(* ===== verification/Rtcp.v ===== *)
(** * Rtcp: RTCP compound packets

    Models [rtp/src/rtcp.c]: the iterator over the packets of a compound
    datagram, the parsers of sender and receiver reports, BYE and SDES, and the
    writer with its sticky overflow flag.  Pointers into the datagram are
    offsets. *)

From S2P Require Import Prelude Endian Rtp.

Module Rtcp.
Import Rtp.

Definition RTCP_HDR_LEN : Z := 4.
Definition REPORT_LEN : Z := 24.
Definition RTCP_MAX_REPORTS : Z := 31.
Definition RTCP_SR : Z := 200.
Definition RTCP_RR : Z := 201.
Definition RTCP_SDES : Z := 202.
Definition RTCP_BYE : Z := 203.
Definition RTCP_SDES_END : Z := 0.
Definition RTCP_SDES_CNAME : Z := 1.

Record rtcp_view := RtcpView { v_type : Z; v_count : Z; v_body : Z; v_body_len : Z }.
Record rtcp_iter := RtcpIter { i_p : option Z; i_len : Z }.

Record rtcp_rep := RtcpRep {
  p_ssrc : Z; ntp_sec : Z; ntp_frac : Z; rtp_ts : Z; pkt_count : Z; octet_count : Z;
  p_count : Z; reports : list rtcp_report }.

(** The reason is an offset and a length, or NULL and 0. *)
Record rtcp_bye := RtcpBye { b_count : Z; b_ssrc : list Z; b_reason : option Z; b_reason_len : Z }.

(** ** Compound iteration *)

Definition rtcp_iter_init (buf : option Z) (len : Z) : rtcp_iter :=
  {| i_p := buf; i_len := len |}.

(** [None] is the return of 0 at the end. *)
Definition rtcp_iter_next (m : mem) (it : rtcp_iter) : res (option (rtcp_view * rtcp_iter)) :=
  if i_len it =? 0 then Ok None else
  match i_p it with
  | None => Err RTP_E_SHORT
  | Some b =>
      if i_len it <? RTCP_HDR_LEN then Err RTP_E_SHORT else
      b0 ← rd m b;
      if negb (Z.shiftr b0 6 =? RTP_VERSION) then Err RTP_E_VERSION else
      w ← rtp_rd16 m (b + 2);
      let plen := (w + 1) * 4 in
      if i_len it <? plen then Err RTP_E_SHORT else
      ty ← rd m (b + 1);
      let body_len := u32 (plen - RTCP_HDR_LEN) in
      body_len ←
        (if negb (Z.land (Z.shiftr b0 5) 1 =? 0) then
           if body_len =? 0 then Err RTP_E_FORMAT else
           npad ← rd m (b + plen - 1);
           if (npad =? 0) || (body_len <? npad) then Err RTP_E_FORMAT else
           Ok (body_len - npad)
         else Ok body_len);
      Ok (Some ({| v_type := ty; v_count := Z.land b0 31; v_body := b + RTCP_HDR_LEN;
                   v_body_len := body_len |},
                {| i_p := Some (b + plen); i_len := i_len it - plen |}))
  end.

(** ** Reports *)

Definition report_parse (m : mem) (b : Z) : res rtcp_report :=
  ssrc ← rtp_rd32 m b;
  fr ← rd m (b + 4);
  b5 ← rd m (b + 5); b6 ← rd m (b + 6); b7 ← rd m (b + 7);
  let lost := i32 (Z.lor (Z.lor (Z.shiftl b5 16) (Z.shiftl b6 8)) b7) in
  let lost := if negb (Z.land lost 8388608 =? 0) then lost - 16777216 else lost in
  last_seq ← rtp_rd32 m (b + 8);
  jit ← rtp_rd32 m (b + 12);
  lsr ← rtp_rd32 m (b + 16);
  dlsr ← rtp_rd32 m (b + 20);
  Ok {| r_ssrc := ssrc; fraction := fr; lost := lost; last_seq := last_seq; jitter := jit;
        lsr := lsr; dlsr := dlsr |}.

Definition zero_report : rtcp_report := RtcpReport 0 0 0 0 0 0 0.

(** An assignment to an element of the fixed array of reports. *)
Definition set_report (rs : list rtcp_report) (i : Z) (r : rtcp_report) : res (list rtcp_report) :=
  if (0 <=? i) && (i <? Z.of_nat (length rs)) then Ok (<[Z.to_nat i := r]> rs) else Ub.

Fixpoint reports_parse (n : nat) (m : mem) (base i : Z) (rs : list rtcp_report) :
    res (list rtcp_report) :=
  match n with
  | O => Ok rs
  | S n =>
      r ← report_parse m (base + i * REPORT_LEN);
      rs ← set_report rs i r;
      reports_parse n m base (i + 1) rs
  end.

Definition rep_parse (m : mem) (v : rtcp_view) (sr : bool) : res rtcp_rep :=
  let fixed := if sr then 24 else 4 in
  if v_body_len v <? u32 (fixed + v_count v * REPORT_LEN) then Err RTP_E_SHORT else
  ssrc ← rtp_rd32 m (v_body v);
  sec ← (if sr then rtp_rd32 m (v_body v + 4) else Ok 0);
  frac ← (if sr then rtp_rd32 m (v_body v + 8) else Ok 0);
  ts ← (if sr then rtp_rd32 m (v_body v + 12) else Ok 0);
  pkts ← (if sr then rtp_rd32 m (v_body v + 16) else Ok 0);
  octs ← (if sr then rtp_rd32 m (v_body v + 20) else Ok 0);
  rs ← reports_parse (Z.to_nat (v_count v)) m (v_body v + fixed) 0
         (replicate (Z.to_nat RTCP_MAX_REPORTS) zero_report);
  Ok {| p_ssrc := ssrc; ntp_sec := sec; ntp_frac := frac; rtp_ts := ts; pkt_count := pkts;
        octet_count := octs; p_count := v_count v; reports := rs |}.

(** [out] says whether the output pointer is given. *)
Definition rtcp_sr_parse (m : mem) (v : option rtcp_view) (out : bool) : res rtcp_rep :=
  match v, out with
  | Some v, true => if negb (v_type v =? RTCP_SR) then Err RTP_E_FORMAT else rep_parse m v true
  | _, _ => Err RTP_E_INVAL
  end.

Definition rtcp_rr_parse (m : mem) (v : option rtcp_view) (out : bool) : res rtcp_rep :=
  match v, out with
  | Some v, true => if negb (v_type v =? RTCP_RR) then Err RTP_E_FORMAT else rep_parse m v false
  | _, _ => Err RTP_E_INVAL
  end.

(** ** BYE *)

Fixpoint ssrcs_parse (n : nat) (m : mem) (body i : Z) (ss : list Z) : res (list Z) :=
  match n with
  | O => Ok ss
  | S n =>
      v ← rtp_rd32 m (body + i * 4);
      ss ← wr ss i v;
      ssrcs_parse n m body (i + 1) ss
  end.

Definition rtcp_bye_parse (m : mem) (v : option rtcp_view) (out : bool) : res rtcp_bye :=
  match v, out with
  | Some v, true =>
      if negb (v_type v =? RTCP_BYE) then Err RTP_E_FORMAT else
      if v_body_len v <? v_count v * 4 then Err RTP_E_SHORT else
      ss ← ssrcs_parse (Z.to_nat (v_count v)) m (v_body v) 0 (zeros RTCP_MAX_REPORTS);
      let off := v_count v * 4 in
      if off <? v_body_len v then
        rlen ← rd m (v_body v + off);
        if v_body_len v <? u32 (off + 1 + rlen) then Err RTP_E_FORMAT else
        Ok {| b_count := v_count v; b_ssrc := ss; b_reason := Some (v_body v + off + 1);
              b_reason_len := rlen |}
      else Ok {| b_count := v_count v; b_ssrc := ss; b_reason := None; b_reason_len := 0 |}
  | _, _ => Err RTP_E_INVAL
  end.

(** ** SDES *)

Record rtcp_sdes_iter := RtcpSdesIter {
  d_p : Z; d_len : Z; d_ssrc : Z; d_chunks_left : Z; d_in_chunk : bool }.
Record sdes_item := SdesItem { si_ssrc : Z; si_item : Z; si_value : Z; si_len : Z }.

Definition rtcp_sdes_init (v : option rtcp_view) (it : bool) : res rtcp_sdes_iter :=
  match v, it with
  | Some v, true =>
      if negb (v_type v =? RTCP_SDES) then Err RTP_E_FORMAT else
      Ok {| d_p := v_body v; d_len := v_body_len v; d_ssrc := 0; d_chunks_left := v_count v;
            d_in_chunk := false |}
  | _, _ => Err RTP_E_INVAL
  end.

(** The start of a chunk: its SSRC.  [None] when no chunk is left. *)
Definition sdes_enter (m : mem) (it : rtcp_sdes_iter) : res (option rtcp_sdes_iter) :=
  if d_in_chunk it then Ok (Some it) else
  if d_chunks_left it =? 0 then Ok None else
  if d_len it <? 4 then Err RTP_E_SHORT else
  ssrc ← rtp_rd32 m (d_p it);
  Ok (Some {| d_p := d_p it + 4; d_len := d_len it - 4; d_ssrc := ssrc;
              d_chunks_left := u8 (d_chunks_left it - 1); d_in_chunk := true |}).

(** [None] is the return of 0 at the end.  Each turn that continues consumes an
    END octet, so that one unit of fuel per octet is enough. *)
Fixpoint sdes_loop (fuel : nat) (m : mem) (it : rtcp_sdes_iter) :
    res (option (sdes_item * rtcp_sdes_iter)) :=
  match fuel with
  | O => Ub
  | S fuel =>
      e ← sdes_enter m it;
      match e with
      | None => Ok None
      | Some it =>
          if d_len it <? 1 then Err RTP_E_SHORT else
          ty ← rd m (d_p it);
          if ty =? RTCP_SDES_END then
            let skip := Z.land (u32 (d_len it - 1)) 3 + 1 in
            let skip := if d_len it <? skip then d_len it else skip in
            sdes_loop fuel m {| d_p := d_p it + skip; d_len := d_len it - skip; d_ssrc := d_ssrc it;
                                d_chunks_left := d_chunks_left it; d_in_chunk := false |}
          else if d_len it <? 2 then Err RTP_E_SHORT else
          vlen ← rd m (d_p it + 1);
          if d_len it <? 2 + vlen then Err RTP_E_SHORT else
          Ok (Some ({| si_ssrc := d_ssrc it; si_item := ty; si_value := d_p it + 2; si_len := vlen |},
                    {| d_p := d_p it + (2 + vlen); d_len := d_len it - (2 + vlen);
                       d_ssrc := d_ssrc it; d_chunks_left := d_chunks_left it;
                       d_in_chunk := d_in_chunk it |}))
      end
  end.

Definition rtcp_sdes_next (m : mem) (it : rtcp_sdes_iter) :
    res (option (sdes_item * rtcp_sdes_iter)) :=
  sdes_loop (S (Z.to_nat (d_len it))) m it.

(** ** Writing *)

Record rtcp_wbuf := RtcpWbuf { w_buf : mem; w_cap : Z; w_off : Z; w_overflow : bool }.

Definition rtcp_wbuf_init (buf : mem) (cap : Z) : rtcp_wbuf :=
  {| w_buf := buf; w_cap := cap; w_off := 0; w_overflow := false |}.

(** The offset of the reserved octets, [None] for NULL. *)
Definition put (w : rtcp_wbuf) (n : Z) : rtcp_wbuf * option Z :=
  if w_overflow w || (w_cap w <? u64 (w_off w + n)) then
    ({| w_buf := w_buf w; w_cap := w_cap w; w_off := w_off w; w_overflow := true |}, None)
  else
    ({| w_buf := w_buf w; w_cap := w_cap w; w_off := u64 (w_off w + n);
        w_overflow := w_overflow w |}, Some (w_off w)).

Definition hdr (m : mem) (b count type pkt_len : Z) : res mem :=
  m ← wr m b (u8 (Z.lor (Z.shiftl RTP_VERSION 6) (Z.land count 31)));
  m ← wr m (b + 1) type;
  rtp_wr16 m (b + 2) (u16 (pkt_len / 4 - 1)).

Definition report_write (m : mem) (b : Z) (r : rtcp_report) : res mem :=
  m ← rtp_wr32 m b (r_ssrc r);
  m ← wr m (b + 4) (fraction r);
  let lost := Z.land (u32 (lost r)) 16777215 in
  m ← wr m (b + 5) (u8 (Z.shiftr lost 16));
  m ← wr m (b + 6) (u8 (Z.shiftr lost 8));
  m ← wr m (b + 7) (u8 lost);
  m ← rtp_wr32 m (b + 8) (last_seq r);
  m ← rtp_wr32 m (b + 12) (jitter r);
  m ← rtp_wr32 m (b + 16) (lsr r);
  rtp_wr32 m (b + 20) (dlsr r).

Fixpoint reports_write (n : nat) (m : mem) (base i : Z) (rs : list rtcp_report) : res mem :=
  match n with
  | O => Ok m
  | S n =>
      r ← match rs !! Z.to_nat i with Some r => Ok r | None => Ub end;
      m ← report_write m (base + i * REPORT_LEN) r;
      reports_write n m base (i + 1) rs
  end.

Definition with_buf (w : rtcp_wbuf) (b : mem) : rtcp_wbuf :=
  {| w_buf := b; w_cap := w_cap w; w_off := w_off w; w_overflow := w_overflow w |}.

Definition absent {A} (x : option A) : bool := match x with None => true | Some _ => false end.

Definition rtcp_put_sr (w : rtcp_wbuf) (ssrc ntp_sec ntp_frac rtp_ts pkt_count octet_count : Z)
    (rs : option (list rtcp_report)) (n : Z) : res (rtcp_wbuf * Z) :=
  if (RTCP_MAX_REPORTS <? n) || (negb (n =? 0) && absent rs) then Ok (w, RTP_E_INVAL) else
  let len := RTCP_HDR_LEN + 24 + n * REPORT_LEN in
  let '(w, b) := put w len in
  match b with
  | None => Ok (w, RTP_E_OVERFLOW)
  | Some b =>
      m ← hdr (w_buf w) b (u8 n) RTCP_SR len;
      m ← rtp_wr32 m (b + 4) ssrc;
      m ← rtp_wr32 m (b + 8) ntp_sec;
      m ← rtp_wr32 m (b + 12) ntp_frac;
      m ← rtp_wr32 m (b + 16) rtp_ts;
      m ← rtp_wr32 m (b + 20) pkt_count;
      m ← rtp_wr32 m (b + 24) octet_count;
      m ← reports_write (Z.to_nat n) m (b + 28) 0 (default [] rs);
      Ok (with_buf w m, RTP_OK)
  end.

Definition rtcp_put_rr (w : rtcp_wbuf) (ssrc : Z) (rs : option (list rtcp_report)) (n : Z) :
    res (rtcp_wbuf * Z) :=
  if (RTCP_MAX_REPORTS <? n) || (negb (n =? 0) && absent rs) then Ok (w, RTP_E_INVAL) else
  let len := RTCP_HDR_LEN + 4 + n * REPORT_LEN in
  let '(w, b) := put w len in
  match b with
  | None => Ok (w, RTP_E_OVERFLOW)
  | Some b =>
      m ← hdr (w_buf w) b (u8 n) RTCP_RR len;
      m ← rtp_wr32 m (b + 4) ssrc;
      m ← reports_write (Z.to_nat n) m (b + 8) 0 (default [] rs);
      Ok (with_buf w m, RTP_OK)
  end.

(** [(x + 3) & ~3] *)
Definition word_up (x : Z) : Z := Z.land (x + 3) (u64 (Z.lnot 3)).

Definition rtcp_put_sdes_cname (w : rtcp_wbuf) (ssrc : Z) (cname : option mem) (len : Z) :
    res (rtcp_wbuf * Z) :=
  if (255 <? len) || (negb (len =? 0) && absent cname) then Ok (w, RTP_E_INVAL) else
  let items := 2 + len + 1 in
  let plen := RTCP_HDR_LEN + 4 + word_up items in
  let '(w, b) := put w plen in
  match b with
  | None => Ok (w, RTP_E_OVERFLOW)
  | Some b =>
      m ← wrn (w_buf w) b (zeros plen);
      m ← hdr m b 1 RTCP_SDES plen;
      m ← rtp_wr32 m (b + 4) ssrc;
      m ← wr m (b + 8) RTCP_SDES_CNAME;
      m ← wr m (b + 9) (u8 len);
      m ← copy_from m (b + 10) ((λ c, (c, 0)) <$> cname) len;
      Ok (with_buf w m, RTP_OK)
  end.

Fixpoint ssrcs_write (n : nat) (m : mem) (base i : Z) (ss : list Z) : res mem :=
  match n with
  | O => Ok m
  | S n =>
      v ← rd ss i;
      m ← rtp_wr32 m (base + i * 4) v;
      ssrcs_write n m base (i + 1) ss
  end.

Definition rtcp_put_bye (w : rtcp_wbuf) (ssrc : option (list Z)) (n : Z) (reason : option mem)
    (len : Z) : res (rtcp_wbuf * Z) :=
  match ssrc with
  | None => Ok (w, RTP_E_INVAL)
  | Some ss =>
      if (n =? 0) || (RTCP_MAX_REPORTS <? n) || (255 <? len) || (negb (len =? 0) && absent reason)
      then Ok (w, RTP_E_INVAL) else
      let body := n * 4 in
      let body := if negb (len =? 0) then body + word_up (1 + len) else body in
      let plen := RTCP_HDR_LEN + body in
      let '(w, b) := put w plen in
      match b with
      | None => Ok (w, RTP_E_OVERFLOW)
      | Some b =>
          m ← wrn (w_buf w) b (zeros plen);
          m ← hdr m b (u8 n) RTCP_BYE plen;
          m ← ssrcs_write (Z.to_nat n) m (b + 4) 0 ss;
          m ← (if negb (len =? 0) then
                 m ← wr m (b + (4 + n * 4)) (u8 len);
                 copy_from m (b + (4 + n * 4 + 1)) ((λ c, (c, 0)) <$> reason) len
               else Ok m);
          Ok (with_buf w m, RTP_OK)
      end
  end.

Definition rtcp_end (w : rtcp_wbuf) : Z :=
  if w_overflow w then RTP_E_OVERFLOW else i32 (w_off w).

(** ** The packets a compound is made of *)

Inductive packet :=
| SrPkt (ssrc sec frac ts pkts octs : Z) (rs : list rtcp_report)
| RrPkt (ssrc : Z) (rs : list rtcp_report)
| CnamePkt (ssrc : Z) (name : list Z)
| ByePkt (ss : list Z) (reason : list Z).

Definition report_bytes (r : rtcp_report) : list Z :=
  be_bytes 4 (r_ssrc r) ++ [fraction r] ++ be_bytes 3 (lost r) ++ be_bytes 4 (last_seq r) ++
  be_bytes 4 (jitter r) ++ be_bytes 4 (lsr r) ++ be_bytes 4 (dlsr r).
Definition reports_bytes (rs : list rtcp_report) : list Z := concat (map report_bytes rs).

(** The octets that round [n] up to whole words. *)
Definition pad_octets (n : Z) : list Z := zeros (word_up n - n).

Definition pkt_body (p : packet) : list Z :=
  match p with
  | SrPkt ssrc sec frac ts pkts octs rs =>
      be_bytes 4 ssrc ++ be_bytes 4 sec ++ be_bytes 4 frac ++ be_bytes 4 ts ++ be_bytes 4 pkts ++
      be_bytes 4 octs ++ reports_bytes rs
  | RrPkt ssrc rs => be_bytes 4 ssrc ++ reports_bytes rs
  | CnamePkt ssrc name =>
      be_bytes 4 ssrc ++ [RTCP_SDES_CNAME; mlen name] ++ name ++ [0] ++ pad_octets (3 + mlen name)
  | ByePkt ss reason =>
      words_bytes ss ++
      (if mlen reason =? 0 then [] else [mlen reason] ++ reason ++ pad_octets (1 + mlen reason))
  end.

Definition pkt_type (p : packet) : Z :=
  match p with
  | SrPkt _ _ _ _ _ _ _ => RTCP_SR | RrPkt _ _ => RTCP_RR
  | CnamePkt _ _ => RTCP_SDES | ByePkt _ _ => RTCP_BYE
  end.
Definition pkt_cnt (p : packet) : Z :=
  match p with
  | SrPkt _ _ _ _ _ _ rs | RrPkt _ rs => Z.of_nat (length rs)
  | CnamePkt _ _ => 1
  | ByePkt ss _ => mlen ss
  end.

Definition hdr_octets (count type len : Z) : list Z :=
  [128 + count; type] ++ be_bytes 2 (len / 4 - 1).
Definition rtcp_bytes (p : packet) : list Z :=
  hdr_octets (pkt_cnt p) (pkt_type p) (4 + mlen (pkt_body p)) ++ pkt_body p.

Definition u32_ok (x : Z) : Prop := 0 <= x < 4294967296.
Record report_ok (r : rtcp_report) : Prop := {
  ok_ssrc : u32_ok (r_ssrc r);
  ok_fraction : 0 <= fraction r < 256;
  ok_lost : -8388608 <= lost r < 8388608;
  ok_last : u32_ok (last_seq r);
  ok_jitter : u32_ok (jitter r);
  ok_lsr : u32_ok (lsr r);
  ok_dlsr : u32_ok (dlsr r) }.

(** What the puts accept: counts and lengths in range, fields in their types. *)
Definition packet_ok (p : packet) : Prop :=
  match p with
  | SrPkt ssrc sec frac ts pkts octs rs =>
      u32_ok ssrc ∧ u32_ok sec ∧ u32_ok frac ∧ u32_ok ts ∧ u32_ok pkts ∧ u32_ok octs ∧
      Z.of_nat (length rs) <= 31 ∧ Forall report_ok rs
  | RrPkt ssrc rs => u32_ok ssrc ∧ Z.of_nat (length rs) <= 31 ∧ Forall report_ok rs
  | CnamePkt ssrc name => u32_ok ssrc ∧ mlen name <= 255 ∧ bytes_ok name
  | ByePkt ss reason =>
      1 <= mlen ss <= 31 ∧ Forall u32_ok ss ∧ mlen reason <= 255 ∧ bytes_ok reason
  end.

Definition packet_put (w : rtcp_wbuf) (p : packet) : res (rtcp_wbuf * Z) :=
  match p with
  | SrPkt ssrc sec frac ts pkts octs rs =>
      rtcp_put_sr w ssrc sec frac ts pkts octs (Some rs) (Z.of_nat (length rs))
  | RrPkt ssrc rs => rtcp_put_rr w ssrc (Some rs) (Z.of_nat (length rs))
  | CnamePkt ssrc name => rtcp_put_sdes_cname w ssrc (Some name) (mlen name)
  | ByePkt ss reason => rtcp_put_bye w (Some ss) (mlen ss) (Some reason) (mlen reason)
  end.

(** *** Lengths *)

Lemma mlen_report_bytes r : mlen (report_bytes r) = 24.
Proof. unfold report_bytes. mlia. Qed.
Lemma mlen_reports_bytes rs : mlen (reports_bytes rs) = 24 * Z.of_nat (length rs).
Proof.
  induction rs as [|r rs IH]; [done|]. unfold reports_bytes in *. cbn [map concat length].
  rewrite mlen_app, mlen_report_bytes, IH. lia.
Qed.

Lemma word_up_spec n : 0 <= n < 4294967296 → word_up n = 4 * ((n + 3) / 4).
Proof.
  intros. unfold word_up. change (u64 (Z.lnot 3)) with (Z.land (Z.lnot 3) (Z.ones 64)).
  rewrite Z.land_assoc, Z.land_ones by lia. rewrite <-Z.ldiff_land.
  change 3 with (Z.ones 2) at 2. rewrite Z.ldiff_ones_r by lia.
  rewrite Z.shiftr_div_pow2, Z.shiftl_mul_pow2 by lia. change (2 ^ 2) with 4.
  change (2 ^ 64) with 18446744073709551616.
  rewrite Z.mod_small; Z.to_euclidean_division_equations; lia.
Qed.
Lemma word_up_range n : 0 <= n < 4294967296 → n <= word_up n < n + 4 ∧ word_up n mod 4 = 0.
Proof.
  intros. rewrite word_up_spec by done. Z.to_euclidean_division_equations; lia.
Qed.

(** *** The writers as one write *)

Lemma wrn_cat (x : res mem) (f : mem → res mem) m i j bs cs :
  x = wrn m i bs → (∀ m', f m' = wrn m' j cs) → j = i + mlen bs → x ≫= f = wrn m i (bs ++ cs).
Proof. intros -> Hf ->. rewrite <-wrn_app. by apply bind_ext. Qed.

(** Folds a chain of octet and word writes at consecutive offsets. *)
Ltac wrn_fold :=
  lazymatch goal with
  | |- mbind _ _ = _ => eapply wrn_cat; [wrn_fold | intros ?; wrn_fold | mlia]
  | |- wr _ _ _ = _ => apply wr_wrn
  | |- rtp_wr16 _ _ _ = _ => apply rtp_wr16_bytes
  | |- rtp_wr32 _ _ _ = _ => apply rtp_wr32_bytes
  | |- wrn _ _ _ = _ => reflexivity
  end.

Lemma count_octet c : 0 <= c <= 31 →
  u8 (Z.lor (Z.shiftl RTP_VERSION 6) (Z.land c 31)) = 128 + c ∧ u8 c = c.
Proof.
  intros Hc. assert (0 <= c < 256) as Hb by lia. revert Hc.
  byte_decide c.
Qed.

Lemma hdr_bytes m b c ty len : 0 <= c <= 31 → 4 <= len <= 262144 →
  hdr m b (u8 c) ty len = wrn m b (hdr_octets c ty len).
Proof.
  intros Hc Hl. unfold hdr. destruct (count_octet c Hc) as [_ ->].
  destruct (count_octet c Hc) as [-> _]. etransitivity; [wrn_fold|].
  rewrite u16_small by (Z.to_euclidean_division_equations; lia). done.
Qed.

Lemma lost_octets v :
  [u8 (Z.shiftr (Z.land (u32 v) 16777215) 16); u8 (Z.shiftr (Z.land (u32 v) 16777215) 8);
   u8 (Z.land (u32 v) 16777215)] = be_bytes 3 v.
Proof.
  change 16777215 with (Z.ones 24). rewrite Z.land_ones by lia.
  assert (u32 v mod 2 ^ 24 = v mod 256 ^ Z.of_nat 3) as ->.
  { unfold u32. change (2 ^ 24) with 16777216. change (256 ^ Z.of_nat 3) with 16777216.
    Z.to_euclidean_division_equations; lia. }
  rewrite <-(be_bytes_mod 3 v). generalize (v mod 256 ^ Z.of_nat 3). intros x.
  unfold u8. rewrite !shiftr_div by lia. cbn [be_bytes]. repeat f_equal.
  by rewrite Z.div_1_r.
Qed.

Lemma report_write_bytes m b r : report_write m b r = wrn m b (report_bytes r).
Proof.
  unfold report_write. etransitivity; [wrn_fold|]. unfold report_bytes.
  rewrite <-lost_octets. done.
Qed.

Lemma reports_write_bytes rs : ∀ pre m base i n, n = length rs → i = Z.of_nat (length pre) →
  0 <= base → base + i * 24 + mlen (reports_bytes rs) <= mlen m →
  reports_write n m base i (pre ++ rs) = Ok (splice m (base + i * 24) (reports_bytes rs)).
Proof.
  induction rs as [|r rs IH]; intros pre m base i n -> -> Hb Hl.
  { cbn. by rewrite splice_nil. }
  rewrite mlen_reports_bytes in Hl. cbn [length reports_write] in *.
  rewrite Nat2Z.id, list_lookup_middle by done. bstep. unfold REPORT_LEN.
  rewrite report_write_bytes, wrn_Ok by (rewrite ?mlen_report_bytes; lia). bstep.
  change (pre ++ r :: rs) with (pre ++ [r] ++ rs). rewrite (app_assoc pre).
  pose proof (mlen_report_bytes r) as Hr.
  rewrite IH; [|done|rewrite length_app; cbn; lia|lia|].
  2: { rewrite mlen_reports_bytes, mlen_splice by lia. lia. }
  unfold reports_bytes. cbn [map concat]. rewrite <-splice_app by lia. do 2 f_equal. lia.
Qed.

Lemma ssrcs_write_bytes ss : ∀ pre m base i n, n = length ss → i = mlen pre →
  0 <= base → base + i * 4 + mlen (words_bytes ss) <= mlen m →
  ssrcs_write n m base i (pre ++ ss) = Ok (splice m (base + i * 4) (words_bytes ss)).
Proof.
  induction ss as [|x ss IH]; intros pre m base i n -> -> Hb Hl.
  { cbn. by rewrite splice_nil. }
  pose proof (mlen_nonneg pre). pose proof (mlen_nonneg ss).
  rewrite mlen_words_bytes, mlen_cons in Hl. cbn [length ssrcs_write] in *.
  rewrite rd_Ok by mlia. bstep.
  assert (get (pre ++ x :: ss) (mlen pre) = x) as ->.
  { rewrite get_app_ge, Z.sub_diag by lia. done. }
  rewrite rtp_wr32_bytes, wrn_Ok by mlia. bstep.
  change (pre ++ x :: ss) with (pre ++ [x] ++ ss). rewrite (app_assoc pre).
  rewrite IH; [|done|mlia|lia|].
  2: { rewrite mlen_words_bytes. mlia. }
  unfold words_bytes. cbn [map concat].
  rewrite <-splice_app by mlia. do 2 f_equal. mlia.
Qed.

Definition body_size (p : packet) : Z :=
  match p with
  | SrPkt _ _ _ _ _ _ rs => 24 + Z.of_nat (length rs) * 24
  | RrPkt _ rs => 4 + Z.of_nat (length rs) * 24
  | CnamePkt _ name => 4 + word_up (3 + mlen name)
  | ByePkt ss reason => mlen ss * 4 + (if mlen reason =? 0 then 0 else word_up (1 + mlen reason))
  end.

Lemma mlen_pad_octets n : 0 <= n < 4294967296 → mlen (pad_octets n) = word_up n - n.
Proof. intros. pose proof (word_up_range n). unfold pad_octets. rewrite mlen_zeros; lia. Qed.

Lemma mlen_pkt_body p : packet_ok p → mlen (pkt_body p) = body_size p.
Proof.
  destruct p as [? ? ? ? ? ? rs|? rs|? name|ss reason]; cbn [packet_ok pkt_body body_size];
    intros Hok; rewrite ?mlen_app, ?mlen_cons, ?mlen_nil, ?mlen_be_bytes, ?mlen_reports_bytes.
  - lia.
  - lia.
  - pose proof (mlen_nonneg name). rewrite mlen_pad_octets by lia. lia.
  - pose proof (mlen_nonneg reason). rewrite mlen_words_bytes.
    destruct (Z.eqb_spec (mlen reason) 0); [rewrite mlen_nil; lia|].
    rewrite !mlen_app, mlen_cons, mlen_nil, mlen_pad_octets by lia. lia.
Qed.

Lemma body_size_range p : packet_ok p → 4 <= body_size p <= 1000 ∧ body_size p mod 4 = 0.
Proof.
  destruct p as [? ? ? ? ? ? rs|? rs|? name|ss reason]; cbn [packet_ok body_size]; intros Hok.
  - Z.to_euclidean_division_equations; lia.
  - Z.to_euclidean_division_equations; lia.
  - pose proof (mlen_nonneg name). destruct (word_up_range (3 + mlen name)); [lia|].
    Z.to_euclidean_division_equations; lia.
  - pose proof (mlen_nonneg reason). destruct (Z.eqb_spec (mlen reason) 0).
    + Z.to_euclidean_division_equations; lia.
    + destruct (word_up_range (1 + mlen reason)); [lia|]. Z.to_euclidean_division_equations; lia.
Qed.

Lemma mlen_rtcp_bytes p : packet_ok p → mlen (rtcp_bytes p) = 4 + body_size p.
Proof. intros. unfold rtcp_bytes, hdr_octets. mlen_simp. rewrite mlen_pkt_body by done. lia. Qed.

Record wbuf_ok (w : rtcp_wbuf) : Prop := {
  ok_off : 0 <= w_off w <= w_cap w;
  ok_cap : w_cap w <= mlen (w_buf w);
  ok_obj : mlen (w_buf w) <= OBJ_MAX;
  ok_live : w_overflow w = false }.

Definition wbuf_append (w : rtcp_wbuf) (bs : list Z) : rtcp_wbuf :=
  {| w_buf := splice (w_buf w) (w_off w) bs; w_cap := w_cap w; w_off := w_off w + mlen bs;
     w_overflow := false |}.
Definition wbuf_full (w : rtcp_wbuf) : rtcp_wbuf :=
  {| w_buf := w_buf w; w_cap := w_cap w; w_off := w_off w; w_overflow := true |}.

Lemma put_spec w n : wbuf_ok w → 0 <= n <= 2000 →
  put w n = if w_cap w <? w_off w + n then (wbuf_full w, None)
            else ({| w_buf := w_buf w; w_cap := w_cap w; w_off := w_off w + n;
                     w_overflow := false |}, Some (w_off w)).
Proof.
  intros [? ? ? Hf] Hn. unfold put. rewrite Hf. cbn [orb].
  unfold OBJ_MAX in *. by rewrite u64_small by lia.
Qed.

Definition appends (w : rtcp_wbuf) (bs : list Z) : res (rtcp_wbuf * Z) :=
  if w_cap w <? w_off w + mlen bs then Ok (wbuf_full w, RTP_E_OVERFLOW)
  else Ok (wbuf_append w bs, RTP_OK).

(** Compares a chain of binds with its continuation moved inside. *)
Ltac bind_norm :=
  symmetry; repeat (rewrite bind_assoc; apply bind_ext; intros ?); reflexivity.

Lemma splice_next m i j bs cs : j = i + mlen bs → 0 <= i → j <= mlen m →
  splice (splice m i bs) j cs = splice m i (bs ++ cs).
Proof. intros ->. intros. by apply splice_app. Qed.

Section put.
Context (w : rtcp_wbuf) (Hw : wbuf_ok w).

(** A put that reserves [L] octets and fills them with [bs]. *)
Lemma put_fills L bs (f : mem → Z → res mem) :
  mlen bs = L → L <= 2000 →
  (w_off w + L <= w_cap w → f (w_buf w) (w_off w) = Ok (splice (w_buf w) (w_off w) bs)) →
  (let '(w, b) := put w L in
   match b with
   | None => Ok (w, RTP_E_OVERFLOW)
   | Some b => m ← f (w_buf w) b; Ok (with_buf w m, RTP_OK)
   end) = appends w bs.
Proof using Hw.
  intros Hl Hb Hf. pose proof (mlen_nonneg bs). rewrite put_spec by (done || lia).
  unfold appends. rewrite Hl. destruct (Z.ltb_spec (w_cap w) (w_off w + L)); [done|].
  cbn [w_buf]. rewrite Hf by lia. bstep. unfold with_buf, wbuf_append. cbn. by rewrite Hl.
Qed.

Lemma put_sr_appends ssrc sec frac ts pkts octs rs :
  let p := SrPkt ssrc sec frac ts pkts octs rs in packet_ok p →
  packet_put w p = appends w (rtcp_bytes p).
Proof using Hw.
  intros p Hok. pose proof (mlen_rtcp_bytes p Hok) as Hl. pose proof (mlen_pkt_body p Hok) as Hbd.
  destruct Hok as (_ & _ & _ & _ & _ & _ & Hn & _). cbn [packet_put p body_size] in *.
  unfold rtcp_put_sr, RTCP_MAX_REPORTS. cbn [absent]. rewrite andb_false_r, orb_false_r.
  destruct (Z.ltb_spec 31 (Z.of_nat (length rs))); [lia|].
  unfold RTCP_HDR_LEN, REPORT_LEN. set (L := 4 + 24 + Z.of_nat (length rs) * 24) in *.
  rewrite <-(put_fills L (rtcp_bytes p) (λ m b,
    m ← hdr m b (u8 (Z.of_nat (length rs))) RTCP_SR L;
    m ← rtp_wr32 m (b + 4) ssrc; m ← rtp_wr32 m (b + 8) sec; m ← rtp_wr32 m (b + 12) frac;
    m ← rtp_wr32 m (b + 16) ts; m ← rtp_wr32 m (b + 20) pkts; m ← rtp_wr32 m (b + 24) octs;
    reports_write (Z.to_nat (Z.of_nat (length rs))) m (b + 28) 0 (default [] (Some rs)))).
  - destruct (put w L) as [? [?|]]; [|done]. by bind_norm.
  - lia.
  - lia.
  - intros Hc. destruct Hw as [Ho Hcap _ _].
    rewrite hdr_bytes, wrn_first by (done || lia || (unfold hdr_octets; mlia)).
    do 6 (rewrite rtp_wr32_bytes, wrn_next by (unfold hdr_octets; mlia)).
    cbn [default]. rewrite Nat2Z.id.
    pose proof (mlen_reports_bytes rs).
    rewrite (reports_write_bytes rs []) by (done || lia || (unfold hdr_octets; mlia)).
    rewrite splice_next by (unfold hdr_octets; mlia). do 2 f_equal.
    unfold rtcp_bytes. rewrite Hbd. cbn [p pkt_body pkt_cnt pkt_type].
    rewrite <-!app_assoc. do 2 f_equal. unfold L. lia.
Qed.

Lemma put_rr_appends ssrc rs :
  let p := RrPkt ssrc rs in packet_ok p → packet_put w p = appends w (rtcp_bytes p).
Proof using Hw.
  intros p Hok. pose proof (mlen_rtcp_bytes p Hok) as Hl. pose proof (mlen_pkt_body p Hok) as Hbd.
  destruct Hok as (_ & Hn & _). cbn [packet_put p body_size] in *.
  unfold rtcp_put_rr, RTCP_MAX_REPORTS. cbn [absent]. rewrite andb_false_r, orb_false_r.
  destruct (Z.ltb_spec 31 (Z.of_nat (length rs))); [lia|].
  unfold RTCP_HDR_LEN, REPORT_LEN. set (L := 4 + 4 + Z.of_nat (length rs) * 24) in *.
  rewrite <-(put_fills L (rtcp_bytes p) (λ m b,
    m ← hdr m b (u8 (Z.of_nat (length rs))) RTCP_RR L;
    m ← rtp_wr32 m (b + 4) ssrc;
    reports_write (Z.to_nat (Z.of_nat (length rs))) m (b + 8) 0 (default [] (Some rs)))); [|lia..|].
  { destruct (put w L) as [? [?|]]; [|done]. by bind_norm. }
  intros Hc. destruct Hw as [Ho Hcap _ _]. pose proof (mlen_reports_bytes rs).
  rewrite hdr_bytes, wrn_first by (done || lia || (unfold hdr_octets; mlia)).
  rewrite rtp_wr32_bytes, wrn_next by (unfold hdr_octets; mlia).
  cbn [default]. rewrite Nat2Z.id.
  rewrite (reports_write_bytes rs []) by (done || lia || (unfold hdr_octets; mlia)).
  rewrite splice_next by (unfold hdr_octets; mlia). do 2 f_equal.
  unfold rtcp_bytes. rewrite Hbd. cbn [p pkt_body pkt_cnt pkt_type].
  rewrite <-!app_assoc. do 2 f_equal. unfold L. lia.
Qed.

Lemma put_cname_appends ssrc name :
  let p := CnamePkt ssrc name in packet_ok p → packet_put w p = appends w (rtcp_bytes p).
Proof using Hw.
  intros p Hok. pose proof (mlen_rtcp_bytes p Hok) as Hl. pose proof (mlen_pkt_body p Hok) as Hbd.
  pose proof (body_size_range p Hok) as Hr.
  destruct Hok as (_ & Hn & Hb). cbn [packet_put p body_size] in *. pose proof (mlen_nonneg name).
  unfold rtcp_put_sdes_cname. cbn [absent]. rewrite andb_false_r, orb_false_r.
  destruct (Z.ltb_spec 255 (mlen name)); [lia|]. replace (2 + mlen name + 1) with (3 + mlen name) by lia.
  destruct (word_up_range (3 + mlen name) ltac:(lia)) as [Hu _].
  unfold RTCP_HDR_LEN. set (L := 4 + 4 + word_up (3 + mlen name)) in *.
  rewrite <-(put_fills L (rtcp_bytes p) (λ m b,
    m ← wrn m b (zeros L); m ← hdr m b 1 RTCP_SDES L; m ← rtp_wr32 m (b + 4) ssrc;
    m ← wr m (b + 8) RTCP_SDES_CNAME; m ← wr m (b + 9) (u8 (mlen name));
    copy_from m (b + 10) ((λ c, (c, 0)) <$> Some name) (mlen name))); [|lia..|].
  { destruct (put w L) as [? [?|]]; [|done]. by bind_norm. }
  intros Hc. destruct Hw as [Ho Hcap _ _].
  rewrite wrn_first by mlia. change (zeros L) with ([] ++ zeros L).
  change 1 with (u8 1) at 1. rewrite hdr_bytes, wrn_over by (done || lia || (unfold hdr_octets; mlia)).
  rewrite rtp_wr32_bytes, wrn_over by (unfold hdr_octets; mlia).
  rewrite wr_wrn, wrn_over by (unfold hdr_octets; mlia).
  rewrite wr_wrn, wrn_over by (unfold hdr_octets; mlia).
  cbn [fmap option_fmap option_map copy_from]. rewrite rdn_Ok by lia. bstep.
  rewrite slice_full by done. rewrite u8_small by lia.
  rewrite wrn_Ok by (unfold hdr_octets; mlia). rewrite splice_over by (unfold hdr_octets; mlia).
  do 2 f_equal. unfold rtcp_bytes. rewrite Hbd. cbn [p pkt_body pkt_cnt pkt_type].
  rewrite <-!app_assoc. cbn [app]. f_equal; [f_equal; unfold L; lia|]. do 4 f_equal.
  rewrite zeros_cons by (unfold hdr_octets; mlia). f_equal. unfold pad_octets. f_equal.
  unfold hdr_octets. mlia.
Qed.

Lemma put_bye_appends ss reason :
  let p := ByePkt ss reason in packet_ok p → packet_put w p = appends w (rtcp_bytes p).
Proof using Hw.
  intros p Hok. pose proof (mlen_rtcp_bytes p Hok) as Hl. pose proof (mlen_pkt_body p Hok) as Hbd.
  pose proof (body_size_range p Hok) as Hr.
  destruct Hok as (Hn & _ & Hrl & _). cbn [packet_put p body_size] in *.
  pose proof (mlen_nonneg reason). pose proof (mlen_words_bytes ss) as Hws.
  unfold rtcp_put_bye, RTCP_MAX_REPORTS. cbn [absent]. rewrite andb_false_r, orb_false_r.
  destruct (Z.eqb_spec (mlen ss) 0), (Z.ltb_spec 31 (mlen ss)), (Z.ltb_spec 255 (mlen reason)); try lia.
  cbn [orb]. unfold RTCP_HDR_LEN.
  set (body := if negb (mlen reason =? 0) then mlen ss * 4 + word_up (1 + mlen reason) else mlen ss * 4).
  assert (body = mlen ss * 4 + (if mlen reason =? 0 then 0 else word_up (1 + mlen reason))) as Eb.
  { unfold body. destruct (mlen reason =? 0); cbn [negb]; lia. }
  rewrite <-Eb in *.
  set (L := 4 + body) in *.
  rewrite <-(put_fills L (rtcp_bytes p) (λ m b,
    m ← wrn m b (zeros L); m ← hdr m b (u8 (mlen ss)) RTCP_BYE L;
    m ← ssrcs_write (Z.to_nat (mlen ss)) m (b + 4) 0 ss;
    if negb (mlen reason =? 0) then
      m ← wr m (b + (4 + mlen ss * 4)) (u8 (mlen reason));
      copy_from m (b + (4 + mlen ss * 4 + 1)) ((λ c, (c, 0)) <$> Some reason) (mlen reason)
    else Ok m)); [|lia..|].
  { destruct (put w L) as [? [?|]]; [|done]. by bind_norm. }
  intros Hc. destruct Hw as [Ho Hcap _ _].
  rewrite wrn_first by mlia. change (zeros L) with ([] ++ zeros L).
  rewrite hdr_bytes, wrn_over by (done || lia || (unfold hdr_octets; mlia)).
  assert (mlen ([] ++ hdr_octets (mlen ss) RTCP_BYE L) = 4) as H4 by (unfold hdr_octets; mlia).
  assert (mlen (hdr_octets (mlen ss) RTCP_BYE L) = 4) as H4' by done. rewrite H4'.
  assert (mlen ss * 4 <= body) as Hle.
  { rewrite Eb. destruct (Z.eqb_spec (mlen reason) 0); [lia|].
    pose proof (word_up_range (1 + mlen reason)). lia. }
  rewrite (ssrcs_write_bytes ss []);
    [|unfold mlen; lia|done|lia|rewrite mlen_splice; [lia..|rewrite mlen_app, H4, mlen_zeros; lia]].
  bstep. rewrite splice_over by (rewrite ?H4; lia). rewrite Hws.
  set (pre := ([] ++ hdr_octets (mlen ss) RTCP_BYE L) ++ words_bytes ss).
  assert (mlen pre = 4 + 4 * mlen ss) as Hpre by (unfold pre; rewrite mlen_app, H4, Hws; lia).
  assert (rtcp_bytes p = pre ++ (if mlen reason =? 0 then []
    else [mlen reason] ++ reason ++ pad_octets (1 + mlen reason))) as ->.
  { unfold rtcp_bytes. rewrite Hbd. cbn [p pkt_body pkt_cnt pkt_type]. unfold pre.
    by rewrite <-app_assoc. }
  destruct (Z.eqb_spec (mlen reason) 0) as [E0|E0]; cbn [negb].
  - replace (L - 4 - 4 * mlen ss) with 0 by lia. done.
  - pose proof (word_up_range (1 + mlen reason)).
    rewrite wr_wrn, wrn_over by (rewrite ?Hpre; mlia).
    cbn [fmap option_fmap option_map copy_from]. rewrite rdn_Ok by lia. bstep.
    rewrite slice_full, u8_small by (done || lia).
    rewrite wrn_Ok, splice_over by (rewrite ?mlen_splice; mlen_simp; rewrite ?Hpre; mlia).
    do 2 f_equal. rewrite <-!app_assoc. do 3 f_equal. unfold pad_octets. f_equal. mlia.
Qed.

Lemma packet_put_appends p : packet_ok p → packet_put w p = appends w (rtcp_bytes p).
Proof using Hw.
  destruct p; [apply put_sr_appends|apply put_rr_appends|apply put_cname_appends|apply put_bye_appends].
Qed.
End put.
(** ** Chained puts *)

(** Puts in a row, as the header recommends: return codes are not looked at. *)
Fixpoint puts (w : rtcp_wbuf) (ps : list packet) : res rtcp_wbuf :=
  match ps with
  | [] => Ok w
  | p :: ps => '(w, _) ← packet_put w p; puts w ps
  end.

Definition compound_bytes (ps : list packet) : list Z := concat (map rtcp_bytes ps).

Lemma put_sticky w n : w_overflow w = true → put w n = (wbuf_full w, None).
Proof. intros H. unfold put. by rewrite H. Qed.

Lemma packet_put_sticky w p : w_overflow w = true → packet_ok p →
  packet_put w p = Ok (wbuf_full w, RTP_E_OVERFLOW).
Proof.
  intros Hw Hok. destruct p as [? ? ? ? ? ? rs|? rs|? name|ss reason];
    cbn [packet_put packet_ok] in *;
    unfold rtcp_put_sr, rtcp_put_rr, rtcp_put_sdes_cname, rtcp_put_bye, RTCP_MAX_REPORTS;
    cbn [absent]; rewrite andb_false_r, orb_false_r, put_sticky by done.
  - by destruct (Z.ltb_spec 31 (Z.of_nat (length rs))); [lia|].
  - by destruct (Z.ltb_spec 31 (Z.of_nat (length rs))); [lia|].
  - by destruct (Z.ltb_spec 255 (mlen name)); [lia|].
  - by destruct (Z.eqb_spec (mlen ss) 0), (Z.ltb_spec 31 (mlen ss)), (Z.ltb_spec 255 (mlen reason));
      try lia.
Qed.

Lemma puts_sticky ps : ∀ w, w_overflow w = true → Forall packet_ok ps →
  ∃ w', puts w ps = Ok w' ∧ w_overflow w' = true ∧ w_buf w' = w_buf w.
Proof.
  induction ps as [|p ps IH]; intros w Hw Hps; [by exists w|].
  apply Forall_cons_iff in Hps as [Hp Hps]. cbn [puts].
  rewrite packet_put_sticky by done. bstep. by apply (IH (wbuf_full w)).
Qed.

Lemma wbuf_ok_append w bs : wbuf_ok w → w_off w + mlen bs <= w_cap w → wbuf_ok (wbuf_append w bs).
Proof.
  intros [? ? ? ?] Hc. pose proof (mlen_nonneg bs).
  split; cbn; rewrite ?mlen_splice by lia; done || lia.
Qed.

(** The puts write the longest run of packets that fits. *)
Lemma puts_spec ps : ∀ w, wbuf_ok w → Forall packet_ok ps →
  ∃ w' done, puts w ps = Ok w' ∧ done `prefix_of` ps ∧
    w_off w + mlen (compound_bytes done) <= w_cap w ∧
    (∀ more, more `prefix_of` ps → w_off w + mlen (compound_bytes more) <= w_cap w → more `prefix_of` done) ∧
    w_buf w' = splice (w_buf w) (w_off w) (compound_bytes done) ∧
    if w_cap w <? w_off w + mlen (compound_bytes ps)
    then w_overflow w' = true
    else done = ps ∧ w_overflow w' = false ∧ w_off w' = w_off w + mlen (compound_bytes ps).
Proof.
  induction ps as [|p ps IH]; intros w Hw Hps.
  { exists w, []. destruct (ok_off w Hw). unfold compound_bytes. cbn [map concat].
    rewrite mlen_nil, splice_nil, Z.add_0_r. split_and!; try done.
    by destruct (Z.ltb_spec (w_cap w) (w_off w)); [lia|]; split_and!; [|apply Hw|]. }
  assert (Hcons : ∀ p more, compound_bytes (p :: more) = rtcp_bytes p ++ compound_bytes more) by done.
  apply Forall_cons_iff in Hps as [Hp Hps]. cbn [puts].
  rewrite packet_put_appends by done. unfold appends.
  assert (compound_bytes (p :: ps) = rtcp_bytes p ++ compound_bytes ps) as Ec by done.
  rewrite Ec, mlen_app. pose proof (mlen_nonneg (compound_bytes ps)).
  pose proof (mlen_nonneg (rtcp_bytes p)). pose proof (ok_off w Hw). pose proof (ok_cap w Hw).
  destruct (Z.ltb_spec (w_cap w) (w_off w + mlen (rtcp_bytes p))); bstep.
  - destruct (puts_sticky ps (wbuf_full w)) as (w' & -> & Ho & Hb); [done..|].
    exists w', []. unfold compound_bytes at 1 2. cbn [map concat].
    rewrite mlen_nil, splice_nil, Z.add_0_r. split_and!; try done; try lia; [apply prefix_nil| |].
    { intros [|p' more] Hm Hle; [done|]. apply prefix_cons_inv_1 in Hm as ->. change (concat (map rtcp_bytes (p :: more))) with (compound_bytes (p :: more)) in Hle.
      rewrite Hcons, mlen_app in Hle. pose proof (mlen_nonneg (compound_bytes more)). lia. }
    by destruct (Z.ltb_spec (w_cap w) (w_off w + (mlen (rtcp_bytes p) + mlen (compound_bytes ps))));
      [|lia].
  - destruct (IH (wbuf_append w (rtcp_bytes p))) as (w' & d & -> & Hd & Hl & Hmax & Hb & Hr);
      [apply wbuf_ok_append; done || lia|done|]. cbn [wbuf_append w_cap w_off w_buf] in *.
    exists w', (p :: d).
    assert (compound_bytes (p :: d) = rtcp_bytes p ++ compound_bytes d) as -> by done.
    rewrite mlen_app. split_and!; [done|by apply prefix_cons|lia| | |].
    + intros [|p' more] Hm Hle; [apply prefix_nil|]. pose proof (prefix_cons_inv_1 _ _ _ _ Hm) as ->. apply prefix_cons_inv_2 in Hm.
      apply prefix_cons, Hmax; [done|]. rewrite Hcons, mlen_app in Hle. lia.
    + rewrite Hb, splice_app by lia. done.
    + rewrite <-Z.add_assoc in Hr. destruct (_ <? _); [done|]. destruct Hr as (-> & ? & ->).
      split_and!; done || lia.
Qed.

(** C34: puts may be chained and checked once at the end.  They write, one after
    the other, exactly the longest run of packets that fits; [rtcp_end] returns
    the length of the compound when every packet was written and the overflow
    error otherwise. *)
Theorem rtcp_end_accounts buf cap ps :
  0 <= cap <= mlen buf → cap <= 2147483647 → mlen buf <= OBJ_MAX → Forall packet_ok ps →
  ∃ w done, puts (rtcp_wbuf_init buf cap) ps = Ok w ∧ done `prefix_of` ps ∧
    mlen (compound_bytes done) <= cap ∧
    (∀ more, more `prefix_of` ps → mlen (compound_bytes more) <= cap → more `prefix_of` done) ∧
    w_buf w = splice buf 0 (compound_bytes done) ∧
    (done = ps ↔ mlen (compound_bytes ps) <= cap) ∧
    rtcp_end w = if cap <? mlen (compound_bytes ps) then RTP_E_OVERFLOW
                 else mlen (compound_bytes ps).
Proof.
  intros Hc Hi Hm Hps.
  destruct (puts_spec ps (rtcp_wbuf_init buf cap)) as (w & d & Hp & Hd & Hl & Hmax & Hb & Hr);
    [split; cbn; done || lia|done|]. cbn [rtcp_wbuf_init w_off w_cap w_buf] in *. rewrite Z.add_0_l in *.
  exists w, d. pose proof (mlen_nonneg (compound_bytes ps)). unfold rtcp_end.
  destruct (Z.ltb_spec cap (mlen (compound_bytes ps))).
  - rewrite Hr. split_and!; try done. split; [intros ->|]; lia.
  - destruct Hr as (-> & -> & ->). rewrite i32_small by lia. split_and!; done.
Qed.

(** ** Reading a compound *)

Inductive content :=
| SrC (r : rtcp_rep)
| RrC (r : rtcp_rep)
| SdesC (items : list (Z * Z * list Z))
| ByeC (count : Z) (ss : list Z) (reason : list Z)
| OtherC (type : Z).

(** All items of an SDES packet: owner, type and value. *)
Fixpoint sdes_items (fuel : nat) (m : mem) (it : rtcp_sdes_iter) : res (list (Z * Z * list Z)) :=
  match fuel with
  | O => Ub
  | S fuel =>
      r ← rtcp_sdes_next m it;
      match r with
      | None => Ok []
      | Some (i, it) =>
          v ← rdn m (si_value i) (si_len i);
          xs ← sdes_items fuel m it; Ok ((si_ssrc i, si_item i, v) :: xs)
      end
  end.

Definition view_read (m : mem) (v : rtcp_view) : res content :=
  if v_type v =? RTCP_SR then r ← rtcp_sr_parse m (Some v) true; Ok (SrC r) else
  if v_type v =? RTCP_RR then r ← rtcp_rr_parse m (Some v) true; Ok (RrC r) else
  if v_type v =? RTCP_SDES then
    it ← rtcp_sdes_init (Some v) true;
    xs ← sdes_items (S (Z.to_nat (d_len it))) m it; Ok (SdesC xs) else
  if v_type v =? RTCP_BYE then
    b ← rtcp_bye_parse m (Some v) true;
    reason ← match b_reason b with
             | Some o => rdn m o (b_reason_len b) | None => Ok [] end;
    Ok (ByeC (b_count b) (b_ssrc b) reason) else
  Ok (OtherC (v_type v)).

Fixpoint compound_read (fuel : nat) (m : mem) (it : rtcp_iter) : res (list content) :=
  match fuel with
  | O => Ub
  | S fuel =>
      r ← rtcp_iter_next m it;
      match r with
      | None => Ok []
      | Some (v, it) => c ← view_read m v; cs ← compound_read fuel m it; Ok (c :: cs)
      end
  end.

(** A datagram of [n] octets at the start of [m]; a packet takes four octets. *)
Definition datagram_read (m : mem) (n : Z) : res (list content) :=
  compound_read (S (Z.to_nat n)) m (rtcp_iter_init (Some 0) n).

Definition fill31 (rs : list rtcp_report) : list rtcp_report :=
  rs ++ replicate (31 - length rs) zero_report.

(** What a packet reads as. *)
Definition pkt_content (p : packet) : content :=
  match p with
  | SrPkt ssrc sec frac ts pkts octs rs =>
      SrC (RtcpRep ssrc sec frac ts pkts octs (Z.of_nat (length rs)) (fill31 rs))
  | RrPkt ssrc rs => RrC (RtcpRep ssrc 0 0 0 0 0 (Z.of_nat (length rs)) (fill31 rs))
  | CnamePkt ssrc name => SdesC [(ssrc, RTCP_SDES_CNAME, name)]
  | ByePkt ss reason => ByeC (mlen ss) (ss ++ zeros (31 - mlen ss)) reason
  end.

(** *** Fields found in a buffer *)

Lemma sign_bit x : 0 <= x < 16777216 → (Z.land x 8388608 =? 0) = (x <? 8388608).
Proof.
  intros Hx. change 8388608 with (2 ^ 23). apply eq_true_iff_eq.
  rewrite Z.eqb_eq, Z.ltb_lt. split.
  - intros E. destruct (Z.lt_ge_cases x (2 ^ 23)); [done|].
    assert (Z.testbit x 23 = true) as Ht.
    { apply Z.testbit_true; [lia|]. change (2 ^ 23) with 8388608 in *.
      Z.to_euclidean_division_equations; lia. }
    apply (f_equal (λ z, Z.testbit z 23)) in E. rewrite Z.land_spec, Ht, Z.bits_0 in E. done.
  - intros Hl. apply Z.bits_inj'. intros n Hn. rewrite Z.land_spec, Z.pow2_bits_eqb, Z.bits_0 by lia.
    destruct (Z.eqb_spec 23 n) as [<-|]; [|apply andb_false_r].
    rewrite andb_true_r. apply Z.testbit_false; [lia|]. by rewrite Z.div_small by lia.
Qed.

Section fields.
Context (m : mem) (Hm : bytes_ok m).

Lemma rd16_holds p v : holds m p (be_bytes 2 v) → 0 <= v < 65536 → rtp_rd16 m p = Ok v.
Proof using Hm.
  intros H Hv. destruct (holds_pos _ _ _ H) as [? Hl]. rewrite mlen_be_bytes in Hl.
  rewrite rtp_rd16_val by (done || lia). f_equal. by apply (holds_field m p 2).
Qed.
Lemma rd32_holds p v : holds m p (be_bytes 4 v) → u32_ok v → rtp_rd32 m p = Ok v.
Proof using Hm.
  intros H Hv. destruct (holds_pos _ _ _ H) as [? Hl]. rewrite mlen_be_bytes in Hl.
  rewrite rtp_rd32_val by (done || lia). f_equal. by apply (holds_field m p 4).
Qed.

(** Three octets sign-extended. *)
Lemma lost_back b5 b6 b7 v : [b5; b6; b7] = be_bytes 3 v → -8388608 <= v < 8388608 →
  let l := i32 (Z.lor (Z.lor (Z.shiftl b5 16) (Z.shiftl b6 8)) b7) in
  (if negb (Z.land l 8388608 =? 0) then l - 16777216 else l) = v.
Proof using.
  intros E Hv. pose proof (be_bytes_ok 3 v) as Hb. rewrite <-E in Hb.
  rewrite !bytes_ok_cons in Hb. destruct Hb as (H5 & H6 & H7 & _).
  pose proof (f_equal be_val E) as Ev. rewrite be_val_bytes in Ev. cbn [be_val length] in Ev.
  change (256 ^ Z.of_nat 2) with 65536 in Ev. change (256 ^ Z.of_nat 1) with 256 in Ev.
  change (256 ^ Z.of_nat 0) with 1 in Ev. change (256 ^ Z.of_nat 3) with 16777216 in Ev.
  cbn zeta. rewrite (lor_octets b5 b6 16 8), lor_octet by (done || lia).
  replace ((b5 * 256 + b6) * 256 + b7) with (v mod 16777216) by lia.
  rewrite i32_small by (pose proof (Z.mod_pos_bound v 16777216); lia).
  rewrite sign_bit by (apply Z.mod_pos_bound; lia).
  destruct (Z.ltb_spec (v mod 16777216) 8388608); cbn [negb];
    Z.to_euclidean_division_equations; lia.
Qed.

(** Reads the field that [H] finds at the offset the goal reads next. *)
Ltac fetch H :=
  lazymatch type of H with
  | rd _ ?j = _ =>
      lazymatch goal with |- mbind _ (rd _ ?i) = _ => replace i with j by lia; rewrite H end
  | holds _ ?j (be_bytes 2 ?v) =>
      lazymatch goal with |- mbind _ (rtp_rd16 _ ?i) = _ =>
        replace i with j by lia; rewrite (rd16_holds j v H) by (done || lia) end
  | holds _ ?j (be_bytes 4 ?v) =>
      lazymatch goal with |- mbind _ (rtp_rd32 _ ?i) = _ =>
        replace i with j by lia; rewrite (rd32_holds j v H) by done end
  end; bstep.

Lemma report_holds p r : holds m p (report_bytes r) → report_ok r → report_parse m p = Ok r.
Proof using Hm.
  intros H [? ? ? ? ? ? ?]. unfold report_bytes in H.
  apply holds_app in H as [Hs H]. apply holds_app in H as [Hf H]. apply holds_app in H as [Hl H].
  apply holds_app in H as [Hq H]. apply holds_app in H as [Hj H]. apply holds_app in H as [Hr Hd].
  rewrite ?mlen_cons, ?mlen_nil, ?mlen_be_bytes in *.
  apply holds_cons in Hf as [Hf _].
  pose proof (lost_back _ _ _ (lost r) eq_refl ltac:(done)) as Hlost.
  cbn [be_bytes] in Hl. apply holds_cons in Hl as [H5 Hl]. apply holds_cons in Hl as [H6 Hl].
  apply holds_cons in Hl as [H7 _].
  unfold report_parse. fetch Hs. fetch Hf. fetch H5. fetch H6. fetch H7.
  fetch Hq. fetch Hj. fetch Hr. fetch Hd. rewrite Hlost. by destruct r.
Qed.

Lemma reports_holds rs : ∀ p i pre n, holds m (p + i * 24) (reports_bytes rs) → Forall report_ok rs →
  i = Z.of_nat (length pre) → (length rs <= n)%nat → 0 <= p →
  reports_parse (length rs) m p i (pre ++ replicate n zero_report) =
    Ok (pre ++ rs ++ replicate (n - length rs) zero_report).
Proof using Hm.
  induction rs as [|r rs IH]; intros p i pre n H Hok Hi Hn Hp.
  { cbn. by rewrite Nat.sub_0_r. }
  apply Forall_cons_iff in Hok as [Hr Hrs]. cbn [length] in *.
  unfold reports_bytes in H. cbn [map concat] in H. apply holds_app in H as [H1 H2].
  rewrite mlen_report_bytes in H2. cbn [reports_parse]. unfold REPORT_LEN.
  rewrite (report_holds _ r) by done. bstep. unfold set_report.
  rewrite length_app, length_replicate.
  destruct (Z.leb_spec 0 i), (Z.ltb_spec i (Z.of_nat (length pre + n))); try lia. cbn [andb]. bstep.
  rewrite Hi, Nat2Z.id. destruct n as [|n]; [lia|]. cbn [replicate].
  rewrite insert_app_r_alt, Nat.sub_diag by done. cbn.
  specialize (IH p (i + 1) (pre ++ [r]) n). rewrite <-app_assoc in IH. cbn [app] in IH.
  rewrite <-Hi. rewrite IH; [by rewrite <-app_assoc| |done|rewrite length_app; cbn; lia|lia|lia].
  by replace (p + (i + 1) * 24) with (p + i * 24 + 24) by lia.
Qed.

Lemma ssrcs_holds ss : ∀ p i pre n, holds m (p + i * 4) (words_bytes ss) → Forall u32_ok ss →
  i = mlen pre → mlen ss <= n → 0 <= p →
  ssrcs_parse (length ss) m p i (pre ++ zeros n) = Ok (pre ++ ss ++ zeros (n - mlen ss)).
Proof using Hm.
  induction ss as [|x ss IH]; intros p i pre n H Hok Hi Hn Hp.
  { cbn [length ssrcs_parse app]. by rewrite mlen_nil, Z.sub_0_r. }
  apply Forall_cons_iff in Hok as [Hx Hss]. rewrite mlen_cons in *. cbn [length] in *.
  unfold words_bytes in H. cbn [map concat] in H. apply holds_app in H as [H1 H2].
  rewrite mlen_be_bytes in H2. cbn [ssrcs_parse]. rewrite (rd32_holds _ x) by done. bstep.
  pose proof (mlen_nonneg pre). pose proof (mlen_nonneg ss).
  rewrite wr_wrn, wrn_Ok by mlia. bstep. rewrite splice_app_ge by lia.
  rewrite Hi, Z.sub_diag, splice_0, zeros_cons by lia. cbn [length drop]. rewrite drop_0.
  specialize (IH p (i + 1) (pre ++ [x]) (n - 1)). rewrite <-!app_assoc in IH. cbn [app] in *.
  rewrite <-Hi, IH; [by replace (n - 1 - mlen ss) with (n - (1 + mlen ss)) by lia| |done|mlia|lia|lia].
  by replace (p + (i + 1) * 4) with (p + i * 4 + Z.of_nat 4) by lia.
Qed.

(** *** A packet found in the datagram *)

Definition pkt_view (p : packet) (b : Z) : rtcp_view :=
  {| v_type := pkt_type p; v_count := pkt_cnt p; v_body := b + 4; v_body_len := body_size p |}.

Lemma pkt_cnt_range p : packet_ok p → 0 <= pkt_cnt p <= 31.
Proof using.
  destruct p; cbn [packet_ok pkt_cnt]; intros; lia.
Qed.

Lemma count_fields c : 0 <= c <= 31 →
  Z.shiftr (128 + c) 6 = 2 ∧ Z.land (Z.shiftr (128 + c) 5) 1 = 0 ∧ Z.land (128 + c) 31 = c.
Proof using. intros Hc. assert (0 <= c < 256) as Hb by lia. revert Hc. byte_decide c. Qed.

Lemma next_holds p b len : packet_ok p → holds m b (rtcp_bytes p) → 4 + body_size p <= len →
  rtcp_iter_next m {| i_p := Some b; i_len := len |} =
    Ok (Some (pkt_view p b, {| i_p := Some (b + (4 + body_size p)); i_len := len - (4 + body_size p) |})).
Proof using Hm.
  intros Hok H Hl. destruct (body_size_range p Hok) as [Hr H4].
  destruct (count_fields _ (pkt_cnt_range p Hok)) as (Hv & Hp & Hc).
  unfold rtcp_bytes, hdr_octets in H. rewrite mlen_pkt_body in H by done.
  apply holds_app in H as [H _]. apply holds_app in H as [H Hlen].
  apply holds_cons in H as [H0 H]. apply holds_cons in H as [H1 _].
  change (mlen [128 + pkt_cnt p; pkt_type p]) with 2 in Hlen.
  unfold rtcp_iter_next. cbn [i_len i_p]. unfold RTCP_HDR_LEN, RTP_VERSION.
  destruct (Z.eqb_spec len 0), (Z.ltb_spec len 4); try lia.
  rewrite H0. bstep. rewrite Hv. change (negb (2 =? 2)) with false. cbn iota.
  assert (0 <= (4 + body_size p) / 4 - 1 < 65536 ∧ ((4 + body_size p) / 4 - 1 + 1) * 4 = 4 + body_size p)
    as [Hq He] by (Z.to_euclidean_division_equations; lia).
  fetch Hlen. rewrite He. destruct (Z.ltb_spec len (4 + body_size p)); [lia|].
  rewrite H1. bstep. rewrite Hp. cbn [Z.eqb negb]. bstep. rewrite u32_small by lia.
  unfold pkt_view. rewrite Hc. do 4 f_equal. lia.
Qed.

Lemma rep_holds v (sr : bool) ssrc sec frac ts pkts octs rs :
  (if sr then u32_ok sec ∧ u32_ok frac ∧ u32_ok ts ∧ u32_ok pkts ∧ u32_ok octs ∧
     holds m (v_body v) (be_bytes 4 ssrc ++ be_bytes 4 sec ++ be_bytes 4 frac ++ be_bytes 4 ts ++
       be_bytes 4 pkts ++ be_bytes 4 octs ++ reports_bytes rs)
   else sec = 0 ∧ frac = 0 ∧ ts = 0 ∧ pkts = 0 ∧ octs = 0 ∧
     holds m (v_body v) (be_bytes 4 ssrc ++ reports_bytes rs)) →
  u32_ok ssrc → Forall report_ok rs → Z.of_nat (length rs) <= 31 →
  v_count v = Z.of_nat (length rs) →
  v_body_len v = (if sr then 24 else 4) + Z.of_nat (length rs) * 24 →
  rep_parse m v sr = Ok (RtcpRep ssrc sec frac ts pkts octs (Z.of_nat (length rs)) (fill31 rs)).
Proof using Hm.
  intros H Hs Hrs Hn Hc Hl. unfold rep_parse, REPORT_LEN. rewrite Hc, Hl.
  rewrite u32_small by (destruct sr; lia).
  destruct (Z.ltb_spec ((if sr then 24 else 4) + Z.of_nat (length rs) * 24)
    ((if sr then 24 else 4) + Z.of_nat (length rs) * 24)) as [K|_]; [lia|]. rewrite Nat2Z.id.
  assert (∀ p, holds m p (reports_bytes rs) → reports_parse (length rs) m p 0
    (replicate 31 zero_report) = Ok (fill31 rs)) as Hrep.
  { intros p Hh. apply (reports_holds rs p 0 [] 31); try done; try lia; [|apply Hh].
    by rewrite Z.mul_0_l, Z.add_0_r. }
  destruct sr.
  - destruct H as (K2 & K3 & K4 & K5 & K6 & H).
    apply holds_app in H as [H1 H]. apply holds_app in H as [H2 H]. apply holds_app in H as [H3 H].
    apply holds_app in H as [H4 H]. apply holds_app in H as [H5 H]. apply holds_app in H as [H6 H].
    rewrite ?mlen_be_bytes in *. pose proof (holds_pos _ _ _ H1) as [? _].
    fetch H1. fetch H2. fetch H3. fetch H4. fetch H5. fetch H6.
    rewrite Hrep; [done|]. by replace (v_body v + 24) with (v_body v + Z.of_nat 4 + Z.of_nat 4 + Z.of_nat 4 +
      Z.of_nat 4 + Z.of_nat 4 + Z.of_nat 4) by lia.
  - destruct H as (-> & -> & -> & -> & -> & H). apply holds_app in H as [H1 H].
    rewrite ?mlen_be_bytes in *. pose proof (holds_pos _ _ _ H1) as [? _].
    fetch H1. by rewrite Hrep.
Qed.


(** One CNAME chunk: the item, then the END octets. *)
Lemma sdes_item_holds p len ssrc name : u32_ok ssrc → mlen name <= 255 →
  holds m p (be_bytes 4 ssrc) → rd m (p + 4) = Ok RTCP_SDES_CNAME → rd m (p + 5) = Ok (mlen name) →
  6 + mlen name <= len →
  rtcp_sdes_next m {| d_p := p; d_len := len; d_ssrc := 0; d_chunks_left := 1; d_in_chunk := false |} =
    Ok (Some ({| si_ssrc := ssrc; si_item := RTCP_SDES_CNAME; si_value := p + 6; si_len := mlen name |},
      {| d_p := p + 6 + mlen name; d_len := len - 6 - mlen name; d_ssrc := ssrc; d_chunks_left := 0;
         d_in_chunk := true |})).
Proof using Hm.
  intros Hs Hn H1 H2 H3 Hl. pose proof (mlen_nonneg name).
  unfold rtcp_sdes_next. cbn [sdes_loop]. unfold sdes_enter.
  cbn [d_in_chunk d_chunks_left d_len d_p Z.eqb]. destruct (Z.ltb_spec len 4); [lia|].
  rewrite (rd32_holds p ssrc) by done. bstep. cbn [d_len d_p d_ssrc d_chunks_left d_in_chunk].
  destruct (Z.ltb_spec (len - 4) 1); [lia|]. rewrite H2. bstep. cbn [RTCP_SDES_CNAME RTCP_SDES_END Z.eqb].
  destruct (Z.ltb_spec (len - 4) 2); [lia|]. replace (p + 4 + 1) with (p + 5) by lia. rewrite H3. bstep.
  destruct (Z.ltb_spec (len - 4) (2 + mlen name)); [lia|]. do 3 f_equal; f_equal; done || lia.
Qed.

Lemma sdes_end_holds p len ssrc : rd m p = Ok 0 → 1 <= len <= 4 →
  rtcp_sdes_next m {| d_p := p; d_len := len; d_ssrc := ssrc; d_chunks_left := 0; d_in_chunk := true |} =
    Ok None.
Proof using.
  intros Hz Hl. unfold rtcp_sdes_next. cbn [d_len].
  assert (∃ f, Z.to_nat len = S f) as [f ->] by (exists (pred (Z.to_nat len)); lia).
  cbn [sdes_loop]. unfold sdes_enter. cbn [d_in_chunk]. bstep.
  cbn [d_len d_p d_ssrc d_chunks_left]. destruct (Z.ltb_spec len 1) as [K|K]; [lia|].
  rewrite Hz. done.
Qed.

Lemma cname_holds v ssrc name :
  packet_ok (CnamePkt ssrc name) → holds m (v_body v) (pkt_body (CnamePkt ssrc name)) →
  v_type v = RTCP_SDES → v_count v = 1 → v_body_len v = body_size (CnamePkt ssrc name) →
  view_read m v = Ok (SdesC [(ssrc, RTCP_SDES_CNAME, name)]).
Proof using Hm.
  intros Hok H Ht Hc Hl. destruct Hok as (Hs & Hn & Hb). cbn [pkt_body body_size] in *.
  pose proof (mlen_nonneg name). destruct (word_up_range (3 + mlen name) ltac:(lia)) as [Hu _].
  apply holds_app in H as [H1 H]. apply holds_app in H as [H2 H]. apply holds_app in H as [H3 H].
  apply holds_cons in H2 as [Hty H2]. apply holds_cons in H2 as [Hvl _].
  apply holds_cons in H as [Hend _]. rewrite ?mlen_cons, ?mlen_nil, ?mlen_be_bytes in *.
  unfold view_read. rewrite Ht. cbn [RTCP_SDES RTCP_SR RTCP_RR Z.eqb Pos.eqb].
  unfold rtcp_sdes_init. rewrite Ht, Hc, Hl. cbn [RTCP_SDES Z.eqb Pos.eqb negb]. bstep.
  cbn [d_len]. set (W := word_up (3 + mlen name)) in *.
  assert (∃ f, Z.to_nat (4 + W) = S f) as [f ->] by (exists (pred (Z.to_nat (4 + W))); lia).
  cbn [sdes_items]. rewrite (sdes_item_holds _ _ ssrc name); [|done|lia|done| | |lia].
  2: by replace (v_body v + 4) with (v_body v + Z.of_nat 4) by lia.
  2: by replace (v_body v + 5) with (v_body v + Z.of_nat 4 + 1) by lia.
  bstep. cbn [si_value si_len si_ssrc si_item].
  rewrite (holds_rdn _ _ name) by (done || by replace (v_body v + 6) with
    (v_body v + Z.of_nat 4 + (1 + (1 + 0))) by lia).
  bstep. rewrite sdes_end_holds; [done| |lia].
  by replace (v_body v + 6 + mlen name) with (v_body v + Z.of_nat 4 + (1 + (1 + 0)) + mlen name) by lia.
Qed.

Lemma bye_holds v ss reason :
  packet_ok (ByePkt ss reason) → holds m (v_body v) (pkt_body (ByePkt ss reason)) →
  v_type v = RTCP_BYE → v_count v = mlen ss → v_body_len v = body_size (ByePkt ss reason) →
  view_read m v = Ok (ByeC (mlen ss) (ss ++ zeros (31 - mlen ss)) reason).
Proof using Hm.
  intros Hok H Ht Hc Hl. destruct Hok as (Hn & Hss & Hr & _). cbn [pkt_body body_size] in *.
  pose proof (mlen_nonneg reason). apply holds_app in H as [H1 H].
  rewrite mlen_words_bytes in H. pose proof (holds_pos _ _ _ H1) as [? _].
  unfold view_read. rewrite Ht. cbn [RTCP_BYE RTCP_SDES RTCP_SR RTCP_RR Z.eqb Pos.eqb].
  unfold rtcp_bye_parse. rewrite Ht. cbn [RTCP_BYE Z.eqb Pos.eqb negb]. rewrite Hc, Hl.
  assert (ssrcs_parse (Z.to_nat (mlen ss)) m (v_body v) 0 (zeros RTCP_MAX_REPORTS) =
    Ok (ss ++ zeros (31 - mlen ss))) as ->.
  { unfold mlen at 1. rewrite Nat2Z.id. apply (ssrcs_holds ss _ 0 [] 31); try done; try lia.
    by rewrite Z.mul_0_l, Z.add_0_r. }
  destruct (Z.eqb_spec (mlen reason) 0) as [E|E].
  - rewrite Z.add_0_r. destruct (Z.ltb_spec (mlen ss * 4) (mlen ss * 4)); [lia|]. bstep.
    destruct reason; [done|]. rewrite mlen_cons in E. pose proof (mlen_nonneg reason). lia.
  - destruct (word_up_range (1 + mlen reason) ltac:(lia)) as [Hu _].
    destruct (Z.ltb_spec (mlen ss * 4 + word_up (1 + mlen reason)) (mlen ss * 4)); [lia|]. bstep.
    destruct (Z.ltb_spec (mlen ss * 4) (mlen ss * 4 + word_up (1 + mlen reason))); [|lia].
    apply holds_cons in H as [Hrl H]. apply holds_app in H as [Hrs _].
    replace (v_body v + mlen ss * 4) with (v_body v + 4 * mlen ss) by lia. rewrite Hrl. bstep.
    rewrite u32_small by lia.
    destruct (Z.ltb_spec (mlen ss * 4 + word_up (1 + mlen reason)) (mlen ss * 4 + 1 + mlen reason)); [lia|].
    bstep. cbn [b_reason b_reason_len b_count b_ssrc]. by rewrite (holds_rdn _ _ reason).
Qed.

Lemma view_holds p b : packet_ok p → holds m b (rtcp_bytes p) →
  view_read m (pkt_view p b) = Ok (pkt_content p).
Proof using Hm.
  intros Hok H. unfold rtcp_bytes, hdr_octets in H. apply holds_app in H as [_ H].
  rewrite mlen_app, mlen_be_bytes in H. change (b + (mlen [_; _] + Z.of_nat 2)) with (b + 4) in H.
  destruct p as [ssrc sec frac ts pkts octs rs|ssrc rs|ssrc name|ss reason].
  - destruct Hok as (? & ? & ? & ? & ? & ? & ? & ?). unfold view_read. cbn [pkt_view v_type pkt_type].
    unfold rtcp_sr_parse. cbn. by rewrite (rep_holds _ true ssrc sec frac ts pkts octs rs).
  - destruct Hok as (? & ? & ?). unfold view_read. cbn [pkt_view v_type pkt_type].
    unfold rtcp_rr_parse. cbn. by rewrite (rep_holds _ false ssrc 0 0 0 0 0 rs).
  - by apply (cname_holds _ ssrc name).
  - by apply bye_holds.
Qed.

Lemma compound_holds ps : ∀ fuel b len, Forall packet_ok ps → holds m b (compound_bytes ps) →
  len = mlen (compound_bytes ps) → (length ps < fuel)%nat →
  compound_read fuel m {| i_p := Some b; i_len := len |} = Ok (map pkt_content ps).
Proof using Hm.
  induction ps as [|p ps IH]; intros fuel b len Hok H -> Hf; (destruct fuel as [|fuel]; [lia|]).
  { done. }
  apply Forall_cons_iff in Hok as [Hp Hps]. cbn [length] in Hf.
  assert (compound_bytes (p :: ps) = rtcp_bytes p ++ compound_bytes ps) as E by done.
  rewrite E in *. apply holds_app in H as [H1 H2]. rewrite mlen_app, mlen_rtcp_bytes in * by done.
  pose proof (mlen_nonneg (compound_bytes ps)). cbn [compound_read].
  rewrite (next_holds p) by (done || lia). bstep. rewrite view_holds by done. bstep.
  rewrite IH by (done || lia). done.
Qed.
End fields.

Lemma compound_count ps : Forall packet_ok ps → Z.of_nat (length ps) <= mlen (compound_bytes ps).
Proof.
  induction 1 as [|p ps Hp _ IH]; [done|]. unfold compound_bytes in *. cbn [map concat length].
  rewrite mlen_app, mlen_rtcp_bytes by done. pose proof (body_size_range p Hp). lia.
Qed.

Lemma report_bytes_ok r : report_ok r → bytes_ok (report_bytes r).
Proof. intros [? ? ? ? ? ? ?]. unfold report_bytes. bytes_tac. Qed.
Lemma reports_bytes_ok rs : Forall report_ok rs → bytes_ok (reports_bytes rs).
Proof.
  induction 1; [constructor|]. apply bytes_ok_app. split; [by apply report_bytes_ok|done].
Qed.
Lemma rtcp_bytes_ok p : packet_ok p → bytes_ok (rtcp_bytes p).
Proof.
  intros Hok. pose proof (pkt_cnt_range p Hok). unfold rtcp_bytes, hdr_octets.
  rewrite !bytes_ok_app, !bytes_ok_cons. split_and!; [lia|lia|by destruct p|by destruct p|constructor|apply be_bytes_ok|].
  destruct p as [? ? ? ? ? ? rs|? rs|? name|ss reason]; cbn [packet_ok pkt_body] in *.
  - rewrite !bytes_ok_app. split_and!; try apply be_bytes_ok. apply reports_bytes_ok, Hok.
  - rewrite !bytes_ok_app. split_and!; try apply be_bytes_ok. apply reports_bytes_ok, Hok.
  - pose proof (mlen_nonneg name). rewrite !bytes_ok_app, !bytes_ok_cons. unfold RTCP_SDES_CNAME.
    split_and!; try lia; try apply bytes_ok_nil; try apply be_bytes_ok; try apply Hok; apply bytes_ok_zeros.
  - pose proof (mlen_nonneg reason). rewrite bytes_ok_app. split; [apply words_bytes_ok|].
    destruct (mlen reason =? 0); [constructor|]. rewrite !bytes_ok_app, !bytes_ok_cons.
    split_and!; try lia; try apply bytes_ok_nil; try apply Hok; apply bytes_ok_zeros.
Qed.
Lemma compound_bytes_ok ps : Forall packet_ok ps → bytes_ok (compound_bytes ps).
Proof. induction 1; [constructor|]. apply bytes_ok_app. split; [by apply rtcp_bytes_ok|done]. Qed.

(** C33: a compound of any sender reports, receiver reports, CNAME chunks and
    BYEs that fits the buffer is read back packet for packet by the iterator and
    the per-type parsers: every report field, the signed 24-bit loss, canonical
    names, sources and reasons. *)
Theorem rtcp_compound_roundtrip buf cap ps :
  bytes_ok buf → 0 <= cap <= mlen buf → cap <= 2147483647 → mlen buf <= OBJ_MAX →
  Forall packet_ok ps → mlen (compound_bytes ps) <= cap →
  ∃ w, puts (rtcp_wbuf_init buf cap) ps = Ok w ∧
    datagram_read (w_buf w) (rtcp_end w) = Ok (map pkt_content ps).
Proof.
  intros Hb Hc Hi Hm Hps Hl.
  destruct (puts_spec ps (rtcp_wbuf_init buf cap)) as (w & d & Hp & _ & _ & _ & Hbuf & Hr);
    [split; cbn; done || lia|done|]. cbn [rtcp_wbuf_init w_off w_cap w_buf] in *.
  rewrite Z.add_0_l in *. exists w. split; [done|].
  destruct (Z.ltb_spec cap (mlen (compound_bytes ps))); [lia|].
  destruct Hr as (-> & Ho & Hoff). pose proof (compound_bytes_ok ps Hps) as Hok.
  unfold rtcp_end. rewrite Ho, Hoff, Hbuf. pose proof (mlen_nonneg (compound_bytes ps)).
  rewrite i32_small by lia. pose proof (compound_count ps Hps).
  apply compound_holds; [by apply bytes_ok_splice|done| |done|lia].
  rewrite splice_0. apply (holds_here []). done.
Qed.

Definition demo_report : rtcp_report := RtcpReport 4369 42 (-3) 65602 7 2864434397 99.
Definition demo_compound : list packet :=
  [SrPkt 1 2 3 4 5 6 [demo_report]; CnamePkt 1 [97; 64; 98]; RrPkt 7 []; ByePkt [1; 2] [98; 121; 101]].

Lemma demo_compound_ok : Forall packet_ok demo_compound.
Proof.
  repeat constructor; cbn; try lia; try done; bytes_tac.
Qed.

Lemma rtcp_compound_roundtrip_witness :
  ∃ w, puts (rtcp_wbuf_init (zeros 120) 120) demo_compound = Ok w ∧
    datagram_read (w_buf w) (rtcp_end w) = Ok (map pkt_content demo_compound).
Proof.
  exact (rtcp_compound_roundtrip (zeros 120) 120 demo_compound (bytes_ok_zeros 120)
    ltac:(by vm_compute) ltac:(by vm_compute) ltac:(by vm_compute) demo_compound_ok
    ltac:(by vm_compute)).
Defined.

Lemma rtcp_end_accounts_witness :
  ∃ w, puts (rtcp_wbuf_init (zeros 120) 70) demo_compound = Ok w ∧ rtcp_end w = RTP_E_OVERFLOW.
Proof.
  destruct (rtcp_end_accounts (zeros 120) 70 demo_compound ltac:(by vm_compute) ltac:(by vm_compute)
    ltac:(by vm_compute) demo_compound_ok) as (w & d & Hw & _ & _ & _ & _ & _ & He).
  exists w. split; [exact Hw|exact He].
Defined.
(** ** Arbitrary datagrams *)

(** The outcomes of reading untrusted octets. *)
Definition fine {A} (r : res A) : Prop :=
  match r with
  | Ok _ => True
  | Err rc => rc = RTP_E_SHORT ∨ rc = RTP_E_VERSION ∨ rc = RTP_E_FORMAT
  | Ub => False
  end.

Lemma fine_bind {A B} (x : res A) (f : A → res B) :
  fine x → (∀ a, x = Ok a → fine (f a)) → fine (x ≫= f).
Proof. destruct x; cbn; auto. Qed.

(** An error return. *)
Ltac err_fine := split; [cbn; by auto|done].

Section safety.
Context (m : mem) (Hm : bytes_ok m).

Lemma fine_rd p : 0 <= p < mlen m → fine (rd m p).
Proof using. intros. by rewrite rd_Ok. Qed.
Lemma fine_rd16 p : 0 <= p → p + 2 <= mlen m → fine (rtp_rd16 m p).
Proof using Hm. intros. by rewrite rtp_rd16_val. Qed.
Lemma fine_rd32 p : 0 <= p → p + 4 <= mlen m → fine (rtp_rd32 m p).
Proof using Hm. intros. by rewrite rtp_rd32_val. Qed.

Definition iter_ok (it : rtcp_iter) : Prop :=
  ∃ b, i_p it = Some b ∧ 0 <= b ∧ 0 <= i_len it ∧ b + i_len it <= mlen m.
Definition view_ok (v : rtcp_view) : Prop :=
  0 <= v_body v ∧ 0 <= v_body_len v ∧ v_body v + v_body_len v <= mlen m ∧
  0 <= v_count v <= 31 ∧ v_body_len v <= 262144.

(** A step yields a view inside the datagram and moves on by whole words. *)
Lemma iter_next_ok it : iter_ok it →
  fine (rtcp_iter_next m it) ∧
  ∀ v it', rtcp_iter_next m it = Ok (Some (v, it')) →
    view_ok v ∧ iter_ok it' ∧ i_len it' + 4 <= i_len it.
Proof using Hm.
  intros (b & Hp & Hb & Hl & Hm'). unfold rtcp_iter_next, RTCP_HDR_LEN. rewrite Hp.
  destruct (Z.eqb_spec (i_len it) 0); [done|]. destruct (Z.ltb_spec (i_len it) 4); [err_fine|].
  rewrite (rd_Ok m b) by lia. bstep. pose proof (get_range m b Hm) as H0.
  destruct (negb _); [err_fine|]. rewrite rtp_rd16_val by (done || lia). bstep.
  pose proof (be_field_range m (b + 2) 2 Hm ltac:(lia) ltac:(lia) ltac:(lia)) as Hw.
  change (256 ^ 2) with 65536 in Hw. set (L := (be_val (slice m (b + 2) 2) + 1) * 4) in *.
  assert (4 <= L <= 262144) by (unfold L; lia).
  destruct (Z.ltb_spec (i_len it) L); [err_fine|]. rewrite (rd_Ok m (b + 1)) by lia. bstep.
  rewrite u32_small by lia.
  assert (0 <= Z.land (get m b) 31 <= 31) as Hc.
  { change 31 with (Z.ones 5) at 1 2. rewrite Z.land_ones by lia. change (2 ^ 5) with 32.
    pose proof (Z.mod_pos_bound (get m b) 32). lia. }
  assert (∀ bl, 0 <= bl <= L - 4 → ∀ v it',
    Ok (Some ({| v_type := get m (b + 1); v_count := Z.land (get m b) 31; v_body := b + 4;
        v_body_len := bl |}, {| i_p := Some (b + L); i_len := i_len it - L |})) = Ok (Some (v, it')) →
    view_ok v ∧ iter_ok it' ∧ i_len it' + 4 <= i_len it) as Hfin.
  { intros bl Hbl v it' [= <- <-]. unfold view_ok, iter_ok. cbn.
    split_and!; try lia. exists (b + L). split_and!; done || lia. }
  destruct (negb _); bstep; [|split; [done|apply Hfin; lia]].
  destruct (Z.eqb_spec (L - 4) 0); [err_fine|]. rewrite rd_Ok by lia. bstep.
  pose proof (get_range m (b + L - 1) Hm).
  destruct (Z.eqb_spec (get m (b + L - 1)) 0), (Z.ltb_spec (L - 4) (get m (b + L - 1)));
    cbn [orb]; bstep; try err_fine. split; [done|apply Hfin; lia].
Qed.

Lemma reports_fine n : ∀ p i rs, 0 <= p → 0 <= i → i + Z.of_nat n <= Z.of_nat (length rs) →
  p + (i + Z.of_nat n) * 24 <= mlen m → fine (reports_parse n m p i rs).
Proof using Hm.
  induction n as [|n IH]; intros p i rs Hp Hi Hn Hl; [done|]. cbn [reports_parse].
  unfold REPORT_LEN. apply fine_bind.
  - unfold report_parse.
    repeat first [rewrite rtp_rd32_val by (done || lia) | rewrite rd_Ok by lia | progress bstep]. done.
  - intros r _. unfold set_report.
    destruct (Z.leb_spec 0 i), (Z.ltb_spec i (Z.of_nat (length rs))); try lia. cbn [andb]. bstep.
    apply IH; rewrite ?length_insert; lia.
Qed.

Lemma rep_fine v (sr : bool) : view_ok v → fine (rep_parse m v sr).
Proof using Hm.
  intros (Hb & Hl & Hm' & Hc & _). unfold rep_parse, REPORT_LEN.
  rewrite u32_small by (destruct sr; lia).
  destruct (Z.ltb_spec (v_body_len v) ((if sr then 24 else 4) + v_count v * 24)); [cbn; auto|].
  assert (fine (reports_parse (Z.to_nat (v_count v)) m (v_body v + (if sr then 24 else 4)) 0
    (replicate (Z.to_nat RTCP_MAX_REPORTS) zero_report))) as Hr.
  { apply reports_fine; rewrite ?length_replicate; unfold RTCP_MAX_REPORTS; destruct sr; lia. }
  destruct sr; repeat (rewrite rtp_rd32_val by (done || lia); bstep); bstep;
    (apply fine_bind; [exact Hr|done]).
Qed.

Lemma ssrcs_fine n : ∀ p i ss, 0 <= p → 0 <= i → i + Z.of_nat n <= mlen ss →
  p + (i + Z.of_nat n) * 4 <= mlen m → fine (ssrcs_parse n m p i ss).
Proof using Hm.
  induction n as [|n IH]; intros p i ss Hp Hi Hn Hl; [done|]. cbn [ssrcs_parse].
  rewrite rtp_rd32_val by (done || lia). bstep. rewrite wr_wrn, wrn_Ok by mlia. bstep.
  apply IH; mlia.
Qed.

Lemma bye_fine v : view_ok v →
  fine (rtcp_bye_parse m (Some v) true) ∧
  ∀ b o, rtcp_bye_parse m (Some v) true = Ok b → b_reason b = Some o →
    0 <= o ∧ 0 <= b_reason_len b ∧ o + b_reason_len b <= mlen m.
Proof using Hm.
  intros (Hb & Hl & Hm' & Hc & _). unfold rtcp_bye_parse. destruct (negb _); [err_fine|].
  destruct (Z.ltb_spec (v_body_len v) (v_count v * 4)); [err_fine|].
  assert (fine (ssrcs_parse (Z.to_nat (v_count v)) m (v_body v) 0 (zeros RTCP_MAX_REPORTS))) as Hs.
  { apply ssrcs_fine; try lia. change (mlen (zeros RTCP_MAX_REPORTS)) with 31. lia. }
  destruct (ssrcs_parse _ _ _ _ _) as [ss|rc|]; bstep; [|done|done].
  destruct (Z.ltb_spec (v_count v * 4) (v_body_len v)); [|split; [done|by intros ? ? [= <-]]].
  rewrite rd_Ok by lia. bstep. pose proof (get_range m (v_body v + v_count v * 4) Hm).
  rewrite u32_small by lia.
  destruct (Z.ltb_spec (v_body_len v) (v_count v * 4 + 1 + get m (v_body v + v_count v * 4)));
    [err_fine|]. split; [done|]. intros b o [= <-]. cbn. intros [= <-]. lia.
Qed.

Definition sdes_ok (it : rtcp_sdes_iter) : Prop :=
  0 <= d_p it ∧ 0 <= d_len it <= 262144 ∧ d_p it + d_len it <= mlen m.

Lemma sdes_enter_ok it : sdes_ok it →
  fine (sdes_enter m it) ∧
  ∀ it', sdes_enter m it = Ok (Some it') → sdes_ok it' ∧ d_len it' <= d_len it.
Proof using Hm.
  intros (Hp & Hl & Hb). unfold sdes_enter.
  destruct (d_in_chunk it); [split; [done|intros ? [= <-]; split; [done|lia]]|].
  destruct (d_chunks_left it =? 0); [done|]. destruct (Z.ltb_spec (d_len it) 4); [err_fine|].
  rewrite rtp_rd32_val by (done || lia). bstep. split; [done|]. intros ? [= <-].
  unfold sdes_ok. cbn. lia.
Qed.

Lemma sdes_loop_ok fuel : ∀ it, sdes_ok it → (Z.to_nat (d_len it) < fuel)%nat →
  fine (sdes_loop fuel m it) ∧
  ∀ i it', sdes_loop fuel m it = Ok (Some (i, it')) →
    0 <= si_value i ∧ 0 <= si_len i ∧ si_value i + si_len i <= mlen m ∧
    sdes_ok it' ∧ d_len it' < d_len it.
Proof using Hm.
  induction fuel as [|fuel IH]; intros it Hit Hf; [lia|]. cbn [sdes_loop].
  destruct (sdes_enter_ok it Hit) as [He Hn].
  destruct (sdes_enter m it) as [[e|]|rc|]; bstep; [|done|by split|done].
  destruct (Hn e eq_refl) as ((Hp & Hl & Hb) & Hle). clear Hn He.
  destruct (Z.ltb_spec (d_len e) 1); [err_fine|]. rewrite (rd_Ok m (d_p e)) by lia. bstep.
  destruct (Z.eqb_spec (get m (d_p e)) RTCP_SDES_END).
  - assert (0 <= Z.land (u32 (d_len e - 1)) 3) as H3.
    { rewrite u32_small by lia. change 3 with (Z.ones 2). rewrite Z.land_ones by lia.
      by apply Z.mod_pos_bound. }
    set (k := if d_len e <? Z.land (u32 (d_len e - 1)) 3 + 1 then d_len e
              else Z.land (u32 (d_len e - 1)) 3 + 1).
    assert (1 <= k <= d_len e) as Hk.
    { unfold k. destruct (Z.ltb_spec (d_len e) (Z.land (u32 (d_len e - 1)) 3 + 1)); lia. }
    destruct (IH {| d_p := d_p e + k; d_len := d_len e - k; d_ssrc := d_ssrc e;
      d_chunks_left := d_chunks_left e; d_in_chunk := false |}) as [Hr Hi].
    { unfold sdes_ok. cbn. lia. } { cbn. lia. }
    split; [done|]. intros i it' E. destruct (Hi i it' E) as (? & ? & ? & ? & Hlt). cbn in Hlt.
    split_and!; try done; lia.
  - destruct (Z.ltb_spec (d_len e) 2); [err_fine|]. rewrite rd_Ok by lia. bstep.
    pose proof (get_range m (d_p e + 1) Hm).
    destruct (Z.ltb_spec (d_len e) (2 + get m (d_p e + 1))); [err_fine|].
    split; [done|]. intros i it' [= <- <-]. unfold sdes_ok. cbn. lia.
Qed.

Lemma sdes_items_fine fuel : ∀ it, sdes_ok it → (Z.to_nat (d_len it) < fuel)%nat →
  fine (sdes_items fuel m it).
Proof using Hm.
  induction fuel as [|fuel IH]; intros it Hit Hf; [lia|]. cbn [sdes_items].
  unfold rtcp_sdes_next. destruct (sdes_loop_ok (S (Z.to_nat (d_len it))) it Hit ltac:(lia)) as [Hr Hi].
  destruct (sdes_loop _ _ _) as [[[i it']|]|rc|]; bstep; [|done|done|done].
  destruct (Hi i it' eq_refl) as (? & ? & ? & Hit' & Hlt). rewrite rdn_Ok by lia. bstep.
  apply fine_bind; [|done]. apply IH; [done|]. destruct Hit' as (_ & ? & _). lia.
Qed.

Lemma view_fine v : view_ok v → fine (view_read m v).
Proof using Hm.
  intros Hv. unfold view_read.
  destruct (v_type v =? RTCP_SR) eqn:Esr.
  { apply fine_bind; [|done]. unfold rtcp_sr_parse. rewrite Esr. by apply rep_fine. }
  destruct (v_type v =? RTCP_RR) eqn:Err'.
  { apply fine_bind; [|done]. unfold rtcp_rr_parse. rewrite Err'. by apply rep_fine. }
  destruct (v_type v =? RTCP_SDES) eqn:Esd.
  { unfold rtcp_sdes_init. rewrite Esd. cbn [negb]. bstep. apply fine_bind; [|done].
    apply sdes_items_fine; [|lia]. destruct Hv as (? & ? & ? & _ & ?). unfold sdes_ok. cbn. lia. }
  destruct (v_type v =? RTCP_BYE); [|done].
  destruct (bye_fine v Hv) as [Hf Hb]. destruct (rtcp_bye_parse m (Some v) true) as [b|rc|]; bstep; try done.
  destruct (b_reason b) as [o|] eqn:E; [|done].
  destruct (Hb b o eq_refl E) as (? & ? & ?). by rewrite rdn_Ok by lia.
Qed.

Lemma compound_fine fuel : ∀ it, iter_ok it → (Z.to_nat (i_len it) < fuel)%nat →
  fine (compound_read fuel m it).
Proof using Hm.
  induction fuel as [|fuel IH]; intros it Hit Hf; [lia|]. cbn [compound_read].
  destruct (iter_next_ok it Hit) as [Hr Hi].
  destruct (rtcp_iter_next m it) as [[[v it']|]|rc|]; bstep; [|done|done|done].
  destruct (Hi v it' eq_refl) as (Hv & Hit' & Hlt).
  apply fine_bind; [by apply view_fine|]. intros c _. apply fine_bind; [|done].
  apply IH; [done|]. destruct Hit' as (_ & _ & _ & ? & _). lia.
Qed.
End safety.

(** Reading an arbitrary datagram, however malformed, with the iterator and
    the per-type parsers (all report blocks, all SDES items, BYE sources and
    reason) stays inside the datagram, terminates, and either succeeds or stops
    with the short, version or format error. *)
Theorem rtcp_datagram_safe m n :
  bytes_ok m → 0 <= n <= mlen m → fine (datagram_read m n).
Proof.
  intros Hm Hn. apply compound_fine; [done| |cbn; lia].
  exists 0. cbn. split_and!; done || lia.
Qed.

Lemma rtcp_datagram_safe_witness :
  fine (datagram_read [161; 202; 0; 2; 0; 0; 0; 7; 1; 200; 0; 1; 130; 200; 0; 0] 16) ∧
  datagram_read [161; 202; 0; 2; 0; 0; 0; 7; 1; 200; 0; 1; 130; 200; 0; 0] 16 = Err RTP_E_SHORT.
Proof.
  split; [|vm_compute; reflexivity].
  apply rtcp_datagram_safe; [bytes_tac|by vm_compute].
Defined.
End Rtcp.
