(* ===== verification/SmsIntl.v ===== *)
(** * SmsIntl: the helpers shared by the SMS sources

    Models [sms/src/sms_intl.h]: semi-octet digits, two-digit BCD and the UTF-8
    reader and writer, with the characterisation of UTF-8 the text codec rests
    on: the reader accepts exactly what the writer produces. *)

From S2P Require Import Prelude Endian.

Definition SMS_OK : Z := 0.
Definition SMS_E_SHORT : Z := -1.
Definition SMS_E_LENGTH : Z := -2.
Definition SMS_E_OVERFLOW : Z := -3.
Definition SMS_E_INVAL : Z := -4.
Definition SMS_E_ALPHABET : Z := -5.
Definition SMS_E_MTI : Z := -6.
Definition SMS_E_MISSING : Z := -7.

(** ** Semi-octets *)

(** '0'..'9', '*', '#', 'a', 'b', 'c' and the filler. *)
Definition sms_bcd_chars : list Z := [48; 49; 50; 51; 52; 53; 54; 55; 56; 57; 42; 35; 97; 98; 99; 0].

Definition sms_bcd_char (nib : Z) : Z := get sms_bcd_chars (Z.land nib 15).

Definition sms_bcd_nibble (c : Z) : Z :=
  if (48 <=? c) && (c <=? 57) then u8 (c - 48)
  else if c =? 42 then 10
  else if c =? 35 then 11
  else if (c =? 97) || (c =? 65) then 12
  else if (c =? 98) || (c =? 66) then 13
  else if (c =? 99) || (c =? 67) then 14
  else 255.

Definition sms_bcd2 (o : Z) : Z :=
  let tens := Z.land o 15 in
  let units := u8 (Z.shiftr o 4) in
  if (9 <? tens) || (9 <? units) then -1 else tens * 10 + units.

Definition sms_bcd2_enc (v : Z) : Z := u8 (Z.lor (Z.shiftl (v mod 10) 4) ((v / 10) mod 10)).

(** ** UTF-8 *)

(** The continuation octets; [None] when one is not of the form [10xxxxxx]. *)
Fixpoint utf8_cont (extra : nat) (p : mem) (k v : Z) : res (option (Z * Z)) :=
  match extra with
  | O => Ok (Some (v, k))
  | S extra =>
      b ← rd p k;
      if negb (Z.land b 192 =? 128) then Ok None else
      utf8_cont extra p (k + 1) (Z.lor (u32 (Z.shiftl v 6)) (Z.land b 63))
  end.

(** The code point and the offset behind it; [None] is the return of -1. *)
Definition sms_utf8_next (p : mem) (n i : Z) : res (option (Z * Z)) :=
  let k := i in
  if n <=? k then Ok None else
  c ← rd p k;
  let k := k + 1 in
  if c <? 128 then Ok (Some (c, k)) else
  let lead :=
    if Z.land c 224 =? 192 then Some (Z.land c 31, 1)
    else if Z.land c 240 =? 224 then Some (Z.land c 15, 2)
    else if Z.land c 248 =? 240 then Some (Z.land c 7, 3)
    else None in
  match lead with
  | None => Ok None
  | Some (v, extra) =>
      if n <? k + extra then Ok None else
      r ← utf8_cont (Z.to_nat extra) p k v;
      match r with
      | None => Ok None
      | Some (v, k) =>
          if ((extra =? 1) && (v <? 128)) || ((extra =? 2) && (v <? 2048)) ||
             ((extra =? 3) && (v <? 65536)) then Ok None else
          if (1114111 <? v) || ((55296 <=? v) && (v <=? 57343)) then Ok None else
          Ok (Some (v, k))
      end
  end.

(** Writes at [out + off]; the second component is the returned count. *)
Definition sms_utf8_put (out : mem) (off cap c : Z) : res (mem * Z) :=
  if c <? 128 then
    if cap <? 1 then Ok (out, 0) else
    out ← wr out off (u8 c); Ok (out, 1)
  else if c <? 2048 then
    if cap <? 2 then Ok (out, 0) else
    out ← wr out off (u8 (Z.lor 192 (Z.shiftr c 6)));
    out ← wr out (off + 1) (u8 (Z.lor 128 (Z.land c 63)));
    Ok (out, 2)
  else if c <? 65536 then
    if cap <? 3 then Ok (out, 0) else
    out ← wr out off (u8 (Z.lor 224 (Z.shiftr c 12)));
    out ← wr out (off + 1) (u8 (Z.lor 128 (Z.land (Z.shiftr c 6) 63)));
    out ← wr out (off + 2) (u8 (Z.lor 128 (Z.land c 63)));
    Ok (out, 3)
  else if cap <? 4 then Ok (out, 0) else
    out ← wr out off (u8 (Z.lor 240 (Z.shiftr c 18)));
    out ← wr out (off + 1) (u8 (Z.lor 128 (Z.land (Z.shiftr c 12) 63)));
    out ← wr out (off + 2) (u8 (Z.lor 128 (Z.land (Z.shiftr c 6) 63)));
    out ← wr out (off + 3) (u8 (Z.lor 128 (Z.land c 63)));
    Ok (out, 4).

(** ** What the two agree on *)

(** A Unicode scalar value. *)
Definition scalar (c : Z) : Prop := 0 <= c <= 1114111 ∧ ¬ (55296 <= c <= 57343).

Definition tail6 (c : Z) : Z := 128 + c mod 64.
Definition utf8_bytes (c : Z) : list Z :=
  if c <? 128 then [c]
  else if c <? 2048 then [192 + c / 64; tail6 c]
  else if c <? 65536 then [224 + c / 4096; tail6 (c / 64); tail6 c]
  else [240 + c / 262144; tail6 (c / 4096); tail6 (c / 64); tail6 c].

Definition utf8_len (c : Z) : Z := mlen (utf8_bytes c).

Lemma utf8_len_range c : 1 <= utf8_len c <= 4.
Proof.
  unfold utf8_len, utf8_bytes.
  destruct (c <? 128), (c <? 2048), (c <? 65536); by vm_compute.
Qed.

(** *** Bit fields *)

Lemma land_low x k n : 0 <= k → n = 2 ^ k - 1 → Z.land x n = x mod 2 ^ k.
Proof.
  intros Hk ->. replace (2 ^ k - 1) with (Z.ones k) by (rewrite Z.ones_equiv; lia).
  by apply Z.land_ones.
Qed.
Lemma lor_tag t k m x : 0 <= k → m = t * 2 ^ k → 0 <= x < 2 ^ k → Z.lor m x = m + x.
Proof. intros Hk -> Hx. rewrite <-Z.shiftl_mul_pow2 at 1 by done. by apply lor_low. Qed.

Lemma tail_octet c : 0 <= c → u8 (Z.lor 128 (Z.land c 63)) = tail6 c.
Proof.
  intros. unfold tail6. rewrite (land_low c 6) by done. change (2 ^ 6) with 64.
  pose proof (Z.mod_pos_bound c 64 ltac:(lia)).
  rewrite (lor_tag 2 6) by (done || lia). rewrite u8_small; lia.
Qed.

Lemma tail_fields b : 0 <= b < 256 →
  (Z.land b 192 =? 128) = ((128 <=? b) && (b <? 192)) ∧
  ((Z.land b 192 =? 128) = true → Z.land b 63 = b - 128).
Proof. intros. byte_decide b. Qed.

Lemma lead_fields b : 0 <= b < 256 →
  (Z.land b 224 =? 192) = ((192 <=? b) && (b <? 224)) ∧ 
  (Z.land b 240 =? 224) = ((224 <=? b) && (b <? 240)) ∧
  (Z.land b 248 =? 240) = ((240 <=? b) && (b <? 248)) ∧
  Z.land b 31 = b mod 32 ∧ Z.land b 15 = b mod 16 ∧ Z.land b 7 = b mod 8.
Proof. intros. byte_decide b. Qed.

Lemma utf8_put_bytes out off cap c : 0 <= c <= 1114111 → 0 <= off → off + cap <= mlen out →
  sms_utf8_put out off cap c =
    if cap <? utf8_len c then Ok (out, 0) else Ok (splice out off (utf8_bytes c), utf8_len c).
Proof.
  intros Hc Ho Hl. unfold sms_utf8_put, utf8_len, utf8_bytes.
  rewrite !tail_octet by (lia || (apply Z.shiftr_nonneg; lia)). rewrite !shiftr_div by lia.
  change (2 ^ 6) with 64. change (2 ^ 12) with 4096. change (2 ^ 18) with 262144.
  destruct (Z.ltb_spec c 128).
  { change (mlen [c]) with 1. destruct (Z.ltb_spec cap 1); [done|].
    rewrite wr_wrn, wrn_first by mlia. by rewrite u8_small by lia. }
  destruct (Z.ltb_spec c 2048).
  { rewrite (lor_tag 6 5) by (done || Z.to_euclidean_division_equations; lia).
    rewrite u8_small by (Z.to_euclidean_division_equations; lia).
    change (mlen [_; _]) with 2. destruct (Z.ltb_spec cap 2); [done|].
    rewrite wr_wrn, wrn_first by mlia. rewrite wr_wrn, wrn_next by mlia. done. }
  destruct (Z.ltb_spec c 65536).
  { rewrite (lor_tag 14 4) by (done || Z.to_euclidean_division_equations; lia).
    rewrite u8_small by (Z.to_euclidean_division_equations; lia).
    change (mlen [_; _; _]) with 3. destruct (Z.ltb_spec cap 3); [done|].
    rewrite wr_wrn, wrn_first by mlia. do 2 (rewrite wr_wrn, wrn_next by mlia). done. }
  rewrite (lor_tag 30 3) by (done || Z.to_euclidean_division_equations; lia).
  rewrite u8_small by (Z.to_euclidean_division_equations; lia).
  change (mlen [_; _; _; _]) with 4. destruct (Z.ltb_spec cap 4); [done|].
  rewrite wr_wrn, wrn_first by mlia. do 3 (rewrite wr_wrn, wrn_next by mlia). done.
Qed.

(** *** The reader *)

(** The encoding of the value that given octets carry is these octets. *)
Ltac enc_tac :=
  unfold utf8_bytes, tail6;
  repeat match goal with |- context [?a <? ?b] => destruct (Z.ltb_spec a b) end;
  try (exfalso; Z.to_euclidean_division_equations; lia);
  repeat (f_equal; try (Z.to_euclidean_division_equations; lia)).

Lemma enc2 b0 b1 v : 192 <= b0 < 224 → 128 <= b1 < 192 → v = (b0 - 192) * 64 + (b1 - 128) →
  128 <= v → utf8_bytes v = [b0; b1].
Proof. intros ? ? -> ?. enc_tac. Qed.
Lemma enc3 b0 b1 b2 v : 224 <= b0 < 240 → 128 <= b1 < 192 → 128 <= b2 < 192 →
  v = ((b0 - 224) * 64 + (b1 - 128)) * 64 + (b2 - 128) → 2048 <= v → utf8_bytes v = [b0; b1; b2].
Proof. intros ? ? ? -> ?. enc_tac. Qed.
Lemma enc4 b0 b1 b2 b3 v : 240 <= b0 < 248 → 128 <= b1 < 192 → 128 <= b2 < 192 →
  128 <= b3 < 192 → v = (((b0 - 240) * 64 + (b1 - 128)) * 64 + (b2 - 128)) * 64 + (b3 - 128) →
  65536 <= v → utf8_bytes v = [b0; b1; b2; b3].
Proof. intros ? ? ? ? -> ?. enc_tac. Qed.

Section reader.
Context (p : mem) (Hp : bytes_ok p).

(** The value of three-, two- or one-octet tails, read so far as [v]. *)
Lemma cont_step e k v : 0 <= k < mlen p → 0 <= v < 2097152 →
  utf8_cont (S e) p k v =
    if (128 <=? get p k) && (get p k <? 192) then utf8_cont e p (k + 1) (v * 64 + (get p k - 128))
    else Ok None.
Proof using Hp.
  intros Hk Hv. cbn [utf8_cont]. rewrite rd_Ok by lia. bstep.
  destruct (tail_fields (get p k) (get_range p k Hp)) as [E1 E2]. rewrite E1 in *.
  destruct ((128 <=? get p k) && (get p k <? 192)) eqn:Eb; cbn [negb]; [|done].
  rewrite E2 by done. f_equal. apply andb_true_iff in Eb as [H1%Z.leb_le H2%Z.ltb_lt].
  rewrite Z.shiftl_mul_pow2 by lia. change (2 ^ 6) with 64. rewrite u32_small by lia.
  apply (lor_tag v 6); [lia|done|]. change (2 ^ 6) with 64. lia.
Qed.

Lemma holds_slice i n : 0 <= i → 0 <= n → i + n <= mlen p → holds p i (slice p i n).
Proof using. intros. unfold holds. by rewrite mlen_slice by lia. Qed.

Lemma octets_here i bs : 0 <= i → i + mlen bs <= mlen p →
  bs = map (λ k, get p (i + Z.of_nat k)) (seq 0 (length bs)) → holds p i bs.
Proof using.
  intros Hi Hl Hb. rewrite Hb. pose proof (slice_get p i (mlen bs) Hi ltac:(unfold mlen; lia) Hl) as Hs.
  unfold mlen in Hs. rewrite Nat2Z.id in Hs. rewrite <-Hs. apply holds_slice; unfold mlen in *; lia.
Qed.

(** Case analysis on a continuation octet. *)
Ltac tail_case E :=
  match goal with |- context [(128 <=? ?x) && (?x <? 192)] =>
    destruct ((128 <=? x) && (x <? 192)) eqn:E end; [|done];
  let A := fresh "A" in let B := fresh "B" in
  apply andb_true_iff in E as [A%Z.leb_le B%Z.ltb_lt].

(** The checks at the end of the reader. *)
Lemma finish_sound n i v k (bad : bool) :
  (bad = false → 0 <= v ∧ holds p i (utf8_bytes v) ∧ k = i + utf8_len v ∧ k <= n) →
  match (if bad then Ok None else
         if (1114111 <? v) || ((55296 <=? v) && (v <=? 57343)) then Ok None else Ok (Some (v, k)))
  with
  | Ok (Some (c, j)) => scalar c ∧ j = i + utf8_len c ∧ j <= n ∧ holds p i (utf8_bytes c)
  | Ok None => True
  | _ => False
  end.
Proof using.
  intros H. destruct bad; [done|]. destruct H as (Hv & Hh & Hk & Hn); [done|].
  destruct (Z.ltb_spec 1114111 v); [done|]. cbn [orb].
  destruct (Z.leb_spec 55296 v), (Z.leb_spec v 57343); cbn [andb]; try done;
    split_and!; try done; unfold scalar; lia.
Qed.

(** What the reader returns is a scalar value whose encoding stands there. *)
Lemma utf8_next_sound n i : 0 <= i → n <= mlen p →
  match sms_utf8_next p n i with
  | Ok (Some (c, j)) => scalar c ∧ j = i + utf8_len c ∧ j <= n ∧ holds p i (utf8_bytes c)
  | Ok None => True
  | _ => False
  end.
Proof using Hp.
  intros Hi Hn. unfold sms_utf8_next. destruct (Z.leb_spec n i); [done|].
  rewrite rd_Ok by lia. bstep. pose proof (get_range p i Hp) as H0.
  destruct (lead_fields (get p i) H0) as (-> & -> & -> & -> & -> & ->).
  destruct (Z.ltb_spec (get p i) 128).
  { assert (utf8_bytes (get p i) = [get p i]) as E.
    { unfold utf8_bytes. by destruct (Z.ltb_spec (get p i) 128); [|lia]. }
    unfold utf8_len. rewrite E. change (mlen [_]) with 1. split_and!; unfold scalar; try lia.
    apply octets_here; [lia|mlia|]. cbn. by rewrite Z.add_0_r. }
  destruct ((192 <=? get p i) && (get p i <? 224)) eqn:E2.
  { apply andb_true_iff in E2 as [A1%Z.leb_le A2%Z.ltb_lt].
    destruct (Z.ltb_spec n (i + 1 + 1)); [done|]. change (Z.to_nat 1) with 1%nat.
    replace (get p i mod 32) with (get p i - 192) by (Z.to_euclidean_division_equations; lia).
    rewrite cont_step by lia. tail_case E3. cbn [utf8_cont]. bstep.
    apply finish_sound. intros Hb%orb_false_iff. destruct Hb as [Hb _].
    apply orb_false_iff in Hb as [Hb%Z.ltb_ge _].
    pose proof (enc2 (get p i) (get p (i + 1)) _ ltac:(lia) ltac:(lia) eq_refl Hb) as E.
    unfold utf8_len. rewrite E. change (mlen [_; _]) with 2. split_and!; try lia.
    apply octets_here; [lia|mlia|]. cbn. by rewrite Z.add_0_r. }
  destruct ((224 <=? get p i) && (get p i <? 240)) eqn:E3.
  { apply andb_true_iff in E3 as [A1%Z.leb_le A2%Z.ltb_lt].
    destruct (Z.ltb_spec n (i + 1 + 2)); [done|]. change (Z.to_nat 2) with 2%nat.
    replace (get p i mod 16) with (get p i - 224) by (Z.to_euclidean_division_equations; lia).
    rewrite cont_step by lia. tail_case F1. rewrite cont_step by lia. tail_case F2.
    cbn [utf8_cont]. bstep. apply finish_sound. intros Hb%orb_false_iff. destruct Hb as [Hb _].
    apply orb_false_iff in Hb as [_ Hb%Z.ltb_ge].
    pose proof (enc3 (get p i) (get p (i + 1)) (get p (i + 1 + 1)) _ ltac:(lia) ltac:(lia) ltac:(lia)
      eq_refl Hb) as E.
    unfold utf8_len. rewrite E. change (mlen [_; _; _]) with 3. split_and!; try lia.
    apply octets_here; [lia|mlia|]. cbn.
    by replace (i + 1 + 1) with (i + 2) by lia; rewrite Z.add_0_r. }
  destruct ((240 <=? get p i) && (get p i <? 248)) eqn:E4; [|done].
  apply andb_true_iff in E4 as [A1%Z.leb_le A2%Z.ltb_lt].
  destruct (Z.ltb_spec n (i + 1 + 3)); [done|]. change (Z.to_nat 3) with 3%nat.
  replace (get p i mod 8) with (get p i - 240) by (Z.to_euclidean_division_equations; lia).
  rewrite cont_step by lia. tail_case F1. rewrite cont_step by lia. tail_case F2.
  rewrite cont_step by lia. tail_case F3.
  cbn [utf8_cont]. bstep. apply finish_sound. intros Hb%orb_false_iff. destruct Hb as [_ Hb].
  apply Z.ltb_ge in Hb.
  pose proof (enc4 (get p i) (get p (i + 1)) (get p (i + 1 + 1)) (get p (i + 1 + 1 + 1)) _ ltac:(lia)
    ltac:(lia) ltac:(lia) ltac:(lia) eq_refl Hb) as E.
  unfold utf8_len. rewrite E. change (mlen [_; _; _; _]) with 4. split_and!; try lia.
  apply octets_here; [lia|mlia|]. cbn.
  by replace (i + 1 + 1 + 1) with (i + 3) by lia; replace (i + 1 + 1) with (i + 2) by lia;
    rewrite Z.add_0_r.
Qed.

(** An encoding that stands there is read. *)
Lemma finish_complete (c v k : Z) (bad : bool) : scalar c → v = c → bad = false →
  (if bad then Ok None else
   if (1114111 <? v) || ((55296 <=? v) && (v <=? 57343)) then Ok None else Ok (Some (v, k)))
  = Ok (Some (c, k)).
Proof using.
  intros [Hc Hs] -> ->. destruct (Z.ltb_spec 1114111 c); [lia|]. cbn [orb].
  destruct (Z.leb_spec 55296 c), (Z.leb_spec c 57343); done || lia.
Qed.

Lemma holds_get i bs j x : holds p i bs → bs !! Z.to_nat j = Some x → 0 <= j →
  get p (i + j) = x ∧ 0 <= i + j < mlen p.
Proof using.
  intros (Hi & Hl & Hs) Hx Hj. assert (j < mlen bs) by (apply lookup_lt_Some in Hx; unfold mlen; lia).
  split; [|lia]. rewrite <-(get_slice p i (mlen bs) j), Hs by lia.
  unfold get. by apply nth_lookup_Some.
Qed.

(** Decides the comparisons of a goal whose outcome is arithmetic. *)
Ltac cmp_tac :=
  repeat match goal with
  | |- context [?a <? ?b] => first
      [ rewrite (proj2 (Z.ltb_lt a b)) by (Z.to_euclidean_division_equations; lia)
      | rewrite (proj2 (Z.ltb_ge a b)) by (Z.to_euclidean_division_equations; lia) ]
  | |- context [?a <=? ?b] => first
      [ rewrite (proj2 (Z.leb_le a b)) by (Z.to_euclidean_division_equations; lia)
      | rewrite (proj2 (Z.leb_gt a b)) by (Z.to_euclidean_division_equations; lia) ]
  end; cbn [andb orb].

Lemma utf8_next_complete n i c : 0 <= i → n <= mlen p → scalar c → holds p i (utf8_bytes c) →
  i + utf8_len c <= n → sms_utf8_next p n i = Ok (Some (c, i + utf8_len c)).
Proof using Hp.
  intros Hi Hn Hsc H Hl. pose proof (utf8_len_range c). unfold sms_utf8_next.
  destruct (Z.leb_spec n i); [lia|]. rewrite rd_Ok by lia. bstep.
  destruct (lead_fields (get p i) (get_range p i Hp)) as (-> & -> & -> & -> & -> & ->).
  pose proof (λ j x, holds_get i _ j x H) as Hg. pose proof Hsc as [Hc _].
  unfold utf8_len, utf8_bytes, tail6 in *.
  destruct (Z.ltb_spec c 128); [|destruct (Z.ltb_spec c 2048); [|destruct (Z.ltb_spec c 65536)]].
  - destruct (Hg 0 c eq_refl ltac:(lia)) as [E _]. rewrite Z.add_0_r in E. rewrite E. cmp_tac. done.
  - destruct (Hg 0 _ eq_refl ltac:(lia)) as [E0 _], (Hg 1 _ eq_refl ltac:(lia)) as [E1 B1].
    rewrite Z.add_0_r in E0. change (mlen [_; _]) with 2 in *. rewrite E0. cmp_tac.
    change (Z.to_nat 1) with 1%nat. rewrite cont_step, E1 by (Z.to_euclidean_division_equations; lia).
    cmp_tac. cbn [utf8_cont]. bstep.
    rewrite (finish_complete c); [do 3 f_equal; lia|done|Z.to_euclidean_division_equations; lia|].
    change (1 =? 1) with true. change (1 =? 2) with false. change (1 =? 3) with false. by cmp_tac.
  - destruct (Hg 0 _ eq_refl ltac:(lia)) as [E0 _], (Hg 1 _ eq_refl ltac:(lia)) as [E1 B1],
      (Hg 2 _ eq_refl ltac:(lia)) as [E2 B2].
    rewrite Z.add_0_r in E0. change (mlen [_; _; _]) with 3 in *. rewrite E0. cmp_tac.
    change (Z.to_nat 2) with 2%nat. rewrite cont_step, E1 by (Z.to_euclidean_division_equations; lia).
    cmp_tac. replace (i + 1 + 1) with (i + 2) by lia.
    rewrite cont_step, E2 by (Z.to_euclidean_division_equations; lia). cmp_tac.
    cbn [utf8_cont]. bstep.
    rewrite (finish_complete c); [do 3 f_equal; lia|done|Z.to_euclidean_division_equations; lia|].
    change (2 =? 1) with false. change (2 =? 2) with true. change (2 =? 3) with false. by cmp_tac.
  - destruct (Hg 0 _ eq_refl ltac:(lia)) as [E0 _], (Hg 1 _ eq_refl ltac:(lia)) as [E1 B1],
      (Hg 2 _ eq_refl ltac:(lia)) as [E2 B2], (Hg 3 _ eq_refl ltac:(lia)) as [E3 B3].
    rewrite Z.add_0_r in E0. change (mlen [_; _; _; _]) with 4 in *. rewrite E0. cmp_tac.
    change (Z.to_nat 3) with 3%nat. rewrite cont_step, E1 by (Z.to_euclidean_division_equations; lia).
    cmp_tac. replace (i + 1 + 1) with (i + 2) by lia.
    rewrite cont_step, E2 by (Z.to_euclidean_division_equations; lia). cmp_tac.
    replace (i + 2 + 1) with (i + 3) by lia.
    rewrite cont_step, E3 by (Z.to_euclidean_division_equations; lia). cmp_tac.
    cbn [utf8_cont]. bstep.
    rewrite (finish_complete c); [do 3 f_equal; lia|done|Z.to_euclidean_division_equations; lia|].
    change (3 =? 1) with false. change (3 =? 2) with false. change (3 =? 3) with true. by cmp_tac.
Qed.
End reader.

(** C35: the UTF-8 reader and writer agree on one encoding.  On any string the
    reader stays in bounds, and it returns a code point with the offset behind it
    exactly when that is a scalar value whose canonical encoding stands there:
    overlong forms, surrogates, values past U+10FFFF and truncated or malformed
    sequences are refused.  The writer puts that encoding, or nothing when it does
    not fit. *)
Theorem sms_utf8_exact p n i c j out off cap :
  bytes_ok p → 0 <= i → n <= mlen p →
  (∃ r, sms_utf8_next p n i = Ok r) ∧
  (sms_utf8_next p n i = Ok (Some (c, j)) ↔
     scalar c ∧ j = i + utf8_len c ∧ j <= n ∧ holds p i (utf8_bytes c)) ∧
  (scalar c → 0 <= off → off + cap <= mlen out →
   sms_utf8_put out off cap c =
     if cap <? utf8_len c then Ok (out, 0) else Ok (splice out off (utf8_bytes c), utf8_len c)).
Proof.
  intros Hp Hi Hn. pose proof (utf8_next_sound p Hp n i Hi Hn) as Hs. split_and!.
  - destruct (sms_utf8_next p n i) as [r|rc|]; [by exists r|done|done].
  - split.
    + intros E. by rewrite E in Hs.
    + intros (Hc & -> & Hj & Hh). by apply utf8_next_complete.
  - intros [Hc _] ? ?. by apply utf8_put_bytes.
Qed.

Lemma sms_utf8_exact_witness :
  sms_utf8_next [97; 226; 130; 172; 33] 5 1 = Ok (Some (8364, 4)) ↔
    scalar 8364 ∧ 4 = 1 + utf8_len 8364 ∧ 4 <= 5 ∧ holds [97; 226; 130; 172; 33] 1 (utf8_bytes 8364).
Proof.
  apply (sms_utf8_exact [97; 226; 130; 172; 33] 5 1 8364 4 [] 0 0); [bytes_tac|lia|by vm_compute].
Defined.
