(* ===== verification/SmsUd.v ===== *)
(** * SmsUd: data coding, the GSM 7-bit alphabet and user data

    Models [sms/src/sms_ud.c]: the data coding scheme, the default alphabet and
    its extension table, septet packing, the user data header and its
    concatenation element, TP-UD to and from UTF-8, and the splitting of a long
    text into parts.  NULL pointers are [None]; a string or buffer handed in is
    the list of its octets. *)

From S2P Require Import Prelude Endian SmsIntl.

Definition SMS_UD_MAX : Z := 140.

Definition SMS_ALPHA_AUTO : Z := -1.
Definition SMS_ALPHA_GSM7 : Z := 0.
Definition SMS_ALPHA_8BIT : Z := 1.
Definition SMS_ALPHA_UCS2 : Z := 2.
Definition SMS_ALPHA_RESERVED : Z := 3.

Definition SMS_UDH_CONCAT8 : Z := 0.
Definition SMS_UDH_CONCAT16 : Z := 8.

(** ** Data coding scheme *)

Record sms_dcs := SmsDcs {
  alphabet : Z; compressed : bool; has_class : bool; cls : Z; auto_delete : bool;
  mwi : bool; mwi_active : bool; mwi_type : Z; mwi_discard : bool }.

(** The structure the caller passes is filled whole. *)
Definition sms_dcs_decode (dcs : Z) : sms_dcs :=
  let group := Z.shiftr dcs 4 in
  if group <=? 7 then
    let compressed := negb (Z.land dcs 32 =? 0) in
    {| alphabet := if compressed then SMS_ALPHA_RESERVED else u8 (Z.land (Z.shiftr dcs 2) 3);
       compressed := compressed; has_class := negb (Z.land dcs 16 =? 0);
       cls := u8 (Z.land dcs 3); auto_delete := 4 <=? group; mwi := false; mwi_active := false;
       mwi_type := 0; mwi_discard := false |}
  else if (12 <=? group) && (group <=? 14) then
    {| alphabet := if group =? 14 then SMS_ALPHA_UCS2 else SMS_ALPHA_GSM7; compressed := false;
       has_class := false; cls := 0; auto_delete := false; mwi := true;
       mwi_active := negb (Z.land dcs 8 =? 0); mwi_type := u8 (Z.land dcs 3);
       mwi_discard := group =? 12 |}
  else if group =? 15 then
    {| alphabet := if negb (Z.land dcs 4 =? 0) then SMS_ALPHA_8BIT else SMS_ALPHA_GSM7;
       compressed := false; has_class := true; cls := u8 (Z.land dcs 3); auto_delete := false;
       mwi := false; mwi_active := false; mwi_type := 0; mwi_discard := false |}
  else
    {| alphabet := SMS_ALPHA_RESERVED; compressed := false; has_class := false; cls := 0;
       auto_delete := false; mwi := false; mwi_active := false; mwi_type := 0;
       mwi_discard := false |}.

Definition sms_dcs_make (alphabet cls : Z) : Z :=
  let dcs := if alphabet =? SMS_ALPHA_8BIT then 4 else if alphabet =? SMS_ALPHA_UCS2 then 8 else 0 in
  if (0 <=? cls) && (cls <=? 3) then Z.lor dcs (u8 (Z.lor 16 cls)) else dcs.

Definition sms_dcs_alphabet (dcs : Z) : Z := alphabet (sms_dcs_decode dcs).

(** ** The default alphabet *)

Definition gsm7_basic : list Z :=
  [64; 163; 36; 165; 232; 233; 249; 236;
   242; 199; 10; 216; 248; 13; 197; 229;
   916; 95; 934; 915; 923; 937; 928; 936;
   931; 920; 926; 27; 198; 230; 223; 201;
   32; 33; 34; 35; 164; 37; 38; 39;
   40; 41; 42; 43; 44; 45; 46; 47;
   48; 49; 50; 51; 52; 53; 54; 55;
   56; 57; 58; 59; 60; 61; 62; 63;
   161; 65; 66; 67; 68; 69; 70; 71;
   72; 73; 74; 75; 76; 77; 78; 79;
   80; 81; 82; 83; 84; 85; 86; 87;
   88; 89; 90; 196; 214; 209; 220; 167;
   191; 97; 98; 99; 100; 101; 102; 103;
   104; 105; 106; 107; 108; 109; 110; 111;
   112; 113; 114; 115; 116; 117; 118; 119;
   120; 121; 122; 228; 246; 241; 252; 224].

(** Septet after the escape, and code point. *)
Definition gsm7_ext : list (Z * Z) :=
  [(10, 12); (20, 94); (40, 123); (41, 125); (47, 92); (60, 91); (61, 126); (62, 93); (64, 124); (101, 8364)].

Definition sms_gsm7_to_ucs (septet : Z) : Z :=
  if 127 <? septet then -1 else if septet =? 27 then -1 else get gsm7_basic septet.

(** The first loop of [sms_gsm7_from_ucs], from table entry [i] on. *)
Fixpoint basic_find (tab : list Z) (i ucs : Z) : option Z :=
  match tab with
  | [] => None
  | x :: tab =>
      if i =? 27 then basic_find tab (i + 1) ucs
      else if x =? ucs then Some i else basic_find tab (i + 1) ucs
  end.
Fixpoint ext_find (tab : list (Z * Z)) (ucs : Z) : option Z :=
  match tab with
  | [] => None
  | (septet, x) :: tab => if x =? ucs then Some septet else ext_find tab ucs
  end.

Definition sms_gsm7_from_ucs (ucs : Z) : Z :=
  match basic_find gsm7_basic 0 ucs with
  | Some i => i
  | None => match ext_find gsm7_ext ucs with Some septet => Z.lor 6912 septet | None => -1 end
  end.

Fixpoint ext_lookup (tab : list (Z * Z)) (septet : Z) : Z :=
  match tab with
  | [] => -1
  | (x, ucs) :: tab => if x =? septet then ucs else ext_lookup tab septet
  end.
Definition ext_to_ucs (septet : Z) : Z := ext_lookup gsm7_ext septet.

(** The loops over a string: one unit of fuel per octet. *)
Fixpoint from_utf8_loop (fuel : nat) (s : mem) (n i : Z) (septets : mem) (k cap : Z) :
    res (mem * Z) :=
  match fuel with
  | O => Ub
  | S fuel =>
      if negb (i <? n) then Ok (septets, i32 k) else
      r ← sms_utf8_next s n i;
      match r with
      | None => Ok (septets, SMS_E_INVAL)
      | Some (c, i) =>
          let g := sms_gsm7_from_ucs c in
          if g <? 0 then Ok (septets, SMS_E_ALPHABET) else
          if negb (Z.land g 6912 =? 0) then
            if cap <? k + 2 then Ok (septets, SMS_E_OVERFLOW) else
            septets ← wr septets k 27;
            septets ← wr septets (k + 1) (u8 (Z.land g 127));
            from_utf8_loop fuel s n i septets (k + 2) cap
          else
            if cap <? k + 1 then Ok (septets, SMS_E_OVERFLOW) else
            septets ← wr septets k (u8 g);
            from_utf8_loop fuel s n i septets (k + 1) cap
      end
  end.

Definition sms_gsm7_from_utf8 (s : option mem) (n : Z) (septets : option mem) (cap : Z) :
    res (option mem * Z) :=
  match s, septets with
  | Some s, Some b =>
      '(b, rc) ← from_utf8_loop (S (Z.to_nat n)) s n 0 b 0 cap; Ok (Some b, rc)
  | _, _ => Ok (septets, SMS_E_INVAL)
  end.

Fixpoint septets_loop (fuel : nat) (s : mem) (n i k : Z) : res Z :=
  match fuel with
  | O => Ub
  | S fuel =>
      if negb (i <? n) then Ok (i32 k) else
      r ← sms_utf8_next s n i;
      match r with
      | None => Ok SMS_E_INVAL
      | Some (c, i) =>
          let g := sms_gsm7_from_ucs c in
          if g <? 0 then Ok SMS_E_ALPHABET else
          septets_loop fuel s n i (k + (if negb (Z.land g 6912 =? 0) then 2 else 1))
      end
  end.

Definition sms_gsm7_septets (s : option mem) (n : Z) : res Z :=
  match s with
  | Some s => septets_loop (S (Z.to_nat n)) s n 0 0
  | None => Ok SMS_E_INVAL
  end.

(** The code point -1 stands for the early return on an octet above 127. *)
Fixpoint to_utf8_loop (fuel : nat) (septets : mem) (n i : Z) (out : mem) (k cap : Z) :
    res (mem * Z) :=
  match fuel with
  | O => Ub
  | S fuel =>
      if negb (i <? n) then out ← wr out k 0; Ok (out, i32 k) else
      x ← rd septets i;
      '(ucs, i) ←
        (if x =? 27 then
           e ← (if i + 1 <? n then y ← rd septets (i + 1); Ok (ext_to_ucs y) else Ok (-1));
           let i := if i + 1 <? n then i + 1 else i in
           Ok (if e <? 0 then 32 else e, i)
         else if 127 <? x then Ok (-1, i)
         else Ok (get gsm7_basic x, i));
      if ucs <? 0 then Ok (out, SMS_E_INVAL) else
      if cap <=? k + 1 then Ok (out, SMS_E_OVERFLOW) else
      '(out, w) ← sms_utf8_put out k (cap - 1 - k) ucs;
      if w =? 0 then Ok (out, SMS_E_OVERFLOW) else
      to_utf8_loop fuel septets n (i + 1) out (k + w) cap
  end.

Definition sms_gsm7_to_utf8 (septets : option mem) (n : Z) (out : option mem) (cap : Z) :
    res (option mem * Z) :=
  match septets, out with
  | Some septets, Some b =>
      if cap =? 0 then Ok (out, SMS_E_INVAL) else
      '(b, rc) ← to_utf8_loop (S (Z.to_nat n)) septets n 0 b 0 cap; Ok (Some b, rc)
  | _, _ => Ok (out, SMS_E_INVAL)
  end.

(** ** Septet packing *)

Definition sms_gsm7_septet_off (udh_len : Z) : Z := u64 (udh_len * 8 + 6) / 7.

Fixpoint pack_loop (n : nat) (septets : mem) (i septet_off : Z) (out : mem) (total : Z) :
    res (mem * Z) :=
  match n with
  | O => Ok (out, i32 total)
  | S n =>
      s ← rd septets i;
      if 127 <? s then Ok (out, SMS_E_INVAL) else
      let bit := (septet_off + i) * 7 in
      let o := bit / 8 in
      let sh := bit mod 8 in
      old ← rd out o;
      out ← wr out o (u8 (Z.lor (Z.land old (Z.shiftl 1 sh - 1)) (Z.shiftl s sh)));
      out ← (if 1 <? sh then wr out (o + 1) (u8 (Z.shiftr s (8 - sh))) else Ok out);
      pack_loop n septets (i + 1) septet_off out total
  end.

Definition sms_gsm7_pack (septets : option mem) (n septet_off : Z) (out : option mem) (cap : Z) :
    res (option mem * Z) :=
  match septets, out with
  | Some septets, Some b =>
      let total := u64 ((septet_off + n) * 7 + 7) / 8 in
      if cap <? total then Ok (out, SMS_E_OVERFLOW) else
      '(b, rc) ← pack_loop (Z.to_nat n) septets 0 septet_off b total; Ok (Some b, rc)
  | _, _ => Ok (out, SMS_E_INVAL)
  end.

Fixpoint unpack_loop (count : nat) (inp : mem) (i septet_off : Z) (out : mem) : res mem :=
  match count with
  | O => Ok out
  | S count =>
      let bit := (septet_off + i) * 7 in
      let o := bit / 8 in
      let sh := bit mod 8 in
      a ← rd inp o;
      let v := Z.shiftr a sh in
      v ← (if 1 <? sh then b ← rd inp (o + 1); Ok (Z.lor v (Z.shiftl b (8 - sh))) else Ok v);
      out ← wr out i (u8 (Z.land v 127));
      unpack_loop count inp (i + 1) septet_off out
  end.

Definition sms_gsm7_unpack (inp : option mem) (n septet_off count : Z) (out : option mem) (cap : Z) :
    res (option mem * Z) :=
  match out with
  | None => Ok (None, SMS_E_INVAL)
  | Some b =>
      if count =? 0 then Ok (out, 0) else
      match inp with
      | None => Ok (out, SMS_E_INVAL)
      | Some inp =>
          if cap <? count then Ok (out, SMS_E_OVERFLOW) else
          if u64 (n * 8) <? u64 ((septet_off + count) * 7) then Ok (out, SMS_E_LENGTH) else
          b ← unpack_loop (Z.to_nat count) inp 0 septet_off b; Ok (Some b, i32 count)
      end
  end.

(** ** User data header *)

Definition sms_udh_len (ud : option mem) (ud_len : Z) : res Z :=
  match ud with
  | None => Ok 0
  | Some ud =>
      if ud_len =? 0 then Ok 0 else
      udhl ← rd ud 0;
      if ud_len <? udhl + 1 then Ok 0 else Ok (udhl + 1)
  end.

Record sms_udh_iter := SmsUdhIter { u_p : option mem; u_end : Z; u_off : Z }.
(** [ie_data] is an offset into the user data, or NULL when the length is 0. *)
Record sms_udh_ie := SmsUdhIe { ie_iei : Z; ie_len : Z; ie_data : option Z }.

(** [it] says whether the iterator is given. *)
Definition sms_udh_begin (it : bool) (ud : option mem) (ud_len : Z) :
    res (option sms_udh_iter * bool) :=
  if negb it then Ok (None, false) else
  n ← sms_udh_len ud ud_len;
  Ok (Some {| u_p := ud; u_end := n; u_off := 1 |}, 1 <? n).

(** [None] is the return of [false]. *)
Definition sms_udh_next (it : option sms_udh_iter) (out : bool) :
    res (option (sms_udh_ie * sms_udh_iter)) :=
  match it, out with
  | Some it, true =>
      if u_end it <? u_off it + 2 then Ok None else
      iei ← rd (default [] (u_p it)) (u_off it);
      len ← rd (default [] (u_p it)) (u_off it + 1);
      if u_end it <? u_off it + 2 + len then Ok None else
      Ok (Some ({| ie_iei := iei; ie_len := len;
                   ie_data := if negb (len =? 0) then Some (u_off it + 2) else None |},
                {| u_p := u_p it; u_end := u_end it; u_off := u_off it + (2 + len) |}))
  | _, _ => Ok None
  end.

(** ** Concatenation *)

Record sms_concat := SmsConcat { c_ref : Z; c_total : Z; c_seq : Z; c_ref16 : bool }.

(** One unit of fuel per octet of the header; [None] is the return of [false]. *)
Fixpoint concat_loop (fuel : nat) (ud : mem) (it : sms_udh_iter) : res (option sms_concat) :=
  match fuel with
  | O => Ub
  | S fuel =>
      r ← sms_udh_next (Some it) true;
      match r with
      | None => Ok None
      | Some (ie, it) =>
          let d := default 0 (ie_data ie) in
          if (ie_iei ie =? SMS_UDH_CONCAT8) && (ie_len ie =? 3) then
            a ← rd ud d; b ← rd ud (d + 1); c ← rd ud (d + 2);
            Ok (Some {| c_ref := a; c_total := b; c_seq := c; c_ref16 := false |})
          else if (ie_iei ie =? SMS_UDH_CONCAT16) && (ie_len ie =? 4) then
            a ← rd ud d; b ← rd ud (d + 1); c ← rd ud (d + 2); e ← rd ud (d + 3);
            Ok (Some {| c_ref := u16 (Z.lor (Z.shiftl a 8) b); c_total := c; c_seq := e;
                        c_ref16 := true |})
          else concat_loop fuel ud it
      end
  end.

Definition sms_concat_get (ud : option mem) (ud_len : Z) (out : bool) : res (option sms_concat) :=
  if negb out then Ok None else
  '(it, ok) ← sms_udh_begin true ud ud_len;
  match it with
  | Some it => if negb ok then Ok None else concat_loop (S (Z.to_nat (u_end it))) (default [] ud) it
  | None => Ok None
  end.

Definition sms_concat_udh (out : option mem) (cap : Z) (c : option sms_concat) :
    res (option mem * Z) :=
  match out, c with
  | Some b, Some c =>
      if (c_total c =? 0) || (c_seq c =? 0) || (c_total c <? c_seq c) then Ok (out, SMS_E_INVAL) else
      if c_ref16 c then
        if cap <? 7 then Ok (out, SMS_E_OVERFLOW) else
        b ← wr b 0 6; b ← wr b 1 SMS_UDH_CONCAT16; b ← wr b 2 4;
        b ← wr b 3 (u8 (Z.shiftr (c_ref c) 8)); b ← wr b 4 (u8 (Z.land (c_ref c) 255));
        b ← wr b 5 (c_total c); b ← wr b 6 (c_seq c);
        Ok (Some b, 7)
      else
        if cap <? 6 then Ok (out, SMS_E_OVERFLOW) else
        b ← wr b 0 5; b ← wr b 1 SMS_UDH_CONCAT8; b ← wr b 2 3;
        b ← wr b 3 (u8 (Z.land (c_ref c) 255)); b ← wr b 4 (c_total c); b ← wr b 5 (c_seq c);
        Ok (Some b, 6)
  | _, _ => Ok (out, SMS_E_INVAL)
  end.

(** ** TP-UD to UTF-8 *)

(** The UTF-16 loop over the [n] octets at [p]; it assembles surrogate pairs. *)
Fixpoint ucs2_loop (fuel : nat) (ud : mem) (p n i : Z) (out : mem) (k cap : Z) : res (mem * Z) :=
  match fuel with
  | O => Ub
  | S fuel =>
      if negb (i + 1 <? n) then out ← wr out k 0; Ok (out, i32 k) else
      a ← rd ud (p + i); b ← rd ud (p + i + 1);
      let u := Z.lor (Z.shiftl a 8) b in
      '(u, i) ←
        (if (55296 <=? u) && (u <=? 56319) && (i + 3 <? n) then
           a ← rd ud (p + i + 2); b ← rd ud (p + i + 3);
           let lo := Z.lor (Z.shiftl a 8) b in
           if (56320 <=? lo) && (lo <=? 57343)
           then Ok (65536 + Z.shiftl (u - 55296) 10 + (lo - 56320), i + 2)
           else Ok (u, i)
         else Ok (u, i));
      let u := if (55296 <=? u) && (u <=? 57343) then 65533 else u in
      if cap <=? k + 1 then Ok (out, SMS_E_OVERFLOW) else
      '(out, w) ← sms_utf8_put out k (cap - 1 - k) u;
      if w =? 0 then Ok (out, SMS_E_OVERFLOW) else
      ucs2_loop fuel ud p n (i + 2) out (k + w) cap
  end.

(** [uint8_t sep[SMS_UD_MAX * 8 / 7 + 2]] *)
Definition SEP_LEN : Z := 162.

Definition sms_ud_to_utf8 (dcs : Z) (udhi : bool) (ud : option mem) (ud_len udl : Z)
    (out : option mem) (cap : Z) : res (option mem * Z) :=
  match out with
  | None => Ok (out, SMS_E_INVAL)
  | Some b =>
      if cap =? 0 then Ok (out, SMS_E_INVAL) else
      if negb (bool_decide (is_Some ud)) && negb (ud_len =? 0) then Ok (out, SMS_E_INVAL) else
      b ← wr b 0 0;
      udhl ← (if udhi then sms_udh_len ud ud_len else Ok 0);
      if udhi && (udhl =? 0) then Ok (Some b, SMS_E_LENGTH) else
      if udl =? 0 then Ok (Some b, 0) else
      let alpha := sms_dcs_alphabet dcs in
      if alpha =? SMS_ALPHA_GSM7 then
        let off := sms_gsm7_septet_off udhl in
        if udl <? off then Ok (Some b, SMS_E_LENGTH) else
        let count := udl - off in
        if SEP_LEN <? count then Ok (Some b, SMS_E_LENGTH) else
        '(sep, got) ← sms_gsm7_unpack ud ud_len off count (Some (uninit SEP_LEN)) SEP_LEN;
        if got <? 0 then Ok (Some b, got) else
        sms_gsm7_to_utf8 sep got (Some b) cap
      else if alpha =? SMS_ALPHA_UCS2 then
        if (ud_len <? udl) || (udl <? udhl) then Ok (Some b, SMS_E_LENGTH) else
        let n := udl - udhl in
        '(b, rc) ← ucs2_loop (S (Z.to_nat n)) (default [] ud) udhl n 0 b 0 cap; Ok (Some b, rc)
      else if alpha =? SMS_ALPHA_8BIT then
        if (ud_len <? udl) || (udl <? udhl) then Ok (Some b, SMS_E_LENGTH) else
        let n := udl - udhl in
        if cap <? n + 1 then Ok (Some b, SMS_E_OVERFLOW) else
        b ← (if negb (n =? 0) then bs ← rdn (default [] ud) udhl n; wrn b 0 bs else Ok b);
        b ← wr b n 0;
        Ok (Some b, i32 n)
      else Ok (Some b, SMS_E_ALPHABET)
  end.

(** ** TP-UD from UTF-8 *)

Fixpoint to_ucs2_loop (fuel : nat) (s : mem) (n i : Z) (out : mem) (k cap : Z) : res (mem * Z) :=
  match fuel with
  | O => Ub
  | S fuel =>
      if negb (i <? n) then Ok (out, i32 k) else
      r ← sms_utf8_next s n i;
      match r with
      | None => Ok (out, SMS_E_INVAL)
      | Some (u, i) =>
          if u <? 65536 then
            if cap <? k + 2 then Ok (out, SMS_E_OVERFLOW) else
            if SMS_UD_MAX <? k + 2 then Ok (out, SMS_E_LENGTH) else
            out ← wr out k (u8 (Z.shiftr u 8)); out ← wr out (k + 1) (u8 (Z.land u 255));
            to_ucs2_loop fuel s n i out (k + 2) cap
          else
            let v := u - 65536 in
            let hi := 55296 + Z.shiftr v 10 in
            let lo := 56320 + Z.land v 1023 in
            if cap <? k + 4 then Ok (out, SMS_E_OVERFLOW) else
            if SMS_UD_MAX <? k + 4 then Ok (out, SMS_E_LENGTH) else
            out ← wr out k (u8 (Z.shiftr hi 8)); out ← wr out (k + 1) (u8 (Z.land hi 255));
            out ← wr out (k + 2) (u8 (Z.shiftr lo 8)); out ← wr out (k + 3) (u8 (Z.land lo 255));
            to_ucs2_loop fuel s n i out (k + 4) cap
      end
  end.

(** What [sms_ud_from_utf8] leaves: the buffer, and on success the TP-UDL and the
    DCS it stores through its output parameters. *)
Record ud_out := UdOut { o_buf : mem; o_udl : Z; o_dcs : Z; o_rc : Z }.

Definition ud_fail (b : mem) (rc : Z) : ud_out := UdOut b 0 0 rc.

(** [udl] and [dcs] say whether the output parameters are given. *)
Definition sms_ud_from_utf8 (s : option mem) (n alphabet : Z) (udh : option mem) (udh_len : Z)
    (out : option mem) (cap : Z) (udl dcs : bool) : res ud_out :=
  match s, out, udl && dcs with
  | Some s', Some b, true =>
      bad ← (if negb (udh_len =? 0) then
               match udh with
               | None => Ok true
               | Some h => l ← rd h 0; Ok (negb (l + 1 =? udh_len))
               end
             else Ok false);
      if bad : bool then Ok (ud_fail b SMS_E_INVAL) else
      if SMS_UD_MAX <? udh_len then Ok (ud_fail b SMS_E_LENGTH) else
      alphabet ← (if alphabet =? SMS_ALPHA_AUTO then
                    septets ← sms_gsm7_septets s n;
                    Ok (if 0 <=? septets then SMS_ALPHA_GSM7 else SMS_ALPHA_UCS2)
                  else Ok alphabet);
      if negb (udh_len =? 0) && (cap <? udh_len) then Ok (ud_fail b SMS_E_OVERFLOW) else
      b ← (if negb (udh_len =? 0) then bs ← rdn (default [] udh) 0 udh_len; wrn b 0 bs else Ok b);
      if alphabet =? SMS_ALPHA_GSM7 then
        '(sep, ns) ← sms_gsm7_from_utf8 s n (Some (uninit SEP_LEN)) SEP_LEN;
        if ns =? SMS_E_OVERFLOW then Ok (ud_fail b SMS_E_LENGTH) else
        if ns <? 0 then Ok (ud_fail b ns) else
        let off := sms_gsm7_septet_off udh_len in
        let total := off + ns in
        if 255 <? total then Ok (ud_fail b SMS_E_LENGTH) else
        let octets := (total * 7 + 7) / 8 in
        if SMS_UD_MAX <? octets then Ok (ud_fail b SMS_E_LENGTH) else
        if cap <? octets then Ok (ud_fail b SMS_E_OVERFLOW) else
        b ← wrn b udh_len (zeros (octets - udh_len));
        '(b', rc) ← sms_gsm7_pack sep ns off (Some b) cap;
        let b := default [] b' in
        if rc <? 0 then Ok (ud_fail b rc) else
        Ok {| o_buf := b; o_udl := u8 total; o_dcs := sms_dcs_make SMS_ALPHA_GSM7 (-1); o_rc := rc |}
      else if alphabet =? SMS_ALPHA_UCS2 then
        '(b, k) ← to_ucs2_loop (S (Z.to_nat n)) s' n 0 b udh_len cap;
        if k <? 0 then Ok (ud_fail b k) else
        Ok {| o_buf := b; o_udl := u8 k; o_dcs := sms_dcs_make SMS_ALPHA_UCS2 (-1); o_rc := k |}
      else if alphabet =? SMS_ALPHA_8BIT then
        if SMS_UD_MAX <? u64 (udh_len + n) then Ok (ud_fail b SMS_E_LENGTH) else
        if cap <? u64 (udh_len + n) then Ok (ud_fail b SMS_E_OVERFLOW) else
        bs ← rdn s' 0 n;
        b ← wrn b udh_len bs;
        Ok {| o_buf := b; o_udl := u8 (udh_len + n); o_dcs := sms_dcs_make SMS_ALPHA_8BIT (-1);
              o_rc := i32 (udh_len + n) |}
      else Ok (ud_fail b SMS_E_ALPHABET)
  | _, _, _ => Ok (ud_fail (default [] out) SMS_E_INVAL)
  end.

(** ** Splitting *)

(** The loop of [split_at]: the offset behind the last character that fits the
    budget and the units used; a negative code on an error. *)
Fixpoint split_loop (fuel : nat) (s : mem) (n i used alphabet budget : Z) : res (Z * Z) :=
  match fuel with
  | O => Ub
  | S fuel =>
      if negb (i <? n) then Ok ((if 0 <? used then SMS_OK else SMS_E_LENGTH), i) else
      r ← sms_utf8_next s n i;
      match r with
      | None => Ok (SMS_E_INVAL, i)
      | Some (cp, j) =>
          let w :=
            if alphabet =? SMS_ALPHA_GSM7 then
              let g := sms_gsm7_from_ucs cp in
              if g <? 0 then -1 else if negb (Z.land g 6912 =? 0) then 2 else 1
            else if cp <? 65536 then 2 else 4 in
          if w <? 0 then Ok (SMS_E_ALPHABET, i) else
          if budget <? used + w then Ok ((if 0 <? used then SMS_OK else SMS_E_LENGTH), i) else
          split_loop fuel s n j (used + w) alphabet budget
      end
  end.

(** The return code, and the end of the part. *)
Definition split_at (s : mem) (n from alphabet budget : Z) : res (Z * Z) :=
  if alphabet =? SMS_ALPHA_8BIT then
    let take := if n - from <? budget then n - from else budget in
    Ok ((if 0 <? take then SMS_OK else SMS_E_LENGTH), from + take)
  else split_loop (S (Z.to_nat (n - from))) s n from 0 alphabet budget.

Fixpoint units_loop (fuel : nat) (s : mem) (n i k : Z) : res Z :=
  match fuel with
  | O => Ub
  | S fuel =>
      if negb (i <? n) then Ok (if 2147483647 <? k then SMS_E_LENGTH else i32 k) else
      r ← sms_utf8_next s n i;
      match r with
      | None => Ok SMS_E_INVAL
      | Some (cp, i) => units_loop fuel s n i (k + (if cp <? 65536 then 2 else 4))
      end
  end.

Definition wire_units (s : mem) (n alphabet : Z) : res Z :=
  if alphabet =? SMS_ALPHA_GSM7 then sms_gsm7_septets (Some s) n else
  if alphabet =? SMS_ALPHA_8BIT then Ok (if 2147483647 <? n then SMS_E_LENGTH else i32 n) else
  units_loop (S (Z.to_nat n)) s n 0 0.

Record sms_part := SmsPart {
  pt_ud : mem; pt_ud_len : Z; pt_udl : Z; pt_dcs : Z; pt_seq : Z; pt_total : Z }.

(** Fills one element of the caller's array. *)
Definition set_part (parts : list sms_part) (i : Z) (p : sms_part) : res (list sms_part) :=
  if (0 <=? i) && (i <? Z.of_nat (length parts)) then Ok (<[Z.to_nat i := p]> parts) else Ub.

(** An element cleared and handed to the encoder, and as it is left. *)
Definition part_raw (o : ud_out) : sms_part :=
  {| pt_ud := o_buf o; pt_ud_len := 0; pt_udl := o_udl o; pt_dcs := o_dcs o; pt_seq := 0;
     pt_total := 0 |}.
Definition part_of (o : ud_out) (seq total : Z) : sms_part :=
  {| pt_ud := o_buf o; pt_ud_len := u8 (o_rc o); pt_udl := o_udl o; pt_dcs := o_dcs o;
     pt_seq := seq; pt_total := total |}.

(** The counting loop: each part takes at least one octet of the text. *)
Fixpoint count_loop (fuel : nat) (s : mem) (n i alphabet budget count max : Z) : res Z :=
  match fuel with
  | O => Ub
  | S fuel =>
      if negb (i <? n) then Ok count else
      '(rc, e) ← split_at s n i alphabet budget;
      if rc <? 0 then Ok rc else
      let count := count + 1 in
      if (max <? count) || (255 <? count) then Ok SMS_E_LENGTH else
      count_loop fuel s n e alphabet budget count max
  end.

(** The building loop, from part [part] on. *)
Fixpoint parts_loop (todo : nat) (s : mem) (n i alphabet budget ref : Z) (ref16 : bool)
    (part count : Z) (parts : list sms_part) : res (list sms_part * Z) :=
  match todo with
  | O => Ok (parts, count)
  | S todo =>
      '(rc, e) ← split_at s n i alphabet budget;
      if rc <? 0 then Ok (parts, rc) else
      '(udh, h) ← sms_concat_udh (Some (uninit 7)) 7
                    (Some {| c_ref := ref; c_total := u8 count; c_seq := u8 part; c_ref16 := ref16 |});
      if h <? 0 then Ok (parts, h) else
      t ← rdn s i (e - i);
      o ← sms_ud_from_utf8 (Some t) (e - i) alphabet udh h (Some (zeros SMS_UD_MAX)) SMS_UD_MAX
            true true;
      parts ← set_part parts (part - 1) (part_raw o);
      if o_rc o <? 0 then Ok (parts, o_rc o) else
      parts ← set_part parts (part - 1) (part_of o (u8 part) (u8 count));
      parts_loop todo s n e alphabet budget ref ref16 (part + 1) count parts
  end.

Definition sms_concat_split (s : option mem) (n alphabet ref : Z) (ref16 : bool)
    (parts : option (list sms_part)) (max : Z) : res (option (list sms_part) * Z) :=
  match s, parts with
  | Some s', Some ps =>
      if max <=? 0 then Ok (parts, SMS_E_INVAL) else
      alphabet ← (if alphabet =? SMS_ALPHA_AUTO then
                    septets ← sms_gsm7_septets s n;
                    Ok (if 0 <=? septets then SMS_ALPHA_GSM7 else SMS_ALPHA_UCS2)
                  else Ok alphabet);
      if negb (alphabet =? SMS_ALPHA_GSM7) && negb (alphabet =? SMS_ALPHA_UCS2) &&
         negb (alphabet =? SMS_ALPHA_8BIT) then Ok (parts, SMS_E_ALPHABET) else
      units ← wire_units s' n alphabet;
      if units <? 0 then Ok (parts, units) else
      let one_octets := if alphabet =? SMS_ALPHA_GSM7 then (units * 7 + 7) / 8 else units in
      if one_octets <=? SMS_UD_MAX then
        o ← sms_ud_from_utf8 s n alphabet None 0 (Some (zeros SMS_UD_MAX)) SMS_UD_MAX true true;
        ps ← set_part ps 0 (part_raw o);
        if o_rc o <? 0 then Ok (Some ps, o_rc o) else
        ps ← set_part ps 0 (part_of o 1 1);
        Ok (Some ps, 1)
      else
        let udh_len := if ref16 then 7 else 6 in
        let budget := if alphabet =? SMS_ALPHA_GSM7
                      then SMS_UD_MAX * 8 / 7 - sms_gsm7_septet_off udh_len
                      else SMS_UD_MAX - udh_len in
        count ← count_loop (S (Z.to_nat n)) s' n 0 alphabet budget 0 max;
        if count <? 0 then Ok (parts, count) else
        '(ps, rc) ← parts_loop (Z.to_nat count) s' n 0 alphabet budget ref ref16 1 count ps;
        Ok (Some ps, rc)
  | _, _ => Ok (parts, SMS_E_INVAL)
  end.

(** ** Packing as a stream of bits *)

(** Bit [j] of a buffer, least significant first. *)
Definition mbit (m : mem) (j : Z) : bool := Z.testbit (get m (j / 8)) (j mod 8).

Lemma mget_insert m i v j : 0 <= i < mlen m → 0 <= j →
  get (<[Z.to_nat i := v]> m) j = if j =? i then v else get m j.
Proof.
  intros Hi Hj. unfold get, mlen in *. rewrite !nth_lookup.
  destruct (Z.eqb_spec j i) as [->|Hne].
  - by rewrite list_lookup_insert_eq by lia.
  - rewrite list_lookup_insert_ne by lia. done.
Qed.

Lemma wr_Ok m i v : 0 <= i < mlen m → wr m i v = Ok (<[Z.to_nat i := v]> m).
Proof. intros. unfold wr. destruct (Z.leb_spec 0 i), (Z.ltb_spec i (mlen m)); done || lia. Qed.
Lemma mlen_insert m (i : nat) v : mlen (<[i := v]> m) = mlen m.
Proof. unfold mlen. by rewrite length_insert. Qed.
Lemma bytes_ok_insert m (i : nat) v : bytes_ok m → 0 <= v < 256 → bytes_ok (<[i := v]> m).
Proof. intros. by apply Forall_insert. Qed.

(** Bits past the width of a value are clear. *)
Lemma bits_above x k t : 0 <= k <= t → 0 <= x < 2 ^ k → Z.testbit x t = false.
Proof.
  intros Hk Hx. rewrite Z.testbit_false by lia. pose proof (Z.pow_le_mono_r 2 k t).
  by rewrite Z.div_small by lia.
Qed.
Lemma octet_high b t : 0 <= b < 256 → 8 <= t → Z.testbit b t = false.
Proof. intros. apply (bits_above b 8); [lia|done]. Qed.
Lemma u8_bit x t : 0 <= t < 8 → Z.testbit (u8 x) t = Z.testbit x t.
Proof. intros. unfold u8. change 256 with (2 ^ 8). by rewrite Z.mod_pow2_bits_low by lia. Qed.

(** A value of seven bits is determined by them. *)
Lemma septet_ext x y : 0 <= x < 128 → 0 <= y < 128 →
  (∀ t, 0 <= t < 7 → Z.testbit x t = Z.testbit y t) → x = y.
Proof.
  intros Hx Hy H. apply Z.bits_inj'. intros t Ht. destruct (Z.lt_ge_cases t 7); [by apply H|].
  by rewrite !(bits_above _ 7) by (done || lia).
Qed.

(** The septet the unpacker assembles at position [q]. *)
Definition septet_at (m : mem) (q : Z) : Z :=
  let bit := q * 7 in
  let v := Z.shiftr (get m (bit / 8)) (bit mod 8) in
  u8 (Z.land (if 1 <? bit mod 8 then Z.lor v (Z.shiftl (get m (bit / 8 + 1)) (8 - bit mod 8)) else v)
        127).

Lemma septet_at_bits m q t : bytes_ok m → 0 <= q → 0 <= t < 7 →
  Z.testbit (septet_at m q) t = mbit m (q * 7 + t).
Proof.
  intros Hm Hq Ht. unfold septet_at, mbit. set (sh := q * 7 mod 8). set (o := q * 7 / 8).
  assert (q * 7 = 8 * o + sh ∧ 0 <= sh < 8) as [E Hs].
  { unfold o, sh. Z.to_euclidean_division_equations; lia. }
  rewrite u8_bit, Z.land_spec by lia.
  assert (Z.testbit 127 t = true) as ->.
  { change 127 with (Z.ones 7). apply Z.ones_spec_low. lia. }
  rewrite andb_true_r, E. destruct (Z.lt_ge_cases (sh + t) 8).
  - replace ((8 * o + sh + t) / 8) with o by (Z.to_euclidean_division_equations; lia).
    replace ((8 * o + sh + t) mod 8) with (t + sh) by (Z.to_euclidean_division_equations; lia).
    destruct (Z.ltb_spec 1 sh); rewrite ?Z.lor_spec, Z.shiftr_spec by lia; [|done].
    rewrite Z.shiftl_spec, (Z.testbit_neg_r (get m (o + 1))), orb_false_r by lia. done.
  - replace ((8 * o + sh + t) / 8) with (o + 1) by (Z.to_euclidean_division_equations; lia).
    replace ((8 * o + sh + t) mod 8) with (t + sh - 8) by (Z.to_euclidean_division_equations; lia).
    destruct (Z.ltb_spec 1 sh); [|lia]. rewrite Z.lor_spec, Z.shiftr_spec, Z.shiftl_spec by lia.
    rewrite octet_high by (lia || by apply get_range). cbn [orb]. f_equal. lia.
Qed.

Lemma septet_at_range m q : 0 <= septet_at m q < 128.
Proof.
  unfold septet_at. rewrite (land_low _ 7) by done. change (2 ^ 7) with 128.
  match goal with |- context [?x mod 128] => pose proof (Z.mod_pos_bound x 128 ltac:(lia)) end.
  rewrite u8_small; lia.
Qed.

(** Putting the septet [s] at position [q]. *)
Definition put_septet (m : mem) (q s : Z) : mem :=
  let o := q * 7 / 8 in
  let sh := q * 7 mod 8 in
  let m := <[Z.to_nat o := u8 (Z.lor (Z.land (get m o) (Z.shiftl 1 sh - 1)) (Z.shiftl s sh))]> m in
  if 1 <? sh then <[Z.to_nat (o + 1) := u8 (Z.shiftr s (8 - sh))]> m else m.

Lemma put_septet_bits m q s j : bytes_ok m → 0 <= q → 0 <= s < 128 → 0 <= j < q * 7 + 7 →
  q * 7 + 7 <= 8 * mlen m →
  mbit (put_septet m q s) j = if j <? q * 7 then mbit m j else Z.testbit s (j - q * 7).
Proof.
  intros Hm Hq Hs Hj Hl. unfold put_septet, mbit. set (sh := q * 7 mod 8). set (o := q * 7 / 8).
  assert (q * 7 = 8 * o + sh ∧ 0 <= sh < 8) as [E Hsh].
  { unfold o, sh. Z.to_euclidean_division_equations; lia. }
  assert (j = 8 * (j / 8) + j mod 8 ∧ 0 <= j mod 8 < 8 ∧ 0 <= j / 8) as (Ej & Hjm & Hjd).
  { Z.to_euclidean_division_equations; lia. }
  assert (0 <= o < mlen m) by (Z.to_euclidean_division_equations; lia).
  set (x := u8 (Z.lor (Z.land (get m o) (Z.shiftl 1 sh - 1)) (Z.shiftl s sh))).
  assert (∀ t, 0 <= t < 8 →
    Z.testbit x t = if t <? sh then Z.testbit (get m o) t else Z.testbit s (t - sh)) as Hx.
  { intros t Ht. unfold x. rewrite u8_bit, Z.lor_spec, Z.land_spec, Z.shiftl_spec by lia.
    replace (Z.shiftl 1 sh - 1) with (Z.ones sh) by (unfold Z.ones; lia).
    destruct (Z.ltb_spec t sh).
    - rewrite Z.ones_spec_low, (Z.testbit_neg_r s), andb_true_r, orb_false_r by lia. done.
    - rewrite Z.ones_spec_high, andb_false_r by lia. done. }
  assert (get (if 1 <? sh then <[Z.to_nat (o + 1):=u8 (Z.shiftr s (8 - sh))]> (<[Z.to_nat o:=x]> m)
               else <[Z.to_nat o:=x]> m) (j / 8) =
    if (1 <? sh) && (j / 8 =? o + 1) then u8 (Z.shiftr s (8 - sh)) else
    if j / 8 =? o then x else get m (j / 8)) as ->.
  { destruct (Z.ltb_spec 1 sh); cbn [andb]; rewrite ?mget_insert by (rewrite ?mlen_insert; lia); done. }
  destruct (Z.ltb_spec 1 sh), (Z.eqb_spec (j / 8) (o + 1)), (Z.eqb_spec (j / 8) o),
    (Z.ltb_spec j (q * 7)); cbn [andb]; try lia; try done.
  - rewrite u8_bit, Z.shiftr_spec by lia. f_equal. lia.
  - rewrite Hx by lia. destruct (Z.ltb_spec (j mod 8) sh); [congruence|lia].
  - rewrite Hx by lia. destruct (Z.ltb_spec (j mod 8) sh); [lia|]. f_equal. lia.
  - rewrite Hx by lia. destruct (Z.ltb_spec (j mod 8) sh); [congruence|lia].
  - rewrite Hx by lia. destruct (Z.ltb_spec (j mod 8) sh); [lia|]. f_equal. lia.
Qed.

Lemma put_septet_ok m q s : bytes_ok m → bytes_ok (put_septet m q s).
Proof.
  intros. unfold put_septet. destruct (1 <? _); repeat apply bytes_ok_insert; auto using u8_range.
Qed.
Lemma mlen_put_septet m q s : mlen (put_septet m q s) = mlen m.
Proof. unfold put_septet. destruct (1 <? _); by rewrite !mlen_insert. Qed.

(** Octets past the septet's last bit are not touched. *)
Lemma put_septet_beyond m q s i : 0 <= q → q * 7 + 7 <= 8 * i → q * 7 + 7 <= 8 * mlen m →
  get (put_septet m q s) i = get m i.
Proof.
  intros Hq Hi Hl. unfold put_septet. set (sh := q * 7 mod 8). set (o := q * 7 / 8).
  assert (q * 7 = 8 * o + sh ∧ 0 <= sh < 8) as [E Hs].
  { unfold o, sh. Z.to_euclidean_division_equations; lia. }
  destruct (Z.ltb_spec 1 sh); rewrite ?mget_insert by (rewrite ?mlen_insert; lia);
    repeat match goal with |- context [?a =? ?b] => destruct (Z.eqb_spec a b); [lia|] end; done.
Qed.

(** The packing loop puts the septets one after the other. *)
Fixpoint put_septets (m : mem) (q : Z) (ss : list Z) : mem :=
  match ss with [] => m | s :: ss => put_septets (put_septet m q s) (q + 1) ss end.

Lemma put_septets_ok ss : ∀ m q, bytes_ok m → bytes_ok (put_septets m q ss).
Proof. induction ss as [|s ss IH]; intros; cbn; [done|]. by apply IH, put_septet_ok. Qed.
Lemma mlen_put_septets ss : ∀ m q, mlen (put_septets m q ss) = mlen m.
Proof. induction ss as [|s ss IH]; intros; cbn; [done|]. by rewrite IH, mlen_put_septet. Qed.

Lemma put_septets_bits ss : ∀ m q j, bytes_ok m → 0 <= q → Forall (λ s, 0 <= s < 128) ss →
  (q + mlen ss) * 7 <= 8 * mlen m → 0 <= j < (q + mlen ss) * 7 →
  mbit (put_septets m q ss) j =
    if j <? q * 7 then mbit m j else Z.testbit (get ss (j / 7 - q)) (j mod 7).
Proof.
  induction ss as [|s ss IH]; intros m q j Hm Hq Hss Hl Hj.
  { rewrite mlen_nil in Hj. cbn. destruct (Z.ltb_spec j (q * 7)); [done|lia]. }
  apply Forall_cons_iff in Hss as [Hs Hss]. rewrite mlen_cons in *. pose proof (mlen_nonneg ss).
  cbn [put_septets]. rewrite IH by (rewrite ?mlen_put_septet; auto using put_septet_ok; lia).
  destruct (Z.ltb_spec j ((q + 1) * 7)).
  - rewrite put_septet_bits by (done || lia). destruct (Z.ltb_spec j (q * 7)); [done|].
    replace (j / 7 - q) with 0 by (Z.to_euclidean_division_equations; lia). cbn. f_equal.
    Z.to_euclidean_division_equations; lia.
  - destruct (Z.ltb_spec j (q * 7)); [lia|]. f_equal.
    replace (j / 7 - q) with (1 + (j / 7 - (q + 1))) by lia.
    assert (0 <= j / 7 - (q + 1)) by (Z.to_euclidean_division_equations; lia).
    change (s :: ss) with ([s] ++ ss). symmetry. apply (get_app_r [s] ss). done.
Qed.

Lemma put_septets_beyond ss : ∀ m q i, 0 <= q → (q + mlen ss) * 7 <= 8 * i →
  (q + mlen ss) * 7 <= 8 * mlen m → get (put_septets m q ss) i = get m i.
Proof.
  induction ss as [|s ss IH]; intros m q i Hq Hi Hl; [done|]. rewrite mlen_cons in *.
  pose proof (mlen_nonneg ss). cbn [put_septets].
  rewrite IH by (rewrite ?mlen_put_septet; lia). by apply put_septet_beyond; lia.
Qed.

Lemma pack_loop_puts ss post : ∀ pre off m total n, n = length ss →
  Forall (λ s, 0 <= s < 128) ss →
  bytes_ok m → 0 <= off → (off + mlen pre + mlen ss) * 7 <= 8 * mlen m →
  pack_loop n (pre ++ ss ++ post) (mlen pre) off m total =
    Ok (put_septets m (off + mlen pre) ss, i32 total).
Proof.
  induction ss as [|s ss IH]; intros pre off m total n -> Hss Hm Ho Hl; [done|].
  apply Forall_cons_iff in Hss as [Hs Hss]. rewrite mlen_cons in *.
  pose proof (mlen_nonneg pre). pose proof (mlen_nonneg ss). cbn [length pack_loop put_septets].
  pose proof (mlen_nonneg post). cbn [app].
  rewrite (rd_Ok (pre ++ s :: ss ++ post)) by mlia. bstep.
  assert (get (pre ++ s :: ss ++ post) (mlen pre) = s) as ->.
  { rewrite get_app_ge, Z.sub_diag by lia. done. }
  destruct (Z.ltb_spec 127 s); [lia|]. set (q := off + mlen pre).
  assert (0 <= q * 7 / 8 < mlen m) by (unfold q; Z.to_euclidean_division_equations; lia).
  rewrite (rd_Ok m) by done. bstep. rewrite (wr_Ok m) by done. bstep.
  assert ((if 1 <? q * 7 mod 8 then
      wr (<[Z.to_nat (q * 7 / 8) := u8 (Z.lor (Z.land (get m (q * 7 / 8)) (Z.shiftl 1 (q * 7 mod 8) - 1))
        (Z.shiftl s (q * 7 mod 8)))]> m) (q * 7 / 8 + 1) (u8 (Z.shiftr s (8 - q * 7 mod 8)))
    else Ok (<[Z.to_nat (q * 7 / 8) := u8 (Z.lor (Z.land (get m (q * 7 / 8)) (Z.shiftl 1 (q * 7 mod 8) - 1))
        (Z.shiftl s (q * 7 mod 8)))]> m)) = Ok (put_septet m q s)) as ->.
  { unfold put_septet. destruct (Z.ltb_spec 1 (q * 7 mod 8)); [|done].
    apply wr_Ok. rewrite mlen_insert. unfold q in *. Z.to_euclidean_division_equations; lia. }
  bstep. specialize (IH (pre ++ [s]) off (put_septet m q s) total (length ss) eq_refl Hss
    (put_septet_ok _ _ _ Hm) Ho). rewrite <-app_assoc in IH. cbn [app] in IH.
  rewrite mlen_app, mlen_put_septet in IH. change (mlen [s]) with 1 in IH.
  rewrite IH by lia. do 3 f_equal. unfold q. lia.
Qed.

(** The unpacking loop reads them. *)
Definition septets_at (m : mem) (q : Z) (n : nat) : list Z :=
  map (λ k, septet_at m (q + Z.of_nat k)) (seq 0 n).

Lemma septets_at_S m q n : septets_at m q (S n) = septet_at m q :: septets_at m (q + 1) n.
Proof.
  unfold septets_at. cbn [seq map]. rewrite Z.add_0_r. f_equal.
  rewrite <-seq_shift, map_map. apply map_ext. intros. f_equal. lia.
Qed.
Lemma length_septets_at m q n : length (septets_at m q n) = n.
Proof. unfold septets_at. by rewrite length_map, length_seq. Qed.

Lemma unpack_loop_reads n : ∀ inp i off out, 0 <= off → 0 <= i →
  (off + i + Z.of_nat n) * 7 <= 8 * mlen inp → i + Z.of_nat n <= mlen out →
  unpack_loop n inp i off out = Ok (splice out i (septets_at inp (off + i) n)).
Proof.
  induction n as [|n IH]; intros inp i off out Ho Hi Hl Hc; [by rewrite splice_nil|].
  cbn [unpack_loop]. set (q := off + i).
  assert (0 <= q * 7 / 8 < mlen inp) by (unfold q; Z.to_euclidean_division_equations; lia).
  rewrite (rd_Ok inp (q * 7 / 8)) by done. bstep.
  assert ((if 1 <? q * 7 mod 8 then
      b ← rd inp (q * 7 / 8 + 1);
      Ok (Z.lor (Z.shiftr (get inp (q * 7 / 8)) (q * 7 mod 8)) (Z.shiftl b (8 - q * 7 mod 8)))
    else Ok (Z.shiftr (get inp (q * 7 / 8)) (q * 7 mod 8))) =
    Ok (if 1 <? q * 7 mod 8 then
      Z.lor (Z.shiftr (get inp (q * 7 / 8)) (q * 7 mod 8))
        (Z.shiftl (get inp (q * 7 / 8 + 1)) (8 - q * 7 mod 8))
      else Z.shiftr (get inp (q * 7 / 8)) (q * 7 mod 8))) as ->.
  { destruct (Z.ltb_spec 1 (q * 7 mod 8)); [|done]. rewrite rd_Ok; [done|].
    unfold q in *. Z.to_euclidean_division_equations; lia. }
  bstep. fold (septet_at inp q). rewrite wr_wrn, wrn_Ok by mlia. bstep.
  rewrite IH by mlia. f_equal. rewrite septets_at_S.
  replace (off + (i + 1)) with (q + 1) by (unfold q; lia).
  refine (splice_app out i [_] (septets_at inp (q + 1) n) _ _); mlia.
Qed.

Lemma septets_back ss : ∀ m q, bytes_ok m → 0 <= q → Forall (λ s, 0 <= s < 128) ss →
  (q + mlen ss) * 7 <= 8 * mlen m → septets_at (put_septets m q ss) q (length ss) = ss.
Proof.
  intros m q Hm Hq Hss Hl. apply list_eq_same_length with (n := length ss);
    [done|by rewrite length_septets_at|].
  intros k x y Hk Hx Hy. unfold septets_at in Hx. rewrite list_lookup_fmap in Hx.
  rewrite lookup_seq_lt in Hx by lia. simplify_eq/=.
  assert (get ss (Z.of_nat k) = y) as Hg.
  { unfold get. rewrite Nat2Z.id. by apply nth_lookup_Some. }
  assert (Z.of_nat k < mlen ss) by (unfold mlen; lia).
  apply septet_ext; [apply septet_at_range|exact (Forall_lookup_1 _ _ _ _ Hss Hy)|].
  intros t Ht. rewrite septet_at_bits by (auto using put_septets_ok; lia).
  rewrite put_septets_bits by (done || lia).
  destruct (Z.ltb_spec ((q + Z.of_nat k) * 7 + t) (q * 7)); [lia|].
  replace (((q + Z.of_nat k) * 7 + t) / 7 - q) with (Z.of_nat k)
    by (Z.to_euclidean_division_equations; lia).
  rewrite Hg. f_equal. Z.to_euclidean_division_equations; lia.
Qed.

(** Packing septets and unpacking them gives them back, at every alignment:
    [n] septets packed from septet position [off] of a buffer occupy the announced
    number of octets, the bits below that position (a header and its fill bits)
    and the octets behind the run are left as they were, and unpacking [n] septets
    from the same position yields the septets. *)
Theorem sms_gsm7_pack_unpack ss off b cap out :
  Forall (λ s, 0 <= s < 128) ss → bytes_ok b → 0 <= off → 0 <= cap <= mlen b →
  ((off + mlen ss) * 7 + 7) / 8 <= cap → cap < 268435456 → mlen ss <= mlen out →
  let n := mlen ss in
  let total := ((off + n) * 7 + 7) / 8 in
  ∃ b', sms_gsm7_pack (Some ss) n off (Some b) cap = Ok (Some b', total) ∧
    mlen b' = mlen b ∧ (∀ j, 0 <= j < off * 7 → mbit b' j = mbit b j) ∧
    (∀ i, total <= i → get b' i = get b i) ∧
    sms_gsm7_unpack (Some b') total off n (Some out) n = Ok (Some (splice out 0 ss), n).
Proof.
  intros Hss Hb Ho Hc Ht Hcap Hout n total. pose proof (mlen_nonneg ss) as Hn. fold n in Hn.
  assert (8 * total >= (off + n) * 7 ∧ (off + n) * 7 < 2147483648 ∧ 0 <= total <= cap) as (Ht8 & Hsm & Htc).
  { unfold total, n in *. Z.to_euclidean_division_equations; lia. }
  exists (put_septets b off ss). split_and!.
  - unfold sms_gsm7_pack. rewrite u64_small by lia. fold total.
    destruct (Z.ltb_spec cap total); [lia|].
    pose proof (pack_loop_puts ss [] [] off b total (Z.to_nat n)) as Hp.
    rewrite mlen_nil, Z.add_0_r, app_nil_r in Hp. cbn [app] in Hp. rewrite Hp by (done || unfold n, mlen in *; lia). bstep.
    by rewrite i32_small by lia.
  - by rewrite mlen_put_septets.
  - intros j Hj. rewrite put_septets_bits by (done || lia).
    destruct (Z.ltb_spec j (off * 7)); [done|lia].
  - intros i Hi. apply put_septets_beyond; fold n; lia.
  - unfold sms_gsm7_unpack. destruct (Z.eqb_spec n 0) as [E|E].
    { destruct ss; [by rewrite splice_nil, E|]. unfold n in E. rewrite mlen_cons in E.
      pose proof (mlen_nonneg ss). lia. }
    destruct (Z.ltb_spec n n); [lia|]. rewrite !u64_small by lia.
    destruct (Z.ltb_spec (total * 8) ((off + n) * 7)); [lia|].
    rewrite unpack_loop_reads by (rewrite ?mlen_put_septets; lia). bstep.
    rewrite Z.add_0_r, i32_small by lia. unfold n at 1, mlen at 1. rewrite Nat2Z.id.
    rewrite septets_back by (done || fold n; lia). done.
Qed.

Lemma sms_gsm7_pack_unpack_witness :
  ∃ b', sms_gsm7_pack (Some [104; 27; 101; 127; 0; 111; 33; 64]) 8 7 (Some (5 :: zeros 19)) 16 =
      Ok (Some b', 14) ∧
    sms_gsm7_unpack (Some b') 14 7 8 (Some (zeros 10)) 8 =
      Ok (Some [104; 27; 101; 127; 0; 111; 33; 64; 0; 0], 8).
Proof.
  assert (Forall (λ s, 0 <= s < 128) [104; 27; 101; 127; 0; 111; 33; 64]) as Hs
    by (repeat constructor; lia).
  destruct (sms_gsm7_pack_unpack [104; 27; 101; 127; 0; 111; 33; 64] 7 (5 :: zeros 19) 16 (zeros 10) Hs
    ltac:(apply bytes_ok_cons; split; [lia|apply bytes_ok_zeros]) ltac:(lia) ltac:(by vm_compute)
    ltac:(by vm_compute) ltac:(lia) ltac:(by vm_compute)) as (b' & H1 & _ & _ & _ & H2).
  exists b'. split; [exact H1|exact H2].
Defined.
