(* ===== verification/SmsText.v ===== *)
(** * SmsText: what a text becomes as user data, and back

    Specification of the text coding of [sms/src/sms_ud.c] (modelled in SmsUd): the
    septets and UTF-16 octets of a text, and the proof that encoding and decoding
    user data agree with them. *)

From S2P Require Import Prelude Endian SmsIntl SmsUd.

(** The UTF-8 octets of a text. *)
Definition text (cs : list Z) : list Z := concat (map utf8_bytes cs).

(** *** The alphabet is a bijection on the characters it has *)

Definition gsm_char (c : Z) : bool := 0 <=? sms_gsm7_from_ucs c.
Definition gsm_septets (c : Z) : list Z :=
  let g := sms_gsm7_from_ucs c in
  if negb (Z.land g 6912 =? 0) then [27; Z.land g 127] else [g].
Definition gsm_text (cs : list Z) : list Z := concat (map gsm_septets cs).

Lemma basic_find_spec tab ucs : ∀ i j, basic_find tab i ucs = Some j →
  i <= j < i + mlen tab ∧ j ≠ 27 ∧ get tab (j - i) = ucs.
Proof.
  induction tab as [|x tab IH]; intros i j H; [done|]. cbn [basic_find] in H. rewrite mlen_cons.
  pose proof (mlen_nonneg tab).
  assert (∀ k, basic_find tab (i + 1) ucs = Some k →
    i <= k < i + (1 + mlen tab) ∧ k ≠ 27 ∧ get (x :: tab) (k - i) = ucs) as Hrec.
  { intros k Hk. destruct (IH _ _ Hk) as (? & ? & E). split_and!; try lia.
    replace (k - i) with (1 + (k - (i + 1))) by lia.
    rewrite <-E. apply (get_app_r [x] tab). lia. }
  destruct (Z.eqb_spec i 27); [by apply Hrec|]. destruct (Z.eqb_spec x ucs); [|by apply Hrec].
  simplify_eq. split_and!; try lia. by rewrite Z.sub_diag.
Qed.

Lemma ext_find_in tab ucs x : ext_find tab ucs = Some x → (x, ucs) ∈ tab.
Proof.
  induction tab as [|[y u] tab IH]; [done|]. cbn [ext_find].
  destruct (Z.eqb_spec u ucs); [intros [= ->]; subst; left|]. intros H. right. by apply IH.
Qed.

Definition ext_row_ok (r : Z * Z) : Prop :=
  ext_to_ucs r.1 = r.2 ∧ 0 <= r.1 < 128 ∧ 0 <= r.2 ∧ Z.land (Z.lor 6912 r.1) 127 = r.1 ∧
  Z.land (Z.lor 6912 r.1) 6912 ≠ 0 ∧ 0 <= Z.lor 6912 r.1.

Lemma ext_rows_ok : Forall ext_row_ok gsm7_ext.
Proof. unfold gsm7_ext. repeat constructor; done. Qed.

Lemma mlen_basic : mlen gsm7_basic = 128.
Proof. done. Qed.

Lemma land_septet g : 0 <= g < 128 → Z.land g 6912 = 0.
Proof.
  intros Hg. replace g with (Z.land g 127).
  - by rewrite <-Z.land_assoc, Z.land_0_r.
  - change 127 with (Z.ones 7). rewrite Z.land_ones by lia. by apply Z.mod_small.
Qed.

Lemma from_ucs_cases c :
  (∃ g, basic_find gsm7_basic 0 c = Some g ∧ sms_gsm7_from_ucs c = g) ∨
  (∃ x, ext_find gsm7_ext c = Some x ∧ sms_gsm7_from_ucs c = Z.lor 6912 x) ∨
  sms_gsm7_from_ucs c = -1.
Proof.
  unfold sms_gsm7_from_ucs. generalize (basic_find gsm7_basic 0 c) (ext_find gsm7_ext c).
  intros [g|] [x|]; eauto.
Qed.

(** What the table lookup finds decodes to the character it was given. *)
Lemma from_ucs_spec c : gsm_char c = true →
  (∃ g, sms_gsm7_from_ucs c = g ∧ gsm_septets c = [g] ∧ Z.land g 6912 = 0 ∧ 0 <= g < 128 ∧ g ≠ 27 ∧
     get gsm7_basic g = c) ∨
  (∃ x, gsm_septets c = [27; x] ∧ Z.land (sms_gsm7_from_ucs c) 6912 ≠ 0 ∧ 0 <= x < 128 ∧
     Z.land (sms_gsm7_from_ucs c) 127 = x ∧ ext_to_ucs x = c).
Proof.
  unfold gsm_char, gsm_septets. intros H%Z.leb_le.
  destruct (from_ucs_cases c) as [(g & Hf & ->)|[(x & Hf & ->)|E]]; [left|right|lia].
  - apply basic_find_spec in Hf as (Hr & Hn & Hg). rewrite Z.sub_0_r in Hg.
    rewrite mlen_basic in Hr. exists g. rewrite land_septet by lia. split_and!; done || lia.
  - apply ext_find_in in Hf. pose proof (proj1 (Forall_forall _ _) ext_rows_ok _ Hf) as Hr.
    destruct Hr as (Hx & Hx1 & _ & Hm & Hn & _). cbn [fst snd] in *. exists x.
    rewrite Hm. apply Z.eqb_neq in Hn as Hb. rewrite Hb. cbn [negb]. split_and!; done || lia.
Qed.

#[local] Opaque sms_gsm7_from_ucs.

(** ** Texts as octets *)

Lemma text_cons c cs : text (c :: cs) = utf8_bytes c ++ text cs.
Proof. done. Qed.

Lemma utf8_bytes_ok c : scalar c → bytes_ok (utf8_bytes c).
Proof.
  intros [Hc _]. unfold utf8_bytes, tail6.
  repeat match goal with |- context [?a <? ?b] => destruct (Z.ltb_spec a b) end;
    repeat constructor; Z.to_euclidean_division_equations; lia.
Qed.
Lemma text_ok cs : Forall scalar cs → bytes_ok (text cs).
Proof.
  induction 1 as [|c cs Hc _ IH]; [constructor|]. rewrite text_cons. apply bytes_ok_app.
  auto using utf8_bytes_ok.
Qed.

Lemma mlen_text_cons c cs : mlen (text (c :: cs)) = utf8_len c + mlen (text cs).
Proof. by rewrite text_cons, mlen_app. Qed.
Lemma length_text cs : Z.of_nat (length cs) <= mlen (text cs).
Proof.
  induction cs as [|c cs IH]; [done|]. rewrite mlen_text_cons, length_cons.
  pose proof (utf8_len_range c). lia.
Qed.

Lemma gsm_text_cons c cs : gsm_text (c :: cs) = gsm_septets c ++ gsm_text cs.
Proof. done. Qed.
Lemma gsm_septets_ok c : gsm_char c = true → Forall (λ s, 0 <= s < 128) (gsm_septets c).
Proof.
  intros [(g & _ & -> & _ & ? & _)|(x & -> & _ & ? & _)]%from_ucs_spec; repeat constructor; lia.
Qed.
Lemma gsm_text_ok cs : Forall (λ c, gsm_char c = true) cs → Forall (λ s, 0 <= s < 128) (gsm_text cs).
Proof.
  induction 1 as [|c cs Hc _ IH]; [constructor|]. rewrite gsm_text_cons. apply Forall_app.
  auto using gsm_septets_ok.
Qed.
Lemma mlen_gsm_septets c : 1 <= mlen (gsm_septets c) <= 2.
Proof. unfold gsm_septets. destruct (negb _); by vm_compute. Qed.
Lemma mlen_gsm_text cs : mlen (gsm_text cs) <= 2 * Z.of_nat (length cs).
Proof.
  induction cs as [|c cs IH]; [done|]. rewrite gsm_text_cons, mlen_app, length_cons.
  pose proof (mlen_gsm_septets c). lia.
Qed.

(** The next character of a text the string holds. *)
Lemma next_of_text s n i c cs : bytes_ok s → n <= mlen s → scalar c →
  holds s i (text (c :: cs)) → i + mlen (text (c :: cs)) = n →
  sms_utf8_next s n i = Ok (Some (c, i + utf8_len c)) ∧ holds s (i + utf8_len c) (text cs) ∧
  i + utf8_len c + mlen (text cs) = n ∧ i < n.
Proof.
  intros Hs Hn Hc Hh Hl. pose proof (holds_pos _ _ _ Hh) as [Hi _].
  rewrite mlen_text_cons in Hl. pose proof (utf8_len_range c). pose proof (mlen_nonneg (text cs)).
  rewrite text_cons in Hh. apply holds_app in Hh as [Hh1 Hh2].
  split_and!; try lia; [|done]. apply utf8_next_complete; done || lia.
Qed.

(** ** The default alphabet *)


Definition gsm_textb (cs : list Z) : bool := forallb gsm_char cs.

Lemma from_utf8_loop_text s n cap : bytes_ok s → n <= mlen s → ∀ cs fuel i sep k,
  (length cs < fuel)%nat → Forall scalar cs → 0 <= k → mlen sep = cap → k <= cap →
  holds s i (text cs) → i + mlen (text cs) = n →
  ∃ sep' rc, from_utf8_loop fuel s n i sep k cap = Ok (sep', rc) ∧
    if gsm_textb cs && (k + mlen (gsm_text cs) <=? cap)
    then sep' = splice sep k (gsm_text cs) ∧ rc = i32 (k + mlen (gsm_text cs))
    else rc = SMS_E_OVERFLOW ∧ cap < k + mlen (gsm_text cs) ∨ rc = SMS_E_ALPHABET ∧ gsm_textb cs = false.
Proof.
  intros Hs Hn. induction cs as [|c cs IH]; intros fuel i sep k Hf Hcs Hk Hcap Hkc Hh Hl;
    (destruct fuel as [|fuel]; [cbn in Hf; lia|]); cbn [from_utf8_loop].
  { change (text []) with (@nil Z) in Hl. rewrite mlen_nil in Hl.
    destruct (Z.ltb_spec i n); [lia|]. do 2 eexists. split; [done|]. cbn.
    rewrite Z.add_0_r. destruct (Z.leb_spec k cap); [|lia]. by rewrite splice_nil. }
  apply Forall_cons_iff in Hcs as [Hc Hcs].
  destruct (next_of_text s n i c cs Hs Hn Hc Hh Hl) as (Hnx & Hh' & Hl' & Hin).
  rewrite (proj2 (Z.ltb_lt i n) Hin). cbn [negb]. rewrite Hnx. bstep.
  cbn [gsm_textb forallb]. fold (gsm_textb cs). rewrite gsm_text_cons, mlen_app.
  pose proof (mlen_nonneg (gsm_text cs)). cbn [length] in Hf.
  destruct (gsm_char c) eqn:Eg; cbn [andb].
  2: { unfold gsm_char in Eg. apply Z.leb_gt in Eg. rewrite (proj2 (Z.ltb_lt _ _) Eg).
       do 2 eexists. split; [done|]. by right. }
  pose proof Eg as Eg'. unfold gsm_char in Eg'. apply Z.leb_le in Eg'.
  rewrite (proj2 (Z.ltb_ge _ _) Eg').
  apply from_ucs_spec in Eg as [(g & -> & -> & -> & Hg & _)|(x & -> & Hn6 & Hx & -> & _)].
  - change (0 =? 0) with true. cbn [negb]. change (mlen [g]) with 1. rewrite (u8_small g) by lia.
    destruct (Z.ltb_spec cap (k + 1)).
    { do 2 eexists. split; [done|]. destruct (Z.leb_spec (k + (1 + mlen (gsm_text cs))) cap); [lia|].
      rewrite andb_false_r. left. split; [done|lia]. }
    rewrite wr_wrn, wrn_first by mlia.
    destruct (IH fuel (i + utf8_len c) (splice sep k [g]) (k + 1)) as (sep' & rc & -> & Hr);
      try (done || lia); [by rewrite mlen_splice by mlia|].
    do 2 eexists. split; [done|]. rewrite Z.add_assoc.
    destruct (gsm_textb cs && _); [|done]. destruct Hr as [-> ->]. split; [|done].
    refine (splice_app sep k [g] _ _ _); mlia.
  - rewrite (proj2 (Z.eqb_neq _ _) Hn6). cbn [negb]. change (mlen [27; x]) with 2.
    rewrite (u8_small x) by lia. destruct (Z.ltb_spec cap (k + 2)).
    { do 2 eexists. split; [done|]. destruct (Z.leb_spec (k + (2 + mlen (gsm_text cs))) cap); [lia|].
      rewrite andb_false_r. left. split; [done|lia]. }
    rewrite wr_wrn, wrn_first by mlia. rewrite wr_wrn, wrn_next by mlia. cbn [app].
    destruct (IH fuel (i + utf8_len c) (splice sep k [27; x]) (k + 2)) as (sep' & rc & -> & Hr);
      try (done || lia); [by rewrite mlen_splice by mlia|].
    do 2 eexists. split; [done|]. rewrite Z.add_assoc.
    destruct (gsm_textb cs && _); [|done]. destruct Hr as [-> ->]. split; [|done].
    refine (splice_app sep k [27; x] _ _ _); mlia.
Qed.

Lemma septets_loop_text s n : bytes_ok s → n <= mlen s → ∀ cs fuel i k,
  (length cs < fuel)%nat → Forall scalar cs → holds s i (text cs) → i + mlen (text cs) = n →
  septets_loop fuel s n i k =
    Ok (if gsm_textb cs then i32 (k + mlen (gsm_text cs)) else SMS_E_ALPHABET).
Proof.
  intros Hs Hn. induction cs as [|c cs IH]; intros fuel i k Hf Hcs Hh Hl;
    (destruct fuel as [|fuel]; [cbn in Hf; lia|]); cbn [septets_loop].
  { change (mlen (text [])) with 0 in Hl. destruct (Z.ltb_spec i n); [lia|].
    cbn. by rewrite Z.add_0_r. }
  apply Forall_cons_iff in Hcs as [Hc Hcs].
  destruct (next_of_text s n i c cs Hs Hn Hc Hh Hl) as (Hnx & Hh' & Hl' & Hin).
  rewrite (proj2 (Z.ltb_lt i n) Hin). cbn [negb]. rewrite Hnx. bstep.
  cbn [gsm_textb forallb length] in *. fold (gsm_textb cs). rewrite gsm_text_cons, mlen_app.
  unfold gsm_char at 1, gsm_septets. rewrite Z.ltb_antisym.
  destruct (0 <=? sms_gsm7_from_ucs c); cbn [negb andb]; [|done].
  rewrite IH by (done || lia). destruct (gsm_textb cs); [|done].
  destruct (negb _); change (mlen [27; _]) with 2; change (mlen [sms_gsm7_from_ucs c]) with 1;
    by rewrite Z.add_assoc.
Qed.

(** Writing the next character of a text with room for the final NUL. *)
Lemma put_of_text out k cap c cs : scalar c → 0 <= k → cap <= mlen out →
  k + mlen (text (c :: cs)) < cap →
  sms_utf8_put out k (cap - 1 - k) c = Ok (splice out k (utf8_bytes c), utf8_len c) ∧
  (cap <=? k + 1) = false ∧ (utf8_len c =? 0) = false ∧
  mlen (splice out k (utf8_bytes c)) = mlen out ∧ k + utf8_len c + mlen (text cs) < cap ∧
  splice (splice out k (utf8_bytes c)) (k + utf8_len c) (text cs ++ [0])
    = splice out k (text (c :: cs) ++ [0]).
Proof.
  intros [Hc _] Hk Hcap Hl. rewrite mlen_text_cons in Hl. pose proof (utf8_len_range c).
  pose proof (mlen_nonneg (text cs)). split_and!; try lia.
  - rewrite utf8_put_bytes by lia. destruct (Z.ltb_spec (cap - 1 - k) (utf8_len c)); [lia|done].
  - unfold utf8_len in *. rewrite mlen_splice by lia. done.
  - unfold utf8_len in *. rewrite splice_app by lia. by rewrite text_cons, <-app_assoc.
Qed.

Lemma to_utf8_loop_text sep n cap : ∀ cs fuel i out k,
  (length cs < fuel)%nat → Forall scalar cs → Forall (λ c, gsm_char c = true) cs → 0 <= k →
  holds sep i (gsm_text cs) → i + mlen (gsm_text cs) = n →
  k + mlen (text cs) < cap → cap <= mlen out →
  to_utf8_loop fuel sep n i out k cap =
    Ok (splice out k (text cs ++ [0]), i32 (k + mlen (text cs))).
Proof.
  induction cs as [|c cs IH]; intros fuel i out k Hf Hcs Hg Hk Hh Hl Hc1 Hc2;
    (destruct fuel as [|fuel]; [cbn in Hf; lia|]); cbn [to_utf8_loop].
  { change (mlen (gsm_text [])) with 0 in Hl. change (mlen (text [])) with 0 in *.
    destruct (Z.ltb_spec i n); [lia|]. cbn [negb]. rewrite wr_wrn, wrn_first by mlia.
    by rewrite Z.add_0_r. }
  apply Forall_cons_iff in Hcs as [Hc Hcs]. apply Forall_cons_iff in Hg as [Hgc Hg].
  destruct (put_of_text out k cap c cs Hc Hk Hc2 Hc1) as (Hput & E1 & E2 & Hm & Hlt & Hspl).
  pose proof (mlen_nonneg (gsm_text cs)). rewrite gsm_text_cons in Hh, Hl. rewrite mlen_app in Hl.
  apply holds_app in Hh as [Hh1 Hh2]. cbn [length] in Hf. pose proof (utf8_len_range c).
  assert (∀ j, j = i + mlen (gsm_septets c) →
    to_utf8_loop fuel sep n j (splice out k (utf8_bytes c)) (k + utf8_len c) cap =
      Ok (splice out k (text (c :: cs) ++ [0]), i32 (k + mlen (text (c :: cs))))) as Hrec.
  { intros j ->. rewrite IH by (done || lia). by rewrite Hspl, mlen_text_cons, Z.add_assoc. }
  apply from_ucs_spec in Hgc as [(g & _ & Eg & _ & Hr & Hn27 & Hget)|(x & Eg & _ & Hx & _ & Hext)];
    rewrite Eg in *.
  - apply holds_cons in Hh1 as [-> _]. change (mlen [g]) with 1 in *.
    destruct (Z.ltb_spec i n); [|lia]. cbn [negb]. bstep. destruct (Z.eqb_spec g 27); [done|].
    destruct (Z.ltb_spec 127 g); [lia|]. bstep. rewrite Hget.
    destruct (Z.ltb_spec c 0) as [|_]; [destruct Hc; lia|]. rewrite E1, Hput. bstep. rewrite E2.
    by apply Hrec.
  - apply holds_cons in Hh1 as [-> Hh1]. apply holds_cons in Hh1 as [-> _].
    change (mlen [27; x]) with 2 in *. destruct (Z.ltb_spec i n); [|lia]. cbn [negb]. bstep.
    destruct (Z.ltb_spec (i + 1) n); [|lia]. bstep. rewrite Hext.
    change (27 =? 27) with true. cbv beta iota zeta. bstep.
    assert ((c <? 0) = false) as Ec by (destruct Hc; lia). rewrite !Ec, E1, Hput. bstep. rewrite E2.
    apply Hrec. lia.
Qed.

(** ** UTF-16 *)

Definition utf16_bytes (c : Z) : list Z :=
  if c <? 65536 then [c / 256; c mod 256]
  else let v := c - 65536 in
       let hi := 55296 + v / 1024 in
       let lo := 56320 + v mod 1024 in
       [hi / 256; hi mod 256; lo / 256; lo mod 256].
Definition utf16_text (cs : list Z) : list Z := concat (map utf16_bytes cs).

Lemma utf16_text_cons c cs : utf16_text (c :: cs) = utf16_bytes c ++ utf16_text cs.
Proof. done. Qed.

Lemma octets16 x : 0 <= x < 65536 →
  u8 (Z.shiftr x 8) = x / 256 ∧ u8 (Z.land x 255) = x mod 256 ∧
  Z.lor (Z.shiftl (x / 256) 8) (x mod 256) = x.
Proof.
  intros Hx. rewrite shiftr_div by lia. change (2 ^ 8) with 256.
  rewrite (land_low x 8) by done. change (2 ^ 8) with 256.
  rewrite !u8_small by (Z.to_euclidean_division_equations; lia).
  split_and!; try done. rewrite lor_octet by (Z.to_euclidean_division_equations; lia).
  Z.to_euclidean_division_equations; lia.
Qed.

Lemma surrogates c : scalar c → 65536 <= c →
  let v := c - 65536 in
  let hi := 55296 + v / 1024 in
  let lo := 56320 + v mod 1024 in
  Z.shiftr v 10 = v / 1024 ∧ Z.land v 1023 = v mod 1024 ∧
  55296 <= hi <= 56319 ∧ 56320 <= lo <= 57343 ∧
  65536 + Z.shiftl (hi - 55296) 10 + (lo - 56320) = c.
Proof.
  intros [Hc _] Hl v hi lo. rewrite shiftr_div by lia. rewrite (land_low v 10) by done.
  rewrite Z.shiftl_mul_pow2 by lia. change (2 ^ 10) with 1024. unfold hi, lo, v.
  split_and!; try done; Z.to_euclidean_division_equations; lia.
Qed.

(** A text that does not fit is too long for a message, or for a buffer with no
    room to spare behind one. *)
Definition too_long (cap rc : Z) : Prop :=
  rc = SMS_E_LENGTH ∨ rc = SMS_E_OVERFLOW ∧ cap < SMS_UD_MAX + 4.

Section ucs2_out.
Context (s : mem) (n cap : Z) (Hs : bytes_ok s) (Hn : n <= mlen s) (Hcap : SMS_UD_MAX <= cap).

(** The two octets, or four, of one character, and the rest of the loop. *)
Lemma ucs2_step fuel i out k bs ts : 0 <= k <= SMS_UD_MAX → cap <= mlen out → 0 < mlen bs <= 4 →
  (∀ out', cap <= mlen out' → k + mlen bs <= SMS_UD_MAX →
     if k + mlen bs + mlen ts <=? SMS_UD_MAX
     then to_ucs2_loop fuel s n i out' (k + mlen bs) cap =
            Ok (splice out' (k + mlen bs) ts, k + mlen bs + mlen ts)
     else ∃ out'' rc, to_ucs2_loop fuel s n i out' (k + mlen bs) cap = Ok (out'', rc) ∧
            too_long cap rc) →
  let r := if cap <? k + mlen bs then Ok (out, SMS_E_OVERFLOW) else
           if SMS_UD_MAX <? k + mlen bs then Ok (out, SMS_E_LENGTH) else
           to_ucs2_loop fuel s n i (splice out k bs) (k + mlen bs) cap in
  if k + mlen (bs ++ ts) <=? SMS_UD_MAX
  then r = Ok (splice out k (bs ++ ts), k + mlen (bs ++ ts))
  else ∃ out'' rc, r = Ok (out'', rc) ∧ too_long cap rc.
Proof using Hcap.
  unfold SMS_UD_MAX, too_long in *. intros Hk Hout Hb IH.
  rewrite mlen_app. pose proof (mlen_nonneg ts).
  destruct (Z.ltb_spec cap (k + mlen bs)).
  { destruct (Z.leb_spec (k + (mlen bs + mlen ts)) 140); [lia|]. unfold SMS_UD_MAX. eauto with lia. }
  destruct (Z.ltb_spec 140 (k + mlen bs)).
  { destruct (Z.leb_spec (k + (mlen bs + mlen ts)) 140); [lia|]. eauto. }
  specialize (IH (splice out k bs)). rewrite mlen_splice in IH by lia. rewrite Z.add_assoc.
  destruct (Z.leb_spec (k + mlen bs + mlen ts) 140); [|by apply IH; lia].
  rewrite IH by lia. by rewrite splice_app by lia.
Qed.

Lemma to_ucs2_loop_text : ∀ cs fuel i out k,
  (length cs < fuel)%nat → Forall scalar cs → 0 <= k <= SMS_UD_MAX → cap <= mlen out →
  holds s i (text cs) → i + mlen (text cs) = n →
  if k + mlen (utf16_text cs) <=? SMS_UD_MAX
  then to_ucs2_loop fuel s n i out k cap =
         Ok (splice out k (utf16_text cs), k + mlen (utf16_text cs))
  else ∃ out' rc, to_ucs2_loop fuel s n i out k cap = Ok (out', rc) ∧ too_long cap rc.
Proof using Hs Hn Hcap.
  unfold SMS_UD_MAX in *.
  induction cs as [|c cs IH]; intros fuel i out k Hf Hcs Hk Hout Hh Hl;
    (destruct fuel as [|fuel]; [cbn in Hf; lia|]).
  { cbn [to_ucs2_loop]. change (mlen (text [])) with 0 in Hl.
    change (utf16_text []) with (@nil Z). rewrite mlen_nil.
    destruct (Z.ltb_spec i n); [lia|]. cbn. rewrite Z.add_0_r, splice_nil, i32_small by lia.
    destruct (Z.leb_spec k 140); [done|lia]. }
  apply Forall_cons_iff in Hcs as [Hc Hcs].
  destruct (next_of_text s n i c cs Hs Hn Hc Hh Hl) as (Hnx & Hh' & Hl' & Hin). cbn [length] in Hf.
  assert (∀ bs, mlen bs = 2 ∨ mlen bs = 4 → let r := if cap <? k + mlen bs then Ok (out, SMS_E_OVERFLOW) else
           if SMS_UD_MAX <? k + mlen bs then Ok (out, SMS_E_LENGTH) else
           to_ucs2_loop fuel s n (i + utf8_len c) (splice out k bs) (k + mlen bs) cap in
     if k + mlen (bs ++ utf16_text cs) <=? 140
     then r = Ok (splice out k (bs ++ utf16_text cs), k + mlen (bs ++ utf16_text cs))
     else ∃ out'' rc, r = Ok (out'', rc) ∧ too_long cap rc) as Hstep.
  { intros bs Hb. apply ucs2_step; try done; [lia|]. intros. unfold SMS_UD_MAX in *.
    apply IH; done || lia. }
  cbn [to_ucs2_loop]. rewrite (proj2 (Z.ltb_lt i n) Hin). cbn [negb]. rewrite Hnx. bstep.
  rewrite utf16_text_cons. unfold utf16_bytes. destruct (Z.ltb_spec c 65536) as [Hlt|Hge].
  - destruct Hc as [Hc _]. destruct (octets16 c ltac:(lia)) as (-> & -> & _).
    specialize (Hstep [c / 256; c mod 256]). change (mlen [_; _]) with 2 in Hstep.
    destruct (Z.ltb_spec cap (k + 2)); [apply Hstep; lia|]. unfold SMS_UD_MAX in *.
    destruct (Z.ltb_spec 140 (k + 2)); [apply Hstep; lia|].
    rewrite wr_wrn, wrn_first by mlia. rewrite wr_wrn, wrn_next by mlia. apply Hstep. lia.
  - destruct (surrogates c Hc Hge) as (-> & -> & Hhi & Hlo & _). set (v := c - 65536) in *.
    set (hi := 55296 + v / 1024) in *. set (lo := 56320 + v mod 1024) in *.
    destruct (octets16 hi ltac:(lia)) as (-> & -> & _), (octets16 lo ltac:(lia)) as (-> & -> & _).
    specialize (Hstep [hi / 256; hi mod 256; lo / 256; lo mod 256]).
    change (mlen [_; _; _; _]) with 4 in Hstep.
    destruct (Z.ltb_spec cap (k + 4)); [apply Hstep; lia|]. unfold SMS_UD_MAX in *.
    destruct (Z.ltb_spec 140 (k + 4)); [apply Hstep; lia|].
    rewrite wr_wrn, wrn_first by mlia. do 3 (rewrite wr_wrn, wrn_next by mlia). apply Hstep. lia.
Qed.
End ucs2_out.

Lemma ucs2_loop_text ud p n cap : ∀ cs fuel i out k,
  (length cs < fuel)%nat → Forall scalar cs → 0 <= k → holds ud (p + i) (utf16_text cs) →
  i + mlen (utf16_text cs) = n → k + mlen (text cs) < cap → cap <= mlen out →
  ucs2_loop fuel ud p n i out k cap = Ok (splice out k (text cs ++ [0]), i32 (k + mlen (text cs))).
Proof.
  induction cs as [|c cs IH]; intros fuel i out k Hf Hcs Hk Hh Hl Hc1 Hc2;
    (destruct fuel as [|fuel]; [cbn in Hf; lia|]); cbn [ucs2_loop].
  { change (mlen (utf16_text [])) with 0 in Hl. change (mlen (text [])) with 0 in *.
    destruct (Z.ltb_spec (i + 1) n); [lia|]. cbn [negb]. rewrite wr_wrn, wrn_first by mlia.
    by rewrite Z.add_0_r. }
  apply Forall_cons_iff in Hcs as [Hc Hcs].
  destruct (put_of_text out k cap c cs Hc Hk Hc2 Hc1) as (Hput & E1 & E2 & Hm & Hlt & Hspl).
  pose proof (mlen_nonneg (utf16_text cs)). rewrite utf16_text_cons in Hh, Hl. rewrite mlen_app in Hl.
  apply holds_app in Hh as [Hh1 Hh2]. cbn [length] in Hf. pose proof (utf8_len_range c).
  assert (∀ j, j = i + mlen (utf16_bytes c) →
    ucs2_loop fuel ud p n j (splice out k (utf8_bytes c)) (k + utf8_len c) cap =
      Ok (splice out k (text (c :: cs) ++ [0]), i32 (k + mlen (text (c :: cs))))) as Hrec.
  { intros j ->. rewrite <-Z.add_assoc in Hh2. rewrite IH by (done || lia). by rewrite Hspl, mlen_text_cons, Z.add_assoc. }
  assert (((55296 <=? c) && (c <=? 57343)) = false) as Ec.
  { destruct Hc as [_ Hc]. destruct (Z.leb_spec 55296 c), (Z.leb_spec c 57343); done || lia. }
  unfold utf16_bytes in *. destruct (Z.ltb_spec c 65536) as [Hsm|Hge].
  - apply holds_cons in Hh1 as [-> Hh1]. apply holds_cons in Hh1 as [-> _].
    change (mlen [_; _]) with 2 in *. destruct (Z.ltb_spec (i + 1) n); [|lia]. cbn [negb]. bstep.
    destruct (octets16 c ltac:(destruct Hc; lia)) as (_ & _ & ->).
    assert (((55296 <=? c) && (c <=? 56319)) = false) as ->.
    { destruct Hc as [_ Hc]. destruct (Z.leb_spec 55296 c), (Z.leb_spec c 56319); done || lia. }
    cbn [andb]. bstep. rewrite Ec, E1, Hput. bstep. rewrite E2. apply Hrec. lia.
  - destruct (surrogates c Hc Hge) as (_ & _ & Hhi & Hlo & Hv). set (v := c - 65536) in *.
    set (hi := 55296 + v / 1024) in *. set (lo := 56320 + v mod 1024) in *.
    apply holds_cons in Hh1 as [R1 Hh1]. apply holds_cons in Hh1 as [R2 Hh1].
    apply holds_cons in Hh1 as [R3 Hh1]. apply holds_cons in Hh1 as [R4 _].
    change (mlen [_; _; _; _]) with 4 in *. destruct (Z.ltb_spec (i + 1) n); [|lia]. cbn [negb].
    rewrite R1. bstep. rewrite R2. bstep.
    destruct (octets16 hi ltac:(lia)) as (_ & _ & ->).
    destruct (Z.leb_spec 55296 hi); [|lia]. destruct (Z.leb_spec hi 56319); [|lia]. cbn [andb].
    destruct (Z.ltb_spec (i + 3) n); [|lia].
    replace (p + i + 3) with (p + i + 1 + 1 + 1) by lia.
    replace (p + i + 2) with (p + i + 1 + 1) by lia. rewrite R3. bstep. rewrite R4. bstep.
    destruct (octets16 lo ltac:(lia)) as (_ & _ & ->).
    destruct (Z.leb_spec 56320 lo); [|lia]. destruct (Z.leb_spec lo 57343); [|lia]. cbn [andb]. bstep.
    rewrite Hv, Ec, E1, Hput. bstep. rewrite E2. apply Hrec. lia.
Qed.

(** ** User data *)

Lemma splice_cover m i a bs : 0 <= i → mlen a <= mlen bs → i + mlen bs <= mlen m →
  splice (splice m i a) i bs = splice m i bs.
Proof.
  intros Hi Ha Hb. destruct (mem_split bs (mlen a)) as (b1 & b2 & -> & Hl);
    [pose proof (mlen_nonneg a); lia|]. rewrite mlen_app in Hb. pose proof (mlen_nonneg b2).
  rewrite <-!(splice_app _ i b1 b2) by (rewrite ?mlen_splice; lia). f_equal.
  replace i with (i + 0) at 2 by lia. rewrite splice_in by lia. f_equal.
  rewrite splice_0. rewrite drop_ge; [by rewrite app_nil_r|]. unfold mlen in Hl. lia.
Qed.

Lemma holds_splice m i bs : 0 <= i → i + mlen bs <= mlen m → holds (splice m i bs) i bs.
Proof. intros. split_and!; [done|by rewrite mlen_splice|]. by apply slice_splice_same. Qed.

Lemma length_gsm_text cs : Z.of_nat (length cs) <= mlen (gsm_text cs).
Proof.
  induction cs as [|c cs IH]; [done|]. rewrite gsm_text_cons, mlen_app, length_cons.
  pose proof (mlen_gsm_septets c). lia.
Qed.
Lemma mlen_utf16_bytes c : 2 <= mlen (utf16_bytes c) <= 4.
Proof. unfold utf16_bytes. destruct (c <? 65536); by vm_compute. Qed.
Lemma length_utf16_text cs : Z.of_nat (length cs) <= mlen (utf16_text cs).
Proof.
  induction cs as [|c cs IH]; [done|]. rewrite utf16_text_cons, mlen_app, length_cons.
  pose proof (mlen_utf16_bytes c). lia.
Qed.

(** Octets in front of a run of septets keep their value. *)
Lemma put_septets_below ss : ∀ m q i, 0 <= i → 8 * (i + 1) <= q * 7 → (q + mlen ss) * 7 <= 8 * mlen m →
  get (put_septets m q ss) i = get m i.
Proof.
  induction ss as [|s ss IH]; intros m q i Hi Hq Hl; [done|]. rewrite mlen_cons in *.
  pose proof (mlen_nonneg ss). cbn [put_septets]. rewrite IH by (rewrite ?mlen_put_septet; lia).
  unfold put_septet. assert (i < q * 7 / 8 ∧ q * 7 / 8 + 1 <= mlen m) as [? ?].
  { Z.to_euclidean_division_equations; lia. }
  destruct (Z.ltb_spec 1 (q * 7 mod 8));
    rewrite ?mget_insert by (rewrite ?mlen_insert; Z.to_euclidean_division_equations; lia);
    repeat match goal with |- context [?a =? ?b] => destruct (Z.eqb_spec a b); [lia|] end; done.
Qed.

(** A user data header is empty or starts with the count of the octets behind. *)
Definition header_ok (h : list Z) : Prop := bytes_ok h ∧ (h = [] ∨ get h 0 + 1 = mlen h).

(** The alphabet [SMS_ALPHA_AUTO] chooses, whether it can write the text, and the
    octets the user data takes. *)
Definition pick (alpha : Z) (cs : list Z) : Z :=
  if alpha =? SMS_ALPHA_AUTO then if gsm_textb cs then SMS_ALPHA_GSM7 else SMS_ALPHA_UCS2 else alpha.
Definition writes (alpha : Z) (cs : list Z) : bool := negb (alpha =? SMS_ALPHA_GSM7) || gsm_textb cs.
Definition ud_octets (alpha : Z) (h cs : list Z) : Z :=
  if alpha =? SMS_ALPHA_GSM7
  then ((sms_gsm7_septet_off (mlen h) + mlen (gsm_text cs)) * 7 + 7) / 8
  else mlen h + mlen (utf16_text cs).

Lemma header_checked h : header_ok h →
  (if negb (mlen h =? 0) then l ← rd h 0; Ok (negb (l + 1 =? mlen h)) else Ok false) = Ok false.
Proof.
  intros [_ [->|E]]; [done|]. destruct (Z.eqb_spec (mlen h) 0); [done|]. cbn [negb].
  pose proof (mlen_nonneg h). rewrite rd_Ok by lia. bstep. by rewrite E, Z.eqb_refl.
Qed.
Lemma header_copied h b : mlen h <= mlen b →
  (if negb (mlen h =? 0) then bs ← rdn h 0 (mlen h); wrn b 0 bs else Ok b) = Ok (splice b 0 h).
Proof.
  intros Hl. destruct h as [|x h]; [cbn; by rewrite splice_nil|]. pose proof (mlen_nonneg h).
  destruct (Z.eqb_spec (mlen (x :: h)) 0) as [E|]; [rewrite mlen_cons in E; lia|]. cbn [negb].
  pose proof (mlen_nonneg (x :: h)). rewrite rdn_Ok by lia. bstep. rewrite slice_full by done.
  apply wrn_Ok; lia.
Qed.
Lemma header_found h buf n : header_ok h → holds buf 0 h → mlen h <= n →
  (if negb (mlen h =? 0) then sms_udh_len (Some buf) n else Ok 0) = Ok (mlen h).
Proof.
  intros [_ [->|E]] Hh Hn; [done|]. destruct (Z.eqb_spec (mlen h) 0) as [E0|E0]; [by rewrite E0|].
  cbn [negb]. unfold sms_udh_len. pose proof (mlen_nonneg h).
  destruct (Z.eqb_spec n 0); [lia|]. destruct h as [|x h]; [done|].
  apply holds_cons in Hh as [-> _]. bstep. change (get (x :: h) 0) with x in E. rewrite E.
  by destruct (Z.ltb_spec n (mlen (x :: h))); [lia|].
Qed.

Lemma picked alpha cs : Forall scalar cs → mlen (text cs) < 1073741824 →
  (if alpha =? SMS_ALPHA_AUTO then
     septets ← sms_gsm7_septets (Some (text cs)) (mlen (text cs));
     Ok (if 0 <=? septets then SMS_ALPHA_GSM7 else SMS_ALPHA_UCS2)
   else Ok alpha) = Ok (pick alpha cs).
Proof.
  intros Hcs Hl. unfold pick. destruct (alpha =? SMS_ALPHA_AUTO); [|done].
  unfold sms_gsm7_septets. pose proof (length_text cs). pose proof (mlen_gsm_text cs).
  pose proof (mlen_nonneg (gsm_text cs)).
  rewrite (septets_loop_text _ _ (text_ok cs Hcs) (Z.le_refl _) cs); try done; [|lia|].
  - bstep. destruct (gsm_textb cs); [|done]. rewrite i32_small by lia.
    by destruct (Z.leb_spec 0 (0 + mlen (gsm_text cs))); [|lia].
  - split_and!; [lia|lia|by apply slice_full].
Qed.

Section roundtrip.
Context (cs h b out : list Z) (cap cap' : Z).
Context (Hcs : Forall scalar cs) (Ht : mlen (text cs) < 1073741824) (Hh : header_ok h)
  (Hb : bytes_ok b) (Hcap : SMS_UD_MAX <= cap <= mlen b) (Hout : mlen (text cs) < cap' <= mlen out).

(** What is encoded is decoded. *)
Definition decodes (o : ud_out) (octets : Z) : Prop :=
  o_rc o = octets ∧ holds (o_buf o) 0 h ∧
  sms_ud_to_utf8 (o_dcs o) (negb (mlen h =? 0)) (Some (o_buf o)) (o_rc o) (o_udl o) (Some out) cap' =
    Ok (Some (splice out 0 (text cs ++ [0])), mlen (text cs)).

Lemma text_here : holds (text cs) 0 (text cs).
Proof using. split_and!; [lia|lia|by apply slice_full]. Qed.

(** The start of the decoder. *)
Lemma ud_to_utf8_enter dcs buf n udl : holds buf 0 h → mlen h <= n →
  sms_ud_to_utf8 dcs (negb (mlen h =? 0)) (Some buf) n udl (Some out) cap' =
    let b := splice out 0 [0] in
    if udl =? 0 then Ok (Some b, 0) else
    let alpha := sms_dcs_alphabet dcs in
    if alpha =? SMS_ALPHA_GSM7 then
      let off := sms_gsm7_septet_off (mlen h) in
      if udl <? off then Ok (Some b, SMS_E_LENGTH) else
      let count := udl - off in
      if SEP_LEN <? count then Ok (Some b, SMS_E_LENGTH) else
      '(sep, got) ← sms_gsm7_unpack (Some buf) n off count (Some (uninit SEP_LEN)) SEP_LEN;
      if got <? 0 then Ok (Some b, got) else sms_gsm7_to_utf8 sep got (Some b) cap'
    else if alpha =? SMS_ALPHA_UCS2 then
      if (n <? udl) || (udl <? mlen h) then Ok (Some b, SMS_E_LENGTH) else
      let n := udl - mlen h in
      '(b, rc) ← ucs2_loop (S (Z.to_nat n)) buf (mlen h) n 0 b 0 cap'; Ok (Some b, rc)
    else if alpha =? SMS_ALPHA_8BIT then
      if (n <? udl) || (udl <? mlen h) then Ok (Some b, SMS_E_LENGTH) else
      let n := udl - mlen h in
      if cap' <? n + 1 then Ok (Some b, SMS_E_OVERFLOW) else
      b ← (if negb (n =? 0) then bs ← rdn buf (mlen h) n; wrn b 0 bs else Ok b);
      b ← wr b n 0;
      Ok (Some b, i32 n)
    else Ok (Some b, SMS_E_ALPHABET).
Proof using Hh Hout.
  intros Hbuf Hn. unfold sms_ud_to_utf8. pose proof (mlen_nonneg (text cs)).
  destruct (Z.eqb_spec cap' 0); [lia|]. cbn [bool_decide is_Some]. rewrite bool_decide_true by eauto.
  cbn [negb andb]. rewrite wr_wrn, wrn_first by mlia. rewrite header_found by done. bstep.
  replace (negb (mlen h =? 0) && (mlen h =? 0)) with false by (by destruct (mlen h =? 0)). done.
Qed.

Lemma octets_small m : (m * 7 + 7) / 8 <= 140 ↔ m <= 160.
Proof using. Z.to_euclidean_division_equations; lia. Qed.

Lemma septet_off_range : mlen h <= 140 →
  8 * mlen h <= 7 * sms_gsm7_septet_off (mlen h) <= 8 * mlen h + 6 ∧ 0 <= sms_gsm7_septet_off (mlen h).
Proof using.
  intros. pose proof (mlen_nonneg h). unfold sms_gsm7_septet_off. rewrite u64_small by lia.
  Z.to_euclidean_division_equations; lia.
Qed.

(** Decoding the septets of the text behind the header. *)
Lemma gsm_decodes : Forall (λ c, gsm_char c = true) cs → mlen h <= 140 →
  let off := sms_gsm7_septet_off (mlen h) in
  let total := off + mlen (gsm_text cs) in
  let octets := (total * 7 + 7) / 8 in
  total <= 160 →
  let m := splice (splice b 0 h) (mlen h) (zeros (octets - mlen h)) in
  decodes {| o_buf := put_septets m off (gsm_text cs); o_udl := total;
             o_dcs := sms_dcs_make SMS_ALPHA_GSM7 (-1); o_rc := octets |} octets.
Proof using All.
  intros Hg Hh140 off total octets Htot m. pose proof (septet_off_range Hh140) as [Ho Ho0].
  fold off in Ho, Ho0. pose proof (mlen_nonneg h). pose proof (mlen_nonneg (gsm_text cs)) as Hns.
  pose proof (mlen_nonneg (text cs)). unfold SMS_UD_MAX in *.
  assert (8 * octets >= total * 7 ∧ 0 <= octets <= 140 ∧ mlen h <= octets) as (Hoc & Hoc140 & Hoh).
  { unfold octets, total in *. Z.to_euclidean_division_equations; lia. }
  assert (mlen m = mlen b) as Hm by (unfold m; rewrite !mlen_splice; mlia).
  assert (bytes_ok m) as Hmb by (apply bytes_ok_splice; [apply bytes_ok_splice; [done|apply Hh]|bytes_tac]).
  assert (holds (put_septets m off (gsm_text cs)) 0 h) as Hhold.
  { split_and!; [lia|rewrite mlen_put_septets; lia|].
    rewrite slice_get by (rewrite ?mlen_put_septets; lia). transitivity (slice m 0 (mlen h)).
    - rewrite slice_get by lia. apply map_ext_in. intros k [_ Hk]%in_seq.
      apply put_septets_below; unfold total in *; lia.
    - unfold m. rewrite slice_splice_disj by (rewrite ?mlen_splice; mlia). by apply slice_splice_same; lia. }
  split_and!; [done|done|]. cbn [o_buf o_udl o_dcs o_rc]. rewrite ud_to_utf8_enter by (done || lia).
  cbv zeta. fold off. destruct (Z.eqb_spec total 0) as [E|E].
  { pose proof (length_gsm_text cs). destruct cs as [|? ?]; [done|]. cbn [length] in *. lia. }
  change (sms_dcs_alphabet _ =? SMS_ALPHA_GSM7) with true. cbn match.
  destruct (Z.ltb_spec total off); [lia|]. replace (total - off) with (mlen (gsm_text cs)) by lia.
  unfold SEP_LEN. destruct (Z.ltb_spec 162 (mlen (gsm_text cs))); [lia|].
  assert (sms_gsm7_unpack (Some (put_septets m off (gsm_text cs))) octets off (mlen (gsm_text cs))
    (Some (uninit 162)) 162 = Ok (Some (splice (uninit 162) 0 (gsm_text cs)), mlen (gsm_text cs))) as ->.
  { unfold sms_gsm7_unpack. destruct (Z.eqb_spec (mlen (gsm_text cs)) 0) as [E0|E0].
    - destruct (gsm_text cs) as [|? ?]; [by rewrite splice_nil|].
      rewrite mlen_cons in E0. pose proof (mlen_nonneg l). lia.
    - destruct (Z.ltb_spec 162 (mlen (gsm_text cs))); [lia|]. rewrite !u64_small by lia.
      destruct (Z.ltb_spec (octets * 8) ((off + mlen (gsm_text cs)) * 7)); [lia|].
      rewrite unpack_loop_reads by (rewrite ?mlen_put_septets, ?mlen_uninit; unfold total in *; lia).
      bstep. rewrite Z.add_0_r, i32_small by lia. unfold mlen at 1. rewrite Nat2Z.id.
      by rewrite septets_back by (done || lia || by apply gsm_text_ok). }
  bstep. destruct (Z.ltb_spec (mlen (gsm_text cs)) 0); [lia|]. unfold sms_gsm7_to_utf8.
  destruct (Z.eqb_spec cap' 0); [lia|].
  pose proof (length_gsm_text cs).
  rewrite (to_utf8_loop_text _ _ _ cs) by (done || lia || (rewrite ?mlen_splice; mlia) ||
    (apply holds_splice; mlia)). bstep. rewrite Z.add_0_l, i32_small by lia.
  by rewrite splice_cover by mlia.
Qed.

Lemma ucs2_decodes : mlen h + mlen (utf16_text cs) <= 140 →
  let k := mlen h + mlen (utf16_text cs) in
  decodes {| o_buf := splice (splice b 0 h) (mlen h) (utf16_text cs); o_udl := k;
             o_dcs := sms_dcs_make SMS_ALPHA_UCS2 (-1); o_rc := k |} k.
Proof using All.
  intros Hk k. pose proof (mlen_nonneg h). pose proof (mlen_nonneg (utf16_text cs)).
  pose proof (mlen_nonneg (text cs)). unfold SMS_UD_MAX in *.
  assert (holds (splice (splice b 0 h) (mlen h) (utf16_text cs)) 0 h) as Hhold.
  { split_and!; [lia|rewrite !mlen_splice; rewrite ?mlen_splice; lia|].
    rewrite slice_splice_disj by (rewrite ?mlen_splice; lia). by apply slice_splice_same; lia. }
  split_and!; [done|done|]. cbn [o_buf o_udl o_dcs o_rc]. rewrite ud_to_utf8_enter by (done || lia).
  cbv zeta. pose proof (length_utf16_text cs). destruct (Z.eqb_spec k 0) as [E|E].
  { destruct cs as [|? ?]; [done|]. cbn [length] in *. lia. }
  change (sms_dcs_alphabet _ =? SMS_ALPHA_GSM7) with false.
  change (sms_dcs_alphabet _ =? SMS_ALPHA_UCS2) with true. cbn match.
  destruct (Z.ltb_spec k k); [lia|]. destruct (Z.ltb_spec k (mlen h)); [lia|]. cbn [orb].
  replace (k - mlen h) with (mlen (utf16_text cs)) by lia.
  rewrite (ucs2_loop_text _ _ _ _ cs); try (done || lia).
  - bstep. rewrite Z.add_0_l, i32_small by lia. by rewrite splice_cover by mlia.
  - rewrite Z.add_0_r. apply holds_splice; rewrite ?mlen_splice; lia.
  - rewrite mlen_splice; mlia.
Qed.

(** The encoder on each alphabet. *)
Lemma gsm_encodes : mlen h <= 140 →
  ∃ sep rc, sms_gsm7_from_utf8 (Some (text cs)) (mlen (text cs)) (Some (uninit SEP_LEN)) SEP_LEN =
      Ok (Some sep, rc) ∧
    if gsm_textb cs && (mlen (gsm_text cs) <=? SEP_LEN)
    then sep = splice (uninit SEP_LEN) 0 (gsm_text cs) ∧ rc = mlen (gsm_text cs)
    else rc = SMS_E_OVERFLOW ∧ SEP_LEN < mlen (gsm_text cs) ∨ rc = SMS_E_ALPHABET ∧ gsm_textb cs = false.
Proof using Hcs Ht.
  intros. unfold sms_gsm7_from_utf8. pose proof (length_text cs). pose proof (mlen_nonneg (text cs)).
  destruct (from_utf8_loop_text (text cs) (mlen (text cs)) SEP_LEN (text_ok cs Hcs) (Z.le_refl _) cs
    (S (Z.to_nat (mlen (text cs)))) 0 (uninit SEP_LEN) 0) as (sep & rc & -> & Hr); try done; try lia.
  { apply text_here. }
  rewrite Z.add_0_l in Hr. do 2 eexists. split; [done|].
  destruct (gsm_textb cs && (mlen (gsm_text cs) <=? SEP_LEN)) eqn:E; [|done].
  destruct Hr as [-> ->]. split; [done|]. pose proof (mlen_nonneg (gsm_text cs)).
  apply andb_true_iff in E as [_ E%Z.leb_le]. unfold SEP_LEN in *. by rewrite i32_small by lia.
Qed.
End roundtrip.

Lemma gsm_textb_Forall cs : gsm_textb cs = true → Forall (λ c, gsm_char c = true) cs.
Proof.
  unfold gsm_textb. rewrite forallb_forall. intros H. apply Forall_forall. intros c Hc.
  by apply H, list_elem_of_In.
Qed.

Lemma header_small h : header_ok h → mlen h <= 256.
Proof.
  intros [Hb [->|E]]; [by vm_compute|]. pose proof (get_range h 0 Hb). lia.
Qed.
Lemma ud_octets_header a h cs : header_ok h → mlen h <= ud_octets a h cs.
Proof.
  intros Hh%header_small. pose proof (mlen_nonneg h). pose proof (mlen_nonneg (gsm_text cs)).
  pose proof (mlen_nonneg (utf16_text cs)). unfold ud_octets, sms_gsm7_septet_off.
  destruct (a =? SMS_ALPHA_GSM7); [|lia]. rewrite u64_small by lia.
  Z.to_euclidean_division_equations; lia.
Qed.

(** The 7-bit branch of the encoder, once the header is in place. *)
Lemma gsm_branch cs h b out cap cap' : Forall scalar cs → mlen (text cs) < 1073741824 → header_ok h →
  bytes_ok b → SMS_UD_MAX <= cap <= mlen b → mlen (text cs) < cap' <= mlen out → mlen h <= 140 →
  ∃ o, ('(sep, ns) ← sms_gsm7_from_utf8 (Some (text cs)) (mlen (text cs)) (Some (uninit SEP_LEN)) SEP_LEN;
        if ns =? SMS_E_OVERFLOW then Ok (ud_fail (splice b 0 h) SMS_E_LENGTH) else
        if ns <? 0 then Ok (ud_fail (splice b 0 h) ns) else
        let off := sms_gsm7_septet_off (mlen h) in
        let total := off + ns in
        if 255 <? total then Ok (ud_fail (splice b 0 h) SMS_E_LENGTH) else
        let octets := (total * 7 + 7) / 8 in
        if SMS_UD_MAX <? octets then Ok (ud_fail (splice b 0 h) SMS_E_LENGTH) else
        if cap <? octets then Ok (ud_fail (splice b 0 h) SMS_E_OVERFLOW) else
        b ← wrn (splice b 0 h) (mlen h) (zeros (octets - mlen h));
        '(b', rc) ← sms_gsm7_pack sep ns off (Some b) cap;
        let b := default [] b' in
        if rc <? 0 then Ok (ud_fail b rc) else
        Ok {| o_buf := b; o_udl := u8 total; o_dcs := sms_dcs_make SMS_ALPHA_GSM7 (-1); o_rc := rc |})
    = Ok o ∧
    if gsm_textb cs && (ud_octets SMS_ALPHA_GSM7 h cs <=? SMS_UD_MAX)
    then decodes cs h out cap' o (ud_octets SMS_ALPHA_GSM7 h cs) else o_rc o < 0.
Proof.
  intros Hcs Ht Hh Hb Hcap Hout Hh140. unfold SMS_UD_MAX in *.
  destruct (septet_off_range h Hh140) as [Ho Ho0]. pose proof (mlen_nonneg (gsm_text cs)).
  pose proof (mlen_nonneg h). pose proof (ud_octets_header SMS_ALPHA_GSM7 h cs Hh) as Hoh.
  destruct (gsm_encodes cs h Hcs Ht Hh140) as (sep & rc & -> & Hr). bstep.
  change (ud_octets SMS_ALPHA_GSM7 h cs) with
    (((sms_gsm7_septet_off (mlen h) + mlen (gsm_text cs)) * 7 + 7) / 8) in *.
  set (off := sms_gsm7_septet_off (mlen h)) in *. pose proof (octets_small (off + mlen (gsm_text cs))).
  destruct (gsm_textb cs) eqn:Eg; cbn [andb] in *.
  2: { destruct Hr as [[-> _]|[-> _]]; eexists; split; done. }
  unfold SEP_LEN in *. destruct (Z.leb_spec (mlen (gsm_text cs)) 162).
  2: { destruct Hr as [[-> ?]|[_ ?]]; [|done]. eexists. split; [done|].
       destruct (Z.leb_spec ((((off + mlen (gsm_text cs)) * 7 + 7) / 8)) 140); [lia|done]. }
  destruct Hr as [-> ->]. destruct (Z.eqb_spec (mlen (gsm_text cs)) SMS_E_OVERFLOW) as [E|_];
    [unfold SMS_E_OVERFLOW in E; lia|]. destruct (Z.ltb_spec (mlen (gsm_text cs)) 0); [lia|].
  set (octets := ((off + mlen (gsm_text cs)) * 7 + 7) / 8) in *.
  destruct (Z.leb_spec octets 140) as [Hle|Hgt].
  2: { destruct (255 <? _); [by eexists|]. destruct (Z.ltb_spec 140 octets); [by eexists|lia]. }
  destruct (Z.ltb_spec 255 (off + mlen (gsm_text cs))); [lia|].
  destruct (Z.ltb_spec 140 octets); [lia|]. destruct (Z.ltb_spec cap octets); [lia|].
  rewrite wrn_first by (rewrite ?mlen_splice; mlia). unfold sms_gsm7_pack.
  rewrite u64_small by lia. fold octets. destruct (Z.ltb_spec cap octets); [lia|].
  rewrite splice_0. pose proof (gsm_textb_Forall cs Eg) as Hg.
  assert (8 * octets >= (off + mlen (gsm_text cs)) * 7) as H8
    by (unfold octets; Z.to_euclidean_division_equations; lia).
  pose proof (pack_loop_puts (gsm_text cs) (drop (length (gsm_text cs)) (uninit 162)) [] off) as Hp.
  rewrite mlen_nil, Z.add_0_r in Hp. cbn [app] in Hp. rewrite Hp; clear Hp; try done.
  - bstep. cbn [default]. rewrite i32_small by lia. destruct (Z.ltb_spec octets 0); [lia|].
    eexists. split; [done|]. rewrite u8_small by lia. apply (gsm_decodes cs h b out cap); done || lia.
  - unfold mlen. by rewrite Nat2Z.id.
  - by apply gsm_text_ok.
  - apply bytes_ok_splice; [apply bytes_ok_splice; [done|apply Hh]|bytes_tac].
  - rewrite !mlen_splice; rewrite ?mlen_splice; mlia.
Qed.

Lemma ucs2_branch cs h b out cap cap' : Forall scalar cs → mlen (text cs) < 1073741824 → header_ok h →
  bytes_ok b → SMS_UD_MAX <= cap <= mlen b → mlen (text cs) < cap' <= mlen out → mlen h <= 140 →
  ∃ o, ('(b, k) ← to_ucs2_loop (S (Z.to_nat (mlen (text cs)))) (text cs) (mlen (text cs)) 0
                    (splice b 0 h) (mlen h) cap;
        if k <? 0 then Ok (ud_fail b k) else
        Ok {| o_buf := b; o_udl := u8 k; o_dcs := sms_dcs_make SMS_ALPHA_UCS2 (-1); o_rc := k |}) = Ok o ∧
    if ud_octets SMS_ALPHA_UCS2 h cs <=? SMS_UD_MAX
    then decodes cs h out cap' o (ud_octets SMS_ALPHA_UCS2 h cs) else o_rc o < 0.
Proof.
  intros Hcs Ht Hh Hb Hcap Hout Hh140. unfold SMS_UD_MAX in *. pose proof (mlen_nonneg h).
  change (ud_octets SMS_ALPHA_UCS2 h cs) with (mlen h + mlen (utf16_text cs)).
  pose proof (length_text cs). pose proof (mlen_nonneg (utf16_text cs)).
  pose proof (to_ucs2_loop_text (text cs) (mlen (text cs)) cap (text_ok cs Hcs) (Z.le_refl _)
    (proj1 Hcap) cs (S (Z.to_nat (mlen (text cs)))) 0 (splice b 0 h) (mlen h)) as Hl.
  unfold SMS_UD_MAX in *. rewrite mlen_splice in Hl by lia.
  destruct (Z.leb_spec (mlen h + mlen (utf16_text cs)) 140).
  - rewrite Hl by (done || lia || apply text_here). bstep.
    destruct (Z.ltb_spec (mlen h + mlen (utf16_text cs)) 0); [lia|]. eexists. split; [done|].
    rewrite u8_small by lia. by apply (ucs2_decodes cs h b out cap).
  - destruct Hl as (b' & rc & -> & Hrc); try (done || lia || apply text_here). bstep.
    destruct Hrc as [->|[-> _]]; eexists; split; done.
Qed.

(** C40: a text that goes into one message comes out of it.  With the alphabet
    chosen (or left to the encoder, which takes the 7-bit one when every character
    is in it), any user data header in front and a buffer for a whole message, the
    encoder succeeds exactly when the alphabet has every character and header and
    text take at most 140 octets; it then reports that number of octets, has put
    the header in front, and the decoder, given the data coding, the indication of
    a header and the lengths it stored, yields the text with its final NUL.
    Otherwise it reports an error. *)
Theorem sms_ud_roundtrip cs alpha h b cap out cap' :
  Forall scalar cs → mlen (text cs) < 1073741824 → header_ok h → bytes_ok b →
  SMS_UD_MAX <= cap <= mlen b → mlen (text cs) < cap' <= mlen out →
  alpha ∈ [SMS_ALPHA_AUTO; SMS_ALPHA_GSM7; SMS_ALPHA_UCS2] →
  let a := pick alpha cs in
  ∃ o, sms_ud_from_utf8 (Some (text cs)) (mlen (text cs)) alpha (Some h) (mlen h) (Some b) cap true true
      = Ok o ∧
    if writes a cs && (ud_octets a h cs <=? SMS_UD_MAX)
    then decodes cs h out cap' o (ud_octets a h cs) else o_rc o < 0.
Proof.
  intros Hcs Ht Hh Hb Hcap Hout Ha a. unfold sms_ud_from_utf8, SMS_UD_MAX in *. cbn [andb].
  rewrite header_checked by done. bstep. pose proof (mlen_nonneg h).
  assert (a = SMS_ALPHA_GSM7 ∨ a = SMS_ALPHA_UCS2) as Ha'.
  { apply list_elem_of_In in Ha. unfold a, pick. simpl in Ha.
    destruct_or! Ha; try done; subst alpha; cbn; [destruct (gsm_textb cs)|..]; auto. }
  pose proof (ud_octets_header a h cs Hh). destruct (Z.ltb_spec 140 (mlen h)).
  { eexists. split; [done|].
    destruct (Z.leb_spec (ud_octets a h cs) 140); [lia|by rewrite andb_false_r]. }
  rewrite picked by done. fold a. bstep. destruct (Z.ltb_spec cap (mlen h)); [lia|].
  rewrite andb_false_r. cbn [default]. rewrite header_copied by lia. bstep.
  destruct Ha' as [-> | ->]; [by apply gsm_branch|by apply ucs2_branch].
Qed.

(** The euro sign takes the extension table. *)
Lemma sms_ud_roundtrip_witness :
  ∃ o, sms_ud_from_utf8 (Some (text [8364; 33])) (mlen (text [8364; 33])) SMS_ALPHA_AUTO
         (Some [5; 0; 3; 7; 2; 1]) (mlen [5; 0; 3; 7; 2; 1]) (Some (zeros 140)) 140 true true = Ok o ∧
    decodes [8364; 33] [5; 0; 3; 7; 2; 1] (zeros 10) 10 o
      (ud_octets SMS_ALPHA_GSM7 [5; 0; 3; 7; 2; 1] [8364; 33]).
Proof.
  assert (Forall scalar [8364; 33]) as Hs by (repeat constructor; unfold scalar; lia).
  assert (header_ok [5; 0; 3; 7; 2; 1]) as Hh by (split; [bytes_tac|by right]).
  assert (SMS_ALPHA_AUTO ∈ [SMS_ALPHA_AUTO; SMS_ALPHA_GSM7; SMS_ALPHA_UCS2]) as Ha by left.
  pose proof (sms_ud_roundtrip [8364; 33] SMS_ALPHA_AUTO [5; 0; 3; 7; 2; 1] (zeros 140) 140 (zeros 10) 10
    Hs ltac:(by vm_compute) Hh (bytes_ok_zeros 140) ltac:(by vm_compute) ltac:(by vm_compute) Ha) as H.
  cbv zeta in H. assert (pick SMS_ALPHA_AUTO [8364; 33] = SMS_ALPHA_GSM7) as E by by vm_compute.
  rewrite E in H.
  assert ((writes SMS_ALPHA_GSM7 [8364; 33] &&
    (ud_octets SMS_ALPHA_GSM7 [5; 0; 3; 7; 2; 1] [8364; 33] <=? SMS_UD_MAX)) = true) as E2 by by vm_compute.
  rewrite E2 in H. exact H.
Defined.

(** With a buffer of exactly one message a UCS2 text of 71 characters is reported
    as a buffer overflow, a 7-bit one of 161 as too long. *)
Lemma sms_ucs2_exact_buffer :
  (o ← sms_ud_from_utf8 (Some (replicate 71 97)) 71 SMS_ALPHA_UCS2 None 0 (Some (zeros 140)) 140
         true true; Ok (o_rc o)) = Ok SMS_E_OVERFLOW ∧
  (o ← sms_ud_from_utf8 (Some (replicate 161 97)) 161 SMS_ALPHA_GSM7 None 0 (Some (zeros 140)) 140
         true true; Ok (o_rc o)) = Ok SMS_E_LENGTH.
Proof. by vm_compute. Qed.
