(* ===== verification/SmsTime.v ===== *)
(** * SmsTime: time stamps and validity periods

    Models the time-stamp and validity-period parts of [sms/src/sms.c]: the seven
    semi-octets of a service-centre time stamp, the conversions between a civil
    date and Unix time, the ISO 8601 rendering, and the four ranges of the
    relative validity period.  The calendar functions are compared with a
    reference calendar, the sums of the lengths of years and months. *)

From S2P Require Import Prelude Endian SmsIntl.

Definition SMS_YEAR_PIVOT : Z := 70.

Definition i16 (x : Z) : Z := let y := u16 x in if y <? 32768 then y else y - 65536.
Definition i8 (x : Z) : Z := let y := u8 x in if y <? 128 then y else y - 256.

Record sms_ts := SmsTs {
  ts_year : Z; ts_mon : Z; ts_day : Z; ts_hour : Z; ts_min : Z; ts_sec : Z; ts_tz_qh : Z }.

(** [memset] leaves this. *)
Definition zero_ts : sms_ts := SmsTs 0 0 0 0 0 0 0.

(** ** Wire format *)

(** The count returned on success is 7. *)
Definition sms_ts_decode (b : option mem) (n : Z) : res (sms_ts * Z) :=
  match b with
  | None => Err SMS_E_INVAL
  | Some b =>
      if n <? 7 then Err SMS_E_SHORT else
      b0 ← rd b 0; b1 ← rd b 1; b2 ← rd b 2; b3 ← rd b 3; b4 ← rd b 4; b5 ← rd b 5;
      let yy := sms_bcd2 b0 in let mo := sms_bcd2 b1 in let dd := sms_bcd2 b2 in
      let hh := sms_bcd2 b3 in let mi := sms_bcd2 b4 in let ss := sms_bcd2 b5 in
      if (yy <? 0) || (mo <? 0) || (dd <? 0) || (hh <? 0) || (mi <? 0) || (ss <? 0)
      then Err SMS_E_LENGTH else
      tz ← rd b 6;
      let neg := negb (Z.land tz 8 =? 0) in
      let tens := Z.land tz 7 in
      let units := Z.land (Z.shiftr tz 4) 15 in
      if 9 <? units then Err SMS_E_LENGTH else
      let qh := tens * 10 + units in
      if 48 <? qh then Err SMS_E_LENGTH else
      Ok (SmsTs (i16 (if yy <? SMS_YEAR_PIVOT then 2000 + yy else 1900 + yy))
            (u8 mo) (u8 dd) (u8 hh) (u8 mi) (u8 ss) (i8 (if neg then - qh else qh)), 7)
  end.

Definition sms_ts_encode (b : option mem) (cap : Z) (t : option sms_ts) : res (mem * Z) :=
  match b, t with
  | Some b, Some t =>
      if cap <? 7 then Err SMS_E_OVERFLOW else
      if (ts_year t <? 1970) || (2069 <? ts_year t) || (12 <? ts_mon t) || (31 <? ts_day t) ||
         (23 <? ts_hour t) || (59 <? ts_min t) || (59 <? ts_sec t) || (ts_tz_qh t <? -48) ||
         (48 <? ts_tz_qh t) then Err SMS_E_INVAL else
      let yy := u32 (Z.rem (ts_year t) 100) in
      b ← wr b 0 (sms_bcd2_enc yy);
      b ← wr b 1 (sms_bcd2_enc (ts_mon t));
      b ← wr b 2 (sms_bcd2_enc (ts_day t));
      b ← wr b 3 (sms_bcd2_enc (ts_hour t));
      b ← wr b 4 (sms_bcd2_enc (ts_min t));
      b ← wr b 5 (sms_bcd2_enc (ts_sec t));
      let qh := if ts_tz_qh t <? 0 then - ts_tz_qh t else ts_tz_qh t in
      let tz := u8 (Z.lor (Z.shiftl (u32 qh mod 10) 4) (u32 qh / 10)) in
      let tz := if ts_tz_qh t <? 0 then Z.lor tz 8 else tz in
      b ← wr b 6 tz;
      Ok (b, 7)
  | _, _ => Err SMS_E_INVAL
  end.

(** ** Calendar *)

(** A signed 64-bit result, undefined when it does not fit. *)
Definition s64 (x : Z) : res Z :=
  if (-9223372036854775808 <=? x) && (x <=? 9223372036854775807) then Ok x else Ub.

(** [y] is an [int] far from its limits; the rest is 64-bit or unsigned 32-bit. *)
Definition days_from_civil (y m d : Z) : Z :=
  let y := if m <=? 2 then y - 1 else y in
  let era := Z.quot (if 0 <=? y then y else y - 399) 400 in
  let yoe := u32 (y - era * 400) in
  let doy := u32 (u32 (u32 (153 * u32 (m + (if 2 <? m then u32 (-3) else 9))) + 2) / 5 + d - 1) in
  let doe := u32 (yoe * 365 + yoe / 4 - yoe / 100 + doy) in
  era * 146097 + doe - 719468.

(** Year, month and day. *)
Definition civil_from_days (z : Z) : res (Z * Z * Z) :=
  z ← s64 (z + 719468);
  t ← (if 0 <=? z then Ok z else s64 (z - 146096));
  let era := Z.quot t 146097 in
  let doe := u32 (z - era * 146097) in
  let yoe := u32 (doe - doe / 1460 + doe / 36524 - doe / 146096) / 365 in
  let yy := i32 (yoe + era * 400) in
  let doy := u32 (doe - u32 (365 * yoe + yoe / 4 - yoe / 100)) in
  let mp := u32 (5 * doy + 2) / 153 in
  let d := u32 (doy - u32 (153 * mp + 2) / 5 + 1) in
  let m := u32 (mp + (if mp <? 10 then 3 else u32 (-9))) in
  Ok (yy + (if m <=? 2 then 1 else 0), m, d).

(** -1 for fields out of range or a NULL argument. *)
Definition sms_ts_unix (t : option sms_ts) : Z :=
  match t with
  | None => -1
  | Some t =>
      if (ts_mon t <? 1) || (12 <? ts_mon t) || (ts_day t <? 1) || (31 <? ts_day t) ||
         (23 <? ts_hour t) || (59 <? ts_min t) || (59 <? ts_sec t) then -1 else
      let days := days_from_civil (ts_year t) (ts_mon t) (ts_day t) in
      let secs := days * 86400 + ts_hour t * 3600 + ts_min t * 60 + ts_sec t in
      secs - ts_tz_qh t * 900
  end.

(** [None] when the output is not given. *)
Definition sms_ts_from_unix (out : bool) (secs tz_qh : Z) : res (option sms_ts) :=
  if negb out then Ok None else
  let tz_qh := if tz_qh <? -48 then -48 else tz_qh in
  let tz_qh := if 48 <? tz_qh then 48 else tz_qh in
  local ← s64 (secs + tz_qh * 900);
  let days := Z.quot local 86400 in
  let rem := Z.rem local 86400 in
  let '(days, rem) := if rem <? 0 then (days - 1, rem + 86400) else (days, rem) in
  '(y, m, d) ← civil_from_days days;
  Ok (Some (SmsTs (i16 y) (u8 m) (u8 d) (u8 (rem / 3600)) (u8 (rem mod 3600 / 60)) (u8 (rem mod 60))
              (i8 tz_qh))).

(** ** ISO 8601 *)

(** Writes two digits at [p]. *)
Definition put2 (out : mem) (p v : Z) : res (mem * Z) :=
  out ← wr out p (u8 (48 + (v / 10) mod 10));
  out ← wr out (p + 1) (u8 (48 + v mod 10));
  Ok (out, p + 2).

Definition put_char (out : mem) (p c : Z) : res (mem * Z) :=
  out ← wr out p c; Ok (out, p + 1).

Definition sms_ts_iso8601 (t : option sms_ts) (out : option mem) (cap : Z) : res (mem * Z) :=
  match t, out with
  | Some t, Some out =>
      if cap <? 26 then Err SMS_E_OVERFLOW else
      '(out, p) ← put2 out 0 (u32 (Z.quot (ts_year t) 100));
      '(out, p) ← put2 out p (u32 (Z.rem (ts_year t) 100));
      '(out, p) ← put_char out p 45;
      '(out, p) ← put2 out p (ts_mon t);
      '(out, p) ← put_char out p 45;
      '(out, p) ← put2 out p (ts_day t);
      '(out, p) ← put_char out p 84;
      '(out, p) ← put2 out p (ts_hour t);
      '(out, p) ← put_char out p 58;
      '(out, p) ← put2 out p (ts_min t);
      '(out, p) ← put_char out p 58;
      '(out, p) ← put2 out p (ts_sec t);
      let qh := ts_tz_qh t in
      '(out, p) ← put_char out p (if qh <? 0 then 45 else 43);
      let qh := if qh <? 0 then - qh else qh in
      '(out, p) ← put2 out p (u32 qh / 4);
      '(out, p) ← put_char out p 58;
      '(out, p) ← put2 out p (u32 qh mod 4 * 15);
      out ← wr out p 0;
      Ok (out, p)
  | _, _ => Err SMS_E_INVAL
  end.

(** ** Validity period *)

Definition sms_vp_secs (rel : Z) : Z :=
  if rel <=? 143 then u32 ((rel + 1) * 5 * 60)
  else if rel <=? 167 then u32 (12 * 3600 + (rel - 143) * 30 * 60)
  else if rel <=? 196 then u32 ((rel - 166) * 86400)
  else u32 ((rel - 192) * 7 * 86400).

Definition sms_vp_rel_from_secs (secs : Z) : Z :=
  if secs <=? 12 * 3600 then
    let units := u32 (secs + 299) / 300 in
    let units := if units =? 0 then 1 else units in
    u8 (units - 1)
  else if secs <=? 24 * 3600 then
    let units := u32 (secs - 12 * 3600 + 1799) / 1800 in
    let units := if units =? 0 then 1 else units in
    u8 (143 + units)
  else if secs <=? 30 * 86400 then
    let days := u32 (secs + 86399) / 86400 in
    u8 (166 + days)
  else
    let weeks := u32 (secs + 7 * 86400 - 1) / (7 * 86400) in
    let weeks := if 63 <? weeks then 63 else weeks in
    u8 (192 + weeks).

Lemma i16_id x : -32768 <= x < 32768 → i16 x = x.
Proof.
  intros. unfold i16, u16. destruct (Z.ltb_spec (x mod 65536) 32768); Z.to_euclidean_division_equations; lia.
Qed.
Lemma i8_id x : -128 <= x < 128 → i8 x = x.
Proof.
  intros. unfold i8, u8. destruct (Z.ltb_spec (x mod 256) 128); Z.to_euclidean_division_equations; lia.
Qed.

(** ** The wire form *)

(** Takes the branch behind a guard that does not hold. *)
Ltac guard_false :=
  match goal with |- context [if ?c then Err _ else _] => replace c with false by (symmetry; lia) end.

Definition tz_octet (tz : Z) : Z :=
  let qh := if tz <? 0 then - tz else tz in
  let o := u8 (Z.lor (Z.shiftl (u32 qh mod 10) 4) (u32 qh / 10)) in
  if tz <? 0 then Z.lor o 8 else o.

Definition ts_bytes (t : sms_ts) : list Z :=
  [sms_bcd2_enc (ts_year t mod 100); sms_bcd2_enc (ts_mon t); sms_bcd2_enc (ts_day t);
   sms_bcd2_enc (ts_hour t); sms_bcd2_enc (ts_min t); sms_bcd2_enc (ts_sec t); tz_octet (ts_tz_qh t)].

(** What the encoder accepts. *)
Definition ts_fits (t : sms_ts) : Prop :=
  1970 <= ts_year t <= 2069 ∧ 0 <= ts_mon t <= 12 ∧ 0 <= ts_day t <= 31 ∧ 0 <= ts_hour t <= 23 ∧
  0 <= ts_min t <= 59 ∧ 0 <= ts_sec t <= 59 ∧ -48 <= ts_tz_qh t <= 48.

(** A statement about a small range, by evaluation. *)
Lemma by_range (P : Z → bool) lo n x :
  forallb P (seqZ lo n) = true → lo <= x < lo + n → P x = true.
Proof. intros H Hx. rewrite forallb_forall in H. apply H, list_elem_of_In, elem_of_seqZ. lia. Qed.

Lemma bcd2_back v : 0 <= v < 100 → sms_bcd2 (sms_bcd2_enc v) = v ∧ 0 <= sms_bcd2_enc v < 256.
Proof.
  intros H. split; [|apply u8_range].
  apply Z.eqb_eq. apply (by_range (λ v, sms_bcd2 (sms_bcd2_enc v) =? v) 0 100); [by vm_compute|lia].
Qed.

(** The offset the decoder reads from the last octet. *)
Definition tz_of (o : Z) : option Z :=
  let qh := Z.land o 7 * 10 + Z.land (Z.shiftr o 4) 15 in
  if (9 <? Z.land (Z.shiftr o 4) 15) || (48 <? qh) then None
  else Some (if negb (Z.land o 8 =? 0) then - qh else qh).

Definition tz_agrees (tz : Z) : bool :=
  match tz_of (tz_octet tz) with Some x => x =? tz | None => false end &&
  ((0 <=? tz_octet tz) && (tz_octet tz <? 256)).

Lemma tz_back tz : -48 <= tz <= 48 → tz_of (tz_octet tz) = Some tz ∧ 0 <= tz_octet tz < 256.
Proof.
  intros H. assert (tz_agrees tz = true) as E by (apply (by_range tz_agrees (-48) 97); [by vm_compute|lia]).
  unfold tz_agrees in E. destruct (tz_of (tz_octet tz)) as [x|]; [|done]. split; [f_equal|]; lia.
Qed.

Lemma ts_bytes_ok t : ts_fits t → bytes_ok (ts_bytes t).
Proof.
  intros (? & ? & ? & ? & ? & ? & Hz). unfold ts_bytes. pose proof (proj2 (tz_back _ Hz)).
  repeat apply Forall_cons_2; try (apply u8_range); try done.
Qed.
Lemma mlen_ts_bytes t : mlen (ts_bytes t) = 7.
Proof. done. Qed.

Lemma sms_ts_encode_bytes b cap t : ts_fits t → 7 <= cap → 7 <= mlen b →
  sms_ts_encode (Some b) cap (Some t) = Ok (splice b 0 (ts_bytes t), 7).
Proof.
  intros (? & ? & ? & ? & ? & ? & ?) Hc Hb. unfold sms_ts_encode.
  destruct (Z.ltb_spec cap 7); [lia|]. guard_false. cbv zeta.
  assert (u32 (Z.rem (ts_year t) 100) = ts_year t mod 100) as ->.
  { rewrite Z.rem_mod_nonneg by lia. apply u32_small. Z.to_euclidean_division_equations; lia. }
  fold (tz_octet (ts_tz_qh t)). rewrite wr_wrn, wrn_first by mlia.
  do 6 (rewrite wr_wrn, wrn_next by mlia). done.
Qed.

Lemma rd_holds m p i bs : holds m p bs → 0 <= i < mlen bs → rd m (p + i) = Ok (get bs i).
Proof.
  intros (Hp & Hl & Hs) Hi. rewrite rd_Ok by lia. by rewrite <-Hs, get_slice by lia.
Qed.

Lemma sms_ts_decode_bytes b n t : ts_fits t → 7 <= n → holds b 0 (ts_bytes t) →
  sms_ts_decode (Some b) n = Ok (t, 7).
Proof.
  intros (? & ? & ? & ? & ? & ? & Hz) Hn Hb. unfold sms_ts_decode. destruct (Z.ltb_spec n 7); [lia|].
  assert (∀ i, 0 <= i < 7 → rd b i = Ok (get (ts_bytes t) i)) as Hr by (intros i; apply (rd_holds b 0 i _ Hb)).
  rewrite (Hr 0), (Hr 1), (Hr 2), (Hr 3), (Hr 4), (Hr 5), (Hr 6) by lia. bstep.
  unfold get, ts_bytes. nat_consts. cbn [nth]. 
  rewrite !(λ v H, proj1 (bcd2_back v H)) by (Z.to_euclidean_division_equations; lia). cbv zeta.
  destruct (tz_back _ Hz) as [E _]. unfold tz_of in E.
  destruct (9 <? _); [done|]. destruct (48 <? _); [done|]. cbn [orb] in E. injection E as E. rewrite E.
  destruct (Z.ltb_spec (ts_year t mod 100) SMS_YEAR_PIVOT) as [Hp|Hp]; unfold SMS_YEAR_PIVOT in Hp;
  rewrite i16_id, !u8_small, i8_id by (Z.to_euclidean_division_equations; lia);
  pose proof (Z.mod_pos_bound (ts_year t) 100); guard_false.
  all: do 2 f_equal; destruct t; cbn in *; f_equal; Z.to_euclidean_division_equations; lia.
Qed.

(** Reading seven octets of any buffer. *)
Lemma bcd2_range o : -1 <= sms_bcd2 o <= 99.
Proof.
  unfold sms_bcd2. destruct (Z.ltb_spec 9 (Z.land o 15)); [cbn; lia|].
  destruct (Z.ltb_spec 9 (u8 (Z.shiftr o 4))); [cbn; lia|]. cbn [orb].
  pose proof (u8_range (Z.shiftr o 4)). rewrite (land_low o 4) in * by done.
  pose proof (Z.mod_pos_bound o (2 ^ 4) ltac:(lia)). lia.
Qed.

Lemma sms_ts_decode_safe b n : bytes_ok b → 0 <= n <= mlen b →
  (∃ t, sms_ts_decode (Some b) n = Ok (t, 7) ∧ 7 <= n ∧ 1970 <= ts_year t <= 2069 ∧
    -48 <= ts_tz_qh t <= 48) ∨
  sms_ts_decode (Some b) n = Err SMS_E_SHORT ∧ n < 7 ∨ sms_ts_decode (Some b) n = Err SMS_E_LENGTH ∧ 7 <= n.
Proof.
  intros Hb Hn. unfold sms_ts_decode. destruct (Z.ltb_spec n 7); [by right; left|].
  rewrite !rd_Ok by lia. bstep. cbv zeta.
  destruct ((_ || _) : bool) eqn:E; [by right; right|]. bstep.
  destruct (Z.ltb_spec 9 (Z.land (Z.shiftr (get b 6) 4) 15)); [by right; right|].
  destruct (Z.ltb_spec 48 (Z.land (get b 6) 7 * 10 + Z.land (Z.shiftr (get b 6) 4) 15)); [by right; right|].
  left. eexists. split; [done|]. split; [done|]. cbn [ts_year ts_tz_qh].
  pose proof (bcd2_range (get b 0)).
  assert (0 <= sms_bcd2 (get b 0)) by (rewrite !orb_false_iff in E; lia).
  assert (0 <= Z.land (get b 6) 7 * 10 + Z.land (Z.shiftr (get b 6) 4) 15).
  { rewrite (land_low _ 3), (land_low _ 4) by done.
    pose proof (Z.mod_pos_bound (get b 6) (2 ^ 3) ltac:(lia)).
    pose proof (Z.mod_pos_bound (Z.shiftr (get b 6) 4) (2 ^ 4) ltac:(lia)). lia. }
  split.
  - unfold SMS_YEAR_PIVOT. destruct (Z.ltb_spec (sms_bcd2 (get b 0)) 70); rewrite i16_id; lia.
  - destruct (negb _); rewrite i8_id; lia.
Qed.

(** ** A reference calendar *)

Definition date : Type := Z * Z * Z.

Definition leap (y : Z) : bool := (y mod 4 =? 0) && (negb (y mod 100 =? 0) || (y mod 400 =? 0)).

Definition month_len (y m : Z) : Z :=
  if m =? 2 then if leap y then 29 else 28
  else if (m =? 4) || (m =? 6) || (m =? 9) || (m =? 11) then 30 else 31.

Definition valid_date (x : date) : Prop :=
  let '(y, m, d) := x in 1 <= m <= 12 ∧ 1 <= d <= month_len y m.

Definition next_day (x : date) : date :=
  let '(y, m, d) := x in
  if d <? month_len y m then (y, m, d + 1)
  else if m <? 12 then (y, m + 1, 1) else (y + 1, 1, 1).

Definition prev_day (x : date) : date :=
  let '(y, m, d) := x in
  if 1 <? d then (y, m, d - 1)
  else if 1 <? m then (y, m - 1, month_len y (m - 1)) else (y - 1, 12, 31).

(** The date [n] days after the first of January 1970, counted day by day. *)
Definition date_at (n : Z) : date :=
  match n with
  | 0 => (1970, 1, 1)
  | Zpos p => Pos.iter next_day (1970, 1, 1) p
  | Zneg p => Pos.iter prev_day (1970, 1, 1) p
  end.

(** *** Day numbers *)

(** Days of the years before [y], years that start in March. *)
Definition year_days (y : Z) : Z := 365 * y + y / 4 - y / 100 + y / 400.

(** Years that start in March, and the months of one counted from 0. *)
Definition march_year (y m : Z) : Z := if m <=? 2 then y - 1 else y.
Definition march_month (m : Z) : Z := if m <=? 2 then m + 9 else m - 3.
Definition day_number (x : date) : Z :=
  let '(y, m, d) := x in
  year_days (march_year y m) + (153 * march_month m + 2) / 5 + d - 719469.

Lemma quot_floor x n k : k = n - 1 → 0 < n → Z.quot (if 0 <=? x then x else x - k) n = x / n.
Proof.
  intros -> ?. destruct (Z.leb_spec 0 x); [by apply Z.quot_div_nonneg|].
  Z.to_euclidean_division_equations; nia.
Qed.

(** Evaluates sums and comparisons of numerals. *)
Ltac literals :=
  repeat match goal with
  | |- context [Z.pos ?a + Z.pos ?b] =>
      let v := eval vm_compute in (Z.pos a + Z.pos b) in change (Z.pos a + Z.pos b) with v
  | |- context [Z.pos ?a - Z.pos ?b] =>
      let v := eval vm_compute in (Z.pos a - Z.pos b) in change (Z.pos a - Z.pos b) with v
  end;
  cbn [Z.ltb Z.leb Z.eqb Z.compare Pos.compare Pos.compare_cont Pos.eqb orb] in *.

(** One goal per month. *)
Ltac month_split m :=
  let H := fresh in
  assert (m = 1 ∨ m = 2 ∨ m = 3 ∨ m = 4 ∨ m = 5 ∨ m = 6 ∨ m = 7 ∨ m = 8 ∨ m = 9 ∨ m = 10 ∨ m = 11 ∨
    m = 12) as H by lia;
  repeat destruct H as [H|H]; rewrite H in *; clear m H.

(** The day of the year, without a wrap. *)
Lemma day_of_year m d : 1 <= m <= 12 → 1 <= d <= 31 →
  u32 (u32 (u32 (153 * u32 (m + (if 2 <? m then u32 (-3) else 9))) + 2) / 5 + d - 1)
    = (153 * march_month m + 2) / 5 + d - 1 ∧ 0 <= (153 * march_month m + 2) / 5 + d - 1 <= 367.
Proof.
  intros Hm Hd.
  assert (u32 (m + (if 2 <? m then u32 (-3) else 9)) = march_month m) as ->.
  { change (u32 (-3)) with 4294967293. unfold march_month, u32.
    destruct (Z.ltb_spec 2 m), (Z.leb_spec m 2); try lia; Z.to_euclidean_division_equations; lia. }
  assert (0 <= march_month m <= 11) as Hmm by (unfold march_month; destruct (Z.leb_spec m 2); lia).
  rewrite (u32_small (153 * _)), (u32_small (_ + 2)) by lia.
  assert (0 <= (153 * march_month m + 2) / 5 <= 337) by (Z.to_euclidean_division_equations; lia).
  rewrite u32_small; lia.
Qed.

(** The code computes the day number. *)
Lemma days_from_civil_number y m d : 1 <= m <= 12 → 1 <= d <= 31 →
  days_from_civil y m d = day_number (y, m, d).
Proof.
  intros Hm Hd. destruct (day_of_year m d Hm Hd) as [E Hb].
  unfold days_from_civil, day_number, year_days. cbv zeta. rewrite E. fold (march_year y m).
  generalize dependent (march_year y m). intros y'. rewrite (quot_floor y' 400 399) by lia.
  assert (u32 (y' - y' / 400 * 400) = y' mod 400) as ->.
  { rewrite (Z.mod_eq y' 400), (Z.mul_comm 400) by lia. apply u32_small.
    Z.to_euclidean_division_equations; lia. }
  rewrite u32_small; Z.to_euclidean_division_equations; lia.
Qed.

(** *** The code's calendar is the reference *)

Lemma year_of_era doe : 0 <= doe < 146097 →
  let yoe := (doe - doe / 1460 + doe / 36524 - doe / 146096) / 365 in
  0 <= yoe < 400 ∧ year_days yoe <= doe < year_days (yoe + 1).
Proof.
  intros H yoe. unfold year_days.
  assert (doe / 146096 = 0 ∨ doe / 146096 = 1) as Hc by (Z.to_euclidean_division_equations; lia).
  assert (0 <= doe / 36524 <= 4) as Hb by (Z.to_euclidean_division_equations; lia).
  remember (doe / 36524) as b eqn:Eb. remember (doe / 146096) as c.
  assert (b = 0 ∨ b = 1 ∨ b = 2 ∨ b = 3 ∨ b = 4) as Hb' by lia. clear Hb.
  assert (100 * b <= yoe < 100 * b + 100 ∨ b = 4 ∧ yoe = 399).
  { subst yoe. destruct Hb' as [->|[->|[->|[->| ->]]]], Hc as [Hc|Hc]; rewrite Hc in *;
      Z.to_euclidean_division_equations; lia. }
  destruct Hb' as [->|[->|[->|[->| ->]]]], Hc as [Hc|Hc]; rewrite Hc in *; subst yoe;
    Z.to_euclidean_division_equations; lia.
Qed.

Lemma year_days_era y : year_days y = 146097 * (y / 400) + year_days (y mod 400).
Proof. unfold year_days. Z.to_euclidean_division_equations; lia. Qed.

(** A day number determines the March year it falls in. *)
Lemma year_days_mono y y' : y <= y' → year_days y <= year_days y'.
Proof. unfold year_days. intros. Z.to_euclidean_division_equations; lia. Qed.

Definition day_of (m d : Z) : Z := (153 * march_month m + 2) / 5 + d - 1.

Lemma leap_days y : year_days y - year_days (y - 1) = if leap y then 366 else 365.
Proof.
  unfold year_days, leap.
  destruct (Z.eqb_spec (y mod 4) 0), (Z.eqb_spec (y mod 100) 0), (Z.eqb_spec (y mod 400) 0);
    cbn [andb orb negb]; Z.to_euclidean_division_equations; lia.
Qed.

(** The day of a valid date lies in its year and gives back the month. *)
Lemma day_of_spec y m d : valid_date (y, m, d) →
  0 <= day_of m d ∧ year_days (march_year y m) + day_of m d < year_days (march_year y m + 1) ∧
  (5 * day_of m d + 2) / 153 = march_month m.
Proof.
  intros [Hm Hd]. pose proof (leap_days (march_year y m + 1)) as Hl.
  replace (march_year y m + 1 - 1) with (march_year y m) in Hl by lia.
  assert (year_days (march_year y m) + 365 <= year_days (march_year y m + 1)) by (destruct (leap _); lia).
  unfold day_of. month_split m; unfold month_len, march_month, march_year in *;
    cbn [Z.leb Z.eqb Z.compare Pos.compare Pos.compare_cont Pos.eqb orb] in *;
    match goal with |- context [(153 * ?k + 2) / 5] =>
      let v := eval vm_compute in ((153 * k + 2) / 5) in change ((153 * k + 2) / 5) with v end;
    try (split_and!; [lia|lia|Z.to_euclidean_division_equations; lia]).
  all: replace (y - 1 + 1) with y in * by lia; destruct (leap y);
    (split_and!; [lia|lia|Z.to_euclidean_division_equations; lia]).
Qed.

Lemma day_number_of y m d : day_number (y, m, d) = year_days (march_year y m) + day_of m d - 719468.
Proof. unfold day_number, day_of. lia. Qed.

(** Day numbers whose year is far from the limits of [int]. *)
Definition day_range (z : Z) : Prop := -100000000000 <= z <= 100000000000.

Lemma month_len_range y m : 28 <= month_len y m <= 31.
Proof. unfold month_len. repeat case_match; lia. Qed.
Lemma i32_id x : -2147483648 <= x < 2147483648 → i32 x = x.
Proof. intros H. rewrite <-(i32_u32 x H) at 2. unfold i32, u32. by rewrite Z.mod_mod by lia. Qed.
Lemma s64_small x : -9223372036854775808 <= x <= 9223372036854775807 → s64 x = Ok x.
Proof.
  intros. unfold s64. by rewrite (proj2 (Z.leb_le _ x)), (proj2 (Z.leb_le x _)) by lia.
Qed.

(** The year of the era the code computes is the one the day number falls in. *)
Lemma march_year_found D y : year_days y <= D < year_days (y + 1) →
  let doe := D mod 146097 in
  (doe - doe / 1460 + doe / 36524 - doe / 146096) / 365 + D / 146097 * 400 = y.
Proof.
  intros H doe. pose proof (Z.mod_pos_bound D 146097 ltac:(lia)) as Hd. fold doe in Hd.
  destruct (year_of_era doe Hd) as [Hy Hr].
  set (yoe := (doe - doe / 1460 + doe / 36524 - doe / 146096) / 365) in *.
  assert (∀ e, 0 <= e <= 400 → year_days (e + D / 146097 * 400) = 146097 * (D / 146097) + year_days e) as Ha.
  { intros e He. unfold year_days. Z.to_euclidean_division_equations; lia. }
  pose proof (Ha yoe ltac:(lia)) as H1. pose proof (Ha (yoe + 1) ltac:(lia)) as H2.
  assert (D = 146097 * (D / 146097) + doe) as HD by (unfold doe; apply Z.div_mod; lia).
  replace (yoe + 1 + D / 146097 * 400) with (yoe + D / 146097 * 400 + 1) in H2 by lia.
  set (y' := yoe + D / 146097 * 400) in *.
  destruct (Z.lt_trichotomy y' y) as [?|[?|?]]; [|done|].
  - pose proof (year_days_mono (y' + 1) y ltac:(lia)). lia.
  - pose proof (year_days_mono (y + 1) y' ltac:(lia)). lia.
Qed.

Lemma civil_of_number y m d : valid_date (y, m, d) → day_range (day_number (y, m, d)) →
  civil_from_days (day_number (y, m, d)) = Ok (y, m, d).
Proof.
  intros Hv Hr. destruct (day_of_spec y m d Hv) as (H0 & H1 & H2). destruct Hv as [Hm Hd].
  assert (day_of m d < 366) by (pose proof (leap_days (march_year y m + 1)) as Hl;
    replace (march_year y m + 1 - 1) with (march_year y m) in Hl by lia; destruct (leap _); lia).
  unfold day_range in Hr. rewrite day_number_of in *. unfold civil_from_days.
  set (Y := march_year y m) in *. set (k := day_of m d) in *.
  replace (year_days Y + k - 719468 + 719468) with (year_days Y + k) by lia. set (D := year_days Y + k) in *.
  rewrite s64_small by lia. bstep.
  assert ((if 0 <=? D then Ok D else s64 (D - 146096)) = Ok (if 0 <=? D then D else D - 146096)) as ->.
  { destruct (0 <=? D); [done|]. apply s64_small. lia. }
  bstep. cbv zeta. rewrite (quot_floor D 146097 146096) by lia.
  assert (u32 (D - D / 146097 * 146097) = D mod 146097) as ->.
  { rewrite (Z.mod_eq D), (Z.mul_comm 146097) by lia. apply u32_small. Z.to_euclidean_division_equations; lia. }
  pose proof (march_year_found D Y ltac:(lia)) as HY. cbv zeta in HY.
  pose proof (Z.mod_pos_bound D 146097 ltac:(lia)) as Hdoe.
  destruct (year_of_era _ Hdoe) as [Hyoe _]. set (doe := D mod 146097) in *.
  rewrite (u32_small (doe - doe / 1460 + doe / 36524 - doe / 146096)) by (Z.to_euclidean_division_equations; lia).
  set (yoe := (doe - doe / 1460 + doe / 36524 - doe / 146096) / 365) in *.
  assert (u32 (doe - u32 (365 * yoe + yoe / 4 - yoe / 100)) = k) as ->.
  { assert (year_days Y = 146097 * (D / 146097) + (365 * yoe + yoe / 4 - yoe / 100)) as HE.
    { rewrite <-HY. unfold year_days. Z.to_euclidean_division_equations; lia. }
    assert (D = 146097 * (D / 146097) + doe) by (unfold doe; apply Z.div_mod; lia).
    rewrite (u32_small (365 * yoe + _ - _)) by (Z.to_euclidean_division_equations; lia).
    rewrite u32_small; lia. }
  assert (i32 (yoe + D / 146097 * 400) = Y) as ->.
  { rewrite HY. apply i32_id. unfold D, year_days in *. Z.to_euclidean_division_equations; lia. }
  assert (0 <= march_month m <= 11) as Hmm by (unfold march_month; destruct (Z.leb_spec m 2); lia).
  rewrite (u32_small (5 * k + 2)) by lia. rewrite H2.
  rewrite (u32_small (153 * march_month m + 2)) by lia.
  assert (u32 (k - (153 * march_month m + 2) / 5 + 1) = d) as ->.
  { pose proof (month_len_range y m).
    rewrite u32_small; unfold k, day_of; lia. }
  assert (u32 (march_month m + (if march_month m <? 10 then 3 else u32 (-9))) = m) as ->.
  { change (u32 (-9)) with 4294967287. unfold march_month, u32 in *.
    destruct (Z.leb_spec m 2), (Z.ltb_spec (m + 9) 10), (Z.ltb_spec (m - 3) 10); try lia;
      Z.to_euclidean_division_equations; lia. }
  unfold Y, march_year. do 3 f_equal. destruct (Z.leb_spec m 2); lia.
Qed.

(** *** Counting day by day *)

Lemma next_day_number x : valid_date x → valid_date (next_day x) ∧ day_number (next_day x) = day_number x + 1.
Proof.
  destruct x as [[y m] d]. intros [Hm Hd]. unfold next_day.
  destruct (Z.ltb_spec d (month_len y m)).
  - split; [split; lia|]. unfold day_number. lia.
  - assert (d = month_len y m) as -> by lia. clear Hd H.
    pose proof (leap_days y) as Hl. pose proof (leap_days (y + 1)).
    assert (valid_date (if m <? 12 then (y, m + 1, 1) else (y + 1, 1, 1))) as Hv.
    { unfold valid_date. destruct (Z.ltb_spec m 12); [pose proof (month_len_range y (m + 1))|]; split; cbn; lia. }
    split; [done|]. clear Hv.
    month_split m; unfold day_number, month_len, march_month, march_year; literals.
    all: try (replace (y + 1 - 1) with y in * by lia; Z.to_euclidean_division_equations; lia).
    destruct (leap y); Z.to_euclidean_division_equations; lia.
Qed.

Lemma prev_day_number x : valid_date x → valid_date (prev_day x) ∧ day_number (prev_day x) = day_number x - 1.
Proof.
  destruct x as [[y m] d]. intros [Hm Hd].
  assert (valid_date (prev_day (y, m, d)) ∧ next_day (prev_day (y, m, d)) = (y, m, d)) as [Hv Hn].
  { unfold prev_day, next_day. destruct (Z.ltb_spec 1 d).
    - split; [split; lia|]. destruct (Z.ltb_spec (d - 1) (month_len y m)); [|lia]. do 2 f_equal. lia.
    - assert (d = 1) as -> by lia. clear Hd H.
      month_split m; unfold valid_date, month_len; literals;
        destruct (leap y); literals; (split; [lia|]); repeat f_equal; lia. }
  split; [done|]. pose proof (proj2 (next_day_number _ Hv)) as E. rewrite Hn in E. lia.
Qed.

Lemma date_at_number n : valid_date (date_at n) ∧ day_number (date_at n) = n.
Proof.
  destruct n as [|p|p]; cbn [date_at]; [split; [split; vm_compute; split; discriminate|done]| |].
  - induction p as [|p IH] using Pos.peano_ind; [by apply next_day_number|].
    rewrite Pos.iter_succ. destruct IH as [Hv E]. apply next_day_number in Hv as [? ->]. split; [done|lia].
  - induction p as [|p IH] using Pos.peano_ind; [by apply prev_day_number|].
    rewrite Pos.iter_succ. destruct IH as [Hv E]. apply prev_day_number in Hv as [? ->]. split; [done|lia].
Qed.

Lemma civil_from_days_at n : day_range n → civil_from_days n = Ok (date_at n).
Proof.
  intros Hr. destruct (date_at_number n) as [Hv E]. rewrite <-E at 1. rewrite <-E in Hr.
  destruct (date_at n) as [[y m] d]. by apply civil_of_number.
Qed.

(** ** Unix time *)

(** Seconds whose local year fits in the structure at every offset. *)
Definition time_range (secs : Z) : Prop := -970000000000 <= secs <= 970000000000.

Lemma year_of_day n y m d : date_at n = (y, m, d) → -11240000 <= n <= 11240000 → -29000 <= y <= 32765.
Proof.
  intros E Hn. destruct (date_at_number n) as [Hv En]. rewrite E in Hv, En.
  destruct (day_of_spec y m d Hv) as (? & ? & _). destruct Hv as [Hm _].
  rewrite day_number_of in En. unfold year_days, march_year in *.
  destruct (Z.leb_spec m 2); Z.to_euclidean_division_equations; lia.
Qed.
Lemma split_day x : 
  let days := Z.quot x 86400 in let rem := Z.rem x 86400 in
  (if rem <? 0 then (days - 1, rem + 86400) else (days, rem)) = (x / 86400, x mod 86400).
Proof.
  cbv zeta. destruct (Z.ltb_spec (Z.rem x 86400) 0); f_equal; Z.to_euclidean_division_equations; lia.
Qed.

Lemma clock_split r : 0 <= r < 86400 →
  u8 (r / 3600) = r / 3600 ∧ u8 (r mod 3600 / 60) = r mod 3600 / 60 ∧ u8 (r mod 60) = r mod 60 ∧
  0 <= r / 3600 <= 23 ∧ 0 <= r mod 3600 / 60 <= 59 ∧ 0 <= r mod 60 <= 59 ∧
  r / 3600 * 3600 + r mod 3600 / 60 * 60 + r mod 60 = r.
Proof.
  intros. assert (0 <= r / 3600 <= 23 ∧ 0 <= r mod 3600 / 60 <= 59 ∧ 0 <= r mod 60 <= 59) as (? & ? & ?)
    by (Z.to_euclidean_division_equations; lia).
  rewrite !u8_small by lia. split_and!; try lia. Z.to_euclidean_division_equations; lia.
Qed.

(** A time stamp with a date of the calendar, a time of day and an offset in range. *)
Definition ts_valid (t : sms_ts) : Prop :=
  valid_date (ts_year t, ts_mon t, ts_day t) ∧ 0 <= ts_hour t <= 23 ∧ 0 <= ts_min t <= 59 ∧
  0 <= ts_sec t <= 59 ∧ -48 <= ts_tz_qh t <= 48.

(** What both conversions agree on: the local clock of a time stamp. *)
Definition local_secs (t : sms_ts) : Z :=
  day_number (ts_year t, ts_mon t, ts_day t) * 86400 + ts_hour t * 3600 + ts_min t * 60 + ts_sec t.

Lemma sms_ts_unix_local t : ts_valid t → sms_ts_unix (Some t) = local_secs t - ts_tz_qh t * 900.
Proof.
  intros ((Hm & Hd) & Hh & Hi & Hs & _). pose proof (month_len_range (ts_year t) (ts_mon t)).
  unfold sms_ts_unix, local_secs. rewrite <-days_from_civil_number by lia.
  match goal with |- (if ?c then _ else _) = _ => replace c with false by (symmetry; lia) end. lia.
Qed.

Lemma sms_ts_from_unix_at secs tz : -48 <= tz <= 48 → time_range secs →
  let local := secs + tz * 900 in
  ∃ t, sms_ts_from_unix true secs tz = Ok (Some t) ∧ ts_valid t ∧ ts_tz_qh t = tz ∧
    (ts_year t, ts_mon t, ts_day t) = date_at (local / 86400) ∧
    ts_hour t * 3600 + ts_min t * 60 + ts_sec t = local mod 86400.
Proof.
  intros Htz Hr local. unfold time_range in Hr. unfold sms_ts_from_unix. cbn [negb].
  destruct (Z.ltb_spec tz (-48)); [lia|]. destruct (Z.ltb_spec 48 tz); [lia|]. fold local.
  rewrite s64_small by lia. bstep. rewrite split_day.
  assert (-11240000 <= local / 86400 <= 11240000) as Hn by (Z.to_euclidean_division_equations; lia).
  rewrite civil_from_days_at by (unfold day_range; lia).
  destruct (date_at (local / 86400)) as [[y m] d] eqn:Ed. bstep.
  pose proof (year_of_day _ _ _ _ Ed Hn) as Hy.
  destruct (date_at_number (local / 86400)) as [Hv _]. rewrite Ed in Hv.
  pose proof (month_len_range y m). pose proof (proj1 Hv). pose proof (proj2 Hv).
  destruct (clock_split (local mod 86400)) as (-> & -> & -> & ? & ? & ? & E);
    [apply Z.mod_pos_bound; lia|].
  rewrite i16_id, !u8_small, i8_id by lia. eexists. split; [done|]. by split_and!.
Qed.

Lemma date_at_of_number y m d : valid_date (y, m, d) → -30000 <= y <= 30000 →
  date_at (day_number (y, m, d)) = (y, m, d).
Proof.
  intros Hv Hy. assert (day_range (day_number (y, m, d))) as Hr.
  { destruct (day_of_spec y m d Hv) as (? & ? & _). rewrite day_number_of. unfold day_range.
    destruct Hv as [Hm _]. unfold year_days, march_year in *.
    destruct (Z.leb_spec m 2); Z.to_euclidean_division_equations; lia. }
  pose proof (civil_of_number y m d Hv Hr) as E. rewrite civil_from_days_at in E by done. congruence.
Qed.

Lemma local_secs_range t : ts_valid t → -25000 <= ts_year t <= 30000 →
  -930000000000 <= local_secs t <= 930000000000.
Proof.
  intros (Hv & ? & ? & ? & _) Hy. unfold local_secs. destruct (day_of_spec _ _ _ Hv) as (? & ? & _).
  rewrite day_number_of. destruct Hv as [Hm _]. unfold year_days, march_year in *.
  destruct (Z.leb_spec (ts_mon t) 2); Z.to_euclidean_division_equations; lia.
Qed.

(** C39: time stamps and Unix time are one calendar.  For every Unix time whose year
    fits and every offset, the conversion from Unix time yields the date found by
    counting days one by one from the first of January 1970 in that zone and the
    time of day, and converting it back gives the same second; and a time stamp
    with a date of the calendar converts to Unix time and back unchanged. *)
Theorem sms_ts_calendar secs tz t :
  time_range secs → -48 <= tz <= 48 → ts_valid t → -25000 <= ts_year t <= 30000 →
  (∃ t', sms_ts_from_unix true secs tz = Ok (Some t') ∧ ts_tz_qh t' = tz ∧
    (ts_year t', ts_mon t', ts_day t') = date_at ((secs + tz * 900) / 86400) ∧
    ts_hour t' * 3600 + ts_min t' * 60 + ts_sec t' = (secs + tz * 900) mod 86400 ∧
    sms_ts_unix (Some t') = secs) ∧
  sms_ts_from_unix true (sms_ts_unix (Some t)) (ts_tz_qh t) = Ok (Some t).
Proof.
  intros Hr Htz Hv Hy. split.
  - destruct (sms_ts_from_unix_at secs tz Htz Hr) as (t' & E & Hv' & Ez & Ed & Ec). exists t'.
    split_and!; try done. rewrite sms_ts_unix_local by done. unfold local_secs.
    rewrite Ed, Ez. rewrite (proj2 (date_at_number _)). Z.to_euclidean_division_equations; lia.
  - rewrite sms_ts_unix_local by done. pose proof (local_secs_range t Hv Hy).
    destruct Hv as (Hd & Hh & Hi & Hs & Hz).
    destruct (sms_ts_from_unix_at (local_secs t - ts_tz_qh t * 900) (ts_tz_qh t)) as
      (t' & -> & (_ & ? & ? & ? & _) & Ez & Ed & Ec); [done|unfold time_range; lia|].
    replace (local_secs t - ts_tz_qh t * 900 + ts_tz_qh t * 900) with (local_secs t) in * by lia.
    assert (local_secs t / 86400 = day_number (ts_year t, ts_mon t, ts_day t)) as E
      by (unfold local_secs; Z.to_euclidean_division_equations; lia).
    rewrite Z.mod_eq, E in Ec by lia. rewrite E, date_at_of_number in Ed by (done || lia).
    injection Ed as Ey Em Ed. unfold local_secs in Ec. do 2 f_equal.
    destruct t, t'; cbn in *. f_equal; lia.
Qed.

Lemma sms_ts_calendar_witness :
  (∃ t', sms_ts_from_unix true 1709164800 (-4) = Ok (Some t') ∧ ts_tz_qh t' = -4 ∧
    (ts_year t', ts_mon t', ts_day t') = date_at ((1709164800 + -4 * 900) / 86400) ∧
    ts_hour t' * 3600 + ts_min t' * 60 + ts_sec t' = (1709164800 + -4 * 900) mod 86400 ∧
    sms_ts_unix (Some t') = 1709164800) ∧
  sms_ts_from_unix true (sms_ts_unix (Some (SmsTs 2024 2 29 23 59 59 48))) 48
    = Ok (Some (SmsTs 2024 2 29 23 59 59 48)).
Proof.
  apply (sms_ts_calendar 1709164800 (-4) (SmsTs 2024 2 29 23 59 59 48)); try (cbn; unfold time_range; lia).
  unfold ts_valid, valid_date. vm_compute. intuition discriminate.
Defined.

(** ** Validity periods *)

Lemma vp_secs_plain r : 0 <= r <= 255 →
  sms_vp_secs r = if r <=? 143 then (r + 1) * 300 else if r <=? 167 then 43200 + (r - 143) * 1800
                  else if r <=? 196 then (r - 166) * 86400 else (r - 192) * 604800.
Proof.
  intros. unfold sms_vp_secs. destruct (Z.leb_spec r 143), (Z.leb_spec r 167), (Z.leb_spec r 196);
    rewrite u32_small; lia.
Qed.

Lemma vp_rel_plain secs : 0 <= secs <= 4294362496 →
  sms_vp_rel_from_secs secs =
    if secs <=? 43200 then Z.max 1 ((secs + 299) / 300) - 1
    else if secs <=? 86400 then 143 + (secs - 43200 + 1799) / 1800
    else if secs <=? 2592000 then 166 + (secs + 86399) / 86400
    else 192 + Z.min 63 ((secs + 604799) / 604800).
Proof.
  intros. unfold sms_vp_rel_from_secs. change (12 * 3600) with 43200. change (24 * 3600) with 86400.
  change (30 * 86400) with 2592000. change (7 * 86400) with 604800.
  destruct (Z.leb_spec secs 43200), (Z.leb_spec secs 86400), (Z.leb_spec secs 2592000); try lia.
  all: rewrite u32_small by lia.
  - destruct (Z.eqb_spec ((secs + 299) / 300) 0); rewrite u8_small; Z.to_euclidean_division_equations; lia.
  - destruct (Z.eqb_spec ((secs - 43200 + 1799) / 1800) 0); rewrite ?u8_small; Z.to_euclidean_division_equations; lia.
  - rewrite u8_small; Z.to_euclidean_division_equations; lia.
  - replace (secs + 604800 - 1) with (secs + 604799) by lia.
    destruct (Z.ltb_spec 63 ((secs + 604799) / 604800)); rewrite u8_small; Z.to_euclidean_division_equations; lia.
Qed.

(** The relative validity period.  Up to the point where the addition of a week
    wraps, the code chosen for a number of seconds is the least of the codes 0..255
    whose period is at least as long, and the longest one, 63 weeks, when none is. *)
Theorem sms_vp_least secs : 0 <= secs <= 4294362496 →
  0 <= sms_vp_rel_from_secs secs <= 255 ∧
  (secs <= sms_vp_secs 255 → secs <= sms_vp_secs (sms_vp_rel_from_secs secs)) ∧
  (sms_vp_secs 255 < secs → sms_vp_rel_from_secs secs = 255) ∧
  ∀ r, 0 <= r <= 255 → secs <= sms_vp_secs r → sms_vp_rel_from_secs secs <= r.
Proof.
  intros H. rewrite vp_rel_plain by done. change (sms_vp_secs 255) with 38102400.
  set (x := if secs <=? 43200 then _ else _).
  assert (0 <= x <= 255) as Hx
    by (subst x; repeat case_match; Z.to_euclidean_division_equations; lia).
  rewrite vp_secs_plain by done.
  assert (∀ r, 0 <= r <= 255 → secs <= sms_vp_secs r → x <= r) as Hl.
  { intros r Hr. rewrite vp_secs_plain by done. subst x.
    destruct (Z.leb_spec secs 43200), (Z.leb_spec secs 86400), (Z.leb_spec secs 2592000),
      (Z.leb_spec r 143), (Z.leb_spec r 167), (Z.leb_spec r 196); try lia;
      Z.to_euclidean_division_equations; lia. }
  split_and!; try done; subst x;
    destruct (Z.leb_spec secs 43200), (Z.leb_spec secs 86400), (Z.leb_spec secs 2592000); try lia;
    repeat case_match; Z.to_euclidean_division_equations; lia.
Qed.

Lemma sms_vp_least_witness :
  0 <= sms_vp_rel_from_secs 43201 <= 255 ∧
  (43201 <= sms_vp_secs 255 → 43201 <= sms_vp_secs (sms_vp_rel_from_secs 43201)) ∧
  (sms_vp_secs 255 < 43201 → sms_vp_rel_from_secs 43201 = 255) ∧
  ∀ r, 0 <= r <= 255 → 43201 <= sms_vp_secs r → sms_vp_rel_from_secs 43201 <= r.
Proof. apply (sms_vp_least 43201). lia. Defined.

(** Beyond that point the addition wraps: the longest requests get 26 days. *)
Lemma sms_vp_wraps :
  sms_vp_rel_from_secs 4294967295 = 192 ∧ sms_vp_secs 192 = 26 * 86400.
Proof. by vm_compute. Qed.

Example ts_2026 : sms_ts_from_unix true 1785734045 8 = Ok (Some (SmsTs 2026 8 3 7 14 5 8)).
Proof. by vm_compute. Qed.
