(* ===== verification/SmsAddr.v ===== *)
(** * SmsAddr: address fields

    Models the address part of [sms/src/sms.c]: TP-OA, TP-DA and TP-RA as
    semi-octet digits or packed 7-bit text, and the helpers that fill and show an
    address.  A pointer into a buffer is the buffer from there on ([from]); a
    callee that writes there returns it and the caller puts it back. *)

From S2P Require Import Prelude Endian SmsIntl SmsUd SmsText SmsTime.

Definition SMS_ADDR_MAX_DIGITS : Z := 20.
Definition SMS_ADDR_MAX_OCTETS : Z := 12.
Definition SMS_ADDR_MAX_TEXT : Z := 35.

Definition SMS_TON_INTERNATIONAL : Z := 1.
Definition SMS_TON_ALPHANUM : Z := 5.
Definition SMS_NPI_UNKNOWN : Z := 0.
Definition SMS_NPI_ISDN : Z := 1.

(** [a_digits] is the whole array of [SMS_ADDR_MAX_TEXT + 1] characters. *)
Record sms_addr := SmsAddr { a_ton : Z; a_npi : Z; a_digits : mem }.

Definition zero_addr : sms_addr := SmsAddr 0 0 (zeros (SMS_ADDR_MAX_TEXT + 1)).

(** The pointer [b + off]. *)
Definition from (b : mem) (off : Z) : mem := drop (Z.to_nat off) b.
(** A call that writes at [b + off]. *)
Definition at_off {A} (b : mem) (off : Z) (f : mem → res (mem * A)) : res (mem * A) :=
  if (off <? 0) || (mlen b <? off) then Ub else
  '(m, x) ← f (from b off); Ok (take (Z.to_nat off) b ++ m, x).

(** Undefined when the array holds no NUL. *)
Fixpoint strlen (s : mem) : res Z :=
  match s with
  | [] => Ub
  | c :: s => if c =? 0 then Ok 0 else n ← strlen s; Ok (1 + n)
  end.

(** ** Decoding *)

(** Digits from value octet [i] on, [k] of [alen] read. *)
Fixpoint digits_loop (fuel : nat) (b : mem) (i vlen k alen : Z) (digits : mem) : res mem :=
  match fuel with
  | O => Ub
  | S fuel =>
      if (i <? vlen) && (k <? alen) then
        o ← rd b (2 + i);
        let c := sms_bcd_char (Z.land o 15) in
        if c =? 0 then Err SMS_E_LENGTH else
        digits ← wr digits k c;
        let k := k + 1 in
        if k =? alen then wr digits k 0 else
        let c := sms_bcd_char (u8 (Z.shiftr o 4)) in
        if c =? 0 then Err SMS_E_LENGTH else
        digits ← wr digits k c;
        digits_loop fuel b (i + 1) vlen (k + 1) alen digits
      else wr digits k 0
  end.

Definition sms_addr_decode (b : option mem) (n : Z) : res (sms_addr * Z) :=
  match b with
  | None => Err SMS_E_INVAL
  | Some b =>
      if n <? 2 then Err SMS_E_SHORT else
      alen ← rd b 0;
      toa ← rd b 1;
      let ton := u8 (Z.land (Z.shiftr toa 4) 7) in
      let npi := u8 (Z.land toa 15) in
      if SMS_ADDR_MAX_DIGITS <? alen then Err SMS_E_LENGTH else
      let vlen := (alen + 1) / 2 in
      if n <? 2 + vlen then Err SMS_E_SHORT else
      let digits := a_digits zero_addr in
      digits ←
        (if ton =? SMS_TON_ALPHANUM then
           let septets := vlen * 8 / 7 in
           let sep := uninit 16 in
           let septets := if 16 <? septets then 16 else septets in
           '(sep, got) ← sms_gsm7_unpack (Some (from b 2)) vlen 0 septets (Some sep) 16;
           if got <? 0 then Err got else
           '(digits, len) ← sms_gsm7_to_utf8 sep got (Some digits) (SMS_ADDR_MAX_TEXT + 1);
           if len <? 0 then Err len else Ok (default [] digits)
         else digits_loop (S (Z.to_nat vlen)) b 0 vlen 0 alen digits);
      Ok (SmsAddr ton npi digits, i32 (2 + vlen))
  end.

(** ** Encoding *)

(** The value octets from [i] on. *)
Fixpoint nibbles_loop (todo : nat) (digits : mem) (i alen : Z) (b : mem) : res mem :=
  match todo with
  | O => Ok b
  | S todo =>
      c ← rd digits (i * 2);
      let lo := sms_bcd_nibble c in
      if lo =? 255 then Err SMS_E_INVAL else
      hi ← (if i * 2 + 1 <? alen then
              c ← rd digits (i * 2 + 1);
              let hi := sms_bcd_nibble c in
              if hi =? 255 then Err SMS_E_INVAL else Ok hi
            else Ok 15);
      b ← wr b (2 + i) (u8 (Z.lor (Z.shiftl hi 4) lo));
      nibbles_loop todo digits (i + 1) alen b
  end.

Definition sms_addr_encode (b : option mem) (cap : Z) (a : option sms_addr) : res (mem * Z) :=
  match b, a with
  | Some b, Some a =>
      if (7 <? a_ton a) || (15 <? a_npi a) then Err SMS_E_INVAL else
      let toa := u8 (Z.lor (Z.lor 128 (Z.shiftl (a_ton a) 4)) (a_npi a)) in
      if a_ton a =? SMS_TON_ALPHANUM then
        len ← strlen (a_digits a);
        '(sep, ns) ← sms_gsm7_from_utf8 (Some (a_digits a)) len (Some (uninit SMS_ADDR_MAX_DIGITS))
                       SMS_ADDR_MAX_DIGITS;
        if ns <? 0 then Err ns else
        let vlen := (ns * 7 + 7) / 8 in
        if SMS_ADDR_MAX_OCTETS - 2 <? vlen then Err SMS_E_LENGTH else
        if cap <? 2 + vlen then Err SMS_E_OVERFLOW else
        b ← wr b 0 (u8 (vlen * 2));
        b ← wr b 1 toa;
        b ← wrn b 2 (zeros vlen);
        '(b, packed) ← at_off b 2 (λ m,
          '(m, rc) ← sms_gsm7_pack sep ns 0 (Some m) (cap - 2); Ok (default [] m, rc));
        if packed <? 0 then Err packed else Ok (b, i32 (2 + vlen))
      else
        alen ← strlen (a_digits a);
        if SMS_ADDR_MAX_DIGITS <? alen then Err SMS_E_LENGTH else
        let vlen := (alen + 1) / 2 in
        if cap <? 2 + vlen then Err SMS_E_OVERFLOW else
        b ← wr b 0 (u8 alen);
        b ← wr b 1 toa;
        b ← nibbles_loop (Z.to_nat vlen) (a_digits a) 0 alen b;
        Ok (b, i32 (2 + vlen))
  | _, _ => Err SMS_E_INVAL
  end.

(** ** Filling and showing *)

(** At most 21 characters are looked at. *)
Fixpoint set_loop (fuel : nat) (num : mem) (k : Z) (digits : mem) : res mem :=
  match fuel with
  | O => Ub
  | S fuel =>
      c ← rd num k;
      if c =? 0 then wr digits k 0 else
      if SMS_ADDR_MAX_DIGITS <=? k then Err SMS_E_LENGTH else
      if sms_bcd_nibble c =? 255 then Err SMS_E_INVAL else
      digits ← wr digits k c;
      set_loop fuel num (k + 1) digits
  end.

Definition sms_addr_set (a : bool) (num : option mem) (ton : Z) : res sms_addr :=
  match num with
  | Some num =>
      if negb a then Err SMS_E_INVAL else
      c ← rd num 0;
      let ton := if c =? 43 then SMS_TON_INTERNATIONAL else ton in
      let num := if c =? 43 then from num 1 else num in
      digits ← set_loop 22 num 0 (a_digits zero_addr);
      Ok (SmsAddr (u8 ton) SMS_NPI_ISDN digits)
  | None => Err SMS_E_INVAL
  end.

Definition sms_addr_set_text (a : bool) (txt : option mem) : res sms_addr :=
  match txt with
  | Some txt =>
      if negb a then Err SMS_E_INVAL else
      len ← strlen txt;
      septets ← sms_gsm7_septets (Some txt) len;
      if septets <? 0 then Err septets else
      if 11 <? septets then Err SMS_E_LENGTH else
      if SMS_ADDR_MAX_TEXT + 1 <=? len then Err SMS_E_LENGTH else
      s ← rdn txt 0 (len + 1);
      digits ← wrn (a_digits zero_addr) 0 s;
      Ok (SmsAddr SMS_TON_ALPHANUM SMS_NPI_UNKNOWN digits)
  | None => Err SMS_E_INVAL
  end.

Definition sms_addr_e164 (a : option sms_addr) (out : option mem) (cap : Z) : res (mem * Z) :=
  match a, out with
  | Some a, Some out =>
      if cap =? 0 then Err SMS_E_INVAL else
      len ← strlen (a_digits a);
      let plus := a_ton a =? SMS_TON_INTERNATIONAL in
      if cap <? len + (if plus then 1 else 0) + 1 then Err SMS_E_OVERFLOW else
      '(out, k) ← (if plus then out ← wr out 0 43; Ok (out, 1) else Ok (out, 0));
      s ← rdn (a_digits a) 0 len;
      out ← wrn out k s;
      out ← wr out (k + len) 0;
      Ok (out, i32 (k + len))
  | _, _ => Err SMS_E_INVAL
  end.

(** ** Addresses as values *)

Inductive address :=
| Number (ton npi : Z) (s : list Z)
| Name (npi : Z) (cs : list Z).

(** The characters of numbers. *)
Definition digit (c : Z) : Prop := c ∈ [48; 49; 50; 51; 52; 53; 54; 55; 56; 57; 42; 35; 97; 98; 99].

Definition address_ok (a : address) : Prop :=
  match a with
  | Number ton npi s => 0 <= ton <= 7 ∧ ton ≠ SMS_TON_ALPHANUM ∧ 0 <= npi <= 15 ∧ Forall digit s ∧ mlen s <= 20
  | Name npi cs => 0 <= npi <= 15 ∧ Forall (λ c, gsm_char c = true) cs ∧ mlen (gsm_text cs) <= 11
  end.

(** The structure that holds an address, padded with NULs. *)
Definition padded (s : list Z) : mem := s ++ zeros (SMS_ADDR_MAX_TEXT + 1 - mlen s).
Definition addr_of (a : address) : sms_addr :=
  match a with
  | Number ton npi s => SmsAddr ton npi (padded s)
  | Name npi cs => SmsAddr SMS_TON_ALPHANUM npi (padded (text cs))
  end.

Fixpoint digit_bytes (s : list Z) : list Z :=
  match s with
  | [] => []
  | [c] => [240 + sms_bcd_nibble c]
  | c :: d :: s => (16 * sms_bcd_nibble d + sms_bcd_nibble c) :: digit_bytes s
  end.

Definition toa_octet (ton npi : Z) : Z := 128 + 16 * ton + npi.

(** The octets of an address field. *)
Definition addr_bytes (a : address) : list Z :=
  match a with
  | Number ton npi s => mlen s :: toa_octet ton npi :: digit_bytes s
  | Name npi cs =>
      let vlen := (mlen (gsm_text cs) * 7 + 7) / 8 in
      vlen * 2 :: toa_octet SMS_TON_ALPHANUM npi :: put_septets (zeros vlen) 0 (gsm_text cs)
  end.

(** What a reader makes of it: seven septets leave a whole septet of padding, which
    reads as another character. *)
Definition seen (a : address) : address :=
  match a with
  | Name npi cs => Name npi (if mlen (gsm_text cs) =? 7 then cs ++ [64] else cs)
  | _ => a
  end.

(** *** Strings *)

Lemma strlen_app s k : Forall (λ c, c ≠ 0) s → 1 <= k → strlen (s ++ zeros k) = Ok (mlen s).
Proof.
  intros Hs Hk. induction Hs as [|c s Hc _ IH].
  - unfold zeros. replace (Z.to_nat k) with (S (Z.to_nat (k - 1))) by lia. done.
  - cbn [app strlen]. rewrite (proj2 (Z.eqb_neq c 0) Hc), IH. bstep. by rewrite mlen_cons.
Qed.

Lemma digit_cases (P : Z → bool) c : forallb P [48; 49; 50; 51; 52; 53; 54; 55; 56; 57; 42; 35; 97; 98; 99] = true →
  digit c → P c = true.
Proof. intros H Hc. rewrite forallb_forall in H. by apply H, list_elem_of_In. Qed.

Lemma digit_nonzero c : digit c → c ≠ 0.
Proof. intros H. apply Z.eqb_neq, negb_true_iff. by apply (digit_cases (λ c, negb (c =? 0))). Qed.

Lemma digit_nibble c : digit c → 0 <= sms_bcd_nibble c <= 14.
Proof.
  intros H. apply (digit_cases (λ c, (0 <=? sms_bcd_nibble c) && (sms_bcd_nibble c <=? 14))) in H; [lia|done].
Qed.
Lemma digit_back c : digit c → sms_bcd_char (sms_bcd_nibble c) = c.
Proof. intros H. apply Z.eqb_eq. by apply (digit_cases (λ c, sms_bcd_char (sms_bcd_nibble c) =? c)). Qed.

(** The characters of the alphabet are scalar values of at most three octets. *)
Definition small_char (c : Z) : bool := (1 <=? c) && (c <? 55296).
Lemma ext_small x : small_char (ext_to_ucs x) = true ∨ ext_to_ucs x = -1.
Proof.
  assert (forallb (λ r, small_char r.2) gsm7_ext = true) as H by done. revert H.
  unfold ext_to_ucs. generalize gsm7_ext. induction l as [|[y u] l IH]; [by right|].
  cbn [forallb ext_lookup]. intros [Hu Hl]%andb_prop. destruct (y =? x); [by left|by apply IH].
Qed.
Lemma gsm_char_none : gsm_char (-1) = false.
Proof. by vm_compute. Qed.

#[local] Opaque sms_gsm7_from_ucs.

Lemma gsm_char_small c : gsm_char c = true → 1 <= c < 55296.
Proof.
  intros H. assert (small_char c = true); [|unfold small_char in *; lia].
  destruct (from_ucs_spec c H) as [(g & _ & _ & _ & Hg & _ & <-)|(x & _ & _ & _ & _ & E)].
  - unfold get. apply (proj1 (forallb_forall small_char gsm7_basic)); [by vm_compute|].
    apply nth_In. pose proof mlen_basic. unfold mlen in *. lia.
  - destruct (ext_small x) as [Hs|Hs]; rewrite E in Hs; [done|]. exfalso. by rewrite Hs, gsm_char_none in H.
Qed.
Lemma gsm_scalar c : gsm_char c = true → scalar c.
Proof. intros H%gsm_char_small. unfold scalar. lia. Qed.
Lemma gsm_len c : gsm_char c = true → utf8_len c <= 3.
Proof.
  intros H%gsm_char_small. unfold utf8_len, utf8_bytes.
  destruct (c <? 128), (c <? 2048), (Z.ltb_spec c 65536); rewrite ?mlen_cons, mlen_nil; lia.
Qed.
Lemma utf8_nonzero c : 1 <= c → Forall (λ b, b ≠ 0) (utf8_bytes c).
Proof.
  intros. unfold utf8_bytes, tail6.
  repeat match goal with |- context [?a <? ?b] => destruct (Z.ltb_spec a b) end;
    repeat constructor; Z.to_euclidean_division_equations; lia.
Qed.

Lemma gsm_texts cs : Forall (λ c, gsm_char c = true) cs →
  Forall scalar cs ∧ Forall (λ b, b ≠ 0) (text cs) ∧ mlen (text cs) <= 3 * mlen (gsm_text cs).
Proof.
  induction 1 as [|c cs Hc _ (IH1 & IH2 & IH3)]; [split_and!; constructor || done|].
  rewrite text_cons, gsm_text_cons, !mlen_app. fold (utf8_len c).
  pose proof (gsm_len c Hc). pose proof (mlen_gsm_septets c). pose proof (gsm_char_small c Hc).
  split_and!; [constructor; [by apply gsm_scalar|done]| |lia].
  apply Forall_app. split; [by apply utf8_nonzero; lia|done].
Qed.

(** *** Semi-octets *)

Lemma pair_ind (P : list Z → Prop) :
  P [] → (∀ c, P [c]) → (∀ c d s, P s → P (c :: d :: s)) → ∀ s, P s.
Proof.
  intros H0 H1 H2. fix IH 1. intros [|c [|d s]]; [exact H0|apply H1|apply H2, IH].
Qed.

Lemma mlen_digit_bytes s : mlen (digit_bytes s) = (mlen s + 1) / 2.
Proof.
  induction s as [|c|c d s IH] using pair_ind; [done|done|].
  cbn [digit_bytes]. rewrite !mlen_cons, IH. Z.to_euclidean_division_equations; lia.
Qed.

Lemma nibbles_octet hi lo : 0 <= hi <= 15 → 0 <= lo <= 15 →
  u8 (Z.lor (Z.shiftl hi 4) lo) = 16 * hi + lo ∧ Z.land (16 * hi + lo) 15 = lo ∧
  u8 (Z.shiftr (16 * hi + lo) 4) = hi.
Proof.
  intros. rewrite lor_low by lia. rewrite (land_low _ 4) by done. rewrite Z.shiftr_div_pow2 by lia.
  change (2 ^ 4) with 16. rewrite !u8_small by (Z.to_euclidean_division_equations; lia).
  Z.to_euclidean_division_equations; lia.
Qed.

Lemma digit_bytes_ok s : Forall digit s → bytes_ok (digit_bytes s).
Proof.
  induction s as [|c|c d s IH] using pair_ind; intros H; [constructor| |].
  - apply Forall_cons_iff in H as [Hc _]. pose proof (digit_nibble c Hc). cbn. bytes_tac.
  - apply Forall_cons_iff in H as [Hc H]. apply Forall_cons_iff in H as [Hd H].
    pose proof (digit_nibble c Hc). pose proof (digit_nibble d Hd). cbn [digit_bytes].
    apply bytes_ok_cons. split; [lia|by apply IH].
Qed.

Lemma get_here pre x post i : i = mlen pre → rd (pre ++ x :: post) i = Ok x.
Proof.
  intros ->. pose proof (mlen_nonneg pre). pose proof (mlen_nonneg post).
  rewrite rd_Ok by (rewrite mlen_app, mlen_cons; lia). by rewrite get_app_ge, Z.sub_diag by lia.
Qed.

Lemma nibbles_loop_bytes s : ∀ pre z i alen b todo,
  Forall digit s → 2 * i = mlen pre → alen = mlen pre + mlen s → todo = length (digit_bytes s) →
  2 + i + mlen (digit_bytes s) <= mlen b →
  nibbles_loop todo (pre ++ s ++ z) i alen b = Ok (splice b (2 + i) (digit_bytes s)).
Proof.
  induction s as [|c|c d s IH] using pair_ind; intros pre z i alen b todo Hs Hi Ha -> Hb;
    pose proof (mlen_nonneg pre).
  - cbn. by rewrite splice_nil.
  - apply Forall_cons_iff in Hs as [Hc _]. pose proof (digit_nibble c Hc).
    cbn [digit_bytes length nibbles_loop app] in *. rewrite mlen_cons, mlen_nil in *.
    rewrite (get_here pre c z (i * 2)) by lia. bstep. destruct (Z.eqb_spec (sms_bcd_nibble c) 255); [lia|].
    destruct (Z.ltb_spec (i * 2 + 1) alen); [lia|]. bstep.
    rewrite (proj1 (nibbles_octet 15 (sms_bcd_nibble c) ltac:(lia) ltac:(lia))).
    by rewrite wr_wrn, wrn_Ok by mlia.
  - apply Forall_cons_iff in Hs as [Hc Hs]. apply Forall_cons_iff in Hs as [Hd Hs].
    pose proof (digit_nibble c Hc). pose proof (digit_nibble d Hd). pose proof (mlen_nonneg s).
    cbn [digit_bytes length nibbles_loop app] in *. rewrite !mlen_cons in *.
    rewrite (get_here pre c (d :: s ++ z) (i * 2)) by lia. bstep. destruct (Z.eqb_spec (sms_bcd_nibble c) 255); [lia|].
    destruct (Z.ltb_spec (i * 2 + 1) alen); [|lia].
    change (pre ++ c :: d :: s ++ z) with (pre ++ [c] ++ d :: s ++ z). rewrite app_assoc.
    rewrite (get_here (pre ++ [c])) by (rewrite mlen_app; change (mlen [c]) with 1; lia). bstep.
    destruct (Z.eqb_spec (sms_bcd_nibble d) 255); [lia|]. bstep.
    rewrite (proj1 (nibbles_octet (sms_bcd_nibble d) (sms_bcd_nibble c) ltac:(lia) ltac:(lia))).
    pose proof (mlen_nonneg (digit_bytes s)). rewrite wr_wrn, wrn_first by mlia.
    replace ((pre ++ [c]) ++ d :: s ++ z) with ((pre ++ [c; d]) ++ s ++ z) by (by rewrite <-!app_assoc).
    rewrite (IH (pre ++ [c; d])) by (rewrite ?mlen_app, ?mlen_splice; mlia || done).
    replace (2 + (i + 1)) with (2 + i + mlen [16 * sms_bcd_nibble d + sms_bcd_nibble c])
      by (rewrite mlen_cons, mlen_nil; lia).
    by rewrite splice_app by mlia.
Qed.

Lemma digits_loop_bytes s : ∀ b fuel i k alen vlen digits,
  Forall digit s → holds b (2 + i) (digit_bytes s) → 0 <= k → alen = k + mlen s →
  vlen = i + mlen (digit_bytes s) → (length (digit_bytes s) < fuel)%nat → alen < mlen digits →
  digits_loop fuel b i vlen k alen digits = Ok (splice digits k (s ++ [0])).
Proof.
  induction s as [|c|c d s IH] using pair_ind; intros b fuel i k alen vlen digits Hs Hb Hk -> -> Hf Hl;
    (destruct fuel as [|fuel]; [cbn in Hf; lia|]); cbn [digits_loop].
  - cbn. rewrite Z.add_0_r, Z.ltb_irrefl. cbn [andb]. rewrite wr_wrn. apply wrn_Ok; rewrite ?mlen_nil in *; mlia.
  - apply Forall_cons_iff in Hs as [Hc _]. pose proof (digit_nibble c Hc).
    cbn [digit_bytes] in *. rewrite !mlen_cons, !mlen_nil in *. rewrite !(proj2 (Z.ltb_lt _ _)) by lia.
    cbn [andb]. apply holds_cons in Hb as [-> _]. bstep.
    destruct (nibbles_octet 15 (sms_bcd_nibble c)) as (_ & E & _); [lia..|]. change (16 * 15) with 240 in E.
    rewrite E, digit_back by done. rewrite (proj2 (Z.eqb_neq c 0)) by (by apply digit_nonzero).
    rewrite wr_wrn, wrn_first by mlia. rewrite (proj2 (Z.eqb_eq _ _)) by lia.
    rewrite wr_wrn, wrn_Ok by mlia. f_equal. refine (splice_app digits k [c] [0] _ _); mlia.
  - apply Forall_cons_iff in Hs as [Hc Hs]. apply Forall_cons_iff in Hs as [Hd Hs].
    pose proof (digit_nibble c Hc). pose proof (digit_nibble d Hd). pose proof (mlen_nonneg s).
    cbn [digit_bytes length] in *. rewrite !mlen_cons in *. pose proof (mlen_nonneg (digit_bytes s)).
    rewrite !(proj2 (Z.ltb_lt _ _)) by lia. cbn [andb]. apply holds_cons in Hb as [-> Hb]. bstep.
    destruct (nibbles_octet (sms_bcd_nibble d) (sms_bcd_nibble c)) as (_ & E1 & E2); [lia..|].
    rewrite E1, E2, !digit_back by done.
    rewrite (proj2 (Z.eqb_neq c 0)), (proj2 (Z.eqb_neq d 0)) by (by apply digit_nonzero).
    rewrite wr_wrn, wrn_first by mlia. rewrite (proj2 (Z.eqb_neq (k + 1) _)) by lia.
    rewrite wr_wrn, wrn_next by mlia. cbn [app].
    rewrite IH; [|done| |lia|lia|lia|lia|rewrite mlen_splice by mlia; lia].
    + f_equal. replace (k + 1 + 1) with (k + mlen [c; d]) by (rewrite !mlen_cons, mlen_nil; lia).
      by rewrite splice_app by mlia.
    + by replace (2 + (i + 1)) with (2 + i + 1) by lia.
Qed.

(** *** Packed names *)

Lemma put_septet_app m r q s : 0 <= q → q * 7 + 7 <= 8 * mlen m →
  put_septet (m ++ r) q s = put_septet m q s ++ r.
Proof.
  intros Hq Hl. unfold put_septet. set (sh := q * 7 mod 8). set (o := q * 7 / 8).
  assert (q * 7 = 8 * o + sh ∧ 0 <= sh < 8) as [E Hsh] by (unfold o, sh; Z.to_euclidean_division_equations; lia).
  rewrite get_app_l by lia. unfold mlen in *. rewrite (insert_app_l m r (Z.to_nat o)) by lia.
  destruct (Z.ltb_spec 1 sh); [|done]. rewrite insert_app_l by (rewrite ?length_insert; lia). done.
Qed.

Lemma put_septets_app ss : ∀ m r q, 0 <= q → (q + mlen ss) * 7 <= 8 * mlen m →
  put_septets (m ++ r) q ss = put_septets m q ss ++ r.
Proof.
  induction ss as [|s ss IH]; intros m r q Hq Hl; [done|]. cbn [put_septets]. rewrite mlen_cons in Hl.
  pose proof (mlen_nonneg ss). rewrite put_septet_app by lia. by rewrite IH by (rewrite ?mlen_put_septet; lia).
Qed.

Lemma put_septets_snoc ss s : ∀ m q, put_septets m q (ss ++ [s]) = put_septet (put_septets m q ss) (q + mlen ss) s.
Proof.
  induction ss as [|x ss IH]; intros m q; cbn [app put_septets]; [by rewrite Z.add_0_r|].
  rewrite IH, mlen_cons. f_equal. lia.
Qed.

(** The whole septet behind seven packed ones is padding. *)
Lemma padding_septet ss : Forall (λ s, 0 <= s < 128) ss → mlen ss = 7 →
  septet_at (put_septets (zeros 7) 0 ss) 7 = 0.
Proof.
  intros Hss Hl. destruct ss as [|s ss _] using rev_ind; [by rewrite mlen_nil in Hl|].
  rewrite mlen_app in Hl. change (mlen [s]) with 1 in Hl. apply Forall_app in Hss as [_ Hs].
  apply Forall_cons_iff in Hs as [Hs _].
  rewrite put_septets_snoc. replace (0 + mlen ss) with 6 by lia.
  assert (mlen (put_septets (zeros 7) 0 ss) = 7) as Hm by (by rewrite mlen_put_septets).
  set (m := put_septets (zeros 7) 0 ss) in *.
  assert (get (put_septet m 6 s) 6 = u8 (Z.shiftr s 6)) as Hg.
  { unfold put_septet. change (6 * 7 / 8) with 5. change (6 * 7 mod 8) with 2. change (1 <? 2) with true.
    cbn match. rewrite mget_insert by (rewrite ?mlen_insert; lia). done. }
  unfold septet_at. change (7 * 7 / 8) with 6. change (7 * 7 mod 8) with 1. change (1 <? 1) with false.
  cbn match. rewrite Hg, !Z.shiftr_div_pow2 by lia. change (2 ^ 6) with 64. change (2 ^ 1) with 2.
  rewrite (u8_small (s / 64)) by (Z.to_euclidean_division_equations; lia).
  replace (s / 64 / 2) with 0 by (Z.to_euclidean_division_equations; lia). done.
Qed.

Lemma gsm_text_app cs cs' : gsm_text (cs ++ cs') = gsm_text cs ++ gsm_text cs'.
Proof. unfold gsm_text. by rewrite map_app, concat_app. Qed.
Lemma gsm_at : gsm_char 64 = true ∧ gsm_septets 64 = [0].
Proof. Transparent sms_gsm7_from_ucs. by vm_compute. Qed.
#[local] Opaque sms_gsm7_from_ucs.

(** The characters of the name a reader sees. *)
Definition name_seen (cs : list Z) : list Z := if mlen (gsm_text cs) =? 7 then cs ++ [64] else cs.

Lemma name_seen_ok cs : Forall (λ c, gsm_char c = true) cs → mlen (gsm_text cs) <= 11 →
  Forall (λ c, gsm_char c = true) (name_seen cs) ∧ mlen (gsm_text (name_seen cs)) <= 11 ∧
  mlen (gsm_text (name_seen cs)) = (mlen (gsm_text cs) * 7 + 7) / 8 * 8 / 7.
Proof.
  intros Hg Hl. unfold name_seen. pose proof (mlen_nonneg (gsm_text cs)). destruct gsm_at as [Ha Hs].
  destruct (Z.eqb_spec (mlen (gsm_text cs)) 7) as [E|E].
  - rewrite gsm_text_app, mlen_app. unfold gsm_text at 2 4. cbn [map concat]. rewrite Hs, E. cbn.
    split_and!; [|done|done]. apply Forall_app. split; [done|]. by constructor.
  - split_and!; [done|done|]. Z.to_euclidean_division_equations; lia.
Qed.

(** Unpacking the value of a name. *)
Lemma name_septets cs r : Forall (λ c, gsm_char c = true) cs → mlen (gsm_text cs) <= 11 → bytes_ok r →
  let vlen := (mlen (gsm_text cs) * 7 + 7) / 8 in
  septets_at (put_septets (zeros vlen) 0 (gsm_text cs) ++ r) 0 (length (gsm_text (name_seen cs)))
    = gsm_text (name_seen cs).
Proof.
  intros Hg Hl Hr vlen. pose proof (gsm_text_ok cs Hg) as Hss. pose proof (mlen_nonneg (gsm_text cs)).
  assert (mlen (gsm_text cs) * 7 <= 8 * vlen ∧ 0 <= vlen) as [Hv Hv0]
    by (unfold vlen; Z.to_euclidean_division_equations; lia).
  rewrite <-put_septets_app by (rewrite ?mlen_zeros; lia).
  assert (bytes_ok (zeros vlen ++ r)) as Hz by (apply bytes_ok_app; split; [bytes_tac|done]).
  pose proof (mlen_nonneg r).
  pose proof (septets_back (gsm_text cs) (zeros vlen ++ r) 0 Hz ltac:(lia) Hss ltac:(mlia)) as Hb.
  unfold name_seen. destruct (Z.eqb_spec (mlen (gsm_text cs)) 7) as [E|E]; [|done].
  rewrite gsm_text_app. unfold gsm_text at 3 5. cbn [map concat]. rewrite (proj2 gsm_at), app_nil_r.
  rewrite length_app. cbn [length]. unfold septets_at. rewrite seq_app, map_app.
  fold (septets_at (put_septets (zeros vlen ++ r) 0 (gsm_text cs)) 0 (length (gsm_text cs))). rewrite Hb.
  f_equal. cbn [seq map]. f_equal. rewrite Nat.add_0_l. change (Z.of_nat (length (gsm_text cs))) with (mlen (gsm_text cs)).
  rewrite E, Z.add_0_l. replace vlen with 7 by (unfold vlen; by rewrite E).
  rewrite put_septets_app by (rewrite ?mlen_zeros; lia).
  assert (mlen (put_septets (zeros 7) 0 (gsm_text cs)) = 7) as Hm by (by rewrite mlen_put_septets).
  rewrite <-(padding_septet (gsm_text cs) Hss E) at 2. unfold septet_at.
  change (7 * 7 / 8) with 6. change (7 * 7 mod 8) with 1. change (1 <? 1) with false. cbn match.
  by rewrite get_app_l by lia.
Qed.

(** ** Encoding and decoding agree *)

Lemma toa_fields ton npi : 0 <= ton <= 7 → 0 <= npi <= 15 →
  u8 (Z.lor (Z.lor 128 (Z.shiftl ton 4)) npi) = toa_octet ton npi ∧
  u8 (Z.land (Z.shiftr (toa_octet ton npi) 4) 7) = ton ∧ u8 (Z.land (toa_octet ton npi) 15) = npi ∧
  0 <= toa_octet ton npi < 256.
Proof.
  intros. unfold toa_octet.
  assert (Z.lor 128 (Z.shiftl ton 4) = Z.shiftl (8 + ton) 4) as ->.
  { change 128 with (Z.shiftl 8 4) at 1. rewrite <-Z.shiftl_lor. f_equal.
    apply (lor_tag 1 3); done || lia. }
  rewrite lor_low by lia. rewrite (land_low _ 3), (land_low _ 4) by done. rewrite Z.shiftr_div_pow2 by lia.
  change (2 ^ 4) with 16. change (2 ^ 3) with 8.
  rewrite !u8_small by (Z.to_euclidean_division_equations; lia). Z.to_euclidean_division_equations; lia.
Qed.

Lemma mlen_addr_bytes a : address_ok a →
  mlen (addr_bytes a) = 2 + (match a with
    | Number _ _ s => (mlen s + 1) / 2 | Name _ cs => (mlen (gsm_text cs) * 7 + 7) / 8 end) ∧
  2 <= mlen (addr_bytes a) <= 12.
Proof.
  destruct a as [ton npi s|npi cs]; cbn [address_ok addr_bytes].
  - intros (_ & _ & _ & _ & Hl). pose proof (mlen_nonneg s). rewrite !mlen_cons, mlen_digit_bytes.
    Z.to_euclidean_division_equations; lia.
  - intros (_ & _ & Hl). pose proof (mlen_nonneg (gsm_text cs)).
    rewrite !mlen_cons, mlen_put_septets, mlen_zeros by (Z.to_euclidean_division_equations; lia).
    Z.to_euclidean_division_equations; lia.
Qed.

Lemma addr_bytes_ok a : address_ok a → bytes_ok (addr_bytes a).
Proof.
  destruct a as [ton npi s|npi cs]; cbn [address_ok addr_bytes].
  - intros (Ht & _ & Hn & Hd & Hl). pose proof (mlen_nonneg s). destruct (toa_fields ton npi Ht Hn) as (_ & _ & _ & ?).
    repeat (apply bytes_ok_cons; split; [lia|]). by apply digit_bytes_ok.
  - intros (Hn & _ & Hl). pose proof (mlen_nonneg (gsm_text cs)).
    destruct (toa_fields SMS_TON_ALPHANUM npi ltac:(unfold SMS_TON_ALPHANUM; lia) Hn) as (_ & _ & _ & ?).
    apply bytes_ok_cons. split; [Z.to_euclidean_division_equations; lia|].
    apply bytes_ok_cons. split; [lia|]. apply put_septets_ok. bytes_tac.
Qed.

Lemma strlen_padded s : Forall (λ c, c ≠ 0) s → mlen s <= 35 → strlen (padded s) = Ok (mlen s).
Proof. intros Hs Hl. apply strlen_app; [done|unfold SMS_ADDR_MAX_TEXT; lia]. Qed.
Lemma digits_nonzero s : Forall digit s → Forall (λ c, c ≠ 0) s.
Proof. intros Hs. eapply Forall_impl; [exact Hs|]. intros c. apply digit_nonzero. Qed.

Lemma number_encode b cap ton npi s : address_ok (Number ton npi s) →
  mlen (addr_bytes (Number ton npi s)) <= cap <= mlen b →
  sms_addr_encode (Some b) cap (Some (addr_of (Number ton npi s)))
    = Ok (splice b 0 (addr_bytes (Number ton npi s)), mlen (addr_bytes (Number ton npi s))).
Proof.
  intros Hok Hc. pose proof (mlen_addr_bytes _ Hok) as [Hl Hl2]. destruct Hok as (Ht & Hna & Hn & Hd & Hlen).
  cbn [addr_of]. unfold sms_addr_encode. cbn [a_ton a_npi a_digits].
  replace ((7 <? ton) || (15 <? npi)) with false by lia. cbv zeta.
  rewrite (proj2 (Z.eqb_neq _ _) Hna), strlen_padded by (lia || by apply digits_nonzero). bstep.
  destruct (toa_fields ton npi Ht Hn) as (-> & _). unfold SMS_ADDR_MAX_DIGITS.
  destruct (Z.ltb_spec 20 (mlen s)); [lia|]. destruct (Z.ltb_spec cap (2 + (mlen s + 1) / 2)); [lia|].
  pose proof (mlen_nonneg s). rewrite u8_small by lia. rewrite wr_wrn, wrn_first by mlia.
  rewrite wr_wrn, wrn_next by mlia. cbn [app].
  pose proof (mlen_digit_bytes s) as Hdl.
  rewrite (nibbles_loop_bytes s [] (zeros (SMS_ADDR_MAX_TEXT + 1 - mlen s)) 0 (mlen s)); try done.
  - bstep. f_equal. f_equal; [|rewrite i32_small by lia; lia]. cbn [addr_bytes].
    refine (splice_app b 0 [_; _] _ _ _); mlia.
  - unfold mlen in Hdl at 1. lia.
  - rewrite mlen_splice by mlia. lia.
Qed.

Lemma padded_splice s : mlen s <= 35 → splice (a_digits zero_addr) 0 (s ++ [0]) = padded s.
Proof.
  intros Hl. pose proof (mlen_nonneg s). unfold padded, SMS_ADDR_MAX_TEXT.
  rewrite splice_0, length_app. cbn [length]. rewrite <-app_assoc. f_equal.
  unfold zero_addr, a_digits, SMS_ADDR_MAX_TEXT, zeros, mlen in *. rewrite drop_replicate.
  change [0] with (replicate 1 0). rewrite <-replicate_add. f_equal. lia.
Qed.

Lemma name_from_utf8 cs : Forall (λ c, gsm_char c = true) cs → mlen (gsm_text cs) <= 11 →
  sms_gsm7_from_utf8 (Some (padded (text cs))) (mlen (text cs)) (Some (uninit SMS_ADDR_MAX_DIGITS))
    SMS_ADDR_MAX_DIGITS =
  Ok (Some (splice (uninit SMS_ADDR_MAX_DIGITS) 0 (gsm_text cs)), mlen (gsm_text cs)).
Proof.
  intros Hg Hl. destruct (gsm_texts cs Hg) as (Hsc & Hnz & H3). pose proof (mlen_nonneg (gsm_text cs)).
  pose proof (mlen_nonneg (text cs)). unfold sms_gsm7_from_utf8, SMS_ADDR_MAX_DIGITS. pose proof (length_text cs).
  destruct (from_utf8_loop_text (padded (text cs)) (mlen (text cs)) 20) with (cs := cs)
    (fuel := S (Z.to_nat (mlen (text cs)))) (i := 0) (sep := uninit 20) (k := 0) as (sep & rc & -> & Hr);
    try done; try lia.
  - unfold padded. apply bytes_ok_app. split; [by apply text_ok|bytes_tac].
  - unfold padded. rewrite mlen_app. pose proof (mlen_nonneg (zeros (SMS_ADDR_MAX_TEXT + 1 - mlen (text cs)))). lia.
  - by apply (holds_here []).
  - rewrite Z.add_0_l in Hr. assert (gsm_textb cs = true) as Hb.
    { apply forallb_forall. intros c Hc. apply (proj1 (Forall_forall _ _) Hg). by apply list_elem_of_In. }
    rewrite Hb, (proj2 (Z.leb_le _ 20)) in Hr by lia. destruct Hr as [-> ->]. bstep.
    by rewrite i32_small by lia.
Qed.

Lemma name_encode b cap npi cs : address_ok (Name npi cs) → bytes_ok b →
  mlen (addr_bytes (Name npi cs)) <= cap <= mlen b → cap < 268435456 →
  sms_addr_encode (Some b) cap (Some (addr_of (Name npi cs)))
    = Ok (splice b 0 (addr_bytes (Name npi cs)), mlen (addr_bytes (Name npi cs))).
Proof.
  intros Hok Hb Hc Hcs. pose proof (mlen_addr_bytes _ Hok) as [Hl Hl2]. destruct Hok as (Hn & Hg & Hlen).
  destruct (gsm_texts cs Hg) as (Hsc & Hnz & H3). pose proof (mlen_nonneg (gsm_text cs)) as Hns.
  pose proof (mlen_nonneg (text cs)). cbn [addr_of]. unfold sms_addr_encode. cbn [a_ton a_npi a_digits].
  replace ((7 <? SMS_TON_ALPHANUM) || (15 <? npi)) with false by (unfold SMS_TON_ALPHANUM; lia).
  rewrite Z.eqb_refl, strlen_padded by (done || lia). bstep. cbv zeta.
  destruct (toa_fields SMS_TON_ALPHANUM npi ltac:(unfold SMS_TON_ALPHANUM; lia) Hn) as (-> & _).
  rewrite name_from_utf8 by done. bstep. destruct (Z.ltb_spec (mlen (gsm_text cs)) 0); [lia|].
  set (vlen := (mlen (gsm_text cs) * 7 + 7) / 8) in *.
  assert (0 <= vlen <= 10 ∧ mlen (gsm_text cs) * 7 <= 8 * vlen) as [Hv Hv8]
    by (unfold vlen; Z.to_euclidean_division_equations; lia).
  unfold SMS_ADDR_MAX_OCTETS. destruct (Z.ltb_spec (12 - 2) vlen); [lia|].
  destruct (Z.ltb_spec cap (2 + vlen)); [lia|]. rewrite (u8_small (vlen * 2)) by lia.
  rewrite wr_wrn, wrn_first by mlia. rewrite wr_wrn, wrn_next by mlia. cbn [app].
  rewrite (wrn_next b 0 2 [_; _]) by mlia. cbn [app].
  set (hd := [vlen * 2; toa_octet SMS_TON_ALPHANUM npi]). assert (mlen hd = 2) as Hhd by done.
  change (vlen * 2 :: toa_octet SMS_TON_ALPHANUM npi :: zeros vlen) with (hd ++ zeros vlen).
  destruct (mem_split b (2 + vlen)) as (b1 & r & -> & Hb1); [lia|].
  assert (splice (b1 ++ r) 0 (hd ++ zeros vlen) = hd ++ zeros vlen ++ r) as ->.
  { rewrite splice_app_l by mlia. rewrite splice_0, drop_ge; [by rewrite app_nil_r, <-app_assoc|].
    unfold mlen in *. rewrite length_app. unfold zeros. rewrite length_replicate. lia. }
  apply bytes_ok_app in Hb as [Hb1' Hr]. rewrite mlen_app in Hc. pose proof (mlen_nonneg r).
  unfold at_off. replace ((2 <? 0) || (mlen (hd ++ zeros vlen ++ r) <? 2)) with false by mlia.
  change (from (hd ++ zeros vlen ++ r) 2) with (zeros vlen ++ r).
  change (take (Z.to_nat 2) (hd ++ zeros vlen ++ r)) with hd.
  unfold sms_gsm7_pack. rewrite Z.add_0_l, u64_small by lia. fold vlen.
  destruct (Z.ltb_spec (cap - 2) vlen); [lia|].
  pose proof (pack_loop_puts (gsm_text cs) (drop (length (gsm_text cs)) (uninit SMS_ADDR_MAX_DIGITS)) [] 0
    (zeros vlen ++ r) vlen (Z.to_nat (mlen (gsm_text cs)))) as Hp. cbn [app] in Hp.
  rewrite mlen_nil, Z.add_0_r in Hp. rewrite splice_0, Hp; clear Hp; try done.
  - bstep. rewrite i32_small by lia. destruct (Z.ltb_spec vlen 0); [lia|]. bstep.
    cbn [default from_option id]. rewrite put_septets_app by mlia. rewrite (i32_small (2 + vlen)) by lia.
    rewrite <-Hl. do 2 f_equal. rewrite splice_app_l by lia. rewrite splice_0, drop_ge; [|unfold mlen in *; lia].
    rewrite app_nil_r. done.
  - unfold mlen. lia.
  - by apply gsm_text_ok.
  - apply bytes_ok_app. split; [bytes_tac|done].
  - mlia.
Qed.

Lemma holds_rest b bs : holds b 0 bs → ∃ r, b = bs ++ r.
Proof.
  intros (_ & Hl & Hs). exists (drop (length bs) b). rewrite <-Hs at 1. unfold slice, mlen.
  rewrite drop_0, Nat2Z.id. symmetry. apply take_drop.
Qed.

Lemma number_decode b n ton npi s : address_ok (Number ton npi s) →
  holds b 0 (addr_bytes (Number ton npi s)) → mlen (addr_bytes (Number ton npi s)) <= n →
  sms_addr_decode (Some b) n
    = Ok (addr_of (Number ton npi s), mlen (addr_bytes (Number ton npi s))).
Proof.
  intros Hok Hb Hn. pose proof (mlen_addr_bytes _ Hok) as [Hl Hl2]. destruct Hok as (Ht & Hna & Hnp & Hd & Hlen).
  cbn [addr_bytes] in Hb. pose proof (mlen_nonneg s). unfold sms_addr_decode.
  apply holds_cons in Hb as [E0 Hb]. apply holds_cons in Hb as [E1 Hb]. change (0 + 1) with 1 in E1.
  destruct (Z.ltb_spec n 2); [lia|]. rewrite E0, E1. bstep. cbv zeta. unfold SMS_ADDR_MAX_DIGITS.
  destruct (Z.ltb_spec 20 (mlen s)); [lia|]. destruct (Z.ltb_spec n (2 + (mlen s + 1) / 2)); [lia|].
  destruct (toa_fields ton npi Ht Hnp) as (_ & -> & -> & _). rewrite (proj2 (Z.eqb_neq _ _) Hna).
  pose proof (mlen_digit_bytes s) as Hdl.
  rewrite (digits_loop_bytes s); try done; try lia.
  - bstep. rewrite padded_splice by lia. rewrite i32_small by lia. by rewrite Hl.
  - unfold mlen in Hdl at 1. lia.
  - change (mlen (a_digits zero_addr)) with 36. lia.
Qed.

Lemma rd_head x m : rd (x :: m) 0 = Ok x.
Proof. done. Qed.
Lemma rd_second x y m : rd (x :: y :: m) 1 = Ok y.
Proof. done. Qed.

Lemma name_decode b n npi cs : address_ok (Name npi cs) → bytes_ok b →
  holds b 0 (addr_bytes (Name npi cs)) → mlen (addr_bytes (Name npi cs)) <= n →
  sms_addr_decode (Some b) n
    = Ok (addr_of (seen (Name npi cs)), mlen (addr_bytes (Name npi cs))).
Proof.
  intros Hok Hbo Hb Hn. pose proof (mlen_addr_bytes _ Hok) as [Hl Hl2]. destruct Hok as (Hnp & Hg & Hlen).
  cbn [addr_of seen]. fold (name_seen cs). destruct (name_seen_ok cs Hg Hlen) as (Hg' & Hlen' & Hcnt).
  pose proof (mlen_nonneg (gsm_text cs)). destruct (gsm_texts _ Hg') as (Hsc & _ & H3).
  pose proof (mlen_nonneg (text (name_seen cs))). pose proof (mlen_nonneg (gsm_text (name_seen cs))).
  destruct (holds_rest _ _ Hb) as [r ->]. cbn [addr_bytes app] in *.
  set (vlen := (mlen (gsm_text cs) * 7 + 7) / 8) in *.
  assert (0 <= vlen <= 10 ∧ mlen (gsm_text cs) * 7 <= 8 * vlen) as [Hv Hv8]
    by (unfold vlen; Z.to_euclidean_division_equations; lia).
  unfold sms_addr_decode. destruct (Z.ltb_spec n 2); [lia|]. rewrite rd_head, rd_second. bstep. cbv zeta. unfold SMS_ADDR_MAX_DIGITS.
  destruct (Z.ltb_spec 20 (vlen * 2)); [lia|].
  replace ((vlen * 2 + 1) / 2) with vlen by (Z.to_euclidean_division_equations; lia).
  destruct (Z.ltb_spec n (2 + vlen)); [lia|].
  destruct (toa_fields SMS_TON_ALPHANUM npi ltac:(unfold SMS_TON_ALPHANUM; lia) Hnp) as (_ & -> & -> & _).
  rewrite Z.eqb_refl, <-Hcnt. destruct (Z.ltb_spec 16 (mlen (gsm_text (name_seen cs)))); [lia|].
  change (from (vlen * 2 :: toa_octet SMS_TON_ALPHANUM npi :: put_septets (zeros vlen) 0 (gsm_text cs) ++ r) 2)
    with (put_septets (zeros vlen) 0 (gsm_text cs) ++ r).
  do 2 apply bytes_ok_cons in Hbo as [_ Hbo]. apply bytes_ok_app in Hbo as [_ Hr]. pose proof (mlen_nonneg r).
  assert (sms_gsm7_unpack (Some (put_septets (zeros vlen) 0 (gsm_text cs) ++ r)) vlen 0
    (mlen (gsm_text (name_seen cs))) (Some (uninit 16)) 16 =
    Ok (Some (splice (uninit 16) 0 (gsm_text (name_seen cs))), mlen (gsm_text (name_seen cs)))) as ->.
  { unfold sms_gsm7_unpack. destruct (Z.eqb_spec (mlen (gsm_text (name_seen cs))) 0) as [E|E].
    { destruct (gsm_text (name_seen cs)) as [|? l]; [by rewrite splice_nil|].
      rewrite mlen_cons in E. pose proof (mlen_nonneg l). lia. }
    destruct (Z.ltb_spec 16 (mlen (gsm_text (name_seen cs)))); [lia|]. rewrite !u64_small by lia.
    destruct (Z.ltb_spec (vlen * 8) ((0 + mlen (gsm_text (name_seen cs))) * 7));
      [rewrite Hcnt in *; Z.to_euclidean_division_equations; lia|].
    rewrite unpack_loop_reads by (rewrite ?mlen_app, ?mlen_put_septets; mlia).
    bstep. rewrite i32_small by lia. unfold mlen at 1. rewrite Nat2Z.id. rewrite Z.add_0_l.
    pose proof (name_septets cs r Hg Hlen Hr) as Hs. cbv zeta in Hs. fold vlen in Hs. by rewrite Hs. }
  bstep. destruct (Z.ltb_spec (mlen (gsm_text (name_seen cs))) 0); [lia|]. unfold sms_gsm7_to_utf8, SMS_ADDR_MAX_TEXT.
  change (35 + 1 =? 0) with false. cbn match. pose proof (length_gsm_text (name_seen cs)).
  rewrite (to_utf8_loop_text _ _ _ (name_seen cs)) by
    (done || lia || (apply holds_splice; mlia) || (change (mlen (a_digits zero_addr)) with 36; lia)).
  bstep. rewrite Z.add_0_l, !i32_small by lia. rewrite (proj2 (Z.ltb_ge (mlen (text (name_seen cs))) 0)) by lia.
  cbn [default from_option id]. bstep. rewrite padded_splice by lia. by rewrite Hl.
Qed.

Lemma addr_encode_bytes b cap a : address_ok a → bytes_ok b → mlen (addr_bytes a) <= cap <= mlen b →
  cap < 268435456 →
  sms_addr_encode (Some b) cap (Some (addr_of a)) = Ok (splice b 0 (addr_bytes a), mlen (addr_bytes a)).
Proof. destruct a as [ton npi s|npi cs]; intros; [by apply number_encode|by apply name_encode]. Qed.

Lemma addr_decode_bytes b n a : address_ok a → bytes_ok b → holds b 0 (addr_bytes a) →
  mlen (addr_bytes a) <= n →
  sms_addr_decode (Some b) n = Ok (addr_of (seen a), mlen (addr_bytes a)).
Proof. destruct a as [ton npi s|npi cs]; intros; [by apply number_decode|by apply name_decode]. Qed.

(** ** Decoding arbitrary octets *)

(** A character array with a NUL. *)
Definition c_string (s : mem) : Prop := bytes_ok s ∧ ∃ k, 0 <= k < mlen s ∧ get s k = 0.

Lemma basic_small g : 0 <= g < 128 → small_char (get gsm7_basic g) = true.
Proof.
  intros Hg. unfold get. apply (proj1 (forallb_forall small_char gsm7_basic)); [by vm_compute|].
  apply nth_In. pose proof mlen_basic. unfold mlen in *. lia.
Qed.
Lemma small_scalar c : small_char c = true → scalar c ∧ utf8_len c <= 3 ∧ 0 <= c.
Proof.
  unfold small_char. intros. assert (1 <= c < 55296) as Hc by lia. split_and!; [unfold scalar; lia| |lia].
  unfold utf8_len, utf8_bytes.
  destruct (c <? 128), (c <? 2048), (Z.ltb_spec c 65536); rewrite ?mlen_cons, mlen_nil; lia.
Qed.

Lemma c_string_end out k : bytes_ok out → 0 <= k < mlen out → c_string (splice out k [0]).
Proof.
  intros Ho Hk. split; [apply bytes_ok_splice; [done|bytes_tac]|]. exists k.
  rewrite mlen_splice by mlia. split; [lia|]. by apply get_splice_same.
Qed.

Lemma to_utf8_loop_safe sep n cap : (∀ j, 0 <= j < n → 0 <= get sep j < 128) → n <= mlen sep →
  3 * n + 1 < cap → ∀ fuel i out k,
  0 <= i <= n → n - i < Z.of_nat fuel → 0 <= k <= 3 * i → cap <= mlen out → bytes_ok out →
  ∃ out' k', to_utf8_loop fuel sep n i out k cap = Ok (out', i32 k') ∧ 0 <= k' <= 3 * n ∧
    mlen out' = mlen out ∧ c_string out'.
Proof.
  intros Hs Hn Hcap. induction fuel as [|fuel IH]; intros i out k Hi Hf Hk Ho Hb; [lia|].
  cbn [to_utf8_loop]. destruct (Z.ltb_spec i n) as [Hin|Hin]; cbn [negb].
  2:{ rewrite wr_wrn, wrn_first by mlia. do 2 eexists. split; [done|]. split; [lia|].
      rewrite mlen_splice by mlia. split; [done|]. apply c_string_end; [done|lia]. }
  rewrite (rd_Ok sep i) by lia. bstep. pose proof (Hs i ltac:(lia)) as Hx.
  assert (∀ c j, small_char c = true → i <= j < n →
    ∃ out' k', (if c <? 0 then Ok (out, SMS_E_INVAL) else
      if cap <=? k + 1 then Ok (out, SMS_E_OVERFLOW) else
      '(out, w) ← sms_utf8_put out k (cap - 1 - k) c;
      if w =? 0 then Ok (out, SMS_E_OVERFLOW) else to_utf8_loop fuel sep n (j + 1) out (k + w) cap)
      = Ok (out', i32 k') ∧ 0 <= k' <= 3 * n ∧ mlen out' = mlen out ∧ c_string out') as Hgo.
  { intros c j Hc Hj. destruct (small_scalar c Hc) as (Hsc & Hl3 & Hc0). pose proof (utf8_len_range c).
    destruct (Z.ltb_spec c 0); [lia|]. destruct (Z.leb_spec cap (k + 1)); [lia|].
    destruct Hsc as [Hsc Hsur]. rewrite utf8_put_bytes by lia.
    destruct (Z.ltb_spec (cap - 1 - k) (utf8_len c)); [lia|]. bstep.
    destruct (Z.eqb_spec (utf8_len c) 0); [lia|]. unfold utf8_len in *.
    destruct (IH (j + 1) (splice out k (utf8_bytes c)) (k + mlen (utf8_bytes c))) as (out' & k' & -> & ? & Hm & ?);
      try lia.
    - rewrite mlen_splice; lia.
    - apply bytes_ok_splice; [done|]. by apply utf8_bytes_ok.
    - rewrite mlen_splice in Hm by lia. by exists out', k'. }
  destruct (Z.eqb_spec (get sep i) 27).
  - destruct (Z.ltb_spec (i + 1) n).
    + rewrite (rd_Ok sep (i + 1)) by lia. bstep. destruct (ext_small (get sep (i + 1))) as [He|He].
      * destruct (small_scalar _ He) as (_ & _ & ?). destruct (Z.ltb_spec (ext_to_ucs (get sep (i + 1))) 0); [lia|].
        apply Hgo; [done|lia].
      * rewrite He. apply (Hgo 32); [done|lia].
    + bstep. apply (Hgo 32); [done|lia].
  - destruct (Z.ltb_spec 127 (get sep i)); [lia|]. bstep. apply Hgo; [by apply basic_small|lia].
Qed.

Lemma bcd_char_range x : 0 <= sms_bcd_char x < 256.
Proof. unfold sms_bcd_char. apply get_range. unfold sms_bcd_chars. repeat constructor; lia. Qed.

Lemma digits_loop_safe b vlen alen : 2 + vlen <= mlen b → ∀ fuel i k digits,
  0 <= i <= vlen → vlen - i < Z.of_nat fuel → 0 <= k <= alen → alen < mlen digits → bytes_ok digits →
  digits_loop fuel b i vlen k alen digits = Err SMS_E_LENGTH ∨
  ∃ d, digits_loop fuel b i vlen k alen digits = Ok d ∧ mlen d = mlen digits ∧ c_string d.
Proof.
  intros Hb. induction fuel as [|fuel IH]; intros i k digits Hi Hf Hk Hl Hd; [lia|]. cbn [digits_loop].
  assert (∀ k d, 0 <= k <= alen → mlen d = mlen digits → bytes_ok d →
    ∃ d', wr d k 0 = Ok d' ∧ mlen d' = mlen digits ∧ c_string d') as Hend.
  { intros k' d Hk' Hm Hb'. rewrite wr_wrn, wrn_Ok by mlia. eexists. split; [done|].
    rewrite mlen_splice by mlia. split; [done|]. apply c_string_end; [done|lia]. }
  destruct (Z.ltb_spec i vlen), (Z.ltb_spec k alen); cbn [andb]; try (right; by apply Hend).
  rewrite rd_Ok by lia. bstep. destruct (sms_bcd_char _ =? 0); [by left|].
  rewrite wr_wrn, wrn_first by mlia.
  assert (∀ d k x, bytes_ok d → bytes_ok (splice d k [sms_bcd_char x])) as Hbo.
  { intros d k' x Hx. apply bytes_ok_splice; [done|]. apply bytes_ok_cons. split; [apply bcd_char_range|constructor]. }
  destruct (Z.eqb_spec (k + 1) alen).
  { right. apply Hend; [lia|by rewrite mlen_splice by mlia|by apply Hbo]. }
  destruct (sms_bcd_char _ =? 0); [by left|]. rewrite wr_wrn, wrn_first by (rewrite ?mlen_splice; mlia).
  destruct (IH (i + 1) (k + 1 + 1) (splice (splice digits k [sms_bcd_char (Z.land (get b (2 + i)) 15)]) (k + 1)
    [sms_bcd_char (u8 (Z.shiftr (get b (2 + i)) 4))])) as [->|(d & -> & Hm & Hc)]; try lia.
  - rewrite !mlen_splice; rewrite ?mlen_splice; mlia.
  - by apply Hbo, Hbo.
  - by left.
  - right. exists d. split; [done|]. split; [|done]. rewrite Hm, !mlen_splice; rewrite ?mlen_splice; mlia.
Qed.

(** What decoding an address can come to. *)
Definition addr_sane (a : sms_addr) : Prop :=
  0 <= a_ton a <= 7 ∧ 0 <= a_npi a <= 15 ∧ mlen (a_digits a) = 36 ∧ c_string (a_digits a).

Lemma sms_addr_decode_safe b n : bytes_ok b → 0 <= n <= mlen b →
  sms_addr_decode (Some b) n = Err SMS_E_SHORT ∨ sms_addr_decode (Some b) n = Err SMS_E_LENGTH ∨
  ∃ a k, sms_addr_decode (Some b) n = Ok (a, k) ∧ 2 <= k <= n ∧ k <= 12 ∧ addr_sane a.
Proof.
  intros Hb Hn. unfold sms_addr_decode. destruct (Z.ltb_spec n 2); [by left|].
  rewrite !rd_Ok by lia. bstep. cbv zeta. unfold SMS_ADDR_MAX_DIGITS. pose proof (get_range b 0 Hb).
  destruct (Z.ltb_spec 20 (get b 0)); [by right; left|]. set (vlen := (get b 0 + 1) / 2).
  assert (0 <= vlen <= 10 ∧ get b 0 <= 2 * vlen) as [Hv Hv2] by (unfold vlen; Z.to_euclidean_division_equations; lia).
  destruct (Z.ltb_spec n (2 + vlen)); [by left|].
  assert (∀ d, mlen d = 36 → c_string d → ∃ a k,
    @Ok (sms_addr * Z) (SmsAddr (u8 (Z.land (Z.shiftr (get b 1) 4) 7)) (u8 (Z.land (get b 1) 15)) d, i32 (2 + vlen)) =
      Ok (a, k) ∧ 2 <= k <= n ∧ k <= 12 ∧ addr_sane a) as Hok.
  { intros d Hd Hc. do 2 eexists. split; [done|]. rewrite i32_small by lia. split; [lia|]. split; [lia|].
    rewrite (land_low _ 3), (land_low _ 4) by done.
    pose proof (Z.mod_pos_bound (Z.shiftr (get b 1) 4) (2 ^ 3) ltac:(lia)).
    pose proof (Z.mod_pos_bound (get b 1) (2 ^ 4) ltac:(lia)).
    rewrite !u8_small by lia. unfold addr_sane. cbn [a_ton a_npi a_digits]. split_and!; lia || done. }
  destruct (_ =? SMS_TON_ALPHANUM).
  - right; right. set (cnt := vlen * 8 / 7).
    assert (0 <= cnt <= 11 ∧ cnt * 7 <= vlen * 8) as [Hc Hc7] by (unfold cnt; Z.to_euclidean_division_equations; lia).
    destruct (Z.ltb_spec 16 cnt); [lia|].
    assert (mlen (from b 2) = mlen b - 2) as Hfr by (unfold from; rewrite mlen_drop; lia).
    assert (∃ sep, sms_gsm7_unpack (Some (from b 2)) vlen 0 cnt (Some (uninit 16)) 16 = Ok (Some sep, cnt) ∧
      mlen sep = 16 ∧ ∀ j, 0 <= j < cnt → 0 <= get sep j < 128) as (sep & -> & Hsl & Hsr).
    { unfold sms_gsm7_unpack. destruct (Z.eqb_spec cnt 0) as [E|E].
      { eexists. rewrite E. split; [done|]. split; [done|]. lia. }
      destruct (Z.ltb_spec 16 cnt); [lia|]. rewrite !u64_small by lia.
      destruct (Z.ltb_spec (vlen * 8) ((0 + cnt) * 7)); [lia|].
      rewrite unpack_loop_reads by mlia. bstep. rewrite i32_small by lia. eexists. split; [done|].
      assert (mlen (septets_at (from b 2) (0 + 0) (Z.to_nat cnt)) = cnt) as Hml
        by (unfold mlen; rewrite length_septets_at; lia).
      split; [rewrite mlen_splice; mlia|]. intros j Hj. rewrite splice_0, get_app_l by lia.
      unfold get, septets_at. rewrite nth_lookup, list_lookup_fmap, lookup_seq_lt by lia. apply septet_at_range. }
    bstep. destruct (Z.ltb_spec cnt 0); [lia|]. unfold sms_gsm7_to_utf8, SMS_ADDR_MAX_TEXT.
    change (35 + 1 =? 0) with false. cbn match.
    destruct (to_utf8_loop_safe sep cnt (35 + 1) Hsr) with (fuel := S (Z.to_nat cnt)) (i := 0)
      (out := a_digits zero_addr) (k := 0) as (d & k' & -> & Hk' & Hm & Hcs);
      try lia; try done; [apply bytes_ok_zeros|].
    bstep. rewrite (i32_small k') by lia. destruct (Z.ltb_spec k' 0); [lia|]. by apply Hok.
  - destruct (digits_loop_safe b vlen (get b 0)) with (fuel := S (Z.to_nat vlen)) (i := 0) (k := 0)
      (digits := a_digits zero_addr) as [->|(d & -> & Hm & Hcs)]; try lia.
    + change (mlen (a_digits zero_addr)) with 36. lia.
    + apply bytes_ok_zeros.
    + by right; left.
    + right; right. by apply Hok.
Qed.

Lemma addr_encode_overflow b cap a : address_ok a → cap < mlen (addr_bytes a) →
  sms_addr_encode (Some b) cap (Some (addr_of a)) = Err SMS_E_OVERFLOW.
Proof.
  intros Hok Hc. pose proof (mlen_addr_bytes _ Hok) as [Hl Hl2]. rewrite Hl in Hc.
  destruct a as [ton npi s|npi cs]; cbn [addr_of]; unfold sms_addr_encode; cbn [a_ton a_npi a_digits].
  - destruct Hok as (Ht & Hna & Hn & Hd & Hlen). replace ((7 <? ton) || (15 <? npi)) with false by lia.
    rewrite (proj2 (Z.eqb_neq _ _) Hna), strlen_padded by (lia || by apply digits_nonzero). bstep.
    unfold SMS_ADDR_MAX_DIGITS. destruct (Z.ltb_spec 20 (mlen s)); [lia|].
    by rewrite (proj2 (Z.ltb_lt _ _)) by lia.
  - destruct Hok as (Hn & Hg & Hlen). destruct (gsm_texts cs Hg) as (Hsc & Hnz & H3).
    pose proof (mlen_nonneg (gsm_text cs)).
    replace ((7 <? SMS_TON_ALPHANUM) || (15 <? npi)) with false by (unfold SMS_TON_ALPHANUM; lia).
    rewrite Z.eqb_refl, strlen_padded by (done || lia). bstep. cbv zeta. rewrite name_from_utf8 by done. bstep.
    destruct (Z.ltb_spec (mlen (gsm_text cs)) 0); [lia|]. unfold SMS_ADDR_MAX_OCTETS.
    destruct (Z.ltb_spec (12 - 2) ((mlen (gsm_text cs) * 7 + 7) / 8)); [Z.to_euclidean_division_equations; lia|].
    by rewrite (proj2 (Z.ltb_lt _ _)) by lia.
Qed.

(** Addresses survive the wire.  A number of at most twenty digits or a name of
    at most eleven septets is written as the octets TS 23.040 gives it, at most
    twelve, into a buffer that holds them, leaving the rest alone, and refused with
    [SMS_E_OVERFLOW] by a smaller one; and decoding what was written yields the
    address, with one exception: a name of exactly seven septets comes back with an
    '@' behind it. *)
Theorem sms_addr_roundtrip a b cap n :
  address_ok a → bytes_ok b → cap <= mlen b → cap < 268435456 → n <= mlen b →
  let k := mlen (addr_bytes a) in
  k <= 12 ∧
  (cap < k → sms_addr_encode (Some b) cap (Some (addr_of a)) = Err SMS_E_OVERFLOW) ∧
  (k <= cap → k <= n → ∃ b', sms_addr_encode (Some b) cap (Some (addr_of a)) = Ok (b', k) ∧
    mlen b' = mlen b ∧ (∀ j, k <= j < mlen b → get b' j = get b j) ∧
    sms_addr_decode (Some b') n = Ok (addr_of (seen a), k)).
Proof.
  intros Hok Hb Hc Hcs Hn k. pose proof (mlen_addr_bytes _ Hok) as [_ Hl]. fold k in Hl.
  split_and!; [lia|by apply addr_encode_overflow|]. intros Hk Hkn.
  exists (splice b 0 (addr_bytes a)). split; [apply addr_encode_bytes; done || lia|].
  split; [rewrite mlen_splice; fold k; lia|]. split.
  - intros j Hj. rewrite splice_0, get_app_ge by (fold k; lia). fold k.
    replace (length (addr_bytes a)) with (Z.to_nat k) by (unfold k, mlen; lia).
    rewrite get_drop by lia. f_equal. lia.
  - apply addr_decode_bytes; try done.
    + apply bytes_ok_splice; [done|by apply addr_bytes_ok].
    + apply holds_splice; fold k; lia.
Qed.

Lemma sms_addr_roundtrip_witness :
  let a := Number 1 1 [52; 57; 49; 55; 49; 42; 97] in
  ∃ b', sms_addr_encode (Some (zeros 20)) 20 (Some (addr_of a)) = Ok (b', 6) ∧
    sms_addr_decode (Some b') 15 = Ok (addr_of a, 6).
Proof.
  assert (address_ok (Number 1 1 [52; 57; 49; 55; 49; 42; 97])) as Hok.
  { cbn. split_and!; try lia; try done. repeat constructor; unfold digit; set_solver. }
  destruct (sms_addr_roundtrip (Number 1 1 [52; 57; 49; 55; 49; 42; 97]) (zeros 20) 20 15 Hok (bytes_ok_zeros 20)
    ltac:(by vm_compute) ltac:(lia) ltac:(by vm_compute)) as (_ & _ & H).
  destruct (H ltac:(by vm_compute) ltac:(by vm_compute)) as (b' & H1 & _ & _ & H2).
  exists b'. split; [exact H1|exact H2].
Defined.

(** "Netflix" comes back as "Netflix@". *)
Lemma sms_addr_seven :
  (a ← sms_addr_set_text true (Some [78; 101; 116; 102; 108; 105; 120; 0]);
   '(b, n) ← sms_addr_encode (Some (uninit 12)) 12 (Some a);
   sms_addr_decode (Some b) n)
  = Ok (addr_of (Name 0 [78; 101; 116; 102; 108; 105; 120; 64]), 9).
Proof. Transparent sms_gsm7_from_ucs. by vm_compute. Qed.
