(* ===== verification/SmsTpdu.v ===== *)
(** * SmsTpdu: transport PDUs

    Models the PDU part of [sms/src/sms.c] (decoding) and [sms/src/sms_write.c]
    (encoding): a cursor over the caller's buffer, the user data and the tail that
    the parameter indicator announces, and the six PDU types.  A pointer that a
    structure keeps is the memory from there on; NULL is [None].  The union of a
    PDU is an inductive type; using another member than the type names is left
    undefined. *)

From S2P Require Import Prelude Endian SmsIntl SmsUd SmsText SmsTime SmsAddr.

Definition SMS_CD_MAX : Z := 156.
Definition SMS_TPDU_MAX : Z := 176.

Definition SMS_DIR_MS_TO_SC : Z := 0.
Definition SMS_DIR_SC_TO_MS : Z := 1.
Definition SMS_DIR_NEGATIVE : Z := 2.

Definition SMS_T_DELIVER : Z := 0.
Definition SMS_T_DELIVER_REPORT : Z := 1.
Definition SMS_T_SUBMIT : Z := 2.
Definition SMS_T_SUBMIT_REPORT : Z := 3.
Definition SMS_T_STATUS_REPORT : Z := 4.
Definition SMS_T_COMMAND : Z := 5.
Definition SMS_T_MAX : Z := 6.

Definition SMS_VPF_NONE : Z := 0.
Definition SMS_VPF_ENHANCED : Z := 1.
Definition SMS_VPF_RELATIVE : Z := 2.
Definition SMS_VPF_ABSOLUTE : Z := 3.

Module SmsTpdu.

(** ** Structures *)

Record sms_vp := SmsVp { vp_fmt : Z; vp_rel : Z; vp_abs : sms_ts; vp_enh : mem }.
Record sms_udata := SmsUdata { ud_udl : Z; ud_len : Z; ud_p : option mem }.

Definition zero_vp : sms_vp := SmsVp 0 0 zero_ts (zeros 7).
Definition zero_ud : sms_udata := SmsUdata 0 0 None.

Record sms_deliver := SmsDeliver {
  dl_mms : bool; dl_lp : bool; dl_rp : bool; dl_udhi : bool; dl_sri : bool;
  dl_oa : sms_addr; dl_pid : Z; dl_dcs : Z; dl_scts : sms_ts; dl_ud : sms_udata }.

Record sms_submit := SmsSubmit {
  sb_rd : bool; sb_rp : bool; sb_udhi : bool; sb_srr : bool; sb_mr : Z;
  sb_da : sms_addr; sb_pid : Z; sb_dcs : Z; sb_vp : sms_vp; sb_ud : sms_udata }.

(** The fields the parameter indicator gates, shared by three types. *)
Record pi_tail := PiTail {
  pt_has_pid : bool; pt_has_dcs : bool; pt_has_ud : bool; pt_pid : Z; pt_dcs : Z; pt_ud : sms_udata }.
Definition zero_tail : pi_tail := PiTail false false false 0 0 zero_ud.

Record sms_status_report := SmsStatusReport {
  st_mms : bool; st_lp : bool; st_udhi : bool; st_srq : bool; st_mr : Z;
  st_ra : sms_addr; st_scts : sms_ts; st_dt : sms_ts; st_st : Z;
  st_has_pi : bool; st_pi : Z; st_tail : pi_tail }.

Record sms_command := SmsCommand {
  cm_udhi : bool; cm_srr : bool; cm_mr : Z; cm_pid : Z; cm_ct : Z; cm_mn : Z;
  cm_da : sms_addr; cm_cdl : Z; cm_cd : option mem }.

Record sms_report := SmsReport {
  rp_udhi : bool; rp_has_fcs : bool; rp_fcs : Z; rp_pi : Z; rp_has_scts : bool; rp_scts : sms_ts;
  rp_tail : pi_tail }.

Inductive tpdu_u :=
| UDeliver (m : sms_deliver)
| USubmit (m : sms_submit)
| UStatusReport (m : sms_status_report)
| UCommand (m : sms_command)
| UReport (m : sms_report).

Record sms_tpdu := SmsTpdu { t_type : Z; t_mti : Z; t_dir : Z; t_u : tpdu_u }.

(** ** The reading cursor *)

Record rd_t := RdT { r_b : mem; r_n : Z; r_off : Z }.

Definition need (r : rd_t) (k : Z) : bool := k <=? u64 (r_n r - r_off r).
Definition cu8 (r : rd_t) : res (Z * rd_t) :=
  x ← rd (r_b r) (r_off r); Ok (x, RdT (r_b r) (r_n r) (r_off r + 1)).
Definition skip (r : rd_t) (k : Z) : rd_t := RdT (r_b r) (r_n r) (r_off r + k).
(** The pointer at the cursor. *)
Definition here (r : rd_t) : mem := from (r_b r) (r_off r).

Definition mti_type (mti dir : Z) : Z :=
  let tbl := [[SMS_T_DELIVER_REPORT; SMS_T_SUBMIT; SMS_T_COMMAND; -1];
              [SMS_T_DELIVER; SMS_T_SUBMIT_REPORT; SMS_T_STATUS_REPORT; -1]] in
  nth (Z.to_nat (Z.land mti 3)) (nth (Z.to_nat (Z.land dir 1)) tbl []) (-1).

Definition read_ud (r : rd_t) (dcs : Z) : res (sms_udata * rd_t) :=
  if negb (need r 1) then Err SMS_E_SHORT else
  '(udl, r) ← cu8 r;
  let octets := if sms_dcs_alphabet dcs =? SMS_ALPHA_GSM7 then (udl * 7 + 7) / 8 else udl in
  if SMS_UD_MAX <? octets then Err SMS_E_LENGTH else
  if negb (need r octets) then Err SMS_E_SHORT else
  Ok (SmsUdata udl (u8 octets) (if negb (octets =? 0) then Some (here r) else None), skip r octets).

Definition bit (x m : Z) : bool := negb (Z.land x m =? 0).

Definition read_pi_tail (r : rd_t) (pi : Z) : res (pi_tail * rd_t) :=
  let has_pid := bit pi 1 in
  let has_dcs := bit pi 2 in
  let has_ud := bit pi 4 in
  '(pid, r) ← (if has_pid then if negb (need r 1) then Err SMS_E_SHORT else cu8 r else Ok (0, r));
  '(dcs, r) ← (if has_dcs then if negb (need r 1) then Err SMS_E_SHORT else cu8 r else Ok (0, r));
  '(ud, r) ← (if has_ud then read_ud r (if has_dcs then dcs else 0) else Ok (zero_ud, r));
  Ok (PiTail has_pid has_dcs has_ud pid dcs ud, r).

(** [rc = sms_addr_decode(r.b + r.off, r.n - r.off, ...); if (rc < 0) return rc;
    r.off += rc;] and the same for a time stamp. *)
Definition read_addr (r : rd_t) : res (sms_addr * rd_t) :=
  '(a, rc) ← sms_addr_decode (Some (here r)) (u64 (r_n r - r_off r)); Ok (a, skip r rc).
Definition read_ts (r : rd_t) : res (sms_ts * rd_t) :=
  '(t, rc) ← sms_ts_decode (Some (here r)) (u64 (r_n r - r_off r)); Ok (t, skip r rc).
(** [if (!need(&r, 1)) return SMS_E_SHORT; ... = u8(&r);] *)
Definition read8 (r : rd_t) : res (Z * rd_t) :=
  if negb (need r 1) then Err SMS_E_SHORT else cu8 r.

(** ** Decoding *)

Definition decode_deliver (o0 : Z) (r : rd_t) : res (tpdu_u * rd_t) :=
  '(oa, r) ← read_addr r;
  if negb (need r 2) then Err SMS_E_SHORT else
  '(pid, r) ← cu8 r;
  '(dcs, r) ← cu8 r;
  '(scts, r) ← read_ts r;
  '(ud, r) ← read_ud r dcs;
  Ok (UDeliver {| dl_mms := bit o0 4; dl_lp := bit o0 8; dl_sri := bit o0 32; dl_udhi := bit o0 64;
                  dl_rp := bit o0 128; dl_oa := oa; dl_pid := pid; dl_dcs := dcs; dl_scts := scts;
                  dl_ud := ud |}, r).

Definition read_vp (r : rd_t) (vpf : Z) : res (sms_vp * rd_t) :=
  if vpf =? SMS_VPF_NONE then Ok (SmsVp vpf 0 zero_ts (zeros 7), r)
  else if vpf =? SMS_VPF_RELATIVE then
    '(rel, r) ← read8 r; Ok (SmsVp vpf rel zero_ts (zeros 7), r)
  else if vpf =? SMS_VPF_ABSOLUTE then
    '(t, r) ← read_ts r; Ok (SmsVp vpf 0 t (zeros 7), r)
  else if vpf =? SMS_VPF_ENHANCED then
    if negb (need r 7) then Err SMS_E_SHORT else
    bs ← rdn (r_b r) (r_off r) 7; Ok (SmsVp vpf 0 zero_ts bs, skip r 7)
  else Err SMS_E_INVAL.

Definition decode_submit (o0 : Z) (r : rd_t) : res (tpdu_u * rd_t) :=
  let vpf := u8 (Z.land (Z.shiftr o0 3) 3) in
  '(mr, r) ← read8 r;
  '(da, r) ← read_addr r;
  if negb (need r 2) then Err SMS_E_SHORT else
  '(pid, r) ← cu8 r;
  '(dcs, r) ← cu8 r;
  '(vp, r) ← read_vp r vpf;
  '(ud, r) ← read_ud r dcs;
  Ok (USubmit {| sb_rd := bit o0 4; sb_srr := bit o0 32; sb_udhi := bit o0 64; sb_rp := bit o0 128;
                 sb_mr := mr; sb_da := da; sb_pid := pid; sb_dcs := dcs; sb_vp := vp; sb_ud := ud |}, r).

Definition decode_status_report (o0 : Z) (r : rd_t) : res (tpdu_u * rd_t) :=
  '(mr, r) ← read8 r;
  '(ra, r) ← read_addr r;
  '(scts, r) ← read_ts r;
  '(dt, r) ← read_ts r;
  '(st, r) ← read8 r;
  '(has_pi, pi, tail, r) ←
    (if need r 1 then
       '(pi, r) ← cu8 r; '(tail, r) ← read_pi_tail r pi; Ok (true, pi, tail, r)
     else Ok (false, 0, zero_tail, r));
  Ok (UStatusReport {| st_mms := bit o0 4; st_lp := bit o0 8; st_srq := bit o0 32; st_udhi := bit o0 64;
                       st_mr := mr; st_ra := ra; st_scts := scts; st_dt := dt; st_st := st;
                       st_has_pi := has_pi; st_pi := pi; st_tail := tail |}, r).

Definition decode_command (o0 : Z) (r : rd_t) : res (tpdu_u * rd_t) :=
  if negb (need r 3) then Err SMS_E_SHORT else
  '(mr, r) ← cu8 r;
  '(pid, r) ← cu8 r;
  '(ct, r) ← cu8 r;
  '(mn, r) ← read8 r;
  '(da, r) ← read_addr r;
  '(cdl, r) ← read8 r;
  if SMS_CD_MAX <? cdl then Err SMS_E_LENGTH else
  if negb (need r cdl) then Err SMS_E_SHORT else
  Ok (UCommand {| cm_srr := bit o0 32; cm_udhi := bit o0 64; cm_mr := mr; cm_pid := pid; cm_ct := ct;
                  cm_mn := mn; cm_da := da; cm_cdl := cdl;
                  cm_cd := if negb (cdl =? 0) then Some (here r) else None |}, skip r cdl).

Definition decode_report (ty o0 : Z) (negative : bool) (r : rd_t) : res (tpdu_u * rd_t) :=
  '(fcs, r) ← (if negative then read8 r else Ok (0, r));
  '(pi, r) ← read8 r;
  '(scts, r) ← (if ty =? SMS_T_SUBMIT_REPORT then read_ts r else Ok (zero_ts, r));
  '(tail, r) ← read_pi_tail r pi;
  Ok (UReport {| rp_udhi := bit o0 64; rp_has_fcs := negative; rp_fcs := fcs; rp_pi := pi;
                 rp_has_scts := ty =? SMS_T_SUBMIT_REPORT; rp_scts := scts; rp_tail := tail |}, r).

Definition sms_tpdu_decode (b : option mem) (n dir : Z) : res (sms_tpdu * Z) :=
  match b with
  | None => Err SMS_E_INVAL
  | Some b =>
      if (SMS_DIR_SC_TO_MS <? Z.land dir (Z.lnot SMS_DIR_NEGATIVE)) || (dir <? 0) then Err SMS_E_INVAL else
      if n <? 1 then Err SMS_E_SHORT else
      let negative := bit dir SMS_DIR_NEGATIVE in
      let d := Z.land dir 1 in
      '(o0, r) ← cu8 (RdT b n 0);
      let mti := Z.land o0 3 in
      let ty := mti_type mti d in
      if ty <? 0 then Err SMS_E_MTI else
      '(u, r) ←
        (if ty =? SMS_T_DELIVER then decode_deliver o0 r
         else if ty =? SMS_T_SUBMIT then decode_submit o0 r
         else if ty =? SMS_T_STATUS_REPORT then decode_status_report o0 r
         else if ty =? SMS_T_COMMAND then decode_command o0 r
         else if (ty =? SMS_T_DELIVER_REPORT) || (ty =? SMS_T_SUBMIT_REPORT)
              then decode_report ty o0 negative r
         else Err SMS_E_MTI);
      Ok (SmsTpdu (u8 ty) mti (u8 d) u, i32 (r_off r))
  end.

(** ** Initialisation *)

Definition zero_deliver := SmsDeliver false false false false false zero_addr 0 0 zero_ts zero_ud.
Definition zero_submit := SmsSubmit false false false false 0 zero_addr 0 0 zero_vp zero_ud.
Definition zero_status := SmsStatusReport false false false false 0 zero_addr zero_ts zero_ts 0 false 0 zero_tail.
Definition zero_command := SmsCommand false false 0 0 0 0 zero_addr 0 None.
Definition zero_report := SmsReport false false 0 0 false zero_ts zero_tail.

(** [None] when nothing is written. *)
Definition sms_tpdu_init (t : bool) (type : Z) : option sms_tpdu :=
  if negb t || (SMS_T_MAX <=? type) then None else
  Some (if type =? SMS_T_DELIVER then SmsTpdu type 0 SMS_DIR_SC_TO_MS (UDeliver zero_deliver)
        else if type =? SMS_T_DELIVER_REPORT then SmsTpdu type 0 SMS_DIR_MS_TO_SC (UReport zero_report)
        else if type =? SMS_T_SUBMIT then SmsTpdu type 1 SMS_DIR_MS_TO_SC (USubmit zero_submit)
        else if type =? SMS_T_SUBMIT_REPORT then SmsTpdu type 1 SMS_DIR_SC_TO_MS (UReport zero_report)
        else if type =? SMS_T_STATUS_REPORT then SmsTpdu type 2 SMS_DIR_SC_TO_MS (UStatusReport zero_status)
        else if type =? SMS_T_COMMAND then SmsTpdu type 2 SMS_DIR_MS_TO_SC (UCommand zero_command)
        else SmsTpdu (u8 type) 0 0 (UDeliver zero_deliver)).

(** ** The writing cursor *)

Record wr_t := WrT { w_b : mem; w_cap : Z; w_off : Z }.

Definition room (w : wr_t) (k : Z) : bool := k <=? u64 (w_cap w - w_off w).
Definition put8 (w : wr_t) (v : Z) : res wr_t :=
  b ← wr (w_b w) (w_off w) v; Ok (WrT b (w_cap w) (w_off w + 1)).
(** [memcpy(w->b + w->off, p, n); w->off += n;] *)
Definition put_bytes (w : wr_t) (p : option mem) (n : Z) : res wr_t :=
  match p with
  | None => Ub
  | Some p => bs ← rdn p 0 n; b ← wrn (w_b w) (w_off w) bs; Ok (WrT b (w_cap w) (w_off w + n))
  end.
(** [if (!room(w, 1)) return SMS_E_OVERFLOW; put8(w, v);] *)
Definition write8 (w : wr_t) (v : Z) : res wr_t :=
  if negb (room w 1) then Err SMS_E_OVERFLOW else put8 w v.

Definition is_null (p : option mem) : bool := match p with None => true | Some _ => false end.

Definition write_ud (w : wr_t) (ud : sms_udata) : res wr_t :=
  if SMS_UD_MAX <? ud_len ud then Err SMS_E_LENGTH else
  if negb (ud_len ud =? 0) && is_null (ud_p ud) then Err SMS_E_INVAL else
  if negb (room w (1 + ud_len ud)) then Err SMS_E_OVERFLOW else
  w ← put8 w (ud_udl ud);
  if negb (ud_len ud =? 0) then put_bytes w (ud_p ud) (ud_len ud) else Ok w.

Definition set_if (c : bool) (v m : Z) : Z := if c then Z.lor v m else v.

Definition pi_of (has_pid has_dcs has_ud : bool) (pi : Z) : Z :=
  let v := u8 (Z.land pi 128) in
  let v := set_if has_pid v 1 in
  let v := set_if has_dcs v 2 in
  set_if has_ud v 4.

Definition write_pi_tail (w : wr_t) (t : pi_tail) : res wr_t :=
  w ← (if pt_has_pid t then write8 w (pt_pid t) else Ok w);
  w ← (if pt_has_dcs t then write8 w (pt_dcs t) else Ok w);
  if pt_has_ud t then write_ud w (pt_ud t) else Ok w.

Definition write_addr (w : wr_t) (a : sms_addr) : res wr_t :=
  '(b, rc) ← at_off (w_b w) (w_off w) (λ m, sms_addr_encode (Some m) (u64 (w_cap w - w_off w)) (Some a));
  Ok (WrT b (w_cap w) (w_off w + rc)).
Definition write_ts (w : wr_t) (t : sms_ts) : res wr_t :=
  '(b, rc) ← at_off (w_b w) (w_off w) (λ m, sms_ts_encode (Some m) (u64 (w_cap w - w_off w)) (Some t));
  Ok (WrT b (w_cap w) (w_off w + rc)).

(** ** Encoding *)

Definition encode_deliver (w : wr_t) (m : sms_deliver) : res wr_t :=
  let o0 := set_if (dl_rp m) (set_if (dl_udhi m) (set_if (dl_sri m) (set_if (dl_lp m)
              (set_if (dl_mms m) 0 4) 8) 32) 64) 128 in
  w ← put8 w o0;
  w ← write_addr w (dl_oa m);
  if negb (room w 2) then Err SMS_E_OVERFLOW else
  w ← put8 w (dl_pid m);
  w ← put8 w (dl_dcs m);
  w ← write_ts w (dl_scts m);
  write_ud w (dl_ud m).

Definition write_vp (w : wr_t) (vp : sms_vp) : res wr_t :=
  if vp_fmt vp =? SMS_VPF_NONE then Ok w
  else if vp_fmt vp =? SMS_VPF_RELATIVE then write8 w (vp_rel vp)
  else if vp_fmt vp =? SMS_VPF_ABSOLUTE then write_ts w (vp_abs vp)
  else if vp_fmt vp =? SMS_VPF_ENHANCED then
    if negb (room w 7) then Err SMS_E_OVERFLOW else put_bytes w (Some (vp_enh vp)) 7
  else Err SMS_E_INVAL.

Definition encode_submit (w : wr_t) (m : sms_submit) : res wr_t :=
  if SMS_VPF_ABSOLUTE <? vp_fmt (sb_vp m) then Err SMS_E_INVAL else
  let o0 := set_if (sb_rd m) 1 4 in
  let o0 := Z.lor o0 (u8 (Z.shiftl (Z.land (vp_fmt (sb_vp m)) 3) 3)) in
  let o0 := set_if (sb_rp m) (set_if (sb_udhi m) (set_if (sb_srr m) o0 32) 64) 128 in
  w ← put8 w o0;
  w ← write8 w (sb_mr m);
  w ← write_addr w (sb_da m);
  if negb (room w 2) then Err SMS_E_OVERFLOW else
  w ← put8 w (sb_pid m);
  w ← put8 w (sb_dcs m);
  w ← write_vp w (sb_vp m);
  write_ud w (sb_ud m).

Definition encode_status_report (w : wr_t) (m : sms_status_report) : res wr_t :=
  let o0 := set_if (st_udhi m) (set_if (st_srq m) (set_if (st_lp m) (set_if (st_mms m) 2 4) 8) 32) 64 in
  w ← put8 w o0;
  w ← write8 w (st_mr m);
  w ← write_addr w (st_ra m);
  w ← write_ts w (st_scts m);
  w ← write_ts w (st_dt m);
  w ← write8 w (st_st m);
  let t := st_tail m in
  if st_has_pi m || pt_has_pid t || pt_has_dcs t || pt_has_ud t then
    w ← write8 w (pi_of (pt_has_pid t) (pt_has_dcs t) (pt_has_ud t) (st_pi m));
    write_pi_tail w t
  else Ok w.

Definition encode_command (w : wr_t) (m : sms_command) : res wr_t :=
  let o0 := set_if (cm_udhi m) (set_if (cm_srr m) 2 32) 64 in
  w ← put8 w o0;
  if negb (room w 4) then Err SMS_E_OVERFLOW else
  w ← put8 w (cm_mr m);
  w ← put8 w (cm_pid m);
  w ← put8 w (cm_ct m);
  w ← put8 w (cm_mn m);
  w ← write_addr w (cm_da m);
  if SMS_CD_MAX <? cm_cdl m then Err SMS_E_LENGTH else
  if negb (cm_cdl m =? 0) && is_null (cm_cd m) then Err SMS_E_INVAL else
  if negb (room w (1 + cm_cdl m)) then Err SMS_E_OVERFLOW else
  w ← put8 w (cm_cdl m);
  if negb (cm_cdl m =? 0) then put_bytes w (cm_cd m) (cm_cdl m) else Ok w.

Definition encode_report (w : wr_t) (type : Z) (m : sms_report) : res wr_t :=
  let o0 := set_if (rp_udhi m) (if type =? SMS_T_SUBMIT_REPORT then 1 else 0) 64 in
  w ← put8 w o0;
  w ← (if rp_has_fcs m then write8 w (rp_fcs m) else Ok w);
  let t := rp_tail m in
  w ← write8 w (pi_of (pt_has_pid t) (pt_has_dcs t) (pt_has_ud t) (rp_pi m));
  w ← (if type =? SMS_T_SUBMIT_REPORT then write_ts w (rp_scts m) else Ok w);
  write_pi_tail w t.

Definition sms_tpdu_encode (b : option mem) (cap : Z) (t : option sms_tpdu) : res (mem * Z) :=
  match b, t with
  | Some b, Some t =>
      if SMS_T_MAX <=? t_type t then Err SMS_E_INVAL else
      if cap <? 1 then Err SMS_E_OVERFLOW else
      let w := WrT b cap 0 in
      w ←
        (if t_type t =? SMS_T_DELIVER then
           match t_u t with UDeliver m => encode_deliver w m | _ => Ub end
         else if t_type t =? SMS_T_SUBMIT then
           match t_u t with USubmit m => encode_submit w m | _ => Ub end
         else if t_type t =? SMS_T_STATUS_REPORT then
           match t_u t with UStatusReport m => encode_status_report w m | _ => Ub end
         else if t_type t =? SMS_T_COMMAND then
           match t_u t with UCommand m => encode_command w m | _ => Ub end
         else if (t_type t =? SMS_T_DELIVER_REPORT) || (t_type t =? SMS_T_SUBMIT_REPORT) then
           match t_u t with UReport m => encode_report w (t_type t) m | _ => Ub end
         else Err SMS_E_INVAL);
      Ok (w_b w, i32 (w_off w))
  | _, _ => Err SMS_E_INVAL
  end.

(** ** Status bands *)

Definition sms_st_completed (st : Z) : bool := (Z.land st 96 =? 0) && (st <? 128).
Definition sms_st_temporary (st : Z) : bool := (Z.land st 96 =? 32) && (st <? 128).
Definition sms_st_permanent (st : Z) : bool :=
  (st <? 128) && ((Z.land st 96 =? 64) || (Z.land st 96 =? 96)).

End SmsTpdu.
