(* ===== verification/SmsPdu.v ===== *)
(** * SmsPdu: what the transport PDU codec promises

    Abstract PDUs with their octets as TS 23.040 lays them out, and the proofs
    that the encoder of SmsTpdu writes exactly these octets, that the decoder reads
    them back, and that it is safe on every buffer. *)

From S2P Require Import Prelude Endian SmsIntl SmsUd SmsText SmsTime SmsAddr SmsTpdu.

Module SmsPdu.
Import SmsTpdu.
#[local] Opaque sms_gsm7_from_ucs sms_dcs_alphabet.

(** ** Abstract PDUs *)

(** The length field and the octets of the user data. *)
Definition udata : Type := Z * list Z.

Definition ud_size (dcs udl : Z) : Z :=
  if sms_dcs_alphabet dcs =? SMS_ALPHA_GSM7 then (udl * 7 + 7) / 8 else udl.

(** The optional fields of a report; [x_ext] is the extension bit. *)
Record tail := Tail { x_ext : bool; x_pid : option Z; x_dcs : option Z; x_ud : option udata }.

Inductive validity := NoVp | RelVp (rel : Z) | AbsVp (t : sms_ts) | EnhVp (bs : list Z).

Inductive pdu :=
| Deliver (mms lp sri udhi rp : bool) (oa : address) (pid dcs : Z) (scts : sms_ts) (ud : udata)
| Submit (rd srr udhi rp : bool) (mr : Z) (da : address) (pid dcs : Z) (vp : validity) (ud : udata)
| StatusReport (mms lp srq udhi : bool) (mr : Z) (ra : address) (scts dt : sms_ts) (st : Z) (x : option tail)
| Command (srr udhi : bool) (mr pid ct mn : Z) (da : address) (cd : list Z)
| DeliverReport (udhi : bool) (fcs : option Z) (x : tail)
| SubmitReport (udhi : bool) (fcs : option Z) (scts : sms_ts) (x : tail).

(** *** Well-formedness *)

Definition octet (x : Z) : Prop := 0 <= x < 256.
Definition octet_opt (x : option Z) : Prop := match x with Some x => octet x | None => True end.
Definition ud_ok (dcs : Z) (u : udata) : Prop :=
  octet u.1 ∧ bytes_ok u.2 ∧ mlen u.2 = ud_size dcs u.1 ∧ mlen u.2 <= SMS_UD_MAX.
Definition tail_ok (x : tail) : Prop :=
  octet_opt (x_pid x) ∧ octet_opt (x_dcs x) ∧
  match x_ud x with Some u => ud_ok (default 0 (x_dcs x)) u | None => True end.
Definition vp_ok (v : validity) : Prop :=
  match v with
  | NoVp => True | RelVp r => octet r | AbsVp t => ts_fits t | EnhVp bs => bytes_ok bs ∧ mlen bs = 7
  end.
Definition pdu_ok (p : pdu) : Prop :=
  match p with
  | Deliver _ _ _ _ _ oa pid dcs scts ud =>
      address_ok oa ∧ octet pid ∧ octet dcs ∧ ts_fits scts ∧ ud_ok dcs ud
  | Submit _ _ _ _ mr da pid dcs vp ud =>
      octet mr ∧ address_ok da ∧ octet pid ∧ octet dcs ∧ vp_ok vp ∧ ud_ok dcs ud
  | StatusReport _ _ _ _ mr ra scts dt st x =>
      octet mr ∧ address_ok ra ∧ ts_fits scts ∧ ts_fits dt ∧ octet st ∧
      match x with Some x => tail_ok x | None => True end
  | Command _ _ mr pid ct mn da cd =>
      octet mr ∧ octet pid ∧ octet ct ∧ octet mn ∧ address_ok da ∧ bytes_ok cd ∧ mlen cd <= SMS_CD_MAX
  | DeliverReport _ fcs x => octet_opt fcs ∧ tail_ok x
  | SubmitReport _ fcs scts x => octet_opt fcs ∧ ts_fits scts ∧ tail_ok x
  end.

(** A PDU as its reader sees it: an alphanumeric address of seven septets has one more
    character, a commercial at, and every other address is as it was. *)
Definition seen_pdu (p : pdu) : pdu :=
  match p with
  | Deliver mms lp sri udhi rp oa pid dcs scts ud => Deliver mms lp sri udhi rp (seen oa) pid dcs scts ud
  | Submit rd srr udhi rp mr da pid dcs vp ud => Submit rd srr udhi rp mr (seen da) pid dcs vp ud
  | StatusReport mms lp srq udhi mr ra scts dt st x => StatusReport mms lp srq udhi mr (seen ra) scts dt st x
  | Command srr udhi mr pid ct mn da cd => Command srr udhi mr pid ct mn (seen da) cd
  | DeliverReport _ _ _ | SubmitReport _ _ _ _ => p
  end.
(** No address of the PDU is a name of seven septets. *)
Definition no_seven (p : pdu) : Prop :=
  match p with
  | Deliver _ _ _ _ _ (Name _ cs) _ _ _ _ | Submit _ _ _ _ _ (Name _ cs) _ _ _ _
  | StatusReport _ _ _ _ _ (Name _ cs) _ _ _ _ | Command _ _ _ _ _ _ (Name _ cs) _ => mlen (gsm_text cs) ≠ 7
  | _ => True
  end.
Lemma seen_exact p : no_seven p → seen_pdu p = p.
Proof.
  destruct p as [? ? ? ? ? [] ? ? ? ?|? ? ? ? ? [] ? ? ? ?|? ? ? ? ? [] ? ? ? ?|? ? ? ? ? ? [] ?| |]; cbn [no_seven seen_pdu seen]; try done;
    intros H; by rewrite (proj2 (Z.eqb_neq _ _) H).
Qed.

(** *** Octets *)

Definition fl (c : bool) (v : Z) : Z := if c then v else 0.
Definition opt_bytes (x : option Z) : list Z := match x with Some x => [x] | None => [] end.
Definition ud_bytes (u : udata) : list Z := u.1 :: u.2.
Definition is_some {A} (x : option A) : bool := match x with Some _ => true | None => false end.
Definition pi_value (x : tail) : Z :=
  fl (x_ext x) 128 + fl (is_some (x_ud x)) 4 + fl (is_some (x_dcs x)) 2 + fl (is_some (x_pid x)) 1.
Definition tail_bytes (x : tail) : list Z :=
  opt_bytes (x_pid x) ++ opt_bytes (x_dcs x) ++ match x_ud x with Some u => ud_bytes u | None => [] end.
Definition vp_code (v : validity) : Z :=
  match v with NoVp => 0 | EnhVp _ => 1 | RelVp _ => 2 | AbsVp _ => 3 end.
Definition vp_bytes (v : validity) : list Z :=
  match v with NoVp => [] | RelVp r => [r] | AbsVp t => ts_bytes t | EnhVp bs => bs end.

Definition pdu_bytes (p : pdu) : list Z :=
  match p with
  | Deliver mms lp sri udhi rp oa pid dcs scts ud =>
      [fl rp 128 + fl udhi 64 + fl sri 32 + fl lp 8 + fl mms 4] ++ addr_bytes oa ++ [pid; dcs] ++
      ts_bytes scts ++ ud_bytes ud
  | Submit rd srr udhi rp mr da pid dcs vp ud =>
      [fl rp 128 + fl udhi 64 + fl srr 32 + 8 * vp_code vp + fl rd 4 + 1] ++ [mr] ++ addr_bytes da ++
      [pid; dcs] ++ vp_bytes vp ++ ud_bytes ud
  | StatusReport mms lp srq udhi mr ra scts dt st x =>
      [fl udhi 64 + fl srq 32 + fl lp 8 + fl mms 4 + 2] ++ [mr] ++ addr_bytes ra ++ ts_bytes scts ++
      ts_bytes dt ++ [st] ++ match x with Some x => [pi_value x] ++ tail_bytes x | None => [] end
  | Command srr udhi mr pid ct mn da cd =>
      [fl udhi 64 + fl srr 32 + 2] ++ [mr; pid; ct; mn] ++ addr_bytes da ++ [mlen cd] ++ cd
  | DeliverReport udhi fcs x => [fl udhi 64] ++ opt_bytes fcs ++ [pi_value x] ++ tail_bytes x
  | SubmitReport udhi fcs scts x =>
      [fl udhi 64 + 1] ++ opt_bytes fcs ++ [pi_value x] ++ ts_bytes scts ++ tail_bytes x
  end.

(** *** Structures *)

Definition ptr (bs : list Z) : option mem := match bs with [] => None | _ => Some bs end.
Definition ud_of (u : udata) : sms_udata := SmsUdata u.1 (mlen u.2) (ptr u.2).
Definition tail_of (x : tail) : pi_tail :=
  PiTail (is_some (x_pid x)) (is_some (x_dcs x)) (is_some (x_ud x)) (default 0 (x_pid x)) (default 0 (x_dcs x))
    (match x_ud x with Some u => ud_of u | None => zero_ud end).
Definition vp_of (v : validity) : sms_vp :=
  match v with
  | NoVp => SmsVp 0 0 zero_ts (zeros 7)
  | RelVp r => SmsVp 2 r zero_ts (zeros 7)
  | AbsVp t => SmsVp 3 0 t (zeros 7)
  | EnhVp bs => SmsVp 1 0 zero_ts bs
  end.

Definition struct_of (p : pdu) : sms_tpdu :=
  match p with
  | Deliver mms lp sri udhi rp oa pid dcs scts ud =>
      SmsTpdu SMS_T_DELIVER 0 1 (UDeliver (SmsDeliver mms lp rp udhi sri (addr_of oa) pid dcs scts (ud_of ud)))
  | Submit rd srr udhi rp mr da pid dcs vp ud =>
      SmsTpdu SMS_T_SUBMIT 1 0 (USubmit (SmsSubmit rd rp udhi srr mr (addr_of da) pid dcs (vp_of vp) (ud_of ud)))
  | StatusReport mms lp srq udhi mr ra scts dt st x =>
      SmsTpdu SMS_T_STATUS_REPORT 2 1 (UStatusReport (SmsStatusReport mms lp udhi srq mr (addr_of ra) scts dt st
        (is_some x) (match x with Some x => pi_value x | None => 0 end)
        (match x with Some x => tail_of x | None => zero_tail end)))
  | Command srr udhi mr pid ct mn da cd =>
      SmsTpdu SMS_T_COMMAND 2 0 (UCommand (SmsCommand udhi srr mr pid ct mn (addr_of da) (mlen cd) (ptr cd)))
  | DeliverReport udhi fcs x =>
      SmsTpdu SMS_T_DELIVER_REPORT 0 0 (UReport (SmsReport udhi (is_some fcs) (default 0 fcs) (pi_value x)
        false zero_ts (tail_of x)))
  | SubmitReport udhi fcs scts x =>
      SmsTpdu SMS_T_SUBMIT_REPORT 1 1 (UReport (SmsReport udhi (is_some fcs) (default 0 fcs) (pi_value x)
        true scts (tail_of x)))
  end.

(** The direction a reader passes; a report that names a cause rides an RP-ERROR. *)
Definition dir_of (p : pdu) : Z :=
  match p with
  | Deliver _ _ _ _ _ _ _ _ _ _ | StatusReport _ _ _ _ _ _ _ _ _ _ => 1
  | Submit _ _ _ _ _ _ _ _ _ _ | Command _ _ _ _ _ _ _ _ => 0
  | DeliverReport _ fcs _ => fl (is_some fcs) 2
  | SubmitReport _ fcs _ _ => fl (is_some fcs) 2 + 1
  end.

(** A structure with its pointers cut to the lengths beside them. *)
Definition cut (n : Z) (p : option mem) : option mem := take (Z.to_nat n) <$> p.
Definition cut_ud (u : sms_udata) : sms_udata := SmsUdata (ud_udl u) (ud_len u) (cut (ud_len u) (ud_p u)).
Definition cut_tail (t : pi_tail) : pi_tail :=
  PiTail (pt_has_pid t) (pt_has_dcs t) (pt_has_ud t) (pt_pid t) (pt_dcs t) (cut_ud (pt_ud t)).
Definition cut_u (u : tpdu_u) : tpdu_u :=
  match u with
  | UDeliver m => UDeliver (SmsDeliver (dl_mms m) (dl_lp m) (dl_rp m) (dl_udhi m) (dl_sri m) (dl_oa m)
                    (dl_pid m) (dl_dcs m) (dl_scts m) (cut_ud (dl_ud m)))
  | USubmit m => USubmit (SmsSubmit (sb_rd m) (sb_rp m) (sb_udhi m) (sb_srr m) (sb_mr m) (sb_da m)
                    (sb_pid m) (sb_dcs m) (sb_vp m) (cut_ud (sb_ud m)))
  | UStatusReport m => UStatusReport (SmsStatusReport (st_mms m) (st_lp m) (st_udhi m) (st_srq m) (st_mr m)
                    (st_ra m) (st_scts m) (st_dt m) (st_st m) (st_has_pi m) (st_pi m) (cut_tail (st_tail m)))
  | UCommand m => UCommand (SmsCommand (cm_udhi m) (cm_srr m) (cm_mr m) (cm_pid m) (cm_ct m) (cm_mn m)
                    (cm_da m) (cm_cdl m) (cut (cm_cdl m) (cm_cd m)))
  | UReport m => UReport (SmsReport (rp_udhi m) (rp_has_fcs m) (rp_fcs m) (rp_pi m) (rp_has_scts m)
                    (rp_scts m) (cut_tail (rp_tail m)))
  end.
Definition cut_tpdu (t : sms_tpdu) : sms_tpdu := SmsTpdu (t_type t) (t_mti t) (t_dir t) (cut_u (t_u t)).

(** ** Encoding *)

Section writing.
Context (b0 : mem) (cap : Z) (Hb0 : bytes_ok b0) (Hcap : 0 <= cap <= mlen b0) (Hsmall : cap < 268435456).

(** The cursor after the octets [pre], and the outcome of writing [bs] there. *)
Definition w_at (pre : list Z) : wr_t := WrT (splice b0 0 pre) cap (mlen pre).
Definition emit (pre bs : list Z) : res wr_t :=
  if mlen pre + mlen bs <=? cap then Ok (w_at (pre ++ bs)) else Err SMS_E_OVERFLOW.

Lemma emit_bind pre a c (f : wr_t → res wr_t) :
  (mlen pre + mlen a <= cap → f (w_at (pre ++ a)) = emit (pre ++ a) c) →
  emit pre a ≫= f = emit pre (a ++ c).
Proof using.
  intros Hf. unfold emit at 1. destruct (Z.leb_spec (mlen pre + mlen a) cap).
  - bstep. rewrite Hf by done. unfold emit. rewrite !mlen_app, <-app_assoc, Z.add_assoc. done.
  - bstep. unfold emit. rewrite mlen_app. pose proof (mlen_nonneg c).
    destruct (Z.leb_spec (mlen pre + (mlen a + mlen c)) cap); [lia|done].
Qed.

Lemma emit_nil pre : mlen pre <= cap → Ok (w_at pre) = emit pre [].
Proof using.
  intros. unfold emit. rewrite mlen_nil, Z.add_0_r, app_nil_r. by rewrite (proj2 (Z.leb_le _ _)).
Qed.

Lemma room_at pre k : mlen pre <= cap → room (w_at pre) k = (mlen pre + k <=? cap).
Proof using Hcap Hsmall.
  intros. unfold room, w_at. cbn [w_cap w_off]. pose proof (mlen_nonneg pre). rewrite u64_small by lia. lia.
Qed.

Lemma put8_at pre v : mlen pre + 1 <= cap → put8 (w_at pre) v = Ok (w_at (pre ++ [v])).
Proof using Hcap.
  intros. unfold put8, w_at. cbn [w_b w_cap w_off]. pose proof (mlen_nonneg pre).
  rewrite wr_wrn, (wrn_next b0 0 (mlen pre) pre [v]) by mlia. by rewrite mlen_app.
Qed.

Lemma write8_at pre v : mlen pre <= cap → write8 (w_at pre) v = emit pre [v].
Proof using Hcap Hsmall.
  intros. unfold write8, emit. rewrite room_at by done. change (mlen [v]) with 1.
  destruct (Z.leb_spec (mlen pre + 1) cap); cbn [negb]; [by apply put8_at|done].
Qed.

Lemma two_at {A} pre x y (f : wr_t → res A) : mlen pre <= cap →
  (if negb (room (w_at pre) 2) then Err SMS_E_OVERFLOW else
   w ← put8 (w_at pre) x; w ← put8 w y; f w) = emit pre [x; y] ≫= f.
Proof using Hcap Hsmall.
  intros. rewrite room_at by done. unfold emit. change (mlen [x; y]) with 2.
  destruct (Z.leb_spec (mlen pre + 2) cap); cbn [negb]; [|done].
  rewrite put8_at by lia. bstep. rewrite put8_at by (rewrite mlen_app; change (mlen [x]) with 1; lia).
  bstep. by rewrite <-app_assoc.
Qed.

Lemma four_at {A} pre x y z t (f : wr_t → res A) : mlen pre <= cap →
  (if negb (room (w_at pre) 4) then Err SMS_E_OVERFLOW else
   w ← put8 (w_at pre) x; w ← put8 w y; w ← put8 w z; w ← put8 w t; f w) = emit pre [x; y; z; t] ≫= f.
Proof using Hcap Hsmall.
  intros. rewrite room_at by done. unfold emit. change (mlen [x; y; z; t]) with 4.
  destruct (Z.leb_spec (mlen pre + 4) cap); cbn [negb]; [|done].
  do 4 (rewrite put8_at by (mlen_simp; lia); bstep). by rewrite <-!app_assoc.
Qed.

(** A callee that writes [bs] at the cursor. *)
Lemma at_cursor pre bs {A} (f : mem → res (mem * A)) x : mlen pre + mlen bs <= cap →
  f (drop (length pre) b0) = Ok (splice (drop (length pre) b0) 0 bs, x) →
  at_off (splice b0 0 pre) (mlen pre) f = Ok (splice b0 0 (pre ++ bs), x).
Proof using Hcap.
  intros Hl Hf. pose proof (mlen_nonneg pre). pose proof (mlen_nonneg bs). unfold at_off.
  rewrite mlen_splice by lia. replace ((mlen pre <? 0) || (mlen b0 <? mlen pre)) with false by lia.
  unfold from. rewrite splice_0. unfold mlen at 1 2. rewrite Nat2Z.id, drop_app_length, take_app_length, Hf.
  bstep. do 2 f_equal. rewrite !splice_0, drop_drop, length_app, <-app_assoc. done.
Qed.

Lemma write_addr_at pre a : mlen pre <= cap → address_ok a →
  write_addr (w_at pre) (addr_of a) = emit pre (addr_bytes a).
Proof using All.
  intros Hp Ha. unfold write_addr, w_at. cbn [w_b w_cap w_off]. pose proof (mlen_nonneg pre).
  rewrite u64_small by lia. unfold emit. destruct (Z.leb_spec (mlen pre + mlen (addr_bytes a)) cap).
  - rewrite (at_cursor pre (addr_bytes a) _ (mlen (addr_bytes a))); [|lia|].
    + bstep. unfold w_at. by rewrite mlen_app.
    + apply addr_encode_bytes; try done; [by apply Forall_drop| |lia].
      split; [lia|]. unfold mlen in *. rewrite length_drop. lia.
  - unfold at_off. rewrite mlen_splice by lia.
    replace ((mlen pre <? 0) || (mlen b0 <? mlen pre)) with false by lia.
    rewrite addr_encode_overflow by (done || lia). done.
Qed.

Lemma write_ts_at pre t : mlen pre <= cap → ts_fits t → write_ts (w_at pre) t = emit pre (ts_bytes t).
Proof using All.
  intros Hp Ht. unfold write_ts, w_at. cbn [w_b w_cap w_off]. pose proof (mlen_nonneg pre).
  rewrite u64_small by lia. unfold emit. rewrite mlen_ts_bytes.
  destruct (Z.leb_spec (mlen pre + 7) cap).
  - rewrite (at_cursor pre (ts_bytes t) _ 7); [|rewrite mlen_ts_bytes; lia|].
    + bstep. unfold w_at. by rewrite mlen_app.
    + apply sms_ts_encode_bytes; [done|lia|]. unfold mlen in *. rewrite length_drop. lia.
  - unfold at_off. rewrite mlen_splice by lia.
    replace ((mlen pre <? 0) || (mlen b0 <? mlen pre)) with false by lia.
    unfold sms_ts_encode. rewrite (proj2 (Z.ltb_lt _ _)) by lia. done.
Qed.

Lemma put_bytes_at pre bs : mlen pre + mlen bs <= cap →
  put_bytes (w_at pre) (Some bs) (mlen bs) = Ok (w_at (pre ++ bs)).
Proof using Hcap.
  intros. pose proof (mlen_nonneg pre). pose proof (mlen_nonneg bs).
  unfold put_bytes, w_at. cbn [w_b w_cap w_off]. rewrite rdn_Ok, slice_full by lia. bstep.
  rewrite (wrn_next b0 0 (mlen pre) pre bs) by lia. by rewrite mlen_app.
Qed.

(** A length octet and the octets behind it. *)
Lemma counted_at pre x bs : mlen pre <= cap → mlen bs <= 255 →
  (if negb (room (w_at pre) (1 + mlen bs)) then Err SMS_E_OVERFLOW else
   w ← put8 (w_at pre) x;
   if negb (mlen bs =? 0) then put_bytes w (ptr bs) (mlen bs) else Ok w) = emit pre (x :: bs).
Proof using Hcap Hsmall.
  intros Hp Hl. rewrite room_at by done. unfold emit. rewrite mlen_cons. pose proof (mlen_nonneg bs).
  destruct (Z.leb_spec (mlen pre + (1 + mlen bs)) cap); cbn [negb]; [|done].
  rewrite put8_at by lia. bstep. destruct bs as [|y bs]; [done|].
  replace (negb (mlen (y :: bs) =? 0)) with true by (rewrite mlen_cons; pose proof (mlen_nonneg bs); lia).
  cbn [ptr]. rewrite put_bytes_at by (rewrite mlen_app; change (mlen [x]) with 1; lia).
  by rewrite <-app_assoc.
Qed.

Lemma write_ud_at pre dcs u : mlen pre <= cap → ud_ok dcs u → write_ud (w_at pre) (ud_of u) = emit pre (ud_bytes u).
Proof using Hcap Hsmall.
  intros Hp (Hu & Hbs & _ & Hl). unfold write_ud, ud_of. cbn [ud_udl ud_len ud_p].
  destruct (Z.ltb_spec SMS_UD_MAX (mlen u.2)); [lia|].
  replace (negb (mlen u.2 =? 0) && is_null (ptr u.2)) with false
    by (by destruct u as [? [|? ?]]; cbn; rewrite ?andb_false_r).
  apply counted_at; [done|]. unfold SMS_UD_MAX in *. lia.
Qed.

Lemma write_opt_at pre x (has : bool) v : mlen pre <= cap → has = is_some x → v = default 0 x →
  (if has then write8 (w_at pre) v else Ok (w_at pre)) = emit pre (opt_bytes x).
Proof using Hcap Hsmall.
  intros Hp -> ->. destruct x; cbn [is_some default from_option id opt_bytes]; [by apply write8_at|by apply emit_nil].
Qed.

Lemma write_pi_tail_at pre x : mlen pre <= cap → tail_ok x →
  write_pi_tail (w_at pre) (tail_of x) = emit pre (tail_bytes x).
Proof using Hcap Hsmall.
  intros Hp (_ & _ & Hu). unfold write_pi_tail, tail_of, tail_bytes.
  cbn [pt_has_pid pt_has_dcs pt_has_ud pt_pid pt_dcs pt_ud].
  rewrite (write_opt_at pre (x_pid x)) by done. apply emit_bind. intros H1.
  rewrite (write_opt_at _ (x_dcs x)) by (done || rewrite mlen_app; lia). apply emit_bind. intros H2.
  destruct (x_ud x) as [u|]; cbn [is_some]; [|apply emit_nil; rewrite mlen_app; lia].
  eapply write_ud_at; [rewrite mlen_app; lia|done].
Qed.

Lemma write_vp_at pre v : mlen pre <= cap → vp_ok v → write_vp (w_at pre) (vp_of v) = emit pre (vp_bytes v).
Proof using All.
  intros Hp Hv. destruct v as [|r|t|bs]; unfold write_vp; cbn [vp_of vp_fmt vp_rel vp_abs vp_enh vp_bytes].
  - by apply emit_nil.
  - by apply write8_at.
  - by apply write_ts_at.
  - destruct Hv as [_ Hl]. change (1 =? SMS_VPF_NONE) with false. change (1 =? SMS_VPF_RELATIVE) with false.
    change (1 =? SMS_VPF_ABSOLUTE) with false. change (1 =? SMS_VPF_ENHANCED) with true. cbn match.
    rewrite room_at by done. unfold emit. rewrite Hl.
    destruct (Z.leb_spec (mlen pre + 7) cap); cbn [negb]; [|done]. rewrite <-Hl. apply put_bytes_at. lia.
Qed.

Lemma pi_of_value x : pi_of (is_some (x_pid x)) (is_some (x_dcs x)) (is_some (x_ud x)) (pi_value x) = pi_value x.
Proof using. destruct x as [[] [] [] []]; done. Qed.

(** The first octet, which always has room. *)
Lemma first_at x : 1 <= cap → put8 (WrT b0 cap 0) x = emit [] [x].
Proof using Hcap.
  intros. pose proof (put8_at [] x) as H1. unfold w_at in H1. rewrite splice_nil in H1.
  change (mlen []) with 0 in H1. rewrite H1 by lia. unfold emit. change (mlen [x]) with 1.
  rewrite (proj2 (Z.leb_le _ _)) by (rewrite mlen_nil; lia). done.
Qed.

Ltac fits := rewrite ?mlen_app in *; lia.

Lemma encode_deliver_at mms lp sri udhi rp oa pid dcs scts ud :
  1 <= cap → pdu_ok (Deliver mms lp sri udhi rp oa pid dcs scts ud) →
  encode_deliver (WrT b0 cap 0) (SmsDeliver mms lp rp udhi sri (addr_of oa) pid dcs scts (ud_of ud))
    = emit [] (pdu_bytes (Deliver mms lp sri udhi rp oa pid dcs scts ud)).
Proof using All.
  intros H1 (Ha & _ & _ & Ht & Hu). unfold encode_deliver.
  cbn [dl_mms dl_lp dl_rp dl_udhi dl_sri dl_oa dl_pid dl_dcs dl_scts dl_ud pdu_bytes].
  replace (set_if rp _ 128) with (fl rp 128 + fl udhi 64 + fl sri 32 + fl lp 8 + fl mms 4)
    by (by destruct rp, udhi, sri, lp, mms).
  rewrite first_at by done. apply emit_bind. intros E1.
  rewrite write_addr_at by (done || fits). apply emit_bind. intros E2.
  rewrite two_at by fits. apply emit_bind. intros E3.
  rewrite write_ts_at by (done || fits). apply emit_bind. intros E4.
  eapply write_ud_at; [fits|done].
Qed.

Lemma encode_submit_at rd srr udhi rp mr da pid dcs vp ud :
  1 <= cap → pdu_ok (Submit rd srr udhi rp mr da pid dcs vp ud) →
  encode_submit (WrT b0 cap 0) (SmsSubmit rd rp udhi srr mr (addr_of da) pid dcs (vp_of vp) (ud_of ud))
    = emit [] (pdu_bytes (Submit rd srr udhi rp mr da pid dcs vp ud)).
Proof using All.
  intros H1 (_ & Ha & _ & _ & Hv & Hu). unfold encode_submit.
  cbn [sb_rd sb_rp sb_udhi sb_srr sb_mr sb_da sb_pid sb_dcs sb_vp sb_ud pdu_bytes].
  replace (SMS_VPF_ABSOLUTE <? vp_fmt (vp_of vp)) with false by (by destruct vp).
  replace (set_if rp _ 128) with (fl rp 128 + fl udhi 64 + fl srr 32 + 8 * vp_code vp + fl rd 4 + 1)
    by (by destruct rp, udhi, srr, rd, vp).
  rewrite first_at by done. apply emit_bind. intros E1.
  rewrite write8_at by fits. apply emit_bind. intros E2.
  rewrite write_addr_at by (done || fits). apply emit_bind. intros E3.
  rewrite two_at by fits. apply emit_bind. intros E4.
  rewrite write_vp_at by (done || fits). apply emit_bind. intros E5.
  eapply write_ud_at; [fits|done].
Qed.

Lemma encode_status_at mms lp srq udhi mr ra scts dt st x :
  1 <= cap → pdu_ok (StatusReport mms lp srq udhi mr ra scts dt st x) →
  encode_status_report (WrT b0 cap 0) (SmsStatusReport mms lp udhi srq mr (addr_of ra) scts dt st (is_some x)
      (match x with Some x => pi_value x | None => 0 end) (match x with Some x => tail_of x | None => zero_tail end))
    = emit [] (pdu_bytes (StatusReport mms lp srq udhi mr ra scts dt st x)).
Proof using All.
  intros H1 (_ & Ha & Ht & Hd & _ & Hx). unfold encode_status_report.
  cbn [st_mms st_lp st_srq st_udhi st_mr st_ra st_scts st_dt st_st st_has_pi st_pi st_tail pdu_bytes].
  replace (set_if udhi _ 64) with (fl udhi 64 + fl srq 32 + fl lp 8 + fl mms 4 + 2)
    by (by destruct udhi, srq, lp, mms).
  rewrite first_at by done. apply emit_bind. intros E1.
  rewrite write8_at by fits. apply emit_bind. intros E2.
  rewrite write_addr_at by (done || fits). apply emit_bind. intros E3.
  rewrite write_ts_at by (done || fits). apply emit_bind. intros E4.
  rewrite write_ts_at by (done || fits). apply emit_bind. intros E5.
  rewrite write8_at by fits. apply emit_bind. intros E6. cbv zeta.
  destruct x as [x|]; cbn [is_some orb zero_tail pt_has_pid pt_has_dcs pt_has_ud]; [|apply emit_nil; fits].
  cbn [tail_of pt_has_pid pt_has_dcs pt_has_ud]. rewrite pi_of_value, write8_at by fits.
  apply emit_bind. intros E7. apply write_pi_tail_at; [fits|done].
Qed.

Lemma encode_command_at srr udhi mr pid ct mn da cd :
  1 <= cap → pdu_ok (Command srr udhi mr pid ct mn da cd) →
  encode_command (WrT b0 cap 0) (SmsCommand udhi srr mr pid ct mn (addr_of da) (mlen cd) (ptr cd))
    = emit [] (pdu_bytes (Command srr udhi mr pid ct mn da cd)).
Proof using All.
  intros H1 (_ & _ & _ & _ & Ha & _ & Hc). unfold encode_command.
  cbn [cm_udhi cm_srr cm_mr cm_pid cm_ct cm_mn cm_da cm_cdl cm_cd pdu_bytes].
  replace (set_if udhi _ 64) with (fl udhi 64 + fl srr 32 + 2) by (by destruct udhi, srr).
  rewrite first_at by done. apply emit_bind. intros E1. rewrite four_at by fits. apply emit_bind. intros E2.
  rewrite write_addr_at by (done || fits). apply emit_bind. intros E3.
  destruct (Z.ltb_spec SMS_CD_MAX (mlen cd)); [lia|].
  replace (negb (mlen cd =? 0) && is_null (ptr cd)) with false by (by destruct cd; cbn; rewrite ?andb_false_r).
  apply counted_at; [fits|unfold SMS_CD_MAX in *; lia].
Qed.

Lemma encode_report_at (submit : bool) udhi fcs scts x : 1 <= cap → tail_ok x → (submit = true → ts_fits scts) →
  encode_report (WrT b0 cap 0) (if submit then SMS_T_SUBMIT_REPORT else SMS_T_DELIVER_REPORT)
      (SmsReport udhi (is_some fcs) (default 0 fcs) (pi_value x) submit scts (tail_of x))
    = emit [] ([fl udhi 64 + fl submit 1] ++ opt_bytes fcs ++ [pi_value x] ++
        (if submit then ts_bytes scts else []) ++ tail_bytes x).
Proof using All.
  intros H1 Hx Ht. unfold encode_report. cbn [rp_udhi rp_has_fcs rp_fcs rp_pi rp_has_scts rp_scts rp_tail].
  replace ((if submit then SMS_T_SUBMIT_REPORT else SMS_T_DELIVER_REPORT) =? SMS_T_SUBMIT_REPORT) with submit
    by (by destruct submit).
  replace (set_if udhi _ 64) with (fl udhi 64 + fl submit 1) by (by destruct udhi, submit).
  rewrite first_at by done. apply emit_bind. intros E1.
  rewrite (write_opt_at _ fcs) by (done || fits). apply emit_bind. intros E2. cbv zeta.
  cbn [tail_of pt_has_pid pt_has_dcs pt_has_ud]. rewrite pi_of_value, write8_at by fits.
  apply emit_bind. intros E3. fold (tail_of x).
  assert ((if submit then write_ts (w_at (((([] ++ [fl udhi 64 + fl submit 1]) ++ opt_bytes fcs) ++ [pi_value x])))
      scts else Ok (w_at ((([] ++ [fl udhi 64 + fl submit 1]) ++ opt_bytes fcs) ++ [pi_value x])))
    = emit ((([] ++ [fl udhi 64 + fl submit 1]) ++ opt_bytes fcs) ++ [pi_value x])
        (if submit then ts_bytes scts else [])) as ->.
  { destruct submit; [apply write_ts_at; [fits|by apply Ht]|apply emit_nil; fits]. }
  apply emit_bind. intros E4. apply write_pi_tail_at; [fits|done].
Qed.

(** The encoder writes the octets of the PDU, or reports that they do not fit. *)
Lemma sms_tpdu_encode_emits p : pdu_ok p → 1 <= cap →
  sms_tpdu_encode (Some b0) cap (Some (struct_of p))
    = w ← emit [] (pdu_bytes p); Ok (w_b w, i32 (w_off w)).
Proof using All.
  intros Hp H1. unfold sms_tpdu_encode. rewrite (proj2 (Z.ltb_ge cap 1)) by lia.
  destruct p; cbn [struct_of t_type t_u].
  - change (SMS_T_MAX <=? SMS_T_DELIVER) with false. change (SMS_T_DELIVER =? SMS_T_DELIVER) with true. cbn match.
    by rewrite encode_deliver_at.
  - change (SMS_T_MAX <=? SMS_T_SUBMIT) with false. change (SMS_T_SUBMIT =? SMS_T_DELIVER) with false.
    change (SMS_T_SUBMIT =? SMS_T_SUBMIT) with true. cbn match. by rewrite encode_submit_at.
  - by rewrite <-encode_status_at.
  - by rewrite <-encode_command_at.
  - destruct Hp as [_ Hx]. pose proof (encode_report_at false udhi fcs zero_ts x H1 Hx ltac:(done)) as E.
    cbn [fl app] in E. rewrite Z.add_0_r in E. cbn [pdu_bytes app]. by rewrite <-E.
  - destruct Hp as (_ & Ht & Hx). cbn [pdu_bytes]. change 1 with (fl true 1).
    by rewrite <-(encode_report_at true udhi fcs scts x H1 Hx (λ _, Ht)).
Qed.
End writing.

(** ** Decoding what was written *)

(** The rest of the buffer is [bs]. *)
Definition ahead (r : rd_t) (bs : list Z) : Prop :=
  bytes_ok (r_b r) ∧ holds (r_b r) (r_off r) bs ∧ r_n r = r_off r + mlen bs ∧ r_n r < 268435456.

Lemma ahead_app r x y : ahead r (x ++ y) → ahead (skip r (mlen x)) y ∧ holds (r_b r) (r_off r) x.
Proof.
  intros (Hb & Hh & Hn & Hs). apply holds_app in Hh as [Hx Hy]. rewrite mlen_app in Hn.
  split; [|done]. unfold ahead, skip. cbn [r_b r_n r_off]. split_and!; try done. lia.
Qed.

Lemma ahead_left r bs : ahead r bs → u64 (r_n r - r_off r) = mlen bs.
Proof.
  intros (_ & Hh & Hn & Hs). pose proof (mlen_nonneg bs). pose proof (holds_pos _ _ _ Hh). rewrite u64_small; lia.
Qed.

Lemma need_ahead r bs k : ahead r bs → need r k = (k <=? mlen bs).
Proof. intros H. unfold need. by rewrite (ahead_left _ _ H). Qed.

Lemma cu8_ahead r x bs : ahead r (x :: bs) → cu8 r = Ok (x, skip r 1) ∧ ahead (skip r 1) bs.
Proof.
  intros H. destruct (ahead_app r [x] bs H) as [H1 H2]. split; [|done].
  apply holds_cons in H2 as [E _]. unfold cu8. by rewrite E.
Qed.

Lemma read8_ahead r x bs : ahead r (x :: bs) → read8 r = Ok (x, skip r 1) ∧ ahead (skip r 1) bs.
Proof.
  intros H. unfold read8. rewrite (need_ahead _ _ _ H), mlen_cons. pose proof (mlen_nonneg bs).
  rewrite (proj2 (Z.leb_le _ _)) by lia. by apply cu8_ahead.
Qed.

Lemma here_holds r bs : ahead r bs → bytes_ok (here r) ∧ holds (here r) 0 bs.
Proof.
  intros (Hb & (Hp & Hl & Hs) & Hn & Hsm). pose proof (mlen_nonneg bs). unfold here, from.
  split; [by apply Forall_drop|]. split; [lia|]. rewrite mlen_drop by lia. split; [lia|].
  rewrite <-Hs at 2. unfold slice. by rewrite drop_0.
Qed.

Lemma read_addr_ahead r a bs : ahead r (addr_bytes a ++ bs) → address_ok a →
  read_addr r = Ok (addr_of (seen a), skip r (mlen (addr_bytes a))) ∧ ahead (skip r (mlen (addr_bytes a))) bs.
Proof.
  intros H Ha. destruct (ahead_app _ _ _ H) as [H1 H2]. split; [|done]. unfold read_addr.
  rewrite (ahead_left _ _ H). destruct (here_holds _ _ H) as [Hb Hh]. apply holds_app in Hh as [Hh _].
  pose proof (mlen_nonneg bs). rewrite (addr_decode_bytes _ _ a) by (done || rewrite mlen_app; lia).
  done.
Qed.

Lemma read_ts_ahead r t bs : ahead r (ts_bytes t ++ bs) → ts_fits t →
  read_ts r = Ok (t, skip r 7) ∧ ahead (skip r 7) bs.
Proof.
  intros H Ht. destruct (ahead_app _ _ _ H) as [H1 H2]. split; [|done]. unfold read_ts.
  rewrite (ahead_left _ _ H). destruct (here_holds _ _ H) as [Hb Hh]. apply holds_app in Hh as [Hh _].
  pose proof (mlen_nonneg bs). by rewrite (sms_ts_decode_bytes _ _ t) by (done || rewrite mlen_app, mlen_ts_bytes; lia).
Qed.

Lemma holds_take m bs : holds m 0 bs → take (length bs) m = bs.
Proof. intros (_ & _ & Hs). unfold slice, mlen in Hs. by rewrite drop_0, Nat2Z.id in Hs. Qed.

(** The pointer to octets at the cursor, cut to their number. *)
Lemma cut_here r bs y : ahead r (bs ++ y) →
  cut (mlen bs) (if negb (mlen bs =? 0) then Some (here r) else None) = ptr bs.
Proof.
  intros H. destruct (here_holds _ _ H) as [_ Hh]. apply holds_app in Hh as [Hh _]. apply holds_take in Hh.
  destruct bs as [|x bs]; [done|]. replace (mlen (x :: bs) =? 0) with false
    by (rewrite mlen_cons; pose proof (mlen_nonneg bs); lia).
  cbn [negb cut fmap option_fmap option_map ptr]. unfold mlen. by rewrite Nat2Z.id, Hh.
Qed.

Lemma read_ud_ahead r dcs u bs : ahead r (ud_bytes u ++ bs) → ud_ok dcs u →
  ∃ ud r', read_ud r dcs = Ok (ud, r') ∧ cut_ud ud = ud_of u ∧ ahead r' bs ∧ r_n r' = r_n r.
Proof.
  intros H (Hu & Hbs & Hsz & Hl). destruct u as [udl os]. cbn [fst snd] in *. unfold read_ud.
  cbn [ud_bytes fst snd app] in H. destruct (read8_ahead _ _ _ H) as [E1 H1]. unfold read8 in E1.
  destruct (negb (need r 1)); [done|]. rewrite E1. bstep. cbv zeta. fold (ud_size dcs udl). rewrite <-Hsz.
  destruct (Z.ltb_spec SMS_UD_MAX (mlen os)); [lia|]. pose proof (mlen_nonneg os). pose proof (mlen_nonneg bs).
  rewrite (need_ahead _ _ _ H1), (proj2 (Z.leb_le _ _)) by (rewrite mlen_app; lia). cbn [negb].
  do 2 eexists. split; [done|]. unfold SMS_UD_MAX in *. rewrite u8_small by lia. split_and!.
  - unfold cut_ud, ud_of. cbn [ud_udl ud_len ud_p fst snd]. f_equal. by apply (cut_here _ _ bs).
  - by apply ahead_app.
  - done.
Qed.

Lemma read_opt_ahead r x (has : bool) bs : ahead r (opt_bytes x ++ bs) → has = is_some x →
  (if has then if negb (need r 1) then Err SMS_E_SHORT else cu8 r else Ok (0, r))
    = Ok (default 0 x, skip r (mlen (opt_bytes x))) ∧ ahead (skip r (mlen (opt_bytes x))) bs.
Proof.
  intros H ->. destruct x as [x|]; cbn [is_some default from_option id opt_bytes app] in *.
  - by apply read8_ahead.
  - split; [|by destruct (ahead_app r [] bs H)]. unfold skip. change (mlen []) with 0.
    rewrite Z.add_0_r. by destruct r.
Qed.

Lemma pi_bits x : bit (pi_value x) 1 = is_some (x_pid x) ∧ bit (pi_value x) 2 = is_some (x_dcs x) ∧
  bit (pi_value x) 4 = is_some (x_ud x).
Proof. destruct x as [[] [] [] []]; done. Qed.

Lemma cut_nil_ahead r : ahead r [] → r_off r = r_n r.
Proof. intros (_ & _ & Hn & _). rewrite mlen_nil in Hn. lia. Qed.

Lemma read_pi_tail_ahead r x : ahead r (tail_bytes x) → tail_ok x →
  ∃ t r', read_pi_tail r (pi_value x) = Ok (t, r') ∧ cut_tail t = tail_of x ∧ ahead r' [] ∧ r_n r' = r_n r.
Proof.
  intros H (_ & _ & Hu). unfold read_pi_tail. destruct (pi_bits x) as (-> & -> & ->). cbv zeta.
  unfold tail_bytes in H. destruct (read_opt_ahead _ _ _ _ H eq_refl) as [-> H1]. bstep.
  destruct (read_opt_ahead _ _ _ _ H1 eq_refl) as [-> H2]. bstep.
  destruct (x_ud x) as [u|] eqn:Eu; cbn [is_some].
  - replace (if is_some (x_dcs x) then default 0 (x_dcs x) else 0) with (default 0 (x_dcs x)) by (by destruct (x_dcs x)).
    rewrite <-(app_nil_r (ud_bytes u)) in H2. destruct (read_ud_ahead _ _ _ _ H2 Hu) as (ud & r' & -> & Hc & H3 & Hn).
    bstep. do 2 eexists. split; [done|]. split; [|done]. unfold cut_tail, tail_of. cbn. by rewrite Hc, Eu.
  - bstep. do 2 eexists. split; [done|]. split; [|done]. unfold cut_tail, tail_of. cbn. by rewrite Eu.
Qed.

Lemma read_vp_ahead r v bs : ahead r (vp_bytes v ++ bs) → vp_ok v →
  read_vp r (vp_code v) = Ok (vp_of v, skip r (mlen (vp_bytes v))) ∧ ahead (skip r (mlen (vp_bytes v))) bs.
Proof.
  intros H Hv. destruct (ahead_app _ _ _ H) as [H1 H2]. split; [|done]. unfold read_vp.
  unfold SMS_VPF_NONE, SMS_VPF_RELATIVE, SMS_VPF_ABSOLUTE, SMS_VPF_ENHANCED.
  destruct v as [|x|t|os]; cbn [vp_code vp_bytes vp_of Z.eqb Pos.eqb] in *.
  - unfold skip. change (mlen []) with 0. rewrite Z.add_0_r. by destruct r.
  - destruct (read8_ahead _ _ _ H) as [E _]. by rewrite E.
  - destruct (read_ts_ahead _ _ _ H Hv) as [E _]. by rewrite E.
  - destruct Hv as [_ Hl]. pose proof (mlen_nonneg bs).
    rewrite (need_ahead _ _ _ H), (proj2 (Z.leb_le _ _)) by (rewrite mlen_app; lia). cbn [negb].
    rewrite (holds_rdn _ _ os) by done. bstep. by rewrite Hl.
Qed.

(** What each decoder returns on the octets behind the first. *)
Definition decodes_to (r : rd_t) (d : res (tpdu_u * rd_t)) (u : tpdu_u) : Prop :=
  ∃ u' r', d = Ok (u', r') ∧ cut_u u' = u ∧ ahead r' [] ∧ r_n r' = r_n r.

Lemma need_two r x y bs : ahead r ([x; y] ++ bs) → need r 2 = true.
Proof.
  intros H. rewrite (need_ahead _ _ _ H). cbn [app]. rewrite !mlen_cons. pose proof (mlen_nonneg bs). lia.
Qed.

Lemma decode_deliver_ahead mms lp sri udhi rp oa pid dcs scts ud r :
  let p := Deliver mms lp sri udhi rp oa pid dcs scts ud in
  pdu_ok p → ahead r (drop 1 (pdu_bytes p)) →
  decodes_to r (decode_deliver (get (pdu_bytes p) 0) r) (t_u (struct_of (seen_pdu p))).
Proof.
  intros p (Ha & _ & _ & Ht & Hu) H. unfold p in *. cbn [pdu_bytes app drop] in H. unfold decode_deliver.
  destruct (read_addr_ahead _ _ _ H Ha) as [-> H1]. bstep. rewrite (need_two _ _ _ _ H1). cbn [negb].
  destruct (cu8_ahead _ _ _ H1) as [-> H2]. bstep. destruct (cu8_ahead _ _ _ H2) as [-> H3]. bstep.
  destruct (read_ts_ahead _ _ _ H3 Ht) as [-> H4]. bstep. rewrite <-(app_nil_r (ud_bytes ud)) in H4.
  destruct (read_ud_ahead _ _ _ _ H4 Hu) as (u & r' & -> & Hc & H5 & Hn). bstep.
  do 2 eexists. split; [done|]. split; [|done]. cbn [cut_u seen_pdu struct_of t_u].
  cbn [dl_mms dl_lp dl_rp dl_udhi dl_sri dl_oa dl_pid dl_dcs dl_scts dl_ud]. rewrite Hc.
  by destruct mms, lp, sri, udhi, rp.
Qed.

Lemma decode_submit_ahead rd srr udhi rp mr da pid dcs vp ud r :
  let p := Submit rd srr udhi rp mr da pid dcs vp ud in
  pdu_ok p → ahead r (drop 1 (pdu_bytes p)) →
  decodes_to r (decode_submit (get (pdu_bytes p) 0) r) (t_u (struct_of (seen_pdu p))).
Proof.
  intros p (_ & Ha & _ & _ & Hv & Hu) H. unfold p in *. cbn [pdu_bytes app drop] in H. unfold decode_submit.
  replace (u8 (Z.land (Z.shiftr (get (pdu_bytes (Submit rd srr udhi rp mr da pid dcs vp ud)) 0) 3) 3))
    with (vp_code vp) by (by destruct rd, srr, udhi, rp, vp).
  destruct (read8_ahead _ _ _ H) as [-> H0]. bstep.
  destruct (read_addr_ahead _ _ _ H0 Ha) as [-> H1]. bstep. rewrite (need_two _ _ _ _ H1). cbn [negb].
  destruct (cu8_ahead _ _ _ H1) as [-> H2]. bstep. destruct (cu8_ahead _ _ _ H2) as [-> H3]. bstep.
  destruct (read_vp_ahead _ _ _ H3 Hv) as [-> H4]. bstep. rewrite <-(app_nil_r (ud_bytes ud)) in H4.
  destruct (read_ud_ahead _ _ _ _ H4 Hu) as (u & r' & -> & Hc & H5 & Hn). bstep.
  do 2 eexists. split; [done|]. split; [|done]. cbn [cut_u seen_pdu struct_of t_u].
  cbn [sb_rd sb_rp sb_udhi sb_srr sb_mr sb_da sb_pid sb_dcs sb_vp sb_ud]. rewrite Hc.
  by destruct rd, srr, udhi, rp, vp.
Qed.

Lemma decode_status_ahead mms lp srq udhi mr ra scts dt st x r :
  let p := StatusReport mms lp srq udhi mr ra scts dt st x in
  pdu_ok p → ahead r (drop 1 (pdu_bytes p)) →
  decodes_to r (decode_status_report (get (pdu_bytes p) 0) r) (t_u (struct_of (seen_pdu p))).
Proof.
  intros p (_ & Ha & Ht & Hd & _ & Hx) H. unfold p in *. cbn [pdu_bytes app drop] in H.
  unfold decode_status_report. destruct (read8_ahead _ _ _ H) as [-> H0]. bstep.
  destruct (read_addr_ahead _ _ _ H0 Ha) as [-> H1]. bstep.
  destruct (read_ts_ahead _ _ _ H1 Ht) as [-> H2]. bstep. destruct (read_ts_ahead _ _ _ H2 Hd) as [-> H3]. bstep.
  destruct (read8_ahead _ _ _ H3) as [-> H4]. bstep. rewrite (need_ahead _ _ _ H4).
  destruct x as [x|].
  - rewrite mlen_cons, (proj2 (Z.leb_le _ _)) by (pose proof (mlen_nonneg (tail_bytes x)); lia).
    destruct (cu8_ahead _ _ _ H4) as [-> H5]. bstep.
    destruct (read_pi_tail_ahead _ _ H5 Hx) as (t & r' & -> & Hc & H6 & Hn). bstep.
    do 2 eexists. split; [done|]. split; [|done]. cbn [cut_u seen_pdu struct_of t_u is_some].
    cbn [st_mms st_lp st_srq st_udhi st_mr st_ra st_scts st_dt st_st st_has_pi st_pi st_tail]. rewrite Hc.
    by destruct mms, lp, srq, udhi.
  - change (1 <=? mlen []) with false. bstep. do 2 eexists. split; [done|]. split; [|done].
    by destruct mms, lp, srq, udhi.
Qed.

Lemma decode_command_ahead srr udhi mr pid ct mn da cd r :
  let p := Command srr udhi mr pid ct mn da cd in
  pdu_ok p → ahead r (drop 1 (pdu_bytes p)) →
  decodes_to r (decode_command (get (pdu_bytes p) 0) r) (t_u (struct_of (seen_pdu p))).
Proof.
  intros p (_ & _ & _ & _ & Ha & Hcd & Hl) H. unfold p in *. cbn [pdu_bytes app drop] in H.
  unfold decode_command. pose proof (mlen_nonneg cd) as L1. pose proof (mlen_nonneg (addr_bytes da)) as L2.
  rewrite (need_ahead _ _ _ H), (proj2 (Z.leb_le _ _)) by (rewrite !mlen_cons, mlen_app, mlen_cons; lia).
  cbn [negb]. destruct (cu8_ahead _ _ _ H) as [-> H0]. bstep. destruct (cu8_ahead _ _ _ H0) as [-> H1]. bstep.
  destruct (cu8_ahead _ _ _ H1) as [-> H2]. bstep. destruct (read8_ahead _ _ _ H2) as [-> H3]. bstep.
  destruct (read_addr_ahead _ _ _ H3 Ha) as [-> H4]. bstep. destruct (read8_ahead _ _ _ H4) as [-> H5]. bstep.
  destruct (Z.ltb_spec SMS_CD_MAX (mlen cd)); [lia|].
  rewrite (need_ahead _ _ _ H5), Z.leb_refl. cbn [negb]. rewrite <-(app_nil_r cd) in H5 at 1.
  do 2 eexists. split; [done|]. split; [|split; [by apply ahead_app|done]]. cbn [cut_u seen_pdu struct_of t_u].
  cbn [cm_udhi cm_srr cm_mr cm_pid cm_ct cm_mn cm_da cm_cdl cm_cd]. rewrite (cut_here _ _ _ H5).
  by destruct srr, udhi.
Qed.

Lemma decode_report_ahead (submit : bool) udhi fcs scts x r o0 : tail_ok x → (submit = true → ts_fits scts) →
  (submit = false → scts = zero_ts) → bit o0 64 = udhi →
  ahead r (opt_bytes fcs ++ [pi_value x] ++ (if submit then ts_bytes scts else []) ++ tail_bytes x) →
  decodes_to r (decode_report (if submit then SMS_T_SUBMIT_REPORT else SMS_T_DELIVER_REPORT) o0 (is_some fcs) r)
    (UReport (SmsReport udhi (is_some fcs) (default 0 fcs) (pi_value x) submit scts (tail_of x))).
Proof.
  intros Hx Ht Hz Hu H. unfold decode_report.
  replace ((if submit then SMS_T_SUBMIT_REPORT else SMS_T_DELIVER_REPORT) =? SMS_T_SUBMIT_REPORT) with submit
    by (by destruct submit).
  destruct (read_opt_ahead _ _ _ _ H eq_refl) as [E H1]. fold (read8 r) in E. rewrite E. bstep. clear E.
  destruct (read8_ahead _ _ _ H1) as [-> H2]. bstep. set (r2 := skip _ 1) in *.
  assert (∃ r3, (if submit then read_ts r2 else Ok (zero_ts, r2)) = Ok (scts, r3) ∧ ahead r3 (tail_bytes x) ∧
    r_n r3 = r_n r) as (r3 & -> & H3 & Hn3).
  { destruct submit; [|exists r2; by rewrite Hz]. destruct (read_ts_ahead _ _ _ H2 (Ht eq_refl)) as [E ?]. by exists (skip r2 7). }
  bstep. destruct (read_pi_tail_ahead _ _ H3 Hx) as (t & r' & -> & Hc & H6 & Hn). bstep.
  do 2 eexists. split; [done|]. split; [|split; [done|congruence]]. cbn [cut_u].
  cbn [rp_udhi rp_has_fcs rp_fcs rp_pi rp_has_scts rp_scts rp_tail]. by rewrite Hc, Hu.
Qed.

Definition negative (p : pdu) : bool :=
  match p with DeliverReport _ fcs _ | SubmitReport _ fcs _ _ => is_some fcs | _ => false end.

Lemma octet0_facts p :
  pdu_bytes p = get (pdu_bytes p) 0 :: drop 1 (pdu_bytes p) ∧
  Z.land (get (pdu_bytes p) 0) 3 = t_mti (struct_of p) ∧
  mti_type (t_mti (struct_of p)) (t_dir (struct_of p)) = t_type (struct_of p) ∧
  Z.land (dir_of p) 1 = t_dir (struct_of p) ∧ bit (dir_of p) SMS_DIR_NEGATIVE = negative p ∧
  (SMS_DIR_SC_TO_MS <? Z.land (dir_of p) (Z.lnot SMS_DIR_NEGATIVE)) || (dir_of p <? 0) = false.
Proof.
  destruct p as [[] [] [] [] []|[] [] [] [] ? ? ? ? [] ?|[] [] [] [] ? ? ? ? ? ?|[] [] ? ? ? ? ? ?|[] [] ?|[] [] ? ?];
    done.
Qed.

Lemma sms_tpdu_decode_reads p b : pdu_ok p → bytes_ok b → holds b 0 (pdu_bytes p) →
  mlen (pdu_bytes p) < 268435456 →
  ∃ t, sms_tpdu_decode (Some b) (mlen (pdu_bytes p)) (dir_of p) = Ok (t, mlen (pdu_bytes p)) ∧
    cut_tpdu t = struct_of (seen_pdu p).
Proof.
  intros Hp Hb Hh Hs. destruct (octet0_facts p) as (Ep & Em & Et & Ed & En & Eg). set (n := mlen (pdu_bytes p)) in *.
  assert (ahead (RdT b n 0) (pdu_bytes p)) as H0 by (unfold ahead; cbn [r_b r_n r_off]; split_and!; done || lia).
  assert (1 <= n) as Hn1.
  { unfold n. rewrite Ep, mlen_cons. pose proof (mlen_nonneg (drop 1 (pdu_bytes p))). lia. }
  unfold sms_tpdu_decode. rewrite Eg, (proj2 (Z.ltb_ge n 1)) by lia. cbv zeta. rewrite En, Ed.
  rewrite Ep in H0. destruct (cu8_ahead _ _ _ H0) as [-> H1]. bstep. rewrite Em, Et.
  set (r1 := skip _ 1) in *. set (d := if t_type (struct_of p) =? SMS_T_DELIVER then _ else _).
  assert (decodes_to r1 d (t_u (struct_of (seen_pdu p)))) as (u & r' & Ed' & Hc & H2 & Hn).
  { unfold d. clear d. destruct p; cbn [struct_of seen_pdu t_type negative].
    - by apply decode_deliver_ahead.
    - by apply decode_submit_ahead.
    - by apply decode_status_ahead.
    - by apply decode_command_ahead.
    - destruct Hp as [_ Hx]. apply (decode_report_ahead false); try done. by destruct udhi.
    - destruct Hp as (_ & Ht & Hx). apply (decode_report_ahead true); try done. by destruct udhi. }
  assert ((t_type (struct_of p) <? 0) = false) as -> by (by destruct p). rewrite Ed'. bstep.
  exists (SmsTpdu (u8 (t_type (struct_of p))) (t_mti (struct_of p)) (u8 (t_dir (struct_of p))) u).
  split; [|unfold cut_tpdu; cbn [t_type t_mti t_dir t_u]; rewrite Hc; by destruct p].
  do 2 f_equal. apply cut_nil_ahead in H2. rewrite H2, Hn. apply i32_small. unfold r1, skip. cbn [r_n]. lia.
Qed.

(** ** The length of a PDU *)

Lemma fl_range c v : 0 <= v → 0 <= fl c v <= v.
Proof. destruct c; cbn; lia. Qed.

Lemma ud_bytes_spec dcs u : ud_ok dcs u → bytes_ok (ud_bytes u) ∧ mlen (ud_bytes u) <= 141.
Proof.
  intros (Hu & Hb & _ & Hl). unfold ud_bytes, SMS_UD_MAX in *. rewrite mlen_cons. split; [|lia].
  by apply bytes_ok_cons.
Qed.
Lemma opt_bytes_spec x : octet_opt x → bytes_ok (opt_bytes x) ∧ mlen (opt_bytes x) <= 1.
Proof.
  destruct x as [x|]; cbn [opt_bytes octet_opt]; intros H; (split; [|done]); [|apply bytes_ok_nil].
  apply bytes_ok_cons. split; [exact H|apply bytes_ok_nil].
Qed.
Lemma tail_bytes_spec x : tail_ok x → bytes_ok (pi_value x :: tail_bytes x) ∧ mlen (tail_bytes x) <= 143.
Proof.
  intros (Hp & Hd & Hu). destruct (opt_bytes_spec _ Hp), (opt_bytes_spec _ Hd). unfold tail_bytes.
  rewrite bytes_ok_cons, !bytes_ok_app, !mlen_app.
  assert (octet (pi_value x)) by (unfold pi_value, octet;
    destruct (x_ext x), (is_some (x_ud x)), (is_some (x_dcs x)), (is_some (x_pid x)); cbn; lia).
  destruct (x_ud x) as [u|]; [destruct (ud_bytes_spec _ _ Hu)|]; rewrite ?mlen_nil; unfold octet in *;
    split_and!; try done; try lia.
  constructor.
Qed.
Lemma vp_bytes_spec v : vp_ok v → bytes_ok (vp_bytes v) ∧ mlen (vp_bytes v) <= 7.
Proof.
  destruct v as [|r|t|bs]; cbn [vp_ok vp_bytes]; intros H.
  - split; [apply bytes_ok_nil|done].
  - split; [apply bytes_ok_cons; split; [exact H|apply bytes_ok_nil]|done].
  - by split; [apply ts_bytes_ok|].
  - destruct H as [H1 H2]. split; [done|lia].
Qed.

Lemma address_spec a : address_ok a → bytes_ok (addr_bytes a) ∧ 0 <= mlen (addr_bytes a) <= 12.
Proof. intros Ha. pose proof (mlen_addr_bytes a Ha) as [_ ?]. split; [by apply addr_bytes_ok|lia]. Qed.
Lemma ts_spec t : ts_fits t → bytes_ok (ts_bytes t) ∧ mlen (ts_bytes t) = 7.
Proof. intros H. split; [by apply ts_bytes_ok|done]. Qed.

Ltac octets_tac :=
  repeat first [assumption | apply bytes_ok_app; split | apply bytes_ok_cons; split | apply bytes_ok_nil];
  repeat match goal with |- context [fl ?c ?v] =>
    lazymatch goal with H : 0 <= fl c v <= v |- _ => fail | _ => pose proof (fl_range c v ltac:(lia)) end end;
  unfold octet in *; lia.

(** No PDU is longer than [SMS_TPDU_MAX]. *)
Lemma pdu_bytes_spec p : pdu_ok p → bytes_ok (pdu_bytes p) ∧ 1 <= mlen (pdu_bytes p) <= SMS_TPDU_MAX.
Proof.
  unfold SMS_TPDU_MAX. destruct p as [? ? ? ? ? oa ? ? scts ud|? ? ? ? ? da ? ? vp ud|? ? ? ? ? ra scts dt ? x|
    ? ? ? ? ? ? da cd|? fcs x|? fcs scts x]; cbn [pdu_ok pdu_bytes]; rewrite ?mlen_app, ?mlen_cons, ?mlen_nil.
  - intros ([? ?]%address_spec & ? & ? & [? ?]%ts_spec & [? ?]%ud_bytes_spec).
    pose proof (mlen_nonneg (ud_bytes ud)). split; [octets_tac|lia].
  - intros (? & [? ?]%address_spec & ? & ? & Hv & [? ?]%ud_bytes_spec).
    assert (0 <= vp_code vp <= 3) by (destruct vp; cbn; lia). destruct (vp_bytes_spec _ Hv).
    pose proof (mlen_nonneg (ud_bytes ud)). pose proof (mlen_nonneg (vp_bytes vp)). split; [octets_tac|lia].
  - intros (? & [? ?]%address_spec & [? ?]%ts_spec & [? ?]%ts_spec & ? & Hx). destruct x as [x|].
    + destruct (tail_bytes_spec _ Hx) as [[? ?]%bytes_ok_cons ?]. rewrite mlen_app. change (mlen [_]) with 1.
      pose proof (mlen_nonneg (tail_bytes x)). split; [octets_tac|lia].
    + rewrite mlen_nil. split; [octets_tac|lia].
  - intros (? & ? & ? & ? & [? ?]%address_spec & ? & ?). pose proof (mlen_nonneg cd). unfold SMS_CD_MAX in *.
    split; [octets_tac|lia].
  - intros ([? ?]%opt_bytes_spec & [[? ?]%bytes_ok_cons ?]%tail_bytes_spec).
    pose proof (mlen_nonneg (opt_bytes fcs)). pose proof (mlen_nonneg (tail_bytes x)). split; [octets_tac|lia].
  - intros ([? ?]%opt_bytes_spec & [? ?]%ts_spec & [[? ?]%bytes_ok_cons ?]%tail_bytes_spec).
    pose proof (mlen_nonneg (opt_bytes fcs)). pose proof (mlen_nonneg (tail_bytes x)). split; [octets_tac|lia].
Qed.

(** C36: transport PDUs survive the wire.  Every well-formed PDU of the six types has
    at most [SMS_TPDU_MAX] octets; the encoder writes them into a buffer that holds
    them, leaving the rest alone, and otherwise reports [SMS_E_OVERFLOW]; and
    decoding them, told the direction and whether the PDU rides an error, consumes
    them all and yields the PDU, its user data and command data views on the
    octets that were written.  One kind of address does not come back as it was: a
    name of exactly seven septets is read with a commercial at behind it.  A PDU without
    one comes back whole. *)
Theorem sms_tpdu_roundtrip p b cap :
  pdu_ok p → bytes_ok b → 0 <= cap <= mlen b → cap < 268435456 →
  let n := mlen (pdu_bytes p) in
  n <= SMS_TPDU_MAX ∧
  (cap < n → sms_tpdu_encode (Some b) cap (Some (struct_of p)) = Err SMS_E_OVERFLOW) ∧
  (n <= cap → ∃ b' t, sms_tpdu_encode (Some b) cap (Some (struct_of p)) = Ok (b', n) ∧
    mlen b' = mlen b ∧ (∀ j, n <= j < mlen b → get b' j = get b j) ∧
    sms_tpdu_decode (Some b') n (dir_of p) = Ok (t, n) ∧ cut_tpdu t = struct_of (seen_pdu p)) ∧
  (no_seven p → seen_pdu p = p).
Proof.
  intros Hp Hb Hc Hs n. destruct (pdu_bytes_spec p Hp) as [Hpb Hn]. fold n in Hn.
  assert (n < 268435456) by (unfold SMS_TPDU_MAX in *; lia). split_and!; [lia| | |apply seen_exact].
  - intros Hlt. destruct (Z.lt_ge_cases cap 1).
    + unfold sms_tpdu_encode. replace (SMS_T_MAX <=? t_type (struct_of p)) with false by (by destruct p).
      by rewrite (proj2 (Z.ltb_lt cap 1)) by lia.
    + rewrite sms_tpdu_encode_emits by done. unfold emit. rewrite mlen_nil, Z.add_0_l. fold n.
      by rewrite (proj2 (Z.leb_gt _ _)) by lia.
  - intros Hle. rewrite sms_tpdu_encode_emits by (done || lia). unfold emit. rewrite mlen_nil, Z.add_0_l. fold n.
    rewrite (proj2 (Z.leb_le _ _)) by lia. bstep. unfold w_at. cbn [w_b w_off app]. fold n.
    rewrite i32_small by lia. exists (splice b 0 (pdu_bytes p)).
    destruct (sms_tpdu_decode_reads p (splice b 0 (pdu_bytes p)) Hp) as (t & E & Et); try done.
    + by apply bytes_ok_splice.
    + apply holds_splice; fold n; lia.
    + exists t. split_and!; try done; [rewrite mlen_splice; fold n; lia|].
      intros j Hj. rewrite splice_0, get_app_ge by (fold n; lia). fold n.
      replace (length (pdu_bytes p)) with (Z.to_nat n) by (unfold n, mlen; lia).
      rewrite get_drop by lia. f_equal. lia.
Qed.

Definition sample : pdu :=
  Submit false true false true 7 (Number 1 1 [52; 57; 49; 55; 49]) 0 0 (RelVp 167) (5, [200; 50; 155; 253; 6]).

Lemma sample_ok : pdu_ok sample.
Proof.
  Transparent sms_dcs_alphabet. unfold sample, pdu_ok, ud_ok, octet, address_ok, digit, SMS_UD_MAX.
  split_and!; try done; try (cbn; lia); repeat constructor; (lia || set_solver).
Qed.
#[local] Opaque sms_dcs_alphabet.

Lemma sms_tpdu_roundtrip_witness :
  ∃ b' t, sms_tpdu_encode (Some (zeros 30)) 25 (Some (struct_of sample)) = Ok (b', 16) ∧
    sms_tpdu_decode (Some b') 16 0 = Ok (t, 16) ∧ cut_tpdu t = struct_of sample.
Proof.
  destruct (sms_tpdu_roundtrip sample (zeros 30) 25 sample_ok (bytes_ok_zeros 30) ltac:(by vm_compute) ltac:(lia))
    as (_ & _ & H & _).
  destruct (H ltac:(by vm_compute)) as (b' & t & H1 & _ & _ & H2 & H3).
  exists b', t. split; [exact H1|]. split; [exact H2|exact H3].
Defined.

(** ** Decoding arbitrary octets *)

Definition codes : list Z := [SMS_E_SHORT; SMS_E_LENGTH; SMS_E_INVAL; SMS_E_MTI].

Definition cur_ok (r : rd_t) : Prop :=
  bytes_ok (r_b r) ∧ 0 <= r_off r <= r_n r ∧ r_n r <= mlen (r_b r) ∧ r_n r < 2147483648.

(** A reader fails with a documented code, or moves the cursor within the buffer
    and returns something that satisfies [P]. *)
Definition reads {A} (r : rd_t) (P : A → Prop) (d : res (A * rd_t)) : Prop :=
  (∃ e, d = Err e ∧ e ∈ codes) ∨
  ∃ a r', d = Ok (a, r') ∧ cur_ok r' ∧ r_b r' = r_b r ∧ r_n r' = r_n r ∧ r_off r <= r_off r' ∧ P a.

Lemma reads_err {A} r (P : A → Prop) e : e ∈ codes → reads r P (Err e).
Proof. left. by exists e. Qed.
Lemma reads_ret {A} r (P : A → Prop) a : cur_ok r → P a → reads r P (Ok (a, r)).
Proof. right. by exists a, r. Qed.
Lemma reads_bind {A B} r (P : A → Prop) (Q : B → Prop) d (f : A → rd_t → res (B * rd_t)) :
  reads r P d →
  (∀ a r', cur_ok r' → r_b r' = r_b r → r_n r' = r_n r → r_off r <= r_off r' → P a → reads r' Q (f a r')) →
  reads r Q (d ≫= λ '(a, r'), f a r').
Proof.
  intros [(e & -> & He)|(a & r' & -> & Hc & Eb & En & Ho & HP)] Hf; [by left; exists e|]. bstep.
  destruct (Hf a r' Hc Eb En Ho HP) as [(e & -> & He)|(b & r2 & -> & Hc2 & Eb2 & En2 & Ho2 & HQ)].
  - left. by exists e.
  - right. exists b, r2. split_and!; try done; try congruence. lia.
Qed.

Lemma cur_skip r k : cur_ok r → 0 <= k → need r k = true → cur_ok (skip r k).
Proof.
  intros (Hb & Ho & Hn & Hs) Hk Hne. unfold need in Hne. rewrite u64_small in Hne by lia.
  unfold cur_ok, skip. cbn [r_b r_n r_off]. split_and!; try done; lia.
Qed.

Lemma cu8_reads r : cur_ok r → need r 1 = true → reads r octet (cu8 r).
Proof.
  intros Hc Hne. pose proof (cur_skip r 1 Hc ltac:(lia) Hne) as Hc1. right. unfold cu8.
  destruct Hc as (Hb & Ho & Hn & Hs). destruct Hc1 as (_ & Ho1 & _). cbn [skip r_off r_n] in Ho1.
  rewrite rd_Ok by lia. bstep. do 2 eexists. split; [done|]. cbn [r_b r_n r_off].
  split_and!; try done; try lia; by apply get_range.
Qed.
Lemma read8_reads r : cur_ok r → reads r octet (read8 r).
Proof.
  intros Hc. unfold read8. destruct (need r 1) eqn:E; cbn [negb]; [by apply cu8_reads|].
  apply reads_err. unfold codes. set_solver.
Qed.

Lemma here_ok r : cur_ok r → bytes_ok (here r) ∧ mlen (here r) = mlen (r_b r) - r_off r ∧
  u64 (r_n r - r_off r) = r_n r - r_off r.
Proof.
  intros (Hb & Ho & Hn & Hs). unfold here, from. split_and!; [by apply Forall_drop|apply mlen_drop; lia|].
  apply u64_small. lia.
Qed.

Lemma read_addr_reads r : cur_ok r → reads r addr_sane (read_addr r).
Proof.
  intros Hc. destruct (here_ok r Hc) as (Hb & Hl & Hu). pose proof Hc as (Hb' & Ho & Hn & Hs).
  unfold read_addr. rewrite Hu.
  destruct (sms_addr_decode_safe (here r) (r_n r - r_off r) Hb ltac:(lia)) as [->|[->|(a & k & -> & Hk & _ & Ha)]].
  - apply reads_err. unfold codes. set_solver.
  - apply reads_err. unfold codes. set_solver.
  - bstep. right. do 2 eexists. split; [done|]. unfold skip, cur_ok. cbn [r_b r_n r_off].
    split_and!; try done; try lia; apply Ha.
Qed.
Lemma read_ts_reads r : cur_ok r → reads r (λ t, 1970 <= ts_year t <= 2069 ∧ -48 <= ts_tz_qh t <= 48) (read_ts r).
Proof.
  intros Hc. destruct (here_ok r Hc) as (Hb & Hl & Hu). pose proof Hc as (Hb' & Ho & Hn & Hs).
  unfold read_ts. rewrite Hu.
  destruct (sms_ts_decode_safe (here r) (r_n r - r_off r) Hb ltac:(lia)) as [(t & -> & Hk & Hy & Hz)|[[-> _]|[-> _]]].
  - bstep. right. do 2 eexists. split; [done|]. unfold skip, cur_ok. cbn [r_b r_n r_off].
    split_and!; try done; lia.
  - apply reads_err. unfold codes. set_solver.
  - apply reads_err. unfold codes. set_solver.
Qed.

(** A view of [len] octets within the first [n] of [b]; NULL when empty. *)
Definition view_in (b : mem) (n len : Z) (p : option mem) : Prop :=
  match p with
  | None => len = 0
  | Some p => 0 < len ∧ ∃ off, 0 <= off ∧ off + len <= n ∧ p = from b off
  end.
Definition ud_sane (b : mem) (n : Z) (u : sms_udata) : Prop :=
  octet (ud_udl u) ∧ ud_len u <= SMS_UD_MAX ∧ view_in b n (ud_len u) (ud_p u).

Lemma read_ud_reads r dcs : cur_ok r → reads r (ud_sane (r_b r) (r_n r)) (read_ud r dcs).
Proof.
  intros Hc. unfold read_ud. destruct (need r 1) eqn:E1; cbn [negb]; [|apply reads_err; unfold codes; set_solver].
  eapply reads_bind; [by apply cu8_reads|]. intros udl r1 Hc1 Eb En _ Hu. cbv zeta. fold (ud_size dcs udl).
  assert (0 <= ud_size dcs udl) as Hz.
  { unfold ud_size, octet in *. destruct (_ =? _); [|lia]. Z.to_euclidean_division_equations; lia. }
  destruct (Z.ltb_spec SMS_UD_MAX (ud_size dcs udl)); [apply reads_err; unfold codes; set_solver|].
  destruct (need r1 (ud_size dcs udl)) eqn:E2; cbn [negb]; [|apply reads_err; unfold codes; set_solver].
  pose proof (cur_skip _ _ Hc1 Hz E2) as Hc2. right. do 2 eexists. split; [done|]. split; [done|].
  split; [done|]. split; [done|]. split; [cbn; lia|]. unfold SMS_UD_MAX in *. rewrite u8_small by lia.
  unfold ud_sane, view_in. cbn [ud_udl ud_len ud_p]. split; [done|]. split; [done|].
  destruct (Z.eqb_spec (ud_size dcs udl) 0); cbn [negb]; [done|]. split; [lia|]. exists (r_off r1).
  destruct Hc1 as (_ & ? & _). destruct Hc2 as (_ & Ho2 & _). cbn [skip r_off r_n] in Ho2. unfold here.
  rewrite <-Eb, <-En. split; [lia|]. split; [lia|done].
Qed.

Definition tail_sane (b : mem) (n : Z) (t : pi_tail) : Prop :=
  octet (pt_pid t) ∧ octet (pt_dcs t) ∧ ud_sane b n (pt_ud t).

Lemma octet_0 : octet 0.
Proof. unfold octet. lia. Qed.
Lemma zero_ud_sane b n : ud_sane b n zero_ud.
Proof. unfold ud_sane. cbn. split; [apply octet_0|]. by split. Qed.

Lemma opt_reads r (c : bool) : cur_ok r →
  reads r octet (if c then if negb (need r 1) then Err SMS_E_SHORT else cu8 r else Ok (0, r)).
Proof.
  intros Hc. destruct c; [by apply read8_reads|]. apply reads_ret; [done|apply octet_0].
Qed.

Lemma read_pi_tail_reads r pi : cur_ok r → reads r (tail_sane (r_b r) (r_n r)) (read_pi_tail r pi).
Proof.
  intros Hc. unfold read_pi_tail. cbv zeta.
  eapply reads_bind; [by apply opt_reads|]. intros pid r1 Hc1 Eb1 En1 _ Hp.
  eapply reads_bind; [by apply opt_reads|]. intros dcs r2 Hc2 Eb2 En2 _ Hd.
  eapply (reads_bind _ (ud_sane (r_b r) (r_n r))).
  - destruct (bit pi 4); [|apply reads_ret; [done|apply zero_ud_sane]].
    rewrite <-Eb1, <-Eb2, <-En1, <-En2. by apply read_ud_reads.
  - intros ud r3 Hc3 _ _ _ Hu. apply reads_ret; [done|]. by split_and!; cbn.
Qed.

Lemma read_vp_reads r vpf : cur_ok r → reads r (λ v, vp_fmt v = vpf) (read_vp r vpf).
Proof.
  intros Hc. unfold read_vp. destruct (vpf =? SMS_VPF_NONE); [by apply reads_ret|].
  destruct (vpf =? SMS_VPF_RELATIVE).
  { eapply reads_bind; [by apply read8_reads|]. intros. by apply reads_ret. }
  destruct (vpf =? SMS_VPF_ABSOLUTE).
  { eapply reads_bind; [by apply read_ts_reads|]. intros. by apply reads_ret. }
  destruct (vpf =? SMS_VPF_ENHANCED); [|apply reads_err; unfold codes; set_solver].
  destruct (need r 7) eqn:E; cbn [negb]; [|apply reads_err; unfold codes; set_solver].
  pose proof (cur_skip r 7 Hc ltac:(lia) E) as Hc7. pose proof Hc7 as (_ & Ho & Hn & _).
  destruct Hc as (_ & Ho' & _). cbn [skip r_off r_n r_b] in *. rewrite rdn_Ok by lia. bstep.
  right. do 2 eexists. split; [done|]. split_and!; try done. cbn. lia.
Qed.

(** What a decoded PDU guarantees: sane addresses, views within the buffer. *)
Definition u_sane (b : mem) (n : Z) (u : tpdu_u) : Prop :=
  match u with
  | UDeliver m => addr_sane (dl_oa m) ∧ ud_sane b n (dl_ud m)
  | USubmit m => addr_sane (sb_da m) ∧ ud_sane b n (sb_ud m) ∧ 0 <= vp_fmt (sb_vp m) <= 3
  | UStatusReport m => addr_sane (st_ra m) ∧ tail_sane b n (st_tail m)
  | UCommand m => addr_sane (cm_da m) ∧ cm_cdl m <= SMS_CD_MAX ∧ view_in b n (cm_cdl m) (cm_cd m)
  | UReport m => tail_sane b n (rp_tail m)
  end.

Ltac two :=
  match goal with |- reads ?r _ (if negb (need ?r ?k) then _ else _) =>
    destruct (need r k) eqn:?; cbn [negb]; [|apply reads_err; unfold codes; set_solver] end.

(** After a check for [k] octets, [k] of them can be read. *)
Lemma need_next r r' k : cur_ok r → need r k = true → 1 < k → r_n r' = r_n r → r_off r' = r_off r + 1 →
  need r' (k - 1) = true.
Proof.
  intros (_ & Ho & _ & Hs) H Hk En Eo. unfold need in *. rewrite En, Eo.
  rewrite u64_small in H by lia. rewrite u64_small by lia. lia.
Qed.

Lemma cu8_step {B} r k (Q : B → Prop) (f : Z → rd_t → res (B * rd_t)) : cur_ok r → need r k = true → 1 <= k →
  (∀ x r', cur_ok r' → r_b r' = r_b r → r_n r' = r_n r → octet x → (1 < k → need r' (k - 1) = true) →
    r_off r <= r_off r' → reads r' Q (f x r')) →
  reads r Q (cu8 r ≫= λ '(x, r'), f x r').
Proof.
  intros Hc Hk H1 Hf. assert (need r 1 = true) as Hn1 by (unfold need in *; lia).
  pose proof (cu8_reads r Hc Hn1) as Hr. unfold cu8 in *. destruct (rd (r_b r) (r_off r)) as [x|e|] eqn:E.
  - bstep. destruct Hr as [(? & ? & _)|(x' & r' & [= <- <-] & Hc' & _ & _ & _ & Hx)]; [done|].
    destruct (Hf x _ Hc' eq_refl eq_refl Hx) as [?|(a & r2 & E2 & ? & Eb & En & Ho & ?)].
    + intros. by apply (need_next r).
    + cbn. lia.
    + by left.
    + right. exists a, r2. split_and!; try done. cbn in Ho. lia.
  - bstep. destruct Hr as [(e' & E' & He)|(? & ? & ? & _)]; [|done]. left. exists e. split; [done|].
    cbn in E'. congruence.
  - destruct Hr as [(? & ? & _)|(? & ? & ? & _)]; done.
Qed.

Lemma decode_deliver_reads r o0 : cur_ok r → reads r (u_sane (r_b r) (r_n r)) (decode_deliver o0 r).
Proof.
  intros Hc. unfold decode_deliver. eapply reads_bind; [by apply read_addr_reads|].
  intros oa r1 Hc1 Eb1 En1 _ Ha. two.
  apply (cu8_step _ 2); [done|done|lia|]. intros pid r2 Hc2 Eb2 En2 Hp Hn2 _.
  apply (cu8_step _ 1); [done|by apply Hn2|lia|]. intros dcs r3 Hc3 Eb3 En3 Hd _ _.
  eapply reads_bind; [by apply read_ts_reads|]. intros ts r4 Hc4 Eb4 En4 _ Ht.
  eapply reads_bind; [by apply read_ud_reads|]. intros ud r5 Hc5 Eb5 En5 _ Hu.
  apply reads_ret; [done|]. split; [done|]. cbn. congruence.
Qed.

Lemma decode_submit_reads r o0 : cur_ok r → reads r (u_sane (r_b r) (r_n r)) (decode_submit o0 r).
Proof.
  intros Hc. unfold decode_submit. cbv zeta. set (vpf := u8 _).
  assert (0 <= vpf <= 3) as Hv.
  { unfold vpf. rewrite (land_low _ 2) by done. pose proof (Z.mod_pos_bound (Z.shiftr o0 3) (2 ^ 2) ltac:(lia)).
    rewrite u8_small; lia. }
  eapply reads_bind; [by apply read8_reads|]. intros mr r0 Hc0 Eb0 En0 _ Hmr.
  eapply reads_bind; [by apply read_addr_reads|]. intros da r1 Hc1 Eb1 En1 _ Ha. two.
  apply (cu8_step _ 2); [done|done|lia|]. intros pid r2 Hc2 Eb2 En2 Hp Hn2 _.
  apply (cu8_step _ 1); [done|by apply Hn2|lia|]. intros dcs r3 Hc3 Eb3 En3 Hd _ _.
  eapply reads_bind; [by apply read_vp_reads|]. intros vp r4 Hc4 Eb4 En4 _ Evp.
  eapply reads_bind; [by apply read_ud_reads|]. intros ud r5 Hc5 Eb5 En5 _ Hu.
  apply reads_ret; [done|]. split; [done|]. cbn [sb_ud sb_vp]. rewrite Evp. split; [congruence|done].
Qed.

Lemma decode_status_reads r o0 : cur_ok r → reads r (u_sane (r_b r) (r_n r)) (decode_status_report o0 r).
Proof.
  intros Hc. unfold decode_status_report.
  eapply reads_bind; [by apply read8_reads|]. intros mr r0 Hc0 Eb0 En0 _ Hmr.
  eapply reads_bind; [by apply read_addr_reads|]. intros ra r1 Hc1 Eb1 En1 _ Ha.
  eapply reads_bind; [by apply read_ts_reads|]. intros scts r2 Hc2 Eb2 En2 _ _.
  eapply reads_bind; [by apply read_ts_reads|]. intros dt r3 Hc3 Eb3 En3 _ _.
  eapply reads_bind; [by apply read8_reads|]. intros st r4 Hc4 Eb4 En4 _ Hst.
  set (d := if need r4 1 then _ else _).
  assert (reads r4 (λ x : bool * Z * pi_tail, tail_sane (r_b r) (r_n r) x.2) d) as
    [(e & -> & He)|([[has_pi pi] t] & r5 & -> & Hc5 & Eb5 & En5 & Ho5 & Ht)].
  - unfold d. clear d. destruct (need r4 1) eqn:E.
    + apply (cu8_step _ 1); [done|done|lia|]. intros pi r5 Hc5 Eb5 En5 _ _ _.
      eapply reads_bind; [by apply read_pi_tail_reads|]. intros t r6 Hc6 _ _ _ Ht.
      apply reads_ret; [done|]. cbn [snd]. congruence.
    + apply reads_ret; [done|]. split_and!; [apply octet_0|apply octet_0|apply zero_ud_sane].
  - bstep. by apply reads_err.
  - bstep. right. do 2 eexists. split; [done|]. by split_and!.
Qed.

Lemma decode_command_reads r o0 : cur_ok r → reads r (u_sane (r_b r) (r_n r)) (decode_command o0 r).
Proof.
  intros Hc. unfold decode_command. two.
  apply (cu8_step _ 3); [done|done|lia|]. intros mr r1 Hc1 Eb1 En1 _ Hn1 _.
  apply (cu8_step _ 2); [done|by apply Hn1|lia|]. intros pid r2 Hc2 Eb2 En2 _ Hn2 _.
  apply (cu8_step _ 1); [done|by apply Hn2|lia|]. intros ct r3 Hc3 Eb3 En3 _ _ _.
  eapply reads_bind; [by apply read8_reads|]. intros mn r4 Hc4 Eb4 En4 _ _.
  eapply reads_bind; [by apply read_addr_reads|]. intros da r5 Hc5 Eb5 En5 _ Ha.
  eapply reads_bind; [by apply read8_reads|]. intros cdl r6 Hc6 Eb6 En6 _ Hl.
  destruct (Z.ltb_spec SMS_CD_MAX cdl); [apply reads_err; unfold codes; set_solver|]. two.
  pose proof (cur_skip r6 cdl Hc6 ltac:(unfold octet in *; lia) Heqb0) as Hc7.
  unfold octet in *. right. do 2 eexists. split; [done|]. do 3 (split; [done|]). split; [cbn; lia|].
  unfold u_sane. cbn [cm_da cm_cdl cm_cd]. split; [done|]. split; [done|].
  unfold view_in. destruct (Z.eqb_spec cdl 0); cbn [negb]; [done|]. split; [lia|].
  exists (r_off r6). destruct Hc6 as (_ & ? & _). destruct Hc7 as (_ & Ho & _).
  cbn [skip r_off r_n] in Ho. unfold here. split; [lia|]. split; [lia|]. f_equal. congruence.
Qed.

Lemma decode_report_reads r ty o0 neg : cur_ok r → reads r (u_sane (r_b r) (r_n r)) (decode_report ty o0 neg r).
Proof.
  intros Hc. unfold decode_report.
  apply (reads_bind _ octet).
  { destruct neg; [by apply read8_reads|]. apply reads_ret; [done|apply octet_0]. }
  intros fcs r1 Hc1 Eb1 En1 _ _. eapply reads_bind; [by apply read8_reads|]. intros pi r2 Hc2 Eb2 En2 _ _.
  apply (reads_bind _ (λ _, True)).
  { destruct (ty =? SMS_T_SUBMIT_REPORT); [|by apply reads_ret].
    destruct (read_ts_reads r2 Hc2) as [?|(t & r3 & ? & ? & ? & ? & ? & _)]; [by left|]. right. by exists t, r3. }
  intros scts r3 Hc3 Eb3 En3 _ _. eapply reads_bind; [by apply read_pi_tail_reads|].
  intros t r4 Hc4 _ _ _ Ht. apply reads_ret; [done|]. cbn. congruence.
Qed.

Definition fine (b : mem) (n : Z) (d : res (sms_tpdu * Z)) : Prop :=
  (∃ e, d = Err e ∧ e ∈ codes) ∨
  ∃ t k, d = Ok (t, k) ∧ 1 <= k <= n ∧ u_sane b n (t_u t) ∧ t_type t = mti_type (t_mti t) (t_dir t).

(** Decoding is safe on every buffer.  Whatever the octets and the direction, the
    decoder ends without leaving the buffer, and either reports a documented error
    or returns a PDU after consuming at least one and at most all of the octets;
    its addresses are NUL-terminated, its user data and command data are views
    within the buffer of at most 140 and 156 octets. *)
Theorem sms_tpdu_decode_safe b n dir :
  bytes_ok b → 0 <= n <= mlen b → n < 2147483648 →
  fine b n (sms_tpdu_decode (Some b) n dir).
Proof.
  intros Hb Hn Hs. unfold sms_tpdu_decode.
  destruct ((SMS_DIR_SC_TO_MS <? _) || _); [left; eexists; split; [done|unfold codes; set_solver]|].
  destruct (Z.ltb_spec n 1); [left; eexists; split; [done|unfold codes; set_solver]|]. cbv zeta.
  assert (cur_ok (RdT b n 0)) as Hc by (unfold cur_ok; cbn; split_and!; done || lia).
  assert (need (RdT b n 0) 1 = true) as Hne by (unfold need; cbn [r_n r_off]; rewrite u64_small; lia).
  unfold cu8 at 1. cbn [r_b r_off r_n]. rewrite rd_Ok by lia. bstep. set (o0 := get b 0).
  set (mti := Z.land o0 3). set (d := Z.land dir 1).
  destruct (Z.ltb_spec (mti_type mti d) 0); [left; eexists; split; [done|unfold codes; set_solver]|].
  assert (cur_ok (RdT b n (0 + 1))) as Hc1 by (unfold cur_ok; cbn; split_and!; done || lia).
  set (dd := if mti_type mti d =? SMS_T_DELIVER then _ else _).
  assert (reads (RdT b n (0 + 1)) (u_sane b n) dd) as [(e & -> & He)|(u & r' & -> & Hc' & Eb & En & Ho & Hu)].
  { unfold dd. destruct (_ =? SMS_T_DELIVER); [by apply decode_deliver_reads|].
    destruct (_ =? SMS_T_SUBMIT); [by apply decode_submit_reads|].
    destruct (_ =? SMS_T_STATUS_REPORT); [by apply decode_status_reads|].
    destruct (_ =? SMS_T_COMMAND); [by apply decode_command_reads|].
    destruct (_ || _); [by apply decode_report_reads|]. apply reads_err. unfold codes. set_solver. }
  - left. by exists e.
  - right. bstep. do 2 eexists. split; [done|]. destruct Hc' as (_ & Ho' & _). cbn [r_off r_n] in *.
    rewrite i32_small by lia. split; [lia|]. split; [exact Hu|]. cbn [t_type t_mti t_dir].
    assert (0 <= mti < 4 ∧ 0 <= d < 2) as [Hm Hd].
    { unfold mti, d. rewrite (land_low _ 2), (land_low _ 1) by done.
      split; apply Z.mod_pos_bound; lia. }
    clearbody mti d. assert (mti = 0 ∨ mti = 1 ∨ mti = 2 ∨ mti = 3) as Hm' by lia.
    assert (d = 0 ∨ d = 1) as Hd' by lia.
    destruct Hm' as [->|[->|[->| ->]]], Hd' as [->| ->]; done.
Qed.

Lemma sms_tpdu_decode_safe_witness :
  fine [68; 255; 145] 3 (sms_tpdu_decode (Some [68; 255; 145]) 3 1).
Proof.
  apply (sms_tpdu_decode_safe [68; 255; 145] 3 1); [repeat constructor; lia|by vm_compute|lia].
Defined.
End SmsPdu.
