(* ===== verification/SmsRp.v ===== *)
(** * SmsRp: the relay layer

    Models [sms/src/sms_rp.c]: the RPDU that carries a transport PDU between the
    mobile and the service centre, its addresses, the four shorthands that build an
    RPDU, and the folding of causes.  The loops over digits that [sms_rp.c] repeats
    from the transport layer are [nibbles_loop] and [set_loop] of SmsAddr. *)

From stdpp Require Import strings.
From S2P Require Import Prelude Endian SmsIntl SmsUd SmsText SmsTime SmsAddr SmsTpdu SmsPdu.

Definition SMS_RP_MAX : Z := 256.
Definition SMS_RP_ADDR_MAX : Z := 12.

Definition SMS_RP_DATA_MS_TO_N : Z := 0.
Definition SMS_RP_DATA_N_TO_MS : Z := 1.
Definition SMS_RP_ACK_MS_TO_N : Z := 2.
Definition SMS_RP_ACK_N_TO_MS : Z := 3.
Definition SMS_RP_ERROR_MS_TO_N : Z := 4.
Definition SMS_RP_ERROR_N_TO_MS : Z := 5.
Definition SMS_RP_SMMA_MS_TO_N : Z := 6.

Definition SMS_RP_T_DATA : Z := 0.
Definition SMS_RP_T_ACK : Z := 1.
Definition SMS_RP_T_ERROR : Z := 2.
Definition SMS_RP_T_SMMA : Z := 3.
Definition SMS_RP_T_MAX : Z := 4.

Definition SMS_RP_IEI_USER_DATA : Z := 65.
Definition SMS_RP_CAUSE_TEMPORARY_FAILURE : Z := 41.

Module SmsRp.

(** [ra_digits] is the whole array of [SMS_ADDR_MAX_DIGITS + 1] characters. *)
Record sms_rp_addr := RpAddr { ra_present : bool; ra_ton : Z; ra_npi : Z; ra_digits : mem }.

Record sms_rp_pdu := RpPdu {
  p_mti : Z; p_type : Z; p_from_ms : bool; p_mr : Z;
  p_oa : sms_rp_addr; p_da : sms_rp_addr;
  p_cause : Z; p_has_cause_diag : bool; p_cause_diag : Z;
  p_has_ud : bool; p_ud : option mem; p_ud_len : Z }.

Ltac rp_fields :=
  cbn [p_mti p_type p_from_ms p_mr p_oa p_da p_cause p_has_cause_diag p_cause_diag p_has_ud p_ud p_ud_len].

Definition zero_rp_addr : sms_rp_addr := RpAddr false 0 0 (zeros (SMS_ADDR_MAX_DIGITS + 1)).

Definition mti_of (type : Z) (from_ms : bool) : Z :=
  if type =? SMS_RP_T_DATA then if from_ms then SMS_RP_DATA_MS_TO_N else SMS_RP_DATA_N_TO_MS
  else if type =? SMS_RP_T_ACK then if from_ms then SMS_RP_ACK_MS_TO_N else SMS_RP_ACK_N_TO_MS
  else if type =? SMS_RP_T_ERROR then if from_ms then SMS_RP_ERROR_MS_TO_N else SMS_RP_ERROR_N_TO_MS
  else if type =? SMS_RP_T_SMMA then if from_ms then SMS_RP_SMMA_MS_TO_N else SMS_E_MTI
  else SMS_E_INVAL.

(** ** Addresses *)

(** Digits from octet [i] on, [k] of them stored; ends at a filler or behind octet
    [len]. *)
Fixpoint rp_digits_loop (fuel : nat) (b : mem) (i len k : Z) (digits : mem) : res (mem * Z) :=
  match fuel with
  | O => Ub
  | S fuel =>
      if negb (i <=? len) then Ok (digits, k) else
      o ← rd b i;
      let lo := sms_bcd_char (Z.land o 15) in
      let hi := sms_bcd_char (u8 (Z.shiftr o 4)) in
      if lo =? 0 then Ok (digits, k) else
      if SMS_ADDR_MAX_DIGITS <=? k then Err SMS_E_LENGTH else
      digits ← wr digits k lo;
      let k := k + 1 in
      if hi =? 0 then Ok (digits, k) else
      if SMS_ADDR_MAX_DIGITS <=? k then Err SMS_E_LENGTH else
      digits ← wr digits k hi;
      rp_digits_loop fuel b (i + 1) len (k + 1) digits
  end.

Definition sms_rp_addr_decode (b : option mem) (n : Z) : res (sms_rp_addr * Z) :=
  match b with
  | None => Err SMS_E_INVAL
  | Some b =>
      if n <? 1 then Err SMS_E_SHORT else
      len ← rd b 0;
      if len =? 0 then Ok (zero_rp_addr, 1) else
      if SMS_RP_ADDR_MAX - 1 <? len then Err SMS_E_LENGTH else
      if n <? 1 + len then Err SMS_E_SHORT else
      o ← rd b 1;
      let ton := u8 (Z.land (Z.shiftr o 4) 7) in
      let npi := u8 (Z.land o 15) in
      '(digits, k) ← rp_digits_loop (S (Z.to_nat len)) b 2 len 0 (ra_digits zero_rp_addr);
      digits ← wr digits k 0;
      Ok (RpAddr true ton npi digits, i32 (1 + len))
  end.

Definition sms_rp_addr_encode (b : option mem) (cap : Z) (a : option sms_rp_addr) : res (mem * Z) :=
  match b, a with
  | Some b, Some a =>
      if negb (ra_present a) then
        if cap <? 1 then Err SMS_E_OVERFLOW else
        b ← wr b 0 0; Ok (b, 1)
      else
      if (7 <? ra_ton a) || (15 <? ra_npi a) then Err SMS_E_INVAL else
      ndig ← strlen (ra_digits a);
      if SMS_ADDR_MAX_DIGITS <? ndig then Err SMS_E_LENGTH else
      let vlen := (ndig + 1) / 2 in
      if cap <? 2 + vlen then Err SMS_E_OVERFLOW else
      b ← wr b 0 (u8 (1 + vlen));
      b ← wr b 1 (u8 (Z.lor (Z.lor 128 (Z.shiftl (ra_ton a) 4)) (ra_npi a)));
      b ← nibbles_loop (Z.to_nat vlen) (ra_digits a) 0 ndig b;
      Ok (b, i32 (2 + vlen))
  | _, _ => Err SMS_E_INVAL
  end.

(** [a] says whether the structure to fill is there. *)
Definition sms_rp_addr_set (a : bool) (num : option mem) (ton : Z) : res sms_rp_addr :=
  if negb a then Err SMS_E_INVAL else
  match num with
  | None => Ok zero_rp_addr
  | Some num =>
      c ← rd num 0;
      if c =? 0 then Ok zero_rp_addr else
      let ton := if c =? 43 then SMS_TON_INTERNATIONAL else ton in
      let num := if c =? 43 then from num 1 else num in
      digits ← set_loop 22 num 0 (ra_digits zero_rp_addr);
      Ok (RpAddr true (u8 ton) SMS_NPI_ISDN digits)
  end.

(** ** Codec *)

Definition sms_rp_init (type dir : Z) : sms_rp_pdu :=
  let from_ms := Z.land dir 1 =? SMS_DIR_MS_TO_SC in
  let mti := mti_of type from_ms in
  RpPdu (if mti <? 0 then 0 else u8 mti) (u8 type) from_ms 0 zero_rp_addr zero_rp_addr 0 false 0 false None 0.

(** The type and direction of an RP-MTI. *)
Definition rp_kind (mti : Z) : res (Z * bool) :=
  if mti =? SMS_RP_DATA_MS_TO_N then Ok (SMS_RP_T_DATA, true)
  else if mti =? SMS_RP_DATA_N_TO_MS then Ok (SMS_RP_T_DATA, false)
  else if mti =? SMS_RP_ACK_MS_TO_N then Ok (SMS_RP_T_ACK, true)
  else if mti =? SMS_RP_ACK_N_TO_MS then Ok (SMS_RP_T_ACK, false)
  else if mti =? SMS_RP_ERROR_MS_TO_N then Ok (SMS_RP_T_ERROR, true)
  else if mti =? SMS_RP_ERROR_N_TO_MS then Ok (SMS_RP_T_ERROR, false)
  else if mti =? SMS_RP_SMMA_MS_TO_N then Ok (SMS_RP_T_SMMA, true)
  else Err SMS_E_MTI.

(** The length octet at [off] and the user data behind it: pointer, length, offset
    behind it. *)
Definition read_rp_ud (b : mem) (n off : Z) : res (option mem * Z * Z) :=
  if n <=? off then Err SMS_E_SHORT else
  ulen ← rd b off;
  let off := off + 1 in
  if u64 (n - off) <? ulen then Err SMS_E_SHORT else
  Ok (if negb (ulen =? 0) then Some (from b off) else None, u8 ulen, off + ulen).

(** The label [optional_ud]. *)
Definition read_optional_ud (b : mem) (n off : Z) : res (bool * option mem * Z * Z) :=
  if off <? n then
    iei ← rd b off;
    if negb (iei =? SMS_RP_IEI_USER_DATA) then Err SMS_E_LENGTH else
    '(ud, ulen, off) ← read_rp_ud b n (off + 1);
    Ok (true, ud, ulen, off)
  else Ok (false, None, 0, off).

Definition sms_rp_decode (b : option mem) (n dir : Z) : res (sms_rp_pdu * Z) :=
  match b with
  | None => Err SMS_E_INVAL
  | Some b =>
      if n <? 2 then Err SMS_E_SHORT else
      o ← rd b 0;
      let mti := u8 (Z.land o 7) in
      mr ← rd b 1;
      let off := 2 in
      '(type, from_ms) ← rp_kind mti;
      if negb (eqb from_ms (Z.land dir 1 =? SMS_DIR_MS_TO_SC)) then Err SMS_E_MTI else
      if type =? SMS_RP_T_DATA then
        '(oa, rc) ← sms_rp_addr_decode (Some (from b off)) (u64 (n - off));
        let off := off + rc in
        '(da, rc) ← sms_rp_addr_decode (Some (from b off)) (u64 (n - off));
        let off := off + rc in
        '(ud, ulen, off) ← read_rp_ud b n off;
        Ok (RpPdu mti type from_ms mr oa da 0 false 0 true ud ulen, i32 off)
      else if type =? SMS_RP_T_ERROR then
        if n <=? off then Err SMS_E_SHORT else
        clen ← rd b off;
        let off := off + 1 in
        if clen <? 1 then Err SMS_E_LENGTH else
        if u64 (n - off) <? clen then Err SMS_E_SHORT else
        c ← rd b off;
        '(has_diag, diag) ← (if 2 <=? clen then d ← rd b (off + 1); Ok (true, d) else Ok (false, 0));
        '(has_ud, ud, ulen, off) ← read_optional_ud b n (off + clen);
        Ok (RpPdu mti type from_ms mr zero_rp_addr zero_rp_addr (u8 (Z.land c 127)) has_diag diag
              has_ud ud ulen, i32 off)
      else if type =? SMS_RP_T_ACK then
        '(has_ud, ud, ulen, off) ← read_optional_ud b n off;
        Ok (RpPdu mti type from_ms mr zero_rp_addr zero_rp_addr 0 false 0 has_ud ud ulen, i32 off)
      else if type =? SMS_RP_T_SMMA then
        Ok (RpPdu mti type from_ms mr zero_rp_addr zero_rp_addr 0 false 0 false None 0, i32 off)
      else Err SMS_E_MTI
  end.

(** The length octet and the user data at [off]; copying from NULL is undefined. *)
Definition write_rp_ud (b : mem) (off : Z) (ud : option mem) (len : Z) : res (mem * Z) :=
  b ← wr b off len;
  let off := off + 1 in
  if negb (len =? 0) then
    match ud with
    | None => Ub
    | Some u => bs ← rdn u 0 len; b ← wrn b off bs; Ok (b, off + len)
    end
  else Ok (b, off).

(** The label [optional_ud]. *)
Definition write_optional_ud (b : mem) (cap off : Z) (p : sms_rp_pdu) : res (mem * Z) :=
  if p_has_ud p then
    if u64 (cap - off) <? 2 + p_ud_len p then Err SMS_E_OVERFLOW else
    b ← wr b off SMS_RP_IEI_USER_DATA;
    '(b, off) ← write_rp_ud b (off + 1) (p_ud p) (p_ud_len p);
    Ok (b, i32 off)
  else Ok (b, i32 off).

Definition sms_rp_encode (b : option mem) (cap : Z) (p : option sms_rp_pdu) : res (mem * Z) :=
  match b, p with
  | Some b, Some p =>
      if SMS_RP_T_MAX <=? p_type p then Err SMS_E_INVAL else
      if p_has_ud p && negb (p_ud_len p =? 0) && match p_ud p with None => true | _ => false end
      then Err SMS_E_INVAL else
      let mti := mti_of (p_type p) (p_from_ms p) in
      if mti <? 0 then Err mti else
      if cap <? 2 then Err SMS_E_OVERFLOW else
      b ← wr b 0 (u8 mti);
      b ← wr b 1 (p_mr p);
      let off := 2 in
      if p_type p =? SMS_RP_T_DATA then
        '(b, rc) ← at_off b off (λ m, sms_rp_addr_encode (Some m) (u64 (cap - off)) (Some (p_oa p)));
        let off := off + rc in
        '(b, rc) ← at_off b off (λ m, sms_rp_addr_encode (Some m) (u64 (cap - off)) (Some (p_da p)));
        let off := off + rc in
        if u64 (cap - off) <? 1 + p_ud_len p then Err SMS_E_OVERFLOW else
        '(b, off) ← write_rp_ud b off (p_ud p) (p_ud_len p);
        Ok (b, i32 off)
      else if p_type p =? SMS_RP_T_ERROR then
        let clen := if p_has_cause_diag p then 2 else 1 in
        if u64 (cap - off) <? 1 + clen then Err SMS_E_OVERFLOW else
        b ← wr b off clen;
        b ← wr b (off + 1) (u8 (Z.land (p_cause p) 127));
        let off := off + 2 in
        '(b, off) ← (if p_has_cause_diag p then b ← wr b off (p_cause_diag p); Ok (b, off + 1)
                     else Ok (b, off));
        write_optional_ud b cap off p
      else if p_type p =? SMS_RP_T_ACK then write_optional_ud b cap off p
      else if p_type p =? SMS_RP_T_SMMA then Ok (b, i32 off)
      else Err SMS_E_INVAL
  | _, _ => Err SMS_E_INVAL
  end.

(** ** Shorthands *)

Definition with_mr (p : sms_rp_pdu) (mr : Z) : sms_rp_pdu :=
  RpPdu (p_mti p) (p_type p) (p_from_ms p) mr (p_oa p) (p_da p) (p_cause p) (p_has_cause_diag p)
    (p_cause_diag p) (p_has_ud p) (p_ud p) (p_ud_len p).
Definition with_cause (p : sms_rp_pdu) (cause : Z) : sms_rp_pdu :=
  RpPdu (p_mti p) (p_type p) (p_from_ms p) (p_mr p) (p_oa p) (p_da p) cause (p_has_cause_diag p)
    (p_cause_diag p) (p_has_ud p) (p_ud p) (p_ud_len p).
Definition with_addrs (p : sms_rp_pdu) (oa da : sms_rp_addr) : sms_rp_pdu :=
  RpPdu (p_mti p) (p_type p) (p_from_ms p) (p_mr p) oa da (p_cause p) (p_has_cause_diag p)
    (p_cause_diag p) (p_has_ud p) (p_ud p) (p_ud_len p).
Definition with_ud (p : sms_rp_pdu) (ud : option mem) (len : Z) : sms_rp_pdu :=
  RpPdu (p_mti p) (p_type p) (p_from_ms p) (p_mr p) (p_oa p) (p_da p) (p_cause p) (p_has_cause_diag p)
    (p_cause_diag p) true ud len.
(** [if (tpdu != NULL && tpdu_len > 0)] the TPDU rides along. *)
Definition maybe_ud (p : sms_rp_pdu) (tpdu : option mem) (tpdu_len : Z) : sms_rp_pdu :=
  match tpdu with
  | Some _ => if 0 <? tpdu_len then with_ud p tpdu (u8 tpdu_len) else p
  | None => p
  end.

Definition sms_rp_data (b : option mem) (cap dir mr : Z) (sc : option mem) (tpdu : option mem) (tpdu_len : Z)
    : res (mem * Z) :=
  if 255 <? tpdu_len then Err SMS_E_LENGTH else
  let p := with_mr (sms_rp_init SMS_RP_T_DATA dir) mr in
  a ← sms_rp_addr_set true sc SMS_TON_INTERNATIONAL;
  let p := if p_from_ms p then with_addrs p (p_oa p) a else with_addrs p a (p_da p) in
  sms_rp_encode b cap (Some (with_ud p tpdu (u8 tpdu_len))).

Definition sms_rp_ack (b : option mem) (cap dir mr : Z) (tpdu : option mem) (tpdu_len : Z) : res (mem * Z) :=
  if 255 <? tpdu_len then Err SMS_E_LENGTH else
  let p := with_mr (sms_rp_init SMS_RP_T_ACK dir) mr in
  sms_rp_encode b cap (Some (maybe_ud p tpdu tpdu_len)).

Definition sms_rp_error (b : option mem) (cap dir mr cause : Z) (tpdu : option mem) (tpdu_len : Z)
    : res (mem * Z) :=
  if 255 <? tpdu_len then Err SMS_E_LENGTH else
  let p := with_cause (with_mr (sms_rp_init SMS_RP_T_ERROR dir) mr) cause in
  sms_rp_encode b cap (Some (maybe_ud p tpdu tpdu_len)).

Definition sms_rp_smma (b : option mem) (cap mr : Z) : res (mem * Z) :=
  sms_rp_encode b cap (Some (with_mr (sms_rp_init SMS_RP_T_SMMA SMS_DIR_MS_TO_SC) mr)).

(** ** Names *)

Definition sms_rp_type_name (t : Z) : string :=
  let n := ["RP-DATA"; "RP-ACK"; "RP-ERROR"; "RP-SMMA"]%string in
  if u32 t <? SMS_RP_T_MAX then nth (Z.to_nat t) n ""%string else ""%string.

Definition sms_rp_mti_name (mti : Z) : string :=
  if mti =? SMS_RP_DATA_MS_TO_N then "RP-DATA (ms->n)"%string
  else if mti =? SMS_RP_DATA_N_TO_MS then "RP-DATA (n->ms)"%string
  else if mti =? SMS_RP_ACK_MS_TO_N then "RP-ACK (ms->n)"%string
  else if mti =? SMS_RP_ACK_N_TO_MS then "RP-ACK (n->ms)"%string
  else if mti =? SMS_RP_ERROR_MS_TO_N then "RP-ERROR (ms->n)"%string
  else if mti =? SMS_RP_ERROR_N_TO_MS then "RP-ERROR (n->ms)"%string
  else if mti =? SMS_RP_SMMA_MS_TO_N then "RP-SMMA (ms->n)"%string
  else ""%string.

Definition sms_rp_cause_names : list (Z * string) :=
  [(1, "unassigned number");
   (8, "operator determined barring");
   (10, "call barred");
   (11, "reserved");
   (21, "short message transfer rejected");
   (27, "destination out of order");
   (28, "unidentified subscriber");
   (29, "facility rejected");
   (30, "unknown subscriber");
   (38, "network out of order");
   (41, "temporary failure");
   (42, "congestion");
   (47, "resources unavailable, unspecified");
   (50, "requested facility not subscribed");
   (69, "requested facility not implemented");
   (81, "invalid short message transfer reference value");
   (95, "semantically incorrect message");
   (96, "invalid mandatory information");
   (97, "message type non existent or not implemented");
   (98, "message not compatible with short message protocol state");
   (99, "information element non existent or not implemented");
   (111, "protocol error, unspecified");
   (127, "interworking, unspecified")]%string.
Definition sms_rp_cause_name (cause : Z) : string :=
  match find (λ r, r.1 =? cause) sms_rp_cause_names with
  | Some r => r.2
  | None => "unassigned (treat as temporary failure)"%string
  end.

(** The causes TS 24.011 lists. *)
Definition rp_causes : list Z :=
  [1; 8; 10; 11; 21; 27; 28; 29; 30; 38; 41; 42; 47; 50; 69; 81; 95; 96; 97; 98; 99; 111; 127].
Definition sms_rp_cause_fold (cause : Z) : Z :=
  if existsb (Z.eqb cause) rp_causes then cause else SMS_RP_CAUSE_TEMPORARY_FAILURE.

(** ** RPDUs as values *)

Inductive party := Absent | Party (ton npi : Z) (s : list Z).

Inductive rpdu :=
| RpData (from_ms : bool) (mr : Z) (oa da : party) (ud : list Z)
| RpAck (from_ms : bool) (mr : Z) (ud : option (list Z))
| RpError (from_ms : bool) (mr cause : Z) (diag : option Z) (ud : option (list Z))
| RpSmma (mr : Z).

Definition party_ok (a : party) : Prop :=
  match a with
  | Absent => True
  | Party ton npi s => 0 <= ton <= 7 ∧ 0 <= npi <= 15 ∧ Forall digit s ∧ mlen s <= 20
  end.
Definition rp_ud_ok (ud : list Z) : Prop := bytes_ok ud ∧ mlen ud <= 255.
Definition rpdu_ok (p : rpdu) : Prop :=
  match p with
  | RpData _ mr oa da ud => SmsPdu.octet mr ∧ party_ok oa ∧ party_ok da ∧ rp_ud_ok ud
  | RpAck _ mr ud => SmsPdu.octet mr ∧ match ud with Some ud => rp_ud_ok ud | None => True end
  | RpError _ mr cause diag ud =>
      SmsPdu.octet mr ∧ 0 <= cause < 128 ∧ SmsPdu.octet_opt diag ∧
      match ud with Some ud => rp_ud_ok ud | None => True end
  | RpSmma mr => SmsPdu.octet mr
  end.

(** The octets TS 24.011 gives them. *)
Definition party_bytes (a : party) : list Z :=
  match a with
  | Absent => [0]
  | Party ton npi s => 1 + mlen (digit_bytes s) :: toa_octet ton npi :: digit_bytes s
  end.
Definition dir_bit (from_ms : bool) : Z := if from_ms then 0 else 1.
Definition rp_tlv (ud : option (list Z)) : list Z :=
  match ud with Some ud => SMS_RP_IEI_USER_DATA :: mlen ud :: ud | None => [] end.
Definition rpdu_bytes (p : rpdu) : list Z :=
  match p with
  | RpData m mr oa da ud => [dir_bit m; mr] ++ party_bytes oa ++ party_bytes da ++ mlen ud :: ud
  | RpAck m mr ud => [2 + dir_bit m; mr] ++ rp_tlv ud
  | RpError m mr cause diag ud =>
      [4 + dir_bit m; mr] ++
      match diag with Some d => [2; cause; d] | None => [1; cause] end ++ rp_tlv ud
  | RpSmma mr => [6; mr]
  end.
(** Whether the octets show where the RPDU ends: an optional element may be taken
    to follow one that lacks it. *)
Definition delimited (p : rpdu) : bool :=
  match p with RpAck _ _ None | RpError _ _ _ _ None => false | _ => true end.

(** The structures that hold them. *)
Definition rp_padded (s : list Z) : mem := s ++ zeros (SMS_ADDR_MAX_DIGITS + 1 - mlen s).
Definition party_of (a : party) : sms_rp_addr :=
  match a with Absent => zero_rp_addr | Party ton npi s => RpAddr true ton npi (rp_padded s) end.
Definition opt_len (ud : option (list Z)) : Z := match ud with Some ud => mlen ud | None => 0 end.
Definition opt_ptr (ud : option (list Z)) : option mem :=
  match ud with Some ud => SmsPdu.ptr ud | None => None end.
Definition rpdu_of (p : rpdu) : sms_rp_pdu :=
  match p with
  | RpData m mr oa da ud =>
      RpPdu (dir_bit m) SMS_RP_T_DATA m mr (party_of oa) (party_of da) 0 false 0 true (SmsPdu.ptr ud) (mlen ud)
  | RpAck m mr ud =>
      RpPdu (2 + dir_bit m) SMS_RP_T_ACK m mr zero_rp_addr zero_rp_addr 0 false 0
        (SmsPdu.is_some ud) (opt_ptr ud) (opt_len ud)
  | RpError m mr cause diag ud =>
      RpPdu (4 + dir_bit m) SMS_RP_T_ERROR m mr zero_rp_addr zero_rp_addr cause
        (SmsPdu.is_some diag) (default 0 diag) (SmsPdu.is_some ud) (opt_ptr ud) (opt_len ud)
  | RpSmma mr => RpPdu 6 SMS_RP_T_SMMA true mr zero_rp_addr zero_rp_addr 0 false 0 false None 0
  end.
Definition rp_dir (p : rpdu) : Z :=
  match p with RpData m _ _ _ _ | RpAck m _ _ | RpError m _ _ _ _ => dir_bit m | RpSmma _ => 0 end.
(** A structure with the pointer cut to the length beside it. *)
Definition cut_rpdu (p : sms_rp_pdu) : sms_rp_pdu :=
  RpPdu (p_mti p) (p_type p) (p_from_ms p) (p_mr p) (p_oa p) (p_da p) (p_cause p) (p_has_cause_diag p)
    (p_cause_diag p) (p_has_ud p) (SmsPdu.cut (p_ud_len p) (p_ud p)) (p_ud_len p).

(** *** Addresses *)

Lemma mlen_party_bytes a : party_ok a → 1 <= mlen (party_bytes a) <= 12.
Proof.
  destruct a as [|ton npi s]; [done|]. intros (_ & _ & _ & Hl). cbn [party_bytes].
  rewrite !mlen_cons, mlen_digit_bytes. pose proof (mlen_nonneg s). Z.to_euclidean_division_equations; lia.
Qed.

Lemma party_bytes_ok a : party_ok a → bytes_ok (party_bytes a).
Proof.
  intros Hok. pose proof (mlen_party_bytes _ Hok) as Hl. destruct a as [|ton npi s]; [repeat constructor; lia|].
  destruct Hok as (Ht & Hn & Hd & _). cbn [party_bytes] in *. rewrite !mlen_cons in Hl.
  pose proof (mlen_nonneg (digit_bytes s)). destruct (toa_fields ton npi Ht Hn) as (_ & _ & _ & ?).
  apply bytes_ok_cons. split; [lia|]. apply bytes_ok_cons. split; [done|]. by apply digit_bytes_ok.
Qed.

Lemma strlen_rp_padded s : Forall digit s → mlen s <= 20 → strlen (rp_padded s) = Ok (mlen s).
Proof. intros. apply strlen_app; [by apply digits_nonzero|unfold SMS_ADDR_MAX_DIGITS; lia]. Qed.

Lemma party_encode b cap a : party_ok a → cap <= mlen b →
  sms_rp_addr_encode (Some b) cap (Some (party_of a)) =
  if mlen (party_bytes a) <=? cap then Ok (splice b 0 (party_bytes a), mlen (party_bytes a))
  else Err SMS_E_OVERFLOW.
Proof.
  intros Hok Hc. pose proof (mlen_party_bytes _ Hok) as Hl. destruct a as [|ton npi s]; cbn [party_of].
  - unfold sms_rp_addr_encode. cbn [ra_present zero_rp_addr negb party_bytes] in *. change (mlen [0]) with 1.
    rewrite wr_wrn. destruct (Z.ltb_spec cap 1), (Z.leb_spec 1 cap); try lia; [done|].
    by rewrite wrn_first by mlia.
  - destruct Hok as (Ht & Hn & Hd & Hlen). unfold sms_rp_addr_encode. cbn [ra_present ra_ton ra_npi ra_digits negb].
    replace ((7 <? ton) || (15 <? npi)) with false by lia. unfold SMS_ADDR_MAX_DIGITS.
    rewrite strlen_rp_padded by done. bstep.
    destruct (Z.ltb_spec 20 (mlen s)); [lia|]. cbv zeta. pose proof (mlen_digit_bytes s) as Hdl.
    cbn [party_bytes] in *. rewrite !mlen_cons in *. rewrite <-Hdl. pose proof (mlen_nonneg (digit_bytes s)).
    destruct (Z.ltb_spec cap (2 + mlen (digit_bytes s))); [by rewrite (proj2 (Z.leb_gt _ _)) by lia|].
    rewrite (proj2 (Z.leb_le _ _)) by lia. rewrite (u8_small (1 + mlen (digit_bytes s))) by lia.
    destruct (toa_fields ton npi Ht Hn) as (-> & _).
    rewrite wr_wrn, wrn_first by mlia. rewrite wr_wrn, wrn_next by mlia. cbn [app]. unfold rp_padded.
    rewrite (nibbles_loop_bytes s [] (zeros (20 + 1 - mlen s)) 0 (mlen s)); try done.
    + bstep. f_equal. f_equal; [|rewrite i32_small by lia; lia]. refine (splice_app b 0 [_; _] _ _ _); mlia.
    + unfold mlen. lia.
    + rewrite mlen_splice by mlia. lia.
Qed.

Lemma bcd_filler : sms_bcd_char 15 = 0.
Proof. done. Qed.

Lemma rp_digits_loop_bytes s : ∀ b fuel i k len digits,
  Forall digit s → holds b i (digit_bytes s) → 0 <= k → k + mlen s <= 20 →
  len + 1 = i + mlen (digit_bytes s) → (length (digit_bytes s) < fuel)%nat → 20 < mlen digits →
  rp_digits_loop fuel b i len k digits = Ok (splice digits k s, k + mlen s).
Proof.
  induction s as [|c|c d s IH] using pair_ind; intros b fuel i k len digits Hs Hb Hk Hks Hle Hf Hl;
    (destruct fuel as [|fuel]; [cbn in Hf; lia|]); cbn [rp_digits_loop].
  - change (mlen (digit_bytes [])) with 0 in Hle. rewrite (proj2 (Z.leb_gt i len)) by lia. cbn [negb].
    by rewrite splice_nil, mlen_nil, Z.add_0_r.
  - apply Forall_cons_iff in Hs as [Hc _]. pose proof (digit_nibble c Hc).
    cbn [digit_bytes] in *. rewrite !mlen_cons, !mlen_nil in *. rewrite (proj2 (Z.leb_le i len)) by lia.
    cbn [negb]. apply holds_cons in Hb as [-> _]. bstep.
    destruct (nibbles_octet 15 (sms_bcd_nibble c)) as (_ & E1 & E2); [lia..|]. change (16 * 15) with 240 in *.
    rewrite E1, E2, digit_back, bcd_filler by done. cbv zeta.
    rewrite (proj2 (Z.eqb_neq c 0)) by (by apply digit_nonzero). unfold SMS_ADDR_MAX_DIGITS.
    rewrite (proj2 (Z.leb_gt 20 k)) by lia. by rewrite wr_wrn, wrn_first by mlia.
  - apply Forall_cons_iff in Hs as [Hc Hs]. apply Forall_cons_iff in Hs as [Hd Hs].
    pose proof (digit_nibble c Hc). pose proof (digit_nibble d Hd). pose proof (mlen_nonneg s).
    cbn [digit_bytes length] in *. rewrite !mlen_cons in *. pose proof (mlen_nonneg (digit_bytes s)).
    rewrite (proj2 (Z.leb_le i len)) by lia. cbn [negb]. apply holds_cons in Hb as [-> Hb]. bstep.
    destruct (nibbles_octet (sms_bcd_nibble d) (sms_bcd_nibble c)) as (_ & E1 & E2); [lia..|].
    rewrite E1, E2, !digit_back by done. cbv zeta.
    rewrite (proj2 (Z.eqb_neq c 0)), (proj2 (Z.eqb_neq d 0)) by (by apply digit_nonzero).
    unfold SMS_ADDR_MAX_DIGITS. rewrite (proj2 (Z.leb_gt 20 k)), (proj2 (Z.leb_gt 20 (k + 1))) by lia.
    rewrite wr_wrn, wrn_first by mlia. rewrite wr_wrn, wrn_next by mlia. cbn [app].
    rewrite IH; [|done|done|lia|lia|lia|lia|rewrite mlen_splice by mlia; lia].
    f_equal. f_equal; [|lia]. replace (k + 1 + 1) with (k + mlen [c; d]) by (rewrite !mlen_cons, mlen_nil; lia).
    by rewrite splice_app by mlia.
Qed.

Lemma rp_padded_splice s : mlen s <= 20 → splice (splice (ra_digits zero_rp_addr) 0 s) (mlen s) [0] = rp_padded s.
Proof.
  intros Hl. pose proof (mlen_nonneg s).
  pose proof (splice_app (ra_digits zero_rp_addr) 0 s [0]) as E. rewrite Z.add_0_l in E.
  rewrite E by (lia || (change (mlen (ra_digits zero_rp_addr)) with 21; lia)).
  unfold rp_padded. rewrite splice_0, length_app. cbn [length]. rewrite <-app_assoc. f_equal.
  unfold zero_rp_addr, ra_digits, SMS_ADDR_MAX_DIGITS, zeros, mlen in *. rewrite drop_replicate.
  change [0] with (replicate 1 0). rewrite <-replicate_add. f_equal. lia.
Qed.

Lemma party_decode b n a : party_ok a → holds b 0 (party_bytes a) → mlen (party_bytes a) <= n →
  sms_rp_addr_decode (Some b) n = Ok (party_of a, mlen (party_bytes a)).
Proof.
  intros Hok Hh Hn. pose proof (mlen_party_bytes _ Hok) as Hl. unfold sms_rp_addr_decode.
  rewrite (proj2 (Z.ltb_ge n 1)) by lia. destruct a as [|ton npi s]; cbn [party_bytes] in *.
  { by apply holds_cons in Hh as [-> _]. }
  destruct Hok as (Ht & Hnp & Hd & Hlen). rewrite !mlen_cons in *. apply holds_cons in Hh as [-> Hh]. bstep.
  pose proof (mlen_nonneg (digit_bytes s)). pose proof (mlen_nonneg s).
  rewrite (proj2 (Z.eqb_neq _ 0)) by lia. unfold SMS_RP_ADDR_MAX. rewrite (proj2 (Z.ltb_ge _ (1 + _))) by lia.
  rewrite (proj2 (Z.ltb_ge n _)) by lia. apply holds_cons in Hh as [E Hh]. rewrite Z.add_0_l in E. rewrite E. bstep.
  destruct (toa_fields ton npi Ht Hnp) as (_ & -> & -> & _).
  rewrite (rp_digits_loop_bytes s) by (done || lia || (unfold mlen in *; lia)). bstep. rewrite Z.add_0_l, wr_wrn, wrn_first.
  - rewrite rp_padded_splice by lia. rewrite i32_small by lia. cbn [party_of]. do 2 f_equal; lia.
  - lia.
  - rewrite mlen_splice; change (mlen (ra_digits zero_rp_addr)) with 21; change (mlen [0]) with 1; lia.
Qed.

(** *** Encoding *)

(** The octets of [bs] at the start of [b], or no room for them. *)
Definition written (b : mem) (cap : Z) (bs : list Z) : res (mem * Z) :=
  if mlen bs <=? cap then Ok (splice b 0 bs, mlen bs) else Err SMS_E_OVERFLOW.

(** [up] points to the octets [ud], or to nothing if there are none. *)
Definition views (up : option mem) (ud : list Z) : Prop :=
  (up = None ∧ ud = []) ∨ ∃ u, up = Some u ∧ mlen ud ≠ 0 ∧ holds u 0 ud.

Lemma views_ptr ud : views (SmsPdu.ptr ud) ud.
Proof.
  destruct ud as [|x ud]; [by left|]. right. exists (x :: ud). split; [done|]. split.
  - rewrite mlen_cons. pose proof (mlen_nonneg ud). lia.
  - unfold holds. pose proof (mlen_nonneg (x :: ud)). split_and!; [lia|lia|]. by apply slice_full.
Qed.
Lemma views_null q ud : p_ud_len q = opt_len ud → views (p_ud q) (default [] ud) →
  negb (p_ud_len q =? 0) && match p_ud q with None => true | _ => false end = false.
Proof.
  intros -> [(-> & E)|(u & -> & _)]; [|by rewrite andb_false_r]. destruct ud; cbn in *; by subst.
Qed.

Section writing.
Context (b : mem) (cap : Z) (Hcap : 0 <= cap <= mlen b) (Hsmall : cap < 268435456).

Lemma left_at pre : mlen pre <= cap → u64 (cap - mlen pre) = cap - mlen pre.
Proof using Hcap Hsmall. intros. pose proof (mlen_nonneg pre). apply u64_small. lia. Qed.

Lemma written_more pre bs : cap < mlen pre → written b cap (pre ++ bs) = Err SMS_E_OVERFLOW.
Proof using.
  intros. unfold written. rewrite mlen_app. pose proof (mlen_nonneg bs). by rewrite (proj2 (Z.leb_gt _ _)) by lia.
Qed.

Lemma wr_at {A} pre x (f : mem → res A) : mlen pre < cap →
  wr (splice b 0 pre) (mlen pre) x ≫= f = f (splice b 0 (pre ++ [x])).
Proof using Hcap.
  intros. pose proof (mlen_nonneg pre). by rewrite wr_wrn, (wrn_next b 0 (mlen pre) pre [x]) by mlia.
Qed.

Lemma write_rp_ud_at pre up ud : mlen pre + 1 + mlen ud <= cap → views up ud →
  write_rp_ud (splice b 0 pre) (mlen pre) up (mlen ud) =
    Ok (splice b 0 (pre ++ mlen ud :: ud), mlen (pre ++ mlen ud :: ud)).
Proof using Hcap.
  intros Hl Hv. pose proof (mlen_nonneg pre). pose proof (mlen_nonneg ud). unfold write_rp_ud.
  rewrite wr_at by lia. destruct Hv as [(-> & ->)|(u & -> & Hu & Hh)]; [by rewrite mlen_app|].
  rewrite (proj2 (Z.eqb_neq _ _) Hu). cbn [negb]. rewrite (holds_rdn _ _ _ _ Hh) by done.
  bstep. rewrite (wrn_next b 0 _ (pre ++ [mlen ud]) ud) by (rewrite ?mlen_app; change (mlen [mlen ud]) with 1; lia).
  rewrite <-app_assoc. cbn [app]. rewrite !mlen_app, mlen_cons. do 2 f_equal. lia.
Qed.

Lemma write_optional_ud_at pre p ud : mlen pre <= cap →
  p_has_ud p = SmsPdu.is_some ud → p_ud_len p = opt_len ud → views (p_ud p) (default [] ud) →
  write_optional_ud (splice b 0 pre) cap (mlen pre) p = written b cap (pre ++ rp_tlv ud).
Proof using Hcap Hsmall.
  intros Hp E1 E3 Hv. pose proof (mlen_nonneg pre). unfold write_optional_ud, written. rewrite E1, E3, left_at by done.
  destruct ud as [ud|]; cbn [SmsPdu.is_some opt_len rp_tlv default from_option id] in *.
  2:{ rewrite app_nil_r, (proj2 (Z.leb_le _ _)) by lia. by rewrite i32_small by lia. }
  rewrite mlen_app, !mlen_cons. pose proof (mlen_nonneg ud).
  destruct (Z.ltb_spec (cap - mlen pre) (2 + mlen ud)); [by rewrite (proj2 (Z.leb_gt _ _)) by lia|].
  rewrite (proj2 (Z.leb_le _ _)) by lia. rewrite wr_at by lia.
  pose proof (write_rp_ud_at (pre ++ [SMS_RP_IEI_USER_DATA]) (p_ud p) ud) as E. rewrite mlen_app in E.
  change (mlen [SMS_RP_IEI_USER_DATA]) with 1 in E. rewrite E by (done || lia). bstep.
  rewrite <-app_assoc. cbn [app]. rewrite mlen_app, !mlen_cons, i32_small by lia. done.
Qed.

Lemma party_at pre a : mlen pre <= cap → party_ok a →
  at_off (splice b 0 pre) (mlen pre)
    (λ m, sms_rp_addr_encode (Some m) (u64 (cap - mlen pre)) (Some (party_of a))) =
  if mlen pre + mlen (party_bytes a) <=? cap then Ok (splice b 0 (pre ++ party_bytes a), mlen (party_bytes a))
  else Err SMS_E_OVERFLOW.
Proof using Hcap Hsmall.
  intros Hp Ha. pose proof (mlen_nonneg pre). rewrite left_at by done.
  assert (∀ m, cap - mlen pre <= mlen m → sms_rp_addr_encode (Some m) (cap - mlen pre) (Some (party_of a)) =
    if mlen (party_bytes a) <=? cap - mlen pre then Ok (splice m 0 (party_bytes a), mlen (party_bytes a))
    else Err SMS_E_OVERFLOW) as E by (intros; by apply party_encode).
  destruct (Z.leb_spec (mlen pre + mlen (party_bytes a)) cap).
  - apply (SmsPdu.at_cursor b cap Hcap); [done|]. rewrite E by (unfold mlen in *; rewrite length_drop; lia).
    by rewrite (proj2 (Z.leb_le _ _)) by lia.
  - unfold at_off. rewrite mlen_splice by lia.
    replace ((mlen pre <? 0) || (mlen b <? mlen pre)) with false by lia. rewrite E.
    + by rewrite (proj2 (Z.leb_gt _ _)) by lia.
    + unfold from. rewrite splice_0. unfold mlen at 3. rewrite Nat2Z.id, drop_app_length.
      unfold mlen in *. rewrite length_drop. lia.
Qed.

(** The header octets; [k] says what follows them. *)
Lemma rp_encode_head q ud (m : bool) (mti mr : Z) (k : mem → res (mem * Z)) bs :
  p_type q < 4 → p_ud_len q = opt_len ud → views (p_ud q) (default [] ud) →
  mti_of (p_type q) (p_from_ms q) = mti → 0 <= mti < 7 → p_mr q = mr →
  (2 <= cap → k (splice b 0 [mti; mr]) = written b cap ([mti; mr] ++ bs)) →
  (if SMS_RP_T_MAX <=? p_type q then Err SMS_E_INVAL else
   if p_has_ud q && negb (p_ud_len q =? 0) && match p_ud q with None => true | _ => false end
   then Err SMS_E_INVAL else
   if mti_of (p_type q) (p_from_ms q) <? 0 then Err (mti_of (p_type q) (p_from_ms q)) else
   if cap <? 2 then Err SMS_E_OVERFLOW else
   b1 ← wr b 0 (u8 (mti_of (p_type q) (p_from_ms q))); b2 ← wr b1 1 (p_mr q); k b2) =
  written b cap ([mti; mr] ++ bs).
Proof using Hcap Hsmall.
  intros Ht Hl Hv -> Hm -> Hk. unfold SMS_RP_T_MAX. rewrite (proj2 (Z.leb_gt _ _)) by lia.
  rewrite <-andb_assoc, (views_null _ ud) by done. rewrite andb_false_r. rewrite (proj2 (Z.ltb_ge mti 0)) by lia.
  destruct (Z.ltb_spec cap 2); [by rewrite written_more|]. rewrite u8_small by lia.
  rewrite wr_wrn, wrn_first by mlia. rewrite wr_wrn, wrn_next by mlia. cbn [app]. by apply Hk.
Qed.

Lemma rp_encode_data m mr oa da ud q : rpdu_ok (RpData m mr oa da ud) → p_type q = SMS_RP_T_DATA →
  p_from_ms q = m → p_mr q = mr → p_oa q = party_of oa → p_da q = party_of da → p_ud_len q = mlen ud →
  views (p_ud q) ud →
  sms_rp_encode (Some b) cap (Some q) = written b cap (rpdu_bytes (RpData m mr oa da ud)).
Proof using Hcap Hsmall.
  intros (Hmr & Hoa & Hda & Hub & Hul) Et Em Er Eo Ed El Hv. unfold sms_rp_encode. cbv zeta.
  apply (rp_encode_head q (Some ud) m); [by rewrite Et|done|done|by rewrite Et, Em; destruct m|by destruct m|done|].
  intros H2. rewrite Et, Eo, Ed. change (SMS_RP_T_DATA =? SMS_RP_T_DATA) with true. cbn match.
  set (pre := [dir_bit m; mr]). change 2 with (mlen pre). assert (mlen pre = 2) as Hpre by done.
  rewrite party_at by (done || lia). rewrite <-(mlen_app pre (party_bytes oa)), (app_assoc pre).
  clearbody pre. set (pre1 := pre ++ party_bytes oa). destruct (Z.leb_spec (mlen pre1) cap); [|by rewrite written_more].
  bstep. replace (mlen pre + mlen (party_bytes oa)) with (mlen pre1) by (unfold pre1; by rewrite mlen_app).
  rewrite party_at by done. rewrite <-(mlen_app pre1 (party_bytes da)), (app_assoc pre1).
  set (pre2 := pre1 ++ party_bytes da). destruct (Z.leb_spec (mlen pre2) cap); [|by rewrite written_more].
  bstep. replace (mlen pre1 + mlen (party_bytes da)) with (mlen pre2) by (unfold pre2; by rewrite mlen_app).
  rewrite left_at by done. pose proof (mlen_nonneg ud). pose proof (mlen_nonneg pre2). unfold written.
  rewrite mlen_app, mlen_cons, El.
  destruct (Z.ltb_spec (cap - mlen pre2) (1 + mlen ud)); [by rewrite (proj2 (Z.leb_gt _ _)) by lia|].
  rewrite (proj2 (Z.leb_le _ _)) by lia. rewrite write_rp_ud_at by (done || lia). bstep.
  by rewrite mlen_app, mlen_cons, i32_small by lia.
Qed.

Lemma rp_encode_ack m mr ud q : p_type q = SMS_RP_T_ACK → p_from_ms q = m → p_mr q = mr →
  p_has_ud q = SmsPdu.is_some ud → p_ud_len q = opt_len ud → views (p_ud q) (default [] ud) →
  sms_rp_encode (Some b) cap (Some q) = written b cap (rpdu_bytes (RpAck m mr ud)).
Proof using Hcap Hsmall.
  intros Et Em Er Eh El Hv. unfold sms_rp_encode. cbv zeta.
  apply (rp_encode_head q ud m); [by rewrite Et|done|done|by rewrite Et, Em; destruct m|by destruct m|done|].
  intros H2. rewrite Et. change (SMS_RP_T_ACK =? SMS_RP_T_DATA) with false.
  change (SMS_RP_T_ACK =? SMS_RP_T_ERROR) with false. change (SMS_RP_T_ACK =? SMS_RP_T_ACK) with true. cbn match.
  by apply (write_optional_ud_at [2 + dir_bit m; mr]).
Qed.

Lemma rp_encode_error m mr cause diag ud q : 0 <= cause < 128 → p_type q = SMS_RP_T_ERROR → p_from_ms q = m →
  p_mr q = mr → p_cause q = cause → p_has_cause_diag q = SmsPdu.is_some diag → p_cause_diag q = default 0 diag →
  p_has_ud q = SmsPdu.is_some ud → p_ud_len q = opt_len ud → views (p_ud q) (default [] ud) →
  sms_rp_encode (Some b) cap (Some q) = written b cap (rpdu_bytes (RpError m mr cause diag ud)).
Proof using Hcap Hsmall.
  intros Hc Et Em Er Ec Ehd Ed Eh El Hv. unfold sms_rp_encode. cbv zeta.
  apply (rp_encode_head q ud m); [by rewrite Et|done|done|by rewrite Et, Em; destruct m|by destruct m|done|].
  intros H2. rewrite Et. change (SMS_RP_T_ERROR =? SMS_RP_T_DATA) with false.
  change (SMS_RP_T_ERROR =? SMS_RP_T_ERROR) with true. cbn match. rewrite Ec, Ehd, Ed.
  rewrite (land_low cause 7) by done. rewrite Z.mod_small, (u8_small cause) by (change (2 ^ 7) with 128; lia).
  pose proof (left_at [4 + dir_bit m; mr]) as E. change (mlen [4 + dir_bit m; mr]) with 2 in E. rewrite E by lia.
  destruct diag as [d|]; cbn [SmsPdu.is_some default from_option id]; rewrite (app_assoc [4 + dir_bit m; mr]).
  - destruct (Z.ltb_spec (cap - 2) (1 + 2)); [rewrite written_more; [done|mlia]|].
    do 3 rewrite wr_wrn, wrn_next by mlia. bstep. cbn [app].
    apply (write_optional_ud_at [4 + dir_bit m; mr; 2; cause; d]); [mlia|done..].
  - destruct (Z.ltb_spec (cap - 2) (1 + 1)); [rewrite written_more; [done|mlia]|].
    do 2 rewrite wr_wrn, wrn_next by mlia. bstep. cbn [app].
    apply (write_optional_ud_at [4 + dir_bit m; mr; 1; cause]); [mlia|done..].
Qed.

Lemma rp_encode_bytes p : rpdu_ok p →
  sms_rp_encode (Some b) cap (Some (rpdu_of p)) = written b cap (rpdu_bytes p).
Proof using Hcap Hsmall.
  destruct p as [m mr oa da ud|m mr ud|m mr cause diag ud|mr]; intros Hok.
  - apply rp_encode_data; try done. apply views_ptr.
  - apply rp_encode_ack; try done. destruct ud; [apply views_ptr|by left].
  - apply rp_encode_error; try done; [apply Hok|]. destruct ud; [apply views_ptr|by left].
  - unfold sms_rp_encode, written. cbn [rpdu_of p_type p_has_ud p_from_ms p_mr]. change (mlen (rpdu_bytes _)) with 2.
    change (mti_of SMS_RP_T_SMMA true) with 6. change (SMS_RP_T_MAX <=? SMS_RP_T_SMMA) with false. change (6 <? 0) with false.
    cbn match. cbn [andb]. destruct (Z.ltb_spec cap 2), (Z.leb_spec 2 cap); try lia; [done|].
    rewrite wr_wrn, wrn_first by mlia. by rewrite wr_wrn, wrn_next by mlia.
Qed.
End writing.

(** *** Decoding *)

Lemma holds_from b off bs : holds b off bs → holds (from b off) 0 bs.
Proof.
  intros (Hp & Hl & Hs). pose proof (mlen_nonneg bs). unfold from. split; [lia|]. rewrite mlen_drop by lia.
  split; [lia|]. rewrite <-Hs at 2. unfold slice. by rewrite drop_0.
Qed.

Section reading.
Context (b : mem) (n : Z) (Hn : 0 <= n <= mlen b) (Hsmall : n < 268435456).

Lemma read_rp_ud_at off ud : holds b off (mlen ud :: ud) → off + 1 + mlen ud <= n → mlen ud <= 255 →
  ∃ up, read_rp_ud b n off = Ok (up, mlen ud, off + 1 + mlen ud) ∧ views up ud ∧
    SmsPdu.cut (mlen ud) up = SmsPdu.ptr ud.
Proof using Hn Hsmall.
  intros Hh Hl H255. pose proof (holds_pos _ _ _ Hh) as [Hp _]. pose proof (mlen_nonneg ud).
  apply holds_cons in Hh as [E Hh]. unfold read_rp_ud. rewrite (proj2 (Z.leb_gt n off)) by lia. rewrite E. bstep.
  cbv zeta. rewrite u64_small by lia. rewrite (proj2 (Z.ltb_ge _ (mlen ud))) by lia. rewrite u8_small by lia.
  eexists. split; [done|]. destruct ud as [|x ud]; [split; [by left|done]|].
  assert (mlen (x :: ud) ≠ 0) as Hu by (rewrite mlen_cons; pose proof (mlen_nonneg ud); lia).
  rewrite (proj2 (Z.eqb_neq _ _) Hu). cbn [negb]. apply holds_from in Hh. split; [right; by eexists|].
  cbn [SmsPdu.cut fmap option_fmap option_map SmsPdu.ptr]. unfold mlen. rewrite Nat2Z.id.
  f_equal. by apply SmsPdu.holds_take.
Qed.

Lemma read_optional_ud_at off ud : holds b off (rp_tlv ud) → off + mlen (rp_tlv ud) <= n →
  (ud = None → off = n) → match ud with Some ud => rp_ud_ok ud | None => True end →
  ∃ up, read_optional_ud b n off = Ok (SmsPdu.is_some ud, up, opt_len ud, off + mlen (rp_tlv ud)) ∧
    views up (default [] ud) ∧ SmsPdu.cut (opt_len ud) up = opt_ptr ud.
Proof using Hn Hsmall.
  intros Hh Hl Hnone Hok. unfold read_optional_ud. destruct ud as [ud|]; cbn [rp_tlv] in *.
  - pose proof (mlen_nonneg ud). rewrite !mlen_cons in *. rewrite (proj2 (Z.ltb_lt off n)) by lia.
    apply holds_cons in Hh as [E Hh]. rewrite E. bstep. rewrite Z.eqb_refl. cbn [negb].
    destruct (read_rp_ud_at (off + 1) ud) as (up & -> & Hv & Hc); [done|lia|apply Hok|]. bstep.
    exists up. split; [|done]. by replace (off + 1 + 1 + mlen ud) with (off + (1 + (1 + mlen ud))) by lia.
  - rewrite Hnone by done. rewrite Z.ltb_irrefl, mlen_nil, Z.add_0_r. exists None. split; [done|]. split; [by left|done].
Qed.

(** What the decoder makes of an RPDU at the start of the buffer. *)
Definition reads_as (p : rpdu) (d : res (sms_rp_pdu * Z)) : Prop :=
  ∃ q, d = Ok (q, mlen (rpdu_bytes p)) ∧ cut_rpdu q = rpdu_of p ∧
    match p with
    | RpData _ _ _ _ ud => views (p_ud q) ud
    | RpAck _ _ ud | RpError _ _ _ _ ud => views (p_ud q) (default [] ud)
    | RpSmma _ => True
    end.

Lemma dir_matches (m : bool) dir : Z.land dir 1 = dir_bit m → eqb m (Z.land dir 1 =? SMS_DIR_MS_TO_SC) = true.
Proof using. intros ->. by destruct m. Qed.

Lemma rp_decode_data m mr oa da ud dir : rpdu_ok (RpData m mr oa da ud) → Z.land dir 1 = dir_bit m →
  holds b 0 (rpdu_bytes (RpData m mr oa da ud)) → mlen (rpdu_bytes (RpData m mr oa da ud)) <= n →
  reads_as (RpData m mr oa da ud) (sms_rp_decode (Some b) n dir).
Proof using Hn Hsmall.
  intros (Hmr & Hoa & Hda & Hub & Hul) Hdir Hh Hl. unfold reads_as, sms_rp_decode. cbn [rpdu_bytes] in *.
  rewrite !mlen_app in *. change (mlen [dir_bit m; mr]) with 2 in *. rewrite mlen_cons in *.
  pose proof (mlen_party_bytes _ Hoa). pose proof (mlen_party_bytes _ Hda). pose proof (mlen_nonneg ud).
  rewrite (proj2 (Z.ltb_ge n 2)) by lia. cbn [app] in Hh. apply holds_cons in Hh as [-> Hh].
  apply holds_cons in Hh as [E Hh]. change (0 + 1) with 1 in E. rewrite E. bstep. clear E.
  change (0 + 1 + 1) with 2 in Hh. apply holds_app in Hh as [Ho Hh]. apply holds_app in Hh as [Hd Hu]. cbv zeta.
  replace (u8 (Z.land (dir_bit m) 7)) with (dir_bit m) by (by destruct m).
  replace (rp_kind (dir_bit m)) with (Ok (SMS_RP_T_DATA, m)) by (by destruct m). bstep.
  rewrite dir_matches by done. cbn [negb]. change (SMS_RP_T_DATA =? SMS_RP_T_DATA) with true. cbn match.
  rewrite (u64_small (n - 2)) by lia. rewrite (party_decode _ _ oa) by (done || lia || by apply holds_from). bstep.
  rewrite (u64_small (n - (2 + mlen (party_bytes oa)))) by lia.
  rewrite (party_decode _ _ da) by (done || lia || by apply holds_from). bstep.
  destruct (read_rp_ud_at _ ud Hu) as (up & -> & Hv & Hc); [lia|done|]. bstep.
  rewrite i32_small by lia. eexists. split; [do 2 f_equal; lia|]. split; [|done].
  unfold cut_rpdu. rp_fields. by rewrite Hc.
Qed.

Lemma rp_decode_ack m mr ud dir : rpdu_ok (RpAck m mr ud) → Z.land dir 1 = dir_bit m →
  holds b 0 (rpdu_bytes (RpAck m mr ud)) → mlen (rpdu_bytes (RpAck m mr ud)) <= n →
  (ud = None → n = 2) → reads_as (RpAck m mr ud) (sms_rp_decode (Some b) n dir).
Proof using Hn Hsmall.
  intros (Hmr & Hok) Hdir Hh Hl Hnone. unfold reads_as, sms_rp_decode. cbn [rpdu_bytes] in *.
  rewrite !mlen_app in *. change (mlen [2 + dir_bit m; mr]) with 2 in *. pose proof (mlen_nonneg (rp_tlv ud)).
  rewrite (proj2 (Z.ltb_ge n 2)) by lia. cbn [app] in Hh. apply holds_cons in Hh as [-> Hh].
  apply holds_cons in Hh as [E Hh]. change (0 + 1) with 1 in E. rewrite E. bstep. clear E.
  change (0 + 1 + 1) with 2 in Hh. cbv zeta.
  replace (u8 (Z.land (2 + dir_bit m) 7)) with (2 + dir_bit m) by (by destruct m).
  replace (rp_kind (2 + dir_bit m)) with (Ok (SMS_RP_T_ACK, m)) by (by destruct m). bstep.
  rewrite dir_matches by done. cbn [negb]. change (SMS_RP_T_ACK =? SMS_RP_T_DATA) with false.
  change (SMS_RP_T_ACK =? SMS_RP_T_ERROR) with false. change (SMS_RP_T_ACK =? SMS_RP_T_ACK) with true. cbn match.
  destruct (read_optional_ud_at 2 ud Hh) as (up & -> & Hv & Hc); [lia|intros; symmetry; auto|done|]. bstep.
  rewrite i32_small by lia. eexists. split; [done|]. split; [|done].
  unfold cut_rpdu. rp_fields. by rewrite Hc.
Qed.

Lemma rp_decode_error m mr cause diag ud dir : rpdu_ok (RpError m mr cause diag ud) → Z.land dir 1 = dir_bit m →
  holds b 0 (rpdu_bytes (RpError m mr cause diag ud)) → mlen (rpdu_bytes (RpError m mr cause diag ud)) <= n →
  (ud = None → n = mlen (rpdu_bytes (RpError m mr cause diag ud))) →
  reads_as (RpError m mr cause diag ud) (sms_rp_decode (Some b) n dir).
Proof using Hn Hsmall.
  intros (Hmr & Hcause & Hdg & Hok) Hdir Hh Hl Hnone. unfold reads_as, sms_rp_decode. cbn [rpdu_bytes] in *.
  rewrite !mlen_app in *. change (mlen [4 + dir_bit m; mr]) with 2 in *. pose proof (mlen_nonneg (rp_tlv ud)).
  assert (∃ cl rest, match diag with Some d => [2; cause; d] | None => [1; cause] end = cl :: cause :: rest ∧
    cl = 1 + mlen rest ∧ 1 <= cl <= 2 ∧ rest = SmsPdu.opt_bytes diag) as (cl & rest & E & Hcl & Hcl2 & Hr).
  { destruct diag as [d|]; do 2 eexists; (split; [done|]); by rewrite ?mlen_cons, mlen_nil. }
  rewrite E in *. rewrite !mlen_cons in *.
  rewrite (proj2 (Z.ltb_ge n 2)) by lia. cbn [app] in Hh. apply holds_cons in Hh as [-> Hh].
  apply holds_cons in Hh as [E1 Hh]. change (0 + 1) with 1 in E1. rewrite E1. bstep. clear E1.
  change (0 + 1 + 1) with 2 in Hh. cbv zeta.
  replace (u8 (Z.land (4 + dir_bit m) 7)) with (4 + dir_bit m) by (by destruct m).
  replace (rp_kind (4 + dir_bit m)) with (Ok (SMS_RP_T_ERROR, m)) by (by destruct m). bstep.
  rewrite dir_matches by done. cbn [negb]. change (SMS_RP_T_ERROR =? SMS_RP_T_DATA) with false.
  change (SMS_RP_T_ERROR =? SMS_RP_T_ERROR) with true. cbn match. rewrite (proj2 (Z.leb_gt n 2)) by lia.
  apply holds_cons in Hh as [-> Hh]. bstep. rewrite (proj2 (Z.ltb_ge cl 1)) by lia.
  rewrite u64_small by lia. rewrite (proj2 (Z.ltb_ge (n - (2 + 1)) cl)) by lia.
  apply holds_cons in Hh as [-> Hh]. bstep. apply holds_app in Hh as [Hd Hu].
  replace (2 + 1 + 1 + mlen rest) with (2 + 1 + cl) in Hu by lia.
  assert ((if 2 <=? cl then d ← rd b (2 + 1 + 1); Ok (true, d) else Ok (false, 0)) =
    Ok (SmsPdu.is_some diag, default 0 diag)) as ->.
  { subst rest. destruct diag as [d|]; cbn [SmsPdu.opt_bytes] in *; rewrite ?mlen_cons, ?mlen_nil in *.
    - rewrite (proj2 (Z.leb_le 2 cl)) by lia. by apply holds_cons in Hd as [-> _].
    - by rewrite (proj2 (Z.leb_gt 2 cl)) by lia. }
  bstep. destruct (read_optional_ud_at (2 + 1 + cl) ud Hu) as (up & -> & Hv & Hc); [lia|intros Hx; rewrite (Hnone Hx); subst ud; change (mlen (rp_tlv None)) with 0; lia|done|].
  bstep. rewrite i32_small by lia. eexists. split; [do 2 f_equal; lia|]. split; [|done].
  unfold cut_rpdu. rp_fields.
  rewrite Hc, (land_low cause 7), Z.mod_small, u8_small by (done || (change (2 ^ 7) with 128; lia)). done.
Qed.

Lemma rp_decode_bytes p dir : rpdu_ok p → Z.land dir 1 = rp_dir p → holds b 0 (rpdu_bytes p) →
  mlen (rpdu_bytes p) <= n → (delimited p = false → n = mlen (rpdu_bytes p)) →
  reads_as p (sms_rp_decode (Some b) n dir).
Proof using Hn Hsmall.
  intros Hok Hdir Hh Hl Hd. destruct p as [m mr oa da ud|m mr ud|m mr cause diag ud|mr].
  - by apply rp_decode_data.
  - apply rp_decode_ack; try done. intros ->. by apply Hd.
  - apply rp_decode_error; try done. intros ->. by apply Hd.
  - unfold reads_as, sms_rp_decode. change (mlen (rpdu_bytes (RpSmma mr))) with 2 in *. cbn [rpdu_bytes] in Hh.
    rewrite (proj2 (Z.ltb_ge n 2)) by lia. apply holds_cons in Hh as [-> Hh]. apply holds_cons in Hh as [E _].
    change (0 + 1) with 1 in E. rewrite E. bstep. change (u8 (Z.land 6 7)) with 6. cbn [rp_dir] in Hdir.
    change (rp_kind 6) with (Ok (SMS_RP_T_SMMA, true)). bstep. rewrite Hdir. by eexists.
Qed.
End reading.

Lemma rp_wrong_dir p b n dir : holds b 0 (rpdu_bytes p) → 2 <= n → Z.land dir 1 ≠ rp_dir p →
  sms_rp_decode (Some b) n dir = Err SMS_E_MTI.
Proof.
  intros Hh Hn Hd. unfold sms_rp_decode. rewrite (proj2 (Z.ltb_ge n 2)) by lia.
  assert (0 <= Z.land dir 1 < 2) as Hr by (rewrite (land_low _ 1) by done; apply Z.mod_pos_bound; lia).
  assert (∃ o mr rest ty m, rpdu_bytes p = o :: mr :: rest ∧ u8 (Z.land o 7) = o ∧ rp_kind o = Ok (ty, m) ∧
    rp_dir p = dir_bit m) as (o & mr & rest & ty & m & E & E1 & E2 & E3).
  { destruct p as [[] mr oa da ud|[] mr ud|[] mr cause diag ud|mr]; cbn [rpdu_bytes app dir_bit rp_dir];
      do 5 eexists; (split; [done|]); (split; [done|]); (split; [done|]); done || exact (eq_refl (dir_bit true)). }
  rewrite E in Hh. apply holds_cons in Hh as [-> Hh]. apply holds_cons in Hh as [Er _].
  change (0 + 1) with 1 in Er. rewrite Er. bstep. cbv zeta. rewrite E1, E2. bstep.
  rewrite E3 in Hd. unfold SMS_DIR_MS_TO_SC. destruct m; cbn [dir_bit] in Hd.
  - by rewrite (proj2 (Z.eqb_neq _ 0)) by lia.
  - by rewrite (proj2 (Z.eqb_eq _ 0)) by lia.
Qed.

Lemma rpdu_bytes_spec p : rpdu_ok p → bytes_ok (rpdu_bytes p) ∧ 2 <= mlen (rpdu_bytes p) <= 282.
Proof.
  assert (∀ ud, rp_ud_ok ud → bytes_ok (mlen ud :: ud)) as Hu.
  { intros ud [? ?]. pose proof (mlen_nonneg ud). apply bytes_ok_cons. split; [lia|done]. }
  assert (∀ m k, 0 <= k <= 4 → 0 <= k + dir_bit m < 256) as Hm by (intros [] k; cbn; lia).
  assert (∀ ud, match ud with Some ud => rp_ud_ok ud | None => True end →
    bytes_ok (rp_tlv ud) ∧ 0 <= mlen (rp_tlv ud) <= 257) as Ht.
  { intros [ud|]; cbn [rp_tlv]; [|intros _; split; [constructor|by vm_compute]].
    intros Hok. pose proof (Hu ud Hok). destruct Hok as [? ?]. pose proof (mlen_nonneg ud). rewrite !mlen_cons.
    split; [apply bytes_ok_cons; split; [unfold SMS_RP_IEI_USER_DATA; lia|done]|lia]. }
  destruct p as [m mr oa da ud|m mr ud|m mr cause diag ud|mr]; unfold rpdu_ok, SmsPdu.octet; cbn [rpdu_bytes].
  - intros (Hmr & Ho & Hd & Hok). pose proof (mlen_party_bytes _ Ho). pose proof (mlen_party_bytes _ Hd).
    pose proof (mlen_nonneg ud). destruct Hok as [? ?]. pose proof (Hm m 0 ltac:(lia)). split; [|mlia].
    rewrite !bytes_ok_app. split_and!; [by bytes_tac|by apply party_bytes_ok|by apply party_bytes_ok|by apply Hu].
  - intros (Hmr & [? ?]%Ht). split; [|mlia]. rewrite bytes_ok_app. pose proof (Hm m 2 ltac:(lia)). split; [by bytes_tac|done].
  - intros (Hmr & Hc & Hd & [? ?]%Ht). pose proof (Hm m 4 ltac:(lia)). rewrite !bytes_ok_app.
    destruct diag as [d|]; (split; [|mlia]); (split_and!; [by bytes_tac| |done]);
      unfold SmsPdu.octet_opt, SmsPdu.octet in *; by bytes_tac.
  - intros Hmr. split; [by bytes_tac|by vm_compute].
Qed.

Lemma encode_result p b cap : rpdu_ok p → 0 <= cap <= mlen b → cap < 268435456 → mlen (rpdu_bytes p) <= cap →
  let b' := splice b 0 (rpdu_bytes p) in
  sms_rp_encode (Some b) cap (Some (rpdu_of p)) = Ok (b', mlen (rpdu_bytes p)) ∧ mlen b' = mlen b ∧
  holds b' 0 (rpdu_bytes p) ∧ ∀ j, mlen (rpdu_bytes p) <= j < mlen b → get b' j = get b j.
Proof.
  intros Hok Hc Hs Hl. pose proof (mlen_nonneg (rpdu_bytes p)). cbv zeta. rewrite rp_encode_bytes by done.
  unfold written. rewrite (proj2 (Z.leb_le _ _)) by lia. split; [done|]. split; [rewrite mlen_splice; lia|].
  split; [apply holds_splice; lia|]. intros j Hj. rewrite splice_0, get_app_ge by lia.
  replace (length (rpdu_bytes p)) with (Z.to_nat (mlen (rpdu_bytes p))) by (unfold mlen; lia).
  rewrite get_drop by lia. f_equal. lia.
Qed.

(** Relay PDUs survive the wire.  Every well-formed RPDU of the four types has at
    most 282 octets; the encoder writes them into a buffer that holds them, leaving
    the rest alone, and otherwise reports [SMS_E_OVERFLOW].  Decoding them, told the
    direction, consumes them all and yields the RPDU, its user data a view on the
    octets written, also when other octets follow an RPDU that shows where it ends;
    told the other direction it reports [SMS_E_MTI]. *)
Theorem sms_rp_roundtrip p b cap :
  rpdu_ok p → 0 <= cap <= mlen b → cap < 268435456 →
  let k := mlen (rpdu_bytes p) in
  k <= 282 ∧
  (cap < k → sms_rp_encode (Some b) cap (Some (rpdu_of p)) = Err SMS_E_OVERFLOW) ∧
  (k <= cap → ∃ b', sms_rp_encode (Some b) cap (Some (rpdu_of p)) = Ok (b', k) ∧
    mlen b' = mlen b ∧ (∀ j, k <= j < mlen b → get b' j = get b j) ∧
    ∀ n dir, k <= n <= mlen b → n < 268435456 → (delimited p = false → n = k) →
      if Z.land dir 1 =? rp_dir p
      then ∃ q, sms_rp_decode (Some b') n dir = Ok (q, k) ∧ cut_rpdu q = rpdu_of p
      else sms_rp_decode (Some b') n dir = Err SMS_E_MTI).
Proof.
  intros Hok Hc Hs k. destruct (rpdu_bytes_spec p Hok) as [_ Hk]. fold k in Hk. split_and!; [lia| |].
  { intros Hlt. rewrite rp_encode_bytes by done. unfold written. by rewrite (proj2 (Z.leb_gt _ _)) by lia. }
  intros Hle. destruct (encode_result p b cap Hok Hc Hs Hle) as (E & Hm & Hh & Hrest). eexists. split; [exact E|].
  split; [exact Hm|]. split; [exact Hrest|]. intros n dir Hn Hsn Hd. rewrite <-Hm in Hn.
  destruct (Z.eqb_spec (Z.land dir 1) (rp_dir p)).
  - destruct (rp_decode_bytes (splice b 0 (rpdu_bytes p)) n ltac:(lia) Hsn p dir) as (q & Eq & Ec & _); try done; [lia|].
    exists q. by split.
  - apply (rp_wrong_dir p); [done|lia|done].
Qed.

Definition rp_sample : rpdu := RpData true 7 Absent (Party 1 1 [52; 57; 49; 55; 49]) [1; 2; 3].
Lemma rp_sample_ok : rpdu_ok rp_sample.
Proof.
  unfold rp_sample, rpdu_ok, SmsPdu.octet, party_ok, rp_ud_ok, digit.
  split_and!; try done; try (cbn; lia); repeat constructor; (lia || set_solver).
Qed.

Lemma sms_rp_roundtrip_witness :
  ∃ b' q, sms_rp_encode (Some (zeros 30)) 25 (Some (rpdu_of rp_sample)) = Ok (b', 12) ∧
    sms_rp_decode (Some b') 20 0 = Ok (q, 12) ∧ cut_rpdu q = rpdu_of rp_sample.
Proof.
  destruct (sms_rp_roundtrip rp_sample (zeros 30) 25 rp_sample_ok ltac:(by vm_compute) ltac:(lia)) as (_ & _ & H).
  destruct (H ltac:(by vm_compute)) as (b' & H1 & _ & _ & H2).
  destruct (H2 20 0 ltac:(by vm_compute) ltac:(lia) ltac:(done)) as (q & H3 & H4).
  exists b', q. split; [exact H1|]. split; [exact H3|exact H4].
Defined.

(** ** Decoding arbitrary octets *)

Lemma rp_digits_loop_safe b len : len < mlen b → ∀ fuel i k digits,
  0 <= i → len + 1 - i < Z.of_nat fuel → 0 <= k <= 20 → mlen digits = 21 → bytes_ok digits → 0 < Z.of_nat fuel →
  rp_digits_loop fuel b i len k digits = Err SMS_E_LENGTH ∨
  ∃ d k', rp_digits_loop fuel b i len k digits = Ok (d, k') ∧ 0 <= k' <= 20 ∧ mlen d = 21 ∧ bytes_ok d.
Proof.
  intros Hb. induction fuel as [|fuel IH]; intros i k digits Hi Hf Hk Hl Hd Hpos; [lia|]. cbn [rp_digits_loop].
  destruct (Z.leb_spec i len); cbn [negb]; [|by right; do 2 eexists].
  rewrite rd_Ok by lia. bstep. cbv zeta. destruct (_ =? 0); [by right; do 2 eexists|]. unfold SMS_ADDR_MAX_DIGITS.
  destruct (Z.leb_spec 20 k); [by left|]. rewrite wr_wrn, wrn_first by mlia.
  assert (∀ d k x, bytes_ok d → bytes_ok (splice d k [sms_bcd_char x])) as Hbo.
  { intros d k' x Hx. apply bytes_ok_splice; [done|]. apply bytes_ok_cons. split; [apply bcd_char_range|constructor]. }
  destruct (sms_bcd_char (u8 _) =? 0).
  { right. do 2 eexists. split; [done|]. split; [lia|]. split; [by rewrite mlen_splice by mlia|by apply Hbo]. }
  destruct (Z.leb_spec 20 (k + 1)); [by left|]. rewrite wr_wrn, wrn_first by (rewrite ?mlen_splice; mlia).
  apply IH; try lia; [rewrite !mlen_splice; rewrite ?mlen_splice; mlia|by apply Hbo, Hbo].
Qed.

Definition rp_addr_sane (a : sms_rp_addr) : Prop :=
  0 <= ra_ton a <= 7 ∧ 0 <= ra_npi a <= 15 ∧ mlen (ra_digits a) = 21 ∧ c_string (ra_digits a) ∧
  (ra_present a = false → a = zero_rp_addr).

Lemma zero_rp_sane : rp_addr_sane zero_rp_addr.
Proof.
  unfold rp_addr_sane. cbn [zero_rp_addr ra_ton ra_npi]. split_and!; try done. split; [apply bytes_ok_zeros|].
  exists 0. by vm_compute.
Qed.

Lemma rp_addr_safe b n : bytes_ok b → 0 <= n <= mlen b →
  sms_rp_addr_decode (Some b) n = Err SMS_E_SHORT ∨ sms_rp_addr_decode (Some b) n = Err SMS_E_LENGTH ∨
  ∃ a k, sms_rp_addr_decode (Some b) n = Ok (a, k) ∧ 1 <= k <= n ∧ k <= 12 ∧ rp_addr_sane a.
Proof.
  intros Hb Hn. unfold sms_rp_addr_decode. destruct (Z.ltb_spec n 1); [by left|]. rewrite (rd_Ok b 0) by lia. bstep.
  pose proof (get_range b 0 Hb). destruct (Z.eqb_spec (get b 0) 0).
  { right; right. do 2 eexists. split; [done|]. split; [lia|]. split; [lia|apply zero_rp_sane]. }
  unfold SMS_RP_ADDR_MAX. destruct (Z.ltb_spec (12 - 1) (get b 0)); [by right; left|].
  destruct (Z.ltb_spec n (1 + get b 0)); [by left|]. rewrite (rd_Ok b 1) by lia. bstep.
  destruct (rp_digits_loop_safe b (get b 0) ltac:(lia) (S (Z.to_nat (get b 0))) 2 0 (ra_digits zero_rp_addr))
    as [->|(d & k & -> & Hk & Hm & Hd)]; try lia; try done; [apply bytes_ok_zeros|by right; left|].
  right; right. bstep. rewrite wr_wrn, wrn_first by mlia. do 2 eexists. split; [done|].
  rewrite i32_small by lia. split; [lia|]. split; [lia|].
  rewrite (land_low _ 3), (land_low _ 4) by done.
  pose proof (Z.mod_pos_bound (Z.shiftr (get b 1) 4) (2 ^ 3) ltac:(lia)).
  pose proof (Z.mod_pos_bound (get b 1) (2 ^ 4) ltac:(lia)).
  rewrite !u8_small by lia. unfold rp_addr_sane. cbn [ra_ton ra_npi ra_digits ra_present].
  split_and!; try lia; try done; [by rewrite mlen_splice by mlia|]. apply c_string_end; [done|lia].
Qed.

Definition rp_sane (b : mem) (n : Z) (q : sms_rp_pdu) : Prop :=
  rp_addr_sane (p_oa q) ∧ rp_addr_sane (p_da q) ∧ 0 <= p_cause q < 128 ∧ SmsPdu.octet (p_mr q) ∧
  SmsPdu.octet (p_cause_diag q) ∧ SmsPdu.octet (p_ud_len q) ∧ SmsPdu.view_in b n (p_ud_len q) (p_ud q) ∧
  mti_of (p_type q) (p_from_ms q) = p_mti q.
Definition rp_fine (b : mem) (n dir : Z) (d : res (sms_rp_pdu * Z)) : Prop :=
  (∃ e, d = Err e ∧ e ∈ [SMS_E_SHORT; SMS_E_LENGTH; SMS_E_MTI]) ∨
  ∃ q k, d = Ok (q, k) ∧ 2 <= k <= n ∧ rp_sane b n q ∧ p_from_ms q = (Z.land dir 1 =? SMS_DIR_MS_TO_SC).

Section safety.
Context (b : mem) (n : Z) (Hb : bytes_ok b) (Hn : 0 <= n <= mlen b) (Hsmall : n < 2147483648).

Lemma rp_ud_safe off : 0 <= off →
  read_rp_ud b n off = Err SMS_E_SHORT ∨
  ∃ up len off', read_rp_ud b n off = Ok (up, len, off') ∧ off < off' <= n ∧ SmsPdu.octet len ∧
    SmsPdu.view_in b n len up.
Proof using All.
  intros Ho. unfold read_rp_ud. destruct (Z.leb_spec n off); [by left|]. rewrite rd_Ok by lia. bstep. cbv zeta.
  pose proof (get_range b off Hb). rewrite u64_small by lia.
  destruct (Z.ltb_spec (n - (off + 1)) (get b off)); [by left|]. right. do 3 eexists. split; [done|].
  rewrite u8_small by lia. split; [lia|]. split; [done|]. unfold SmsPdu.view_in.
  destruct (Z.eqb_spec (get b off) 0); cbn [negb]; [done|]. split; [lia|]. exists (off + 1). split; [lia|]. split; [lia|done].
Qed.

Lemma rp_optional_safe off : 0 <= off <= n →
  read_optional_ud b n off = Err SMS_E_SHORT ∨ read_optional_ud b n off = Err SMS_E_LENGTH ∨
  ∃ has up len off', read_optional_ud b n off = Ok (has, up, len, off') ∧ off <= off' <= n ∧ SmsPdu.octet len ∧
    SmsPdu.view_in b n len up.
Proof using All.
  intros Ho. unfold read_optional_ud. destruct (Z.ltb_spec off n).
  - rewrite rd_Ok by lia. bstep. destruct (negb _); [by right; left|].
    destruct (rp_ud_safe (off + 1)) as [->|(up & len & off' & -> & ? & ? & ?)]; [lia|by left|].
    right; right. bstep. do 4 eexists. split; [done|]. split; [lia|done].
  - right; right. do 4 eexists. split; [done|]. split; [lia|]. split; [unfold SmsPdu.octet; lia|done].
Qed.

Lemma rp_addr_safe_at off : 0 <= off <= n →
  sms_rp_addr_decode (Some (from b off)) (u64 (n - off)) = Err SMS_E_SHORT ∨
  sms_rp_addr_decode (Some (from b off)) (u64 (n - off)) = Err SMS_E_LENGTH ∨
  ∃ a k, sms_rp_addr_decode (Some (from b off)) (u64 (n - off)) = Ok (a, k) ∧ 1 <= k <= n - off ∧ rp_addr_sane a.
Proof using All.
  intros Ho. rewrite u64_small by lia.
  destruct (rp_addr_safe (from b off) (n - off)) as [?|[?|(a & k & ? & ? & ? & ?)]]; [by apply Forall_drop| |by left|by right; left|].
  - unfold from. rewrite mlen_drop by lia. lia.
  - right; right. exists a, k. done.
Qed.
End safety.

Lemma rp_kind_spec mti : rp_kind mti = Err SMS_E_MTI ∨ ∃ ty m, rp_kind mti = Ok (ty, m) ∧ mti_of ty m = mti.
Proof.
  unfold rp_kind.
  repeat (case_match; [right; do 2 eexists; split; [done|by apply Z.eqb_eq in H as ->]|clear H]). by left.
Qed.

Ltac refused := bstep; left; eexists; split; [done|set_solver].

Lemma rp_decode_fine b n dir :
  bytes_ok b → 0 <= n <= mlen b → n < 2147483648 →
  rp_fine b n dir (sms_rp_decode (Some b) n dir).
Proof.
  intros Hb Hn Hs. unfold sms_rp_decode. destruct (Z.ltb_spec n 2); [refused|].
  rewrite (rd_Ok b 0), (rd_Ok b 1) by lia. bstep. cbv zeta. pose proof (get_range b 1 Hb) as Hmr.
  destruct (rp_kind_spec (u8 (Z.land (get b 0) 7))) as [->|(ty & m & -> & Hm)]; [refused|]. bstep.
  destruct (eqb m (Z.land dir 1 =? SMS_DIR_MS_TO_SC)) eqn:Ed; cbn [negb]; [|refused]. apply eqb_prop in Ed.
  set (mti := u8 (Z.land (get b 0) 7)) in *. clearbody mti.
  assert (∀ oa da cause hd diag hu up len off, rp_addr_sane oa → rp_addr_sane da → 0 <= cause < 128 →
    SmsPdu.octet diag → SmsPdu.octet len → SmsPdu.view_in b n len up → 2 <= off <= n →
    rp_fine b n dir (Ok (RpPdu mti ty m (get b 1) oa da cause hd diag hu up len, i32 off))) as Hok.
  { intros. right. do 2 eexists. split; [done|]. rewrite i32_small by lia. by split. }
  pose proof zero_rp_sane as Hz. assert (SmsPdu.octet 0) as H0 by (unfold SmsPdu.octet; lia).
  destruct (ty =? SMS_RP_T_DATA).
  { destruct (rp_addr_safe_at b n Hb Hn Hs 2) as [->|[->|(oa & k & -> & Hk & Ho)]]; [lia|refused|refused|]. bstep.
    destruct (rp_addr_safe_at b n Hb Hn Hs (2 + k)) as [->|[->|(da & k2 & -> & Hk2 & Hda)]]; [lia|refused|refused|]. bstep.
    destruct (rp_ud_safe b n Hb Hn Hs (2 + k + k2)) as [->|(up & len & off & -> & ? & ? & ?)]; [lia|refused|]. bstep.
    apply Hok; done || lia. }
  destruct (ty =? SMS_RP_T_ERROR).
  { destruct (Z.leb_spec n 2); [refused|]. rewrite (rd_Ok b 2) by lia. bstep. pose proof (get_range b 2 Hb).
    destruct (Z.ltb_spec (get b 2) 1); [refused|]. rewrite (u64_small (n - (2 + 1))) by lia.
    destruct (Z.ltb_spec (n - (2 + 1)) (get b 2)); [refused|]. rewrite (rd_Ok b (2 + 1)) by lia. bstep.
    assert (∃ hd d, (if 2 <=? get b 2 then d ← rd b (2 + 1 + 1); Ok (true, d) else Ok (false, 0)) = Ok (hd, d) ∧
      SmsPdu.octet d) as (hd & d & -> & Hd).
    { destruct (Z.leb_spec 2 (get b 2)); [|by do 2 eexists]. rewrite rd_Ok by lia. do 2 eexists. split; [done|by apply get_range]. }
    bstep. destruct (rp_optional_safe b n Hb Hn Hs (2 + 1 + get b 2)) as [->|[->|(hu & up & len & off & -> & ? & ? & ?)]];
      [lia|refused|refused|]. bstep. rewrite (land_low _ 7) by done.
    pose proof (Z.mod_pos_bound (get b (2 + 1)) (2 ^ 7) ltac:(lia)). rewrite u8_small by lia. apply Hok; done || lia. }
  destruct (ty =? SMS_RP_T_ACK).
  { destruct (rp_optional_safe b n Hb Hn Hs 2) as [->|[->|(hu & up & len & off & -> & ? & ? & ?)]];
      [lia|refused|refused|]. bstep. apply Hok; done || lia. }
  destruct (ty =? SMS_RP_T_SMMA); [|refused]. apply Hok; done || lia.
Qed.

(** The user data of a decoded RPDU lies in the buffer. *)
Lemma sms_rp_view b n dir q k u : bytes_ok b → 0 <= n <= mlen b → n < 2147483648 →
  sms_rp_decode (Some b) n dir = Ok (q, k) → p_ud q = Some u → ∃ off, u = from b off.
Proof.
  intros Hb Hn Hs E Eu. destruct (rp_decode_fine b n dir Hb Hn Hs) as [(e & E' & _)|(q' & k' & E' & _ & Hq & _)];
    rewrite E in E'; [done|]. injection E' as <- <-. destruct Hq as (_ & _ & _ & _ & _ & _ & Hv & _).
  rewrite Eu in Hv. destruct Hv as (_ & off & _ & _ & ->). by exists off.
Qed.

(** Decoding is safe on every buffer.  Whatever the octets and the direction, the
    relay decoder ends without leaving the buffer, and either reports one of three
    documented errors or returns an RPDU that travels in the direction asked for,
    after consuming at least two and at most all of the octets; its addresses are
    NUL-terminated and its user data is a view within the buffer. *)
Theorem sms_rp_decode_safe b n dir :
  bytes_ok b → 0 <= n <= mlen b → n < 2147483648 →
  rp_fine b n dir (sms_rp_decode (Some b) n dir).
Proof. apply rp_decode_fine. Qed.

Lemma sms_rp_decode_safe_witness : rp_fine [5; 9; 4; 200; 1; 2] 6 1 (sms_rp_decode (Some [5; 9; 4; 200; 1; 2]) 6 1).
Proof. apply (sms_rp_decode_safe [5; 9; 4; 200; 1; 2] 6 1); [repeat constructor; lia|by vm_compute|lia]. Defined.

(** ** The two layers together *)

(** A service centre as a C string, and the address it stands for. *)
Definition sc_string (plus : bool) (s : list Z) : mem := (if plus then [43] else []) ++ s ++ [0].
Definition sc_party (plus : bool) (s : list Z) : party :=
  match plus, s with false, [] => Absent | _, _ => Party SMS_TON_INTERNATIONAL SMS_NPI_ISDN s end.

Lemma set_loop_digits s : ∀ fuel pre rest digits, Forall digit s → mlen pre + mlen s <= 20 → 20 < mlen digits →
  (length s < fuel)%nat →
  set_loop fuel (pre ++ s ++ 0 :: rest) (mlen pre) digits = Ok (splice digits (mlen pre) (s ++ [0])).
Proof.
  induction s as [|c s IH]; intros fuel pre rest digits Hs Hl Hd Hf; (destruct fuel as [|fuel]; [cbn in Hf; lia|]);
    pose proof (mlen_nonneg pre); cbn [set_loop app].
  - rewrite mlen_nil in Hl. rewrite get_here by done. bstep. change (0 =? 0) with true. cbn match.
    rewrite wr_wrn. apply wrn_Ok; mlia.
  - apply Forall_cons_iff in Hs as [Hc Hs]. rewrite mlen_cons in Hl. pose proof (mlen_nonneg s).
    rewrite get_here by done. bstep. rewrite (proj2 (Z.eqb_neq c 0)) by (by apply digit_nonzero).
    unfold SMS_ADDR_MAX_DIGITS. rewrite (proj2 (Z.leb_gt 20 (mlen pre))) by lia.
    rewrite (proj2 (Z.eqb_neq (sms_bcd_nibble c) 255)) by (pose proof (digit_nibble c Hc); lia).
    rewrite wr_wrn, wrn_first by mlia. pose proof (IH fuel (pre ++ [c]) rest (splice digits (mlen pre) [c]) Hs) as E.
    rewrite mlen_app in E. change (mlen [c]) with 1 in E. rewrite <-app_assoc in E. cbn [app] in E.
    rewrite E; [|lia|rewrite mlen_splice; mlia|cbn in Hf; lia].
    f_equal. exact (splice_app digits (mlen pre) [c] (s ++ [0]) ltac:(lia) ltac:(mlia)).
Qed.

Lemma sc_set plus s : Forall digit s → mlen s <= 20 →
  sms_rp_addr_set true (Some (sc_string plus s)) SMS_TON_INTERNATIONAL = Ok (party_of (sc_party plus s)).
Proof.
  intros Hs Hl. assert (length s < 22)%nat by (unfold mlen in *; lia). pose proof (mlen_nonneg s).
  assert (set_loop 22 (s ++ [0]) 0 (ra_digits zero_rp_addr) = Ok (rp_padded s)) as Hloop.
  { pose proof (set_loop_digits s 22 [] [] (ra_digits zero_rp_addr) Hs) as E. change (mlen []) with 0 in E.
    cbn [app] in E. rewrite E by (done || lia). clear E. f_equal. rewrite <-rp_padded_splice by lia. symmetry.
    pose proof (splice_app (ra_digits zero_rp_addr) 0 s [0]) as E. rewrite Z.add_0_l in E.
    apply E; [lia|]. change (mlen (ra_digits zero_rp_addr)) with 21. lia. }
  unfold sms_rp_addr_set, sc_string, sc_party. cbn [negb]. destruct plus.
  - cbn [app]. rewrite (get_here [] 43 (s ++ [0])) by done. bstep. change (43 =? 0) with false. change (43 =? 43) with true.
    cbn match. change (from (43 :: s ++ [0]) 1) with (s ++ [0]). rewrite Hloop. done.
  - destruct s as [|c s]; [done|]. cbn [app] in *. apply Forall_cons_iff in Hs as [Hc _].
    rewrite (get_here [] c (s ++ [0])) by done. bstep. rewrite (proj2 (Z.eqb_neq c 0)) by (by apply digit_nonzero).
    assert (c ≠ 43) as H43 by (unfold digit in Hc; set_solver). rewrite (proj2 (Z.eqb_neq _ _) H43).
    cbv zeta. rewrite Hloop. done.
Qed.

(** The RPDU that carries a transport PDU, as the three shorthands build it: a report
    rides an RP-ACK, or an RP-ERROR if it names a cause. *)
Definition carrier (p : SmsPdu.pdu) (mr cause : Z) (sc : party) : rpdu :=
  let ud := SmsPdu.pdu_bytes p in
  match p with
  | SmsPdu.Deliver _ _ _ _ _ _ _ _ _ _ | SmsPdu.StatusReport _ _ _ _ _ _ _ _ _ _ => RpData false mr sc Absent ud
  | SmsPdu.Submit _ _ _ _ _ _ _ _ _ _ | SmsPdu.Command _ _ _ _ _ _ _ _ => RpData true mr Absent sc ud
  | SmsPdu.DeliverReport _ None _ => RpAck true mr (Some ud)
  | SmsPdu.SubmitReport _ None _ _ => RpAck false mr (Some ud)
  | SmsPdu.DeliverReport _ (Some _) _ => RpError true mr cause None (Some ud)
  | SmsPdu.SubmitReport _ (Some _) _ _ => RpError false mr cause None (Some ud)
  end.
Definition send (p : SmsPdu.pdu) (b : mem) (cap mr cause : Z) (sc : mem) (tpdu : mem) (len : Z) : res (mem * Z) :=
  let dir := SmsPdu.dir_of p in
  match p with
  | SmsPdu.Deliver _ _ _ _ _ _ _ _ _ _ | SmsPdu.StatusReport _ _ _ _ _ _ _ _ _ _
  | SmsPdu.Submit _ _ _ _ _ _ _ _ _ _ | SmsPdu.Command _ _ _ _ _ _ _ _ =>
      sms_rp_data (Some b) cap dir mr (Some sc) (Some tpdu) len
  | SmsPdu.DeliverReport _ None _ | SmsPdu.SubmitReport _ None _ _ => sms_rp_ack (Some b) cap dir mr (Some tpdu) len
  | SmsPdu.DeliverReport _ (Some _) _ | SmsPdu.SubmitReport _ (Some _) _ _ =>
      sms_rp_error (Some b) cap dir mr cause (Some tpdu) len
  end.
(** A receiver decodes the RPDU and then what it carries, as the bindings do: in the
    direction of the RPDU, negative if that is an RP-ERROR. *)
Definition receive (b : mem) (n dir : Z) : res (sms_rp_pdu * SmsTpdu.sms_tpdu) :=
  '(q, _) ← sms_rp_decode (Some b) n dir;
  let dir := if p_from_ms q then SMS_DIR_MS_TO_SC else SMS_DIR_SC_TO_MS in
  let dir := if p_type q =? SMS_RP_T_ERROR then Z.lor dir SMS_DIR_NEGATIVE else dir in
  '(t, _) ← SmsTpdu.sms_tpdu_decode (p_ud q) (p_ud_len q) dir;
  Ok (q, t).

Lemma sc_party_ok plus s : Forall digit s → mlen s <= 20 → party_ok (sc_party plus s).
Proof. intros. unfold sc_party. destruct plus, s; done. Qed.

Section stack.
Context (p : SmsPdu.pdu) (mr cause : Z) (plus : bool) (s : list Z).
Context (Hp : SmsPdu.pdu_ok p) (Hmr : SmsPdu.octet mr) (Hcause : 0 <= cause < 128).
Context (Hs : Forall digit s) (Hl : mlen s <= 20).

Let ud := SmsPdu.pdu_bytes p.
Let rpdu := carrier p mr cause (sc_party plus s).

Lemma carrier_ok : rpdu_ok rpdu.
Proof using All.
  assert (rp_ud_ok ud) as Hu.
  { destruct (SmsPdu.pdu_bytes_spec p Hp) as [? ?]. unfold SMS_TPDU_MAX, ud in *. split; [done|lia]. }
  pose proof (sc_party_ok plus s Hs Hl). unfold rpdu, carrier. fold ud. destruct p as [| | | |? []|? []]; cbn [rpdu_ok SmsPdu.octet_opt]; split_and!; done || lia.
Qed.

Lemma carrier_short : mlen (rpdu_bytes rpdu) <= 192.
Proof using All.
  destruct (SmsPdu.pdu_bytes_spec p Hp) as [_ Hn]. unfold SMS_TPDU_MAX in Hn.
  pose proof (mlen_party_bytes _ (sc_party_ok plus s Hs Hl)). unfold rpdu, carrier. fold ud in Hn. fold ud.
  destruct p as [| | | |? []|? []]; cbn [rpdu_bytes rp_tlv app party_bytes]; mlia.
Qed.

Lemma carrier_dir : Z.land (SmsPdu.dir_of p) 1 = rp_dir rpdu.
Proof using Hp. unfold rpdu, carrier. by destruct p as [| | | |? []|? []]. Qed.

Lemma send_writes b cap tpdu : 0 <= cap <= mlen b → cap < 268435456 → holds tpdu 0 ud →
  send p b cap mr cause (sc_string plus s) tpdu (mlen ud) = written b cap (rpdu_bytes rpdu).
Proof using All.
  intros Hc Hsm Hh. destruct (SmsPdu.pdu_bytes_spec p Hp) as [_ Hn]. fold ud in Hn. unfold SMS_TPDU_MAX in Hn.
  assert (views (Some tpdu) ud) as Hv by (right; exists tpdu; split; [done|]; split; [lia|done]).
  pose proof carrier_ok as Hok. unfold rpdu, carrier in Hok. fold ud in Hok. unfold rpdu, carrier, send. fold ud. unfold sms_rp_data, sms_rp_ack, sms_rp_error.
  rewrite (proj2 (Z.ltb_ge 255 (mlen ud))) by lia. unfold maybe_ud.
  rewrite (proj2 (Z.ltb_lt 0 (mlen ud))) by lia. rewrite (u8_small (mlen ud)) by lia. rewrite sc_set by done. bstep.
  destruct p as [| | | |? [] ?|? [] ? ?]; cbn [SmsPdu.dir_of SmsPdu.is_some SmsPdu.fl];
    (by apply rp_encode_data) || (by apply rp_encode_ack) || (by apply rp_encode_error).
Qed.

Lemma receive_reads b n : bytes_ok b → 0 <= n <= mlen b → n < 268435456 → n = mlen (rpdu_bytes rpdu) →
  holds b 0 (rpdu_bytes rpdu) →
  ∃ q t, receive b n (SmsPdu.dir_of p) = Ok (q, t) ∧ cut_rpdu q = rpdu_of rpdu ∧
    SmsPdu.cut_tpdu t = SmsPdu.struct_of (SmsPdu.seen_pdu p).
Proof using All.
  intros Hb Hn Hsm Hk Hh. destruct (SmsPdu.pdu_bytes_spec p Hp) as [_ Hpl]. unfold SMS_TPDU_MAX in Hpl.
  destruct (rp_decode_bytes b n Hn Hsm rpdu (SmsPdu.dir_of p)) as (q & E & Ec & Hv); try done.
  { apply carrier_ok. } { apply carrier_dir. } { lia. }
  assert (views (p_ud q) ud) as Hv'.
  { revert Hv. unfold rpdu, carrier. fold ud. by destruct p as [| | | |? []|? []]. }
  destruct Hv' as [(_ & Hnil)|(u & Eu & Hu & Hhu)]; [fold ud in Hpl; rewrite Hnil, mlen_nil in Hpl; lia|].
  assert (bytes_ok u) as Hbu.
  { destruct (sms_rp_view b n (SmsPdu.dir_of p) q _ u Hb ltac:(lia) ltac:(lia) E Eu) as (off & ->). by apply Forall_drop. }
  destruct (SmsPdu.sms_tpdu_decode_reads p u Hp Hbu Hhu ltac:(lia)) as (t & Et & Ect).
  exists q, t. split; [|done]. unfold receive. rewrite E. bstep. rewrite Eu.
  assert (p_ud_len q = mlen ud ∧ (if p_type q =? SMS_RP_T_ERROR
    then Z.lor (if p_from_ms q then SMS_DIR_MS_TO_SC else SMS_DIR_SC_TO_MS) SMS_DIR_NEGATIVE
    else if p_from_ms q then SMS_DIR_MS_TO_SC else SMS_DIR_SC_TO_MS) = SmsPdu.dir_of p) as [-> ->].
  { assert (p_type q = p_type (rpdu_of rpdu) ∧ p_from_ms q = p_from_ms (rpdu_of rpdu) ∧
      p_ud_len q = p_ud_len (rpdu_of rpdu)) as (-> & -> & ->) by (by rewrite <-Ec).
    unfold rpdu, carrier. fold ud. by destruct p as [| | | |? []|? []]. }
  cbv zeta. fold ud in Et. rewrite Et. done.
Qed.
End stack.

(** C37: the two layers together carry every transport PDU.  A well-formed PDU is
    encoded into any buffer of [SMS_TPDU_MAX] octets; the shorthand for it, RP-DATA
    with the service centre on the side the direction asks for, RP-ACK, or RP-ERROR
    for a report that names a cause, fits any buffer of [SMS_RP_MAX] octets; and a
    receiver that decodes the RPDU and then its user data, negative if it came in an
    RP-ERROR, gets back the RPDU and the PDU, but for a name of exactly seven septets
    in it, which is read with a commercial at behind it: a PDU without one comes back
    whole. *)
Theorem sms_stack_roundtrip p mr cause plus s tb b :
  SmsPdu.pdu_ok p → SmsPdu.octet mr → 0 <= cause < 128 → Forall digit s → mlen s <= 20 →
  bytes_ok tb → mlen tb = SMS_TPDU_MAX → bytes_ok b → mlen b = SMS_RP_MAX →
  ∃ tb' n b' k q t,
    SmsTpdu.sms_tpdu_encode (Some tb) SMS_TPDU_MAX (Some (SmsPdu.struct_of p)) = Ok (tb', n) ∧
    send p b SMS_RP_MAX mr cause (sc_string plus s) tb' n = Ok (b', k) ∧
    receive b' k (SmsPdu.dir_of p) = Ok (q, t) ∧
    cut_rpdu q = rpdu_of (carrier p mr cause (sc_party plus s)) ∧ SmsPdu.cut_tpdu t = SmsPdu.struct_of (SmsPdu.seen_pdu p) ∧
    (SmsPdu.no_seven p → SmsPdu.seen_pdu p = p).
Proof.
  intros Hp Hmr Hc Hs Hl Htb Etb Hb Eb. destruct (SmsPdu.pdu_bytes_spec p Hp) as [Hpb Hpl].
  unfold SMS_TPDU_MAX, SMS_RP_MAX in *.
  exists (splice tb 0 (SmsPdu.pdu_bytes p)), (mlen (SmsPdu.pdu_bytes p)).
  pose proof (carrier_ok p mr cause plus s Hp Hmr Hc Hs Hl) as Hok.
  pose proof (carrier_short p mr cause plus s Hp Hmr Hc Hs Hl) as Hshort.
  set (r := carrier p mr cause (sc_party plus s)) in *.
  destruct (rpdu_bytes_spec r Hok) as [Hrb Hrl].
  destruct (receive_reads p mr cause plus s Hp Hmr Hc Hs Hl (splice b 0 (rpdu_bytes r)) (mlen (rpdu_bytes r)))
    as (q & t & Er & Hq & Ht); fold r; try done.
  { by apply bytes_ok_splice. } { rewrite mlen_splice; lia. } { lia. } { apply holds_splice; lia. }
  exists (splice b 0 (rpdu_bytes r)), (mlen (rpdu_bytes r)), q, t. split_and!; try done; [| |apply SmsPdu.seen_exact].
  - rewrite SmsPdu.sms_tpdu_encode_emits by (done || lia). unfold SmsPdu.emit. rewrite mlen_nil, Z.add_0_l.
    rewrite (proj2 (Z.leb_le _ _)) by lia. bstep. unfold SmsPdu.w_at. cbn [SmsTpdu.w_b SmsTpdu.w_off app].
    by rewrite i32_small by lia.
  - rewrite (send_writes p mr cause plus s) by (done || lia || (apply holds_splice; lia)). fold r. unfold written.
    by rewrite (proj2 (Z.leb_le _ _)) by lia.
Qed.

Lemma sms_stack_roundtrip_witness :
  ∃ tb' n b' k q t,
    SmsTpdu.sms_tpdu_encode (Some (zeros 176)) 176 (Some (SmsPdu.struct_of SmsPdu.sample)) = Ok (tb', n) ∧
    send SmsPdu.sample (zeros 256) 256 9 0 (sc_string true [52; 57]) tb' n = Ok (b', k) ∧
    receive b' k (SmsPdu.dir_of SmsPdu.sample) = Ok (q, t) ∧
    cut_rpdu q = rpdu_of (carrier SmsPdu.sample 9 0 (sc_party true [52; 57])) ∧
    SmsPdu.cut_tpdu t = SmsPdu.struct_of (SmsPdu.seen_pdu SmsPdu.sample) ∧
    (SmsPdu.no_seven SmsPdu.sample → SmsPdu.seen_pdu SmsPdu.sample = SmsPdu.sample).
Proof.
  apply (sms_stack_roundtrip SmsPdu.sample 9 0 true [52; 57] (zeros 176) (zeros 256) SmsPdu.sample_ok);
    try done; try apply bytes_ok_zeros. repeat constructor; unfold digit; set_solver.
Defined.

(** ** Causes and the guard on the user data *)

(** Folding keeps the listed causes and is idempotent. *)
Lemma sms_rp_cause_fold_spec c : sms_rp_cause_fold c ∈ rp_causes ∧
  (c ∈ rp_causes → sms_rp_cause_fold c = c) ∧ sms_rp_cause_fold (sms_rp_cause_fold c) = sms_rp_cause_fold c.
Proof.
  unfold sms_rp_cause_fold. destruct (existsb (Z.eqb c) rp_causes) eqn:E.
  - rewrite E. split_and!; try done. apply existsb_exists in E as (x & Hx & ->%Z.eqb_eq). by apply list_elem_of_In.
  - split_and!; [unfold rp_causes; set_solver| |done]. intros Hc. exfalso. apply not_true_iff_false in E. apply E.
    apply existsb_exists. exists c. split; [by apply list_elem_of_In|apply Z.eqb_refl].
Qed.

(** The causes that have a name of their own are those that folding keeps. *)
Lemma sms_rp_cause_named c :
  sms_rp_cause_fold c = c ↔ sms_rp_cause_name c ≠ "unassigned (treat as temporary failure)"%string.
Proof.
  unfold sms_rp_cause_name. split.
  - intros E. pose proof (sms_rp_cause_fold_spec c) as [Hc _]. rewrite E in Hc.
    unfold rp_causes in Hc. repeat (apply elem_of_cons in Hc as [->|Hc]; [done|]). by apply not_elem_of_nil in Hc.
  - destruct (find _ _) as [[c' n]|] eqn:E; [|done]. intros _. apply find_some in E as [Hin Ec].
    apply Z.eqb_eq in Ec. cbn [fst] in Ec. subst c'. apply sms_rp_cause_fold_spec.
    by apply list_elem_of_In, (list_elem_of_fmap_2 fst) in Hin.
Qed.

(** The guard against a NULL user data looks at [has_ud] only, which RP-DATA ignores:
    such a structure makes the encoder copy from NULL. *)
Lemma sms_rp_null_ud :
  sms_rp_encode (Some (zeros 30)) 30
    (Some (RpPdu 0 SMS_RP_T_DATA true 7 zero_rp_addr zero_rp_addr 0 false 0 false None 4)) = Ub.
Proof. by vm_compute. Qed.

End SmsRp.
