(* ===== verification/JsonStr.v ===== *)
(** * JsonStr: JSON strings

    Models [json/src/json_str.c] and the helpers of [json/src/json_intl.h]: the escapes
    of a string body, comparison and expansion of a body, and the UTF-8 check.  A
    body is kept as it stands in the text; a slice is an offset into the text and a
    length, its pointer [None] for NULL. *)

From S2P Require Import Prelude Endian SmsIntl SmsText.

Definition JSON_OK : Z := 0.
Definition JSON_E_SYNTAX : Z := -1.
Definition JSON_E_NODES : Z := -2.
Definition JSON_E_DEPTH : Z := -3.
Definition JSON_E_TRAILING : Z := -4.
Definition JSON_E_TYPE : Z := -5.
Definition JSON_E_MISSING : Z := -6.
Definition JSON_E_RANGE : Z := -7.
Definition JSON_E_OVERFLOW : Z := -8.
Definition JSON_E_STATE : Z := -9.
Definition JSON_E_INVAL : Z := -10.

Module JsonStr.

Record json_str_t := JStr { s_p : option Z; s_len : Z }.
Definition no_str : json_str_t := JStr None 0.

(** ** Characters *)

Definition json_is_ws (c : Z) : bool := (c =? 32) || (c =? 9) || (c =? 10) || (c =? 13).
Definition json_is_digit (c : Z) : bool := (48 <=? c) && (c <=? 57).
Definition json_hex (c : Z) : Z :=
  if (48 <=? c) && (c <=? 57) then c - 48
  else if (97 <=? c) && (c <=? 102) then c - 97 + 10
  else if (65 <=? c) && (c <=? 70) then c - 65 + 10
  else -1.

(** The octets put at [out]; their number is the value returned. *)
Definition utf8_enc (cp : Z) : list Z :=
  if cp <? 128 then [u8 cp]
  else if cp <? 2048 then
    [u8 (Z.lor 192 (Z.shiftr cp 6)); u8 (Z.lor 128 (Z.land cp 63))]
  else if cp <? 65536 then
    [u8 (Z.lor 224 (Z.shiftr cp 12)); u8 (Z.lor 128 (Z.land (Z.shiftr cp 6) 63));
     u8 (Z.lor 128 (Z.land cp 63))]
  else
    [u8 (Z.lor 240 (Z.shiftr cp 18)); u8 (Z.lor 128 (Z.land (Z.shiftr cp 12) 63));
     u8 (Z.lor 128 (Z.land (Z.shiftr cp 6) 63)); u8 (Z.lor 128 (Z.land cp 63))].

Fixpoint hex4_loop (todo : nat) (buf : mem) (p v : Z) : res Z :=
  match todo with
  | O => Ok v
  | S todo =>
      c ← rd buf p;
      let h := json_hex c in
      if h <? 0 then Ok (-1) else hex4_loop todo buf (p + 1) (Z.lor (Z.shiftl v 4) h)
  end.
Definition hex4 (buf : mem) (p : Z) : res Z := hex4_loop 4 buf p 0.

(** The octets of the next character of a body and the offset behind it; [None] is
    the return of -1. *)
Definition json_next_chr (buf : mem) (s end_ : Z) : res (option (list Z * Z)) :=
  if end_ <=? s then Ok None else
  c ← rd buf s;
  if negb (c =? 92) then Ok (Some ([c], s + 1)) else
  if end_ - s <? 2 then Ok None else
  c ← rd buf (s + 1);
  if (c =? 34) || (c =? 92) || (c =? 47) then Ok (Some ([c], s + 2))
  else if c =? 98 then Ok (Some ([8], s + 2))
  else if c =? 102 then Ok (Some ([12], s + 2))
  else if c =? 110 then Ok (Some ([10], s + 2))
  else if c =? 114 then Ok (Some ([13], s + 2))
  else if c =? 116 then Ok (Some ([9], s + 2))
  else if negb (c =? 117) then Ok None
  else
  if end_ - s <? 6 then Ok None else
  h ← hex4 buf (s + 2);
  if h <? 0 then Ok None else
  let cp := h in
  let s := s + 6 in
  if (55296 <=? cp) && (cp <=? 56319) then
    lo ← (if 6 <=? end_ - s then
            c0 ← rd buf s;
            c1 ← rd buf (s + 1);
            if (c0 =? 92) && (c1 =? 117) then hex4 buf (s + 2) else Ok (-1)
          else Ok (-1));
    if (56320 <=? lo) && (lo <=? 57343) then
      Ok (Some (utf8_enc (u32 (65536 + Z.shiftl (cp - 55296) 10 + (lo - 56320))), s + 6))
    else Ok (Some (utf8_enc 65533, s))
  else if (56320 <=? cp) && (cp <=? 57343) then Ok (Some (utf8_enc 65533, s))
  else Ok (Some (utf8_enc cp, s)).

(** ** Comparing and expanding a body *)

Fixpoint body_eq_loop (fuel : nat) (buf : mem) (p end_ : Z) (s : mem) (len i : Z) : res bool :=
  match fuel with
  | O => Ub
  | S fuel =>
      if negb (p <? end_) then Ok (i =? len) else
      r ← json_next_chr buf p end_;
      match r with
      | None => Ok false
      | Some (chr, p) =>
          if len <? i + mlen chr then Ok false else
          bs ← rdn s i (mlen chr);
          if negb (bool_decide (bs = chr)) then Ok false else
          body_eq_loop fuel buf p end_ s len (i + mlen chr)
      end
  end.

Definition json_body_eq (buf : mem) (body : json_str_t) (esc : bool) (s : mem) (len : Z) : res bool :=
  if negb esc then
    if negb (s_len body =? len) then Ok false else
    if len =? 0 then Ok true else
    match s_p body with
    | None => Ub
    | Some p => a ← rdn buf p len; b ← rdn s 0 len; Ok (bool_decide (a = b))
    end
  else
    if s_len body <? len then Ok false else
    match s_p body with
    | None => Ub
    | Some p => body_eq_loop (S (Z.to_nat (s_len body))) buf p (p + s_len body) s len 0
    end.

(** The result is the octets written into [out] and their number. *)
Fixpoint expand_loop (fuel : nat) (buf : mem) (p end_ : Z) (out : mem) (cap o : Z) : res (mem * Z) :=
  match fuel with
  | O => Ub
  | S fuel =>
      if negb (p <? end_) then Ok (out, o) else
      r ← json_next_chr buf p end_;
      match r with
      | None => Err JSON_E_SYNTAX
      | Some (chr, p) =>
          if cap <? o + mlen chr then Err JSON_E_OVERFLOW else
          out ← wrn out o chr;
          expand_loop fuel buf p end_ out cap (o + mlen chr)
      end
  end.

Definition json_body_expand (buf : mem) (body : json_str_t) (esc : bool) (out : option mem) (cap : Z)
    : res (mem * Z) :=
  match out with
  | None => if negb (cap =? 0) then Err JSON_E_INVAL else
      if negb esc then if cap <? s_len body then Err JSON_E_OVERFLOW else Ok ([], s_len body) else
      match s_p body with
      | None => Ub
      | Some p => expand_loop (S (Z.to_nat (s_len body))) buf p (p + s_len body) [] cap 0
      end
  | Some out =>
      if negb esc then
        if cap <? s_len body then Err JSON_E_OVERFLOW else
        out ← (if negb (s_len body =? 0) then
                 match s_p body with
                 | None => Ub
                 | Some p => bs ← rdn buf p (s_len body); wrn out 0 bs
                 end
               else Ok out);
        Ok (out, s_len body)
      else
      match s_p body with
      | None => Ub
      | Some p => expand_loop (S (Z.to_nat (s_len body))) buf p (p + s_len body) out cap 0
      end
  end.

(** ** The UTF-8 check *)

Fixpoint utf8_tail (todo : nat) (s : mem) (p cp : Z) : res (option (Z * Z)) :=
  match todo with
  | O => Ok (Some (cp, p))
  | S todo =>
      b ← rd s p;
      if negb (Z.land b 192 =? 128) then Ok None else
      utf8_tail todo s (p + 1) (Z.lor (u32 (Z.shiftl cp 6)) (Z.land b 63))
  end.

Fixpoint utf8_valid_loop (fuel : nat) (s : mem) (p end_ : Z) : res bool :=
  match fuel with
  | O => Ub
  | S fuel =>
      if negb (p <? end_) then Ok true else
      c ← rd s p;
      let p := p + 1 in
      if c <? 128 then utf8_valid_loop fuel s p end_ else
      let lead :=
        if (194 <=? c) && (c <=? 223) then Some (1, Z.land c 31, 128)
        else if (224 <=? c) && (c <=? 239) then Some (2, Z.land c 15, 2048)
        else if (240 <=? c) && (c <=? 244) then Some (3, Z.land c 7, 65536)
        else None in
      match lead with
      | None => Ok false
      | Some (n, cp, mn) =>
          if end_ - p <? n then Ok false else
          r ← utf8_tail (Z.to_nat n) s p cp;
          match r with
          | None => Ok false
          | Some (cp, p) =>
              if (cp <? mn) || (1114111 <? cp) then Ok false else
              if (55296 <=? cp) && (cp <=? 57343) then Ok false else
              utf8_valid_loop fuel s p end_
          end
      end
  end.

Definition json_utf8_valid (s : option mem) (len : Z) : res bool :=
  match s with
  | None => Ok (len =? 0)
  | Some s => utf8_valid_loop (S (Z.to_nat len)) s 0 len
  end.

(** ** Bodies as values *)

(** What a body consists of: plain octets, short escapes and four hex digits. *)
Inductive unit_ := Plain (c : Z) | Short (c : Z) | Hex (ds : list Z).

(** The letter of a short escape and what it stands for. *)
Definition short_escapes : list (Z * Z) :=
  [(34, 34); (92, 92); (47, 47); (98, 8); (102, 12); (110, 10); (114, 13); (116, 9)].

Definition unit_ok (u : unit_) : Prop :=
  match u with
  | Plain c => 32 <= c < 256 ∧ c ≠ 34 ∧ c ≠ 92
  | Short c => c ∈ short_escapes.*1
  | Hex ds => length ds = 4%nat ∧ Forall (λ c, 0 <= json_hex c) ds
  end.
Definition unit_text (u : unit_) : list Z :=
  match u with Plain c => [c] | Short c => [92; c] | Hex ds => 92 :: 117 :: ds end.
Definition body_text (us : list unit_) : list Z := concat (map unit_text us).
Definition unit_esc (u : unit_) : bool := match u with Plain _ => false | _ => true end.
Definition body_esc (us : list unit_) : bool := existsb unit_esc us.

Definition hex_value (ds : list Z) : Z := fold_left (λ v c, v * 16 + json_hex c) ds 0.
Definition short_value (c : Z) : Z :=
  match find (λ r, r.1 =? c) short_escapes with Some r => r.2 | None => c end.
Definition high_surrogate (v : Z) : bool := (55296 <=? v) && (v <=? 56319).
Definition low_surrogate (v : Z) : bool := (56320 <=? v) && (v <=? 57343).
Definition lone (v : Z) : Z := if high_surrogate v || low_surrogate v then 65533 else v.
Definition pair_value (h l : Z) : Z := 65536 + (h - 55296) * 1024 + (l - 56320).

(** The string a body stands for, RFC 8259 section 7: a surrogate pair is one
    character, an unpaired surrogate the replacement character. *)
Fixpoint body_value (us : list unit_) : list Z :=
  match us with
  | [] => []
  | Plain c :: us => c :: body_value us
  | Short c :: us => short_value c :: body_value us
  | Hex h :: us =>
      match us with
      | Hex l :: us' =>
          if high_surrogate (hex_value h) && low_surrogate (hex_value l)
          then utf8_bytes (pair_value (hex_value h) (hex_value l)) ++ body_value us'
          else utf8_bytes (lone (hex_value h)) ++ body_value us
      | _ => utf8_bytes (lone (hex_value h)) ++ body_value us
      end
  end.

(** ** Characters of a body *)

Lemma utf8_enc_bytes c : 0 <= c <= 1114111 → utf8_enc c = utf8_bytes c.
Proof.
  intros Hc. unfold utf8_enc, utf8_bytes.
  rewrite !tail_octet by (lia || (apply Z.shiftr_nonneg; lia)). rewrite !shiftr_div by lia.
  change (2 ^ 6) with 64. change (2 ^ 12) with 4096. change (2 ^ 18) with 262144.
  destruct (Z.ltb_spec c 128); [by rewrite u8_small by lia|].
  destruct (Z.ltb_spec c 2048).
  { rewrite (lor_tag 6 5) by (done || Z.to_euclidean_division_equations; lia).
    by rewrite u8_small by (Z.to_euclidean_division_equations; lia). }
  destruct (Z.ltb_spec c 65536).
  { rewrite (lor_tag 14 4) by (done || Z.to_euclidean_division_equations; lia).
    by rewrite u8_small by (Z.to_euclidean_division_equations; lia). }
  rewrite (lor_tag 30 3) by (done || Z.to_euclidean_division_equations; lia).
  by rewrite u8_small by (Z.to_euclidean_division_equations; lia).
Qed.

Lemma json_hex_range c : json_hex c < 16.
Proof. unfold json_hex. repeat case_match; lia. Qed.

Lemma hex4_loop_value ds : ∀ buf p v, Forall (λ c, 0 <= json_hex c) ds → holds buf p ds → 0 <= v →
  hex4_loop (length ds) buf p v = Ok (fold_left (λ v c, v * 16 + json_hex c) ds v).
Proof.
  induction ds as [|c ds IH]; intros buf p v Hd Hh Hv; [done|]. apply Forall_cons_iff in Hd as [Hc Hd].
  cbn [length hex4_loop fold_left]. apply holds_cons in Hh as [-> Hh]. bstep.
  rewrite (proj2 (Z.ltb_ge (json_hex c) 0)) by done. pose proof (json_hex_range c).
  rewrite lor_low by (change (2 ^ 4) with 16; lia). change (2 ^ 4) with 16. apply IH; [done|done|lia].
Qed.

Lemma hex4_value ds buf p : unit_ok (Hex ds) → holds buf p ds → hex4 buf p = Ok (hex_value ds).
Proof. intros [Hl Hd] Hh. unfold hex4, hex_value. rewrite <-Hl. by apply hex4_loop_value. Qed.

Lemma hex_value_range ds : unit_ok (Hex ds) → 0 <= hex_value ds < 65536.
Proof.
  intros [Hl Hd]. destruct ds as [|a [|b [|c [|d []]]]]; try done. unfold hex_value. cbn [fold_left].
  do 4 (apply Forall_cons_iff in Hd as [? Hd]).
  pose proof (json_hex_range a). pose proof (json_hex_range b). pose proof (json_hex_range c). pose proof (json_hex_range d).
  lia.
Qed.

Lemma short_cases (P : Z → Z → Prop) c : Forall (λ r, P r.1 r.2) short_escapes → c ∈ short_escapes.*1 →
  P c (short_value c).
Proof.
  intros HP Hc. assert ((c, short_value c) ∈ short_escapes) as Hin.
  { unfold short_escapes in Hc. cbn in Hc. unfold short_value, short_escapes.
    repeat (apply elem_of_cons in Hc as [->|Hc]; [cbn; set_solver|]). by apply not_elem_of_nil in Hc. }
  rewrite Forall_forall in HP. exact (HP _ Hin).
Qed.

Lemma body_text_cons u us : body_text (u :: us) = unit_text u ++ body_text us.
Proof. done. Qed.
Lemma body_value_hex h us : unit_ok (Hex h) →
  body_value (Hex h :: us) = utf8_bytes (lone (hex_value h)) ++ body_value us ∨
  ∃ l us', us = Hex l :: us' ∧ high_surrogate (hex_value h) = true ∧ low_surrogate (hex_value l) = true ∧
    body_value (Hex h :: us) = utf8_bytes (pair_value (hex_value h) (hex_value l)) ++ body_value us'.
Proof.
  intros _. destruct us as [|[c|c|l] us']; [by left..|]. cbn [body_value].
  destruct (high_surrogate _) eqn:E1, (low_surrogate (hex_value l)) eqn:E2; cbn [andb]; try by left.
  right. by exists l, us'.
Qed.

(** The character at the head of [us]: its octets and the rest of the body. *)
Definition char_of (us : list unit_) : list Z * list unit_ :=
  match us with
  | [] => ([], [])
  | Plain c :: us => ([c], us)
  | Short c :: us => ([short_value c], us)
  | Hex h :: us =>
      match us with
      | Hex l :: us' =>
          if high_surrogate (hex_value h) && low_surrogate (hex_value l)
          then (utf8_bytes (pair_value (hex_value h) (hex_value l)), us')
          else (utf8_bytes (lone (hex_value h)), us)
      | _ => (utf8_bytes (lone (hex_value h)), us)
      end
  end.

Lemma body_value_char us : body_value us = (char_of us).1 ++ match us with [] => [] | _ => body_value (char_of us).2 end.
Proof.
  destruct us as [|[c|c|h] us]; [done..|]. destruct us as [|[c|c|l] us']; [done..|]. cbn [body_value char_of].
  by destruct (_ && _).
Qed.

Lemma lone_range v : 0 <= v < 65536 → 0 <= lone v < 65536 ∧ scalar (lone v).
Proof. intros. unfold lone, high_surrogate, low_surrogate, scalar. repeat case_match; lia. Qed.
Lemma pair_range h l : high_surrogate h = true → low_surrogate l = true →
  65536 <= pair_value h l <= 1114111.
Proof. unfold high_surrogate, low_surrogate, pair_value. lia. Qed.

Lemma mlen_unit_hex h : unit_ok (Hex h) → mlen (unit_text (Hex h)) = 6.
Proof. intros [Hl _]. cbn [unit_text]. rewrite !mlen_cons. unfold mlen. lia. Qed.

(** A character takes at least one unit and no more octets than its text. *)
Lemma char_of_shrinks u us : Forall unit_ok (u :: us) →
  let '(chr, us') := char_of (u :: us) in
  Forall unit_ok us' ∧ (length us' <= length us)%nat ∧ 1 <= mlen chr ∧
  mlen chr + mlen (body_text us') <= mlen (body_text (u :: us)) ∧
  ∃ pre, body_text (u :: us) = pre ++ body_text us' ∧ 1 <= mlen pre.
Proof.
  intros Hok. pose proof Hok as Hall. apply Forall_cons_iff in Hok as [Hu Hus].
  assert (∀ chr, 1 <= mlen chr <= mlen (unit_text u) → Forall unit_ok us ∧ (length us <= length us)%nat ∧ 1 <= mlen chr ∧
    mlen chr + mlen (body_text us) <= mlen (body_text (u :: us)) ∧
    ∃ pre, body_text (u :: us) = pre ++ body_text us ∧ 1 <= mlen pre) as Hone.
  { intros chr Hc. rewrite body_text_cons, mlen_app. split_and!; [done|lia|lia|lia|].
    exists (unit_text u). split; [done|lia]. }
  destruct u as [c|c|h]; cbn [char_of]; [apply Hone; cbn [unit_text]; mlia..|].
  assert (∀ v, 0 <= v < 65536 → 1 <= mlen (utf8_bytes v) <= 6) as Hv.
  { intros v Hv. pose proof (utf8_len_range v). unfold utf8_len in *. lia. }
  pose proof (mlen_unit_hex h Hu) as H6. pose proof (hex_value_range h Hu) as Hh.
  pose proof (Hv _ (proj1 (lone_range _ Hh))) as Hl.
  destruct us as [|[c|c|l] us']; [apply Hone; lia..|].
  destruct (high_surrogate _ && low_surrogate _) eqn:E; [|apply Hone; lia].
  apply andb_prop in E as [E1 E2]. apply Forall_cons_iff in Hus as [Hl' Hus].
  pose proof (utf8_len_range (pair_value (hex_value h) (hex_value l))). unfold utf8_len in *.
  rewrite !body_text_cons, !mlen_app, H6, (mlen_unit_hex l Hl'). split_and!; [done|cbn; lia|lia|lia|].
  exists (unit_text (Hex h) ++ unit_text (Hex l)). split; [by rewrite <-app_assoc|].
  rewrite mlen_app, H6, (mlen_unit_hex l Hl'). lia.
Qed.

Lemma body_shrinks us : Forall unit_ok us → mlen (body_value us) <= mlen (body_text us).
Proof.
  remember (length us) as n eqn:E. assert (length us <= n)%nat as Hn by lia. clear E. revert us Hn.
  induction n as [|n IH]; intros us Hn Hok; [destruct us; [done|cbn in Hn; lia]|]. destruct us as [|u us]; [done|].
  rewrite body_value_char. pose proof (char_of_shrinks u us Hok) as H. destruct (char_of (u :: us)) as [chr us'].
  destruct H as (Hok' & Hl & _ & Hm & _). cbn [fst snd]. rewrite mlen_app. cbn in Hn.
  pose proof (IH us' ltac:(lia) Hok'). lia.
Qed.

Lemma body_plain us : body_esc us = false → body_value us = body_text us.
Proof.
  induction us as [|[c|c|h] us IH]; [done| |done|done]. cbn [body_esc existsb unit_esc orb]. intros H.
  cbn [body_value]. rewrite body_text_cons, IH by done. done.
Qed.

Section bodies.
Context (buf : mem) (end_ : Z).

(** The body [us] stands at [p] and ends at [end_]. *)
Definition body_at (p : Z) (us : list unit_) : Prop :=
  Forall unit_ok us ∧ holds buf p (body_text us) ∧ end_ = p + mlen (body_text us).

Lemma body_at_rest p u us us' pre : body_at p (u :: us) → body_text (u :: us) = pre ++ body_text us' →
  Forall unit_ok us' → body_at (end_ - mlen (body_text us')) us'.
Proof using.
  intros (_ & Hh & He) E Hok. rewrite E in *. apply holds_app in Hh as [_ Hh]. rewrite mlen_app in He.
  split; [done|]. split; [|lia]. by replace (end_ - mlen (body_text us')) with (p + mlen pre) by lia.
Qed.

Lemma next_hex p h us : body_at p (Hex h :: us) →
  json_next_chr buf p end_ =
    Ok (Some ((char_of (Hex h :: us)).1, end_ - mlen (body_text (char_of (Hex h :: us)).2))).
Proof using.
  intros (Hok & Hh & He). apply Forall_cons_iff in Hok as [Hu Hus]. pose proof (mlen_unit_hex h Hu) as H6.
  rewrite body_text_cons in *. rewrite mlen_app, H6 in He. pose proof (mlen_nonneg (body_text us)) as Hnn.
  apply holds_app in Hh as [Hh Hrest]. rewrite H6 in Hrest. cbn [unit_text] in Hh.
  apply holds_cons in Hh as [E0 Hh]. apply holds_cons in Hh as [E1 Hd]. replace (p + 1 + 1) with (p + 2) in Hd by lia.
  unfold json_next_chr. rewrite (proj2 (Z.leb_gt end_ p)) by lia. rewrite E0. bstep. change (92 =? 92) with true.
  cbn [negb]. rewrite (proj2 (Z.ltb_ge (end_ - p) 2)) by lia. rewrite E1. bstep. cbn [Z.eqb Pos.eqb orb negb].
  rewrite (proj2 (Z.ltb_ge (end_ - p) 6)) by lia. rewrite (hex4_value h buf (p + 2)) by done. bstep.
  pose proof (hex_value_range h Hu) as Hr. rewrite (proj2 (Z.ltb_ge (hex_value h) 0)) by lia. cbv zeta.
  fold (high_surrogate (hex_value h)). fold (low_surrogate (hex_value h)).
  assert (end_ - mlen (body_text us) = p + 6) as Hend by lia.
  assert (char_of (Hex h :: us) = (utf8_bytes (lone (hex_value h)), us) →
    high_surrogate (hex_value h) = false →
    (if low_surrogate (hex_value h) then Ok (Some (utf8_enc 65533, p + 6)) else Ok (Some (utf8_enc (hex_value h), p + 6)))
    = Ok (Some ((char_of (Hex h :: us)).1, end_ - mlen (body_text (char_of (Hex h :: us)).2)))) as Hlone.
  { intros -> Hhi. cbn [fst snd]. rewrite Hend. unfold lone. rewrite Hhi. cbn [orb].
    destruct (low_surrogate _); by rewrite utf8_enc_bytes by lia. }
  destruct (high_surrogate (hex_value h)) eqn:Ehi.
  2:{ apply Hlone; [|done]. cbn [char_of]. rewrite Ehi. cbn [andb]. by destruct us as [|[]]. }
  assert (utf8_enc 65533 = utf8_bytes (lone (hex_value h))) as Hfffd.
  { unfold lone. rewrite Ehi. cbn [orb]. by apply utf8_enc_bytes. }
  destruct us as [|u us].
  { change (body_text []) with (@nil Z) in *. rewrite mlen_nil in *.
    rewrite (proj2 (Z.leb_gt 6 (end_ - (p + 6)))) by lia. bstep. cbn [Z.leb Z.compare andb char_of fst snd].
    rewrite Hfffd. change (body_text []) with (@nil Z). rewrite mlen_nil. do 4 f_equal. lia. }
  apply Forall_cons_iff in Hus as [Hu2 Hus]. rewrite body_text_cons, mlen_app in *.
  destruct u as [c|c|l].
  - cbn [unit_text] in *. change (mlen [c]) with 1 in *. apply holds_cons in Hrest as [E2 Hrest].
    destruct Hu2 as (_ & _ & Hc). cbn [char_of fst snd]. rewrite Hfffd, body_text_cons, mlen_app. cbn [unit_text].
    change (mlen [c]) with 1. rewrite Hend. destruct (Z.leb_spec 6 (end_ - (p + 6))); [|bstep; done].
    cbn [app] in Hrest. pose proof (holds_pos _ _ _ Hrest). rewrite E2. bstep.
    rewrite rd_Ok by lia. bstep. rewrite (proj2 (Z.eqb_neq c 92)) by done. done.
  - cbn [unit_text] in *. change (mlen [92; c]) with 2 in *. cbn [app] in Hrest. apply holds_cons in Hrest as [E2 Hrest].
    apply holds_cons in Hrest as [E3 Hrest].
    assert (c ≠ 117) as Hc by (cbn in Hu2; set_solver). cbn [char_of fst snd].
    rewrite Hfffd, body_text_cons, mlen_app. cbn [unit_text].
    change (mlen [92; c]) with 2. rewrite Hend. destruct (Z.leb_spec 6 (end_ - (p + 6))); [|bstep; done].
    rewrite E2, E3. bstep. by rewrite (proj2 (Z.eqb_neq c 117)) by done.
  - pose proof (mlen_unit_hex l Hu2) as H62. rewrite H62 in *. pose proof (mlen_nonneg (body_text us)).
    apply holds_app in Hrest as [Hl _]. cbn [unit_text] in Hl. apply holds_cons in Hl as [E2 Hl].
    apply holds_cons in Hl as [E3 Hl]. rewrite (proj2 (Z.leb_le 6 (end_ - (p + 6)))) by lia.
    rewrite E2, E3. bstep. change ((92 =? 92) && (117 =? 117)) with true. cbn match.
    replace (p + 6 + 1 + 1) with (p + 6 + 2) in Hl by lia. rewrite (hex4_value l buf (p + 6 + 2)) by done. bstep.
    fold (low_surrogate (hex_value l)). cbn [char_of]. rewrite Ehi. cbn [andb].
    destruct (low_surrogate (hex_value l)) eqn:Elo; cbn [fst snd].
    + pose proof (pair_range _ _ Ehi Elo) as Hp. rewrite <-utf8_enc_bytes by lia. unfold pair_value in *.
      rewrite Z.shiftl_mul_pow2 by lia. change (2 ^ 10) with 1024. rewrite u32_small by lia. do 4 f_equal. lia.
    + rewrite Hfffd, body_text_cons, mlen_app, H62. by rewrite Hend.
Qed.

Lemma next_chr_spec p u us : body_at p (u :: us) →
  json_next_chr buf p end_ =
    Ok (Some ((char_of (u :: us)).1, end_ - mlen (body_text (char_of (u :: us)).2))).
Proof using.
  destruct u as [c|c|h]; [| |apply next_hex]; intros (Hok & Hh & He); apply Forall_cons_iff in Hok as [Hu Hus];
    pose proof (mlen_nonneg (body_text us)); rewrite body_text_cons, mlen_app in He; unfold json_next_chr;
    cbn [char_of fst snd].
  - cbn [unit_text] in *. change (mlen [c]) with 1 in He. rewrite (proj2 (Z.leb_gt end_ p)) by lia.
    rewrite body_text_cons in Hh. cbn [unit_text app] in Hh. apply holds_cons in Hh as [-> _]. bstep.
    destruct Hu as (_ & _ & Hc). rewrite (proj2 (Z.eqb_neq _ _) Hc). cbn [negb]. do 4 f_equal. lia.
  - cbn [unit_text] in *. change (mlen [92; c]) with 2 in He. rewrite (proj2 (Z.leb_gt end_ p)) by lia.
    rewrite body_text_cons in Hh. cbn [unit_text app] in Hh. apply holds_cons in Hh as [-> Hh].
    apply holds_cons in Hh as [E _]. bstep. change (92 =? 92) with true. cbn [negb].
    rewrite (proj2 (Z.ltb_ge (end_ - p) 2)) by lia. rewrite E. bstep.
    replace (end_ - mlen (body_text us)) with (p + 2) by lia. clear E. revert Hu. cbn [unit_ok].
    apply (short_cases (λ c v, (if (c =? 34) || (c =? 92) || (c =? 47) then Ok (Some ([c], p + 2))
      else if c =? 98 then Ok (Some ([8], p + 2)) else if c =? 102 then Ok (Some ([12], p + 2))
      else if c =? 110 then Ok (Some ([10], p + 2)) else if c =? 114 then Ok (Some ([13], p + 2))
      else if c =? 116 then Ok (Some ([9], p + 2)) else if negb (c =? 117) then Ok None else _)
      = Ok (Some ([v], p + 2)))). repeat constructor.
Qed.

(** *** Expansion and comparison *)

Lemma char_step p u us : body_at p (u :: us) →
  let '(chr, us') := char_of (u :: us) in
  body_at (end_ - mlen (body_text us')) us' ∧ p < end_ ∧ 1 <= mlen chr ∧
  p < end_ - mlen (body_text us') ∧ body_value (u :: us) = chr ++ body_value us'.
Proof using.
  intros Hat. pose proof Hat as (Hok & _ & He). pose proof (char_of_shrinks u us Hok) as H.
  pose proof (body_value_char (u :: us)) as Hv. destruct (char_of (u :: us)) as [chr us'].
  destruct H as (Hok' & _ & Hc & Hm & pre & Epre & Hpre). pose proof (mlen_nonneg (body_text us')).
  split_and!; [by eapply body_at_rest|lia|lia| |done]. rewrite Epre, mlen_app in He. lia.
Qed.

Lemma expand_loop_spec fuel : ∀ p us out cap o, body_at p us → end_ - p < Z.of_nat fuel → 0 <= o →
  o <= cap → cap <= mlen out →
  expand_loop fuel buf p end_ out cap o =
    if o + mlen (body_value us) <=? cap then Ok (splice out o (body_value us), o + mlen (body_value us))
    else Err JSON_E_OVERFLOW.
Proof using.
  induction fuel as [|fuel IH]; intros p us out cap o Hat Hf Ho Hoc Hc.
  { destruct Hat as (_ & _ & ->). pose proof (mlen_nonneg (body_text us)). lia. }
  cbn [expand_loop]. destruct us as [|u us].
  { destruct Hat as (_ & _ & He). change (body_text []) with (@nil Z) in He. rewrite mlen_nil in He.
    rewrite (proj2 (Z.ltb_ge p end_)) by lia. cbn [negb body_value]. rewrite mlen_nil, Z.add_0_r, splice_nil.
    by rewrite (proj2 (Z.leb_le o cap)). }
  pose proof (char_step p u us Hat) as Hs. rewrite (next_chr_spec _ _ _ Hat).
  destruct (char_of (u :: us)) as [chr us']. cbn [fst snd]. destruct Hs as (Hat' & Hp & Hc1 & Hlt & ->).
  rewrite (proj2 (Z.ltb_lt p end_)) by done. cbn [negb]. bstep. rewrite mlen_app. pose proof (mlen_nonneg (body_value us')).
  destruct (Z.ltb_spec cap (o + mlen chr)); [by rewrite (proj2 (Z.leb_gt _ _)) by lia|].
  rewrite wrn_first by lia. rewrite (IH _ us') by (done || lia || (rewrite mlen_splice; lia)).
  rewrite <-Z.add_assoc. destruct (_ <=? cap); [|done]. by rewrite splice_app by lia.
Qed.

Lemma body_eq_loop_spec fuel : ∀ p us s len i, body_at p us → end_ - p < Z.of_nat fuel → 0 <= i <= len → len <= mlen s →
  body_eq_loop fuel buf p end_ s len i = Ok (bool_decide (slice s i (len - i) = body_value us)).
Proof using.
  induction fuel as [|fuel IH]; intros p us s len i Hat Hf Hi Hl.
  { destruct Hat as (_ & _ & ->). pose proof (mlen_nonneg (body_text us)). lia. }
  cbn [body_eq_loop]. assert (mlen (slice s i (len - i)) = len - i) as Hsl by (apply mlen_slice; lia).
  destruct us as [|u us].
  { destruct Hat as (_ & _ & He). change (body_text []) with (@nil Z) in He. rewrite mlen_nil in He.
    rewrite (proj2 (Z.ltb_ge p end_)) by lia. cbn [negb body_value]. f_equal. symmetry.
    destruct (Z.eqb_spec i len).
    - apply bool_decide_eq_true. destruct (slice s i (len - i)); [done|]. rewrite mlen_cons in Hsl.
      pose proof (mlen_nonneg l). lia.
    - apply bool_decide_eq_false. intros E. rewrite E, mlen_nil in Hsl. lia. }
  pose proof (char_step p u us Hat) as Hs. rewrite (next_chr_spec _ _ _ Hat).
  destruct (char_of (u :: us)) as [chr us']. cbn [fst snd]. destruct Hs as (Hat' & Hp & Hc1 & Hlt & ->).
  rewrite (proj2 (Z.ltb_lt p end_)) by done. cbn [negb]. bstep.
  destruct (Z.ltb_spec len (i + mlen chr)).
  { f_equal. symmetry. apply bool_decide_eq_false. intros E. rewrite E, mlen_app in Hsl.
    pose proof (mlen_nonneg (body_value us')). lia. }
  rewrite rdn_Ok by lia. bstep. replace (len - i) with (mlen chr + (len - (i + mlen chr))) by lia.
  rewrite slice_split by lia.
  assert (length (slice s i (mlen chr)) = length chr) as Hlen.
  { pose proof (mlen_slice s i (mlen chr)). unfold mlen in *. lia. }
  destruct (decide (slice s i (mlen chr) = chr)) as [E|E].
  - rewrite (bool_decide_eq_true_2 (slice s i (mlen chr) = chr)) by done. cbn [negb].
    rewrite (IH _ us') by (done || lia). f_equal. apply bool_decide_ext. rewrite E. split; [by intros ->|apply app_inv_head].
  - rewrite (bool_decide_eq_false_2 (slice s i (mlen chr) = chr)) by done. cbn [negb]. f_equal. symmetry.
    apply bool_decide_eq_false. intros Eq. by apply app_inj_1 in Eq as [? _].
Qed.
End bodies.

(** A slice of the text that holds the body [us], and the flag that goes with it. *)
Definition slice_is (buf : mem) (b : json_str_t) (esc : bool) (us : list unit_) : Prop :=
  Forall unit_ok us ∧ esc = body_esc us ∧ s_len b = mlen (body_text us) ∧
  match s_p b with Some p => holds buf p (body_text us) | None => us = [] end.

Lemma slice_esc buf b us : slice_is buf b true us → ∃ p, s_p b = Some p ∧ body_at buf (p + s_len b) p us.
Proof.
  intros (Hok & He & Hl & Hp). destruct (s_p b) as [p|]; [|by subst]. exists p. split; [done|].
  split; [done|]. split; [done|]. lia.
Qed.

Lemma body_expand_spec buf b esc us out cap : slice_is buf b esc us → 0 <= cap <= mlen out →
  json_body_expand buf b esc (Some out) cap =
    if mlen (body_value us) <=? cap then Ok (splice out 0 (body_value us), mlen (body_value us))
    else Err JSON_E_OVERFLOW.
Proof.
  intros Hs Hc. unfold json_body_expand. destruct esc; cbn [negb].
  - destruct (slice_esc _ _ _ Hs) as (p & -> & Hat). pose proof Hs as (_ & _ & Hl & _).
    pose proof (mlen_nonneg (body_text us)).
    rewrite (expand_loop_spec _ _ _ _ us) by (done || lia). by rewrite Z.add_0_l.
  - destruct Hs as (_ & He & Hl & Hp). rewrite (body_plain us), Hl by done.
    destruct (Z.ltb_spec cap (mlen (body_text us))); [by rewrite (proj2 (Z.leb_gt _ _)) by lia|].
    rewrite (proj2 (Z.leb_le _ _)) by lia. destruct (Z.eqb_spec (mlen (body_text us)) 0) as [E|E]; cbn [negb].
    + destruct (body_text us); [by rewrite splice_nil|]. rewrite mlen_cons in E. pose proof (mlen_nonneg l). lia.
    + destruct (s_p b) as [p|]; [|by subst]. rewrite (holds_rdn _ _ _ _ Hp) by done. bstep.
      by rewrite wrn_first by lia.
Qed.

Lemma body_eq_spec buf b esc us s len : slice_is buf b esc us → 0 <= len <= mlen s →
  json_body_eq buf b esc s len = Ok (bool_decide (slice s 0 len = body_value us)).
Proof.
  intros Hs Hc. pose proof (mlen_slice s 0 len ltac:(lia) ltac:(lia) ltac:(lia)) as Hsl.
  pose proof (body_shrinks us (proj1 Hs)) as Hshr. unfold json_body_eq. destruct esc; cbn [negb].
  - destruct (slice_esc _ _ _ Hs) as (p & -> & Hat). pose proof Hs as (_ & _ & Hl & _).
    pose proof (mlen_nonneg (body_text us)). destruct (Z.ltb_spec (s_len b) len).
    { f_equal. symmetry. apply bool_decide_eq_false. intros E. rewrite E in Hsl. lia. }
    rewrite (body_eq_loop_spec _ _ _ _ us) by (done || lia). by rewrite Z.sub_0_r.
  - destruct Hs as (_ & He & Hl & Hp). rewrite (body_plain us) in * by done. rewrite Hl.
    destruct (Z.eqb_spec (mlen (body_text us)) len) as [E|E]; cbn [negb].
    + destruct (Z.eqb_spec len 0) as [E0|E0].
      { f_equal. symmetry. apply bool_decide_eq_true. rewrite E0 in *.
        unfold mlen in E. rewrite (nil_length_inv (body_text us)) by lia. done. }
      destruct (s_p b) as [p|]; [|subst; done]. rewrite (holds_rdn _ _ _ _ Hp) by done. bstep. rewrite rdn_Ok by lia. bstep.
      f_equal. apply bool_decide_ext. done.
    + f_equal. symmetry. apply bool_decide_eq_false. intros E'. rewrite E' in Hsl. lia.
Qed.

(** ** The UTF-8 check *)

Lemma holds_head m p bs : holds m p bs → 1 <= mlen bs → get m p = get bs 0.
Proof.
  intros Hh Hl. destruct bs as [|x bs]; [rewrite mlen_nil in Hl; lia|]. pose proof (holds_pos _ _ _ Hh).
  rewrite mlen_cons in *. pose proof (mlen_nonneg bs). apply holds_cons in Hh as [E _].
  rewrite rd_Ok in E by lia. by injection E as ->.
Qed.

(** The first octet of an encoding. *)
Lemma utf8_head v : get (utf8_bytes v) 0 =
  if v <? 128 then v else if v <? 2048 then 192 + v / 64
  else if v <? 65536 then 224 + v / 4096 else 240 + v / 262144.
Proof. unfold utf8_bytes. by repeat case_match. Qed.

Lemma utf8_tail_cont todo : ∀ s p cp, utf8_tail todo s p cp = utf8_cont todo s p cp.
Proof.
  induction todo as [|todo IH]; intros s p cp; [done|]. cbn [utf8_tail utf8_cont].
  destruct (rd s p) as [b| |]; [|done|done]. bstep. by rewrite IH.
Qed.

Section valid.
Context (s : mem) (n : Z) (Hs : bytes_ok s) (Hn : 0 <= n <= mlen s).

(** One round of the loop reads what the reader of SmsIntl reads. *)
Lemma utf8_valid_step fuel p : 0 <= p < n →
  utf8_valid_loop (S fuel) s p n =
    r ← sms_utf8_next s n p;
    match r with Some (_, p') => utf8_valid_loop fuel s p' n | None => Ok false end.
Proof using Hs Hn.
  intros Hp. cbn [utf8_valid_loop]. rewrite (proj2 (Z.ltb_lt p n)) by lia. cbn [negb].
  pose proof (utf8_next_sound s Hs n p ltac:(lia) ltac:(lia)) as Hsound. revert Hsound.
  unfold sms_utf8_next. rewrite (proj2 (Z.leb_gt n p)) by lia. rewrite rd_Ok by lia. bstep. cbv zeta.
  pose proof (get_range s p Hs) as Hc. set (c := get s p) in *. destruct (Z.ltb_spec c 128); [done|].
  destruct (lead_fields c Hc) as (E1 & E2 & E3 & _).
  set (body := λ extra v, if n <? p + 1 + extra then Ok None else
    r ← utf8_cont (Z.to_nat extra) s (p + 1) v;
    match r with
    | None => Ok None
    | Some (v, k) =>
        if ((extra =? 1) && (v <? 128)) || ((extra =? 2) && (v <? 2048)) || ((extra =? 3) && (v <? 65536)) then Ok None else
        if (1114111 <? v) || ((55296 <=? v) && (v <=? 57343)) then Ok None else Ok (Some (v, k))
    end).
  assert (∀ extra v mn, (extra = 1 ∧ mn = 128 ∨ extra = 2 ∧ mn = 2048 ∨ extra = 3 ∧ mn = 65536) →
    (if n - (p + 1) <? extra then Ok false else
     r ← utf8_tail (Z.to_nat extra) s (p + 1) v;
     match r with
     | None => Ok false
     | Some (cp, p) =>
         if (cp <? mn) || (1114111 <? cp) then Ok false else
         if (55296 <=? cp) && (cp <=? 57343) then Ok false else utf8_valid_loop fuel s p n
     end) = r ← body extra v; match r with Some (_, p') => utf8_valid_loop fuel s p' n | None => Ok false end) as Hgo.
  { intros extra v mn Hx. unfold body. rewrite utf8_tail_cont.
    destruct (Z.ltb_spec (n - (p + 1)) extra), (Z.ltb_spec n (p + 1 + extra)); try lia; [done|].
    destruct (utf8_cont _ _ _ _) as [[[cp k]|]| |]; [|done..]. bstep.
    assert (((extra =? 1) && (cp <? 128)) || ((extra =? 2) && (cp <? 2048)) || ((extra =? 3) && (cp <? 65536))
      = (cp <? mn)) as -> by (destruct Hx as [[-> ->]|[[-> ->]|[-> ->]]]; cbn [Z.eqb Pos.eqb andb orb]; rewrite ?orb_false_r; done).
    destruct (cp <? mn); cbn [orb]; [done|]. destruct (1114111 <? cp); cbn [orb]; [done|].
    by destruct ((55296 <=? cp) && (cp <=? 57343)). }
  rewrite E1, E2, E3. intros Hsound.
  destruct (Z.leb_spec 192 c), (Z.ltb_spec c 224); cbn [andb] in *; try lia.
  - destruct (Z.leb_spec 194 c); cbn [andb].
    + rewrite (proj2 (Z.leb_le c 223)) by lia. apply (Hgo 1); by left.
    + rewrite (proj2 (Z.leb_gt 224 c)), (proj2 (Z.leb_gt 240 c)) by lia. cbn [andb]. fold (body 1 (Z.land c 31)) in *.
      destruct (body 1 (Z.land c 31)) as [[[v k]|]| |]; [|done..]. exfalso.
      destruct Hsound as (Hsc & _ & _ & Hh). pose proof (utf8_head v) as Hv. pose proof (holds_head _ _ _ Hh (proj1 (utf8_len_range v))) as Hg.
      rewrite <-Hg in Hv. fold c in Hv. unfold scalar in Hsc.
      repeat case_match; Z.to_euclidean_division_equations; lia.
  - rewrite (proj2 (Z.leb_gt c 223)) by lia. rewrite andb_false_r.
    destruct (Z.leb_spec 224 c), (Z.ltb_spec c 240); cbn [andb] in *; try lia.
    + rewrite (proj2 (Z.leb_le c 239)) by lia. apply (Hgo 2); by right; left.
    + rewrite (proj2 (Z.leb_gt c 239)) by lia. rewrite (proj2 (Z.leb_le 240 c)) in * by lia. cbn [andb] in *.
      destruct (Z.leb_spec c 244).
      * rewrite (proj2 (Z.ltb_lt c 248)) by lia. apply (Hgo 3); by right; right.
      * destruct (Z.ltb_spec c 248); [|done]. fold (body 3 (Z.land c 7)) in *.
        destruct (body 3 (Z.land c 7)) as [[[v k]|]| |]; [|done..]. exfalso.
        destruct Hsound as (Hsc & _ & _ & Hh). pose proof (utf8_head v) as Hv. pose proof (holds_head _ _ _ Hh (proj1 (utf8_len_range v))) as Hg.
        rewrite <-Hg in Hv. fold c in Hv. unfold scalar in Hsc.
        repeat case_match; Z.to_euclidean_division_equations; lia.
  - rewrite (proj2 (Z.leb_gt 194 c)), (proj2 (Z.leb_gt 224 c)), (proj2 (Z.leb_gt 240 c)) by lia. cbn [andb].
    rewrite (proj2 (Z.leb_gt 224 c)), (proj2 (Z.leb_gt 240 c)) in * by lia. done.
Qed.

Lemma slice_app_holds p cs x y : 0 <= p → p + cs <= mlen s → slice s p cs = x ++ y → mlen x <= cs →
  holds s p x ∧ slice s (p + mlen x) (cs - mlen x) = y.
Proof using.
  intros Hp Hl E Hx. pose proof (mlen_nonneg x). replace cs with (mlen x + (cs - mlen x)) in E by lia.
  rewrite slice_split in E by lia. apply app_inj_1 in E as [E1 E2].
  - split; [|done]. unfold holds. split_and!; [done|lia|done].
  - pose proof (mlen_slice s p (mlen x)). unfold mlen in *. lia.
Qed.

Lemma utf8_valid_loop_spec fuel : ∀ p, 0 <= p <= n → n - p < Z.of_nat fuel →
  ∃ r, utf8_valid_loop fuel s p n = Ok r ∧ (r = true ↔ ∃ cs, Forall scalar cs ∧ slice s p (n - p) = text cs).
Proof using Hs Hn.
  induction fuel as [|fuel IH]; intros p Hp Hf; [lia|]. destruct (decide (p = n)) as [->|Hne].
  { cbn [utf8_valid_loop]. rewrite Z.ltb_irrefl. exists true. split; [done|]. split; [|done]. intros _.
    exists []. split; [constructor|]. by rewrite Z.sub_diag. }
  rewrite utf8_valid_step by lia. pose proof (mlen_slice s p (n - p) ltac:(lia) ltac:(lia) ltac:(lia)) as Hm.
  assert (∀ cs, Forall scalar cs → slice s p (n - p) = text cs → ∃ c cs', cs = c :: cs' ∧
    sms_utf8_next s n p = Ok (Some (c, p + utf8_len c)) ∧ Forall scalar cs' ∧
    slice s (p + utf8_len c) (n - (p + utf8_len c)) = text cs') as Hcs.
  { intros cs Hcs E. destruct cs as [|c cs]; [rewrite E in Hm; change (mlen (text [])) with 0 in Hm; lia|].
    apply Forall_cons_iff in Hcs as [Hc Hcs]. rewrite text_cons in E. pose proof E as E'. rewrite E, mlen_app in Hm.
    pose proof (mlen_nonneg (text cs)). apply slice_app_holds in E' as [Hh Er]; [|lia|lia|lia].
    fold (utf8_len c) in *. exists c, cs. split; [done|]. split; [apply utf8_next_complete; done || lia|].
    split; [done|]. rewrite <-Er. f_equal. lia. }
  pose proof (utf8_next_sound s Hs n p ltac:(lia) ltac:(lia)) as Hsound.
  destruct (sms_utf8_next s n p) as [[[c j]|]| |] eqn:En; [| |done..]; bstep.
  - destruct Hsound as (Hc & -> & Hj & Hh). pose proof (utf8_len_range c).
    destruct (IH (p + utf8_len c)) as (r & -> & Hr); [lia|lia|]. exists r. split; [done|]. rewrite Hr. split.
    + intros (cs & Hcs' & E). exists (c :: cs). split; [by constructor|]. rewrite text_cons, <-E.
      replace (n - p) with (utf8_len c + (n - (p + utf8_len c))) by lia. rewrite slice_split by lia.
      f_equal. apply Hh.
    + intros (cs & Hcs' & E). destruct (Hcs cs Hcs' E) as (c' & cs' & -> & En' & Hcs2 & E2).
      injection En' as <-. by exists cs'.
  - exists false. split; [done|]. split; [done|]. intros (cs & Hcs' & E).
    by destruct (Hcs cs Hcs' E) as (? & ? & _ & En' & _).
Qed.
End valid.

(** The UTF-8 check is exact.  It never leaves the string, and it answers yes
    exactly when the octets are the canonical encodings of a sequence of Unicode
    scalar values. *)
Theorem json_utf8_valid_exact s n : bytes_ok s → 0 <= n <= mlen s →
  ∃ r, json_utf8_valid (Some s) n = Ok r ∧
    (r = true ↔ ∃ cs, Forall scalar cs ∧ slice s 0 n = text cs).
Proof.
  intros Hs Hn. destruct (utf8_valid_loop_spec s n Hs Hn (S (Z.to_nat n)) 0) as (r & E & Hr); [lia|lia|].
  exists r. split; [exact E|]. by rewrite Z.sub_0_r in Hr.
Qed.

Lemma json_utf8_valid_exact_witness : ∃ r, json_utf8_valid (Some [226; 130; 172; 33]) 4 = Ok r ∧
  (r = true ↔ ∃ cs, Forall scalar cs ∧ slice [226; 130; 172; 33] 0 4 = text cs).
Proof. apply (json_utf8_valid_exact [226; 130; 172; 33] 4); [repeat constructor; lia|by vm_compute]. Defined.

End JsonStr.
