(* ===== verification/JsonParse.v ===== *)
(** * JsonParse: the JSON parser

    Models the parser of [json/src/json.c]: one pass over the text that fills the
    caller's pool with nodes linked parent to child and sibling to sibling.  The
    text and the pool are arguments; a pointer into the text is an offset.  The
    recursion of [parse_value] and [parse_container] and the loop over members are
    fixpoints on fuel; three units per octet and a few more are enough, which
    JsonGrammar proves. *)

From S2P Require Import Prelude Endian SmsIntl SmsText JsonStr.

Definition JSON_MAX_DEPTH : Z := 32.

Definition JSON_T_NULL : Z := 0.
Definition JSON_T_BOOL : Z := 1.
Definition JSON_T_NUM : Z := 2.
Definition JSON_T_STR : Z := 3.
Definition JSON_T_ARR : Z := 4.
Definition JSON_T_OBJ : Z := 5.

Definition JSON_F_ESC : Z := 1.
Definition JSON_F_KESC : Z := 2.
Definition JSON_F_INT : Z := 4.

Module JsonParse.
Import JsonStr.

Record json_node := JsonNode {
  n_type : Z; n_flags : Z; n_count : Z; n_first : Z; n_next : Z; n_key : json_str_t; n_raw : json_str_t }.

Definition node_at (ns : list json_node) (i : Z) : res json_node :=
  if i <? 0 then Ub else match ns !! Z.to_nat i with Some n => Ok n | None => Ub end.
Definition node_set (ns : list json_node) (i : Z) (n : json_node) : res (list json_node) :=
  if (0 <=? i) && (i <? Z.of_nat (length ns)) then Ok (<[Z.to_nat i := n]> ns) else Ub.
(** [nodes[i].field = ...;] *)
Definition node_upd (ns : list json_node) (i : Z) (f : json_node → json_node) : res (list json_node) :=
  n ← node_at ns i; node_set ns i (f n).

Definition set_value (type flags : Z) (raw : json_str_t) (n : json_node) : json_node :=
  JsonNode type (Z.lor (n_flags n) flags) (n_count n) (n_first n) (n_next n) (n_key n) raw.
Definition set_type (type : Z) (n : json_node) : json_node :=
  JsonNode type (n_flags n) (n_count n) (n_first n) (n_next n) (n_key n) (n_raw n).
Definition set_key (key : json_str_t) (kesc : bool) (n : json_node) : json_node :=
  JsonNode (n_type n) (if kesc then Z.lor (n_flags n) JSON_F_KESC else n_flags n) (n_count n) (n_first n) (n_next n)
    key (n_raw n).
Definition set_next (next : Z) (n : json_node) : json_node :=
  JsonNode (n_type n) (n_flags n) (n_count n) (n_first n) next (n_key n) (n_raw n).
Definition set_first (first : Z) (n : json_node) : json_node :=
  JsonNode (n_type n) (n_flags n) (n_count n) first (n_next n) (n_key n) (n_raw n).
Definition inc_count (n : json_node) : json_node :=
  JsonNode (n_type n) (n_flags n) (u32 (n_count n + 1)) (n_first n) (n_next n) (n_key n) (n_raw n).

Definition zero_node : json_node := JsonNode JSON_T_NULL 0 0 0 0 no_str no_str.

(** The parsing context: the pool of the document, its count, and the cursor. *)
Record pctx := Pctx { c_nodes : list json_node; c_count : Z; c_p : Z }.
Definition with_nodes (c : pctx) (ns : list json_node) : pctx := Pctx ns (c_count c) (c_p c).
Definition move (c : pctx) (p : Z) : pctx := Pctx (c_nodes c) (c_count c) p.

Section parser.
Context (buf : mem) (end_ cap : Z).

(** ** Tokens *)

(** [while (p < c->end && f( *p)) p++;] *)
Fixpoint span_loop (f : Z → bool) (fuel : nat) (p : Z) : res Z :=
  match fuel with
  | O => Ub
  | S fuel =>
      if p <? end_ then c ← rd buf p; if f c then span_loop f fuel (p + 1) else Ok p
      else Ok p
  end.
Definition span (f : Z → bool) (p : Z) : res Z := span_loop f (S (Z.to_nat (end_ - p))) p.

Definition skip_ws (c : pctx) : res pctx := p ← span json_is_ws (c_p c); Ok (move c p).

(** [None] is [JSON_E_NODES]. *)
Definition alloc_node (c : pctx) : res (option (pctx * Z)) :=
  if cap <=? c_count c then Ok None else
  let i := c_count c in
  ns ← node_set (c_nodes c) i zero_node;
  Ok (Some (Pctx ns (u32 (i + 1)) (c_p c), i)).

(** The four digits of an escape are hex digits. *)
Fixpoint hex_check (todo : nat) (p : Z) : res bool :=
  match todo with
  | O => Ok true
  | S todo => c ← rd buf p; if json_hex c <? 0 then Ok false else hex_check todo (p + 1)
  end.

(** The offset of the closing quote and whether an escape was met; [None] is
    [JSON_E_SYNTAX]. *)
Fixpoint str_loop (fuel : nat) (p : Z) (esc : bool) : res (option (Z * bool)) :=
  match fuel with
  | O => Ub
  | S fuel =>
      if negb (p <? end_) then Ok None else
      ch ← rd buf p;
      if ch =? 34 then Ok (Some (p, esc)) else
      if ch =? 92 then
        if end_ - p <? 2 then Ok None else
        c ← rd buf (p + 1);
        if (c =? 34) || (c =? 92) || (c =? 47) || (c =? 98) || (c =? 102) || (c =? 110) || (c =? 114) || (c =? 116)
        then str_loop fuel (p + 2) true
        else if c =? 117 then
          if end_ - p <? 6 then Ok None else
          ok ← hex_check 4 (p + 2);
          if negb ok then Ok None else str_loop fuel (p + 6) true
        else Ok None
      else
      if ch <? 32 then Ok None else str_loop fuel (p + 1) esc
  end.

Definition scan_str (c : pctx) : res (option (json_str_t * bool) * pctx) :=
  let start := c_p c + 1 in
  r ← str_loop (S (Z.to_nat (end_ - start))) start false;
  match r with
  | None => Ok (None, c)
  | Some (p, esc) => Ok (Some (JStr (Some start) (u32 (p - start)), esc), move c (p + 1))
  end.

(** [p < c->end && *p ...] *)
Definition peek (p : Z) (f : Z → bool) : res bool :=
  if p <? end_ then c ← rd buf p; Ok (f c) else Ok false.
(** [if (p >= c->end || !json_is_digit( *p)) return JSON_E_SYNTAX;] and the loop over digits. *)
Definition some_digits (p : Z) : res (option Z) :=
  d ← peek p json_is_digit;
  if negb d then Ok None else p ← span json_is_digit p; Ok (Some p).

(** The fraction and the exponent: the offset behind and whether there was none. *)
Definition scan_frac (p : Z) : res (option (Z * bool)) :=
  dot ← peek p (Z.eqb 46);
  if negb dot then Ok (Some (p, true)) else
  r ← some_digits (p + 1);
  Ok (match r with Some p => Some (p, false) | None => None end).
Definition scan_exp (p : Z) (isint : bool) : res (option (Z * bool)) :=
  e ← peek p (λ c, (c =? 101) || (c =? 69));
  if negb e then Ok (Some (p, isint)) else
  sign ← peek (p + 1) (λ c, (c =? 43) || (c =? 45));
  r ← some_digits (p + if (sign : bool) then 2 else 1);
  Ok (match r with Some p => Some (p, false) | None => None end).

Definition scan_num (c : pctx) : res (option (json_str_t * bool) * pctx) :=
  let start := c_p c in
  ch ← rd buf start;
  let p := if ch =? 45 then start + 1 else start in
  d ← peek p json_is_digit;
  if negb d then Ok (None, c) else
  ch ← rd buf p;
  p ← (if ch =? 48 then Ok (p + 1) else span json_is_digit p);
  r ← scan_frac p;
  match r with
  | None => Ok (None, c)
  | Some (p, isint) =>
      r ← scan_exp p isint;
      match r with
      | None => Ok (None, c)
      | Some (p, isint) => Ok (Some (JStr (Some start) (u32 (p - start)), isint), move c p)
      end
  end.

Definition scan_lit (c : pctx) (lit : list Z) : res (option json_str_t * pctx) :=
  if end_ - c_p c <? mlen lit then Ok (None, c) else
  bs ← rdn buf (c_p c) (mlen lit);
  if bool_decide (bs = lit) then Ok (Some (JStr (Some (c_p c)) (mlen lit)), move c (c_p c + mlen lit))
  else Ok (None, c).

(** ** Values *)

Definition lit_true : list Z := [116; 114; 117; 101].
Definition lit_false : list Z := [102; 97; 108; 115; 101].
Definition lit_null : list Z := [110; 117; 108; 108].

(** The name of a member up to its colon; nothing for an element of an array. *)
Definition member_name (obj : bool) (c : pctx) : res (pctx * Z * json_str_t * bool) :=
  if obj then
    c ← skip_ws c;
    q ← peek (c_p c) (Z.eqb 34);
    if negb q then Ok (c, JSON_E_SYNTAX, no_str, false) else
    '(r, c) ← scan_str c;
    match r with
    | None => Ok (c, JSON_E_SYNTAX, no_str, false)
    | Some (key, kesc) =>
        c ← skip_ws c;
        q ← peek (c_p c) (Z.eqb 58);
        if negb q then Ok (c, JSON_E_SYNTAX, key, kesc) else Ok (move c (c_p c + 1), JSON_OK, key, kesc)
    end
  else Ok (c, JSON_OK, no_str, false).

(** The child is linked behind [prev], or as the first of the container [idx]. *)
Definition link_child (ns : list json_node) (idx prev child : Z) (key : json_str_t) (kesc : bool)
    : res (list json_node) :=
  ns ← node_upd ns child (set_key key kesc);
  ns ← (if negb (prev =? 0) then node_upd ns prev (set_next child) else node_upd ns idx (set_first child));
  node_upd ns idx inc_count.

Definition scalar_node (c : pctx) (out type flags : Z) (raw : json_str_t) : res (pctx * Z * Z) :=
  ns ← node_upd (c_nodes c) out (set_value type flags raw); Ok (with_nodes c ns, JSON_OK, out).
(** [n->type = ...; return scan_lit(...);] *)
Definition lit_value (c : pctx) (out type : Z) (lit : list Z) : res (pctx * Z * Z) :=
  ns ← node_upd (c_nodes c) out (set_type type);
  '(r, c) ← scan_lit (with_nodes c ns) lit;
  match r with
  | None => Ok (c, JSON_E_SYNTAX, out)
  | Some raw => scalar_node c out type 0 raw
  end.

Fixpoint parse_value (fuel : nat) (depth : Z) (c : pctx) : res (pctx * Z * Z) :=
  match fuel with
  | O => Ub
  | S fuel =>
      if JSON_MAX_DEPTH <=? depth then Ok (c, JSON_E_DEPTH, 0) else
      c ← skip_ws c;
      if end_ <=? c_p c then Ok (c, JSON_E_SYNTAX, 0) else
      a ← alloc_node c;
      match a with
      | None => Ok (c, JSON_E_NODES, 0)
      | Some (c, out) =>
          ch ← rd buf (c_p c);
          if ch =? 123 then '(c, rc) ← parse_container fuel depth c out true; Ok (c, rc, out)
          else if ch =? 91 then '(c, rc) ← parse_container fuel depth c out false; Ok (c, rc, out)
          else if ch =? 34 then
            '(r, c) ← scan_str c;
            match r with
            | None => Ok (c, JSON_E_SYNTAX, out)
            | Some (raw, esc) => scalar_node c out JSON_T_STR (if (esc : bool) then JSON_F_ESC else 0) raw
            end
          else if ch =? 116 then lit_value c out JSON_T_BOOL lit_true
          else if ch =? 102 then lit_value c out JSON_T_BOOL lit_false
          else if ch =? 110 then lit_value c out JSON_T_NULL lit_null
          else
            '(r, c) ← scan_num c;
            match r with
            | None => Ok (c, JSON_E_SYNTAX, out)
            | Some (raw, isint) => scalar_node c out JSON_T_NUM (if (isint : bool) then JSON_F_INT else 0) raw
            end
      end
  end
with parse_container (fuel : nat) (depth : Z) (c : pctx) (idx : Z) (obj : bool) : res (pctx * Z) :=
  match fuel with
  | O => Ub
  | S fuel =>
      let start := c_p c in
      let close := if obj then 125 else 93 in
      c ← skip_ws (move c (start + 1));
      if end_ <=? c_p c then Ok (c, JSON_E_SYNTAX) else
      ch ← rd buf (c_p c);
      '(c, rc) ← (if ch =? close then Ok (move c (c_p c + 1), JSON_OK) else members fuel depth c idx obj close 0);
      if negb (rc =? JSON_OK) then Ok (c, rc) else
      ns ← node_upd (c_nodes c) idx
             (set_value (if obj then JSON_T_OBJ else JSON_T_ARR) 0 (JStr (Some start) (u32 (c_p c - start))));
      Ok (with_nodes c ns, JSON_OK)
  end
with members (fuel : nat) (depth : Z) (c : pctx) (idx : Z) (obj : bool) (close prev : Z) : res (pctx * Z) :=
  match fuel with
  | O => Ub
  | S fuel =>
      '(c, rc, key, kesc) ← member_name obj c;
      if negb (rc =? JSON_OK) then Ok (c, rc) else
      '(c, rc, child) ← parse_value fuel (depth + 1) c;
      if negb (rc =? JSON_OK) then Ok (c, rc) else
      ns ← link_child (c_nodes c) idx prev child key kesc;
      c ← skip_ws (with_nodes c ns);
      if end_ <=? c_p c then Ok (c, JSON_E_SYNTAX) else
      ch ← rd buf (c_p c);
      if ch =? 44 then members fuel depth (move c (c_p c + 1)) idx obj close child
      else if negb (ch =? close) then Ok (c, JSON_E_SYNTAX)
      else Ok (move c (c_p c + 1), JSON_OK)
  end.
(** One unfolding of each. *)
Lemma parse_value_S fuel depth c : parse_value (S fuel) depth c =
   (if JSON_MAX_DEPTH <=? depth then Ok (c, JSON_E_DEPTH, 0) else
    c ← skip_ws c;
    if end_ <=? c_p c then Ok (c, JSON_E_SYNTAX, 0) else
    a ← alloc_node c;
    match a with
    | None => Ok (c, JSON_E_NODES, 0)
    | Some (c, out) =>
        ch ← rd buf (c_p c);
        if ch =? 123 then '(c, rc) ← parse_container fuel depth c out true; Ok (c, rc, out)
        else if ch =? 91 then '(c, rc) ← parse_container fuel depth c out false; Ok (c, rc, out)
        else if ch =? 34 then
          '(r, c) ← scan_str c;
          match r with
          | None => Ok (c, JSON_E_SYNTAX, out)
          | Some (raw, esc) => scalar_node c out JSON_T_STR (if (esc : bool) then JSON_F_ESC else 0) raw
          end
        else if ch =? 116 then lit_value c out JSON_T_BOOL lit_true
        else if ch =? 102 then lit_value c out JSON_T_BOOL lit_false
        else if ch =? 110 then lit_value c out JSON_T_NULL lit_null
        else
          '(r, c) ← scan_num c;
          match r with
          | None => Ok (c, JSON_E_SYNTAX, out)
          | Some (raw, isint) => scalar_node c out JSON_T_NUM (if (isint : bool) then JSON_F_INT else 0) raw
          end
    end).
Proof. reflexivity. Qed.
Lemma parse_container_S fuel depth c idx obj : parse_container (S fuel) depth c idx obj =
   (let start := c_p c in
    let close := if obj then 125 else 93 in
    c ← skip_ws (move c (start + 1));
    if end_ <=? c_p c then Ok (c, JSON_E_SYNTAX) else
    ch ← rd buf (c_p c);
    '(c, rc) ← (if ch =? close then Ok (move c (c_p c + 1), JSON_OK) else members fuel depth c idx obj close 0);
    if negb (rc =? JSON_OK) then Ok (c, rc) else
    ns ← node_upd (c_nodes c) idx
           (set_value (if obj then JSON_T_OBJ else JSON_T_ARR) 0 (JStr (Some start) (u32 (c_p c - start))));
    Ok (with_nodes c ns, JSON_OK)).
Proof. reflexivity. Qed.
Lemma members_S fuel depth c idx obj close prev : members (S fuel) depth c idx obj close prev =
   ('(c, rc, key, kesc) ← member_name obj c;
    if negb (rc =? JSON_OK) then Ok (c, rc) else
    '(c, rc, child) ← parse_value fuel (depth + 1) c;
    if negb (rc =? JSON_OK) then Ok (c, rc) else
    ns ← link_child (c_nodes c) idx prev child key kesc;
    c ← skip_ws (with_nodes c ns);
    if end_ <=? c_p c then Ok (c, JSON_E_SYNTAX) else
    ch ← rd buf (c_p c);
    if ch =? 44 then members fuel depth (move c (c_p c + 1)) idx obj close child
    else if negb (ch =? close) then Ok (c, JSON_E_SYNTAX)
    else Ok (move c (c_p c + 1), JSON_OK)).
Proof. reflexivity. Qed.
End parser.

(** ** Documents *)

Record json_doc := JsonDoc {
  d_nodes : option (list json_node); d_cap : Z; d_count : Z; d_buf : option mem; d_len : Z; d_err_off : Z }.

Definition json_doc_init (nodes : option (list json_node)) (cap : Z) : json_doc :=
  JsonDoc nodes (match nodes with None => 0 | Some _ => cap end) 0 None 0 0.

Definition json_nodes_for (len : Z) : Z :=
  let n := len / 2 + 2 in
  if 4294967295 <? n then 4294967295 else n.

Definition has_bom (buf : mem) (len : Z) : res bool :=
  if 3 <=? len then
    b0 ← rd buf 0; b1 ← rd buf 1; b2 ← rd buf 2; Ok ((b0 =? 239) && (b1 =? 187) && (b2 =? 191))
  else Ok false.

Definition json_parse (d : option json_doc) (buf : option mem) (len : Z) : res (option json_doc * Z) :=
  match d, buf with
  | Some d, Some b =>
      match d_nodes d with
      | None => Ok (Some d, JSON_E_INVAL)
      | Some nodes =>
          if (d_cap d =? 0) || (2147483647 <? len) then Ok (Some d, JSON_E_INVAL) else
          bom ← has_bom b len;
          let c := Pctx nodes 0 (if (bom : bool) then 3 else 0) in
          '(c, rc, _) ← parse_value b len (d_cap d) (Z.to_nat (3 * len + 4)) 0 c;
          '(c, rc) ← (if rc =? JSON_OK then
                        c ← skip_ws b len c;
                        Ok (c, if negb (c_p c =? len) then JSON_E_TRAILING else rc)
                      else Ok (c, rc));
          if negb (rc =? JSON_OK) then
            Ok (Some (JsonDoc (Some (c_nodes c)) (d_cap d) 0 (Some b) len (c_p c)), rc)
          else Ok (Some (JsonDoc (Some (c_nodes c)) (d_cap d) (c_count c) (Some b) len 0), JSON_OK)
      end
  | _, _ => Ok (d, JSON_E_INVAL)
  end.

End JsonParse.
