(* ===== verification/JsonGrammar.v ===== *)
(** * JsonGrammar: what the JSON parser accepts

    The grammar of RFC 8259 over octets (a string may hold any octet from 32 up, UTF-8 or
    not, and a byte order mark may stand in front, as json.h has it) as concrete syntax
    trees with their text, white space
    included, and the nodes that describe a tree in the pool.  The parser accepts
    exactly the texts of trees that are not nested too deeply and whose nodes fit the
    pool, leaves exactly those nodes, and is safe on every text. *)

From S2P Require Import Prelude Endian SmsIntl SmsText JsonStr JsonParse.

Module JsonGrammar.
Import JsonStr JsonParse.

(** ** Concrete syntax *)

(** A number of RFC 8259 section 6: sign, digits, fraction, exponent. *)
Record number := Number {
  nu_neg : bool; nu_int : list Z; nu_frac : option (list Z); nu_exp : option (Z * option Z * list Z) }.

Inductive lit := LNull | LTrue | LFalse.

(** White space stands behind the opening bracket of an empty container, and around
    the name and the value of an item; the name of an array's element is not
    written. *)
Inductive cst :=
| CLit (l : lit)
| CNum (n : number)
| CStr (us : list unit_)
| CCont (obj : bool) (w : list Z) (items : list item)
with item := Item (w1 : list Z) (key : list unit_) (w2 w3 : list Z) (v : cst) (w4 : list Z).

Definition i_val (it : item) : cst := let 'Item _ _ _ _ v _ := it in v.
Definition i_key (it : item) : list unit_ := let 'Item _ key _ _ _ _ := it in key.

Section ind.
Context (P : cst → Prop) (HL : ∀ l, P (CLit l)) (HN : ∀ n, P (CNum n)) (HS : ∀ us, P (CStr us)).
Context (HC : ∀ obj w items, Forall (λ it, P (i_val it)) items → P (CCont obj w items)).
Fixpoint cst_ind' (v : cst) : P v :=
  match v with
  | CLit l => HL l
  | CNum n => HN n
  | CStr us => HS us
  | CCont obj w items =>
      HC obj w items
        ((fix go l : Forall (λ it, P (i_val it)) l :=
            match l with
            | [] => Forall_nil_2 _
            | it :: l =>
                Forall_cons_2 (λ it, P (i_val it)) it l
                  (match it return P (i_val it) with Item _ _ _ _ v _ => cst_ind' v end) (go l)
            end) items)
  end.
End ind.

(** *** Text *)

Definition sign_text (neg : bool) : list Z := if neg then [45] else [].
Definition frac_text (fr : option (list Z)) : list Z := match fr with Some ds => 46 :: ds | None => [] end.
Definition exp_text (ex : option (Z * option Z * list Z)) : list Z :=
  match ex with
  | Some (e, sign, ds) => e :: match sign with Some s => [s] | None => [] end ++ ds
  | None => []
  end.
Definition num_text (n : number) : list Z :=
  sign_text (nu_neg n) ++ nu_int n ++ frac_text (nu_frac n) ++ exp_text (nu_exp n).
Definition lit_text (l : lit) : list Z :=
  match l with LNull => lit_null | LTrue => lit_true | LFalse => lit_false end.
Definition opening (obj : bool) : Z := if obj then 123 else 91.
Definition closing (obj : bool) : Z := if obj then 125 else 93.

(** The text of an item up to its value. *)
Definition item_pre (obj : bool) (it : item) : list Z :=
  let 'Item w1 key w2 w3 _ _ := it in
  if obj then w1 ++ 34 :: body_text key ++ 34 :: w2 ++ 58 :: w3 else w3.

Fixpoint print (v : cst) : list Z :=
  match v with
  | CLit l => lit_text l
  | CNum n => num_text n
  | CStr us => 34 :: body_text us ++ [34]
  | CCont obj w items =>
      opening obj ::
      match items with
      | [] => w ++ [closing obj]
      | _ =>
          (fix go l :=
             match l with
             | [] => []
             | it :: l =>
                 match it with Item _ _ _ _ v w4 =>
                   item_pre obj it ++ print v ++ w4 ++ match l with [] => [closing obj] | _ => 44 :: go l end
                 end
             end) items
      end
  end.
(** The items of a container and its closing bracket. *)
Definition prints (obj : bool) : list item → list Z :=
  fix go l :=
    match l with
    | [] => []
    | it :: l =>
        match it with Item _ _ _ _ v w4 =>
          item_pre obj it ++ print v ++ w4 ++ match l with [] => [closing obj] | _ => 44 :: go l end
        end
    end.
Definition item_text (obj : bool) (it : item) : list Z :=
  let 'Item _ _ _ _ v w4 := it in item_pre obj it ++ print v ++ w4.

Lemma prints_cons obj it l :
  prints obj (it :: l) = item_text obj it ++ match l with [] => [closing obj] | _ => 44 :: prints obj l end.
Proof. destruct it. cbn [item_text]. by rewrite <-!app_assoc. Qed.
Lemma print_cont obj w items :
  print (CCont obj w items) = opening obj :: match items with [] => w ++ [closing obj] | _ => prints obj items end.
Proof. by destruct items. Qed.

(** *** Well-formedness *)

Definition ws_ok (w : list Z) : Prop := Forall (λ c, json_is_ws c = true) w.
Definition digits_ok (ds : list Z) : Prop := Forall (λ c, json_is_digit c = true) ds.
Definition int_ok (ds : list Z) : Prop := digits_ok ds ∧ ds ≠ [] ∧ (get ds 0 = 48 → ds = [48]).
Definition frac_ok (fr : option (list Z)) : Prop :=
  match fr with Some ds => digits_ok ds ∧ ds ≠ [] | None => True end.
Definition exp_ok (ex : option (Z * option Z * list Z)) : Prop :=
  match ex with
  | Some (e, sign, ds) =>
      (e = 101 ∨ e = 69) ∧ digits_ok ds ∧ ds ≠ [] ∧ match sign with Some s => s = 43 ∨ s = 45 | None => True end
  | None => True
  end.
Definition num_ok (n : number) : Prop := int_ok (nu_int n) ∧ frac_ok (nu_frac n) ∧ exp_ok (nu_exp n).
Definition item_ok (obj : bool) (it : item) : Prop :=
  let 'Item w1 key w2 w3 _ w4 := it in
  ws_ok w1 ∧ Forall unit_ok key ∧ ws_ok w2 ∧ ws_ok w3 ∧ ws_ok w4 ∧
  (obj = false → w1 = [] ∧ key = [] ∧ w2 = []).

Fixpoint cst_ok (v : cst) : Prop :=
  match v with
  | CLit _ => True
  | CNum n => num_ok n
  | CStr us => Forall unit_ok us
  | CCont obj w items =>
      ws_ok w ∧ (items ≠ [] → w = []) ∧
      (fix go l :=
         match l with
         | [] => True
         | it :: l => match it with Item _ _ _ _ v _ => (item_ok obj it ∧ cst_ok v) ∧ go l end
         end) items
  end.

(** Nodes and nesting. *)
Fixpoint size (v : cst) : nat :=
  match v with
  | CCont _ _ items =>
      S ((fix go l := match l with [] => O | it :: l => match it with Item _ _ _ _ v _ => size v + go l end end)%nat items)
  | _ => 1%nat
  end.
Fixpoint sizes (l : list item) : nat :=
  match l with [] => O | it :: l => match it with Item _ _ _ _ v _ => size v + sizes l end end%nat.
Fixpoint nesting (v : cst) : Z :=
  match v with
  | CCont _ _ items =>
      1 + (fix go l := match l with [] => 0 | it :: l => match it with Item _ _ _ _ v _ => Z.max (nesting v) (go l) end end) items
  | _ => 1
  end.
Fixpoint nestings (l : list item) : Z :=
  match l with [] => 0 | it :: l => match it with Item _ _ _ _ v _ => Z.max (nesting v) (nestings l) end end.

(** *** Nodes *)

Definition val_type (v : cst) : Z :=
  match v with
  | CLit LNull => JSON_T_NULL | CLit _ => JSON_T_BOOL | CNum _ => JSON_T_NUM | CStr _ => JSON_T_STR
  | CCont obj _ _ => if obj then JSON_T_OBJ else JSON_T_ARR
  end.
Definition num_isint (n : number) : bool :=
  match nu_frac n, nu_exp n with None, None => true | _, _ => false end.
Definition val_flags (v : cst) : Z :=
  match v with
  | CStr us => if body_esc us then JSON_F_ESC else 0
  | CNum n => if num_isint n then JSON_F_INT else 0
  | _ => 0
  end.
Definition val_raw (pos : Z) (v : cst) : json_str_t :=
  match v with
  | CStr us => JStr (Some (pos + 1)) (mlen (body_text us))
  | _ => JStr (Some pos) (mlen (print v))
  end.
Definition child_count (v : cst) : Z :=
  match v with CCont _ _ items => Z.of_nat (length items) | _ => 0 end.
(** The node of the value [v] whose text starts at [pos] and whose index is [idx]. *)
Definition root_node (pos idx : Z) (key : json_str_t) (kesc : bool) (next : Z) (v : cst) : json_node :=
  JsonNode (val_type v) (if kesc then Z.lor (val_flags v) JSON_F_KESC else val_flags v) (child_count v)
    (if child_count v =? 0 then 0 else idx + 1) next key (val_raw pos v).
Definition key_slice (obj : bool) (pos : Z) (it : item) : json_str_t :=
  let 'Item w1 key _ _ _ _ := it in
  if obj then JStr (Some (pos + mlen w1 + 1)) (mlen (body_text key)) else no_str.
Definition key_esc (obj : bool) (it : item) : bool := if obj then body_esc (i_key it) else false.

(** The nodes below a value, in the order of the text. *)
Fixpoint subs (pos idx : Z) (v : cst) : list json_node :=
  match v with
  | CCont obj _ items =>
      (fix go q i l :=
         match l with
         | [] => []
         | it :: l =>
             match it with Item _ _ _ _ v w4 =>
               let at_ := q + mlen (item_pre obj it) in
               let i' := i + Z.of_nat (size v) in
               (root_node at_ i (key_slice obj q it) (key_esc obj it) (match l with [] => 0 | _ => i' end) v
                :: subs at_ i v) ++ go (at_ + mlen (print v) + mlen w4 + 1) i' l
             end
         end) (pos + 1) (idx + 1) items
  | _ => []
  end.
Definition encs (obj : bool) : Z → Z → list item → list json_node :=
  fix go q i l :=
    match l with
    | [] => []
    | it :: l =>
        match it with Item _ _ _ _ v w4 =>
          let at_ := q + mlen (item_pre obj it) in
          let i' := i + Z.of_nat (size v) in
          (root_node at_ i (key_slice obj q it) (key_esc obj it) (match l with [] => 0 | _ => i' end) v
           :: subs at_ i v) ++ go (at_ + mlen (print v) + mlen w4 + 1) i' l
        end
    end.
Definition enc (pos idx : Z) (key : json_str_t) (kesc : bool) (next : Z) (v : cst) : list json_node :=
  root_node pos idx key kesc next v :: subs pos idx v.

Lemma subs_cont pos idx obj w items : subs pos idx (CCont obj w items) = encs obj (pos + 1) (idx + 1) items.
Proof. done. Qed.

Lemma encs_cons obj q i it l :
  encs obj q i (it :: l) =
    enc (q + mlen (item_pre obj it)) i (key_slice obj q it) (key_esc obj it)
      (match l with [] => 0 | _ => i + Z.of_nat (size (i_val it)) end) (i_val it) ++
    encs obj (q + mlen (item_text obj it) + 1) (i + Z.of_nat (size (i_val it))) l.
Proof.
  destruct it as [w1 key w2 w3 v w4]. cbn [i_val item_text]. rewrite !mlen_app.
  replace (q + (mlen (item_pre obj (Item w1 key w2 w3 v w4)) + (mlen (print v) + mlen w4)) + 1)
    with (q + mlen (item_pre obj (Item w1 key w2 w3 v w4)) + mlen (print v) + mlen w4 + 1) by lia. done.
Qed.
Lemma sizes_cons it l : sizes (it :: l) = (size (i_val it) + sizes l)%nat.
Proof. by destruct it. Qed.
Lemma size_cont obj w items : size (CCont obj w items) = S (sizes items).
Proof. done. Qed.
Lemma nestings_cons it l : nestings (it :: l) = Z.max (nesting (i_val it)) (nestings l).
Proof. by destruct it. Qed.
Lemma nesting_cont obj w items : nesting (CCont obj w items) = 1 + nestings items.
Proof. done. Qed.

Lemma cst_ok_cont obj w items : cst_ok (CCont obj w items) ↔
  ws_ok w ∧ (items ≠ [] → w = []) ∧ Forall (λ it, item_ok obj it ∧ cst_ok (i_val it)) items.
Proof.
  cbn [cst_ok]. do 2 (apply and_iff_compat_l). induction items as [|[w1 key w2 w3 v w4] items IH]; [by split|].
  rewrite Forall_cons, <-IH. done.
Qed.

Lemma length_subs v : ∀ pos idx, S (length (subs pos idx v)) = size v.
Proof.
  induction v as [| | |obj w items IH] using cst_ind'; intros pos idx; [done..|].
  rewrite subs_cont, size_cont. f_equal. generalize (pos + 1) (idx + 1).
  induction IH as [|it items Hv _ IHl]; intros q i; [done|].
  rewrite encs_cons, sizes_cons, length_app, IHl. unfold enc. cbn [length]. by rewrite Hv.
Qed.

(** ** Tokens *)

Lemma holds_nil m p : 0 <= p <= mlen m → holds m p [].
Proof. intros. unfold holds. rewrite mlen_nil. split_and!; [lia|lia|done]. Qed.
Lemma holds_join m p a b : holds m p a → holds m (p + mlen a) b → holds m p (a ++ b).
Proof.
  intros (Hp & Hl & Ha) (Hp' & Hl' & Hb). pose proof (mlen_nonneg a). pose proof (mlen_nonneg b). unfold holds.
  rewrite mlen_app. split_and!; [done|lia|]. rewrite slice_split by lia. by rewrite Ha, Hb.
Qed.
Lemma holds_get_cons m p b : 0 <= p → holds m (p + 1) b → holds m p (get m p :: b).
Proof.
  intros Hp Hb. pose proof (holds_pos _ _ _ Hb). pose proof (mlen_nonneg b). apply (holds_join m p [get m p] b); [|done].
  unfold holds. change (mlen [get m p]) with 1. split_and!; [lia|lia|]. rewrite slice_get by lia.
  change (Z.to_nat 1) with 1%nat. cbn [seq map]. change (Z.of_nat 0) with 0. by rewrite Z.add_0_r.
Qed.

Section tokens.
Context (buf : mem) (end_ : Z) (Hbuf : bytes_ok buf) (Hend : 0 <= end_ <= mlen buf).

(** No character of the class [f] at [p]. *)
Definition stops (f : Z → bool) (p : Z) : Prop := end_ <= p ∨ f (get buf p) = false.

Lemma span_sound f fuel : ∀ p, 0 <= p <= end_ → end_ - p < Z.of_nat fuel →
  ∃ w, span_loop buf end_ f fuel p = Ok (p + mlen w) ∧ Forall (λ c, f c = true) w ∧ holds buf p w ∧
    p + mlen w <= end_ ∧ stops f (p + mlen w).
Proof using Hend.
  induction fuel as [|fuel IH]; intros p Hp Hf; [lia|]. cbn [span_loop].
  assert (stops f p → ∃ w, Ok p = Ok (p + mlen w) ∧ Forall (λ c, f c = true) w ∧ holds buf p w ∧
    p + mlen w <= end_ ∧ stops f (p + mlen w)) as Hnil.
  { intros Hst. exists []. rewrite mlen_nil, Z.add_0_r. split; [done|]. split; [constructor|].
    split; [apply holds_nil; lia|]. split; [lia|done]. }
  destruct (Z.ltb_spec p end_) as [Hlt|Hge]; [|apply Hnil; by left].
  rewrite rd_Ok by lia. bstep. destruct (f (get buf p)) eqn:E; [|apply Hnil; by right].
  destruct (IH (p + 1)) as (w & -> & Hw & Hh & Hl & Hs); [lia|lia|].
  exists (get buf p :: w). rewrite mlen_cons, Z.add_assoc. split; [done|]. split; [by constructor|].
  split; [apply holds_get_cons; [lia|done]|done].
Qed.

Lemma span_exact f p w : Forall (λ c, f c = true) w → holds buf p w → p + mlen w <= end_ →
  stops f (p + mlen w) → span buf end_ f p = Ok (p + mlen w).
Proof using Hend.
  intros Hw Hh Hl Hs. unfold span. pose proof (mlen_nonneg w). pose proof (holds_pos _ _ _ Hh) as [Hp _].
  assert (end_ - p < Z.of_nat (S (Z.to_nat (end_ - p)))) as Hf by lia. revert Hf. generalize (S (Z.to_nat (end_ - p))).
  clear H. revert p Hh Hl Hs Hp. induction Hw as [|c w Hc _ IH]; intros p Hh Hl Hs Hp fuel Hf;
    (destruct fuel as [|fuel]; [match type of Hl with context [mlen ?x] => pose proof (mlen_nonneg x) end; lia|]);
    cbn [span_loop].
  - rewrite mlen_nil, Z.add_0_r in *. destruct Hs as [Hs|Hs]; [by rewrite (proj2 (Z.ltb_ge p end_)) by lia|].
    destruct (Z.ltb_spec p end_); [|done]. rewrite rd_Ok by lia. bstep. by rewrite Hs.
  - rewrite mlen_cons in *. pose proof (mlen_nonneg w). apply holds_cons in Hh as [E Hh].
    rewrite (proj2 (Z.ltb_lt p end_)) by lia. rewrite E. bstep. rewrite Hc.
    rewrite (IH (p + 1)); [f_equal; lia|done|lia|by replace (p + 1 + mlen w) with (p + (1 + mlen w)) by lia|lia|lia].
Qed.

Lemma skip_ws_sound c : 0 <= c_p c <= end_ →
  ∃ w, skip_ws buf end_ c = Ok (move c (c_p c + mlen w)) ∧ ws_ok w ∧ holds buf (c_p c) w ∧ c_p c + mlen w <= end_ ∧
    stops json_is_ws (c_p c + mlen w).
Proof using Hend.
  intros Hp. unfold skip_ws, span.
  destruct (span_sound json_is_ws (S (Z.to_nat (end_ - c_p c))) (c_p c)) as (w & -> & ?); [lia|lia|]. by exists w.
Qed.
Lemma skip_ws_exact c w : ws_ok w → holds buf (c_p c) w → c_p c + mlen w <= end_ →
  stops json_is_ws (c_p c + mlen w) → skip_ws buf end_ c = Ok (move c (c_p c + mlen w)).
Proof using Hend. intros. unfold skip_ws. by rewrite (span_exact _ _ w). Qed.

(** *** Strings *)

Lemma hex_check_sound todo : ∀ p, 0 <= p → p + Z.of_nat todo <= end_ →
  ∃ r, hex_check buf todo p = Ok r ∧
    (r = true → ∃ ds, length ds = todo ∧ Forall (λ c, 0 <= json_hex c) ds ∧ holds buf p ds).
Proof using Hend.
  induction todo as [|todo IH]; intros p Hp Hl; cbn [hex_check].
  - exists true. split; [done|]. intros _. exists []. split; [done|]. split; [constructor|].
    apply holds_nil; lia.
  - rewrite rd_Ok by lia. bstep. destruct (Z.ltb_spec (json_hex (get buf p)) 0); [by exists false|].
    destruct (IH (p + 1)) as (r & -> & Hr); [lia|lia|]. exists r. split; [done|]. intros E.
    destruct (Hr E) as (ds & Hl' & Hd & Hh). exists (get buf p :: ds). split; [cbn; lia|]. split; [by constructor|].
    apply holds_get_cons; [lia|done].
Qed.
Lemma hex_check_exact ds : ∀ p, Forall (λ c, 0 <= json_hex c) ds → holds buf p ds →
  hex_check buf (length ds) p = Ok true.
Proof using.
  induction ds as [|c ds IH]; intros p Hd Hh; [done|]. apply Forall_cons_iff in Hd as [Hc Hd].
  cbn [length hex_check]. apply holds_cons in Hh as [-> Hh]. bstep.
  rewrite (proj2 (Z.ltb_ge _ _)) by done. by apply IH.
Qed.

Definition is_short (c : Z) : bool :=
  (c =? 34) || (c =? 92) || (c =? 47) || (c =? 98) || (c =? 102) || (c =? 110) || (c =? 114) || (c =? 116).
Lemma is_short_iff c : is_short c = true ↔ c ∈ short_escapes.*1.
Proof. unfold is_short, short_escapes. cbn. rewrite !elem_of_cons, elem_of_nil. lia. Qed.

Lemma str_loop_sound fuel : ∀ p esc, 0 <= p → end_ - p < Z.of_nat fuel → 0 < Z.of_nat fuel →
  str_loop buf end_ fuel p esc = Ok None ∨
  ∃ us, str_loop buf end_ fuel p esc = Ok (Some (p + mlen (body_text us), esc || body_esc us)) ∧
    Forall unit_ok us ∧ holds buf p (body_text us ++ [34]) ∧ p + mlen (body_text us) < end_.
Proof using Hbuf Hend.
  induction fuel as [|fuel IH]; intros p esc Hp Hf Hpos; [lia|]. cbn [str_loop].
  destruct (Z.ltb_spec p end_); cbn [negb]; [|by left]. rewrite (rd_Ok buf p) by lia. bstep.
  pose proof (get_range buf p Hbuf) as Hr.
  (* a unit, and the rest of the loop behind it *)
  assert (∀ u esc', unit_ok u → holds buf p (unit_text u) → 1 <= mlen (unit_text u) → esc' = esc || unit_esc u →
    str_loop buf end_ fuel (p + mlen (unit_text u)) esc' = Ok None ∨
    ∃ us, str_loop buf end_ fuel (p + mlen (unit_text u)) esc' = Ok (Some (p + mlen (body_text us), esc || body_esc us)) ∧
      Forall unit_ok us ∧ holds buf p (body_text us ++ [34]) ∧ p + mlen (body_text us) < end_) as Hgo.
  { intros u esc' Hu Hh Hl ->. destruct (Z.lt_ge_cases (p + mlen (unit_text u)) end_) as [Hlt|Hge].
    - destruct (IH (p + mlen (unit_text u)) (esc || unit_esc u)) as [?|(us & E & Hok & Hh' & He)]; [lia|lia|lia|by left|].
      right. exists (u :: us). rewrite E, body_text_cons, mlen_app, Z.add_assoc. cbn [body_esc existsb].
      split; [by rewrite orb_assoc|]. split; [by constructor|]. split; [|done]. rewrite <-app_assoc. by apply holds_join.
    - left. destruct fuel as [|fuel']; [|]. 2:{ cbn [str_loop]. by rewrite (proj2 (Z.ltb_ge _ _)) by lia. }
      pose proof (holds_pos _ _ _ Hh). lia. }
  destruct (Z.eqb_spec (get buf p) 34) as [E|E].
  { right. exists []. cbn. rewrite Z.add_0_r, orb_false_r. split; [done|]. split; [constructor|]. split; [|lia].
    rewrite <-E. apply holds_get_cons; [lia|]. apply holds_nil; lia. }
  destruct (Z.eqb_spec (get buf p) 92) as [E2|E2].
  { destruct (Z.ltb_spec (end_ - p) 2); [by left|]. rewrite (rd_Ok buf (p + 1)) by lia. bstep. fold (is_short (get buf (p + 1))).
    assert (∀ ds, holds buf (p + 2) ds → holds buf p (92 :: get buf (p + 1) :: ds)) as Hesc.
    { intros ds Hd. rewrite <-E2. apply holds_get_cons; [lia|]. apply holds_get_cons; [lia|].
      by replace (p + 1 + 1) with (p + 2) by lia. }
    destruct (is_short (get buf (p + 1))) eqn:Es.
    { apply (Hgo (Short (get buf (p + 1)))); [by apply is_short_iff| |done|by rewrite orb_true_r].
      apply Hesc. apply holds_nil; lia. }
    destruct (Z.eqb_spec (get buf (p + 1)) 117) as [E3|E3]; [|by left].
    destruct (Z.ltb_spec (end_ - p) 6); [by left|]. destruct (hex_check_sound 4 (p + 2)) as (r & -> & Hx); [lia|lia|]. bstep.
    destruct r; cbn [negb]; [|by left]. destruct (Hx eq_refl) as (ds & Hl4 & Hd & Hh).
    assert (unit_ok (Hex ds)) as Hu by done. pose proof (mlen_unit_hex ds Hu) as H6. rewrite <-H6.
    apply Hgo; [done| |lia|by rewrite orb_true_r]. cbn [unit_text]. rewrite <-E3. by apply Hesc. }
  destruct (Z.ltb_spec (get buf p) 32); [by left|].
  apply (Hgo (Plain (get buf p))); [split; [lia|done]| |done|by rewrite orb_false_r].
  cbn [unit_text]. apply holds_get_cons; [lia|]. apply holds_nil; lia.
Qed.

Lemma str_loop_exact us : ∀ fuel p esc, Forall unit_ok us → holds buf p (body_text us ++ [34]) →
  p + mlen (body_text us) < end_ → end_ - p < Z.of_nat fuel →
  str_loop buf end_ fuel p esc = Ok (Some (p + mlen (body_text us), esc || body_esc us)).
Proof using Hend.
  induction us as [|u us IH]; intros fuel p esc Hok Hh Hl Hf; 
    (destruct fuel as [|fuel]; [match type of Hl with context [mlen ?x] => pose proof (mlen_nonneg x) end; lia|]);
    cbn [str_loop].
  - cbn in Hh. change (mlen (body_text [])) with 0 in *. rewrite Z.add_0_r in *. rewrite (proj2 (Z.ltb_lt p end_)) by lia.
    cbn [negb]. apply holds_cons in Hh as [-> _]. bstep. by rewrite orb_false_r.
  - apply Forall_cons_iff in Hok as [Hu Hus]. rewrite body_text_cons, mlen_app in *. rewrite <-app_assoc in Hh.
    apply holds_app in Hh as [Hhu Hh]. pose proof (mlen_nonneg (body_text us)). pose proof (holds_pos _ _ _ Hhu).
    cbn [body_esc existsb]. rewrite Z.add_assoc in *. fold (body_esc us). rewrite orb_assoc.
    destruct u as [c|c|h]; cbn [unit_text] in *.
    + change (mlen [c]) with 1 in *. rewrite (proj2 (Z.ltb_lt p end_)) by lia. cbn [negb].
      apply holds_cons in Hhu as [-> _]. bstep. destruct Hu as (H32 & H34 & H92).
      rewrite (proj2 (Z.eqb_neq _ _) H34), (proj2 (Z.eqb_neq _ _) H92), (proj2 (Z.ltb_ge c 32)) by lia.
      rewrite IH by (done || lia). by rewrite orb_false_r.
    + change (mlen [92; c]) with 2 in *. rewrite (proj2 (Z.ltb_lt p end_)) by lia. cbn [negb].
      apply holds_cons in Hhu as [-> Hhu]. bstep. change (92 =? 34) with false. change (92 =? 92) with true. cbn match.
      rewrite (proj2 (Z.ltb_ge (end_ - p) 2)) by lia. apply holds_cons in Hhu as [-> _]. bstep. fold (is_short c).
      rewrite (proj2 (is_short_iff c)) by done. rewrite IH by (done || lia). cbn [unit_esc]. by rewrite orb_true_r.
    + change (92 :: 117 :: h) with (unit_text (Hex h)) in *. rewrite (mlen_unit_hex h Hu) in *. cbn [unit_text] in Hhu.
      rewrite (proj2 (Z.ltb_lt p end_)) by lia. cbn [negb].
      apply holds_cons in Hhu as [-> Hhu]. bstep. change (92 =? 34) with false. change (92 =? 92) with true. cbn match.
      rewrite (proj2 (Z.ltb_ge (end_ - p) 2)) by lia. apply holds_cons in Hhu as [-> Hhu]. bstep. cbn [Z.eqb Pos.eqb orb].
      rewrite (proj2 (Z.ltb_ge (end_ - p) 6)) by lia. destruct Hu as [H4 Hd].
      replace (p + 1 + 1) with (p + 2) in Hhu by lia. rewrite <-H4, (hex_check_exact h) by done. bstep. cbn [negb].
      rewrite IH by (done || lia). cbn [unit_esc]. by rewrite orb_true_r.
Qed.

Context (Hsmall : end_ <= 2147483647).

Lemma scan_str_sound c : 0 <= c_p c < end_ → get buf (c_p c) = 34 →
  scan_str buf end_ c = Ok (None, c) ∨
  ∃ us, Forall unit_ok us ∧ holds buf (c_p c) (34 :: body_text us ++ [34]) ∧ c_p c + 2 + mlen (body_text us) <= end_ ∧
    scan_str buf end_ c =
      Ok (Some (JStr (Some (c_p c + 1)) (mlen (body_text us)), body_esc us), move c (c_p c + 2 + mlen (body_text us))).
Proof using Hbuf Hend Hsmall.
  intros Hp Hq. unfold scan_str. cbv zeta.
  destruct (str_loop_sound (S (Z.to_nat (end_ - (c_p c + 1)))) (c_p c + 1) false) as [->|(us & -> & Hok & Hh & Hl)];
    [lia|lia|lia|by left|]. right. exists us. pose proof (mlen_nonneg (body_text us)). split; [done|].
  split; [rewrite <-Hq at 1; apply holds_get_cons; [lia|done]|]. split; [lia|]. bstep. cbn [orb].
  replace (c_p c + 1 + mlen (body_text us) - (c_p c + 1)) with (mlen (body_text us)) by lia.
  rewrite u32_small by lia. by replace (c_p c + 1 + mlen (body_text us) + 1) with (c_p c + 2 + mlen (body_text us)) by lia.
Qed.
Lemma scan_str_exact c us : Forall unit_ok us → holds buf (c_p c) (34 :: body_text us ++ [34]) →
  c_p c + 2 + mlen (body_text us) <= end_ →
  scan_str buf end_ c =
    Ok (Some (JStr (Some (c_p c + 1)) (mlen (body_text us)), body_esc us), move c (c_p c + 2 + mlen (body_text us))).
Proof using Hend Hsmall.
  intros Hok Hh Hl. pose proof (mlen_nonneg (body_text us)). pose proof (holds_pos _ _ _ Hh) as [Hp _].
  apply holds_cons in Hh as [_ Hh]. unfold scan_str. cbv zeta. rewrite (str_loop_exact us) by (done || lia). bstep.
  cbn [orb]. replace (c_p c + 1 + mlen (body_text us) - (c_p c + 1)) with (mlen (body_text us)) by lia.
  rewrite u32_small by lia. by replace (c_p c + 1 + mlen (body_text us) + 1) with (c_p c + 2 + mlen (body_text us)) by lia.
Qed.

(** *** Numbers *)

Lemma peek_spec p f : 0 <= p → peek buf end_ p f = Ok ((p <? end_) && f (get buf p)).
Proof using Hend. intros. unfold peek. destruct (Z.ltb_spec p end_); [|done]. by rewrite rd_Ok by lia. Qed.
Lemma peek_stops p f : 0 <= p → stops f p → peek buf end_ p f = Ok false.
Proof using Hend.
  intros Hp Hs. rewrite peek_spec by done. destruct Hs as [Hs| ->]; [|by rewrite andb_false_r].
  by rewrite (proj2 (Z.ltb_ge p end_)) by lia.
Qed.
Lemma peek_holds p f x bs : holds buf p (x :: bs) → p < end_ → peek buf end_ p f = Ok (f x).
Proof using. intros Hh Hp. unfold peek. rewrite (proj2 (Z.ltb_lt p end_)) by done. by apply holds_cons in Hh as [-> _]. Qed.

Lemma some_digits_sound p : 0 <= p <= end_ →
  some_digits buf end_ p = Ok None ∨
  ∃ ds, some_digits buf end_ p = Ok (Some (p + mlen ds)) ∧ digits_ok ds ∧ ds ≠ [] ∧ holds buf p ds ∧
    p + mlen ds <= end_ ∧ stops json_is_digit (p + mlen ds).
Proof using Hend.
  intros Hp. unfold some_digits. rewrite peek_spec by lia. bstep.
  destruct ((p <? end_) && json_is_digit (get buf p)) eqn:E; cbn [negb]; [|by left]. right. unfold span.
  destruct (span_sound json_is_digit (S (Z.to_nat (end_ - p))) p) as (ds & -> & Hd & Hh & Hl & Hs); [lia|lia|].
  exists ds. split; [done|]. split; [done|]. split; [|done]. intros ->. rewrite mlen_nil, Z.add_0_r in Hs.
  apply andb_prop in E as [E1 E2]. destruct Hs as [Hs|Hs]; [lia|congruence].
Qed.
Lemma some_digits_exact p ds : digits_ok ds → ds ≠ [] → holds buf p ds → p + mlen ds <= end_ →
  stops json_is_digit (p + mlen ds) → some_digits buf end_ p = Ok (Some (p + mlen ds)).
Proof using Hend.
  intros Hd Hne Hh Hl Hs. unfold some_digits. destruct ds as [|d ds]; [done|]. pose proof (mlen_nonneg ds).
  rewrite (peek_holds _ _ d ds) by (done || rewrite mlen_cons in Hl; lia). bstep.
  pose proof Hd as Hd'. apply Forall_cons_iff in Hd as [-> _]. cbn [negb]. by rewrite (span_exact _ _ (d :: ds)).
Qed.

Definition is_e (c : Z) : bool := (c =? 101) || (c =? 69).
(** What stops the scanner behind the fraction, and behind the exponent. *)
Definition frac_follow (fr : option (list Z)) (p : Z) : Prop :=
  match fr with None => stops (Z.eqb 46) p | Some _ => stops json_is_digit p end.
Definition exp_follow (ex : option (Z * option Z * list Z)) (p : Z) : Prop :=
  match ex with None => stops is_e p | Some _ => stops json_is_digit p end.

Lemma scan_frac_sound p : 0 <= p <= end_ →
  scan_frac buf end_ p = Ok None ∨
  ∃ fr, scan_frac buf end_ p = Ok (Some (p + mlen (frac_text fr), match fr with None => true | _ => false end)) ∧
    frac_ok fr ∧ holds buf p (frac_text fr) ∧ p + mlen (frac_text fr) <= end_ ∧ frac_follow fr (p + mlen (frac_text fr)).
Proof using Hend.
  intros Hp. unfold scan_frac. rewrite peek_spec by lia. bstep.
  destruct ((p <? end_) && (46 =? get buf p)) eqn:E; cbn [negb].
  - apply andb_prop in E as [E1 E2%Z.eqb_eq]. destruct (some_digits_sound (p + 1)) as [->|(ds & -> & Hd & Hne & Hh & Hl & Hs)];
      [lia|by left|]. right. exists (Some ds). cbn [frac_text frac_ok frac_follow]. rewrite mlen_cons, Z.add_assoc.
    split; [done|]. split; [done|]. split; [rewrite E2; apply holds_get_cons; [lia|done]|]. done.
  - right. exists None. cbn [frac_text frac_ok frac_follow]. rewrite mlen_nil, Z.add_0_r. split; [done|]. split; [done|].
    split; [apply holds_nil; lia|]. split; [lia|]. unfold stops. destruct (Z.ltb_spec p end_); [right|left; lia]. done.
Qed.
Lemma scan_frac_exact p fr : 0 <= p → frac_ok fr → holds buf p (frac_text fr) → p + mlen (frac_text fr) <= end_ →
  frac_follow fr (p + mlen (frac_text fr)) →
  scan_frac buf end_ p = Ok (Some (p + mlen (frac_text fr), match fr with None => true | _ => false end)).
Proof using Hend.
  intros Hp Hok Hh Hl Hf. unfold scan_frac. destruct fr as [ds|]; cbn [frac_text frac_ok frac_follow] in *.
  - rewrite mlen_cons, Z.add_assoc in *. destruct Hok as [Hd Hne]. pose proof (mlen_nonneg ds).
    rewrite (peek_holds _ _ 46 ds) by (done || lia). bstep. apply holds_cons in Hh as [_ Hh]. cbn [Z.eqb Pos.eqb negb].
    by rewrite (some_digits_exact _ ds).
  - rewrite mlen_nil, Z.add_0_r in *. by rewrite peek_stops.
Qed.

Lemma scan_exp_sound p isint : 0 <= p <= end_ →
  scan_exp buf end_ p isint = Ok None ∨
  ∃ ex, scan_exp buf end_ p isint = Ok (Some (p + mlen (exp_text ex), match ex with None => isint | _ => false end)) ∧
    exp_ok ex ∧ holds buf p (exp_text ex) ∧ p + mlen (exp_text ex) <= end_ ∧ exp_follow ex (p + mlen (exp_text ex)).
Proof using Hend.
  intros Hp. unfold scan_exp. rewrite (peek_spec p) by lia. bstep. cbv beta. fold (is_e (get buf p)).
  destruct ((p <? end_) && is_e (get buf p)) eqn:E; cbn [negb].
  - apply andb_prop in E as [E1 E2]. rewrite (peek_spec (p + 1)) by lia. bstep. cbv beta.
    set (sg := (p + 1 <? end_) && ((get buf (p + 1) =? 43) || (get buf (p + 1) =? 45))).
    destruct (some_digits_sound (p + if sg then 2 else 1)) as [->|(ds & -> & Hd & Hne & Hh & Hl & Hs)];
      [destruct sg eqn:Es; [apply andb_prop in Es as [Es _]; lia|lia]|by left|]. right.
    exists (Some (get buf p, if sg then Some (get buf (p + 1)) else None, ds)). bstep. cbn [exp_text exp_ok exp_follow].
    assert (get buf p = 101 ∨ get buf p = 69) by (unfold is_e in E2; lia).
    destruct sg eqn:Es; cbn [app]; rewrite !mlen_cons.
    + apply andb_prop in Es as [Es1 Es2].
      replace (p + (1 + (1 + mlen ds))) with (p + 2 + mlen ds) by lia. split; [done|].
      split; [split_and!; try done; lia|]. split; [|done].
      apply holds_get_cons; [lia|]. apply holds_get_cons; [lia|]. by replace (p + 1 + 1) with (p + 2) by lia.
    + rewrite Z.add_assoc. split; [done|]. split; [by split_and!|]. split; [|done]. apply holds_get_cons; [lia|done].
  - right. exists None. cbn [exp_text exp_ok exp_follow]. rewrite mlen_nil, Z.add_0_r. split; [done|]. split; [done|].
    split; [apply holds_nil; lia|]. split; [lia|]. unfold stops. destruct (Z.ltb_spec p end_); [right|left; lia]. done.
Qed.
Lemma digit_not_sign c : json_is_digit c = true → (c =? 43) || (c =? 45) = false.
Proof using. unfold json_is_digit. lia. Qed.
Lemma scan_exp_exact p isint ex : 0 <= p → exp_ok ex → holds buf p (exp_text ex) → p + mlen (exp_text ex) <= end_ →
  exp_follow ex (p + mlen (exp_text ex)) →
  scan_exp buf end_ p isint = Ok (Some (p + mlen (exp_text ex), match ex with None => isint | _ => false end)).
Proof using Hend.
  intros Hp Hok Hh Hl Hf. unfold scan_exp. fold is_e. destruct ex as [[[e sign] ds]|]; cbn [exp_text exp_ok exp_follow] in *.
  - destruct Hok as (He & Hd & Hne & Hsg). destruct ds as [|d ds]; [done|]. pose proof (mlen_nonneg ds).
    rewrite mlen_cons, mlen_app in *.
    assert (is_e e = true) as Hee by (unfold is_e; lia).
    destruct sign as [sg|]; cbn [app] in *.
    + change (mlen [sg]) with 1 in *. rewrite mlen_cons in *. rewrite (peek_holds p _ e (sg :: d :: ds)) by (done || lia). bstep.
      rewrite Hee. cbn [negb]. apply holds_cons in Hh as [_ Hh]. rewrite (peek_holds (p + 1) _ sg (d :: ds)) by (done || lia). bstep.
      replace ((sg =? 43) || (sg =? 45)) with true by lia. apply holds_cons in Hh as [_ Hh].
      replace (p + 1 + 1) with (p + 2) in Hh by lia.
      rewrite (some_digits_exact (p + 2) (d :: ds)); try done; rewrite mlen_cons; [bstep|lia|].
      * do 3 f_equal. lia.
      * by replace (p + 2 + (1 + mlen ds)) with (p + (1 + (1 + (1 + mlen ds)))) by lia.
    + rewrite mlen_nil, mlen_cons in *. rewrite (peek_holds p _ e (d :: ds)) by (done || lia). bstep.
      rewrite Hee. cbn [negb]. apply holds_cons in Hh as [_ Hh]. rewrite (peek_holds (p + 1) _ d ds) by (done || lia). bstep.
      pose proof Hd as Hd'. apply Forall_cons_iff in Hd as [Hd0 _]. rewrite (digit_not_sign d Hd0).
      rewrite (some_digits_exact (p + 1) (d :: ds)); try done; rewrite mlen_cons; [bstep|lia|].
      * do 3 f_equal. lia.
      * by replace (p + 1 + (1 + mlen ds)) with (p + (1 + (0 + (1 + mlen ds)))) by lia.
  - rewrite mlen_nil, Z.add_0_r in *. by rewrite (peek_stops p).
Qed.

(** What stops the scanner behind the digits of the integer part. *)
Definition int_follow (ds : list Z) (p : Z) : Prop := ds = [48] ∨ stops json_is_digit p.
Definition num_follow (n : number) (p : Z) : Prop :=
  exp_follow (nu_exp n) p ∧
  (nu_exp n = None → frac_follow (nu_frac n) p ∧ (nu_frac n = None → int_follow (nu_int n) p)).

Lemma int_part p : 0 <= p < end_ → json_is_digit (get buf p) = true →
  ∃ ds, (ch ← rd buf p; if ch =? 48 then Ok (p + 1) else span buf end_ json_is_digit p) = Ok (p + mlen ds) ∧
    int_ok ds ∧ holds buf p ds ∧ p + mlen ds <= end_ ∧ int_follow ds (p + mlen ds).
Proof using Hend.
  intros Hp Hd. rewrite (rd_Ok buf p) by lia. bstep. destruct (Z.eqb_spec (get buf p) 48) as [E|E].
  - exists [48]. split; [done|]. split; [split_and!; [|done|done]; by constructor|].
    split; [rewrite <-E; apply holds_get_cons; [lia|apply holds_nil; lia]|]. split; [change (mlen [48]) with 1; lia|by left].
  - unfold span. destruct (span_sound json_is_digit (S (Z.to_nat (end_ - p))) p) as (ds & -> & Hds & Hh & Hl & Hs); [lia|lia|].
    exists ds. split; [done|]. split; [|by split_and!; [done|done|right]].
    destruct ds as [|d ds].
    { rewrite mlen_nil, Z.add_0_r in Hs. destruct Hs as [Hs|Hs]; [lia|congruence]. }
    split; [done|]. split; [done|]. change (get (d :: ds) 0) with d. intros ->.
    apply holds_cons in Hh as [Er _]. rewrite rd_Ok in Er by lia. by injection Er.
Qed.

(** The digits of the integer part stop where a fraction, an exponent or what
    follows the number starts. *)
Lemma int_stops n p : 0 <= p → num_ok n → holds buf p (frac_text (nu_frac n) ++ exp_text (nu_exp n)) →
  num_follow n (p + mlen (frac_text (nu_frac n) ++ exp_text (nu_exp n))) → int_follow (nu_int n) p.
Proof using.
  intros Hp (_ & Hf & He) Hh [_ Hn]. destruct (nu_frac n) as [fr|]; cbn [frac_text app] in *.
  { right. right. apply holds_head in Hh; [|rewrite mlen_cons; pose proof (mlen_nonneg (fr ++ exp_text (nu_exp n))); lia].
    rewrite Hh. done. }
  destruct (nu_exp n) as [[[e sg] ds]|]; cbn [exp_text] in *.
  { right. right. apply holds_head in Hh; [|rewrite mlen_cons; match goal with |- context [1 + mlen ?x] => pose proof (mlen_nonneg x) end; lia].
    rewrite Hh. change (get (e :: _) 0) with e. destruct He as (He & _). unfold json_is_digit. lia. }
  rewrite mlen_nil, Z.add_0_r in Hn. by apply Hn.
Qed.
Lemma frac_stops n p : 0 <= p → num_ok n → holds buf p (exp_text (nu_exp n)) →
  num_follow n (p + mlen (exp_text (nu_exp n))) → frac_follow (nu_frac n) p.
Proof using.
  intros Hp (_ & Hf & He) Hh [_ Hn]. destruct (nu_exp n) as [[[e sg] ds]|]; cbn [exp_text] in *.
  { apply holds_head in Hh; [|rewrite mlen_cons; match goal with |- context [1 + mlen ?x] => pose proof (mlen_nonneg x) end; lia].
    change (get (e :: _) 0) with e in Hh. destruct He as (He & _). unfold frac_follow, stops, json_is_digit.
    rewrite Hh. destruct (nu_frac n); right; lia. }
  rewrite mlen_nil, Z.add_0_r in Hn. by apply Hn.
Qed.

Lemma scan_num_sound c : 0 <= c_p c < end_ →
  scan_num buf end_ c = Ok (None, c) ∨
  ∃ n, num_ok n ∧ holds buf (c_p c) (num_text n) ∧ c_p c + mlen (num_text n) <= end_ ∧
    num_follow n (c_p c + mlen (num_text n)) ∧
    scan_num buf end_ c = Ok (Some (JStr (Some (c_p c)) (mlen (num_text n)), num_isint n), move c (c_p c + mlen (num_text n))).
Proof using Hend Hsmall.
  intros Hp. unfold scan_num. cbv zeta. rewrite (rd_Ok buf (c_p c)) by lia. bstep.
  set (neg := get buf (c_p c) =? 45). set (p0 := if neg then c_p c + 1 else c_p c).
  assert (p0 = c_p c + mlen (sign_text neg) ∧ holds buf (c_p c) (sign_text neg)) as [Hp0 Hh0].
  { unfold p0. destruct neg eqn:En; cbn [sign_text]; [|rewrite mlen_nil; split; [lia|apply holds_nil; lia]].
    split; [done|]. apply Z.eqb_eq in En. rewrite <-En. apply holds_get_cons; [lia|apply holds_nil; lia]. }
  clearbody p0. pose proof (mlen_nonneg (sign_text neg)). rewrite peek_spec by lia. bstep.
  destruct ((p0 <? end_) && json_is_digit (get buf p0)) eqn:Ed; cbn [negb]; [|by left].
  apply andb_prop in Ed as [Ed1%Z.ltb_lt Ed2]. rewrite <-bind_assoc.
  destruct (int_part p0) as (ds & -> & Hi & Hhi & Hli & Hfi); [lia|done|]. bstep. pose proof (mlen_nonneg ds).
  destruct (scan_frac_sound (p0 + mlen ds)) as [->|(fr & -> & Hfr & Hhf & Hlf & Hff)]; [lia|by left|]. bstep.
  pose proof (mlen_nonneg (frac_text fr)).
  destruct (scan_exp_sound (p0 + mlen ds + mlen (frac_text fr)) (match fr with None => true | _ => false end))
    as [->|(ex & -> & Hex & Hhe & Hle & Hfe)]; [lia|by left|]. bstep. pose proof (mlen_nonneg (exp_text ex)).
  right. exists (Number neg ds fr ex).
  assert (p0 + mlen ds + mlen (frac_text fr) + mlen (exp_text ex) = c_p c + mlen (num_text (Number neg ds fr ex))) as El.
  { unfold num_text. cbn [nu_neg nu_int nu_frac nu_exp]. rewrite !mlen_app. lia. }
  rewrite El in *. rewrite u32_small by lia. split; [done|]. split.
  { unfold num_text. cbn [nu_neg nu_int nu_frac nu_exp]. apply holds_join; [done|]. rewrite <-Hp0.
    apply holds_join; [done|]. by apply holds_join. }
  split; [done|]. split; [|].
  - unfold num_follow. cbn [nu_int nu_frac nu_exp]. split; [done|]. intros ->. cbn [exp_text] in *. rewrite mlen_nil in El.
    rewrite <-El, Z.add_0_r. split; [done|]. intros ->. cbn [frac_text]. by rewrite mlen_nil, Z.add_0_r.
  - replace (c_p c + mlen (num_text (Number neg ds fr ex)) - c_p c) with (mlen (num_text (Number neg ds fr ex))) by lia.
    do 4 f_equal. unfold num_isint. cbn [nu_frac nu_exp]. by destruct fr, ex.
Qed.

Lemma scan_num_exact c n : num_ok n → holds buf (c_p c) (num_text n) → c_p c + mlen (num_text n) <= end_ →
  num_follow n (c_p c + mlen (num_text n)) →
  scan_num buf end_ c = Ok (Some (JStr (Some (c_p c)) (mlen (num_text n)), num_isint n), move c (c_p c + mlen (num_text n))).
Proof using Hend Hsmall.
  intros Hok Hh Hl Hf. pose proof Hok as (Hi & Hfr & Hex). pose proof (holds_pos _ _ _ Hh) as [Hp _].
  unfold scan_num. cbv zeta. unfold num_text in Hh. apply holds_app in Hh as [Hs Hh]. apply holds_app in Hh as [Hhi Hh].
  pose proof Hh as Hfe. apply holds_app in Hh as [Hhf Hhe]. pose proof (mlen_nonneg (num_text n)).
  assert (mlen (num_text n) = mlen (sign_text (nu_neg n)) + mlen (nu_int n) + mlen (frac_text (nu_frac n)) + mlen (exp_text (nu_exp n))) as El
    by (unfold num_text; rewrite !mlen_app; lia).
  pose proof (mlen_nonneg (sign_text (nu_neg n))). pose proof (mlen_nonneg (nu_int n)).
  pose proof (mlen_nonneg (frac_text (nu_frac n))). pose proof (mlen_nonneg (exp_text (nu_exp n))).
  set (p0 := c_p c + mlen (sign_text (nu_neg n))) in *.
  destruct Hi as (Hd & Hne & Hz). destruct (nu_int n) as [|d ds] eqn:Ei; [done|]. rewrite mlen_cons in *. pose proof (mlen_nonneg ds).
  pose proof Hd as Hd'. apply Forall_cons_iff in Hd' as [Hd0 _].
  assert (∃ x, rd buf (c_p c) = Ok x ∧ (if x =? 45 then c_p c + 1 else c_p c) = p0) as (x & Ex & Ep0).
  { unfold p0. destruct (nu_neg n); cbn [sign_text] in *.
    - apply holds_cons in Hs as [-> _]. exists 45. done.
    - unfold p0 in *. rewrite mlen_nil, Z.add_0_r in *. apply holds_cons in Hhi as [-> _]. exists d. split; [done|].
      rewrite (proj2 (Z.eqb_neq d 45)); [done|]. unfold json_is_digit in Hd0. lia. }
  rewrite Ex. bstep. rewrite Ep0. rewrite (peek_holds p0 _ d ds) by (done || lia). bstep. rewrite Hd0. cbn [negb].
  pose proof (int_stops n (p0 + (1 + mlen ds)) ltac:(lia) Hok) as Hst. rewrite Ei in Hst.
  assert ((ch ← rd buf p0; if ch =? 48 then Ok (p0 + 1) else span buf end_ json_is_digit p0) = Ok (p0 + (1 + mlen ds))) as Hint.
  { pose proof Hhi as Hhi'. apply holds_cons in Hhi' as [-> _]. bstep. destruct (Z.eqb_spec d 48) as [E|E].
    - specialize (Hz E). injection Hz as _ ->. done.
    - rewrite <-mlen_cons with (b := d). apply span_exact; [done|done|rewrite mlen_cons; lia|]. rewrite mlen_cons.
      destruct Hst as [Hx|Hx]; [done| |congruence|done]. rewrite mlen_app.
      by replace (p0 + (1 + mlen ds) + (mlen (frac_text (nu_frac n)) + mlen (exp_text (nu_exp n))))
        with (c_p c + mlen (num_text n)) by lia. }
  rewrite <-bind_assoc, Hint. bstep. rewrite (scan_frac_exact _ (nu_frac n)); [bstep|lia|done|done|lia|].
  - rewrite (scan_exp_exact _ _ (nu_exp n)); [bstep|lia|done|done|lia|].
    + replace (p0 + (1 + mlen ds) + mlen (frac_text (nu_frac n)) + mlen (exp_text (nu_exp n)))
        with (c_p c + mlen (num_text n)) by lia.
      replace (c_p c + mlen (num_text n) - c_p c) with (mlen (num_text n)) by lia. rewrite u32_small by lia.
      do 4 f_equal. unfold num_isint. by destruct (nu_frac n), (nu_exp n).
    + replace (p0 + (1 + mlen ds) + mlen (frac_text (nu_frac n)) + mlen (exp_text (nu_exp n)))
        with (c_p c + mlen (num_text n)) by lia. apply Hf.
  - apply frac_stops; [lia|done|done|].
    by replace (p0 + (1 + mlen ds) + mlen (frac_text (nu_frac n)) + mlen (exp_text (nu_exp n)))
      with (c_p c + mlen (num_text n)) by lia.
Qed.
End tokens.

(** ** The pool *)

(** Reassociates appends to the right. *)
Ltac apps := repeat first [rewrite <-!app_assoc | progress cbn [app]].

Lemma node_upd_mid X n Y f i : i = Z.of_nat (length X) → node_upd (X ++ n :: Y) i f = Ok (X ++ f n :: Y).
Proof.
  intros ->. unfold node_upd, node_at, node_set. rewrite (proj2 (Z.ltb_ge _ 0)) by lia. rewrite Nat2Z.id.
  rewrite list_lookup_middle by done. bstep. rewrite length_app, length_cons.
  rewrite (proj2 (Z.leb_le 0 _)), (proj2 (Z.ltb_lt _ _)) by lia. cbn [andb].
  rewrite insert_app_r_alt by lia. by rewrite Nat.sub_diag.
Qed.

(** The children linked so far: those before the last, the last, and what is below
    it; none before the first. *)
Definition linked : Type := option (list json_node * json_node * list json_node).
Definition linked_nodes (t : linked) : list json_node :=
  match t with None => [] | Some (D0, n, D1) => D0 ++ n :: D1 end.
Definition linked_prev (base : Z) (t : linked) : Z :=
  match t with None => 0 | Some (D0, _, _) => base + Z.of_nat (length D0) end.
Definition link_last (child : Z) (t : linked) : list json_node :=
  match t with None => [] | Some (D0, n, D1) => D0 ++ set_next child n :: D1 end.
Definition link_root (child : Z) (t : linked) (root : json_node) : json_node :=
  match t with None => set_first child root | Some _ => root end.

Lemma length_link_last child t : length (link_last child t) = length (linked_nodes t).
Proof. destruct t as [[[D0 n] D1]|]; [|done]. cbn. by rewrite !length_app. Qed.

Lemma link_child_spec A root t n S R idx child key kesc : idx = Z.of_nat (length A) →
  child = idx + 1 + Z.of_nat (length (linked_nodes t)) →
  link_child (A ++ root :: linked_nodes t ++ n :: S ++ R) idx (linked_prev (idx + 1) t) child key kesc =
    Ok (A ++ inc_count (link_root child t root) :: link_last child t ++ set_key key kesc n :: S ++ R).
Proof.
  intros Hi Hc. unfold link_child.
  replace (A ++ root :: linked_nodes t ++ n :: S ++ R) with ((A ++ root :: linked_nodes t) ++ n :: S ++ R)
    by (by rewrite <-app_assoc).
  rewrite node_upd_mid by (rewrite length_app, length_cons; lia). bstep.
  destruct t as [[[D0 l] D1]|]; cbn [linked_nodes linked_prev link_last link_root] in *.
  - rewrite (proj2 (Z.eqb_neq _ 0)) by lia. cbn [negb].
    replace ((A ++ root :: D0 ++ l :: D1) ++ set_key key kesc n :: S ++ R)
      with ((A ++ root :: D0) ++ l :: D1 ++ set_key key kesc n :: S ++ R) by (by apps).
    rewrite node_upd_mid by (rewrite length_app, length_cons; lia). bstep.
    replace ((A ++ root :: D0) ++ set_next child l :: D1 ++ set_key key kesc n :: S ++ R)
      with (A ++ root :: (D0 ++ set_next child l :: D1) ++ set_key key kesc n :: S ++ R)
      by (by apps).
    by rewrite node_upd_mid.
  - cbn [Z.eqb negb]. rewrite <-app_assoc. cbn [app]. rewrite node_upd_mid by done. bstep. by rewrite node_upd_mid.
Qed.

Lemma set_key_root at_ i key kesc v : set_key key kesc (root_node at_ i no_str false 0 v) = root_node at_ i key kesc 0 v.
Proof. by destruct kesc. Qed.
Lemma set_next_root at_ i key kesc next v : set_next next (root_node at_ i key kesc 0 v) = root_node at_ i key kesc next v.
Proof. done. Qed.

Lemma print_head v : cst_ok v → ∃ x xs, print v = x :: xs ∧ json_is_ws x = false.
Proof.
  destruct v as [[]|n|us|obj w items]; intros Hok; [by do 2 eexists..| |by do 2 eexists|].
  - destruct Hok as ((Hd & Hne & _) & _). cbn [print]. unfold num_text. destruct (nu_neg n); [by do 2 eexists|].
    cbn [sign_text app]. destruct (nu_int n) as [|d ds]; [done|]. do 2 eexists. split; [done|].
    apply Forall_cons_iff in Hd as [Hd _]. unfold json_is_digit, json_is_ws in *. lia.
  - rewrite print_cont. do 2 eexists. split; [done|]. by destruct obj.
Qed.
Lemma size_pos v : (1 <= size v)%nat.
Proof. destruct v; cbn; lia. Qed.
Lemma nesting_pos v : 1 <= nesting v.
Proof.
  destruct v as [| | |obj w items]; [done..|]. rewrite nesting_cont. induction items as [|it l IH]; [done|].
  rewrite nestings_cons. lia.
Qed.

(** ** The parser accepts the grammar *)

Section exact.
Context (buf : mem) (end_ cap : Z) (Hend : 0 <= end_ <= mlen buf) (Hsmall : end_ <= 2147483647).
Context (Hcap : cap < 4294967296).

Lemma lit_exact c lit : holds buf (c_p c) lit → c_p c + mlen lit <= end_ →
  scan_lit buf end_ c lit = Ok (Some (JStr (Some (c_p c)) (mlen lit)), move c (c_p c + mlen lit)).
Proof using.
  intros Hh Hl. unfold scan_lit. rewrite (proj2 (Z.ltb_ge _ _)) by lia. rewrite (holds_rdn _ _ _ _ Hh) by done. bstep.
  by rewrite bool_decide_eq_true_2.
Qed.

Lemma alloc_exact A r R p : Z.of_nat (length A) < cap →
  alloc_node cap (Pctx (A ++ r :: R) (Z.of_nat (length A)) p) =
    Ok (Some (Pctx (A ++ zero_node :: R) (Z.of_nat (length A) + 1) p, Z.of_nat (length A))).
Proof using Hcap.
  intros Hl. unfold alloc_node. cbn [c_count c_nodes c_p]. rewrite (proj2 (Z.leb_gt cap _)) by lia. cbv zeta.
  unfold node_set. rewrite length_app, length_cons.
  rewrite (proj2 (Z.leb_le 0 _)), (proj2 (Z.ltb_lt _ _)) by lia. cbn [andb].
  bstep. rewrite Nat2Z.id, insert_app_r_alt by lia. rewrite Nat.sub_diag, u32_small by lia. done.
Qed.

(** The white space an item starts with, which the parser may have skipped in part. *)
Definition lead (obj : bool) (it : item) : list Z := let 'Item w1 _ _ w3 _ _ := it in if obj then w1 else w3.

Lemma member_exact obj it q c wa wb : item_ok obj it → lead obj it = wa ++ wb → c_p c = q + mlen wa → 0 <= q →
  holds buf q (item_pre obj it ++ print (i_val it)) → cst_ok (i_val it) → q + mlen (item_pre obj it) < end_ →
  ∃ wv, member_name buf end_ obj c =
      Ok (move c (q + mlen (item_pre obj it) - mlen wv), JSON_OK, key_slice obj q it, key_esc obj it) ∧
    ws_ok wv ∧ holds buf (q + mlen (item_pre obj it) - mlen wv) (wv ++ print (i_val it)) ∧
    c_p c <= q + mlen (item_pre obj it) - mlen wv.
Proof using Hend Hsmall.
  destruct it as [w1 key w2 w3 v w4]. intros (H1 & Hk & H2 & H3 & H4 & Ho) Hlead Hcp Hq Hh Hv Hl. cbn [lead i_val] in *.
  unfold member_name, item_pre, key_slice, key_esc in *. cbn [i_key]. pose proof (mlen_nonneg wa). pose proof (mlen_nonneg wb).
  destruct obj.
  - subst w1. apply Forall_app in H1 as [Hwa Hwb]. exists w3.
    rewrite !mlen_app, !mlen_cons, !mlen_app, !mlen_cons, !mlen_app, !mlen_cons in *.
    pose proof (mlen_nonneg (body_text key)). pose proof (mlen_nonneg w2). pose proof (mlen_nonneg w3).
    rewrite <-!app_assoc in Hh. cbn [app] in Hh. apply holds_app in Hh as [_ Hh]. apply holds_app in Hh as [Hhb Hh].
    rewrite <-Hcp in Hhb. rewrite <-!app_assoc in Hh. cbn [app] in Hh.
    replace (34 :: body_text key ++ 34 :: (w2 ++ 58 :: w3) ++ print v)
      with ((34 :: body_text key ++ [34]) ++ w2 ++ 58 :: w3 ++ print v) in Hh
      by (by apps).
    apply holds_app in Hh as [Hhk Hh]. apply holds_app in Hh as [Hh2 Hh].
    rewrite (skip_ws_exact _ _ Hend c wb) by (done || lia || (right; apply holds_head in Hhk; [|mlia];
      replace (c_p c + mlen wb) with (q + mlen wa + mlen wb) by lia; by rewrite Hhk)).
    bstep. cbn [c_p move]. set (qk := c_p c + mlen wb) in *. replace (q + mlen wa + mlen wb) with qk in * by lia.
    rewrite (peek_holds _ _ qk _ 34 (body_text key ++ [34])) by (done || lia). bstep. cbn [Z.eqb Pos.eqb negb].
    rewrite (scan_str_exact _ _ Hend Hsmall (move c qk) key) by (done || (cbn [c_p move]; lia)). bstep.
    cbn [c_p move c_nodes c_count] in *. rewrite mlen_cons, mlen_app in Hh2, Hh. change (mlen [34]) with 1 in *.
    replace (qk + (1 + (mlen (body_text key) + 1))) with (qk + 2 + mlen (body_text key)) in * by lia.
    rewrite (skip_ws_exact _ _ Hend (move (move c qk) (qk + 2 + mlen (body_text key))) w2)
      by (done || (cbn [c_p move]; lia) || (cbn [c_p move]; right; apply holds_head in Hh; [|rewrite mlen_cons; pose proof (mlen_nonneg (w3 ++ print v)); lia]; by rewrite Hh)).
    bstep. cbn [c_p move]. rewrite (peek_holds _ _ _ _ 58 (w3 ++ print v)) by (done || lia). bstep. cbn [Z.eqb Pos.eqb negb].
    apply holds_cons in Hh as [_ Hh].
    replace (qk + 2 + mlen (body_text key) + mlen w2 + 1)
      with (q + (mlen wa + mlen wb + (1 + (mlen (body_text key) + (1 + (mlen w2 + (1 + mlen w3)))))) - mlen w3) in * by lia.
    split; [|split; [done|split; [done|lia]]]. unfold move. cbn [c_nodes c_count].
    by replace (q + (mlen wa + mlen wb) + 1) with (qk + 1) by lia.
  - exists wb. subst w3. apply Forall_app in H3 as [Hwa Hwb]. rewrite mlen_app in *.
    replace (q + (mlen wa + mlen wb) - mlen wb) with (c_p c) by lia. split; [by destruct c|]. split; [done|].
    rewrite <-app_assoc in Hh. apply holds_app in Hh as [_ Hh]. rewrite <-Hcp in Hh. split; [done|lia].
Qed.


Definition follow (v : cst) (p : Z) : Prop := match v with CNum n => num_follow buf end_ n p | _ => True end.

(** The context behind the value [v] that stood, after white space, at [pos]. *)
Definition behind (A R : list json_node) (idx pos : Z) (v : cst) : pctx :=
  Pctx (A ++ enc pos idx no_str false 0 v ++ drop (size v) R) (idx + Z.of_nat (size v)) (pos + mlen (print v)).

Definition value_exact (v : cst) : Prop := cst_ok v → ∀ fuel depth c w A R,
  ws_ok w → c_nodes c = A ++ R → c_count c = Z.of_nat (length A) → c_count c + Z.of_nat (size v) <= cap →
  (size v <= length R)%nat → 0 <= depth → depth + nesting v <= JSON_MAX_DEPTH →
  holds buf (c_p c) (w ++ print v) → c_p c + mlen w + mlen (print v) <= end_ →
  follow v (c_p c + mlen w + mlen (print v)) → 3 * (end_ - c_p c) + 4 <= Z.of_nat fuel →
  parse_value buf end_ cap fuel depth c = Ok (behind A R (c_count c) (c_p c + mlen w) v, JSON_OK, c_count c).

(** What stands behind a value does not extend it. *)
Lemma follow_ws v w x p : ws_ok w → 0 <= p → holds buf p (w ++ [x]) → x = 44 ∨ x = 125 ∨ x = 93 → follow v p.
Proof using.
  intros Hw Hp Hh Hx. destruct v as [|n| |]; [done| |done|done]. cbn [follow].
  assert (∃ y, get buf p = y ∧ (json_is_ws y = true ∨ y = 44 ∨ y = 125 ∨ y = 93)) as (y & Hy & Hy').
  { apply holds_head in Hh; [|rewrite mlen_app; change (mlen [x]) with 1; pose proof (mlen_nonneg w); lia].
    destruct w as [|z w]; [exists x; by split; [|right]|]. exists z. split; [done|].
    apply Forall_cons_iff in Hw as [Hw _]. by left. }
  assert (∀ f, f y = false → stops buf end_ f p) as Hst by (intros f Hf; right; by rewrite Hy).
  unfold json_is_ws in Hy'. unfold num_follow, exp_follow, frac_follow, int_follow.
  assert (stops buf end_ json_is_digit p ∧ stops buf end_ is_e p ∧ stops buf end_ (Z.eqb 46) p) as (S1 & S2 & S3).
  { split_and!; apply Hst; unfold json_is_digit, is_e; lia. }
  split; [by destruct (nu_exp n)|]. intros _. split; [by destruct (nu_frac n)|]. by right.
Qed.

Definition add_count (k : Z) (n : json_node) : json_node :=
  JsonNode (n_type n) (n_flags n) (n_count n + k) (n_first n) (n_next n) (n_key n) (n_raw n).

Lemma item_split obj it : item_text obj it = item_pre obj it ++ print (i_val it) ++
  match it with Item _ _ _ _ _ w4 => w4 end.
Proof using. by destruct it. Qed.

Lemma members_exact obj items : Forall (λ it, value_exact (i_val it)) items →
  Forall (λ it, item_ok obj it ∧ cst_ok (i_val it)) items → items ≠ [] → ∀ fuel depth c q wa A root t R,
  lead obj (hd (Item [] [] [] [] (CLit LNull) []) items) = wa ++ drop (length wa) (lead obj (hd (Item [] [] [] [] (CLit LNull) []) items)) →
  c_nodes c = A ++ root :: linked_nodes t ++ R →
  c_count c = Z.of_nat (length A) + 1 + Z.of_nat (length (linked_nodes t)) → c_p c = q + mlen wa → 0 <= q → c_p c <= end_ →
  c_count c + Z.of_nat (sizes items) <= cap → (sizes items <= length R)%nat →
  0 <= n_count root → n_count root + Z.of_nat (length items) < 4294967296 →
  0 <= depth → depth + 1 + nestings items <= JSON_MAX_DEPTH →
  holds buf q (prints obj items) → q + mlen (prints obj items) <= end_ →
  3 * (end_ - c_p c) + 5 <= Z.of_nat fuel →
  members buf end_ cap fuel depth c (Z.of_nat (length A)) obj (closing obj) (linked_prev (Z.of_nat (length A) + 1) t) =
    Ok (Pctx (A ++ add_count (Z.of_nat (length items)) (link_root (c_count c) t root) :: link_last (c_count c) t ++
                encs obj q (c_count c) items ++ drop (sizes items) R)
          (c_count c + Z.of_nat (sizes items)) (q + mlen (prints obj items)), JSON_OK).
Proof using Hend Hsmall Hcap.
  intros Hall. induction Hall as [|it items Hv _ IH]; intros Hok Hne fuel depth c q wa A root t R Hlead Hns Hcnt Hp Hq Hpe Hsz HR Hrc Hrc2 Hd0 Hd Hh Hl Hf; [done|].
  apply Forall_cons_iff in Hok as [[Hio Hio2] Hok]. cbn [hd] in Hlead.
  destruct fuel as [|fuel]; [lia|].
  rewrite members_S. rewrite sizes_cons, nestings_cons in *. rewrite prints_cons, item_split in *.
  set (v := i_val it) in *. set (w4 := match it with Item _ _ _ _ _ w4 => w4 end) in *.
  set (tl := match items with [] => [closing obj] | _ => 44 :: prints obj items end) in *.
  rewrite <-!app_assoc, !mlen_app in *.
  pose proof (mlen_nonneg (item_pre obj it)). pose proof (mlen_nonneg (print v)). pose proof (mlen_nonneg w4). pose proof (size_pos v).
  assert (1 <= mlen tl) as Htl by (unfold tl; destruct items; [done|rewrite mlen_cons; pose proof (mlen_nonneg (prints obj (i :: items))); lia]).
  assert (ws_ok w4) as Hw4 by (unfold w4; destruct it; apply Hio).
  assert (1 <= mlen (print v)) as Hpv.
  { destruct (print_head v Hio2) as (x & xs & -> & _). rewrite mlen_cons. pose proof (mlen_nonneg xs). lia. }
  assert (holds buf q (item_pre obj it ++ print v)) as Hh1.
  { rewrite app_assoc in Hh. by apply holds_app in Hh as [Hh _]. }
  destruct (member_exact obj it q c wa _ Hio Hlead Hp Hq Hh1 Hio2 ltac:(lia)) as (wv & -> & Hwv & Hhv & Hpos). bstep.
  pose proof (mlen_nonneg wv). change (negb (JSON_OK =? JSON_OK)) with false. cbn match. set (pv := q + mlen (item_pre obj it)) in *.
  apply holds_app in Hh as [_ Hh]. fold pv in Hh. apply holds_app in Hh as [_ Hh].
  assert (holds buf (pv + mlen (print v)) (w4 ++ [hd 0 tl])) as Hh4.
  { unfold tl in *. apply holds_app in Hh as [Ha Hb]. apply holds_join; [done|]. destruct items; [done|].
    change (44 :: prints obj (i :: items)) with ([44] ++ prints obj (i :: items)) in Hb. by apply holds_app in Hb as [Hb _]. }
  assert (hd 0 tl = 44 ∨ hd 0 tl = 125 ∨ hd 0 tl = 93) as Htl2 by (unfold tl; destruct items, obj; cbn; auto).
  (* the value *)
  rewrite (Hv Hio2 fuel (depth + 1) (move c (pv - mlen wv)) wv (A ++ root :: linked_nodes t) R); cbn [c_p c_nodes c_count move];
    [|done|rewrite Hns; by apps|rewrite length_app, length_cons; lia|lia|lia|lia|lia|done|lia|
      apply (follow_ws v w4 (hd 0 tl)); [done|lia|by replace (pv - mlen wv + mlen wv + mlen (print v)) with (pv + mlen (print v)) by lia|done]|lia].
  bstep. change (negb (JSON_OK =? JSON_OK)) with false. cbn match. replace (pv - mlen wv + mlen wv) with pv by lia.
  unfold behind. cbn [c_nodes c_count c_p]. unfold enc.
  replace ((A ++ root :: linked_nodes t) ++ (root_node pv (c_count c) no_str false 0 v :: subs pv (c_count c) v) ++ drop (size v) R)
    with (A ++ root :: linked_nodes t ++ root_node pv (c_count c) no_str false 0 v :: subs pv (c_count c) v ++ drop (size v) R) by (by apps).
  rewrite link_child_spec by (done || lia). bstep. rewrite set_key_root. unfold with_nodes. cbn [c_nodes c_count c_p].
  apply holds_app in Hh as [Hw4h Hh].
  set (ns := A ++ _). rewrite (skip_ws_exact _ _ Hend _ w4); cbn [c_p];
    [|done|done|lia|right; apply holds_head in Hh; [|done]; rewrite Hh; unfold tl; destruct items, obj; done].
  bstep. cbn [c_p move c_nodes c_count]. rewrite (proj2 (Z.leb_gt end_ _)) by lia.
  assert (inc_count (link_root (c_count c) t root) = add_count 1 (link_root (c_count c) t root)) as Hinc.
  { unfold inc_count, add_count. rewrite u32_small; [done|]. destruct t; cbn [link_root set_first n_count]; rewrite length_cons in Hrc2; lia. }
  destruct items as [|it2 items].
  - unfold tl in *. pose proof Hh as Hh'. apply holds_cons in Hh' as [-> _]. bstep.
    assert ((closing obj =? 44) = false) as -> by (by destruct obj). rewrite Z.eqb_refl. cbn [negb].
    change (mlen [closing obj]) with 1. rewrite encs_cons. fold v. fold pv. cbn [sizes length encs]. rewrite Nat.add_0_r, app_nil_r.
    unfold ns, move. cbn [c_nodes c_count]. rewrite Hinc. unfold enc. do 3 f_equal; lia.
  - unfold tl in *. pose proof Hh as Hh'. apply holds_cons in Hh' as [-> Hh']. bstep. rewrite Z.eqb_refl.
    set (child := root_node pv (c_count c) (key_slice obj q it) (key_esc obj it) 0 v).
    pose proof (length_subs v pv (c_count c)) as Hls.
    assert (length (link_last (c_count c) t ++ child :: subs pv (c_count c) v) = (length (linked_nodes t) + size v)%nat) as Hlen.
    { rewrite length_app, length_link_last, length_cons. lia. }
    rewrite mlen_cons in *.
    replace (c_count c) with (linked_prev (Z.of_nat (length A) + 1) (Some (link_last (c_count c) t, child, subs pv (c_count c) v))) at 2
      by (cbn [linked_prev]; rewrite length_link_last; lia).
    rewrite (IH Hok ltac:(done) fuel depth _ (pv + mlen (print v) + mlen w4 + 1) [] A
      (inc_count (link_root (c_count c) t root)) (Some (link_last (c_count c) t, child, subs pv (c_count c) v)) (drop (size v) R));
      cbn [c_nodes c_count c_p linked_nodes move]; rewrite ?mlen_nil, ?Z.add_0_r, ?length_drop; try done; try lia.
    + cbn [link_root link_last]. unfold child at 1. rewrite set_next_root. rewrite (encs_cons obj q (c_count c) it). fold v. fold pv.
      rewrite item_split, !mlen_app. fold v. fold w4.
      replace (q + (mlen (item_pre obj it) + (mlen (print v) + mlen w4)) + 1) with (pv + mlen (print v) + mlen w4 + 1) by lia.
      unfold enc. rewrite drop_drop. rewrite Hinc. unfold add_count. cbn [n_type n_flags n_count n_first n_next n_key n_raw].
      rewrite (length_cons it). do 3 f_equal; [|lia|lia]. f_equal. f_equal; [f_equal; lia|]. by apps.
    + unfold ns. rewrite Hinc. by apps.
    + rewrite Hinc. destruct t; cbn [link_root set_first add_count n_count] in *; lia.
    + rewrite Hinc. rewrite (length_cons it) in Hrc2. destruct t; cbn [link_root set_first add_count n_count] in *; lia.
Qed.


Lemma container_exact obj w items : Forall (λ it, value_exact (i_val it)) items → cst_ok (CCont obj w items) →
  ∀ fuel depth p A R, (sizes items <= length R)%nat → Z.of_nat (length A) + Z.of_nat (size (CCont obj w items)) <= cap →
  0 <= depth → depth + nesting (CCont obj w items) <= JSON_MAX_DEPTH →
  holds buf p (print (CCont obj w items)) → p + mlen (print (CCont obj w items)) <= end_ →
  3 * (end_ - p) + 3 <= Z.of_nat fuel →
  parse_container buf end_ cap fuel depth (Pctx (A ++ zero_node :: R) (Z.of_nat (length A) + 1) p) (Z.of_nat (length A)) obj =
    Ok (Pctx (A ++ enc p (Z.of_nat (length A)) no_str false 0 (CCont obj w items) ++ drop (sizes items) R)
          (Z.of_nat (length A) + Z.of_nat (size (CCont obj w items))) (p + mlen (print (CCont obj w items))), JSON_OK).
Proof using Hend Hsmall Hcap.
  intros Hall (Hw & Hwn & Hok)%cst_ok_cont fuel depth p A R HR Hsz Hd0 Hd Hh Hl Hf. rewrite size_cont, nesting_cont in *.
  unfold enc. rewrite subs_cont. set (rawv := mlen (print (CCont obj w items))) in *. pose proof (holds_pos _ _ _ Hh) as [Hp _].
  assert (root_node p (Z.of_nat (length A)) no_str false 0 (CCont obj w items) =
    JsonNode (if obj then JSON_T_OBJ else JSON_T_ARR) 0 (Z.of_nat (length items))
      (if Z.of_nat (length items) =? 0 then 0 else Z.of_nat (length A) + 1) 0 no_str (JStr (Some p) rawv)) as Hroot by done.
  assert (1 <= rawv) as Hr1 by (unfold rawv; rewrite print_cont, mlen_cons; match goal with |- context [1 + mlen ?x] => pose proof (mlen_nonneg x) end; lia).
  destruct fuel as [|fuel]; [lia|]. rewrite parse_container_S. cbv zeta. cbn [c_p c_nodes c_count].
  assert ((if obj then 125 else 93) = closing obj) as -> by done.
  assert (rawv = 1 + mlen (match items with [] => w ++ [closing obj] | _ => prints obj items end)) as Hraw
    by (unfold rawv; by rewrite print_cont, mlen_cons).
  rewrite print_cont in Hh. pose proof Hh as Hh0. apply holds_cons in Hh as [_ Hh].
  destruct items as [|it items].
  - rewrite mlen_app in Hraw. change (mlen [closing obj]) with 1 in Hraw. apply holds_app in Hh as [Hhw Hhc]. pose proof (mlen_nonneg w).
    rewrite (skip_ws_exact _ _ Hend _ w); cbn [c_p move]; [|done|done|lia|right; apply holds_head in Hhc; [|done]; rewrite Hhc; by destruct obj].
    bstep. cbn [c_p move]. rewrite (proj2 (Z.leb_gt end_ _)) by lia. apply holds_cons in Hhc as [-> _]. bstep.
    rewrite Z.eqb_refl. bstep. change (negb (JSON_OK =? JSON_OK)) with false. cbn match. cbn [c_nodes move c_p c_count].
    rewrite node_upd_mid by done. bstep. unfold with_nodes. cbn [c_count c_p move sizes encs app drop]. rewrite Hroot.
    replace (p + 1 + mlen w + 1 - p) with rawv by lia. rewrite u32_small by lia.
    replace (p + 1 + mlen w + 1) with (p + rawv) by lia. done.
  - pose proof (Forall_inv Hok) as [Hio Hio2]. set (w0 := lead obj it).
    assert (ws_ok w0) as Hw0 by (unfold w0, lead; destruct it, obj; apply Hio).
    assert (∃ x xs, prints obj (it :: items) = w0 ++ x :: xs ∧ json_is_ws x = false ∧ x ≠ closing obj) as (x & xs & Epr & Hx & Hxc).
    { rewrite prints_cons, item_split. unfold w0, lead, item_pre. destruct it as [w1 key w2 w3 v w4]. cbn [i_val] in *.
      destruct obj; [by do 2 eexists; apps|]. destruct (print_head v Hio2) as (x & xs & E & Hx).
      exists x. eexists. split; [rewrite E; by apps|]. split; [done|]. cbn. intros ->.
      destruct v as [[]|nn|us|[] ? ?]; try by injection E. cbn [print] in E. unfold num_text in E.
      destruct Hio2 as ((Hdd & Hne & _) & _). destruct (nu_neg nn); [by injection E|]. cbn [sign_text app] in E.
      destruct (nu_int nn) as [|d ds]; [done|]. injection E as -> _. by apply Forall_cons_iff in Hdd as [? _]. }
    assert (mlen (prints obj (it :: items)) = mlen w0 + (1 + mlen xs)) as Hpl by (by rewrite Epr, mlen_app, mlen_cons).
    pose proof (mlen_nonneg xs). pose proof (mlen_nonneg w0). pose proof Hh as Hhp. rewrite Epr in Hhp. apply holds_app in Hhp as [Hhw Hhx].
    rewrite (skip_ws_exact _ _ Hend _ w0); cbn [c_p move]; [|done|done|lia|right; apply holds_head in Hhx; [by rewrite Hhx|rewrite mlen_cons; lia]].
    bstep. cbn [c_p move]. rewrite (proj2 (Z.leb_gt end_ _)) by lia. apply holds_cons in Hhx as [-> _]. bstep.
    rewrite (proj2 (Z.eqb_neq _ _) Hxc).
    match goal with |- context [members _ _ _ _ _ ?c ?i _ ?cl 0] =>
      change (members buf end_ cap fuel depth c i obj cl 0) with
        (members buf end_ cap fuel depth c i obj cl (linked_prev (Z.of_nat (length A) + 1) None)) end.
    assert (Z.of_nat (length (it :: items)) <= Z.of_nat (sizes (it :: items))) as Hls.
    { clear. generalize (it :: items). induction l as [|i l IH]; [done|]. rewrite sizes_cons, length_cons. pose proof (size_pos (i_val i)). lia. }
    rewrite (members_exact obj (it :: items) Hall Hok ltac:(done) fuel depth _ (p + 1) w0 A zero_node None R); cbn [hd c_nodes c_count c_p move linked_nodes length n_count zero_node]; try done; try lia.
    + bstep. change (negb (JSON_OK =? JSON_OK)) with false. cbn match. cbn [c_nodes c_p c_count].
      rewrite node_upd_mid by done. bstep. unfold with_nodes. cbn [c_count c_p link_last app link_root]. rewrite Hroot.
      replace (p + 1 + mlen (prints obj (it :: items)) - p) with rawv by lia. rewrite u32_small by lia.
      replace (p + 1 + mlen (prints obj (it :: items))) with (p + rawv) by lia. do 3 f_equal. lia.
    + fold w0. by rewrite drop_ge, app_nil_r by lia.
    + rewrite length_cons in Hls. lia.
Qed.

Theorem parse_value_exact v : value_exact v.
Proof using Hend Hsmall Hcap.
  induction v as [l|n|us|obj w0 items IH] using cst_ind'; intros Hok fuel depth c w A R Hw Hns Hcnt Hsz HR Hd0 Hd Hh Hl Hfol Hf;
    match goal with |- context [behind _ _ _ _ ?v] => destruct (print_head v Hok) as (x & xs & Epr & Hx); set (vv := v) in * end;
    pose proof (mlen_nonneg w); pose proof (mlen_nonneg xs); pose proof (nesting_pos vv); pose proof (size_pos vv);
    (assert (mlen (print vv) = 1 + mlen xs) as Hpl by (by rewrite Epr, mlen_cons));
    (destruct fuel as [|fuel]; [lia|]); rewrite parse_value_S; unfold JSON_MAX_DEPTH in *;
    rewrite (proj2 (Z.leb_gt 32 depth)) by lia; apply holds_app in Hh as [Hhw Hhv];
    (rewrite (skip_ws_exact _ _ Hend c w); [|done|done|lia|right; apply holds_head in Hhv; [|lia]; rewrite Hhv, Epr; done]); bstep;
    cbn [c_p move]; rewrite (proj2 (Z.leb_gt end_ _)) by lia; unfold move; rewrite Hns, Hcnt in *;
    (destruct R as [|r R]; [cbn in HR; lia|]); (rewrite alloc_exact by lia); bstep; cbn [c_p];
    set (p := c_p c + mlen w) in *; pose proof Hhv as Hhx; rewrite Epr in Hhx; apply holds_cons in Hhx as [-> _]; bstep;
    unfold behind.
  - destruct l; injection Epr as <- <-; cbn [Z.eqb Pos.eqb orb]; unfold lit_value; cbn [c_nodes c_p c_count];
      rewrite node_upd_mid by done; bstep; unfold with_nodes; cbn [c_nodes c_p c_count];
      rewrite (lit_exact (Pctx _ _ p)) by (done || lia); bstep; unfold scalar_node; cbn [c_nodes c_p c_count move];
      rewrite node_upd_mid by done; bstep; done.
  - assert (x ≠ 123 ∧ x ≠ 91 ∧ x ≠ 34 ∧ x ≠ 116 ∧ x ≠ 102 ∧ x ≠ 110) as (N1 & N2 & N3 & N4 & N5 & N6).
    { cbn [print vv] in Epr. unfold num_text in Epr. destruct Hok as ((Hdd & Hne & _) & _).
      destruct (nu_neg n); [injection Epr as <- _; done|]. destruct (nu_int n) as [|d ds]; [done|]. injection Epr as <- _.
      apply Forall_cons_iff in Hdd as [Hdd _]. unfold json_is_digit in Hdd. lia. }
    rewrite (proj2 (Z.eqb_neq _ _) N1), (proj2 (Z.eqb_neq _ _) N2), (proj2 (Z.eqb_neq _ _) N3), (proj2 (Z.eqb_neq _ _) N4),
      (proj2 (Z.eqb_neq _ _) N5), (proj2 (Z.eqb_neq _ _) N6).
    rewrite (scan_num_exact _ _ Hend Hsmall (Pctx _ _ p) n) by done. bstep. unfold scalar_node. cbn [c_nodes c_p c_count move].
    rewrite node_upd_mid by done. bstep. done.
  - injection Epr as <- <-. cbn [Z.eqb Pos.eqb].
    rewrite (scan_str_exact _ _ Hend Hsmall (Pctx _ _ p) us); cbn [c_p]; [|done|done|cbn [print vv] in Hl; rewrite mlen_cons, mlen_app in Hl; change (mlen [34]) with 1 in Hl; lia].
    bstep. unfold scalar_node. cbn [c_nodes c_p c_count move]. rewrite node_upd_mid by done. bstep. unfold with_nodes. cbn [c_count c_p].
    replace (p + 2 + mlen (body_text us)) with (p + mlen (print vv)) by (cbn [print vv]; rewrite mlen_cons, mlen_app; change (mlen [34]) with 1; lia).
    done.
  - pose proof (container_exact obj w0 items IH Hok fuel depth p A R) as Hc. subst vv. injection Epr as <- _.
    rewrite size_cont in *. cbn [length] in HR. cbn [drop].
    destruct obj; cbn [opening Z.eqb Pos.eqb]; (rewrite Hc by (done || lia)); bstep; done.
Qed.

End exact.

End JsonGrammar.
