(* ===== verification/JsonSound.v ===== *)
(** * JsonSound: the JSON parser accepts nothing else

    The converse of JsonGrammar: on every text the parser stays inside the text and
    the pool, ends in one of its documented codes, and when it succeeds the text is
    that of a syntax tree within the bounds.  With the exactness of JsonGrammar this
    characterises [json_parse]: success, the pool it leaves and failure. *)

From S2P Require Import Prelude Endian SmsIntl SmsText JsonStr JsonParse JsonGrammar.

Module JsonSound.
Import JsonStr JsonParse JsonGrammar.

Lemma node_set_ok ns i n : 0 <= i < Z.of_nat (length ns) → ∃ ns', node_set ns i n = Ok ns' ∧ length ns' = length ns.
Proof.
  intros Hi. unfold node_set. rewrite (proj2 (Z.leb_le 0 i)), (proj2 (Z.ltb_lt i _)) by lia. cbn [andb].
  eexists. split; [done|]. apply length_insert.
Qed.
Lemma node_upd_ok ns i f : 0 <= i < Z.of_nat (length ns) → ∃ ns', node_upd ns i f = Ok ns' ∧ length ns' = length ns.
Proof.
  intros Hi. unfold node_upd, node_at. rewrite (proj2 (Z.ltb_ge i 0)) by lia.
  destruct (lookup_lt_is_Some_2 ns (Z.to_nat i)) as [n ->]; [lia|]. bstep. by apply node_set_ok.
Qed.
Lemma link_child_ok ns idx prev child key kesc : 0 <= idx < Z.of_nat (length ns) → 0 <= prev < Z.of_nat (length ns) →
  0 <= child < Z.of_nat (length ns) → ∃ ns', link_child ns idx prev child key kesc = Ok ns' ∧ length ns' = length ns.
Proof.
  intros Hi Hp Hc. unfold link_child. destruct (node_upd_ok ns child (set_key key kesc) Hc) as (n1 & -> & E1). bstep.
  destruct (node_upd_ok n1 prev (set_next child) ltac:(rewrite E1; done)) as (n2 & H2 & E2).
  destruct (node_upd_ok n1 idx (set_first child) ltac:(rewrite E1; done)) as (n3 & H3 & E3).
  destruct (negb (prev =? 0)); [rewrite H2|rewrite H3]; bstep.
  - destruct (node_upd_ok n2 idx inc_count ltac:(rewrite E2, E1; done)) as (n4 & -> & E4). exists n4. by rewrite E4, E2, E1.
  - destruct (node_upd_ok n3 idx inc_count ltac:(rewrite E3, E1; done)) as (n4 & -> & E4). exists n4. by rewrite E4, E3, E1.
Qed.

Section sound.
Context (buf : mem) (end_ cap : Z) (room : nat) (Hbuf : bytes_ok buf) (Hend : 0 <= end_ <= mlen buf).
Context (Hsmall : end_ <= 2147483647) (Hcap : cap < 4294967296) (Hroom : cap <= Z.of_nat room).

(** The context of a run: cursor inside the text, count inside the pool. *)
Definition ctx_ok (c : pctx) : Prop :=
  0 <= c_p c <= end_ ∧ 0 <= c_count c <= cap ∧ length (c_nodes c) = room.
Definition failed (rc : Z) : Prop := rc = JSON_E_SYNTAX ∨ rc = JSON_E_NODES ∨ rc = JSON_E_DEPTH.

Lemma failed_rc rc : failed rc → negb (rc =? JSON_OK) = true.
Proof using. by intros [->|[->| ->]]. Qed.

Lemma ctx_move c p : ctx_ok c → 0 <= p <= end_ → ctx_ok (move c p).
Proof using. intros (? & ? & ?) ?. done. Qed.
Lemma ctx_nodes c ns : ctx_ok c → length ns = room → ctx_ok (with_nodes c ns).
Proof using. intros (? & ? & ?) ?. done. Qed.

Lemma alloc_sound c : ctx_ok c → alloc_node cap c = Ok None ∨
  ∃ ns, alloc_node cap c = Ok (Some (Pctx ns (c_count c + 1) (c_p c), c_count c)) ∧ length ns = room ∧ c_count c < cap.
Proof using Hcap Hroom.
  intros (Hp & Hc & Hl). unfold alloc_node. destruct (Z.leb_spec cap (c_count c)); [by left|]. right. cbv zeta.
  destruct (node_set_ok (c_nodes c) (c_count c) zero_node) as (ns & -> & E); [lia|]. bstep. rewrite u32_small by lia.
  exists ns. split; [done|]. split; [congruence|done].
Qed.

Lemma lit_sound c lit : 0 <= c_p c <= end_ → scan_lit buf end_ c lit = Ok (None, c) ∨
  (scan_lit buf end_ c lit = Ok (Some (JStr (Some (c_p c)) (mlen lit)), move c (c_p c + mlen lit)) ∧
   holds buf (c_p c) lit ∧ c_p c + mlen lit <= end_).
Proof using Hend.
  clear dependent room. intros Hp. unfold scan_lit. pose proof (mlen_nonneg lit). destruct (Z.ltb_spec (end_ - c_p c) (mlen lit)); [by left|].
  rewrite rdn_Ok by lia. bstep. case_bool_decide as E; [|by left]. right. split; [done|]. split; [|lia].
  unfold holds. split_and!; [lia|lia|]. done.
Qed.

(** *** The name of a member *)

Definition name_result (obj : bool) (c c' : pctx) : Prop :=
  ∃ pre, holds buf (c_p c) pre ∧ c_p c' = c_p c + mlen pre ∧
    ∀ wl w v w4, ws_ok wl → ws_ok w → ws_ok w4 →
      ∃ it, i_val it = v ∧ item_ok obj it ∧ item_text obj it = wl ++ pre ++ w ++ print v ++ w4.

Lemma member_sound obj c : ctx_ok c → ∃ c' rc key kesc, member_name buf end_ obj c = Ok (c', rc, key, kesc) ∧
  c_nodes c' = c_nodes c ∧ c_count c' = c_count c ∧ c_p c <= c_p c' <= end_ ∧
  (rc = JSON_E_SYNTAX ∨ rc = JSON_OK ∧ name_result obj c c').
Proof using Hbuf Hend Hsmall.
  intros (Hp & _ & _). clear dependent room. unfold member_name. destruct obj.
  2: { eexists c, JSON_OK, _, _. split; [done|]. split; [done|]. split; [done|]. split; [lia|]. right. split; [done|].
       exists []. rewrite mlen_nil. split; [apply holds_nil; lia|]. split; [lia|]. intros wl w v w4 H1 H2 H4.
       exists (Item [] [] [] (wl ++ w) v w4). split; [done|]. split.
       - unfold item_ok. repeat (split; [constructor|]). split; [by apply Forall_app|done].
       - cbn [item_text item_pre]. by rewrite <-app_assoc. }
  destruct (skip_ws_sound buf end_ Hend c) as (w1 & -> & Hw1 & Hh1 & Hl1 & Hs1); [lia|]. bstep. pose proof (mlen_nonneg w1).
  cbn [c_p move]. rewrite (peek_spec buf end_ Hend (c_p c + mlen w1)) by lia. bstep.
  destruct ((c_p c + mlen w1 <? end_) && (34 =? get buf (c_p c + mlen w1))) eqn:Eq; cbn [negb].
  2: { do 4 eexists. split; [done|]. cbn [c_nodes c_count c_p move]. split; [done|]. split; [done|]. split; [lia|by left]. }
  apply andb_prop in Eq as [Eq1%Z.ltb_lt Eq2%Z.eqb_eq].
  destruct (scan_str_sound buf end_ Hbuf Hend Hsmall (move c (c_p c + mlen w1))) as [->|(us & Hus & Hhs & Hls & ->)];
    [cbn [c_p move]; lia|done| |]; bstep.
  { do 4 eexists. split; [done|]. cbn [c_nodes c_count c_p move]. split; [done|]. split; [done|]. split; [lia|by left]. }
  cbn [c_p move c_nodes c_count] in *. set (p2 := c_p c + mlen w1 + 2 + mlen (body_text us)) in *. pose proof (mlen_nonneg (body_text us)).
  destruct (skip_ws_sound buf end_ Hend (move (move c (c_p c + mlen w1)) p2)) as (w2 & -> & Hw2 & Hh2 & Hl2 & Hs2); [cbn [c_p move]; lia|]. bstep.
  pose proof (mlen_nonneg w2). cbn [c_p move c_nodes c_count] in *. rewrite (peek_spec buf end_ Hend (p2 + mlen w2)) by lia. bstep.
  destruct ((p2 + mlen w2 <? end_) && (58 =? get buf (p2 + mlen w2))) eqn:Ec; cbn [negb].
  2: { do 4 eexists. split; [done|]. cbn [c_nodes c_count c_p move]. split; [done|]. split; [done|]. split; [lia|by left]. }
  apply andb_prop in Ec as [Ec1%Z.ltb_lt Ec2%Z.eqb_eq].
  do 4 eexists. split; [done|]. cbn [c_nodes c_count c_p move]. split; [done|]. split; [done|]. split; [lia|]. right. split; [done|].
  assert (mlen (34 :: body_text us ++ [34]) = 2 + mlen (body_text us)) as El
    by (rewrite mlen_cons, mlen_app; change (mlen [34]) with 1; lia).
  exists (w1 ++ (34 :: body_text us ++ [34]) ++ w2 ++ [58]). split; [|split].
  - apply holds_join; [done|]. apply holds_join; [done|]. rewrite El. replace (c_p c + mlen w1 + (2 + mlen (body_text us))) with p2 by lia.
    apply holds_join; [done|]. rewrite Ec2. apply holds_get_cons; [lia|apply holds_nil; lia].
  - cbn [c_p move]. rewrite !mlen_app, El. change (mlen [58]) with 1. lia.
  - intros wl w v w4 Hwl Hw Hw4. exists (Item (wl ++ w1) us w2 w v w4). split; [done|]. split.
    + unfold item_ok. split; [by apply Forall_app|]. do 4 (split; [done|]). done.
    + cbn [item_text item_pre]. by apps.
Qed.

(** *** Values *)

Definition value_result (depth : Z) (c c' : pctx) (out : Z) : Prop :=
  ∃ w v, ws_ok w ∧ cst_ok v ∧ holds buf (c_p c) (w ++ print v) ∧ c_p c' = c_p c + mlen w + mlen (print v) ∧
    follow buf end_ v (c_p c') ∧ depth + nesting v <= JSON_MAX_DEPTH ∧ out = c_count c ∧
    c_count c' = c_count c + Z.of_nat (size v).
Definition value_sound (fuel : nat) : Prop := ∀ depth c,
  ctx_ok c → 0 <= depth → 3 * (end_ - c_p c) + 4 <= Z.of_nat fuel →
  ∃ c' rc out, parse_value buf end_ cap fuel depth c = Ok (c', rc, out) ∧ ctx_ok c' ∧ c_p c <= c_p c' ∧
    (failed rc ∨ rc = JSON_OK ∧ value_result depth c c' out).

Definition container_result (depth : Z) (c c' : pctx) (obj : bool) : Prop :=
  ∃ w items, cst_ok (CCont obj w items) ∧ holds buf (c_p c) (print (CCont obj w items)) ∧
    c_p c' = c_p c + mlen (print (CCont obj w items)) ∧ depth + nesting (CCont obj w items) <= JSON_MAX_DEPTH ∧
    c_count c' = c_count c + Z.of_nat (sizes items).
Definition container_sound (fuel : nat) : Prop := ∀ depth c idx obj,
  ctx_ok c → 0 <= depth < JSON_MAX_DEPTH → c_p c < end_ → get buf (c_p c) = opening obj → 0 <= idx < c_count c →
  3 * (end_ - c_p c) + 3 <= Z.of_nat fuel →
  ∃ c' rc, parse_container buf end_ cap fuel depth c idx obj = Ok (c', rc) ∧ ctx_ok c' ∧ c_p c <= c_p c' ∧
    (failed rc ∨ rc = JSON_OK ∧ container_result depth c c' obj).

(** The white space [wl] before the first item is behind the cursor already. *)
Definition members_result (depth : Z) (c c' : pctx) (obj : bool) (wl : list Z) : Prop :=
  ∃ items, items ≠ [] ∧ Forall (λ it, item_ok obj it ∧ cst_ok (i_val it)) items ∧
    holds buf (c_p c - mlen wl) (prints obj items) ∧ c_p c' = c_p c - mlen wl + mlen (prints obj items) ∧
    depth + 1 + nestings items <= JSON_MAX_DEPTH ∧ c_count c' = c_count c + Z.of_nat (sizes items).
Definition members_sound (fuel : nat) : Prop := ∀ depth c idx obj prev wl,
  ctx_ok c → 0 <= depth < JSON_MAX_DEPTH → 0 <= idx < c_count c → 0 <= prev < c_count c → ws_ok wl → mlen wl <= c_p c →
  holds buf (c_p c - mlen wl) wl → 3 * (end_ - c_p c) + 5 <= Z.of_nat fuel →
  ∃ c' rc, members buf end_ cap fuel depth c idx obj (closing obj) prev = Ok (c', rc) ∧ ctx_ok c' ∧ c_p c <= c_p c' ∧
    (failed rc ∨ rc = JSON_OK ∧ members_result depth c c' obj wl).

Lemma members_step fuel : value_sound fuel → members_sound fuel → members_sound (S fuel).
Proof using Hbuf Hend Hsmall Hroom.
  intros HV HM depth c idx obj prev wl Hc Hd Hi Hpr Hwl Hlw Hhw Hf. rewrite members_S.
  destruct (member_sound obj c Hc) as (c1 & rc & key & kesc & -> & En & Ec & Hp1 & Hrc). bstep.
  assert (ctx_ok c1) as Hc1 by (destruct Hc as (? & ? & ?); unfold ctx_ok; rewrite En, Ec; split_and!; [lia|lia|lia|lia|done]).
  destruct Hrc as [->|[-> (pre & Hhp & Ep1 & Hit)]].
  { exists c1, JSON_E_SYNTAX. cbn match. split; [done|]. split; [done|]. split; [lia|]. left. by left. }
  cbn match. pose proof (mlen_nonneg pre). pose proof (mlen_nonneg wl).
  destruct (HV (depth + 1) c1 Hc1 ltac:(lia)) as (c2 & rc & child & -> & Hc2 & Hp2 & Hrc); [lia|]. bstep.
  destruct Hrc as [Hrc|[-> (w & v & Hw & Hv & Hhv & Ep2 & _ & Hn & -> & Ecn)]].
  { rewrite (failed_rc _ Hrc). exists c2, rc. split; [done|]. split; [done|]. split; [lia|by left]. }
  change (negb (JSON_OK =? JSON_OK)) with false. cbn match. pose proof (size_pos v). pose proof Hc2 as (Hb2 & Hk2 & Hl2).
  destruct (link_child_ok (c_nodes c2) idx prev (c_count c1) key kesc) as (ns & -> & Hns); [lia|lia|lia|]. bstep.
  destruct (skip_ws_sound buf end_ Hend (with_nodes c2 ns)) as (w4 & -> & Hw4 & Hh4 & Hl4 & _); [cbn [c_p with_nodes]; lia|]. bstep.
  pose proof (mlen_nonneg w4). cbn [c_p with_nodes move] in *.
  assert (ctx_ok (move (with_nodes c2 ns) (c_p c2 + mlen w4))) as Hc3 by (apply ctx_move; [apply ctx_nodes; [done|congruence]|lia]).
  destruct (Z.leb_spec end_ (c_p c2 + mlen w4)).
  { do 2 eexists. split; [done|]. split; [done|]. cbn [c_p move]. split; [lia|]. left. by left. }
  rewrite (rd_Ok buf (c_p c2 + mlen w4)) by lia. bstep.
  destruct (Hit wl w v w4 Hwl Hw Hw4) as (it & Eit & Hio & Hitx). pose proof (mlen_nonneg w). pose proof (mlen_nonneg (print v)).
  assert (holds buf (c_p c - mlen wl) (item_text obj it)) as Hhit.
  { rewrite Hitx. apply holds_join; [done|]. replace (c_p c - mlen wl + mlen wl) with (c_p c) by lia.
    apply holds_join; [done|]. rewrite <-Ep1. rewrite app_assoc. apply holds_join; [done|]. rewrite mlen_app.
    by replace (c_p c1 + (mlen w + mlen (print v))) with (c_p c2) by lia. }
  assert (c_p c - mlen wl + mlen (item_text obj it) = c_p c2 + mlen w4) as Elen by (rewrite Hitx, !mlen_app; lia).
  assert (1 <= mlen (print v)) as Hpv.
  { destruct (print_head v Hv) as (x & xs & -> & _). rewrite mlen_cons. pose proof (mlen_nonneg xs). lia. }
  destruct (Z.eqb_spec (get buf (c_p c2 + mlen w4)) 44) as [E44|N44].
  - destruct (HM depth (move (move (with_nodes c2 ns) (c_p c2 + mlen w4)) (c_p c2 + mlen w4 + 1)) idx obj (c_count c1) [])
      as (c' & rc & -> & Hc' & Hp' & Hrc'); cbn [c_p c_count with_nodes move] in *; rewrite ?mlen_nil, ?Z.sub_0_r;
      [apply ctx_move; [done|lia]|lia|lia|lia|constructor|lia|apply holds_nil; lia|lia|].
    exists c', rc. split; [done|]. split; [done|]. split; [lia|]. destruct Hrc' as [Hrc'|[-> (items & Hne & Hall & Hh & Hp & Hnest & Hcnt)]]; [by left|].
    right. split; [done|]. cbn [c_p c_count with_nodes move] in *. rewrite mlen_nil, Z.sub_0_r in *.
    exists (it :: items). split; [done|]. split; [constructor; [by rewrite Eit|done]|]. rewrite prints_cons, nestings_cons, sizes_cons, Eit.
    destruct items as [|it2 items]; [done|]. rewrite mlen_app, mlen_cons. split_and!; [|lia|lia|lia].
    apply holds_join; [done|]. rewrite Elen, <-E44. apply holds_get_cons; [lia|done].
  - destruct (Z.eqb_spec (get buf (c_p c2 + mlen w4)) (closing obj)) as [Ecl|Ncl]; cbn [negb].
    2: { do 2 eexists. split; [done|]. split; [done|]. cbn [c_p move]. split; [lia|]. left. by left. }
    do 2 eexists. split; [done|]. split; [apply ctx_move; [done|lia]|]. cbn [c_p move]. split; [lia|]. right. split; [done|].
    exists [it]. split; [done|]. split; [constructor; [by rewrite Eit|constructor]|]. rewrite prints_cons, nestings_cons, sizes_cons, Eit.
    cbn [nestings sizes c_count with_nodes move c_p]. rewrite mlen_app. change (mlen [closing obj]) with 1.
    pose proof (nesting_pos v). split_and!; [|lia|lia|lia].
    apply holds_join; [done|]. rewrite Elen, <-Ecl. apply holds_get_cons; [lia|apply holds_nil; lia].
Qed.

Lemma container_step fuel : members_sound fuel → container_sound (S fuel).
Proof using Hbuf Hend Hsmall Hroom.
  intros HM depth c idx obj Hc Hd Hpe Hop Hi Hf. pose proof Hc as (Hp & Hk & Hl). rewrite parse_container_S. cbv zeta.
  destruct (skip_ws_sound buf end_ Hend (move c (c_p c + 1))) as (w & -> & Hw & Hhw & Hlw & _); [cbn [c_p move]; lia|]. bstep.
  pose proof (mlen_nonneg w). cbn [c_p move] in *. set (c1 := move (move c (c_p c + 1)) (c_p c + 1 + mlen w)).
  assert (ctx_ok c1) as Hc1 by (apply ctx_move; [apply ctx_move; [done|lia]|lia]).
  destruct (Z.leb_spec end_ (c_p c + 1 + mlen w)).
  { do 2 eexists. split; [done|]. split; [done|]. unfold c1; cbn [c_p move]. split; [lia|]. left. by left. }
  rewrite (rd_Ok buf (c_p c + 1 + mlen w)) by lia. bstep. change (if obj then 125 else 93) with (closing obj).
  assert (∀ c' rc, ctx_ok c' → c_p c <= c_p c' → c_count c <= c_count c' → (failed rc ∨ rc = JSON_OK ∧ container_result depth c c' obj) →
    ∃ c'' rc', (if negb (rc =? JSON_OK) then Ok (c', rc) else
      ns ← node_upd (c_nodes c') idx (set_value (if obj then JSON_T_OBJ else JSON_T_ARR) 0 (JStr (Some (c_p c)) (u32 (c_p c' - c_p c))));
      Ok (with_nodes c' ns, JSON_OK)) = Ok (c'', rc') ∧ ctx_ok c'' ∧ c_p c <= c_p c'' ∧
      (failed rc' ∨ rc' = JSON_OK ∧ container_result depth c c'' obj)) as Hfin.
  { intros c' rc Hc' Hp' Hk' [Hrc|[-> Hrc]]; [rewrite (failed_rc _ Hrc); exists c', rc; by repeat (split; [done|]); left|].
    change (negb (JSON_OK =? JSON_OK)) with false. cbn match. pose proof Hc' as (_ & ? & ?).
    destruct (node_upd_ok (c_nodes c') idx (set_value (if obj then JSON_T_OBJ else JSON_T_ARR) 0 (JStr (Some (c_p c)) (u32 (c_p c' - c_p c))))) as (ns & -> & En); [lia|].
    bstep. do 2 eexists. split; [done|]. split; [apply ctx_nodes; [done|congruence]|]. split; [done|]. right. split; [done|]. done. }
  destruct (Z.eqb_spec (get buf (c_p c + 1 + mlen w)) (closing obj)) as [Ecl|Ncl].
  - bstep. apply Hfin; unfold c1; cbn [c_p c_count move]; [apply ctx_move; [done|lia]|lia|lia|]. right. split; [done|].
    exists w, []. split; [apply cst_ok_cont; by split_and!|]. rewrite print_cont, nesting_cont. cbn [nestings sizes].
    rewrite mlen_cons, mlen_app. change (mlen [closing obj]) with 1. unfold c1. cbn [c_p move c_count]. split_and!; [|lia|lia|lia].
    rewrite <-Hop. apply holds_get_cons; [lia|]. apply holds_join; [done|]. rewrite <-Ecl. apply holds_get_cons; [lia|apply holds_nil; lia].
  - destruct (HM depth c1 idx obj 0 w) as (c' & rc & -> & Hc' & Hp' & Hrc); unfold c1; cbn [c_p c_count move];
      [done|lia|lia|lia|done|lia|by replace (c_p c + 1 + mlen w - mlen w) with (c_p c + 1) by lia|lia|].
    bstep. unfold c1 in Hp'. cbn [c_p move] in Hp'. destruct Hrc as [Hrc|[-> (items & Hne & Hall & Hh & Ep & Hn & Hcn)]].
    + rewrite (failed_rc _ Hrc). exists c', rc. split; [done|]. split; [done|]. split; [lia|by left].
    + unfold c1 in *. cbn [c_p move c_count] in *. replace (c_p c + 1 + mlen w - mlen w) with (c_p c + 1) in * by lia.
      apply Hfin; [done|lia|lia|]. right. split; [done|]. exists [], items.
      split; [apply cst_ok_cont; split_and!; [constructor|done|done]|]. rewrite print_cont, nesting_cont.
      destruct items as [|it items]; [done|]. rewrite mlen_cons. split_and!; [|lia|lia|lia].
      rewrite <-Hop. apply holds_get_cons; [lia|done].
Qed.

Lemma scalar_ok c out type flags raw : ctx_ok c → 0 <= out < cap → ∃ ns,
  scalar_node c out type flags raw = Ok (with_nodes c ns, JSON_OK, out) ∧ length ns = room.
Proof using Hroom.
  intros (_ & _ & Hl) Ho. unfold scalar_node. destruct (node_upd_ok (c_nodes c) out (set_value type flags raw)) as (ns & -> & E); [lia|].
  bstep. exists ns. split; [done|congruence].
Qed.

(** A scalar that was scanned: the context behind it. *)
Lemma scalar_sound depth c ns w v type flags raw : ctx_ok c → 0 <= depth < JSON_MAX_DEPTH → c_count c < cap → length ns = room → ws_ok w → cst_ok v →
  holds buf (c_p c) w → holds buf (c_p c + mlen w) (print v) → c_p c + mlen w + mlen (print v) <= end_ →
  follow buf end_ v (c_p c + mlen w + mlen (print v)) → nesting v = 1 → size v = 1%nat →
  ∃ c' rc out, scalar_node (Pctx ns (c_count c + 1) (c_p c + mlen w + mlen (print v))) (c_count c) type flags raw = Ok (c', rc, out) ∧
    ctx_ok c' ∧ c_p c <= c_p c' ∧ (failed rc ∨ rc = JSON_OK ∧ value_result depth c c' out).
Proof using Hroom.
  intros (Hp & Hk & Hl) Hd Hcap' Hns Hw Hv Hhw Hhv Hle Hf En Es. pose proof (mlen_nonneg w). pose proof (mlen_nonneg (print v)).
  assert (ctx_ok (Pctx ns (c_count c + 1) (c_p c + mlen w + mlen (print v)))) as Hc' by (unfold ctx_ok; cbn; split_and!; (done || lia)).
  destruct (scalar_ok _ (c_count c) type flags raw Hc' ltac:(lia)) as (ns' & -> & Hns').
  do 3 eexists. split; [done|]. split; [by apply ctx_nodes|]. cbn [c_p with_nodes]. split; [lia|]. right. split; [done|].
  exists w, v. cbn [c_p c_count with_nodes]. split; [done|]. split; [done|]. split; [by apply holds_join|]. split; [done|]. split; [done|].
  split; [lia|]. split; [done|]. lia.
Qed.

Lemma lit_value_sound depth c ns w l type : ctx_ok c → 0 <= depth < JSON_MAX_DEPTH → c_count c < cap → length ns = room → ws_ok w →
  holds buf (c_p c) w → c_p c + mlen w <= end_ →
  ∃ c' rc out, lit_value buf end_ (Pctx ns (c_count c + 1) (c_p c + mlen w)) (c_count c) type (lit_text l) = Ok (c', rc, out) ∧
    ctx_ok c' ∧ c_p c <= c_p c' ∧ (failed rc ∨ rc = JSON_OK ∧ value_result depth c c' out).
Proof using Hend Hroom.
  intros Hc Hd Hk Hns Hw Hhw Hle. pose proof Hc as (Hp & Hk' & Hl). pose proof (mlen_nonneg w). unfold lit_value. cbn [c_nodes].
  destruct (node_upd_ok ns (c_count c) (set_type type)) as (ns' & -> & E); [lia|]. bstep. unfold with_nodes at 1. cbn [c_count c_p].
  destruct (lit_sound (Pctx ns' (c_count c + 1) (c_p c + mlen w)) (lit_text l)) as [->|(-> & Hh & Hl2)]; [cbn [c_p]; lia|bstep|bstep].
  - do 3 eexists. split; [done|]. cbn [c_p]. split; [unfold ctx_ok; cbn; split_and!; (done || lia || congruence)|].
    split; [lia|]. left. by left.
  - apply (scalar_sound depth c ns' w (CLit l)); (done || congruence).
Qed.

Lemma value_step fuel : container_sound fuel → value_sound (S fuel).
Proof using Hbuf Hend Hsmall Hcap Hroom.
  intros HC depth c Hc Hd Hf. rewrite parse_value_S. unfold JSON_MAX_DEPTH.
  destruct (Z.leb_spec 32 depth).
  { do 3 eexists. split; [done|]. split; [done|]. split; [lia|]. left. by right; right. }
  pose proof Hc as (Hp & Hk & Hl).
  destruct (skip_ws_sound buf end_ Hend c) as (w & -> & Hw & Hhw & Hlw & _); [lia|]. bstep.
  pose proof (mlen_nonneg w). cbn [c_p move]. set (c1 := move c (c_p c + mlen w)).
  assert (ctx_ok c1) as Hc1 by (apply ctx_move; [done|lia]).
  destruct (Z.leb_spec end_ (c_p c + mlen w)).
  { do 3 eexists. split; [done|]. split; [done|]. unfold c1. cbn [c_p move]. split; [lia|]. left. by left. }
  destruct (alloc_sound c1 Hc1) as [->|(ns & -> & Hns & Hkc)]; bstep.
  { do 3 eexists. split; [done|]. split; [done|]. unfold c1. cbn [c_p move]. split; [lia|]. left. by right; left. }
  unfold c1 in Hkc |- *. cbn [c_p c_count move] in Hkc |- *. rewrite (rd_Ok buf (c_p c + mlen w)) by lia. bstep.
  set (c2 := Pctx ns (c_count c + 1) (c_p c + mlen w)). set (x := get buf (c_p c + mlen w)).
  assert (ctx_ok c2) as Hc2 by (unfold ctx_ok, c2; cbn; split_and!; (done || lia)).
  assert (0 <= depth < JSON_MAX_DEPTH) as Hdd by (unfold JSON_MAX_DEPTH; lia).
  assert (∀ obj, x = opening obj → ∃ c' rc out,
    ('(c0, rc) ← parse_container buf end_ cap fuel depth c2 (c_count c) obj; Ok (c0, rc, c_count c)) = Ok (c', rc, out) ∧
      ctx_ok c' ∧ c_p c <= c_p c' ∧ (failed rc ∨ rc = JSON_OK ∧ value_result depth c c' out)) as Hcont.
  { intros obj Ex. destruct (HC depth c2 (c_count c) obj) as (c' & rc & -> & Hc' & Hp' & Hrc); unfold c2; cbn [c_p c_count]; [done|done|lia|done|lia|lia|].
    bstep. do 3 eexists. split; [done|]. split; [done|]. unfold c2 in *. cbn [c_p c_count] in *. split; [lia|].
    destruct Hrc as [Hrc|[-> (w0 & items & Hok & Hh & Ep & Hn & Hcn)]]; [by left|]. right. split; [done|].
    cbn [c_p c_count] in *. exists w, (CCont obj w0 items). split; [done|]. split; [done|]. split; [by apply holds_join|]. split; [done|].
    split; [done|]. split; [done|]. split; [done|]. rewrite size_cont. lia. }
  destruct (Z.eqb_spec x 123) as [E|_]; [by apply Hcont|]. destruct (Z.eqb_spec x 91) as [E|_]; [by apply Hcont|]. clear Hcont.
  destruct (Z.eqb_spec x 34) as [E|_].
  { destruct (scan_str_sound buf end_ Hbuf Hend Hsmall c2) as [->|(us & Hus & Hhs & Hls & ->)]; [unfold c2; cbn [c_p]; lia|done|bstep|bstep].
    - do 3 eexists. split; [done|]. split; [done|]. unfold c2. cbn [c_p]. split; [lia|]. left. by left.
    - unfold c2, move in *. cbn [c_p c_count c_nodes] in *.
      assert (mlen (print (CStr us)) = 2 + mlen (body_text us)) as El
        by (cbn [print]; rewrite mlen_cons, mlen_app; change (mlen [34]) with 1; lia).
      replace (c_p c + mlen w + 2 + mlen (body_text us)) with (c_p c + mlen w + mlen (print (CStr us))) in * by lia.
      by apply scalar_sound. }
  destruct (Z.eqb_spec x 116); [by apply (lit_value_sound depth c ns w LTrue); (done || lia)|].
  destruct (Z.eqb_spec x 102); [by apply (lit_value_sound depth c ns w LFalse); (done || lia)|].
  destruct (Z.eqb_spec x 110); [by apply (lit_value_sound depth c ns w LNull); (done || lia)|].
  destruct (scan_num_sound buf end_ Hend Hsmall c2) as [->|(nu & Hnu & Hhn & Hln & Hfn & ->)]; [unfold c2; cbn [c_p]; lia|bstep|bstep].
  - do 3 eexists. split; [done|]. split; [done|]. unfold c2. cbn [c_p]. split; [lia|]. left. by left.
  - unfold c2, move in *. cbn [c_p c_count c_nodes] in *. by apply (scalar_sound depth c ns w (CNum nu)).
Qed.

(** The three together, for all fuel. *)
Lemma parser_sound fuel : value_sound fuel ∧ container_sound fuel ∧ members_sound fuel.
Proof using Hbuf Hend Hsmall Hcap Hroom.
  induction fuel as [|fuel (HV & HC & HM)].
  - split_and!; intros ? * (? & _); intros; lia.
  - split_and!; [by apply value_step|by apply container_step|by apply members_step].
Qed.

End sound.

(** ** Documents *)

Definition bom_text (bom : bool) : list Z := if bom then [239; 187; 191] else [].
Definition doc_text (bom : bool) (w1 : list Z) (v : cst) (w2 : list Z) : list Z := bom_text bom ++ w1 ++ print v ++ w2.

(** The text [b] of [len] octets is the value [v] in white space, behind a byte order
    mark if [bom], nested and sized within the bounds. *)
Definition is_doc (b : mem) (len cap : Z) (bom : bool) (w1 : list Z) (v : cst) (w2 : list Z) : Prop :=
  ws_ok w1 ∧ cst_ok v ∧ ws_ok w2 ∧ mlen (doc_text bom w1 v w2) = len ∧ holds b 0 (doc_text bom w1 v w2) ∧
  nesting v <= JSON_MAX_DEPTH ∧ Z.of_nat (size v) <= cap.

(** The document of a successful parse. *)
Definition doc_of (d : json_doc) (nodes : list json_node) (b : mem) (len : Z) (bom : bool) (w1 : list Z) (v : cst) : json_doc :=
  JsonDoc (Some (enc (mlen (bom_text bom) + mlen w1) 0 no_str false 0 v ++ drop (size v) nodes)) (d_cap d)
    (Z.of_nat (size v)) (Some b) len 0.

Section documents.
Context (d : json_doc) (nodes : list json_node) (b : mem) (len : Z).
Context (Hnodes : d_nodes d = Some nodes) (Hcap : 0 < d_cap d < 4294967296) (Hroom : d_cap d <= Z.of_nat (length nodes)).
Context (Hb : bytes_ok b) (Hlen : 0 <= len <= mlen b) (Hsmall : len <= 2147483647).

Lemma has_bom_sound : ∃ bom, has_bom b len = Ok bom ∧ (bom = true → holds b 0 (bom_text true) ∧ 3 <= len).
Proof using Hlen.
  clear dependent nodes. unfold has_bom. destruct (Z.leb_spec 3 len); [|exists false; done].
  rewrite !rd_Ok by lia. bstep. eexists. split; [done|]. intros E. split; [|done].
  apply andb_prop in E as [E E2%Z.eqb_eq]. apply andb_prop in E as [E0%Z.eqb_eq E1%Z.eqb_eq].
  cbn [bom_text]. rewrite <-E0. apply holds_get_cons; [lia|]. rewrite <-E1. apply holds_get_cons; [lia|].
  rewrite <-E2. apply holds_get_cons; [lia|apply holds_nil; lia].
Qed.

(** No value begins like a byte order mark. *)
Lemma head_not_bom w v x xs : ws_ok w → cst_ok v → w ++ print v ++ xs = x :: tail (w ++ print v ++ xs) → x ≠ 239.
Proof using.
  clear. intros Hw Hv E ->. destruct w as [|y w].
  - destruct v as [[]|n|us|[] w0 items]; [done..| |done|done|done].
    destruct Hv as ((Hd & Hne & _) & _). cbn [print] in E. unfold num_text in E. destruct (nu_neg n); [done|].
    destruct (nu_int n) as [|z ds]; [done|]. injection E as ->. by apply Forall_cons_iff in Hd as [Hd _].
  - injection E as ->. by apply Forall_cons_iff in Hw as [Hw _].
Qed.

Lemma has_bom_exact bom w1 v w2 : is_doc b len (d_cap d) bom w1 v w2 → has_bom b len = Ok bom.
Proof using Hlen.
  clear dependent nodes. intros (Hw1 & Hv & _ & El & Hh & _). unfold doc_text in *. unfold has_bom. destruct bom; cbn [bom_text] in *.
  - rewrite !mlen_app in El. change (mlen [239; 187; 191]) with 3 in El. pose proof (mlen_nonneg w1). pose proof (mlen_nonneg (print v)).
    pose proof (mlen_nonneg w2). rewrite (proj2 (Z.leb_le 3 len)) by lia. cbn [app] in Hh.
    apply holds_cons in Hh as [E0 Hh]. apply holds_cons in Hh as [E1 Hh]. apply holds_cons in Hh as [E2 _].
    change (0 + 1 + 1) with 2 in E2. change (0 + 1) with 1 in E1. by rewrite E0, E1, E2.
  - destruct (Z.leb_spec 3 len); [|done]. rewrite !rd_Ok by lia. bstep. f_equal.
    pose proof (mlen_nonneg w1). destruct (print_head v Hv) as (x & xs & Ex & _).
    assert (get b 0 ≠ 239) as Hne.
    { cbn [app] in *. apply holds_head in Hh; [|by rewrite El; lia]. rewrite Hh. apply (head_not_bom w1 v _ w2); [done|done|].
      destruct w1; [|done]. rewrite Ex. done. }
    by rewrite (proj2 (Z.eqb_neq _ _) Hne).
Qed.

Lemma follow_end v w p : ws_ok w → 0 <= p → holds b p w → p + mlen w = len → follow b len v p.
Proof using.
  clear. intros Hw Hp Hh El. destruct v as [|n| |]; [done| |done|done]. cbn [follow].
  assert (∀ f, (∀ c, json_is_ws c = true → f c = false) → stops b len f p) as Hst.
  { intros f Hf. destruct w as [|y w]; [left; rewrite mlen_nil in El; lia|]. right. apply Forall_cons_iff in Hw as [Hw _].
    apply holds_head in Hh; [|rewrite mlen_cons; pose proof (mlen_nonneg w); lia]. rewrite Hh. by apply Hf. }
  assert (stops b len json_is_digit p ∧ stops b len is_e p ∧ stops b len (Z.eqb 46) p) as (S1 & S2 & S3).
  { split_and!; apply Hst; unfold json_is_ws, json_is_digit, is_e; lia. }
  unfold num_follow, exp_follow, frac_follow, int_follow.
  split; [by destruct (nu_exp n)|]. intros _. split; [by destruct (nu_frac n)|]. by right.
Qed.

Lemma json_parse_accepts bom w1 v w2 : is_doc b len (d_cap d) bom w1 v w2 →
  json_parse (Some d) (Some b) len = Ok (Some (doc_of d nodes b len bom w1 v), JSON_OK).
Proof using Hnodes Hcap Hroom Hlen Hsmall.
  intros Hdoc. unfold json_parse. rewrite Hnodes, (proj2 (Z.eqb_neq (d_cap d) 0)), (proj2 (Z.ltb_ge _ len)) by lia. cbn [orb].
  rewrite (has_bom_exact _ _ _ _ Hdoc). bstep. destruct Hdoc as (Hw1 & Hv & Hw2 & El & Hh & Hn & Hs).
  unfold doc_text in *. rewrite !mlen_app in El. pose proof (mlen_nonneg w1). pose proof (mlen_nonneg (print v)). pose proof (mlen_nonneg w2).
  apply holds_app in Hh as [_ Hh]. rewrite Z.add_0_l in Hh. rewrite app_assoc in Hh. apply holds_app in Hh as [Hh Hh2].
  rewrite mlen_app in Hh2. set (p0 := mlen (bom_text bom)) in *. assert (0 <= p0) by apply mlen_nonneg.
  replace (if bom then 3 else 0) with p0 by (by destruct bom).
  rewrite (parse_value_exact b len (d_cap d) ltac:(lia) Hsmall ltac:(lia) v Hv _ 0 (Pctx nodes 0 p0) w1 [] nodes);
    cbn [c_nodes c_count c_p app]; [|done..|lia|lia|lia|lia|done|lia| |lia].
  - bstep. change (JSON_OK =? JSON_OK) with true. cbn match. unfold behind. cbn [app c_p c_count].
    rewrite (skip_ws_exact b len ltac:(lia) _ w2); cbn [c_p];
      [|done|by replace (p0 + (mlen w1 + mlen (print v))) with (p0 + mlen w1 + mlen (print v)) in Hh2 by lia|lia|left; lia].
    bstep. cbn [c_p move c_nodes c_count]. rewrite (proj2 (Z.eqb_eq _ len)) by lia. done.
  - apply (follow_end v w2); [done|lia|by replace (p0 + mlen w1 + mlen (print v)) with (p0 + (mlen w1 + mlen (print v))) by lia|lia].
Qed.

(** What an unsuccessful parse reports. *)
Definition refused (d' : json_doc) (rc : Z) : Prop :=
  (failed rc ∨ rc = JSON_E_TRAILING) ∧ d_count d' = 0 ∧ 0 <= d_err_off d' <= len ∧
  ∃ ns, d_nodes d' = Some ns ∧ length ns = length nodes.

Lemma json_parse_total : ∃ d' rc, json_parse (Some d) (Some b) len = Ok (Some d', rc) ∧
  (refused d' rc ∨ rc = JSON_OK ∧ ∃ bom w1 v w2, is_doc b len (d_cap d) bom w1 v w2).
Proof using Hnodes Hcap Hroom Hb Hlen Hsmall.
  unfold json_parse. rewrite Hnodes, (proj2 (Z.eqb_neq (d_cap d) 0)), (proj2 (Z.ltb_ge _ len)) by lia. cbn [orb].
  destruct has_bom_sound as (bom & -> & Hbom). bstep. set (p0 := if bom then 3 else 0).
  assert (p0 = mlen (bom_text bom) ∧ holds b 0 (bom_text bom) ∧ 0 <= p0 <= len) as (Ep0 & Hhb & Hp0).
  { unfold p0. destruct bom; [destruct (Hbom eq_refl); split_and!; (done || lia)|]. cbn. split_and!; [done|apply holds_nil; lia|lia|lia]. }
  clearbody p0.
  destruct (parser_sound b len (d_cap d) (length nodes) Hb ltac:(lia) Hsmall ltac:(lia) Hroom (Z.to_nat (3 * len + 4))) as (HV & _).
  destruct (HV 0 (Pctx nodes 0 p0)) as (c & rc & out & -> & Hc & Hpc & Hrc); cbn [c_p]; [unfold ctx_ok; cbn; split_and!; (done || lia)|lia|lia|].
  bstep. pose proof Hc as (Hcp & Hck & Hcl). destruct Hrc as [Hrc|[-> (w & v & Hw & Hv & Hh & Ep & _ & Hn & _ & Ec)]].
  { pose proof (failed_rc _ Hrc) as Hneg. apply negb_true_iff in Hneg. rewrite Hneg. bstep. rewrite Hneg. cbn [negb].
    do 2 eexists. split; [done|]. left. split; [by left|]. cbn [d_count d_err_off d_nodes]. split; [done|]. split; [lia|]. by eexists. }
  change (JSON_OK =? JSON_OK) with true. cbn match. cbn [c_p c_count] in *.
  destruct (skip_ws_sound b len ltac:(lia) c) as (w2 & -> & Hw2 & Hh2 & Hl2 & _); [lia|]. bstep. cbn [c_p move]. pose proof (mlen_nonneg w2).
  destruct (Z.eqb_spec (c_p c + mlen w2) len) as [E|E]; cbn [negb].
  - change (negb (JSON_OK =? JSON_OK)) with false. cbn match. do 2 eexists. split; [done|]. right. split; [done|].
    exists bom, w, v, w2. split; [done|]. split; [done|]. split; [done|]. unfold doc_text. rewrite !mlen_app.
    split; [lia|]. split; [|split; [lia|lia]]. apply holds_join; [done|]. rewrite Z.add_0_l, <-Ep0, app_assoc.
    apply holds_join; [done|]. rewrite mlen_app. by replace (p0 + (mlen w + mlen (print v))) with (c_p c) by lia.
  - change (negb (JSON_E_TRAILING =? JSON_OK)) with true. cbn match. do 2 eexists. split; [done|]. left.
    split; [by right|]. cbn [d_count d_err_off d_nodes c_nodes c_p move]. split; [done|]. split; [lia|]. by eexists.
Qed.

(** C8: [json_parse] decides the grammar [is_doc], which is that of RFC 8259 over octets with
    the two allowances of json.h: a byte order mark may stand in front, and any octet from 32
    up may stand in a string, well-formed UTF-8 or not.  On every text and pool it
    stays inside both and terminates; it returns [JSON_OK] exactly when the text is one
    value in white space, behind an optional byte order mark, nested at most
    [JSON_MAX_DEPTH] deep and of at most [cap] values, and then the pool holds exactly
    the nodes of that value in document order, linked and sliced as its syntax tree
    says; otherwise it returns one of the four parse errors, leaves the document
    without nodes, and reports an offset inside the text. *)
Theorem json_parse_grammar : ∃ d' rc, json_parse (Some d) (Some b) len = Ok (Some d', rc) ∧
  ((rc = JSON_OK ∧ ∃ bom w1 v w2, is_doc b len (d_cap d) bom w1 v w2 ∧ d' = doc_of d nodes b len bom w1 v) ∨
   (refused d' rc ∧ ∀ bom w1 v w2, ¬ is_doc b len (d_cap d) bom w1 v w2)).
Proof using Hnodes Hcap Hroom Hb Hlen Hsmall.
  destruct json_parse_total as (d' & rc & E & H). exists d', rc. split; [done|].
  destruct H as [Href|[-> (bom & w1 & v & w2 & Hdoc)]].
  - right. split; [done|]. intros bom w1 v w2 Hdoc. rewrite (json_parse_accepts _ _ _ _ Hdoc) in E.
    injection E as _ <-. destruct Href as (Hrc & _). by destruct Hrc as [[|[|]]|].
  - left. split; [done|]. exists bom, w1, v, w2. split; [done|]. rewrite (json_parse_accepts _ _ _ _ Hdoc) in E. by injection E.
Qed.
End documents.

(** *** The size of the pool *)

Lemma size_bound v : cst_ok v → 2 * Z.of_nat (size v) - 1 <= mlen (print v).
Proof.
  induction v as [l|n|us|obj w items IH] using cst_ind'; intros Hok.
  1-3: match goal with |- context [print ?v] => destruct (print_head v Hok) as (x & xs & E & _) end;
    rewrite E, mlen_cons; pose proof (mlen_nonneg xs); cbn [size]; lia.
  apply cst_ok_cont in Hok as (_ & _ & Hok). rewrite size_cont, print_cont, mlen_cons.
  destruct items as [|it items]; [cbn [sizes]; rewrite mlen_app; change (mlen [closing obj]) with 1; pose proof (mlen_nonneg w); lia|].
  assert (2 * Z.of_nat (sizes (it :: items)) <= mlen (prints obj (it :: items))); [|lia].
  revert it IH Hok. induction items as [|it2 items IHl]; intros it IH Hok; apply Forall_cons_iff in IH as [Hv IH];
    apply Forall_cons_iff in Hok as [[_ Hok] Hall]; rewrite prints_cons, sizes_cons, item_split, !mlen_app; specialize (Hv Hok);
    match goal with |- context [item_pre ?o ?i] => pose proof (mlen_nonneg (item_pre o i)) end;
    match goal with |- context [print (i_val it) ++ ?x] => pose proof (mlen_nonneg x) | |- context [mlen (print (i_val it)) + mlen ?x] => pose proof (mlen_nonneg x) end.
  - cbn [sizes]. change (mlen [closing obj]) with 1. lia.
  - rewrite mlen_cons. specialize (IHl it2 IH Hall). lia.
Qed.

(** A pool of [json_nodes_for(len)] nodes is enough for every JSON text of [len]
    octets: one that is JSON within the nesting bound is accepted, whatever pool a
    smaller bound would have asked for. *)
Theorem json_nodes_for_enough d nodes b len cap bom w1 v w2 :
  d_nodes d = Some nodes → 0 < d_cap d < 4294967296 → d_cap d <= Z.of_nat (length nodes) → json_nodes_for len <= d_cap d →
  len <= mlen b → len <= 2147483647 → is_doc b len cap bom w1 v w2 →
  json_parse (Some d) (Some b) len = Ok (Some (doc_of d nodes b len bom w1 v), JSON_OK).
Proof.
  intros Hnodes Hcap Hroom Hfor Hlen Hsmall (Hw1 & Hv & Hw2 & El & Hh & Hn & _). pose proof El as El'. unfold doc_text in El'.
  rewrite !mlen_app in El'. pose proof (mlen_nonneg (bom_text bom)). pose proof (mlen_nonneg w1). pose proof (mlen_nonneg w2).
  pose proof (size_bound v Hv). pose proof (mlen_nonneg (print v)).
  apply (json_parse_accepts d nodes b len) with (w2 := w2); [done|done|done|lia|lia|].
  repeat (split; [done|]). unfold json_nodes_for in Hfor. cbv zeta in Hfor.
  pose proof (Z.div_mod len 2 ltac:(lia)). pose proof (Z.mod_pos_bound len 2 ltac:(lia)).
  destruct (Z.ltb_spec 4294967295 (len / 2 + 2)); lia.
Qed.

(** *** Witnesses *)

(** The text {"a":[1,"x"]} and room for eight nodes. *)
Definition demo_text : mem := [123; 34; 97; 34; 58; 91; 49; 44; 34; 120; 34; 93; 125].
Definition demo_cst : cst :=
  CCont true [] [Item [] [Plain 97] [] []
    (CCont false [] [Item [] [] [] [] (CNum (Number false [49] None None)) []; Item [] [] [] [] (CStr [Plain 120]) []]) []].
Definition demo_doc : json_doc := json_doc_init (Some (replicate 8 zero_node)) 8.

Lemma json_parse_grammar_witness : ∃ d' rc, json_parse (Some demo_doc) (Some demo_text) 13 = Ok (Some d', rc) ∧
  ((rc = JSON_OK ∧ ∃ bom w1 v w2, is_doc demo_text 13 8 bom w1 v w2 ∧
      d' = doc_of demo_doc (replicate 8 zero_node) demo_text 13 bom w1 v) ∨
   (refused (replicate 8 zero_node) 13 d' rc ∧ ∀ bom w1 v w2, ¬ is_doc demo_text 13 8 bom w1 v w2)).
Proof.
  apply (json_parse_grammar demo_doc (replicate 8 zero_node) demo_text 13); [done|done|done| |done|done].
  repeat constructor; lia.
Defined.

Lemma demo_is_doc : is_doc demo_text 13 4 false [] demo_cst [].
Proof.
  unfold is_doc. split; [constructor|]. split.
  { cbn. repeat (split || constructor || done). }
  split; [constructor|]. split; [done|]. split; [|done]. split_and!; done.
Qed.

Lemma json_nodes_for_enough_witness :
  json_parse (Some demo_doc) (Some demo_text) 13 =
    Ok (Some (doc_of demo_doc (replicate 8 zero_node) demo_text 13 false [] demo_cst), JSON_OK).
Proof. apply (json_nodes_for_enough _ _ _ _ 4 _ _ _ []); [done|done|done|done|done|done|apply demo_is_doc]. Defined.

(** Sized by [json_nodes_for], a text that is not JSON may still end in
    [JSON_E_NODES]: six opening brackets ask for more nodes than a value of six octets
    can have. *)
Lemma json_nodes_for_malformed : ∃ d, json_parse
  (Some (json_doc_init (Some (replicate 5 zero_node)) (json_nodes_for 6))) (Some (replicate 6 91)) 6 = Ok (d, JSON_E_NODES).
Proof. eexists. vm_compute. reflexivity. Qed.
End JsonSound.
