(* ===== verification/JsonNav.v ===== *)
(** * JsonNav: navigation of a parsed document

    Models the navigation half of [json/src/json.c]: [json_root], [json_first],
    [json_next], [json_at], [json_get], JSON Pointer resolution and the reads of
    strings and booleans.  A node pointer is an index into the pool of the document,
    [None] is [NULL].  The specification evaluates a pointer of RFC 6901 on the syntax
    tree of the text (JsonGrammar); on a document [json_parse] filled, the walk over
    linked nodes finds the node of exactly that subtree. *)

From S2P Require Import Prelude Endian SmsIntl SmsText JsonStr JsonParse JsonGrammar JsonSound.

Module JsonNav.
Import JsonStr JsonParse.

Section nav.
Context (buf : mem) (pool : list json_node) (d : option json_doc).

Definition json_root : option Z :=
  match d with None => None | Some d => if d_count d =? 0 then None else Some 0 end.

(** [link == 0 || link >= d->count] gives [NULL]. *)
Definition follow_link (field : json_node → Z) (n : option Z) : res (option Z) :=
  match d, n with
  | Some d, Some i =>
      nd ← node_at pool i;
      if (field nd =? 0) || (d_count d <=? field nd) then Ok None else Ok (Some (field nd))
  | _, _ => Ok None
  end.
Definition json_first : option Z → res (option Z) := follow_link n_first.
Definition json_next : option Z → res (option Z) := follow_link n_next.

(** [for (; c != NULL && i > 0; i--) c = json_next(d, c);] *)
Fixpoint at_loop (i : nat) (c : option Z) : res (option Z) :=
  match i, c with
  | O, _ | _, None => Ok c
  | S i, Some _ => c ← json_next c; at_loop i c
  end.
Definition json_at (n : option Z) (i : Z) : res (option Z) :=
  match n with
  | None => Ok None
  | Some k =>
      nd ← node_at pool k;
      if n_count nd <=? i then Ok None else c ← json_first n; at_loop (Z.to_nat i) c
  end.

Definition has_flag (n : json_node) (f : Z) : bool := negb (Z.land (n_flags n) f =? 0).

Fixpoint get_loop (fuel : nat) (c : option Z) (key : mem) (klen : Z) : res (option Z) :=
  match fuel with
  | O => Ub
  | S fuel =>
      match c with
      | None => Ok None
      | Some i =>
          nd ← node_at pool i;
          e ← json_body_eq buf (n_key nd) (has_flag nd JSON_F_KESC) key klen;
          if (e : bool) then Ok c else c ← json_next c; get_loop fuel c key klen
      end
  end.
Definition json_get (n : option Z) (key : option mem) (klen : Z) : res (option Z) :=
  match n with
  | None => Ok None
  | Some i =>
      nd ← node_at pool i;
      if negb (n_type nd =? JSON_T_OBJ) then Ok None else
      match key with
      | None => Ok None
      | Some key => c ← json_first n; get_loop (S (length pool)) c key klen
      end
  end.

(** ** JSON Pointer *)

(** [memchr(s + p, c, n)]. *)
Fixpoint memchr (s : mem) (n : nat) (p c : Z) : res (option Z) :=
  match n with
  | O => Ok None
  | S n => x ← rd s p; if x =? c then Ok (Some p) else memchr s n (p + 1) c
  end.

(** The loop that expands ~0 and ~1 of the token [tok[0..n)] into [out]: its length. *)
Fixpoint unesc_loop (fuel : nat) (tok : mem) (n i : Z) (out : mem) (o : Z) : res (option (mem * Z)) :=
  match fuel with
  | O => Ub
  | S fuel =>
      if negb (i <? n) then Ok (Some (out, o)) else
      x ← rd tok i;
      if negb (x =? 126) then out ← wr out o x; unesc_loop fuel tok n (i + 1) out (o + 1) else
      if n <=? i + 1 then Ok None else
      y ← rd tok (i + 1);
      if y =? 48 then out ← wr out o 126; unesc_loop fuel tok n (i + 2) out (o + 1) else
      if y =? 49 then out ← wr out o 47; unesc_loop fuel tok n (i + 2) out (o + 1) else
      Ok None
  end.

Definition ptr_member (obj : option Z) (tok : mem) (n : Z) : res (option Z) :=
  t ← (if negb (n =? 0) then memchr tok (Z.to_nat n) 0 126 else Ok None);
  match t with
  | None => json_get obj (Some tok) n
  | Some _ =>
      if 256 <? n then Ok None else
      r ← unesc_loop (S (Z.to_nat n)) tok n 0 (replicate 256 0) 0;
      match r with
      | None => Ok None
      | Some (key, klen) => json_get obj (Some key) klen
      end
  end.

Fixpoint index_loop (todo : nat) (tok : mem) (k i : Z) : res (option Z) :=
  match todo with
  | O => Ok (Some i)
  | S todo =>
      x ← rd tok k;
      if negb (json_is_digit x) then Ok None else index_loop todo tok (k + 1) (u32 (i * 10 + (x - 48)))
  end.
Definition ptr_element (arr : option Z) (tok : mem) (n : Z) : res (option Z) :=
  if (n =? 0) || (9 <? n) then Ok None else
  x ← rd tok 0;
  if (x =? 48) && (1 <? n) then Ok None else
  r ← index_loop (Z.to_nat n) tok 0 0;
  match r with None => Ok None | Some i => json_at arr i end.

Fixpoint ptr_loop (fuel : nat) (s : mem) (p end_ n : Z) : res (option Z) :=
  match fuel with
  | O => Ub
  | S fuel =>
      slash ← memchr s (Z.to_nat (end_ - p)) p 47;
      let tlen := match slash with Some q => q | None => end_ end - p in
      let tok := drop (Z.to_nat p) s in
      nd ← node_at pool n;
      r ← (if n_type nd =? JSON_T_OBJ then ptr_member (Some n) tok tlen
           else if n_type nd =? JSON_T_ARR then ptr_element (Some n) tok tlen
           else Ok None);
      match r, slash with
      | None, _ => Ok None
      | Some n, None => Ok (Some n)
      | Some n, Some q => ptr_loop fuel s (q + 1) end_ n
      end
  end.
Definition json_ptr (ptr : option mem) (len : Z) : res (option Z) :=
  match json_root with
  | None => Ok None
  | Some n =>
      if len =? 0 then Ok (Some n) else
      match ptr with
      | None => Ok None
      | Some s =>
          x ← rd s 0;
          if negb (x =? 47) then Ok None else ptr_loop (S (Z.to_nat len)) s 1 len n
      end
  end.

(** ** Typed reads *)

Definition json_bool (n : option Z) (out : bool) : res bool :=
  match n with
  | None => Err JSON_E_INVAL
  | Some i =>
      nd ← node_at pool i;
      if negb out then Err JSON_E_INVAL else
      if negb (n_type nd =? JSON_T_BOOL) then Err JSON_E_TYPE else
      Ok (s_len (n_raw nd) =? 4)
  end.
Definition json_str (n : option Z) (out : option mem) (cap : Z) : res (mem * Z) :=
  match n with
  | None => Err JSON_E_INVAL
  | Some i =>
      nd ← node_at pool i;
      if negb (n_type nd =? JSON_T_STR) then Err JSON_E_TYPE else
      json_body_expand buf (n_raw nd) (has_flag nd JSON_F_ESC) out cap
  end.
Definition json_key (n : option Z) (out : option mem) (cap : Z) : res (mem * Z) :=
  match n with
  | None => Err JSON_E_INVAL
  | Some i => nd ← node_at pool i; json_body_expand buf (n_key nd) (has_flag nd JSON_F_KESC) out cap
  end.
Definition json_key_eq (n : option Z) (key : option mem) (klen : Z) : res bool :=
  match n, key with
  | Some i, Some key => nd ← node_at pool i; json_body_eq buf (n_key nd) (has_flag nd JSON_F_KESC) key klen
  | _, _ => Ok false
  end.
Definition json_str_eq (n : option Z) (s : option mem) (len : Z) : res bool :=
  match n, s with
  | Some i, Some s =>
      nd ← node_at pool i;
      if negb (n_type nd =? JSON_T_STR) then Ok false else
      json_body_eq buf (n_raw nd) (has_flag nd JSON_F_ESC) s len
  | _, _ => Ok false
  end.
End nav.

Import JsonGrammar JsonSound.

(** ** RFC 6901 on syntax trees *)

(** The text up to the first [c] and what is behind it. *)
Fixpoint cut (c : Z) (l : list Z) : list Z * option (list Z) :=
  match l with
  | [] => ([], None)
  | x :: l => if x =? c then ([], Some l) else let '(a, r) := cut c l in (x :: a, r)
  end.
(** The reference tokens of a pointer, behind its first slash. *)
Fixpoint split (c : Z) (l : list Z) : list (list Z) :=
  match l with
  | [] => [[]]
  | x :: l =>
      if x =? c then [] :: split c l
      else match split c l with [] => [[x]] | t :: ts => (x :: t) :: ts end
  end.

(** Section 4: ~1 is a slash and ~0 a tilde; any other tilde is an error. *)
Fixpoint unescape (t : list Z) : option (list Z) :=
  match t with
  | [] => Some []
  | x :: t =>
      if x =? 126 then
        match t with
        | [] => None
        | y :: t => if y =? 48 then cons 126 <$> unescape t else if y =? 49 then cons 47 <$> unescape t else None
        end
      else cons x <$> unescape t
  end.
(** A decimal index without a leading zero. *)
Definition dec_value (ds : list Z) : Z := fold_left (λ v c, v * 10 + (c - 48)) ds 0.
Definition index (t : list Z) : option Z :=
  if (mlen t =? 0) || ((get t 0 =? 48) && (1 <? mlen t)) || negb (forallb json_is_digit t) then None
  else Some (dec_value t).

(** The first member of that name. *)
Fixpoint member (items : list item) (k : list Z) : option cst :=
  match items with
  | [] => None
  | it :: items => if bool_decide (k = body_value (i_key it)) then Some (i_val it) else member items k
  end.
Definition child (v : cst) (t : list Z) : option cst :=
  match v with
  | CCont true _ items => k ← unescape t; member items k
  | CCont false _ items => i ← index t; i_val <$> items !! Z.to_nat i
  | _ => None
  end.
Fixpoint resolve (v : cst) (toks : list (list Z)) : option cst :=
  match toks with [] => Some v | t :: toks => v ← child v t; resolve v toks end.
(** A pointer is empty or starts with a slash. *)
Definition rfc6901 (v : cst) (ptr : list Z) : option cst :=
  match ptr with [] => Some v | x :: l => if x =? 47 then resolve v (split 47 l) else None end.

(** What the code evaluates: a member token with a tilde is limited to 256 octets, an index
    to nine digits, and a longer one finds nothing. *)
Definition tok_key (t : list Z) : option (list Z) :=
  if existsb (Z.eqb 126) t && (256 <? mlen t) then None else unescape t.
Definition tok_index (t : list Z) : option Z :=
  if (mlen t =? 0) || (9 <? mlen t) || ((get t 0 =? 48) && (1 <? mlen t)) || negb (forallb json_is_digit t) then None
  else Some (dec_value t).
Definition child_lim (v : cst) (t : list Z) : option cst :=
  match v with
  | CCont true _ items => k ← tok_key t; member items k
  | CCont false _ items => i ← tok_index t; i_val <$> items !! Z.to_nat i
  | _ => None
  end.
Fixpoint resolve_lim (v : cst) (toks : list (list Z)) : option cst :=
  match toks with [] => Some v | t :: toks => v ← child_lim v t; resolve_lim v toks end.
Definition rfc6901_lim (v : cst) (ptr : list Z) : option cst :=
  match ptr with [] => Some v | x :: l => if x =? 47 then resolve_lim v (split 47 l) else None end.

(** Within the limits the two agree; beyond them the code finds nothing. *)
Definition short_tokens (ptr : list Z) : Prop := Forall (λ t, 126 ∈ t → mlen t <= 256) (split 47 (tail ptr)).
Lemma digits_bound ds : ∀ v, forallb json_is_digit ds = true → 0 <= v → v * 10 ^ mlen ds <= fold_left (λ v c, v * 10 + (c - 48)) ds v.
Proof.
  induction ds as [|c ds IH]; intros v Hd Hv; cbn [fold_left]; [rewrite mlen_nil; lia|]. cbn [forallb] in Hd. apply andb_prop in Hd as [Hc Hd].
  unfold json_is_digit in Hc. pose proof (mlen_nonneg ds). rewrite mlen_cons, Z.add_comm, Z.pow_add_r, Z.pow_1_r by lia.
  specialize (IH (v * 10 + (c - 48)) Hd ltac:(lia)). assert (0 < 10 ^ mlen ds) by (apply Z.pow_pos_nonneg; lia). nia.
Qed.
Lemma child_lim_or v t : child_lim v t = None ∨ child_lim v t = child v t.
Proof.
  destruct v as [| | |[] w items]; try (by left); cbn [child_lim child].
  - unfold tok_key. destruct (_ && _); [by left|by right].
  - unfold tok_index, index. destruct (mlen t =? 0); [by left|]. cbn [orb]. destruct (9 <? mlen t); [by left|by right].
Qed.
Lemma length_items_size items : (length items <= sizes items)%nat.
Proof. induction items as [|it items IH]; [done|]. rewrite sizes_cons, length_cons. pose proof (size_pos (i_val it)). lia. Qed.
Lemma child_lim_same v t : (126 ∈ t → mlen t <= 256) → Z.of_nat (size v) <= 1000000000 → child_lim v t = child v t.
Proof.
  intros Ht Hs. destruct v as [| | |[] w items]; try done; cbn [child_lim child].
  - unfold tok_key. destruct (existsb (Z.eqb 126) t) eqn:E; [|done]. apply existsb_exists in E as (x & Hx & <-%Z.eqb_eq). apply list_elem_of_In in Hx. specialize (Ht Hx).
    by rewrite (proj2 (Z.ltb_ge _ _)).
  - unfold tok_index, index. destruct (mlen t =? 0) eqn:E0; [done|]. cbn [orb]. destruct (Z.ltb_spec 9 (mlen t)) as [E9|E9]; [|done]. cbn [orb]. destruct t as [|x t]; [done|]. change (get (x :: t) 0) with x.
    rewrite (proj2 (Z.ltb_lt 1 _)), andb_true_r by lia. destruct (Z.eqb_spec x 48) as [|Hx]; [done|]. cbn [orb]. destruct (forallb json_is_digit (x :: t)) eqn:Ed; [|done]. cbn [negb mbind option_bind].
    pose proof Ed as Ed'. cbn [forallb] in Ed'. apply andb_prop in Ed' as [Hc Hd]. unfold json_is_digit in Hc. pose proof (digits_bound t (0 * 10 + (x - 48)) Hd ltac:(lia)) as Hb.
    rewrite mlen_cons in E9. assert (10 ^ 9 <= 10 ^ mlen t) by (apply Z.pow_le_mono_r; lia). rewrite size_cont in Hs. pose proof (length_items_size items).
    rewrite lookup_ge_None_2; [done|]. unfold dec_value. cbn [fold_left]. change (10 ^ 9) with 1000000000 in *. nia.
Qed.
Lemma child_size v t v' : child v t = Some v' → (size v' <= size v)%nat.
Proof.
  assert (Hin : ∀ items it, it ∈ items → (size (i_val it) <= sizes items)%nat).
  { intros items it Hin. induction Hin as [it items|it it' items _ IH]; rewrite sizes_cons; lia. }
  assert (Hm : ∀ items k, member items k = Some v' → (size v' <= sizes items)%nat).
  { intros items k. induction items as [|it items IH]; [done|]. cbn [member]. rewrite sizes_cons. case_bool_decide; [intros [= <-]; lia|]. intros Hk. apply IH in Hk. lia. }
  destruct v as [| | |[] w items]; [done..| |]; cbn [child]; rewrite size_cont.
  - destruct (unescape t); [|done]. cbn [mbind option_bind]. intros H. apply Hm in H. lia.
  - destruct (index t); [|done]. cbn [mbind option_bind]. destruct (items !! Z.to_nat z) as [it|] eqn:E; [|done]. intros [= <-]. apply list_elem_of_lookup_2, Hin in E. lia.
Qed.
Lemma resolve_lim_or toks : ∀ v, resolve_lim v toks = None ∨ resolve_lim v toks = resolve v toks.
Proof.
  induction toks as [|t toks IH]; intros v; [by right|]. cbn [resolve_lim resolve]. destruct (child_lim_or v t) as [-> | ->]; [by left|]. destruct (child v t) as [v'|]; [|by left]. apply IH.
Qed.
Lemma resolve_lim_same toks : ∀ v, Forall (λ t, 126 ∈ t → mlen t <= 256) toks → Z.of_nat (size v) <= 1000000000 → resolve_lim v toks = resolve v toks.
Proof.
  induction toks as [|t toks IH]; intros v Hf Hs; [done|]. apply Forall_cons in Hf as [Ht Hf]. cbn [resolve_lim resolve]. rewrite child_lim_same by done.
  destruct (child v t) as [v'|] eqn:E; [|done]. cbn [mbind option_bind]. apply child_size in E. apply IH; [done|lia].
Qed.
Lemma rfc6901_lim_or v l : rfc6901_lim v l = None ∨ rfc6901_lim v l = rfc6901 v l.
Proof. destruct l as [|x l]; [by right|]. cbn. destruct (x =? 47); [apply resolve_lim_or|by left]. Qed.
Lemma rfc6901_lim_same v l : short_tokens l → Z.of_nat (size v) <= 1000000000 → rfc6901_lim v l = rfc6901 v l.
Proof. intros Hf Hs. destruct l as [|x l]; [done|]. cbn. destruct (x =? 47); [by apply resolve_lim_same|done]. Qed.

(** *** Tokens *)

Lemma split_cut c l : split c l = (cut c l).1 :: match (cut c l).2 with None => [] | Some r => split c r end.
Proof.
  induction l as [|x l IH]; [done|]. cbn [split cut]. destruct (x =? c); [done|]. rewrite IH. by destruct (cut c l).
Qed.
Lemma cut_app c l : l = (cut c l).1 ++ match (cut c l).2 with None => [] | Some r => c :: r end.
Proof.
  induction l as [|x l IH]; [done|]. cbn [cut]. destruct (Z.eqb_spec x c) as [->|]; [done|].
  destruct (cut c l) as [a r]. cbn [fst snd app] in *. by rewrite IH at 1.
Qed.
Lemma memchr_cut s c l : ∀ p, holds s p l →
  memchr s (length l) p c = Ok (match (cut c l).2 with None => None | Some _ => Some (p + mlen (cut c l).1) end).
Proof.
  induction l as [|x l IH]; intros p Hh; [done|]. cbn [length memchr]. apply holds_cons in Hh as [-> Hh]. bstep. cbn [cut].
  destruct (x =? c); cbn [fst snd]; [by rewrite mlen_nil, Z.add_0_r|]. rewrite IH by done. destruct (cut c l) as [a [r|]]; [|done]. cbn [fst snd].
  rewrite mlen_cons. by replace (p + (1 + mlen a)) with (p + 1 + mlen a) by lia.
Qed.
Lemma cut_none c l : (cut c l).2 = None ↔ existsb (Z.eqb c) l = false.
Proof.
  induction l as [|x l IH]; [done|]. cbn [cut existsb]. rewrite Z.eqb_sym. destruct (c =? x); [done|]. by destruct (cut c l).
Qed.
Lemma unescape_plain t : existsb (Z.eqb 126) t = false → unescape t = Some t.
Proof.
  induction t as [|x t IH]; [done|]. cbn [existsb unescape]. intros H. apply orb_false_iff in H as [H1 H2].
  rewrite Z.eqb_sym, H1, IH by done. done.
Qed.

Lemma unesc_loop_spec fuel : ∀ tok n t i a b, holds tok i t → i + mlen t = n → mlen t <= mlen b → mlen t < Z.of_nat fuel →
  match unescape t with
  | None => unesc_loop fuel tok n i (a ++ b) (mlen a) = Ok None
  | Some r => ∃ b', unesc_loop fuel tok n i (a ++ b) (mlen a) = Ok (Some (a ++ r ++ b', mlen a + mlen r))
  end.
Proof.
  induction fuel as [|fuel IH]; intros tok n t i a b Hh Hn Hb Hf; [pose proof (mlen_nonneg t); lia|]. cbn [unesc_loop].
  destruct t as [|x t]; cbn [unescape].
  { rewrite mlen_nil in *. rewrite (proj2 (Z.ltb_ge i n)) by lia. cbn [negb]. exists b. by rewrite Z.add_0_r. }
  rewrite mlen_cons in *. pose proof (mlen_nonneg t). rewrite (proj2 (Z.ltb_lt i n)) by lia. cbn [negb].
  destruct b as [|y0 b]; [rewrite mlen_nil in Hb; lia|]. rewrite mlen_cons in Hb.
  assert (∀ z, wr (a ++ y0 :: b) (mlen a) z = Ok (a ++ z :: b)) as Hwr.
  { intros z. unfold wr, mlen. rewrite length_app, length_cons, (proj2 (Z.leb_le 0 _)), (proj2 (Z.ltb_lt _ _)) by lia. cbn [andb].
    rewrite Nat2Z.id, insert_app_r_alt by lia. by rewrite Nat.sub_diag. }
  assert (∀ z t' i', holds tok i' t' → i' + mlen t' = n → mlen t' <= mlen t →
    match cons z <$> unescape t' with
    | None => (out ← wr (a ++ y0 :: b) (mlen a) z; unesc_loop fuel tok n i' out (mlen a + 1)) = Ok None
    | Some r => ∃ b', (out ← wr (a ++ y0 :: b) (mlen a) z; unesc_loop fuel tok n i' out (mlen a + 1)) = Ok (Some (a ++ r ++ b', mlen a + mlen r))
    end) as Hstep.
  { intros z t' i' Hh' Hn' Hl'. rewrite Hwr. bstep. specialize (IH tok n t' i' (a ++ [z]) b Hh' Hn' ltac:(lia) ltac:(lia)).
    rewrite mlen_app in IH. change (mlen [z]) with 1 in IH. rewrite <-app_assoc in IH. cbn [app] in IH.
    destruct (unescape t') as [r|]; cbn [fmap option_fmap option_map]; [|done]. destruct IH as [b' ->]. exists b'.
    rewrite mlen_cons, <-app_assoc. cbn [app]. do 3 f_equal. lia. }
  apply holds_cons in Hh as [-> Hh]. bstep. destruct (Z.eqb_spec x 126) as [->|Hx]; cbn [negb]; [|apply Hstep; (done || lia)].
  destruct t as [|y t].
  { rewrite mlen_nil in Hn. by rewrite (proj2 (Z.leb_le n (i + 1))) by lia. }
  rewrite mlen_cons in *. pose proof (mlen_nonneg t). rewrite (proj2 (Z.leb_gt n (i + 1))) by lia.
  apply holds_cons in Hh as [-> Hh]. bstep. replace (i + 1 + 1) with (i + 2) in Hh by lia.
  destruct (y =? 48); [apply Hstep; (done || lia)|]. destruct (y =? 49); [apply Hstep; (done || lia)|done].
Qed.

Lemma index_loop_spec t : ∀ tok k i, holds tok k t → 0 <= i → (i + 1) * 10 ^ mlen t <= 4294967296 →
  index_loop (length t) tok k i =
    Ok (if forallb json_is_digit t then Some (fold_left (λ v c, v * 10 + (c - 48)) t i) else None).
Proof.
  induction t as [|x t IH]; intros tok k i Hh Hi Hb; [done|]. cbn [length index_loop forallb fold_left].
  apply holds_cons in Hh as [-> Hh]. bstep. destruct (json_is_digit x) eqn:Ex; cbn [negb andb]; [|done].
  unfold json_is_digit in Ex. rewrite mlen_cons, Z.pow_add_r in Hb by (pose proof (mlen_nonneg t); lia).
  assert (1 <= 10 ^ mlen t) by (pose proof (Z.pow_pos_nonneg 10 (mlen t)); pose proof (mlen_nonneg t); lia).
  assert (0 <= i * 10 + (x - 48) ∧ (i * 10 + (x - 48) + 1) * 10 ^ mlen t <= 4294967296) as [H1 H2] by nia.
  rewrite u32_small by nia. by apply IH.
Qed.

(** *** Nodes *)

Lemma node_at_mid A n B i : i = Z.of_nat (length A) → node_at (A ++ n :: B) i = Ok n.
Proof. intros ->. unfold node_at. rewrite (proj2 (Z.ltb_ge _ 0)), Nat2Z.id by lia. by rewrite list_lookup_middle. Qed.

Section walk.
Context (buf : mem) (pool : list json_node) (dd : json_doc).

(** The nodes of [v] stand at [i], its text in the buffer. *)
Definition node_of (i : Z) (v : cst) : Prop :=
  cst_ok v ∧ ∃ A B pos key kesc next, pool = A ++ enc pos i key kesc next v ++ B ∧ i = Z.of_nat (length A) ∧
    i + Z.of_nat (size v) <= (d_count dd) ∧ holds buf pos (print v).
(** The nodes of these items stand from [i] on. *)
Definition items_at (obj : bool) (q i : Z) (items : list item) : Prop :=
  Forall (λ it, item_ok obj it ∧ cst_ok (i_val it)) items ∧
  ∃ A B, pool = A ++ encs obj q i items ++ B ∧ i = Z.of_nat (length A) ∧ i + Z.of_nat (sizes items) <= (d_count dd) ∧ 0 < i ∧
    holds buf q (prints obj items).

(** What a lookup returns for what the specification finds. *)
Definition found (r : option Z) (ov : option cst) : Prop :=
  match ov with Some v => ∃ j, r = Some j ∧ node_of j v | None => r = None end.

Lemma node_read i v : node_of i v → ∃ nd pos key kesc next, node_at pool i = Ok nd ∧ nd = root_node pos i key kesc next v ∧
  holds buf pos (print v).
Proof using.
  intros (_ & A & B & pos & key & kesc & next & -> & -> & _ & Hh). do 5 eexists. split; [|done]. unfold enc. cbn [app].
  by apply node_at_mid.
Qed.

Lemma node_items i obj w items : node_of i (CCont obj w items) → items ≠ [] → ∃ q, items_at obj q (i + 1) items.
Proof using.
  intros (Hok & A & B & pos & key & kesc & next & Hpool & -> & Hc & Hh) Hne. exists (pos + 1). unfold enc in Hpool.
  apply cst_ok_cont in Hok as (_ & _ & Hok). split; [done|]. rewrite subs_cont in Hpool. rewrite size_cont in Hc.
  exists (A ++ [root_node pos (Z.of_nat (length A)) key kesc next (CCont obj w items)]), B. split; [rewrite Hpool; by apps|].
  rewrite length_app. cbn [length]. split; [lia|]. split; [lia|]. split; [lia|]. rewrite print_cont in Hh.
  apply holds_cons in Hh as [_ Hh]. by destruct items.
Qed.

Lemma flag_kesc pos i key kesc next v : has_flag (root_node pos i key kesc next v) JSON_F_KESC = kesc.
Proof using.
  unfold has_flag, root_node. cbn [n_flags]. destruct kesc, v as [|n|us|]; cbn [val_flags]; try done.
  - by destruct (num_isint n).
  - by destruct (body_esc us).
  - by destruct (num_isint n).
  - by destruct (body_esc us).
Qed.

Lemma items_step obj q i it items : items_at obj q i (it :: items) →
  node_of i (i_val it) ∧ (items ≠ [] → ∃ q', items_at obj q' (i + Z.of_nat (size (i_val it))) items) ∧
  ∃ nd, node_at pool i = Ok nd ∧ n_next nd = (match items with [] => 0 | _ => i + Z.of_nat (size (i_val it)) end) ∧
    (obj = true → slice_is buf (n_key nd) (has_flag nd JSON_F_KESC) (i_key it)).
Proof using.
  intros (Hok & A & B & Hpool & Hi & Hc & Hpos & Hh). apply Forall_cons_iff in Hok as [[Hio Hv] Hok]. rewrite sizes_cons in Hc.
  rewrite encs_cons in Hpool. rewrite prints_cons in Hh. pose proof Hh as Hh0. apply holds_app in Hh as [Hhi Hh].
  set (pos := q + mlen (item_pre obj it)) in *. set (nx := match items with [] => 0 | _ => _ end) in *.
  rewrite item_split in Hhi. pose proof Hhi as Hhi0. apply holds_app in Hhi as [Hhp Hhi]. apply holds_app in Hhi as [Hhv _].
  split; [|split].
  - split; [done|]. exists A, (encs obj (q + mlen (item_text obj it) + 1) (i + Z.of_nat (size (i_val it))) items ++ B), pos, (key_slice obj q it), (key_esc obj it), nx.
    split; [rewrite Hpool; by apps|]. split; [done|]. split; [lia|done].
  - intros Hne. exists (q + mlen (item_text obj it) + 1). split; [done|].
    exists (A ++ enc pos i (key_slice obj q it) (key_esc obj it) nx (i_val it)), B. split; [rewrite Hpool; by apps|].
    rewrite length_app. pose proof (length_subs (i_val it) pos i) as Hls. unfold enc. cbn [length]. split; [lia|]. split; [lia|]. split; [lia|].
    destruct items as [|it2 items]; [done|]. by apply holds_cons in Hh as [_ Hh].
  - eexists. split; [rewrite Hpool; unfold enc; apps; by apply node_at_mid|]. split; [done|]. intros ->. rewrite flag_kesc. cbn [n_key root_node].
    destruct it as [w1 key w2 w3 v w4]. destruct Hio as (H1 & Hk & _). cbn [key_slice key_esc i_key].
    split; [done|]. split; [done|]. split; [done|]. cbn [s_p]. unfold item_pre in Hhp. apply holds_app in Hhp as [_ Hhp].
    apply holds_cons in Hhp as [_ Hhp]. by apply holds_app in Hhp as [Hhp _].
Qed.

Lemma next_spec obj q i it items : items_at obj q i (it :: items) →
  json_next pool (Some dd) (Some i) = Ok (match items with [] => None | _ => Some (i + Z.of_nat (size (i_val it))) end).
Proof using.
  intros Hi. destruct (items_step _ _ _ _ _ Hi) as ((_ & Hn) & Hrest & nd & Hnd & Hnx & _). unfold json_next, follow_link. rewrite Hnd. bstep.
  rewrite Hnx. destruct items as [|it2 items]; [done|]. destruct Hrest as (q' & _ & A & B & _ & Hi' & Hc' & Hpos & _); [done|].
  rewrite sizes_cons in Hc'. pose proof (size_pos (i_val it2)).
  rewrite (proj2 (Z.eqb_neq _ 0)), (proj2 (Z.leb_gt (d_count dd) _)) by lia. done.
Qed.

Lemma first_spec i obj w items : node_of i (CCont obj w items) →
  json_first pool (Some dd) (Some i) = Ok (match items with [] => None | _ => Some (i + 1) end).
Proof using.
  intros Hn. destruct (node_read _ _ Hn) as (nd & pos & key & kesc & next & Hnd & -> & _). unfold json_first, follow_link. rewrite Hnd. bstep.
  cbn [n_first root_node child_count]. destruct items as [|it items]; [done|].
  destruct Hn as (_ & A & B & ? & ? & ? & ? & _ & Hi & Hc & _). rewrite size_cont, sizes_cons in Hc. pose proof (size_pos (i_val it)).
  rewrite (proj2 (Z.eqb_neq (Z.of_nat _) 0)) by (rewrite length_cons; lia).
  rewrite (proj2 (Z.eqb_neq _ 0)), (proj2 (Z.leb_gt (d_count dd) _)) by lia. done.
Qed.

Lemma at_loop_spec obj k : ∀ q i items, items_at obj q i items → items ≠ [] → (k < length items)%nat →
  ∃ r, at_loop pool (Some dd) k (Some i) = Ok r ∧ found r (i_val <$> items !! k).
Proof using.
  induction k as [|k IH]; intros q i items Hi Hne Hk; (destruct items as [|it items]; [done|]); cbn [at_loop].
  - exists (Some i). split; [done|]. destruct (items_step _ _ _ _ _ Hi) as (Hn & _). by exists i.
  - rewrite (next_spec _ _ _ _ _ Hi). bstep. destruct (items_step _ _ _ _ _ Hi) as (_ & Hrest & _).
    destruct items as [|it2 items]; [cbn in Hk; lia|]. destruct Hrest as [q' Hi']; [done|].
    apply (IH q' _ (it2 :: items)); [done|done|cbn in Hk |- *; lia].
Qed.

Lemma json_at_spec i obj w items k : node_of i (CCont obj w items) → 0 <= k →
  ∃ r, json_at pool (Some dd) (Some i) k = Ok r ∧ found r (i_val <$> items !! Z.to_nat k).
Proof using.
  intros Hn Hk. destruct (node_read _ _ Hn) as (nd & pos & key & kesc & next & Hnd & -> & _). unfold json_at. rewrite Hnd. bstep.
  cbn [n_count root_node child_count]. destruct (Z.leb_spec (Z.of_nat (length items)) k).
  - exists None. split; [done|]. rewrite lookup_ge_None_2 by lia. done.
  - rewrite (first_spec _ _ _ _ Hn). bstep. destruct items as [|it items]; [cbn in *; lia|].
    destruct (node_items _ _ _ _ Hn) as [q Hi]; [done|]. apply (at_loop_spec obj _ q _ _ Hi); [done|lia].
Qed.

Lemma get_loop_spec key klen items : 0 <= klen <= mlen key → ∀ fuel q i, items_at true q i items → (length items < fuel)%nat → items ≠ [] →
  ∃ r, get_loop buf pool (Some dd) fuel (Some i) key klen = Ok r ∧ found r (member items (slice key 0 klen)).
Proof using.
  intros Hkl. induction items as [|it items IH]; intros fuel q i Hi Hf Hne; [done|]. destruct fuel as [|fuel]; [lia|]. cbn [get_loop].
  destruct (items_step _ _ _ _ _ Hi) as (Hn & Hrest & nd & -> & _ & Hsl). bstep. specialize (Hsl eq_refl).
  rewrite (body_eq_spec _ _ _ _ _ _ Hsl Hkl). bstep. cbn [member]. case_bool_decide; [exists (Some i); split; [done|by exists i]|].
  rewrite (next_spec _ _ _ _ _ Hi). bstep. destruct items as [|it2 items].
  - destruct fuel; [cbn in Hf; lia|]. by exists None.
  - destruct Hrest as [q' Hi']; [done|]. apply (IH fuel q' _ Hi'); [cbn in Hf |- *; lia|done].
Qed.

Lemma length_items_pool obj q i items : items_at obj q i items → (length items <= length pool)%nat.
Proof using.
  intros (_ & A & B & -> & _). rewrite !length_app. assert (length items <= length (encs obj q i items))%nat; [|lia].
  clear. revert q i. induction items as [|it items IH]; intros q i; [done|]. rewrite encs_cons, length_app. unfold enc. cbn [length].
  specialize (IH (q + mlen (item_text obj it) + 1) (i + Z.of_nat (size (i_val it)))). lia.
Qed.

Lemma json_get_spec i w items key klen : node_of i (CCont true w items) → 0 <= klen <= mlen key →
  ∃ r, json_get buf pool (Some dd) (Some i) (Some key) klen = Ok r ∧ found r (member items (slice key 0 klen)).
Proof using.
  intros Hn Hk. destruct (node_read _ _ Hn) as (nd & pos & ky & kesc & next & Hnd & -> & _). unfold json_get. rewrite Hnd. bstep.
  change (negb (_ =? JSON_T_OBJ)) with false. cbn match. rewrite (first_spec _ _ _ _ Hn). bstep.
  destruct items as [|it items]; [by exists None|]. destruct (node_items _ _ _ _ Hn) as [q Hi]; [done|].
  pose proof (length_items_pool _ _ _ _ Hi). by apply (get_loop_spec key klen _ Hk _ q _ Hi); [lia|].
Qed.
(** *** JSON Pointer *)

(** The token [t] stands at the start of [tok]. *)
Lemma ptr_member_spec i w items tok t : node_of i (CCont true w items) → holds tok 0 t →
  ∃ r, ptr_member buf pool (Some dd) (Some i) tok (mlen t) = Ok r ∧ found r (child_lim (CCont true w items) t).
Proof using.
  intros Hn Hh. pose proof (holds_pos _ _ _ Hh) as [_ Hl]. pose proof (mlen_nonneg t). unfold ptr_member. cbn [child_lim].
  assert ((if negb (mlen t =? 0) then memchr tok (Z.to_nat (mlen t)) 0 126 else Ok None) =
    Ok (match (cut 126 t).2 with None => None | Some _ => Some (0 + mlen (cut 126 t).1) end)) as ->.
  { unfold mlen. rewrite Nat2Z.id. destruct t as [|x t]; [done|]. rewrite (proj2 (Z.eqb_neq _ 0)) by (rewrite length_cons; lia).
    cbn [negb]. by apply memchr_cut. }
  bstep. unfold tok_key. destruct (existsb (Z.eqb 126) t) eqn:Et.
  - destruct (cut 126 t).2 as [l|] eqn:Ec; [|apply cut_none in Ec; congruence]. cbn [andb].
    destruct (Z.ltb_spec 256 (mlen t)); [by exists None|].
    pose proof (unesc_loop_spec (S (Z.to_nat (mlen t))) tok (mlen t) t 0 [] (replicate 256 0) Hh ltac:(lia)) as Hu.
    change (mlen (replicate 256 0)) with 256 in Hu. specialize (Hu ltac:(lia) ltac:(lia)). cbn [app] in Hu.
    change (mlen []) with 0 in Hu. destruct (unescape t) as [k|]; cbn [mbind option_bind].
    + destruct Hu as [b' ->]. bstep. rewrite Z.add_0_l. pose proof (mlen_nonneg k). pose proof (mlen_nonneg b').
      destruct (json_get_spec i w items (k ++ b') (mlen k) Hn) as (r & -> & Hf); [rewrite mlen_app; lia|].
      exists r. split; [done|]. rewrite slice_app_l, slice_full in Hf by lia. done.
    + rewrite Hu. bstep. by exists None.
  - apply cut_none in Et as Ec. rewrite Ec. cbn [andb]. rewrite unescape_plain by done. cbn [mbind option_bind].
    destruct (json_get_spec i w items tok (mlen t) Hn) as (r & -> & Hf); [lia|]. exists r. split; [done|].
    by destruct Hh as (_ & _ & Hs); rewrite Hs in Hf.
Qed.

Lemma ptr_element_spec i w items tok t : node_of i (CCont false w items) → holds tok 0 t →
  ∃ r, ptr_element pool (Some dd) (Some i) tok (mlen t) = Ok r ∧ found r (child_lim (CCont false w items) t).
Proof using.
  intros Hn Hh. unfold ptr_element. cbn [child_lim]. unfold tok_index. pose proof (mlen_nonneg t).
  destruct (Z.eqb_spec (mlen t) 0) as [E0|E0]; [by exists None|]. cbn [orb].
  destruct (Z.ltb_spec 9 (mlen t)) as [E9|E9]; [by exists None|]. cbn [orb].
  destruct t as [|x t]; [done|]. pose proof Hh as Hh'. apply holds_cons in Hh' as [-> _]. bstep. change (get (x :: t) 0) with x.
  destruct ((x =? 48) && (1 <? mlen (x :: t))); [by exists None|]. cbn [orb].
  unfold mlen at 1. rewrite Nat2Z.id. rewrite index_loop_spec; [|done|done|].
  - bstep. destruct (forallb json_is_digit (x :: t)) eqn:Ed; cbn [negb mbind option_bind]; [|by exists None].
    assert (∀ ds v, forallb json_is_digit ds = true → 0 <= v → 0 <= fold_left (λ v c, v * 10 + (c - 48)) ds v) as Hnn.
    { clear. induction ds as [|c ds IH]; intros v Hd Hv; [done|]. cbn [forallb fold_left] in *. apply andb_prop in Hd as [Hc Hd].
      apply IH; [done|]. unfold json_is_digit in Hc. lia. }
    apply (json_at_spec i false w items); [done|]. by apply Hnn.
  - rewrite Z.mul_1_l. transitivity (10 ^ 9); [apply Z.pow_le_mono_r; lia|done].
Qed.

Lemma holds_drop s p t : holds s p t → holds (drop (Z.to_nat p) s) 0 t.
Proof using.
  intros (Hp & Hl & Hs). pose proof (mlen_nonneg t). unfold holds. split; [lia|]. unfold slice, mlen in *. rewrite length_drop.
  split; [lia|]. change (Z.to_nat 0) with 0%nat. by rewrite drop_0.
Qed.

(** One step of the walk. *)
Lemma child_step n v tok t : node_of n v → holds tok 0 t → ∃ nd r, node_at pool n = Ok nd ∧
  (if n_type nd =? JSON_T_OBJ then ptr_member buf pool (Some dd) (Some n) tok (mlen t)
   else if n_type nd =? JSON_T_ARR then ptr_element pool (Some dd) (Some n) tok (mlen t) else Ok None) = Ok r ∧
  found r (child_lim v t).
Proof using.
  intros Hn Hh. destruct (node_read _ _ Hn) as (nd & pos & ky & kesc & next & Hnd & -> & _). eexists (root_node pos n ky kesc next v). cbn [n_type root_node].
  destruct v as [[]|nu|us|[] w items]; cbn [val_type]; try (by exists None).
  - destruct (ptr_member_spec n w items tok t Hn Hh) as (r & E & Hf). by exists r.
  - destruct (ptr_element_spec n w items tok t Hn Hh) as (r & E & Hf). by exists r.
Qed.

Lemma ptr_loop_spec fuel : ∀ s p l n v, node_of n v → holds s p l → mlen l < Z.of_nat fuel →
  ∃ r, ptr_loop buf pool (Some dd) fuel s p (p + mlen l) n = Ok r ∧ found r (resolve_lim v (split 47 l)).
Proof using.
  induction fuel as [|fuel IH]; intros s p l n v Hn Hh Hf; [pose proof (mlen_nonneg l); lia|]. cbn [ptr_loop].
  replace (Z.to_nat (p + mlen l - p)) with (length l) by (unfold mlen; lia). rewrite memchr_cut by done. bstep.
  rewrite split_cut. pose proof (cut_app 47 l) as El. destruct (cut 47 l) as [t rest]. cbn [fst snd] in *. cbv zeta. cbn [resolve_lim].
  assert (holds (drop (Z.to_nat p) s) 0 t) as Ht by (apply holds_drop; rewrite El in Hh; by apply holds_app in Hh as [Hh _]).
  destruct (child_step n v _ t Hn Ht) as (nd & r & -> & E & Hfd). bstep.
  replace (match match rest with Some _ => Some (p + mlen t) | None => None end with Some q => q | None => p + mlen l end - p)
    with (mlen t) by (destruct rest; [lia|rewrite El, app_nil_r; lia]).
  rewrite E. bstep. destruct (child_lim v t) as [v'|]; cbn [found mbind option_bind] in *; [|rewrite Hfd; by exists None].
  destruct Hfd as (j & -> & Hj). destruct rest as [rest|]; [|exists (Some j); split; [done|by exists j]].
  rewrite El in Hh |- *. apply holds_app in Hh as [_ Hh]. apply holds_cons in Hh as [_ Hh]. rewrite El in Hf.
  rewrite mlen_app, mlen_cons in *. pose proof (mlen_nonneg t).
  replace (p + (mlen t + (1 + mlen rest))) with (p + mlen t + 1 + mlen rest) by lia. apply IH; [done|done|lia].
Qed.

Lemma json_ptr_spec v s l : node_of 0 v → holds s 0 l →
  ∃ r, json_ptr buf pool (Some dd) (Some s) (mlen l) = Ok r ∧ found r (rfc6901_lim v l).
Proof using.
  intros Hn Hh. unfold json_ptr, json_root.
  assert (0 < d_count dd) by (destruct Hn as (_ & A & B & ? & ? & ? & ? & _ & _ & Hc & _); pose proof (size_pos v); lia).
  rewrite (proj2 (Z.eqb_neq _ 0)) by lia. destruct l as [|x l]; [exists (Some 0); split; [done|by exists 0]|].
  rewrite mlen_cons in *. pose proof (mlen_nonneg l). rewrite (proj2 (Z.eqb_neq _ 0)) by lia. apply holds_cons in Hh as [-> Hh].
  bstep. cbn [rfc6901_lim]. destruct (x =? 47); cbn [negb]; [|by exists None]. apply ptr_loop_spec; [done|done|lia].
Qed.
(** *** Typed reads *)

Lemma flag_esc pos i key kesc next us : has_flag (root_node pos i key kesc next (CStr us)) JSON_F_ESC = body_esc us.
Proof using. unfold has_flag, root_node. cbn [n_flags val_flags]. by destruct kesc, (body_esc us). Qed.

Lemma str_slice i us : node_of i (CStr us) → ∃ nd, node_at pool i = Ok nd ∧ n_type nd = JSON_T_STR ∧
  slice_is buf (n_raw nd) (has_flag nd JSON_F_ESC) us.
Proof using.
  intros Hn. destruct (node_read _ _ Hn) as (nd & pos & ky & kesc & next & Hnd & -> & Hh). eexists. split; [done|]. split; [done|].
  rewrite flag_esc. destruct Hn as [Hok _]. split; [done|]. split; [done|]. split; [done|]. cbn [root_node n_raw val_raw s_p].
  cbn [print] in Hh. apply holds_cons in Hh as [_ Hh]. by apply holds_app in Hh as [Hh _].
Qed.

(** The typed reads return the value of the syntax tree.  On the node of a value
    [json_bool] answers for the two literals and refuses every other type;
    [json_str] writes the string with every escape expanded (surrogate pairs joined,
    lone surrogates replaced) when it fits and nothing otherwise, and a buffer of the
    length of the raw slice always fits; [json_str_eq] compares that value. *)
Theorem json_reads_value i v : node_of i v →
  (∀ o, json_bool pool (Some i) o = if o then match v with CLit LTrue => Ok true | CLit LFalse => Ok false | _ => Err JSON_E_TYPE end else Err JSON_E_INVAL) ∧
  (∀ out cap, 0 <= cap <= mlen out → json_str buf pool (Some i) (Some out) cap =
     match v with
     | CStr us => if mlen (body_value us) <=? cap then Ok (splice out 0 (body_value us), mlen (body_value us)) else Err JSON_E_OVERFLOW
     | _ => Err JSON_E_TYPE
     end) ∧
  (∀ us nd, v = CStr us → node_at pool i = Ok nd → mlen (body_value us) <= s_len (n_raw nd)) ∧
  (∀ s len, 0 <= len <= mlen s → json_str_eq buf pool (Some i) (Some s) len =
     Ok (match v with CStr us => bool_decide (slice s 0 len = body_value us) | _ => false end)).
Proof using.
  intros Hn. destruct (node_read _ _ Hn) as (nd & pos & ky & kesc & next & Hnd & End & Hh). split_and!.
  - intros o. unfold json_bool. rewrite Hnd. bstep. subst nd. destruct o; [|done]. by destruct v as [[]|nu|us|[] w items].
  - intros out cap Hc. destruct v as [[]|nu|us|[] w items];
      try (unfold json_str; rewrite Hnd; bstep; by subst nd).
    destruct (str_slice _ _ Hn) as (nd' & Hnd' & Ht & Hsl). unfold json_str. rewrite Hnd'. bstep. rewrite Ht. cbn [negb Z.eqb Pos.eqb].
    by apply body_expand_spec.
  - intros us nd' -> Hnd'. destruct (str_slice _ _ Hn) as (nd2 & Hnd2 & _ & Hsl). assert (nd' = nd2) as -> by congruence.
    destruct Hsl as (Hok & _ & -> & _). by apply body_shrinks.
  - intros s len Hl. destruct v as [[]|nu|us|[] w items];
      try (unfold json_str_eq; rewrite Hnd; bstep; by subst nd).
    destruct (str_slice _ _ Hn) as (nd' & Hnd' & Ht & Hsl). unfold json_str_eq. rewrite Hnd'. bstep. rewrite Ht. cbn [negb Z.eqb Pos.eqb].
    by apply body_eq_spec.
Qed.
End walk.

(** ** Parsed documents *)

(** The pool of a successful parse. *)
Definition doc_pool (nodes : list json_node) (bom : bool) (w1 : list Z) (v : cst) : list json_node :=
  enc (mlen (bom_text bom) + mlen w1) 0 no_str false 0 v ++ drop (size v) nodes.

Lemma doc_root d nodes b len cap bom w1 v w2 : is_doc b len cap bom w1 v w2 →
  node_of b (doc_pool nodes bom w1 v) (doc_of d nodes b len bom w1 v) 0 v.
Proof.
  intros (Hw1 & Hv & Hw2 & El & Hh & _). split; [done|].
  exists [], (drop (size v) nodes), (mlen (bom_text bom) + mlen w1), no_str, false, 0.
  split; [done|]. split; [done|]. split; [cbn [doc_of d_count]; lia|]. unfold doc_text in Hh. apply holds_app in Hh as [_ Hh].
  rewrite Z.add_0_l in Hh. apply holds_app in Hh as [_ Hh]. by apply holds_app in Hh as [Hh _].
Qed.

(** C38: On a document [json_parse] accepted, [json_ptr] is the evaluation of RFC 6901
    on the syntax tree: for every pointer text whose tokens with a tilde have at most 256
    octets, on a document of at most a thousand million nodes (so that a longer index than
    nine digits finds nothing), it returns the node of the value the
    tokens lead to (first member of the name after unescaping on both sides, element
    of the index), and [NULL] exactly when they lead nowhere or the pointer is
    malformed.  For any other pointer text and document it returns that node or [NULL].  It
    reads nothing outside pointer, text and pool. *)
Theorem json_ptr_rfc6901 d nodes b len cap bom w1 v w2 s l : is_doc b len cap bom w1 v w2 → holds s 0 l →
  ∃ r, json_ptr b (doc_pool nodes bom w1 v) (Some (doc_of d nodes b len bom w1 v)) (Some s) (mlen l) = Ok r ∧
    (r = None ∨ found b (doc_pool nodes bom w1 v) (doc_of d nodes b len bom w1 v) r (rfc6901 v l)) ∧
    (short_tokens l → Z.of_nat (size v) <= 1000000000 →
     found b (doc_pool nodes bom w1 v) (doc_of d nodes b len bom w1 v) r (rfc6901 v l)).
Proof.
  intros Hd Hs. destruct (json_ptr_spec b (doc_pool nodes bom w1 v) (doc_of d nodes b len bom w1 v) v s l) as (r & E & Hf); [by eapply doc_root|done|]. exists r. split; [exact E|]. split.
  - destruct (rfc6901_lim_or v l) as [H | H]; rewrite H in Hf; [by left|by right].
  - intros H1 H2. by rewrite <-rfc6901_lim_same.
Qed.

(** Beyond the limit a member that is there is not found: a token with a tilde and more than
    256 octets. *)
Theorem json_ptr_long_token d nodes b len cap bom w1 w items w2 s t : is_doc b len cap bom w1 (CCont true w items) w2 → holds s 0 (47 :: t) →
  47 ∉ t → 126 ∈ t → 256 < mlen t →
  json_ptr b (doc_pool nodes bom w1 (CCont true w items)) (Some (doc_of d nodes b len bom w1 (CCont true w items))) (Some s) (mlen (47 :: t)) = Ok None.
Proof.
  intros Hd Hs Hn Ht Hl. destruct (json_ptr_spec b (doc_pool nodes bom w1 (CCont true w items)) (doc_of d nodes b len bom w1 (CCont true w items)) (CCont true w items) s (47 :: t)) as (r & -> & Hf); [by eapply doc_root|done|].
  assert (Es : split 47 t = [t]). { clear -Hn. induction t as [|x t IH]; [done|]. apply not_elem_of_cons in Hn as [Hx Hn]. cbn [split]. rewrite (proj2 (Z.eqb_neq _ _)) by done. by rewrite IH. }
  assert (Ee : existsb (Z.eqb 126) t = true). { apply existsb_exists. exists 126. split; [by apply list_elem_of_In|done]. }
  cbn [rfc6901_lim] in Hf. change (47 =? 47) with true in Hf. cbv iota in Hf. rewrite Es in Hf. cbn [resolve_lim child_lim] in Hf. unfold tok_key in Hf. rewrite Ee, (proj2 (Z.ltb_lt _ _)) in Hf by done.
  cbn in Hf. by rewrite Hf.
Qed.
Lemma long_token_names : rfc6901 (CCont true [] [Item [] (repeat (Plain 97) 256 ++ [Plain 126]) [] [] (CLit LTrue) []]) (47 :: repeat 97 256 ++ [126; 48]) = Some (CLit LTrue).
Proof. by vm_compute. Qed.

(** "/a/1" in the demonstration text. *)
Definition demo_ptr : list Z := [47; 97; 47; 49].

Lemma json_ptr_rfc6901_witness : ∃ r,
  json_ptr demo_text (doc_pool (replicate 8 zero_node) false [] demo_cst)
    (Some (doc_of demo_doc (replicate 8 zero_node) demo_text 13 false [] demo_cst)) (Some demo_ptr) (mlen demo_ptr) = Ok r ∧
  found demo_text (doc_pool (replicate 8 zero_node) false [] demo_cst)
    (doc_of demo_doc (replicate 8 zero_node) demo_text 13 false [] demo_cst) r (rfc6901 demo_cst demo_ptr).
Proof.
  destruct (json_ptr_rfc6901 demo_doc (replicate 8 zero_node) demo_text 13 4 false [] demo_cst [] demo_ptr demo_ptr demo_is_doc) as (r & E & _ & H); [split_and!; done|].
  exists r. split; [exact E|]. apply H; [|by vm_compute]. unfold short_tokens. vm_compute. repeat constructor; intros; done.
Defined.

(** It finds the string. *)
Lemma demo_ptr_finds : rfc6901 demo_cst demo_ptr = Some (CStr [Plain 120]) ∧
  json_ptr demo_text (doc_pool (replicate 8 zero_node) false [] demo_cst)
    (Some (doc_of demo_doc (replicate 8 zero_node) demo_text 13 false [] demo_cst)) (Some demo_ptr) 4 = Ok (Some 3).
Proof. split; vm_compute; reflexivity. Qed.

Lemma json_reads_value_witness :
  json_bool (doc_pool (replicate 8 zero_node) false [] demo_cst) (Some 0) true = Err JSON_E_TYPE.
Proof. apply (json_reads_value demo_text _ (doc_of demo_doc (replicate 8 zero_node) demo_text 13 false [] demo_cst) 0 demo_cst
  (doc_root _ _ _ _ 4 _ _ _ [] demo_is_doc)). Defined.

End JsonNav.
