(* ===== verification/JsonNum.v ===== *)
(** * JsonNum: reading JSON numbers

    Models [i64_parse], [json_dbl_parse], [json_num] and [json_i64] of
    [json/src/json.c].  A double is a [spec_float] of the Standard Library at
    precision 53 and exponent bound 1024 with round-to-nearest-even; [strtod] on the
    text of a mantissa and an exponent is the correctly rounded conversion.  The
    theorems: an integer literal is read exactly or refused, and the decimal mantissa
    and exponent of any literal are exact up to nineteen digits. *)

From Stdlib Require Import SpecFloat.
From S2P Require Import Prelude Endian SmsIntl SmsText JsonStr JsonParse JsonGrammar JsonSound JsonNav.

Module JsonNum.
Import JsonStr JsonParse JsonNav.

Definition INT64_MAX : Z := 9223372036854775807.
Definition INT64_MIN : Z := -9223372036854775808.

(** ** Integers *)

Fixpoint i64_loop (todo : nat) (buf : mem) (p v : Z) : res (option Z) :=
  match todo with
  | O => Ok (Some v)
  | S todo =>
      c ← rd buf p;
      if negb (json_is_digit c) then Ok None else i64_loop todo buf (p + 1) (u64 (v * 10 + u64 (c - 48)))
  end.
(** The value, or [None] for [false]. *)
Definition i64_parse (buf : mem) (p len : Z) : res (option Z) :=
  neg ← (if len =? 0 then Ok false else c ← rd buf p; Ok (c =? 45));
  let i := if (neg : bool) then 1 else 0 in
  if (len <=? i) || (19 <? len - i) then Ok None else
  r ← i64_loop (Z.to_nat (len - i)) buf (p + i) 0;
  match r with
  | None => Ok None
  | Some v =>
      let lim := if neg then INT64_MAX + 1 else INT64_MAX in
      if lim <? v then Ok None else
      Ok (Some (if neg then if v =? lim then INT64_MIN else - v else v))
  end.

(** ** Doubles *)

Definition double : Type := spec_float.
Definition dbl_of_int (z : Z) : double := binary_normalize 53 1024 z 0 false.
Definition dbl_mul : double → double → double := SFmul 53 1024.
Definition dbl_div : double → double → double := SFdiv 53 1024.
Definition DBL_MAX : double := S754_finite false 9007199254740991 971.
(** [(int64_t)v] for a finite [v]. *)
Definition dbl_trunc (v : double) : Z :=
  match v with
  | S754_finite s m e =>
      let z := if 0 <=? e then Z.pos m * 2 ^ e else Z.pos m / 2 ^ (- e) in if s then - z else z
  | _ => 0
  end.
(** [strtod] on "<mant>e<exp10>". *)
Definition strtod (mant exp10 : Z) : double :=
  if 0 <=? exp10 then dbl_of_int (mant * 10 ^ exp10)
  else let '(q, e, l) := SFdiv_core_binary 53 1024 mant 0 (10 ^ (- exp10)) 0 in binary_round_aux 53 1024 false q e l.

Definition k_p10 (e : Z) : double := dbl_of_int (10 ^ e).

(** An addition of [int]s. *)
Definition int_sum (a b : Z) : res Z :=
  if (-2147483648 <=? a + b) && (a + b <=? 2147483647) then Ok (a + b) else Ub.

Section dbl.
Context (buf : mem) (end_ : Z).

(** The digits of the integer and the fraction part: cursor, mantissa, scale, whether
    there was a digit. *)
Fixpoint mant_loop (fuel : nat) (p : Z) (frac any : bool) (mant exp10 : Z) : res (Z * bool * Z * Z) :=
  match fuel with
  | O => Ub
  | S fuel =>
      if negb (p <? end_) then Ok (p, any, mant, exp10) else
      c ← rd buf p;
      if json_is_digit c then
        if mant <? (UINT64_MAX - 9) / 10 then
          mant_loop fuel (p + 1) frac true (u64 (mant * 10 + u64 (c - 48))) (if frac then exp10 - 1 else exp10)
        else mant_loop fuel (p + 1) frac true mant (if frac then exp10 else exp10 + 1)
      else if negb frac && (c =? 46) then mant_loop fuel (p + 1) true any mant exp10
      else Ok (p, any, mant, exp10)
  end.

(** The digits of the exponent, clamped. *)
Fixpoint e_loop (fuel : nat) (p e : Z) : res (Z * Z) :=
  match fuel with
  | O => Ub
  | S fuel =>
      if negb (p <? end_) then Ok (p, e) else
      c ← rd buf p;
      if json_is_digit c then e_loop fuel (p + 1) (if e <? 100000 then e * 10 + (c - 48) else e) else Ok (p, e)
  end.

(** The exponent part, if there is one: the cursor behind it and its value. *)
Definition exp_part (p : Z) : res (option (Z * Z)) :=
  is_exp ← peek buf end_ p (λ c, (c =? 101) || (c =? 69));
  if negb is_exp then Ok (Some (p, 0)) else
  sign ← peek buf end_ (p + 1) (λ c, (c =? 43) || (c =? 45));
  eneg ← peek buf end_ (p + 1) (λ c, c =? 45);
  let p := p + if (sign : bool) then 2 else 1 in
  dig ← peek buf end_ p json_is_digit;
  if negb dig then Ok None else
  '(p, e) ← e_loop (S (Z.to_nat (end_ - p))) p 0;
  Ok (Some (p, if (eneg : bool) then - e else e)).

(** Sign, mantissa and decimal exponent of the literal at [s]. *)
Definition dbl_scan (s : Z) : res (option (bool * Z * Z)) :=
  c ← rd buf s;
  let neg := c =? 45 in
  let p := if neg then s + 1 else s in
  '(p, any, mant, exp10) ← mant_loop (S (Z.to_nat (end_ - p))) p false false 0 0;
  if negb any then Ok None else
  r ← exp_part p;
  match r with
  | None => Ok None
  | Some (p, e) => exp10 ← int_sum exp10 e; if negb (p =? end_) then Ok None else Ok (Some (neg, mant, exp10))
  end.
End dbl.

Definition dbl_value (neg : bool) (mant exp10 : Z) : double :=
  let v :=
    if mant =? 0 then S754_zero false
    else if (-22 <=? exp10) && (exp10 <=? 22) && (mant <=? 2 ^ 53) then
      if 0 <=? exp10 then dbl_mul (dbl_of_int mant) (k_p10 exp10) else dbl_div (dbl_of_int mant) (k_p10 (- exp10))
    else strtod mant exp10 in
  if neg then SFopp v else v.

Definition json_dbl_parse (buf : mem) (p : option Z) (len : Z) : res (option double) :=
  match p with
  | None => Ok None
  | Some s =>
      if len =? 0 then Ok None else
      r ← dbl_scan buf (s + len) s;
      Ok (match r with None => None | Some (neg, mant, exp10) => Some (dbl_value neg mant exp10) end)
  end.

(** ** Reads of a node *)

Section reads.
Context (buf : mem) (pool : list json_node).

Definition json_num (n : option Z) : res double :=
  match n with
  | None => Err JSON_E_INVAL
  | Some i =>
      nd ← node_at pool i;
      if negb (n_type nd =? JSON_T_NUM) then Err JSON_E_TYPE else
      r ← json_dbl_parse buf (s_p (n_raw nd)) (s_len (n_raw nd));
      match r with
      | None => Err JSON_E_SYNTAX
      | Some v => if negb (SFleb (SFopp DBL_MAX) v && SFleb v DBL_MAX) then Err JSON_E_RANGE else Ok v
      end
  end.

Definition json_i64 (n : option Z) : res Z :=
  match n with
  | None => Err JSON_E_INVAL
  | Some i =>
      nd ← node_at pool i;
      if negb (n_type nd =? JSON_T_NUM) then Err JSON_E_TYPE else
      if has_flag nd JSON_F_INT then
        match s_p (n_raw nd) with
        | None => Ub
        | Some p =>
            r ← i64_parse buf p (s_len (n_raw nd));
            match r with None => Err JSON_E_RANGE | Some v => Ok v end
        end
      else
        v ← json_num n;
        if SFltb v (dbl_of_int INT64_MIN) || SFleb (dbl_of_int (INT64_MAX + 1)) v then Err JSON_E_RANGE else
        let i := dbl_trunc v in
        if negb (SFeqb (dbl_of_int i) v) then Err JSON_E_RANGE else Ok i
  end.
End reads.

Import JsonGrammar JsonSound.

(** ** Integer literals *)

Lemma dec_fold ds : ∀ v, fold_left (λ v c, v * 10 + (c - 48)) ds v = v * 10 ^ mlen ds + dec_value ds.
Proof.
  unfold dec_value. induction ds as [|c ds IH]; intros v; [rewrite mlen_nil; cbn; lia|]. cbn [fold_left]. rewrite IH, (IH (0 * 10 + (c - 48))).
  rewrite mlen_cons, Z.pow_add_r by (pose proof (mlen_nonneg ds); lia). lia.
Qed.
Lemma dec_cons c ds : dec_value (c :: ds) = (c - 48) * 10 ^ mlen ds + dec_value ds.
Proof. unfold dec_value at 1. cbn [fold_left]. by rewrite dec_fold. Qed.
Lemma dec_snoc ds c : dec_value (ds ++ [c]) = dec_value ds * 10 + (c - 48).
Proof. unfold dec_value. by rewrite fold_left_app. Qed.
Lemma pow10_pos ds : 0 < 10 ^ mlen ds.
Proof. apply Z.pow_pos_nonneg; [lia|apply mlen_nonneg]. Qed.
Lemma dec_range ds : digits_ok ds → 0 <= dec_value ds < 10 ^ mlen ds.
Proof.
  induction 1 as [|c ds Hc _ IH]; [done|]. rewrite dec_cons, mlen_cons, Z.pow_add_r by (pose proof (mlen_nonneg ds); lia).
  unfold json_is_digit in Hc. pose proof (pow10_pos ds). nia.
Qed.

Lemma i64_loop_spec ds : ∀ buf p v, digits_ok ds → holds buf p ds → 0 <= v → (v + 1) * 10 ^ mlen ds <= 10 ^ 19 →
  i64_loop (length ds) buf p v = Ok (Some (v * 10 ^ mlen ds + dec_value ds)).
Proof.
  intros buf p v Hd. rewrite <-dec_fold. revert p v. induction Hd as [|c ds Hc _ IH]; intros p v Hh Hv Hb; [done|].
  cbn [length i64_loop fold_left]. apply holds_cons in Hh as [-> Hh]. bstep. rewrite Hc. cbn [negb]. unfold json_is_digit in Hc.
  rewrite mlen_cons, Z.pow_add_r in Hb by (pose proof (mlen_nonneg ds); lia). pose proof (pow10_pos ds).
  rewrite (u64_small (c - 48)) by lia. rewrite u64_small by nia. apply IH; [done|lia|nia].
Qed.

(** The value of an integer literal. *)
Definition num_int (n : number) : Z := if nu_neg n then - dec_value (nu_int n) else dec_value (nu_int n).

Lemma i64_parse_spec n buf p : num_ok n → num_isint n = true → holds buf p (num_text n) →
  i64_parse buf p (mlen (num_text n)) =
    Ok (if (INT64_MIN <=? num_int n) && (num_int n <=? INT64_MAX) then Some (num_int n) else None).
Proof.
  intros ((Hd & Hne & Hz) & _) Hi Hh. unfold num_isint in Hi. destruct (nu_frac n) eqn:Ef; [done|]. destruct (nu_exp n) eqn:Ex; [done|].
  unfold num_text in *. rewrite Ef, Ex in *. cbn [frac_text exp_text] in *. rewrite !app_nil_r in *.
  destruct (nu_int n) as [|c ds] eqn:Ei; [done|]. pose proof (mlen_nonneg ds). pose proof (Forall_inv Hd) as Hc. cbn beta in Hc. unfold json_is_digit in Hc.
  assert (dec_value (c :: ds) = 0 ∨ 10 ^ mlen ds <= dec_value (c :: ds)) as Hlow.
  { destruct (Z.eq_dec c 48) as [->|]; [rewrite Hz by done; by left|]. right. rewrite dec_cons. apply Forall_inv_tail in Hd.
    pose proof (dec_range ds Hd). pose proof (pow10_pos ds). nia. }
  unfold i64_parse. rewrite mlen_app in *. rewrite mlen_cons in *. pose proof (mlen_nonneg (sign_text (nu_neg n))).
  rewrite (proj2 (Z.eqb_neq _ 0)) by lia. apply holds_app in Hh as [Hhs Hhd].
  assert (∃ x, rd buf p = Ok x ∧ (x =? 45) = nu_neg n) as (x & -> & Ex45).
  { destruct (nu_neg n); cbn [sign_text] in *.
    - apply holds_cons in Hhs as [-> _]. by exists 45.
    - rewrite mlen_nil, Z.add_0_r in Hhd. apply holds_cons in Hhd as [-> _]. exists c. split; [done|]. apply Z.eqb_neq. lia. }
  bstep. rewrite Ex45. cbv zeta.
  assert ((if nu_neg n then 1 else 0) = mlen (sign_text (nu_neg n))) as -> by (by destruct (nu_neg n)).
  replace (mlen (sign_text (nu_neg n)) + (1 + mlen ds) - mlen (sign_text (nu_neg n))) with (1 + mlen ds) by lia.
  rewrite (proj2 (Z.leb_gt _ _)) by lia. cbn [orb]. unfold num_int. rewrite Ei. pose proof (dec_range _ Hd) as Hr. rewrite mlen_cons in Hr.
  destruct (Z.ltb_spec 19 (1 + mlen ds)) as [H19|H19].
  - f_equal. assert (10 ^ 19 <= 10 ^ mlen ds) by (apply Z.pow_le_mono_r; lia). change (10 ^ 19) with 10000000000000000000 in *.
    destruct Hlow as [Hz0|Hlow].
    { rewrite dec_cons in Hz0. apply Forall_inv_tail in Hd. pose proof (dec_range ds Hd). pose proof (pow10_pos ds).
      assert (c = 48) as -> by nia. specialize (Hz eq_refl). injection Hz as ->. rewrite mlen_nil in *. lia. }
    unfold INT64_MIN, INT64_MAX. destruct (nu_neg n).
    + by rewrite (proj2 (Z.leb_gt _ (- _))) by lia.
    + rewrite (proj2 (Z.leb_gt _ 9223372036854775807)) by lia. by rewrite andb_false_r.
  - replace (Z.to_nat (1 + mlen ds)) with (length (c :: ds)) by (unfold mlen; cbn [length]; lia).
    rewrite (i64_loop_spec (c :: ds)); [bstep|done|done|lia|].
    + rewrite Z.mul_0_l, Z.add_0_l. unfold INT64_MIN, INT64_MAX. destruct (nu_neg n).
      * destruct (Z.ltb_spec (9223372036854775807 + 1) (dec_value (c :: ds))).
        { by rewrite (proj2 (Z.leb_gt _ (- _))) by lia. }
        rewrite (proj2 (Z.leb_le _ (- _))), (proj2 (Z.leb_le (- _) _)) by lia. cbn [andb].
        destruct (Z.eqb_spec (dec_value (c :: ds)) (9223372036854775807 + 1)) as [->|]; done.
      * destruct (Z.ltb_spec 9223372036854775807 (dec_value (c :: ds))).
        { rewrite (proj2 (Z.leb_gt (dec_value _) _)) by lia. by rewrite andb_false_r. }
        by rewrite (proj2 (Z.leb_le (-9223372036854775808) _)), (proj2 (Z.leb_le (dec_value _) _)) by lia.
    + rewrite mlen_cons, Z.mul_1_l. apply Z.pow_le_mono_r; lia.
Qed.

Lemma flag_int pos i key kesc next n : has_flag (root_node pos i key kesc next (CNum n)) JSON_F_INT = num_isint n.
Proof. unfold has_flag, root_node. cbn [n_flags val_flags]. by destruct kesc, (num_isint n). Qed.

(** [json_i64] on a number written as an integer is exact whatever its width: it
    returns the value of the literal when that fits 64 signed bits and [JSON_E_RANGE]
    otherwise, never a truncated or wrapped value. *)
Theorem json_i64_exact buf pool dd i n : node_of buf pool dd i (CNum n) → num_isint n = true →
  json_i64 buf pool (Some i) =
    if (INT64_MIN <=? num_int n) && (num_int n <=? INT64_MAX) then Ok (num_int n) else Err JSON_E_RANGE.
Proof.
  intros Hn Hi. destruct (node_read _ _ _ _ _ Hn) as (nd & pos & ky & kesc & next & Hnd & -> & Hh). destruct Hn as [Hok _].
  unfold json_i64. rewrite Hnd. bstep. change (negb (_ =? JSON_T_NUM)) with false. cbn match. rewrite flag_int, Hi.
  cbn [n_raw root_node val_raw s_p s_len print] in *. rewrite (i64_parse_spec n) by done. bstep. by destruct (_ && _).
Qed.

(** ** Mantissa and exponent *)

Definition MANT_LIM : Z := 1844674407370955160.

(** After the digits [all], [ints] of them before the point: the first [k] make the
    mantissa, and the scale accounts for the point and the digits dropped. *)
Definition scale_ok (all : list Z) (ints : Z) (k : nat) (mant exp10 : Z) : Prop :=
  (k <= length all)%nat ∧ mant = dec_value (take k all) ∧ exp10 = ints - Z.of_nat k ∧
  (k = length all ∨ MANT_LIM <= mant) ∧ mant < 18446744073709551616.

Lemma scale_step all ints k mant exp10 c (frac : bool) : digits_ok all → json_is_digit c = true → scale_ok all ints k mant exp10 →
  ∃ k', scale_ok (all ++ [c]) (if frac then ints else ints + 1) k'
    (if mant <? MANT_LIM then u64 (mant * 10 + u64 (c - 48)) else mant)
    (if mant <? MANT_LIM then if frac then exp10 - 1 else exp10 else if frac then exp10 else exp10 + 1).
Proof.
  intros Hd Hc (Hk & Hm & He & Hf & Hb). unfold json_is_digit in Hc.
  assert (0 <= mant) by (rewrite Hm; apply dec_range, Forall_take, Hd). unfold MANT_LIM in *.
  destruct (Z.ltb_spec mant 1844674407370955160) as [Hlt|Hge].
  - destruct Hf as [Hf|]; [|lia]. exists (S k). rewrite take_ge in Hm by lia. rewrite (u64_small (c - 48)), u64_small by lia. unfold scale_ok.
    rewrite length_app. cbn [length]. split; [lia|]. split; [rewrite take_ge by (rewrite length_app; cbn [length]; lia); by rewrite dec_snoc, <-Hm|].
    split; [destruct frac; lia|]. split; [left; lia|lia].
  - exists k. unfold scale_ok. rewrite length_app. cbn [length]. split; [lia|]. split; [by rewrite take_app_le by lia|].
    split; [destruct frac; lia|]. split; [by right|done].
Qed.

Section scan.
Context (buf : mem) (end_ : Z) (Hend : 0 <= end_ <= mlen buf).

Lemma mant_digits ds frac : ∀ fuel p any all ints k mant exp10, digits_ok ds → digits_ok all → holds buf p ds → p + mlen ds <= end_ →
  scale_ok all ints k mant exp10 → end_ - p < Z.of_nat fuel →
  ∃ fuel' k' mant' exp10', scale_ok (all ++ ds) (if frac : bool then ints else ints + mlen ds) k' mant' exp10' ∧
    end_ - (p + mlen ds) < Z.of_nat fuel' ∧
    mant_loop buf end_ fuel p frac any mant exp10 =
      mant_loop buf end_ fuel' (p + mlen ds) frac (any || negb (mlen ds =? 0)) mant' exp10'.
Proof using.
  intros fuel p any all ints k mant exp10 Hd. revert fuel p any all ints k mant exp10.
  induction Hd as [|c ds Hc Hd IH]; intros fuel p any all ints k mant exp10 Hall Hh Hl Hs Hf.
  - rewrite mlen_nil in *. exists fuel, k, mant, exp10. rewrite app_nil_r, !Z.add_0_r, orb_false_r. split; [by destruct frac|]. done.
  - rewrite mlen_cons in *. pose proof (mlen_nonneg ds). destruct fuel as [|fuel]; [lia|]. cbn [mant_loop].
    rewrite (proj2 (Z.ltb_lt p end_)) by lia. cbn [negb]. apply holds_cons in Hh as [-> Hh]. bstep. rewrite Hc.
    change ((UINT64_MAX - 9) / 10) with MANT_LIM. destruct (scale_step all ints k mant exp10 c frac Hall Hc Hs) as [k1 Hs1].
    assert (digits_ok (all ++ [c])) as Hall' by (apply Forall_app; split; [done|by constructor]).
    destruct (IH fuel (p + 1) true (all ++ [c]) _ k1 _ _ Hall' Hh ltac:(lia) Hs1 ltac:(lia)) as (fuel' & k' & m' & e' & Hs' & Hf' & E).
    exists fuel', k', m', e'. rewrite <-app_assoc in Hs'. cbn [app] in Hs'. split; [by destruct frac; [|rewrite <-Z.add_assoc in Hs']|].
    replace (p + (1 + mlen ds)) with (p + 1 + mlen ds) by lia. split; [done|].
    replace (any || negb (1 + mlen ds =? 0)) with true by (rewrite (proj2 (Z.eqb_neq _ 0)) by lia; by rewrite orb_true_r).
    cbn [orb] in E. destruct (mant <? MANT_LIM), frac; exact E.
Qed.

Definition e_clamp (ds : list Z) : Z := fold_left (λ e c, if e <? 100000 then e * 10 + (c - 48) else e) ds 0.

Lemma e_loop_spec ds : ∀ fuel p e, digits_ok ds → holds buf p ds → p + mlen ds = end_ → end_ - p < Z.of_nat fuel →
  e_loop buf end_ fuel p e = Ok (end_, fold_left (λ e c, if e <? 100000 then e * 10 + (c - 48) else e) ds e).
Proof using.
  intros fuel p e Hd. revert fuel p e. induction Hd as [|c ds Hc Hd IH]; intros fuel p e Hh Hl Hf;
    (destruct fuel as [|fuel]; [match type of Hl with context [mlen ?x] => pose proof (mlen_nonneg x) end; lia|]); cbn [e_loop fold_left].
  - rewrite mlen_nil in Hl. rewrite (proj2 (Z.ltb_ge p end_)) by lia. cbn [negb]. do 2 f_equal. lia.
  - rewrite mlen_cons in Hl. pose proof (mlen_nonneg ds). rewrite (proj2 (Z.ltb_lt p end_)) by lia. cbn [negb].
    apply holds_cons in Hh as [-> Hh]. bstep. rewrite Hc. by apply IH; [|lia|lia].
Qed.

Lemma e_clamp_range ds : digits_ok ds → 0 <= e_clamp ds <= 1000000.
Proof using.
  clear. intros Hd. unfold e_clamp.
  enough (∀ e, 0 <= e <= 1000000 → 0 <= fold_left (λ e c, if e <? 100000 then e * 10 + (c - 48) else e) ds e <= 1000000) as H by (apply H; lia).
  induction Hd as [|c ds Hc Hd IH]; intros e He; [done|]. cbn [fold_left]. apply IH. unfold json_is_digit in Hc. destruct (Z.ltb_spec e 100000); lia.
Qed.

(** The exponent of a literal as the code reads it. *)
Definition exp_value (ex : option (Z * option Z * list Z)) : Z :=
  match ex with
  | None => 0
  | Some (_, sign, ds) => if bool_decide (sign = Some 45) then - e_clamp ds else e_clamp ds
  end.

Lemma exp_part_spec p ex : 0 <= p → exp_ok ex → holds buf p (exp_text ex) → p + mlen (exp_text ex) = end_ →
  exp_part buf end_ p = Ok (Some (end_, exp_value ex)).
Proof using Hend.
  intros Hp Hok Hh Hl. unfold exp_part. destruct ex as [[[e sign] ds]|]; cbn [exp_text] in *.
  2: { rewrite mlen_nil in Hl. rewrite (peek_spec buf end_ Hend p), (proj2 (Z.ltb_ge p end_)) by lia. bstep. cbn [negb]. do 3 f_equal. lia. }
  destruct Hok as (He & Hd & Hne & Hs). rewrite mlen_cons, mlen_app in Hl. pose proof (mlen_nonneg ds).
  set (st := match sign with Some s => [s] | None => [] end) in *. pose proof (mlen_nonneg st).
  rewrite (peek_holds buf end_ p _ e (st ++ ds)) by (done || lia). bstep.
  replace ((e =? 101) || (e =? 69)) with true by (destruct He as [-> | ->]; done). cbn [negb].
  apply holds_cons in Hh as [_ Hh]. destruct ds as [|c ds]; [done|]. rewrite mlen_cons in *. pose proof (mlen_nonneg ds).
  assert (∃ y ys, holds buf (p + 1) (y :: ys) ∧ ((y =? 43) || (y =? 45)) = (match sign with None => false | _ => true end) ∧
    (y =? 45) = bool_decide (sign = Some 45)) as (y & ys & Hy & E1 & E2).
  { destruct sign as [s0|]; cbn [app st] in *; subst st.
    - exists s0, (c :: ds). split; [done|]. destruct Hs as [-> | ->]; done.
    - exists c, ds. split; [done|]. pose proof (Forall_inv Hd) as Hc. cbn beta in Hc. unfold json_is_digit in Hc.
      rewrite (proj2 (Z.eqb_neq c 43)), (proj2 (Z.eqb_neq c 45)) by lia. done. }
  rewrite !(peek_holds buf end_ (p + 1) _ y ys) by (done || lia). bstep. rewrite E1, E2. cbv zeta.
  replace (p + (if (match sign with None => false | _ => true end) then 2 else 1)) with (p + 1 + mlen st)
    by (unfold st; destruct sign as [z|]; [change (mlen [z]) with 1|change (mlen []) with 0]; lia).
  apply holds_app in Hh as [_ Hh]. rewrite (peek_holds buf end_ (p + 1 + mlen st) _ c ds) by (done || lia). bstep.
  rewrite (Forall_inv Hd : json_is_digit c = true). cbn [negb]. rewrite (e_loop_spec (c :: ds)); [bstep|done|done|rewrite mlen_cons; lia|lia].
  by unfold exp_value; case_bool_decide.
Qed.

Lemma mant_stop fuel p frac any mant exp10 ex : exp_ok ex → holds buf p (exp_text ex) → p + mlen (exp_text ex) = end_ →
  end_ - p < Z.of_nat fuel → mant_loop buf end_ fuel p frac any mant exp10 = Ok (p, any, mant, exp10).
Proof using.
  intros Hok Hh Hl Hf. pose proof (mlen_nonneg (exp_text ex)). destruct fuel as [|fuel]; [lia|]. cbn [mant_loop].
  destruct ex as [[[e sign] ds]|]; cbn [exp_text] in *.
  - rewrite mlen_cons in Hl. match type of Hl with context [mlen (?x ++ ?y)] => pose proof (mlen_nonneg (x ++ y)) end.
    rewrite (proj2 (Z.ltb_lt p end_)) by lia. cbn [negb]. apply holds_cons in Hh as [-> _]. bstep.
    destruct Hok as ([-> | ->] & _); cbn; by rewrite andb_false_r.
  - rewrite mlen_nil in Hl. by rewrite (proj2 (Z.ltb_ge p end_)) by lia.
Qed.

Definition frac_digits (n : number) : list Z := match nu_frac n with Some ds => ds | None => [] end.

(** The mantissa loop over a whole literal. *)
Lemma mant_spec n fuel p : num_ok n → holds buf p (nu_int n ++ frac_text (nu_frac n) ++ exp_text (nu_exp n)) →
  p + mlen (nu_int n ++ frac_text (nu_frac n) ++ exp_text (nu_exp n)) = end_ → end_ - p < Z.of_nat fuel →
  ∃ k mant exp10, scale_ok (nu_int n ++ frac_digits n) (mlen (nu_int n)) k mant exp10 ∧
    mant_loop buf end_ fuel p false false 0 0 =
      Ok (p + mlen (nu_int n) + mlen (frac_text (nu_frac n)), true, mant, exp10).
Proof using.
  intros ((Hd & Hne & _) & Hfr & Hex) Hh Hl Hf. apply holds_app in Hh as [Hhi Hh]. apply holds_app in Hh as [Hhf Hhe].
  rewrite !mlen_app in Hl. pose proof (mlen_nonneg (frac_text (nu_frac n))). pose proof (mlen_nonneg (exp_text (nu_exp n))).
  assert (scale_ok [] 0 0 0 0) as Hs0 by (unfold scale_ok; split_and!; [done|done|done|by left|done]).
  destruct (mant_digits (nu_int n) false fuel p false [] 0 0 0 0 Hd ltac:(constructor) Hhi ltac:(lia) Hs0 Hf)
    as (f1 & k1 & m1 & e1 & Hs1 & Hf1 & ->). cbn [app] in Hs1. rewrite Z.add_0_l in Hs1.
  replace (false || negb (mlen (nu_int n) =? 0)) with true
    by (destruct (nu_int n) as [|c ds]; [done|]; rewrite mlen_cons; pose proof (mlen_nonneg ds); by rewrite (proj2 (Z.eqb_neq _ 0)) by lia).
  unfold frac_digits. destruct (nu_frac n) as [fs|]; cbn [frac_text] in *.
  - rewrite mlen_cons in *. pose proof (mlen_nonneg fs). destruct Hfr as [Hfd Hfne]. destruct f1 as [|f1]; [lia|]. cbn [mant_loop].
    rewrite (proj2 (Z.ltb_lt _ end_)) by lia. cbn [negb]. apply holds_cons in Hhf as [-> Hhf]. bstep. cbn [json_is_digit Z.leb Z.compare Pos.compare Pos.compare_cont andb negb Z.eqb Pos.eqb].
    destruct (mant_digits fs true f1 (p + mlen (nu_int n) + 1) true (nu_int n) (mlen (nu_int n)) k1 m1 e1 Hfd Hd Hhf ltac:(lia) Hs1 ltac:(lia))
      as (f2 & k2 & m2 & e2 & Hs2 & Hf2 & ->). exists k2, m2, e2. split; [done|].
    replace (p + mlen (nu_int n) + 1 + mlen fs) with (p + mlen (nu_int n) + (1 + mlen fs)) in * by lia.
    by rewrite (mant_stop f2 _ _ _ _ _ (nu_exp n)) by (done || lia).
  - rewrite mlen_nil, Z.add_0_r in *. exists k1, m1, e1. rewrite app_nil_r. split; [done|].
    by rewrite (mant_stop f1 _ _ _ _ _ (nu_exp n)) by (done || lia).
Qed.

(** The mantissa and the exponent [json_dbl_parse] takes from a literal of at
    most a billion octets: the mantissa is the decimal value of the digits of integer
    and fraction part up to the [k]th, without overflow, where [k] is all of them
    unless the mantissa already has nineteen digits, and the exponent places the point
    exactly; so a literal of at most nineteen digits is read without loss before the
    one rounding to a double. *)
Theorem json_dbl_scan_exact n s : num_ok n → holds buf s (num_text n) → s + mlen (num_text n) = end_ →
  mlen (num_text n) <= 1000000000 → ∃ k mant exp10,
  dbl_scan buf end_ s = Ok (Some (nu_neg n, mant, exp10 + exp_value (nu_exp n))) ∧
  scale_ok (nu_int n ++ frac_digits n) (mlen (nu_int n)) k mant exp10 ∧
  (mlen (nu_int n ++ frac_digits n) <= 19 → mant = dec_value (nu_int n ++ frac_digits n) ∧ exp10 = - mlen (frac_digits n)).
Proof using Hend.
  intros Hok Hh Hl Hmax. pose proof (holds_pos _ _ _ Hh) as [Hs _]. unfold dbl_scan. unfold num_text in Hh, Hl, Hmax.
  rewrite mlen_app in Hl, Hmax. pose proof Hok as ((Hd & Hne & _) & _ & Hex). apply holds_app in Hh as [Hhs Hhn].
  pose proof (mlen_nonneg (nu_int n ++ frac_text (nu_frac n) ++ exp_text (nu_exp n))). pose proof (mlen_nonneg (sign_text (nu_neg n))).
  assert (∃ x, rd buf s = Ok x ∧ (x =? 45) = nu_neg n) as (x & -> & Ex45).
  { destruct (nu_neg n); cbn [sign_text] in *.
    - apply holds_cons in Hhs as [-> _]. by exists 45.
    - rewrite mlen_nil, Z.add_0_r in Hhn. destruct (nu_int n) as [|c ds]; [done|]. apply holds_cons in Hhn as [-> _].
      exists c. split; [done|]. apply Forall_inv in Hd. unfold json_is_digit in Hd. apply Z.eqb_neq. lia. }
  bstep. rewrite Ex45. cbv zeta.
  assert ((if nu_neg n then s + 1 else s) = s + mlen (sign_text (nu_neg n))) as -> by (destruct (nu_neg n); cbn [sign_text]; [done|rewrite mlen_nil; lia]).
  destruct (mant_spec n (S (Z.to_nat (end_ - (s + mlen (sign_text (nu_neg n)))))) _ Hok Hhn ltac:(lia) ltac:(lia)) as (k & mant & exp10 & Hsc & ->).
  bstep. cbn [negb]. rewrite !mlen_app in *. set (p0 := s + mlen (sign_text (nu_neg n))) in *.
  apply holds_app in Hhn as [_ Hhn]. apply holds_app in Hhn as [_ Hhe].
  pose proof (mlen_nonneg (nu_int n)). pose proof (mlen_nonneg (frac_text (nu_frac n))). pose proof (mlen_nonneg (exp_text (nu_exp n))).
  rewrite (exp_part_spec _ (nu_exp n)) by (done || lia). bstep. pose proof Hsc as (Hk & Hm & He & Hf & Hb).
  assert (mlen (frac_digits n) <= mlen (frac_text (nu_frac n))) as Hfl by (unfold frac_digits; destruct (nu_frac n); [cbn [frac_text]; rewrite mlen_cons; lia|done]).
  rewrite length_app in Hk. unfold int_sum.
  assert (-1000000 <= exp_value (nu_exp n) <= 1000000) as Hev.
  { unfold exp_value. destruct (nu_exp n) as [[[e sign] ds]|]; [|lia]. destruct Hex as (_ & Hds & _). pose proof (e_clamp_range ds Hds). case_bool_decide; lia. }
  assert (Z.of_nat k <= mlen (nu_int n) + mlen (frac_digits n)) by (unfold mlen; lia).
  rewrite (proj2 (Z.leb_le _ (exp10 + _))), (proj2 (Z.leb_le (exp10 + _) _)) by lia. cbn [andb]. bstep. rewrite Z.eqb_refl. cbn [negb].
  exists k, mant, exp10. split; [done|]. split; [done|]. intros H19.
  assert (k = length (nu_int n ++ frac_digits n)) as Ek.
  { destruct Hf as [Hf|Hf]; [done|]. unfold MANT_LIM in Hf. rewrite Hm in Hf.
    assert (digits_ok (nu_int n ++ frac_digits n)) as Hda.
    { apply Forall_app. split; [done|]. unfold frac_digits. destruct Hok as (_ & Hfr & _). destruct (nu_frac n); [apply Hfr|constructor]. }
    pose proof (dec_range _ (Forall_take _ k _ Hda)) as Hr. unfold mlen in Hr at 1. rewrite length_take, length_app in Hr. rewrite length_app.
    destruct (decide (k = length (nu_int n) + length (frac_digits n))%nat) as [|Hlt]; [done|]. exfalso.
    unfold mlen in H19. assert (10 ^ Z.of_nat (k `min` (length (nu_int n) + length (frac_digits n))) <= 10 ^ 18) by (apply Z.pow_le_mono_r; lia). lia. }
  split; [by rewrite Hm, Ek, take_ge|]. rewrite He, Ek, length_app. unfold mlen. lia.
Qed.
End scan.

(** *** Witnesses *)

(** -12.5e3 *)
Definition demo_num : number := Number true [49; 50] (Some [53]) (Some (101, None, [51])).
Lemma demo_num_ok : num_ok demo_num.
Proof. unfold num_ok, int_ok, frac_ok, exp_ok, digits_ok. cbn. split_and!; try done; repeat constructor. Qed.

Lemma json_dbl_scan_exact_witness : ∃ k mant exp10,
  dbl_scan (num_text demo_num) 7 0 = Ok (Some (true, mant, exp10 + 3)) ∧
  scale_ok [49; 50; 53] 2 k mant exp10 ∧ (mlen [49; 50; 53] <= 19 → mant = 125 ∧ exp10 = -1).
Proof. apply (json_dbl_scan_exact (num_text demo_num) 7 ltac:(done) demo_num 0); [apply demo_num_ok|split_and!; done|done|done]. Defined.

(** A document of the one number [text]. *)
Definition one_num (text : list Z) (isint : bool) : list json_node :=
  [JsonNode JSON_T_NUM (if isint then JSON_F_INT else 0) 0 0 0 no_str (JStr (Some 0) (mlen text))].

Definition big_int : number := Number true [57; 50; 50; 51; 51; 55; 50; 48; 51; 54; 56; 53; 52; 55; 55; 53; 56; 48; 56] None None.
Lemma big_int_node : node_of (num_text big_int) (one_num (num_text big_int) true)
  (JsonDoc (Some (one_num (num_text big_int) true)) 1 1 (Some (num_text big_int)) 20 0) 0 (CNum big_int).
Proof.
  split; [unfold cst_ok, num_ok, int_ok, frac_ok, exp_ok, digits_ok; cbn; split_and!; try done; repeat constructor|].
  exists [], [], 0, no_str, false, 0. by split_and!.
Qed.
Lemma json_i64_exact_witness : json_i64 (num_text big_int) (one_num (num_text big_int) true) (Some 0) = Ok INT64_MIN.
Proof. rewrite (json_i64_exact _ _ _ _ big_int big_int_node); vm_compute; reflexivity. Defined.

(** A number with a fraction goes through a double, and a value that is not integral,
    or an integral one past 53 bits, comes back rounded: 1.00000000000000000001 reads as
    1 and 9007199254740993.0 as 9007199254740992. *)
Lemma json_i64_rounds :
  let a := [49; 46; 48; 48; 48; 48; 48; 48; 48; 48; 48; 48; 48; 48; 48; 48; 48; 48; 48; 48; 48; 49] in
  let b := [57; 48; 48; 55; 49; 57; 57; 50; 53; 52; 55; 52; 48; 57; 57; 51; 46; 48] in
  json_i64 a (one_num a false) (Some 0) = Ok 1 ∧ json_i64 b (one_num b false) (Some 0) = Ok 9007199254740992.
Proof. vm_compute. split; reflexivity. Qed.

End JsonNum.
