(* ===== verification/JsonWrite.v ===== *)
(** * JsonWrite: the JSON writer

    Models [json/src/json_write.c] but for doubles ([json_put_num], [put_dbl] and
    [fix_point], the C library's formatting): the buffer with its sticky error, the
    container stack, punctuation and indentation, escaping, and the calls built on
    them.  A call returns the writer it leaves and its code. *)

From S2P Require Import Prelude Endian SmsIntl SmsText JsonStr JsonParse JsonGrammar JsonSound JsonNav JsonNum.

Module JsonWrite.
Import JsonStr JsonParse.

Definition ST_OBJ : Z := 1.
Definition ST_USED : Z := 2.

Record json_wbuf := Wbuf {
  w_buf : option mem; w_cap : Z; w_off : Z; w_err : Z; w_indent : Z; w_depth : Z;
  w_want_val : bool; w_have_root : bool; w_stack : list Z }.

Definition set_out (w : json_wbuf) (m : mem) (off : Z) : json_wbuf :=
  Wbuf (Some m) (w_cap w) off (w_err w) (w_indent w) (w_depth w) (w_want_val w) (w_have_root w) (w_stack w).
Definition set_err (w : json_wbuf) (err : Z) : json_wbuf :=
  Wbuf (w_buf w) (w_cap w) (w_off w) err (w_indent w) (w_depth w) (w_want_val w) (w_have_root w) (w_stack w).
Definition set_depth (w : json_wbuf) (depth : Z) : json_wbuf :=
  Wbuf (w_buf w) (w_cap w) (w_off w) (w_err w) (w_indent w) depth (w_want_val w) (w_have_root w) (w_stack w).
Definition set_want (w : json_wbuf) (want : bool) : json_wbuf :=
  Wbuf (w_buf w) (w_cap w) (w_off w) (w_err w) (w_indent w) (w_depth w) want (w_have_root w) (w_stack w).
Definition set_root (w : json_wbuf) : json_wbuf :=
  Wbuf (w_buf w) (w_cap w) (w_off w) (w_err w) (w_indent w) (w_depth w) (w_want_val w) true (w_stack w).
Definition set_stack (w : json_wbuf) (st : list Z) : json_wbuf :=
  Wbuf (w_buf w) (w_cap w) (w_off w) (w_err w) (w_indent w) (w_depth w) (w_want_val w) (w_have_root w) st.

(** [memcpy] to the end of the text; the result is read off [err]. *)
Definition put (w : json_wbuf) (bs : list Z) : res json_wbuf :=
  if negb (w_err w =? JSON_OK) then Ok w else
  if w_cap w - w_off w <? mlen bs then Ok (set_err w JSON_E_OVERFLOW) else
  match w_buf w with
  | None => Ub
  | Some m => m ← wrn m (w_off w) bs; Ok (set_out w m (w_off w + mlen bs))
  end.

Definition fail (w : json_wbuf) (err : Z) : json_wbuf * Z :=
  let w := if w_err w =? JSON_OK then set_err w err else w in (w, w_err w).
Definition done_ (w : json_wbuf) : json_wbuf * Z := (w, w_err w).

Fixpoint nl_loop (fuel : nat) (w : json_wbuf) (n : Z) : res json_wbuf :=
  match fuel with
  | O => Ub
  | S fuel =>
      if negb (0 <? n) then Ok w else
      let k := if 16 <? n then 16 else n in
      w ← put w (replicate (Z.to_nat k) 32);
      nl_loop fuel w (n - k)
  end.
Definition nl (w : json_wbuf) (depth : Z) : res json_wbuf :=
  if w_indent w =? 0 then Ok w else
  w ← put w [10];
  nl_loop (S (Z.to_nat (depth * w_indent w))) w (depth * w_indent w).

(** The state of the innermost level. *)
Definition level (w : json_wbuf) : res Z := rd (w_stack w) (w_depth w - 1).
(** [if ( *st & ST_USED) put(w, ",", 1); *st |= ST_USED; nl(w, w->depth);] *)
Definition separate (w : json_wbuf) (st : Z) : res json_wbuf :=
  w ← (if negb (Z.land st ST_USED =? 0) then put w [44] else Ok w);
  stack ← wr (w_stack w) (w_depth w - 1) (Z.lor st ST_USED);
  nl (set_stack w stack) (w_depth w).

Definition pre_key (w : json_wbuf) : res (json_wbuf * Z) :=
  if negb (w_err w =? JSON_OK) then Ok (w, w_err w) else
  if w_depth w =? 0 then Ok (fail w JSON_E_STATE) else
  st ← level w;
  if (Z.land st ST_OBJ =? 0) || w_want_val w then Ok (fail w JSON_E_STATE) else
  w ← separate w st;
  Ok (w, JSON_OK).

Definition pre_val (w : json_wbuf) : res (json_wbuf * Z) :=
  if negb (w_err w =? JSON_OK) then Ok (w, w_err w) else
  if w_depth w =? 0 then
    if w_have_root w then Ok (fail w JSON_E_STATE) else Ok (set_root w, JSON_OK)
  else
  st ← level w;
  if negb (Z.land st ST_OBJ =? 0) then
    if negb (w_want_val w) then Ok (fail w JSON_E_STATE) else Ok (set_want w false, JSON_OK)
  else w ← separate w st; Ok (w, JSON_OK).

(** ** Text *)

Definition k_hex (d : Z) : Z := if d <? 10 then 48 + d else 97 + (d - 10).
(** What replaces an octet that is not copied as it is. *)
Definition esc_rep (c : Z) : option (list Z) :=
  if c =? 34 then Some [92; 34] else if c =? 92 then Some [92; 92] else if c =? 8 then Some [92; 98]
  else if c =? 12 then Some [92; 102] else if c =? 10 then Some [92; 110] else if c =? 13 then Some [92; 114]
  else if c =? 9 then Some [92; 116]
  else if 32 <=? c then None
  else Some [92; 117; 48; 48; k_hex (Z.shiftr c 4); k_hex (Z.land c 15)].

Fixpoint esc_loop (fuel : nat) (w : json_wbuf) (s : mem) (len i start : Z) : res json_wbuf :=
  match fuel with
  | O => Ub
  | S fuel =>
      if negb (i <? len) then
        if start <? len then bs ← rdn s start (len - start); put w bs else Ok w
      else
      c ← rd s i;
      match esc_rep c with
      | None => esc_loop fuel w s len (i + 1) start
      | Some rep =>
          w ← (if start <? i then bs ← rdn s start (i - start); put w bs else Ok w);
          w ← put w rep;
          esc_loop fuel w s len (i + 1) (i + 1)
      end
  end.
Definition put_esc (w : json_wbuf) (s : mem) (len : Z) : res json_wbuf := esc_loop (S (Z.to_nat len)) w s len 0 0.

Definition put_quoted (w : json_wbuf) (s : option mem) (len : Z) : res json_wbuf :=
  w ← put w [34];
  w ← (if len =? 0 then Ok w else match s with None => Ub | Some s => put_esc w s len end);
  put w [34].

(** The digits of [u], written from the end of [char tmp[20]]; the fuel is the room left. *)
Fixpoint u64_digits (room : nat) (u : Z) (p : list Z) : res (list Z) :=
  match room with
  | O => Ub
  | S room => let p := (48 + u mod 10) :: p in if u / 10 =? 0 then Ok p else u64_digits room (u / 10) p
  end.
Definition put_i64 (w : json_wbuf) (v : Z) : res json_wbuf :=
  let u := if v <? 0 then u64 (- v) else v in
  ds ← u64_digits 20 u [];
  w ← (if v <? 0 then put w [45] else Ok w);
  put w ds.

(** ** Calls *)

Definition json_wbuf_init (buf : option mem) (cap : Z) : json_wbuf :=
  Wbuf buf (if 2147483647 <? cap then 2147483647 else cap) 0
    (match buf with None => JSON_E_INVAL | Some _ => JSON_OK end) 0 0 false false (replicate 32 0).
Definition json_wbuf_indent (w : json_wbuf) (spaces : Z) : json_wbuf :=
  Wbuf (w_buf w) (w_cap w) (w_off w) (w_err w) (if 8 <? spaces then 8 else spaces) (w_depth w) (w_want_val w)
    (w_have_root w) (w_stack w).

Definition open_container (w : json_wbuf) (obj : bool) : res (json_wbuf * Z) :=
  '(w, rc) ← pre_val w;
  if negb (rc =? JSON_OK) then Ok (w, rc) else
  if JSON_MAX_DEPTH <=? w_depth w then Ok (fail w JSON_E_DEPTH) else
  w ← put w [if obj then 123 else 91];
  stack ← wr (w_stack w) (w_depth w) (if obj then ST_OBJ else 0);
  Ok (done_ (set_depth (set_stack w stack) (w_depth w + 1))).

Definition close_container (w : json_wbuf) (obj : bool) : res (json_wbuf * Z) :=
  if negb (w_err w =? JSON_OK) then Ok (w, w_err w) else
  if (w_depth w =? 0) || w_want_val w then Ok (fail w JSON_E_STATE) else
  st ← level w;
  if negb (Bool.eqb (negb (Z.land st ST_OBJ =? 0)) obj) then Ok (fail w JSON_E_STATE) else
  let w := set_depth w (w_depth w - 1) in
  w ← (if negb (Z.land st ST_USED =? 0) then nl w (w_depth w) else Ok w);
  w ← put w [if obj then 125 else 93];
  Ok (done_ w).

Definition json_put_obj_begin (w : json_wbuf) : res (json_wbuf * Z) := open_container w true.
Definition json_put_obj_end (w : json_wbuf) : res (json_wbuf * Z) := close_container w true.
Definition json_put_arr_begin (w : json_wbuf) : res (json_wbuf * Z) := open_container w false.
Definition json_put_arr_end (w : json_wbuf) : res (json_wbuf * Z) := close_container w false.

Definition json_put_key (w : json_wbuf) (k : option mem) (klen : Z) : res (json_wbuf * Z) :=
  if bool_decide (k = None) && negb (klen =? 0) then Ok (fail w JSON_E_INVAL) else
  '(w, rc) ← pre_key w;
  if negb (rc =? JSON_OK) then Ok (w, rc) else
  w ← put_quoted w k klen;
  w ← put w [58];
  w ← (if negb (w_indent w =? 0) then put w [32] else Ok w);
  Ok (done_ (set_want w true)).

(** [int rc = pre_val(w); if (rc != JSON_OK) return rc; ...; return done(w);] *)
Definition put_val (w : json_wbuf) (write : json_wbuf → res json_wbuf) : res (json_wbuf * Z) :=
  '(w, rc) ← pre_val w;
  if negb (rc =? JSON_OK) then Ok (w, rc) else
  w ← write w;
  Ok (done_ w).

Definition json_put_str (w : json_wbuf) (s : option mem) (len : Z) : res (json_wbuf * Z) :=
  if bool_decide (s = None) && negb (len =? 0) then Ok (fail w JSON_E_INVAL) else
  put_val w (λ w, put_quoted w s len).
Definition json_put_str_esc (w : json_wbuf) (s : option mem) (len : Z) : res (json_wbuf * Z) :=
  if bool_decide (s = None) && negb (len =? 0) then Ok (fail w JSON_E_INVAL) else
  put_val w (λ w,
    w ← put w [34];
    w ← (if len =? 0 then Ok w else match s with None => Ub | Some s => bs ← rdn s 0 len; put w bs end);
    put w [34]).
Definition json_put_int (w : json_wbuf) (v : Z) : res (json_wbuf * Z) := put_val w (λ w, put_i64 w v).
Definition json_put_bool (w : json_wbuf) (v : bool) : res (json_wbuf * Z) :=
  put_val w (λ w, put w (if v then lit_true else lit_false)).
Definition json_put_null (w : json_wbuf) : res (json_wbuf * Z) := put_val w (λ w, put w lit_null).
Definition json_put_frag (w : json_wbuf) (s : option mem) (len : Z) : res (json_wbuf * Z) :=
  match s with
  | None => Ok (fail w JSON_E_INVAL)
  | Some s => if len =? 0 then Ok (fail w JSON_E_INVAL) else put_val w (λ w, bs ← rdn s 0 len; put w bs)
  end.

(** A member name, then a value unless the name failed. *)
Definition put_field (w : json_wbuf) (k : option mem) (klen : Z) (value : json_wbuf → res (json_wbuf * Z)) : res (json_wbuf * Z) :=
  '(w, rc) ← json_put_key w k klen;
  if negb (rc =? JSON_OK) then Ok (w, rc) else value w.
Definition json_put_field_str (w : json_wbuf) (k : option mem) (klen : Z) (s : option mem) (len : Z) : res (json_wbuf * Z) :=
  put_field w k klen (λ w, json_put_str w s len).
Definition json_put_field_int (w : json_wbuf) (k : option mem) (klen v : Z) : res (json_wbuf * Z) :=
  put_field w k klen (λ w, json_put_int w v).
Definition json_put_field_bool (w : json_wbuf) (k : option mem) (klen : Z) (v : bool) : res (json_wbuf * Z) :=
  put_field w k klen (λ w, json_put_bool w v).
Definition json_put_field_null (w : json_wbuf) (k : option mem) (klen : Z) : res (json_wbuf * Z) :=
  put_field w k klen (λ w, json_put_null w).

(** The length, or the error. *)
Definition json_end (w : json_wbuf) : json_wbuf * Z :=
  if negb (w_err w =? JSON_OK) then (w, w_err w) else
  if negb (w_depth w =? 0) || negb (w_have_root w) then fail w JSON_E_STATE else
  (w, w_off w).

End JsonWrite.
