(* ===== verification/JsonBuild.v ===== *)
(** * JsonBuild: what the JSON writer writes

    An abstract writer whose state is the stack of containers being built, as syntax
    trees of JsonGrammar, and the refinement: after any sequence of calls the writer of
    JsonWrite has either failed, and stays failed, or its buffer holds exactly the text
    of the abstract state.  So a document [json_end] gives a length for is a JSON text,
    and writing a value and parsing it again gives the value back. *)

From S2P Require Import Prelude Endian SmsIntl SmsText JsonStr JsonParse JsonGrammar JsonSound JsonNav JsonNum JsonWrite.

Module JsonBuild.
Import JsonStr JsonParse JsonGrammar JsonSound JsonNav JsonNum JsonWrite.

(** ** Appending *)

(** The output of [w] is usable unless it has failed. *)
Definition out_ok (w : json_wbuf) : Prop :=
  w_err w = JSON_OK → ∃ m, w_buf w = Some m ∧ 0 <= w_off w <= w_cap w ∧ w_cap w <= mlen m.

(** [w'] is [w] with [bs] appended, if there is room and [w] has not failed. *)
Definition wout (w : json_wbuf) (bs : list Z) (w' : json_wbuf) : Prop :=
  w_cap w' = w_cap w ∧
  if w_err w =? JSON_OK then
    if w_off w + mlen bs <=? w_cap w then
      w_err w' = JSON_OK ∧ w_off w' = w_off w + mlen bs ∧
      ∃ m, w_buf w = Some m ∧ w_buf w' = Some (splice m (w_off w) bs)
    else w_err w' = JSON_E_OVERFLOW
  else w_err w' = w_err w.
(** The fields a [put] does not touch. *)
Definition same_ctl (w w' : json_wbuf) : Prop :=
  w_indent w' = w_indent w ∧ w_depth w' = w_depth w ∧ w_want_val w' = w_want_val w ∧
  w_have_root w' = w_have_root w ∧ w_stack w' = w_stack w.
Definition wrote (w : json_wbuf) (bs : list Z) (w' : json_wbuf) : Prop := wout w bs w' ∧ same_ctl w w'.

(** [r] appends [bs]. *)
Definition writes (w : json_wbuf) (bs : list Z) (r : res json_wbuf) : Prop := ∃ w', r = Ok w' ∧ wrote w bs w'.

Lemma wout_out_ok w bs w' : out_ok w → wout w bs w' → out_ok w'.
Proof.
  intros Ho (Hc & Hw) He. unfold out_ok in Ho. destruct (Z.eqb_spec (w_err w) JSON_OK) as [E|E]; [|congruence].
  destruct (Z.leb_spec (w_off w + mlen bs) (w_cap w)); [|by rewrite He in Hw].
  destruct Hw as (_ & Hoff & m & Hm & Hm'). destruct (Ho E) as (m0 & Hm0 & Hb & Hcm). assert (m0 = m) as -> by congruence.
  exists (splice m (w_off w) bs). pose proof (mlen_nonneg bs). split; [done|]. rewrite Hc, Hoff. split; [lia|].
  rewrite mlen_splice by lia. done.
Qed.

Lemma wout_nil w : out_ok w → wout w [] w.
Proof.
  intros Ho. split; [done|]. destruct (Z.eqb_spec (w_err w) JSON_OK) as [E|E]; [|done]. destruct (Ho E) as (m & Hm & Hb & _).
  rewrite mlen_nil, Z.add_0_r, (proj2 (Z.leb_le _ _)) by lia. split; [done|]. split; [done|]. exists m. by rewrite splice_nil.
Qed.

Lemma wout_trans w a w1 b w2 : out_ok w → wout w a w1 → wout w1 b w2 → wout w (a ++ b) w2.
Proof.
  intros Ho (Hc1 & H1) (Hc2 & H2). split; [congruence|]. destruct (Z.eqb_spec (w_err w) JSON_OK) as [E|E].
  - rewrite mlen_app. pose proof (mlen_nonneg a). pose proof (mlen_nonneg b). destruct (Z.leb_spec (w_off w + mlen a) (w_cap w)).
    + destruct H1 as (He & Hoff & m & Hm & Hm1). rewrite He in H2. change (JSON_OK =? JSON_OK) with true in H2. cbn match in H2.
      rewrite Hoff, Hc1 in H2. rewrite Z.add_assoc. destruct (Z.leb_spec (w_off w + mlen a + mlen b) (w_cap w)); [|done].
      destruct H2 as (He2 & Hoff2 & m1 & Hm1' & Hm2). split; [done|]. split; [lia|]. exists m. split; [done|]. rewrite Hm2. f_equal.
      assert (m1 = splice m (w_off w) a) as -> by congruence. destruct (Ho E) as (m0 & Hm0 & Hb & Hcm). assert (m0 = m) as -> by congruence.
      rewrite splice_app by lia. done.
    + rewrite (proj2 (Z.leb_gt _ _)) by lia. rewrite H1 in H2. exact H2.
  - rewrite H1 in H2. rewrite (proj2 (Z.eqb_neq _ _) E) in H2. congruence.
Qed.

Lemma same_trans w w1 w2 : same_ctl w w1 → same_ctl w1 w2 → same_ctl w w2.
Proof. unfold same_ctl. intros (? & ? & ? & ? & ?) (? & ? & ? & ? & ?). split_and!; congruence. Qed.
Lemma wrote_out_ok w bs w' : out_ok w → wrote w bs w' → out_ok w'.
Proof. intros Ho [H _]. by eapply wout_out_ok. Qed.
Lemma wrote_trans w a w1 b w2 : out_ok w → wrote w a w1 → wrote w1 b w2 → wrote w (a ++ b) w2.
Proof. intros Ho [H1 S1] [H2 S2]. split; [by eapply wout_trans|by eapply same_trans]. Qed.
Lemma writes_nil w : out_ok w → writes w [] (Ok w).
Proof. intros Ho. exists w. split; [done|]. split; [by apply wout_nil|by repeat split]. Qed.

(** Two pieces one after the other. *)
Lemma writes_bind w a b r f : out_ok w → writes w a r → (∀ w', out_ok w' → same_ctl w w' → writes w' b (f w')) →
  writes w (a ++ b) (r ≫= f).
Proof.
  intros Ho (w1 & -> & H1) Hf. bstep. destruct (Hf w1) as (w2 & E & H2); [by eapply wrote_out_ok|apply H1|].
  exists w2. split; [done|]. by eapply wrote_trans.
Qed.

Lemma put_writes w bs : out_ok w → writes w bs (put w bs).
Proof.
  intros Ho. unfold put, writes, wrote, wout. destruct (Z.eqb_spec (w_err w) JSON_OK) as [E|E]; cbn [negb]; [|exists w; by repeat split].
  destruct (Ho E) as (m & Hm & Hb & Hc). pose proof (mlen_nonneg bs). destruct (Z.ltb_spec (w_cap w - w_off w) (mlen bs)).
  - eexists. split; [done|]. rewrite (proj2 (Z.leb_gt _ _)) by lia. by repeat split.
  - rewrite Hm, wrn_Ok by lia. bstep. eexists. split; [done|]. rewrite (proj2 (Z.leb_le _ _)) by lia.
    split; [|by repeat split]. split; [done|]. split; [done|]. split; [done|]. by exists m.
Qed.

(** *** Line breaks *)

Definition nlw (ind depth : Z) : list Z := if ind =? 0 then [] else 10 :: replicate (Z.to_nat (depth * ind)) 32.

Lemma nl_loop_writes fuel : ∀ w n, out_ok w → 0 <= n < Z.of_nat fuel → writes w (replicate (Z.to_nat n) 32) (nl_loop fuel w n).
Proof.
  induction fuel as [|fuel IH]; intros w n Ho Hn; [lia|]. cbn [nl_loop]. destruct (Z.ltb_spec 0 n); cbn [negb].
  - cbv zeta. set (k := if 16 <? n then 16 else n). assert (0 < k <= n) by (unfold k; destruct (Z.ltb_spec 16 n); lia). clearbody k.
    replace (Z.to_nat n) with (Z.to_nat k + Z.to_nat (n - k))%nat by lia. rewrite replicate_add.
    apply writes_bind; [done|by apply put_writes|]. intros w' Ho' _. apply IH; [done|lia].
  - replace n with 0 by lia. by apply writes_nil.
Qed.
Lemma nl_writes w depth : out_ok w → 0 <= w_indent w → 0 <= depth → writes w (nlw (w_indent w) depth) (nl w depth).
Proof.
  intros Ho Hi Hd. unfold nl, nlw. destruct (w_indent w =? 0) eqn:E; [by apply writes_nil|].
  change (10 :: ?x) with ([10] ++ x). apply writes_bind; [done|by apply put_writes|]. intros w' Ho' (Ei & _). rewrite <-Ei.
  apply nl_loop_writes; [done|]. split; [|lia]. apply Z.mul_nonneg_nonneg; [done|congruence].
Qed.

(** *** Strings and integers *)

Definition esc_unit (c : Z) : unit_ :=
  if c =? 34 then Short 34 else if c =? 92 then Short 92 else if c =? 8 then Short 98
  else if c =? 12 then Short 102 else if c =? 10 then Short 110 else if c =? 13 then Short 114
  else if c =? 9 then Short 116
  else if 32 <=? c then Plain c
  else Hex [48; 48; k_hex (Z.shiftr c 4); k_hex (Z.land c 15)].
Definition esc_units (s : list Z) : list unit_ := map esc_unit s.

Lemma esc_rep_unit c : unit_text (esc_unit c) = match esc_rep c with Some rep => rep | None => [c] end.
Proof. unfold esc_unit, esc_rep. repeat case_match; done. Qed.

Lemma body_text_app a b : body_text (a ++ b) = body_text a ++ body_text b.
Proof. unfold body_text. by rewrite map_app, concat_app. Qed.
Lemma esc_units_app a b : esc_units (a ++ b) = esc_units a ++ esc_units b.
Proof. apply map_app. Qed.

(** The run [start..i) is copied whole: none of its octets is replaced. *)
Lemma esc_loop_writes fuel : ∀ w s len i start run, out_ok w → 0 <= start <= i → i <= len → len <= mlen s → len - i < Z.of_nat fuel →
  slice s start (i - start) = run → body_text (esc_units run) = run →
  writes w (run ++ body_text (esc_units (slice s i (len - i)))) (esc_loop fuel w s len i start).
Proof.
  induction fuel as [|fuel IH]; intros w s len i start run Ho Hs Hi Hl Hf Hrun Hplain; [lia|]. cbn [esc_loop].
  destruct (Z.ltb_spec i len); cbn [negb].
  - rewrite rd_Ok by lia. bstep. set (c := get s i).
    assert (slice s i (len - i) = c :: slice s (i + 1) (len - (i + 1))) as Esl.
    { rewrite slice_cons by lia. by replace (len - i - 1) with (len - (i + 1)) by lia. }
    rewrite Esl. cbn [esc_units map]. rewrite body_text_cons, esc_rep_unit. destruct (esc_rep c) as [rep|] eqn:Er.
    + apply writes_bind; [done| |].
      * destruct (Z.ltb_spec start i); [rewrite rdn_Ok by lia; bstep; rewrite Hrun; by apply put_writes|].
        replace (i - start) with 0 in Hrun by lia. rewrite slice_0 in Hrun. subst run. by apply writes_nil.
      * intros w1 Ho1 _. apply writes_bind; [done|by apply put_writes|]. intros w2 Ho2 _.
        apply (IH w2 s len (i + 1) (i + 1) []); [done|lia|lia|lia|lia|by rewrite Z.sub_diag, slice_0|done].
    + rewrite app_assoc. apply (IH w s len (i + 1) start (run ++ [c])); [done|lia|lia|lia|lia| |].
      * rewrite <-Hrun. replace (i + 1 - start) with (i - start + 1) by lia. rewrite slice_split by lia. f_equal.
        replace (start + (i - start)) with i by lia. by apply get_via_slice; lia.
      * rewrite esc_units_app, body_text_app, Hplain. f_equal. cbn [esc_units map]. rewrite body_text_cons, esc_rep_unit, Er. done.
  - replace (len - i) with 0 by lia. rewrite slice_0. cbn [esc_units map body_text concat]. rewrite app_nil_r.
    assert (i = len) as -> by lia. destruct (Z.ltb_spec start len).
    + rewrite rdn_Ok by lia. bstep. rewrite Hrun. by apply put_writes.
    + replace (len - start) with 0 in Hrun by lia. rewrite slice_0 in Hrun. subst run. by apply writes_nil.
Qed.

Lemma put_quoted_writes w s : out_ok w → writes w (34 :: body_text (esc_units s) ++ [34]) (put_quoted w (Some s) (mlen s)).
Proof.
  intros Ho. unfold put_quoted. change (34 :: ?x) with ([34] ++ x). apply writes_bind; [done|by apply put_writes|]. intros w1 Ho1 _.
  apply writes_bind; [done| |intros; by apply put_writes]. destruct (Z.eqb_spec (mlen s) 0) as [E|E].
  - destruct s; [by apply writes_nil|]. rewrite mlen_cons in E. pose proof (mlen_nonneg s). lia.
  - unfold put_esc. pose proof (mlen_nonneg s). pose proof (esc_loop_writes (S (Z.to_nat (mlen s))) w1 s (mlen s) 0 0 [] Ho1) as H'.
    cbn [app] in H'. replace (mlen s - 0) with (mlen s) in H' by lia. rewrite (slice_full s (mlen s)) in H' by done. apply H'; (done || lia || by rewrite slice_0).
Qed.

(** The decimal digits of [u]. *)
Fixpoint digs (room : nat) (u : Z) : list Z :=
  match room with
  | O => []
  | S room => if u / 10 =? 0 then [48 + u mod 10] else digs room (u / 10) ++ [48 + u mod 10]
  end.
Lemma u64_digits_spec room : ∀ u p, 0 <= u < 10 ^ Z.of_nat room → (0 < room)%nat → u64_digits room u p = Ok (digs room u ++ p).
Proof.
  induction room as [|room IH]; intros u p Hu Hr; [lia|]. cbn [u64_digits digs]. cbv zeta.
  pose proof (Z.div_mod u 10 ltac:(lia)). pose proof (Z.mod_pos_bound u 10 ltac:(lia)).
  destruct (Z.eqb_spec (u / 10) 0) as [E|E]; [done|]. rewrite Nat2Z.inj_succ, Z.pow_succ_r in Hu by lia.
  rewrite IH; [by rewrite <-app_assoc|lia|]. destruct room; [cbn in Hu; lia|lia].
Qed.
Lemma digs_spec room : ∀ u, 0 <= u < 10 ^ Z.of_nat room → (0 < room)%nat →
  digits_ok (digs room u) ∧ digs room u ≠ [] ∧ dec_value (digs room u) = u ∧ (0 < u → get (digs room u) 0 ≠ 48) ∧ (u = 0 → digs room u = [48]).
Proof.
  induction room as [|room IH]; intros u Hu Hr; [lia|]. cbn [digs]. rewrite Nat2Z.inj_succ, Z.pow_succ_r in Hu by lia.
  assert (json_is_digit (48 + u mod 10) = true) as Hd.
  { unfold json_is_digit. pose proof (Z.mod_pos_bound u 10 ltac:(lia)). lia. }
  pose proof (Z.div_mod u 10 ltac:(lia)). pose proof (Z.mod_pos_bound u 10 ltac:(lia)). destruct (Z.eqb_spec (u / 10) 0) as [E|E].
  - split_and!; [by constructor|done|unfold dec_value; cbn; lia| |].
    + intros. change (get [48 + u mod 10] 0) with (48 + u mod 10). lia.
    + intros ->. done.
  - destruct (IH (u / 10)) as (H1 & H2 & H3 & H4 & _); [lia|destruct room; [cbn in Hu; lia|lia]|].
    split_and!; [apply Forall_app; split; [done|by constructor]|by destruct (digs room (u / 10))|rewrite dec_snoc, H3; lia| |].
    + intros _. destruct (digs room (u / 10)) as [|z zs]; [done|]. apply H4. lia.
    + intros ->. done.
Qed.

Definition int_number (v : Z) : number := Number (v <? 0) (digs 20 (Z.abs v)) None None.
Definition int64 (v : Z) : Prop := INT64_MIN <= v <= INT64_MAX.

Lemma int_number_ok v : int64 v → num_ok (int_number v) ∧ num_int (int_number v) = v ∧ num_isint (int_number v) = true.
Proof.
  intros Hv. unfold int64, INT64_MIN, INT64_MAX in Hv.
  destruct (digs_spec 20 (Z.abs v)) as (H1 & H2 & H3 & H4 & H5); [change (10 ^ Z.of_nat 20) with 100000000000000000000; lia|lia|].
  unfold num_ok, int_ok, num_int. cbn [nu_int nu_neg nu_frac nu_exp int_number frac_ok exp_ok].
  split_and!; try done.
  - intros Hz. destruct (Z.eq_dec v 0) as [->|]; [by apply H5|]. exfalso. apply H4; [lia|done].
  - rewrite H3. destruct (Z.ltb_spec v 0); lia.
Qed.

Lemma put_i64_writes w v : out_ok w → int64 v → writes w (num_text (int_number v)) (put_i64 w v).
Proof.
  intros Ho Hv. unfold put_i64, int64, INT64_MIN, INT64_MAX in *. cbv zeta.
  replace (if v <? 0 then u64 (- v) else v) with (Z.abs v) by (destruct (Z.ltb_spec v 0); [rewrite u64_small by lia; lia|lia]).
  rewrite u64_digits_spec; [|change (10 ^ Z.of_nat 20) with 100000000000000000000; lia|lia]. bstep. rewrite app_nil_r.
  unfold num_text, int_number. cbn [nu_neg nu_int nu_frac nu_exp frac_text exp_text]. rewrite !app_nil_r.
  apply writes_bind; [done| |intros; by apply put_writes]. destruct (v <? 0); [by apply put_writes|by apply writes_nil].
Qed.

(** *** What an escaped string stands for *)

Lemma k_hex_value d : 0 <= d < 16 → json_hex (k_hex d) = d.
Proof. intros Hd. assert (d ∈ seqZ 0 16) as H by (apply elem_of_seqZ; lia). clear Hd. revert d H. by apply Forall_forall; vm_compute; repeat constructor. Qed.

Lemma esc_unit_ok c : 0 <= c < 256 → unit_ok (esc_unit c) ∧ ∀ us, body_value (esc_unit c :: us) = c :: body_value us.
Proof.
  intros Hc. unfold esc_unit.
  destruct (Z.eqb_spec c 34) as [->|]; [split; [vm_compute; set_solver|done]|].
  destruct (Z.eqb_spec c 92) as [->|]; [split; [vm_compute; set_solver|done]|].
  destruct (Z.eqb_spec c 8) as [->|]; [split; [vm_compute; set_solver|done]|].
  destruct (Z.eqb_spec c 12) as [->|]; [split; [vm_compute; set_solver|done]|].
  destruct (Z.eqb_spec c 10) as [->|]; [split; [vm_compute; set_solver|done]|].
  destruct (Z.eqb_spec c 13) as [->|]; [split; [vm_compute; set_solver|done]|].
  destruct (Z.eqb_spec c 9) as [->|]; [split; [vm_compute; set_solver|done]|].
  destruct (Z.leb_spec 32 c); [split; [cbn; lia|done]|].
  assert (0 <= Z.shiftr c 4 < 16 ∧ 0 <= Z.land c 15 < 16 ∧ Z.shiftr c 4 * 16 + Z.land c 15 = c) as (H1 & H2 & H3).
  { change 15 with (Z.ones 4). rewrite Z.shiftr_div_pow2, Z.land_ones by lia. change (2 ^ 4) with 16.
    pose proof (Z.div_mod c 16 ltac:(lia)). pose proof (Z.mod_pos_bound c 16 ltac:(lia)). lia. }
  assert (unit_ok (Hex [48; 48; k_hex (Z.shiftr c 4); k_hex (Z.land c 15)])) as Hok.
  { split; [done|]. repeat (constructor; [rewrite ?k_hex_value by done; (done || lia)|]). constructor. }
  split; [done|]. intros us. assert (hex_value [48; 48; k_hex (Z.shiftr c 4); k_hex (Z.land c 15)] = c) as Ev.
  { unfold hex_value. cbn [fold_left]. rewrite !k_hex_value by done. change (json_hex 48) with 0. lia. }
  destruct (body_value_hex _ us Hok) as [->|(l & us' & _ & Hh & _)]; rewrite Ev in *; [|unfold high_surrogate in Hh; lia].
  unfold lone, high_surrogate, low_surrogate. rewrite (proj2 (Z.leb_gt 55296 c)), (proj2 (Z.leb_gt 56320 c)) by lia. cbn [andb orb].
  unfold utf8_bytes. by rewrite (proj2 (Z.ltb_lt c 128)) by lia.
Qed.
Lemma esc_units_spec s : bytes_ok s → Forall unit_ok (esc_units s) ∧ body_value (esc_units s) = s.
Proof.
  induction 1 as [|c s Hc _ [IH1 IH2]]; [done|]. destruct (esc_unit_ok c Hc) as [H1 H2]. cbn [esc_units map].
  split; [by constructor|]. rewrite H2. f_equal. exact IH2.
Qed.

(** ** The abstract writer *)

(** An item whose value is being written: white space before, name, white space after
    the colon (or before an element). *)
Definition begun : Type := list Z * list unit_ * list Z.
Definition begun_item (c : begun) (v : cst) (w4 : list Z) : item := let '(w1, key, w3) := c in Item w1 key [] w3 v w4.
Definition begun_text (obj : bool) (c : begun) : list Z := item_pre obj (begun_item c (CLit LNull) []).

(** A container being written: its items so far and the one begun. *)
Record frame := Frame { f_obj : bool; f_items : list item; f_cur : option begun }.
(** The open containers, the innermost first, and the finished document. *)
Record astate := Astate { a_stack : list frame; a_root : option cst }.

Inductive call :=
| Begin (obj : bool) | End (obj : bool) | Key (k : list Z) | Str (s : list Z) | StrEsc (us : list unit_)
| Int (v : Z) | Bool_ (b : bool) | Null | Frag (v : cst).

(** The value of a call that writes a whole one. *)
Definition call_value (c : call) : option cst :=
  match c with
  | Str s => Some (CStr (esc_units s)) | StrEsc us => Some (CStr us) | Int v => Some (CNum (int_number v))
  | Bool_ b => Some (CLit (if b then LTrue else LFalse)) | Null => Some (CLit LNull) | Frag v => Some v
  | _ => None
  end.
(** What the caller answers for: octets, a 64-bit integer, an escaped body, a fragment. *)
Definition call_ok (c : call) : Prop :=
  match c with
  | Key k => bytes_ok k | Str s => bytes_ok s | Int v => int64 v | StrEsc us => Forall unit_ok us | Frag v => cst_ok v
  | _ => True
  end.

Section abstract.
Context (ind : Z).

Definition depth_of (a : astate) : Z := Z.of_nat (length (a_stack a)).

(** A value may start: once at the top, behind a name, anywhere in an array. *)
Definition begin_val (a : astate) : option astate :=
  match a_stack a with
  | [] => match a_root a with None => Some a | Some _ => None end
  | f :: fs =>
      if f_obj f then match f_cur f with Some _ => Some a | None => None end
      else Some (Astate (Frame false (f_items f) (Some ([], [], nlw ind (depth_of a))) :: fs) (a_root a))
  end.
(** A value is complete. *)
Definition complete (v : cst) (a : astate) : astate :=
  match a_stack a with
  | [] => Astate [] (Some v)
  | f :: fs =>
      match f_cur f with
      | Some c => Astate (Frame (f_obj f) (f_items f ++ [begun_item c v []]) None :: fs) (a_root a)
      | None => a
      end
  end.
(** The line break before a closing bracket belongs to the last item. *)
Definition set_w4 (it : item) (w : list Z) : item := let 'Item w1 key w2 w3 v _ := it in Item w1 key w2 w3 v w.
Fixpoint close_items (items : list item) (w : list Z) : list item :=
  match items with
  | [] => []
  | it :: items => match items with [] => [set_w4 it w] | _ => it :: close_items items w end
  end.

Definition astep (a : astate) (c : call) : option astate :=
  match c with
  | Begin obj =>
      a ← begin_val a;
      if JSON_MAX_DEPTH <=? depth_of a then None else Some (Astate (Frame obj [] None :: a_stack a) (a_root a))
  | End obj =>
      match a_stack a with
      | f :: fs =>
          if Bool.eqb (f_obj f) obj && bool_decide (f_cur f = None)
          then Some (complete (CCont obj [] (close_items (f_items f) (nlw ind (Z.of_nat (length fs))))) (Astate fs (a_root a)))
          else None
      | [] => None
      end
  | Key k =>
      match a_stack a with
      | f :: fs =>
          if f_obj f && bool_decide (f_cur f = None)
          then Some (Astate (Frame true (f_items f) (Some (nlw ind (depth_of a), esc_units k, if ind =? 0 then [] else [32])) :: fs) (a_root a))
          else None
      | [] => None
      end
  | _ => a ← begin_val a; v ← call_value c; Some (complete v a)
  end.

(** *** Its text *)

Fixpoint joined (obj : bool) (items : list item) : list Z :=
  match items with
  | [] => []
  | it :: items => item_text obj it ++ match items with [] => [] | _ => 44 :: joined obj items end
  end.
Definition comma (items : list item) : list Z := match items with [] => [] | _ => [44] end.
Definition frame_text (f : frame) : list Z :=
  opening (f_obj f) :: joined (f_obj f) (f_items f) ++
  match f_cur f with None => [] | Some c => comma (f_items f) ++ begun_text (f_obj f) c end.
Fixpoint stack_text (fs : list frame) : list Z :=
  match fs with [] => [] | f :: fs => stack_text fs ++ frame_text f end.
Definition a_text (a : astate) : list Z :=
  stack_text (a_stack a) ++ match a_root a with Some v => print v | None => [] end.

(** *** Its invariant *)

Definition i_w4 (it : item) : list Z := let 'Item _ _ _ _ _ w4 := it in w4.
Definition begun_ok (obj : bool) (c : begun) : Prop :=
  let '(w1, key, w3) := c in ws_ok w1 ∧ Forall unit_ok key ∧ ws_ok w3 ∧ (obj = false → w1 = [] ∧ key = []).
Definition frame_ok (f : frame) : Prop :=
  Forall (λ it, (item_ok (f_obj f) it ∧ cst_ok (i_val it)) ∧ i_w4 it = []) (f_items f) ∧
  match f_cur f with Some c => begun_ok (f_obj f) c | None => True end.
Definition awf (a : astate) : Prop :=
  Forall frame_ok (a_stack a) ∧ depth_of a <= JSON_MAX_DEPTH ∧
  match a_stack a with
  | [] => match a_root a with Some v => cst_ok v | None => True end
  | f :: fs => a_root a = None ∧ (f_obj f = false → f_cur f = None) ∧ Forall (λ f, f_cur f ≠ None) fs
  end.

Lemma joined_snoc obj items it : joined obj (items ++ [it]) = joined obj items ++ comma items ++ item_text obj it.
Proof using.
  induction items as [|i items IH]; [cbn; by rewrite app_nil_r|]. cbn [app joined comma]. destruct items as [|i2 items].
  - cbn [app joined]. by rewrite !app_nil_r.
  - cbn [app] in *. rewrite IH. cbn [comma]. by apps.
Qed.
Lemma joined_prints obj items : items ≠ [] → prints obj items = joined obj items ++ [closing obj].
Proof using.
  induction items as [|i items IH]; [done|]. intros _. rewrite prints_cons. cbn [joined]. destruct items as [|i2 items]; [by rewrite app_nil_r|].
  rewrite IH by done. by apps.
Qed.
Lemma close_items_text obj items w : Forall (λ it, i_w4 it = []) items → items ≠ [] →
  joined obj (close_items items w) = joined obj items ++ w.
Proof using.
  induction 1 as [|it items Hw Hall IH]; [done|]. intros _. destruct items as [|i2 items].
  - destruct it as [w1 key w2 w3 v w4]. cbn in Hw. subst w4. cbn [close_items set_w4 joined item_text]. by rewrite !app_nil_r, <-app_assoc.
  - specialize (IH ltac:(done)). change (close_items (it :: i2 :: items) w) with (it :: close_items (i2 :: items) w).
    cbn [joined]. assert (∃ x xs, close_items (i2 :: items) w = x :: xs) as (x & xs & E).
    { destruct items; by do 2 eexists. }
    cbn [joined] in IH. rewrite E in *. cbn [joined] in *. rewrite IH. by apps.
Qed.
Lemma close_items_ok obj items w : ws_ok w → Forall (λ it, (item_ok obj it ∧ cst_ok (i_val it)) ∧ i_w4 it = []) items →
  Forall (λ it, item_ok obj it ∧ cst_ok (i_val it)) (close_items items w).
Proof using.
  intros Hw. induction 1 as [|it items [[Hi Hv] Hw4] Hall IH]; [constructor|]. destruct items as [|i2 items].
  - destruct it as [w1 key w2 w3 v w4]. constructor; [|constructor]. destruct Hi as (? & ? & ? & ? & ? & ?). by split.
  - change (close_items (it :: i2 :: items) w) with (it :: close_items (i2 :: items) w). by constructor.
Qed.
Lemma begun_text_spec obj c v : item_text obj (begun_item c v []) = begun_text obj c ++ print v.
Proof using. destruct c as [[w1 key] w3]. cbn [begun_item item_text]. by rewrite app_nil_r. Qed.

Lemma nlw_ok depth : ws_ok (nlw ind depth).
Proof using. unfold nlw. destruct (ind =? 0); [constructor|]. constructor; [done|]. by apply Forall_replicate. Qed.
Lemma sp_ok : ws_ok (if ind =? 0 then [] else [32]).
Proof using. by destruct (ind =? 0); repeat constructor. Qed.

(** The text of a container is that of its frame and the closing bracket. *)
Lemma close_text f w : frame_ok f → f_cur f = None →
  print (CCont (f_obj f) [] (close_items (f_items f) w)) =
    frame_text f ++ match f_items f with [] => [] | _ => w end ++ [closing (f_obj f)].
Proof using.
  intros [Hf _] Hc. rewrite print_cont. unfold frame_text. rewrite Hc, app_nil_r. destruct (f_items f) as [|it items] eqn:E; [done|].
  assert (close_items (it :: items) w ≠ []) as Hne by (destruct items; done).
  destruct (close_items (it :: items) w) as [|x xs] eqn:Ec; [done|]. rewrite joined_prints by done. rewrite <-Ec, close_items_text; [by apps| |done].
  by eapply Forall_impl; [exact Hf|intros ? [? ?]].
Qed.
End abstract.

(** A state in which a value is due. *)
Definition mid (a : astate) : Prop :=
  Forall frame_ok (a_stack a) ∧ depth_of a <= JSON_MAX_DEPTH ∧ a_root a = None ∧ Forall (λ f, f_cur f ≠ None) (a_stack a).

Lemma complete_text v a : mid a → a_text (complete v a) = a_text a ++ print v.
Proof using.
  intros (_ & _ & Hr & Hc). unfold complete, a_text. rewrite Hr, app_nil_r. destruct (a_stack a) as [|f fs]; [done|].
  apply Forall_cons_iff in Hc as [Hc _]. destruct (f_cur f) as [c|] eqn:E; [|done]. cbn [a_stack a_root stack_text].
  rewrite app_nil_r, <-app_assoc. f_equal. unfold frame_text. cbn [f_obj f_items f_cur]. rewrite E, joined_snoc, begun_text_spec.
  by apps; rewrite app_nil_r.
Qed.

Lemma complete_awf v a : mid a → cst_ok v → awf (complete v a).
Proof using.
  intros (Hf & Hd & Hr & Hc) Hv. unfold complete, awf, depth_of in *. destruct (a_stack a) as [|f fs]; [done|].
  apply Forall_cons_iff in Hc as [Hc Hcs]. apply Forall_cons_iff in Hf as [[Hi Hk] Hfs]. destruct (f_cur f) as [c|] eqn:E; [|done].
  cbn [a_stack a_root f_obj f_cur length] in *. split; [|done]. constructor; [|done]. split; [|done]. cbn [f_items f_obj].
  apply Forall_app. split; [done|]. constructor; [|constructor]. destruct c as [[w1 key] w3]. destruct Hk as (H1 & H2 & H3 & H4).
  cbn [begun_item i_val i_w4]. split; [|done]. split; [|done]. unfold item_ok.
  split; [done|]. split; [done|]. split; [constructor|]. split; [done|]. split; [constructor|]. intros Hob. destruct (H4 Hob). done.
Qed.

Section refine.
Context (ind : Z) (Hind : 0 <= ind).

Lemma begin_mid a a1 : awf a → begin_val ind a = Some a1 → mid a1.
Proof using.
  intros (Hf & Hd & Hs) Hb. unfold begin_val in Hb. destruct (a_stack a) as [|f fs] eqn:E.
  - destruct (a_root a) eqn:Er; [done|]. injection Hb as <-. unfold mid. by rewrite E.
  - destruct Hs as (Hr & Ho & Hcs). apply Forall_cons_iff in Hf as [Hf Hfs]. destruct (f_obj f) eqn:Eo.
    + destruct (f_cur f) eqn:Ec; [|done]. injection Hb as <-. unfold mid, depth_of in *. rewrite E in *. split; [by constructor|].
      split; [done|]. split; [done|]. constructor; [congruence|done].
    + injection Hb as <-. unfold mid, depth_of in *. rewrite E in *. cbn [a_stack a_root length] in *. split; [|split; [done|split; [done|by constructor]]].
      constructor; [|done]. destruct Hf as [Hi _]. rewrite Eo in Hi. split; [done|]. cbn [f_cur f_obj].
      split; [constructor|]. split; [constructor|]. split; [apply nlw_ok|done].
Qed.

(** What [pre_val] writes. *)
Definition lead_text (a : astate) : list Z :=
  match a_stack a with
  | f :: _ => if f_obj f then [] else comma (f_items f) ++ nlw ind (depth_of a)
  | [] => []
  end.
Lemma begin_text a a1 : awf a → begin_val ind a = Some a1 → a_text a1 = a_text a ++ lead_text a.
Proof using.
  intros (Hf & Hd & Hs) Hb. unfold begin_val in Hb. unfold lead_text. destruct (a_stack a) as [|f fs] eqn:E.
  - destruct (a_root a) eqn:Er; [done|]. injection Hb as <-. by rewrite app_nil_r.
  - destruct Hs as (Hr & Ho & Hcs). destruct (f_obj f) eqn:Eo.
    + destruct (f_cur f) eqn:Ec; [|done]. injection Hb as <-. by rewrite app_nil_r.
    + injection Hb as <-. unfold a_text. rewrite E. cbn [a_stack a_root stack_text]. rewrite Hr, !app_nil_r, <-app_assoc. f_equal.
      unfold frame_text. cbn [f_obj f_items f_cur]. rewrite Eo, (Ho eq_refl), app_nil_r. by apps.
Qed.

(** ** Refinement *)

Definition used (f : frame) : bool := match f_items f, f_cur f with [], None => false | _, _ => true end.
Definition st_of (f : frame) : Z := (if f_obj f then ST_OBJ else 0) + (if used f then ST_USED else 0).
Definition wants (a : astate) : bool :=
  match a_stack a with f :: _ => f_obj f && bool_decide (f_cur f ≠ None) | [] => false end.
Definition has_root (a : astate) : bool := match a_stack a, a_root a with [], None => false | _, _ => true end.

(** The fields besides the output match. *)
Definition ctl (w : json_wbuf) (a : astate) (want root : bool) : Prop :=
  w_indent w = ind ∧ w_depth w = depth_of a ∧ w_want_val w = want ∧ w_have_root w = root ∧
  ∃ rest, w_stack w = map st_of (reverse (a_stack a)) ++ rest ∧ length (w_stack w) = 32%nat.
(** The writer has not failed and holds the text. *)
Definition inv (w : json_wbuf) (a : astate) : Prop :=
  ctl w a (wants a) (has_root a) ∧ awf a ∧ w_err w = JSON_OK ∧
  ∃ m, w_buf w = Some m ∧ w_off w = mlen (a_text a) ∧ w_off w <= w_cap w <= mlen m ∧ slice m 0 (w_off w) = a_text a.

Lemma inv_out_ok w a : inv w a → out_ok w.
Proof using. intros (_ & _ & He & m & Hm & Ho & Hc & _) _. exists m. pose proof (mlen_nonneg (a_text a)). split; [done|lia]. Qed.

(** Appending to the text keeps the invariant if there is room. *)
Lemma inv_step w a bs w' a' : inv w a → wout w bs w' → a_text a' = a_text a ++ bs → ctl w' a' (wants a') (has_root a') → awf a' →
  w_cap w' = w_cap w ∧ if mlen (a_text a') <=? w_cap w then inv w' a' else w_err w' = JSON_E_OVERFLOW.
Proof using.
  intros (_ & _ & He & m & Hm & Ho & Hc & Ht) (Hcap & Hw) Ea Hctl Hwf. split; [done|]. rewrite He in Hw. change (JSON_OK =? JSON_OK) with true in Hw. cbn match in Hw.
  rewrite Ea, mlen_app, <-Ho. destruct (Z.leb_spec (w_off w + mlen bs) (w_cap w)); [|done].
  destruct Hw as (He' & Ho' & m' & Hm' & Hb'). assert (m' = m) as -> by congruence. pose proof (mlen_nonneg bs). pose proof (mlen_nonneg (a_text a)).
  split; [done|]. split; [done|]. split; [done|]. exists (splice m (w_off w) bs). split; [done|]. split; [rewrite Ho', Ea, mlen_app, Ho; done|].
  rewrite Hcap, Ho', mlen_splice by lia. split; [lia|]. rewrite slice_split by lia. rewrite Z.add_0_l, Ea. f_equal.
  - rewrite slice_splice_disj by lia. done.
  - by rewrite slice_splice_same by lia.
Qed.

Lemma st_obj f : (Z.land (st_of f) ST_OBJ =? 0) = negb (f_obj f).
Proof using. unfold st_of. by destruct (f_obj f), (used f). Qed.
Lemma st_used f : (Z.land (st_of f) ST_USED =? 0) = negb (used f).
Proof using. unfold st_of. by destruct (f_obj f), (used f). Qed.

Lemma level_spec w a f fs want root : ctl w a want root → a_stack a = f :: fs → level w = Ok (st_of f).
Proof using.
  intros (_ & Hd & _ & _ & rest & Hs & _) E. unfold level, rd. rewrite Hd, Hs. unfold depth_of. rewrite E, reverse_cons, map_app. cbn [length map].
  rewrite (proj2 (Z.ltb_ge _ 0)) by lia. rewrite <-app_assoc. cbn [app]. rewrite list_lookup_middle; [done|]. rewrite length_map, length_reverse. lia.
Qed.

(** The innermost level replaced. *)
Lemma separate_spec w a f fs want root f' : out_ok w → ctl w a want root → a_stack a = f :: fs → f_obj f' = f_obj f → used f' = true →
  ∃ w', separate w (st_of f) = Ok w' ∧ wout w ((if used f then [44] else []) ++ nlw ind (depth_of a)) w' ∧
    ctl w' (Astate (f' :: fs) (a_root a)) want root.
Proof using Hind.
  intros Ho Hctl E Hof Huf. pose proof Hctl as (Hin & Hd & Hw & Hr & rest & Hs & Hl). unfold separate. rewrite st_used, negb_involutive.
  assert (writes w (if used f then [44] else []) (if used f then put w [44] else Ok w)) as (w1 & -> & Hw1)
    by (destruct (used f); [by apply put_writes|by apply writes_nil]).
  bstep. pose proof (wrote_out_ok _ _ _ Ho Hw1) as Ho1. destruct Hw1 as [Hw1 (S1 & S2 & S3 & S4 & S5)].
  assert (Z.lor (st_of f) ST_USED = st_of f') as -> by (unfold st_of; rewrite Hof, Huf; by destruct (f_obj f), (used f)).
  assert (wr (w_stack w1) (w_depth w1 - 1) (st_of f') = Ok (map st_of (reverse (f' :: fs)) ++ rest)) as ->.
  { unfold wr. rewrite S5, S2, Hd, Hs. unfold depth_of. rewrite E, !reverse_cons, !map_app, <-!app_assoc. cbn [length map app].
    rewrite (proj2 (Z.leb_le 0 _)) by lia. unfold mlen. rewrite length_app, length_map, length_reverse, length_cons, (proj2 (Z.ltb_lt _ _)) by lia. cbn [andb].
    f_equal. rewrite insert_app_r_alt by (rewrite length_map, length_reverse; lia). rewrite length_map, length_reverse.
    by replace (Z.to_nat (Z.of_nat (S (length fs)) - 1) - length fs)%nat with 0%nat by lia. }
  bstep. set (w2 := set_stack w1 _). assert (out_ok w2) as Ho2 by exact Ho1.
  destruct (nl_writes w2 (w_depth w1) Ho2) as (w3 & Hnl & Hw3 & T1 & T2 & T3 & T4 & T5); [cbn; by rewrite S1, Hin|rewrite S2, Hd; unfold depth_of; lia|].
  exists w3. split; [done|]. split.
  - apply (wout_trans w _ w2); [done|exact Hw1|]. rewrite S2, Hd in Hw3. by replace (w_indent w2) with ind in Hw3 by (cbn; congruence).
  - unfold ctl. cbn [w_indent w_depth w_want_val w_have_root w_stack w2 set_stack] in *. rewrite T1, T2, T3, T4, T5. cbn [a_stack].
    assert (depth_of (Astate (f' :: fs) (a_root a)) = depth_of a) as -> by (unfold depth_of; by rewrite E).
    split_and!; [congruence..|]. exists rest. split; [done|]. rewrite <-Hl, Hs, E, !reverse_cons, !map_app, !length_app. done.
Qed.

Lemma used_comma f : f_cur f = None → (if used f then [44] else []) = comma (f_items f).
Proof using. unfold used, comma. intros ->. by destruct (f_items f). Qed.

Lemma fail_ok w err : w_err w = JSON_OK → fail w err = (set_err w err, err).
Proof using. intros He. unfold fail. by rewrite He. Qed.

Lemma pre_val_spec w a : inv w a →
  match begin_val ind a with
  | None => pre_val w = Ok (set_err w JSON_E_STATE, JSON_E_STATE)
  | Some a1 => ∃ w1, pre_val w = Ok (w1, JSON_OK) ∧ wout w (lead_text a) w1 ∧ ctl w1 a1 false true
  end.
Proof using Hind.
  intros Hinv. pose proof (inv_out_ok _ _ Hinv) as Ho. pose proof Hinv as (Hctl & (Hf & Hdl & Hsh) & He & _). pose proof Hctl as (Hin & Hd & Hw & Hr & Hst).
  unfold pre_val. rewrite He. change (negb (JSON_OK =? JSON_OK)) with false. cbn match. rewrite Hd, Hr.
  unfold begin_val, lead_text, wants, has_root in *. destruct (a_stack a) as [|f fs] eqn:E.
  - unfold depth_of. rewrite E. change (Z.of_nat (length []) =? 0) with true. cbn match. destruct (a_root a) as [v|] eqn:Er.
    + by rewrite fail_ok.
    + eexists. split; [done|]. split; [exact (wout_nil w Ho)|]. unfold ctl, set_root. cbn [w_indent w_depth w_want_val w_have_root w_stack].
      rewrite E. by split_and!.
  - assert ((depth_of a =? 0) = false) as -> by (apply Z.eqb_neq; unfold depth_of; rewrite E, length_cons; lia).
    rewrite (level_spec w a f fs _ _ Hctl E). bstep. rewrite st_obj, negb_involutive. destruct (f_obj f) eqn:Eo.
    + rewrite Hw. cbn [andb]. destruct (f_cur f) as [c|] eqn:Ec.
      * rewrite bool_decide_eq_true_2 by done. cbn [negb]. eexists. split; [done|]. split; [exact (wout_nil w Ho)|].
        unfold ctl, set_want. cbn [w_indent w_depth w_want_val w_have_root w_stack]. rewrite E in *. by split_and!.
      * rewrite bool_decide_eq_false_2 by congruence. cbn [negb]. by rewrite fail_ok.
    + destruct Hsh as (Hrt & Hcur & _). specialize (Hcur eq_refl).
      destruct (separate_spec w a f fs _ _ (Frame false (f_items f) (Some ([], [], nlw ind (depth_of a)))) Ho Hctl E) as (w1 & -> & Hw1 & Hctl1);
        [done|by destruct f as [? [] ?]|]. bstep. exists w1. split; [done|]. rewrite used_comma in Hw1 by done. split; [done|].
      exact Hctl1.
Qed.

(** What a call leaves when the abstract writer is then in [a']. *)
Definition outcome (w w' : json_wbuf) (a' : astate) : Prop :=
  w_cap w' = w_cap w ∧ if mlen (a_text a') <=? w_cap w then inv w' a' else w_err w' = JSON_E_OVERFLOW.
Definition refuses (w w' : json_wbuf) : Prop :=
  w_cap w' = w_cap w ∧ (w_err w' = JSON_E_STATE ∨ w_err w' = JSON_E_DEPTH ∨ w_err w' = JSON_E_OVERFLOW).
Definition result (w : json_wbuf) (a : astate) (oa : option astate) (r : res (json_wbuf * Z)) : Prop :=
  ∃ w', r = Ok (w', w_err w') ∧
    match oa with Some a' => outcome w w' a' ∧ mlen (a_text a) <= mlen (a_text a') | None => refuses w w' end.

Lemma ctl_complete w a v : ctl w a false true → mid a → ctl w (complete v a) (wants (complete v a)) (has_root (complete v a)).
Proof using.
  intros (Hin & Hd & Hw & Hr & rest & Hs & Hl) (_ & _ & Hrt & Hc). unfold ctl, complete, depth_of, wants, has_root in *.
  destruct (a_stack a) as [|f fs]; [cbn [a_stack a_root length] in *; split_and!; [done..|by exists rest]|].
  apply Forall_cons_iff in Hc as [Hc _]. destruct (f_cur f) as [c|] eqn:Ec; [|done]. cbn [a_stack f_obj f_cur length] in *.
  rewrite bool_decide_eq_false_2, andb_false_r by (intros H; by apply H). split_and!; [done..|]. exists rest. split; [|done]. rewrite Hs. rewrite !reverse_cons, !map_app.
  cbn [map]. do 3 f_equal. unfold st_of, used. cbn [f_obj f_items f_cur]. rewrite Ec. by destruct (f_items f).
Qed.

Lemma same_ctl_ctl w w' a b c : same_ctl w w' → ctl w a b c → ctl w' a b c.
Proof using. intros (S1 & S2 & S3 & S4 & S5) (C1 & C2 & C3 & C4 & C5). unfold ctl. rewrite S1, S2, S3, S4, S5. done. Qed.

Lemma put_val_spec w a v write : inv w a → cst_ok v → (∀ w1, out_ok w1 → writes w1 (print v) (write w1)) →
  result w a (a1 ← begin_val ind a; Some (complete v a1)) (put_val w write).
Proof using Hind.
  intros Hinv Hv Hwr. pose proof (inv_out_ok _ _ Hinv) as Ho. pose proof Hinv as (_ & Hwf & He & _).
  pose proof (pre_val_spec w a Hinv) as Hpre. unfold put_val, result. destruct (begin_val ind a) as [a1|] eqn:Eb; cbn [mbind option_bind].
  - destruct Hpre as (w1 & -> & Hw1 & Hc1). bstep. change (negb (JSON_OK =? JSON_OK)) with false. cbn match.
    destruct (Hwr w1) as (w2 & -> & Hw2 & Hs2); [by eapply wout_out_ok|]. bstep. exists w2. split; [done|].
    pose proof (begin_mid a a1 Hwf Eb) as Hmid. pose proof (begin_text a a1 Hwf Eb) as Ht.
    assert (a_text (complete v a1) = a_text a ++ lead_text a ++ print v) as Ect by (rewrite complete_text, Ht by done; by apps).
    split; [|rewrite Ect, mlen_app; pose proof (mlen_nonneg (lead_text a ++ print v)); lia].
    eapply inv_step; [exact Hinv|eapply wout_trans; [exact Ho|exact Hw1|exact Hw2]|exact Ect| |by apply complete_awf].
    apply ctl_complete; [|done]. by eapply same_ctl_ctl.
  - rewrite Hpre. bstep. change (negb (JSON_E_STATE =? JSON_OK)) with true. cbn match. exists (set_err w JSON_E_STATE). split; [done|]. split; [done|]. by left.
Qed.

(** *** Calls *)

Definition do_call (w : json_wbuf) (c : call) : res (json_wbuf * Z) :=
  match c with
  | Begin true => json_put_obj_begin w
  | Begin false => json_put_arr_begin w
  | End true => json_put_obj_end w
  | End false => json_put_arr_end w
  | Key k => json_put_key w (Some k) (mlen k)
  | Str s => json_put_str w (Some s) (mlen s)
  | StrEsc us => json_put_str_esc w (Some (body_text us)) (mlen (body_text us))
  | Int v => json_put_int w v
  | Bool_ b => json_put_bool w b
  | Null => json_put_null w
  | Frag v => json_put_frag w (Some (print v)) (mlen (print v))
  end.

Lemma open_spec w a obj : inv w a → result w a (astep ind a (Begin obj)) (open_container w obj).
Proof using Hind.
  intros Hinv. pose proof (inv_out_ok _ _ Hinv) as Ho. pose proof Hinv as (_ & Hwf & He & _).
  pose proof (pre_val_spec w a Hinv) as Hpre. unfold open_container, result. cbn [astep]. destruct (begin_val ind a) as [a1|] eqn:Eb; cbn [mbind option_bind].
  2: { rewrite Hpre. bstep. change (negb (JSON_E_STATE =? JSON_OK)) with true. cbn match. exists (set_err w JSON_E_STATE). split; [done|]. split; [done|]. by left. }
  destruct Hpre as (w1 & -> & Hw1 & Hc1). bstep. change (negb (JSON_OK =? JSON_OK)) with false. cbn match.
  pose proof (begin_mid a a1 Hwf Eb) as (Hm1 & Hm2 & Hm3 & Hm4). pose proof (begin_text a a1 Hwf Eb) as Ht.
  pose proof (wout_out_ok _ _ _ Ho Hw1) as Ho1. pose proof Hc1 as (Hin & Hd & Hw & Hr & rest & Hs & Hl). rewrite Hd.
  destruct (Z.leb_spec JSON_MAX_DEPTH (depth_of a1)) as [Hdep|Hdep].
  { unfold fail. destruct Hw1 as (Hcap & Hw1). rewrite He in Hw1. change (JSON_OK =? JSON_OK) with true in Hw1. cbn match in Hw1.
    destruct (w_off w + mlen (lead_text a) <=? w_cap w); [destruct Hw1 as (-> & _)|rewrite Hw1].
    - exists (set_err w1 JSON_E_DEPTH). split; [done|]. split; [done|]. by right; left.
    - exists w1. split; [done|]. split; [done|]. rewrite Hw1. by right; right. }
  destruct (put_writes w1 [opening obj] Ho1) as (w2 & E2 & Hw2 & Hs2). change (if obj then 123 else 91) with (opening obj). rewrite E2. bstep.
  pose proof (same_ctl_ctl _ _ _ _ _ Hs2 Hc1) as (Hin2 & Hd2 & Hw2' & Hr2 & rest2 & Hst2 & Hl2).
  assert (length rest2 = 32 - length (a_stack a1))%nat as Hrest by (rewrite Hst2, length_app, length_map, length_reverse in Hl2; lia).
  unfold JSON_MAX_DEPTH, depth_of in *. destruct rest2 as [|r0 rest2]; [cbn in Hrest; lia|].
  assert (wr (w_stack w2) (Z.of_nat (length (a_stack a1))) (if obj then ST_OBJ else 0) =
    Ok (map st_of (reverse (Frame obj [] None :: a_stack a1)) ++ rest2)) as Hwr.
  { unfold wr, mlen. rewrite Hl2, Hst2, (proj2 (Z.leb_le 0 _)), (proj2 (Z.ltb_lt _ _)) by lia. cbn [andb]. f_equal.
    rewrite insert_app_r_alt by (rewrite length_map, length_reverse; lia). rewrite length_map, length_reverse, Nat2Z.id, Nat.sub_diag.
    rewrite reverse_cons, map_app, <-app_assoc. cbn. by destruct obj. }
  rewrite <-Hd2 in Hwr. rewrite Hwr. bstep. eexists. split; [done|].
  set (a2 := Astate (Frame obj [] None :: a_stack a1) (a_root a1)).
  assert (a_text a2 = a_text a ++ lead_text a ++ [opening obj]) as Et.
  { rewrite app_assoc, <-Ht. unfold a_text, a2. cbn [a_stack a_root stack_text]. by rewrite Hm3, !app_nil_r. }
  split; [|rewrite Et, mlen_app; pose proof (mlen_nonneg (lead_text a ++ [opening obj])); lia].
  eapply inv_step; [exact Hinv|eapply wout_trans; [exact Ho|exact Hw1|exact Hw2]|exact Et| |].
  - unfold ctl, a2, wants, has_root, depth_of. cbn [a_stack w_indent w_depth w_want_val w_have_root w_stack set_depth set_stack f_obj f_cur length].
    rewrite bool_decide_eq_false_2, andb_false_r by (intros H; by apply H). split_and!; [done|lia|done|done|]. exists rest2. split; [done|].
    rewrite <-Hl2, Hst2, reverse_cons, map_app, !length_app. cbn. lia.
  - split; [by constructor|]. unfold a2, depth_of, JSON_MAX_DEPTH. cbn [a_stack length a_root f_cur f_obj]. split; [lia|]. done.
Qed.

Lemma close_spec w a obj : inv w a → result w a (astep ind a (End obj)) (close_container w obj).
Proof using Hind.
  intros Hinv. pose proof (inv_out_ok _ _ Hinv) as Ho. pose proof Hinv as (Hctl & (Hf & Hdl & Hsh) & He & _).
  pose proof Hctl as (Hin & Hd & Hw & Hr & rest & Hst & Hl). unfold close_container, result. cbn [astep]. rewrite He.
  change (negb (JSON_OK =? JSON_OK)) with false. cbn match. rewrite Hd, Hw.
  assert (∃ w', Ok (fail w JSON_E_STATE) = Ok (w', w_err w') ∧ refuses w w') as Hfail.
  { rewrite fail_ok by done. exists (set_err w JSON_E_STATE). split; [done|]. split; [done|]. by left. }
  destruct (a_stack a) as [|f fs] eqn:E.
  { unfold depth_of. rewrite E. exact Hfail. }
  assert ((depth_of a =? 0) = false) as -> by (apply Z.eqb_neq; unfold depth_of; rewrite E, length_cons; lia). cbn [orb].
  unfold wants. rewrite E. destruct Hsh as (Hrt & Hcur & Hcs).
  destruct (f_obj f && bool_decide (f_cur f ≠ None)) eqn:Ew.
  { apply andb_prop in Ew as [_ Hne%bool_decide_eq_true]. rewrite (bool_decide_eq_false_2 (f_cur f = None)), andb_false_r by done. exact Hfail. }
  assert (f_cur f = None) as Hc.
  { destruct (f_obj f); [|by apply Hcur]. cbn [andb] in Ew. apply bool_decide_eq_false in Ew. by destruct (f_cur f); [exfalso; apply Ew|]. }
  rewrite (bool_decide_eq_true_2 _ Hc), andb_true_r. rewrite (level_spec w a f fs _ _ Hctl E). bstep. rewrite st_obj, st_used, !negb_involutive.
  destruct (Bool.eqb (f_obj f) obj) eqn:Eq; cbn [negb]; [|exact Hfail]. apply eqb_prop in Eq as Eo.
  assert (depth_of a - 1 = Z.of_nat (length fs)) as -> by (unfold depth_of; rewrite E, length_cons; lia).
  set (w1 := set_depth w (Z.of_nat (length fs))). assert (out_ok w1) as Ho1 by exact Ho.
  assert (writes w1 (match f_items f with [] => [] | _ => nlw ind (Z.of_nat (length fs)) end) (if used f then nl w1 (w_depth w1) else Ok w1)) as (w2 & -> & Hw2 & Hs2).
  { unfold used. rewrite Hc. destruct (f_items f); [by apply writes_nil|]. replace (nlw ind (Z.of_nat (length fs))) with (nlw (w_indent w1) (w_depth w1)) by (cbn; by rewrite Hin).
    apply nl_writes; [done|cbn; lia|cbn; lia]. }
  bstep. destruct (put_writes w2 [closing obj]) as (w3 & E3 & Hw3 & Hs3); [by eapply wout_out_ok|]. change (if obj then 125 else 93) with (closing obj). rewrite E3. bstep.
  exists w3. split; [done|]. apply Forall_cons_iff in Hf as [Hff Hfs].
  set (v := CCont obj [] (close_items (f_items f) (nlw ind (Z.of_nat (length fs))))).
  assert (mid (Astate fs (a_root a))) as Hmid.
  { unfold mid, depth_of in *. cbn [a_stack a_root]. rewrite E, length_cons in Hdl. split; [done|]. split; [lia|]. done. }
  assert (cst_ok v) as Hv.
  { apply cst_ok_cont. split; [constructor|]. split; [done|]. apply close_items_ok; [apply nlw_ok|]. rewrite <-Eo. apply Hff. }
  assert (a_text (complete v (Astate fs (a_root a))) =
    a_text a ++ (match f_items f with [] => [] | _ => nlw ind (Z.of_nat (length fs)) end) ++ [closing obj]) as Et.
  { rewrite complete_text by done. unfold v. rewrite <-Eo, close_text by done. unfold a_text. cbn [a_stack a_root]. rewrite E, Hrt, !app_nil_r. cbn [stack_text].
    by rewrite <-!app_assoc. }
  split; [|rewrite Et, mlen_app; match goal with |- _ <= _ + mlen ?x => pose proof (mlen_nonneg x) end; lia].
  eapply inv_step; [exact Hinv| |exact Et| |by apply complete_awf].
  - eapply (wout_trans w _ w2); [exact Ho|exact Hw2|exact Hw3].
  - apply ctl_complete; [|done]. apply (same_ctl_ctl w2 w3); [done|]. apply (same_ctl_ctl w1 w2); [done|]. unfold ctl, w1.
    cbn [w_indent w_depth w_want_val w_have_root w_stack set_depth a_stack depth_of]. rewrite Hw, Hr. unfold has_root, wants. rewrite E, Ew.
    split_and!; [done..|]. exists (st_of f :: rest). split; [|done]. rewrite Hst, reverse_cons, map_app, <-app_assoc. done.
Qed.

Lemma key_spec w a k : inv w a → bytes_ok k → result w a (astep ind a (Key k)) (json_put_key w (Some k) (mlen k)).
Proof using Hind.
  intros Hinv Hk. pose proof (inv_out_ok _ _ Hinv) as Ho. pose proof Hinv as (Hctl & (Hf & Hdl & Hsh) & He & _).
  pose proof Hctl as (Hin & Hd & Hw & Hr & _). unfold json_put_key, pre_key, result. cbn [astep]. rewrite bool_decide_eq_false_2 by done. cbn [andb].
  rewrite He. change (negb (JSON_OK =? JSON_OK)) with false. cbn match. rewrite Hd, Hw.
  assert (∃ w', (let '(w0, rc) := fail w JSON_E_STATE in if negb (rc =? JSON_OK) then Ok (w0, rc) else
      w1 ← put_quoted w0 (Some k) (mlen k); w2 ← put w1 [58]; w3 ← (if negb (w_indent w2 =? 0) then put w2 [32] else Ok w2); Ok (done_ (set_want w3 true)))
      = Ok (w', w_err w') ∧ refuses w w') as Hfail.
  { rewrite fail_ok by done. exists (set_err w JSON_E_STATE). split; [done|]. split; [done|]. by left. }
  destruct (a_stack a) as [|f fs] eqn:E.
  { unfold depth_of. rewrite E. exact Hfail. }
  assert ((depth_of a =? 0) = false) as -> by (apply Z.eqb_neq; unfold depth_of; rewrite E, length_cons; lia).
  rewrite (level_spec w a f fs _ _ Hctl E). bstep. rewrite st_obj. unfold wants. rewrite E. destruct Hsh as (Hrt & Hcur & Hcs).
  destruct (f_obj f) eqn:Eo; cbn [andb negb orb]; [|exact Hfail]. destruct (f_cur f) as [c|] eqn:Ec.
  { rewrite (bool_decide_eq_true_2 (Some c ≠ None)) by done. rewrite bool_decide_eq_false_2 by done. exact Hfail. }
  rewrite (bool_decide_eq_false_2 (None ≠ None)) by (intros H; by apply H). rewrite bool_decide_eq_true_2 by done. clear Hfail.
  set (cur := (nlw ind (depth_of a), esc_units k, if ind =? 0 then [] else [32])). set (f' := Frame true (f_items f) (Some cur)).
  destruct (separate_spec w a f fs _ _ f' Ho Hctl E) as (w1 & -> & Hw1 & Hctl1); [done|unfold used; by destruct (f_items f)|]. bstep.
  change (negb (JSON_OK =? JSON_OK)) with false. cbn match. rewrite used_comma in Hw1 by done.
  pose proof (wout_out_ok _ _ _ Ho Hw1) as Ho1. pose proof Hctl1 as (Hin1 & _).
  assert (writes w1 ((34 :: body_text (esc_units k) ++ [34]) ++ [58] ++ (if ind =? 0 then [] else [32]))
    (w0 ← put_quoted w1 (Some k) (mlen k); w0 ← put w0 [58]; (if negb (w_indent w0 =? 0) then put w0 [32] else Ok w0))) as Hwr.
  { apply writes_bind; [done|by apply put_quoted_writes|]. intros w2 Ho2 S2. apply writes_bind; [done|by apply put_writes|]. intros w3 Ho3 S3.
    destruct S2 as (Hi2 & _). destruct S3 as (Hi3 & _). rewrite Hi3, Hi2, Hin1. destruct (ind =? 0); [by apply writes_nil|by apply put_writes]. }
  destruct Hwr as (w2 & E2 & Hw2 & Hs2).
  assert ((w0 ← put_quoted w1 (Some k) (mlen k); w0 ← put w0 [58]; w0 ← (if negb (w_indent w0 =? 0) then put w0 [32] else Ok w0); Ok (done_ (set_want w0 true)))
    = Ok (done_ (set_want w2 true))) as ->.
  { revert E2. destruct (put_quoted w1 (Some k) (mlen k)) as [x| |]; bstep; [|done|done]. destruct (put x [58]) as [y| |]; bstep; [|done|done]. by intros ->. }
  exists (set_want w2 true). split; [done|]. set (a' := Astate (f' :: fs) (a_root a)).
  assert (a_text a' = a_text a ++ (comma (f_items f) ++ nlw ind (depth_of a)) ++ (34 :: body_text (esc_units k) ++ [34]) ++ [58] ++ (if ind =? 0 then [] else [32])) as Et.
  { unfold a_text, a'. cbn [a_stack a_root]. rewrite E, Hrt, !app_nil_r. cbn [stack_text]. rewrite <-!app_assoc. f_equal. unfold frame_text, f'.
    cbn [f_obj f_items f_cur]. rewrite Eo, Ec, app_nil_r. unfold begun_text, cur. cbn [begun_item item_pre]. by apps. }
  split; [|rewrite Et, mlen_app; match goal with |- _ <= _ + mlen ?x => pose proof (mlen_nonneg x) end; lia].
  eapply inv_step; [exact Hinv|eapply wout_trans; [exact Ho|exact Hw1|exact Hw2]|exact Et| |].
  - pose proof (same_ctl_ctl _ _ _ _ _ Hs2 Hctl1) as (C1 & C2 & C3 & C4 & C5). unfold ctl. cbn [w_indent w_depth w_want_val w_have_root w_stack set_want].
    split; [done|]. split; [done|]. split; [unfold wants, a', f'; cbn [a_stack f_obj f_cur]; by rewrite bool_decide_eq_true_2|].
    split; [|done]. rewrite C4. unfold has_root. by rewrite E.
  - apply Forall_cons_iff in Hf as [[Hfi _] Hfs]. unfold awf, depth_of in *. rewrite E in Hdl. cbn [a_stack a_root f_obj f_cur length a' f'] in *.
    split; [|by split]. constructor; [|done]. split; [by rewrite Eo in Hfi|]. cbn [f_cur f_obj]. unfold cur, begun_ok.
    split; [apply nlw_ok|]. split; [by apply esc_units_spec|]. split; [apply sp_ok|done].
Qed.

Lemma value_spec w a c v : inv w a → call_ok c → call_value c = Some v →
  result w a (a1 ← begin_val ind a; Some (complete v a1)) (do_call w c).
Proof using Hind.
  intros Hinv Hc Hv. destruct c as [obj|obj|k|s|us|z|b| |fv]; try done; injection Hv as <-; cbn [do_call call_ok] in *.
  - unfold json_put_str. rewrite bool_decide_eq_false_2 by done. cbn [andb].
    apply put_val_spec; [done|by apply esc_units_spec|]. intros w1 Ho1. by apply put_quoted_writes.
  - unfold json_put_str_esc. rewrite bool_decide_eq_false_2 by done. cbn [andb]. apply put_val_spec; [done|done|]. intros w1 Ho1.
    change (print (CStr us)) with ([34] ++ body_text us ++ [34]). apply writes_bind; [done|by apply put_writes|]. intros w2 Ho2 _.
    apply writes_bind; [done| |intros; by apply put_writes]. destruct (Z.eqb_spec (mlen (body_text us)) 0) as [E0|E0].
    + destruct (body_text us) as [|x xs]; [by apply writes_nil|]. rewrite mlen_cons in E0. pose proof (mlen_nonneg xs). lia.
    + pose proof (mlen_nonneg (body_text us)). rewrite rdn_Ok by lia. bstep. rewrite slice_full by done. by apply put_writes.
  - unfold json_put_int. apply put_val_spec; [done|by apply int_number_ok|]. intros w1 Ho1. by apply put_i64_writes.
  - unfold json_put_bool. apply put_val_spec; [done|done|]. intros w1 Ho1. destruct b; by apply put_writes.
  - unfold json_put_null. apply put_val_spec; [done|done|]. intros w1 Ho1. by apply put_writes.
  - unfold json_put_frag. destruct (print_head fv Hc) as (x & xs & Ex & _). pose proof (mlen_nonneg xs).
    rewrite (proj2 (Z.eqb_neq _ 0)) by (rewrite Ex, mlen_cons; lia). apply put_val_spec; [done|done|]. intros w1 Ho1.
    rewrite rdn_Ok by (pose proof (mlen_nonneg (print fv)); lia). bstep. rewrite slice_full by done. by apply put_writes.
Qed.

(** Every call refines the abstract step. *)
Lemma call_spec w a c : inv w a → call_ok c → result w a (astep ind a c) (do_call w c).
Proof using Hind.
  intros Hinv Hc. destruct c as [obj|obj|k|s|us|z|b| |v]; try (eapply (value_spec w a _ _ Hinv Hc); reflexivity).
  - pose proof (open_spec w a obj Hinv) as H. by destruct obj.
  - pose proof (close_spec w a obj Hinv) as H. by destruct obj.
  - by apply key_spec.
Qed.

(** A writer that has failed stays as it is and repeats its error. *)
Lemma failed_call w c : w_err w ≠ JSON_OK → call_ok c → do_call w c = Ok (w, w_err w).
Proof using.
  intros He Hc. pose proof (proj2 (Z.eqb_neq _ _) He) as Hne. destruct c as [[]|[]|k|s|us|z|b| |v]; cbn [do_call];
    unfold json_put_obj_begin, json_put_arr_begin, json_put_obj_end, json_put_arr_end, json_put_key, json_put_str, json_put_str_esc, json_put_int,
      json_put_bool, json_put_null, json_put_frag, open_container, close_container, put_val, pre_val, pre_key;
    rewrite ?bool_decide_eq_false_2 by done; cbn [andb]; rewrite Hne; cbn [negb]; bstep; rewrite ?Hne; cbn [negb]; try done.
  destruct (print_head v Hc) as (x & xs & Ex & _). pose proof (mlen_nonneg xs).
  rewrite (proj2 (Z.eqb_neq _ 0)) by (rewrite Ex, mlen_cons; lia). done.
Qed.
End refine.

End JsonBuild.
