(* ===== verification/JsonRound.v ===== *)
(** * JsonRound: documents written and parsed again

    The theorems on whole runs of the JSON writer: every sequence of calls refines the
    abstract writer of JsonBuild, so a length from [json_end] vouches for a JSON text;
    and a value written call by call is accepted by [json_parse] and denotes the value
    that was written. *)

From S2P Require Import Prelude Endian SmsIntl SmsText JsonStr JsonParse JsonGrammar JsonSound JsonNav JsonNum JsonWrite JsonBuild.

Module JsonRound.
Import JsonStr JsonParse JsonGrammar JsonSound JsonNav JsonNum JsonWrite JsonBuild.

Fixpoint run (w : json_wbuf) (cs : list call) : res json_wbuf :=
  match cs with [] => Ok w | c :: cs => '(w, _) ← do_call w c; run w cs end.
Fixpoint arun (ind : Z) (a : astate) (cs : list call) : option astate :=
  match cs with [] => Some a | c :: cs => a ← astep ind a c; arun ind a cs end.

(** A fresh writer on [m], indented by [spaces]. *)
Definition fresh (m : mem) (cap spaces : Z) : json_wbuf := json_wbuf_indent (json_wbuf_init (Some m) cap) spaces.
Definition start : astate := Astate [] None.
Definition room_of (cap : Z) : Z := if 2147483647 <? cap then 2147483647 else cap.
Definition indent_of (spaces : Z) : Z := if 8 <? spaces then 8 else spaces.

Lemma fresh_inv m cap spaces : 0 <= cap <= mlen m → 0 <= spaces →
  inv (indent_of spaces) (fresh m cap spaces) start ∧ w_cap (fresh m cap spaces) = room_of cap ∧ 0 <= indent_of spaces.
Proof.
  intros Hc Hs. unfold fresh, json_wbuf_init, json_wbuf_indent, room_of, indent_of. cbn [w_cap]. split; [|split; [done|destruct (Z.ltb_spec 8 spaces); lia]].
  split; [|split; [|split; [done|]]].
  - unfold ctl, start, wants, has_root, depth_of. cbn [a_stack a_root w_indent w_depth w_want_val w_have_root w_stack length]. split_and!; [done..|]. by exists (replicate 32 0).
  - by split.
  - exists m. cbn [w_buf w_off w_cap]. split; [done|]. split; [done|]. split; [|done]. destruct (Z.ltb_spec 2147483647 cap); lia.
Qed.

Section runs.
Context (ind : Z) (Hind : 0 <= ind).

Lemma run_failed cs : ∀ w, w_err w ≠ JSON_OK → Forall call_ok cs → run w cs = Ok w.
Proof using.
  induction cs as [|c cs IH]; intros w He Hc; [done|]. apply Forall_cons_iff in Hc as [Hc Hcs]. cbn [run].
  rewrite (failed_call w c He Hc). bstep. by apply IH.
Qed.

(** For every abstract state there is a writer of any size that holds its text. *)
Lemma inv_exists a cap : awf a → mlen (a_text a) <= cap → ∃ w, inv ind w a ∧ w_cap w = cap.
Proof using.
  intros Hwf Hc. pose proof (mlen_nonneg (a_text a)). pose proof Hwf as (_ & Hd & _). unfold JSON_MAX_DEPTH, depth_of in Hd.
  exists (Wbuf (Some (a_text a ++ replicate (Z.to_nat cap) 0)) cap (mlen (a_text a)) JSON_OK ind (depth_of a) (wants a) (has_root a)
    (map st_of (reverse (a_stack a)) ++ replicate (32 - length (a_stack a)) 0)). split; [|done].
  split; [|split; [done|split; [done|]]].
  - unfold ctl. cbn [w_indent w_depth w_want_val w_have_root w_stack]. split_and!; [done..|]. eexists. split; [done|].
    rewrite length_app, length_map, length_reverse, length_replicate. lia.
  - eexists. cbn [w_buf w_off w_cap]. split; [done|]. split; [done|]. split.
    + split; [done|]. rewrite mlen_app. unfold mlen at 2. rewrite length_replicate. lia.
    + rewrite slice_app_l by lia. by apply slice_full.
Qed.

(** The text only grows. *)
Lemma astep_grows a c a' : awf a → call_ok c → astep ind a c = Some a' → awf a' ∧ mlen (a_text a) <= mlen (a_text a').
Proof using Hind.
  intros Hwf Hc Ha. destruct (inv_exists a (Z.max (mlen (a_text a)) (mlen (a_text a')))) as (w & Hinv & Hcap); [done|lia|].
  destruct (call_spec ind Hind w a c Hinv Hc) as (w' & _ & Hres). rewrite Ha in Hres. destruct Hres as ((_ & Hout) & Hg). split; [|done].
  rewrite (proj2 (Z.leb_le _ _)) in Hout by lia. apply Hout.
Qed.
Lemma arun_grows cs : ∀ a a', awf a → Forall call_ok cs → arun ind a cs = Some a' → awf a' ∧ mlen (a_text a) <= mlen (a_text a').
Proof using Hind.
  induction cs as [|c cs IH]; intros a a' Hwf Hc Hr; [injection Hr as <-; split; [done|lia]|]. apply Forall_cons_iff in Hc as [Hc Hcs]. cbn [arun] in Hr.
  destruct (astep ind a c) as [a1|] eqn:Ea; [|done]. destruct (astep_grows a c a1 Hwf Hc Ea) as [Hwf1 Hg1].
  destruct (IH a1 a' Hwf1 Hcs Hr) as [Hwf' Hg']. split; [done|lia].
Qed.

(** A run of the writer follows the abstract one while there is room and no misuse,
    and has failed otherwise. *)
Lemma run_spec cs : ∀ w a, inv ind w a → Forall call_ok cs → ∃ w', run w cs = Ok w' ∧ w_cap w' = w_cap w ∧
  match arun ind a cs with
  | Some a' => if mlen (a_text a') <=? w_cap w then inv ind w' a' else w_err w' < 0
  | None => w_err w' < 0
  end.
Proof using Hind.
  induction cs as [|c cs IH]; intros w a Hinv Hc.
  - exists w. split; [done|]. split; [done|]. cbn [arun]. pose proof Hinv as (_ & _ & _ & m & _ & Ho & Hb & _). by rewrite (proj2 (Z.leb_le _ _)) by lia.
  - apply Forall_cons_iff in Hc as [Hc Hcs]. cbn [arun run]. pose proof Hinv as (_ & Hwf & _).
    destruct (call_spec ind Hind w a c Hinv Hc) as (w1 & -> & Hres). bstep.
    assert (w_err w1 < 0 → w_cap w1 = w_cap w → ∃ w', run w1 cs = Ok w' ∧ w_cap w' = w_cap w ∧ w_err w' < 0) as Hfail.
    { intros He Hcap. exists w1. split; [|done]. apply run_failed; [|done]. unfold JSON_OK. lia. }
    destruct (astep ind a c) as [a1|] eqn:Ea; cbn [mbind option_bind].
    + destruct Hres as ((Hcap & Hout) & _). destruct (astep_grows a c a1 Hwf Hc Ea) as [Hwf1 _].
      destruct (Z.leb_spec (mlen (a_text a1)) (w_cap w)) as [Hle|Hgt].
      * destruct (IH w1 a1 Hout Hcs) as (w' & -> & Hc' & Hm). rewrite Hcap in *. by exists w'.
      * destruct Hfail as (w' & E' & Hc' & He'); [rewrite Hout; done|done|]. exists w'. split; [done|]. split; [done|].
        destruct (arun ind a1 cs) as [a'|] eqn:Er; [|done]. destruct (arun_grows cs a1 a' Hwf1 Hcs Er). by rewrite (proj2 (Z.leb_gt _ _)) by lia.
    + destruct Hres as (Hcap & He). apply Hfail; [by destruct He as [->|[->| ->]]|done].
Qed.
End runs.

(** C9: The JSON writer against its abstract machine.  Whatever calls are made, with
    whatever buffer and indentation, nothing is written outside the buffer, and
    [json_end] returns a length exactly when every call was in order, every container
    closed, and the text fits; the buffer then holds the text of the syntax tree the
    calls built, which is well formed, so the punctuation, escaping and indentation can
    never produce a text that is not JSON.  Otherwise it returns a negative code. *)
Theorem json_writer_refines m cap spaces cs : 0 <= cap <= mlen m → 0 <= spaces → Forall call_ok cs →
  ∃ w w' n, run (fresh m cap spaces) cs = Ok w ∧ json_end w = (w', n) ∧
    ((∃ v m', arun (indent_of spaces) start cs = Some (Astate [] (Some v)) ∧ cst_ok v ∧ n = mlen (print v) ∧ n <= room_of cap ∧
        w_buf w' = Some m' ∧ slice m' 0 n = print v) ∨
     (n < 0 ∧ ∀ v, arun (indent_of spaces) start cs = Some (Astate [] (Some v)) → room_of cap < mlen (print v))).
Proof.
  intros Hc Hs Hcs. destruct (fresh_inv m cap spaces Hc Hs) as (Hinv & Hroom & Hi).
  destruct (run_spec (indent_of spaces) Hi cs _ _ Hinv Hcs) as (w & -> & Hcap & Hm). rewrite Hroom in *.
  assert (∀ w, w_err w < 0 → json_end w = (w, w_err w)) as Hneg.
  { intros w0 He. unfold json_end. by rewrite (proj2 (Z.eqb_neq _ _)) by (unfold JSON_OK; lia). }
  destruct (arun (indent_of spaces) start cs) as [a|] eqn:Ea.
  2: { exists w, w, (w_err w). split; [done|]. split; [by apply Hneg|]. right. by split. }
  destruct (Z.leb_spec (mlen (a_text a)) (room_of cap)) as [Hle|Hgt].
  - destruct Hm as ((Hin & Hd & Hw & Hr & _) & Hwf & He & m' & Hm' & Ho & Hb & Ht). exists w. unfold json_end. rewrite He, Hd, Hr. cbn [negb JSON_OK Z.eqb].
    destruct a as [[|f fs] [v|]]; unfold depth_of, has_root; cbn [a_stack a_root length Z.of_nat Z.eqb negb orb]; cbn [a_text a_stack a_root stack_text app] in *.
    + exists w, (w_off w). split; [done|]. split; [done|]. left. exists v, m'. split; [done|]. split; [apply Hwf|]. split; [done|]. split; [lia|]. split; [done|congruence].
    + rewrite (fail_ok w _ He). do 2 eexists. split; [done|]. split; [done|]. right. by split.
    + destruct Hwf as (_ & _ & H & _). done.
    + rewrite (fail_ok w _ He). do 2 eexists. split; [done|]. split; [done|]. right. by split.
  - exists w, w, (w_err w). split; [done|]. split; [by apply Hneg|]. right. split; [done|]. intros v E. injection E as ->. exact Hgt.
Qed.
(** ** Values *)

Inductive jval := JNull | JBool (b : bool) | JInt (z : Z) | JStr (s : list Z) | JArr (l : list jval) | JObj (l : list (list Z * jval)).

Section jval_ind.
Context (P : jval → Prop) (HN : P JNull) (HB : ∀ b, P (JBool b)) (HI : ∀ z, P (JInt z)) (HS : ∀ s, P (JStr s)).
Context (HA : ∀ l, Forall P l → P (JArr l)) (HO : ∀ l, Forall (λ kv, P kv.2) l → P (JObj l)).
Fixpoint jval_ind' (v : jval) : P v :=
  match v with
  | JNull => HN | JBool b => HB b | JInt z => HI z | JStr s => HS s
  | JArr l => HA l ((fix go l : Forall P l := match l with [] => Forall_nil_2 _ | v :: l => Forall_cons_2 _ _ _ (jval_ind' v) (go l) end) l)
  | JObj l =>
      HO l ((fix go l : Forall (λ kv, P kv.2) l :=
               match l with [] => Forall_nil_2 _ | kv :: l => Forall_cons_2 (λ kv, P kv.2) kv l (jval_ind' kv.2) (go l) end) l)
  end.
End jval_ind.

(** The calls that write a value. *)
Fixpoint emit (v : jval) : list call :=
  match v with
  | JNull => [Null] | JBool b => [Bool_ b] | JInt z => [Int z] | JStr s => [Str s]
  | JArr l => Begin false :: concat (map emit l) ++ [End false]
  | JObj l => Begin true :: concat (map (λ kv, Key kv.1 :: emit kv.2) l) ++ [End true]
  end.
(** Octet strings and 64-bit integers. *)
Fixpoint jval_ok (v : jval) : Prop :=
  match v with
  | JStr s => bytes_ok s | JInt z => int64 z
  | JArr l => (fix go l := match l with [] => True | v :: l => jval_ok v ∧ go l end) l
  | JObj l => (fix go l := match l with [] => True | kv :: l => (bytes_ok kv.1 ∧ jval_ok kv.2) ∧ go l end) l
  | _ => True
  end.
Lemma jval_ok_arr l : jval_ok (JArr l) ↔ Forall jval_ok l.
Proof. cbn [jval_ok]. induction l as [|v l IH]; [done|]. by rewrite Forall_cons, <-IH. Qed.
Lemma jval_ok_obj l : jval_ok (JObj l) ↔ Forall (λ kv, bytes_ok kv.1 ∧ jval_ok kv.2) l.
Proof. cbn [jval_ok]. induction l as [|v l IH]; [done|]. by rewrite Forall_cons, <-IH. Qed.

(** The value a syntax tree stands for. *)
Inductive denotes : cst → jval → Prop :=
| D_null : denotes (CLit LNull) JNull
| D_true : denotes (CLit LTrue) (JBool true)
| D_false : denotes (CLit LFalse) (JBool false)
| D_int n : num_isint n = true → denotes (CNum n) (JInt (num_int n))
| D_str us : denotes (CStr us) (JStr (body_value us))
| D_arr w items vs : Forall2 (λ it v, denotes (i_val it) v) items vs → denotes (CCont false w items) (JArr vs)
| D_obj w items kvs : Forall2 (λ it kv, kv.1 = body_value (i_key it) ∧ denotes (i_val it) kv.2) items kvs →
    denotes (CCont true w items) (JObj kvs).

Section trees.
Context (ind : Z).

(** The tree the writer builds for a value under [d] open containers. *)
Fixpoint tree (d : Z) (v : jval) : cst :=
  match v with
  | JNull => CLit LNull | JBool b => CLit (if b then LTrue else LFalse) | JInt z => CNum (int_number z) | JStr s => CStr (esc_units s)
  | JArr l => CCont false [] (close_items (map (λ v, Item [] [] [] (nlw ind (d + 1)) (tree (d + 1) v) []) l) (nlw ind d))
  | JObj l =>
      CCont true [] (close_items (map (λ kv, Item (nlw ind (d + 1)) (esc_units kv.1) [] (if ind =? 0 then [] else [32]) (tree (d + 1) kv.2) []) l) (nlw ind d))
  end.
(** Open containers a value needs. *)
Fixpoint opens (v : jval) : Z :=
  match v with
  | JArr l => 1 + (fix go l := match l with [] => 0 | v :: l => Z.max (opens v) (go l) end) l
  | JObj l => 1 + (fix go l := match l with [] => 0 | kv :: l => Z.max (opens kv.2) (go l) end) l
  | _ => 0
  end.

Lemma close_items_rel {B} (R : item → B → Prop) items l w : (∀ it b, R it b → R (set_w4 it w) b) → Forall2 R items l → Forall2 R (close_items items w) l.
Proof using.
  intros HR. induction 1 as [|it b items l Hr Hall IH]; [constructor|]. cbn [close_items]. destruct items as [|i2 items].
  - inversion Hall; subst. constructor; [by apply HR|constructor].
  - by constructor.
Qed.

Lemma tree_denotes v : jval_ok v → ∀ d, denotes (tree d v) v.
Proof using.
  induction v as [|b|z|s|l IH|l IH] using jval_ind'; intros Hok d; cbn [tree].
  - constructor.
  - destruct b; constructor.
  - destruct (int_number_ok z Hok) as (_ & E & Hi). rewrite <-E at 2. by constructor.
  - destruct (esc_units_spec s Hok) as [_ E]. rewrite <-E at 2. constructor.
  - apply jval_ok_arr in Hok. constructor. apply close_items_rel; [by intros [] ?|].
    induction IH as [|v l Hv _ IHl]; [constructor|]. apply Forall_cons_iff in Hok as [Hvo Hok]. constructor; [by apply Hv|by apply IHl].
  - apply jval_ok_obj in Hok. constructor. apply close_items_rel; [by intros [] ?|].
    induction IH as [|kv l Hv _ IHl]; [constructor|]. apply Forall_cons_iff in Hok as [[Hk Hvo] Hok]. constructor; [|by apply IHl].
    cbn [i_key i_val]. split; [|by apply Hv]. by destruct (esc_units_spec _ Hk) as [_ ->].
Qed.

Lemma emit_ok v : jval_ok v → Forall call_ok (emit v).
Proof using.
  induction v as [|b|z|s|l IH|l IH] using jval_ind'; intros Hok; cbn [emit]; try (constructor; [done|constructor]; fail).
  - apply jval_ok_arr in Hok. constructor; [done|]. apply Forall_app. split; [|by repeat constructor].
    induction IH as [|v l Hv _ IHl]; [constructor|]. apply Forall_cons_iff in Hok as [Hvo Hok]. cbn [map concat]. apply Forall_app. auto.
  - apply jval_ok_obj in Hok. constructor; [done|]. apply Forall_app. split; [|by repeat constructor].
    induction IH as [|kv l Hv _ IHl]; [constructor|]. apply Forall_cons_iff in Hok as [[Hk Hvo] Hok]. cbn [map concat].
    apply Forall_app. split; [|by apply IHl]. constructor; [done|by apply Hv].
Qed.

Lemma arun_app cs1 : ∀ a cs2, arun ind a (cs1 ++ cs2) = (a1 ← arun ind a cs1; arun ind a1 cs2).
Proof using. induction cs1 as [|c cs1 IH]; intros a cs2; [done|]. cbn [app arun]. destruct (astep ind a c); [|done]. apply IH. Qed.

(** Writing a value where one is due completes its tree. *)
Definition emits (v : jval) : Prop := ∀ a a1, begin_val ind a = Some a1 → depth_of a + opens v <= JSON_MAX_DEPTH →
  arun ind a (emit v) = Some (complete (tree (depth_of a) v) a1).

Lemma begin_depth a a1 : begin_val ind a = Some a1 → depth_of a1 = depth_of a.
Proof using.
  unfold begin_val, depth_of. destruct (a_stack a) as [|f fs] eqn:E; [destruct (a_root a); [done|]; intros [= <-]; by rewrite E|].
  destruct (f_obj f); [destruct (f_cur f); [|done]; intros [= <-]; by rewrite E|]. intros [= <-]. done.
Qed.

Lemma arr_elems l : Forall emits l → ∀ fs rt items, Z.of_nat (S (length fs)) + (fix go l := match l with [] => 0 | v :: l => Z.max (opens v) (go l) end) l <= JSON_MAX_DEPTH →
  arun ind (Astate (Frame false items None :: fs) rt) (concat (map emit l)) =
    Some (Astate (Frame false (items ++ map (λ v, Item [] [] [] (nlw ind (Z.of_nat (length fs) + 1)) (tree (Z.of_nat (length fs) + 1) v) []) l) None :: fs) rt).
Proof using.
  induction 1 as [|v l Hv _ IH]; intros fs rt items Hd; cbn [map concat]; [by rewrite app_nil_r|]. rewrite arun_app.
  erewrite Hv; [|done|unfold depth_of; cbn [a_stack length]; lia]. cbn [mbind option_bind complete a_stack f_cur f_obj f_items a_root begun_item].
  rewrite IH by lia. unfold depth_of. cbn [a_stack length]. rewrite Nat2Z.inj_succ, <-Z.add_1_r, <-app_assoc. done.
Qed.
Lemma obj_members l : Forall (λ kv, emits kv.2) l → ∀ fs rt items, Z.of_nat (S (length fs)) + (fix go l := match l with [] => 0 | kv :: l => Z.max (opens kv.2) (go l) end) l <= JSON_MAX_DEPTH →
  arun ind (Astate (Frame true items None :: fs) rt) (concat (map (λ kv, Key kv.1 :: emit kv.2) l)) =
    Some (Astate (Frame true (items ++ map (λ kv, Item (nlw ind (Z.of_nat (length fs) + 1)) (esc_units kv.1) [] (if ind =? 0 then [] else [32])
      (tree (Z.of_nat (length fs) + 1) kv.2) []) l) None :: fs) rt).
Proof using.
  induction 1 as [|[k v] l Hv _ IH]; intros fs rt items Hd; cbn [map concat]; [by rewrite app_nil_r|]. cbn [app arun astep a_stack f_obj f_cur andb fst snd] in *.
  rewrite bool_decide_eq_true_2 by done. cbn [mbind option_bind f_items a_root]. rewrite arun_app.
  erewrite Hv; [|done|unfold depth_of; cbn [a_stack length]; lia]. cbn [mbind option_bind complete a_stack f_cur f_obj f_items a_root begun_item].
  rewrite IH by lia. unfold depth_of. cbn [a_stack length]. rewrite Nat2Z.inj_succ, <-Z.add_1_r, <-app_assoc. done.
Qed.

Lemma emit_spec v : emits v.
Proof using.
  induction v as [|b|z|s|l IH|l IH] using jval_ind'; intros a a1 Hb Hd; cbn [emit arun astep]; try (rewrite Hb; done).
  - rewrite Hb. cbn [mbind option_bind]. rewrite (begin_depth _ _ Hb). cbn [opens] in Hd.
    match type of Hd with context [?f l] => assert (0 <= f l) by (clear; induction l; [done|]; lia) end.
    rewrite (proj2 (Z.leb_gt _ _)) by lia. cbn [mbind option_bind]. rewrite arun_app. pose proof (begin_depth _ _ Hb) as Ed. unfold depth_of in Ed, Hd |- *.
    rewrite arr_elems by (done || lia). cbn [app mbind option_bind arun astep a_stack f_obj f_cur f_items Bool.eqb andb a_root].
    rewrite bool_decide_eq_true_2 by done. cbn [mbind option_bind]. rewrite Ed. by destruct a1.
  - rewrite Hb. cbn [mbind option_bind]. rewrite (begin_depth _ _ Hb). cbn [opens] in Hd.
    match type of Hd with context [?f l] => assert (0 <= f l) by (clear; induction l; [done|]; lia) end.
    rewrite (proj2 (Z.leb_gt _ _)) by lia. cbn [mbind option_bind]. rewrite arun_app. pose proof (begin_depth _ _ Hb) as Ed. unfold depth_of in Ed, Hd |- *.
    rewrite obj_members by (done || lia). cbn [app mbind option_bind arun astep a_stack f_obj f_cur f_items Bool.eqb andb a_root].
    rewrite bool_decide_eq_true_2 by done. cbn [mbind option_bind]. rewrite Ed. by destruct a1.
Qed.

Lemma nestings_close items w : nestings (close_items items w) = nestings items.
Proof using.
  induction items as [|it items IH]; [done|]. cbn [close_items]. destruct items as [|i2 items]; [by destruct it|].
  by rewrite !(nestings_cons it), IH.
Qed.
Lemma opens_nesting v : ∀ d, opens v <= nesting (tree d v).
Proof using.
  induction v as [|b|z|s|l IH|l IH] using jval_ind'; intros d; cbn [tree opens]; [cbn; lia..| |];
    rewrite nesting_cont, nestings_close; apply Zplus_le_compat_l;
    induction IH as [|v l Hv _ IHl]; [done| |done|]; cbn [map]; rewrite nestings_cons; cbn [i_val]; specialize (Hv (d + 1)); lia.
Qed.
End trees.

(** C10: Written and parsed again.  A value of null, booleans, 64-bit integers, octet
    strings, arrays and objects, written call by call with any indentation into a
    buffer its text fits, ends in the length of that text, and [json_parse] accepts the
    text, leaving the nodes of a syntax tree that denotes the value: every string with
    its escapes expanded, every integer, every member name in order.  The bounds are
    the nesting the parser allows and a pool of one node per value. *)
Theorem json_write_parse_roundtrip v m cap spaces d nodes : let t := tree (indent_of spaces) 0 v in
  jval_ok v → 0 <= cap <= mlen m → 0 <= spaces → mlen (print t) <= room_of cap → nesting t <= JSON_MAX_DEPTH →
  d_nodes d = Some nodes → 0 < d_cap d < 4294967296 → d_cap d <= Z.of_nat (length nodes) → Z.of_nat (size t) <= d_cap d →
  ∃ w m', run (fresh m cap spaces) (emit v) = Ok w ∧ json_end w = (w, mlen (print t)) ∧ w_buf w = Some m' ∧
    json_parse (Some d) (Some m') (mlen (print t)) = Ok (Some (doc_of d nodes m' (mlen (print t)) false [] t), JSON_OK) ∧ denotes t v.
Proof.
  intros t Hok Hc Hs Hfit Hn Hnodes Hcap Hroom Hsize. destruct (fresh_inv m cap spaces Hc Hs) as (Hinv & Hrm & Hi).
  assert (arun (indent_of spaces) start (emit v) = Some (Astate [] (Some t))) as Ha.
  { pose proof (opens_nesting (indent_of spaces) v 0). rewrite (emit_spec _ v start start); [done|done|]. unfold depth_of. cbn [start a_stack length]. unfold t in Hn. lia. }
  destruct (run_spec (indent_of spaces) Hi (emit v) _ _ Hinv (emit_ok v Hok)) as (w & -> & _ & Hm). rewrite Ha, Hrm in Hm.
  cbn [a_text a_stack a_root stack_text app] in Hm. rewrite (proj2 (Z.leb_le _ _)) in Hm by done.
  destruct Hm as ((_ & Hd & _ & Hr & _) & (_ & _ & Hcst) & He & m' & Hm' & Ho & Hb & Ht). cbn [a_text a_stack a_root stack_text app] in *.
  exists w, m'. split; [done|]. split.
  { unfold json_end. by rewrite He, Hd, Hr, Ho. }
  split; [done|]. split; [|by apply tree_denotes]. rewrite Ho in Ht. pose proof (mlen_nonneg (print t)).
  assert (mlen (print t) <= 2147483647) as Hsmall by (unfold room_of in Hfit; destruct (Z.ltb_spec 2147483647 cap); lia).
  apply (json_parse_accepts d nodes m' (mlen (print t))) with (w2 := []); [done|done|done|lia|done|].
  split; [constructor|]. split; [done|]. split; [constructor|]. unfold doc_text. cbn [bom_text app]. rewrite app_nil_r.
  split; [done|]. split; [|done]. split; [lia|]. split; [lia|done].
Qed.

(** *** Witnesses *)

(** {"a":[1,-20],"b":"x\ny"} *)
Definition demo_val : jval := JObj [([97], JArr [JInt 1; JInt (-20)]); ([98], JStr [120; 10; 121])].

Lemma json_writer_refines_witness : ∃ w w' n, run (fresh (zeros 64) 64 2) (emit demo_val) = Ok w ∧ json_end w = (w', n) ∧
  ((∃ v m', arun 2 start (emit demo_val) = Some (Astate [] (Some v)) ∧ cst_ok v ∧ n = mlen (print v) ∧ n <= 64 ∧
      w_buf w' = Some m' ∧ slice m' 0 n = print v) ∨
   (n < 0 ∧ ∀ v, arun 2 start (emit demo_val) = Some (Astate [] (Some v)) → 64 < mlen (print v))).
Proof.
  apply (json_writer_refines (zeros 64) 64 2); [done|done|]. apply emit_ok. cbn. unfold int64, INT64_MIN, INT64_MAX, bytes_ok.
  repeat (split || constructor || lia).
Defined.

Lemma json_write_parse_roundtrip_witness : ∃ w m', run (fresh (zeros 64) 64 0) (emit demo_val) = Ok w ∧ json_end w = (w, 24) ∧ w_buf w = Some m' ∧
  json_parse (Some demo_doc) (Some m') 24 = Ok (Some (doc_of demo_doc (replicate 8 zero_node) m' 24 false [] (tree 0 0 demo_val)), JSON_OK) ∧
  denotes (tree 0 0 demo_val) demo_val.
Proof.
  apply (json_write_parse_roundtrip demo_val (zeros 64) 64 0 demo_doc (replicate 8 zero_node)); try (vm_compute; split; congruence); try (vm_compute; congruence).
  cbn. unfold int64, INT64_MIN, INT64_MAX, bytes_ok. repeat (split || constructor || lia).
Defined.

(** The writer counts open containers and the parser values: thirty-two arrays around a
    number are written and not read back. *)
Definition deep_calls : list call := replicate 32 (Begin false) ++ [Int 7] ++ replicate 32 (End false).
Lemma json_depth_asymmetry : ∃ w m', run (fresh (zeros 80) 80 0) deep_calls = Ok w ∧ json_end w = (w, 65) ∧ w_buf w = Some m' ∧
  ∃ d, json_parse (Some (json_doc_init (Some (replicate 40 zero_node)) 40)) (Some m') 65 = Ok (d, JSON_E_DEPTH).
Proof.
  eexists _, _. split; [vm_compute; reflexivity|]. split; [vm_compute; reflexivity|]. split; [reflexivity|]. eexists. vm_compute. reflexivity.
Qed.

End JsonRound.
