(* ===== verification/GtpuKern.v ===== *)
(** * GtpuKern: the GTP-U datapath

    Models the two traffic-control programs of [gtp/u/bpf/gtpu_kern.c] over the maps and
    records of [gtp/u/inc/gtpu_abi.h]: decapsulation of G-PDUs on ingress and
    classification and encapsulation on egress.

    A frame is the list of its octets, of which the first [sk_lin] can be read through
    packet pointers; a direct read past them is [Ub].  The kernel is a parameter: [env]
    holds what it may answer (whether the ring buffer has room, whether it grows,
    shrinks or writes the frame, the route and neighbour, which remembered fragments it
    evicts, what new room holds), and [csum_diff] the sum of [bpf_csum_diff].  A hash map
    is its lookup function, a longest-prefix trie the list of its entries.  Ports and
    addresses in network order are the number they stand for and octet lists; [le] is
    the byte order of the host, which the checksums meet. *)

From S2P Require Import Prelude Endian.

Module GtpuKern.

Definition AF_INET : Z := 2.
Definition AF_INET6 : Z := 10.
Definition ETH_HLEN : Z := 14.
Definition ETH_P_IP : Z := 2048.
Definition ETH_P_IPV6 : Z := 34525.
Definition IPPROTO_TCP : Z := 6.
Definition IPPROTO_UDP : Z := 17.
Definition IPPROTO_FRAGMENT : Z := 44.
Definition IPPROTO_SCTP : Z := 132.

Definition GTPU_ABI_VERSION : Z := 2.
Definition GTPU_PORT : Z := 2152.
Definition GTPU_MT_END_MARKER : Z := 254.
Definition GTPU_MT_GPDU : Z := 255.
Definition GTPU_F_VERSION_PT : Z := 48.
Definition GTPU_F_EXT : Z := 4.
Definition GTPU_F_SEQ : Z := 2.
Definition GTPU_F_NPDU : Z := 1.
Definition GTPU_HDR_MIN : Z := 8.
Definition GTPU_HDR_OPT : Z := 4.
Definition GTPU_EXT_NONE : Z := 0.
Definition GTPU_EXT_PDU_SESSION : Z := 133.
Definition GTPU_EXT_MAX_HOPS : nat := 5.
Definition GTPU_STATS_MASK : Z := 4095.
Definition GTPU_TXF_STATIC_MAC : Z := 1.
Definition GTPU_TXF_QFI : Z := 2.

Definition GTPU_EV_UNKNOWN_TEID : Z := 1.
Definition GTPU_EV_END_MARKER : Z := 2.
Definition GTPU_EV_MALFORMED : Z := 3.
Definition GTPU_EV_ABI_MISMATCH : Z := 4.

Record gtpu_rx_tun := RxTun { rx_inner_family : Z; rx_ebi : Z; rx_inner_addr : list Z; rx_ifindex : Z }.
Record gtpu_tx_tun := TxTun {
  tx_outer_family : Z; tx_ebi : Z; tx_qfi : Z; tx_flags : Z; tx_remote_addr : list Z; tx_dst_mac : list Z;
  tx_src_mac : list Z; tx_remote_port : Z; tx_remote_teid : Z; tx_local_teid : Z; tx_ifindex : Z }.
Record gtpu_tft_key := TftKey {
  tk_family : Z; tk_proto : Z; tk_ue_port : Z; tk_remote_port : Z; tk_ue_addr : list Z; tk_ue_saddr : list Z }.
Record gtpu_frag_key := FragKey { fk_family : Z; fk_proto : Z; fk_id : Z; fk_saddr : list Z; fk_daddr : list Z }.
Record gtpu_stats := Stats {
  st_rx_pkts : Z; st_rx_bytes : Z; st_tx_pkts : Z; st_tx_bytes : Z; st_unknown_teid : Z; st_malformed : Z;
  st_tx_no_neigh : Z; st_ringbuf_full : Z; st_abi : Z }.
Record gtpu_event := Event { ev_kind : Z; ev_teid : Z; ev_src_family : Z; ev_src_port : Z; ev_src_addr : list Z }.
Record gtpu_config := Config { cf_abi_version : Z; cf_uplink_ifindex : Z; cf_local_v4 : list Z; cf_local_v6 : list Z }.

#[export] Instance gtpu_tft_key_eq : EqDecision gtpu_tft_key.
Proof. solve_decision. Defined.
#[export] Instance gtpu_frag_key_eq : EqDecision gtpu_frag_key.
Proof. solve_decision. Defined.

(** The maps; an entry of a trie is a prefix length, an address and a tunnel. *)
Record maps := Maps {
  m_rx : Z → option gtpu_rx_tun;
  m_tx4 : list (Z * list Z * gtpu_tx_tun); m_tx6 : list (Z * list Z * gtpu_tx_tun);
  m_tft : gtpu_tft_key → option gtpu_tx_tun; m_frag : gtpu_frag_key → option gtpu_tx_tun;
  m_stats : Z → option gtpu_stats; m_events : list gtpu_event; m_config : option gtpu_config }.

Inductive verdict := TC_ACT_OK | TC_ACT_SHOT | TC_ACT_REDIRECT (ifindex : Z).

(** A frame: its octets, how many of them packet pointers reach, the protocol the stack
    dispatches on, the interface. *)
Record sk_buff := Skb { sk_data : mem; sk_lin : Z; sk_protocol : Z; sk_ifindex : Z }.
Definition sk_len (k : sk_buff) : Z := mlen (sk_data k).

(** ** The kernel *)

Record env := Env {
  e_ring : bool; e_adjust : bool; e_store : bool;
  e_fib : Z → Z → Z → list Z → list Z → option (list Z * list Z * Z);
  e_evict : gtpu_frag_key → bool; e_fill : nat → Z }.

Definition load_bytes (k : sk_buff) (off n : Z) : option (list Z) :=
  if (0 <=? off) && (off + n <=? sk_len k) then Some (slice (sk_data k) off n) else None.
Definition load1 (k : sk_buff) (off : Z) : option Z := bs ← load_bytes k off 1; Some (be_val bs).
Definition store_bytes (e : env) (k : sk_buff) (off : Z) (bs : list Z) : option sk_buff :=
  if e_store e && (0 <=? off) && (off + mlen bs <=? sk_len k)
  then Some (Skb (splice (sk_data k) off bs) (sk_lin k) (sk_protocol k) (sk_ifindex k)) else None.
(** Room is added or removed between the Ethernet and the network header. *)
Definition BPF_F_ADJ_ROOM_FIXED_GSO : Z := 1.
Definition BPF_F_ADJ_ROOM_DECAP_L3_IPV4 : Z := 128.
Definition BPF_F_ADJ_ROOM_DECAP_L3_IPV6 : Z := 256.
Definition adjust_room (e : env) (k : sk_buff) (diff flags : Z) : option sk_buff :=
  if negb (e_adjust e) || (sk_len k <? ETH_HLEN - diff) then None else
  Some (Skb (take 14 (sk_data k) ++
             (if diff <? 0 then drop (Z.to_nat (ETH_HLEN - diff)) (sk_data k)
              else map (e_fill e) (seq 0 (Z.to_nat diff)) ++ drop 14 (sk_data k))) (sk_lin k)
          (if flags =? BPF_F_ADJ_ROOM_DECAP_L3_IPV6 then ETH_P_IPV6
           else if flags =? BPF_F_ADJ_ROOM_DECAP_L3_IPV4 then ETH_P_IP else sk_protocol k) (sk_ifindex k)).

(** Longest prefix match: whether the first [len] bits of two addresses agree, and the
    entry of the greatest length that matches. *)
Definition prefix_eq (len : Z) (a b : list Z) : bool :=
  let n := Z.of_nat (length b) * 8 in
  (len <=? n) && (be_val a / 2 ^ (n - len) =? be_val b / 2 ^ (n - len)).
Fixpoint lpm_lookup (t : list (Z * list Z * gtpu_tx_tun)) (addr : list Z) : option (Z * gtpu_tx_tun) :=
  match t with
  | [] => None
  | (len, a, tun) :: t =>
      let r := lpm_lookup t addr in
      if prefix_eq len a addr then
        match r with Some (len', _) => if len <? len' then r else Some (len, tun) | None => Some (len, tun) end
      else r
  end.

(** ** Shared helpers *)

Definition config_get (m : maps) : option gtpu_config := m_config m.
Definition stats_slot (teid : Z) : Z := Z.land teid GTPU_STATS_MASK.

Definition with_stats (m : maps) (s : Z → option gtpu_stats) : maps :=
  Maps (m_rx m) (m_tx4 m) (m_tx6 m) (m_tft m) (m_frag m) s (m_events m) (m_config m).
Definition with_events (m : maps) (l : list gtpu_event) : maps :=
  Maps (m_rx m) (m_tx4 m) (m_tx6 m) (m_tft m) (m_frag m) (m_stats m) l (m_config m).
Definition with_frag (m : maps) (f : gtpu_frag_key → option gtpu_tx_tun) : maps :=
  Maps (m_rx m) (m_tx4 m) (m_tx6 m) (m_tft m) f (m_stats m) (m_events m) (m_config m).

(** [if (st) st->field++;] *)
Definition bump (m : maps) (slot : Z) (f : gtpu_stats → gtpu_stats) : maps :=
  match m_stats m slot with
  | None => m
  | Some s => with_stats m (λ i, if i =? slot then Some (f s) else m_stats m i)
  end.
Definition inc_rx (len : Z) (s : gtpu_stats) : gtpu_stats :=
  Stats (u64 (st_rx_pkts s + 1)) (u64 (st_rx_bytes s + len)) (st_tx_pkts s) (st_tx_bytes s) (st_unknown_teid s)
    (st_malformed s) (st_tx_no_neigh s) (st_ringbuf_full s) (st_abi s).
Definition inc_tx (len : Z) (s : gtpu_stats) : gtpu_stats :=
  Stats (st_rx_pkts s) (st_rx_bytes s) (u64 (st_tx_pkts s + 1)) (u64 (st_tx_bytes s + len)) (st_unknown_teid s)
    (st_malformed s) (st_tx_no_neigh s) (st_ringbuf_full s) (st_abi s).
Definition inc_unknown (s : gtpu_stats) : gtpu_stats :=
  Stats (st_rx_pkts s) (st_rx_bytes s) (st_tx_pkts s) (st_tx_bytes s) (u64 (st_unknown_teid s + 1))
    (st_malformed s) (st_tx_no_neigh s) (st_ringbuf_full s) (st_abi s).
Definition inc_malformed (s : gtpu_stats) : gtpu_stats :=
  Stats (st_rx_pkts s) (st_rx_bytes s) (st_tx_pkts s) (st_tx_bytes s) (st_unknown_teid s)
    (u64 (st_malformed s + 1)) (st_tx_no_neigh s) (st_ringbuf_full s) (st_abi s).
Definition inc_no_neigh (s : gtpu_stats) : gtpu_stats :=
  Stats (st_rx_pkts s) (st_rx_bytes s) (st_tx_pkts s) (st_tx_bytes s) (st_unknown_teid s)
    (st_malformed s) (u64 (st_tx_no_neigh s + 1)) (st_ringbuf_full s) (st_abi s).
Definition inc_ringbuf_full (s : gtpu_stats) : gtpu_stats :=
  Stats (st_rx_pkts s) (st_rx_bytes s) (st_tx_pkts s) (st_tx_bytes s) (st_unknown_teid s)
    (st_malformed s) (st_tx_no_neigh s) (u64 (st_ringbuf_full s + 1)) (st_abi s).
Definition inc_abi (s : gtpu_stats) : gtpu_stats :=
  Stats (st_rx_pkts s) (st_rx_bytes s) (st_tx_pkts s) (st_tx_bytes s) (st_unknown_teid s)
    (st_malformed s) (st_tx_no_neigh s) (st_ringbuf_full s) (u64 (st_abi s + 1)).

Definition emit_event (e : env) (m : maps) (kind teid family : Z) (addr : option (list Z)) (port slot : Z) : maps :=
  if negb (e_ring e) then bump m slot inc_ringbuf_full else
  with_events m (m_events m ++
    [Event kind teid family port (match addr with Some a => a | None => zeros 16 end)]).

Definition addr16_is_zero (a : list Z) : bool := bool_decide (a = zeros 16).
Definition mac_is_zero (a : list Z) : bool := bool_decide (a = zeros 6).

(** ** Checksums *)

Section host.
Context (le : bool).

(** A 16-bit load and store of the host. *)
Definition host16 (a b : Z) : Z := if le then a + 256 * b else 256 * a + b.
Definition host_bytes (v : Z) : list Z := if le then [v mod 256; v / 256] else [v / 256; v mod 256].

Fixpoint word_sum (bs : list Z) : Z :=
  match bs with
  | a :: b :: bs => host16 a b + word_sum bs
  | _ => 0
  end.
Definition fold16 (s : Z) : Z := Z.land s 65535 + Z.shiftr s 16.

(** [words] is half the length of [bs]. *)
Definition csum16 (bs : list Z) (seed : Z) : Z :=
  let s := u32 (seed + word_sum bs) in u16 (u32 (fold16 (u32 (fold16 s)))).

(** ** Decapsulation *)

(** A direct read of [n] octets at [off]. *)
Definition pkt (k : sk_buff) (off n : Z) : res (list Z) := rdn (take (Z.to_nat (sk_lin k)) (sk_data k)) off n.
Definition pkt16 (k : sk_buff) (off : Z) : res Z := bs ← pkt k off 2; Ok (be_val bs).
Definition pkt8 (k : sk_buff) (off : Z) : res Z := bs ← pkt k off 1; Ok (be_val bs).

(** The outer headers up to UDP: its offset, the family and the source address, or an
    early verdict. *)
Definition decap_outer (k : sk_buff) : res (verdict + (Z * Z * list Z)) :=
  if sk_lin k <? ETH_HLEN then Ok (inl TC_ACT_OK) else
  h_proto ← pkt16 k 12;
  if h_proto =? ETH_P_IP then
    if sk_lin k <? ETH_HLEN + 20 then Ok (inl TC_ACT_OK) else
    vi ← pkt8 k 14;
    if negb (Z.shiftr vi 4 =? 4) || negb (Z.land vi 15 =? 5) then Ok (inl TC_ACT_OK) else
    proto ← pkt8 k 23;
    if negb (proto =? IPPROTO_UDP) then Ok (inl TC_ACT_OK) else
    frag_off ← pkt16 k 20;
    if negb (Z.land frag_off 16383 =? 0) then Ok (inl TC_ACT_OK) else
    ip ← pkt k 14 20;
    if negb (csum16 ip 0 =? 65535) then Ok (inl TC_ACT_SHOT) else
    saddr ← pkt k 26 4;
    Ok (inr (ETH_HLEN + 20, AF_INET, saddr ++ zeros 12))
  else if h_proto =? ETH_P_IPV6 then
    if sk_lin k <? ETH_HLEN + 40 then Ok (inl TC_ACT_OK) else
    nexthdr ← pkt8 k 20;
    if negb (nexthdr =? IPPROTO_UDP) then Ok (inl TC_ACT_OK) else
    saddr ← pkt k 22 16;
    Ok (inr (ETH_HLEN + 40, AF_INET6, saddr))
  else Ok (inl TC_ACT_OK).

(** The extension headers: the offset behind them, [None] for a chain left to the stack. *)
Fixpoint ext_walk (hops : nat) (k : sk_buff) (next payload_off : Z) : option Z :=
  if next =? 0 then Some payload_off else
  match hops with
  | O => None
  | S hops =>
      extlen ← load1 k payload_off;
      if extlen =? 0 then None else
      let off := payload_off + extlen * 4 in
      next ← load1 k (off - 1);
      ext_walk hops k next off
  end.
Definition payload_offset (k : sk_buff) (gtpu_off flags : Z) : option Z :=
  let off := gtpu_off + GTPU_HDR_MIN in
  if Z.land flags (Z.lor (Z.lor GTPU_F_EXT GTPU_F_SEQ) GTPU_F_NPDU) =? 0 then Some off else
  let off := off + GTPU_HDR_OPT in
  if Z.land flags GTPU_F_EXT =? 0 then Some off else
  next ← load1 k (gtpu_off + 11);
  ext_walk GTPU_EXT_MAX_HOPS k next off.

(** The checks on the inner packet: its family and ethertype, [None] when malformed. *)
Definition inner_check (k : sk_buff) (payload_off : Z) (tun : gtpu_rx_tun) : option (Z * Z) :=
  if sk_len k <=? payload_off then None else
  let inner_len := sk_len k - payload_off in
  inner_b0 ← load1 k payload_off;
  let inner_ver := Z.shiftr inner_b0 4 in
  let family := if rx_inner_family tun =? 0 then if inner_ver =? 6 then AF_INET6 else AF_INET else rx_inner_family tun in
  if family =? AF_INET then
    if negb (inner_ver =? 4) || (inner_len <? 20) then None else
    if addr16_is_zero (rx_inner_addr tun) then Some (family, ETH_P_IP) else
    dst ← load_bytes k (payload_off + 16) 4;
    if bool_decide (dst = take 4 (rx_inner_addr tun)) then Some (family, ETH_P_IP) else None
  else
    if negb (inner_ver =? 6) || (inner_len <? 40) then None else
    if addr16_is_zero (rx_inner_addr tun) then Some (family, ETH_P_IPV6) else
    dst ← load_bytes k (payload_off + 24) 16;
    if bool_decide (dst = rx_inner_addr tun) then Some (family, ETH_P_IPV6) else None.

Definition gtpu_decap (e : env) (m : maps) (k : sk_buff) : res (maps * sk_buff * verdict) :=
  o ← decap_outer k;
  match o with
  | inl v => Ok (m, k, v)
  | inr (udp_off, src_family, src_addr) =>
      match load_bytes k udp_off 8 with
      | None => Ok (m, k, TC_ACT_OK)
      | Some udp =>
          if negb (be_val (slice udp 2 2) =? GTPU_PORT) then Ok (m, k, TC_ACT_OK) else
          let src_port := be_val (slice udp 0 2) in
          if match config_get m with None => true | Some cfg => negb (cf_abi_version cfg =? GTPU_ABI_VERSION) end then
            let m := bump m (stats_slot 0) inc_abi in
            Ok (emit_event e m GTPU_EV_ABI_MISMATCH 0 src_family (Some src_addr) src_port (stats_slot 0), k, TC_ACT_SHOT)
          else
          let gtpu_off := udp_off + 8 in
          match load_bytes k gtpu_off 8 with
          | None => Ok (m, k, TC_ACT_OK)
          | Some g =>
              let flags := get g 0 in
              let msg_type := get g 1 in
              if negb (Z.land flags 240 =? GTPU_F_VERSION_PT) then Ok (m, k, TC_ACT_OK) else
              let teid := be_val (slice g 4 4) in
              let st := stats_slot teid in
              if msg_type =? GTPU_MT_END_MARKER then
                Ok (emit_event e m GTPU_EV_END_MARKER teid src_family (Some src_addr) src_port st, k, TC_ACT_OK)
              else if negb (msg_type =? GTPU_MT_GPDU) then Ok (m, k, TC_ACT_OK) else
              match payload_offset k gtpu_off flags with
              | None => Ok (m, k, TC_ACT_OK)
              | Some payload_off =>
                  let malformed k :=
                    Ok (emit_event e (bump m st inc_malformed) GTPU_EV_MALFORMED teid src_family (Some src_addr) src_port st,
                        k, TC_ACT_SHOT) in
                  match m_rx m teid with
                  | None =>
                      let m := bump m st inc_unknown in
                      Ok (emit_event e m GTPU_EV_UNKNOWN_TEID teid src_family (Some src_addr) src_port st, k, TC_ACT_OK)
                  | Some tun =>
                      match inner_check k payload_off tun with
                      | None => malformed k
                      | Some (inner_family, inner_proto) =>
                          let inner_len := sk_len k - payload_off in
                          let decap :=
                            if inner_family =? src_family then 0
                            else if inner_family =? AF_INET6 then BPF_F_ADJ_ROOM_DECAP_L3_IPV6
                            else BPF_F_ADJ_ROOM_DECAP_L3_IPV4 in
                          match adjust_room e k (- (payload_off - ETH_HLEN)) decap with
                          | None => malformed k
                          | Some k =>
                              match store_bytes e k 12 (be_bytes 2 inner_proto) with
                              | None => Ok (m, k, TC_ACT_SHOT)
                              | Some k =>
                                  let m := bump m st (inc_rx inner_len) in
                                  Ok (m, k, if rx_ifindex tun =? 0 then TC_ACT_OK else TC_ACT_REDIRECT (rx_ifindex tun))
                              end
                          end
                      end
                  end
              end
          end
      end
  end.
(** ** Classification *)

Definition with_ports (k : gtpu_tft_key) (ue_port remote_port : Z) : gtpu_tft_key :=
  TftKey (tk_family k) (tk_proto k) ue_port remote_port (tk_ue_addr k) (tk_ue_saddr k).
Definition with_saddr (k : gtpu_tft_key) (saddr : list Z) : gtpu_tft_key :=
  TftKey (tk_family k) (tk_proto k) (tk_ue_port k) (tk_remote_port k) (tk_ue_addr k) saddr.

Definition tft_probe_ports (m : maps) (k : gtpu_tft_key) (ue_port remote_port : Z) : option gtpu_tx_tun :=
  match m_tft m (with_ports k ue_port remote_port) with
  | Some tun => Some tun
  | None =>
  match (if remote_port =? 0 then None else m_tft m (with_ports k ue_port 0)) with
  | Some tun => Some tun
  | None =>
  match (if ue_port =? 0 then None else m_tft m (with_ports k 0 remote_port)) with
  | Some tun => Some tun
  | None => if (ue_port =? 0) && (remote_port =? 0) then None else m_tft m (with_ports k 0 0)
  end end end.

Definition tx_classify (m : maps) (family : Z) (ue_addr ue_saddr : list Z) (proto ue_port remote_port : Z) : option gtpu_tx_tun :=
  let k := TftKey family proto 0 0 ue_addr (zeros 16) in
  match tft_probe_ports m (with_saddr k ue_saddr) ue_port remote_port with
  | Some tun => Some tun
  | None =>
  match tft_probe_ports m (with_saddr k (zeros 16)) ue_port remote_port with
  | Some tun => Some tun
  | None =>
      if family =? AF_INET then snd <$> lpm_lookup (m_tx4 m) (take 4 ue_addr)
      else snd <$> lpm_lookup (m_tx6 m) ue_addr
  end end.

(** What the classification needs to know of the inner packet. *)
Record flow := Flow {
  fl_family : Z; fl_proto : Z; fl_ue_addr : list Z; fl_saddr : list Z; fl_l4_off : Z; fl_l4_len : Z;
  fl_frag_id : Z; fl_head : bool; fl_tail : bool }.

Definition encap_parse (k : sk_buff) : res (verdict + flow) :=
  if sk_lin k <? ETH_HLEN then Ok (inl TC_ACT_OK) else
  h_proto ← pkt16 k 12;
  if h_proto =? ETH_P_IP then
    if sk_lin k <? ETH_HLEN + 20 then Ok (inl TC_ACT_OK) else
    vi ← pkt8 k 14;
    let ihl := Z.land vi 15 in
    if negb (Z.shiftr vi 4 =? 4) || (ihl <? 5) then Ok (inl TC_ACT_OK) else
    proto ← pkt8 k 23;
    daddr ← pkt k 30 4;
    saddr ← pkt k 26 4;
    frag_off ← pkt16 k 20;
    id ← pkt16 k 18;
    tot ← pkt16 k 16;
    let ihl_bytes := ihl * 4 in
    let frag := negb (Z.land frag_off 16383 =? 0) in
    let tail := negb (Z.land frag_off 8191 =? 0) in
    Ok (inr (Flow AF_INET proto (daddr ++ zeros 12) (saddr ++ zeros 12)
      (if tail then 0 else ETH_HLEN + ihl_bytes)
      (if frag then 0 else if ihl_bytes <? tot then tot - ihl_bytes else 0)
      (if frag then id else 0) (frag && negb tail) (frag && tail)))
  else if h_proto =? ETH_P_IPV6 then
    if sk_lin k <? ETH_HLEN + 40 then Ok (inl TC_ACT_OK) else
    proto ← pkt8 k 20;
    daddr ← pkt k 38 16;
    saddr ← pkt k 22 16;
    if proto =? IPPROTO_FRAGMENT then
      match load_bytes k (ETH_HLEN + 40) 8 with
      | None => Ok (inl TC_ACT_OK)
      | Some fh =>
          let tail := negb (Z.land (be_val (slice fh 2 2)) 65528 =? 0) in
          Ok (inr (Flow AF_INET6 (get fh 0) daddr saddr (if tail then 0 else ETH_HLEN + 40 + 8) 0
            (be_val (slice fh 4 4)) (negb tail) tail))
      end
    else
      plen ← pkt16 k 18;
      Ok (inr (Flow AF_INET6 proto daddr saddr (ETH_HLEN + 40) plen 0 false false))
  else Ok (inl TC_ACT_OK).

(** UE-side and remote port, both zero when there are none. *)
Definition encap_ports (k : sk_buff) (f : flow) : Z * Z :=
  if negb (fl_l4_off f =? 0) && ((fl_proto f =? IPPROTO_TCP) || (fl_proto f =? IPPROTO_UDP) || (fl_proto f =? IPPROTO_SCTP)) then
    match load_bytes k (fl_l4_off f) 4 with
    | Some p => (be_val (slice p 2 2), be_val (slice p 0 2))
    | None => (0, 0)
    end
  else (0, 0).

Definition frag_key (f : flow) : gtpu_frag_key := FragKey (fl_family f) (fl_proto f) (fl_frag_id f) (fl_saddr f) (fl_ue_addr f).
(** [bpf_map_update_elem(&tx_frag_map, ...)]; the map is an LRU: it may forget any entry,
    the new one too. *)
Definition frag_update (e : env) (m : maps) (fk : gtpu_frag_key) (tun : gtpu_tx_tun) : maps :=
  with_frag m (λ k, if e_evict e k then None else if bool_decide (k = fk) then Some tun else m_frag m k).

(** The tunnel of the packet and the maps behind the lookup. *)
Definition encap_tunnel (e : env) (m : maps) (k : sk_buff) (f : flow) : option (gtpu_tx_tun * maps) :=
  let '(ue_port, remote_port) := encap_ports k f in
  let tun := if fl_tail f then m_frag m (frag_key f) else None in
  let tun := match tun with
             | Some _ => tun
             | None => tx_classify m (fl_family f) (fl_ue_addr f) (fl_saddr f) (fl_proto f) ue_port remote_port
             end in
  match tun with
  | None => None
  | Some tun => Some (tun, if fl_head f then frag_update e m (frag_key f) tun else m)
  end.

(** ** Checksums over the frame *)

Definition CSUM_CHUNK : Z := 64.
Definition CSUM_MAX_LEN : Z := 2048.

Context (csum_diff : list Z → Z → Z).

(** [None] for a negative result. *)
Fixpoint csum_pkt_range (chunks : nat) (k : sk_buff) (off remain sum : Z) : option Z :=
  if remain =? 0 then Some sum else
  match chunks with
  | O => Some sum
  | S chunks =>
      let n := if CSUM_CHUNK <? remain then CSUM_CHUNK else remain in
      bs ← load_bytes k off n;
      let sum := csum_diff (bs ++ zeros (CSUM_CHUNK - n)) (u32 sum) in
      if sum <? 0 then None else csum_pkt_range chunks k (off + n) (remain - n) sum
  end.
(** The complement of the folded sum. *)
Definition csum_finish (sum : Z) : Z := u16 (Z.lnot (u32 (fold16 (u32 (fold16 (u32 sum)))))).

(** Pseudo-header sum, then the octets of the frame: the checksum before zero is replaced. *)
Definition csum_l4 (k : sk_buff) (pseudo : list Z) (off len : Z) : option Z :=
  let sum := csum_diff pseudo 0 in
  if sum <? 0 then None else
  sum ← csum_pkt_range 32 k off len sum;
  Some (csum_finish sum).

Definition pseudo6 (src dst : list Z) (len proto : Z) : list Z := src ++ dst ++ be_bytes 4 len ++ [0; 0; 0; proto].
Definition pseudo4 (src dst : list Z) (len proto : Z) : list Z := src ++ dst ++ [0; proto] ++ be_bytes 2 len.

(** ** Encapsulation *)

(** The outer addresses of the link and the interface to leave by. *)
Definition encap_link (e : env) (cfg : gtpu_config) (tun : gtpu_tx_tun) (k : sk_buff) (udp_len : Z) : list Z * list Z * Z :=
  let oif := if tx_ifindex tun =? 0 then cf_uplink_ifindex cfg else tx_ifindex tun in
  if Z.land (tx_flags tun) GTPU_TXF_STATIC_MAC =? 0 then
    let v4 := tx_outer_family tun =? AF_INET in
    let r := e_fib e (tx_outer_family tun) (if oif =? 0 then sk_ifindex k else oif)
               (u16 (udp_len + if v4 then 20 else 40))
               (if v4 then cf_local_v4 cfg else cf_local_v6 cfg)
               (if v4 then take 4 (tx_remote_addr tun) else tx_remote_addr tun) in
    match r with Some r => r | None => (tx_src_mac tun, tx_dst_mac tun, oif) end
  else (tx_src_mac tun, tx_dst_mac tun, oif).

(** The outer IPv4 header with its checksum. *)
Definition ip4_header (src dst : list Z) (tot_len : Z) : list Z :=
  let hdr ck := [69; 0] ++ be_bytes 2 tot_len ++ [0; 0; 0; 0; 64; IPPROTO_UDP] ++ ck ++ src ++ dst in
  hdr (host_bytes (u16 (Z.lnot (csum16 (hdr [0; 0]) 0)))).
Definition ip6_header (src dst : list Z) (payload_len : Z) : list Z :=
  [96; 0; 0; 0] ++ be_bytes 2 payload_len ++ [IPPROTO_UDP; 64] ++ src ++ dst.
Definition udp_header (port len : Z) : list Z := be_bytes 2 GTPU_PORT ++ be_bytes 2 port ++ be_bytes 2 len ++ [0; 0].
Definition gtpu_header (tun : gtpu_tx_tun) (inner_len : Z) : list Z :=
  if Z.land (tx_flags tun) GTPU_TXF_QFI =? 0
  then [GTPU_F_VERSION_PT; GTPU_MT_GPDU] ++ be_bytes 2 inner_len ++ be_bytes 4 (tx_remote_teid tun)
  else [Z.lor GTPU_F_VERSION_PT GTPU_F_EXT; GTPU_MT_GPDU] ++ be_bytes 2 (inner_len + GTPU_HDR_OPT + 4) ++
       be_bytes 4 (tx_remote_teid tun) ++
       [0; 0; 0; GTPU_EXT_PDU_SESSION; 1; 0; Z.land (tx_qfi tun) 63; GTPU_EXT_NONE].

(** The outer headers written into the grown frame; [None] is [TC_ACT_SHOT]. *)
Definition encap_headers (e : env) (cfg : gtpu_config) (tun : gtpu_tx_tun) (k : sk_buff) (smac dmac : list Z)
    (inner_len gtpu_len udp_len outer_l3 outer_len : Z) : option sk_buff :=
  let v4 := tx_outer_family tun =? AF_INET in
  k ← adjust_room e k outer_len BPF_F_ADJ_ROOM_FIXED_GSO;
  k ← store_bytes e k 0 (dmac ++ smac ++ be_bytes 2 (if v4 then ETH_P_IP else ETH_P_IPV6));
  k ← store_bytes e k ETH_HLEN
        (if v4 then ip4_header (cf_local_v4 cfg) (take 4 (tx_remote_addr tun)) (u16 (outer_l3 + udp_len))
         else ip6_header (cf_local_v6 cfg) (tx_remote_addr tun) (u16 udp_len));
  k ← store_bytes e k (ETH_HLEN + outer_l3) (udp_header (tx_remote_port tun) (u16 udp_len));
  k ← store_bytes e k (ETH_HLEN + outer_l3 + 8) (gtpu_header tun inner_len);
  if v4 then Some k else
  check ← csum_l4 k (pseudo6 (cf_local_v6 cfg) (tx_remote_addr tun) udp_len IPPROTO_UDP) (ETH_HLEN + outer_l3) udp_len;
  store_bytes e k (ETH_HLEN + outer_l3 + 6) (host_bytes (if check =? 0 then 65535 else check)).

(** The inner checksum completed; [None] is [TC_ACT_SHOT]. *)
Definition encap_inner_csum (e : env) (k : sk_buff) (f : flow) (outer_len : Z) : option sk_buff :=
  let udp := fl_proto f =? IPPROTO_UDP in
  let min_l4 := if udp then 8 else 20 in
  if negb (fl_l4_off f =? 0) && (udp || (fl_proto f =? IPPROTO_TCP)) &&
     (min_l4 <=? fl_l4_len f) && (fl_l4_len f <=? CSUM_MAX_LEN) then
    let l4 := fl_l4_off f + outer_len in
    let ck := l4 + if udp then 6 else 16 in
    k ← store_bytes e k ck [0; 0];
    let pseudo :=
      if fl_family f =? AF_INET
      then pseudo4 (take 4 (fl_saddr f)) (take 4 (fl_ue_addr f)) (u16 (fl_l4_len f)) (fl_proto f)
      else pseudo6 (fl_saddr f) (fl_ue_addr f) (fl_l4_len f) (fl_proto f) in
    icheck ← csum_l4 k pseudo l4 (fl_l4_len f);
    store_bytes e k ck (host_bytes (if udp && (icheck =? 0) then 65535 else icheck))
  else Some k.

Definition gtpu_encap (e : env) (m : maps) (k : sk_buff) : res (maps * sk_buff * verdict) :=
  p ← encap_parse k;
  match p with
  | inl v => Ok (m, k, v)
  | inr f =>
      match encap_tunnel e m k f with
      | None => Ok (m, k, TC_ACT_OK)
      | Some (tun, m) =>
          let st := stats_slot (tx_local_teid tun) in
          match config_get m with
          | Some cfg =>
              if negb (cf_abi_version cfg =? GTPU_ABI_VERSION) then
                let m := bump m st inc_abi in
                Ok (emit_event e m GTPU_EV_ABI_MISMATCH (tx_local_teid tun) 0 None 0 st, k, TC_ACT_SHOT)
              else
              let inner_len := u32 (sk_len k - ETH_HLEN) in
              let gtpu_len := GTPU_HDR_MIN + if Z.land (tx_flags tun) GTPU_TXF_QFI =? 0 then 0 else GTPU_HDR_OPT + 4 in
              let udp_len := u32 (8 + gtpu_len + inner_len) in
              let '(smac, dmac, oif) := encap_link e cfg tun k udp_len in
              if mac_is_zero dmac || (oif =? 0) then Ok (bump m st inc_no_neigh, k, TC_ACT_SHOT) else
              let v4 := tx_outer_family tun =? AF_INET in
              if negb v4 && (CSUM_MAX_LEN <? udp_len) then Ok (m, k, TC_ACT_OK) else
              let outer_l3 := if v4 then 20 else 40 in
              let outer_len := outer_l3 + 8 + gtpu_len in
              match encap_headers e cfg tun k smac dmac inner_len gtpu_len udp_len outer_l3 outer_len with
              | None => Ok (m, k, TC_ACT_SHOT)
              | Some k =>
                  match encap_inner_csum e k f outer_len with
                  | None => Ok (m, k, TC_ACT_SHOT)
                  | Some k => Ok (bump m st (inc_tx inner_len), k, TC_ACT_REDIRECT oif)
                  end
              end
          | None =>
              let m := bump m st inc_abi in
              Ok (emit_event e m GTPU_EV_ABI_MISMATCH (tx_local_teid tun) 0 None 0 st, k, TC_ACT_SHOT)
          end
      end
  end.
End host.
End GtpuKern.
