(* ===== verification/GtpuCsum.v ===== *)
(** * GtpuCsum: the Internet checksums of the GTP-U datapath

    The one's-complement sum of RFC 1071 as a number modulo 65535, and that [csum16],
    [csum_pkt_range] and the headers the encapsulation builds compute it: the outer IPv4
    header passes the check of the decapsulation, the inner UDP or TCP checksum is the
    right one whatever the field held before. *)

From S2P Require Import Prelude Endian GtpuKern.

Module GtpuCsum.
Import GtpuKern.

(** A literal list of octets is one. *)
Ltac octets := repeat (apply bytes_ok_cons; split; [done || lia|]); apply bytes_ok_nil.

Section csum.
Context (le : bool).

(** The sum of the 16-bit words, an odd last octet padded with zero. *)
Fixpoint inet_sum (bs : list Z) : Z :=
  match bs with
  | a :: b :: bs => host16 le a b + inet_sum bs
  | [a] => host16 le a 0
  | [] => 0
  end.

Definition even_len (bs : list Z) : Prop := mlen bs mod 2 = 0.

Lemma octets_pair_ind (P : list Z → Prop) :
  P [] → (∀ a, P [a]) → (∀ a b l, P l → P (a :: b :: l)) → ∀ l, P l.
Proof.
  intros H0 H1 H2. fix IH 1. intros [|a [|b l]]; [done|apply H1|]. apply H2, IH.
Qed.
Lemma even_len_cons2 a b l : even_len (a :: b :: l) ↔ even_len l.
Proof.
  unfold even_len. rewrite !mlen_cons. replace (1 + (1 + mlen l)) with (mlen l + 1 * 2) by lia.
  by rewrite Z.mod_add.
Qed.
Lemma even_len_1 a : ¬ even_len [a].
Proof. done. Qed.

Lemma inet_sum_app a b : even_len a → inet_sum (a ++ b) = inet_sum a + inet_sum b.
Proof.
  induction a as [|x|x y l IH] using octets_pair_ind; intros He.
  - done.
  - by destruct (even_len_1 x).
  - apply even_len_cons2 in He. cbn [app inet_sum]. rewrite IH by done. lia.
Qed.
Lemma host16_range a b : 0 <= a < 256 → 0 <= b < 256 → 0 <= host16 le a b < 65536.
Proof. intros. unfold host16. destruct le; lia. Qed.
Lemma inet_sum_range bs : bytes_ok bs → 0 <= inet_sum bs <= 65535 * mlen bs.
Proof.
  induction bs as [|x|x y l IH] using octets_pair_ind; intros Hb.
  - done.
  - apply bytes_ok_cons in Hb as [Hx _]. cbn [inet_sum]. rewrite mlen_cons, mlen_nil.
    pose proof (host16_range x 0). lia.
  - apply bytes_ok_cons in Hb as [Hx Hb]. apply bytes_ok_cons in Hb as [Hy Hb].
    cbn [inet_sum]. rewrite !mlen_cons. pose proof (host16_range x y). specialize (IH Hb). lia.
Qed.
Lemma inet_sum_zeros n : inet_sum (zeros n) = 0.
Proof.
  unfold zeros. generalize (Z.to_nat n). intros k.
  assert (H : inet_sum (replicate k 0) = 0 ∧ inet_sum (replicate (S k) 0) = 0); [|by destruct H].
  induction k as [|k [IH1 IH2]]; [split; cbn; unfold host16; destruct le; done|].
  split; [done|]. change (replicate (S (S k)) 0) with (0 :: 0 :: replicate k 0).
  cbn [inet_sum]. rewrite IH1. unfold host16. destruct le; done.
Qed.
(** Zero padding is checksum-neutral. *)
Lemma inet_sum_pad bs n : inet_sum (bs ++ zeros n) = inet_sum bs.
Proof.
  induction bs as [|x|x y l IH] using octets_pair_ind.
  - apply inet_sum_zeros.
  - cbn [app]. unfold zeros. destruct (Z.to_nat n) as [|k] eqn:E; [done|].
    cbn [replicate app inet_sum]. pose proof (inet_sum_zeros (Z.of_nat k)) as H.
    unfold zeros in H. rewrite Nat2Z.id in H. rewrite H. lia.
  - cbn [app inet_sum]. by rewrite IH.
Qed.
Lemma word_sum_inet bs : even_len bs → word_sum le bs = inet_sum bs.
Proof.
  induction bs as [|x|x y l IH] using octets_pair_ind; intros He.
  - done.
  - by destruct (even_len_1 x).
  - apply even_len_cons2 in He. cbn [word_sum inet_sum]. by rewrite IH.
Qed.
Lemma host16_bytes v : 0 <= v < 65536 → inet_sum (host_bytes le v) = v.
Proof.
  intros. pose proof (Z.div_mod v 256 ltac:(lia)). unfold host_bytes.
  destruct le eqn:E; cbn [inet_sum]; unfold host16; rewrite E; lia.
Qed.

(** ** Folding *)

Lemma fold16_eq s : fold16 s = s mod 65536 + s / 65536.
Proof. unfold fold16. change 65535 with (Z.ones 16). by rewrite Z.land_ones, shiftr_div by done. Qed.
Lemma fold16_mod s : fold16 s mod 65535 = s mod 65535.
Proof.
  rewrite fold16_eq. pose proof (Z.div_mod s 65536 ltac:(lia)) as E.
  replace s with (s mod 65536 + s / 65536 + s / 65536 * 65535) at 3 by lia.
  by rewrite Z.mod_add.
Qed.
(** Two folds of a 32-bit sum leave a 16-bit number of the same residue. *)
Lemma fold16_twice s : 0 <= s < 4294967296 →
  let r := u32 (fold16 (u32 (fold16 s))) in
  0 <= r < 65536 ∧ r mod 65535 = s mod 65535 ∧ (0 < s → 0 < r).
Proof.
  intros Hs r. subst r.
  assert (H1 : 0 <= fold16 s <= 131070 ∧ (0 < s → 0 < fold16 s)).
  { rewrite fold16_eq. pose proof (Z.mod_pos_bound s 65536 ltac:(lia)).
    pose proof (Z.div_mod s 65536 ltac:(lia)). lia. }
  rewrite (u32_small (fold16 s)) by lia.
  assert (H2 : 0 <= fold16 (fold16 s) < 65536 ∧ (0 < s → 0 < fold16 (fold16 s))).
  { rewrite (fold16_eq (fold16 s)). pose proof (Z.mod_pos_bound (fold16 s) 65536 ltac:(lia)).
    pose proof (Z.div_mod (fold16 s) 65536 ltac:(lia)). lia. }
  rewrite u32_small by lia. rewrite !fold16_mod. lia.
Qed.
Lemma lnot_16 r : 0 <= r < 65536 → u16 (Z.lnot r) = 65535 - r.
Proof.
  intros. unfold u16, Z.lnot. replace (Z.pred (- r)) with (65535 - r + (-1) * 65536) by lia.
  rewrite Z.mod_add by done. apply Z.mod_small. lia.
Qed.
Lemma csum_finish_spec s : 0 <= s < 4294967296 →
  0 <= csum_finish s < 65536 ∧ (s + csum_finish s) mod 65535 = 0.
Proof.
  intros Hs. unfold csum_finish. rewrite (u32_small s) by done.
  pose proof (fold16_twice s Hs) as (Hr & Hm & _). cbv zeta in *.
  set (r := u32 (fold16 (u32 (fold16 s)))) in *. rewrite lnot_16 by done. split; [lia|].
  replace (s + (65535 - r)) with (s - r + 1 * 65535) by lia. rewrite Z.mod_add by done.
  by rewrite Zminus_mod, Hm, Z.sub_diag.
Qed.

(** ** The outer IPv4 header *)

Lemma csum16_valid bs : bytes_ok bs → even_len bs → mlen bs <= 1024 →
  csum16 le bs 0 = 65535 ↔ inet_sum bs mod 65535 = 0 ∧ 0 < inet_sum bs.
Proof.
  intros Hb He Hl. unfold csum16. rewrite Z.add_0_l, word_sum_inet by done.
  pose proof (inet_sum_range bs Hb). pose proof (mlen_nonneg bs).
  rewrite (u32_small (inet_sum bs)) by lia.
  pose proof (fold16_twice (inet_sum bs) ltac:(lia)) as (Hr & Hm & Hz). cbv zeta in *.
  set (r := u32 (fold16 (u32 (fold16 (inet_sum bs))))) in *. rewrite u16_small by done.
  split.
  - intros E. rewrite E in Hm. split; [by rewrite <-Hm|].
    destruct (Z.eq_dec (inet_sum bs) 0) as [E0|]; [|lia].
    exfalso. subst r. rewrite E0 in E. done.
  - intros [E Hp]. rewrite E in Hm. specialize (Hz Hp).
    pose proof (Z.div_mod r 65535 ltac:(lia)). lia.
Qed.

Lemma mlen_host_bytes v : mlen (host_bytes le v) = 2.
Proof. unfold host_bytes. by destruct le. Qed.
Lemma host_bytes_ok v : 0 <= v < 65536 → bytes_ok (host_bytes le v).
Proof.
  intros. pose proof (Z.mod_pos_bound v 256 ltac:(lia)). pose proof (Z.div_mod v 256 ltac:(lia)).
  unfold host_bytes. destruct le; octets.
Qed.

Definition ip4_bytes (src dst : list Z) (tot_len : Z) (ck : list Z) : list Z :=
  [69; 0] ++ be_bytes 2 tot_len ++ [0; 0; 0; 0; 64; IPPROTO_UDP] ++ ck ++ src ++ dst.
Lemma inet_sum_ip4 src dst n ck : mlen ck = 2 →
  inet_sum (ip4_bytes src dst n ck) = inet_sum (ip4_bytes src dst n [0; 0]) + inet_sum ck.
Proof.
  intros Hc.
  assert (E : ∀ c, ip4_bytes src dst n c = ([69; 0] ++ be_bytes 2 n ++ [0; 0; 0; 0; 64; IPPROTO_UDP]) ++ c ++ src ++ dst).
  { intros. unfold ip4_bytes. by rewrite <-!app_assoc. }
  assert (He : even_len ([69; 0] ++ be_bytes 2 n ++ [0; 0; 0; 0; 64; IPPROTO_UDP])) by done.
  rewrite !E. clear E. generalize dependent ([69; 0] ++ be_bytes 2 n ++ [0; 0; 0; 0; 64; IPPROTO_UDP]).
  intros pre He. rewrite !(inet_sum_app pre) by done. rewrite !(inet_sum_app _ (src ++ dst));
    [|done|unfold even_len; by rewrite Hc].
  change (inet_sum [0; 0]) with (host16 le 0 0 + 0). unfold host16. destruct le; lia.
Qed.
Lemma ip4_bytes_ok src dst n ck : bytes_ok src → bytes_ok dst → bytes_ok ck → bytes_ok (ip4_bytes src dst n ck).
Proof.
  intros. unfold ip4_bytes. rewrite !bytes_ok_app. split_and!; try done; try apply be_bytes_ok; octets.
Qed.
Lemma mlen_ip4_bytes src dst n ck : mlen ck = 2 → mlen src = 4 → mlen dst = 4 →
  mlen (ip4_bytes src dst n ck) = 20.
Proof. intros. unfold ip4_bytes. mlia. Qed.

(** The header of the encapsulation passes the check of the decapsulation. *)
Lemma ip4_header_valid src dst n : bytes_ok src → bytes_ok dst → mlen src = 4 → mlen dst = 4 →
  ∃ ck, ip4_header le src dst n = ip4_bytes src dst n ck ∧ mlen ck = 2 ∧ bytes_ok ck ∧
    csum16 le (ip4_header le src dst n) 0 = 65535.
Proof.
  intros Hs Hd Ls Ld. pose proof (ip4_bytes_ok src dst n [0; 0] Hs Hd ltac:(by repeat constructor)) as Hb0.
  pose proof (mlen_ip4_bytes src dst n [0; 0] ltac:(done) Ls Ld) as L0.
  set (s := inet_sum (ip4_bytes src dst n [0; 0])).
  pose proof (inet_sum_range _ Hb0) as Hr. fold s in Hr. rewrite L0 in Hr.
  assert (Hc : csum16 le (ip4_bytes src dst n [0; 0]) 0 = u32 (fold16 (u32 (fold16 s)))).
  { unfold csum16. rewrite Z.add_0_l, word_sum_inet by (unfold even_len; by rewrite L0). fold s.
    rewrite (u32_small s) by lia. pose proof (fold16_twice s ltac:(lia)) as (? & _). by rewrite u16_small. }
  pose proof (fold16_twice s ltac:(lia)) as (Hr' & Hm & Hz). cbv zeta in *.
  set (c := u32 (fold16 (u32 (fold16 s)))) in *.
  assert (Hk : bytes_ok (host_bytes le (65535 - c))) by (apply host_bytes_ok; lia).
  exists (host_bytes le (65535 - c)).
  assert (E : ip4_header le src dst n = ip4_bytes src dst n (host_bytes le (65535 - c))).
  { unfold ip4_header. fold (ip4_bytes src dst n [0; 0]). rewrite Hc, lnot_16 by done. done. }
  split_and!; [done|apply mlen_host_bytes|done|]. rewrite E.
  apply csum16_valid; [by apply ip4_bytes_ok|..].
  - unfold even_len. by rewrite mlen_ip4_bytes by (done || apply mlen_host_bytes).
  - rewrite mlen_ip4_bytes by (done || apply mlen_host_bytes). lia.
  - rewrite inet_sum_ip4 by apply mlen_host_bytes. fold s. rewrite host16_bytes by lia. split.
    + replace (s + (65535 - c)) with (s - c + 1 * 65535) by lia. rewrite Z.mod_add by done.
      by rewrite Zminus_mod, Hm, Z.sub_diag.
    + assert (0 < s); [|lia]. subst s. unfold ip4_bytes. cbn [app].
      change (0 < host16 le 69 0 + inet_sum (be_bytes 2 n ++ [0; 0; 0; 0; 64; IPPROTO_UDP] ++ [0; 0] ++ src ++ dst)).
      assert (0 < host16 le 69 0) by (unfold host16; destruct le; done).
      enough (0 <= inet_sum (be_bytes 2 n ++ [0; 0; 0; 0; 64; IPPROTO_UDP] ++ [0; 0] ++ src ++ dst)) by lia.
      apply inet_sum_range. unfold ip4_bytes in Hb0. by apply bytes_ok_app in Hb0 as [_ Hb0].
Qed.

(** ** Sums over the frame *)

(** What [bpf_csum_diff(0, 0, to, size, seed)] promises: a 32-bit sum, congruent to the
    seed plus the words of [to]. *)
Class CsumDiff (csum_diff : list Z → Z → Z) : Prop :=
  csum_diff_spec bs seed :
    bytes_ok bs → mlen bs mod 4 = 0 → mlen bs <= 512 → 0 <= seed < 4294967296 →
    0 <= csum_diff bs seed < 4294967296 ∧
    csum_diff bs seed mod 65535 = (seed + inet_sum bs) mod 65535.

Context (csum_diff : list Z → Z → Z) {Hdiff : CsumDiff csum_diff}.

Lemma load_bytes_Some k off n bs : load_bytes k off n = Some bs →
  0 <= off ∧ off + n <= sk_len k ∧ bs = slice (sk_data k) off n.
Proof.
  unfold load_bytes. destruct (Z.leb_spec 0 off); [|done].
  destruct (Z.leb_spec (off + n) (sk_len k)); [|done]. cbn. by intros [= <-].
Qed.
Lemma load_bytes_ok k off n : 0 <= off → off + n <= sk_len k →
  load_bytes k off n = Some (slice (sk_data k) off n).
Proof.
  intros. unfold load_bytes. by rewrite (proj2 (Z.leb_le _ _)), (proj2 (Z.leb_le _ _)) by lia.
Qed.

Lemma csum_pkt_range_in chunks k : ∀ off remain sum r,
  0 < remain <= 64 * Z.of_nat chunks →
  csum_pkt_range csum_diff chunks k off remain sum = Some r → 0 <= off ∧ off + remain <= sk_len k.
Proof using.
  clear Hdiff. induction chunks as [|chunks IH]; intros off remain sum r Hr; [lia|].
  cbn [csum_pkt_range]. rewrite (proj2 (Z.eqb_neq remain 0)) by lia. unfold CSUM_CHUNK. cbv zeta.
  destruct (Z.ltb_spec 64 remain) as [Hb|Hb];
    (destruct (load_bytes k off _) as [bs|] eqn:El; [|done]);
    apply load_bytes_Some in El as (H0 & H1 & _); cbn [mbind option_bind];
    (destruct (_ <? 0); [done|]).
  - intros H. apply IH in H; lia.
  - intros _. lia.
Qed.

Lemma csum_pkt_range_spec chunks k : ∀ off remain sum,
  bytes_ok (sk_data k) → 0 <= off → 0 <= remain <= 64 * Z.of_nat chunks → off + remain <= sk_len k →
  0 <= sum < 4294967296 →
  ∃ r, csum_pkt_range csum_diff chunks k off remain sum = Some r ∧ 0 <= r < 4294967296 ∧
    r mod 65535 = (sum + inet_sum (slice (sk_data k) off remain)) mod 65535.
Proof using Hdiff.
  induction chunks as [|chunks IH]; intros off remain sum Hb Ho Hr Hl Hs; cbn [csum_pkt_range].
  - rewrite (proj2 (Z.eqb_eq remain 0)) by lia. exists sum. replace remain with 0 by lia.
    rewrite slice_0. cbn [inet_sum]. rewrite Z.add_0_r. done.
  - destruct (Z.eqb_spec remain 0) as [->|Hn].
    { exists sum. rewrite slice_0. cbn [inet_sum]. rewrite Z.add_0_r. done. }
    unfold CSUM_CHUNK. cbv zeta. set (n := if 64 <? remain then 64 else remain).
    assert (Hn' : 0 < n <= 64 ∧ n <= remain ∧ (n = 64 ∨ n = remain)) by
      (subst n; destruct (Z.ltb_spec 64 remain); lia).
    rewrite load_bytes_ok by lia. cbn [mbind option_bind]. rewrite (u32_small sum) by done.
    assert (Lz : mlen (slice (sk_data k) off n) = n) by (apply mlen_slice; unfold sk_len in *; lia).
    destruct (csum_diff_spec (slice (sk_data k) off n ++ zeros (64 - n)) sum) as [Hd Hm].
    + apply bytes_ok_app. split; [by apply bytes_ok_slice|apply bytes_ok_zeros].
    + rewrite mlen_app, Lz, mlen_zeros by lia. by replace (n + (64 - n)) with 64 by lia.
    + rewrite mlen_app, Lz, mlen_zeros by lia. lia.
    + done.
    + rewrite inet_sum_pad in Hm. rewrite (proj2 (Z.ltb_ge _ _)) by lia.
      destruct (IH (off + n) (remain - n) (csum_diff (slice (sk_data k) off n ++ zeros (64 - n)) sum))
        as (r & -> & Hr2 & Hm2); [done|lia..|].
      exists r. split_and!; [done|lia..|]. rewrite Hm2, Zplus_mod, Hm, <-Zplus_mod. f_equal.
      assert (Hz : inet_sum (slice (sk_data k) off remain) =
        inet_sum (slice (sk_data k) off n) + inet_sum (slice (sk_data k) (off + n) (remain - n))).
      { destruct Hn' as (? & ? & [E|E]).
        - replace remain with (n + (remain - n)) at 1 by lia. rewrite slice_split by lia.
          apply inet_sum_app. unfold even_len. by rewrite Lz, E.
        - rewrite E at 2. replace (remain - n) with 0 by lia. rewrite slice_0. cbn [inet_sum]. rewrite <-E. lia. }
      lia.
Qed.

(** A pseudo-header and a range of the frame: the checksum that makes them sum to zero. *)
Lemma csum_l4_spec k pseudo off len :
  bytes_ok (sk_data k) → bytes_ok pseudo → mlen pseudo mod 4 = 0 → mlen pseudo <= 512 →
  0 <= off → 0 <= len <= 2048 → off + len <= sk_len k →
  ∃ c, csum_l4 csum_diff k pseudo off len = Some c ∧ 0 <= c < 65536 ∧
    (inet_sum pseudo + inet_sum (slice (sk_data k) off len) + c) mod 65535 = 0.
Proof using Hdiff.
  intros Hb Hp H4 H512 Ho Hl Hk. unfold csum_l4.
  destruct (csum_diff_spec pseudo 0) as [Hd Hm]; [done..|]. rewrite (proj2 (Z.ltb_ge _ _)) by lia.
  destruct (csum_pkt_range_spec 32 k off len (csum_diff pseudo 0)) as (r & -> & Hr & Hmr); [done|lia..|].
  cbn [mbind option_bind]. pose proof (csum_finish_spec r Hr) as [Hc Hz].
  exists (csum_finish r). split_and!; [done|lia..|].
  rewrite <-Hz, Zplus_mod. rewrite (Zplus_mod r). f_equal. f_equal.
  rewrite Hmr, Zplus_mod. rewrite (Zplus_mod (csum_diff pseudo 0)). f_equal. f_equal. rewrite Hm. done.
Qed.
Lemma csum_l4_in k pseudo off len c : 0 < len <= 2048 →
  csum_l4 csum_diff k pseudo off len = Some c → 0 <= off ∧ off + len <= sk_len k.
Proof using.
  clear Hdiff. intros Hl. unfold csum_l4. destruct (_ <? 0); [done|].
  destruct (csum_pkt_range _ _ _ _ _ _) eqn:E; [|done]. intros _.
  by apply (csum_pkt_range_in 32) in E; [|lia].
Qed.

(** ** The inner checksum *)

Lemma inet_sum_field m l4 len ck : 0 <= l4 <= ck → ck + 2 <= l4 + len → l4 + len <= mlen m →
  (ck - l4) mod 2 = 0 →
  inet_sum (slice m l4 len) =
    inet_sum (slice m l4 (ck - l4)) + inet_sum (slice m ck 2) + inet_sum (slice m (ck + 2) (l4 + len - ck - 2)).
Proof using.
  intros Hl Hc Hm He. replace len with ((ck - l4) + (2 + (l4 + len - ck - 2))) at 1 by lia.
  rewrite slice_split by lia. replace (l4 + (ck - l4)) with ck by lia. rewrite slice_split by lia.
  rewrite !inet_sum_app; [lia|..]; unfold even_len; rewrite mlen_slice by lia; done.
Qed.
Lemma inet_sum_splice m l4 len ck bs : mlen bs = 2 → 0 <= l4 <= ck → ck + 2 <= l4 + len → l4 + len <= mlen m →
  (ck - l4) mod 2 = 0 →
  inet_sum (slice (splice m ck bs) l4 len) = inet_sum (slice m l4 len) - inet_sum (slice m ck 2) + inet_sum bs.
Proof using.
  intros Hb Hl Hc Hm He. rewrite (inet_sum_field (splice m ck bs) l4 len ck), (inet_sum_field m l4 len ck)
    by (rewrite ?mlen_splice by lia; lia).
  rewrite (slice_splice_disj m ck bs l4), (slice_splice_disj m ck bs (ck + 2)), slice_splice_same by lia. lia.
Qed.

Lemma splice_twice m i a b : mlen b = mlen a → 0 <= i → i + mlen a <= mlen m →
  splice (splice m i a) i b = splice m i b.
Proof using.
  intros Hl Hi Hm. rewrite <-(Z.add_0_r i) at 2. rewrite splice_in by lia. f_equal. rewrite splice_0.
  rewrite drop_ge by (unfold mlen in Hl; lia). apply app_nil_r.
Qed.

Lemma store_bytes_Some e k off bs k' : store_bytes e k off bs = Some k' →
  e_store e = true ∧ 0 <= off ∧ off + mlen bs <= sk_len k ∧
  k' = Skb (splice (sk_data k) off bs) (sk_lin k) (sk_protocol k) (sk_ifindex k).
Proof using.
  unfold store_bytes. destruct (e_store e); [|done]. destruct (Z.leb_spec 0 off); [|done].
  destruct (Z.leb_spec (off + mlen bs) (sk_len k)); [|done]. cbn. by intros [= <-].
Qed.

Lemma store_bytes_ok e k off bs : e_store e = true → 0 <= off → off + mlen bs <= sk_len k →
  store_bytes e k off bs = Some (Skb (splice (sk_data k) off bs) (sk_lin k) (sk_protocol k) (sk_ifindex k)).
Proof using.
  intros He Ho Hl. unfold store_bytes. by rewrite He, (proj2 (Z.leb_le 0 off)), (proj2 (Z.leb_le _ _)) by lia.
Qed.

(** What the stack gives the datapath to classify. *)
Definition flow_ok (f : flow) : Prop :=
  (fl_family f = AF_INET ∨ fl_family f = AF_INET6) ∧ 0 <= fl_proto f < 256 ∧
  (bytes_ok (fl_ue_addr f) ∧ mlen (fl_ue_addr f) = 16) ∧ (bytes_ok (fl_saddr f) ∧ mlen (fl_saddr f) = 16) ∧
  (fl_l4_off f = 0 ∨ 34 <= fl_l4_off f <= 74 ∧ fl_l4_off f mod 2 = 0) ∧ 0 <= fl_l4_len f < 65536.

Definition l4_pseudo (f : flow) : list Z :=
  if fl_family f =? AF_INET
  then pseudo4 (take 4 (fl_saddr f)) (take 4 (fl_ue_addr f)) (u16 (fl_l4_len f)) (fl_proto f)
  else pseudo6 (fl_saddr f) (fl_ue_addr f) (fl_l4_len f) (fl_proto f).
(** The inner packet carries a checksum the datapath completes, and the field of it. *)
Definition completed (f : flow) : bool :=
  negb (fl_l4_off f =? 0) && ((fl_proto f =? IPPROTO_UDP) || (fl_proto f =? IPPROTO_TCP)) &&
  ((if fl_proto f =? IPPROTO_UDP then 8 else 20) <=? fl_l4_len f) && (fl_l4_len f <=? CSUM_MAX_LEN).
Definition field_off (f : flow) : Z := fl_l4_off f + if fl_proto f =? IPPROTO_UDP then 6 else 16.
(** The sum over pseudo-header and segment, the checksum field included, is zero. *)
Definition l4_valid (data : mem) (f : flow) (off : Z) : Prop :=
  (inet_sum (l4_pseudo f) + inet_sum (slice data off (fl_l4_len f))) mod 65535 = 0.

Lemma l4_pseudo_ok f : flow_ok f →
  bytes_ok (l4_pseudo f) ∧ mlen (l4_pseudo f) mod 4 = 0 ∧ mlen (l4_pseudo f) <= 512.
Proof using.
  intros (_ & Hp & [Ha La] & [Hs Ls] & _ & _).
  assert (T : ∀ a, bytes_ok a → mlen a = 16 → bytes_ok (take 4 a) ∧ mlen (take 4 a) = 4).
  { intros a Hb Hl. split; [by apply Forall_take|]. apply (mlen_take 4 a). lia. }
  destruct (T _ Ha La) as [Ta Tla], (T _ Hs Ls) as [Ts Tls]. clear T.
  unfold l4_pseudo. destruct (_ =? _).
  - unfold pseudo4. split; [|split; mlia || (replace (mlen _) with 12 by mlia; done)].
    rewrite !bytes_ok_app. split_and!; try done; try apply be_bytes_ok; octets.
  - unfold pseudo6. split; [|split; mlia || (replace (mlen _) with 40 by mlia; done)].
    rewrite !bytes_ok_app. split_and!; try done; try apply be_bytes_ok; octets.
Qed.

Lemma completed_inv f : completed f = true →
  fl_l4_off f ≠ 0 ∧ (fl_proto f = IPPROTO_UDP ∨ fl_proto f = IPPROTO_TCP) ∧
  0 < (if fl_proto f =? IPPROTO_UDP then 6 else 16) ∧
  (if fl_proto f =? IPPROTO_UDP then 6 else 16) mod 2 = 0 ∧
  (if fl_proto f =? IPPROTO_UDP then 6 else 16) + 2 <= fl_l4_len f <= 2048.
Proof using.
  unfold completed, CSUM_MAX_LEN. rewrite !andb_true_iff, negb_true_iff, orb_true_iff, !Z.leb_le, Z.eqb_neq, !Z.eqb_eq.
  intros (((? & ?) & ?) & ?). destruct (_ =? _); split_and!; done || lia.
Qed.

(** What the completion does to a frame: nothing, or two octets in the field. *)
Definition completion (f : flow) (n : Z) (k k1 : sk_buff) : Prop :=
  ∃ c, 0 <= c < 65536 ∧ fl_l4_off f + n + fl_l4_len f <= sk_len k ∧
    k1 = Skb (splice (sk_data k) (field_off f + n) (host_bytes le c)) (sk_lin k) (sk_protocol k) (sk_ifindex k) ∧
    l4_valid (sk_data k1) f (fl_l4_off f + n) ∧ (fl_proto f = IPPROTO_UDP → c ≠ 0).

Lemma encap_inner_csum_skip e k f n :
  completed f = false → encap_inner_csum le csum_diff e k f n = Some k.
Proof using. intros H. unfold encap_inner_csum. cbv zeta. fold (completed f). by rewrite H. Qed.

Lemma encap_inner_csum_spec e k f n k1 :
  bytes_ok (sk_data k) → flow_ok f → 0 <= n → completed f = true →
  encap_inner_csum le csum_diff e k f n = Some k1 → completion f n k k1.
Proof using Hdiff.
  intros Hb Hf Hn Hc. unfold encap_inner_csum. cbv zeta. fold (completed f). rewrite Hc.
  fold (l4_pseudo f). destruct (completed_inv f Hc) as (Ho & Hp & Hd & He & Hl).
  pose proof Hf as (_ & _ & _ & _ & [?|[Hoff _]] & _); [done|].
  set (d := if fl_proto f =? IPPROTO_UDP then 6 else 16) in *.
  destruct (store_bytes e k _ _) as [k0|] eqn:E0; [|done]. cbn [mbind option_bind].
  apply store_bytes_Some in E0 as (Hst & H1 & H2 & ->). unfold completion, sk_len in *.
  set (m := sk_data k) in *. set (ck := fl_l4_off f + n + d) in *. change (mlen [0; 0]) with 2 in H2.
  set (k0 := Skb (splice m ck [0; 0]) _ _ _). destruct (csum_l4 _ _ _ _ _) as [c|] eqn:Ec; [|done].
  cbn [mbind option_bind]. intros E1. apply store_bytes_Some in E1 as (_ & _ & H3 & ->).
  assert (Lm : mlen (sk_data k0) = mlen m) by (apply mlen_splice; done || lia).
  assert (Hb0 : bytes_ok (sk_data k0)) by (apply bytes_ok_splice; [done|octets]).
  pose proof (csum_l4_in k0 _ _ (fl_l4_len f) c ltac:(lia) Ec) as [_ Hin]. unfold sk_len in Hin. rewrite Lm in Hin.
  destruct (l4_pseudo_ok f Hf) as (Hpb & Hp4 & Hp5).
  destruct (csum_l4_spec k0 (l4_pseudo f) (fl_l4_off f + n) (fl_l4_len f)) as (c' & Ec' & Hcr & Hz);
    [done..|lia|lia|unfold sk_len; lia|]. rewrite Ec in Ec'. injection Ec' as <-.
  set (c1 := if _ && _ then _ else _).
  assert (Hc1 : 0 <= c1 < 65536 ∧ (c1 = c ∨ c = 0 ∧ c1 = 65535) ∧ (fl_proto f = IPPROTO_UDP → c1 ≠ 0)).
  { subst c1. destruct (Z.eqb_spec (fl_proto f) IPPROTO_UDP), (Z.eqb_spec c 0); cbn [andb]; lia. }
  exists c1. destruct Hc1 as (Hcr1 & Hcc & Hcu). split_and!; [lia..| | |done].
  - f_equal. unfold field_off. replace (_ + (if fl_proto f =? IPPROTO_UDP then 6 else 16) + n) with ck by (subst ck d; lia).
    change (sk_data k0) with (splice m ck [0; 0]).
    apply splice_twice; [by rewrite mlen_host_bytes|done..].
  - unfold l4_valid. cbn [sk_data]. rewrite inet_sum_splice; try lia; [|apply mlen_host_bytes|].
    2:{ subst ck. by replace (_ - _) with d by lia. }
    rewrite host16_bytes by lia.
    assert (Hz0 : inet_sum (slice (sk_data k0) ck 2) = 0).
    { change (sk_data k0) with (splice m ck [0; 0]). rewrite slice_splice_same by (done || lia). apply (inet_sum_zeros 2). }
    rewrite Hz0. replace (_ + _) with (inet_sum (l4_pseudo f) + inet_sum (slice (sk_data k0) (fl_l4_off f + n) (fl_l4_len f)) + c1) by lia.
    destruct Hcc as [->|[-> ->]]; [done|]. rewrite Z.add_0_r in Hz. by rewrite Zplus_mod, Hz.
Qed.
End csum.

(** The check does not depend on the byte order of the host. *)
Lemma inet_sum_swap le bs : bytes_ok bs → ∃ q, 0 <= q ∧ 256 * inet_sum le bs = inet_sum (negb le) bs + 65535 * q.
Proof.
  induction bs as [|x|x y l IH] using octets_pair_ind; intros Hb.
  - by exists 0.
  - apply bytes_ok_cons in Hb as [Hx _]. exists (if le then 0 else x). cbn [inet_sum]. unfold host16. destruct le; cbn [negb]; lia.
  - apply bytes_ok_cons in Hb as [Hx Hb]. apply bytes_ok_cons in Hb as [Hy Hb]. destruct (IH Hb) as (q & Hq & E).
    exists (q + if le then y else x). cbn [inet_sum]. unfold host16. destruct le; cbn [negb] in *; lia.
Qed.
Lemma csum16_host le le2 bs : bytes_ok bs → even_len bs → mlen bs <= 1024 →
  csum16 le bs 0 = 65535 → csum16 le2 bs 0 = 65535.
Proof.
  intros Hb He Hl. destruct (decide (le2 = le)) as [->|Hn]; [done|].
  rewrite !csum16_valid by done. intros [Hm Hp]. destruct (inet_sum_swap le2 bs Hb) as (q & Hq & E).
  assert (Eb : negb le2 = le) by (destruct le, le2; done). rewrite Eb in E. split; [|lia].
  apply Z.mod_divide in Hm as [c Hc]; [|done]. rewrite Hc in E.
  apply Z.mod_divide; [done|]. apply (Z.gauss 65535 256); [|done].
  exists (c + q). lia.
Qed.
End GtpuCsum.
