(* ===== verification/GtpuPath.v ===== *)
(** * GtpuPath: what the GTP-U datapath does to a frame

    Theorems on the two programs of GtpuKern: they read only what is there and pass, drop or
    redirect every frame; the bearer is the first match of the documented order and
    fragments follow their head. What a G-PDU is stripped to is in GtpuTunnel. *)

From S2P Require Import Prelude Endian GtpuKern GtpuCsum.

Module GtpuPath.
Import GtpuKern GtpuCsum.

(** A frame: octets, of which packet pointers reach a prefix. *)
Definition skb_ok (k : sk_buff) : Prop := bytes_ok (sk_data k) ∧ 0 <= sk_lin k <= sk_len k.

Lemma pkt_Ok k off n : skb_ok k → 0 <= off → 0 <= n → off + n <= sk_lin k →
  pkt k off n = Ok (slice (sk_data k) off n).
Proof.
  intros [_ Hk] Ho Hn Hl. unfold sk_len in Hk. unfold pkt. rewrite rdn_Ok; [|lia|lia|rewrite mlen_take; lia].
  f_equal. unfold slice. rewrite skipn_firstn_comm, take_take. f_equal. lia.
Qed.
Lemma pkt16_Ok k off : skb_ok k → 0 <= off → off + 2 <= sk_lin k →
  pkt16 k off = Ok (be_val (slice (sk_data k) off 2)).
Proof. intros. unfold pkt16. by rewrite pkt_Ok by (done || lia). Qed.
Lemma be_val_1 x : be_val [x] = x.
Proof. cbn. lia. Qed.
Lemma pkt8_Ok k off : skb_ok k → 0 <= off → off + 1 <= sk_lin k → pkt8 k off = Ok (get (sk_data k) off).
Proof.
  intros Hk ? ?. unfold pkt8. rewrite pkt_Ok by (done || lia). bstep.
  pose proof Hk as [_ Hl]. unfold sk_len in Hl. rewrite get_via_slice by lia. by rewrite be_val_1.
Qed.

(** A direct read that the length check before it covers. *)
Ltac pkt_reads :=
  repeat match goal with
  | |- context [pkt16 ?k ?o] => rewrite (pkt16_Ok k o) by (done || lia)
  | |- context [pkt8 ?k ?o] => rewrite (pkt8_Ok k o) by (done || lia)
  | |- context [pkt ?k ?o ?n] => rewrite (pkt_Ok k o n) by (done || lia)
  end; bstep.

(** ** Classification *)

(** The filters a packet is looked up under, in the documented order: its own source first,
    then any source, and in each pass the ports from the most to the least specific. *)
Definition port_tiers (ue_port remote_port : Z) : list (Z * Z) :=
  [(ue_port, remote_port); (ue_port, 0); (0, remote_port); (0, 0)].
Definition tft_keys (family : Z) (ue_addr ue_saddr : list Z) (proto ue_port remote_port : Z) : list gtpu_tft_key :=
  saddr ← [ue_saddr; zeros 16];
  '(p, q) ← port_tiers ue_port remote_port;
  [TftKey family proto p q ue_addr saddr].
Definition first_hit (m : maps) (keys : list gtpu_tft_key) : option gtpu_tx_tun := head (omap (m_tft m) keys).

(** The first [len] bits of two addresses of [n] bits agree. *)
Definition agree (n len : Z) (a b : list Z) : Prop :=
  ∀ i, 0 <= i < len → Z.testbit (be_val a) (n - 1 - i) = Z.testbit (be_val b) (n - 1 - i).
(** A tunnel of the longest matching prefix, [None] when nothing matches. *)
Definition longest (n : Z) (t : list (Z * list Z * gtpu_tx_tun)) (addr : list Z) (r : option gtpu_tx_tun) : Prop :=
  match r with
  | None => ∀ len a tun, (len, a, tun) ∈ t → ¬ agree n len a addr
  | Some tun => ∃ len a, (len, a, tun) ∈ t ∧ agree n len a addr ∧
      ∀ len' a' tun', (len', a', tun') ∈ t → agree n len' a' addr → len' <= len
  end.
(** Prefixes as the control plane installs them. *)
Definition trie_ok (octets : Z) (t : list (Z * list Z * gtpu_tx_tun)) : Prop :=
  ∀ len a tun, (len, a, tun) ∈ t → 0 <= len <= octets * 8 ∧ bytes_ok a ∧ mlen a = octets.

Lemma high_bits x n i : 0 <= x < 2 ^ n → n <= i → Z.testbit x i = false.
Proof.
  intros Hx Hi. destruct (Z.eq_dec x 0) as [->|]; [apply Z.bits_0|].
  apply Z.bits_above_log2; [lia|]. assert (Z.log2 x < n) by (apply Z.log2_lt_pow2; lia). lia.
Qed.
Lemma div_pow2_eq x y n s : 0 <= s <= n → 0 <= x < 2 ^ n → 0 <= y < 2 ^ n →
  x / 2 ^ s = y / 2 ^ s ↔ ∀ i, s <= i < n → Z.testbit x i = Z.testbit y i.
Proof.
  intros Hs Hx Hy. split.
  - intros E i Hi. replace i with ((i - s) + s) by lia. rewrite <-!Z.div_pow2_bits by lia. by rewrite E.
  - intros H. apply Z.bits_inj'. intros j Hj. rewrite !Z.div_pow2_bits by lia.
    destruct (Z_lt_ge_dec (j + s) n); [apply H; lia|]. by rewrite !(high_bits _ n) by (done || lia).
Qed.
Lemma be_val_bits a o : bytes_ok a → mlen a = o → 0 <= be_val a < 2 ^ (o * 8).
Proof.
  intros Hb Hl. pose proof (be_val_range a Hb) as H. unfold mlen in Hl. rewrite Hl in H.
  change 256 with (2 ^ 8) in H. rewrite <-Z.pow_mul_r in H by lia. by rewrite Z.mul_comm.
Qed.
Lemma prefix_eq_spec o len a addr : bytes_ok a → mlen a = o → bytes_ok addr → mlen addr = o → 0 <= len <= o * 8 →
  prefix_eq len a addr = true ↔ agree (o * 8) len a addr.
Proof.
  intros Ha La Hb Lb Hl. unfold prefix_eq. cbv zeta. fold (mlen addr). rewrite Lb, andb_true_iff, Z.leb_le, Z.eqb_eq.
  rewrite (div_pow2_eq _ _ (o * 8)) by (by apply be_val_bits || lia). unfold agree. split.
  - intros [_ H] i Hi. apply H. lia.
  - intros H. split; [lia|]. intros i Hi. replace i with (o * 8 - 1 - (o * 8 - 1 - i)) by lia. apply H. lia.
Qed.

Lemma lpm_lookup_spec o t addr : trie_ok o t → bytes_ok addr → mlen addr = o →
  match lpm_lookup t addr with
  | None => ∀ len a tun, (len, a, tun) ∈ t → ¬ agree (o * 8) len a addr
  | Some (len, tun) => ∃ a, (len, a, tun) ∈ t ∧ agree (o * 8) len a addr ∧
      ∀ len' a' tun', (len', a', tun') ∈ t → agree (o * 8) len' a' addr → len' <= len
  end.
Proof.
  intros Ht Hb Lb. induction t as [|[[len a] tun] t IH]; cbn [lpm_lookup].
  { intros ? ? ? H. by apply elem_of_nil in H. }
  destruct (Ht len a tun) as (Hl & Ha & La); [left|].
  assert (Ht' : trie_ok o t) by (intros l a' t' Hi; apply (Ht l a' t'); by right). specialize (IH Ht').
  pose proof (prefix_eq_spec o len a addr Ha La Hb Lb Hl) as Hp.
  destruct (prefix_eq len a addr).
  - assert (Ag : agree (o * 8) len a addr) by (by apply Hp).
    destruct (lpm_lookup t addr) as [[len2 tun2]|].
    + destruct IH as (a2 & Hin & Ag2 & Hmax). destruct (Z.ltb_spec len len2).
      * exists a2. split; [by right|]. split; [done|]. intros ? ? ? Hi ?.
        apply elem_of_cons in Hi as [[= -> -> ->]|Hi]; [lia|eauto].
      * exists a. split; [left|]. split; [done|]. intros ? ? ? Hi Ag'.
        apply elem_of_cons in Hi as [[= -> -> ->]|Hi]; [lia|]. specialize (Hmax _ _ _ Hi Ag'). lia.
    + exists a. split; [left|]. split; [done|]. intros ? ? ? Hi Ag'.
      apply elem_of_cons in Hi as [[= -> -> ->]|Hi]; [lia|]. by destruct (IH _ _ _ Hi).
  - assert (Na : ¬ agree (o * 8) len a addr) by (by intros Ag; apply Hp in Ag).
    destruct (lpm_lookup t addr) as [[len2 tun2]|].
    + destruct IH as (a2 & Hin & Ag2 & Hmax). exists a2. split; [by right|]. split; [done|]. intros ? ? ? Hi Ag'.
      apply elem_of_cons in Hi as [[= -> -> ->]|Hi]; [done|eauto].
    + intros ? ? ? Hi. apply elem_of_cons in Hi as [[= -> -> ->]|Hi]; [done|eauto].
Qed.

Lemma tft_probe_first m k up rp :
  tft_probe_ports m k up rp = first_hit m (pq ← port_tiers up rp; [with_ports k pq.1 pq.2]).
Proof.
  unfold tft_probe_ports, first_hit, port_tiers. cbn.
  destruct (m_tft m (with_ports k up rp)) as [t|] eqn:E1; [done|].
  destruct (Z.eqb_spec rp 0) as [->|].
  - rewrite E1. destruct (Z.eqb_spec up 0) as [->|]; [by rewrite E1|].
    by destruct (m_tft m (with_ports k 0 0)) as [t|] eqn:E3.
  - destruct (m_tft m (with_ports k up 0)) as [t|] eqn:E2; [done|].
    destruct (Z.eqb_spec up 0) as [->|].
    + by rewrite E1, E2.
    + destruct (m_tft m (with_ports k 0 rp)) as [t|] eqn:E3; [done|]. cbn. by destruct (m_tft m (with_ports k 0 0)).
Qed.

Lemma first_hit_app m a b : first_hit m (a ++ b) =
  match first_hit m a with Some t => Some t | None => first_hit m b end.
Proof. unfold first_hit. rewrite omap_app. by destruct (omap (m_tft m) a). Qed.

Definition ue_trie (m : maps) (family : Z) : list (Z * list Z * gtpu_tx_tun) :=
  if family =? AF_INET then m_tx4 m else m_tx6 m.
Definition ue_octets (family : Z) : Z := if family =? AF_INET then 4 else 16.

(** The bearer of a packet is the dedicated bearer of the first of the eight filters of
    the documented order that is installed, however the probes share and skip lookups;
    when none is, it is a default bearer of the longest prefix of the UE address in the
    trie of its family, and none when no prefix matches. *)
Theorem gtpu_classify_order m family ue_addr ue_saddr proto ue_port remote_port :
  bytes_ok ue_addr → mlen ue_addr = 16 → trie_ok 4 (m_tx4 m) → trie_ok 16 (m_tx6 m) →
  match first_hit m (tft_keys family ue_addr ue_saddr proto ue_port remote_port) with
  | Some tun => tx_classify m family ue_addr ue_saddr proto ue_port remote_port = Some tun
  | None => longest (ue_octets family * 8) (ue_trie m family) (take (Z.to_nat (ue_octets family)) ue_addr)
      (tx_classify m family ue_addr ue_saddr proto ue_port remote_port)
  end.
Proof.
  intros Hb Hl H4 H6.
  change (tft_keys family ue_addr ue_saddr proto ue_port remote_port) with
    ((pq ← port_tiers ue_port remote_port; [with_ports (with_saddr (TftKey family proto 0 0 ue_addr (zeros 16)) ue_saddr) pq.1 pq.2]) ++
     (pq ← port_tiers ue_port remote_port; [with_ports (with_saddr (TftKey family proto 0 0 ue_addr (zeros 16)) (zeros 16)) pq.1 pq.2])).
  rewrite first_hit_app, <-!tft_probe_first. unfold tx_classify.
  destruct (tft_probe_ports m _ _ _) as [t|]; [done|]. destruct (tft_probe_ports m _ _ _) as [t|]; [done|].
  unfold ue_octets, ue_trie, longest. destruct (family =? AF_INET).
  - change (Z.to_nat 4) with 4%nat. pose proof (lpm_lookup_spec 4 (m_tx4 m) (take 4 ue_addr) H4) as H.
    specialize (H ltac:(by apply Forall_take) ltac:(by apply (mlen_take 4); lia)).
    destruct (lpm_lookup _ _) as [[len tun]|]; cbn; [|done]. naive_solver.
  - rewrite take_ge by (unfold mlen in Hl; lia). pose proof (lpm_lookup_spec 16 (m_tx6 m) ue_addr H6 Hb Hl) as H.
    destruct (lpm_lookup _ _) as [[len tun]|]; cbn; [|done]. naive_solver.
Qed.

Section host.
Context (le : bool).

Lemma decap_outer_total k : skb_ok k → ∃ r, decap_outer le k = Ok r ∧
  match r with
  | inl v => v = TC_ACT_OK ∨ v = TC_ACT_SHOT
  | inr (o, f, a) => o = 34 ∧ f = AF_INET ∨ o = 54 ∧ f = AF_INET6
  end.
Proof.
  intros Hk. unfold decap_outer, ETH_HLEN. destruct (Z.ltb_spec (sk_lin k) 14); [eexists; split; [done|cbn; auto]|]. pkt_reads.
  destruct (_ =? ETH_P_IP).
  - destruct (Z.ltb_spec (sk_lin k) (14 + 20)); [eexists; split; [done|cbn; auto]|]. pkt_reads.
    destruct (_ || _); [eexists; split; [done|cbn; auto]|]. pkt_reads. destruct (negb _); [eexists; split; [done|cbn; auto]|]. pkt_reads.
    destruct (negb _); [eexists; split; [done|cbn; auto]|]. pkt_reads. destruct (negb _); [eexists; split; [done|cbn; auto]|]. pkt_reads. eexists; split; [done|cbn; auto].
  - destruct (_ =? ETH_P_IPV6); [|eexists; split; [done|cbn; auto]].
    destruct (Z.ltb_spec (sk_lin k) (14 + 40)); [eexists; split; [done|cbn; auto]|]. pkt_reads.
    destruct (negb _); [eexists; split; [done|cbn; auto]|]. pkt_reads. eexists; split; [done|cbn; auto].
Qed.

(** ** Parsing for classification *)

Definition parsed (k : sk_buff) (f : flow) : Prop :=
  let m := sk_data k in
  fl_family f = AF_INET ∧ be_val (slice m 12 2) = ETH_P_IP ∧ 34 <= sk_lin k ∧ Z.shiftr (get m 14) 4 = 4 ∧
    fl_ue_addr f = slice m 30 4 ++ zeros 12 ∧ fl_saddr f = slice m 26 4 ++ zeros 12
  ∨ fl_family f = AF_INET6 ∧ be_val (slice m 12 2) = ETH_P_IPV6 ∧ 54 <= sk_lin k ∧
    fl_ue_addr f = slice m 38 16 ∧ fl_saddr f = slice m 22 16 ∧ (fl_l4_off f = 0 ∨ 54 <= fl_l4_off f).

Lemma be_slice2 m i : bytes_ok m → 0 <= i → i + 2 <= mlen m → 0 <= be_val (slice m i 2) < 65536.
Proof using.
  clear le. intros Hb Hi Hl. pose proof (be_val_range (slice m i 2) (bytes_ok_slice m i 2 Hb)) as H.
  pose proof (mlen_slice m i 2 Hi ltac:(lia) Hl) as L. unfold mlen in L. by rewrite L in H.
Qed.
Lemma addr4_ok m i : bytes_ok m → 0 <= i → i + 4 <= mlen m →
  bytes_ok (slice m i 4 ++ zeros 12) ∧ mlen (slice m i 4 ++ zeros 12) = 16.
Proof using.
  clear le. intros. split.
  - apply bytes_ok_app. split; [by apply bytes_ok_slice|apply bytes_ok_zeros].
  - rewrite mlen_app, mlen_slice by lia. done.
Qed.
Lemma addr16_ok m i : bytes_ok m → 0 <= i → i + 16 <= mlen m →
  bytes_ok (slice m i 16) ∧ mlen (slice m i 16) = 16.
Proof using. clear le. intros. split; [by apply bytes_ok_slice|]. by rewrite mlen_slice by lia. Qed.

Lemma encap_parse_spec k : skb_ok k →
  ∃ r, encap_parse k = Ok r ∧
    match r with inl v => v = TC_ACT_OK | inr f => flow_ok f ∧ parsed k f end.
Proof using.
  clear le. intros Hk. pose proof Hk as [Hb Hl]. unfold sk_len in Hl. unfold encap_parse, ETH_HLEN.
  set (m := sk_data k) in *.
  destruct (Z.ltb_spec (sk_lin k) 14); [by eexists|]. pkt_reads. fold m.
  destruct (Z.eqb_spec (be_val (slice m 12 2)) ETH_P_IP) as [Et|Et];
    [|destruct (Z.eqb_spec (be_val (slice m 12 2)) ETH_P_IPV6) as [Et6|Et6]; [|by eexists]].
  - destruct (Z.ltb_spec (sk_lin k) (14 + 20)); [by eexists|]. pkt_reads. fold m.
    destruct (Z.eqb_spec (Z.shiftr (get m 14) 4) 4) as [Ev|]; [|by eexists].
    destruct (Z.ltb_spec (Z.land (get m 14) 15) 5) as [|Hi]; [by eexists|]. cbn [negb orb]. pkt_reads. fold m.
    eexists. split; [done|]. cbv zeta.
    assert (Hi' : Z.land (get m 14) 15 <= 15).
    { change 15 with (Z.ones 4) at 1. rewrite Z.land_ones by done.
      pose proof (Z.mod_pos_bound (get m 14) (2 ^ 4) ltac:(done)). lia. }
    pose proof (be_slice2 m 16 Hb ltac:(lia) ltac:(lia)).
    pose proof (get_range m 23 Hb).
    split; [|left; split_and!; done || lia].
    unfold flow_ok. cbn [fl_family fl_proto fl_ue_addr fl_saddr fl_l4_off fl_l4_len].
    refine (conj _ (conj _ (conj _ (conj _ (conj _ _))))); try (apply addr4_ok; done || lia); [by left|lia| |].
    + destruct (negb _); [by left|]. right. split; [lia|].
      replace (14 + Z.land (get m 14) 15 * 4) with (0 + (7 + Z.land (get m 14) 15 * 2) * 2) by lia. by rewrite Z.mod_add.
    + destruct (negb _); [done|]. destruct (_ <? _) eqn:E; lia.
  - destruct (Z.ltb_spec (sk_lin k) (14 + 40)); [by eexists|]. pkt_reads. fold m.
    assert (Hp : ∀ pr o l i h t, o = 0 ∨ 54 <= o → parsed k (Flow AF_INET6 pr (slice m 38 16) (slice m 22 16) o l i h t))
      by (intros; right; split_and!; done || lia).
    pose proof (get_range m 20 Hb). pose proof (be_slice2 m 18 Hb ltac:(lia) ltac:(lia)).
    destruct (_ =? IPPROTO_FRAGMENT).
    + destruct (load_bytes k (14 + 40) 8) as [fh|] eqn:El; [|by eexists].
      apply load_bytes_Some in El as (_ & _ & ->). fold m. eexists. split; [done|]. cbv zeta.
      split; [|apply Hp; destruct (negb _); lia]. pose proof (get_range (slice m (14 + 40) 8) 0 (bytes_ok_slice m _ _ Hb)).
      unfold flow_ok. cbn [fl_family fl_proto fl_ue_addr fl_saddr fl_l4_off fl_l4_len].
      refine (conj _ (conj _ (conj _ (conj _ (conj _ _))))); try (apply addr16_ok; done || lia); [by right|lia| |done].
      destruct (negb _); [by left|by right].
    + pkt_reads. eexists. split; [done|]. split; [|apply Hp; lia]. fold m.
      unfold flow_ok. cbn [fl_family fl_proto fl_ue_addr fl_saddr fl_l4_off fl_l4_len].
      refine (conj _ (conj _ (conj _ (conj _ (conj _ _))))); try (apply addr16_ok; done || lia); [by right|lia|by right|lia].
Qed.

(** *** The packet by its octets *)

Definition eth_type (m : mem) : Z := be_val (slice m 12 2).
(** An IPv4 or IPv6 packet whose header packet pointers reach. *)
Definition ip4 (k : sk_buff) : Prop :=
  34 <= sk_lin k ∧ eth_type (sk_data k) = ETH_P_IP ∧ get (sk_data k) 14 / 16 = 4 ∧ 5 <= get (sk_data k) 14 mod 16.
Definition ip6 (k : sk_buff) : Prop :=
  54 <= sk_lin k ∧ eth_type (sk_data k) = ETH_P_IPV6 ∧ (get (sk_data k) 20 = IPPROTO_FRAGMENT → 62 <= sk_len k).
(** Flags and offset of a fragment. *)
Definition frag4 (m : mem) : Z := be_val (slice m 20 2).
Definition frag6 (m : mem) : Z := be_val (slice m 56 2).
(** The first fragment of a datagram, or a later one: RFC 791 3.1, RFC 8200 4.5. *)
Definition fragment (first : bool) (k : sk_buff) : Prop :=
  let m := sk_data k in
  ip4 k ∧ (if first then frag4 m mod 8192 = 0 ∧ frag4 m / 8192 mod 2 = 1 else frag4 m mod 8192 ≠ 0)
  ∨ ip6 k ∧ get m 20 = IPPROTO_FRAGMENT ∧ (if first then frag6 m / 8 = 0 else frag6 m / 8 ≠ 0).
(** Source, destination, protocol and identification are those of one datagram. *)
Definition same_datagram (a b : mem) : Prop :=
  eth_type a = eth_type b ∧
  if eth_type a =? ETH_P_IP
  then slice a 26 4 = slice b 26 4 ∧ slice a 30 4 = slice b 30 4 ∧ get a 23 = get b 23 ∧ slice a 18 2 = slice b 18 2
  else slice a 22 16 = slice b 22 16 ∧ slice a 38 16 = slice b 38 16 ∧ get a 54 = get b 54 ∧ slice a 58 4 = slice b 58 4.
(** The entry of the memory of fragments that stands for the datagram. *)
Definition entry (m : mem) : gtpu_frag_key :=
  if eth_type m =? ETH_P_IP
  then FragKey AF_INET (get m 23) (be_val (slice m 18 2)) (slice m 26 4 ++ zeros 12) (slice m 30 4 ++ zeros 12)
  else FragKey AF_INET6 (get m 54) (be_val (slice m 58 4)) (slice m 22 16) (slice m 38 16).

(** What is read of each kind of packet. *)
Definition flow4 (m : mem) : flow :=
  let hl := get m 14 mod 16 * 4 in
  let tot := be_val (slice m 16 2) in
  let frag := negb (frag4 m mod 16384 =? 0) in
  let tail := negb (frag4 m mod 8192 =? 0) in
  Flow AF_INET (get m 23) (slice m 30 4 ++ zeros 12) (slice m 26 4 ++ zeros 12) (if tail then 0 else 14 + hl)
    (if frag then 0 else if hl <? tot then tot - hl else 0) (if frag then be_val (slice m 18 2) else 0) (frag && negb tail) (frag && tail).
Definition flow6 (m : mem) : flow :=
  if get m 20 =? IPPROTO_FRAGMENT then
    let tail := negb (frag6 m / 8 =? 0) in
    Flow AF_INET6 (get m 54) (slice m 38 16) (slice m 22 16) (if tail then 0 else 62) 0 (be_val (slice m 58 4)) (negb tail) tail
  else Flow AF_INET6 (get m 20) (slice m 38 16) (slice m 22 16) 54 (be_val (slice m 18 2)) 0 false false.

Lemma land_8 x : 0 <= x < 65536 → Z.land x 65528 = x / 8 * 8.
Proof using.
  clear. intros Hx. change 65528 with (Z.land (Z.ones 16) (Z.lnot (Z.ones 3))).
  rewrite Z.land_assoc, Z.land_ones, Z.mod_small, <-Z.ldiff_land, Z.ldiff_ones_r, Z.shiftl_mul_pow2, Z.shiftr_div_pow2 by lia. done.
Qed.
Lemma encap_parse4 k : skb_ok k → ip4 k → encap_parse k = Ok (inr (flow4 (sk_data k))).
Proof using.
  clear le. intros Hk (Hl & He & Hv & Hi). pose proof Hk as [Hb Hlen]. unfold eth_type in He. unfold encap_parse, ETH_HLEN.
  rewrite (proj2 (Z.ltb_ge (sk_lin k) 14)), (proj2 (Z.ltb_ge (sk_lin k) (14 + 20))) by lia. pkt_reads. rewrite He. cbn [Z.eqb].
  change (ETH_P_IP =? ETH_P_IP) with true. cbn match. pkt_reads. unfold flow4, frag4.
  change 15 with (Z.ones 4). change 16383 with (Z.ones 14). change 8191 with (Z.ones 13). rewrite Z.shiftr_div_pow2, !Z.land_ones by lia.
  change (2 ^ 4) with 16. change (2 ^ 14) with 16384. change (2 ^ 13) with 8192. rewrite Hv, (proj2 (Z.ltb_ge _ _)) by lia.
  change (negb (4 =? 4) || false) with false. cbn match. by pkt_reads.
Qed.
Lemma encap_parse6 k : skb_ok k → ip6 k → encap_parse k = Ok (inr (flow6 (sk_data k))).
Proof using.
  clear le. intros Hk (Hl & He & Hf). pose proof Hk as [Hb Hlen]. unfold eth_type in He. unfold encap_parse, ETH_HLEN.
  rewrite (proj2 (Z.ltb_ge (sk_lin k) 14)), (proj2 (Z.ltb_ge (sk_lin k) (14 + 40))) by lia. pkt_reads. rewrite He.
  change (ETH_P_IPV6 =? ETH_P_IP) with false. change (ETH_P_IPV6 =? ETH_P_IPV6) with true. cbn match. pkt_reads. unfold flow6.
  destruct (Z.eqb_spec (get (sk_data k) 20) IPPROTO_FRAGMENT) as [E|E]; [|by pkt_reads]. specialize (Hf E). unfold sk_len in *.
  rewrite load_bytes_ok by (unfold sk_len; lia). change (14 + 40) with 54. cbv zeta. rewrite !slice_slice, !get_slice by lia.
  change (54 + 0) with 54. change (54 + 2) with 56. change (54 + 4) with 58. fold (frag6 (sk_data k)).
  assert (0 <= frag6 (sk_data k) < 65536) by (apply be_slice2; done || lia). rewrite land_8 by done.
  replace (frag6 (sk_data k) / 8 * 8 =? 0) with (frag6 (sk_data k) / 8 =? 0); [done|].
  destruct (Z.eqb_spec (frag6 (sk_data k) / 8) 0), (Z.eqb_spec (frag6 (sk_data k) / 8 * 8) 0); done || lia.
Qed.
Lemma encap_parse_other k : skb_ok k → ¬ ip4 k → ¬ ip6 k → encap_parse k = Ok (inl TC_ACT_OK).
Proof using.
  clear le. intros Hk H4 H6. pose proof Hk as [Hb Hlen]. unfold ip4, ip6, eth_type in *. unfold encap_parse, ETH_HLEN.
  destruct (Z.ltb_spec (sk_lin k) 14); [done|]. pkt_reads.
  destruct (Z.eqb_spec (be_val (slice (sk_data k) 12 2)) ETH_P_IP) as [E|E];
    [|destruct (Z.eqb_spec (be_val (slice (sk_data k) 12 2)) ETH_P_IPV6) as [E6|]; [|done]].
  - destruct (Z.ltb_spec (sk_lin k) (14 + 20)); [done|]. pkt_reads. change 15 with (Z.ones 4). rewrite Z.shiftr_div_pow2, Z.land_ones by lia.
    change (2 ^ 4) with 16. destruct (Z.eqb_spec (get (sk_data k) 14 / 16) 4), (Z.ltb_spec (get (sk_data k) 14 mod 16) 5); try done.
    exfalso. apply H4. split_and!; done || lia.
  - destruct (Z.ltb_spec (sk_lin k) (14 + 40)); [done|]. pkt_reads.
    destruct (Z.eqb_spec (get (sk_data k) 20) IPPROTO_FRAGMENT); [|exfalso; apply H6; split_and!; done || lia].
    destruct (load_bytes k (14 + 40) 8) eqn:El; [|done]. exfalso. apply H6. apply load_bytes_Some in El. split_and!; done || lia.
Qed.
(** A frame is read as one of the two, or passed. *)
Lemma encap_parse_kind k : skb_ok k →
  ip4 k ∧ encap_parse k = Ok (inr (flow4 (sk_data k))) ∨ ip6 k ∧ encap_parse k = Ok (inr (flow6 (sk_data k))) ∨
  ¬ ip4 k ∧ ¬ ip6 k ∧ encap_parse k = Ok (inl TC_ACT_OK).
Proof using.
  clear le. intros Hk. assert (D4 : Decision (ip4 k)) by (unfold ip4; apply _). assert (D6 : Decision (ip6 k)) by (unfold ip6; apply _).
  destruct (decide (ip4 k)); [left; auto using encap_parse4|]. destruct (decide (ip6 k)); right; [left; auto using encap_parse6|].
  right. auto using encap_parse_other.
Qed.
Lemma frag4_head x : 0 <= x → (x mod 16384 ≠ 0 ∧ x mod 8192 = 0 ↔ x mod 8192 = 0 ∧ x / 8192 mod 2 = 1) ∧ (x mod 8192 ≠ 0 → x mod 16384 ≠ 0).
Proof using.
  clear. intros Hx. assert (E : x mod 16384 = x mod 8192 + 8192 * (x / 8192 mod 2)) by (change 16384 with (8192 * 2); by apply Z.rem_mul_r).
  pose proof (Z.mod_pos_bound x 8192 ltac:(lia)). pose proof (Z.mod_pos_bound (x / 8192) 2 ltac:(lia)).
  lia.
Qed.
(** Fragments are read as such, under the entry of their datagram. *)
Lemma fragment_flow first k : skb_ok k → fragment first k → ∃ f, encap_parse k = Ok (inr f) ∧
  (if first then fl_head f = true else fl_tail f = true) ∧ frag_key f = entry (sk_data k).
Proof using.
  clear le. intros Hk [[H4 Hf]|(H6 & Hp & Hf)]; pose proof Hk as [Hb Hlen]; unfold sk_len in *.
  - rewrite encap_parse4 by done. eexists. split; [done|]. destruct H4 as (Hl & He & _). unfold flow4, frag_key, entry. rewrite He.
    change (ETH_P_IP =? ETH_P_IP) with true. cbn [fl_head fl_tail fl_family fl_proto fl_frag_id fl_saddr fl_ue_addr].
    assert (0 <= frag4 (sk_data k) < 65536) by (apply be_slice2; done || lia). destruct (frag4_head (frag4 (sk_data k)) ltac:(lia)) as [Hh Ht].
    destruct first.
    + apply Hh in Hf as [H1 H2]. by rewrite (proj2 (Z.eqb_neq _ _) H1), (proj2 (Z.eqb_eq _ _) H2).
    + by rewrite (proj2 (Z.eqb_neq _ _) (Ht Hf)), (proj2 (Z.eqb_neq _ _) Hf).
  - rewrite encap_parse6 by done. eexists. split; [done|]. destruct H6 as (Hl & He & _). unfold flow6, frag_key, entry. rewrite He, Hp.
    change (ETH_P_IPV6 =? ETH_P_IP) with false. change (IPPROTO_FRAGMENT =? IPPROTO_FRAGMENT) with true.
    cbn [fl_head fl_tail fl_family fl_proto fl_frag_id fl_saddr fl_ue_addr]. split; [|done].
    destruct first; [by rewrite Hf|]. by rewrite (proj2 (Z.eqb_neq _ _) Hf).
Qed.
Lemma head_fragment k f : skb_ok k → encap_parse k = Ok (inr f) → fl_head f = true → fragment true k ∧ frag_key f = entry (sk_data k).
Proof using.
  clear le. intros Hk Ep Hh. pose proof Hk as [Hb Hlen]. unfold sk_len in *.
  assert (Hfr : fragment true k).
  { destruct (encap_parse_kind k Hk) as [[H4 E]|[[H6 E]|(_ & _ & E)]]; rewrite E in Ep; [| |done]; injection Ep as <-.
    - left. split; [done|]. destruct H4 as (Hl & _). assert (0 <= frag4 (sk_data k) < 65536) by (apply be_slice2; done || lia).
      apply (frag4_head (frag4 (sk_data k)) ltac:(lia)). unfold flow4 in Hh. cbn [fl_head] in Hh. rewrite andb_true_iff, negb_involutive, negb_true_iff, Z.eqb_neq, Z.eqb_eq in Hh. done.
    - right. unfold flow6 in Hh. destruct (Z.eqb_spec (get (sk_data k) 20) IPPROTO_FRAGMENT); [|done]. split_and!; [done..|].
      cbn [fl_head] in Hh. by rewrite negb_involutive, Z.eqb_eq in Hh. }
  split; [done|]. destruct (fragment_flow true k Hk Hfr) as (f' & Ep' & _ & E). rewrite Ep in Ep'. by injection Ep' as <-.
Qed.
(** The entries of two datagrams differ. *)
Lemma slice_be m i m' i' n : bytes_ok m → bytes_ok m' → 0 <= i → 0 <= i' → 0 <= n → i + n <= mlen m → i' + n <= mlen m' →
  be_val (slice m i n) = be_val (slice m' i' n) → slice m i n = slice m' i' n.
Proof using.
  clear le. intros. rewrite <-(be_bytes_val (slice m i n)), <-(be_bytes_val (slice m' i' n)) by by apply bytes_ok_slice.
  pose proof (mlen_slice m i n). pose proof (mlen_slice m' i' n). unfold mlen in *. f_equal; [lia|done].
Qed.
Lemma same_entry a b : same_datagram a b → entry a = entry b.
Proof using. unfold same_datagram, entry. intros [<- H]. destruct (_ =? _); destruct H as (-> & -> & -> & ->); done. Qed.
Lemma entry_same a b fa fb : skb_ok a → skb_ok b → fragment fa a → fragment fb b → entry (sk_data a) = entry (sk_data b) →
  same_datagram (sk_data a) (sk_data b).
Proof using.
  clear le. intros [Ha La] [Hb Lb] Fa Fb. unfold sk_len, entry, same_datagram in *.
  assert (Ka : ∀ k f, fragment f k → eth_type (sk_data k) = ETH_P_IP ∧ 34 <= sk_lin k ∨ eth_type (sk_data k) = ETH_P_IPV6 ∧ 62 <= mlen (sk_data k)).
  { intros k f [[(? & ? & _) _]|((? & ? & H) & Hp & _)]; [by left|right]. split; [done|by apply H]. }
  destruct (Ka a fa Fa) as [[Ea ?]|[Ea ?]], (Ka b fb Fb) as [[Eb ?]|[Eb ?]]; rewrite Ea, Eb;
    change (ETH_P_IPV6 =? ETH_P_IP) with false; change (ETH_P_IP =? ETH_P_IP) with true; cbv iota; try done; intros [= Hp Hi Hs Hd]; (split; [done|]).
  - apply app_inv_tail in Hs, Hd. split_and!; [done..|]. by apply slice_be; try lia.
  - split_and!; [done..|]. by apply slice_be; try lia.
Qed.

(** ** What becomes of a frame *)

(** The maps the control plane owns. *)
Definition same_tunnels (m m' : maps) : Prop :=
  m_rx m' = m_rx m ∧ m_tx4 m' = m_tx4 m ∧ m_tx6 m' = m_tx6 m ∧ m_tft m' = m_tft m ∧ m_config m' = m_config m.
#[local] Instance same_tunnels_pre : PreOrder same_tunnels.
Proof using. split; [done|]. unfold same_tunnels. intros a b c. naive_solver congruence. Qed.
(** Counters and events aside, nothing changed. *)
Definition quiet (m m' : maps) : Prop := same_tunnels m m' ∧ m_frag m' = m_frag m.
Lemma quiet_refl m : quiet m m.
Proof using. done. Qed.
Lemma quiet_trans m1 m2 m3 : quiet m1 m2 → quiet m2 m3 → quiet m1 m3.
Proof using. intros [H1 E1] [H2 E2]. split; [by transitivity m2|congruence]. Qed.
Lemma bump_quiet m i g : quiet m (bump m i g).
Proof using. unfold bump. by destruct (m_stats m i). Qed.
Lemma emit_event_quiet e m a b c d g h : quiet m (emit_event e m a b c d g h).
Proof using. unfold emit_event. destruct (negb _); [apply bump_quiet|done]. Qed.
#[local] Hint Resolve quiet_refl bump_quiet emit_event_quiet : core.
#[local] Hint Extern 3 (quiet _ (emit_event _ (bump _ _ _) _ _ _ _ _ _)) =>
  eapply quiet_trans; [apply bump_quiet|apply emit_event_quiet] : core.
Lemma encap_tunnel_same e m k f tun m' : encap_tunnel e m k f = Some (tun, m') → same_tunnels m m'.
Proof using.
  unfold encap_tunnel. destruct (encap_ports k f).
  destruct (if fl_tail f then _ else _) as [t|]; [|destruct (tx_classify _ _ _ _ _ _ _) as [t|]; [|done]];
    intros [= _ <-]; by destruct (fl_head f).
Qed.

(** A frame without its outer headers: the Ethernet header with the ethertype of the inner
    packet, and the packet. *)
Definition stripped (k : sk_buff) (off proto : Z) : mem :=
  take 12 (sk_data k) ++ be_bytes 2 proto ++ drop (Z.to_nat off) (sk_data k).

Lemma strip_eq e k off flags proto k1 k2 : 14 <= off <= sk_len k →
  adjust_room e k (- (off - ETH_HLEN)) flags = Some k1 → store_bytes e k1 12 (be_bytes 2 proto) = Some k2 →
  sk_data k2 = stripped k off proto ∧ sk_protocol k2 = sk_protocol k1.
Proof using.
  clear le. intros Ho. unfold adjust_room, ETH_HLEN, sk_len in *. destruct (_ || _); [done|]. intros [= <-].
  intros E. apply store_bytes_Some in E as (_ & _ & _ & ->). split; [|done]. cbn [sk_data]. unfold stripped.
  assert (Ed : (if - (off - 14) <? 0 then drop (Z.to_nat (14 - - (off - 14))) (sk_data k)
      else map (e_fill e) (seq 0 (Z.to_nat (- (off - 14)))) ++ drop 14 (sk_data k)) = drop (Z.to_nat off) (sk_data k)).
  { destruct (Z.ltb_spec (- (off - 14)) 0); [f_equal; lia|]. by replace off with 14 by lia. }
  rewrite Ed. pose proof (mlen_take 14 (sk_data k) ltac:(lia)) as L14. change (Z.to_nat 14) with 14%nat in L14.
  rewrite splice_app_l by (mlia). rewrite app_assoc. f_equal. unfold splice.
  rewrite take_take. change (12 `min` 14)%nat with 12%nat. f_equal.
  rewrite (drop_ge (take 14 _)) by (unfold mlen in L14; mlia). apply app_nil_r.
Qed.

Lemma load1_Some k off x : load1 k off = Some x → 0 <= off < sk_len k ∧ x = get (sk_data k) off.
Proof using.
  unfold load1. destruct (load_bytes k off 1) as [bs|] eqn:E; [|done].
  apply load_bytes_Some in E as (H0 & H1 & ->). cbn [mbind option_bind]. intros [= <-].
  unfold sk_len in *. rewrite get_via_slice by lia. rewrite be_val_1. lia.
Qed.
Lemma ext_walk_ge hops k : bytes_ok (sk_data k) → ∀ next off off', ext_walk hops k next off = Some off' → off <= off'.
Proof using.
  intros Hb. induction hops as [|hops IH]; intros next off off'; cbn [ext_walk].
  - destruct (_ =? _); [intros [= <-]; lia|done].
  - destruct (_ =? _); [intros [= <-]; lia|].
    destruct (load1 k off) as [n|] eqn:E; [|done]. cbn [mbind option_bind].
    apply load1_Some in E as [_ ->]. pose proof (get_range (sk_data k) off Hb).
    destruct (_ =? 0); [done|]. destruct (load1 k _); [|done]. cbn [mbind option_bind].
    intros E%IH. lia.
Qed.
Lemma payload_offset_ge k goff flags off : bytes_ok (sk_data k) →
  payload_offset k goff flags = Some off → goff + 8 <= off.
Proof using.
  intros Hb. unfold payload_offset, GTPU_HDR_MIN, GTPU_HDR_OPT. destruct (_ =? 0); [intros [= <-]; lia|].
  destruct (_ =? 0); [intros [= <-]; lia|]. destruct (load1 k _); [|done]. cbn [mbind option_bind].
  intros E%ext_walk_ge; [lia|done].
Qed.
Lemma inner_check_lt k off tun r : inner_check k off tun = Some r → off < sk_len k.
Proof using. unfold inner_check. destruct (Z.leb_spec (sk_len k) off); [done|]. lia. Qed.

(** A frame that passed the checks, stripped to the packet it carries. *)
Record passed (m : maps) (k k' : sk_buff) (v : verdict) (uo fam : Z) (src udp g : list Z) (off : Z) (tun : gtpu_rx_tun) (family proto : Z) : Prop := {
  ps_outer : decap_outer le k = Ok (inr (uo, fam, src));
  ps_udp : load_bytes k uo 8 = Some udp ∧ be_val (slice udp 2 2) = GTPU_PORT;
  ps_config : ∃ cfg, m_config m = Some cfg ∧ cf_abi_version cfg = GTPU_ABI_VERSION;
  ps_gtpu : load_bytes k (uo + 8) 8 = Some g ∧ Z.land (get g 0) 240 = GTPU_F_VERSION_PT ∧ get g 1 = GTPU_MT_GPDU;
  ps_off : payload_offset k (uo + 8) (get g 0) = Some off ∧ 14 <= off < sk_len k;
  ps_tun : m_rx m (be_val (slice g 4 4)) = Some tun ∧ inner_check k off tun = Some (family, proto);
  ps_data : sk_data k' = stripped k off proto;
  ps_verdict : v = if rx_ifindex tun =? 0 then TC_ACT_OK else TC_ACT_REDIRECT (rx_ifindex tun) }.
Definition delivered (m : maps) (k k' : sk_buff) (v : verdict) : Prop :=
  ∃ uo fam src udp g off tun family proto, passed m k k' v uo fam src udp g off tun family proto.

(** A branch that ends: the result, the maps, one of the outcomes. *)
Ltac settle := do 3 eexists; split; [reflexivity|split; [by auto|by auto]].

Lemma gtpu_decap_cases e m k : skb_ok k →
  ∃ m' k' v, gtpu_decap le e m k = Ok (m', k', v) ∧ quiet m m' ∧
    (v = TC_ACT_SHOT ∨ v = TC_ACT_OK ∧ k' = k ∨ delivered m k k' v).
Proof.
  intros Hk. pose proof Hk as [Hb _]. unfold gtpu_decap.
  destruct (decap_outer_total k Hk) as (o & Eo & Ho). rewrite Eo. bstep.
  destruct o as [v|[[uo fam] src]]; [exists m, k, v; naive_solver|].
  assert (Huo : 34 <= uo) by lia. clear Ho.
  destruct (load_bytes k uo 8) as [udp|] eqn:Eu; [|settle]. destruct (Z.eqb_spec (be_val (slice udp 2 2)) GTPU_PORT) as [Epo|]; [|settle]. cbn [negb].
  unfold config_get. destruct (m_config m) as [cfg|] eqn:Ec; [|settle].
  destruct (Z.eqb_spec (cf_abi_version cfg) GTPU_ABI_VERSION) as [Ev|]; [|settle]. cbn [negb].
  destruct (load_bytes k (uo + 8) 8) as [g|] eqn:Eg; [|settle].
  destruct (Z.eqb_spec (Z.land (get g 0) 240) GTPU_F_VERSION_PT) as [Efl|]; [|settle]. cbn [negb].
  destruct (_ =? GTPU_MT_END_MARKER); [settle|]. destruct (Z.eqb_spec (get g 1) GTPU_MT_GPDU) as [Emt|]; [|settle]. cbn [negb].
  destruct (payload_offset k (uo + 8) _) as [off|] eqn:Ep; [|settle]. pose proof (payload_offset_ge _ _ _ _ Hb Ep).
  destruct (m_rx m _) as [tun|] eqn:Em; [|settle].
  destruct (inner_check k off tun) as [[family proto]|] eqn:Ei; [|settle].
  pose proof (inner_check_lt _ _ _ _ Ei). destruct (adjust_room _ _ _ _) as [k1|] eqn:Ea; [|settle].
  destruct (store_bytes e k1 12 _) as [k2|] eqn:Es; [|settle].
  destruct (strip_eq e k off _ proto k1 k2 ltac:(lia) Ea Es) as [E2 _].
  eexists _, k2, _. split; [done|]. split; [auto|]. right; right.
  exists uo, fam, src, udp, g, off, tun, family, proto. split; try done; [by exists cfg|split; [done|lia]].
Qed.

(** ** What encapsulation does *)

Context (csum_diff : list Z → Z → Z).

Definition inner_length (k : sk_buff) : Z := u32 (sk_len k - ETH_HLEN).
Definition gtpu_length (tun : gtpu_tx_tun) : Z :=
  GTPU_HDR_MIN + if Z.land (tx_flags tun) GTPU_TXF_QFI =? 0 then 0 else GTPU_HDR_OPT + 4.
Definition udp_length (tun : gtpu_tx_tun) (k : sk_buff) : Z := u32 (8 + gtpu_length tun + inner_length k).
Definition l3_length (tun : gtpu_tx_tun) : Z := if tx_outer_family tun =? AF_INET then 20 else 40.
Definition outer_length (tun : gtpu_tx_tun) : Z := l3_length tun + 8 + gtpu_length tun.

(** A frame sent through a tunnel: how it was classified, what the headers and the
    completion of the inner checksum made of it. *)
Record sent (e : env) (m m' : maps) (k k' : sk_buff) (oif : Z) (f : flow) (tun : gtpu_tx_tun)
    (cfg : gtpu_config) (smac dmac : list Z) (kh : sk_buff) : Prop := {
  sent_parse : encap_parse k = Ok (inr f);
  sent_tunnel : ∃ m1, encap_tunnel e m k f = Some (tun, m1) ∧
    m' = bump m1 (stats_slot (tx_local_teid tun)) (inc_tx (inner_length k));
  sent_config : m_config m = Some cfg ∧ cf_abi_version cfg = GTPU_ABI_VERSION;
  sent_link : encap_link e cfg tun k (udp_length tun k) = (smac, dmac, oif) ∧ dmac ≠ zeros 6 ∧ oif ≠ 0;
  sent_size : tx_outer_family tun ≠ AF_INET → udp_length tun k <= CSUM_MAX_LEN;
  sent_headers : encap_headers le csum_diff e cfg tun k smac dmac (inner_length k) (gtpu_length tun)
    (udp_length tun k) (l3_length tun) (outer_length tun) = Some kh;
  sent_inner : encap_inner_csum le csum_diff e kh f (outer_length tun) = Some k' }.

(** The three verdicts of the egress program. *)
Definition encap_outcome (e : env) (m m' : maps) (k k' : sk_buff) (v : verdict) : Prop :=
  match v with
  | TC_ACT_OK => k' = k ∧
      (¬ ip4 k ∧ ¬ ip6 k ∨
       ∃ f, encap_parse k = Ok (inr f) ∧
         (encap_tunnel e m k f = None ∨
          ∃ tun m1, encap_tunnel e m k f = Some (tun, m1) ∧ tx_outer_family tun ≠ AF_INET ∧
            CSUM_MAX_LEN < udp_length tun k))
  | TC_ACT_SHOT => ∃ f tun m1, encap_parse k = Ok (inr f) ∧ encap_tunnel e m k f = Some (tun, m1)
  | TC_ACT_REDIRECT oif => ∃ f tun cfg smac dmac kh, sent e m m' k k' oif f tun cfg smac dmac kh
  end.

(** What the egress program does to the maps: counters and events, and the memory of
    fragments with a head. *)
Definition encap_maps (e : env) (m m' : maps) (k : sk_buff) : Prop :=
  match encap_parse k with
  | Ok (inr f) => match encap_tunnel e m k f with Some (_, m1) => quiet m1 m' | None => m' = m end
  | _ => m' = m
  end.

Lemma gtpu_encap_cases e m k : skb_ok k →
  ∃ m' k' v, gtpu_encap le csum_diff e m k = Ok (m', k', v) ∧ encap_maps e m m' k ∧
    encap_outcome e m m' k k' v.
Proof.
  intros Hk. unfold gtpu_encap, encap_maps. destruct (encap_parse_spec k Hk) as (p & Ep & Hp). rewrite Ep. bstep.
  destruct p as [v|f].
  { subst v. exists m, k, TC_ACT_OK. split; [done|]. split; [done|]. split; [done|]. left.
    destruct (encap_parse_kind k Hk) as [[_ E]|[[_ E]|(H4 & H6 & _)]]; [by rewrite E in Ep..|done]. }
  destruct (encap_tunnel e m k f) as [[tun m1]|] eqn:Et.
  2:{ exists m, k, TC_ACT_OK. split; [done|]. split; [done|]. cbn. eauto 10. }
  pose proof (encap_tunnel_same e m k f tun m1 Et) as Hs.
  assert (Hshot : ∀ m2 k2, quiet m1 m2 → ∃ m' k' v, Ok (m2, k2, TC_ACT_SHOT) = Ok (m', k', v) ∧
    quiet m1 m' ∧ encap_outcome e m m' k k' v).
  { intros m2 k2 H2. do 3 eexists. split; [done|]. split; [done|]. cbn. eauto. }
  unfold config_get. destruct (m_config m1) as [cfg|] eqn:Ec; [|apply Hshot; auto].
  destruct (Z.eqb_spec (cf_abi_version cfg) GTPU_ABI_VERSION) as [Ev|]; [|apply Hshot; auto]. cbn [negb].
  fold (inner_length k) (gtpu_length tun) (l3_length tun). cbv zeta.
  fold (inner_length k) (gtpu_length tun) (l3_length tun). fold (udp_length tun k) (outer_length tun).
  destruct (encap_link e cfg tun k (udp_length tun k)) as [[smac dmac] oif] eqn:El.
  destruct (mac_is_zero dmac) eqn:Ez; [apply Hshot; auto|]. unfold mac_is_zero in Ez. apply bool_decide_eq_false in Ez.
  destruct (Z.eqb_spec oif 0); [apply Hshot; auto|]. cbn [orb].
  destruct (negb (tx_outer_family tun =? AF_INET) && (CSUM_MAX_LEN <? udp_length tun k)) eqn:Eb.
  { apply andb_true_iff in Eb as [E1 E2]. apply negb_true_iff, Z.eqb_neq in E1. apply Z.ltb_lt in E2.
    exists m1, k, TC_ACT_OK. split; [done|]. split; [done|]. cbn. split; [done|]. right. eauto 10. }
  destruct (encap_headers _ _ _ _ _ _ _ _ _ _ _ _ _) as [kh|] eqn:Eh; [|apply Hshot; auto].
  destruct (encap_inner_csum _ _ _ _ _ _) as [k2|] eqn:Ei; [|apply Hshot; auto].
  eexists _, k2, (TC_ACT_REDIRECT oif). split; [done|]. split; [auto|].
  exists f, tun, cfg, smac, dmac, kh. split; try done.
  - eauto.
  - split; [|done]. destruct Hs as (_ & _ & _ & _ & Hs). congruence.
  - intros Hv. apply Z.eqb_neq in Hv. rewrite Hv in Eb. cbn [negb andb] in Eb. by apply Z.ltb_ge in Eb.
Qed.

(** The egress program in any case, and that it leaves the tunnels alone. *)
Lemma gtpu_encap_decides e m k : skb_ok k →
  ∃ m' k' v, gtpu_encap le csum_diff e m k = Ok (m', k', v) ∧ same_tunnels m m' ∧ encap_outcome e m m' k k' v.
Proof.
  intros Hk. destruct (gtpu_encap_cases e m k Hk) as (m' & k' & v & E & Hm & Ho).
  exists m', k', v. split; [done|]. split; [|done]. unfold encap_maps in Hm.
  destruct (encap_parse k) as [[?|f]|?|]; try by subst.
  destruct (encap_tunnel e m k f) as [[tun m1]|] eqn:Et; [|by subst].
  transitivity m1; [by apply encap_tunnel_same in Et|apply Hm].
Qed.

(** ** Fragments *)

Fixpoint run (m : maps) (l : list (env * sk_buff)) : maps :=
  match l with
  | [] => m
  | (e, k) :: l => match gtpu_encap le csum_diff e m k with Ok (m', _, _) => run m' l | _ => m end
  end.
(** A frame that leaves what is remembered under an entry alone: the kernel does not evict
    it then, and the frame is not a head with it. *)
Definition spares (key : gtpu_frag_key) (ek : env * sk_buff) : Prop :=
  skb_ok ek.2 ∧ e_evict ek.1 key = false ∧
  ∀ f, encap_parse ek.2 = Ok (inr f) → fl_head f = true → frag_key f ≠ key.
(** The bearer a packet is given. *)
Definition bearer (e : env) (m : maps) (k : sk_buff) : option gtpu_tx_tun :=
  match encap_parse k with Ok (inr f) => fst <$> encap_tunnel e m k f | _ => None end.

Lemma encap_tunnel_frag e m k f tun m1 key : encap_tunnel e m k f = Some (tun, m1) → e_evict e key = false →
  m_frag m1 key = if fl_head f && bool_decide (key = frag_key f) then Some tun else m_frag m key.
Proof using.
  unfold encap_tunnel. destruct (encap_ports k f).
  destruct (if fl_tail f then _ else _) as [t|]; [|destruct (tx_classify _ _ _ _ _ _ _) as [t|]; [|done]];
    intros [= -> <-] He; (destruct (fl_head f); [|done]); unfold frag_update; cbn; by rewrite He.
Qed.
Lemma run_frag l key : Forall (spares key) l → ∀ m, m_frag (run m l) key = m_frag m key.
Proof using.
  induction 1 as [|[e k] l (Hk & He & Hh) _ IH]; intros m; [done|]. cbn [run fst snd] in *.
  destruct (gtpu_encap_cases e m k Hk) as (m' & k' & v & -> & Hm & _). rewrite IH.
  unfold encap_maps in Hm. destruct (encap_parse k) as [[?|f]|?|] eqn:Ep; try by subst.
  destruct (encap_tunnel e m k f) as [[tun m1]|] eqn:Et; [|by subst]. destruct Hm as [_ ->].
  rewrite (encap_tunnel_frag e m k f tun m1 key Et He). destruct (fl_head f) eqn:Ef; [|done].
  cbn [andb]. rewrite bool_decide_eq_false_2; [done|]. intros E. by apply (Hh f eq_refl Ef).
Qed.

(** C13: every fragment follows the bearer of its head.  When the first fragment of a datagram
    (offset zero with more to come over IPv4, offset zero behind an IPv6 fragment header) was
    given a bearer, a later fragment with the same source, destination, protocol and
    identification, which has no ports to classify on, is given the same bearer after any
    number of other frames, fragments of other datagrams among them, as long as the kernel
    has not evicted the memory of it and the datagram has not been started again. *)
Theorem gtpu_fragments_follow e m k tun m2 k2 v l e' kt :
  skb_ok k → fragment true k → bearer e m k = Some tun → e_evict e (entry (sk_data k)) = false →
  gtpu_encap le csum_diff e m k = Ok (m2, k2, v) →
  Forall (λ ek, skb_ok ek.2 ∧ e_evict ek.1 (entry (sk_data k)) = false ∧
    ¬ (fragment true ek.2 ∧ same_datagram (sk_data k) (sk_data ek.2))) l →
  skb_ok kt → fragment false kt → same_datagram (sk_data k) (sk_data kt) →
  bearer e' (run m2 l) kt = Some tun.
Proof.
  intros Hk Hh Hbe He Eg Hl Hkt Ht Hsame. destruct (fragment_flow true k Hk Hh) as (f & Ep & Hfh & Hkey).
  unfold bearer in Hbe. rewrite Ep in Hbe. destruct (encap_tunnel e m k f) as [[tun' m1]|] eqn:Et; [|done]. injection Hbe as ->.
  assert (Hf : m_frag (run m2 l) (entry (sk_data k)) = Some tun).
  { rewrite run_frag.
    - destruct (gtpu_encap_cases e m k Hk) as (m' & k' & v' & Eg' & Hm & _). rewrite Eg in Eg'. injection Eg' as <- <- <-.
      pose proof (encap_tunnel_frag e m k f tun m1 _ Et He) as E1. rewrite Hfh, Hkey, bool_decide_eq_true_2 in E1 by done.
      unfold encap_maps in Hm. rewrite Ep, Et in Hm. destruct Hm as [_ ->]. done.
    - eapply Forall_impl; [exact Hl|]. intros [e1 k1] (Hk1 & He1 & Hn). split_and!; [done..|]. cbn [snd] in *. intros f1 Ep1 Hh1 E1.
      destruct (head_fragment k1 f1 Hk1 Ep1 Hh1) as [Hfr E2]. apply Hn. split; [done|].
      eapply entry_same; [done|done|exact Hh|exact Hfr|congruence]. }
  destruct (fragment_flow false kt Hkt Ht) as (ft & Ept & Hft & Hkeyt). unfold bearer, encap_tunnel. rewrite Ept.
  destruct (encap_ports kt ft). rewrite Hft, Hkeyt, <-(same_entry _ _ Hsame), Hf. done.
Qed.
End host.
End GtpuPath.
