(* ===== verification/GtpuTunnel.v ===== *)
(** * GtpuTunnel: G-PDUs decoded, and the round trip through a tunnel

    A G-PDU is given by its parts (outer IPv4 or IPv6 header, UDP header, GTP-U header with
    its optional octets and chain of extension headers, inner packet): the ingress program
    strips it to the inner packet and delivers nothing but such frames of a known tunnel,
    and what the egress program makes of a packet is such a frame, so that the far end gets
    the packet back. *)

From S2P Require Import Prelude Endian GtpuKern GtpuCsum GtpuPath.

Module GtpuTunnel.
Import GtpuKern GtpuCsum GtpuPath.

(** ** The parts of a G-PDU *)

(** An extension header: its type and the octets between its length and the next type. *)
Definition ext := (Z * list Z)%type.
Definition ext_ok (x : ext) : Prop := 0 < x.1 < 256 ∧ bytes_ok x.2 ∧ ∃ n, 1 <= n < 256 ∧ mlen x.2 = 4 * n - 2.
Definition first_type (exts : list ext) : Z := match exts with [] => GTPU_EXT_NONE | (t, _) :: _ => t end.
Fixpoint ext_bytes (exts : list ext) : list Z :=
  match exts with
  | [] => []
  | (_, c) :: exts => ((mlen c + 2) / 4) :: c ++ first_type exts :: ext_bytes exts
  end.

(** The GTP-U header of a G-PDU: [opt] is sequence number, N-PDU number and next type. *)
Definition gpdu_header (flags len teid : Z) (opt : list Z) (exts : list ext) : list Z :=
  [flags; GTPU_MT_GPDU] ++ be_bytes 2 len ++ be_bytes 4 teid ++ opt ++ ext_bytes exts.
Definition gpdu_ok (flags teid : Z) (opt : list Z) (exts : list ext) : Prop :=
  0 <= flags < 256 ∧ Z.land flags 240 = GTPU_F_VERSION_PT ∧ 0 <= teid < 4294967296 ∧ bytes_ok opt ∧
  (Z.land flags 7 = 0 ∧ opt = [] ∧ exts = [] ∨
   Z.land flags 7 ≠ 0 ∧ Z.land flags GTPU_F_EXT = 0 ∧ mlen opt = 4 ∧ exts = [] ∨
   Z.land flags 7 ≠ 0 ∧ Z.land flags GTPU_F_EXT ≠ 0 ∧ mlen opt = 4 ∧ get opt 3 = first_type exts ∧
     Forall ext_ok exts ∧ (length exts <= GTPU_EXT_MAX_HOPS)%nat).

Lemma load1_at k a x b off : sk_data k = a ++ x :: b → off = mlen a → load1 k off = Some x.
Proof.
  intros E ->. unfold load1. pose proof (mlen_nonneg a). pose proof (mlen_nonneg b).
  rewrite load_bytes_ok; [|lia|unfold sk_len; rewrite E; mlia].
  cbn [mbind option_bind]. rewrite E, slice_app_ge, Z.sub_diag by lia.
  change (x :: b) with ([x] ++ b). rewrite slice_app_l, slice_full by done. by rewrite be_val_1.
Qed.

(** The walk ends behind the chain, and gives up on one that is too long. *)
Lemma ext_walk_chain exts : Forall ext_ok exts → ∀ hops k pre inner,
  sk_data k = pre ++ ext_bytes exts ++ inner → (length exts <= hops)%nat →
  ext_walk hops k (first_type exts) (mlen pre) = Some (mlen pre + mlen (ext_bytes exts)).
Proof.
  induction 1 as [|[t c] exts (Ht & Hc & n & Hn & Hl) _ IH]; intros hops k pre inner E Hh.
  - cbn [first_type ext_bytes]. rewrite mlen_nil, Z.add_0_r. by destruct hops.
  - cbn [length] in Hh. destruct hops as [|hops]; [lia|]. cbn [first_type ext_walk fst snd] in *.
    rewrite (proj2 (Z.eqb_neq t 0)) by lia. cbn [ext_bytes] in E |- *.
    assert (En : (mlen c + 2) / 4 = n) by (rewrite Hl; replace (4 * n - 2 + 2) with (n * 4) by lia; by rewrite Z.div_mul).
    rewrite En in E |- *. rewrite (load1_at k pre n ((c ++ first_type exts :: ext_bytes exts) ++ inner)) by done.
    cbn [mbind option_bind]. rewrite (proj2 (Z.eqb_neq n 0)) by lia.
    assert (E2 : sk_data k = (pre ++ n :: c) ++ first_type exts :: ext_bytes exts ++ inner).
    { rewrite E, <-!app_assoc. cbn. by rewrite <-!app_assoc. }
    rewrite (load1_at k _ _ _ _ E2) by (rewrite mlen_app, mlen_cons; lia). cbn [mbind option_bind].
    replace (mlen pre + n * 4) with (mlen ((pre ++ n :: c) ++ [first_type exts])) by mlia.
    rewrite (IH hops k ((pre ++ n :: c) ++ [first_type exts]) inner); [|rewrite <-app_assoc; done|lia].
    f_equal. rewrite !mlen_app, !mlen_cons, !mlen_app, !mlen_cons, mlen_nil. lia.
Qed.

Lemma payload_offset_gpdu k pre flags len teid opt exts inner :
  gpdu_ok flags teid opt exts → sk_data k = pre ++ gpdu_header flags len teid opt exts ++ inner →
  payload_offset k (mlen pre) flags = Some (mlen pre + mlen (gpdu_header flags len teid opt exts)).
Proof.
  intros (_ & _ & _ & _ & Hcase) E. unfold payload_offset, GTPU_HDR_MIN, GTPU_HDR_OPT. cbv zeta.
  change (Z.lor (Z.lor GTPU_F_EXT GTPU_F_SEQ) GTPU_F_NPDU) with 7.
  assert (Lg : mlen (gpdu_header flags len teid opt exts) = 8 + mlen opt + mlen (ext_bytes exts))
    by (unfold gpdu_header; mlia).
  destruct Hcase as [(-> & -> & ->)|[(H7 & -> & Ho & ->)|(H7 & H4 & Ho & H3 & Hx & Hl)]].
  - rewrite Lg. done.
  - rewrite (proj2 (Z.eqb_neq _ 0)) by done. rewrite Lg, Ho. cbn [Z.eqb]. f_equal. cbn [ext_bytes]. rewrite mlen_nil. lia.
  - rewrite (proj2 (Z.eqb_neq (Z.land flags 7) 0)), (proj2 (Z.eqb_neq _ 0)) by done.
    assert (Eo : ∃ o, opt = o ++ [first_type exts] ∧ mlen o = 3).
    { exists (slice opt 0 3). split; [|by rewrite mlen_slice by lia].
      rewrite <-(slice_full opt 4) at 1 by done. change 4 with (3 + 1). rewrite slice_split by lia.
      f_equal. change (0 + 3) with 3. rewrite get_via_slice by lia. by rewrite H3. }
    destruct Eo as (o & -> & Lo).
    assert (E2 : sk_data k = ((pre ++ [flags; GTPU_MT_GPDU] ++ be_bytes 2 len ++ be_bytes 4 teid ++ o) ++ [first_type exts]) ++
      ext_bytes exts ++ inner).
    { rewrite E. unfold gpdu_header. by rewrite <-!app_assoc. }
    rewrite (load1_at k (pre ++ [flags; GTPU_MT_GPDU] ++ be_bytes 2 len ++ be_bytes 4 teid ++ o) (first_type exts)
      (ext_bytes exts ++ inner)); [|by rewrite E2, <-app_assoc|mlia].
    cbn [mbind option_bind].
    replace (mlen pre + 8 + 4) with
      (mlen ((pre ++ [flags; GTPU_MT_GPDU] ++ be_bytes 2 len ++ be_bytes 4 teid ++ o) ++ [first_type exts])) by mlia.
    rewrite (ext_walk_chain exts Hx _ _ _ _ E2) by done. f_equal. rewrite Lg. mlia.
Qed.

(** The sum of the 16-bit words of a text in network order, a last octet padded. *)
Fixpoint net_sum (bs : list Z) : Z :=
  match bs with
  | a :: b :: bs => a * 256 + b + net_sum bs
  | [a] => a * 256
  | [] => 0
  end.
Lemma net_sum_inet bs : net_sum bs = inet_sum false bs.
Proof. induction bs as [|x|x y l IH] using octets_pair_ind; cbn [net_sum inet_sum]; [done|unfold host16; lia|]. rewrite IH. unfold host16. lia. Qed.
(** A sum of zero is one in every byte order. *)
Lemma inet_sum_zero le le2 bs : bytes_ok bs → inet_sum le bs mod 65535 = 0 → inet_sum le2 bs mod 65535 = 0.
Proof.
  intros Hb Hm. destruct (decide (le2 = le)) as [->|Hn]; [done|]. destruct (inet_sum_swap le2 bs Hb) as (q & Hq & E).
  assert (Eb : negb le2 = le) by (destruct le, le2; done). rewrite Eb in E. apply Z.mod_divide in Hm as [c Hc]; [|done]. rewrite Hc in E.
  apply Z.mod_divide; [done|]. apply (Z.gauss 65535 256); [|done]. exists (c + q). lia.
Qed.
Lemma csum16_net le bs : bytes_ok bs → even_len bs → mlen bs <= 1024 →
  csum16 le bs 0 = 65535 ↔ net_sum bs mod 65535 = 0 ∧ 0 < net_sum bs.
Proof.
  intros Hb He Hl. rewrite net_sum_inet, <-(csum16_valid false) by done. split; by apply csum16_host.
Qed.

(** The outer network header: its ethertype, family and source; the IPv4 one of 20 octets,
    not a fragment and with a right checksum. *)
Definition outer_ok (h : list Z) (eth fam : Z) (src : list Z) : Prop :=
  eth = ETH_P_IP ∧ fam = AF_INET ∧ mlen h = 20 ∧ get h 0 = 69 ∧ get h 9 = IPPROTO_UDP ∧
    be_val (slice h 6 2) mod 16384 = 0 ∧ (net_sum h mod 65535 = 0 ∧ 0 < net_sum h) ∧ src = slice h 12 4 ++ zeros 12
  ∨ eth = ETH_P_IPV6 ∧ fam = AF_INET6 ∧ mlen h = 40 ∧ get h 6 = IPPROTO_UDP ∧ src = slice h 8 16.

(** The packet a tunnel accepts: of its family (either, for a dual-stack bearer), whole, and
    to the address of the UE when the tunnel has one. *)
Definition accepts (tun : gtpu_rx_tun) (inner : list Z) (family proto : Z) : Prop :=
  (rx_inner_family tun = 0 ∨ rx_inner_family tun = family) ∧
  (family = AF_INET ∧ proto = ETH_P_IP ∧ Z.shiftr (get inner 0) 4 = 4 ∧ 20 <= mlen inner ∧
     (rx_inner_addr tun = zeros 16 ∨ slice inner 16 4 = take 4 (rx_inner_addr tun))
   ∨ family = AF_INET6 ∧ proto = ETH_P_IPV6 ∧ Z.shiftr (get inner 0) 4 = 6 ∧ 40 <= mlen inner ∧
     (rx_inner_addr tun = zeros 16 ∨ slice inner 24 16 = rx_inner_addr tun)).

Lemma load_at k pre inner off o n : sk_data k = pre ++ inner → 0 <= o → 0 <= n → o + n <= mlen inner →
  off = mlen pre + o → load_bytes k off n = Some (slice inner o n).
Proof.
  intros E Ho Hn Hl ->. pose proof (mlen_nonneg pre).
  rewrite load_bytes_ok by (unfold sk_len; rewrite ?E; mlia). by rewrite E, slice_app_r by lia.
Qed.
Lemma load1_in k pre inner off o : sk_data k = pre ++ inner → 0 <= o < mlen inner →
  off = mlen pre + o → load1 k off = Some (get inner o).
Proof.
  intros E Ho ->. unfold load1. rewrite (load_at k pre inner _ o 1) by (done || lia).
  cbn [mbind option_bind]. by rewrite get_via_slice, be_val_1 by lia.
Qed.

Lemma inner_check_accepts k pre inner tun family proto :
  sk_data k = pre ++ inner → accepts tun inner family proto →
  inner_check k (mlen pre) tun = Some (family, proto).
Proof.
  intros E [Hf Hc]. unfold inner_check.
  assert (Hi : 20 <= mlen inner) by (destruct Hc as [Hc|Hc]; lia).
  assert (Lk : sk_len k = mlen pre + mlen inner) by (unfold sk_len; rewrite E; mlia).
  rewrite (proj2 (Z.leb_gt _ _)) by lia. rewrite (load1_in k pre inner _ 0) by (done || lia).
  cbn [mbind option_bind]. cbv zeta. rewrite Lk. replace (mlen pre + mlen inner - mlen pre) with (mlen inner) by lia.
  assert (Ef : (if rx_inner_family tun =? 0 then if Z.shiftr (get inner 0) 4 =? 6 then AF_INET6 else AF_INET
      else rx_inner_family tun) = family).
  { destruct Hf as [->| ->].
    - destruct Hc as [(-> & _ & -> & _)|(-> & _ & -> & _)]; done.
    - destruct Hc as [(-> & _)|(-> & _)]; done. }
  rewrite Ef. unfold addr16_is_zero.
  destruct Hc as [(-> & -> & Hv & Hl & Ha)|(-> & -> & Hv & Hl & Ha)]; rewrite Hv.
  - change (AF_INET =? AF_INET) with true. change (4 =? 4) with true. cbn [negb orb].
    rewrite (proj2 (Z.ltb_ge _ _)) by lia. destruct (bool_decide (rx_inner_addr tun = zeros 16)) eqn:Ez; [done|].
    rewrite (load_at k pre inner _ 16 4) by (done || lia). cbn [mbind option_bind].
    destruct Ha as [Ha| ->]; [by rewrite bool_decide_eq_true_2 in Ez|]. by rewrite bool_decide_eq_true_2.
  - change (AF_INET6 =? AF_INET) with false. change (6 =? 6) with true. cbn [negb orb].
    rewrite (proj2 (Z.ltb_ge _ _)) by lia. destruct (bool_decide (rx_inner_addr tun = zeros 16)) eqn:Ez; [done|].
    rewrite (load_at k pre inner _ 24 16) by (done || lia). cbn [mbind option_bind].
    destruct Ha as [Ha| ->]; [by rewrite bool_decide_eq_true_2 in Ez|]. by rewrite bool_decide_eq_true_2.
Qed.

Section host.
Context (le : bool).

(** A slice and an octet of a middle part. *)
Lemma slice_mid a h b o i n : 0 <= i → 0 <= n → i + n <= mlen h → o = mlen a + i →
  slice (a ++ h ++ b) o n = slice h i n.
Proof using. intros ? ? ? ->. rewrite slice_app_r by lia. by rewrite slice_app_l by lia. Qed.
Lemma get_mid a h b o i : 0 <= i < mlen h → o = mlen a + i → get (a ++ h ++ b) o = get h i.
Proof using. intros ? ->. rewrite get_app_r by lia. by rewrite get_app_l by lia. Qed.

Lemma decap_outer_eq k macs eth h fam src rest :
  skb_ok k → sk_data k = macs ++ be_bytes 2 eth ++ h ++ rest → mlen macs = 12 →
  outer_ok h eth fam src → 14 + mlen h <= sk_lin k →
  decap_outer le k = Ok (inr (14 + mlen h, fam, src)).
Proof using.
  intros Hk E Lm Ho Hl. unfold decap_outer, ETH_HLEN.
  assert (Lh : 20 <= mlen h) by (destruct Ho as [Ho|Ho]; lia).
  rewrite (proj2 (Z.ltb_ge (sk_lin k) 14)) by lia. rewrite (pkt16_Ok k 12) by (done || lia). bstep.
  rewrite E, (slice_mid macs (be_bytes 2 eth) (h ++ rest) 12 0 2) by mlia.
  rewrite slice_full, be_val_bytes by done. change (256 ^ Z.of_nat 2) with 65536.
  assert (E' : sk_data k = (macs ++ be_bytes 2 eth) ++ h ++ rest) by by rewrite E, <-app_assoc.
  assert (Lp : mlen (macs ++ be_bytes 2 eth) = 14) by mlia.
  assert (Hg : ∀ o i, 0 <= i < mlen h → o = 14 + i → get (sk_data k) o = get h i) by
    (intros; rewrite E'; apply get_mid; lia).
  assert (Hs : ∀ o i n, 0 <= i → 0 <= n → i + n <= mlen h → o = 14 + i → slice (sk_data k) o n = slice h i n) by
    (intros; rewrite E'; apply slice_mid; lia).
  destruct Ho as [(-> & -> & L & H0 & H9 & H6 & Hc & ->)|(-> & -> & L & H6 & ->)].
  - apply (csum16_net le) in Hc; [|destruct Hk as [Hb _]; rewrite E', bytes_ok_app in Hb; destruct Hb as [_ Hb]; by apply bytes_ok_app in Hb as [Hb _]|unfold even_len; by rewrite L|lia].
    change 16384 with (2 ^ 14) in H6. rewrite <-Z.land_ones in H6 by done. change (Z.ones 14) with 16383 in H6.
    rewrite Z.mod_small by done. cbn [Z.eqb]. change (ETH_P_IP =? ETH_P_IP) with true. cbn match.
    rewrite (proj2 (Z.ltb_ge (sk_lin k) (14 + 20))) by lia. pkt_reads.
    rewrite (Hg 14 0), H0, (Hg 23 9), H9, (Hs 20 6 2), H6, (Hs 14 0 20), slice_full, Hc, (Hs 26 12 4) by lia.
    by rewrite L.
  - rewrite Z.mod_small by done. change (ETH_P_IPV6 =? ETH_P_IP) with false. change (ETH_P_IPV6 =? ETH_P_IPV6) with true.
    cbn match. rewrite (proj2 (Z.ltb_ge (sk_lin k) (14 + 40))) by lia. pkt_reads.
    rewrite (Hg 20 6), H6, (Hs 22 8 16) by lia. by rewrite L.
Qed.

(** A received frame that is a G-PDU. *)
Record gpdu_frame (k : sk_buff) (macs h udp g inner : list Z) (eth fam : Z) (src : list Z)
    (flags len teid : Z) (opt : list Z) (exts : list ext) : Prop := {
  gf_data : sk_data k = macs ++ be_bytes 2 eth ++ h ++ udp ++ g ++ inner;
  gf_skb : skb_ok k;
  gf_macs : mlen macs = 12;
  gf_outer : outer_ok h eth fam src;
  gf_lin : 14 + mlen h <= sk_lin k;
  gf_udp : mlen udp = 8 ∧ be_val (slice udp 2 2) = GTPU_PORT;
  gf_gtpu : g = gpdu_header flags len teid opt exts ∧ gpdu_ok flags teid opt exts }.

(** The kernel strips and writes frames when asked. *)
Definition willing (e : env) : Prop := e_adjust e = true ∧ e_store e = true.
Definition config_ok (m : maps) : Prop := ∃ cfg, m_config m = Some cfg ∧ cf_abi_version cfg = GTPU_ABI_VERSION.
Definition ethertype (family : Z) : Z := if family =? AF_INET6 then ETH_P_IPV6 else ETH_P_IP.

Lemma strip_ok e k off flags proto : willing e → 14 <= off <= sk_len k →
  ∃ k1 k2, adjust_room e k (- (off - ETH_HLEN)) flags = Some k1 ∧ store_bytes e k1 12 (be_bytes 2 proto) = Some k2 ∧
    sk_protocol k1 = if flags =? BPF_F_ADJ_ROOM_DECAP_L3_IPV6 then ETH_P_IPV6
                     else if flags =? BPF_F_ADJ_ROOM_DECAP_L3_IPV4 then ETH_P_IP else sk_protocol k.
Proof using.
  clear le. intros [Ha Hs] Ho. unfold adjust_room, ETH_HLEN. rewrite Ha, (proj2 (Z.ltb_ge _ _)) by lia. cbn [negb orb].
  do 2 eexists. split; [done|]. split; [|done]. apply store_bytes_ok; [done|lia|]. unfold sk_len in *. cbn [sk_data].
  pose proof (mlen_take 14 (sk_data k) ltac:(lia)) as L14. change (Z.to_nat 14) with 14%nat in L14.
  rewrite mlen_app, L14, mlen_be_bytes. match goal with |- _ <= _ + mlen ?x => pose proof (mlen_nonneg x) end. lia.
Qed.
Lemma decap_gpdu e m k macs h udp g inner eth fam src flags len teid opt exts tun family proto :
  gpdu_frame k macs h udp g inner eth fam src flags len teid opt exts → config_ok m → willing e →
  m_rx m teid = Some tun → accepts tun inner family proto →
  ∃ k', gtpu_decap le e m k = Ok (bump m (stats_slot teid) (inc_rx (mlen inner)), k',
      if rx_ifindex tun =? 0 then TC_ACT_OK else TC_ACT_REDIRECT (rx_ifindex tun)) ∧
    sk_data k' = macs ++ be_bytes 2 proto ++ inner ∧
    sk_protocol k' = if family =? fam then sk_protocol k else proto.
Proof using.
  intros [E Hk Lm Ho Hlin [Lu Hu] [-> Hg]] (cfg & Ec & Ev) [Ha Hs] Hrx Hacc.
  unfold gtpu_decap. rewrite (decap_outer_eq k macs eth h fam src _ Hk E Lm Ho Hlin). bstep.
  assert (E1 : sk_data k = (macs ++ be_bytes 2 eth ++ h) ++ udp ++ gpdu_header flags len teid opt exts ++ inner)
    by by rewrite E, <-!app_assoc.
  pose proof (mlen_nonneg (gpdu_header flags len teid opt exts)).
  pose proof (mlen_nonneg opt). pose proof (mlen_nonneg (ext_bytes exts)). pose proof (mlen_nonneg inner).
  rewrite (load_at k _ _ (14 + mlen h) 0 8 E1) by mlia. rewrite slice_app_l, slice_full by lia.
  rewrite Hu. change (negb (GTPU_PORT =? GTPU_PORT)) with false. cbn match. unfold config_get.
  rewrite Ec, Ev. change (negb (GTPU_ABI_VERSION =? GTPU_ABI_VERSION)) with false. cbn match.
  assert (E2 : sk_data k = (macs ++ be_bytes 2 eth ++ h ++ udp) ++ gpdu_header flags len teid opt exts ++ inner)
    by by rewrite E, <-!app_assoc.
  assert (Lp : mlen (macs ++ be_bytes 2 eth ++ h ++ udp) = 14 + mlen h + 8) by mlia.
  assert (Lg : mlen (gpdu_header flags len teid opt exts) = 8 + mlen opt + mlen (ext_bytes exts)) by (unfold gpdu_header; mlia).
  rewrite (load_at k _ _ (14 + mlen h + 8) 0 8 E2) by mlia. rewrite slice_app_l by lia.
  rewrite !get_slice by lia. change (get (gpdu_header flags len teid opt exts) (0 + 0)) with flags.
  change (get (gpdu_header flags len teid opt exts) (0 + 1)) with GTPU_MT_GPDU.
  rewrite slice_slice by lia.
  assert (Et : be_val (slice (gpdu_header flags len teid opt exts) (0 + 4) 4) = teid).
  { unfold gpdu_header. rewrite app_assoc, (slice_mid _ (be_bytes 4 teid) _ _ 0 4) by mlia.
    rewrite slice_full, be_val_bytes by done. apply Z.mod_small. change (256 ^ Z.of_nat 4) with 4294967296. apply Hg. }
  pose proof Hg as (_ & Hf & _). rewrite Et, Hf. change (negb (GTPU_F_VERSION_PT =? GTPU_F_VERSION_PT)) with false.
  change (GTPU_MT_GPDU =? GTPU_MT_END_MARKER) with false. change (negb (GTPU_MT_GPDU =? GTPU_MT_GPDU)) with false. cbn match.
  rewrite <-Lp, (payload_offset_gpdu k _ flags len teid opt exts inner Hg E2), Hrx.
  assert (E3 : sk_data k = ((macs ++ be_bytes 2 eth ++ h ++ udp) ++ gpdu_header flags len teid opt exts) ++ inner)
    by by rewrite E2, <-!app_assoc.
  rewrite <-mlen_app, (inner_check_accepts k _ inner tun family proto E3 Hacc).
  set (pre := (macs ++ be_bytes 2 eth ++ h ++ udp) ++ gpdu_header flags len teid opt exts) in *.
  assert (Lpre : 14 <= mlen pre ∧ sk_len k = mlen pre + mlen inner).
  { subst pre. unfold sk_len. rewrite E3, !(mlen_app (_ ++ _)). rewrite Lp, Lg. pose proof (mlen_nonneg h). lia. }
  destruct (strip_ok e k (mlen pre) (if family =? fam then 0 else if family =? AF_INET6
    then BPF_F_ADJ_ROOM_DECAP_L3_IPV6 else BPF_F_ADJ_ROOM_DECAP_L3_IPV4) proto) as (k1 & k2 & Ea & Es & Ep); [done|lia|].
  destruct (strip_eq e k (mlen pre) _ proto k1 k2 ltac:(lia) Ea Es) as [Ed Ep'].
  rewrite Ea, Es. exists k2. split; [|split].
  - do 3 f_equal. f_equal. f_equal. lia.
  - rewrite Ed. unfold stripped. rewrite E3 at 2. unfold mlen. rewrite Nat2Z.id, drop_app_length.
    rewrite E. rewrite take_app_length'; [done|]. unfold mlen in Lm. lia.
  - rewrite Ep', Ep. assert (Hp : proto = ethertype family) by (destruct Hacc as [_ [(-> & -> & _)|(-> & -> & _)]]; done).
    rewrite Hp. unfold ethertype. destruct (family =? fam); [done|]. by destruct (family =? AF_INET6).
Qed.

(** *** And the only ones delivered *)

Lemma slice_get1 m i : 0 <= i < mlen m → slice m i 1 = [get m i].
Proof using. clear le. intros. by apply get_via_slice. Qed.
Lemma be_slice m i z n : bytes_ok m → 0 <= i → i + z <= mlen m → z = Z.of_nat n → be_bytes n (be_val (slice m i z)) = slice m i z.
Proof using.
  clear le. intros Hb Hi Hl ->. rewrite <-(be_bytes_val (slice m i (Z.of_nat n))) at 2 by by apply bytes_ok_slice.
  f_equal. pose proof (mlen_slice m i (Z.of_nat n) Hi ltac:(lia) Hl). unfold mlen in *. lia.
Qed.
(** A header walked over is a chain of extension headers. *)
Lemma ext_walk_inv k : bytes_ok (sk_data k) → ∀ hops next off off', 0 <= next < 256 → 0 <= off → ext_walk hops k next off = Some off' →
  ∃ exts, Forall ext_ok exts ∧ first_type exts = next ∧ (length exts <= hops)%nat ∧ off' = off + mlen (ext_bytes exts) ∧
    slice (sk_data k) off (mlen (ext_bytes exts)) = ext_bytes exts.
Proof using.
  clear le. intros Hb. set (m := sk_data k) in *. induction hops as [|hops IH]; intros next off off' Hn Ho; cbn [ext_walk].
  - destruct (Z.eqb_spec next 0) as [->|]; [|done]. intros [= <-]. exists []. cbn [ext_bytes first_type length]. rewrite mlen_nil, slice_0.
    split_and!; done || lia.
  - destruct (Z.eqb_spec next 0) as [->|Hne].
    { intros [= <-]. exists []. cbn [ext_bytes first_type length]. rewrite mlen_nil, slice_0. split_and!; done || lia. }
    destruct (load1 k off) as [n|] eqn:E1; [|done]. cbn [mbind option_bind]. apply load1_Some in E1 as [H1 En]. fold m in En.
    destruct (Z.eqb_spec n 0) as [|Hn0]; [done|]. destruct (load1 k (off + n * 4 - 1)) as [nx|] eqn:E2; [|done]. cbn [mbind option_bind].
    apply load1_Some in E2 as [H2 Ex]. fold m in Ex. unfold sk_len in *. fold m in H1, H2.
    pose proof (get_range m off Hb). pose proof (get_range m (off + n * 4 - 1) Hb). intros E3.
    apply IH in E3 as (exts & Hx & Hf & Hl & -> & Hs); [|lia..].
    set (c := slice m (off + 1) (4 * n - 2)). assert (Lc : mlen c = 4 * n - 2) by (apply mlen_slice; lia).
    assert (Lq : (mlen c + 2) / 4 = n) by (rewrite Lc; replace (4 * n - 2 + 2) with (n * 4) by lia; by rewrite Z.div_mul).
    exists ((next, c) :: exts). cbn [ext_bytes first_type length]. rewrite Lq. pose proof (mlen_nonneg (ext_bytes exts)).
    assert (Lx : mlen (n :: c ++ first_type exts :: ext_bytes exts) = 4 * n + mlen (ext_bytes exts)) by (rewrite mlen_cons, mlen_app, mlen_cons; lia).
    rewrite Lx. split_and!; [|done|lia|lia|].
    + constructor; [|done]. split; [cbn; lia|]. split; [by apply bytes_ok_slice|]. exists n. split; [lia|done].
    + replace (4 * n + mlen (ext_bytes exts)) with (1 + ((4 * n - 2) + (1 + mlen (ext_bytes exts)))) by lia.
      rewrite !slice_split by lia. rewrite slice_get1 by lia. fold c. replace (off + 1 + (4 * n - 2)) with (off + n * 4 - 1) by lia.
      rewrite slice_get1, Hf, <-En, <-Ex by lia. replace (off + n * 4 - 1 + 1) with (off + n * 4) by lia. by rewrite Hs.
Qed.
Lemma land7_split fl : Z.land fl 7 = 0 → Z.land fl GTPU_F_EXT = 0.
Proof using. clear. intros H. change GTPU_F_EXT with (Z.land 7 4). by rewrite Z.land_assoc, H. Qed.
Lemma gpdu_inv k goff off : bytes_ok (sk_data k) → 0 <= goff → goff + 8 <= sk_len k → off < sk_len k →
  Z.land (get (sk_data k) goff) 240 = GTPU_F_VERSION_PT → get (sk_data k) (goff + 1) = GTPU_MT_GPDU →
  payload_offset k goff (get (sk_data k) goff) = Some off →
  ∃ len opt exts, slice (sk_data k) goff (off - goff) =
      gpdu_header (get (sk_data k) goff) len (be_val (slice (sk_data k) (goff + 4) 4)) opt exts ∧
    gpdu_ok (get (sk_data k) goff) (be_val (slice (sk_data k) (goff + 4) 4)) opt exts.
Proof using.
  clear le. intros Hb Hg H8 Hoff Hfl Hmt. unfold sk_len in *. set (m := sk_data k) in *. set (fl := get m goff) in *. intros Ep.
  pose proof (get_range m goff Hb) as Hfr. fold fl in Hfr.
  assert (Hte : 0 <= be_val (slice m (goff + 4) 4) < 4294967296).
  { pose proof (be_val_range _ (bytes_ok_slice m (goff + 4) 4 Hb)) as H. pose proof (mlen_slice m (goff + 4) 4 ltac:(lia) ltac:(lia) ltac:(lia)) as L.
    unfold mlen in L. by rewrite L in H. }
  assert (E8 : slice m goff 8 = [fl; GTPU_MT_GPDU] ++ be_bytes 2 (be_val (slice m (goff + 2) 2)) ++ be_bytes 4 (be_val (slice m (goff + 4) 4))).
  { change 8 with (1 + (1 + (2 + 4))). rewrite !slice_split by lia. rewrite !slice_get1 by lia.
    replace (goff + 1 + 1) with (goff + 2) by lia. replace (goff + 2 + 2) with (goff + 4) by lia. rewrite Hmt.
    rewrite (be_slice m (goff + 2) 2 2%nat), (be_slice m (goff + 4) 4 4%nat) by (done || lia). done. }
  assert (Hcut : ∀ opt exts, slice m (goff + 8) (off - goff - 8) = opt ++ ext_bytes exts → goff + 8 <= off →
    slice m goff (off - goff) = gpdu_header fl (be_val (slice m (goff + 2) 2)) (be_val (slice m (goff + 4) 4)) opt exts).
  { intros opt exts E Hge. replace (off - goff) with (8 + (off - goff - 8)) by lia. rewrite slice_split, E8, E by lia. unfold gpdu_header. by rewrite <-!app_assoc. }
  unfold payload_offset, GTPU_HDR_MIN, GTPU_HDR_OPT in Ep. cbv zeta in Ep. change (Z.lor (Z.lor GTPU_F_EXT GTPU_F_SEQ) GTPU_F_NPDU) with 7 in Ep.
  exists (be_val (slice m (goff + 2) 2)). destruct (Z.eqb_spec (Z.land fl 7) 0) as [E7|E7].
  { injection Ep as <-. exists [], []. split; [apply Hcut; [|lia]; replace (goff + 8 - goff - 8) with 0 by lia; apply slice_0|].
    split_and!; try done; try lia; [apply bytes_ok_nil|by left]. }
  set (opt := slice m (goff + 8) 4) in *. destruct (Z.eqb_spec (Z.land fl GTPU_F_EXT) 0) as [E4|E4].
  { injection Ep as <-. assert (Lo : mlen opt = 4) by (apply mlen_slice; lia). exists opt, [].
    split; [apply Hcut; [|lia]; replace (goff + 8 + 4 - goff - 8) with 4 by lia; by rewrite app_nil_r|].
    split_and!; try done; try lia; [by apply bytes_ok_slice|right; by left]. }
  destruct (load1 k (goff + 11)) as [nx|] eqn:E11; [|done]. cbn [mbind option_bind] in Ep. apply load1_Some in E11 as [H11 Ex]. unfold sk_len in H11. fold m in H11, Ex.
  pose proof (get_range m (goff + 11) Hb). assert (Lo : mlen opt = 4) by (apply mlen_slice; lia).
  apply ext_walk_inv in Ep as (exts & Hx & Hf & Hl & -> & Hs); [|done|lia..]. fold m in Hs. pose proof (mlen_nonneg (ext_bytes exts)).
  exists opt, exts. split.
  - apply Hcut; [|lia]. replace (goff + 8 + 4 + mlen (ext_bytes exts) - goff - 8) with (4 + mlen (ext_bytes exts)) by lia.
    rewrite slice_split by lia. by rewrite Hs.
  - split_and!; try done; try lia; [by apply bytes_ok_slice|]. right; right. split_and!; try done.
    unfold opt. rewrite get_slice by lia. replace (goff + 8 + 3) with (goff + 11) by lia. congruence.
Qed.
Lemma vi_69 x : 0 <= x < 256 → Z.shiftr x 4 = 4 → Z.land x 15 = 5 → x = 69.
Proof using.
  clear. intros Hx. rewrite Z.shiftr_div_pow2 by lia. change 15 with (Z.ones 4). rewrite Z.land_ones by lia. change (2 ^ 4) with 16.
  pose proof (Z.div_mod x 16 ltac:(lia)). lia.
Qed.
Lemma decap_outer_inv k uo fam src : skb_ok k → decap_outer le k = Ok (inr (uo, fam, src)) →
  uo <= sk_lin k ∧ outer_ok (slice (sk_data k) 14 (uo - 14)) (eth_type (sk_data k)) fam src ∧ (uo = 34 ∨ uo = 54).
Proof using.
  intros Hk. pose proof Hk as [Hb Hl]. unfold sk_len in Hl. set (m := sk_data k) in *. unfold decap_outer, ETH_HLEN, eth_type.
  destruct (Z.ltb_spec (sk_lin k) 14); [done|]. pkt_reads. fold m.
  destruct (Z.eqb_spec (be_val (slice m 12 2)) ETH_P_IP) as [Et|Et]; [|destruct (Z.eqb_spec (be_val (slice m 12 2)) ETH_P_IPV6) as [Et6|]; [|done]].
  - destruct (Z.ltb_spec (sk_lin k) (14 + 20)); [done|]. pkt_reads. fold m. pose proof (get_range m 14 Hb).
    destruct (Z.eqb_spec (Z.shiftr (get m 14) 4) 4); [|done]. destruct (Z.eqb_spec (Z.land (get m 14) 15) 5); [|done]. cbn [negb orb]. pkt_reads. fold m.
    destruct (Z.eqb_spec (get m 23) IPPROTO_UDP); [|done]. cbn [negb]. pkt_reads. fold m.
    destruct (Z.eqb_spec (Z.land (be_val (slice m 20 2)) 16383) 0) as [Hz|]; [|done]. cbn [negb]. pkt_reads. fold m.
    destruct (Z.eqb_spec (csum16 le (slice m 14 20) 0) 65535) as [Hc|]; [|done]. cbn [negb]. pkt_reads. fold m. intros [= <- <- <-].
    split; [lia|]. split; [|by left]. left. change (14 + 20 - 14) with 20. rewrite Et.
    assert (L20 : mlen (slice m 14 20) = 20) by (apply mlen_slice; lia). rewrite !get_slice, !slice_slice by lia.
    apply csum16_net in Hc; [|by apply bytes_ok_slice|unfold even_len; by rewrite L20|lia]. change 16383 with (Z.ones 14) in Hz. rewrite Z.land_ones in Hz by lia.
    destruct Hc as [Hc1 Hc2]. split_and!; try done. by apply vi_69.
  - destruct (Z.ltb_spec (sk_lin k) (14 + 40)); [done|]. pkt_reads. fold m. destruct (Z.eqb_spec (get m 20) IPPROTO_UDP); [|done]. cbn [negb]. pkt_reads. fold m.
    intros [= <- <- <-]. split; [lia|]. split; [|by right]. right. change (14 + 40 - 14) with 40. rewrite Et6, !get_slice, !slice_slice, mlen_slice by lia.
    by split_and!.
Qed.
Lemma get_drop' m off i : 0 <= off → 0 <= i → get (drop (Z.to_nat off) m) i = get m (off + i).
Proof using. clear le. intros. by apply get_drop. Qed.
Lemma slice_drop m off i n : 0 <= off → 0 <= i → slice (drop (Z.to_nat off) m) i n = slice m (off + i) n.
Proof using. clear le. intros. unfold slice. rewrite drop_drop. do 2 f_equal. lia. Qed.
Lemma inner_check_inv k off tun family proto : 0 <= off → rx_inner_family tun ∈ [0; AF_INET; AF_INET6] →
  inner_check k off tun = Some (family, proto) → accepts tun (drop (Z.to_nat off) (sk_data k)) family proto.
Proof using.
  clear le. intros Ho Hr. unfold inner_check, sk_len. set (m := sk_data k). destruct (Z.leb_spec (mlen m) off); [done|].
  destruct (load1 k off) as [b|] eqn:E1; [|done]. cbn [mbind option_bind]. apply load1_Some in E1 as [_ Eb]. fold m in Eb. cbv zeta.
  assert (Ld : mlen (drop (Z.to_nat off) m) = mlen m - off) by (apply mlen_drop; lia).
  unfold accepts. rewrite get_drop', !slice_drop, Ld, Z.add_0_r, <-Eb by lia. set (ver := Z.shiftr b 4).
  set (fam := if rx_inner_family tun =? 0 then _ else _).
  assert (Hfam : (rx_inner_family tun = 0 ∨ rx_inner_family tun = fam) ∧ (fam = AF_INET ∨ fam = AF_INET6)).
  { unfold fam. rewrite !elem_of_cons in Hr. destruct Hr as [->|[->|[->|Hr]]]; [|split; [by right|by left]|split; [by right|by right]|by apply elem_of_nil in Hr].
    split; [by left|]. change (0 =? 0) with true. cbv iota. destruct (ver =? 6); auto. }
  destruct Hfam as [Hf1 Hf2]. unfold addr16_is_zero. destruct (Z.eqb_spec fam AF_INET) as [Ef|Ef].
  - destruct (Z.eqb_spec ver 4) as [Ev|]; [|done]. destruct (Z.ltb_spec (mlen m - off) 20); [done|]. cbn [negb orb].
    destruct (bool_decide_reflect (rx_inner_addr tun = zeros 16)); [intros [= <- <-]; split; [done|]; left; split_and!; auto|].
    destruct (load_bytes k (off + 16) 4) as [dst|] eqn:El; [|done]. apply load_bytes_Some in El as (_ & _ & ->). cbn [mbind option_bind].
    destruct (bool_decide_reflect (slice (sk_data k) (off + 16) 4 = take 4 (rx_inner_addr tun))); [|done]. intros [= <- <-]. split; [done|]. left. split_and!; auto.
  - destruct Hf2 as [?|Ef6]; [done|]. destruct (Z.eqb_spec ver 6) as [Ev|]; [|done]. destruct (Z.ltb_spec (mlen m - off) 40); [done|]. cbn [negb orb].
    destruct (bool_decide_reflect (rx_inner_addr tun = zeros 16)); [intros [= <- <-]; split; [done|]; right; split_and!; auto|].
    destruct (load_bytes k (off + 24) 16) as [dst|] eqn:El; [|done]. apply load_bytes_Some in El as (_ & _ & ->). cbn [mbind option_bind].
    destruct (bool_decide_reflect (slice (sk_data k) (off + 24) 16 = rx_inner_addr tun)); [|done]. intros [= <- <-]. split; [done|]. right. split_and!; auto.
Qed.

(** A G-PDU, with its link addresses and inner packet, for a tunnel that accepts the packet. *)
Definition gpdu_for (m : maps) (k : sk_buff) (macs inner : list Z) (tun : gtpu_rx_tun) (family proto : Z) : Prop :=
  ∃ h udp g eth fam src flags len teid opt exts,
    gpdu_frame k macs h udp g inner eth fam src flags len teid opt exts ∧ config_ok m ∧ m_rx m teid = Some tun ∧ accepts tun inner family proto.
(** Stripped to the packet, for the stack or the interface of the tunnel. *)
Definition handed (macs inner : list Z) (tun : gtpu_rx_tun) (proto : Z) (k' : sk_buff) (v : verdict) : Prop :=
  sk_data k' = macs ++ be_bytes 2 proto ++ inner ∧ v = if rx_ifindex tun =? 0 then TC_ACT_OK else TC_ACT_REDIRECT (rx_ifindex tun).
(** Receive tunnels as the control plane installs them. *)
Definition rx_ok (m : maps) : Prop := ∀ teid tun, m_rx m teid = Some tun → rx_inner_family tun ∈ [0; AF_INET; AF_INET6].

Lemma delivered_gpdu m k k' v : skb_ok k → rx_ok m → delivered le m k k' v →
  ∃ macs inner tun family proto, gpdu_for m k macs inner tun family proto ∧ handed macs inner tun proto k' v.
Proof using.
  intros Hk Hrx (uo & fam & src & udp & g & off & tun & family & proto & [Po [Pu Pp] Pc (Pg & Pf & Pt) [Pe Plt] [Pm Pi] Pd Pv]).
  destruct (decap_outer_inv k uo fam src Hk Po) as (Hlin & Hout & Huo). pose proof Hk as [Hb Hl].
  apply load_bytes_Some in Pu as (_ & Hu & ->). apply load_bytes_Some in Pg as (_ & Hg & ->). unfold sk_len in *. set (m0 := sk_data k) in *.
  rewrite get_slice in Pf by lia. rewrite get_slice in Pt by lia. rewrite get_slice in Pe by lia. rewrite slice_slice in Pm by lia.
  rewrite Z.add_0_r in Pf, Pe. pose proof (payload_offset_ge _ _ _ _ Hb Pe).
  assert (Lk : sk_len k = mlen m0) by done.
  destruct (gpdu_inv k (uo + 8) off Hb ltac:(lia) ltac:(lia) ltac:(lia) Pf Pt Pe) as (len & opt & exts & Eg & Hok). fold m0 in Eg, Hok.
  exists (take 12 m0), (drop (Z.to_nat off) m0), tun, family, proto.
  assert (L12 : mlen (take 12 m0) = 12) by (apply (mlen_take 12); lia). assert (Lh : mlen (slice m0 14 (uo - 14)) = uo - 14) by (apply mlen_slice; lia).
  split; [|by split; [rewrite Pd|]].
  exists (slice m0 14 (uo - 14)), (slice m0 uo 8), (slice m0 (uo + 8) (off - (uo + 8))), (eth_type m0), fam, src,
    (get m0 (uo + 8)), len, (be_val (slice m0 (uo + 8 + 4) 4)), opt, exts.
  split_and!; [|done|done|by apply inner_check_inv; [lia|eapply Hrx|]].
  split; [|done|done|done|rewrite Lh; lia|split; [apply mlen_slice; lia|done]|split; [|exact Hok]].
  - fold m0. assert (Eth : be_bytes 2 (eth_type m0) = slice m0 12 2).
    { unfold eth_type. rewrite <-(be_bytes_val (slice m0 12 2)) at 2 by by apply bytes_ok_slice. f_equal.
      pose proof (mlen_slice m0 12 2 ltac:(lia) ltac:(lia) ltac:(lia)). unfold mlen in *. lia. }
    rewrite Eth. change (take 12 m0) with (slice m0 0 12). rewrite <-(slice_full m0 (mlen m0)) at 1 by done.
    assert (Ed : drop (Z.to_nat off) m0 = slice m0 off (mlen m0 - off)).
    { unfold slice. rewrite take_ge; [done|]. rewrite length_drop. unfold mlen. lia. }
    rewrite Ed. replace (mlen m0) with (12 + (2 + ((uo - 14) + (8 + ((off - (uo + 8)) + (mlen m0 - off)))))) at 1 by lia.
    rewrite !slice_split by lia. change (0 + 12) with 12. change (12 + 2) with 14. replace (14 + (uo - 14)) with uo by lia.
    by replace (uo + 8 + (off - (uo + 8))) with off by lia.
  - rewrite Eg. done.
Qed.

(** ** The frame of the encapsulation *)

Context (csum_diff : list Z → Z → Z).

(** The same packet behind a longer header. *)
Definition behind (n : Z) (k kh : sk_buff) : Prop :=
  ∃ p0 p t, sk_data k = p0 ++ t ∧ sk_data kh = p ++ t ∧ mlen p0 = 14 ∧ mlen p = 14 + n.

Lemma behind_load n k kh off c : behind n k kh → 0 <= n → 14 <= off →
  load_bytes kh (off + n) c = load_bytes k off c.
Proof using.
  clear. intros (p0 & p & t & E0 & E1 & L0 & L1) Hn Ho. unfold load_bytes, sk_len. rewrite E0, E1, !mlen_app, L0, L1.
  rewrite (proj2 (Z.leb_le 0 (off + n))), (proj2 (Z.leb_le 0 off)) by lia. cbn [andb].
  rewrite !slice_app_ge, L0, L1 by lia.
  replace (off + n - (14 + n)) with (off - 14) by lia.
  destruct (Z.leb_spec (off + n + c) (14 + n + mlen t)), (Z.leb_spec (off + c) (14 + mlen t)); done || lia.
Qed.
Lemma behind_csum n k kh chunks : behind n k kh → 0 <= n → ∀ off remain sum, 14 <= off → 0 <= remain →
  csum_pkt_range csum_diff chunks kh (off + n) remain sum = csum_pkt_range csum_diff chunks k off remain sum.
Proof using.
  clear le. intros Hb Hn. induction chunks as [|chunks IH]; intros off remain sum Ho Hr; [done|].
  cbn [csum_pkt_range]. destruct (_ =? 0); [done|]. cbv zeta. rewrite (behind_load n k kh) by done.
  destruct (load_bytes k off _); [|done]. cbn [mbind option_bind]. destruct (_ <? 0); [done|].
  assert (Hm : 0 <= (if CSUM_CHUNK <? remain then CSUM_CHUNK else remain) <= remain)
    by (unfold CSUM_CHUNK; destruct (Z.ltb_spec 64 remain); lia).
  rewrite <-IH by lia. f_equal. lia.
Qed.
Lemma behind_store n e k kh off bs : behind n k kh → 0 <= n → 14 <= off →
  match store_bytes e kh (off + n) bs with
  | Some kh' => ∃ k', store_bytes e k off bs = Some k' ∧ behind n k' kh' ∧
      take 14 (sk_data k') = take 14 (sk_data k) ∧ take (Z.to_nat (14 + n)) (sk_data kh') = take (Z.to_nat (14 + n)) (sk_data kh)
  | None => store_bytes e k off bs = None
  end.
Proof using.
  clear le csum_diff. intros (p0 & p & t & E0 & E1 & L0 & L1) Hn Ho. unfold store_bytes, sk_len.
  rewrite E0, E1, !mlen_app, L0, L1. destruct (e_store e); [|done].
  rewrite (proj2 (Z.leb_le 0 (off + n))), (proj2 (Z.leb_le 0 off)) by lia. cbn [andb].
  replace (off + n + mlen bs <=? 14 + n + mlen t) with (off + mlen bs <=? 14 + mlen t)
    by (destruct (Z.leb_spec (off + mlen bs) (14 + mlen t)), (Z.leb_spec (off + n + mlen bs) (14 + n + mlen t)); done || lia).
  destruct (_ <=? _); [|done]. eexists. split; [done|]. rewrite !splice_app_ge by lia.
  assert (T0 : ∀ x, take 14 (p0 ++ x) = p0) by (intros; apply take_app_length'; unfold mlen in L0; lia).
  assert (T1 : ∀ x, take (Z.to_nat (14 + n)) (p ++ x) = p) by (intros; apply take_app_length'; unfold mlen in L1; lia).
  split; [|cbn [sk_data]; by rewrite !T0, !T1].
  exists p0, p, (splice t (off - 14) bs). split_and!; [|cbn [sk_data]..]; try done.
  - cbn [sk_data]. by rewrite L0.
  - rewrite L1. do 2 f_equal. lia.
Qed.

(** Completing the checksum of the packet is the same behind any header. *)
Lemma behind_inner n e k kh f k' : behind n k kh → 0 <= n → flow_ok f →
  encap_inner_csum le csum_diff e kh f n = Some k' →
  ∃ kc, encap_inner_csum le csum_diff e k f 0 = Some kc ∧ behind n kc k' ∧
    take 14 (sk_data kc) = take 14 (sk_data k) ∧ take (Z.to_nat (14 + n)) (sk_data k') = take (Z.to_nat (14 + n)) (sk_data kh).
Proof using.
  intros Hb Hn Hf. destruct (completed f) eqn:Hc.
  2:{ rewrite !encap_inner_csum_skip by done. intros [= <-]. eauto 10. }
  unfold encap_inner_csum. cbv zeta. fold (completed f). rewrite Hc. fold (l4_pseudo f). rewrite Z.add_0_r.
  destruct (completed_inv f Hc) as (Ho & _ & Hd & _ & Hl).
  pose proof Hf as (_ & _ & _ & _ & [?|[Hoff _]] & _); [done|].
  set (d := if fl_proto f =? IPPROTO_UDP then 6 else 16) in *.
  replace (fl_l4_off f + n + d) with (fl_l4_off f + d + n) by lia.
  pose proof (behind_store n e k kh (fl_l4_off f + d) [0; 0] Hb Hn ltac:(lia)) as Hs.
  destruct (store_bytes e kh _ _) as [kh0|]; [|done]. destruct Hs as (k0 & -> & Hb0 & T0 & T1). cbn [mbind option_bind].
  unfold csum_l4. destruct (_ <? 0); [done|]. rewrite (behind_csum n k0 kh0) by (done || lia).
  destruct (csum_pkt_range _ _ k0 _ _ _) as [r|]; [|done]. cbn [mbind option_bind].
  match goal with |- store_bytes _ _ _ ?bs = _ → _ =>
    pose proof (behind_store n e k0 kh0 (fl_l4_off f + d) bs Hb0 Hn ltac:(lia)) as Hs end.
  intros Es. rewrite Es in Hs. destruct Hs as (kc & -> & Hbc & T2 & T3).
  exists kc. split_and!; [done|done|congruence|congruence].
Qed.

(** Values as the control plane installs them and the kernel reports them. *)
Definition octets_ok (n : Z) (a : list Z) : Prop := bytes_ok a ∧ mlen a = n.
Definition tun_ok (tun : gtpu_tx_tun) : Prop :=
  octets_ok 16 (tx_remote_addr tun) ∧ octets_ok 6 (tx_dst_mac tun) ∧ octets_ok 6 (tx_src_mac tun) ∧
  0 <= tx_remote_port tun < 65536 ∧ 0 <= tx_remote_teid tun < 4294967296.
Definition cfg_ok (cfg : gtpu_config) : Prop := octets_ok 4 (cf_local_v4 cfg) ∧ octets_ok 16 (cf_local_v6 cfg).
Definition env_ok (e : env) : Prop :=
  ∀ fam ifi len src dst smac dmac oif, e_fib e fam ifi len src dst = Some (smac, dmac, oif) → octets_ok 6 smac ∧ octets_ok 6 dmac.

Lemma encap_link_ok e cfg tun k len smac dmac oif : env_ok e → tun_ok tun →
  encap_link e cfg tun k len = (smac, dmac, oif) → octets_ok 6 smac ∧ octets_ok 6 dmac.
Proof using.
  clear. intros He (_ & Hd & Hs & _). unfold encap_link. cbv zeta. destruct (_ =? 0); [|by intros [= <- <- _]].
  destruct (e_fib e _ _ _ _ _) as [[[s d] o]|] eqn:E; [|by intros [= <- <- _]]. intros [= <- <- _]. by eapply He.
Qed.

Lemma mlen_gtpu_header tun n : mlen (gtpu_header tun n) = gtpu_length tun.
Proof using. clear. unfold gtpu_header, gtpu_length, GTPU_HDR_MIN, GTPU_HDR_OPT. destruct (_ =? 0); mlia. Qed.
(** The GTP-U header of the egress program is that of a G-PDU. *)
Lemma gtpu_header_gpdu tun n : 0 <= tx_remote_teid tun < 4294967296 →
  ∃ flags len opt exts, gtpu_header tun n = gpdu_header flags len (tx_remote_teid tun) opt exts ∧
    gpdu_ok flags (tx_remote_teid tun) opt exts.
Proof using.
  clear. intros Ht. unfold gtpu_header. destruct (_ =? 0).
  - exists GTPU_F_VERSION_PT, n, [], []. split; [unfold gpdu_header; by rewrite app_nil_r|].
    split_and!; try (done || lia); [apply bytes_ok_nil|by left].
  - exists (Z.lor GTPU_F_VERSION_PT GTPU_F_EXT), (n + GTPU_HDR_OPT + 4), [0; 0; 0; GTPU_EXT_PDU_SESSION],
      [(GTPU_EXT_PDU_SESSION, [0; Z.land (tx_qfi tun) 63])].
    split; [done|]. split_and!; try (done || lia); [octets|]. right; right. split_and!; try done; [|unfold GTPU_EXT_MAX_HOPS; cbn; lia].
    constructor; [|constructor]. split; [done|]. cbn [snd]. split.
    + assert (0 <= Z.land (tx_qfi tun) 63 < 64); [|octets].
      change 63 with (Z.ones 6). rewrite Z.land_ones by done. apply Z.mod_pos_bound. done.
    + by exists 1.
Qed.

(** Four writes at consecutive offsets are one. *)
Lemma stores_chain {A} e k a b c d (K : sk_buff → option A) r :
  (k ← store_bytes e k 0 a; k ← store_bytes e k (mlen a) b; k ← store_bytes e k (mlen a + mlen b) c;
   k ← store_bytes e k (mlen a + mlen b + mlen c) d; K k) = Some r →
  K (Skb (splice (sk_data k) 0 (a ++ b ++ c ++ d)) (sk_lin k) (sk_protocol k) (sk_ifindex k)) = Some r ∧
  mlen (a ++ b ++ c ++ d) <= sk_len k ∧ e_store e = true.
Proof using.
  clear. destruct (store_bytes e k 0 a) as [k1|] eqn:E1; [|done]. cbn [mbind option_bind].
  apply store_bytes_Some in E1 as (He & _ & B1 & ->). unfold sk_len in *. rewrite Z.add_0_l in B1.
  pose proof (mlen_nonneg a). pose proof (mlen_nonneg b). pose proof (mlen_nonneg c). pose proof (mlen_nonneg d).
  destruct (store_bytes e _ (mlen a) b) as [k2|] eqn:E2; [|done]. cbn [mbind option_bind].
  apply store_bytes_Some in E2 as (_ & _ & B2 & ->). unfold sk_len in *. cbn [sk_data sk_lin sk_protocol sk_ifindex] in *.
  rewrite mlen_splice in B2 by lia.
  assert (Eab : splice (splice (sk_data k) 0 a) (mlen a) b = splice (sk_data k) 0 (a ++ b)) by
    (rewrite <-(Z.add_0_l (mlen a)); apply splice_app; lia).
  rewrite Eab. destruct (store_bytes e _ (mlen a + mlen b) c) as [k3|] eqn:E3; [|done]. cbn [mbind option_bind].
  apply store_bytes_Some in E3 as (_ & _ & B3 & ->). unfold sk_len in *. cbn [sk_data sk_lin sk_protocol sk_ifindex] in *.
  rewrite mlen_splice in B3 by mlia.
  assert (Eabc : splice (splice (sk_data k) 0 (a ++ b)) (mlen a + mlen b) c = splice (sk_data k) 0 ((a ++ b) ++ c)) by
    (rewrite <-mlen_app, <-(Z.add_0_l (mlen (a ++ b))); apply splice_app; mlia).
  rewrite Eabc. destruct (store_bytes e _ (mlen a + mlen b + mlen c) d) as [k4|] eqn:E4; [|done]. cbn [mbind option_bind].
  apply store_bytes_Some in E4 as (_ & _ & B4 & ->). unfold sk_len in *.
  cbn [sk_data sk_lin sk_protocol sk_ifindex] in *. rewrite mlen_splice in B4 by mlia.
  assert (Eall : splice (splice (sk_data k) 0 ((a ++ b) ++ c)) (mlen a + mlen b + mlen c) d =
    splice (sk_data k) 0 (a ++ b ++ c ++ d)).
  { replace (mlen a + mlen b + mlen c) with (0 + mlen ((a ++ b) ++ c)) by mlia.
    rewrite splice_app by mlia. by rewrite <-!app_assoc. }
  rewrite Eall. intros EK. split; [done|]. split; [mlia|done].
Qed.

(** The outer headers around a checksum field. *)
Definition outer_eth (tun : gtpu_tx_tun) : Z := if tx_outer_family tun =? AF_INET then ETH_P_IP else ETH_P_IPV6.
Definition outer_ip (cfg : gtpu_config) (tun : gtpu_tx_tun) (udp_len : Z) : list Z :=
  if tx_outer_family tun =? AF_INET
  then ip4_header le (cf_local_v4 cfg) (take 4 (tx_remote_addr tun)) (u16 (l3_length tun + udp_len))
  else ip6_header (cf_local_v6 cfg) (tx_remote_addr tun) (u16 udp_len).
Definition outer_udp (tun : gtpu_tx_tun) (udp_len : Z) (ck : list Z) : list Z :=
  be_bytes 2 GTPU_PORT ++ be_bytes 2 (tx_remote_port tun) ++ be_bytes 2 (u16 udp_len) ++ ck.
Definition outer_headers (cfg : gtpu_config) (tun : gtpu_tx_tun) (smac dmac : list Z) (inner_len udp_len : Z) (ck : list Z) : list Z :=
  (dmac ++ smac) ++ be_bytes 2 (outer_eth tun) ++ outer_ip cfg tun udp_len ++ outer_udp tun udp_len ck ++ gtpu_header tun inner_len.

Lemma take4_ok a : octets_ok 16 a → octets_ok 4 (take 4 a).
Proof using. clear. intros [Hb Hl]. split; [by apply Forall_take|]. apply (mlen_take 4 a). lia. Qed.
Lemma mlen_outer_ip cfg tun n : tun_ok tun → cfg_ok cfg → mlen (outer_ip cfg tun n) = l3_length tun.
Proof using.
  clear csum_diff. intros ([_ Lr] & _) ([_ L4] & [_ L6]). unfold outer_ip, l3_length. destruct (_ =? _).
  - unfold ip4_header. pose proof (mlen_host_bytes le) as Lh. pose proof (mlen_take 4 (tx_remote_addr tun) ltac:(lia)) as Lt.
    change (Z.to_nat 4) with 4%nat in Lt. cbv zeta. rewrite !mlen_app, Lh, Lt, L4. rewrite mlen_be_bytes. done.
  - unfold ip6_header. mlia.
Qed.
Lemma outer_ip_ok cfg tun n : tun_ok tun → cfg_ok cfg →
  ∃ src, outer_ok (outer_ip cfg tun n) (outer_eth tun)
    (if tx_outer_family tun =? AF_INET then AF_INET else AF_INET6) src.
Proof using.
  clear csum_diff. intros Ht Hc. pose proof (mlen_outer_ip cfg tun n Ht Hc) as L.
  pose proof Ht as (Hr & _). destruct (take4_ok _ Hr) as [Hb4 L4]. destruct Hr as [Hrb Lr].
  pose proof Hc as [[Hcb Lc] [H6b L6]].
  unfold outer_ip, outer_eth, l3_length in *. destruct (_ =? _).
  - destruct (ip4_header_valid le (cf_local_v4 cfg) (take 4 (tx_remote_addr tun)) (u16 (20 + n)) Hcb Hb4 Lc L4)
      as (ck & E & Lk & Hk & Hv).
    rewrite E in *. apply (csum16_net le) in Hv as [Hv1 Hv2]; [|by apply ip4_bytes_ok|unfold even_len; by rewrite L|lia].
    eexists. left. by split_and!.
  - eexists. right. unfold ip6_header in *. split_and!; try done.
Qed.

(** What the outer checksum field holds: none over IPv4, the sum over the datagram as it is
    when the headers are written over IPv6. *)
Definition outer_field (cfg : gtpu_config) (tun : gtpu_tx_tun) (smac dmac : list Z) (il ul : Z) (t ck : list Z) : Prop :=
  tx_outer_family tun = AF_INET ∧ ck = [0; 0] ∨
  tx_outer_family tun ≠ AF_INET ∧ ∃ k4 c, sk_data k4 = outer_headers cfg tun smac dmac il ul [0; 0] ++ t ∧
    csum_l4 csum_diff k4 (pseudo6 (cf_local_v6 cfg) (tx_remote_addr tun) ul IPPROTO_UDP) 54 ul = Some c ∧
    ck = host_bytes le (if c =? 0 then 65535 else c).

(** Headers written over the room made for them. *)
Lemma grow_eq e k n flags k0 bs : adjust_room e k n flags = Some k0 → 0 <= n → 14 <= sk_len k → mlen bs = 14 + n →
  splice (sk_data k0) 0 bs = bs ++ drop 14 (sk_data k).
Proof using.
  clear. unfold adjust_room. destruct (_ || _) eqn:Eg; [done|]. intros [= <-] Hn Hk Lb. cbn [sk_data].
  rewrite splice_0. f_equal. rewrite (proj2 (Z.ltb_ge n 0)) by lia. rewrite app_assoc.
  apply drop_app_length'. unfold sk_len, mlen in *. rewrite length_app, length_take, length_map, length_seq. lia.
Qed.

Lemma encap_headers_eq e cfg tun k smac dmac il ul kh :
  mlen smac = 6 → mlen dmac = 6 → tun_ok tun → cfg_ok cfg → 14 <= sk_len k →
  encap_headers le csum_diff e cfg tun k smac dmac il (gtpu_length tun) ul (l3_length tun) (outer_length tun) = Some kh →
  ∃ ck, sk_data kh = outer_headers cfg tun smac dmac il ul ck ++ drop 14 (sk_data k) ∧ mlen ck = 2 ∧
    outer_field cfg tun smac dmac il ul (drop 14 (sk_data k)) ck.
Proof using.
  intros Ls Ld Ht Hcf Hk. unfold encap_headers. cbv zeta. fold (outer_eth tun) (outer_ip cfg tun ul).
  destruct (adjust_room e k (outer_length tun) _) as [k0|] eqn:Ea; [|done]. cbn [mbind option_bind].
  pose proof (mlen_outer_ip cfg tun ul Ht Hcf) as Lip. pose proof (mlen_gtpu_header tun il) as Lg.
  assert (Hn : 0 <= gtpu_length tun ∧ (l3_length tun = 20 ∨ l3_length tun = 40)).
  { rewrite <-Lg. split; [apply mlen_nonneg|]. unfold l3_length. destruct (_ =? _); auto. }
  set (a := dmac ++ smac ++ be_bytes 2 (outer_eth tun)). assert (La : mlen a = 14) by (subst a; mlia).
  set (c := udp_header (tx_remote_port tun) (u16 ul)). assert (Lc : mlen c = 8) by (subst c; unfold udp_header; mlia).
  intros E.
  pose proof (stores_chain e k0 a (outer_ip cfg tun ul) c (gtpu_header tun il)
    (λ k, if tx_outer_family tun =? AF_INET then Some k else
      check ← csum_l4 csum_diff k (pseudo6 (cf_local_v6 cfg) (tx_remote_addr tun) ul IPPROTO_UDP) (ETH_HLEN + l3_length tun) ul;
      store_bytes e k (ETH_HLEN + l3_length tun + 6) (host_bytes le (if check =? 0 then 65535 else check))) kh) as H.
  rewrite La, Lip, Lc in H. destruct (H E) as (E4 & Hlen & He). clear H E.
  set (k4 := Skb _ _ _ _) in E4.
  assert (Ed : sk_data k4 = outer_headers cfg tun smac dmac il ul [0; 0] ++ drop 14 (sk_data k)).
  { subst k4. cbn [sk_data]. rewrite (grow_eq e k (outer_length tun) _ k0 _ Ea); [|unfold outer_length; lia|done|].
    - unfold outer_headers, outer_udp. subst a c. unfold udp_header. by rewrite <-!app_assoc.
    - unfold outer_length. rewrite !mlen_app, La, Lip, Lc, Lg. lia. }
  destruct (Z.eqb_spec (tx_outer_family tun) AF_INET) as [Ef|Ef].
  { injection E4 as <-. exists [0; 0]. split; [done|]. split; [done|]. by left. }
  assert (L3 : l3_length tun = 40) by (unfold l3_length; by rewrite (proj2 (Z.eqb_neq _ _) Ef)).
  rewrite L3 in E4. change (ETH_HLEN + 40) with 54 in E4.
  destruct (csum_l4 _ _ _ _ _) as [ck|] eqn:Ec; [|done]. cbn [mbind option_bind] in E4.
  exists (host_bytes le (if ck =? 0 then 65535 else ck)). split; [|split; [apply mlen_host_bytes|]].
  - apply store_bytes_Some in E4 as (_ & _ & _ & ->). cbn [sk_data]. rewrite Ed.
    set (h := host_bytes le _). assert (Lh : mlen h = 2) by apply mlen_host_bytes.
    set (x := (dmac ++ smac) ++ be_bytes 2 (outer_eth tun) ++ outer_ip cfg tun ul ++
      be_bytes 2 GTPU_PORT ++ be_bytes 2 (tx_remote_port tun) ++ be_bytes 2 (u16 ul)).
    assert (Ex : ∀ c t, outer_headers cfg tun smac dmac il ul c ++ t = x ++ c ++ gtpu_header tun il ++ t).
    { intros. subst x. unfold outer_headers, outer_udp. by rewrite <-!app_assoc. }
    assert (Lx : mlen x = 60). { subst x. rewrite !mlen_app, Ls, Ld, Lip, L3, !mlen_be_bytes. done. }
    rewrite !Ex, splice_app_ge by lia. f_equal. rewrite Lx. change (54 + 6 - 60) with 0.
    rewrite splice_app_l by mlia. f_equal. rewrite splice_0, drop_ge by (unfold mlen in Lh; cbn; lia). apply app_nil_r.
  - right. split; [done|]. exists k4, ck. done.
Qed.

(** The completion leaves the network header of the packet alone. *)
Lemma inner_csum_front e k f kc : flow_ok f → encap_inner_csum le csum_diff e k f 0 = Some kc →
  sk_len kc = sk_len k ∧
  ∀ i n, 0 <= i → 0 <= n → i + n <= sk_len k → fl_l4_off f = 0 ∨ i + n <= fl_l4_off f →
    slice (sk_data kc) i n = slice (sk_data k) i n.
Proof using.
  intros Hf. destruct (completed f) eqn:Hc; [|rewrite encap_inner_csum_skip by done; by intros [= <-]].
  unfold encap_inner_csum. cbv zeta. fold (completed f). rewrite Hc, Z.add_0_r.
  destruct (completed_inv f Hc) as (Ho & _ & Hd & _ & _).
  set (ck := fl_l4_off f + _). assert (Hck : fl_l4_off f <= ck) by lia.
  destruct (store_bytes e k ck _) as [k0|] eqn:E0; [|done]. cbn [mbind option_bind].
  apply store_bytes_Some in E0 as (_ & H0 & H1 & ->). destruct (csum_l4 _ _ _ _ _); [|done]. cbn [mbind option_bind].
  intros E. apply store_bytes_Some in E as (_ & _ & H2 & ->). unfold sk_len in *. cbn [sk_data] in *.
  rewrite mlen_splice in H2 by lia. split; [by rewrite !mlen_splice by (rewrite ?mlen_splice; lia)|].
  intros i n Hi Hn Hl Hr. by rewrite !slice_splice_disj by (rewrite ?mlen_splice; lia).
Qed.
End host.

(** ** Through the tunnel *)

(** The whole segment behind the network header of a packet: its protocol, where it starts,
    its length and the pseudo-header of its checksum. *)
Definition segment (m : mem) (proto off len : Z) (pseudo : list Z) : Prop :=
  eth_type m = ETH_P_IP ∧ frag4 m mod 16384 = 0 ∧ proto = get m 23 ∧ off = 14 + 4 * (get m 14 mod 16) ∧
    len = be_val (slice m 16 2) - 4 * (get m 14 mod 16) ∧ pseudo = slice m 26 8 ++ [0; proto] ++ be_bytes 2 len
  ∨ eth_type m = ETH_P_IPV6 ∧ get m 20 ≠ IPPROTO_FRAGMENT ∧ proto = get m 20 ∧ off = 54 ∧
    len = be_val (slice m 18 2) ∧ pseudo = slice m 22 32 ++ be_bytes 4 len ++ [0; 0; 0; proto].
(** UDP or TCP, of a length whose checksum is completed. *)
Definition completable (proto len : Z) : Prop :=
  (proto = IPPROTO_UDP ∧ 8 <= len ∨ proto = IPPROTO_TCP ∧ 20 <= len) ∧ len <= 2048.
(** The same packet, but that the checksum of such a segment is right: two octets are put in
    its field so that pseudo-header and segment sum to zero, and a UDP checksum is not the
    zero that means none. *)
Definition restored (m m' : mem) : Prop :=
  (∃ proto off len pseudo field, segment m proto off len pseudo ∧ completable proto len ∧ mlen field = 2 ∧
     m' = splice m (off + if proto =? IPPROTO_UDP then 6 else 16) field ∧
     net_sum (pseudo ++ slice m' off len) mod 65535 = 0 ∧ (proto = IPPROTO_UDP → field ≠ [0; 0]))
  ∨ (∀ proto off len pseudo, segment m proto off len pseudo → ¬ completable proto len) ∧ m' = m.

Section tunnel.
Context (le : bool) (csum_diff : list Z → Z → Z).

(** A packet that a tunnel accepts still is one when its checksum is completed. *)
Lemma accepts_completed e k f kc rx family proto : skb_ok k → flow_ok f → parsed k f → eth_type (sk_data k) = proto →
  accepts rx (drop 14 (sk_data k)) family proto → encap_inner_csum le csum_diff e k f 0 = Some kc →
  accepts rx (drop 14 (sk_data kc)) family proto ∧ slice (sk_data kc) 12 2 = be_bytes 2 proto ∧ fl_family f = family.
Proof.
  intros [Hb Hlin] Hf Hp Het [Hfam Hacc] Ec.
  destruct (inner_csum_front le csum_diff e k f kc Hf Ec) as [Hlen Hsl]. unfold sk_len in *.
  assert (Hoff : fl_l4_off f = 0 ∨ 34 <= fl_l4_off f) by (destruct Hf as (_ & _ & _ & _ & [?|[? _]] & _); lia).
  assert (Hd : ∀ m i n, 0 <= i → slice (drop 14 m) i n = slice m (14 + i) n) by (intros m i n Hi; by apply (slice_drop m 14)).
  assert (Hl : 34 <= sk_lin k) by (destruct Hp as [Hp|Hp]; lia).
  assert (Hg : get (drop 14 (sk_data kc)) 0 = get (drop 14 (sk_data k)) 0).
  { change 14%nat with (Z.to_nat 14). rewrite !get_drop by lia. change (14 + 0) with 14.
    pose proof (Hsl 14 1 ltac:(lia) ltac:(lia) ltac:(lia) ltac:(lia)) as E. rewrite !get_via_slice in E by lia. by injection E. }
  assert (Ld : mlen (drop 14 (sk_data kc)) = mlen (drop 14 (sk_data k))).
  { change 14%nat with (Z.to_nat 14). rewrite !mlen_drop by lia. lia. }
  assert (He : slice (sk_data kc) 12 2 = be_bytes 2 proto) by (rewrite Hsl, <-Het by lia; symmetry; apply be_slice; done || lia).
  split; [|split; [done|]].
  - split; [done|]. rewrite Hg, Ld. destruct Hacc as [(-> & -> & Hv & H20 & Ha)|(-> & -> & Hv & H40 & Ha)]; [left|right]; split_and!; try done.
    + destruct Ha as [?|Ha]; [by left|right]. rewrite Hd in Ha |- * by lia. by rewrite Hsl by lia.
    + destruct Ha as [?|Ha]; [by left|right]. rewrite Hd in Ha |- * by lia. destruct Hp as [(_ & E & _)|(_ & _ & ? & _ & _ & ?)].
      * unfold eth_type in Het. by rewrite E in Het.
      * by rewrite Hsl by lia.
  - unfold eth_type in Het. destruct Hacc as [(-> & E & _)|(-> & E & _)], Hp as [(-> & E2 & _)|(-> & E2 & _)]; rewrite E, E2 in Het; done.
Qed.

(** The frame that leaves: the outer headers, then the packet with its checksum completed. *)
Lemma sent_frame e m m' k k' oif f tun cfg smac dmac kh :
  skb_ok k → flow_ok f → parsed k f → env_ok e → tun_ok tun → cfg_ok cfg →
  sent le csum_diff e m m' k k' oif f tun cfg smac dmac kh →
  mlen smac = 6 ∧ mlen dmac = 6 ∧ ∃ kc ck, encap_inner_csum le csum_diff e k f 0 = Some kc ∧
    sk_data k' = outer_headers le cfg tun smac dmac (inner_length k) (udp_length tun k) ck ++ drop 14 (sk_data kc) ∧
    mlen ck = 2 ∧ 14 <= sk_len k ∧ sk_len kc = sk_len k ∧
    outer_field le csum_diff cfg tun smac dmac (inner_length k) (udp_length tun k) (drop 14 (sk_data k)) ck.
Proof.
  intros Hk Hf Hp He Ht Hcf [_ _ _ [Sl _] _ Sh Si].
  destruct (encap_link_ok _ _ _ _ _ _ _ _ He Ht Sl) as [[Hsb Ls] [Hdb Ld]].
  assert (Hl : 14 <= sk_len k) by (destruct Hk as [_ ?]; destruct Hp as [Hp|Hp]; lia).
  destruct (encap_headers_eq le csum_diff e cfg tun k smac dmac _ _ kh Ls Ld Ht Hcf Hl Sh) as (ck & Eh & Lc & Hof).
  set (hdr := outer_headers le cfg tun smac dmac (inner_length k) (udp_length tun k) ck) in *.
  assert (Lh : mlen hdr = 14 + outer_length tun).
  { subst hdr. unfold outer_headers, outer_udp, outer_length. rewrite !mlen_app, Ls, Ld, Lc, (mlen_outer_ip le) by done.
    rewrite mlen_gtpu_header, !mlen_be_bytes. lia. }
  assert (Hn : 0 <= outer_length tun).
  { unfold outer_length. rewrite <-(mlen_gtpu_header tun 0), <-(mlen_outer_ip le cfg tun 0 Ht Hcf).
    pose proof (mlen_nonneg (gtpu_header tun 0)). pose proof (mlen_nonneg (outer_ip le cfg tun 0)). lia. }
  pose proof (mlen_take 14 (sk_data k) ltac:(unfold sk_len in Hl; lia)) as L14. change (Z.to_nat 14) with 14%nat in L14.
  assert (Hb : behind (outer_length tun) k kh).
  { exists (take 14 (sk_data k)), hdr, (drop 14 (sk_data k)). by rewrite take_drop. }
  destruct (behind_inner le csum_diff _ e k kh f k' Hb Hn Hf Si) as (kc & Ec & (p0 & p & t & E0 & E1 & L0 & L1) & T0 & T1).
  destruct (inner_csum_front le csum_diff e k f kc Hf Ec) as [Lk _].
  split; [done|]. split; [done|]. exists kc, ck. split; [done|]. split; [|by split_and!; try lia].
  rewrite E1, E0, drop_app_length' by (unfold mlen in L0; lia). f_equal.
  rewrite E1, Eh, !take_app_length' in T1 by (unfold mlen in *; lia). done.
Qed.

(** A redirected frame was sent through the tunnel it was classified to. *)
Lemma redirect_sent e m k m' k' oif f tun m1 cfg :
  skb_ok k → encap_parse k = Ok (inr f) → encap_tunnel e m k f = Some (tun, m1) → m_config m = Some cfg →
  gtpu_encap le csum_diff e m k = Ok (m', k', TC_ACT_REDIRECT oif) →
  flow_ok f ∧ parsed k f ∧ ∃ smac dmac kh, sent le csum_diff e m m' k k' oif f tun cfg smac dmac kh.
Proof.
  intros Hk Ep Et Ecf Eg. destruct (encap_parse_spec k Hk) as (r & Ep' & Hr). rewrite Ep in Ep'. injection Ep' as <-.
  destruct Hr as [Hf Hp]. split; [done|]. split; [done|].
  destruct (gtpu_encap_cases le csum_diff e m k Hk) as (m3 & k3 & v & Eg' & _ & Ho).
  rewrite Eg in Eg'. injection Eg' as <- <- <-. destruct Ho as (f' & tun' & cfg' & smac & dmac & kh & S).
  pose proof S as [Sp (m1' & St & _) [Sc _] _ _ _ _].
  rewrite Ep in Sp. injection Sp as <-. rewrite Et in St. injection St as <- _. rewrite Ecf in Sc. injection Sc as <-.
  eauto.
Qed.

(** C12: both programs read no octet that is not there, whatever the frame, the maps and the
    answers of the kernel, and always decide.  Ingress drops a frame, passes it as it came,
    or strips it to its inner packet; the last only for a frame that is, octet by octet, a
    G-PDU of a tunnel (IPv4 without options or fragmentation and with a right checksum or
    IPv6, UDP to port 2152, GTP version 1, message type 255, a TEID of the receive map,
    optional octets and extension headers well formed) around a packet of the family and, when
    the tunnel has one, to the address of the UE; and for every such frame when the kernel
    makes the room.
    Egress passes a frame unchanged only when it is no IP packet to classify, no
    bearer claims it, or its bearer has an IPv6 outer header and the datagram is past the
    checksum bound: a packet of a bearer is otherwise dropped or sent through the tunnel,
    never leaked.  Neither changes a tunnel. *)
Theorem gtpu_programs_decide e m k : skb_ok k → rx_ok m →
  (∃ m' k' v, gtpu_decap le e m k = Ok (m', k', v) ∧ quiet m m' ∧
     (v = TC_ACT_SHOT ∨ v = TC_ACT_OK ∧ k' = k ∨
      ∃ macs inner tun family proto, gpdu_for m k macs inner tun family proto ∧ handed macs inner tun proto k' v)) ∧
  (∀ macs inner tun family proto, gpdu_for m k macs inner tun family proto → willing e →
     ∃ m' k' v, gtpu_decap le e m k = Ok (m', k', v) ∧ handed macs inner tun proto k' v) ∧
  (∃ m' k' v, gtpu_encap le csum_diff e m k = Ok (m', k', v) ∧ same_tunnels m m' ∧
     encap_outcome le csum_diff e m m' k k' v).
Proof.
  intros Hk Hrx. split_and!.
  - destruct (gtpu_decap_cases le e m k Hk) as (m' & k' & v & E & Hq & Ho). exists m', k', v. split; [done|]. split; [done|].
    destruct Ho as [?|[?|Hd]]; [by left|by right; left|right; right]. by apply (delivered_gpdu le).
  - intros macs inner tun family proto (h & udp & g & eth & fam & src & flags & len & teid & opt & exts & Hf & Hc & Ht & Ha) Hw.
    destruct (decap_gpdu le e m k macs h udp g inner eth fam src flags len teid opt exts tun family proto Hf Hc Hw Ht Ha) as (k' & E & Hd & _).
    eexists _, k', _. split; [done|]. by split.
  - by apply gtpu_encap_decides.
Qed.

(** ** Checksums on the wire *)

Context {Hdiff : CsumDiff le csum_diff}.

Lemma mlen_outer_headers cfg tun smac dmac il ul ck : mlen smac = 6 → mlen dmac = 6 → tun_ok tun → cfg_ok cfg → mlen ck = 2 →
  mlen (outer_headers le cfg tun smac dmac il ul ck) = 14 + outer_length tun.
Proof using.
  intros Ls Ld Ht Hcf Lc. unfold outer_headers, outer_udp, outer_length. rewrite !mlen_app, Ls, Ld, Lc, (mlen_outer_ip le) by done.
  rewrite mlen_gtpu_header, !mlen_be_bytes. lia.
Qed.

(** The packet in the tunnel carries a right checksum.  Whatever its UDP or TCP checksum
    field held (the stack leaves a partial sum there for the hardware), in a frame the
    egress program redirected the sum over pseudo-header and segment is zero, and a UDP
    checksum is not the zero that means none. *)
Theorem gtpu_inner_checksum e m k m' k' oif f tun m1 cfg :
  skb_ok k → env_ok e → encap_parse k = Ok (inr f) → encap_tunnel e m k f = Some (tun, m1) →
  m_config m = Some cfg → tun_ok tun → cfg_ok cfg →
  gtpu_encap le csum_diff e m k = Ok (m', k', TC_ACT_REDIRECT oif) → completed f = true →
  l4_valid le (sk_data k') f (fl_l4_off f + outer_length tun) ∧
  (fl_proto f = IPPROTO_UDP → slice (sk_data k') (field_off f + outer_length tun) 2 ≠ [0; 0]).
Proof.
  intros Hk He Ep Et Ecf Ht Hcf Eg Hc.
  destruct (redirect_sent e m k m' k' oif f tun m1 cfg Hk Ep Et Ecf Eg) as (Hf & Hp & smac & dmac & kh & S).
  destruct (sent_frame e m m' k k' oif f tun cfg smac dmac kh Hk Hf Hp He Ht Hcf S) as (Ls & Ld & kc & ck & Ec & Ek & Lc & L14 & Lk & _).
  destruct (encap_inner_csum_spec le csum_diff e k f 0 kc (proj1 Hk) Hf ltac:(lia) Hc Ec) as (c & Hcr & Hin & -> & Hv & Hu).
  unfold l4_valid in *. rewrite !Z.add_0_r in *. cbn [sk_data] in *.
  pose proof (mlen_outer_headers cfg tun smac dmac (inner_length k) (udp_length tun k) ck Ls Ld Ht Hcf Lc) as Lh.
  set (hdr := outer_headers _ _ _ _ _ _ _ _) in *. destruct (completed_inv f Hc) as (Ho & _ & Hd & _ & Hl).
  pose proof Hf as (_ & _ & _ & _ & [?|[Hoff _]] & _); [done|].
  assert (Hs : ∀ i n, 14 <= i → 0 <= n → slice (sk_data k') (i + outer_length tun) n =
    slice (splice (sk_data k) (field_off f) (host_bytes le c)) i n).
  { intros i n Hi Hn. rewrite Ek, slice_app_ge by lia. rewrite Lh. unfold slice. rewrite drop_drop. do 2 f_equal. lia. }
  rewrite Hs by lia. split; [done|]. intros Hudp. unfold field_off in *.
  rewrite Hs by lia. rewrite slice_splice_same; [|by rewrite mlen_host_bytes|lia|rewrite mlen_host_bytes; unfold sk_len in *; lia].
  intros E. apply (Hu Hudp). rewrite <-(host16_bytes le c), E by done. apply (inet_sum_zeros le 2).
Qed.

(** The segment that is completed is that of the octets. *)
Lemma parse_segment k f : skb_ok k → encap_parse k = Ok (inr f) →
  (completed f = true → segment (sk_data k) (fl_proto f) (fl_l4_off f) (fl_l4_len f) (l4_pseudo f)) ∧
  (∀ proto off len pseudo, segment (sk_data k) proto off len pseudo → completable proto len → completed f = true).
Proof using.
  clear. intros Hk Ep. pose proof Hk as [Hb Hl]. unfold sk_len in Hl. destruct (encap_parse_spec k Hk) as (r & Ep' & Hr). rewrite Ep in Ep'. injection Ep' as <-.
  destruct Hr as [(_ & _ & _ & _ & _ & Hlen) _]. unfold completed, segment, completable, CSUM_MAX_LEN in *. rewrite !andb_true_iff, negb_true_iff, orb_true_iff, !Z.leb_le, !Z.eqb_eq, Z.eqb_neq.
  destruct (encap_parse_kind k Hk) as [[(H34 & He & _ & Hi) E]|[[(H54 & He & Hfr) E]|(_ & _ & E)]]; rewrite E in Ep; [| |done]; injection Ep as <-; rewrite He.
  - unfold flow4 in *. cbn [fl_family fl_proto fl_l4_off fl_l4_len] in *. set (m := sk_data k) in *.
    assert (0 <= frag4 m < 65536) by (apply be_slice2; done || lia). destruct (frag4_head (frag4 m) ltac:(lia)) as [_ Ht].
    pose proof (Z.mod_pos_bound (get m 14) 16 ltac:(lia)). destruct (Z.eqb_spec (frag4 m mod 16384) 0) as [Ef|Ef]; cbn [negb] in *.
    + destruct (Z.eqb_spec (frag4 m mod 8192) 0) as [Eg|Eg]; [|by destruct (Ht Eg)]. cbn [negb] in *.
      destruct (Z.ltb_spec (get m 14 mod 16 * 4) (be_val (slice m 16 2))) as [Hlt|Hge].
      * split.
        -- intros _. left. split_and!; try done; try lia. unfold l4_pseudo. cbn [fl_family fl_proto fl_ue_addr fl_saddr fl_l4_len].
           change (AF_INET =? AF_INET) with true. cbv iota. unfold pseudo4. rewrite u16_small by lia.
           rewrite !take_app_length' by (pose proof (mlen_slice m 26 4); pose proof (mlen_slice m 30 4); unfold mlen in *; lia).
           change 8 with (4 + 4). rewrite slice_split by lia. change (26 + 4) with 30. by rewrite <-!app_assoc.
        -- intros proto off len pseudo [(_ & _ & -> & _ & -> & _)|(? & _)] Hc; [|done]. destruct (get m 23 =? IPPROTO_UDP) eqn:Eu; [apply Z.eqb_eq in Eu|apply Z.eqb_neq in Eu]; lia.
      * split; [destruct (get m 23 =? IPPROTO_UDP); lia|]. intros proto off len pseudo [(_ & _ & -> & _ & -> & _)|(? & _)] Hc; [|done]. lia.
    + split; [destruct (get m 23 =? IPPROTO_UDP); lia|]. intros proto off len pseudo [(_ & ? & _)|(? & _)]; done.
  - unfold flow6 in *. set (m := sk_data k) in *. destruct (Z.eqb_spec (get m 20) IPPROTO_FRAGMENT) as [Ef|Ef]; cbn [fl_family fl_proto fl_l4_off fl_l4_len] in *.
    + split; [destruct (get m 54 =? IPPROTO_UDP); lia|]. intros proto off len pseudo [(? & _)|(_ & ? & _)]; done.
    + split.
      * intros _. right. split_and!; try done. unfold l4_pseudo. cbn [fl_family fl_proto fl_ue_addr fl_saddr fl_l4_len].
        change (AF_INET6 =? AF_INET) with false. cbv iota. unfold pseudo6. change 32 with (16 + 16). rewrite slice_split by lia. change (22 + 16) with 38.
        by rewrite <-!app_assoc.
      * intros proto off len pseudo [(? & _)|(_ & _ & -> & _ & -> & _)] Hc; [done|]. destruct (get m 20 =? IPPROTO_UDP) eqn:Eu; [apply Z.eqb_eq in Eu|apply Z.eqb_neq in Eu]; lia.
Qed.
Lemma restored_completed e k f kc : skb_ok k → encap_parse k = Ok (inr f) → flow_ok f →
  encap_inner_csum le csum_diff e k f 0 = Some kc → restored (sk_data k) (sk_data kc).
Proof using Hdiff.
  intros Hk Ep Hf Ec. destruct (parse_segment k f Hk Ep) as [H1 H2]. destruct (completed f) eqn:Hc.
  - left. destruct (encap_inner_csum_spec le csum_diff e k f 0 kc (proj1 Hk) Hf ltac:(lia) Hc Ec) as (c & Hcr & Hin & -> & Hv & Hu).
    rewrite !Z.add_0_r in *. cbn [sk_data] in *. destruct (completed_inv f Hc) as (Ho & Hp & Hd & He & Hl).
    destruct (l4_pseudo_ok f Hf) as (Hpb & Hp4 & _). pose proof Hf as (_ & _ & _ & _ & [?|[Hoff _]] & _); [done|].
    assert (Hbs : bytes_ok (splice (sk_data k) (field_off f) (host_bytes le c))) by (apply bytes_ok_splice; [apply Hk|by apply host_bytes_ok]).
    exists (fl_proto f), (fl_l4_off f), (fl_l4_len f), (l4_pseudo f), (host_bytes le c). split_and!; [by apply H1| |apply mlen_host_bytes|done| |].
    + unfold completed, CSUM_MAX_LEN in Hc. rewrite !andb_true_iff, !Z.leb_le in Hc. destruct Hc as [[_ Hmin] Hmax]. split; [|done].
      destruct Hp as [Hp|Hp]; rewrite Hp in Hmin; [left|right]; done.
    + rewrite net_sum_inet. apply (inet_sum_zero le); [apply bytes_ok_app; split; [done|by apply bytes_ok_slice]|].
      rewrite inet_sum_app; [exact Hv|]. unfold even_len. apply Z.mod_divide in Hp4 as [q Hq]; [|done]. rewrite Hq. apply Z.mod_divide; [done|]. exists (q * 2). lia.
    + intros Hudp E. apply (Hu Hudp). rewrite <-(host16_bytes le c), E by done. apply (inet_sum_zeros le 2).
  - rewrite encap_inner_csum_skip in Ec by done. injection Ec as <-. right. split; [|done].
    intros proto off len pseudo Hs Hcp. specialize (H2 _ _ _ _ Hs Hcp). done.
Qed.

(** C11: what one end sends through a tunnel the other end gets back.  A frame the egress
    program redirected (IPv4 or IPv6 outer header, with or without a PDU session
    container), received by a host of either byte order whose receive map has the tunnel and
    accepts the packet, is stripped to the packet that was classified, behind the new link
    addresses: octet by octet the packet that was given to the egress program, but that a
    whole UDP or TCP segment in it, of up to 2048 octets, has a right checksum: the sum over
    the pseudo-header of its addresses and the segment is zero.  The protocol the stack dispatches
    on is that of the packet. *)
Theorem gtpu_tunnel_roundtrip e m k m' k' oif tun cfg le2 e2 m2 k2 rx family proto :
  skb_ok k → env_ok e → bearer e m k = Some tun → m_config m = Some cfg → tun_ok tun → cfg_ok cfg → tx_remote_port tun = GTPU_PORT →
  gtpu_encap le csum_diff e m k = Ok (m', k', TC_ACT_REDIRECT oif) →
  sk_data k2 = sk_data k' → skb_ok k2 → 54 <= sk_lin k2 → sk_protocol k2 = outer_eth tun →
  config_ok m2 → willing e2 → m_rx m2 (tx_remote_teid tun) = Some rx →
  eth_type (sk_data k) = proto → accepts rx (drop 14 (sk_data k)) family proto →
  ∃ data smac dmac k3, restored (sk_data k) data ∧
    encap_link e cfg tun k (udp_length tun k) = (smac, dmac, oif) ∧
    gtpu_decap le2 e2 m2 k2 = Ok (bump m2 (stats_slot (tx_remote_teid tun)) (inc_rx (sk_len k - 14)), k3,
      if rx_ifindex rx =? 0 then TC_ACT_OK else TC_ACT_REDIRECT (rx_ifindex rx)) ∧
    sk_data k3 = dmac ++ smac ++ drop 12 data ∧ sk_protocol k3 = proto.
Proof.
  intros Hk He Hbr Ecf Ht Hcf Hport Eg E2 Hk2 Hlin2 Hpr Hcfg2 Hw Hrx Het Hac.
  unfold bearer in Hbr. destruct (encap_parse k) as [[?|f]|?|] eqn:Ep; try done. destruct (encap_tunnel e m k f) as [[tun' m1]|] eqn:Et; [|done]. injection Hbr as ->.
  destruct (redirect_sent e m k m' k' oif f tun m1 cfg Hk Ep Et Ecf Eg) as (Hf & Hp & smac & dmac & kh & S).
  pose proof S as [_ _ _ [Sl _] _ _ _].
  destruct (sent_frame e m m' k k' oif f tun cfg smac dmac kh Hk Hf Hp He Ht Hcf S) as (Ls & Ld & kc & ck & Ec & Ek & Lc & L14 & Lk & _).
  destruct (accepts_completed e k f kc rx family proto Hk Hf Hp Het Hac Ec) as (Hacc & Heth & Hfam).
  destruct (gtpu_header_gpdu tun (inner_length k)) as (flags & len & opt & exts & Egh & Hgh); [apply Ht|].
  destruct (outer_ip_ok le cfg tun (udp_length tun k) Ht Hcf) as [src Hout].
  destruct (decap_gpdu le2 e2 m2 k2 (dmac ++ smac) (outer_ip le cfg tun (udp_length tun k)) (outer_udp tun (udp_length tun k) ck)
    (gtpu_header tun (inner_length k)) (drop 14 (sk_data kc)) (outer_eth tun)
    (if tx_outer_family tun =? AF_INET then AF_INET else AF_INET6) src flags len (tx_remote_teid tun) opt exts rx
    family proto) as (k3 & Ed & E3 & Ep3); [|done..|].
  { split; [|done|mlia|done| | |done].
    - rewrite E2, Ek. unfold outer_headers. by rewrite <-!app_assoc.
    - rewrite mlen_outer_ip by done. unfold l3_length. destruct (_ =? _); lia.
    - unfold outer_udp. split; [mlia|]. rewrite (slice_mid _ (be_bytes 2 (tx_remote_port tun)) _ 2 0 2) by done.
      rewrite slice_full, be_val_bytes, Hport by done. done. }
  exists (sk_data kc), smac, dmac, k3. split_and!; [by apply (restored_completed e k f)|done| | |].
  - rewrite Ed. do 3 f_equal. f_equal. f_equal. change 14%nat with (Z.to_nat 14). rewrite mlen_drop; unfold sk_len in *; lia.
  - rewrite E3, <-Heth, <-app_assoc. do 2 f_equal. unfold slice.
    transitivity (take 2 (drop 12 (sk_data kc)) ++ drop 2 (drop 12 (sk_data kc))); [by rewrite drop_drop|apply take_drop].
  - rewrite Ep3, Hpr. assert (Hpf : proto = if family =? AF_INET6 then ETH_P_IPV6 else ETH_P_IP) by (destruct Hacc as [_ [(-> & -> & _)|(-> & -> & _)]]; done).
    rewrite Hpf. unfold outer_eth. rewrite <-Hfam. destruct Hf as ([-> | ->] & _); by destruct (tx_outer_family tun =? AF_INET).
Qed.

(** The sum over the outer datagram, the field apart. *)
Lemma udp_sum cfg tun smac dmac il ul ck t : mlen smac = 6 → mlen dmac = 6 → tun_ok tun → cfg_ok cfg → mlen ck = 2 →
  tx_outer_family tun ≠ AF_INET → ul = 8 + gtpu_length tun + mlen t →
  inet_sum le (slice (outer_headers le cfg tun smac dmac il ul ck ++ t) 54 ul) =
    inet_sum le (be_bytes 2 GTPU_PORT ++ be_bytes 2 (tx_remote_port tun) ++ be_bytes 2 (u16 ul)) +
    inet_sum le ck + inet_sum le (gtpu_header tun il) + inet_sum le t.
Proof using.
  intros Ls Ld Ht Hcf Lc Hv Hul. unfold outer_headers.
  assert (L3 : l3_length tun = 40) by (unfold l3_length; by rewrite (proj2 (Z.eqb_neq _ _) Hv)).
  pose proof (mlen_outer_ip le cfg tun ul Ht Hcf) as Lip. rewrite L3 in Lip.
  set (x := be_bytes 2 GTPU_PORT ++ be_bytes 2 (tx_remote_port tun) ++ be_bytes 2 (u16 ul)).
  assert (Lx : mlen x = 6) by (subst x; mlia).
  assert (E : ((dmac ++ smac) ++ be_bytes 2 (outer_eth tun) ++ outer_ip le cfg tun ul ++ outer_udp tun ul ck ++ gtpu_header tun il) ++ t =
    ((dmac ++ smac) ++ be_bytes 2 (outer_eth tun) ++ outer_ip le cfg tun ul) ++ x ++ ck ++ gtpu_header tun il ++ t).
  { subst x. unfold outer_udp. by rewrite <-!app_assoc. }
  rewrite E. clear E. set (p := (dmac ++ smac) ++ be_bytes 2 (outer_eth tun) ++ outer_ip le cfg tun ul).
  assert (Lp : mlen p = 54) by (subst p; rewrite !mlen_app, Ls, Ld, Lip, mlen_be_bytes; done).
  rewrite slice_app_ge, Lp, Z.sub_diag by lia.
  rewrite slice_full by (rewrite !mlen_app, mlen_gtpu_header; lia).
  rewrite !inet_sum_app; [lia|..]; unfold even_len.
  - rewrite mlen_gtpu_header. unfold gtpu_length. by destruct (_ =? 0).
  - by rewrite Lc.
  - by rewrite Lx.
Qed.

(** Completing a checksum that was right does not change the sum of the packet. *)
Lemma completion_sum f k kc : flow_ok f → completed f = true → bytes_ok (sk_data k) →
  completion le f 0 k kc → l4_valid le (sk_data k) f (fl_l4_off f) →
  inet_sum le (drop 14 (sk_data kc)) mod 65535 = inet_sum le (drop 14 (sk_data k)) mod 65535.
Proof using.
  intros Hf Hc Hb (c & Hcr & Hin & -> & Hv & _) Hk. unfold l4_valid in *. rewrite !Z.add_0_r in *. cbn [sk_data] in *.
  destruct (completed_inv f Hc) as (Ho & _ & Hd & He & Hl).
  pose proof Hf as (_ & _ & _ & _ & [?|[Hoff He2]] & _); [done|]. unfold field_off, sk_len in *.
  set (d := if fl_proto f =? IPPROTO_UDP then 6 else 16) in *. pose proof (mlen_host_bytes le c) as Lh.
  assert (Hd14 : ∀ m, mlen m = mlen (sk_data k) → drop 14 m = slice m 14 (mlen (sk_data k) - 14)).
  { intros m Hm. unfold slice. change (Z.to_nat 14) with 14%nat. rewrite take_ge; [done|]. rewrite length_drop. unfold mlen in *. lia. }
  rewrite !Hd14 by (rewrite ?mlen_splice; lia).
  rewrite inet_sum_splice in Hv; [|done|lia|lia|lia|by replace (_ + d - _) with d by lia].
  rewrite inet_sum_splice; [|done|lia|lia|lia|].
  2:{ replace (fl_l4_off f + d - 14) with (fl_l4_off f + (d - 14)) by lia. rewrite Zplus_mod, He2.
      subst d. by destruct (_ =? _). }
  set (o := inet_sum le (slice (sk_data k) (fl_l4_off f + d) 2)) in *. set (h := inet_sum le (host_bytes le c)) in *.
  apply Z.mod_divide in Hv as [q1 H1]; [|done]. apply Z.mod_divide in Hk as [q2 H2]; [|done].
  replace (inet_sum le (slice (sk_data k) 14 (mlen (sk_data k) - 14)) - o + h) with
    (inet_sum le (slice (sk_data k) 14 (mlen (sk_data k) - 14)) + (q1 - q2) * 65535) by lia.
  by rewrite Z.mod_add.
Qed.

(** The sum over the outer UDP datagram and its IPv6 pseudo-header is zero. *)
Definition udp6_valid (data : mem) (cfg : gtpu_config) (tun : gtpu_tx_tun) (ul : Z) : Prop :=
  (inet_sum le (pseudo6 (cf_local_v6 cfg) (tx_remote_addr tun) ul IPPROTO_UDP) + inet_sum le (slice data 54 ul)) mod 65535 = 0.

Lemma udp_length_eq tun k : 14 <= sk_len k <= 4294967200 → udp_length tun k = 8 + gtpu_length tun + (sk_len k - 14).
Proof using.
  clear. intros Hl. unfold udp_length, inner_length, ETH_HLEN. rewrite (u32_small (sk_len k - 14)) by lia.
  apply u32_small. rewrite <-(mlen_gtpu_header tun 0). unfold gtpu_header. destruct (_ =? 0); mlia.
Qed.
Lemma outer_headers_ok cfg tun smac dmac il ul ck : octets_ok 6 smac → octets_ok 6 dmac → tun_ok tun → cfg_ok cfg →
  tx_outer_family tun ≠ AF_INET → bytes_ok ck → bytes_ok (outer_headers le cfg tun smac dmac il ul ck).
Proof using.
  clear. intros [Hs _] [Hd _] ([Hr _] & _ & _ & _ & Ht) [_ [H6 _]] Hv Hc. unfold outer_headers, outer_udp, outer_ip, ip6_header.
  rewrite (proj2 (Z.eqb_neq _ _) Hv), !bytes_ok_app. split_and!; try done; try apply be_bytes_ok; try octets.
  unfold gtpu_header. destruct (_ =? 0); rewrite !bytes_ok_app; split_and!; try apply be_bytes_ok; try octets.
  assert (0 <= Z.land (tx_qfi tun) 63 < 64) by (change 63 with (Z.ones 6); rewrite Z.land_ones by done; by apply Z.mod_pos_bound).
  octets.
Qed.
(** The sum is zero when the headers are written. *)
Lemma outer_field_valid cfg tun smac dmac il ul t ck : octets_ok 6 smac → octets_ok 6 dmac → tun_ok tun → cfg_ok cfg →
  tx_outer_family tun ≠ AF_INET → bytes_ok t → ul = 8 + gtpu_length tun + mlen t → ul <= CSUM_MAX_LEN →
  outer_field le csum_diff cfg tun smac dmac il ul t ck →
  mlen ck = 2 ∧ udp6_valid (outer_headers le cfg tun smac dmac il ul ck ++ t) cfg tun ul.
Proof using Hdiff.
  intros Hs Hd Ht Hcf Hv Hb Hul Hmax [[? _]|(_ & k4 & c & E4 & Ec & Ek)]; [done|].
  pose proof Hs as [_ Ls]. pose proof Hd as [_ Ld]. pose proof Hcf as [_ [H6 L6]]. pose proof Ht as ([Hr Lr] & _).
  assert (Lk : mlen ck = 2) by (rewrite Ek; apply mlen_host_bytes). split; [done|].
  assert (L3 : l3_length tun = 40) by (unfold l3_length; by rewrite (proj2 (Z.eqb_neq _ _) Hv)).
  pose proof (mlen_outer_headers cfg tun smac dmac il ul [0; 0] Ls Ld Ht Hcf ltac:(done)) as Lh.
  pose proof (mlen_nonneg t). assert (Hg : 0 <= gtpu_length tun) by (rewrite <-(mlen_gtpu_header tun 0); apply mlen_nonneg).
  destruct (csum_l4_spec le csum_diff k4 (pseudo6 (cf_local_v6 cfg) (tx_remote_addr tun) ul IPPROTO_UDP) 54 ul) as (c' & Ec' & Hr' & Hz).
  - rewrite E4. apply bytes_ok_app. split; [|done]. apply outer_headers_ok; try done. octets.
  - unfold pseudo6. rewrite !bytes_ok_app. split_and!; try done; [apply be_bytes_ok|octets].
  - unfold pseudo6. by rewrite !mlen_app, L6, Lr, mlen_be_bytes.
  - unfold pseudo6. rewrite !mlen_app, L6, Lr, mlen_be_bytes. done.
  - lia.
  - unfold CSUM_MAX_LEN in Hmax. lia.
  - unfold sk_len. rewrite E4, mlen_app, Lh. unfold outer_length. lia.
  - rewrite Ec in Ec'. injection Ec' as <-. unfold udp6_valid. rewrite E4 in Hz.
    rewrite udp_sum in Hz |- * by done. change (inet_sum le [0; 0]) with (inet_sum le (zeros 2)) in Hz. rewrite inet_sum_zeros in Hz.
    rewrite Ek, host16_bytes by (destruct (_ =? 0); lia).
    destruct (Z.eqb_spec c 0) as [->|]; [|rewrite <-Hz; f_equal; lia].
    apply Z.mod_divide in Hz as [q Hq]; [|done]. apply Z.mod_divide; [done|]. exists (q + 1). lia.
Qed.

(** The mandatory UDP checksum of an IPv6 outer header is right in a frame the egress
    program redirected, as long as the packet came with a right checksum of its own (or
    with none to complete): then the sum over the datagram and its pseudo-header is zero. *)
Theorem gtpu_outer_checksum e m k m' k' oif f tun m1 cfg :
  skb_ok k → sk_len k <= 4294967200 → env_ok e → encap_parse k = Ok (inr f) → encap_tunnel e m k f = Some (tun, m1) →
  m_config m = Some cfg → tun_ok tun → cfg_ok cfg → tx_outer_family tun ≠ AF_INET →
  gtpu_encap le csum_diff e m k = Ok (m', k', TC_ACT_REDIRECT oif) →
  (completed f = true → l4_valid le (sk_data k) f (fl_l4_off f)) →
  udp6_valid (sk_data k') cfg tun (udp_length tun k).
Proof.
  intros Hk Hk32 He Ep Et Ecf Ht Hcf Hv Eg Hc.
  destruct (redirect_sent e m k m' k' oif f tun m1 cfg Hk Ep Et Ecf Eg) as (Hf & Hp & smac & dmac & kh & S).
  destruct (sent_frame e m m' k k' oif f tun cfg smac dmac kh Hk Hf Hp He Ht Hcf S)
    as (Ls & Ld & kc & ck & Ec & Ek & Lc & L14 & Lk & Hof).
  pose proof S as [_ _ _ [Sl _] Ssz _ _]. destruct (encap_link_ok _ _ _ _ _ _ _ _ He Ht Sl) as [Hs Hd].
  pose proof (udp_length_eq tun k ltac:(lia)) as Hul. unfold sk_len in *.
  assert (Ldr : ∀ x, mlen x = mlen (sk_data k) → mlen (drop 14 x) = mlen (sk_data k) - 14).
  { intros x Hx. change 14%nat with (Z.to_nat 14). rewrite mlen_drop; lia. }
  destruct (outer_field_valid cfg tun smac dmac (inner_length k) (udp_length tun k) (drop 14 (sk_data k)) ck Hs Hd Ht Hcf Hv) as [_ Hu].
  { apply Forall_drop, Hk. } { by rewrite Ldr. } { by apply Ssz. } { done. }
  unfold udp6_valid in *. rewrite Ek. rewrite udp_sum in Hu |- * by (done || rewrite ?Ldr; lia).
  assert (Es : inet_sum le (drop 14 (sk_data kc)) mod 65535 = inet_sum le (drop 14 (sk_data k)) mod 65535).
  { destruct (completed f) eqn:Hcc.
    - apply (completion_sum f k kc Hf Hcc (proj1 Hk)); [|by apply Hc].
      by apply (encap_inner_csum_spec le csum_diff e k f 0 kc (proj1 Hk) Hf).
    - rewrite encap_inner_csum_skip in Ec by done. by injection Ec as <-. }
  rewrite <-Hu, !Z.add_assoc, Zplus_mod, Es, <-Zplus_mod. done.
Qed.
End tunnel.
End GtpuTunnel.
