(* ===== verification/GtpuExample.v ===== *)
(** * GtpuExample: the datapath on concrete frames

    A bearer over IPv6 and one over IPv4, an inner UDP datagram in one piece and in
    fragments: the hypotheses of the theorems on the datapath hold here.  The last theorem
    is a frame whose outer checksum is wrong. *)

From S2P Require Import Prelude Endian GtpuKern GtpuCsum GtpuPath GtpuTunnel.

Module GtpuExample.
Import GtpuKern GtpuCsum GtpuPath GtpuTunnel.

(** The sum reduced modulo 65535 is one answer [bpf_csum_diff] may give. *)
Definition csum_ref (bs : list Z) (seed : Z) : Z := (seed + inet_sum true bs) mod 65535.
#[local] Instance csum_ref_ok : CsumDiff true csum_ref.
Proof.
  intros bs seed _ _ _ _. unfold csum_ref. pose proof (Z.mod_pos_bound (seed + inet_sum true bs) 65535 ltac:(lia)).
  split; [lia|]. by rewrite Z.mod_mod.
Qed.

Definition ex_env : env := Env true true true (λ _ _ _ _ _, None) (λ _, false) (λ _, 0).
Definition ex_cfg : gtpu_config := Config GTPU_ABI_VERSION 7 [10; 0; 0; 1] ([253] ++ zeros 14 ++ [1]).
Definition ex_tun (family : Z) : gtpu_tx_tun :=
  TxTun family 5 9 (Z.lor GTPU_TXF_STATIC_MAC GTPU_TXF_QFI) ([253] ++ zeros 14 ++ [2]) [2; 0; 0; 0; 0; 2] [2; 0; 0; 0; 0; 1]
    GTPU_PORT 4660 22136 0.
(** The UE address 10.45.0.2 on a default bearer, port 5060 of it on a dedicated one. *)
Definition ue : list Z := [10; 45; 0; 2].
Definition ex_key (family : Z) : gtpu_tft_key := TftKey AF_INET IPPROTO_UDP 5060 0 (ue ++ zeros 12) (zeros 16).
Definition ex_maps (family : Z) : maps :=
  Maps (λ t, if t =? 4660 then Some (RxTun 0 5 (zeros 16) 0) else None)
    [(24, [10; 45; 0; 0], ex_tun AF_INET); (8, [10; 0; 0; 0], ex_tun AF_INET6)] []
    (λ k, if bool_decide (k = ex_key family) then Some (ex_tun family) else None) (λ _, None)
    (λ i, if i =? 1656 then Some (Stats 0 0 0 0 0 0 0 0 0) else None) [] (Some ex_cfg).

(** A UDP datagram of four octets from 10.0.0.9 to port 5060 of the UE, with a checksum. *)
Definition ex_frame (frag ck : list Z) : sk_buff :=
  let d := [2; 0; 0; 0; 0; 9; 2; 0; 0; 0; 0; 8] ++ be_bytes 2 ETH_P_IP ++
    [69; 0; 0; 32; 0; 1] ++ frag ++ [64; 17; 0; 0; 10; 0; 0; 9] ++ ue ++
    be_bytes 2 5061 ++ be_bytes 2 5060 ++ [0; 12] ++ ck ++ [1; 2; 3; 4] in
  Skb d (mlen d) ETH_P_IP 3.
Definition ex_flow : flow := Flow AF_INET IPPROTO_UDP (ue ++ zeros 12) ([10; 0; 0; 9] ++ zeros 12) 34 12 0 false false.

Definition encapped (family : Z) (k : sk_buff) : sk_buff :=
  match gtpu_encap true csum_ref ex_env (ex_maps family) k with Ok (_, k', _) => k' | _ => k end.
Definition maps_after (family : Z) (k : sk_buff) : maps :=
  match gtpu_encap true csum_ref ex_env (ex_maps family) k with Ok (m', _, _) => m' | _ => ex_maps family end.

#[local] Instance bytes_ok_dec a : Decision (bytes_ok a).
Proof. unfold bytes_ok. apply _. Defined.
(** Decides a closed proposition by computation. *)
Ltac compute_dec := apply (bool_decide_unpack _); vm_compute; exact I.
Lemma ex_frame_ok : skb_ok (ex_frame [0; 0] [192; 15]).
Proof. split; [compute_dec|by vm_compute]. Qed.
Lemma ex_env_ok : env_ok ex_env.
Proof. by intros ? ? ? ? ? ? ? ? ?. Qed.
Lemma ex_tun_ok family : tun_ok (ex_tun family).
Proof. unfold tun_ok, octets_ok. cbn [tx_remote_addr tx_dst_mac tx_src_mac tx_remote_port tx_remote_teid ex_tun]. split_and!; compute_dec. Qed.
Lemma ex_cfg_ok : cfg_ok ex_cfg.
Proof. split; split; compute_dec. Qed.

(** What the far end receives over IPv4: a G-PDU of the tunnel, with a PDU session container. *)
Definition ex_gpdu : sk_buff := Skb (sk_data (encapped AF_INET (ex_frame [0; 0] [192; 15]))) 60 ETH_P_IP 4.
Lemma ex_gpdu_ok : skb_ok ex_gpdu.
Proof. split; [compute_dec|by vm_compute]. Qed.
Lemma ex_rx_ok family : rx_ok (ex_maps family).
Proof. intros teid tun. cbn [m_rx ex_maps]. destruct (teid =? 4660); [|done]. intros [= <-]. left. Qed.
Lemma ex_gpdu_for : gpdu_for (ex_maps AF_INET) ex_gpdu (take 12 (sk_data ex_gpdu)) (drop 58 (sk_data ex_gpdu)) (RxTun 0 5 (zeros 16) 0) AF_INET ETH_P_IP.
Proof.
  exists (slice (sk_data ex_gpdu) 14 20), (slice (sk_data ex_gpdu) 34 8), (slice (sk_data ex_gpdu) 42 16), ETH_P_IP, AF_INET, ([10; 0; 0; 1] ++ zeros 12), 52, 40, 4660,
    [0; 0; 0; 133], [(133, [0; 9])]. split; [|split; [by exists ex_cfg|split; [done|]]].
  - split; [vm_compute; reflexivity|exact ex_gpdu_ok|vm_compute; reflexivity| |by vm_compute|by vm_compute|split; [by vm_compute|]].
    + left. split_and!; vm_compute; done.
    + split; [done|]. split; [done|]. split; [done|]. split; [compute_dec|]. right. right. split_and!; try done; [|unfold GTPU_EXT_MAX_HOPS; cbn; lia].
      constructor; [|constructor]. split; [done|]. split; [compute_dec|by exists 1].
  - split; [by left|]. left. split; [done|]. split; [done|]. split; [by vm_compute|]. split; [by vm_compute|by left].
Qed.
Lemma gtpu_programs_decide_witness :
  (∃ m' k' v, gtpu_decap true ex_env (ex_maps AF_INET) ex_gpdu = Ok (m', k', v) ∧
     handed (take 12 (sk_data ex_gpdu)) (drop 58 (sk_data ex_gpdu)) (RxTun 0 5 (zeros 16) 0) ETH_P_IP k' v) ∧
  (∃ m' k' v, gtpu_encap true csum_ref ex_env (ex_maps AF_INET) (ex_frame [0; 0] [192; 15]) = Ok (m', k', v) ∧
     same_tunnels (ex_maps AF_INET) m' ∧
     encap_outcome true csum_ref ex_env (ex_maps AF_INET) m' (ex_frame [0; 0] [192; 15]) k' v).
Proof.
  split.
  - exact (proj1 (proj2 (gtpu_programs_decide true csum_ref ex_env (ex_maps AF_INET) ex_gpdu ex_gpdu_ok (ex_rx_ok AF_INET))) _ _ _ _ _ ex_gpdu_for (conj eq_refl eq_refl)).
  - exact (proj2 (proj2 (gtpu_programs_decide true csum_ref ex_env (ex_maps AF_INET) _ ex_frame_ok (ex_rx_ok AF_INET)))).
Defined.

(** Without a filter the longer of two prefixes wins. *)
Lemma gtpu_classify_order_witness :
  longest 32 (m_tx4 (ex_maps AF_INET)) ue
    (tx_classify (ex_maps AF_INET) AF_INET (ue ++ zeros 12) (zeros 16) IPPROTO_TCP 5060 80).
Proof.
  apply (gtpu_classify_order (ex_maps AF_INET) AF_INET (ue ++ zeros 12) (zeros 16) IPPROTO_TCP 5060 80).
  - compute_dec.
  - done.
  - intros len a tun Hi. cbn [m_tx4 ex_maps] in Hi. rewrite !elem_of_cons in Hi.
    destruct Hi as [[= -> -> ->]|[[= -> -> ->]|Hi]]; [split_and!; compute_dec..|by apply elem_of_nil in Hi].
  - intros len a tun Hi. by apply elem_of_nil in Hi.
Defined.

(** A datagram in two fragments with another packet between them; only the first has ports. *)
Definition ex_head : sk_buff := ex_frame [32; 0] [192; 15].
Definition ex_tail : sk_buff := ex_frame [0; 1] [192; 15].
Lemma gtpu_fragments_follow_witness :
  bearer ex_env (run true csum_ref (maps_after AF_INET6 ex_head) [(ex_env, ex_frame [0; 0] [192; 15])]) ex_tail = Some (ex_tun AF_INET6).
Proof.
  assert (I : ip4 ex_head ∧ ip4 ex_tail) by (split; split_and!; vm_compute; done).
  apply (gtpu_fragments_follow true csum_ref ex_env (ex_maps AF_INET6) ex_head (ex_tun AF_INET6) _ (encapped AF_INET6 ex_head)
    (TC_ACT_REDIRECT 7)).
  - split; [compute_dec|by vm_compute].
  - left. split; [apply I|by vm_compute].
  - vm_compute. reflexivity.
  - done.
  - vm_compute. reflexivity.
  - constructor; [|constructor]. split; [exact ex_frame_ok|]. split; [done|]. intros [[[_ [_ H]]|[_ [H _]]] _]; by vm_compute in H.
  - split; [compute_dec|by vm_compute].
  - left. split; [apply I|by vm_compute].
  - split_and!; by vm_compute.
Defined.

(** An outer IPv6 header with a PDU session container, around a datagram with the checksum
    field zero: it comes out with the checksum. *)
Lemma gtpu_tunnel_roundtrip_witness :
  ∃ data smac dmac k3, restored (sk_data (ex_frame [0; 0] [0; 0])) data ∧
    encap_link ex_env ex_cfg (ex_tun AF_INET6) (ex_frame [0; 0] [0; 0])
      (udp_length (ex_tun AF_INET6) (ex_frame [0; 0] [0; 0])) = (smac, dmac, 7) ∧
    gtpu_decap false ex_env (ex_maps AF_INET6)
      (Skb (sk_data (encapped AF_INET6 (ex_frame [0; 0] [0; 0]))) 60 ETH_P_IPV6 4) =
      Ok (bump (ex_maps AF_INET6) (stats_slot 4660) (inc_rx 32), k3, TC_ACT_OK) ∧
    sk_data k3 = dmac ++ smac ++ drop 12 data ∧ sk_protocol k3 = ETH_P_IP.
Proof.
  apply (gtpu_tunnel_roundtrip true csum_ref ex_env (ex_maps AF_INET6) (ex_frame [0; 0] [0; 0])
    (maps_after AF_INET6 (ex_frame [0; 0] [0; 0])) (encapped AF_INET6 (ex_frame [0; 0] [0; 0])) 7 (ex_tun AF_INET6)
    ex_cfg false ex_env (ex_maps AF_INET6) _ (RxTun 0 5 (zeros 16) 0) AF_INET); try match goal with |- _ = _ => vm_compute; reflexivity end.
  - split; [compute_dec|by vm_compute].
  - exact ex_env_ok.
  - apply ex_tun_ok.
  - exact ex_cfg_ok.
  - split; [compute_dec|by vm_compute].
  - by vm_compute.
  - by exists ex_cfg.
  - done.
  - split; [by left|]. left. split; [done|]. split; [done|]. split; [by vm_compute|]. split; [by vm_compute|by left].
Defined.

Lemma gtpu_inner_checksum_witness :
  l4_valid true (sk_data (encapped AF_INET (ex_frame [0; 0] [20; 85]))) ex_flow 78 ∧
  (IPPROTO_UDP = IPPROTO_UDP → slice (sk_data (encapped AF_INET (ex_frame [0; 0] [20; 85]))) 84 2 ≠ [0; 0]).
Proof.
  apply (gtpu_inner_checksum true csum_ref ex_env (ex_maps AF_INET) (ex_frame [0; 0] [20; 85])
    (maps_after AF_INET (ex_frame [0; 0] [20; 85])) (encapped AF_INET (ex_frame [0; 0] [20; 85])) 7 ex_flow (ex_tun AF_INET)
    (ex_maps AF_INET) ex_cfg); try match goal with |- _ = _ => reflexivity end.
  - split; [compute_dec|by vm_compute].
  - exact ex_env_ok.
  - apply ex_tun_ok.
  - exact ex_cfg_ok.
Defined.

Lemma gtpu_outer_checksum_witness :
  udp6_valid true (sk_data (encapped AF_INET6 (ex_frame [0; 0] [192; 15]))) ex_cfg (ex_tun AF_INET6) 56.
Proof.
  apply (gtpu_outer_checksum true csum_ref ex_env (ex_maps AF_INET6) (ex_frame [0; 0] [192; 15])
    (maps_after AF_INET6 (ex_frame [0; 0] [192; 15])) (encapped AF_INET6 (ex_frame [0; 0] [192; 15])) 7 ex_flow (ex_tun AF_INET6)
    (ex_maps AF_INET6) ex_cfg); try match goal with |- _ = _ => reflexivity end.
  - exact ex_frame_ok.
  - by vm_compute.
  - exact ex_env_ok.
  - apply ex_tun_ok.
  - exact ex_cfg_ok.
  - done.
  - intros _. by vm_compute.
Defined.

(** The outer checksum is computed before the inner one is completed.  A packet the stack
    hands over with the partial checksum it leaves for the hardware goes out, over an IPv6
    outer header, with a UDP checksum that covers the partial value: the sum over the
    datagram that leaves is not zero, although the inner checksum in it is right. *)
Theorem gtpu_outer_checksum_stale :
  ¬ udp6_valid true (sk_data (encapped AF_INET6 (ex_frame [0; 0] [20; 85]))) ex_cfg (ex_tun AF_INET6) 56 ∧
  l4_valid true (sk_data (encapped AF_INET6 (ex_frame [0; 0] [20; 85]))) ex_flow 98.
Proof. split; vm_compute; [discriminate|reflexivity]. Qed.
End GtpuExample.
