(* ===== verification/SipStr.v ===== *)
(** * SipStr: scanning SIP text

    Models the helpers of [sip/src/sip_intl.h] and the scanning loops the SIP sources
    write out: a text is an offset into the buffer it stands in, and every read goes
    through [rd], so that a read past the buffer is [Ub].  [scan] is the loop that walks to
    the first octet of a class, [trim] the one that walks back over a class; [memchr] and
    [find_any] are built on the first. *)

From stdpp Require Import strings.
From S2P Require Import Prelude Endian.

Definition SIP_OK : Z := 0.
Definition SIP_E_SHORT : Z := -1.
Definition SIP_E_LINE : Z := -2.
Definition SIP_E_VERSION : Z := -3.
Definition SIP_E_HEADER : Z := -4.
Definition SIP_E_HEADERS : Z := -5.
Definition SIP_E_OVERFLOW : Z := -6.
Definition SIP_E_INVAL : Z := -7.
Definition SIP_E_URI : Z := -8.
Definition SIP_E_MISSING : Z := -9.

Module SipStr.

(** A slice of the buffer; the pointer is [None] for NULL. *)
Record sip_str := Str { s_p : option Z; s_len : Z }.
Definition no_str : sip_str := Str None 0.
Definition sub_str (p e : Z) : sip_str := Str (Some p) (u32 (e - p)).

(** The octets of a string literal. *)
Definition txt (s : string) : list Z := (λ a, Z.of_N (Ascii.N_of_ascii a)) <$> String.list_ascii_of_string s.

Definition sip_lc (c : Z) : Z := Z.lor c 32.
Definition sip_is_ws (c : Z) : bool := (c =? 32) || (c =? 9).
Definition sip_is_digit (c : Z) : bool := (48 <=? c) && (c <=? 57).

(** Equality up to [sip_lc], the reference in lower case already or not. *)
Fixpoint sip_ieq (m : mem) (p : Z) (lc_ref : list Z) : res bool :=
  match lc_ref with
  | [] => Ok true
  | c :: r => b ← rd m p; if sip_lc b =? c then sip_ieq m (p + 1) r else Ok false
  end.
Fixpoint sip_ieq2 (m : mem) (p : Z) (r : list Z) : res bool :=
  match r with
  | [] => Ok true
  | c :: r => b ← rd m p; if sip_lc b =? sip_lc c then sip_ieq2 m (p + 1) r else Ok false
  end.

(** The first octet of the class in [n] octets, their end when there is none. *)
Fixpoint scan (f : Z → bool) (m : mem) (p : Z) (n : nat) : res Z :=
  match n with
  | O => Ok p
  | S n => b ← rd m p; if f b then Ok p else scan f m (p + 1) n
  end.
(** [while (p < end && f( *p)) p++;] *)
Definition skip (f : Z → bool) (m : mem) (p e : Z) : res Z := scan (λ b, negb (f b)) m p (Z.to_nat (e - p)).
(** [while (e > p && f(e[-1])) e--;] *)
Fixpoint trim_loop (f : Z → bool) (m : mem) (e : Z) (n : nat) : res Z :=
  match n with
  | O => Ok e
  | S n => b ← rd m (e - 1); if f b then trim_loop f m (e - 1) n else Ok e
  end.
Definition trim (f : Z → bool) (m : mem) (p e : Z) : res Z := trim_loop f m e (Z.to_nat (e - p)).
Definition memchr (m : mem) (p c n : Z) : res (option Z) :=
  q ← scan (λ b, b =? c) m p (Z.to_nat n); Ok (if q <? p + n then Some q else None).
Definition find_any (m : mem) (p e : Z) (set : list Z) : res Z :=
  scan (λ b, bool_decide (b ∈ set)) m p (Z.to_nat (e - p)).

Fixpoint u32_loop (m : mem) (p : Z) (n : nat) (v : Z) : res (option Z) :=
  match n with
  | O => Ok (Some v)
  | S n =>
      b ← rd m p;
      if negb (sip_is_digit b) then Ok None else u32_loop m (p + 1) n (u64 (u64 (v * 10) + (b - 48)))
  end.
Definition sip_parse_u32 (m : mem) (p n : Z) : res (option Z) :=
  if (n =? 0) || (10 <? n) then Ok None else
  v ← u32_loop m p (Z.to_nat n) 0;
  Ok (match v with Some v => if UINT32_MAX <? v then None else Some v | None => None end).
End SipStr.
