(* ===== verification/SipMsg.v ===== *)
(** * SipMsg: the SIP message codec

    Models [sip/src/sip.c] (name tables, message parse, header search) and
    [sip/src/sip_write.c] (start lines, headers, body).  A message is slices of the buffer it
    was parsed from; the fields of a message whose parse failed are not tracked.  Octets
    are unsigned: the code compares characters with characters of ASCII only. *)

From stdpp Require Import strings.
From S2P Require Import Prelude Endian SipStr.

Definition INT_MAX : Z := 2147483647.

Module SipMsg.
Import SipStr.

Definition SIP_MAX_HDRS : Z := 48.
Definition SIP_M_UNKNOWN : Z := 0.
Definition SIP_M_MAX : Z := 15.
Definition SIP_H_OTHER : Z := 0.
Definition SIP_H_CONTENT_LENGTH : Z := 15.
Definition SIP_H_MAX : Z := 57.

(** ** Name tables *)

Definition k_hdr : list string := [
  ""; "Accept"; "Accept-Encoding"; "Accept-Language"; "Alert-Info"; "Allow"; "Allow-Events";
  "Authentication-Info"; "Authorization"; "Call-ID"; "Call-Info"; "Contact"; "Content-Disposition";
  "Content-Encoding"; "Content-Language"; "Content-Length"; "Content-Type"; "CSeq"; "Date"; "Error-Info";
  "Event"; "Expires"; "From"; "In-Reply-To"; "Max-Forwards"; "MIME-Version"; "Min-Expires"; "Min-SE";
  "Organization"; "P-Asserted-Identity"; "P-Preferred-Identity"; "Priority"; "Privacy"; "Proxy-Authenticate";
  "Proxy-Authorization"; "Proxy-Require"; "RAck"; "Record-Route"; "Refer-To"; "Referred-By"; "Reply-To";
  "Require"; "Retry-After"; "Route"; "RSeq"; "Server"; "Session-Expires"; "Subject"; "Subscription-State";
  "Supported"; "Timestamp"; "To"; "Unsupported"; "User-Agent"; "Via"; "Warning"; "WWW-Authenticate" ]%string.
Definition hdr_txt (id : Z) : list Z := txt (nth (Z.to_nat id) k_hdr ""%string).

(** The range of ids of each first letter, from [a] on. *)
Definition k_hdr_bucket : list (Z * Z) := [
  (1, 8); (0, 0); (9, 17); (18, 18); (19, 21); (22, 22); (0, 0); (0, 0); (23, 23); (0, 0); (0, 0); (0, 0); (24, 27);
  (0, 0); (28, 28); (29, 35); (0, 0); (36, 44); (45, 49); (50, 51); (52, 53); (54, 54); (55, 56); (0, 0); (0, 0); (0, 0) ].
Definition k_hdr_compact : list Z := [
  0; 39; 16; 0; 13; 22; 0; 0; 9; 0; 49; 15; 11; 0; 20; 0; 0; 38; 47; 51; 6; 54; 0; 46; 0; 0 ].

Definition k_method : list string := [
  ""; "INVITE"; "ACK"; "BYE"; "CANCEL"; "OPTIONS"; "REGISTER"; "PRACK"; "SUBSCRIBE"; "NOTIFY"; "PUBLISH"; "INFO";
  "REFER"; "MESSAGE"; "UPDATE" ]%string.

Definition sip_hdr_name (id : Z) : list Z := if (0 <=? id) && (id <? SIP_H_MAX) then hdr_txt id else [].
Definition sip_method_name (m : Z) : list Z :=
  if (0 <=? m) && (m <? SIP_M_MAX) then txt (nth (Z.to_nat m) k_method ""%string) else [].

Definition is_lower (c : Z) : bool := (97 <=? c) && (c <=? 122).
(** The walk over a bucket; a bucket is shorter than the table. *)
Fixpoint bucket_loop (fuel : nat) (m : mem) (p len id hi : Z) : res Z :=
  match fuel with
  | O => Ub
  | S fuel =>
      if (id =? 0) || (hi <? id) then Ok SIP_H_OTHER else
      eq ← (if mlen (hdr_txt id) =? len then sip_ieq2 m p (hdr_txt id) else Ok false);
      if (eq : bool) then Ok id else bucket_loop fuel m p len (u8 (id + 1)) hi
  end.
Definition sip_hdr_from (m : mem) (p len : Z) : res Z :=
  if len =? 1 then
    b ← rd m p;
    let c := sip_lc b in
    Ok (if is_lower c then nth (Z.to_nat (c - 97)) k_hdr_compact 0 else SIP_H_OTHER)
  else if (len <? 2) || (20 <? len) then Ok SIP_H_OTHER else
  b ← rd m p;
  let c := sip_lc b in
  if negb (is_lower c) then Ok SIP_H_OTHER else
  let '(lo, hi) := nth (Z.to_nat (c - 97)) k_hdr_bucket (0, 0) in
  bucket_loop 58 m p len lo hi.

(** The comparisons of each length, in order. *)
Definition method_cases (len : Z) : list (string * Z) :=
  if len =? 3 then [("ACK", 2); ("BYE", 3)]%string
  else if len =? 4 then [("INFO", 11)]%string
  else if len =? 5 then [("PRACK", 7); ("REFER", 12)]%string
  else if len =? 6 then [("INVITE", 1); ("CANCEL", 4); ("NOTIFY", 9); ("UPDATE", 14)]%string
  else if len =? 7 then [("OPTIONS", 5); ("MESSAGE", 13); ("PUBLISH", 10)]%string
  else if len =? 8 then [("REGISTER", 6)]%string
  else if len =? 9 then [("SUBSCRIBE", 8)]%string
  else [].
Fixpoint method_loop (cases : list (string * Z)) (bs : list Z) : Z :=
  match cases with
  | [] => SIP_M_UNKNOWN
  | (s, id) :: cases => if bool_decide (bs = txt s) then id else method_loop cases bs
  end.
Definition sip_method_from (m : mem) (p len : Z) : res Z :=
  match method_cases len with
  | [] => Ok SIP_M_UNKNOWN
  | cases => bs ← rdn m p len; Ok (method_loop cases bs)
  end.

Definition phrases : list (Z * string) := [
  (100, "Trying"); (180, "Ringing"); (181, "Call Is Being Forwarded"); (182, "Queued"); (183, "Session Progress");
  (199, "Early Dialog Terminated"); (200, "OK"); (202, "Accepted"); (300, "Multiple Choices");
  (301, "Moved Permanently"); (302, "Moved Temporarily"); (305, "Use Proxy"); (380, "Alternative Service");
  (400, "Bad Request"); (401, "Unauthorized"); (402, "Payment Required"); (403, "Forbidden"); (404, "Not Found");
  (405, "Method Not Allowed"); (406, "Not Acceptable"); (407, "Proxy Authentication Required");
  (408, "Request Timeout"); (410, "Gone"); (413, "Request Entity Too Large"); (414, "Request-URI Too Long");
  (415, "Unsupported Media Type"); (416, "Unsupported URI Scheme"); (420, "Bad Extension");
  (421, "Extension Required"); (422, "Session Interval Too Small"); (423, "Interval Too Brief");
  (480, "Temporarily Unavailable"); (481, "Call/Transaction Does Not Exist"); (482, "Loop Detected");
  (483, "Too Many Hops"); (484, "Address Incomplete"); (485, "Ambiguous"); (486, "Busy Here");
  (487, "Request Terminated"); (488, "Not Acceptable Here"); (489, "Bad Event"); (491, "Request Pending");
  (493, "Undecipherable"); (500, "Server Internal Error"); (501, "Not Implemented"); (502, "Bad Gateway");
  (503, "Service Unavailable"); (504, "Server Time-out"); (505, "Version Not Supported");
  (513, "Message Too Large"); (600, "Busy Everywhere"); (603, "Decline"); (604, "Does Not Exist Anywhere");
  (606, "Not Acceptable") ]%string.
Fixpoint phrase_of (l : list (Z * string)) (status : Z) : string :=
  match l with
  | [] => "Unknown"%string
  | (c, s) :: l => if c =? status then s else phrase_of l status
  end.
Definition sip_status_phrase (status : Z) : string := phrase_of phrases status.

(** ** Message parse *)

Record sip_hdr_view := Hdr { h_id : Z; h_name : sip_str; h_value : sip_str }.
(** The start line, the header fields in order ([hdr_count] is their number), the value of
    Content-Length when there was one, and the body. *)
Inductive start_line := Request (method : Z) (method_name ruri : sip_str) | Status (status : Z) (reason : sip_str).
Record sip_msg := Msg { m_start : start_line; m_hdrs : list sip_hdr_view; m_clen : option Z; m_body : sip_str }.

(** The end of the line at [p] and the start of the next one. *)
Definition line_end (m : mem) (p e : Z) : res (option (Z * Z)) :=
  nl ← memchr m p 10 (e - p);
  match nl with
  | None => Ok None
  | Some nl =>
      cr ← (if p <? nl then b ← rd m (nl - 1); Ok (b =? 13) else Ok false);
      Ok (Some (if (cr : bool) then nl - 1 else nl, nl + 1))
  end.

Definition SIP20_SP : list Z := txt "sip/2.0 ".
Definition SIP20 : list Z := txt "sip/2.0".

(** The status code: three digits, at least 100. *)
Definition status_code (m : mem) (q eol : Z) : res (option Z) :=
  if eol - q <? 3 then Ok None else
  a ← rd m q;
  if negb (sip_is_digit a) then Ok None else
  b ← rd m (q + 1);
  if negb (sip_is_digit b) then Ok None else
  c ← rd m (q + 2);
  if negb (sip_is_digit c) then Ok None else
  let code := (a - 48) * 100 + (b - 48) * 10 + (c - 48) in
  Ok (if code <? 100 then None else Some code).

Definition parse_start_line (m : mem) (p eol : Z) : res (Z + start_line) :=
  let n := eol - p in
  st ← (if 8 <=? n then sip_ieq m p SIP20_SP else Ok false);
  if (st : bool) then
    let q := p + 8 in
    code ← status_code m q eol;
    match code with
    | None => Ok (inl SIP_E_LINE)
    | Some code =>
        let q := q + 3 in
        if q <? eol then
          b ← rd m q;
          if negb (b =? 32) then Ok (inl SIP_E_LINE) else Ok (inr (Status code (sub_str (q + 1) eol)))
        else Ok (inr (Status code (sub_str q eol)))
    end
  else
  sp1 ← memchr m p 32 n;
  match sp1 with
  | None => Ok (inl SIP_E_LINE)
  | Some sp1 =>
      if sp1 =? p then Ok (inl SIP_E_LINE) else
      sp2 ← memchr m (sp1 + 1) 32 (eol - sp1 - 1);
      match sp2 with
      | None => Ok (inl SIP_E_LINE)
      | Some sp2 =>
          if sp2 =? sp1 + 1 then Ok (inl SIP_E_LINE) else
          ver ← (if eol - sp2 - 1 =? 7 then sip_ieq m (sp2 + 1) SIP20 else Ok false);
          if negb (ver : bool) then Ok (inl SIP_E_VERSION) else
          method ← sip_method_from m p (sp1 - p);
          Ok (inr (Request method (sub_str p sp1) (sub_str (sp1 + 1) sp2)))
      end
  end.

(** Continuation lines: the end of the field and the next line, [None] for a line that is
    not all there. *)
Fixpoint unfold_lines (fuel : nat) (m : mem) (eol nl e : Z) : res (option (Z * Z)) :=
  match fuel with
  | O => Ub
  | S fuel =>
      ws ← (if nl <? e then b ← rd m nl; Ok (sip_is_ws b) else Ok false);
      if negb (ws : bool) then Ok (Some (eol, nl)) else
      l ← line_end m nl e;
      match l with
      | None => Ok None
      | Some (eol2, nl2) => unfold_lines fuel m eol2 nl2 e
      end
  end.

(** One header field, the text from [p] to [eol]: the view and the new Content-Length. *)
Definition parse_field (m : mem) (p eol count : Z) (clen : option Z) : res (Z + (sip_hdr_view * option Z)) :=
  colon ← memchr m p 58 (eol - p);
  match colon with
  | None => Ok (inl SIP_E_HEADER)
  | Some colon =>
      ne ← trim sip_is_ws m p colon;
      if ne =? p then Ok (inl SIP_E_HEADER) else
      v ← skip sip_is_ws m (colon + 1) eol;
      ve ← trim sip_is_ws m v eol;
      if SIP_MAX_HDRS <=? count then Ok (inl SIP_E_HEADERS) else
      id ← sip_hdr_from m p (ne - p);
      let h := Hdr id (sub_str p ne) (sub_str v ve) in
      if id =? SIP_H_CONTENT_LENGTH then
        n ← sip_parse_u32 m v (ve - v);
        match n with
        | None => Ok (inl SIP_E_HEADER)
        | Some n => Ok (inr (h, Some n))
        end
      else Ok (inr (h, clen))
  end.

(** The header fields up to the empty line. *)
Fixpoint parse_headers (fuel : nat) (m : mem) (p e : Z) (hdrs : list sip_hdr_view) (clen : option Z) :
    res (Z + (list sip_hdr_view * option Z * Z)) :=
  match fuel with
  | O => Ub
  | S fuel =>
      l ← line_end m p e;
      match l with
      | None => Ok (inl SIP_E_SHORT)
      | Some (eol, nl) =>
          if eol =? p then Ok (inr (hdrs, clen, nl)) else
          l ← unfold_lines fuel m eol nl e;
          match l with
          | None => Ok (inl SIP_E_SHORT)
          | Some (eol, nl) =>
              f ← parse_field m p eol (Z.of_nat (length hdrs)) clen;
              match f with
              | inl rc => Ok (inl rc)
              | inr (h, clen) => parse_headers fuel m nl e (hdrs ++ [h]) clen
              end
          end
      end
  end.

Definition is_eol (c : Z) : bool := (c =? 13) || (c =? 10).
(** The message and the octets consumed, or an error. *)
Definition sip_msg_parse (out : bool) (buf : option mem) (len : Z) : res (Z + (sip_msg * Z)) :=
  match buf with
  | None => Ok (inl SIP_E_INVAL)
  | Some m =>
      if negb out || (INT_MAX <? len) then Ok (inl SIP_E_INVAL) else
      p ← skip is_eol m 0 len;
      l ← line_end m p len;
      match l with
      | None => Ok (inl SIP_E_SHORT)
      | Some (eol, nl) =>
          s ← parse_start_line m p eol;
          match s with
          | inl rc => Ok (inl rc)
          | inr s =>
              h ← parse_headers (Z.to_nat len + 1) m nl len [] None;
              match h with
              | inl rc => Ok (inl rc)
              | inr (hdrs, clen, hoff) =>
                  match clen with
                  | Some n =>
                      if len - hoff <? n then Ok (inl SIP_E_SHORT)
                      else Ok (inr (Msg s hdrs clen (Str (Some hoff) n), hoff + n))
                  | None => Ok (inr (Msg s hdrs clen (sub_str hoff len), len))
                  end
              end
          end
      end
  end.

(** ** Header search *)

(** The index of a header stands for its pointer. *)
Fixpoint find_loop (f : sip_hdr_view → res bool) (hs : list sip_hdr_view) (i : Z) : res (option Z) :=
  match hs with
  | [] => Ok None
  | h :: hs => b ← f h; if (b : bool) then Ok (Some i) else find_loop f hs (i + 1)
  end.
Definition sip_msg_find (msg : sip_msg) (id : Z) : res (option Z) :=
  find_loop (λ h, Ok (h_id h =? id)) (m_hdrs msg) 0.

(** Whether the name of a header is the text [r], up to case. *)
Definition same_name (m : mem) (h : sip_hdr_view) (r : list Z) : res bool :=
  if s_len (h_name h) =? mlen r then
    match s_p (h_name h) with None => Ub | Some p => sip_ieq2 m p r end
  else Ok false.
Definition sip_msg_find_next (m : mem) (msg : sip_msg) (prev : Z) : res (option Z) :=
  if (prev <? 0) || (Z.of_nat (length (m_hdrs msg)) <=? prev) then Ok None else
  match m_hdrs msg !! Z.to_nat prev with
  | None => Ub
  | Some ph =>
      find_loop (λ h,
        if negb (h_id h =? h_id ph) then Ok false else
        if negb (h_id h =? SIP_H_OTHER) then Ok true else
        match s_p (h_name ph) with
        | None => Ub
        | Some q => r ← rdn m q (s_len (h_name ph)); same_name m h r
        end) (drop (S (Z.to_nat prev)) (m_hdrs msg)) (prev + 1)
  end.
(** [name] is the text before the terminator. *)
Definition sip_msg_find_name (m : mem) (msg : sip_msg) (name : list Z) : res (option Z) :=
  id ← sip_hdr_from name 0 (mlen name);
  if negb (id =? SIP_H_OTHER) then sip_msg_find msg id else
  find_loop (λ h, if negb (h_id h =? SIP_H_OTHER) then Ok false else same_name m h name) (m_hdrs msg) 0.
End SipMsg.
