(* ===== verification/SipWrite.v ===== *)
(** * SipWrite: writing SIP messages

    Models [sip/src/sip_write.c] over [sip_wbuf_t]: start lines, header fields and the body
    are appended to the buffer of the caller, and an overflow is sticky.  A text argument
    is the memory its pointer leads to ([None] for NULL) and a length. *)

From stdpp Require Import strings.
From S2P Require Import Prelude Endian SipStr SipMsg.

Module SipWrite.
Import SipStr SipMsg.

Record sip_wbuf := Wbuf { w_buf : option mem; w_cap : Z; w_off : Z; w_overflow : bool }.

Definition put (w : sip_wbuf) (p : option mem) (n : Z) : res sip_wbuf :=
  if w_overflow w || (u64 (w_cap w - w_off w) <? n) then Ok (Wbuf (w_buf w) (w_cap w) (w_off w) true) else
  if n =? 0 then Ok w else
  match w_buf w, p with
  | Some b, Some p =>
      bs ← rdn p 0 n;
      b ← wrn b (w_off w) bs;
      Ok (Wbuf (Some b) (w_cap w) (w_off w + n) false)
  | _, _ => Ub
  end.
(** A literal or a name of the tables, with its own length. *)
Definition put_txt (w : sip_wbuf) (bs : list Z) : res sip_wbuf := put w (Some bs) (mlen bs).

(** The digits go to an array of ten from its end. *)
Fixpoint u32_digits (room : nat) (v : Z) (acc : list Z) : res (list Z) :=
  match room with
  | O => Ub
  | S room =>
      let acc := (48 + v mod 10) :: acc in
      let v := v / 10 in
      if v =? 0 then Ok acc else u32_digits room v acc
  end.
Definition put_u32 (w : sip_wbuf) (v : Z) : res sip_wbuf := ds ← u32_digits 10 v []; put_txt w ds.

Definition sip_wbuf_init (buf : option mem) (cap : Z) : sip_wbuf :=
  Wbuf buf (if INT_MAX <? cap then INT_MAX else cap) 0 (match buf with None => true | _ => false end).

Definition CRLF : list Z := [13; 10].
Definition is_null {A} (p : option A) : bool := match p with None => true | _ => false end.
Definition result (w : sip_wbuf) : sip_wbuf * Z := (w, if w_overflow w then SIP_E_OVERFLOW else SIP_OK).

Definition sip_put_request (w : sip_wbuf) (m : Z) (uri : option mem) (urilen : Z) : res (sip_wbuf * Z) :=
  let name := sip_method_name m in
  if (m =? SIP_M_UNKNOWN) || bool_decide (name = []) || is_null uri || (urilen =? 0) then Ok (w, SIP_E_INVAL) else
  w ← put_txt w name;
  w ← put_txt w [32];
  w ← put w uri urilen;
  w ← put_txt w (txt " SIP/2.0" ++ CRLF);
  Ok (result w).

Definition sip_put_status (w : sip_wbuf) (status : Z) (reason : option mem) (rlen : Z) : res (sip_wbuf * Z) :=
  if (status <? 100) || (699 <? status) then Ok (w, SIP_E_INVAL) else
  let phrase := txt (sip_status_phrase status) in
  let '(reason, rlen) := match reason with None => (Some phrase, mlen phrase) | _ => (reason, rlen) end in
  w ← put_txt w (txt "SIP/2.0 ");
  w ← put_txt w [48 + status / 100; 48 + status / 10 mod 10; 48 + status mod 10];
  w ← put_txt w [32];
  w ← put w reason rlen;
  w ← put_txt w CRLF;
  Ok (result w).

Definition sip_put_hdr_name (w : sip_wbuf) (name : option mem) (nlen : Z) (val : option mem) (vlen : Z) : res (sip_wbuf * Z) :=
  if is_null name || (nlen =? 0) || (is_null val && negb (vlen =? 0)) then Ok (w, SIP_E_INVAL) else
  w ← put w name nlen;
  w ← put_txt w (txt ": ");
  w ← put w val vlen;
  w ← put_txt w CRLF;
  Ok (result w).
Definition sip_put_hdr (w : sip_wbuf) (id : Z) (val : option mem) (vlen : Z) : res (sip_wbuf * Z) :=
  let name := sip_hdr_name id in
  if bool_decide (name = []) then Ok (w, SIP_E_INVAL) else sip_put_hdr_name w (Some name) (mlen name) val vlen.
Definition sip_put_hdr_u32 (w : sip_wbuf) (id v : Z) : res (sip_wbuf * Z) :=
  let name := sip_hdr_name id in
  if bool_decide (name = []) then Ok (w, SIP_E_INVAL) else
  w ← put_txt w name;
  w ← put_txt w (txt ": ");
  w ← put_u32 w v;
  w ← put_txt w CRLF;
  Ok (result w).
Definition sip_put_body (w : sip_wbuf) (body : option mem) (blen : Z) : res (sip_wbuf * Z) :=
  if is_null body && negb (blen =? 0) then Ok (w, SIP_E_INVAL) else
  if UINT32_MAX <? blen then Ok (w, SIP_E_INVAL) else
  w ← put_txt w (txt "Content-Length: ");
  w ← put_u32 w (u32 blen);
  w ← put_txt w (CRLF ++ CRLF);
  w ← (if blen =? 0 then Ok w else put w body blen);
  Ok (w, if w_overflow w then SIP_E_OVERFLOW else w_off w).
End SipWrite.
