(* ===== verification/SipUri.v ===== *)
(** * SipUri: URIs, addresses, Via and CSeq values

    Models [sip/src/sip_uri.c]: parsers that slice further into a slice of a message,
    nothing copied.  The buffer is [m]; a value is an offset and a length into it.  The
    pointers to the outputs are not NULL, and the outputs of a parse that failed are not
    tracked. *)

From stdpp Require Import strings.
From S2P Require Import Prelude Endian SipStr SipMsg.

Module SipUri.
Import SipStr SipMsg.

Definition SIP_URI_OTHER : Z := 0.
Definition SIP_URI_SIP : Z := 1.
Definition SIP_URI_SIPS : Z := 2.
Definition SIP_URI_TEL : Z := 3.

(** [host] and [port] and the offset behind them; [None] is SIP_E_URI. *)
Definition parse_hostport (m : mem) (p e : Z) : res (option (sip_str * Z * Z)) :=
  br ← (if p <? e then b ← rd m p; Ok (b =? 91) else Ok false);
  h ← (if (br : bool) then
         close ← memchr m p 93 (e - p);
         Ok (match close with None => None | Some close => Some (sub_str (p + 1) close, close + 1) end)
       else
         stop ← find_any m p e (txt ":;? " ++ [9]);
         Ok (Some (sub_str p stop, stop)));
  match h with
  | None => Ok None
  | Some (host, p) =>
      if s_len host =? 0 then Ok None else
      col ← (if p <? e then b ← rd m p; Ok (b =? 58) else Ok false);
      if (col : bool) then
        let p := p + 1 in
        stop ← find_any m p e (txt ";? " ++ [9]);
        v ← sip_parse_u32 m p (stop - p);
        Ok (match v with
            | Some v => if (v =? 0) || (UINT16_MAX <? v) then None else Some (host, v, stop)
            | None => None
            end)
      else Ok (Some (host, 0, p))
  end.

(** Parameters and headers behind the host. *)
Definition parse_tail (m : mem) (p e : Z) : res (sip_str * sip_str) :=
  q ← memchr m p 63 (e - p);
  let pend := match q with Some q => q | None => e end in
  semi ← (if p <? pend then b ← rd m p; Ok (b =? 59) else Ok false);
  Ok (if (semi : bool) then sub_str (p + 1) pend else no_str,
      match q with Some q => sub_str (q + 1) e | None => no_str end).

Record sip_uri := Uri {
  u_scheme : Z; u_scheme_name : sip_str; u_user : sip_str; u_host : sip_str; u_port : Z; u_params : sip_str; u_headers : sip_str }.

Definition uri_scheme (m : mem) (p sn : Z) : res Z :=
  a ← (if sn =? 3 then sip_ieq m p (txt "sip") else Ok false);
  if (a : bool) then Ok SIP_URI_SIP else
  b ← (if sn =? 4 then sip_ieq m p (txt "sips") else Ok false);
  if (b : bool) then Ok SIP_URI_SIPS else
  c ← (if sn =? 3 then sip_ieq m p (txt "tel") else Ok false);
  Ok (if (c : bool) then SIP_URI_TEL else SIP_URI_OTHER).

(** [buf] is the offset the pointer leads to, [None] for NULL. *)
Definition sip_uri_parse (m : mem) (buf : option Z) (len : Z) : res (Z + sip_uri) :=
  match buf with
  | None => Ok (inl SIP_E_INVAL)
  | Some p =>
  let e := p + len in
  colon ← memchr m p 58 len;
  match colon with
  | None => Ok (inl SIP_E_URI)
  | Some colon =>
      if colon =? p then Ok (inl SIP_E_URI) else
      scheme ← uri_scheme m p (colon - p);
      let name := sub_str p colon in
      let p := colon + 1 in
      if scheme =? SIP_URI_TEL then
        stop ← find_any m p e (txt ";?");
        if u32 (stop - p) =? 0 then Ok (inl SIP_E_URI) else
        t ← parse_tail m stop e;
        Ok (inr (Uri scheme name (sub_str p stop) no_str 0 (fst t) (snd t)))
      else
      tail ← find_any m p e (txt ";?");
      at_ ← trim (λ b, negb (b =? 64)) m p tail;
      let '(user, p) := if at_ =? p then (no_str, p) else (sub_str p (at_ - 1), at_) in
      h ← parse_hostport m p e;
      match h with
      | None => Ok (inl SIP_E_URI)
      | Some (host, port, p) =>
          t ← parse_tail m p e;
          Ok (inr (Uri scheme name user host port (fst t) (snd t)))
      end
  end
  end.

(** One parameter from [p]: the end of its text, of its name and its value. *)
Definition semi_or_ws (b : Z) : bool := (b =? 59) || sip_is_ws b.
Fixpoint param_loop (fuel : nat) (m : mem) (p e : Z) (name : list Z) : res (option sip_str) :=
  match fuel with
  | O => Ub
  | S fuel =>
      if e <=? p then Ok None else
      p ← skip semi_or_ws m p e;
      semi ← memchr m p 59 (e - p);
      let pe := match semi with Some s => s | None => e end in
      eq ← memchr m p 61 (pe - p);
      ne ← trim sip_is_ws m p (match eq with Some q => q | None => pe end);
      hit ← (if ne - p =? mlen name then sip_ieq2 m p name else Ok false);
      if (hit : bool) then
        match eq with
        | Some q =>
            v ← skip sip_is_ws m (q + 1) pe;
            vend ← trim sip_is_ws m v pe;
            Ok (Some (sub_str v vend))
        | None => Ok (Some (Str (Some pe) 0))
        end
      else param_loop fuel m pe e name
  end.
(** [None] is the return of false; a NULL slice has no octets. *)
Definition sip_param (m : mem) (params : sip_str) (name : list Z) : res (option sip_str) :=
  match s_p params with
  | None => Ok None
  | Some p => param_loop (S (Z.to_nat (s_len params))) m p (p + s_len params) name
  end.

Record sip_addr := Addr { a_display : sip_str; a_uri : sip_str; a_params : sip_str; a_tag : sip_str }.

(** The closing quote of a display name; a backslash hides the next octet. *)
Fixpoint quote_loop (fuel : nat) (m : mem) (q e : Z) : res Z :=
  match fuel with
  | O => Ub
  | S fuel =>
      if e <=? q then Ok q else
      b ← rd m q;
      if b =? 34 then Ok q else
      quote_loop fuel m (q + (if (b =? 92) && (q + 1 <? e) then 2 else 1)) e
  end.

(** The display name and the opening bracket, [None] for an address without one. *)
Definition addr_display (m : mem) (p e : Z) : res (option (sip_str * option Z)) :=
  qt ← (if p <? e then b ← rd m p; Ok (b =? 34) else Ok false);
  if (qt : bool) then
    q ← quote_loop (S (Z.to_nat (e - p))) m (p + 1) e;
    if e <=? q then Ok None else
    lt ← memchr m q 60 (e - q);
    Ok (match lt with None => None | Some lt => Some (sub_str (p + 1) q, Some lt) end)
  else
    lt ← memchr m p 60 (e - p);
    match lt with
    | None => Ok (Some (no_str, None))
    | Some lt => de ← trim sip_is_ws m p lt; Ok (Some (sub_str p de, Some lt))
    end.
(** The URI and the parameters. *)
Definition addr_spec (m : mem) (p e : Z) (lt : option Z) : res (option (sip_str * sip_str)) :=
  match lt with
  | Some lt =>
      gt ← memchr m lt 62 (e - lt);
      match gt with
      | None => Ok None
      | Some gt =>
          if gt =? lt + 1 then Ok None else
          q ← skip sip_is_ws m (gt + 1) e;
          semi ← (if q <? e then b ← rd m q; Ok (b =? 59) else Ok false);
          Ok (Some (sub_str (lt + 1) gt, if (semi : bool) then sub_str (q + 1) e else no_str))
      end
  | None =>
      semi ← memchr m p 59 (e - p);
      ue ← trim sip_is_ws m p (match semi with Some s => s | None => e end);
      if ue =? p then Ok None else
      Ok (Some (sub_str p ue, match semi with Some s => sub_str (s + 1) e | None => no_str end))
  end.
(** The tag when there is one, the empty slice otherwise. *)
Definition or_empty (s : option sip_str) : sip_str := match s with Some s => s | None => no_str end.
Definition sip_addr_parse (m : mem) (value : sip_str) : res (Z + sip_addr) :=
  match s_p value with
  | None => Ok (inl SIP_E_INVAL)
  | Some p =>
      if s_len value =? 0 then Ok (inl SIP_E_URI) else
      let e := p + s_len value in
      p ← skip sip_is_ws m p e;
      d ← addr_display m p e;
      match d with
      | None => Ok (inl SIP_E_URI)
      | Some (display, lt) =>
          s ← addr_spec m p e lt;
          match s with
          | None => Ok (inl SIP_E_URI)
          | Some (uri, params) =>
              tag ← sip_param m params (txt "tag");
              Ok (inr (Addr display uri params (or_empty tag)))
          end
      end
  end.

Record sip_via := Via { v_transport : sip_str; v_host : sip_str; v_port : Z; v_params : sip_str; v_branch : sip_str }.
Definition sip_via_parse (m : mem) (value : sip_str) : res (Z + sip_via) :=
  match s_p value with
  | None => Ok (inl SIP_E_INVAL)
  | Some p =>
      let e := p + s_len value in
      ok ← (if e - p <? 8 then Ok false else sip_ieq m p (txt "sip/2.0/"));
      if negb (ok : bool) then Ok (inl SIP_E_HEADER) else
      let p := p + 8 in
      te ← find_any m p e [32; 9];
      if (te =? p) || (te =? e) then Ok (inl SIP_E_HEADER) else
      let transport := sub_str p te in
      p ← skip sip_is_ws m te e;
      h ← parse_hostport m p e;
      match h with
      | None => Ok (inl SIP_E_HEADER)
      | Some (host, port, p) =>
          p ← skip sip_is_ws m p e;
          semi ← (if p <? e then b ← rd m p; Ok (b =? 59) else Ok false);
          let params := if (semi : bool) then sub_str (p + 1) e else no_str in
          branch ← sip_param m params (txt "branch");
          Ok (inr (Via transport host port params (or_empty branch)))
      end
  end.

Record sip_cseq := Cseq { c_seq : Z; c_method : Z; c_method_name : sip_str }.
Definition sip_cseq_parse (m : mem) (value : sip_str) : res (Z + sip_cseq) :=
  match s_p value with
  | None => Ok (inl SIP_E_INVAL)
  | Some p =>
      let e := p + s_len value in
      sp ← find_any m p e [32; 9];
      if sp =? e then Ok (inl SIP_E_HEADER) else
      seq ← sip_parse_u32 m p (sp - p);
      match seq with
      | None => Ok (inl SIP_E_HEADER)
      | Some seq =>
          sp ← skip sip_is_ws m sp e;
          if sp =? e then Ok (inl SIP_E_HEADER) else
          method ← sip_method_from m sp (e - sp);
          Ok (inr (Cseq seq method (sub_str sp e)))
      end
  end.
End SipUri.
