(* ===== verification/SipScan.v ===== *)
(** * SipScan: what the scanning loops of the SIP parsers find

    Specifications of the loops of SipStr: they stay in the buffer when the range they are
    given does, and stop at the first (or last) octet of the class. *)

From stdpp Require Import strings.
From S2P Require Import Prelude Endian SipStr SipMsg.

Module SipScan.
Import SipStr SipMsg.

(** ** The first octet of a class *)

Lemma scan_spec f m : ∀ n p, 0 <= p → p + Z.of_nat n <= mlen m →
  ∃ q, scan f m p n = Ok q ∧ p <= q <= p + Z.of_nat n ∧
    (∀ i, p <= i < q → f (get m i) = false) ∧ (q < p + Z.of_nat n → f (get m q) = true).
Proof.
  induction n as [|n IH]; intros p Hp Hl; cbn [scan].
  - exists p. split_and!; try lia; done.
  - rewrite (rd_Ok m p) by lia. bstep. destruct (f (get m p)) eqn:Ef.
    + exists p. split_and!; try lia; done.
    + destruct (IH (p + 1)) as (q & -> & Hq & Hb & Hs); [lia..|]. exists q. split_and!; try lia; try done.
      * intros i Hi. destruct (Z.eq_dec i p) as [->|]; [done|]. apply Hb. lia.
      * intros Hlt. apply Hs. lia.
Qed.
(** The scan is determined by where it stops. *)
Lemma scan_at f m n p q : 0 <= p → p <= q <= p + Z.of_nat n → p + Z.of_nat n <= mlen m ∨ q < p + Z.of_nat n ∧ q < mlen m →
  (∀ i, p <= i < q → f (get m i) = false) → (q < p + Z.of_nat n → f (get m q) = true) →
  scan f m p n = Ok q.
Proof.
  revert p. induction n as [|n IH]; intros p Hp Hq Hl Hb Hs; cbn [scan].
  - f_equal. lia.
  - rewrite (rd_Ok m p) by lia. bstep. destruct (Z.eq_dec p q) as [->|Hn].
    + rewrite Hs by lia. done.
    + rewrite Hb by lia. apply IH; try lia; intros; [apply Hb|apply Hs]; lia.
Qed.

Lemma memchr_spec m p c n : 0 <= p → 0 <= n → p + n <= mlen m →
  ∃ r, memchr m p c n = Ok r ∧
    match r with
    | Some q => p <= q < p + n ∧ get m q = c ∧ ∀ i, p <= i < q → get m i ≠ c
    | None => ∀ i, p <= i < p + n → get m i ≠ c
    end.
Proof.
  intros Hp Hn Hl. unfold memchr. destruct (scan_spec (λ b, b =? c) m (Z.to_nat n) p) as (q & -> & Hq & Hb & Hs); [lia..|].
  bstep. eexists. split; [done|]. rewrite Z2Nat.id in * by lia. destruct (Z.ltb_spec q (p + n)).
  - split_and!; [lia..|by apply Z.eqb_eq, Hs|]. intros i Hi. by apply Z.eqb_neq, Hb.
  - intros i Hi. apply Z.eqb_neq, Hb. lia.
Qed.
Lemma memchr_at m p c n q : 0 <= p <= q → q < p + n → q < mlen m → get m q = c →
  (∀ i, p <= i < q → get m i ≠ c) → memchr m p c n = Ok (Some q).
Proof.
  intros Hp Hq Hl Hc Hb. unfold memchr. rewrite (scan_at _ m _ p q); try lia.
  - bstep. by rewrite (proj2 (Z.ltb_lt _ _)) by lia.
  - intros i Hi. by apply Z.eqb_neq, Hb.
Qed.
Lemma memchr_none m p c n : 0 <= p → 0 <= n → p + n <= mlen m → (∀ i, p <= i < p + n → get m i ≠ c) →
  memchr m p c n = Ok None.
Proof.
  intros Hp Hn Hl Hb. unfold memchr. rewrite (scan_at _ m _ p (p + n)); try lia.
  - bstep. by rewrite (proj2 (Z.ltb_ge _ _)) by lia.
  - intros i Hi. by apply Z.eqb_neq, Hb.
Qed.

Lemma find_any_spec m p e set : 0 <= p <= e → e <= mlen m →
  ∃ q, find_any m p e set = Ok q ∧ p <= q <= e ∧ (∀ i, p <= i < q → get m i ∉ set) ∧ (q < e → get m q ∈ set).
Proof.
  intros Hp He. unfold find_any.
  destruct (scan_spec (λ b, bool_decide (b ∈ set)) m (Z.to_nat (e - p)) p) as (q & -> & Hq & Hb & Hs); [lia..|].
  rewrite Z2Nat.id in * by lia. exists q. split_and!; try lia; try done.
  - intros i Hi. by eapply bool_decide_eq_false, Hb.
  - intros Hlt. eapply bool_decide_eq_true, Hs. lia.
Qed.
Lemma find_any_at m p e set q : 0 <= p <= q → q <= e → e <= mlen m → (∀ i, p <= i < q → get m i ∉ set) →
  (q < e → get m q ∈ set) → find_any m p e set = Ok q.
Proof.
  intros Hp Hq He Hb Hs. unfold find_any. apply scan_at; try lia.
  - intros i Hi. by apply bool_decide_eq_false, Hb.
  - intros Hlt. apply bool_decide_eq_true, Hs. lia.
Qed.
Lemma skip_spec f m p e : 0 <= p <= e → e <= mlen m →
  ∃ q, skip f m p e = Ok q ∧ p <= q <= e ∧ (∀ i, p <= i < q → f (get m i) = true) ∧ (q < e → f (get m q) = false).
Proof.
  intros Hp He. unfold skip.
  destruct (scan_spec (λ b, negb (f b)) m (Z.to_nat (e - p)) p) as (q & -> & Hq & Hb & Hs); [lia..|].
  rewrite Z2Nat.id in * by lia. exists q. split_and!; try lia; try done.
  - intros i Hi. by apply negb_false_iff, Hb.
  - intros Hlt. apply negb_true_iff, Hs. lia.
Qed.
Lemma skip_at f m p e q : 0 <= p <= q → q <= e → e <= mlen m ∨ q < e ∧ q < mlen m → (∀ i, p <= i < q → f (get m i) = true) →
  (q < e → f (get m q) = false) → skip f m p e = Ok q.
Proof.
  intros Hp Hq He Hb Hs. unfold skip. apply scan_at; try lia.
  - intros i Hi. by rewrite Hb.
  - intros Hlt. rewrite Hs; [done|lia].
Qed.

(** ** Back over a class *)

Lemma trim_loop_spec f m : ∀ n e, Z.of_nat n <= e → e <= mlen m →
  ∃ q, trim_loop f m e n = Ok q ∧ e - Z.of_nat n <= q <= e ∧
    (∀ i, q <= i < e → f (get m i) = true) ∧ (e - Z.of_nat n < q → f (get m (q - 1)) = false).
Proof.
  induction n as [|n IH]; intros e Hn He; cbn [trim_loop].
  - exists e. split_and!; try lia; done.
  - rewrite (rd_Ok m (e - 1)) by lia. bstep. destruct (f (get m (e - 1))) eqn:Ef.
    + destruct (IH (e - 1)) as (q & -> & Hq & Hb & Hs); [lia..|]. exists q. split_and!; try lia; try done.
      * intros i Hi. destruct (Z.eq_dec i (e - 1)) as [->|]; [done|]. apply Hb. lia.
      * intros Hlt. apply Hs. lia.
    + exists e. split_and!; try lia; done.
Qed.
Lemma trim_spec f m p e : 0 <= p <= e → e <= mlen m →
  ∃ q, trim f m p e = Ok q ∧ p <= q <= e ∧ (∀ i, q <= i < e → f (get m i) = true) ∧ (p < q → f (get m (q - 1)) = false).
Proof.
  intros Hp He. unfold trim. destruct (trim_loop_spec f m (Z.to_nat (e - p)) e) as (q & -> & Hq & Hb & Hs); [lia..|].
  rewrite Z2Nat.id in * by lia. exists q. split_and!; try lia; try done. intros. apply Hs. lia.
Qed.
(** Nothing to trim. *)
Lemma trim_none f m p e : 0 <= p <= e → e <= mlen m → (p < e → f (get m (e - 1)) = false) → trim f m p e = Ok e.
Proof.
  intros Hp He Hs. destruct (trim_spec f m p e Hp He) as (q & -> & Hq & Hb & _).
  destruct (Z.eq_dec q e) as [->|]; [done|]. rewrite Hb in Hs by lia. discriminate Hs. lia.
Qed.

(** ** Comparison *)

Lemma sip_ieq_spec r m : ∀ p, 0 <= p → p + mlen r <= mlen m →
  sip_ieq m p r = Ok (bool_decide (sip_lc <$> slice m p (mlen r) = r)).
Proof.
  induction r as [|c r IH]; intros p Hp Hl; cbn [sip_ieq]; [by rewrite slice_0|].
  rewrite mlen_cons in Hl. pose proof (mlen_nonneg r). rewrite (rd_Ok m p) by lia. bstep. rewrite mlen_cons, slice_cons by lia.
  replace (1 + mlen r - 1) with (mlen r) by lia. rewrite fmap_cons, IH by lia.
  destruct (Z.eqb_spec (sip_lc (get m p)) c) as [->|Hn].
  - f_equal. apply bool_decide_ext. split; [congruence|by intros [= ?]].
  - symmetry. f_equal. apply bool_decide_eq_false. by intros [= ? _].
Qed.
Lemma sip_ieq2_spec r m : ∀ p, 0 <= p → p + mlen r <= mlen m →
  sip_ieq2 m p r = Ok (bool_decide (sip_lc <$> slice m p (mlen r) = sip_lc <$> r)).
Proof.
  induction r as [|c r IH]; intros p Hp Hl; cbn [sip_ieq2]; [by rewrite slice_0|].
  rewrite mlen_cons in Hl. pose proof (mlen_nonneg r). rewrite (rd_Ok m p) by lia. bstep. rewrite mlen_cons, slice_cons by lia.
  replace (1 + mlen r - 1) with (mlen r) by lia. rewrite !fmap_cons, IH by lia.
  destruct (Z.eqb_spec (sip_lc (get m p)) (sip_lc c)) as [->|Hn].
  - f_equal. apply bool_decide_ext. split; [congruence|by intros [= ?]].
  - symmetry. f_equal. apply bool_decide_eq_false. by intros [= ? _].
Qed.

(** ** Numbers *)

(** The value of a run of digits. *)
Definition dec_val (v : Z) (bs : list Z) : Z := foldl (λ v b, v * 10 + (b - 48)) v bs.
Definition u32_text (bs : list Z) : option Z :=
  if (1 <=? mlen bs) && (mlen bs <=? 10) && forallb sip_is_digit bs && (dec_val 0 bs <=? UINT32_MAX)
  then Some (dec_val 0 bs) else None.

Lemma digit_range b : sip_is_digit b = true → 48 <= b <= 57.
Proof. unfold sip_is_digit. rewrite andb_true_iff, !Z.leb_le. done. Qed.
Lemma u32_loop_spec m n : ∀ p v, 0 <= p → p + Z.of_nat n <= mlen m → 0 <= v → (v + 1) * 10 ^ Z.of_nat n <= 18446744073709551616 →
  u32_loop m p n v =
    Ok (if forallb sip_is_digit (slice m p (Z.of_nat n)) then Some (dec_val v (slice m p (Z.of_nat n))) else None).
Proof.
  induction n as [|n IH]; intros p v Hp Hl Hv Hb; cbn [u32_loop]; [by rewrite slice_0|].
  rewrite (rd_Ok m p) by lia. bstep. rewrite slice_cons by lia. replace (Z.of_nat (S n) - 1) with (Z.of_nat n) by lia.
  cbn [forallb]. destruct (sip_is_digit (get m p)) eqn:Ed; cbn [negb andb]; [|done]. apply digit_range in Ed.
  assert (E10 : 10 ^ Z.of_nat (S n) = 10 * 10 ^ Z.of_nat n) by (rewrite Nat2Z.inj_succ; apply Z.pow_succ_r; lia).
  assert (Hpos : 1 <= 10 ^ Z.of_nat n) by (pose proof (Z.pow_pos_nonneg 10 (Z.of_nat n)); lia).
  rewrite E10 in Hb. rewrite (u64_small (v * 10)) by nia. rewrite u64_small by nia.
  rewrite IH by (lia || nia). done.
Qed.
Lemma sip_parse_u32_spec m p n : 0 <= p → 0 <= n → p + n <= mlen m →
  sip_parse_u32 m p n = Ok (u32_text (slice m p n)).
Proof.
  intros Hp Hn Hl. unfold sip_parse_u32, u32_text. rewrite mlen_slice by lia.
  destruct (Z.eqb_spec n 0) as [->|]; [done|]. destruct (Z.ltb_spec 10 n); cbn [orb].
  { by rewrite (proj2 (Z.leb_gt n 10)), andb_false_r by lia. }
  rewrite (proj2 (Z.leb_le 1 n)), (proj2 (Z.leb_le n 10)) by lia. cbn [andb].
  rewrite u32_loop_spec; [|lia|lia|done|].
  2:{ rewrite Z.mul_1_l, Z2Nat.id by lia. transitivity (10 ^ 10); [apply Z.pow_le_mono_r; lia|done]. }
  rewrite Z2Nat.id by lia. bstep. destruct (forallb _ _); cbn [andb]; [|done].
  rewrite Z.leb_antisym. by destruct (_ <? _).
Qed.
End SipScan.
