(* ===== verification/SipName.v ===== *)
(** * SipName: header and method names

    The lookups by first letter, by length and by compact form against a plain search of the
    tables, and the names back to their numbers in any case. *)

From stdpp Require Import strings.
From S2P Require Import Prelude Endian SipStr SipMsg SipScan.

Module SipName.
Import SipStr SipMsg SipScan.

(** Equality of two texts as the parser sees it. *)
Definition ci_eq (a b : list Z) : bool := bool_decide (sip_lc <$> a = sip_lc <$> b).

Definition hdr_ids : list Z := map Z.of_nat (seq 1 56).
(** The first header of a list of ids whose name it is. *)
Fixpoint first_name (ids : list Z) (name : list Z) : Z :=
  match ids with
  | [] => SIP_H_OTHER
  | id :: ids => if ci_eq name (hdr_txt id) then id else first_name ids name
  end.
(** The compact forms of RFC 3261 and its extensions. *)
Definition compact_forms : list (string * string) := [
  ("b", "Referred-By"); ("c", "Content-Type"); ("e", "Content-Encoding"); ("f", "From"); ("i", "Call-ID");
  ("k", "Supported"); ("l", "Content-Length"); ("m", "Contact"); ("o", "Event"); ("r", "Refer-To"); ("s", "Subject");
  ("t", "To"); ("u", "Allow-Events"); ("v", "Via"); ("x", "Session-Expires") ]%string.
(** A plain search: compact forms stand for the long names, everything else is compared with
    every name of the table. *)
Fixpoint expand (forms : list (string * string)) (name : list Z) : list Z :=
  match forms with
  | [] => name
  | (c, long) :: forms => if ci_eq name (txt c) then txt long else expand forms name
  end.
Definition hdr_ref (name : list Z) : Z := first_name hdr_ids (expand compact_forms name).

(** *** Buckets *)

Definition first_lc (t : list Z) : Z := match t with c :: _ => sip_lc c | [] => 0 end.
Lemma ci_eq_first a b : ci_eq a b = true → first_lc a = first_lc b ∧ mlen a = mlen b.
Proof.
  unfold ci_eq. intros H%bool_decide_eq_true. split.
  - destruct a, b; try done. by injection H.
  - apply (f_equal length) in H. rewrite !length_fmap in H. unfold mlen. lia.
Qed.
Lemma first_name_filter f ids name : (∀ id, id ∈ ids → f id = false → ci_eq name (hdr_txt id) = false) →
  first_name ids name = first_name (List.filter f ids) name.
Proof.
  induction ids as [|id ids IH]; intros H; [done|]. cbn [first_name List.filter].
  assert (IH' : first_name ids name = first_name (List.filter f ids) name) by (apply IH; intros; apply H; [by right|done]).
  destruct (f id) eqn:Ef; cbn [first_name]; rewrite IH'; [done|]. rewrite H; [done|left|done].
Qed.

Definition id_range (lo hi : Z) : list Z := if lo =? 0 then [] else map Z.of_nat (seq (Z.to_nat lo) (Z.to_nat (hi - lo + 1))).
Definition bucket (c : Z) : Z * Z := if is_lower c then nth (Z.to_nat (c - 97)) k_hdr_bucket (0, 0) else (0, 0).
(** The bucket of a letter is the ids whose name starts with it. *)
Lemma bucket_ids c : 0 <= c < 256 →
  List.filter (λ id, first_lc (hdr_txt id) =? c) hdr_ids = id_range (bucket c).1 (bucket c).2.
Proof. apply (byte_prop (λ c, List.filter (λ id, first_lc (hdr_txt id) =? c) hdr_ids = id_range (bucket c).1 (bucket c).2)). vm_compute. done. Qed.

Lemma first_name_bucket name c : first_lc name = c → 0 <= c < 256 →
  first_name hdr_ids name = first_name (id_range (bucket c).1 (bucket c).2) name.
Proof.
  intros Hc Hr. rewrite <-bucket_ids by done. apply first_name_filter. intros id _ Hf.
  destruct (ci_eq name (hdr_txt id)) eqn:E; [|done]. apply ci_eq_first in E as [E _].
  rewrite <-E, Hc, Z.eqb_refl in Hf. done.
Qed.
Lemma first_name_none ids name : (∀ id, id ∈ ids → ci_eq name (hdr_txt id) = false) → first_name ids name = SIP_H_OTHER.
Proof.
  induction ids as [|id ids IH]; intros H; [done|]. cbn [first_name]. rewrite H by left. apply IH. intros. apply H. by right.
Qed.
Lemma hdr_len_max id : id ∈ hdr_ids → 2 <= mlen (hdr_txt id) <= 20.
Proof.
  intros H. assert (F : Forall (λ id, 2 <= mlen (hdr_txt id) <= 20) hdr_ids); [|by eapply Forall_forall in F].
  apply (bool_decide_unpack _). vm_compute. exact I.
Qed.

Lemma bucket_loop_spec m p len name : name = slice m p len → 0 <= p → 0 <= len → p + len <= mlen m →
  ∀ fuel id hi, 1 <= id → hi <= 56 → Z.max 0 (hi - id + 1) < Z.of_nat fuel →
  bucket_loop fuel m p len id hi = Ok (first_name (map Z.of_nat (seq (Z.to_nat id) (Z.to_nat (hi - id + 1)))) name).
Proof.
  intros Hn Hp Hl Hm. induction fuel as [|fuel IH]; intros id hi Hid Hhi Hf; [lia|]. cbn [bucket_loop].
  rewrite (proj2 (Z.eqb_neq id 0)) by lia. cbn [orb]. destruct (Z.ltb_spec hi id) as [Hlt|Hge].
  { by replace (Z.to_nat (hi - id + 1)) with 0%nat by lia. }
  replace (Z.to_nat (hi - id + 1)) with (S (Z.to_nat (hi - (id + 1) + 1))) by lia.
  cbn [seq map first_name]. rewrite Z2Nat.id by lia.
  assert (E : (if mlen (hdr_txt id) =? len then sip_ieq2 m p (hdr_txt id) else Ok false) = Ok (ci_eq name (hdr_txt id))).
  { destruct (Z.eqb_spec (mlen (hdr_txt id)) len) as [El|El].
    - rewrite sip_ieq2_spec by lia. unfold ci_eq. by rewrite El, Hn.
    - destruct (ci_eq name (hdr_txt id)) eqn:Ec; [|done]. apply ci_eq_first in Ec as [_ Ec].
      rewrite Hn, mlen_slice in Ec by lia. lia. }
  rewrite E. bstep. destruct (ci_eq name (hdr_txt id)); [done|]. rewrite (u8_small (id + 1)) by lia.
  rewrite IH by lia. by replace (Z.to_nat (id + 1)) with (S (Z.to_nat id)) by lia.
Qed.

Lemma lc_range c : 0 <= c < 256 → 0 <= sip_lc c < 256.
Proof. intros. unfold sip_lc. byte_decide c. Qed.
Lemma expand_long forms name : (∀ c l, (c, l) ∈ forms → mlen (txt c) = 1) → mlen name ≠ 1 → expand forms name = name.
Proof.
  intros Hf Hn. induction forms as [|[c l] forms IH]; [done|]. cbn [expand].
  destruct (ci_eq name (txt c)) eqn:E.
  - apply ci_eq_first in E as [_ E]. rewrite (Hf c l) in E by left. lia.
  - apply IH. intros. eapply Hf. by right.
Qed.
Lemma compact_len c l : (c, l) ∈ compact_forms → mlen (txt c) = 1.
Proof.
  intros H. assert (F : Forall (λ cl, mlen (txt cl.1) = 1) compact_forms) by
    (apply (bool_decide_unpack _); vm_compute; exact I).
  by eapply Forall_forall in F; [|exact H].
Qed.
Lemma compact_ref b : 0 <= b < 256 →
  (if is_lower (sip_lc b) then nth (Z.to_nat (sip_lc b - 97)) k_hdr_compact 0 else SIP_H_OTHER) = hdr_ref [b].
Proof. intros. byte_decide b. Qed.

Lemma sip_hdr_from_eq m p len : bytes_ok m → 0 <= p → 0 <= len → p + len <= mlen m →
  sip_hdr_from m p len = Ok (hdr_ref (slice m p len)).
Proof.
  intros Hb Hp Hl Hm. unfold sip_hdr_from. destruct (Z.eqb_spec len 1) as [->|H1].
  { rewrite (rd_Ok m p) by lia. bstep. rewrite get_via_slice by lia. f_equal. apply compact_ref, get_range, Hb. }
  assert (Le : mlen (slice m p len) = len) by (apply mlen_slice; lia).
  unfold hdr_ref. rewrite expand_long by (apply compact_len || lia).
  destruct (Z.ltb_spec len 2) as [H2|H2]; cbn [orb].
  { f_equal. symmetry. apply first_name_none. intros id Hid. destruct (ci_eq _ _) eqn:E; [|done].
    apply ci_eq_first in E as [_ E]. pose proof (hdr_len_max id Hid). lia. }
  destruct (Z.ltb_spec 20 len) as [H3|H3].
  { f_equal. symmetry. apply first_name_none. intros id Hid. destruct (ci_eq _ _) eqn:E; [|done].
    apply ci_eq_first in E as [_ E]. pose proof (hdr_len_max id Hid). lia. }
  rewrite (rd_Ok m p) by lia. bstep. pose proof (lc_range (get m p) (get_range m p Hb)) as Hc.
  rewrite (first_name_bucket _ (sip_lc (get m p))); [|by rewrite slice_cons by lia|done].
  unfold bucket. destruct (is_lower (sip_lc (get m p))) eqn:El; cbn [negb]; [|done].
  assert (Hbk : Forall (λ b : Z * Z, b = (0, 0) ∨ 1 <= b.1 ∧ b.1 <= b.2 <= 56) k_hdr_bucket) by
    (apply (bool_decide_unpack _); vm_compute; exact I).
  assert (Hn : ∀ i, nth i k_hdr_bucket (0, 0) = (0, 0) ∨ 1 <= (nth i k_hdr_bucket (0, 0)).1 ∧
    (nth i k_hdr_bucket (0, 0)).1 <= (nth i k_hdr_bucket (0, 0)).2 <= 56).
  { intros i. destruct (nth_in_or_default i k_hdr_bucket (0, 0)) as [Hi|Hi]; [|by left].
    apply list_elem_of_In in Hi. by eapply Forall_forall in Hbk. }
  specialize (Hn (Z.to_nat (sip_lc (get m p) - 97))). destruct (nth _ k_hdr_bucket (0, 0)) as [lo hi]. cbn [fst snd] in *.
  destruct Hn as [[= -> ->]|[Hlo Hhi]]; [done|].
  rewrite (bucket_loop_spec m p len (slice m p len)) by (done || lia). unfold id_range. by rewrite (proj2 (Z.eqb_neq lo 0)) by lia.
Qed.

(** *** Methods *)

Definition method_ids : list Z := map Z.of_nat (seq 1 14).
Fixpoint first_method (ids : list Z) (name : list Z) : Z :=
  match ids with
  | [] => SIP_M_UNKNOWN
  | id :: ids => if bool_decide (name = sip_method_name id) then id else first_method ids name
  end.
Definition method_ref (name : list Z) : Z := first_method method_ids name.

(** The comparisons of a length are those of the names of that length, in another order. *)
Definition cases_ok (len : Z) : bool :=
  forallb (λ c : string * Z, bool_decide (c.2 ∈ method_ids) && bool_decide (txt c.1 = sip_method_name c.2)) (method_cases len) &&
  forallb (λ id, negb (mlen (sip_method_name id) =? len) || existsb (λ c : string * Z, c.2 =? id) (method_cases len)) method_ids.
Lemma method_loop_ref cases name :
  Forall (λ c : string * Z, c.2 ∈ method_ids ∧ txt c.1 = sip_method_name c.2) cases →
  (∀ id, id ∈ method_ids → name = sip_method_name id → ∃ s, (s, id) ∈ cases) →
  method_loop cases name = method_ref name.
Proof.
  assert (Hinj : ∀ id id', id ∈ method_ids → id' ∈ method_ids → sip_method_name id = sip_method_name id' → id = id').
  { assert (F : Forall (λ id, Forall (λ id', sip_method_name id = sip_method_name id' → id = id') method_ids) method_ids)
      by (apply (bool_decide_unpack _); vm_compute; exact I).
    intros id id' Hi Hi' E. eapply Forall_forall in F; [|exact Hi]. eapply Forall_forall in F; [|exact Hi']. by apply F. }
  assert (Hr : (∃ id, id ∈ method_ids ∧ name = sip_method_name id ∧ method_ref name = id) ∨
    (∀ id, id ∈ method_ids → name ≠ sip_method_name id) ∧ method_ref name = SIP_M_UNKNOWN).
  { unfold method_ref. generalize method_ids. intros ids. induction ids as [|id ids IH].
    - right. split; [|done]. intros id Hi. by apply elem_of_nil in Hi.
    - cbn [first_method]. destruct (bool_decide (name = sip_method_name id)) eqn:E.
      + apply bool_decide_eq_true in E. left. exists id. split; [left|done].
      + apply bool_decide_eq_false in E. destruct IH as [(i & Hi & Hn & Hm)|[Hn Hm]].
        * left. exists i. split; [by right|done].
        * right. split; [|done]. intros i Hi. apply elem_of_cons in Hi as [->|Hi]; [done|by apply Hn]. }
  intros Hc Hall. destruct Hr as [(id & Hid & Hn & ->)|[Hno ->]].
  - destruct (Hall id Hid Hn) as [s Hs]. clear Hall. induction Hc as [|[t i] cases [Hi Ht] Hc IH]; [by apply elem_of_nil in Hs|].
    cbn [method_loop fst snd] in *. destruct (bool_decide (name = txt t)) eqn:E.
    + apply bool_decide_eq_true in E. apply Hinj; [done|done|congruence].
    + apply bool_decide_eq_false in E. apply elem_of_cons in Hs as [[= -> ->]|Hs]; [|by apply IH]. by rewrite Ht in E.
  - clear Hall. induction Hc as [|[t i] cases [Hi Ht] Hc IH]; [done|]. cbn [method_loop fst snd] in *.
    rewrite bool_decide_eq_false_2; [done|]. rewrite Ht. by apply Hno.
Qed.
Lemma method_cases_ok len : len <> 0 → cases_ok len = true.
Proof.
  intros. unfold cases_ok, method_cases.
  repeat match goal with |- context [?l =? ?k] => is_var l; destruct (Z.eqb_spec l k) as [->|]; [by vm_compute|] end.
  cbn [forallb andb]. apply forallb_forall. intros id Hid. apply orb_true_iff. left. apply negb_true_iff, Z.eqb_neq.
  apply list_elem_of_In in Hid.
  assert (F : Forall (λ id, 3 <= mlen (sip_method_name id) <= 9) method_ids) by (apply (bool_decide_unpack _); vm_compute; exact I).
  eapply Forall_forall in F; [|exact Hid]. lia.
Qed.
Lemma sip_method_from_eq m p len : 0 <= p → 0 <= len → p + len <= mlen m →
  sip_method_from m p len = Ok (method_ref (slice m p len)).
Proof.
  intros Hp Hl Hm. destruct (Z.eq_dec len 0) as [->|Hn]; [by rewrite slice_0|].
  assert (E : method_loop (method_cases len) (slice m p len) = method_ref (slice m p len)).
  { pose proof (method_cases_ok len Hn) as H. unfold cases_ok in H. apply andb_true_iff in H as [H1 H2].
    rewrite forallb_forall in H1, H2. apply method_loop_ref.
    - apply Forall_forall. intros c Hc. apply list_elem_of_In, H1 in Hc. apply andb_true_iff in Hc as [Hc1 Hc2].
      split; by eapply bool_decide_eq_true.
    - intros id Hid En. apply list_elem_of_In, H2 in Hid. apply orb_true_iff in Hid as [Hid|Hid].
      + apply negb_true_iff, Z.eqb_neq in Hid. rewrite <-En, mlen_slice in Hid by lia. lia.
      + apply existsb_exists in Hid as ([s i] & Hi & Ei). apply Z.eqb_eq in Ei. cbn in Ei. subst i. exists s. by apply list_elem_of_In. }
  unfold sip_method_from. destruct (method_cases len) as [|c cs] eqn:Ec; [by rewrite <-E|].
  rewrite rdn_Ok by lia. bstep. by rewrite E.
Qed.

(** *** Names in any case *)

Lemma ci_eq_l a b c : ci_eq a b = true → ci_eq a c = ci_eq b c.
Proof. unfold ci_eq. intros H%bool_decide_eq_true. by rewrite H. Qed.
Lemma hdr_ref_ci a b : ci_eq a b = true → hdr_ref a = hdr_ref b.
Proof.
  intros H. unfold hdr_ref.
  assert (He : expand compact_forms a = expand compact_forms b ∨ expand compact_forms a = a ∧ expand compact_forms b = b).
  { generalize compact_forms. intros forms. induction forms as [|[c l] forms IH]; [by right|]. cbn [expand].
    rewrite (ci_eq_l a b (txt c) H). destruct (ci_eq b (txt c)); [by left|done]. }
  destruct He as [->|[-> ->]]; [done|]. generalize hdr_ids. intros ids. induction ids as [|id ids IH]; [done|].
  cbn [first_name]. rewrite (ci_eq_l a b _ H). by rewrite IH.
Qed.
Lemma hdr_ref_name id : 1 <= id <= 56 → hdr_ref (sip_hdr_name id) = id.
Proof.
  intros H. assert (F : Forall (λ id, hdr_ref (sip_hdr_name id) = id) hdr_ids) by (apply (bool_decide_unpack _); vm_compute; exact I).
  eapply Forall_forall in F; [exact F|]. apply list_elem_of_In, in_map_iff. exists (Z.to_nat id). split; [lia|]. apply in_seq. lia.
Qed.
Lemma method_ref_name id : 1 <= id <= 14 → method_ref (sip_method_name id) = id.
Proof.
  intros H. assert (F : Forall (λ id, method_ref (sip_method_name id) = id) method_ids) by (apply (bool_decide_unpack _); vm_compute; exact I).
  eapply Forall_forall in F; [exact F|]. apply list_elem_of_In, in_map_iff. exists (Z.to_nat id). split; [lia|]. apply in_seq. lia.
Qed.

(** The fast lookups are plain searches.  [sip_hdr_from], which walks the bucket of a first
    letter, answers what comparing the name, compact forms expanded, with every name of the
    table would, and [sip_method_from], which switches on the length, what comparing with
    every method would; the names of the tables, headers in any case, lead back to their
    numbers. *)
Theorem sip_names_exact m p len : bytes_ok m → 0 <= p → 0 <= len → p + len <= mlen m →
  sip_hdr_from m p len = Ok (hdr_ref (slice m p len)) ∧
  sip_method_from m p len = Ok (method_ref (slice m p len)) ∧
  (∀ id, 1 <= id < SIP_H_MAX → ci_eq (slice m p len) (sip_hdr_name id) = true → sip_hdr_from m p len = Ok id) ∧
  (∀ id, 1 <= id < SIP_M_MAX → slice m p len = sip_method_name id → sip_method_from m p len = Ok id).
Proof.
  intros Hb Hp Hl Hm. rewrite sip_hdr_from_eq, sip_method_from_eq by done. split_and!; [done|done|..].
  - intros id Hid Hc. unfold SIP_H_MAX in Hid. by rewrite (hdr_ref_ci _ _ Hc), hdr_ref_name by lia.
  - intros id Hid ->. unfold SIP_M_MAX in Hid. by rewrite method_ref_name by lia.
Qed.
Lemma sip_names_exact_witness : sip_hdr_from (txt "cALL-id") 0 7 = Ok 9.
Proof.
  apply (sip_names_exact (txt "cALL-id") 0 7); [by apply (bool_decide_unpack _); vm_compute|done|done|done|done|by vm_compute].
Defined.

(** The lower-casing of the comparison also folds octets that are no letters: a carriage
    return inside a name passes for the hyphen. *)
Theorem sip_name_confusion : sip_hdr_from (txt "Call" ++ [13] ++ txt "ID") 0 7 = Ok 9.
Proof. vm_compute. reflexivity. Qed.
End SipName.
