(* ===== verification/SipParse.v ===== *)
(** * SipParse: the message parser on any input

    [sip_msg_parse] never leaves the buffer, always ends, and yields slices within the octets
    it consumed. *)

From stdpp Require Import strings.
From S2P Require Import Prelude Endian SipStr SipMsg SipScan SipName.

Module SipParse.
Import SipStr SipMsg SipScan SipName.

(** A slice within the first [n] octets from [lo] on. *)
Definition str_in (lo n : Z) (s : sip_str) : Prop :=
  match s_p s with None => s_len s = 0 | Some p => lo <= p ∧ 0 <= s_len s ∧ p + s_len s <= n end.
Lemma sub_str_in lo p e n : lo <= p <= e → e <= n → n - lo <= INT_MAX → str_in lo n (sub_str p e).
Proof. intros. unfold INT_MAX in *. unfold str_in, sub_str. cbn [s_p s_len]. rewrite u32_small by lia. lia. Qed.
Lemma str_in_mono lo n n' s : n <= n' → str_in lo n s → str_in lo n' s.
Proof. unfold str_in. destruct (s_p s); [lia|done]. Qed.

Lemma line_end_spec m p e : 0 <= p <= e → e <= mlen m →
  ∃ r, line_end m p e = Ok r ∧
    match r with
    | None => ∀ i, p <= i < e → get m i ≠ 10
    | Some (eol, nl) => p <= eol < nl ∧ nl <= e ∧ get m (nl - 1) = 10 ∧ (∀ i, p <= i < nl - 1 → get m i ≠ 10) ∧
        (eol = nl - 1 ∧ (p < eol → get m (eol - 1) ≠ 13) ∨ eol = nl - 2 ∧ get m eol = 13)
    end.
Proof.
  intros Hp He. unfold line_end. destruct (memchr_spec m p 10 (e - p)) as (r & -> & Hr); [lia..|]. bstep.
  destruct r as [nl|].
  2:{ eexists. split; [done|]. intros i Hi. apply Hr. lia. }
  destruct Hr as (Hq & Hnl & Hb). destruct (Z.ltb_spec p nl) as [Hlt|].
  - rewrite (rd_Ok m (nl - 1)) by lia. bstep. eexists. split; [done|]. assert (En : nl + 1 - 1 = nl) by lia.
    destruct (Z.eqb_spec (get m (nl - 1)) 13) as [E|E]; rewrite En; split_and!; try lia; try done.
  - bstep. eexists. split; [done|]. cbv iota. assert (En : nl + 1 - 1 = nl) by lia. rewrite En. split_and!; try lia; done.
Qed.

Lemma unfold_lines_spec m e : e <= mlen m → ∀ fuel eol nl, 0 <= eol < nl → nl <= e → e - nl < Z.of_nat fuel →
  ∃ r, unfold_lines fuel m eol nl e = Ok r ∧
    match r with None => True | Some (eol', nl') => eol <= eol' < nl' ∧ nl <= nl' <= e end.
Proof.
  intros He. induction fuel as [|fuel IH]; intros eol nl Hn Hl Hf; [lia|]. cbn [unfold_lines].
  assert (E : ∃ ws, (if nl <? e then b ← rd m nl; Ok (sip_is_ws b) else Ok false) = Ok ws ∧ (ws = true → nl < e)).
  { destruct (Z.ltb_spec nl e); [|by exists false]. rewrite (rd_Ok m nl) by lia. bstep. eexists. split; [done|]. done. }
  destruct E as (ws & -> & Hws). bstep. destruct ws; cbn [negb]; [|eexists; split; [done|cbn; lia]].
  destruct (line_end_spec m nl e) as (r & -> & Hr); [lia..|]. bstep. destruct r as [[eol2 nl2]|]; [|by eexists].
  destruct (IH eol2 nl2) as (r & -> & Hr'); [lia..|]. eexists. split; [done|]. destruct r as [[a b]|]; [lia|done].
Qed.

Definition start_in (lo n : Z) (s : start_line) : Prop :=
  match s with
  | Request m name uri => 0 <= m < SIP_M_MAX ∧ str_in lo n name ∧ s_len name > 0 ∧ str_in lo n uri ∧ s_len uri > 0
  | Status code reason => 100 <= code <= 999 ∧ str_in lo n reason
  end.

Lemma method_ref_range name : 0 <= method_ref name < SIP_M_MAX.
Proof.
  unfold method_ref. assert (H : ∀ ids, Forall (λ id, 0 <= id < SIP_M_MAX) ids → 0 <= first_method ids name < SIP_M_MAX).
  { induction 1; cbn [first_method]; [done|]. by destruct (bool_decide _). }
  apply H. apply (bool_decide_unpack _). vm_compute. exact I.
Qed.

Lemma status_code_spec m q eol : 0 <= q → eol <= mlen m →
  ∃ r, status_code m q eol = Ok r ∧ match r with None => True | Some c => 100 <= c <= 999 ∧ q + 3 <= eol end.
Proof.
  intros Hq He. unfold status_code. destruct (Z.ltb_spec (eol - q) 3); [by eexists|].
  rewrite (rd_Ok m q), (rd_Ok m (q + 1)), (rd_Ok m (q + 2)) by lia. bstep.
  destruct (sip_is_digit (get m q)) eqn:H1; cbn [negb]; [|by eexists].
  destruct (sip_is_digit (get m (q + 1))) eqn:H2; cbn [negb]; [|by eexists].
  destruct (sip_is_digit (get m (q + 2))) eqn:H3; cbn [negb]; [|by eexists].
  eexists. split; [done|]. destruct (Z.ltb_spec ((get m q - 48) * 100 + (get m (q + 1) - 48) * 10 + (get m (q + 2) - 48)) 100); [done|].
  apply digit_range in H1, H2, H3. lia.
Qed.

Lemma parse_start_line_spec m p eol lo : lo = p → 0 <= p <= eol → eol <= mlen m → eol - p <= INT_MAX →
  ∃ r, parse_start_line m p eol = Ok r ∧
    match r with inl rc => rc = SIP_E_LINE ∨ rc = SIP_E_VERSION | inr s => start_in lo eol s end.
Proof.
  intros -> Hp He Hi. unfold parse_start_line. cbv zeta.
  assert (E : ∃ st, (if 8 <=? eol - p then sip_ieq m p SIP20_SP else Ok false) = Ok st ∧ (st = true → p + 8 <= eol)).
  { destruct (Z.leb_spec 8 (eol - p)); [|by exists false]. rewrite sip_ieq_spec by (change (mlen SIP20_SP) with 8; lia).
    eexists. split; [done|]. lia. }
  destruct E as (st & -> & Hst). bstep. destruct st.
  - specialize (Hst eq_refl). destruct (status_code_spec m (p + 8) eol) as (c & -> & Hc); [lia..|]. bstep.
    destruct c as [c|]; [|eexists; split; [done|by left]]. destruct (Z.ltb_spec (p + 8 + 3) eol).
    + rewrite (rd_Ok m (p + 8 + 3)) by lia. bstep. destruct (negb _); [eexists; split; [done|by left]|].
      eexists. split; [done|]. split; [lia|]. apply sub_str_in; lia.
    + eexists. split; [done|]. split; [lia|]. apply sub_str_in; lia.
  - destruct (memchr_spec m p 32 (eol - p)) as (r & -> & Hr); [lia..|]. bstep.
    destruct r as [sp1|]; [|eexists; split; [done|by left]]. destruct (Z.eqb_spec sp1 p); [eexists; split; [done|by left]|].
    destruct (memchr_spec m (sp1 + 1) 32 (eol - sp1 - 1)) as (r & -> & Hr2); [lia..|]. bstep.
    destruct r as [sp2|]; [|eexists; split; [done|by left]]. destruct (Z.eqb_spec sp2 (sp1 + 1)); [eexists; split; [done|by left]|].
    assert (E : ∃ v, (if eol - sp2 - 1 =? 7 then sip_ieq m (sp2 + 1) SIP20 else Ok false) = Ok v).
    { destruct (Z.eqb_spec (eol - sp2 - 1) 7); [|by exists false]. rewrite sip_ieq_spec by (change (mlen SIP20) with 7; lia). by eexists. }
    destruct E as (v & ->). bstep. destruct v; cbn [negb]; [|eexists; split; [done|by right]].
    rewrite sip_method_from_eq by lia. bstep. eexists. split; [done|]. unfold INT_MAX in *. split_and!; try apply method_ref_range.
    all: try (apply sub_str_in; unfold INT_MAX; lia). all: unfold sub_str; cbn [s_len]; rewrite u32_small by lia; lia.
Qed.

Definition hdr_in (lo n : Z) (h : sip_hdr_view) : Prop :=
  0 <= h_id h < SIP_H_MAX ∧ str_in lo n (h_name h) ∧ s_len (h_name h) > 0 ∧ str_in lo n (h_value h).

Lemma hdr_ref_range name : 0 <= hdr_ref name < SIP_H_MAX.
Proof.
  unfold hdr_ref. generalize (expand compact_forms name). intros t.
  assert (H : ∀ ids, Forall (λ id, 0 <= id < SIP_H_MAX) ids → 0 <= first_name ids t < SIP_H_MAX).
  { induction 1; cbn [first_name]; [done|]. by destruct (ci_eq _ _). }
  apply H. apply (bool_decide_unpack _). vm_compute. exact I.
Qed.
Lemma u32_text_range bs n : u32_text bs = Some n → 0 <= n <= UINT32_MAX.
Proof.
  unfold u32_text. destruct (_ && _) eqn:E; [|done]. apply andb_true_iff in E as [E El]. apply andb_true_iff in E as [_ Ed].
  intros [= <-]. apply Z.leb_le in El. split; [|done]. unfold dec_val.
  assert (H : ∀ v, 0 <= v → 0 <= foldl (λ v b, v * 10 + (b - 48)) v bs); [|by apply H].
  clear El. induction bs as [|b bs IH]; intros v Hv; cbn [foldl forallb] in *; [done|]. apply andb_true_iff in Ed as [Eb Ed].
  apply digit_range in Eb. apply IH; [done|lia].
Qed.

Lemma parse_field_spec m p eol count clen lo : bytes_ok m → lo <= p → 0 <= p <= eol → eol <= mlen m → eol - lo <= INT_MAX →
  ∃ r, parse_field m p eol count clen = Ok r ∧
    match r with
    | inl rc => rc = SIP_E_HEADER ∨ rc = SIP_E_HEADERS
    | inr (h, clen') => hdr_in lo eol h ∧ count < SIP_MAX_HDRS ∧
        (clen' = clen ∨ ∃ n, clen' = Some n ∧ 0 <= n <= UINT32_MAX)
    end.
Proof.
  intros Hb Hlo Hp He Hi. unfold parse_field. destruct (memchr_spec m p 58 (eol - p)) as (r & -> & Hr); [lia..|]. bstep.
  destruct r as [colon|]; [|eexists; split; [done|by left]].
  destruct (trim_spec sip_is_ws m p colon) as (ne & -> & Hne & _); [lia..|]. bstep.
  destruct (Z.eqb_spec ne p); [eexists; split; [done|by left]|].
  destruct (skip_spec sip_is_ws m (colon + 1) eol) as (v & -> & Hv & _); [lia..|]. bstep.
  destruct (trim_spec sip_is_ws m v eol) as (ve & -> & Hve & _); [lia..|]. bstep.
  destruct (Z.leb_spec SIP_MAX_HDRS count); [eexists; split; [done|by right]|].
  rewrite sip_hdr_from_eq by (done || lia). bstep.
  assert (Hh : hdr_in lo eol (Hdr (hdr_ref (slice m p (ne - p))) (sub_str p ne) (sub_str v ve))).
  { split; [apply hdr_ref_range|]. cbn [h_name h_value]. split; [apply sub_str_in; lia|]. split; [|apply sub_str_in; lia].
    unfold sub_str. cbn [s_len]. unfold INT_MAX in *. rewrite u32_small by lia. lia. }
  destruct (_ =? SIP_H_CONTENT_LENGTH).
  - rewrite sip_parse_u32_spec by lia. bstep. destruct (u32_text _) as [n'|] eqn:En; [|eexists; split; [done|by left]].
    eexists. split; [done|]. split; [done|]. split; [done|]. right. eauto using u32_text_range.
  - eexists. split; [done|]. split; [done|]. split; [done|]. by left.
Qed.

Lemma hdr_in_mono lo n n' h : n <= n' → hdr_in lo n h → hdr_in lo n' h.
Proof. intros Hn (H1 & H2 & H3 & H4). split_and!; try apply H1; try done; by apply (str_in_mono lo n). Qed.

Definition clen_ok (clen : option Z) : Prop := match clen with None => True | Some n => 0 <= n <= UINT32_MAX end.
Lemma parse_headers_spec m e lo : bytes_ok m → e <= mlen m → e - lo <= INT_MAX → ∀ fuel p hdrs clen,
  0 <= lo <= p → p <= e → e - p < Z.of_nat fuel →
  Forall (hdr_in lo p) hdrs → Z.of_nat (length hdrs) <= SIP_MAX_HDRS → clen_ok clen →
  ∃ r, parse_headers fuel m p e hdrs clen = Ok r ∧
    match r with
    | inl rc => rc = SIP_E_SHORT ∨ rc = SIP_E_HEADER ∨ rc = SIP_E_HEADERS
    | inr (hs, clen, off) => Forall (hdr_in lo off) hs ∧ Z.of_nat (length hs) <= SIP_MAX_HDRS ∧ clen_ok clen ∧ p < off <= e
    end.
Proof.
  intros Hb He Hi. induction fuel as [|fuel IH]; intros p hdrs clen Hlo Hp Hf Hh Hc Hl; [lia|]. cbn [parse_headers].
  destruct (line_end_spec m p e) as (r & -> & Hr); [lia..|]. bstep.
  destruct r as [[eol nl]|]; [|eexists; split; [done|by left]]. destruct (Z.eqb_spec eol p) as [->|Hne].
  - eexists. split; [done|]. cbv iota. split; [|split_and!; done || lia]. eapply Forall_impl; [done|]. intros h. apply hdr_in_mono. lia.
  - destruct (unfold_lines_spec m e He fuel eol nl) as (r & -> & Hu); [lia..|]. bstep.
    destruct r as [[eol' nl']|]; [|eexists; split; [done|by left]].
    destruct (parse_field_spec m p eol' (Z.of_nat (length hdrs)) clen lo) as (r & -> & Hpf); [done|lia..|]. bstep.
    destruct r as [rc|[h clen']]; [eexists; split; [done|tauto]|]. destruct Hpf as (Hin & Hcnt & Hcl).
    destruct (IH nl' (hdrs ++ [h]) clen') as (r & -> & Hr'); [lia..| | | |].
    + apply Forall_app. split; [|constructor; [|constructor]].
      * eapply Forall_impl; [exact Hh|]. intros h'. apply hdr_in_mono. lia.
      * eapply hdr_in_mono; [|exact Hin]. lia.
    + rewrite length_app. cbn. unfold SIP_MAX_HDRS in *. lia.
    + destruct Hcl as [->|(n & -> & Hn)]; done.
    + eexists. split; [done|]. destruct r as [rc|[[hs c] off]]; [done|]. destruct Hr' as (? & ? & ? & ?). split_and!; done || lia.
Qed.

(** A message within the octets it was parsed from. *)
Definition msg_in (lo n : Z) (msg : sip_msg) : Prop :=
  start_in lo n (m_start msg) ∧ Forall (hdr_in lo n) (m_hdrs msg) ∧ Z.of_nat (length (m_hdrs msg)) <= SIP_MAX_HDRS ∧
  str_in lo n (m_body msg) ∧ (∃ p, s_p (m_body msg) = Some p ∧ p + s_len (m_body msg) = n) ∧
  match m_clen msg with None => True | Some c => s_len (m_body msg) = c end.
Definition parse_errors : list Z := [SIP_E_SHORT; SIP_E_LINE; SIP_E_VERSION; SIP_E_HEADER; SIP_E_HEADERS; SIP_E_INVAL].

Lemma start_in_mono lo n n' s : n <= n' → start_in lo n s → start_in lo n' s.
Proof.
  intros Hn. destruct s; cbn; intros H; decompose [and] H; split_and!; try done; try lia; by apply (str_in_mono lo n).
Qed.

(** C19: parsing any octets as a SIP message reads nothing past them and ends.  The outcome is a
    documented error, or a message and the octets consumed: a known or unknown method with a
    token and a Request-URI, or a status of three digits; at most [SIP_MAX_HDRS] fields, each
    with a name; every slice, the body last, within the consumed octets, and the body as long
    as Content-Length says. *)
Theorem sip_msg_parse_safe m len : bytes_ok m → 0 <= len <= mlen m →
  ∃ r, sip_msg_parse true (Some m) len = Ok r ∧
    match r with
    | inl rc => rc ∈ parse_errors
    | inr (msg, n) => 0 < n <= len ∧ msg_in 0 n msg
    end.
Proof.
  intros Hb Hl. unfold sip_msg_parse. cbn [negb orb]. destruct (Z.ltb_spec INT_MAX len) as [|Hi].
  { eexists. split; [done|]. cbv iota. apply (bool_decide_unpack _). vm_compute. exact I. }
  assert (He : ∀ rc, rc ∈ parse_errors → ∃ r : Z + sip_msg * Z, Ok (inl rc) = Ok r ∧
    match r with inl rc => rc ∈ parse_errors | inr (msg, n) => 0 < n <= len ∧ msg_in 0 n msg end) by (intros; eauto).
  destruct (skip_spec is_eol m 0 len) as (p & -> & Hp & _); [lia..|]. bstep.
  destruct (line_end_spec m p len) as (r & -> & Hr); [lia..|]. bstep.
  destruct r as [[eol nl]|]; [|apply He; by left].
  destruct (parse_start_line_spec m p eol p) as (r & -> & Hs); [done|lia..|]. bstep.
  destruct r as [rc|s].
  { apply He. destruct Hs as [->| ->]; apply (bool_decide_unpack _); vm_compute; exact I. }
  destruct (parse_headers_spec m len 0 Hb (proj2 Hl) ltac:(lia) (Z.to_nat len + 1) nl [] None) as (r & -> & Hh);
    [lia..|done|done|done|]. bstep.
  destruct r as [rc|[[hs clen] off]].
  { apply He. destruct Hh as [->|[->| ->]]; apply (bool_decide_unpack _); vm_compute; exact I. }
  destruct Hh as (Hhs & Hcnt & Hc & Hoff).
  assert (Hst : ∀ n, eol <= n → start_in 0 n s).
  { intros n Hn. apply (start_in_mono 0 eol); [done|]. destruct s; cbn in Hs |- *; unfold str_in in *;
      repeat match goal with |- context [s_p ?x] => destruct (s_p x) end; lia. }
  destruct clen as [n|].
  - destruct (Z.ltb_spec (len - off) n); [apply He; by left|]. cbn in Hc. eexists. split; [done|]. cbv iota. split; [lia|].
    unfold msg_in. cbn [m_start m_hdrs m_body m_clen s_p s_len]. split_and!; try lia; [apply Hst; lia|..].
    + eapply Forall_impl; [exact Hhs|]. intros h. apply hdr_in_mono. lia.
    + unfold str_in. cbn. lia.
    + exists off. done.
  - eexists. split; [done|]. cbv iota. split; [lia|]. unfold msg_in. cbn [m_start m_hdrs m_body m_clen].
    split_and!; try lia; [apply Hst; lia|..].
    + eapply Forall_impl; [exact Hhs|]. intros h. apply hdr_in_mono. lia.
    + apply sub_str_in; lia.
    + exists off. unfold sub_str. cbn [s_p s_len]. unfold INT_MAX in Hi. rewrite u32_small by lia. split; [done|lia].
Qed.
Definition ex_bye : list Z := txt "BYE sip:a SIP/2.0" ++ [13; 10] ++ txt "v: 1" ++ [13; 10; 13; 10].
Lemma sip_msg_parse_safe_witness :
  ∃ r, sip_msg_parse true (Some ex_bye) 27 = Ok r ∧
    match r with inl rc => rc ∈ parse_errors | inr (msg, n) => 0 < n <= 27 ∧ msg_in 0 n msg end.
Proof. apply (sip_msg_parse_safe ex_bye 27); [by apply (bool_decide_unpack _); vm_compute|done]. Defined.

(** The parser takes any three digits from 100 on as a status, beyond the six classes. *)
Theorem sip_status_beyond :
  ∃ r, parse_start_line (txt "SIP/2.0 999 x") 0 13 = Ok (inr (Status 999 r)).
Proof. eexists. vm_compute. reflexivity. Qed.
End SipParse.
