(* ===== verification/SipRound.v ===== *)
(** * SipRound: written messages, parsed and framed

    The calls of SipWrite build the text of an abstract message, or report that it does not
    fit; SipMsg parses that text back to the message, asks for more on every shorter prefix
    of it and leaves what follows it alone. *)

From stdpp Require Import strings.
From S2P Require Import Prelude Endian SipStr SipMsg SipWrite SipScan SipName SipParse.

Module SipRound.
Import SipStr SipMsg SipWrite SipScan SipName SipParse.

(** ** Decimal numbers *)

Lemma u32_digits_spec room : ∀ v acc, 0 <= v < 10 ^ Z.of_nat room → (0 < room)%nat →
  ∃ ds, u32_digits room v acc = Ok (ds ++ acc) ∧ forallb sip_is_digit ds = true ∧ dec_val 0 ds = v ∧
    1 <= mlen ds <= Z.of_nat room.
Proof.
  induction room as [|room IH]; intros v acc Hv Hr; [lia|]. cbn [u32_digits].
  pose proof (Z.div_mod v 10 ltac:(lia)) as Ed. pose proof (Z.mod_pos_bound v 10 ltac:(lia)) as Hm.
  assert (Hd : sip_is_digit (48 + v mod 10) = true) by (unfold sip_is_digit; rewrite andb_true_iff, !Z.leb_le; lia).
  destruct (Z.eqb_spec (v / 10) 0) as [E0|E0].
  - exists [48 + v mod 10]. split_and!; [done|cbn; by rewrite Hd|cbn; lia|mlia|mlia].
  - rewrite Nat2Z.inj_succ, Z.pow_succ_r in Hv by lia. assert (0 <= v / 10) by (apply Z.div_pos; lia).
    destruct room as [|room']; [cbn in Hv; lia|].
    destruct (IH (v / 10) ((48 + v mod 10) :: acc)) as (ds & -> & Hf & Hdv & Hl); [lia|lia|].
    exists (ds ++ [48 + v mod 10]). rewrite <-app_assoc. split_and!; [done|..].
    + rewrite forallb_app, Hf. cbn. by rewrite Hd.
    + unfold dec_val in *. rewrite foldl_app, Hdv. cbn. lia.
    + mlia.
    + mlia.
Qed.
Definition dec (v : Z) : list Z := match u32_digits 10 v [] with Ok ds => ds | _ => [] end.
Lemma dec_spec v : 0 <= v <= UINT32_MAX →
  u32_digits 10 v [] = Ok (dec v) ∧ forallb sip_is_digit (dec v) = true ∧ 1 <= mlen (dec v) <= 10 ∧ u32_text (dec v) = Some v.
Proof.
  intros Hv. destruct (u32_digits_spec 10 v []) as (ds & E & Hf & Hd & Hl); [unfold UINT32_MAX in Hv; lia|lia|].
  rewrite app_nil_r in E. unfold dec. rewrite E. split_and!; try done; try lia. unfold u32_text.
  rewrite (proj2 (Z.leb_le 1 (mlen ds))), (proj2 (Z.leb_le (mlen ds) 10)), Hf, Hd, (proj2 (Z.leb_le v _)) by lia. done.
Qed.

(** ** Abstract messages *)

Inductive start := SReq (method : Z) (uri : list Z) | SStatus (status : Z) (reason : option (list Z)).
Inductive field := FId (id : Z) (val : list Z) | FName (name val : list Z) | FNum (id v : Z).

Definition field_name (f : field) : list Z := match f with FId id _ | FNum id _ => sip_hdr_name id | FName name _ => name end.
Definition field_val (f : field) : list Z := match f with FId _ v | FName _ v => v | FNum _ v => dec v end.
Definition reason_txt (status : Z) (reason : option (list Z)) : list Z :=
  match reason with Some r => r | None => txt (sip_status_phrase status) end.
Definition start_txt (s : start) : list Z :=
  match s with
  | SReq m uri => sip_method_name m ++ [32] ++ uri ++ txt " SIP/2.0"
  | SStatus c r => txt "SIP/2.0 " ++ [48 + c / 100; 48 + c / 10 mod 10; 48 + c mod 10] ++ [32] ++ reason_txt c r
  end.
Definition field_line (f : field) : list Z := field_name f ++ txt ": " ++ field_val f.
Definition fields_txt (fs : list field) : list Z := f ← fs; field_line f ++ CRLF.
Definition clen_field (body : list Z) : field := FNum SIP_H_CONTENT_LENGTH (mlen body).
(** The whole message. *)
Definition head_txt (fs : list field) (body : list Z) : list Z := fields_txt (fs ++ [clen_field body]) ++ CRLF.
Definition msg_txt (s : start) (fs : list field) (body : list Z) : list Z := (start_txt s ++ CRLF) ++ head_txt fs body ++ body.

(** The calls that write it. *)
Definition put_start (w : sip_wbuf) (s : start) : res (sip_wbuf * Z) :=
  match s with
  | SReq m uri => sip_put_request w m (Some uri) (mlen uri)
  | SStatus c r => sip_put_status w c r (match r with Some r => mlen r | None => 0 end)
  end.
Definition put_field (w : sip_wbuf) (f : field) : res (sip_wbuf * Z) :=
  match f with
  | FId id v => sip_put_hdr w id (Some v) (mlen v)
  | FName name v => sip_put_hdr_name w (Some name) (mlen name) (Some v) (mlen v)
  | FNum id v => sip_put_hdr_u32 w id v
  end.
Fixpoint put_fields (w : sip_wbuf) (fs : list field) : res sip_wbuf :=
  match fs with
  | [] => Ok w
  | f :: fs => r ← put_field w f; put_fields (fst r) fs
  end.
Definition write_msg (buf : mem) (cap : Z) (s : start) (fs : list field) (body : list Z) : res (sip_wbuf * Z) :=
  r ← put_start (sip_wbuf_init (Some buf) cap) s;
  w ← put_fields (fst r) fs;
  sip_put_body w (Some body) (mlen body).

(** *** What may be written *)

Definition LF : Z := 10.
Definition no_lf (bs : list Z) : Prop := Forall (λ b, b ≠ LF) bs.
Definition start_ok (s : start) : Prop :=
  match s with
  | SReq m uri => 1 <= m < SIP_M_MAX ∧ uri ≠ [] ∧ no_lf uri ∧ Forall (λ b, b ≠ 32) uri ∧ bytes_ok uri
  | SStatus c r => 100 <= c <= 699 ∧ match r with Some r => no_lf r ∧ bytes_ok r | None => True end
  end.
(** A name is a token: no colon, space, tab or line end. *)
Definition name_ok (n : list Z) : Prop := n ≠ [] ∧ bytes_ok n ∧ Forall (λ b, b ∉ [58; 32; 9; 13; LF]) n.
(** A value is trimmed text of one line. *)
Definition val_ok (v : list Z) : Prop :=
  bytes_ok v ∧ no_lf v ∧ (v ≠ [] → sip_is_ws (get v 0) = false ∧ sip_is_ws (get v (mlen v - 1)) = false).
Definition field_ok (f : field) : Prop :=
  hdr_ref (field_name f) ≠ SIP_H_CONTENT_LENGTH ∧
  match f with
  | FId id v => 1 <= id < SIP_H_MAX ∧ val_ok v
  | FName name v => name_ok name ∧ val_ok v
  | FNum id v => 1 <= id < SIP_H_MAX ∧ 0 <= v <= UINT32_MAX
  end.

(** ** The writer *)

(** The buffer after the texts [bs] were put, or that they do not fit. *)
Definition wrote (buf : mem) (cap : Z) (w : sip_wbuf) (bs : list Z) : Prop :=
  w_cap w = cap ∧
  if w_overflow w then cap < mlen bs
  else mlen bs <= cap ∧ w_off w = mlen bs ∧ w_buf w = Some (splice buf 0 bs).

Section writer.
Context (buf : mem) (cap : Z) (Hcap : 0 <= cap <= INT_MAX) (Hbuf : cap <= mlen buf).

Lemma put_wrote w bs cs : wrote buf cap w bs → ∃ w', put w (Some cs) (mlen cs) = Ok w' ∧ wrote buf cap w' (bs ++ cs).
Proof using Hbuf Hcap.
  intros [Hc Hw]. unfold INT_MAX in *. unfold put. pose proof (mlen_nonneg cs). pose proof (mlen_nonneg bs).
  destruct (w_overflow w) eqn:Eo; cbn [orb].
  { eexists. split; [done|]. split; [done|]. cbn [w_overflow]. mlia. }
  destruct Hw as (Hl & Ho & Hb). rewrite Ho, Hc, u64_small by lia. destruct (Z.ltb_spec (cap - mlen bs) (mlen cs)).
  { eexists. split; [done|]. split; [done|]. cbn [w_overflow]. mlia. }
  destruct (Z.eqb_spec (mlen cs) 0) as [E0|E0].
  { exists w. split; [done|]. assert (cs = []) as -> by (destruct cs; [done|rewrite mlen_cons in *; pose proof (mlen_nonneg cs); lia]).
    rewrite app_nil_r. split; [done|]. by rewrite Eo. }
  rewrite Hb, rdn_Ok by lia. bstep. rewrite slice_full by done. rewrite wrn_Ok by (rewrite ?mlen_splice by lia; lia). bstep.
  eexists. split; [done|]. split; [done|]. cbn [w_overflow w_off w_buf]. split_and!; [mlia|mlia|].
  f_equal. rewrite <-(Z.add_0_l (mlen bs)). apply splice_app; lia.
Qed.
Lemma put_txt_wrote w bs cs : wrote buf cap w bs → ∃ w', put_txt w cs = Ok w' ∧ wrote buf cap w' (bs ++ cs).
Proof using Hbuf Hcap. apply put_wrote. Qed.

(** Puts in a row. *)
Ltac put_next :=
  match goal with
  | H : wrote buf cap ?w ?bs |- context [put_txt ?w ?cs] =>
      let E := fresh in let w' := fresh "w" in
      destruct (put_txt_wrote w bs cs H) as (w' & E & ?); rewrite E; clear E H; bstep
  | H : wrote buf cap ?w ?bs |- context [put ?w (Some ?cs) (mlen ?cs)] =>
      let E := fresh in let w' := fresh "w" in
      destruct (put_wrote w bs cs H) as (w' & E & ?); rewrite E; clear E H; bstep
  end.

Lemma method_name_nonempty m : 1 <= m < SIP_M_MAX → sip_method_name m ≠ [].
Proof using.
  clear. intros Hm E. unfold SIP_M_MAX in Hm. pose proof (method_ref_name m ltac:(lia)) as H. rewrite E in H. change (0 = m) in H. lia.
Qed.
Lemma hdr_name_nonempty id : 1 <= id < SIP_H_MAX → sip_hdr_name id ≠ [].
Proof using.
  clear. intros Hm E. unfold SIP_H_MAX in Hm. pose proof (hdr_ref_name id ltac:(lia)) as H. rewrite E in H. change (0 = id) in H. lia.
Qed.
Lemma mlen_pos (a : list Z) : a ≠ [] → (mlen a =? 0) = false.
Proof using. clear. intros Ha. apply Z.eqb_neq. destruct a; [done|]. rewrite mlen_cons. pose proof (mlen_nonneg a). lia. Qed.

Lemma put_start_wrote w bs s : start_ok s → wrote buf cap w bs →
  ∃ w' rc, put_start w s = Ok (w', rc) ∧ wrote buf cap w' (bs ++ start_txt s ++ CRLF).
Proof using Hbuf Hcap.
  intros Hs Hw. destruct s as [m uri|c r]; cbn [put_start].
  - destruct Hs as (Hm & Hu & _). unfold sip_put_request. cbv zeta. unfold SIP_M_UNKNOWN.
    rewrite (proj2 (Z.eqb_neq m 0)), bool_decide_eq_false_2, mlen_pos by (done || lia || by apply method_name_nonempty).
    cbn [is_null orb]. put_next. put_next. put_next. put_next. eexists _, _. split; [done|].
    cbn [start_txt]. rewrite <-!app_assoc in *. done.
  - destruct Hs as [Hc _]. unfold sip_put_status. rewrite (proj2 (Z.ltb_ge c 100)), (proj2 (Z.ltb_ge 699 c)) by lia. cbn [orb].
    assert (E : (match r with None => (Some (txt (sip_status_phrase c)), mlen (txt (sip_status_phrase c))) | _ =>
      (r, match r with Some r => mlen r | None => 0 end) end) = (Some (reason_txt c r), mlen (reason_txt c r))) by by destruct r.
    cbv zeta. rewrite E. put_next. put_next. put_next. put_next. put_next. eexists _, _. split; [done|].
    cbn [start_txt]. rewrite <-!app_assoc in *. done.
Qed.
Lemma put_field_wrote w bs f : field_ok f → wrote buf cap w bs →
  ∃ w' rc, put_field w f = Ok (w', rc) ∧ wrote buf cap w' (bs ++ field_line f ++ CRLF).
Proof using Hbuf Hcap.
  intros [_ Hf] Hw. unfold field_line. destruct f as [id v|name v|id v]; cbn [put_field field_name field_val].
  - destruct Hf as [Hid _]. pose proof (hdr_name_nonempty id Hid) as Hn. unfold sip_put_hdr. rewrite bool_decide_eq_false_2 by done.
    unfold sip_put_hdr_name. rewrite mlen_pos by done. cbn [is_null orb andb]. do 4 put_next. eexists _, _. split; [done|].
    rewrite <-!app_assoc in *. done.
  - destruct Hf as [[Hn _] _]. unfold sip_put_hdr_name. rewrite mlen_pos by done. cbn [is_null orb andb]. do 4 put_next.
    eexists _, _. split; [done|]. rewrite <-!app_assoc in *. done.
  - destruct Hf as [Hid Hv]. pose proof (hdr_name_nonempty id Hid) as Hn. unfold sip_put_hdr_u32. cbv zeta. rewrite bool_decide_eq_false_2 by done.
    put_next. put_next. unfold put_u32. rewrite (proj1 (dec_spec v Hv)). bstep. put_next. put_next. eexists _, _. split; [done|].
    rewrite <-!app_assoc in *. done.
Qed.
Lemma put_fields_wrote fs : Forall field_ok fs → ∀ w bs, wrote buf cap w bs →
  ∃ w', put_fields w fs = Ok w' ∧ wrote buf cap w' (bs ++ fields_txt fs).
Proof using Hbuf Hcap.
  induction 1 as [|f fs Hf _ IH]; intros w bs Hw; cbn [put_fields].
  - exists w. split; [done|]. by rewrite app_nil_r.
  - destruct (put_field_wrote w bs f Hf Hw) as (w1 & rc & -> & H1). bstep. cbn [fst].
    destruct (IH w1 _ H1) as (w2 & -> & H2). exists w2. split; [done|]. unfold fields_txt in *. cbn [mbind list_bind].
    by rewrite <-app_assoc in H2.
Qed.
End writer.

(** The calls build the text, or report the overflow, and nothing else. *)
Lemma write_msg_spec buf cap s fs body : 0 <= cap <= mlen buf → start_ok s → Forall field_ok fs → mlen body <= UINT32_MAX →
  ∃ w, write_msg buf cap s fs body = Ok (w, if mlen (msg_txt s fs body) <=? Z.min cap INT_MAX then mlen (msg_txt s fs body) else SIP_E_OVERFLOW) ∧
    (mlen (msg_txt s fs body) <= Z.min cap INT_MAX → w_buf w = Some (splice buf 0 (msg_txt s fs body))).
Proof.
  intros Hcap Hs Hf Hb. set (c := Z.min cap INT_MAX). assert (Hc : 0 <= c <= INT_MAX ∧ c <= mlen buf) by (unfold c, INT_MAX; lia).
  assert (H0 : wrote buf c (sip_wbuf_init (Some buf) cap) []).
  { unfold wrote, sip_wbuf_init. cbn [w_cap w_overflow w_off w_buf]. split; [unfold c; destruct (Z.ltb_spec INT_MAX cap); lia|].
    rewrite splice_nil. split_and!; [rewrite mlen_nil; lia|done|done]. }
  unfold write_msg. destruct (put_start_wrote buf c (proj1 Hc) (proj2 Hc) _ _ s Hs H0) as (w1 & rc1 & -> & H1). bstep. cbn [fst].
  destruct (put_fields_wrote buf c (proj1 Hc) (proj2 Hc) fs Hf w1 _ H1) as (w2 & -> & H2). bstep.
  unfold sip_put_body. cbn [is_null andb]. rewrite (proj2 (Z.ltb_ge UINT32_MAX (mlen body))) by done.
  pose proof (mlen_nonneg body). rewrite u32_small by (unfold UINT32_MAX in Hb; lia).
  destruct (put_txt_wrote buf c (proj1 Hc) (proj2 Hc) w2 _ (txt "Content-Length: ") H2) as (w3 & -> & H3). bstep.
  unfold put_u32. rewrite (proj1 (dec_spec (mlen body) ltac:(lia))). bstep.
  destruct (put_txt_wrote buf c (proj1 Hc) (proj2 Hc) w3 _ (dec (mlen body)) H3) as (w4 & -> & H4). bstep.
  destruct (put_txt_wrote buf c (proj1 Hc) (proj2 Hc) w4 _ (CRLF ++ CRLF) H4) as (w5 & -> & H5). bstep.
  assert (E6 : ∃ w6, (if mlen body =? 0 then Ok w5 else put w5 (Some body) (mlen body)) = Ok w6 ∧ wrote buf c w6 (msg_txt s fs body)).
  { assert (Et : ∀ x, ((((((([] ++ start_txt s ++ CRLF) ++ fields_txt fs) ++ txt "Content-Length: ") ++ dec (mlen body)) ++ CRLF ++ CRLF) ++ x)) =
      (start_txt s ++ CRLF) ++ (fields_txt (fs ++ [clen_field body]) ++ CRLF) ++ x).
    { intros x. unfold fields_txt. rewrite bind_app. cbn [mbind list_bind]. unfold field_line. cbn [field_name field_val clen_field].
      change (sip_hdr_name SIP_H_CONTENT_LENGTH) with (txt "Content-Length"). change (txt "Content-Length: ") with (txt "Content-Length" ++ txt ": ").
      rewrite app_nil_r, app_nil_l, <-!app_assoc. done. }
    destruct (Z.eqb_spec (mlen body) 0) as [E0|E0].
    - exists w5. split; [done|]. assert (body = []) as -> by (destruct body; [done|rewrite mlen_cons in *; pose proof (mlen_nonneg body); lia]).
      unfold msg_txt, head_txt. rewrite <-Et, app_nil_r. done.
    - destruct (put_wrote buf c (proj1 Hc) (proj2 Hc) w5 _ body H5) as (w6 & -> & H6). exists w6. split; [done|].
      unfold msg_txt, head_txt. by rewrite <-Et. }
  destruct E6 as (w6 & -> & [Ec Hw]). bstep. exists w6. destruct (w_overflow w6).
  - rewrite (proj2 (Z.leb_gt _ _)) by done. split; [done|]. lia.
  - destruct Hw as (Hl & -> & Hbuf). rewrite (proj2 (Z.leb_le _ _)) by done. split; [done|]. done.
Qed.

(** ** Lines *)

Lemma text_get m p bs i : holds m p bs → 0 <= i < mlen bs → get m (p + i) = get bs i.
Proof. intros (Hp & _ & Hs) Hi. rewrite <-(get_slice m p (mlen bs) i) by lia. by rewrite Hs. Qed.
Lemma get_Forall (P : Z → Prop) bs i : Forall P bs → 0 <= i < mlen bs → P (get bs i).
Proof.
  intros HF Hi. unfold get, mlen in *. destruct (lookup_lt_is_Some_2 bs (Z.to_nat i)) as [x Hx]; [lia|].
  rewrite nth_lookup, Hx. cbn. by eapply Forall_lookup in HF.
Qed.

Lemma line_end_crlf m p e l : holds m p (l ++ CRLF) → no_lf l → p <= e <= mlen m →
  line_end m p e = Ok (if p + mlen l + 2 <=? e then Some (p + mlen l, p + mlen l + 2) else None).
Proof.
  intros H Hl He. destruct (holds_pos _ _ _ H) as [Hp Hm]. pose proof (mlen_nonneg l).
  assert (Lc : mlen (l ++ CRLF) = mlen l + 2) by (rewrite mlen_app; done).
  assert (Hg : ∀ i, 0 <= i < mlen l → get m (p + i) ≠ 10).
  { intros i Hi. rewrite (text_get m p _ i H), get_app_l by lia. by apply (get_Forall (λ b, b ≠ LF)). }
  assert (Hcr : get m (p + mlen l) = 13).
  { rewrite (text_get m p _ _ H), get_app_ge, Z.sub_diag by lia. done. }
  assert (Hnl : get m (p + mlen l + 1) = 10).
  { replace (p + mlen l + 1) with (p + (mlen l + 1)) by lia. rewrite (text_get m p _ _ H), get_app_ge by lia.
    by replace (mlen l + 1 - mlen l) with 1 by lia. }
  assert (Hno : ∀ i, p <= i < p + mlen l + 1 → get m i ≠ 10).
  { intros i Hi. destruct (Z.eq_dec i (p + mlen l)) as [->|]; [by rewrite Hcr|]. replace i with (p + (i - p)) by lia. apply Hg. lia. }
  unfold line_end. destruct (Z.leb_spec (p + mlen l + 2) e).
  - rewrite (memchr_at m p 10 (e - p) (p + mlen l + 1)) by (done || lia). bstep.
    rewrite (proj2 (Z.ltb_lt p (p + mlen l + 1))) by lia. replace (p + mlen l + 1 - 1) with (p + mlen l) by lia.
    rewrite (rd_Ok m (p + mlen l)), Hcr by lia. bstep. do 3 f_equal. lia.
  - rewrite memchr_none; [done|lia..|]. intros i Hi. apply Hno. lia.
Qed.

(** ** Header fields *)

(** A field as the parser reads it. *)
Definition readable (f : field) : Prop := name_ok (field_name f) ∧ val_ok (field_val f).
Definition view (p : Z) (f : field) : sip_hdr_view :=
  Hdr (hdr_ref (field_name f)) (Str (Some p) (mlen (field_name f)))
    (Str (Some (p + mlen (field_name f) + 2)) (mlen (field_val f))).
Definition view_clen (f : field) (clen : option Z) : option Z :=
  if hdr_ref (field_name f) =? SIP_H_CONTENT_LENGTH then u32_text (field_val f) else clen.

Lemma parse_field_line m p f count clen : bytes_ok m → mlen m <= INT_MAX → holds m p (field_line f) → readable f →
  count < SIP_MAX_HDRS → (hdr_ref (field_name f) = SIP_H_CONTENT_LENGTH → u32_text (field_val f) ≠ None) →
  parse_field m p (p + mlen (field_line f)) count clen = Ok (inr (view p f, view_clen f clen)).
Proof.
  intros Hb Hi H [(Hn0 & Hnb & Hn) (Hvb & Hvl & Hve)] Hc Hcl. unfold field_line in *. unfold view, view_clen.
  set (n := field_name f) in *. set (v := field_val f) in *. unfold INT_MAX in Hi.
  pose proof H as H'. apply holds_app in H' as [HN H']. apply holds_app in H' as [HS HV].
  destruct (holds_pos _ _ _ H) as [Hp Hm]. pose proof (mlen_nonneg n). pose proof (mlen_nonneg v).
  change (mlen (txt ": ")) with 2 in *. assert (Ll : mlen (n ++ txt ": " ++ v) = mlen n + 2 + mlen v) by (rewrite !mlen_app; change (mlen (txt ": ")) with 2; lia).
  rewrite Ll in *. assert (Hn1 : 0 < mlen n) by (pose proof (mlen_pos n Hn0) as E; apply Z.eqb_neq in E; lia).
  assert (Gc : get m (p + mlen n) = 58) by (rewrite <-(Z.add_0_r (p + mlen n)); by rewrite (text_get m _ _ 0 HS)).
  assert (Gs : get m (p + mlen n + 1) = 32) by (by rewrite (text_get m _ _ 1 HS)).
  assert (Gn : ∀ i, p <= i < p + mlen n → get m i ∉ [58; 32; 9; 13; LF]).
  { intros i Hi'. replace i with (p + (i - p)) by lia. rewrite (text_get m p n _ HN) by lia.
    apply (get_Forall (λ b, b ∉ [58; 32; 9; 13; LF])); [done|lia]. }
  assert (Hws : ∀ b, b ∉ [58; 32; 9; 13; LF] → sip_is_ws b = false).
  { intros b Hx. unfold sip_is_ws. apply orb_false_iff. rewrite !Z.eqb_neq. set_solver. }
  assert (Gv : ∀ i, 0 <= i < mlen v → get m (p + mlen n + 2 + i) = get v i).
  { intros i Hi'. replace (p + mlen n + 2 + i) with (p + mlen n + 2 + i) by lia. apply (text_get m _ v i HV Hi'). }
  unfold parse_field. rewrite (memchr_at m p 58 _ (p + mlen n)) by (done || lia || (intros i Hi' E; apply (Gn i Hi'); rewrite E; set_solver)). bstep.
  rewrite trim_none; [|lia|lia|intros; apply Hws, Gn; lia]. bstep. rewrite (proj2 (Z.eqb_neq _ p)) by lia.
  assert (Hve' : 0 < mlen v → sip_is_ws (get v 0) = false ∧ sip_is_ws (get v (mlen v - 1)) = false).
  { intros Hv1. apply Hve. intros E. rewrite E in Hv1. rewrite mlen_nil in Hv1. lia. }
  rewrite (skip_at sip_is_ws m (p + mlen n + 1) _ (p + mlen n + 2)); [|lia|lia|lia| |].
  2:{ intros i Hi'. replace i with (p + mlen n + 1) by lia. by rewrite Gs. }
  2:{ intros Hlt. rewrite <-(Z.add_0_r (p + mlen n + 2)), Gv by lia. apply Hve'. lia. }
  bstep. rewrite trim_none; [|lia|lia|].
  2:{ intros Hlt. replace (p + (mlen n + 2 + mlen v) - 1) with (p + mlen n + 2 + (mlen v - 1)) by lia. rewrite Gv by lia. apply Hve'. lia. }
  bstep. rewrite (proj2 (Z.leb_gt _ count)) by done.
  rewrite sip_hdr_from_eq by (done || lia). bstep.
  replace (p + mlen n - p) with (mlen n) by lia. assert (Sn : slice m p (mlen n) = n) by apply HN. rewrite Sn.
  assert (E1 : sub_str p (p + mlen n) = Str (Some p) (mlen n)) by (unfold sub_str; f_equal; rewrite u32_small; lia).
  assert (E2 : sub_str (p + mlen n + 2) (p + (mlen n + 2 + mlen v)) = Str (Some (p + mlen n + 2)) (mlen v)).
  { unfold sub_str. f_equal. replace (p + (mlen n + 2 + mlen v) - (p + mlen n + 2)) with (mlen v) by lia. apply u32_small. lia. }
  rewrite E1, E2. destruct (Z.eqb_spec (hdr_ref n) SIP_H_CONTENT_LENGTH) as [Ec|Ec]; [|done].
  replace (p + (mlen n + 2 + mlen v) - (p + mlen n + 2)) with (mlen v) by lia.
  assert (Sv : slice m (p + mlen n + 2) (mlen v) = v) by apply HV.
  rewrite sip_parse_u32_spec, Sv by lia. bstep. destruct (u32_text v); [done|]. by destruct Hcl.
Qed.

Fixpoint views (p : Z) (fs : list field) : list sip_hdr_view :=
  match fs with
  | [] => []
  | f :: fs => view p f :: views (p + mlen (field_line f) + 2) fs
  end.
Definition views_clen (fs : list field) (clen : option Z) : option Z := foldl (λ c f, view_clen f c) clen fs.
Definition clen_readable (f : field) : Prop := hdr_ref (field_name f) = SIP_H_CONTENT_LENGTH → u32_text (field_val f) ≠ None.

Lemma fields_txt_cons f fs : fields_txt (f :: fs) = (field_line f ++ CRLF) ++ fields_txt fs.
Proof. done. Qed.
Lemma field_line_no_lf f : readable f → no_lf (field_line f).
Proof.
  intros [(_ & _ & Hn) (_ & Hv & _)]. unfold no_lf, field_line. rewrite !Forall_app. split_and!; [|by repeat constructor|done].
  eapply Forall_impl; [exact Hn|]. intros b Hb E. apply Hb. rewrite E. set_solver.
Qed.
Lemma field_line_first f : readable f → sip_is_ws (get (field_line f) 0) = false ∧ 3 <= mlen (field_line f).
Proof.
  intros [(Hn0 & _ & Hn) _]. unfold field_line. pose proof (mlen_nonneg (field_val f)).
  assert (Hn1 : 0 < mlen (field_name f)) by (pose proof (mlen_pos _ Hn0) as E; apply Z.eqb_neq in E; pose proof (mlen_nonneg (field_name f)); lia).
  split; [|rewrite !mlen_app; change (mlen (txt ": ")) with 2; lia]. rewrite get_app_l by lia.
  apply (get_Forall (λ b, b ∉ [58; 32; 9; 13; LF])) with (i := 0) in Hn; [|lia]. cbn beta in Hn.
  unfold sip_is_ws. apply orb_false_iff. rewrite !Z.eqb_neq. set_solver.
Qed.
Lemma head_first fs : Forall readable fs → sip_is_ws (get (fields_txt fs ++ CRLF) 0) = false ∧ 2 <= mlen (fields_txt fs ++ CRLF).
Proof.
  intros HF. destruct HF as [|f fs Hf _]; [done|]. rewrite fields_txt_cons, <-!app_assoc. destruct (field_line_first f Hf) as [H1 H2].
  rewrite get_app_l by lia. split; [done|]. pose proof (mlen_nonneg (CRLF ++ fields_txt fs ++ CRLF)). rewrite mlen_app. lia.
Qed.

Lemma parse_head m e : bytes_ok m → mlen m <= INT_MAX → ∀ fs p hdrs clen fuel,
  holds m p (fields_txt fs ++ CRLF) → Forall readable fs → Forall clen_readable fs →
  Z.of_nat (length hdrs + length fs) <= SIP_MAX_HDRS → p <= e <= mlen m → e - p < Z.of_nat fuel →
  parse_headers fuel m p e hdrs clen =
    Ok (if p + mlen (fields_txt fs ++ CRLF) <=? e
        then inr (hdrs ++ views p fs, views_clen fs clen, p + mlen (fields_txt fs ++ CRLF)) else inl SIP_E_SHORT).
Proof.
  intros Hb Hi. induction fs as [|f fs IH]; intros p hdrs clen fuel H HF HC Hcnt He Hfuel; (destruct fuel as [|fuel]; [lia|]);
    cbn [parse_headers].
  - rewrite (line_end_crlf m p e [] H) by (done || constructor). change (mlen (fields_txt [] ++ CRLF)) with 2.
    rewrite mlen_nil, Z.add_0_r. bstep. destruct (_ <=? e); [|done]. rewrite Z.eqb_refl. by rewrite app_nil_r.
  - inversion_clear HF as [|? ? Hf HF']. inversion_clear HC as [|? ? Hc HC'].
    rewrite fields_txt_cons, <-app_assoc in H |- *. pose proof H as H'. apply holds_app in H' as [HL HR].
    assert (LC : mlen (field_line f ++ CRLF) = mlen (field_line f) + 2) by (rewrite mlen_app; done).
    rewrite LC, Z.add_assoc in HR. destruct (field_line_first f Hf) as [_ L3]. destruct (head_first fs HF') as [Hh1 Hh2].
    rewrite mlen_app, LC. rewrite (line_end_crlf m p e (field_line f) HL (field_line_no_lf f Hf) He). bstep.
    destruct (Z.leb_spec (p + mlen (field_line f) + 2) e) as [Hfit|Hfit].
    2:{ by rewrite (proj2 (Z.leb_gt _ e)) by lia. }
    rewrite (proj2 (Z.eqb_neq _ p)) by lia. destruct (holds_pos _ _ _ H) as [Hp0 Hpm].
    assert (Hu : unfold_lines fuel m (p + mlen (field_line f)) (p + mlen (field_line f) + 2) e =
      Ok (Some (p + mlen (field_line f), p + mlen (field_line f) + 2))).
    { destruct fuel as [|fuel']; [lia|]. cbn [unfold_lines]. set (nl := p + mlen (field_line f) + 2) in *.
      destruct (Z.ltb_spec nl e); [|done]. rewrite (rd_Ok m nl) by lia. bstep.
      assert (G : get m nl = get (fields_txt fs ++ CRLF) 0) by (rewrite <-(Z.add_0_r nl); apply (text_get m nl _ 0 HR); lia).
      by rewrite G, Hh1. }
    rewrite Hu. bstep. apply holds_app in HL as [HL _]. cbn [length] in Hcnt.
    rewrite (parse_field_line m p f _ clen Hb Hi HL Hf) by (done || lia). bstep.
    rewrite (IH _ (hdrs ++ [view p f]) (view_clen f clen) fuel HR HF' HC'); [|rewrite length_app; cbn; lia|lia|lia].
    replace (p + (mlen (field_line f) + 2 + mlen (fields_txt fs ++ CRLF))) with
      (p + mlen (field_line f) + 2 + mlen (fields_txt fs ++ CRLF)) by lia.
    destruct (_ <=? e); [|done]. cbn [views]. by rewrite <-app_assoc.
Qed.

(** ** Start lines *)

Definition start_view (p : Z) (s : start) : start_line :=
  match s with
  | SReq m uri => Request m (Str (Some p) (mlen (sip_method_name m))) (Str (Some (p + mlen (sip_method_name m) + 1)) (mlen uri))
  | SStatus c r => Status c (Str (Some (p + 12)) (mlen (reason_txt c r)))
  end.

Definition method_ok (name : list Z) : Prop :=
  3 <= mlen name <= 9 ∧ (sip_lc <$> take 3 name) ≠ txt "sip" ∧ Forall (λ b, (b ∉ [32; 13; 10]) ∧ 0 <= b < 256) name.
Lemma method_name_ok m : 1 <= m < SIP_M_MAX → method_ok (sip_method_name m).
Proof.
  intros H. assert (F : Forall (λ m, 3 <= mlen (sip_method_name m) <= 9 ∧ (sip_lc <$> take 3 (sip_method_name m)) ≠ txt "sip" ∧
    Forall (λ b, (b ∉ [32; 13; 10]) ∧ 0 <= b < 256) (sip_method_name m)) method_ids)
    by (apply (bool_decide_unpack _); vm_compute; exact I).
  eapply Forall_forall in F; [exact F|]. apply list_elem_of_In, in_map_iff. exists (Z.to_nat m). unfold SIP_M_MAX in H.
  split; [lia|]. apply in_seq. lia.
Qed.

Lemma parse_request_line m p meth uri : bytes_ok m → mlen m <= INT_MAX → start_ok (SReq meth uri) →
  holds m p (start_txt (SReq meth uri)) →
  parse_start_line m p (p + mlen (start_txt (SReq meth uri))) = Ok (inr (start_view p (SReq meth uri))).
Proof.
  intros Hb Hi (Hm & Hu0 & _ & Hus & _) H. cbn [start_txt start_view] in *. unfold INT_MAX in Hi.
  destruct (method_name_ok meth Hm) as (Hl & H3 & HF). set (n := sip_method_name meth) in *.
  destruct (holds_pos _ _ _ H) as [Hp Hpm]. pose proof H as H'. apply holds_app in H' as [HN H'].
  apply holds_app in H' as [HS H']. apply holds_app in H' as [HU HV]. change (mlen [32]) with 1 in *.
  pose proof (mlen_nonneg uri). assert (Hu1 : 0 < mlen uri) by (pose proof (mlen_pos _ Hu0) as E; apply Z.eqb_neq in E; lia).
  assert (Lt : mlen (n ++ [32] ++ uri ++ txt " SIP/2.0") = mlen n + 1 + mlen uri + 8) by
    (rewrite !mlen_app; change (mlen (txt " SIP/2.0")) with 8; change (mlen [32]) with 1; lia).
  rewrite Lt in *. change (mlen (txt " SIP/2.0")) with 8 in *. unfold parse_start_line. cbv zeta.
  assert (Gn : ∀ i, p <= i < p + mlen n → get m i ≠ 32).
  { intros i Hi'. replace i with (p + (i - p)) by lia. rewrite (text_get m p n _ HN) by lia.
    pose proof (get_Forall _ n (i - p) HF ltac:(lia)) as [Hx _]. cbn beta in Hx. set_solver. }
  assert (Hnot : sip_ieq m p SIP20_SP = Ok false).
  { rewrite sip_ieq_spec by (change (mlen SIP20_SP) with 8; lia). f_equal. apply bool_decide_eq_false. intros E. apply H3.
    change (mlen SIP20_SP) with 8 in E. apply (f_equal (take 3)) in E. rewrite <-fmap_take in E.
    assert (Es : take 3 (slice m p 8) = take 3 n); [|by rewrite Es in E]. 
    destruct HN as (_ & _ & HN). transitivity (take 3 (slice m p (mlen n))); [|by rewrite HN]. unfold slice. rewrite !take_take. f_equal. lia. }
  rewrite (proj2 (Z.leb_le 8 _)) by lia. rewrite Hnot. bstep.
  assert (Gs : get m (p + mlen n) = 32) by (rewrite <-(Z.add_0_r (p + mlen n)); by rewrite (text_get m _ _ 0 HS)).
  rewrite (memchr_at m p 32 _ (p + mlen n)) by (done || lia). bstep. rewrite (proj2 (Z.eqb_neq _ p)) by lia.
  assert (Gu : ∀ i, p + mlen n + 1 <= i < p + mlen n + 1 + mlen uri → get m i ≠ 32).
  { intros i Hi'. replace i with (p + mlen n + 1 + (i - (p + mlen n + 1))) by lia. rewrite (text_get m _ uri _ HU) by lia.
    apply (get_Forall (λ b, b ≠ 32)); [done|lia]. }
  assert (Gs2 : get m (p + mlen n + 1 + mlen uri) = 32).
  { rewrite <-(Z.add_0_r (p + mlen n + 1 + mlen uri)). by rewrite (text_get m _ _ 0 HV). }
  rewrite (memchr_at m (p + mlen n + 1) 32 _ (p + mlen n + 1 + mlen uri)) by (done || lia). bstep.
  rewrite (proj2 (Z.eqb_neq _ (p + mlen n + 1))) by lia.
  replace (p + (mlen n + 1 + mlen uri + 8) - (p + mlen n + 1 + mlen uri) - 1) with 7 by lia. cbn [Z.eqb Pos.eqb].
  assert (Hver : sip_ieq m (p + mlen n + 1 + mlen uri + 1) SIP20 = Ok true).
  { change (txt " SIP/2.0") with ([32] ++ txt "SIP/2.0") in HV. apply holds_app in HV as [_ HV]. change (mlen [32]) with 1 in HV.
    rewrite sip_ieq_spec by (change (mlen SIP20) with 7; lia). f_equal. apply bool_decide_eq_true.
    destruct HV as (_ & _ & HV). change (mlen SIP20) with (mlen (txt "SIP/2.0")). rewrite HV. done. }
  rewrite Hver. bstep. cbn [negb]. rewrite sip_method_from_eq by lia. bstep. replace (p + mlen n - p) with (mlen n) by lia.
  assert (Sn : slice m p (mlen n) = n) by apply HN. rewrite Sn. unfold n at 1. unfold SIP_M_MAX in Hm. rewrite method_ref_name by lia.
  do 3 f_equal; unfold sub_str; f_equal; rewrite u32_small; lia.
Qed.

Lemma status_digits c : 100 <= c <= 699 →
  sip_is_digit (48 + c / 100) = true ∧ sip_is_digit (48 + c / 10 mod 10) = true ∧ sip_is_digit (48 + c mod 10) = true ∧
  (48 + c / 100 - 48) * 100 + (48 + c / 10 mod 10 - 48) * 10 + (48 + c mod 10 - 48) = c ∧ (48 + c / 100) ≠ 10 ∧ (48 + c / 10 mod 10) ≠ 10 ∧ (48 + c mod 10) ≠ 10.
Proof.
  intros Hc. unfold sip_is_digit. rewrite !andb_true_iff, !Z.leb_le.
  pose proof (Z.div_mod c 10 ltac:(lia)). pose proof (Z.div_mod (c / 10) 10 ltac:(lia)) as H10. rewrite Z.div_div in H10 by lia.
  change (10 * 10) with 100 in H10. pose proof (Z.mod_pos_bound c 10 ltac:(lia)). pose proof (Z.mod_pos_bound (c / 10) 10 ltac:(lia)).
  assert (1 <= c / 100 <= 6) by (split; [apply Z.div_le_lower_bound; lia|apply Z.lt_succ_r, Z.div_lt_upper_bound; lia]). lia.
Qed.

Lemma parse_status_line m p c r : bytes_ok m → mlen m <= INT_MAX → start_ok (SStatus c r) →
  holds m p (start_txt (SStatus c r)) →
  parse_start_line m p (p + mlen (start_txt (SStatus c r))) = Ok (inr (start_view p (SStatus c r))).
Proof.
  intros Hb Hi [Hc _] H. cbn [start_txt start_view] in *. unfold INT_MAX in Hi. set (t := reason_txt c r) in *.
  destruct (status_digits c Hc) as (D1 & D2 & D3 & Dv & _). destruct (holds_pos _ _ _ H) as [Hp Hpm].
  pose proof H as H'. apply holds_app in H' as [HV H']. apply holds_app in H' as [HD H']. apply holds_app in H' as [HS HT].
  change (mlen (txt "SIP/2.0 ")) with 8 in *. change (mlen [48 + c / 100; 48 + c / 10 mod 10; 48 + c mod 10]) with 3 in *.
  change (mlen [32]) with 1 in *. pose proof (mlen_nonneg t).
  assert (Lt : mlen (txt "SIP/2.0 " ++ [48 + c / 100; 48 + c / 10 mod 10; 48 + c mod 10] ++ [32] ++ t) = 12 + mlen t) by
    (rewrite !mlen_app; change (mlen (txt "SIP/2.0 ")) with 8; change (mlen [48 + c / 100; 48 + c / 10 mod 10; 48 + c mod 10]) with 3; change (mlen [32]) with 1; lia).
  rewrite Lt in *. unfold parse_start_line. cbv zeta. rewrite (proj2 (Z.leb_le 8 _)) by lia.
  assert (Hst : sip_ieq m p SIP20_SP = Ok true).
  { rewrite sip_ieq_spec by (change (mlen SIP20_SP) with 8; lia). f_equal. apply bool_decide_eq_true.
    destruct HV as (_ & _ & HV). change (mlen SIP20_SP) with (mlen (txt "SIP/2.0 ")). by rewrite HV. }
  rewrite Hst. bstep. unfold status_code. rewrite (proj2 (Z.ltb_ge _ 3)) by lia.
  assert (G0 : get m (p + 8) = 48 + c / 100) by (rewrite <-(Z.add_0_r (p + 8)); by rewrite (text_get m _ _ 0 HD)).
  assert (G1 : get m (p + 8 + 1) = 48 + c / 10 mod 10) by (by rewrite (text_get m _ _ 1 HD)).
  assert (G2 : get m (p + 8 + 2) = 48 + c mod 10) by (by rewrite (text_get m _ _ 2 HD)).
  assert (G3 : get m (p + 8 + 3) = 32) by (rewrite <-(Z.add_0_r (p + 8 + 3)); by rewrite (text_get m _ _ 0 HS)).
  rewrite (rd_Ok m (p + 8)), (rd_Ok m (p + 8 + 1)), (rd_Ok m (p + 8 + 2)), G0, G1, G2 by lia. bstep.
  rewrite D1, D2, D3. cbn [negb]. bstep. rewrite Dv, (proj2 (Z.ltb_ge c 100)) by lia.
  rewrite (proj2 (Z.ltb_lt (p + 8 + 3) _)) by lia. rewrite (rd_Ok m (p + 8 + 3)), G3 by lia. bstep. cbn [Z.eqb Pos.eqb negb].
  do 3 f_equal. unfold sub_str. f_equal; [f_equal; lia|]. rewrite u32_small; lia.
Qed.
Lemma parse_start m p s : bytes_ok m → mlen m <= INT_MAX → start_ok s → holds m p (start_txt s) →
  parse_start_line m p (p + mlen (start_txt s)) = Ok (inr (start_view p s)).
Proof. destruct s; [apply parse_request_line|apply parse_status_line]. Qed.

(** ** Messages *)

Lemma hdr_name_ok id : 1 <= id < SIP_H_MAX → name_ok (sip_hdr_name id).
Proof.
  intros H. assert (F : Forall (λ id, sip_hdr_name id ≠ [] ∧ Forall (λ b, 0 <= b < 256) (sip_hdr_name id) ∧
    Forall (λ b, b ∉ [58; 32; 9; 13; LF]) (sip_hdr_name id)) hdr_ids) by (apply (bool_decide_unpack _); vm_compute; exact I).
  eapply Forall_forall in F; [exact F|]. apply list_elem_of_In, in_map_iff. exists (Z.to_nat id). unfold SIP_H_MAX in H.
  split; [lia|]. apply in_seq. lia.
Qed.
Lemma dec_val_ok v : 0 <= v <= UINT32_MAX → val_ok (dec v).
Proof.
  intros Hv. destruct (dec_spec v Hv) as (_ & Hf & Hl & _).
  assert (HF : Forall (λ b, 48 <= b <= 57) (dec v)).
  { apply Forall_forall. intros b Hb. rewrite forallb_forall in Hf. by apply digit_range, Hf, list_elem_of_In. }
  split_and!.
  - eapply Forall_impl; [exact HF|]. intros b. cbn. lia.
  - eapply Forall_impl; [exact HF|]. intros b. unfold LF. cbn. lia.
  - intros _. unfold sip_is_ws. rewrite !orb_false_iff, !Z.eqb_neq.
    pose proof (get_Forall _ _ 0 HF ltac:(lia)) as H0. pose proof (get_Forall _ _ (mlen (dec v) - 1) HF ltac:(lia)) as H1. cbn in H0, H1. lia.
Qed.
Lemma field_ok_readable f : field_ok f → readable f ∧ clen_readable f.
Proof.
  intros [Hc Hf]. split; [|by intros E]. destruct f; cbn [field_name field_val] in *; unfold readable; cbn [field_name field_val].
  - destruct Hf. split; [by apply hdr_name_ok|done].
  - done.
  - destruct Hf. split; [by apply hdr_name_ok|by apply dec_val_ok].
Qed.
Lemma clen_field_ok body : mlen body <= UINT32_MAX →
  readable (clen_field body) ∧ clen_readable (clen_field body) ∧ view_clen (clen_field body) None = Some (mlen body).
Proof.
  intros Hb. pose proof (mlen_nonneg body). destruct (dec_spec (mlen body) ltac:(lia)) as (_ & _ & _ & Ht). split_and!.
  - split; [by apply hdr_name_ok|by apply dec_val_ok].
  - intros _. cbn. by rewrite Ht.
  - unfold view_clen. cbn [clen_field field_name field_val]. by rewrite Ht.
Qed.
Lemma views_clen_eq fs body : Forall field_ok fs → mlen body <= UINT32_MAX →
  views_clen (fs ++ [clen_field body]) None = Some (mlen body).
Proof.
  intros HF Hb. unfold views_clen. rewrite foldl_app. cbn [foldl].
  assert (E : foldl (λ c f, view_clen f c) None fs = None).
  { induction HF as [|f fs [Hc _] _ IH]; [done|]. cbn [foldl]. unfold view_clen at 2. by rewrite (proj2 (Z.eqb_neq _ _) Hc). }
  rewrite E. by apply clen_field_ok.
Qed.
Lemma start_txt_line s : start_ok s → no_lf (start_txt s) ∧ is_eol (get (start_txt s) 0) = false ∧ 1 <= mlen (start_txt s).
Proof.
  destruct s as [m uri|c r]; cbn [start_ok start_txt].
  - intros (Hm & _ & Hu & _). destruct (method_name_ok m Hm) as (Hl & _ & HF). split_and!.
    + unfold no_lf in *. rewrite !Forall_app. split_and!; [|by repeat constructor|done|by repeat constructor].
      eapply Forall_impl; [exact HF|]. intros b [Hb _] E. apply Hb. rewrite E. set_solver.
    + rewrite get_app_l by lia. pose proof (get_Forall _ _ 0 HF ltac:(lia)) as [Hx _]. cbn beta in Hx. unfold is_eol.
      apply orb_false_iff. rewrite !Z.eqb_neq. set_solver.
    + rewrite mlen_app. match goal with |- _ <= _ + mlen ?x => pose proof (mlen_nonneg x) end. lia.
  - intros [Hc Hr]. destruct (status_digits c Hc) as (_ & _ & _ & _ & N1 & N2 & N3). split_and!.
    + unfold no_lf. rewrite !Forall_app. split_and!; [by repeat constructor|repeat (constructor; [assumption|]); constructor|by repeat constructor|].
      destruct r as [r|]; cbn [reason_txt]; [by destruct Hr|]. unfold sip_status_phrase.
      assert (F : Forall (λ p : Z * string, Forall (λ b, b ≠ LF) (txt p.2)) phrases) by (apply (bool_decide_unpack _); vm_compute; exact I).
      induction F as [|[k t] l Hk _ IH]; cbn [phrase_of]; [by repeat constructor|]. destruct (k =? c); [done|apply IH].
    + rewrite get_app_l by done. done.
    + rewrite mlen_app. match goal with |- _ <= _ + mlen ?x => pose proof (mlen_nonneg x) end. change (mlen (txt "SIP/2.0 ")) with 8. lia.
Qed.

(** What the parser makes of the text. *)
Definition msg_view (s : start) (fs : list field) (body : list Z) : sip_msg :=
  let off := mlen (start_txt s ++ CRLF) in
  Msg (start_view 0 s) (views off (fs ++ [clen_field body])) (Some (mlen body))
    (Str (Some (off + mlen (head_txt fs body))) (mlen body)).

(** Framing: of a buffer that starts with a message, any prefix shorter than the message asks
    for more, and any longer one yields it. *)
Lemma parse_framed m s fs body len : bytes_ok m → mlen m <= INT_MAX → holds m 0 (msg_txt s fs body) →
  start_ok s → Forall field_ok fs → Z.of_nat (length fs) < SIP_MAX_HDRS → mlen body <= UINT32_MAX → 0 <= len <= mlen m →
  sip_msg_parse true (Some m) len =
    Ok (if mlen (msg_txt s fs body) <=? len then inr (msg_view s fs body, mlen (msg_txt s fs body)) else inl SIP_E_SHORT).
Proof.
  intros Hb Hi H Hs HF Hcnt Hbody Hl. destruct (start_txt_line s Hs) as (Hlf & Hfirst & Hs1).
  unfold msg_txt in H. pose proof H as H'. apply holds_app in H' as [HL HR]. rewrite Z.add_0_l in HR.
  apply holds_app in HR as [HH HB]. pose proof (mlen_nonneg body).
  assert (LS : mlen (start_txt s ++ CRLF) = mlen (start_txt s) + 2) by (rewrite mlen_app; done).
  assert (Lt : mlen (msg_txt s fs body) = mlen (start_txt s ++ CRLF) + mlen (head_txt fs body) + mlen body) by (unfold msg_txt; rewrite !mlen_app; lia).
  assert (Hm : mlen (msg_txt s fs body) <= mlen m) by (apply (holds_pos _ _ _ H)).
  pose proof (mlen_nonneg (head_txt fs body)).
  unfold sip_msg_parse. cbn [negb orb]. rewrite (proj2 (Z.ltb_ge INT_MAX len)) by lia.
  rewrite (skip_at is_eol m 0 len 0); [|lia|lia|lia|lia|].
  2:{ intros _. rewrite <-(Z.add_0_l 0), (text_get m 0 _ 0 HL), get_app_l by lia. done. }
  bstep. rewrite (line_end_crlf m 0 len (start_txt s) HL Hlf) by lia. bstep. rewrite !Z.add_0_l.
  destruct (Z.leb_spec (mlen (start_txt s) + 2) len) as [Hfit|Hfit].
  2:{ by rewrite (proj2 (Z.leb_gt _ len)) by lia. }
  apply holds_app in HL as [HL _]. pose proof (parse_start m 0 s Hb Hi Hs HL) as Eps. rewrite Z.add_0_l in Eps. rewrite Eps. bstep.
  unfold head_txt in HH. rewrite <-LS.
  rewrite (parse_head m len Hb Hi (fs ++ [clen_field body]) _ [] None _ HH); [| | | |lia|lia].
  - bstep. fold (head_txt fs body). rewrite app_nil_l, views_clen_eq by done.
    destruct (Z.leb_spec (mlen (start_txt s ++ CRLF) + mlen (head_txt fs body)) len) as [Hf2|Hf2].
    + destruct (Z.ltb_spec (len - (mlen (start_txt s ++ CRLF) + mlen (head_txt fs body))) (mlen body)).
      * by rewrite (proj2 (Z.leb_gt _ len)) by lia.
      * rewrite (proj2 (Z.leb_le _ len)) by lia. do 3 f_equal. lia.
    + by rewrite (proj2 (Z.leb_gt _ len)) by lia.
  - apply Forall_app. split; [|constructor; [by apply clen_field_ok|constructor]]. eapply Forall_impl; [exact HF|]. apply field_ok_readable.
  - apply Forall_app. split; [|constructor; [by apply clen_field_ok|constructor]]. eapply Forall_impl; [exact HF|]. apply field_ok_readable.
  - rewrite length_app. cbn [length]. lia.
Qed.

(** The text of a slice. *)
Definition str_val (m : mem) (s : sip_str) : list Z := match s_p s with Some p => slice m p (s_len s) | None => [] end.
Definition start_reads (m : mem) (l : start_line) (s : start) : Prop :=
  match l, s with
  | Request meth name uri, SReq meth' uri' => meth = meth' ∧ str_val m name = sip_method_name meth' ∧ str_val m uri = uri'
  | Status c reason, SStatus c' r => c = c' ∧ str_val m reason = reason_txt c' r
  | _, _ => False
  end.
Definition hdr_reads (m : mem) (h : sip_hdr_view) (f : field) : Prop :=
  h_id h = hdr_ref (field_name f) ∧ str_val m (h_name h) = field_name f ∧ str_val m (h_value h) = field_val f.
(** The parsed message says what was written. *)
Definition msg_reads (m : mem) (msg : sip_msg) (s : start) (fs : list field) (body : list Z) : Prop :=
  start_reads m (m_start msg) s ∧ Forall2 (hdr_reads m) (m_hdrs msg) (fs ++ [clen_field body]) ∧
  m_clen msg = Some (mlen body) ∧ str_val m (m_body msg) = body.

Lemma start_view_reads m s : holds m 0 (start_txt s) → start_reads m (start_view 0 s) s.
Proof.
  intros H. destruct s as [meth uri|c r]; cbn [start_txt start_view start_reads] in *.
  - pose proof H as H'. apply holds_app in H' as [HN H']. apply holds_app in H' as [_ H']. apply holds_app in H' as [HU _].
    change (mlen [32]) with 1 in HU. split_and!; [done|apply HN|apply HU].
  - split; [done|]. apply holds_app in H as [_ H]. apply holds_app in H as [_ H]. apply holds_app in H as [_ H]. apply H.
Qed.
Lemma views_read m fs : ∀ p, holds m p (fields_txt fs) → Forall2 (hdr_reads m) (views p fs) fs.
Proof.
  induction fs as [|f fs IH]; intros p H; cbn [views]; [constructor|]. rewrite fields_txt_cons in H. apply holds_app in H as [HL HR].
  rewrite mlen_app, Z.add_assoc in HR. constructor; [|by apply IH]. apply holds_app in HL as [HL _]. unfold field_line in HL.
  apply holds_app in HL as [HN HL]. apply holds_app in HL as [_ HV]. split_and!; [done|apply HN|apply HV].
Qed.
Lemma msg_view_reads m s fs body : holds m 0 (msg_txt s fs body) → msg_reads m (msg_view s fs body) s fs body.
Proof.
  intros H. unfold msg_txt in H. apply holds_app in H as [HL HR]. rewrite Z.add_0_l in HR. apply holds_app in HR as [HH HB].
  unfold msg_reads, msg_view. cbn [m_start m_hdrs m_clen m_body]. apply holds_app in HL as [HL _]. unfold head_txt in HH.
  apply holds_app in HH as [HH _]. split_and!; [by apply start_view_reads|by apply views_read|done|apply HB].
Qed.

(** C18: a SIP message written call by call is framed and parsed as it was meant.  When the
    buffer holds it, the writer returns its length, and on what the buffer then holds,
    whatever follows, the parser asks for more given any shorter prefix and otherwise
    consumes exactly the message: the same method and Request-URI or status and reason, the
    same fields in order under the numbers of their names, and the same body.  When the
    buffer is too small the writer says so. *)
Theorem sip_message_roundtrip buf cap s fs body :
  bytes_ok buf → bytes_ok (msg_txt s fs body) → 0 <= cap <= mlen buf → mlen buf <= INT_MAX →
  start_ok s → Forall field_ok fs → Z.of_nat (length fs) < SIP_MAX_HDRS → mlen body <= UINT32_MAX →
  ∃ w rc, write_msg buf cap s fs body = Ok (w, rc) ∧
    if mlen (msg_txt s fs body) <=? cap then
      rc = mlen (msg_txt s fs body) ∧
      ∃ m msg, w_buf w = Some m ∧ msg_reads m msg s fs body ∧
        ∀ len, 0 <= len <= mlen m →
          sip_msg_parse true (Some m) len = Ok (if rc <=? len then inr (msg, rc) else inl SIP_E_SHORT)
    else rc = SIP_E_OVERFLOW.
Proof.
  intros Hb Ht Hcap Hi Hs HF Hcnt Hbody. destruct (write_msg_spec buf cap s fs body Hcap Hs HF Hbody) as (w & -> & Hw).
  eexists _, _. split; [done|]. rewrite Z.min_l in * by lia. destruct (Z.leb_spec (mlen (msg_txt s fs body)) cap); [|done].
  split; [done|]. specialize (Hw ltac:(lia)). set (t := msg_txt s fs body) in *.
  assert (Lm : mlen (splice buf 0 t) = mlen buf) by (apply mlen_splice; lia).
  assert (H0 : holds (splice buf 0 t) 0 t).
  { split_and!; [lia|lia|]. apply slice_splice_same; [done|lia|lia]. }
  exists (splice buf 0 t), (msg_view s fs body). split; [done|]. split; [by apply msg_view_reads|].
  intros len Hlen. apply parse_framed; try done; [by apply bytes_ok_splice|lia].
Qed.

Definition ex_fields : list field := [FId 54 (txt "SIP/2.0/UDP h;branch=z9"); FNum 24 70; FName (txt "X-Call") []].
Lemma sip_message_roundtrip_witness :
  ∃ w rc, write_msg (zeros 120) 120 (SReq 1 (txt "sip:b@h")) ex_fields (txt "hi") = Ok (w, rc) ∧
    if mlen (msg_txt (SReq 1 (txt "sip:b@h")) ex_fields (txt "hi")) <=? 120 then
      rc = mlen (msg_txt (SReq 1 (txt "sip:b@h")) ex_fields (txt "hi")) ∧
      ∃ m msg, w_buf w = Some m ∧ msg_reads m msg (SReq 1 (txt "sip:b@h")) ex_fields (txt "hi") ∧
        ∀ len, 0 <= len <= mlen m →
          sip_msg_parse true (Some m) len = Ok (if rc <=? len then inr (msg, rc) else inl SIP_E_SHORT)
    else rc = SIP_E_OVERFLOW.
Proof.
  assert (B : ∀ bs : list Z, forallb (λ b, (0 <=? b) && (b <? 256)) bs = true → bytes_ok bs).
  { intros bs H. apply Forall_forall. intros b Hx. rewrite forallb_forall in H. apply list_elem_of_In, H, andb_true_iff in Hx as [H1 H2].
    apply Z.leb_le in H1. apply Z.ltb_lt in H2. lia. }
  assert (V : ∀ v, bool_decide (Forall (λ b, 0 <= b < 256) v ∧ Forall (λ b, b ≠ LF) v ∧
    (v ≠ [] → sip_is_ws (get v 0) = false ∧ sip_is_ws (get v (mlen v - 1)) = false)) = true → val_ok v) by (intros v Hv; by apply bool_decide_eq_true in Hv).
  apply (sip_message_roundtrip (zeros 120) 120 (SReq 1 (txt "sip:b@h")) ex_fields (txt "hi")); [by apply B|by apply B|done|done| | |done|done].
  - split; [done|]. split; [done|]. split; [by repeat constructor|]. split; [by repeat constructor|]. by apply B.
  - repeat constructor; try (by apply V); try done; try by vm_compute.
    all: apply (bool_decide_unpack _); vm_compute; exact I.
Defined.
End SipRound.
