(* ===== verification/SipValue.v ===== *)
(** * SipValue: the value parsers on any slice

    The parsers of [sip_uri.c] read nothing outside the slice they are given, always end, and
    every slice they return lies within it. *)

From stdpp Require Import strings.
From S2P Require Import Prelude Endian SipStr SipMsg SipUri SipScan SipName SipParse.

Module SipValue.
Import SipStr SipMsg SipUri SipScan SipName SipParse.

Lemma str_in_lo lo lo' n s : lo' <= lo → str_in lo n s → str_in lo' n s.
Proof. unfold str_in. destruct (s_p s); [lia|done]. Qed.
Lemma no_str_in lo n : str_in lo n no_str.
Proof. done. Qed.
Lemma str_in_if lo n (b : bool) s : (b = true → str_in lo n s) → str_in lo n (if b then s else no_str).
Proof. destruct b; [|done]. intros H. by apply H. Qed.

(** The test of one octet with the bound in front. *)
Lemma peek_octet m p e c : 0 <= p → e <= mlen m →
  ∃ t : bool, (if p <? e then b ← rd m p; Ok (b =? c) else Ok false) = Ok t ∧ (t = true → p < e ∧ get m p = c).
Proof.
  intros Hp He. destruct (Z.ltb_spec p e); [|by exists false]. rewrite (rd_Ok m p) by lia. bstep.
  eexists. split; [done|]. intros Ht%Z.eqb_eq. done.
Qed.

Lemma parse_hostport_spec m p e : 0 <= p <= e → e <= mlen m → e - p <= INT_MAX →
  ∃ r, parse_hostport m p e = Ok r ∧
    match r with
    | None => True
    | Some (host, port, q) => str_in p e host ∧ 0 < s_len host ∧ 0 <= port <= UINT16_MAX ∧ p <= q <= e
    end.
Proof.
  intros Hp He Hi. unfold parse_hostport. destruct (peek_octet m p e 91) as (br & -> & Hbr); [lia..|]. bstep.
  assert (E : ∃ h, (if br then close ← memchr m p 93 (e - p);
                      Ok (match close with None => None | Some close => Some (sub_str (p + 1) close, close + 1) end)
                    else stop ← find_any m p e (txt ":;? " ++ [9]); Ok (Some (sub_str p stop, stop))) = Ok h ∧
    match h with None => True | Some (host, q) => str_in p e host ∧ p <= q <= e end).
  { destruct br.
    - destruct (memchr_spec m p 93 (e - p)) as (r & -> & Hr); [lia..|]. bstep. eexists. split; [done|].
      destruct r as [q|]; [|done]. assert (q ≠ p) by (intros ->; destruct (Hbr eq_refl), Hr as (_ & ? & _); lia).
      split; [|lia]. apply (str_in_lo (p + 1)); [lia|]. apply sub_str_in; lia.
    - destruct (find_any_spec m p e (txt ":;? " ++ [9])) as (q & -> & Hq & _); [lia..|]. bstep. eexists. split; [done|].
      split; [apply sub_str_in; lia|lia]. }
  destruct E as (h & -> & Hh). bstep. destruct h as [[host q]|]; [|by eexists]. destruct Hh as [Hh Hq].
  destruct (Z.eqb_spec (s_len host) 0); [by eexists|].
  assert (0 < s_len host) by (unfold str_in in Hh; destruct (s_p host); lia).
  destruct (peek_octet m q e 58) as (col & -> & Hcol); [lia..|]. bstep. destruct col.
  - destruct (Hcol eq_refl). destruct (find_any_spec m (q + 1) e (txt ";? " ++ [9])) as (s & -> & Hs & _); [lia..|]. bstep.
    rewrite sip_parse_u32_spec by lia. bstep. destruct (u32_text _) as [v|] eqn:Ev; [|by eexists].
    apply u32_text_range in Ev. destruct (Z.eqb_spec v 0); cbn [orb]; [by eexists|].
    destruct (Z.ltb_spec UINT16_MAX v); eexists; (split; [done|]); [done|]. split_and!; done || lia.
  - eexists. split; [done|]. split_and!; done || lia.
Qed.

Lemma parse_tail_spec m p e : 0 <= p <= e → e <= mlen m → e - p <= INT_MAX →
  ∃ r, parse_tail m p e = Ok r ∧ str_in p e (fst r) ∧ str_in p e (snd r).
Proof.
  intros Hp He Hi. unfold parse_tail. destruct (memchr_spec m p 63 (e - p)) as (q & -> & Hq); [lia..|]. bstep.
  set (pend := match q with Some q => q | None => e end).
  assert (p <= pend <= e) by (unfold pend; destruct q; lia).
  destruct (peek_octet m p pend 59) as (t & -> & Ht); [lia..|]. bstep. eexists. split; [done|]. cbn [fst snd]. split.
  - apply str_in_if. intros Et. destruct (Ht Et). apply (str_in_lo (p + 1)); [lia|]. apply sub_str_in; lia.
  - destruct q as [q|]; [|done]. apply (str_in_lo (q + 1)); [lia|]. apply sub_str_in; lia.
Qed.

Lemma uri_scheme_spec m p n : 0 <= p → 0 <= n → p + n <= mlen m →
  uri_scheme m p n = Ok (if bool_decide (sip_lc <$> slice m p n = txt "sip") then SIP_URI_SIP
    else if bool_decide (sip_lc <$> slice m p n = txt "sips") then SIP_URI_SIPS
    else if bool_decide (sip_lc <$> slice m p n = txt "tel") then SIP_URI_TEL else SIP_URI_OTHER).
Proof.
  intros Hp Hn Hl. unfold uri_scheme.
  assert (E : ∀ r, (if n =? mlen r then sip_ieq m p r else Ok false) = Ok (bool_decide (sip_lc <$> slice m p n = r))).
  { intros r. destruct (Z.eqb_spec n (mlen r)) as [->|Hne]; [by apply sip_ieq_spec|]. rewrite bool_decide_eq_false_2; [done|].
    intros Hr. apply Hne. rewrite <-Hr. unfold mlen. rewrite length_fmap. fold (mlen (slice m p n)). by rewrite mlen_slice by lia. }
  pose proof (E (txt "sip")) as E1. pose proof (E (txt "sips")) as E2. pose proof (E (txt "tel")) as E3.
  change (mlen (txt "sip")) with 3 in E1. change (mlen (txt "sips")) with 4 in E2. change (mlen (txt "tel")) with 3 in E3.
  rewrite E1. bstep. destruct (bool_decide _); [done|]. rewrite E2. bstep. destruct (bool_decide _); [done|]. rewrite E3. bstep.
  by destruct (bool_decide _).
Qed.

(** The slices of a URI. *)
Definition uri_in (lo n : Z) (u : sip_uri) : Prop :=
  SIP_URI_OTHER <= u_scheme u <= SIP_URI_TEL ∧ str_in lo n (u_scheme_name u) ∧ 0 < s_len (u_scheme_name u) ∧
  str_in lo n (u_user u) ∧ str_in lo n (u_host u) ∧ 0 <= u_port u <= UINT16_MAX ∧
  str_in lo n (u_params u) ∧ str_in lo n (u_headers u) ∧ (0 < s_len (u_host u) ∨ u_scheme u = SIP_URI_TEL ∧ 0 < s_len (u_user u)).

Lemma sip_uri_parse_spec m p len : 0 <= p → 0 <= len <= INT_MAX → p + len <= mlen m →
  ∃ r, sip_uri_parse m (Some p) len = Ok r ∧ match r with inl rc => rc = SIP_E_URI | inr u => uri_in p (p + len) u end.
Proof.
  intros Hp Hl Hm. unfold sip_uri_parse. destruct (memchr_spec m p 58 len) as (c & -> & Hc); [lia..|]. bstep.
  destruct c as [c|]; [|by eexists]. destruct (Z.eqb_spec c p); [by eexists|].
  rewrite uri_scheme_spec by lia. bstep. set (sc := if bool_decide _ then _ else _).
  assert (Hsc : SIP_URI_OTHER <= sc <= SIP_URI_TEL) by (unfold sc; repeat destruct (bool_decide _); done).
  clearbody sc. assert (Hn : str_in p (p + len) (sub_str p c)) by (apply sub_str_in; lia).
  assert (0 < s_len (sub_str p c)) by (unfold sub_str; cbn [s_len]; unfold INT_MAX in *; rewrite u32_small by lia; lia).
  destruct (find_any_spec m (c + 1) (p + len) (txt ";?")) as (stop & Es & Hs & _); [lia..|]. rewrite Es.
  assert (Hsub : ∀ a b, p <= a <= b → b <= p + len → str_in p (p + len) (sub_str a b)).
  { intros a b Ha Hb. apply (str_in_lo a); [lia|]. apply sub_str_in; lia. }
  assert (Htail : ∀ q, p <= q <= p + len → ∃ r, parse_tail m q (p + len) = Ok r ∧ str_in p (p + len) (fst r) ∧ str_in p (p + len) (snd r)).
  { intros q Hq. destruct (parse_tail_spec m q (p + len)) as (r & -> & H1 & H2); [lia..|]. exists r.
    split_and!; [done|by apply (str_in_lo q); [lia|]..]. }
  destruct (Z.eqb_spec sc SIP_URI_TEL) as [->|].
  - bstep. destruct (Z.eqb_spec (u32 (stop - (c + 1))) 0); [by eexists|]. destruct (Htail stop) as (t & -> & H1 & H2); [lia|]. bstep.
    eexists. split; [done|]. unfold uri_in. cbn [u_scheme u_scheme_name u_user u_host u_port u_params u_headers]. assert (Hu : str_in p (p + len) (sub_str (c + 1) stop)) by (apply Hsub; lia).
    split_and!; try done; try lia. right. split; [done|].
    unfold str_in in Hu. unfold sub_str in *. cbn [s_p s_len] in *. lia.
  - bstep. destruct (trim_spec (λ b, negb (b =? 64)) m (c + 1) stop) as (a & -> & Ha & _); [lia..|]. bstep.
    assert (E : ∃ user q, (if a =? c + 1 then (no_str, c + 1) else (sub_str (c + 1) (a - 1), a)) = (user, q) ∧
      str_in p (p + len) user ∧ p <= q <= p + len).
    { destruct (Z.eqb_spec a (c + 1)); eexists _, _; split; [done|split; [done|lia]|done|split; [apply Hsub; lia|lia]]. }
    destruct E as (user & q & -> & Hu & Hq). destruct (parse_hostport_spec m q (p + len)) as (h & -> & Hh); [lia..|]. bstep.
    destruct h as [[[host port] q']|]; [|by eexists]. destruct Hh as (H1 & H2 & H3 & H4).
    destruct (Htail q') as (t & -> & H5 & H6); [lia|]. bstep. eexists. split; [done|]. unfold uri_in. cbn [u_scheme u_scheme_name u_user u_host u_port u_params u_headers].
    split_and!; try done; try lia; try by left. apply (str_in_lo q); [lia|done].
Qed.

Lemma sip_ieq2_total m p r : 0 <= p → p + mlen r <= mlen m → ∃ b, sip_ieq2 m p r = Ok b.
Proof. intros. rewrite sip_ieq2_spec by lia. by eexists. Qed.

Lemma param_loop_spec m e name : e <= mlen m → ∀ fuel p lo, 0 <= lo <= p → p <= e → e - lo <= INT_MAX → e - p < Z.of_nat fuel →
  ∃ r, param_loop fuel m p e name = Ok r ∧ match r with None => True | Some s => str_in lo e s end.
Proof.
  intros He. induction fuel as [|fuel IH]; intros p lo Hlo Hp Hi Hf; [lia|]. cbn [param_loop].
  destruct (Z.leb_spec e p); [by eexists|]. destruct (skip_spec semi_or_ws m p e) as (q & -> & Hq & Hqs & Hqe); [lia..|]. bstep.
  destruct (memchr_spec m q 59 (e - q)) as (semi & -> & Hs); [lia..|]. bstep.
  set (pe := match semi with Some s => s | None => e end).
  assert (Hpe : q <= pe <= e ∧ p < pe).
  { unfold pe. destruct semi as [s|]; [|lia]. destruct Hs as (Hs & Hg & _). assert (s ≠ q); [|lia].
    intros ->. unfold semi_or_ws in Hqe. rewrite Hg in Hqe. by discriminate Hqe; lia. }
  destruct (memchr_spec m q 61 (pe - q)) as (eq & -> & He'); [lia..|]. bstep.
  destruct (trim_spec sip_is_ws m q (match eq with Some q => q | None => pe end)) as (ne & -> & Hne & _);
    [destruct eq; lia..|]. bstep.
  assert (E : ∃ hit : bool, (if ne - q =? mlen name then sip_ieq2 m q name else Ok false) = Ok hit).
  { destruct (Z.eqb_spec (ne - q) (mlen name)); [|by eexists]. apply sip_ieq2_total; destruct eq; lia. }
  destruct E as (hit & ->). bstep. destruct hit; [|by apply IH; lia]. destruct eq as [q'|].
  - destruct (skip_spec sip_is_ws m (q' + 1) pe) as (v & -> & Hv & _); [lia..|]. bstep.
    destruct (trim_spec sip_is_ws m v pe) as (ve & -> & Hve & _); [lia..|]. bstep. eexists. split; [done|].
    apply (str_in_lo v); [lia|]. apply sub_str_in; lia.
  - eexists. split; [done|]. unfold str_in. cbn. lia.
Qed.

(** A slice of the buffer that a [uint32_t] length and an [int] return can describe. *)
Definition slice_ok (m : mem) (s : sip_str) : Prop := s_len s <= INT_MAX ∧ str_in 0 (mlen m) s.
(** One slice within another. *)
Definition within (s t : sip_str) : Prop := match s_p t with None => s = no_str | Some p => str_in p (p + s_len t) s end.

Lemma sip_param_spec m s name : slice_ok m s →
  ∃ r, sip_param m s name = Ok r ∧ match r with None => True | Some v => within v s end.
Proof.
  intros [Hi Hs]. unfold sip_param, within, str_in in *. destruct (s_p s) as [p|]; [|by eexists].
  apply (param_loop_spec m (p + s_len s) name); lia.
Qed.
Lemma within_trans s t u : within s t → within t u → within s u.
Proof.
  unfold within. destruct (s_p t) as [p|] eqn:Et; [|intros ->; by destruct (s_p u)]. unfold str_in.
  destruct (s_p u) as [q|]; [rewrite Et; destruct (s_p s); lia|]. intros _ ->. done.
Qed.
Lemma within_ok m s t : slice_ok m t → within s t → slice_ok m s.
Proof.
  unfold within. intros [Hi Ht]. unfold str_in in Ht. destruct (s_p t) as [p|]; [|by intros ->]. unfold slice_ok, str_in, INT_MAX in *.
  destruct (s_p s); lia.
Qed.

Lemma quote_loop_spec m e : e <= mlen m → ∀ fuel q, 0 <= q <= e → e - q < Z.of_nat fuel → ∃ r, quote_loop fuel m q e = Ok r ∧ q <= r.
Proof.
  intros He. induction fuel as [|fuel IH]; intros q Hq Hf; cbn [quote_loop].
  - lia.
  - destruct (Z.leb_spec e q); [exists q; by split|]. rewrite (rd_Ok m q) by lia. bstep.
    destruct (Z.eqb_spec (get m q) 34); [exists q; by split|].
    destruct (Z.eqb_spec (get m q) 92), (Z.ltb_spec (q + 1) e); cbn [andb]; edestruct IH as (r & -> & Hr); try (exists r; split; [done|]); lia.
Qed.

Lemma addr_display_spec m p e : 0 <= p <= e → e <= mlen m → e - p <= INT_MAX →
  ∃ r, addr_display m p e = Ok r ∧
    match r with
    | None => True
    | Some (d, lt) => str_in p e d ∧ match lt with None => True | Some lt => p <= lt < e ∧ get m lt = 60 end
    end.
Proof.
  intros Hp He Hi. unfold addr_display. destruct (peek_octet m p e 34) as (qt & -> & Hqt); [lia..|]. bstep. destruct qt.
  - destruct (Hqt eq_refl). destruct (quote_loop_spec m e He (S (Z.to_nat (e - p))) (p + 1)) as (q & -> & Hq); [lia..|]. bstep.
    destruct (Z.leb_spec e q); [by eexists|]. destruct (memchr_spec m q 60 (e - q)) as (lt & -> & Hlt); [lia..|]. bstep.
    eexists. split; [done|]. destruct lt as [lt|]; [|done]. split; [|split; [lia|apply Hlt]].
    apply (str_in_lo (p + 1)); [lia|]. apply sub_str_in; lia.
  - destruct (memchr_spec m p 60 (e - p)) as (lt & -> & Hlt); [lia..|]. bstep. destruct lt as [lt|]; [|by eexists].
    destruct (trim_spec sip_is_ws m p lt) as (de & -> & Hde & _); [lia..|]. bstep. eexists. split; [done|].
    split; [apply sub_str_in; lia|split; [lia|apply Hlt]].
Qed.
Lemma addr_spec_spec m p e lt : 0 <= p <= e → e <= mlen m → e - p <= INT_MAX →
  match lt with None => True | Some lt => p <= lt < e ∧ get m lt = 60 end →
  ∃ r, addr_spec m p e lt = Ok r ∧ match r with None => True | Some (u, ps) => str_in p e u ∧ 0 < s_len u ∧ str_in p e ps end.
Proof.
  intros Hp He Hi Hlt. unfold INT_MAX in Hi.
  assert (Hsub : ∀ a b, p <= a <= b → b <= e → str_in p e (sub_str a b)).
  { intros a b Ha Hb. apply (str_in_lo a); [lia|]. apply sub_str_in; unfold INT_MAX; lia. }
  assert (Hpos : ∀ a b, p <= a < b → b <= e → 0 < s_len (sub_str a b)).
  { intros a b Ha Hb. unfold sub_str. cbn [s_len]. rewrite u32_small by lia. lia. }
  unfold addr_spec. destruct lt as [lt|].
  - destruct (memchr_spec m lt 62 (e - lt)) as (gt & -> & Hgt); [lia..|]. bstep. destruct gt as [gt|]; [|by eexists].
    destruct (Z.eqb_spec gt (lt + 1)); [by eexists|]. assert (gt ≠ lt) by (intros ->; lia).
    destruct (skip_spec sip_is_ws m (gt + 1) e) as (q & -> & Hq & _); [lia..|]. bstep.
    destruct (peek_octet m q e 59) as (t & -> & Ht); [lia..|]. bstep. eexists. split; [done|].
    split_and!; [apply Hsub; lia|apply Hpos; lia|]. apply str_in_if. intros Et. destruct (Ht Et). apply Hsub; lia.
  - destruct (memchr_spec m p 59 (e - p)) as (semi & -> & Hs); [lia..|]. bstep.
    destruct (trim_spec sip_is_ws m p (match semi with Some s => s | None => e end)) as (ue & -> & Hue & _); [destruct semi; lia..|].
    bstep. destruct (Z.eqb_spec ue p); [by eexists|]. eexists. split; [done|].
    split_and!; [apply Hsub; destruct semi; lia|apply Hpos; destruct semi; lia|]. destruct semi; [apply Hsub; lia|done].
Qed.

Lemma slice_view m p n : slice_ok m (Str (Some p) n) → 0 <= p ∧ 0 <= n <= INT_MAX ∧ p + n <= mlen m.
Proof. unfold slice_ok, str_in. cbn [s_p s_len]. lia. Qed.
Lemma param_in m s t name : slice_ok m t → within s t → ∃ r, sip_param m s name = Ok r ∧ within (or_empty r) t.
Proof.
  intros Ht Hs. destruct (sip_param_spec m s name) as (r & -> & Hr); [by apply (within_ok m s t)|]. exists r. split; [done|].
  destruct r as [r|]; [by apply (within_trans r s t)|]. unfold within. by destruct (s_p t).
Qed.

(** What each parser may return on a slice [s]. *)
Definition uri_out (s : sip_str) (r : Z + sip_uri) : Prop :=
  match r with
  | inl rc => rc = match s_p s with Some _ => SIP_E_URI | None => SIP_E_INVAL end
  | inr u => uri_in (default 0 (s_p s)) (default 0 (s_p s) + s_len s) u
  end.
Definition addr_out (s : sip_str) (r : Z + sip_addr) : Prop :=
  match r with
  | inl rc => rc = match s_p s with Some _ => SIP_E_URI | None => SIP_E_INVAL end
  | inr a => within (a_display a) s ∧ within (a_uri a) s ∧ 0 < s_len (a_uri a) ∧ within (a_params a) s ∧ within (a_tag a) s
  end.
Definition via_out (s : sip_str) (r : Z + sip_via) : Prop :=
  match r with
  | inl rc => rc = match s_p s with Some _ => SIP_E_HEADER | None => SIP_E_INVAL end
  | inr v => within (v_transport v) s ∧ 0 < s_len (v_transport v) ∧ within (v_host v) s ∧ 0 < s_len (v_host v) ∧
      0 <= v_port v <= UINT16_MAX ∧ within (v_params v) s ∧ within (v_branch v) s
  end.
Definition cseq_out (s : sip_str) (r : Z + sip_cseq) : Prop :=
  match r with
  | inl rc => rc = match s_p s with Some _ => SIP_E_HEADER | None => SIP_E_INVAL end
  | inr c => 0 <= c_seq c <= UINT32_MAX ∧ 0 <= c_method c < SIP_M_MAX ∧ within (c_method_name c) s ∧ 0 < s_len (c_method_name c)
  end.

Lemma sip_addr_parse_spec m s : slice_ok m s → ∃ r, sip_addr_parse m s = Ok r ∧ addr_out s r.
Proof.
  intros Hs. unfold sip_addr_parse, addr_out. destruct s as [[p|] n]; cbn [s_p s_len]; [|by eexists].
  pose proof (slice_view m p n Hs) as (Hp & Hn & Hm). destruct (Z.eqb_spec n 0); [by eexists|].
  destruct (skip_spec sip_is_ws m p (p + n)) as (q & -> & Hq & _); [lia..|]. bstep.
  destruct (addr_display_spec m q (p + n)) as (d & -> & Hd); [lia..|]. bstep. destruct d as [[d lt]|]; [|by eexists].
  destruct Hd as [Hd Hlt]. destruct (addr_spec_spec m q (p + n) lt) as (u & -> & Hu); [lia..|done|]. bstep.
  destruct u as [[u ps]|]; [|by eexists]. destruct Hu as (Hu & Hl & Hps).
  assert (W : ∀ t, str_in q (p + n) t → within t (Str (Some p) n)) by (intros t Ht; apply (str_in_lo q); [lia|done]).
  destruct (param_in m ps _ (txt "tag") Hs (W _ Hps)) as (t & -> & Ht). bstep. eexists. split; [done|].
  cbn [a_display a_uri a_params a_tag]. split_and!; auto.
Qed.

Lemma sip_via_parse_spec m s : slice_ok m s → ∃ r, sip_via_parse m s = Ok r ∧ via_out s r.
Proof.
  intros Hs. unfold sip_via_parse, via_out. destruct s as [[p|] n]; cbn [s_p s_len]; [|by eexists].
  pose proof (slice_view m p n Hs) as (Hp & Hn & Hm). replace (p + n - p) with n by lia.
  assert (E : ∃ ok, (if n <? 8 then Ok false else sip_ieq m p (txt "sip/2.0/")) = Ok ok ∧ (ok = true → 8 <= n)).
  { destruct (Z.ltb_spec n 8); [by exists false|]. rewrite sip_ieq_spec by (change (mlen (txt "sip/2.0/")) with 8; lia). by eexists. }
  destruct E as (ok & -> & Hok). bstep. destruct ok; cbn [negb]; [|by eexists]. specialize (Hok eq_refl).
  destruct (find_any_spec m (p + 8) (p + n) [32; 9]) as (te & -> & Hte & _); [lia..|]. bstep.
  destruct (Z.eqb_spec te (p + 8)); cbn [orb]; [by eexists|]. destruct (Z.eqb_spec te (p + n)); [by eexists|].
  destruct (skip_spec sip_is_ws m te (p + n)) as (q & -> & Hq & _); [lia..|]. bstep.
  destruct (parse_hostport_spec m q (p + n)) as (h & -> & Hh); [lia..|]. bstep. destruct h as [[[host port] q']|]; [|by eexists].
  destruct Hh as (H1 & H2 & H3 & H4). destruct (skip_spec sip_is_ws m q' (p + n)) as (r & -> & Hr & _); [lia..|]. bstep.
  destruct (peek_octet m r (p + n) 59) as (t & -> & Ht); [lia..|]. bstep.
  assert (W : ∀ a s, p <= a → str_in a (p + n) s → within s (Str (Some p) n)) by (intros a t' Ha Ht'; by apply (str_in_lo a)).
  assert (Hps : within (if t then sub_str (r + 1) (p + n) else no_str) (Str (Some p) n)).
  { apply str_in_if. intros Et. destruct (Ht Et). apply (W (r + 1)); [lia|]. apply sub_str_in; cbn [s_len]; lia. }
  destruct (param_in m _ _ (txt "branch") Hs Hps) as (b & -> & Hb). bstep. eexists. split; [done|].
  cbn [v_transport v_host v_port v_params v_branch]. split_and!; auto; try lia.
  - apply (W (p + 8)); [lia|]. apply sub_str_in; lia.
  - unfold sub_str. cbn [s_len]. unfold INT_MAX in *. rewrite u32_small by lia. lia.
  - apply (W q); [lia|done].
Qed.

Lemma sip_cseq_parse_spec m s : slice_ok m s → ∃ r, sip_cseq_parse m s = Ok r ∧ cseq_out s r.
Proof.
  intros Hs. unfold sip_cseq_parse, cseq_out. destruct s as [[p|] n]; cbn [s_p s_len]; [|by eexists].
  pose proof (slice_view m p n Hs) as (Hp & Hn & Hm).
  destruct (find_any_spec m p (p + n) [32; 9]) as (sp & -> & Hsp & _); [lia..|]. bstep.
  destruct (Z.eqb_spec sp (p + n)); [by eexists|]. rewrite sip_parse_u32_spec by lia. bstep.
  destruct (u32_text _) as [v|] eqn:Ev; [|by eexists]. apply u32_text_range in Ev.
  destruct (skip_spec sip_is_ws m sp (p + n)) as (q & -> & Hq & _); [lia..|]. bstep.
  destruct (Z.eqb_spec q (p + n)); [by eexists|]. rewrite sip_method_from_eq by lia. bstep. eexists. split; [done|].
  cbn [c_seq c_method c_method_name]. split_and!; try apply method_ref_range; try lia.
  - apply (str_in_lo q); [lia|]. apply sub_str_in; cbn [s_len]; lia.
  - unfold sub_str. cbn [s_len]. unfold INT_MAX in *. rewrite u32_small by lia. lia.
Qed.

(** C21: the value parsers are safe on any slice of the buffer, NULL included.  Each ends with a
    documented error or with slices that lie within the one it was given: a URI with a scheme
    name and a host or a telephone number, an address with a URI, a Via with a transport and
    a host, a CSeq with a number of 32 bits and a method; a parameter is found within the
    parameters it is looked for in. *)
Theorem sip_values_safe m s name : slice_ok m s →
  (∃ r, sip_uri_parse m (s_p s) (s_len s) = Ok r ∧ uri_out s r) ∧ (∃ r, sip_addr_parse m s = Ok r ∧ addr_out s r) ∧
  (∃ r, sip_via_parse m s = Ok r ∧ via_out s r) ∧ (∃ r, sip_cseq_parse m s = Ok r ∧ cseq_out s r) ∧
  (∃ r, sip_param m s name = Ok r ∧ match r with None => True | Some v => within v s end).
Proof.
  intros Hs. split_and!; auto using sip_addr_parse_spec, sip_via_parse_spec, sip_cseq_parse_spec, sip_param_spec.
  destruct s as [[p|] n]; cbn [s_p s_len]; [|by eexists]. apply slice_view in Hs as (Hp & Hn & Hm).
  destruct (sip_uri_parse_spec m p n Hp Hn Hm) as (r & -> & Hr). exists r. split; [done|]. by destruct r.
Qed.
Definition ex_to : list Z := txt "a <sip:b@h>;tag=7".
Lemma sip_values_safe_witness :
  let s := Str (Some 0) 17 in
  (∃ r, sip_uri_parse ex_to (s_p s) (s_len s) = Ok r ∧ uri_out s r) ∧ (∃ r, sip_addr_parse ex_to s = Ok r ∧ addr_out s r) ∧
  (∃ r, sip_via_parse ex_to s = Ok r ∧ via_out s r) ∧ (∃ r, sip_cseq_parse ex_to s = Ok r ∧ cseq_out s r) ∧
  (∃ r, sip_param ex_to s (txt "tag") = Ok r ∧ match r with None => True | Some v => within v s end).
Proof. intros s. apply (sip_values_safe ex_to s (txt "tag")). done. Defined.
End SipValue.
