(* ===== verification/SipUriRound.v ===== *)
(** * SipUriRound: URIs, parameters and Via values, written and parsed back

    The text of a URI, of a parameter list and of a Via value as RFC 3261 composes them,
    and that the parsers of SipUri slice it into the parts it was composed of. *)

From stdpp Require Import strings.
From S2P Require Import Prelude Endian SipStr SipMsg SipUri SipScan SipName SipParse SipRound SipValue.

Module SipUriRound.
Import SipStr SipMsg SipUri SipScan SipName SipParse SipRound SipValue.

(** ** Scanning a text known in parts *)

Definition heads (set b : list Z) : Prop := match b with [] => True | c :: _ => c ∈ set end.
Lemma part_get m p a b i : holds m p (a ++ b) → p <= i < p + mlen a → get m i = get a (i - p).
Proof.
  intros H Hi. pose proof (mlen_nonneg b). replace i with (p + (i - p)) at 1 by lia.
  rewrite (text_get m p (a ++ b)), get_app_l by (rewrite ?mlen_app; lia || done). done.
Qed.
Lemma part_Forall (P : Z → Prop) m p a b i : holds m p (a ++ b) → Forall P a → p <= i < p + mlen a → P (get m i).
Proof. intros H HF Hi. rewrite (part_get m p a b i H Hi). apply get_Forall; [done|lia]. Qed.
Lemma next_get m p a c b : holds m p (a ++ c :: b) → get m (p + mlen a) = c.
Proof.
  intros H. pose proof (mlen_nonneg a). pose proof (mlen_nonneg b).
  rewrite (text_get m p (a ++ c :: b)), get_app_ge, Z.sub_diag by (rewrite ?mlen_app, ?mlen_cons; lia || done). done.
Qed.

Lemma find_any_text m p e a b set : holds m p (a ++ b) → e = p + mlen (a ++ b) → Forall (λ c, c ∉ set) a → heads set b →
  find_any m p e set = Ok (p + mlen a).
Proof.
  intros H -> Ha Hb. destruct (holds_pos _ _ _ H). rewrite mlen_app in *. pose proof (mlen_nonneg a). pose proof (mlen_nonneg b).
  apply find_any_at; try lia.
  - intros i Hi. by apply (part_Forall (λ c, c ∉ set) m p a b).
  - intros Hlt. destruct b as [|c b]; [rewrite mlen_nil in Hlt; lia|]. by rewrite (next_get m p a c b).
Qed.
Lemma memchr_text m p a c b n : holds m p (a ++ c :: b) → Forall (λ x, x ≠ c) a → mlen a < n → memchr m p c n = Ok (Some (p + mlen a)).
Proof.
  intros H Ha Hn. destruct (holds_pos _ _ _ H). rewrite mlen_app, mlen_cons in *. pose proof (mlen_nonneg a). pose proof (mlen_nonneg b).
  apply memchr_at; try lia; [by apply (next_get m p a c b)|]. intros i Hi. by apply (part_Forall (λ x, x ≠ c) m p a (c :: b)).
Qed.
Lemma memchr_text_none m p a c n : holds m p a → Forall (λ x, x ≠ c) a → n = mlen a → memchr m p c n = Ok None.
Proof.
  intros H Ha ->. destruct (holds_pos _ _ _ H). pose proof (mlen_nonneg a). apply memchr_none; try lia.
  intros i Hi. rewrite <-(app_nil_r a) in H. by apply (part_Forall (λ x, x ≠ c) m p a []).
Qed.
Definition starts_with (c : Z) (t : list Z) : bool := match t with x :: _ => x =? c | [] => false end.
Lemma peek_text m p e t c : holds m p t → e = p + mlen t →
  (if p <? e then b ← rd m p; Ok (b =? c) else Ok false) = Ok (starts_with c t).
Proof.
  intros H ->. destruct (holds_pos _ _ _ H). destruct t as [|x t].
  - rewrite mlen_nil, Z.add_0_r, Z.ltb_irrefl. done.
  - rewrite mlen_cons in *. pose proof (mlen_nonneg t). rewrite (proj2 (Z.ltb_lt _ _)), (rd_Ok m p) by lia. bstep.
    pose proof (next_get m p [] x t H) as E. rewrite mlen_nil, Z.add_0_r in E. by rewrite E.
Qed.
Lemma skip_text f m p e a b : holds m p (a ++ b) → e = p + mlen (a ++ b) → Forall (λ c, f c = true) a →
  match b with [] => True | c :: _ => f c = false end → skip f m p e = Ok (p + mlen a).
Proof.
  intros H -> Ha Hb. destruct (holds_pos _ _ _ H). rewrite mlen_app in *. pose proof (mlen_nonneg a). pose proof (mlen_nonneg b).
  apply skip_at; try lia.
  - intros i Hi. by apply (part_Forall (λ c, f c = true) m p a b).
  - intros Hlt. destruct b as [|c b]; [rewrite mlen_nil in Hlt; lia|]. by rewrite (next_get m p a c b).
Qed.
(** [trim] over [b] back to the end of [a], which is empty or ends outside the class. *)
Lemma trim_text f m p e a b : holds m p (a ++ b) → e = p + mlen (a ++ b) → Forall (λ c, f c = true) b →
  match last a with None => True | Some c => f c = false end → trim f m p e = Ok (p + mlen a).
Proof.
  intros H -> Hb Ha. destruct (holds_pos _ _ _ H). rewrite mlen_app in *. pose proof (mlen_nonneg a). pose proof (mlen_nonneg b).
  destruct (trim_spec f m p (p + (mlen a + mlen b))) as (q & -> & Hq & Hqb & Hqf); [lia..|]. f_equal.
  assert (Hge : p + mlen a <= q).
  { destruct (Z.le_gt_cases (p + mlen a) q); [done|]. exfalso. destruct a as [|x a _] using rev_ind; [rewrite mlen_nil in *; lia|].
    rewrite last_snoc in Ha. rewrite <-app_assoc in H. pose proof (next_get m p a x b H) as E. rewrite mlen_app in *. change (mlen [x]) with 1 in *.
    rewrite <-E, Hqb in Ha by lia. done. }
  destruct (Z.eq_dec q (p + mlen a)); [done|]. exfalso. assert (Hlt : p < q) by lia. apply Hqf in Hlt.
  apply holds_app in H as [_ HB]. rewrite <-(app_nil_r b) in HB.
  rewrite (part_Forall (λ c, f c = true) m (p + mlen a) b [] (q - 1) HB Hb) in Hlt by lia. done.
Qed.

(** ** URIs *)

(** The parts of a URI: one with an authority, its host in brackets or not, or a telephone
    number. *)
Record tail := Tail { t_params : option (list Z); t_headers : option (list Z) }.
Inductive uri :=
  | USip (scheme : list Z) (user : option (list Z)) (bracketed : bool) (host : list Z) (port : option Z) (tl : tail)
  | UTel (scheme : list Z) (number : list Z) (tl : tail).

Definition opt_txt (c : Z) (o : option (list Z)) : list Z := match o with None => [] | Some t => c :: t end.
Definition tail_txt (tl : tail) : list Z := opt_txt 59 (t_params tl) ++ opt_txt 63 (t_headers tl).
Definition host_txt (bracketed : bool) (host : list Z) : list Z := if bracketed then [91] ++ host ++ [93] else host.
Definition port_txt (port : option Z) : list Z := match port with None => [] | Some v => 58 :: dec v end.
Definition user_txt (user : option (list Z)) : list Z := match user with None => [] | Some u => u ++ [64] end.
Definition uri_txt (u : uri) : list Z :=
  match u with
  | USip scheme user br host port tl => scheme ++ [58] ++ user_txt user ++ host_txt br host ++ port_txt port ++ tail_txt tl
  | UTel scheme number tl => scheme ++ [58] ++ number ++ tail_txt tl
  end.

Definition free (set t : list Z) : Prop := Forall (λ c, c ∉ set) t.
Definition tail_ok (tl : tail) : Prop := match t_params tl with None => True | Some ps => free [63] ps end.
Definition host_ok (br : bool) (host : list Z) : Prop :=
  host ≠ [] ∧ if br then free [93; 59; 63; 64] host else free [91; 58; 59; 63; 32; 9; 64] host.
Definition port_ok (port : option Z) : Prop := match port with None => True | Some v => 0 < v <= UINT16_MAX end.
Definition uri_ok (u : uri) : Prop :=
  match u with
  | USip scheme user br host port tl =>
      scheme ≠ [] ∧ free [58] scheme ∧ sip_lc <$> scheme ≠ txt "tel" ∧ match user with None => True | Some u => free [59; 63] u end ∧
      host_ok br host ∧ port_ok port ∧ tail_ok tl
  | UTel scheme number tl => free [58] scheme ∧ sip_lc <$> scheme = txt "tel" ∧ number ≠ [] ∧ free [59; 63] number ∧ tail_ok tl
  end.

(** A slice that reads as the text, and one of a part that may be absent. *)
Definition reads (m : mem) (s : sip_str) (t : list Z) : Prop := ∃ p, s = Str (Some p) (mlen t) ∧ slice m p (mlen t) = t.
Definition reads_opt (m : mem) (s : sip_str) (o : option (list Z)) : Prop :=
  match o with None => s = no_str | Some t => reads m s t end.
Definition scheme_of (scheme : list Z) : Z :=
  let l := sip_lc <$> scheme in
  if bool_decide (l = txt "sip") then SIP_URI_SIP else if bool_decide (l = txt "sips") then SIP_URI_SIPS
  else if bool_decide (l = txt "tel") then SIP_URI_TEL else SIP_URI_OTHER.
Definition uri_reads (m : mem) (r : sip_uri) (u : uri) : Prop :=
  match u with
  | USip scheme user _ host port tl =>
      u_scheme r = scheme_of scheme ∧ reads m (u_scheme_name r) scheme ∧ reads_opt m (u_user r) user ∧ reads m (u_host r) host ∧
      u_port r = default 0 port ∧ reads_opt m (u_params r) (t_params tl) ∧ reads_opt m (u_headers r) (t_headers tl)
  | UTel scheme number tl =>
      u_scheme r = SIP_URI_TEL ∧ reads m (u_scheme_name r) scheme ∧ reads m (u_user r) number ∧ u_host r = no_str ∧ u_port r = 0 ∧
      reads_opt m (u_params r) (t_params tl) ∧ reads_opt m (u_headers r) (t_headers tl)
  end.

Lemma sub_reads m p e t : mlen m <= INT_MAX → holds m p t → e = p + mlen t → reads m (sub_str p e) t.
Proof.
  intros Hi H ->. pose proof (mlen_nonneg t). destruct (holds_pos _ _ _ H). exists p. unfold sub_str, INT_MAX in *.
  rewrite u32_small by lia. split; [f_equal; lia|apply H].
Qed.
Lemma free_ne c t : free [c] t → Forall (λ x, x ≠ c) t.
Proof. intros H. eapply Forall_impl; [exact H|]. set_solver. Qed.
Lemma free_sub s1 s2 t : (∀ c, c ∈ s2 → c ∈ s1) → free s1 t → free s2 t.
Proof. intros Hs H. eapply Forall_impl; [exact H|]. auto. Qed.
Lemma dec_free set v : 0 <= v <= UINT32_MAX → Forall (λ c, sip_is_digit c = false) set → free set (dec v).
Proof.
  intros Hv Hs. destruct (dec_spec v Hv) as (_ & Hd & _). rewrite forallb_forall in Hd. apply Forall_forall. intros c Hc Hx.
  rewrite Forall_forall in Hs. apply list_elem_of_In, Hd in Hc. by rewrite Hs in Hc.
Qed.

Lemma parse_tail_text m p e tl : mlen m <= INT_MAX → holds m p (tail_txt tl) → e = p + mlen (tail_txt tl) → tail_ok tl →
  ∃ r, parse_tail m p e = Ok r ∧ reads_opt m (fst r) (t_params tl) ∧ reads_opt m (snd r) (t_headers tl).
Proof.
  intros Hi H -> Hok. destruct tl as [ps hs]. unfold tail_txt, tail_ok in *. cbn [t_params t_headers] in *. set (a := opt_txt 59 ps) in *.
  assert (Ha : Forall (λ x, x ≠ 63) a).
  { unfold a. destruct ps as [ps|]; [|done]. constructor; [done|]. by apply free_ne. }
  pose proof (mlen_nonneg a). pose proof (holds_app _ _ _ _ H) as [HA HH].
  assert (Hps : ∀ pend, pend = p + mlen a → ∃ t : bool, (if p <? pend then b ← rd m p; Ok (b =? 59) else Ok false) = Ok t ∧
    reads_opt m (if t then sub_str (p + 1) pend else no_str) ps).
  { intros pend ->. rewrite (peek_text m p _ a) by done. eexists. split; [done|]. unfold a in *. destruct ps as [ps|]; [|done].
    cbn [starts_with opt_txt]. rewrite Z.eqb_refl. apply (holds_app m p [59] ps) in HA as [_ HA]. apply sub_reads; [done|done|mlia]. }
  unfold parse_tail. destruct hs as [hs|]; cbn [opt_txt] in *.
  - rewrite (memchr_text m p a 63 hs) by (done || (rewrite mlen_app, mlen_cons; pose proof (mlen_nonneg hs); lia)). bstep.
    destruct (Hps _ eq_refl) as (t & -> & Ht). bstep. eexists. split; [done|]. split; [done|]. cbn [snd reads_opt].
    apply (holds_app m _ [63] hs) in HH as [_ HH]. apply sub_reads; [done|done|mlia].
  - rewrite app_nil_r in *. rewrite (memchr_text_none m p a) by (done || lia). bstep. destruct (Hps _ eq_refl) as (t & -> & Ht). bstep.
    eexists. split; [done|]. done.
Qed.
Lemma tail_heads tl : heads [59; 63] (tail_txt tl).
Proof. destruct tl as [[ps|] [hs|]]; cbn; set_solver. Qed.

Lemma parse_hostport_text m p e br host port rest : mlen m <= INT_MAX → host_ok br host → port_ok port → heads [59; 63; 32; 9] rest →
  holds m p (host_txt br host ++ port_txt port ++ rest) → e = p + mlen (host_txt br host ++ port_txt port ++ rest) →
  ∃ h, parse_hostport m p e = Ok (Some (h, default 0 port, p + mlen (host_txt br host ++ port_txt port))) ∧ reads m h host.
Proof.
  intros Hi [Hne Hh] Hport Hr H ->. pose proof (holds_app _ _ _ _ H) as [HH HP]. set (pr := port_txt port ++ rest) in *.
  assert (Hn1 : 0 < mlen host) by (pose proof (mlen_pos host Hne) as E; apply Z.eqb_neq in E; pose proof (mlen_nonneg host); lia).
  unfold parse_hostport. rewrite (peek_text m p _ _ 91 H eq_refl). bstep.
  set (e := p + mlen (host_txt br host ++ pr)).
  assert (E : ∃ h, (if starts_with 91 (host_txt br host ++ pr) then close ← memchr m p 93 (e - p);
                      Ok (match close with None => None | Some close => Some (sub_str (p + 1) close, close + 1) end)
                    else stop ← find_any m p e (txt ":;? " ++ [9]); Ok (Some (sub_str p stop, stop))) =
                   Ok (Some (h, p + mlen (host_txt br host))) ∧ reads m h host).
  { destruct br; cbn [host_txt] in *.
    - cbn [app starts_with]. rewrite Z.eqb_refl. rewrite (memchr_text m p (91 :: host) 93 pr).
      + bstep. eexists. split; [do 3 f_equal; mlia|]. apply (holds_app m p [91]) in HH as [_ HH]. apply holds_app in HH as [HH _].
        change (mlen [91]) with 1 in HH. apply sub_reads; [done|done|mlia].
      + cbn [app] in H |- *. by rewrite <-app_assoc in H.
      + constructor; [done|]. apply free_ne, (free_sub [93; 59; 63; 64]); [set_solver|done].
      + unfold e. cbn [host_txt app]. pose proof (mlen_nonneg pr). mlia.
    - assert (starts_with 91 (host ++ pr) = false) as ->.
      { destruct host as [|x host]; [done|]. cbn. apply Z.eqb_neq. apply Forall_cons in Hh as [Hx _]. set_solver. }
      rewrite (find_any_text m p e host pr); [|done|done|..].
      + bstep. eexists. split; [done|]. by apply sub_reads.
      + apply (free_sub [91; 58; 59; 63; 32; 9; 64]); [|done]. change (txt ":;? " ++ [9]) with [58; 59; 63; 32; 9]. set_solver.
      + change (txt ":;? " ++ [9]) with [58; 59; 63; 32; 9]. unfold pr. destruct port; cbn; [set_solver|].
        destruct rest; [done|]. cbn in *. set_solver. }
  destruct E as (h & -> & Hrd). bstep. exists h. split; [|done].
  destruct Hrd as (hp & -> & _). cbn [s_len]. rewrite (proj2 (Z.eqb_neq (mlen host) 0)) by lia.
  rewrite (peek_text m _ e pr 58 HP) by (unfold e; mlia). bstep. unfold pr in *. destruct port as [v|]; cbn [port_txt default] in *.
  - unfold port_ok, UINT16_MAX in Hport. destruct (dec_spec v ltac:(unfold UINT32_MAX; lia)) as (_ & Hd & Hl & Ht).
    cbn [app starts_with]. rewrite Z.eqb_refl. apply (holds_app m _ [58]) in HP as [_ HP]. change (mlen [58]) with 1 in HP.
    assert (Hs : txt ";? " ++ [9] = [59; 63; 32; 9]) by reflexivity. rewrite Hs.
    rewrite (find_any_text m _ e (dec v) rest _ HP); [|unfold e; mlia|apply dec_free; [unfold UINT32_MAX; lia|by repeat constructor]|done]. bstep.
    apply holds_app in HP as [HP _]. destruct (holds_pos _ _ _ HP). rewrite sip_parse_u32_spec by lia.
    replace (p + mlen (host_txt br host) + 1 + mlen (dec v) - (p + mlen (host_txt br host) + 1)) with (mlen (dec v)) by lia.
    destruct HP as (_ & _ & ->). rewrite Ht. bstep. rewrite (proj2 (Z.eqb_neq v 0)), (proj2 (Z.ltb_ge UINT16_MAX v)) by (unfold UINT16_MAX; lia).
    cbn [orb]. do 3 f_equal. mlia.
  - rewrite app_nil_l, app_nil_r. replace (starts_with 58 rest) with false; [done|]. destruct rest as [|x rest]; [done|]. cbn in *.
    symmetry. apply Z.eqb_neq. set_solver.
Qed.

Lemma host_free br host : host_ok br host → free [59; 63; 64] (host_txt br host).
Proof.
  intros [_ H]. destruct br; cbn [host_txt].
  - apply Forall_app. split; [repeat constructor; set_solver|]. apply Forall_app. split; [|repeat constructor; set_solver].
    apply (free_sub [93; 59; 63; 64]); [set_solver|done].
  - apply (free_sub [91; 58; 59; 63; 32; 9; 64]); [set_solver|done].
Qed.
Lemma port_free port : port_ok port → free [59; 63; 64] (port_txt port).
Proof.
  intros H. destruct port as [v|]; cbn [port_txt port_ok] in *; [|by constructor]. constructor; [set_solver|].
  apply dec_free; [unfold UINT16_MAX, UINT32_MAX in *; lia|by repeat constructor].
Qed.
Lemma user_last user : match last (user_txt user) with None => True | Some c => negb (c =? 64) = false end.
Proof. destruct user as [u|]; [|exact I]. cbn [user_txt]. by rewrite last_snoc. Qed.

Lemma colon_scheme m p scheme rest n : scheme ≠ [] → free [58] scheme → holds m p (scheme ++ [58] ++ rest) → n = mlen (scheme ++ [58] ++ rest) →
  memchr m p 58 n = Ok (Some (p + mlen scheme)) ∧ (p + mlen scheme =? p) = false ∧
  uri_scheme m p (p + mlen scheme - p) = Ok (scheme_of scheme).
Proof.
  intros Hne Hf H ->. pose proof (mlen_pos scheme Hne) as E. apply Z.eqb_neq in E. pose proof (mlen_nonneg scheme). pose proof (mlen_nonneg rest).
  destruct (holds_pos _ _ _ H). split_and!.
  - apply (memchr_text m p scheme 58 rest); [done|by apply free_ne|mlia].
  - apply Z.eqb_neq. lia.
  - replace (p + mlen scheme - p) with (mlen scheme) by lia. rewrite mlen_app in *. pose proof (mlen_nonneg ([58] ++ rest)). rewrite uri_scheme_spec by lia.
    apply holds_app in H as [(_ & _ & ->) _]. done.
Qed.

Lemma sip_uri_text m p u : mlen m <= INT_MAX → uri_ok u → holds m p (uri_txt u) →
  ∃ r, sip_uri_parse m (Some p) (mlen (uri_txt u)) = Ok (inr r) ∧ uri_reads m r u.
Proof.
  intros Hi Hok H. unfold sip_uri_parse. destruct u as [scheme user br host port tl|scheme number tl]; cbn [uri_ok uri_txt] in *.
  - destruct Hok as (Hs & Hsf & Htel & Hu & Hh & Hp & Ht).
    set (rest := user_txt user ++ host_txt br host ++ port_txt port ++ tail_txt tl) in *.
    destruct (colon_scheme m p scheme rest _ Hs Hsf H eq_refl) as (E1 & E2 & E3).
    rewrite E1. bstep. rewrite E2, E3. bstep. cbv iota beta zeta.
    pose proof (holds_app _ _ _ _ H) as [HS H']. apply holds_app in H' as [_ HR]. change (mlen [58]) with 1 in HR.
    set (q := p + mlen scheme + 1) in *. replace (p + mlen (scheme ++ [58] ++ rest)) with (q + mlen rest) by (unfold q; mlia).
    replace (scheme_of scheme =? SIP_URI_TEL) with false.
    2:{ symmetry. apply Z.eqb_neq. unfold scheme_of. cbv zeta. rewrite (bool_decide_eq_false_2 _ Htel). by repeat destruct (bool_decide _). }
    set (hp := host_txt br host ++ port_txt port). assert (Er : rest = (user_txt user ++ hp) ++ tail_txt tl) by (unfold rest, hp; by rewrite <-!app_assoc).
    assert (Hhp : free [59; 63; 64] hp) by (apply Forall_app; split; [by apply host_free|by apply port_free]).
    pose proof HR as HR'. rewrite Er in HR'. rewrite (find_any_text m q _ (user_txt user ++ hp) (tail_txt tl) _ HR'); [|by rewrite Er| |apply tail_heads].
    2:{ apply Forall_app. split; [|apply (free_sub [59; 63; 64]); [set_solver|done]]. destruct user as [u|]; [|by constructor].
        apply Forall_app. split; [done|repeat constructor; set_solver]. }
    bstep. pose proof HR' as HR2. apply holds_app in HR2 as [HR2 HT].
    rewrite (trim_text _ m q _ (user_txt user) hp HR2 eq_refl); [| |apply user_last].
    2:{ eapply Forall_impl; [exact Hhp|]. cbn. intros c Hc. apply negb_true_iff, Z.eqb_neq. set_solver. }
    bstep. assert (E : ∃ us, (if q + mlen (user_txt user) =? q then (no_str, q) else (sub_str q (q + mlen (user_txt user) - 1), q + mlen (user_txt user))) =
      (us, q + mlen (user_txt user)) ∧ reads_opt m us user).
    { destruct user as [u|]; cbn [user_txt] in *.
      - rewrite (proj2 (Z.eqb_neq _ q)) by (pose proof (mlen_nonneg u); mlia). eexists. split; [done|]. apply holds_app in HR2 as [HR2 _].
        apply holds_app in HR2 as [HR2 _]. apply sub_reads; [done|done|mlia].
      - rewrite mlen_nil, Z.add_0_r, Z.eqb_refl. by eexists. }
    destruct E as (us & -> & Hus). unfold rest in HR. apply holds_app in HR as [_ HR].
    destruct (parse_hostport_text m (q + mlen (user_txt user)) (q + mlen rest) br host port (tail_txt tl)) as (h & -> & Hrd); try done.
    { pose proof (tail_heads tl) as Hx. destruct (tail_txt tl); cbn in *; [done|set_solver]. }
    { unfold rest. mlia. }
    bstep. fold hp. replace (q + mlen (user_txt user) + mlen hp) with (q + mlen (user_txt user ++ hp)) by mlia.
    destruct (parse_tail_text m (q + mlen (user_txt user ++ hp)) (q + mlen rest) tl Hi HT) as (t & -> & H1 & H2); [rewrite Er; mlia|done|]. bstep.
    eexists. split; [done|]. cbn [uri_reads u_scheme u_scheme_name u_user u_host u_port u_params u_headers]. split_and!; try done. by apply sub_reads.
  - destruct Hok as (Hsf & Htel & Hn & Hnf & Ht). assert (Hs : scheme ≠ []) by (intros ->; done).
    set (rest := number ++ tail_txt tl) in *. destruct (colon_scheme m p scheme rest _ Hs Hsf H eq_refl) as (E1 & E2 & E3).
    rewrite E1. bstep. rewrite E2, E3. bstep. cbv iota beta zeta.
    pose proof (holds_app _ _ _ _ H) as [HS H']. apply holds_app in H' as [_ HR]. change (mlen [58]) with 1 in HR.
    set (q := p + mlen scheme + 1) in *. replace (p + mlen (scheme ++ [58] ++ rest)) with (q + mlen rest) by (unfold q; mlia).
    assert (scheme_of scheme = SIP_URI_TEL) as -> by (unfold scheme_of; cbv zeta; rewrite Htel; done). rewrite Z.eqb_refl.
    change (txt ";?") with [59; 63]. rewrite (find_any_text m q (q + mlen rest) number (tail_txt tl) _ HR eq_refl Hnf (tail_heads tl)). bstep. apply holds_app in HR as [HN HT].
    pose proof (mlen_pos number Hn) as E. apply Z.eqb_neq in E. pose proof (mlen_nonneg number) as Hn0. destruct (holds_pos _ _ _ HN) as [Hq0 Hq1].
    unfold INT_MAX in *. rewrite u32_small, (proj2 (Z.eqb_neq _ 0)) by lia.
    destruct (parse_tail_text m (q + mlen number) (q + mlen rest) tl Hi HT) as (t & -> & H1 & H2); [unfold rest; mlia|done|]. bstep.
    eexists. split; [done|]. cbn [uri_reads u_scheme u_scheme_name u_user u_host u_port u_params u_headers]. split_and!; try done; by apply sub_reads.
Qed.

(** C20: a URI is parsed into the parts it was composed of: wherever its text stands in the
    buffer, the scheme with its kind in any case of letters, the user up to the last '@'
    (which it may itself contain), the host without its brackets, the port, the parameters
    and the headers come back as slices of it, absent parts as absent; likewise the number
    of a telephone URI. *)
Theorem sip_uri_roundtrip m p u : mlen m <= INT_MAX → uri_ok u → holds m p (uri_txt u) →
  ∃ r, sip_uri_parse m (Some p) (mlen (uri_txt u)) = Ok (inr r) ∧ uri_reads m r u.
Proof. apply sip_uri_text. Qed.
Definition ex_uri : uri := USip (txt "SIPS") (Some (txt "a@b:c")) true (txt "::1") (Some 5061) (Tail (Some (txt "lr")) None).
Lemma sip_uri_roundtrip_witness :
  ∃ r, sip_uri_parse (uri_txt ex_uri) (Some 0) (mlen (uri_txt ex_uri)) = Ok (inr r) ∧ uri_reads (uri_txt ex_uri) r ex_uri.
Proof.
  apply (sip_uri_roundtrip (uri_txt ex_uri) 0 ex_uri); [done| |done].
  cbn [ex_uri uri_ok]. unfold host_ok, port_ok, tail_ok, free. split_and!; try done; apply (bool_decide_unpack _); vm_compute; exact I.
Defined.

(** ** Parameters *)

Definition param : Type := list Z * option (list Z).
Definition param_txt (a : param) : list Z := fst a ++ opt_txt 61 (snd a).
Fixpoint params_txt (l : list param) : list Z :=
  match l with [] => [] | [a] => param_txt a | a :: l => param_txt a ++ 59 :: params_txt l end.
Definition edges_ok (v : list Z) : Prop :=
  match v with [] => True | c :: _ => sip_is_ws c = false end ∧ match last v with None => True | Some c => sip_is_ws c = false end.
Definition param_ok (a : param) : Prop :=
  fst a ≠ [] ∧ free [59; 61; 32; 9] (fst a) ∧ match snd a with None => True | Some v => free [59] v ∧ edges_ok v end.
(** The first parameter of that name, in any case of letters. *)
Definition find_param (name : list Z) (l : list param) : option (option (list Z)) :=
  snd <$> head (filter (λ a, sip_lc <$> fst a = sip_lc <$> name) l).
Definition param_reads (m : mem) (r : option sip_str) (o : option (option (list Z))) : Prop :=
  match o with
  | None => r = None
  | Some None => ∃ q, r = Some (Str (Some q) 0)
  | Some (Some v) => ∃ s, r = Some s ∧ reads m s v
  end.

(** What follows a parameter, and where the next turn of the loop starts. *)
Definition sep (l : list param) : list Z := match l with [] => [] | _ => [59] end.
Lemma params_txt_cons a l : params_txt (a :: l) = param_txt a ++ sep l ++ params_txt l.
Proof. destruct l; cbn [params_txt sep]; [by rewrite !app_nil_r|done]. Qed.
Lemma last_free set c t : free set t → last t = Some c → c ∉ set.
Proof. intros HF Hl. apply (Forall_forall (λ c, c ∉ set) t) with (x := c) in HF; [done|]. by apply last_Some_elem_of. Qed.
Lemma ws_free c : c ∉ [32; 9] → sip_is_ws c = false.
Proof. intros H. unfold sip_is_ws. apply orb_false_iff. rewrite !Z.eqb_neq. set_solver. Qed.

(** One turn of the loop, up to the comparison of the name. *)
Lemma param_name m q e a rest : param_ok a → holds m q (param_txt a ++ rest) → e = q + mlen (param_txt a ++ rest) → heads [59] rest →
  let pe := q + mlen (param_txt a) in let ne := q + mlen (fst a) in
  ∃ semi, memchr m q 59 (e - q) = Ok semi ∧ match semi with Some s => s | None => e end = pe ∧
    memchr m q 61 (pe - q) = Ok (match snd a with None => None | Some _ => Some ne end) ∧
    (match snd a with None => pe | Some _ => ne end = ne) ∧ trim sip_is_ws m q ne = Ok ne.
Proof.
  intros (Hne & Hf & Hv) H -> Hr. pose proof (holds_app _ _ _ _ H) as [HA _]. cbv zeta. pose proof (mlen_nonneg rest).
  assert (H59 : Forall (λ x, x ≠ 59) (param_txt a)).
  { unfold param_txt. apply Forall_app. split; [apply free_ne, (free_sub [59; 61; 32; 9]); [set_solver|done]|].
    destruct (snd a) as [v|]; cbn [opt_txt]; constructor; [done|]. apply free_ne, Hv. }
  assert (E : ∃ semi, memchr m q 59 (q + mlen (param_txt a ++ rest) - q) = Ok semi ∧
    match semi with Some s => s | None => q + mlen (param_txt a ++ rest) end = q + mlen (param_txt a)).
  { destruct rest as [|c rest].
    - rewrite app_nil_r in *. rewrite (memchr_text_none m q (param_txt a)); [by eexists|done|done|lia].
    - assert (c = 59) as -> by (cbn in Hr; set_solver). eexists. split; [apply (memchr_text m q (param_txt a) 59 rest); [done|done|]|done].
      rewrite mlen_app, mlen_cons. pose proof (mlen_nonneg rest). lia. }
  destruct E as (semi & E1 & E2). exists semi. split_and!; [done|done|..].
  - replace (q + mlen (param_txt a) - q) with (mlen (param_txt a)) by lia. unfold param_txt in *.
    assert (H61 : Forall (λ x, x ≠ 61) (fst a)) by (apply free_ne, (free_sub [59; 61; 32; 9]); [set_solver|done]).
    destruct (snd a) as [v|]; cbn [opt_txt] in *.
    + apply (memchr_text m q (fst a) 61 v); [done|done|rewrite mlen_app, mlen_cons; pose proof (mlen_nonneg v); lia].
    + rewrite app_nil_r in *. by apply (memchr_text_none m q (fst a)).
  - unfold param_txt. destruct (snd a); [done|]. cbn [opt_txt]. by rewrite app_nil_r.
  - unfold param_txt in HA. apply holds_app in HA as [HA _]. rewrite <-(app_nil_r (fst a)) in HA.
    apply (trim_text sip_is_ws m q _ (fst a) []); [done|by rewrite app_nil_r|done|].
    destruct (last (fst a)) as [c|] eqn:El; [|done]. apply ws_free. eapply last_free in El; [|exact Hf]. set_solver.
Qed.
Lemma param_hit m q (a : param) name : holds m q (fst a) →
  (if q + mlen (fst a) - q =? mlen name then sip_ieq2 m q name else Ok false) = Ok (bool_decide (sip_lc <$> fst a = sip_lc <$> name)).
Proof.
  intros (Hq & Hl & Hs). replace (q + mlen (fst a) - q) with (mlen (fst a)) by lia. destruct (Z.eqb_spec (mlen (fst a)) (mlen name)) as [E|E].
  - rewrite sip_ieq2_spec by lia. by rewrite <-E, Hs.
  - rewrite bool_decide_eq_false_2; [done|]. intros Hx. apply E. apply (f_equal length) in Hx. rewrite !length_fmap in Hx. unfold mlen. by rewrite Hx.
Qed.

Lemma param_loop_text m e name : mlen m <= INT_MAX → ∀ l fuel p w, Forall param_ok l → holds m p (w ++ params_txt l) → e = p + mlen (w ++ params_txt l) →
  (l = [] → w = []) → Forall (λ c, semi_or_ws c = true) w → e - p < Z.of_nat fuel →
  ∃ r, param_loop fuel m p e name = Ok r ∧ param_reads m r (find_param name l).
Proof.
  intros Hi. induction l as [|a l IH]; intros fuel p w Hl H He Hw Hws Hf.
  - rewrite Hw in * by done. cbn [app params_txt] in *. rewrite mlen_nil in He. destruct fuel as [|fuel]; [lia|]. cbn [param_loop].
    rewrite (proj2 (Z.leb_le e p)) by lia. by eexists.
  - apply Forall_cons in Hl as [Ha Hl]. rewrite params_txt_cons in *. pose proof H as H'. apply holds_app in H' as [HW HA].
    destruct fuel as [|fuel]; [pose proof (mlen_nonneg (w ++ param_txt a ++ sep l ++ params_txt l)); lia|]. cbn [param_loop].
    pose proof (mlen_nonneg w). pose proof (mlen_nonneg (sep l ++ params_txt l)) as Hrest.
    assert (Hpos : 0 < mlen (fst a)) by (pose proof (mlen_pos (fst a) (proj1 Ha)) as E; apply Z.eqb_neq in E; pose proof (mlen_nonneg (fst a)); lia).
    assert (Hpt : mlen (fst a) <= mlen (param_txt a)) by (unfold param_txt; rewrite mlen_app; pose proof (mlen_nonneg (opt_txt 61 (snd a))); lia).
    rewrite (proj2 (Z.leb_gt e p)) by (rewrite (mlen_app w), (mlen_app (param_txt a)) in He; lia).
    rewrite (skip_text semi_or_ws m p e w _ H He Hws).
    2:{ unfold param_txt. destruct (fst a) as [|c t] eqn:Ea; [by destruct Ha as [Hx _]|]. cbn [app]. destruct Ha as (_ & Hfr & _). rewrite Ea in Hfr.
        apply Forall_cons in Hfr as [Hc _]. unfold semi_or_ws. rewrite ws_free by set_solver. rewrite (proj2 (Z.eqb_neq c 59)) by set_solver. done. }
    bstep. set (q := p + mlen w) in *.
    destruct (param_name m q e a (sep l ++ params_txt l) Ha HA) as (semi & E1 & E2 & E3 & E4 & E5); [unfold q; rewrite mlen_app in He; lia|by destruct l; cbn; set_solver|].
    rewrite E1. bstep. rewrite E2, E3. bstep.
    replace (match match snd a with None => None | Some _ => Some (q + mlen (fst a)) end with Some q0 => q0 | None => q + mlen (param_txt a) end)
      with (q + mlen (fst a)) by (destruct (snd a); done).
    rewrite E5. bstep. pose proof HA as HA'. apply holds_app in HA' as [HA' HR]. pose proof HA' as HA2. unfold param_txt in HA2. apply holds_app in HA2 as [HN HV].
    rewrite (param_hit m q a name HN). bstep. unfold find_param. rewrite filter_cons. case_decide as Hd.
    + rewrite (bool_decide_eq_true_2 _ Hd). cbn [head fmap option_fmap option_map]. destruct Ha as (_ & _ & Hv). destruct (snd a) as [v|] eqn:Ev; cbn [param_reads].
      * cbn [opt_txt] in HV. apply (holds_app m _ [61]) in HV as [_ HV]. change (mlen [61]) with 1 in HV. destruct Hv as [_ [Hv0 Hv1]].
        assert (Epe : q + mlen (param_txt a) = q + mlen (fst a) + 1 + mlen v) by (unfold param_txt; rewrite Ev; cbn [opt_txt]; mlia). rewrite Epe.
        rewrite (skip_text sip_is_ws m (q + mlen (fst a) + 1) (q + mlen (fst a) + 1 + mlen v) [] v HV eq_refl) by (done || destruct v; done). rewrite mlen_nil, Z.add_0_r. bstep.
        rewrite (trim_text sip_is_ws m _ _ v []); [|by rewrite app_nil_r|by rewrite app_nil_r|done|done]. bstep. eexists. split; [done|].
        eexists. split; [done|]. by apply sub_reads.
      * eexists. split; [done|]. by eexists.
    + rewrite (bool_decide_eq_false_2 _ Hd). apply (IH fuel (q + mlen (param_txt a)) (sep l)); try done.
      * unfold q. rewrite !mlen_app in *. lia.
      * by intros ->.
      * destruct l; repeat constructor.
      * unfold q. rewrite !mlen_app in *. lia.
Qed.

(** Parameters that may be absent, as the parsers cut them off behind a semicolon. *)
Definition oparams_txt (o : option (list param)) : list Z := opt_txt 59 (params_txt <$> o).
Definition oparams_ok (o : option (list param)) : Prop := match o with None => True | Some l => Forall param_ok l end.
Definition ofind (name : list Z) (o : option (list param)) : option (option (list Z)) := l ← o; find_param name l.
(** The slice a parser reports for a parameter: empty when it is absent or has no value. *)
Definition value_reads (m : mem) (s : sip_str) (o : option (option (list Z))) : Prop :=
  match o with None => s = no_str | Some None => s_len s = 0 | Some (Some v) => reads m s v end.
Lemma sip_param_text m s o name : mlen m <= INT_MAX → oparams_ok o → reads_opt m s (params_txt <$> o) → str_in 0 (mlen m) s →
  ∃ r, sip_param m s name = Ok r ∧ value_reads m (or_empty r) (ofind name o).
Proof.
  intros Hi Ho Hs Hin. unfold sip_param. destruct o as [l|]; cbn [fmap option_fmap option_map reads_opt] in Hs; [|rewrite Hs; by exists None].
  destruct Hs as (p & -> & Hs). unfold str_in in Hin. cbn [s_p s_len] in *.
  destruct (param_loop_text m (p + mlen (params_txt l)) name Hi l (S (Z.to_nat (mlen (params_txt l)))) p []) as (r & -> & Hr); try done; try lia.
  { split_and!; [lia|cbn [app]; lia|done]. }
  exists r. split; [done|]. cbn [ofind mbind option_bind]. destruct (find_param name l) as [[v|]|]; cbn in Hr |- *.
  - destruct Hr as (s & -> & Hr). done.
  - destruct Hr as (q & ->). done.
  - by rewrite Hr.
Qed.

(** ** Via *)

Record via := ViaVal { x_transport : list Z; x_ws : list Z; x_br : bool; x_host : list Z; x_port : option Z; x_ws2 : list Z; x_params : option (list param) }.
Definition via_txt (v : via) : list Z :=
  txt "SIP/2.0/" ++ x_transport v ++ x_ws v ++ host_txt (x_br v) (x_host v) ++ port_txt (x_port v) ++ x_ws2 v ++ oparams_txt (x_params v).
Definition is_wsp (w : list Z) : Prop := Forall (λ c, sip_is_ws c = true) w.
Definition via_ok (v : via) : Prop :=
  x_transport v ≠ [] ∧ free [32; 9] (x_transport v) ∧ x_ws v ≠ [] ∧ is_wsp (x_ws v) ∧ host_ok (x_br v) (x_host v) ∧
  free [32; 9] (host_txt (x_br v) (x_host v)) ∧ port_ok (x_port v) ∧ is_wsp (x_ws2 v) ∧ oparams_ok (x_params v).
Definition via_reads (m : mem) (r : sip_via) (v : via) : Prop :=
  reads m (v_transport r) (x_transport v) ∧ reads m (v_host r) (x_host v) ∧ v_port r = default 0 (x_port v) ∧
  reads_opt m (v_params r) (params_txt <$> x_params v) ∧ value_reads m (v_branch r) (ofind (txt "branch") (x_params v)).

Lemma wsp_heads w rest : is_wsp w → heads [59] rest → heads [59; 63; 32; 9] (w ++ rest).
Proof.
  intros Hw Hr. destruct w as [|c w]; cbn [app heads].
  - destruct rest; cbn in *; [done|set_solver].
  - apply Forall_cons in Hw as [Hc _]. unfold sip_is_ws in Hc. apply orb_true_iff in Hc. rewrite !Z.eqb_eq in Hc. set_solver.
Qed.
Lemma host_head br host rest : host_ok br host → free [32; 9] (host_txt br host) →
  match host_txt br host ++ rest with [] => True | c :: _ => sip_is_ws c = false end.
Proof.
  intros [Hne _] Hf. destruct br; cbn [host_txt app]; [done|]. destruct host as [|c h]; [done|]. cbn [app] in *.
  apply ws_free. by apply Forall_cons in Hf as [Hc _].
Qed.
Lemma oparams_peek m p e o : mlen m <= INT_MAX → holds m p (oparams_txt o) → e = p + mlen (oparams_txt o) →
  ∃ t : bool, (if p <? e then b ← rd m p; Ok (b =? 59) else Ok false) = Ok t ∧
    reads_opt m (if t then sub_str (p + 1) e else no_str) (params_txt <$> o) ∧ str_in 0 (mlen m) (if t then sub_str (p + 1) e else no_str).
Proof.
  intros Hi H ->. rewrite (peek_text m p _ _ 59 H eq_refl). eexists. split; [done|]. destruct o as [l|]; cbn [oparams_txt fmap option_fmap option_map opt_txt] in *; [|done].
  unfold oparams_txt in *. cbn [fmap option_fmap option_map opt_txt] in *. cbn [starts_with]. rewrite Z.eqb_refl. destruct (holds_pos _ _ _ H).
  apply (holds_app m p [59]) in H as [_ H]. change (mlen [59]) with 1 in H. split; [apply sub_reads; [done|done|mlia]|].
  pose proof (mlen_nonneg (params_txt l)). rewrite mlen_cons in *. apply (str_in_lo (p + 1)); [lia|]. apply sub_str_in; lia.
Qed.

Lemma wsp_free_head w rest : w ≠ [] → is_wsp w → heads [32; 9] (w ++ rest).
Proof.
  intros Hne Hw. destruct w as [|c w]; [done|]. cbn [app heads]. apply Forall_cons in Hw as [Hc _]. unfold sip_is_ws in Hc.
  apply orb_true_iff in Hc. rewrite !Z.eqb_eq in Hc. set_solver.
Qed.
Lemma oparams_head o : heads [59] (oparams_txt o).
Proof. destruct o; cbn; set_solver. Qed.
Lemma mlen_ne (t : list Z) : t ≠ [] → 0 < mlen t.
Proof. intros H. pose proof (mlen_pos t H) as E. apply Z.eqb_neq in E. pose proof (mlen_nonneg t). lia. Qed.

(** A Via value is parsed into the parts it was composed of, whatever white space stands
    between them: the transport, the host without its brackets, the port, the parameters,
    and as the branch the value of the first parameter of that name in any case of letters,
    empty when there is none. *)
Theorem sip_via_roundtrip m p v : mlen m <= INT_MAX → via_ok v → holds m p (via_txt v) →
  ∃ r, sip_via_parse m (Str (Some p) (mlen (via_txt v))) = Ok (inr r) ∧ via_reads m r v.
Proof.
  intros Hi (Ht & Htf & Hw & Hww & Hh & Hhf & Hp & Hw2 & Hps) H. unfold sip_via_parse. cbn [s_p s_len]. cbv zeta. unfold via_txt in *.
  set (hp := host_txt (x_br v) (x_host v) ++ port_txt (x_port v)) in *. set (R := x_ws2 v ++ oparams_txt (x_params v)) in *.
  assert (EW : host_txt (x_br v) (x_host v) ++ port_txt (x_port v) ++ R = hp ++ R) by (unfold hp; by rewrite <-app_assoc).
  rewrite EW in *. set (W := x_ws v ++ hp ++ R) in *. set (T := x_transport v ++ W) in *.
  pose proof (holds_app _ _ _ _ H) as [HV HT]. change (mlen (txt "SIP/2.0/")) with 8 in HT.
  pose proof (mlen_ne _ Ht). pose proof (mlen_ne _ Hw). pose proof (mlen_nonneg (hp ++ R)). destruct (holds_pos _ _ _ H) as [Hp0 Hm].
  assert (LT : mlen T = mlen (x_transport v) + mlen W) by (unfold T; apply mlen_app).
  assert (LW : mlen W = mlen (x_ws v) + mlen (hp ++ R)) by (unfold W; apply mlen_app).
  assert (LA : mlen (txt "SIP/2.0/" ++ T) = 8 + mlen T) by (rewrite mlen_app; done). rewrite LA in *. set (e := p + (8 + mlen T)) in *.
  rewrite (proj2 (Z.ltb_ge (e - p) 8)) by (unfold e; lia). rewrite sip_ieq_spec by (change (mlen (txt "sip/2.0/")) with 8; lia).
  change (mlen (txt "sip/2.0/")) with 8. destruct HV as (_ & _ & HV). change (mlen (txt "SIP/2.0/")) with 8 in HV. rewrite HV. bstep.
  change (bool_decide (sip_lc <$> txt "SIP/2.0/" = txt "sip/2.0/")) with true. cbn [negb].
  rewrite (find_any_text m (p + 8) e (x_transport v) W); [|done|fold T; unfold e; lia|done|by apply wsp_free_head]. bstep.
  rewrite (proj2 (Z.eqb_neq _ (p + 8))), (proj2 (Z.eqb_neq _ e)) by (unfold e; lia). cbn [orb].
  pose proof (holds_app _ _ _ _ HT) as [HTr HW]. set (q := p + 8 + mlen (x_transport v)) in *.
  rewrite (skip_text sip_is_ws m q e (x_ws v) (hp ++ R)); [|done|fold W; unfold e, q; lia|done|rewrite <-EW; by apply host_head]. bstep.
  apply holds_app in HW as [_ HH]. set (h0 := q + mlen (x_ws v)) in *.
  destruct (parse_hostport_text m h0 e (x_br v) (x_host v) (x_port v) R) as (h & Eh & Hrd); try done.
  { apply wsp_heads; [done|apply oparams_head]. }
  { by rewrite EW. }
  { rewrite EW. unfold e, h0, q. lia. }
  rewrite Eh. bstep. fold hp. pose proof (holds_app _ _ _ _ HH) as [_ HR]. rewrite mlen_app in LW.
  rewrite (skip_text sip_is_ws m (h0 + mlen hp) e (x_ws2 v) (oparams_txt (x_params v)) HR); [|unfold e, h0, q; fold R; lia|done|by destruct (x_params v)]. bstep.
  apply holds_app in HR as [_ HP]. assert (LR : mlen R = mlen (x_ws2 v) + mlen (oparams_txt (x_params v))) by apply mlen_app.
  destruct (oparams_peek m (h0 + mlen hp + mlen (x_ws2 v)) e (x_params v) Hi HP) as (t & -> & Hps1 & Hps2); [unfold e, h0, q; lia|]. bstep.
  destruct (sip_param_text m _ (x_params v) (txt "branch") Hi Hps Hps1 Hps2) as (r & -> & Hr). bstep.
  eexists. split; [done|]. unfold via_reads. cbn [v_transport v_host v_port v_params v_branch]. split_and!; try done. by apply sub_reads.
Qed.
Definition ex_via : via := ViaVal (txt "UDP") [32] false (txt "h.example") (Some 5060) []
  (Some [(txt "rport", None); (txt "Branch", Some (txt "z9hG4bK7"))]).
Lemma sip_via_roundtrip_witness :
  ∃ r, sip_via_parse (via_txt ex_via) (Str (Some 0) (mlen (via_txt ex_via))) = Ok (inr r) ∧ via_reads (via_txt ex_via) r ex_via.
Proof.
  apply (sip_via_roundtrip (via_txt ex_via) 0 ex_via); [done| |done].
  unfold ex_via, via_ok, host_ok, port_ok, oparams_ok, is_wsp, free. cbn [x_transport x_ws x_br x_host x_port x_ws2 x_params].
  split_and!; try done; try (apply (bool_decide_unpack _); vm_compute; exact I).
  repeat constructor; cbn [fst snd]; unfold free, edges_ok; try (apply (bool_decide_unpack _); vm_compute; exact I).
Defined.

(** The loop cuts at every semicolon, one inside a quoted value included: the tag of this
    address is taken from within the value of another parameter. *)
Definition ex_quoted : list Z := txt "<sip:b@h>;x=" ++ [34] ++ txt "a;tag=b" ++ [34] ++ txt ";tag=c".
Theorem sip_tag_in_quotes :
  ∃ a, sip_addr_parse ex_quoted (Str (Some 0) (mlen ex_quoted)) = Ok (inr a) ∧ reads ex_quoted (a_tag a) (txt "b" ++ [34]).
Proof. eexists. split; [vm_compute; reflexivity|]. eexists. split; vm_compute; reflexivity. Qed.
End SipUriRound.
