(* ===== verification/SdpMsg.v ===== *)
(** * SdpMsg: session descriptions

    Models [sdp/src/sdp.c] with the helpers of [sdp_intl.h] over the scanning loops of
    SipStr: the name tables, the single-pass parser into the pools of [sdp_msg_t], attribute
    access and the parsers of attribute values.  A slice is an offset and a length into the
    buffer.  The pools are the lists of their used entries, so a read past them is [Ub]; the
    section the parser is in is the last media section, or the session while there is none.
    What a failed parse leaves in the message is not tracked. *)

From stdpp Require Import strings.
From S2P Require Import Prelude Endian SipStr SipMsg.

Definition SDP_OK : Z := 0.
Definition SDP_E_LINE : Z := -1.
Definition SDP_E_VERSION : Z := -2.
Definition SDP_E_MEDIA : Z := -3.
Definition SDP_E_ATTRS : Z := -4.
Definition SDP_E_FMTS : Z := -5.
Definition SDP_E_BWS : Z := -6.
Definition SDP_E_OVERFLOW : Z := -7.
Definition SDP_E_INVAL : Z := -8.
Definition SDP_E_MISSING : Z := -9.

Module SdpMsg.
Import SipStr SipMsg.

(** ** Helpers *)

Definition sdp_lc (c : Z) : Z := Z.lor c 32.
Fixpoint sdp_ieq2 (m : mem) (p : Z) (r : list Z) : res bool :=
  match r with
  | [] => Ok true
  | c :: r => b ← rd m p; if sdp_lc b =? sdp_lc c then sdp_ieq2 m (p + 1) r else Ok false
  end.
Definition sdp_is_ws (c : Z) : bool := (c =? 32) || (c =? 9).
Definition sdp_is_digit (c : Z) : bool := (48 <=? c) && (c <=? 57).
Fixpoint u64_loop (m : mem) (p : Z) (n : nat) (v : Z) : res (option Z) :=
  match n with
  | O => Ok (Some v)
  | S n =>
      b ← rd m p;
      if negb (sdp_is_digit b) then Ok None else
      if (UINT64_MAX - (b - 48)) / 10 <? v then Ok None else
      u64_loop m (p + 1) n (u64 (u64 (v * 10) + (b - 48)))
  end.
Definition sdp_parse_u64 (m : mem) (p n : Z) : res (option Z) :=
  if (n =? 0) || (20 <? n) then Ok None else u64_loop m p (Z.to_nat n) 0.
Definition at_most (max : Z) (v : option Z) : option Z :=
  match v with Some v => if max <? v then None else Some v | None => None end.
Definition sdp_parse_u32 (m : mem) (p n : Z) : res (option Z) := v ← sdp_parse_u64 m p n; Ok (at_most UINT32_MAX v).
Definition sdp_parse_u16 (m : mem) (p n : Z) : res (option Z) := v ← sdp_parse_u64 m p n; Ok (at_most UINT16_MAX v).

(** ** Names *)

Definition SDP_A_OTHER : Z := 0.
Definition SDP_A_FMTP : Z := 5.
Definition SDP_A_INACTIVE : Z := 11.
Definition SDP_A_RECVONLY : Z := 16.
Definition SDP_A_RTPMAP : Z := 20.
Definition SDP_A_SENDONLY : Z := 21.
Definition SDP_A_SENDRECV : Z := 22.
Definition SDP_A_MAX : Z := 26.
Definition SDP_M_MAX : Z := 7.
Definition SDP_P_MAX : Z := 11.
Definition SDP_DIR_SENDRECV : Z := 0.
Definition SDP_DIR_SENDONLY : Z := 1.
Definition SDP_DIR_RECVONLY : Z := 2.
Definition SDP_DIR_INACTIVE : Z := 3.

Definition k_attr : list string := [
  ""; "candidate"; "crypto"; "extmap"; "fingerprint"; "fmtp"; "group"; "ice-lite"; "ice-options"; "ice-pwd"; "ice-ufrag";
  "inactive"; "maxptime"; "mid"; "msid"; "ptime"; "recvonly"; "rtcp"; "rtcp-fb"; "rtcp-mux"; "rtpmap"; "sendonly";
  "sendrecv"; "setup"; "ssrc"; "ssrc-group"]%string.
(** The range of identifiers of each letter, both 0 where there is none. *)
Definition k_attr_bucket : list (Z * Z) := [
  (0, 0); (0, 0); (1, 2); (0, 0); (3, 3); (4, 5); (6, 6); (0, 0); (7, 11); (0, 0); (0, 0); (0, 0); (12, 14);
  (0, 0); (0, 0); (15, 15); (0, 0); (16, 20); (21, 25); (0, 0); (0, 0); (0, 0); (0, 0); (0, 0); (0, 0); (0, 0)].
Definition k_mtype : list string := [""; "audio"; "video"; "text"; "application"; "message"; "image"]%string.
Definition k_proto : list string := [
  ""; "RTP/AVP"; "RTP/AVPF"; "RTP/SAVP"; "RTP/SAVPF"; "UDP/TLS/RTP/SAVP"; "UDP/TLS/RTP/SAVPF"; "UDP/DTLS/SCTP";
  "udptl"; "udp"; "TCP"]%string.
Definition k_dir : list string := ["sendrecv"; "sendonly"; "recvonly"; "inactive"]%string.

Definition name_at (tab : list string) (id : Z) : list Z := txt (nth (Z.to_nat id) tab ""%string).
Definition sdp_attr_name (id : Z) : list Z := if (0 <=? id) && (id <? SDP_A_MAX) then name_at k_attr id else [].
Fixpoint attr_loop (fuel : nat) (m : mem) (p len id hi : Z) : res Z :=
  match fuel with
  | O => Ub
  | S fuel =>
      if (id =? 0) || (hi <? id) then Ok SDP_A_OTHER else
      hit ← (if mlen (name_at k_attr id) =? len then sdp_ieq2 m p (name_at k_attr id) else Ok false);
      if (hit : bool) then Ok id else attr_loop fuel m p len (u8 (id + 1)) hi
  end.
(** [name] is the memory and the offset the pointer leads to, [None] for NULL. *)
Definition sdp_attr_from (name : option (mem * Z)) (len : Z) : res Z :=
  match name with
  | None => Ok SDP_A_OTHER
  | Some (m, p) =>
      if (len <? 3) || (11 <? len) then Ok SDP_A_OTHER else
      c ← rd m p;
      let c := sdp_lc c in
      if (c <? 97) || (122 <? c) then Ok SDP_A_OTHER else
      let '(lo, hi) := nth (Z.to_nat (c - 97)) k_attr_bucket (0, 0) in
      attr_loop 256 m p len lo hi
  end.

(** The loops over the two token tables: the first whose length and octets agree. *)
Fixpoint token_loop (m : mem) (p len : Z) (tab : list string) (id : Z) : res Z :=
  match tab with
  | [] => Ok 0
  | s :: tab =>
      hit ← (if mlen (txt s) =? len then bs ← rdn m p len; Ok (bool_decide (bs = txt s)) else Ok false);
      if (hit : bool) then Ok id else token_loop m p len tab (id + 1)
  end.
Definition sdp_mtype_name (t : Z) : list Z := if (0 <=? t) && (t <? SDP_M_MAX) then name_at k_mtype t else [].
Definition sdp_mtype_from (name : option (mem * Z)) (len : Z) : res Z :=
  match name with None => Ok 0 | Some (m, p) => token_loop m p len (tail k_mtype) 1 end.
Definition sdp_proto_name (t : Z) : list Z := if (0 <=? t) && (t <? SDP_P_MAX) then name_at k_proto t else [].
Definition sdp_proto_from (name : option (mem * Z)) (len : Z) : res Z :=
  match name with None => Ok 0 | Some (m, p) => token_loop m p len (tail k_proto) 1 end.
Definition sdp_dir_name (d : Z) : list Z := if (0 <=? d) && (d <? 4) then name_at k_dir d else [].

(** ** Messages *)

Definition SDP_MAX_MEDIA : Z := 8.
Definition SDP_MAX_ATTRS : Z := 96.
Definition SDP_MAX_FMTS : Z := 64.
Definition SDP_MAX_BWS : Z := 8.

(** [sdp_str_t] has the fields of [sip_str_t]. *)
Notation sdp_str := sip_str (only parsing).
Record sdp_origin := Origin { o_user : sdp_str; o_id : Z; o_version : Z; o_nettype : sdp_str; o_addrtype : sdp_str; o_addr : sdp_str }.
Record sdp_conn := Conn { c_nettype : sdp_str; c_addrtype : sdp_str; c_addr : sdp_str }.
Record sdp_bw := Bw { b_type : sdp_str; b_value : Z }.
Record sdp_attr := Attr { at_id : Z; at_name : sdp_str; at_value : sdp_str }.
(** The flags [has_conn] and the like are those of the options. *)
Record sdp_media := Media {
  md_type : Z; md_type_name : sdp_str; md_port : Z; md_nports : Z; md_proto : Z; md_proto_name : sdp_str; md_title : sdp_str;
  md_conn : option sdp_conn; md_fmt_off : Z; md_fmt_count : Z; md_bw_off : Z; md_bw_count : Z; md_attr_off : Z; md_attr_count : Z }.
Record sdp_msg := SMsg {
  sm_origin : option sdp_origin; sm_name : sdp_str; sm_info : sdp_str; sm_uri : sdp_str; sm_conn : option sdp_conn;
  sm_time : option (Z * Z); sm_bw_count : Z; sm_attr_count : Z;
  sm_media : list sdp_media; sm_attrs : list sdp_attr; sm_fmts : list sdp_str; sm_bws : list sdp_bw }.
Definition sdp_empty : sdp_msg := SMsg None no_str no_str no_str None None 0 0 [] [] [] [].
Definition is_Some_b {A} (o : option A) : bool := match o with Some _ => true | None => false end.
Definition count {A} (l : list A) : Z := Z.of_nat (length l).

(** ** Parsing *)

(** The end of the line at [p] and the start of the next one; a last line may end with the
    buffer. *)
Definition sdp_line_end (m : mem) (p e : Z) : res (Z * Z) :=
  nl ← memchr m p 10 (e - p);
  match nl with
  | None => Ok (e, e)
  | Some nl =>
      cr ← (if p <? nl then b ← rd m (nl - 1); Ok (b =? 13) else Ok false);
      Ok (if (cr : bool) then nl - 1 else nl, nl + 1)
  end.
(** The next field of the line and the offset behind it. *)
Definition sdp_field (m : mem) (p e : Z) : res (sdp_str * Z) :=
  s ← skip sdp_is_ws m p e;
  q ← skip (λ b, negb (sdp_is_ws b)) m s e;
  Ok (sub_str s q, q).
(** [n] fields, [None] when one is missing. *)
Fixpoint sdp_fields (n : nat) (m : mem) (p e : Z) : res (option (list sdp_str)) :=
  match n with
  | O => Ok (Some [])
  | S n =>
      f ← sdp_field m p e;
      if s_len (fst f) =? 0 then Ok None else
      r ← sdp_fields n m (snd f) e;
      Ok (match r with Some r => Some (fst f :: r) | None => None end)
  end.
(** A slice read as a number, through the pointer it carries. *)
Definition str_u64 (m : mem) (s : sdp_str) : res (option Z) :=
  match s_p s with Some p => sdp_parse_u64 m p (s_len s) | None => if s_len s =? 0 then Ok None else Ub end.
Definition str_u32 (m : mem) (s : sdp_str) : res (option Z) := v ← str_u64 m s; Ok (at_most UINT32_MAX v).
Definition parse_origin (m : mem) (p e : Z) : res (option sdp_origin) :=
  f ← sdp_fields 6 m p e;
  match f with
  | Some [user; id; version; nettype; addrtype; addr] =>
      id ← str_u64 m id;
      version ← str_u64 m version;
      Ok (Some (Origin user (default 0 id) (default 0 version) nettype addrtype addr))
  | _ => Ok None
  end.
Definition parse_conn (m : mem) (p e : Z) : res (option sdp_conn) :=
  f ← sdp_fields 3 m p e;
  Ok (match f with Some [nettype; addrtype; addr] => Some (Conn nettype addrtype addr) | _ => None end).

(** The formats up to the end of the line, appended to the pool. *)
Fixpoint fmt_loop (fuel : nat) (m : mem) (p e : Z) (fmts : list sdp_str) : res (Z + list sdp_str) :=
  match fuel with
  | O => Ub
  | S fuel =>
      f ← sdp_field m p e;
      if s_len (fst f) =? 0 then Ok (inr fmts) else
      if SDP_MAX_FMTS <=? count fmts then Ok (inl SDP_E_FMTS) else
      fmt_loop fuel m (snd f) e (fmts ++ [fst f])
  end.
(** The port and the number of ports. *)
Definition parse_ports (m : mem) (port : sdp_str) : res (option (Z * Z)) :=
  match s_p port with
  | None => Ub
  | Some p =>
      slash ← memchr m p 47 (s_len port);
      let plen := match slash with Some q => q - p | None => s_len port end in
      v ← sdp_parse_u16 m p plen;
      match v with
      | None => Ok None
      | Some v =>
          match slash with
          | None => Ok (Some (v, 1))
          | Some q => n ← sdp_parse_u16 m (q + 1) (s_len port - plen - 1); Ok (match n with Some n => Some (v, n) | None => None end)
          end
      end
  end.
Definition str_ref (m : mem) (s : sdp_str) : option (mem * Z) := match s_p s with Some p => Some (m, p) | None => None end.
Definition parse_media (m : mem) (p e bw_off attr_off : Z) (fmts : list sdp_str) : res (Z + (sdp_media * list sdp_str)) :=
  type ← sdp_field m p e;
  port ← sdp_field m (snd type) e;
  prot ← sdp_field m (snd port) e;
  let '(type, port, prot, p) := (fst type, fst port, fst prot, snd prot) in
  if (s_len type =? 0) || (s_len port =? 0) || (s_len prot =? 0) then Ok (inl SDP_E_LINE) else
  ports ← parse_ports m port;
  match ports with
  | None => Ok (inl SDP_E_LINE)
  | Some (port, nports) =>
      t ← sdp_mtype_from (str_ref m type) (s_len type);
      pr ← sdp_proto_from (str_ref m prot) (s_len prot);
      r ← fmt_loop (S (Z.to_nat (e - p))) m p e fmts;
      match r with
      | inl rc => Ok (inl rc)
      | inr fmts' =>
          Ok (inr (Media t type port nports pr prot no_str None (count fmts) (count fmts' - count fmts) bw_off 0 attr_off 0, fmts'))
      end
  end.

(** *** The section being filled *)

Definition set_media (l : list sdp_media) (m : sdp_msg) : sdp_msg :=
  SMsg (sm_origin m) (sm_name m) (sm_info m) (sm_uri m) (sm_conn m) (sm_time m) (sm_bw_count m) (sm_attr_count m)
    l (sm_attrs m) (sm_fmts m) (sm_bws m).
Definition cur (m : sdp_msg) : option sdp_media := last (sm_media m).
Definition set_cur (md : sdp_media) (m : sdp_msg) : sdp_msg := set_media (removelast (sm_media m) ++ [md]) m.
Definition set_title (s : sdp_str) (m : sdp_msg) : sdp_msg :=
  match cur m with
  | Some d => set_cur (Media (md_type d) (md_type_name d) (md_port d) (md_nports d) (md_proto d) (md_proto_name d) s (md_conn d)
      (md_fmt_off d) (md_fmt_count d) (md_bw_off d) (md_bw_count d) (md_attr_off d) (md_attr_count d)) m
  | None => SMsg (sm_origin m) (sm_name m) s (sm_uri m) (sm_conn m) (sm_time m) (sm_bw_count m) (sm_attr_count m)
      (sm_media m) (sm_attrs m) (sm_fmts m) (sm_bws m)
  end.
Definition cur_conn (m : sdp_msg) : option sdp_conn := match cur m with Some d => md_conn d | None => sm_conn m end.
Definition set_conn (c : sdp_conn) (m : sdp_msg) : sdp_msg :=
  match cur m with
  | Some d => set_cur (Media (md_type d) (md_type_name d) (md_port d) (md_nports d) (md_proto d) (md_proto_name d) (md_title d) (Some c)
      (md_fmt_off d) (md_fmt_count d) (md_bw_off d) (md_bw_count d) (md_attr_off d) (md_attr_count d)) m
  | None => SMsg (sm_origin m) (sm_name m) (sm_info m) (sm_uri m) (Some c) (sm_time m) (sm_bw_count m) (sm_attr_count m)
      (sm_media m) (sm_attrs m) (sm_fmts m) (sm_bws m)
  end.
Definition add_bw (b : sdp_bw) (m : sdp_msg) : sdp_msg :=
  match cur m with
  | Some d =>
      let m := set_cur (Media (md_type d) (md_type_name d) (md_port d) (md_nports d) (md_proto d) (md_proto_name d) (md_title d) (md_conn d)
        (md_fmt_off d) (md_fmt_count d) (md_bw_off d) (u16 (md_bw_count d + 1)) (md_attr_off d) (md_attr_count d)) m in
      SMsg (sm_origin m) (sm_name m) (sm_info m) (sm_uri m) (sm_conn m) (sm_time m) (sm_bw_count m) (sm_attr_count m)
        (sm_media m) (sm_attrs m) (sm_fmts m) (sm_bws m ++ [b])
  | None => SMsg (sm_origin m) (sm_name m) (sm_info m) (sm_uri m) (sm_conn m) (sm_time m) (u16 (sm_bw_count m + 1)) (sm_attr_count m)
      (sm_media m) (sm_attrs m) (sm_fmts m) (sm_bws m ++ [b])
  end.
Definition add_attr (a : sdp_attr) (m : sdp_msg) : sdp_msg :=
  match cur m with
  | Some d =>
      let m := set_cur (Media (md_type d) (md_type_name d) (md_port d) (md_nports d) (md_proto d) (md_proto_name d) (md_title d) (md_conn d)
        (md_fmt_off d) (md_fmt_count d) (md_bw_off d) (md_bw_count d) (md_attr_off d) (u16 (md_attr_count d + 1))) m in
      SMsg (sm_origin m) (sm_name m) (sm_info m) (sm_uri m) (sm_conn m) (sm_time m) (sm_bw_count m) (sm_attr_count m)
        (sm_media m) (sm_attrs m ++ [a]) (sm_fmts m) (sm_bws m)
  | None => SMsg (sm_origin m) (sm_name m) (sm_info m) (sm_uri m) (sm_conn m) (sm_time m) (sm_bw_count m) (u16 (sm_attr_count m + 1))
      (sm_media m) (sm_attrs m ++ [a]) (sm_fmts m) (sm_bws m)
  end.
Definition set_origin (o : sdp_origin) (m : sdp_msg) : sdp_msg :=
  SMsg (Some o) (sm_name m) (sm_info m) (sm_uri m) (sm_conn m) (sm_time m) (sm_bw_count m) (sm_attr_count m)
    (sm_media m) (sm_attrs m) (sm_fmts m) (sm_bws m).
Definition set_name (s : sdp_str) (m : sdp_msg) : sdp_msg :=
  SMsg (sm_origin m) s (sm_info m) (sm_uri m) (sm_conn m) (sm_time m) (sm_bw_count m) (sm_attr_count m)
    (sm_media m) (sm_attrs m) (sm_fmts m) (sm_bws m).
Definition set_uri (s : sdp_str) (m : sdp_msg) : sdp_msg :=
  SMsg (sm_origin m) (sm_name m) (sm_info m) s (sm_conn m) (sm_time m) (sm_bw_count m) (sm_attr_count m)
    (sm_media m) (sm_attrs m) (sm_fmts m) (sm_bws m).
Definition set_time (t : Z * Z) (m : sdp_msg) : sdp_msg :=
  SMsg (sm_origin m) (sm_name m) (sm_info m) (sm_uri m) (sm_conn m) (Some t) (sm_bw_count m) (sm_attr_count m)
    (sm_media m) (sm_attrs m) (sm_fmts m) (sm_bws m).
Definition add_media (d : sdp_media) (fmts : list sdp_str) (m : sdp_msg) : sdp_msg :=
  SMsg (sm_origin m) (sm_name m) (sm_info m) (sm_uri m) (sm_conn m) (sm_time m) (sm_bw_count m) (sm_attr_count m)
    (sm_media m ++ [d]) (sm_attrs m) fmts (sm_bws m).

(** *** One line *)

Definition bw_line (m : mem) (v e : Z) (msg : sdp_msg) : res (Z + sdp_msg) :=
  colon ← memchr m v 58 (e - v);
  match colon with
  | None => Ok (inl SDP_E_LINE)
  | Some colon =>
      if colon =? v then Ok (inl SDP_E_LINE) else
      if SDP_MAX_BWS <=? count (sm_bws msg) then Ok (inl SDP_E_BWS) else
      n ← sdp_parse_u64 m (colon + 1) (e - colon - 1);
      Ok (match n with None => inl SDP_E_LINE | Some n => inr (add_bw (Bw (sub_str v colon) n) msg) end)
  end.
Definition time_line (m : mem) (v e : Z) (msg : sdp_msg) : res (Z + sdp_msg) :=
  if is_Some_b (sm_time msg) then Ok (inr msg) else
  start ← sdp_field m v e;
  stop ← sdp_field m (snd start) e;
  if (s_len (fst start) =? 0) || (s_len (fst stop) =? 0) then Ok (inl SDP_E_LINE) else
  a ← str_u64 m (fst start);
  match a with
  | None => Ok (inl SDP_E_LINE)
  | Some a =>
      b ← str_u64 m (fst stop);
      Ok (match b with None => inl SDP_E_LINE | Some b => inr (set_time (a, b) msg) end)
  end.
Definition attr_line (m : mem) (v e : Z) (msg : sdp_msg) : res (Z + sdp_msg) :=
  if SDP_MAX_ATTRS <=? count (sm_attrs msg) then Ok (inl SDP_E_ATTRS) else
  colon ← memchr m v 58 (e - v);
  let ne := match colon with Some q => q | None => e end in
  id ← sdp_attr_from (Some (m, v)) (ne - v);
  value ← match colon with Some q => av ← skip sdp_is_ws m (q + 1) e; Ok (sub_str av e) | None => Ok no_str end;
  Ok (inr (add_attr (Attr id (sub_str v ne) value) msg)).
Definition conn_line (m : mem) (v e : Z) (msg : sdp_msg) : res (Z + sdp_msg) :=
  if is_Some_b (cur_conn msg) then Ok (inr msg) else
  c ← parse_conn m v e;
  Ok (match c with None => inl SDP_E_LINE | Some c => inr (set_conn c msg) end).
Definition media_line (m : mem) (v e : Z) (msg : sdp_msg) : res (Z + sdp_msg) :=
  if SDP_MAX_MEDIA <=? count (sm_media msg) then Ok (inl SDP_E_MEDIA) else
  r ← parse_media m v e (count (sm_bws msg)) (count (sm_attrs msg)) (sm_fmts msg);
  Ok (match r with inl rc => inl rc | inr (d, fmts) => inr (add_media d fmts msg) end).
(** The switch on the type of a line whose value is the text from [v] to [e]. *)
Definition sdp_line (m : mem) (type v e : Z) (msg : sdp_msg) : res (Z + sdp_msg) :=
  if type =? 118 then Ok (inl SDP_E_VERSION) else
  if type =? 111 then
    o ← parse_origin m v e; Ok (match o with None => inl SDP_E_LINE | Some o => inr (set_origin o msg) end) else
  if type =? 115 then Ok (inr (set_name (sub_str v e) msg)) else
  if type =? 105 then Ok (inr (set_title (sub_str v e) msg)) else
  if type =? 117 then Ok (inr (set_uri (sub_str v e) msg)) else
  if type =? 99 then conn_line m v e msg else
  if type =? 98 then bw_line m v e msg else
  if type =? 116 then time_line m v e msg else
  if type =? 109 then media_line m v e msg else
  if type =? 97 then attr_line m v e msg else
  Ok (inr msg).

(** The lines to the end of the buffer; [got_v] after the version line. *)
Fixpoint sdp_lines (fuel : nat) (m : mem) (p e : Z) (got_v : bool) (msg : sdp_msg) : res (Z + sdp_msg) :=
  match fuel with
  | O => Ub
  | S fuel =>
      if e <=? p then Ok (if got_v then inr msg else inl SDP_E_VERSION) else
      l ← sdp_line_end m p e;
      let '(eol, next) := l in
      if eol =? p then sdp_lines fuel m next e got_v msg else
      if eol - p <? 2 then Ok (inl SDP_E_LINE) else
      sep ← rd m (p + 1);
      if negb (sep =? 61) then Ok (inl SDP_E_LINE) else
      type ← rd m p;
      let v := p + 2 in
      eol ← trim sdp_is_ws m v eol;
      if negb got_v then
        if negb (type =? 118) then Ok (inl SDP_E_VERSION) else
        if negb (eol - v =? 1) then Ok (inl SDP_E_VERSION) else
        b ← rd m v;
        if negb (b =? 48) then Ok (inl SDP_E_VERSION) else sdp_lines fuel m next e true msg
      else
        r ← sdp_line m type v eol msg;
        match r with inl rc => Ok (inl rc) | inr msg => sdp_lines fuel m next e true msg end
  end.
Definition sdp_msg_parse (out : bool) (buf : option mem) (len : Z) : res (Z + sdp_msg) :=
  match buf with
  | Some m => if negb out || (INT_MAX <? len) then Ok (inl SDP_E_INVAL) else sdp_lines (S (Z.to_nat len)) m 0 len false sdp_empty
  | None => Ok (inl SDP_E_INVAL)
  end.
End SdpMsg.
