(* ===== verification/SdpAttr.v ===== *)
(** * SdpAttr: the attributes of a parsed description

    Models the access functions and the value parsers of [sdp/src/sdp.c].  An attribute is
    given by its index in the pool, a section by its record ([None] for the session); the
    message and the outputs are not NULL. *)

From stdpp Require Import strings.
From S2P Require Import Prelude Endian SipStr SipMsg SdpMsg.

Module SdpAttr.
Import SipStr SipMsg SdpMsg.

Definition attr_range (msg : sdp_msg) (media : option sdp_media) : Z * Z :=
  match media with
  | None => (0, sm_attr_count msg)
  | Some d => (md_attr_off d, u16 (md_attr_off d + md_attr_count d))
  end.
(** An entry of the pool; one that was not filled must not be read. *)
Definition attr_at (msg : sdp_msg) (i : Z) : res sdp_attr :=
  if i <? 0 then Ub else match sm_attrs msg !! Z.to_nat i with Some a => Ok a | None => Ub end.
(** The first index of the range whose attribute satisfies the test. *)
Fixpoint attr_scan (n : nat) (msg : sdp_msg) (i : Z) (f : sdp_attr → res bool) : res (option Z) :=
  match n with
  | O => Ok None
  | S n =>
      a ← attr_at msg i;
      hit ← f a;
      if (hit : bool) then Ok (Some i) else attr_scan n msg (i + 1) f
  end.
Definition scan_range (msg : sdp_msg) (r : Z * Z) (f : sdp_attr → res bool) : res (option Z) :=
  attr_scan (Z.to_nat (snd r - fst r)) msg (fst r) f.

Definition sdp_attr_find (msg : sdp_msg) (media : option sdp_media) (id : Z) : res (option Z) :=
  if id =? SDP_A_OTHER then Ok None else scan_range msg (attr_range msg media) (λ a, Ok (at_id a =? u8 id)).

(** The name of an attribute against [n] octets of a text. *)
Definition attr_named (m : mem) (a : sdp_attr) (r : list Z) : res bool :=
  if s_len (at_name a) =? mlen r then
    match s_p (at_name a) with Some p => sdp_ieq2 m p r | None => if mlen r =? 0 then Ok true else Ub end
  else Ok false.
Definition str_octets (m : mem) (s : sdp_str) : res (list Z) :=
  if s_len s =? 0 then Ok [] else match s_p s with Some p => rdn m p (s_len s) | None => Ub end.
Definition sdp_attr_next (m : mem) (msg : sdp_msg) (media : option sdp_media) (prev : Z) : res (option Z) :=
  let '(lo, hi) := attr_range msg media in
  if (prev <? lo) || (hi <=? prev) then Ok None else
  pa ← attr_at msg prev;
  scan_range msg (prev + 1, hi) (λ a,
    if negb (at_id a =? at_id pa) then Ok false else
    if negb (at_id a =? SDP_A_OTHER) then Ok true else
    if s_len (at_name a) =? s_len (at_name pa) then r ← str_octets m (at_name pa); attr_named m a r else Ok false).
Definition sdp_attr_find_name (m : mem) (msg : sdp_msg) (media : option sdp_media) (name : list Z) : res (option Z) :=
  id ← sdp_attr_from (Some (name, 0)) (mlen name);
  if negb (id =? SDP_A_OTHER) then sdp_attr_find msg media id else
  scan_range msg (attr_range msg media) (λ a, if at_id a =? SDP_A_OTHER then attr_named m a name else Ok false).

(** The direction an attribute states. *)
Definition dir_of (id : Z) : option Z :=
  if id =? SDP_A_SENDRECV then Some SDP_DIR_SENDRECV else
  if id =? SDP_A_SENDONLY then Some SDP_DIR_SENDONLY else
  if id =? SDP_A_RECVONLY then Some SDP_DIR_RECVONLY else
  if id =? SDP_A_INACTIVE then Some SDP_DIR_INACTIVE else None.
Fixpoint dir_scan (n : nat) (msg : sdp_msg) (i : Z) : res (option Z) :=
  match n with
  | O => Ok None
  | S n => a ← attr_at msg i; match dir_of (at_id a) with Some d => Ok (Some d) | None => dir_scan n msg (i + 1) end
  end.
(** [None] is the return of -1. *)
Definition section_dir (msg : sdp_msg) (media : option sdp_media) : res (option Z) :=
  let '(lo, hi) := attr_range msg media in dir_scan (Z.to_nat (hi - lo)) msg lo.
Definition sdp_media_dir (msg : sdp_msg) (media : option sdp_media) : res Z :=
  d ← section_dir msg media;
  d ← match d, media with None, Some _ => section_dir msg None | _, _ => Ok d end;
  Ok (default SDP_DIR_SENDRECV d).
Definition sdp_media_conn (msg : sdp_msg) (media : option sdp_media) : option sdp_conn :=
  match media with
  | Some d => match md_conn d with Some c => Some c | None => sm_conn msg end
  | None => sm_conn msg
  end.

(** ** Values *)

Record sdp_rtpmap := Rtpmap { rm_pt : Z; rm_enc : sdp_str; rm_clock : Z; rm_params : sdp_str }.
Record sdp_fmtp := Fmtp { fm_fmt : sdp_str; fm_params : sdp_str }.

Definition sdp_rtpmap_parse (m : mem) (value : sdp_str) : res (Z + sdp_rtpmap) :=
  match s_p value with
  | None => Ok (inl SDP_E_INVAL)
  | Some p =>
      let e := p + s_len value in
      pt ← sdp_field m p e;
      rest ← sdp_field m (snd pt) e;
      let '(pt, rest) := (fst pt, fst rest) in
      if (s_len pt =? 0) || (s_len rest =? 0) then Ok (inl SDP_E_LINE) else
      n ← str_u32 m pt;
      match n with
      | None => Ok (inl SDP_E_LINE)
      | Some n =>
          if 127 <? n then Ok (inl SDP_E_LINE) else
          match s_p rest with
          | None => Ub
          | Some r =>
              s1 ← memchr m r 47 (s_len rest);
              match s1 with
              | None => Ok (inl SDP_E_LINE)
              | Some s1 =>
                  if s1 =? r then Ok (inl SDP_E_LINE) else
                  let rend := r + s_len rest in
                  s2 ← memchr m (s1 + 1) 47 (rend - s1 - 1);
                  let cend := match s2 with Some q => q | None => rend end in
                  clock ← sdp_parse_u32 m (s1 + 1) (cend - s1 - 1);
                  Ok (match clock with
                      | None => inl SDP_E_LINE
                      | Some clock =>
                          inr (Rtpmap n (sub_str r s1) clock
                            (match s2 with Some q => sub_str (q + 1) rend | None => no_str end))
                      end)
              end
          end
      end
  end.
Definition sdp_fmtp_parse (m : mem) (value : sdp_str) : res (Z + sdp_fmtp) :=
  match s_p value with
  | None => Ok (inl SDP_E_INVAL)
  | Some p =>
      let e := p + s_len value in
      fmt ← sdp_field m p e;
      if s_len (fst fmt) =? 0 then Ok (inl SDP_E_LINE) else
      q ← skip sdp_is_ws m (snd fmt) e;
      Ok (inr (Fmtp (fst fmt) (sub_str q e)))
  end.
Definition is_pt (m : mem) (s : sdp_str) (pt : Z) : res bool :=
  v ← str_u32 m s; Ok (match v with Some v => v =? pt | None => false end).

(** The loops over the attributes of one identifier, from the index [a] on. *)
Fixpoint rtpmap_loop (fuel : nat) (m : mem) (msg : sdp_msg) (media : option sdp_media) (pt : Z) (a : option Z) : res (Z + sdp_rtpmap) :=
  match fuel with
  | O => Ub
  | S fuel =>
      match a with
      | None => Ok (inl SDP_E_MISSING)
      | Some i =>
          at_ ← attr_at msg i;
          r ← sdp_rtpmap_parse m (at_value at_);
          match r with
          | inr r' => if rm_pt r' =? pt then Ok (inr r') else n ← sdp_attr_next m msg media i; rtpmap_loop fuel m msg media pt n
          | inl _ => n ← sdp_attr_next m msg media i; rtpmap_loop fuel m msg media pt n
          end
      end
  end.
Definition sdp_rtpmap_find (m : mem) (msg : sdp_msg) (media : option sdp_media) (pt : Z) : res (Z + sdp_rtpmap) :=
  a ← sdp_attr_find msg media SDP_A_RTPMAP;
  rtpmap_loop (S (length (sm_attrs msg))) m msg media pt a.
Fixpoint fmtp_loop (fuel : nat) (m : mem) (msg : sdp_msg) (media : option sdp_media) (pt : Z) (a : option Z) : res (Z + sdp_str) :=
  match fuel with
  | O => Ub
  | S fuel =>
      match a with
      | None => Ok (inl SDP_E_MISSING)
      | Some i =>
          at_ ← attr_at msg i;
          r ← sdp_fmtp_parse m (at_value at_);
          hit ← match r with inr f => is_pt m (fm_fmt f) pt | inl _ => Ok false end;
          match r with
          | inr f => if (hit : bool) then Ok (inr (fm_params f)) else n ← sdp_attr_next m msg media i; fmtp_loop fuel m msg media pt n
          | inl _ => n ← sdp_attr_next m msg media i; fmtp_loop fuel m msg media pt n
          end
      end
  end.
Definition sdp_fmtp_find (m : mem) (msg : sdp_msg) (media : option sdp_media) (pt : Z) : res (Z + sdp_str) :=
  a ← sdp_attr_find msg media SDP_A_FMTP;
  fmtp_loop (S (length (sm_attrs msg))) m msg media pt a.
End SdpAttr.
