(* ===== verification/SdpWrite.v ===== *)
(** * SdpWrite: writing session descriptions

    Models [sdp/src/sdp_write.c].  The write buffer has the fields of [sip_wbuf_t] and [put]
    the body of the one in sip_write.c, so both are those of SipWrite. *)

From stdpp Require Import strings.
From S2P Require Import Prelude Endian SipStr SipMsg SipWrite SdpMsg.

Module SdpWrite.
Import SipStr SipMsg SipWrite SdpMsg.

Notation sdp_wbuf := sip_wbuf (only parsing).
Definition sdp_put (w : sdp_wbuf) (p : option mem) (n : Z) : res sdp_wbuf := put w p n.
Definition sdp_put_txt (w : sdp_wbuf) (bs : list Z) : res sdp_wbuf := sdp_put w (Some bs) (mlen bs).
(** The digits go to an array of twenty from its end. *)
Fixpoint u64_digits (room : nat) (v : Z) (acc : list Z) : res (list Z) :=
  match room with
  | O => Ub
  | S room =>
      let acc := (48 + v mod 10) :: acc in
      let v := v / 10 in
      if v =? 0 then Ok acc else u64_digits room v acc
  end.
Definition put_u64 (w : sdp_wbuf) (v : Z) : res sdp_wbuf := ds ← u64_digits 20 v []; sdp_put_txt w ds.
Definition sdp_wbuf_init (buf : option mem) (cap : Z) : sdp_wbuf :=
  Wbuf buf (if INT_MAX <? cap then INT_MAX else cap) 0 (is_null buf).
Definition bad_slice (p : option mem) (n : Z) : bool := is_null p && negb (n =? 0).
(** What [done] returns, with the buffer. *)
Definition sdp_done (w : sdp_wbuf) : sdp_wbuf * Z := (w, if w_overflow w then SDP_E_OVERFLOW else SDP_OK).

Definition sdp_put_version (w : sdp_wbuf) : res (sdp_wbuf * Z) := w ← sdp_put_txt w (txt "v=0" ++ CRLF); Ok (sdp_done w).
Definition sdp_put_origin (w : sdp_wbuf) (user : option mem) (ulen sess_id sess_version : Z) (addrtype : option mem) (atlen : Z)
    (addr : option mem) (alen : Z) : res (sdp_wbuf * Z) :=
  if bad_slice user ulen || is_null addrtype || (atlen =? 0) || is_null addr || (alen =? 0) then Ok (w, SDP_E_INVAL) else
  w ← sdp_put_txt w (txt "o=");
  w ← (if ulen =? 0 then sdp_put_txt w (txt "-") else sdp_put w user ulen);
  w ← sdp_put_txt w [32];
  w ← put_u64 w sess_id;
  w ← sdp_put_txt w [32];
  w ← put_u64 w sess_version;
  w ← sdp_put_txt w (txt " IN ");
  w ← sdp_put w addrtype atlen;
  w ← sdp_put_txt w [32];
  w ← sdp_put w addr alen;
  w ← sdp_put_txt w CRLF;
  Ok (sdp_done w).
Definition sdp_put_name (w : sdp_wbuf) (name : option mem) (nlen : Z) : res (sdp_wbuf * Z) :=
  if bad_slice name nlen then Ok (w, SDP_E_INVAL) else
  w ← sdp_put_txt w (txt "s=");
  w ← (if nlen =? 0 then sdp_put_txt w (txt "-") else sdp_put w name nlen);
  w ← sdp_put_txt w CRLF;
  Ok (sdp_done w).
Definition sdp_put_conn (w : sdp_wbuf) (addrtype : option mem) (atlen : Z) (addr : option mem) (alen : Z) : res (sdp_wbuf * Z) :=
  if is_null addrtype || (atlen =? 0) || is_null addr || (alen =? 0) then Ok (w, SDP_E_INVAL) else
  w ← sdp_put_txt w (txt "c=IN ");
  w ← sdp_put w addrtype atlen;
  w ← sdp_put_txt w [32];
  w ← sdp_put w addr alen;
  w ← sdp_put_txt w CRLF;
  Ok (sdp_done w).
Definition sdp_put_bw (w : sdp_wbuf) (bwtype : option mem) (btlen value : Z) : res (sdp_wbuf * Z) :=
  if is_null bwtype || (btlen =? 0) then Ok (w, SDP_E_INVAL) else
  w ← sdp_put_txt w (txt "b=");
  w ← sdp_put w bwtype btlen;
  w ← sdp_put_txt w (txt ":");
  w ← put_u64 w value;
  w ← sdp_put_txt w CRLF;
  Ok (sdp_done w).
Definition sdp_put_time (w : sdp_wbuf) (start stop : Z) : res (sdp_wbuf * Z) :=
  w ← sdp_put_txt w (txt "t=");
  w ← put_u64 w start;
  w ← sdp_put_txt w [32];
  w ← put_u64 w stop;
  w ← sdp_put_txt w CRLF;
  Ok (sdp_done w).
Definition sdp_put_media_name (w : sdp_wbuf) (type : option mem) (tlen port nports : Z) (proto : option mem) (plen : Z)
    (fmts : option mem) (flen : Z) : res (sdp_wbuf * Z) :=
  if is_null type || (tlen =? 0) || is_null proto || (plen =? 0) || bad_slice fmts flen then Ok (w, SDP_E_INVAL) else
  w ← sdp_put_txt w (txt "m=");
  w ← sdp_put w type tlen;
  w ← sdp_put_txt w [32];
  w ← put_u64 w port;
  w ← (if 1 <? nports then w ← sdp_put_txt w (txt "/"); put_u64 w nports else Ok w);
  w ← sdp_put_txt w [32];
  w ← sdp_put w proto plen;
  w ← (if flen =? 0 then Ok w else w ← sdp_put_txt w [32]; sdp_put w fmts flen);
  w ← sdp_put_txt w CRLF;
  Ok (sdp_done w).
Definition sdp_put_media (w : sdp_wbuf) (type port nports proto : Z) (fmts : option mem) (flen : Z) : res (sdp_wbuf * Z) :=
  let tname := sdp_mtype_name type in
  let pname := sdp_proto_name proto in
  if bool_decide (tname = []) || bool_decide (pname = []) then Ok (w, SDP_E_INVAL) else
  sdp_put_media_name w (Some tname) (mlen tname) port nports (Some pname) (mlen pname) fmts flen.
Definition sdp_put_attr_name (w : sdp_wbuf) (name : option mem) (nlen : Z) (val : option mem) (vlen : Z) : res (sdp_wbuf * Z) :=
  if is_null name || (nlen =? 0) || bad_slice val vlen then Ok (w, SDP_E_INVAL) else
  w ← sdp_put_txt w (txt "a=");
  w ← sdp_put w name nlen;
  w ← (if vlen =? 0 then Ok w else w ← sdp_put_txt w (txt ":"); sdp_put w val vlen);
  w ← sdp_put_txt w CRLF;
  Ok (sdp_done w).
Definition sdp_put_attr (w : sdp_wbuf) (id : Z) (val : option mem) (vlen : Z) : res (sdp_wbuf * Z) :=
  let name := sdp_attr_name id in
  if bool_decide (name = []) then Ok (w, SDP_E_INVAL) else sdp_put_attr_name w (Some name) (mlen name) val vlen.
(** [type] is the octet of the [char]. *)
Definition sdp_put_line (w : sdp_wbuf) (type : Z) (val : option mem) (vlen : Z) : res (sdp_wbuf * Z) :=
  if (type <? 97) || (122 <? type) || bad_slice val vlen then Ok (w, SDP_E_INVAL) else
  w ← sdp_put_txt w [type; 61];
  w ← (if vlen =? 0 then Ok w else sdp_put w val vlen);
  w ← sdp_put_txt w CRLF;
  Ok (sdp_done w).
Definition sdp_end (w : sdp_wbuf) : Z := if w_overflow w then SDP_E_OVERFLOW else w_off w.
End SdpWrite.
