(* ===== verification/SdpScan.v ===== *)
(** * SdpScan: names, numbers and lines of a description

    The lookups of SdpMsg against plain searches of the tables, its numbers against the
    decimal value of their digits, and its line and field scanners on any text. *)

From stdpp Require Import strings.
From S2P Require Import Prelude Endian SipStr SipMsg SipWrite SipScan SipName SipParse SipRound SipValue SipUriRound SdpMsg SdpAttr SdpWrite.

Module SdpScan.
Import SipStr SipMsg SipWrite SipScan SipName SipParse SipRound SipValue SipUriRound SdpMsg SdpAttr SdpWrite.

(** The helpers are those of the SIP sources. *)
Lemma sdp_ieq2_sip : sdp_ieq2 = sip_ieq2.
Proof. reflexivity. Qed.
Lemma u64_digits_sip : u64_digits = u32_digits.
Proof. reflexivity. Qed.
Lemma sdp_line_end_eq m p e : sdp_line_end m p e = (r ← line_end m p e; Ok (match r with Some r => r | None => (e, e) end)).
Proof.
  unfold sdp_line_end, line_end. destruct (memchr m p 10 (e - p)) as [[nl|]| |]; bstep; try done.
  by destruct (if p <? nl then _ else _).
Qed.

(** ** Names *)

(** The first entry of a list of ids with that name. *)
Fixpoint first_of (same : list Z → bool) (tab : list string) (ids : list Z) : Z :=
  match ids with
  | [] => 0
  | id :: ids => if same (name_at tab id) then id else first_of same tab ids
  end.
Definition ids_of (tab : list string) : list Z := map Z.of_nat (seq 1 (length tab - 1)).
(** Attributes are compared without regard to case, the tokens of an m= line with it. *)
Definition attr_ref (name : list Z) : Z := first_of (ci_eq name) k_attr (ids_of k_attr).
Definition token_ref (tab : list string) (name : list Z) : Z := first_of (λ t, bool_decide (name = t)) tab (ids_of tab).

Lemma first_of_filter same f tab ids : (∀ id, id ∈ ids → f id = false → same (name_at tab id) = false) →
  first_of same tab ids = first_of same tab (List.filter f ids).
Proof.
  induction ids as [|id ids IH]; intros H; [done|]. cbn [first_of List.filter].
  assert (IH' : first_of same tab ids = first_of same tab (List.filter f ids)) by (apply IH; intros; apply H; [by right|done]).
  destruct (f id) eqn:Ef; cbn [first_of]; rewrite IH'; [done|]. rewrite H; [done|left|done].
Qed.
Lemma first_of_none same tab ids : (∀ id, id ∈ ids → same (name_at tab id) = false) → first_of same tab ids = 0.
Proof. induction ids as [|id ids IH]; intros H; [done|]. cbn [first_of]. rewrite H by left. apply IH. intros. apply H. by right. Qed.
Lemma first_of_range same tab ids lo hi : lo <= 0 < hi → Forall (λ id, lo <= id < hi) ids → lo <= first_of same tab ids < hi.
Proof. intros H. induction 1 as [|id ids Hid Hi IH]; cbn [first_of]; [lia|]. by destruct (same _). Qed.

Definition attr_bucket (c : Z) : Z * Z := if is_lower c then nth (Z.to_nat (c - 97)) k_attr_bucket (0, 0) else (0, 0).
Lemma attr_bucket_ids c : 0 <= c < 256 →
  List.filter (λ id, first_lc (name_at k_attr id) =? c) (ids_of k_attr) = id_range (attr_bucket c).1 (attr_bucket c).2.
Proof.
  apply (byte_prop (λ c, List.filter (λ id, first_lc (name_at k_attr id) =? c) (ids_of k_attr) = id_range (attr_bucket c).1 (attr_bucket c).2)).
  vm_compute. done.
Qed.
Lemma attr_len id : id ∈ ids_of k_attr → 3 <= mlen (name_at k_attr id) <= 11.
Proof.
  intros H. assert (F : Forall (λ id, 3 <= mlen (name_at k_attr id) <= 11) (ids_of k_attr)); [|by eapply Forall_forall in F].
  apply (bool_decide_unpack _). vm_compute. exact I.
Qed.

Lemma attr_loop_spec m p len : 0 <= p → 0 <= len → p + len <= mlen m →
  ∀ fuel id hi, 1 <= id → hi <= 25 → Z.max 0 (hi - id + 1) < Z.of_nat fuel →
  attr_loop fuel m p len id hi = Ok (first_of (ci_eq (slice m p len)) k_attr (map Z.of_nat (seq (Z.to_nat id) (Z.to_nat (hi - id + 1))))).
Proof.
  intros Hp Hl Hm. induction fuel as [|fuel IH]; intros id hi Hid Hhi Hf; [lia|]. cbn [attr_loop].
  rewrite (proj2 (Z.eqb_neq id 0)) by lia. cbn [orb]. destruct (Z.ltb_spec hi id) as [Hlt|Hge].
  { by replace (Z.to_nat (hi - id + 1)) with 0%nat by lia. }
  replace (Z.to_nat (hi - id + 1)) with (S (Z.to_nat (hi - (id + 1) + 1))) by lia.
  cbn [seq map first_of]. rewrite Z2Nat.id by lia. set (name := name_at k_attr id).
  assert (E : (if mlen name =? len then sdp_ieq2 m p name else Ok false) = Ok (ci_eq (slice m p len) name)).
  { destruct (Z.eqb_spec (mlen name) len) as [El|El].
    - rewrite sdp_ieq2_sip, sip_ieq2_spec by lia. unfold ci_eq. by rewrite El.
    - destruct (ci_eq (slice m p len) name) eqn:Ec; [|done]. apply ci_eq_first in Ec as [_ Ec]. rewrite mlen_slice in Ec by lia. lia. }
  rewrite E. bstep. destruct (ci_eq (slice m p len) name); [done|]. rewrite (u8_small (id + 1)) by lia.
  rewrite IH by lia. by replace (Z.to_nat (id + 1)) with (S (Z.to_nat id)) by lia.
Qed.
Lemma sdp_attr_from_eq m p len : bytes_ok m → 0 <= p → 0 <= len → p + len <= mlen m →
  sdp_attr_from (Some (m, p)) len = Ok (attr_ref (slice m p len)).
Proof.
  intros Hb Hp Hl Hm. unfold sdp_attr_from, attr_ref.
  assert (Hn : len < 3 ∨ 11 < len → first_of (ci_eq (slice m p len)) k_attr (ids_of k_attr) = 0).
  { intros Hx. apply first_of_none. intros id Hid. destruct (ci_eq _ _) eqn:E; [|done]. apply ci_eq_first in E as [_ E].
    rewrite mlen_slice in E by lia. pose proof (attr_len id Hid). lia. }
  destruct (Z.ltb_spec len 3); cbn [orb]; [by rewrite Hn by lia|]. destruct (Z.ltb_spec 11 len); [by rewrite Hn by lia|]. clear Hn.
  rewrite (rd_Ok m p) by lia. bstep. change sdp_lc with sip_lc. pose proof (lc_range (get m p) (get_range m p Hb)) as Hc.
  set (c := sip_lc (get m p)) in *.
  rewrite (first_of_filter _ (λ id, first_lc (name_at k_attr id) =? c)).
  2:{ intros id _ Hf. destruct (ci_eq _ _) eqn:E; [|done]. apply ci_eq_first in E as [E _]. rewrite slice_cons in E by lia.
      unfold c in Hf. cbn [first_lc] in E. rewrite <-E, Z.eqb_refl in Hf. done. }
  rewrite attr_bucket_ids by done. unfold attr_bucket, is_lower.
  destruct (Z.ltb_spec c 97); cbn [orb].
  { by rewrite (proj2 (Z.leb_gt 97 c)) by lia. }
  rewrite (proj2 (Z.leb_le 97 c)) by lia. cbn [andb]. destruct (Z.ltb_spec 122 c).
  { by rewrite (proj2 (Z.leb_gt c 122)) by lia. }
  rewrite (proj2 (Z.leb_le c 122)) by lia.
  assert (Hbk : Forall (λ b : Z * Z, b = (0, 0) ∨ 1 <= b.1 ∧ b.1 <= b.2 <= 25) k_attr_bucket) by (apply (bool_decide_unpack _); vm_compute; exact I).
  destruct (nth (Z.to_nat (c - 97)) k_attr_bucket (0, 0)) as [lo hi] eqn:En. cbn [fst snd].
  assert (Hlh : (lo, hi) = (0, 0) ∨ 1 <= lo ∧ lo <= hi <= 25).
  { destruct (nth_in_or_default (Z.to_nat (c - 97)) k_attr_bucket (0, 0)) as [Hi|Hi]; rewrite En in Hi; [|by left].
    apply list_elem_of_In in Hi. by eapply Forall_forall in Hbk; [|exact Hi]. }
  destruct Hlh as [[= -> ->]|[Hlo Hhi]]; [done|]. rewrite attr_loop_spec by lia. unfold id_range. by rewrite (proj2 (Z.eqb_neq lo 0)) by lia.
Qed.

Lemma token_loop_spec m p len tab : 0 <= p → 0 <= len → p + len <= mlen m → ∀ pre rest, tab = pre ++ rest →
  token_loop m p len rest (count pre) =
    Ok (first_of (λ t, bool_decide (slice m p len = t)) tab (map Z.of_nat (seq (length pre) (length rest)))).
Proof.
  intros Hp Hl Hm pre rest. revert pre. induction rest as [|s rest IH]; intros pre Ht; [done|]. cbn [token_loop length seq map first_of].
  assert (En : name_at tab (Z.of_nat (length pre)) = txt s).
  { unfold name_at. rewrite Nat2Z.id, Ht, app_nth2, Nat.sub_diag by lia. done. }
  rewrite En. assert (E : (if mlen (txt s) =? len then bs ← rdn m p len; Ok (bool_decide (bs = txt s)) else Ok false) =
    Ok (bool_decide (slice m p len = txt s))).
  { destruct (Z.eqb_spec (mlen (txt s)) len) as [El|El].
    - rewrite rdn_Ok by lia. done.
    - rewrite bool_decide_eq_false_2; [done|]. intros Hx. apply El. rewrite <-Hx. apply mlen_slice; lia. }
  rewrite E. bstep. destruct (bool_decide _); [done|]. specialize (IH (pre ++ [s])). unfold count in *. rewrite length_app in IH. cbn [length] in IH.
  replace (Z.of_nat (length pre) + 1) with (Z.of_nat (length pre + 1)) by lia. rewrite IH by (by rewrite <-app_assoc).
  by replace (S (length pre)) with (length pre + 1)%nat by lia.
Qed.
Lemma sdp_mtype_from_eq m p len : 0 <= p → 0 <= len → p + len <= mlen m →
  sdp_mtype_from (Some (m, p)) len = Ok (token_ref k_mtype (slice m p len)).
Proof. intros. unfold sdp_mtype_from. apply (token_loop_spec m p len k_mtype) with (pre := [""%string]); done. Qed.
Lemma sdp_proto_from_eq m p len : 0 <= p → 0 <= len → p + len <= mlen m →
  sdp_proto_from (Some (m, p)) len = Ok (token_ref k_proto (slice m p len)).
Proof. intros. unfold sdp_proto_from. apply (token_loop_spec m p len k_proto) with (pre := [""%string]); done. Qed.

(** ** Numbers *)

Definition u64_text (bs : list Z) : option Z :=
  if (1 <=? mlen bs) && (mlen bs <=? 20) && forallb sdp_is_digit bs && (dec_val 0 bs <=? UINT64_MAX) then Some (dec_val 0 bs) else None.
Lemma dec_val_ge bs : ∀ v, 0 <= v → forallb sdp_is_digit bs = true → v <= dec_val v bs.
Proof.
  unfold dec_val. induction bs as [|b bs IH]; intros v Hv Hd; cbn [foldl forallb] in *; [lia|]. apply andb_true_iff in Hd as [Hb Hd].
  apply digit_range in Hb. specialize (IH (v * 10 + (b - 48)) ltac:(lia) Hd). lia.
Qed.
Lemma u64_loop_spec m n : ∀ p v, 0 <= p → p + Z.of_nat n <= mlen m → 0 <= v <= UINT64_MAX →
  u64_loop m p n v = Ok (if forallb sdp_is_digit (slice m p (Z.of_nat n)) && (dec_val v (slice m p (Z.of_nat n)) <=? UINT64_MAX)
                         then Some (dec_val v (slice m p (Z.of_nat n))) else None).
Proof.
  induction n as [|n IH]; intros p v Hp Hl Hv; cbn [u64_loop].
  { rewrite slice_0. cbn [forallb andb]. by rewrite (proj2 (Z.leb_le _ _)) by (unfold dec_val; cbn; lia). }
  rewrite (rd_Ok m p) by lia. bstep. rewrite slice_cons by lia. replace (Z.of_nat (S n) - 1) with (Z.of_nat n) by lia.
  cbn [forallb]. destruct (sdp_is_digit (get m p)) eqn:Ed; cbn [negb andb]; [|done]. apply digit_range in Ed. set (b := get m p) in *.
  assert (Edv : dec_val v (b :: slice m (p + 1) (Z.of_nat n)) = dec_val (v * 10 + (b - 48)) (slice m (p + 1) (Z.of_nat n))) by done.
  rewrite Edv. unfold UINT64_MAX in *. destruct (Z.ltb_spec ((18446744073709551615 - (b - 48)) / 10) v) as [Hov|Hov].
  - pose proof (Z.div_mod (18446744073709551615 - (b - 48)) 10 ltac:(lia)). pose proof (Z.mod_pos_bound (18446744073709551615 - (b - 48)) 10 ltac:(lia)).
    destruct (forallb sdp_is_digit (slice m (p + 1) (Z.of_nat n))) eqn:Ef; cbn [andb]; [|done].
    pose proof (dec_val_ge _ (v * 10 + (b - 48)) ltac:(lia) Ef). by rewrite (proj2 (Z.leb_gt _ _)) by lia.
  - pose proof (Z.div_mod (18446744073709551615 - (b - 48)) 10 ltac:(lia)). pose proof (Z.mod_pos_bound (18446744073709551615 - (b - 48)) 10 ltac:(lia)).
    rewrite !u64_small by (rewrite ?u64_small by lia; lia). rewrite (IH (p + 1) (v * 10 + (b - 48))) by lia. done.
Qed.
Lemma sdp_parse_u64_spec m p n : 0 <= p → 0 <= n → p + n <= mlen m → sdp_parse_u64 m p n = Ok (u64_text (slice m p n)).
Proof.
  intros Hp Hn Hl. unfold sdp_parse_u64, u64_text. rewrite mlen_slice by lia.
  destruct (Z.eqb_spec n 0) as [->|]; [done|]. destruct (Z.ltb_spec 20 n); cbn [orb].
  - by rewrite (proj2 (Z.leb_gt n 20)), andb_false_r by lia.
  - rewrite (proj2 (Z.leb_le n 20)), (proj2 (Z.leb_le 1 n)) by lia. cbn [andb]. rewrite u64_loop_spec by (unfold UINT64_MAX; lia). by rewrite Z2Nat.id by lia.
Qed.
Definition num_text (max : Z) (bs : list Z) : option Z := at_most max (u64_text bs).
Lemma sdp_parse_u32_spec m p n : 0 <= p → 0 <= n → p + n <= mlen m → sdp_parse_u32 m p n = Ok (num_text UINT32_MAX (slice m p n)).
Proof. intros. unfold sdp_parse_u32. by rewrite sdp_parse_u64_spec by done. Qed.
Lemma sdp_parse_u16_spec m p n : 0 <= p → 0 <= n → p + n <= mlen m → sdp_parse_u16 m p n = Ok (num_text UINT16_MAX (slice m p n)).
Proof. intros. unfold sdp_parse_u16. by rewrite sdp_parse_u64_spec by done. Qed.
Lemma u64_text_range bs v : u64_text bs = Some v → 0 <= v <= UINT64_MAX.
Proof.
  unfold u64_text. destruct (_ && _) eqn:E; [|done]. apply andb_true_iff in E as [E El]. apply andb_true_iff in E as [_ Ed]. intros [= <-].
  apply Z.leb_le in El. pose proof (dec_val_ge bs 0 ltac:(lia) Ed). lia.
Qed.
Lemma num_text_range max bs v : num_text max bs = Some v → 0 <= v <= max.
Proof.
  unfold num_text, at_most. destruct (u64_text bs) as [u|] eqn:E; [|done]. apply u64_text_range in E.
  destruct (Z.ltb_spec max u); [done|]. intros [= <-]. lia.
Qed.

(** The digits of a number of 64 bits. *)
Definition dec64 (v : Z) : list Z := match u64_digits 20 v [] with Ok ds => ds | _ => [] end.
Lemma dec64_spec v : 0 <= v <= UINT64_MAX →
  u64_digits 20 v [] = Ok (dec64 v) ∧ forallb sdp_is_digit (dec64 v) = true ∧ 1 <= mlen (dec64 v) <= 20 ∧ u64_text (dec64 v) = Some v.
Proof.
  intros Hv. unfold UINT64_MAX in Hv. destruct (u32_digits_spec 20 v []) as (ds & E & Hf & Hd & Hl); [change (10 ^ Z.of_nat 20) with 100000000000000000000; lia|lia|].
  rewrite app_nil_r in E. unfold dec64. rewrite u64_digits_sip, E. split_and!; try done; try lia. unfold u64_text.
  change sdp_is_digit with sip_is_digit. rewrite (proj2 (Z.leb_le 1 (mlen ds))), (proj2 (Z.leb_le (mlen ds) 20)), Hf, Hd, (proj2 (Z.leb_le v _)) by (unfold UINT64_MAX; lia).
  done.
Qed.
Lemma dec64_free set v : 0 <= v <= UINT64_MAX → Forall (λ c, sip_is_digit c = false) set → free set (dec64 v).
Proof.
  intros Hv Hs. destruct (dec64_spec v Hv) as (_ & Hd & _). rewrite forallb_forall in Hd. apply Forall_forall. intros c Hc Hx.
  rewrite Forall_forall in Hs. apply list_elem_of_In, Hd in Hc. change sdp_is_digit with sip_is_digit in Hc. by rewrite Hs in Hc.
Qed.
Lemma num_text_dec64 max v : 0 <= v <= max → max <= UINT64_MAX → num_text max (dec64 v) = Some v.
Proof.
  intros Hv Hm. destruct (dec64_spec v ltac:(lia)) as (_ & _ & _ & E). unfold num_text. rewrite E. cbn [at_most].
  by rewrite (proj2 (Z.ltb_ge max v)) by lia.
Qed.

(** ** Lines and fields *)

Lemma sdp_field_spec m p e : 0 <= p <= e → e <= mlen m → e - p <= INT_MAX →
  ∃ s q, sdp_field m p e = Ok (sub_str s q, q) ∧ p <= s <= q ∧ q <= e ∧ s_len (sub_str s q) = q - s ∧ (q = s → q = e).
Proof.
  intros Hp He Hi. unfold INT_MAX in Hi. unfold sdp_field. destruct (skip_spec sdp_is_ws m p e) as (s & -> & Hs & _ & Hn); [lia..|]. bstep.
  destruct (skip_spec (λ b, negb (sdp_is_ws b)) m s e) as (q & -> & Hq & Hb & Hqe); [lia..|]. bstep.
  exists s, q. split; [done|]. split_and!; try lia; [unfold sub_str; cbn [s_len]; rewrite u32_small; lia|].
  intros ->. destruct (Z.eq_dec s e); [done|]. assert (Hlt : s < e) by lia. rewrite Hn in Hqe by lia. by specialize (Hqe Hlt).
Qed.
Lemma sdp_line_end_spec m p e : 0 <= p < e → e <= mlen m →
  ∃ eol next, sdp_line_end m p e = Ok (eol, next) ∧ p <= eol <= next ∧ p < next <= e.
Proof.
  intros Hp He. rewrite sdp_line_end_eq. destruct (line_end_spec m p e) as (r & -> & Hr); [lia..|]. bstep.
  destruct r as [[eol nl]|]; eexists _, _; (split; [done|]); lia.
Qed.
Lemma sdp_line_end_crlf m p e l : holds m p (l ++ CRLF) → no_lf l → p + mlen l + 2 <= e <= mlen m →
  sdp_line_end m p e = Ok (p + mlen l, p + mlen l + 2).
Proof.
  intros H Hl He. rewrite sdp_line_end_eq. destruct (holds_pos _ _ _ H). pose proof (mlen_nonneg l).
  rewrite (line_end_crlf m p e l H Hl) by lia. bstep. by rewrite (proj2 (Z.leb_le _ e)) by lia.
Qed.
Definition is_ws_text (w : list Z) : Prop := Forall (λ c, sdp_is_ws c = true) w.
Lemma sdp_ws_free c : c ∉ [32; 9] → sdp_is_ws c = false.
Proof. apply ws_free. Qed.
(** A field in a text known in parts. *)
Lemma sdp_field_text m p e w t rest : holds m p (w ++ t ++ rest) → e = p + mlen (w ++ t ++ rest) → mlen m <= INT_MAX →
  is_ws_text w → free [32; 9] t → t ≠ [] → heads [32; 9] rest →
  sdp_field m p e = Ok (Str (Some (p + mlen w)) (mlen t), p + mlen w + mlen t).
Proof.
  intros H He Hi Hw Ht Hne Hr. unfold sdp_field. rewrite (skip_text sdp_is_ws m p e w (t ++ rest) H He Hw).
  2:{ destruct t as [|c t]; [done|]. cbn [app]. apply Forall_cons in Ht as [Hc _]. by apply sdp_ws_free. }
  bstep. apply holds_app in H as [_ H]. rewrite mlen_app in He. destruct (holds_pos _ _ _ H) as [H0 H1]. rewrite mlen_app in H1.
  pose proof (mlen_nonneg t). pose proof (mlen_nonneg rest).
  rewrite (skip_text (λ b, negb (sdp_is_ws b)) m (p + mlen w) e t rest H); [|lia| |].
  - bstep. unfold sub_str. unfold INT_MAX in Hi. rewrite u32_small by lia. do 3 f_equal. lia.
  - eapply Forall_impl; [exact Ht|]. intros c Hc. by rewrite (sdp_ws_free c Hc).
  - destruct rest as [|c rest]; [done|]. cbn in Hr. unfold sdp_is_ws. apply elem_of_cons in Hr as [->|Hr]; [done|].
    apply elem_of_cons in Hr as [->|Hr]; [done|]. by apply elem_of_nil in Hr.
Qed.
(** No field is left. *)
Lemma sdp_field_none m p : 0 <= p <= mlen m → sdp_field m p p = Ok (Str (Some p) 0, p).
Proof.
  intros Hp. unfold sdp_field. assert (E : ∀ f, skip f m p p = Ok p) by (intros f; unfold skip; by rewrite Z.sub_diag).
  rewrite E. bstep. rewrite E. bstep. unfold sub_str. by rewrite Z.sub_diag.
Qed.
End SdpScan.
