(* ===== verification/SdpParse.v ===== *)
(** * SdpParse: the description parser on any input

    [sdp_msg_parse] never leaves the buffer and always ends; what it returns lies within the
    buffer, and the runs of the session and of the media sections tile the pools. *)

From stdpp Require Import strings.
From S2P Require Import Prelude Endian SipStr SipMsg SipScan SipName SipParse SipRound SipValue SipUriRound SdpMsg SdpAttr SdpWrite SdpScan.

Module SdpParse.
Import SipStr SipMsg SipScan SipName SipParse SipValue SdpMsg SdpAttr SdpScan.

(** ** Well-formed messages *)

(** Runs that follow each other from [off] to [e]. *)
Fixpoint tiles (off : Z) (runs : list (Z * Z)) (e : Z) : Prop :=
  match runs with
  | [] => off = e
  | (o, c) :: runs => o = off ∧ 0 <= c ∧ tiles (off + c) runs e
  end.
Lemma tiles_snoc runs o c : ∀ off e, tiles off (runs ++ [(o, c)]) e ↔ tiles off runs o ∧ 0 <= c ∧ o + c = e.
Proof.
  induction runs as [|[o' c'] runs IH]; intros off e; cbn [app tiles].
  - split; [intros (-> & ? & <-)|intros (-> & ? & <-)]; done.
  - rewrite IH. tauto.
Qed.
Lemma tiles_le runs : ∀ off e, tiles off runs e → off <= e.
Proof. induction runs as [|[o c] runs IH]; intros off e; cbn [tiles]; [lia|]. intros (-> & Hc & H). apply IH in H. lia. Qed.

Definition attr_run (d : sdp_media) : Z * Z := (md_attr_off d, md_attr_count d).
Definition bw_run (d : sdp_media) : Z * Z := (md_bw_off d, md_bw_count d).
Definition fmt_run (d : sdp_media) : Z * Z := (md_fmt_off d, md_fmt_count d).

Section within.
Context (n : Z).
Local Notation here := (str_in 0 n).
Definition origin_in (o : sdp_origin) : Prop :=
  here (o_user o) ∧ here (o_nettype o) ∧ here (o_addrtype o) ∧ here (o_addr o) ∧
  0 <= o_id o <= UINT64_MAX ∧ 0 <= o_version o <= UINT64_MAX.
Definition conn_in (c : sdp_conn) : Prop := here (c_nettype c) ∧ here (c_addrtype c) ∧ here (c_addr c) ∧ 0 < s_len (c_addr c).
Definition opt_in {A} (P : A → Prop) (o : option A) : Prop := match o with None => True | Some a => P a end.
Definition bw_in (b : sdp_bw) : Prop := here (b_type b) ∧ 0 < s_len (b_type b) ∧ 0 <= b_value b <= UINT64_MAX.
Definition attr_in (a : sdp_attr) : Prop := 0 <= at_id a < SDP_A_MAX ∧ here (at_name a) ∧ here (at_value a).
Definition media_in (d : sdp_media) : Prop :=
  0 <= md_type d < SDP_M_MAX ∧ here (md_type_name d) ∧ 0 <= md_port d <= UINT16_MAX ∧ 0 <= md_nports d <= UINT16_MAX ∧
  0 <= md_proto d < SDP_P_MAX ∧ here (md_proto_name d) ∧ here (md_title d) ∧ opt_in conn_in (md_conn d).
Definition pools_ok (msg : sdp_msg) : Prop :=
  0 <= sm_attr_count msg ∧ tiles (sm_attr_count msg) (attr_run <$> sm_media msg) (count (sm_attrs msg)) ∧
  0 <= sm_bw_count msg ∧ tiles (sm_bw_count msg) (bw_run <$> sm_media msg) (count (sm_bws msg)) ∧
  tiles 0 (fmt_run <$> sm_media msg) (count (sm_fmts msg)) ∧
  count (sm_media msg) <= SDP_MAX_MEDIA ∧ count (sm_attrs msg) <= SDP_MAX_ATTRS ∧
  count (sm_fmts msg) <= SDP_MAX_FMTS ∧ count (sm_bws msg) <= SDP_MAX_BWS.
Definition sdp_ok (msg : sdp_msg) : Prop :=
  pools_ok msg ∧ opt_in origin_in (sm_origin msg) ∧ here (sm_name msg) ∧ here (sm_info msg) ∧ here (sm_uri msg) ∧
  opt_in conn_in (sm_conn msg) ∧ Forall media_in (sm_media msg) ∧ Forall attr_in (sm_attrs msg) ∧
  Forall (λ s, here s ∧ 0 < s_len s) (sm_fmts msg) ∧ Forall bw_in (sm_bws msg).
End within.

Lemma cur_Some msg d : cur msg = Some d → ∃ l, sm_media msg = l ++ [d].
Proof. apply last_Some. Qed.
Lemma cur_None msg : cur msg = None → sm_media msg = [].
Proof. apply last_None. Qed.
Lemma set_cur_media msg l d d' : sm_media msg = l ++ [d] → sm_media (set_cur d' msg) = l ++ [d'].
Proof. intros E. unfold set_cur, set_media. cbn [sm_media]. by rewrite E, removelast_last. Qed.
Lemma count_snoc {A} (l : list A) x : count (l ++ [x]) = count l + 1.
Proof. unfold count. rewrite length_app. cbn. lia. Qed.
Lemma count_nonneg {A} (l : list A) : 0 <= count l.
Proof. unfold count. lia. Qed.
Lemma fmap_snoc {A B} (f : A → B) l x : f <$> (l ++ [x]) = (f <$> l) ++ [f x].
Proof. by rewrite fmap_app. Qed.

(** ** Each update keeps a message well formed *)

Section updates.
Context (n : Z) (msg : sdp_msg) (Hok : sdp_ok n msg).

(** A change of the current section that leaves its runs alone. *)
Lemma set_cur_ok l d d' : sm_media msg = l ++ [d] → media_in n d' →
  attr_run d' = attr_run d → bw_run d' = bw_run d → fmt_run d' = fmt_run d → sdp_ok n (set_cur d' msg).
Proof using Hok.
  intros E Hd Ea Eb Ef. destruct Hok as ((Ha0 & Ha & Hb0 & Hb & Hf & Hcm & Hc) & Ho & Hn & Hi & Hu & Hcn & Hm & Hrest).
  pose proof (set_cur_media msg l d d' E) as Em. unfold sdp_ok, pools_ok. rewrite Em. rewrite E in Ha, Hb, Hf, Hcm, Hm.
  rewrite !fmap_snoc in *. rewrite Ea, Eb, Ef, count_snoc in *. apply Forall_app in Hm as [Hl _]. split; [split_and!; try done; apply Hc|].
  split_and!; try done; try apply Hrest. apply Forall_app. split; [done|by constructor].
Qed.
Lemma cur_in d : cur msg = Some d → media_in n d.
Proof using Hok.
  intros [l E]%cur_Some. destruct Hok as (_ & _ & _ & _ & _ & _ & Hm & _). rewrite E in Hm. apply Forall_app in Hm as [_ Hm].
  by apply Forall_cons in Hm as [? _].
Qed.
Lemma set_title_ok s : str_in 0 n s → sdp_ok n (set_title s msg).
Proof using Hok.
  intros Hs. unfold set_title. destruct (cur msg) as [d|] eqn:Ec.
  - pose proof (cur_in d Ec) as Hd. apply cur_Some in Ec as [l E]. apply (set_cur_ok l d _ E); try done. unfold media_in in *. cbn. tauto.
  - unfold sdp_ok, pools_ok in *. cbn. tauto.
Qed.
Lemma set_conn_ok c : conn_in n c → sdp_ok n (set_conn c msg).
Proof using Hok.
  intros Hs. unfold set_conn. destruct (cur msg) as [d|] eqn:Ec.
  - pose proof (cur_in d Ec) as Hd. apply cur_Some in Ec as [l E]. apply (set_cur_ok l d _ E); try done. unfold media_in in *. cbn. tauto.
  - unfold sdp_ok, pools_ok in *. cbn. tauto.
Qed.
Lemma add_attr_ok a : count (sm_attrs msg) < SDP_MAX_ATTRS → attr_in n a → sdp_ok n (add_attr a msg).
Proof using Hok.
  intros Hc Ha. unfold SDP_MAX_ATTRS in Hc. destruct Hok as ((Ha0 & Hat & Hb0 & Hb & Hf & Hcm & Hca & Hcf & Hcb) & Ho & Hn & Hi & Hu & Hcn & Hm & Has & Hfs & Hbs).
  assert (Has' : Forall (attr_in n) (sm_attrs msg ++ [a])) by (apply Forall_app; split; [done|by constructor]).
  unfold add_attr. destruct (cur msg) as [d|] eqn:Ec; cbv zeta.
  - pose proof (cur_in d Ec) as Hd. apply cur_Some in Ec as [l E]. unfold sdp_ok, pools_ok.
    cbn [sm_origin sm_name sm_info sm_uri sm_conn sm_time sm_bw_count sm_attr_count sm_media sm_attrs sm_fmts sm_bws].
    rewrite (set_cur_media msg l d _ E). cbn [set_cur set_media sm_origin sm_name sm_info sm_uri sm_conn sm_bw_count sm_attr_count sm_attrs sm_fmts sm_bws].
    rewrite E in *. rewrite !fmap_snoc, !count_snoc in *. unfold attr_run at 2, bw_run at 2, fmt_run at 2.
    cbn [md_attr_off md_attr_count md_bw_off md_bw_count md_fmt_off md_fmt_count]. unfold attr_run at 2 in Hat. rewrite tiles_snoc in *.
    pose proof (tiles_le _ _ _ (proj1 Hat)). pose proof (count_nonneg (sm_attrs msg)). unfold SDP_MAX_ATTRS in *. rewrite u16_small by lia. apply Forall_app in Hm as [Hl _].
    split_and!; try done; try lia; try (apply Forall_app; split; [done|by constructor]); apply Hat.
  - apply cur_None in Ec. rewrite Ec in *. cbn [fmap list_fmap tiles] in *. unfold sdp_ok, pools_ok.
    cbn [sm_origin sm_name sm_info sm_uri sm_conn sm_time sm_bw_count sm_attr_count sm_media sm_attrs sm_fmts sm_bws].
    pose proof (count_nonneg (sm_attrs msg)). rewrite count_snoc, Hat, u16_small by lia. cbn [fmap list_fmap tiles]. unfold SDP_MAX_ATTRS in *.
    split_and!; done || lia.
Qed.
Lemma add_bw_ok b : count (sm_bws msg) < SDP_MAX_BWS → bw_in n b → sdp_ok n (add_bw b msg).
Proof using Hok.
  intros Hc Ha. unfold SDP_MAX_BWS in Hc. destruct Hok as ((Ha0 & Hat & Hb0 & Hb & Hf & Hcm & Hca & Hcf & Hcb) & Ho & Hn & Hi & Hu & Hcn & Hm & Has & Hfs & Hbs).
  assert (Hbs' : Forall (bw_in n) (sm_bws msg ++ [b])) by (apply Forall_app; split; [done|by constructor]).
  unfold add_bw. destruct (cur msg) as [d|] eqn:Ec; cbv zeta.
  - pose proof (cur_in d Ec) as Hd. apply cur_Some in Ec as [l E]. unfold sdp_ok, pools_ok.
    cbn [sm_origin sm_name sm_info sm_uri sm_conn sm_time sm_bw_count sm_attr_count sm_media sm_attrs sm_fmts sm_bws].
    rewrite (set_cur_media msg l d _ E). cbn [set_cur set_media sm_origin sm_name sm_info sm_uri sm_conn sm_bw_count sm_attr_count sm_attrs sm_fmts sm_bws].
    rewrite E in *. rewrite !fmap_snoc, !count_snoc in *. unfold attr_run at 2, bw_run at 2, fmt_run at 2.
    cbn [md_attr_off md_attr_count md_bw_off md_bw_count md_fmt_off md_fmt_count]. unfold attr_run at 2 in Hat. unfold bw_run at 2 in Hb. rewrite tiles_snoc in *.
    pose proof (tiles_le _ _ _ (proj1 Hb)). pose proof (count_nonneg (sm_bws msg)). unfold SDP_MAX_BWS in *. rewrite u16_small by lia. apply Forall_app in Hm as [Hl _].
    split_and!; try done; try lia; try (apply Forall_app; split; [done|by constructor]); first [apply Hat|apply tiles_snoc; split_and!; [apply Hb|lia|lia]].
  - apply cur_None in Ec. rewrite Ec in *. cbn [fmap list_fmap tiles] in *. unfold sdp_ok, pools_ok.
    cbn [sm_origin sm_name sm_info sm_uri sm_conn sm_time sm_bw_count sm_attr_count sm_media sm_attrs sm_fmts sm_bws].
    pose proof (count_nonneg (sm_bws msg)). rewrite count_snoc, Hb, u16_small by lia. cbn [fmap list_fmap tiles]. unfold SDP_MAX_BWS in *.
    split_and!; done || lia.
Qed.
Lemma add_media_ok d fmts : count (sm_media msg) < SDP_MAX_MEDIA → media_in n d →
  attr_run d = (count (sm_attrs msg), 0) → bw_run d = (count (sm_bws msg), 0) →
  fmt_run d = (count (sm_fmts msg), count fmts - count (sm_fmts msg)) → count (sm_fmts msg) <= count fmts <= SDP_MAX_FMTS →
  Forall (λ s, str_in 0 n s ∧ 0 < s_len s) fmts → sdp_ok n (add_media d fmts msg).
Proof using Hok.
  intros Hc Hd Ea Eb Ef Hfc Hfs. destruct Hok as ((Ha0 & Hat & Hb0 & Hb & Hf & Hcm & Hca & Hcf & Hcb) & Ho & Hn & Hi & Hu & Hcn & Hm & Has & _ & Hbs).
  unfold sdp_ok, pools_ok, add_media. cbn [sm_origin sm_name sm_info sm_uri sm_conn sm_time sm_bw_count sm_attr_count sm_media sm_attrs sm_fmts sm_bws].
  rewrite !fmap_snoc, count_snoc, Ea, Eb, Ef. unfold SDP_MAX_MEDIA in *.
  split_and!; try done; try lia; first [apply tiles_snoc; split_and!; done || lia|apply Forall_app; split; [done|by constructor]].
Qed.
End updates.

(** ** Lines *)

Section lines.
Context (m : mem) (n : Z) (Hb : bytes_ok m) (Hn : 0 <= n <= mlen m) (Hi : n <= INT_MAX).

Lemma sub_in a b : 0 <= a <= b → b <= n → str_in 0 n (sub_str a b).
Proof using Hi. intros. apply (str_in_lo a); [lia|]. apply sub_str_in; lia. Qed.
Lemma field_in p e : 0 <= p <= e → e <= n → ∃ s q, sdp_field m p e = Ok (sub_str s q, q) ∧ p <= s <= q ∧ q <= e ∧ s_len (sub_str s q) = q - s ∧ (q = s → q = e) ∧ str_in 0 n (sub_str s q).
Proof using Hi Hn.
  intros Hp He. destruct (sdp_field_spec m p e) as (s & q & E & Hs & Hq & Hl & Hz); [lia..|]. exists s, q. split_and!; try done; try lia. apply sub_in; lia.
Qed.
Lemma fields_in k : ∀ p e, 0 <= p <= e → e <= n →
  ∃ r, sdp_fields k m p e = Ok r ∧
    match r with None => True | Some l => length l = k ∧ Forall (λ s, str_in 0 n s ∧ 0 < s_len s ∧ is_Some (s_p s)) l end.
Proof using Hi Hn.
  induction k as [|k IH]; intros p e Hp He; cbn [sdp_fields]; [eexists; split; [done|]; by split|].
  destruct (field_in p e Hp He) as (s & q & -> & Hs & Hq & Hl & _ & Hin). bstep. cbn [fst snd]. rewrite Hl.
  destruct (Z.eqb_spec (q - s) 0); [by eexists|]. destruct (IH q e) as (r & -> & Hr); [lia..|]. bstep.
  eexists. split; [done|]. destruct r as [l|]; [|done]. destruct Hr as [Hlen HF]. split; [cbn; lia|]. constructor; [|done].
  split_and!; [done|lia|by eexists].
Qed.
Lemma str_u64_in s : str_in 0 n s → is_Some (s_p s) → ∃ r, str_u64 m s = Ok r ∧ match r with None => True | Some v => 0 <= v <= UINT64_MAX end.
Proof using Hn.
  intros Hs [p Ep]. unfold str_u64, str_in in *. rewrite Ep in *. rewrite sdp_parse_u64_spec by lia. eexists. split; [done|].
  destruct (u64_text _) eqn:E; [by apply u64_text_range in E|done].
Qed.
Lemma parse_origin_in p e : 0 <= p <= e → e <= n → ∃ r, parse_origin m p e = Ok r ∧ opt_in (origin_in n) r.
Proof using Hi Hn.
  intros Hp He. unfold parse_origin. destruct (fields_in 6 p e Hp He) as (r & -> & Hr). bstep. destruct r as [l|]; [|by eexists].
  destruct Hr as [Hl HF]. do 7 (destruct l as [|? l]; try done). repeat (apply Forall_cons in HF as [? HF]).
  destruct (str_u64_in s0) as (a & -> & Ha); [tauto..|]. bstep. destruct (str_u64_in s1) as (b & -> & Hb'); [tauto..|]. bstep.
  eexists. split; [done|]. unfold opt_in, origin_in. cbn. unfold UINT64_MAX in *. split_and!; try tauto; destruct a, b; cbn; lia.
Qed.
Lemma parse_conn_in p e : 0 <= p <= e → e <= n → ∃ r, parse_conn m p e = Ok r ∧ opt_in (conn_in n) r.
Proof using Hi Hn.
  intros Hp He. unfold parse_conn. destruct (fields_in 3 p e Hp He) as (r & -> & Hr). bstep. eexists. split; [done|].
  destruct r as [l|]; [|done]. destruct Hr as [Hl HF]. do 4 (destruct l as [|? l]; try done). repeat (apply Forall_cons in HF as [? HF]).
  unfold opt_in, conn_in. cbn. tauto.
Qed.
Lemma fmt_loop_in e : e <= n → ∀ fuel p fmts, 0 <= p <= e → e - p < Z.of_nat fuel →
  Forall (λ s, str_in 0 n s ∧ 0 < s_len s) fmts → count fmts <= SDP_MAX_FMTS →
  ∃ r, fmt_loop fuel m p e fmts = Ok r ∧
    match r with inl rc => rc = SDP_E_FMTS | inr fmts' => count fmts <= count fmts' <= SDP_MAX_FMTS ∧ Forall (λ s, str_in 0 n s ∧ 0 < s_len s) fmts' end.
Proof using Hi Hn.
  intros He. induction fuel as [|fuel IH]; intros p fmts Hp Hf HF Hc; [lia|]. cbn [fmt_loop].
  destruct (field_in p e Hp He) as (s & q & -> & Hs & Hq & Hl & _ & Hin). bstep. cbn [fst snd]. rewrite Hl.
  destruct (Z.eqb_spec (q - s) 0); [eexists; split; [done|]; by split|]. destruct (Z.leb_spec SDP_MAX_FMTS (count fmts)); [by eexists|].
  destruct (IH q (fmts ++ [sub_str s q])) as (r & -> & Hr); [lia|lia| | |].
  - apply Forall_app. split; [done|]. constructor; [|done]. split; [done|lia].
  - rewrite count_snoc. lia.
  - eexists. split; [done|]. destruct r; [done|]. rewrite count_snoc in Hr. split; [lia|tauto].
Qed.
Lemma parse_ports_in p len : 0 <= p → 0 <= len → p + len <= n →
  ∃ r, parse_ports m (Str (Some p) len) = Ok r ∧ match r with None => True | Some (a, b) => 0 <= a <= UINT16_MAX ∧ 0 <= b <= UINT16_MAX end.
Proof using Hn.
  intros Hp Hl Hm. unfold parse_ports. cbn [s_p s_len]. destruct (memchr_spec m p 47 len) as (sl & -> & Hsl); [lia..|]. bstep.
  destruct sl as [q|].
  - rewrite (sdp_parse_u16_spec m p (q - p)) by lia. bstep. destruct (num_text UINT16_MAX (slice m p (q - p))) as [v|] eqn:Ev; [|by eexists].
    rewrite sdp_parse_u16_spec by lia. bstep. apply num_text_range in Ev. eexists. split; [done|].
    destruct (num_text _ _) as [w|] eqn:Ew; [|done]. by apply num_text_range in Ew.
  - rewrite sdp_parse_u16_spec by lia. bstep. destruct (num_text _ _) as [v|] eqn:Ev; [|by eexists]. apply num_text_range in Ev.
    eexists. split; [done|]. done.
Qed.
Lemma token_ref_range tab name hi : ids_of tab ≠ [] → Forall (λ id, 0 <= id < hi) (ids_of tab) → 0 <= token_ref tab name < hi.
Proof using.
  clear. intros Hne HF. unfold token_ref. apply first_of_range; [|done]. destruct (ids_of tab) as [|id ids]; [done|]. apply Forall_cons in HF as [? _]. lia.
Qed.

Lemma parse_media_in p e bw_off attr_off fmts : 0 <= p <= e → e <= n →
  Forall (λ s, str_in 0 n s ∧ 0 < s_len s) fmts → count fmts <= SDP_MAX_FMTS →
  ∃ r, parse_media m p e bw_off attr_off fmts = Ok r ∧
    match r with
    | inl rc => rc = SDP_E_LINE ∨ rc = SDP_E_FMTS
    | inr (d, fmts') => media_in n d ∧ attr_run d = (attr_off, 0) ∧ bw_run d = (bw_off, 0) ∧
        fmt_run d = (count fmts, count fmts' - count fmts) ∧ count fmts <= count fmts' <= SDP_MAX_FMTS ∧
        Forall (λ s, str_in 0 n s ∧ 0 < s_len s) fmts'
    end.
Proof using Hi Hn.
  intros Hp He HF Hc. unfold parse_media.
  destruct (field_in p e Hp He) as (s1 & q1 & -> & Hs1 & Hq1 & Hl1 & _ & Hin1). bstep. cbn [snd].
  destruct (field_in q1 e) as (s2 & q2 & -> & Hs2 & Hq2 & Hl2 & _ & Hin2); [lia..|]. bstep. cbn [snd].
  destruct (field_in q2 e) as (s3 & q3 & -> & Hs3 & Hq3 & Hl3 & _ & Hin3); [lia..|]. bstep. cbn [fst snd]. cbv iota beta zeta.
  rewrite Hl1, Hl2, Hl3. destruct (_ || _); [eexists; split; [done|by left]|].
  assert (Hsub : ∀ a b, s_len (sub_str a b) = b - a → sub_str a b = Str (Some a) (b - a)) by (intros a b E; unfold sub_str in *; cbn in E; by rewrite E).
  rewrite (Hsub s1 q1 Hl1), (Hsub s3 q3 Hl3) in *. rewrite (Hsub s2 q2 Hl2) in *. destruct (parse_ports_in s2 (q2 - s2)) as (r & -> & Hr); [lia..|]. bstep.
  destruct r as [[port nports]|]; [|eexists; split; [done|by left]]. unfold str_ref. cbn [s_p].
  rewrite sdp_mtype_from_eq, sdp_proto_from_eq by lia. bstep.
  destruct (fmt_loop_in e He (S (Z.to_nat (e - q3))) q3 fmts) as (r & -> & Hfm); [lia..|done|done|]. bstep.
  destruct r as [rc|fmts']; [eexists; split; [done|right; done]|]. destruct Hfm as [Hc' HF']. eexists. split; [done|].
  split_and!; try done; try lia. unfold media_in.
  cbn [md_type md_type_name md_port md_nports md_proto md_proto_name md_title md_conn opt_in].
  assert (HM : 0 <= token_ref k_mtype (slice m s1 (q1 - s1)) < SDP_M_MAX) by (apply token_ref_range; [done|apply (bool_decide_unpack _); vm_compute; exact I]).
  assert (HP : 0 <= token_ref k_proto (slice m s3 (q3 - s3)) < SDP_P_MAX) by (apply token_ref_range; [done|apply (bool_decide_unpack _); vm_compute; exact I]).
  split_and!; done || tauto || lia.
Qed.

Definition line_errors : list Z := [SDP_E_LINE; SDP_E_VERSION; SDP_E_MEDIA; SDP_E_ATTRS; SDP_E_FMTS; SDP_E_BWS].
Definition line_out (r : Z + sdp_msg) : Prop := match r with inl rc => rc ∈ line_errors | inr msg => sdp_ok n msg end.
Lemma bad_line rc : rc ∈ line_errors → ∃ r, Ok (inl rc) = Ok r ∧ line_out r.
Proof using. eauto. Qed.
Ltac bad := apply bad_line; apply (bool_decide_unpack _); vm_compute; exact I.

Lemma bw_line_in v e msg : sdp_ok n msg → 0 <= v <= e → e <= n → ∃ r, bw_line m v e msg = Ok r ∧ line_out r.
Proof using Hi Hn.
  intros Hok Hv He. unfold bw_line. destruct (memchr_spec m v 58 (e - v)) as (c & -> & Hc); [lia..|]. bstep. destruct c as [c|]; [|bad].
  destruct (Z.eqb_spec c v); [bad|]. destruct (Z.leb_spec SDP_MAX_BWS (count (sm_bws msg))); [bad|]. rewrite sdp_parse_u64_spec by lia. bstep.
  destruct (u64_text _) as [x|] eqn:Ex; [|bad]. apply u64_text_range in Ex. eexists. split; [done|]. apply add_bw_ok; [done|done|].
  unfold bw_in. cbn [b_type b_value]. split_and!; try lia; [apply sub_in; lia|]. unfold sub_str. cbn [s_len]. unfold INT_MAX in *. rewrite u32_small by lia. lia.
Qed.
Lemma time_line_in v e msg : sdp_ok n msg → 0 <= v <= e → e <= n → ∃ r, time_line m v e msg = Ok r ∧ line_out r.
Proof using Hi Hn.
  intros Hok Hv He. unfold time_line. destruct (is_Some_b (sm_time msg)); [by eexists|].
  destruct (field_in v e Hv He) as (s1 & q1 & -> & Hs1 & Hq1 & Hl1 & _ & Hin1). bstep. cbn [snd].
  destruct (field_in q1 e) as (s2 & q2 & -> & Hs2 & Hq2 & Hl2 & _ & Hin2); [lia..|]. bstep. cbn [fst].
  destruct (_ || _); [bad|]. destruct (str_u64_in (sub_str s1 q1) Hin1) as (a & -> & Ha); [by eexists|]. bstep. destruct a as [a|]; [|bad].
  destruct (str_u64_in (sub_str s2 q2) Hin2) as (b & -> & Hb'); [by eexists|]. bstep. destruct b as [b|]; [|bad].
  eexists. split; [done|]. unfold line_out, sdp_ok, pools_ok in *. cbn. tauto.
Qed.
Lemma attr_line_in v e msg : sdp_ok n msg → 0 <= v <= e → e <= n → ∃ r, attr_line m v e msg = Ok r ∧ line_out r.
Proof using Hb Hi Hn.
  intros Hok Hv He. unfold attr_line. destruct (Z.leb_spec SDP_MAX_ATTRS (count (sm_attrs msg))); [bad|].
  destruct (memchr_spec m v 58 (e - v)) as (c & -> & Hc); [lia..|]. bstep. set (ne := match c with Some q => q | None => e end).
  assert (v <= ne <= e) by (unfold ne; destruct c; lia). rewrite sdp_attr_from_eq by (done || lia). bstep.
  assert (E : ∃ s, match c with Some q => av ← skip sdp_is_ws m (q + 1) e; Ok (sub_str av e) | None => Ok no_str end = Ok s ∧ str_in 0 n s).
  { destruct c as [q|]; [|by eexists]. destruct (skip_spec sdp_is_ws m (q + 1) e) as (a & -> & Ha & _); [lia..|]. bstep. eexists. split; [done|]. apply sub_in; lia. }
  destruct E as (s & -> & Hs). bstep. eexists. split; [done|]. apply add_attr_ok; [done|done|]. split_and!; try done; try (cbn; apply sub_in; lia).
  all: cbn [at_id]; unfold attr_ref; apply (first_of_range _ k_attr (ids_of k_attr) 0 SDP_A_MAX); [done|apply (bool_decide_unpack _); vm_compute; exact I].
Qed.
Lemma sdp_line_in type v e msg : sdp_ok n msg → 0 <= v <= e → e <= n → ∃ r, sdp_line m type v e msg = Ok r ∧ line_out r.
Proof using Hb Hi Hn.
  intros Hok Hv He. unfold sdp_line. assert (Hs : str_in 0 n (sub_str v e)) by (apply sub_in; lia).
  destruct (type =? 118); [bad|]. destruct (type =? 111).
  { destruct (parse_origin_in v e Hv He) as (o & -> & Ho). bstep. destruct o as [o|]; [|bad]. eexists. split; [done|].
    unfold line_out, sdp_ok, pools_ok in *. cbn. tauto. }
  destruct (type =? 115); [eexists; split; [done|]; destruct Hok as (Hpo & H1 & H2 & H3 & H4 & H5); exact (conj Hpo (conj H1 (conj Hs (conj H3 (conj H4 H5)))))|].
  destruct (type =? 105); [eexists; split; [done|]; by apply set_title_ok|].
  destruct (type =? 117); [eexists; split; [done|]; destruct Hok as (Hpo & H1 & H2 & H3 & H4 & H5); exact (conj Hpo (conj H1 (conj H2 (conj H3 (conj Hs H5)))))|].
  destruct (type =? 99).
  { unfold conn_line. destruct (is_Some_b (cur_conn msg)); [by eexists|]. destruct (parse_conn_in v e Hv He) as (c & -> & Hc). bstep.
    destruct c as [c|]; [|bad]. eexists. split; [done|]. by apply set_conn_ok. }
  destruct (type =? 98); [by apply bw_line_in|]. destruct (type =? 116); [by apply time_line_in|]. destruct (type =? 109).
  { unfold media_line. destruct (Z.leb_spec SDP_MAX_MEDIA (count (sm_media msg))); [bad|].
    pose proof Hok as ((_ & _ & _ & _ & _ & _ & _ & Hcf & _) & _ & _ & _ & _ & _ & _ & _ & Hfs & _).
    destruct (parse_media_in v e (count (sm_bws msg)) (count (sm_attrs msg)) (sm_fmts msg) Hv He Hfs Hcf) as (r & -> & Hr). bstep.
    destruct r as [rc|[d fmts]].
    - destruct Hr as [->| ->]; bad.
    - destruct Hr as (H1 & H2 & H3 & H4 & H5 & H6). eexists. split; [done|]. by apply add_media_ok. }
  destruct (type =? 97); [by apply attr_line_in|]. by eexists.
Qed.

Lemma sdp_lines_in : ∀ fuel p got_v msg, sdp_ok n msg → 0 <= p <= n → n - p < Z.of_nat fuel →
  ∃ r, sdp_lines fuel m p n got_v msg = Ok r ∧ line_out r.
Proof using Hb Hi Hn.
  induction fuel as [|fuel IH]; intros p got_v msg Hok Hp Hf; [lia|]. cbn [sdp_lines]. destruct (Z.leb_spec n p).
  { destruct got_v; [by eexists|bad]. }
  destruct (sdp_line_end_spec m p n) as (eol & next & -> & He & Hnx); [lia..|]. bstep. destruct (Z.eqb_spec eol p); [apply IH; done || lia|].
  destruct (Z.ltb_spec (eol - p) 2); [bad|]. rewrite (rd_Ok m (p + 1)) by lia. bstep. destruct (negb _); [bad|].
  rewrite (rd_Ok m p) by lia. bstep. destruct (trim_spec sdp_is_ws m (p + 2) eol) as (e & -> & He' & _); [lia..|]. bstep.
  destruct got_v; cbn [negb].
  - destruct (sdp_line_in (get m p) (p + 2) e msg Hok) as (r & -> & Hr); [lia..|]. bstep. destruct r as [rc|msg']; [by eexists|]. apply IH; done || lia.
  - destruct (negb (get m p =? 118)); [bad|]. destruct (Z.eqb_spec (e - (p + 2)) 1); cbn [negb]; [|bad]. rewrite (rd_Ok m (p + 2)) by lia. bstep.
    destruct (negb _); [bad|]. apply IH; done || lia.
Qed.
End lines.

(** C23: parsing any octets as a session description reads nothing past them and ends.  The
    outcome is a documented error or a message in which every slice lies within the octets,
    no pool exceeds its bound, and the attributes, bandwidth lines and formats of the session
    and of the media sections, in order, tile the pools without gap or overlap. *)
Theorem sdp_msg_parse_safe m len : bytes_ok m → 0 <= len <= mlen m →
  ∃ r, sdp_msg_parse true (Some m) len = Ok r ∧
    match r with inl rc => rc ∈ SDP_E_INVAL :: line_errors | inr msg => sdp_ok len msg end.
Proof.
  intros Hb Hl. unfold sdp_msg_parse. cbn [negb orb]. destruct (Z.ltb_spec INT_MAX len) as [|Hi].
  { eexists. split; [done|]. cbv iota. left. }
  destruct (sdp_lines_in m len Hb Hl Hi (S (Z.to_nat len)) 0 false sdp_empty) as (r & -> & Hr); [|lia|lia|].
  { unfold sdp_ok, pools_ok, sdp_empty. cbn. split_and!; done || constructor. }
  exists r. split; [done|]. destruct r; [by right|done].
Qed.
Definition ex_sdp : list Z :=
  txt "v=0" ++ [13; 10] ++ txt "a=x" ++ [10] ++ txt "m=audio 9 RTP/AVP 0 8" ++ [10] ++ txt "a=sendonly" ++ [10].
Lemma sdp_msg_parse_safe_witness :
  ∃ r, sdp_msg_parse true (Some ex_sdp) 42 = Ok r ∧
    match r with inl rc => rc ∈ SDP_E_INVAL :: line_errors | inr msg => sdp_ok 42 msg end.
Proof. apply (sdp_msg_parse_safe ex_sdp 42); [by apply (bool_decide_unpack _); vm_compute|done]. Defined.
End SdpParse.
