(* ===== verification/SdpAccess.v ===== *)
(** * SdpAccess: sections of a parsed description

    What the access functions of SdpAttr return of a well-formed message, stated on the list
    of the attributes of a section and on what their texts state. *)

From stdpp Require Import strings.
From S2P Require Import Prelude Endian SipStr SipMsg SipScan SipName SipParse SipRound SipValue SipUriRound SdpMsg SdpAttr SdpWrite SdpScan SdpParse.

Module SdpAccess.
Import SipStr SipMsg SipScan SipName SipParse SipValue SdpMsg SdpAttr SdpScan SdpParse.

(** The session, or one of the media sections. *)
Definition section_of (msg : sdp_msg) (media : option sdp_media) : Prop := match media with None => True | Some d => d ∈ sm_media msg end.
(** Its attributes. *)
Definition run_of (msg : sdp_msg) (media : option sdp_media) : list sdp_attr :=
  let '(lo, hi) := attr_range msg media in take (Z.to_nat (hi - lo)) (drop (Z.to_nat lo) (sm_attrs msg)).
(** The first element a function is defined on, and the first that satisfies a test with its index. *)
Fixpoint first_some {A B} (f : A → option B) (l : list A) : option B :=
  match l with [] => None | a :: l => match f a with Some b => Some b | None => first_some f l end end.
Fixpoint first_at {A} (g : A → bool) (i : Z) (l : list A) : option Z :=
  match l with [] => None | a :: l => if g a then Some i else first_at g (i + 1) l end.

Lemma tiles_elem runs : ∀ off e r, tiles off runs e → r ∈ runs → off <= fst r ∧ 0 <= snd r ∧ fst r + snd r <= e.
Proof.
  induction runs as [|[o c] runs IH]; intros off e r Ht Hr; [by apply elem_of_nil in Hr|]. cbn [tiles] in Ht. destruct Ht as (-> & Hc & Ht).
  pose proof (tiles_le _ _ _ Ht). apply elem_of_cons in Hr as [->|Hr]; [cbn; lia|]. destruct (IH _ _ _ Ht Hr). lia.
Qed.
Lemma attr_range_ok n msg media : sdp_ok n msg → section_of msg media →
  0 <= fst (attr_range msg media) <= snd (attr_range msg media) ∧ snd (attr_range msg media) <= count (sm_attrs msg).
Proof.
  intros ((Ha0 & Ha & _ & _ & _ & _ & Hca & _) & _) Hs. unfold SDP_MAX_ATTRS in Hca. pose proof (tiles_le _ _ _ Ha). destruct media as [d|]; cbn [attr_range fst snd]; [|lia].
  destruct (tiles_elem _ _ _ (attr_run d) Ha) as (H1 & H2 & H3); [apply list_elem_of_fmap; by exists d|]. cbn [attr_run fst snd] in *.
  rewrite u16_small by lia. lia.
Qed.

Section scan.
Context (msg : sdp_msg).
Lemma attr_at_Ok i a : 0 <= i → sm_attrs msg !! Z.to_nat i = Some a → attr_at msg i = Ok a.
Proof. intros Hi E. unfold attr_at. by rewrite (proj2 (Z.ltb_ge i 0)), E by lia. Qed.
Lemma drop_cons_lookup {A} (l : list A) i a l' : drop i l = a :: l' → l !! i = Some a ∧ drop (S i) l = l'.
Proof. intros E. split; [rewrite <-(Nat.add_0_r i), <-lookup_drop, E; done|]. rewrite <-Nat.add_1_r, <-drop_drop, E. done. Qed.
Lemma attr_scan_spec f g l : Forall (λ a, f a = Ok (g a)) l → ∀ i, 0 <= i → take (length l) (drop (Z.to_nat i) (sm_attrs msg)) = l →
  attr_scan (length l) msg i f = Ok (first_at g i l).
Proof.
  induction 1 as [|a l Ha HF IH]; intros i Hi El; [done|]. cbn [length attr_scan first_at]. cbn [length] in El.
  destruct (drop (Z.to_nat i) (sm_attrs msg)) as [|a' l'] eqn:Ed; [done|]. cbn [take] in El. injection El as -> El.
  apply drop_cons_lookup in Ed as [E1 E2]. rewrite (attr_at_Ok i a) by done. bstep. rewrite Ha. bstep. destruct (g a); [done|].
  apply IH; [lia|]. replace (Z.to_nat (i + 1)) with (S (Z.to_nat i)) by lia. by rewrite E2.
Qed.
Lemma scan_range_spec f g lo hi : 0 <= lo <= hi → hi <= count (sm_attrs msg) →
  Forall (λ a, f a = Ok (g a)) (take (Z.to_nat (hi - lo)) (drop (Z.to_nat lo) (sm_attrs msg))) →
  scan_range msg (lo, hi) f = Ok (first_at g lo (take (Z.to_nat (hi - lo)) (drop (Z.to_nat lo) (sm_attrs msg)))).
Proof.
  intros Hlo Hhi HF. unfold scan_range. cbn [fst snd]. set (l := take _ _) in *.
  assert (Hl : length l = Z.to_nat (hi - lo)) by (unfold l, count in *; rewrite length_take, length_drop; lia).
  rewrite <-Hl. apply attr_scan_spec; [done|lia|]. rewrite Hl. done.
Qed.
Lemma dir_scan_spec l : ∀ i, 0 <= i → take (length l) (drop (Z.to_nat i) (sm_attrs msg)) = l →
  dir_scan (length l) msg i = Ok (first_some (λ a, dir_of (at_id a)) l).
Proof.
  induction l as [|a l IH]; intros i Hi El; [done|]. cbn [length dir_scan first_some]. cbn [length] in El.
  destruct (drop (Z.to_nat i) (sm_attrs msg)) as [|a' l'] eqn:Ed; [done|]. cbn [take] in El. injection El as -> El.
  apply drop_cons_lookup in Ed as [E1 E2]. rewrite (attr_at_Ok i a) by done. bstep. destruct (dir_of (at_id a)); [done|].
  apply IH; [lia|]. replace (Z.to_nat (i + 1)) with (S (Z.to_nat i)) by lia. by rewrite E2.
Qed.
End scan.

(** The text of a slice. *)
Definition text_of (m : mem) (s : sdp_str) : list Z := match s_p s with Some p => slice m p (s_len s) | None => [] end.
(** ** What the texts say *)

(** The longest prefix of octets with a property, and the rest. *)
Fixpoint run_while (f : Z → bool) (l : list Z) : list Z * list Z :=
  match l with [] => ([], []) | x :: l' => if f x then let '(a, b) := run_while f l' in (x :: a, b) else ([], l) end.
(** The first word, between blanks, and what follows it. *)
Definition word (l : list Z) : list Z * list Z := run_while (λ b, negb (sdp_is_ws b)) (snd (run_while sdp_is_ws l)).
(** Before and behind the first slash. *)
Fixpoint at_slash (l : list Z) : list Z * option (list Z) :=
  match l with [] => ([], None) | x :: l => if x =? 47 then ([], Some l) else let '(a, b) := at_slash l in (x :: a, b) end.
(** RFC 8866 6.6: payload type, encoding name, clock rate and parameters. *)
Definition rtpmap_text (l : list Z) : option (Z * list Z * Z * list Z) :=
  let '(pt, r) := word l in
  let '(enc, _) := word r in
  n ← num_text UINT32_MAX pt;
  if 127 <? n then None else
  match at_slash enc with
  | ([], _) | (_, None) => None
  | (name, Some r) => let '(clock, params) := at_slash r in c ← num_text UINT32_MAX clock; Some (n, name, c, default [] params)
  end.
(** RFC 8866 6.15: format and parameters. *)
Definition fmtp_text (l : list Z) : option (list Z * list Z) :=
  match word l with ([], _) => None | (fmt, r) => Some (fmt, snd (run_while sdp_is_ws r)) end.
(** What an attribute states of a payload type. *)
Definition rtpmap_stated (m : mem) (pt : Z) (a : sdp_attr) : option (Z * list Z * Z * list Z) :=
  if negb (at_id a =? SDP_A_RTPMAP) then None else
  x ← rtpmap_text (text_of m (at_value a)); if fst (fst (fst x)) =? pt then Some x else None.
Definition fmtp_stated (m : mem) (pt : Z) (a : sdp_attr) : option (list Z) :=
  if negb (at_id a =? SDP_A_FMTP) then None else
  '(fmt, params) ← fmtp_text (text_of m (at_value a)); if bool_decide (num_text UINT32_MAX fmt = Some pt) then Some params else None.
Definition rtpmap_reads (m : mem) (r : sdp_rtpmap) (x : Z * list Z * Z * list Z) : Prop :=
  let '(n, name, c, params) := x in rm_pt r = n ∧ text_of m (rm_enc r) = name ∧ rm_clock r = c ∧ text_of m (rm_params r) = params.
(** A lookup found what the text says, or is missing. *)
Definition answers {A B} (reads : A → B → Prop) (r : Z + A) (x : option B) : Prop :=
  match x with Some x => ∃ a, r = inr a ∧ reads a x | None => r = inl SDP_E_MISSING end.
(** The direction an attribute states. *)
Definition dir_stated (a : sdp_attr) : option Z :=
  snd <$> find (λ x, fst x =? at_id a) [(SDP_A_SENDRECV, SDP_DIR_SENDRECV); (SDP_A_SENDONLY, SDP_DIR_SENDONLY); (SDP_A_RECVONLY, SDP_DIR_RECVONLY); (SDP_A_INACTIVE, SDP_DIR_INACTIVE)].
(** Of the same number and, when that is the one of unknown attributes, the same name. *)
Definition alike (m : mem) (a b : sdp_attr) : bool :=
  (at_id b =? at_id a) && (negb (at_id a =? SDP_A_OTHER) || ci_eq (text_of m (at_name b)) (text_of m (at_name a))).

Lemma dir_of_stated a : dir_of (at_id a) = dir_stated a.
Proof.
  unfold dir_of, dir_stated. cbn [find fst]. rewrite !(Z.eqb_sym (at_id a)). destruct (SDP_A_SENDRECV =? _); [done|]. destruct (SDP_A_SENDONLY =? _); [done|].
  destruct (SDP_A_RECVONLY =? _); [done|]. by destruct (SDP_A_INACTIVE =? _).
Qed.
Lemma first_some_ext {A B} (f g : A → option B) l : (∀ a, f a = g a) → first_some f l = first_some g l.
Proof. intros H. induction l as [|a l IH]; [done|]. cbn [first_some]. by rewrite H, IH. Qed.
Lemma run_while_app f a b : Forall (λ x, f x = true) a → match b with [] => True | x :: _ => f x = false end → run_while f (a ++ b) = (a, b).
Proof.
  induction 1 as [|x a Hx _ IH]; intros Hb; cbn [app run_while]; [destruct b as [|y b]; [done|]; cbn [run_while]; by rewrite Hb|]. rewrite Hx, IH by done. done.
Qed.
Lemma at_slash_app a b : Forall (λ x, x ≠ 47) a → at_slash (a ++ 47 :: b) = (a, Some b).
Proof. induction 1 as [|x a Hx _ IH]; [done|]. cbn [app at_slash]. by rewrite (proj2 (Z.eqb_neq _ _) Hx), IH. Qed.
Lemma first_at_ext {A} (f g : A → bool) l : (∀ a, f a = g a) → ∀ i, first_at f i l = first_at g i l.
Proof. intros H. induction l as [|a l IH]; intros i; [done|]. cbn [first_at]. by rewrite H, IH. Qed.
Lemma slice_Forall (P : Z → Prop) m p k : 0 <= p → 0 <= k → p + k <= mlen m → (∀ i, p <= i < p + k → P (get m i)) → Forall P (slice m p k).
Proof.
  intros Hp Hk Hl H. rewrite slice_get by done. apply Forall_forall. intros x Hx. apply list_elem_of_In, in_map_iff in Hx as (j & <- & Hj).
  apply in_seq in Hj. apply H. lia.
Qed.
Lemma at_slash_none a : Forall (λ x, x ≠ 47) a → at_slash a = (a, None).
Proof. induction 1 as [|x a Hx _ IH]; [done|]. cbn [at_slash]. by rewrite (proj2 (Z.eqb_neq _ _) Hx), IH. Qed.

(** The attribute a name stands for: one of the table by its number, any other by its text. *)
Definition named (m : mem) (name : list Z) (a : sdp_attr) : bool :=
  if attr_ref name =? SDP_A_OTHER then (at_id a =? SDP_A_OTHER) && ci_eq (text_of m (at_name a)) name else at_id a =? attr_ref name.

(** ** The scanners of the code and the texts *)

Lemma skip_run_while f m p e : 0 <= p <= e → e <= mlen m →
  ∃ q, skip f m p e = Ok q ∧ p <= q <= e ∧ run_while f (slice m p (e - p)) = (slice m p (q - p), slice m q (e - q)).
Proof.
  intros Hp He. destruct (skip_spec f m p e Hp He) as (q & E & Hq & Hb & Hn). exists q. split_and!; [done|lia..|].
  replace (e - p) with ((q - p) + (e - q)) by lia. rewrite slice_split by lia. replace (p + (q - p)) with q by lia.
  apply run_while_app; [apply slice_Forall; try lia; intros; apply Hb; lia|].
  destruct (Z.eq_dec q e) as [->|]; [by rewrite Z.sub_diag, slice_0|]. rewrite slice_cons by lia. apply Hn. lia.
Qed.
Lemma memchr_slash m p k : 0 <= p → 0 <= k → p + k <= mlen m →
  ∃ r, memchr m p 47 k = Ok r ∧
    match r with
    | Some q => p <= q < p + k ∧ at_slash (slice m p k) = (slice m p (q - p), Some (slice m (q + 1) (p + k - q - 1)))
    | None => at_slash (slice m p k) = (slice m p k, None)
    end.
Proof.
  intros Hp Hk Hl. destruct (memchr_spec m p 47 k Hp Hk Hl) as (r & E & Hr). exists r. split; [done|]. destruct r as [q|].
  - destruct Hr as (Hq & Hc & Hb). split; [done|]. replace (slice m p k) with (slice m p (q - p) ++ 47 :: slice m (q + 1) (p + k - q - 1)).
    + apply at_slash_app, slice_Forall; try lia. intros i Hi. apply Hb. lia.
    + replace k with ((q - p) + (p + k - q)) at 2 by lia. rewrite slice_split by lia. replace (p + (q - p)) with q by lia.
      rewrite (slice_cons m q) by lia. by rewrite Hc.
  - apply at_slash_none, slice_Forall; try lia. done.
Qed.
Lemma text_len m n s : str_in 0 n s → n <= mlen m → mlen (text_of m s) = s_len s.
Proof. unfold str_in, text_of. destruct (s_p s) as [p|]; [|by intros -> _]. intros H Hn. apply mlen_slice; lia. Qed.

Section access.
Context (m : mem) (n : Z) (Hb : bytes_ok m) (Hn : 0 <= n <= mlen m) (Hi : n <= INT_MAX).
Context (msg : sdp_msg) (Hok : sdp_ok n msg) (media : option sdp_media) (Hs : section_of msg media).
Let lo := fst (attr_range msg media).
Let hi := snd (attr_range msg media).

Lemma range_ok : 0 <= lo <= hi ∧ hi <= count (sm_attrs msg).
Proof using Hok Hs. by apply (attr_range_ok n). Qed.
Lemma run_eq : run_of msg media = take (Z.to_nat (hi - lo)) (drop (Z.to_nat lo) (sm_attrs msg)).
Proof using. unfold run_of, lo, hi. by destruct (attr_range msg media). Qed.
Lemma attrs_in : Forall (attr_in n) (sm_attrs msg).
Proof using Hok. apply Hok. Qed.
Lemma part_in k i : Forall (attr_in n) (take k (drop i (sm_attrs msg))).
Proof using Hok. apply Forall_take, Forall_drop, attrs_in. Qed.

Lemma sdp_attr_find_eq id : 0 <= id < 256 → sdp_attr_find msg media id =
  Ok (if id =? SDP_A_OTHER then None else first_at (λ a, at_id a =? id) lo (run_of msg media)).
Proof using Hok Hs.
  intros Hid. unfold sdp_attr_find. destruct (id =? SDP_A_OTHER); [done|]. rewrite u8_small by lia.
  rewrite (surjective_pairing (attr_range msg media)). fold lo hi. destruct range_ok. rewrite run_eq. apply scan_range_spec; try done.
  by apply Forall_true.
Qed.
Lemma named_spec a name : attr_in n a → attr_named m a name = Ok (ci_eq (text_of m (at_name a)) name).
Proof using Hn.
  clear -Hn. intros (_ & Ha & _). unfold attr_named, text_of, str_in in *. destruct (s_p (at_name a)) as [p|].
  - destruct (Z.eqb_spec (s_len (at_name a)) (mlen name)) as [E|E].
    + rewrite sdp_ieq2_sip, sip_ieq2_spec by lia. unfold ci_eq. by rewrite E.
    + destruct (ci_eq _ name) eqn:Ec; [|done]. apply ci_eq_first in Ec as [_ Ec]. rewrite mlen_slice in Ec by lia. lia.
  - rewrite Ha. destruct name as [|c name].
    + done.
    + rewrite mlen_cons. pose proof (mlen_nonneg name). rewrite (proj2 (Z.eqb_neq 0 _)) by lia. done.
Qed.
Lemma sdp_attr_find_name_eq name : bytes_ok name → sdp_attr_find_name m msg media name = Ok (first_at (named m name) lo (run_of msg media)).
Proof using Hn Hok Hs.
  intros Hbn. unfold sdp_attr_find_name. pose proof (mlen_nonneg name). rewrite sdp_attr_from_eq by (done || lia). rewrite slice_full by done. bstep.
  destruct range_ok. destruct (Z.eqb_spec (attr_ref name) SDP_A_OTHER) as [E|E]; cbn [negb].
  - rewrite (surjective_pairing (attr_range msg media)). fold lo hi. rewrite run_eq. apply scan_range_spec; try done.
    eapply Forall_impl; [apply part_in|]. intros a Ha. unfold named. rewrite E, Z.eqb_refl. destruct (at_id a =? SDP_A_OTHER); cbn [andb]; [by apply named_spec|done].
  - assert (0 <= attr_ref name < 26) by (apply first_of_range; [done|apply (bool_decide_unpack _); vm_compute; exact I]).
    rewrite sdp_attr_find_eq by lia. rewrite (proj2 (Z.eqb_neq _ _) E). f_equal.
    assert (Eg : ∀ l i, first_at (λ a, at_id a =? attr_ref name) i l = first_at (named m name) i l); [|apply Eg].
    induction l as [|a l IH]; intros i; [done|]. cbn [first_at]. unfold named at 1. rewrite (proj2 (Z.eqb_neq _ _) E). by rewrite IH.
Qed.
Lemma section_dir_eq : section_dir msg media = Ok (first_some dir_stated (run_of msg media)).
Proof using Hok Hs.
  unfold section_dir. rewrite (surjective_pairing (attr_range msg media)). fold lo hi. destruct range_ok. rewrite run_eq.
  set (l := take _ _). assert (Hl : length l = Z.to_nat (hi - lo)) by (unfold l, count in *; rewrite length_take, length_drop; lia).
  rewrite <-Hl, <-(first_some_ext _ _ l dir_of_stated). apply dir_scan_spec; [lia|]. by rewrite Hl.
Qed.

(** The rest of the section behind an attribute. *)
Definition rest_of (i : Z) : list sdp_attr := take (Z.to_nat (hi - i)) (drop (Z.to_nat i) (sm_attrs msg)).
Lemma rest_cons i a l : 0 <= i → rest_of i = a :: l → sm_attrs msg !! Z.to_nat i = Some a ∧ rest_of (i + 1) = l ∧ i < hi.
Proof using.
  intros Hi0 E. unfold rest_of in *. destruct (Z.to_nat (hi - i)) as [|k] eqn:Ek; [done|].
  destruct (drop (Z.to_nat i) (sm_attrs msg)) as [|a' l'] eqn:Ed; [done|]. cbn [take] in E. injection E as -> E.
  apply drop_cons_lookup in Ed as [E1 E2]. split_and!; [done| |lia].
  replace (Z.to_nat (hi - (i + 1))) with k by lia. replace (Z.to_nat (i + 1)) with (S (Z.to_nat i)) by lia. by rewrite E2.
Qed.
Lemma alike_spec a b : attr_in n a → attr_in n b →
  (if negb (at_id b =? at_id a) then Ok false else if negb (at_id b =? SDP_A_OTHER) then Ok true else
   if s_len (at_name b) =? s_len (at_name a) then r ← str_octets m (at_name a); attr_named m b r else Ok false) = Ok (alike m a b).
Proof using Hn.
  clear -Hn. intros Ha Hb. unfold alike. destruct (Z.eqb_spec (at_id b) (at_id a)) as [->|]; cbn [negb andb]; [|done].
  destruct (at_id a =? SDP_A_OTHER); cbn [negb orb]; [|done]. destruct (Ha) as (_ & Ha' & _). destruct (Hb) as (_ & Hb' & _).
  pose proof (text_len m n _ Ha' ltac:(lia)) as La. pose proof (text_len m n _ Hb' ltac:(lia)) as Lb.
  assert (Eo : str_octets m (at_name a) = Ok (text_of m (at_name a))).
  { unfold str_octets, text_of, str_in in *. destruct (Z.eqb_spec (s_len (at_name a)) 0) as [->|]; [by destruct (s_p (at_name a))|].
    destruct (s_p (at_name a)); [|lia]. by rewrite rdn_Ok by lia. }
  destruct (Z.eqb_spec (s_len (at_name b)) (s_len (at_name a))); [rewrite Eo; bstep; by apply named_spec|].
  destruct (ci_eq _ _) eqn:Ec; [|done]. apply ci_eq_first in Ec as [_ Ec]. lia.
Qed.
Lemma sdp_attr_next_eq i a l : lo <= i → rest_of i = a :: l → sdp_attr_next m msg media i = Ok (first_at (alike m a) (i + 1) l).
Proof using Hn Hok Hs.
  intros Hlo E. destruct range_ok as [H1 H2]. destruct (rest_cons i a l ltac:(lia) E) as (El & Er & Hlt). unfold sdp_attr_next.
  rewrite (surjective_pairing (attr_range msg media)). fold lo hi. rewrite (proj2 (Z.ltb_ge i lo)), (proj2 (Z.leb_gt hi i)) by lia. cbn [orb].
  rewrite (attr_at_Ok msg i a) by (done || lia). bstep. rewrite <-Er. apply scan_range_spec; [lia|done|].
  pose proof (Forall_lookup_1 _ _ _ _ attrs_in El) as Ha. eapply Forall_impl; [apply part_in|]. intros b Hb'. by apply alike_spec.
Qed.
Lemma run_rest : rest_of lo = run_of msg media.
Proof using. symmetry. apply run_eq. Qed.
Lemma rest_drop i : lo <= i → rest_of i = drop (Z.to_nat (i - lo)) (run_of msg media).
Proof using Hok Hs.
  intros Hlo. destruct range_ok as [H1 H2]. rewrite <-run_rest. unfold rest_of. destruct (Z.le_gt_cases i hi).
  - rewrite take_drop_commute. replace (Z.to_nat (hi - lo)) with (Z.to_nat (i - lo) + Z.to_nat (hi - i))%nat by lia.
    rewrite <-take_drop_commute, <-take_drop_commute, drop_drop. replace (Z.to_nat lo + Z.to_nat (i - lo))%nat with (Z.to_nat i) by lia.
    by rewrite take_drop_commute.
  - replace (Z.to_nat (hi - i)) with 0%nat by lia. symmetry. apply drop_ge. rewrite length_take, length_drop. lia.
Qed.
Lemma sdp_attr_next_all i : sdp_attr_next m msg media i =
  Ok (if i <? lo then None else match drop (Z.to_nat (i - lo)) (run_of msg media) with a :: l => first_at (alike m a) (i + 1) l | [] => None end).
Proof using Hn Hok Hs.
  destruct (Z.ltb_spec i lo) as [Hlt|Hge].
  - unfold sdp_attr_next. rewrite (surjective_pairing (attr_range msg media)). fold lo hi. by rewrite (proj2 (Z.ltb_lt i lo)) by lia.
  - rewrite <-rest_drop by done. destruct (rest_of i) as [|a l] eqn:E; [|by apply sdp_attr_next_eq].
    unfold sdp_attr_next. rewrite (surjective_pairing (attr_range msg media)). fold lo hi. destruct range_ok as [H1 H2].
    rewrite (proj2 (Z.leb_le hi i)); [by rewrite orb_true_r|]. destruct (Z.le_gt_cases hi i); [done|]. exfalso.
    apply (f_equal length) in E. unfold rest_of, count in *. rewrite length_take, length_drop in E. cbn [length] in E. lia.
Qed.

Lemma field_word p e : 0 <= p <= e → e <= n →
  ∃ s q, sdp_field m p e = Ok (Str (Some s) (q - s), q) ∧ p <= s <= q ∧ q <= e ∧ word (slice m p (e - p)) = (slice m s (q - s), slice m q (e - q)).
Proof using Hi Hn.
  clear -Hi Hn. intros Hp He. unfold INT_MAX in *. unfold sdp_field, word.
  destruct (skip_run_while sdp_is_ws m p e) as (s & -> & Hs & ->); [lia..|]. bstep. cbn [snd].
  destruct (skip_run_while (λ b, negb (sdp_is_ws b)) m s e) as (q & -> & Hq & ->); [lia..|]. bstep.
  exists s, q. unfold sub_str. rewrite u32_small by lia. split_and!; done || lia.
Qed.
Lemma str_u32_eq p k : 0 <= p → 0 <= k → p + k <= n → str_u32 m (Str (Some p) k) = Ok (num_text UINT32_MAX (slice m p k)).
Proof using Hn. clear -Hn. intros. unfold str_u32, str_u64. cbn [s_p s_len]. by rewrite sdp_parse_u64_spec by lia. Qed.
Lemma slice_nil p k : 0 <= p → 0 <= k → p + k <= mlen m → slice m p k = [] ↔ k = 0.
Proof using. clear. intros Hp Hk Hl. pose proof (mlen_slice m p k Hp Hk Hl) as E. split; [|by intros ->; rewrite slice_0]. intros Ex. rewrite Ex in E. by rewrite <-E. Qed.

(** The parsers of the two values read what the texts say. *)
Lemma rtpmap_parse_text v : str_in 0 n v → ∃ r, sdp_rtpmap_parse m v = Ok r ∧
  match r, rtpmap_text (text_of m v) with inr r, Some x => rtpmap_reads m r x | inl _, None => True | _, _ => False end.
Proof using Hi Hn.
  clear -Hi Hn. intros Hv. unfold sdp_rtpmap_parse, rtpmap_text, text_of. destruct v as [[p|] k]; unfold str_in in Hv; cbn [s_p s_len] in *; [|by eexists].
  destruct (field_word p (p + k)) as (s1 & q1 & -> & H1 & H1' & W1); [lia..|]. bstep. cbn [snd]. replace (p + k - p) with k in W1 by lia. rewrite W1. clear W1.
  destruct (field_word q1 (p + k)) as (s2 & q2 & -> & H2 & H2' & W2); [lia..|]. bstep. rewrite W2. clear W2. cbn [fst s_len s_p]. cbv iota beta zeta. cbn [s_len s_p].
  destruct (Z.eqb_spec (q1 - s1) 0) as [E1|E1]; cbn [orb]; [rewrite E1, slice_0; by eexists|].
  destruct (Z.eqb_spec (q2 - s2) 0) as [E2|E2].
  { rewrite E2, slice_0. eexists. split; [done|]. by destruct (num_text _ _) as [x|]; [cbn; destruct (127 <? x)|]. }
  rewrite str_u32_eq by lia. bstep. destruct (num_text _ _) as [x|]; [|by eexists]. cbn [mbind option_bind]. destruct (127 <? x); [by eexists|].
  destruct (memchr_slash m s2 (q2 - s2)) as (c & -> & Hc); [lia..|]. bstep. destruct c as [c|]; [|rewrite Hc; eexists; split; [done|by destruct (slice _ _ _)]].
  destruct Hc as [Hc ->]. destruct (Z.eqb_spec c s2) as [->|Hne]; [rewrite Z.sub_diag, slice_0; by eexists|].
  destruct (slice m s2 (c - s2)) as [|y ys] eqn:Ey; [apply slice_nil in Ey; lia|]. rewrite <-Ey. clear Ey y ys.
  replace (s2 + (q2 - s2) - c - 1) with (q2 - c - 1) by lia.
  destruct (memchr_slash m (c + 1) (q2 - c - 1)) as (d & -> & Hd); [lia..|]. bstep. destruct d as [d|]; [destruct Hd as [Hd ->]|rewrite Hd].
  - rewrite sdp_parse_u32_spec by lia. bstep. replace (d - c - 1) with (d - (c + 1)) by lia. destruct (num_text _ (slice m (c + 1) _)); [|by eexists].
    eexists. split; [done|]. cbn [mbind option_bind rtpmap_reads rm_pt rm_enc rm_clock rm_params default]. unfold text_of, sub_str, INT_MAX in *. cbn [s_p s_len].
    rewrite !u32_small by lia. split_and!; [done..|]. cbn [from_option id]. f_equal. lia.
  - rewrite sdp_parse_u32_spec by lia. bstep. replace (s2 + (q2 - s2) - c - 1) with (q2 - c - 1) by lia. destruct (num_text _ (slice m (c + 1) _)); [|by eexists].
    eexists. split; [done|]. cbn [mbind option_bind rtpmap_reads rm_pt rm_enc rm_clock rm_params default]. unfold text_of, sub_str, INT_MAX in *. cbn [s_p s_len].
    rewrite !u32_small by lia. split_and!; done.
Qed.
Lemma fmtp_parse_text v pt : str_in 0 n v → ∃ r, sdp_fmtp_parse m v = Ok r ∧
  match r, fmtp_text (text_of m v) with
  | inr f, Some (fmt, params) => is_pt m (fm_fmt f) pt = Ok (bool_decide (num_text UINT32_MAX fmt = Some pt)) ∧ text_of m (fm_params f) = params
  | inl _, None => True
  | _, _ => False
  end.
Proof using Hi Hn.
  clear -Hi Hn. intros Hv. unfold sdp_fmtp_parse, fmtp_text, text_of. destruct v as [[p|] k]; unfold str_in in Hv; cbn [s_p s_len] in *; [|by eexists].
  destruct (field_word p (p + k)) as (s1 & q1 & -> & H1 & H1' & W1); [lia..|]. bstep. replace (p + k - p) with k in W1 by lia. rewrite W1. clear W1. cbn [fst snd s_len].
  destruct (Z.eqb_spec (q1 - s1) 0) as [E1|E1]; [rewrite E1, slice_0; by eexists|].
  destruct (slice m s1 (q1 - s1)) as [|y ys] eqn:Ey; [apply slice_nil in Ey; lia|]. rewrite <-Ey. clear Ey y ys.
  destruct (skip_run_while sdp_is_ws m q1 (p + k)) as (q & -> & Hq & ->); [lia..|]. bstep. cbn [snd]. eexists. split; [done|]. cbn [fm_fmt fm_params].
  unfold sub_str, INT_MAX in *. rewrite u32_small by lia. cbn [s_p s_len]. split; [|done]. unfold is_pt. rewrite str_u32_eq by lia. bstep.
  f_equal. destruct (num_text _ _) as [x|]; [|done]. symmetry. destruct (Z.eqb_spec x pt) as [->|]; [by apply bool_decide_eq_true|apply bool_decide_eq_false; congruence].
Qed.

Lemma next_same id i a l : lo <= i → rest_of i = a :: l → at_id a = id → id ≠ SDP_A_OTHER →
  sdp_attr_next m msg media i = Ok (first_at (λ b, at_id b =? id) (i + 1) l).
Proof using Hn Hok Hs.
  intros Hlo E <- Hid. rewrite (sdp_attr_next_eq i a l) by done. f_equal. apply first_at_ext. intros b. unfold alike.
  rewrite (proj2 (Z.eqb_neq _ _) Hid). cbn [negb orb]. apply andb_true_r.
Qed.
Lemma rtpmap_loop_eq pt l : ∀ i fuel, lo <= i → rest_of i = l → (length l < fuel)%nat →
  ∃ r, rtpmap_loop fuel m msg media pt (first_at (λ a, at_id a =? SDP_A_RTPMAP) i l) = Ok r ∧ answers (rtpmap_reads m) r (first_some (rtpmap_stated m pt) l).
Proof using Hi Hn Hok Hs.
  induction l as [|a l IH]; intros i fuel Hlo El Hf; [destruct fuel; [lia|by eexists]|]. destruct range_ok.
  destruct (rest_cons i a l ltac:(lia) El) as (Ea & Er & Hlt). cbn [first_at first_some length] in *. unfold rtpmap_stated at 1.
  destruct (Z.eqb_spec (at_id a) SDP_A_RTPMAP) as [E|E]; cbn [negb]; [|by apply IH; [lia|done|lia]].
  destruct fuel as [|fuel]; [lia|]. cbn [rtpmap_loop]. rewrite (attr_at_Ok msg i a) by (done || lia). bstep.
  pose proof (Forall_lookup_1 _ _ _ _ attrs_in Ea) as (_ & _ & Hv). destruct (rtpmap_parse_text _ Hv) as (r & -> & Hr). bstep.
  pose proof (next_same SDP_A_RTPMAP i a l Hlo El E ltac:(done)) as Hnext.
  destruct r as [rc|r], (rtpmap_text _) as [x|]; try done; cbn [mbind option_bind].
  - rewrite Hnext. bstep. apply IH; [lia|done|lia].
  - destruct x as [[[k name] c] params]. cbn [fst]. assert (Ek : rm_pt r = k) by apply Hr. rewrite Ek.
    destruct (k =? pt); [by eexists; split; [done|]; exists r|]. rewrite Hnext. bstep. apply IH; [lia|done|lia].
Qed.
Lemma fmtp_loop_eq pt l : ∀ i fuel, lo <= i → rest_of i = l → (length l < fuel)%nat →
  ∃ r, fmtp_loop fuel m msg media pt (first_at (λ a, at_id a =? SDP_A_FMTP) i l) = Ok r ∧
    answers (λ s x, text_of m s = x) r (first_some (fmtp_stated m pt) l).
Proof using Hi Hn Hok Hs.
  induction l as [|a l IH]; intros i fuel Hlo El Hf; [destruct fuel; [lia|by eexists]|]. destruct range_ok.
  destruct (rest_cons i a l ltac:(lia) El) as (Ea & Er & Hlt). cbn [first_at first_some length] in *. unfold fmtp_stated at 1.
  destruct (Z.eqb_spec (at_id a) SDP_A_FMTP) as [E|E]; cbn [negb]; [|by apply IH; [lia|done|lia]].
  destruct fuel as [|fuel]; [lia|]. cbn [fmtp_loop]. rewrite (attr_at_Ok msg i a) by (done || lia). bstep.
  pose proof (Forall_lookup_1 _ _ _ _ attrs_in Ea) as (_ & _ & Hv). destruct (fmtp_parse_text _ pt Hv) as (r & -> & Hr). bstep.
  pose proof (next_same SDP_A_FMTP i a l Hlo El E ltac:(done)) as Hnext.
  destruct r as [rc|f], (fmtp_text _) as [[fmt params]|]; try done; cbn [mbind option_bind]; bstep.
  - rewrite Hnext. bstep. apply IH; [lia|done|lia].
  - destruct Hr as [-> Hp]. bstep. destruct (bool_decide _); [by eexists; split; [done|]; eexists|]. rewrite Hnext. bstep. apply IH; [lia|done|lia].
Qed.
Lemma run_short : (length (run_of msg media) < S (length (sm_attrs msg)))%nat.
Proof using. clear. unfold run_of. destruct (attr_range msg media). rewrite length_take, length_drop. lia. Qed.
Lemma sdp_rtpmap_find_eq pt : ∃ r, sdp_rtpmap_find m msg media pt = Ok r ∧ answers (rtpmap_reads m) r (first_some (rtpmap_stated m pt) (run_of msg media)).
Proof using Hi Hn Hok Hs.
  unfold sdp_rtpmap_find. rewrite sdp_attr_find_eq by done. bstep. change (SDP_A_RTPMAP =? SDP_A_OTHER) with false. cbv iota.
  apply rtpmap_loop_eq; [lia|apply run_rest|apply run_short].
Qed.
Lemma sdp_fmtp_find_eq pt : ∃ r, sdp_fmtp_find m msg media pt = Ok r ∧ answers (λ s x, text_of m s = x) r (first_some (fmtp_stated m pt) (run_of msg media)).
Proof using Hi Hn Hok Hs.
  unfold sdp_fmtp_find. rewrite sdp_attr_find_eq by done. bstep. change (SDP_A_FMTP =? SDP_A_OTHER) with false. cbv iota.
  apply fmtp_loop_eq; [lia|apply run_rest|apply run_short].
Qed.
End access.

Lemma first_some_app {A B} (f : A → option B) l1 l2 :
  first_some f (l1 ++ l2) = match first_some f l1 with Some b => Some b | None => first_some f l2 end.
Proof. induction l1 as [|a l1 IH]; [done|]. cbn [app first_some]. by destruct (f a). Qed.
Lemma parse_ok m len msg : bytes_ok m → 0 <= len <= mlen m → sdp_msg_parse true (Some m) len = Ok (inr msg) → sdp_ok len msg ∧ len <= INT_MAX.
Proof.
  intros Hb Hl E. destruct (Z.ltb_spec INT_MAX len) as [Hi|Hi].
  { unfold sdp_msg_parse in E. cbn [negb orb] in E. by rewrite (proj2 (Z.ltb_lt _ _) Hi) in E. }
  split; [|done]. unfold sdp_msg_parse in E. cbn [negb orb] in E. rewrite (proj2 (Z.ltb_ge _ _) Hi) in E.
  destruct (sdp_lines_in m len Hb Hl Hi (S (Z.to_nat len)) 0 false sdp_empty) as (r & E' & Hr); [|lia|lia|].
  { unfold sdp_ok, pools_ok, sdp_empty. cbn. split_and!; done || constructor. }
  rewrite E in E'. injection E' as <-. done.
Qed.

(** C24: the access functions answer for one section of a parsed description and no other.  For
    the session or any media section, the attribute found by number or by name is the first
    such of the section's own attributes, and the one after a given attribute is the next of
    them with the same number, and for attributes that have none the same name; the direction is the one its first
    direction attribute states, else the session's, else send and receive; the connection is
    its own, else the session's.  The mapping of a payload type is the first of the section
    whose text [<payload type> <name>/<clock>(/<parameters>)] gives that type, and the format
    parameters are the text behind the first format that is that number, blanks skipped; both
    are missing when no attribute of the section states one.  Every call ends and reads only
    filled entries of the pools. *)
Theorem sdp_sections_answer m len msg media a_id name pt :
  bytes_ok m → 0 <= len <= mlen m → sdp_msg_parse true (Some m) len = Ok (inr msg) → section_of msg media →
  0 <= a_id < SDP_A_MAX → bytes_ok name →
  let run := run_of msg media in
  let lo := fst (attr_range msg media) in
  sdp_attr_find msg media a_id = Ok (if a_id =? SDP_A_OTHER then None else first_at (λ a, at_id a =? a_id) lo run) ∧
  sdp_attr_find_name m msg media name = Ok (first_at (named m name) lo run) ∧
  (∀ i, sdp_attr_next m msg media i =
    Ok (if i <? lo then None else match drop (Z.to_nat (i - lo)) run with a :: l => first_at (alike m a) (i + 1) l | [] => None end)) ∧
  sdp_media_dir msg media = Ok (default SDP_DIR_SENDRECV (first_some dir_stated (run ++ run_of msg None))) ∧
  sdp_media_conn msg media = first_some id [media ≫= md_conn; sm_conn msg] ∧
  (∃ r, sdp_rtpmap_find m msg media pt = Ok r ∧ answers (rtpmap_reads m) r (first_some (rtpmap_stated m pt) run)) ∧
  (∃ r, sdp_fmtp_find m msg media pt = Ok r ∧ answers (λ s x, text_of m s = x) r (first_some (fmtp_stated m pt) run)).
Proof.
  intros Hb Hl E Hs Hid Hn run lo. destruct (parse_ok m len msg Hb Hl E) as [Hok Hi]. unfold SDP_A_MAX in Hid. split_and!.
  - apply (sdp_attr_find_eq len); [done|done|lia].
  - by apply (sdp_attr_find_name_eq m len).
  - intros i. by apply (sdp_attr_next_all m len).
  - unfold sdp_media_dir. rewrite (section_dir_eq len msg Hok media Hs). bstep. rewrite first_some_app. fold run.
    destruct (first_some _ run) as [d|] eqn:Ed; [by destruct media|]. destruct media as [d|]; [by rewrite (section_dir_eq len msg Hok None I)|].
    fold run. by rewrite Ed.
  - unfold sdp_media_conn. destruct media as [d|]; cbn; [by destruct (md_conn d), (sm_conn msg)|by destruct (sm_conn msg)].
  - by apply (sdp_rtpmap_find_eq m len).
  - by apply (sdp_fmtp_find_eq m len).
Qed.
Definition ex_two : list Z := concat ((λ s, txt s ++ [13; 10]) <$>
  ["v=0"%string; "c=IN IP4 192.0.2.1"; "a=inactive"; "m=audio 9 RTP/AVP 0 8"; "a=rtpmap:0 PCMU/8000"; "a=rtpmap:8 PCMA/8000/1"; "a=fmtp:08  x=1 y"; "a=X";
   "m=video 0 RTP/AVP 99"; "a=rtpmap:8 H264/90000"]).
Definition ex_two_msg : sdp_msg := match sdp_msg_parse true (Some ex_two) (mlen ex_two) with Ok (inr msg) => msg | _ => sdp_empty end.
(** What the texts of the first section say. *)
Example ex_two_says :
  let run := run_of ex_two_msg (head (sm_media ex_two_msg)) in
  length run = 4%nat ∧ first_some (rtpmap_stated ex_two 8) run = Some (8, txt "PCMA", 8000, txt "1") ∧
  first_some (fmtp_stated ex_two 8) run = Some (txt "x=1 y") ∧ first_some (rtpmap_stated ex_two 99) run = None ∧
  first_some dir_stated (run ++ run_of ex_two_msg None) = Some SDP_DIR_INACTIVE.
Proof. vm_compute. by split_and!. Qed.
Lemma sdp_sections_answer_witness :
  let run := run_of ex_two_msg (head (sm_media ex_two_msg)) in
  let lo := fst (attr_range ex_two_msg (head (sm_media ex_two_msg))) in
  sdp_attr_find ex_two_msg (head (sm_media ex_two_msg)) 21 = Ok (if 21 =? SDP_A_OTHER then None else first_at (λ a, at_id a =? 21) lo run) ∧
  sdp_attr_find_name ex_two ex_two_msg (head (sm_media ex_two_msg)) (txt "X") = Ok (first_at (named ex_two (txt "X")) lo run) ∧
  (∀ i, sdp_attr_next ex_two ex_two_msg (head (sm_media ex_two_msg)) i =
    Ok (if i <? lo then None else match drop (Z.to_nat (i - lo)) run with a :: l => first_at (alike ex_two a) (i + 1) l | [] => None end)) ∧
  sdp_media_dir ex_two_msg (head (sm_media ex_two_msg)) = Ok (default SDP_DIR_SENDRECV (first_some dir_stated (run ++ run_of ex_two_msg None))) ∧
  sdp_media_conn ex_two_msg (head (sm_media ex_two_msg)) = first_some id [(head (sm_media ex_two_msg)) ≫= md_conn; sm_conn ex_two_msg] ∧
  (∃ r, sdp_rtpmap_find ex_two ex_two_msg (head (sm_media ex_two_msg)) 8 = Ok r ∧ answers (rtpmap_reads ex_two) r (first_some (rtpmap_stated ex_two 8) run)) ∧
  (∃ r, sdp_fmtp_find ex_two ex_two_msg (head (sm_media ex_two_msg)) 8 = Ok r ∧ answers (λ s x, text_of ex_two s = x) r (first_some (fmtp_stated ex_two 8) run)).
Proof.
  apply (sdp_sections_answer ex_two (mlen ex_two) ex_two_msg (head (sm_media ex_two_msg)) 21 (txt "X") 8); [by apply (bool_decide_unpack _); vm_compute|done| | |done|].
  - vm_compute. reflexivity.
  - vm_compute. left.
  - by apply (bool_decide_unpack _); vm_compute.
Defined.
End SdpAccess.
