(* ===== verification/SdpRound.v ===== *)
(** * SdpRound: written descriptions, parsed back

    The calls of SdpWrite, in any order, build a text; SdpMsg parses it to the description
    that the calls, taken one after the other, describe: lines before the first media line
    belong to the session, those behind it to the last media section, a first c= or t= wins
    over later ones. *)

From stdpp Require Import strings.
From S2P Require Import Prelude Endian SipStr SipMsg SipWrite SipScan SipName SipParse SipRound SipValue SipUriRound SdpMsg SdpAttr SdpWrite SdpScan SdpParse SdpAccess.

Module SdpRound.
Import SipStr SipMsg SipWrite SipScan SipName SipParse SipRound SipValue SipUriRound SdpMsg SdpAttr SdpWrite SdpScan SdpParse SdpAccess.

(** ** Calls *)

Inductive call :=
  | COrigin (user : list Z) (id version : Z) (addrtype addr : list Z)
  | CName (name : list Z)
  | CConn (addrtype addr : list Z)
  | CBw (bwtype : list Z) (value : Z)
  | CTime (start stop : Z)
  | CMedia (type port nports proto : Z) (fmts : list (list Z))
  | CMediaName (type : list Z) (port nports : Z) (proto : list Z) (fmts : list (list Z))
  | CAttr (id : Z) (val : list Z)
  | CAttrName (name val : list Z)
  | CLine (type : Z) (val : list Z).

Definition or_dash (t : list Z) : list Z := match t with [] => txt "-" | _ => t end.
Fixpoint joined (ts : list (list Z)) : list Z :=
  match ts with [] => [] | [t] => t | t :: ts => t ++ [32] ++ joined ts end.
Definition ports_txt (port nports : Z) : list Z := dec64 port ++ if 1 <? nports then [47] ++ dec64 nports else [].
Definition media_txt (type : list Z) (port nports : Z) (proto : list Z) (fmts : list (list Z)) : list Z :=
  type ++ [32] ++ ports_txt port nports ++ [32] ++ proto ++ (match fmts with [] => [] | _ => [32] ++ joined fmts end).
Definition attr_txt (name val : list Z) : list Z := name ++ match val with [] => [] | _ => [58] ++ val end.
(** The type letter and the value of the line a call writes. *)
Definition line_type (c : call) : Z :=
  match c with
  | COrigin _ _ _ _ _ => 111 | CName _ => 115 | CConn _ _ => 99 | CBw _ _ => 98 | CTime _ _ => 116
  | CMedia _ _ _ _ _ | CMediaName _ _ _ _ _ => 109 | CAttr _ _ | CAttrName _ _ => 97 | CLine type _ => type
  end.
Definition line_val (c : call) : list Z :=
  match c with
  | COrigin user id version addrtype addr =>
      or_dash user ++ [32] ++ dec64 id ++ [32] ++ dec64 version ++ txt " IN " ++ addrtype ++ [32] ++ addr
  | CName name => or_dash name
  | CConn addrtype addr => txt "IN " ++ addrtype ++ [32] ++ addr
  | CBw bwtype value => bwtype ++ [58] ++ dec64 value
  | CTime start stop => dec64 start ++ [32] ++ dec64 stop
  | CMedia type port nports proto fmts => media_txt (sdp_mtype_name type) port nports (sdp_proto_name proto) fmts
  | CMediaName type port nports proto fmts => media_txt type port nports proto fmts
  | CAttr id val => attr_txt (sdp_attr_name id) val
  | CAttrName name val => attr_txt name val
  | CLine _ val => val
  end.
Definition call_line (c : call) : list Z := [line_type c; 61] ++ line_val c.
Definition calls_txt (cs : list call) : list Z := c ← cs; call_line c ++ CRLF.
Definition desc_txt (cs : list call) : list Z := txt "v=0" ++ CRLF ++ calls_txt cs.

Definition put_call (w : sip_wbuf) (c : call) : res (sip_wbuf * Z) :=
  match c with
  | COrigin user id version addrtype addr =>
      sdp_put_origin w (Some user) (mlen user) id version (Some addrtype) (mlen addrtype) (Some addr) (mlen addr)
  | CName name => sdp_put_name w (Some name) (mlen name)
  | CConn addrtype addr => sdp_put_conn w (Some addrtype) (mlen addrtype) (Some addr) (mlen addr)
  | CBw bwtype value => sdp_put_bw w (Some bwtype) (mlen bwtype) value
  | CTime start stop => sdp_put_time w start stop
  | CMedia type port nports proto fmts => sdp_put_media w type port nports proto (Some (joined fmts)) (mlen (joined fmts))
  | CMediaName type port nports proto fmts =>
      sdp_put_media_name w (Some type) (mlen type) port nports (Some proto) (mlen proto) (Some (joined fmts)) (mlen (joined fmts))
  | CAttr id val => sdp_put_attr w id (Some val) (mlen val)
  | CAttrName name val => sdp_put_attr_name w (Some name) (mlen name) (Some val) (mlen val)
  | CLine type val => sdp_put_line w type (Some val) (mlen val)
  end.
Fixpoint put_calls (w : sip_wbuf) (cs : list call) : res sip_wbuf :=
  match cs with [] => Ok w | c :: cs => r ← put_call w c; put_calls (fst r) cs end.
Definition write_desc (buf : mem) (cap : Z) (cs : list call) : res (sip_wbuf * Z) :=
  r ← sdp_put_version (sdp_wbuf_init (Some buf) cap);
  w ← put_calls (fst r) cs;
  Ok (w, sdp_end w).

(** What may be written: fields without white space, values of one line that do not end in
    white space. *)
Definition tok (t : list Z) : Prop := t ≠ [] ∧ free [32; 9; 10] t.
Definition ends_ok (v : list Z) : Prop := match last v with None => True | Some c => sdp_is_ws c = false end.
Definition starts_ok (v : list Z) : Prop := match v with [] => True | c :: _ => sdp_is_ws c = false end.
Definition text_ok (v : list Z) : Prop := free [10] v ∧ ends_ok v.
Definition u64_ok (v : Z) : Prop := 0 <= v <= UINT64_MAX.
Definition u16_ok (v : Z) : Prop := 0 <= v <= UINT16_MAX.
Definition call_ok (c : call) : Prop :=
  match c with
  | COrigin user id version addrtype addr => tok (or_dash user) ∧ u64_ok id ∧ u64_ok version ∧ tok addrtype ∧ tok addr
  | CName name => text_ok name
  | CConn addrtype addr => tok addrtype ∧ tok addr
  | CBw bwtype value => bwtype ≠ [] ∧ free [58; 10] bwtype ∧ u64_ok value
  | CTime start stop => u64_ok start ∧ u64_ok stop
  | CMedia type port nports proto fmts =>
      1 <= type < SDP_M_MAX ∧ u16_ok port ∧ u16_ok nports ∧ 1 <= proto < SDP_P_MAX ∧ Forall tok fmts
  | CMediaName type port nports proto fmts => tok type ∧ u16_ok port ∧ u16_ok nports ∧ tok proto ∧ Forall tok fmts
  | CAttr id val => 1 <= id < SDP_A_MAX ∧ text_ok val ∧ starts_ok val
  | CAttrName name val => name ≠ [] ∧ free [58; 10] name ∧ (val = [] → ends_ok name) ∧ text_ok val ∧ starts_ok val
  | CLine type val => 97 <= type <= 122 ∧ (type ∉ [118; 111; 115; 99; 98; 116; 109; 97]) ∧ text_ok val
  end.

(** ** What calls describe *)

Definition attr : Type := list Z * list Z.
Definition conn : Type := list Z * list Z.
Record dmedia := DMedia {
  dm_type : list Z; dm_port : Z; dm_nports : Z; dm_proto : list Z; dm_fmts : list (list Z);
  dm_title : option (list Z); dm_conn : option conn; dm_bws : list (list Z * Z); dm_attrs : list attr }.
Record desc := Desc {
  d_origin : option (list Z * Z * Z * list Z * list Z); d_name : option (list Z); d_info : option (list Z); d_uri : option (list Z);
  d_conn : option conn; d_time : option (Z * Z); d_bws : list (list Z * Z); d_attrs : list attr; d_media : list dmedia }.
Definition no_desc : desc := Desc None None None None None None [] [] [].

Definition on_cur (f : dmedia → dmedia) (g : desc → desc) (d : desc) : desc :=
  match last (d_media d) with
  | Some dm => Desc (d_origin d) (d_name d) (d_info d) (d_uri d) (d_conn d) (d_time d) (d_bws d) (d_attrs d) (removelast (d_media d) ++ [f dm])
  | None => g d
  end.
Definition first_wins {A} (old : option A) (new : A) : option A := match old with Some a => Some a | None => Some new end.
Definition add_d_attr (a : attr) : desc → desc := on_cur
  (λ m, DMedia (dm_type m) (dm_port m) (dm_nports m) (dm_proto m) (dm_fmts m) (dm_title m) (dm_conn m) (dm_bws m) (dm_attrs m ++ [a]))
  (λ d, Desc (d_origin d) (d_name d) (d_info d) (d_uri d) (d_conn d) (d_time d) (d_bws d) (d_attrs d ++ [a]) (d_media d)).
Definition add_d_media (type : list Z) (port nports : Z) (proto : list Z) (fmts : list (list Z)) (d : desc) : desc :=
  Desc (d_origin d) (d_name d) (d_info d) (d_uri d) (d_conn d) (d_time d) (d_bws d) (d_attrs d)
    (d_media d ++ [DMedia type port (if 1 <? nports then nports else 1) proto fmts None None [] []]).
Definition apply (c : call) (d : desc) : desc :=
  match c with
  | COrigin user id version addrtype addr =>
      Desc (Some (or_dash user, id, version, addrtype, addr)) (d_name d) (d_info d) (d_uri d) (d_conn d) (d_time d) (d_bws d) (d_attrs d) (d_media d)
  | CName name => Desc (d_origin d) (Some (or_dash name)) (d_info d) (d_uri d) (d_conn d) (d_time d) (d_bws d) (d_attrs d) (d_media d)
  | CConn addrtype addr => on_cur
      (λ m, DMedia (dm_type m) (dm_port m) (dm_nports m) (dm_proto m) (dm_fmts m) (dm_title m) (first_wins (dm_conn m) (addrtype, addr)) (dm_bws m) (dm_attrs m))
      (λ d, Desc (d_origin d) (d_name d) (d_info d) (d_uri d) (first_wins (d_conn d) (addrtype, addr)) (d_time d) (d_bws d) (d_attrs d) (d_media d)) d
  | CBw bwtype value => on_cur
      (λ m, DMedia (dm_type m) (dm_port m) (dm_nports m) (dm_proto m) (dm_fmts m) (dm_title m) (dm_conn m) (dm_bws m ++ [(bwtype, value)]) (dm_attrs m))
      (λ d, Desc (d_origin d) (d_name d) (d_info d) (d_uri d) (d_conn d) (d_time d) (d_bws d ++ [(bwtype, value)]) (d_attrs d) (d_media d)) d
  | CTime start stop => Desc (d_origin d) (d_name d) (d_info d) (d_uri d) (d_conn d) (first_wins (d_time d) (start, stop)) (d_bws d) (d_attrs d) (d_media d)
  | CMedia type port nports proto fmts => add_d_media (sdp_mtype_name type) port nports (sdp_proto_name proto) fmts d
  | CMediaName type port nports proto fmts => add_d_media type port nports proto fmts d
  | CAttr id val => add_d_attr (sdp_attr_name id, val) d
  | CAttrName name val => add_d_attr (name, val) d
  | CLine type val =>
      if type =? 105 then on_cur
        (λ m, DMedia (dm_type m) (dm_port m) (dm_nports m) (dm_proto m) (dm_fmts m) (Some val) (dm_conn m) (dm_bws m) (dm_attrs m))
        (λ d, Desc (d_origin d) (d_name d) (Some val) (d_uri d) (d_conn d) (d_time d) (d_bws d) (d_attrs d) (d_media d)) d
      else if type =? 117 then Desc (d_origin d) (d_name d) (d_info d) (Some val) (d_conn d) (d_time d) (d_bws d) (d_attrs d) (d_media d)
      else d
  end.
Definition described (cs : list call) : desc := foldl (λ d c, apply c d) no_desc cs.

Definition all_attrs (d : desc) : list attr := d_attrs d ++ (d_media d ≫= dm_attrs).
Definition all_bws (d : desc) : list (list Z * Z) := d_bws d ++ (d_media d ≫= dm_bws).
Definition all_fmts (d : desc) : list (list Z) := d_media d ≫= dm_fmts.
Definition fits (d : desc) : Prop :=
  count (all_attrs d) <= SDP_MAX_ATTRS ∧ count (all_bws d) <= SDP_MAX_BWS ∧ count (all_fmts d) <= SDP_MAX_FMTS ∧ count (d_media d) <= SDP_MAX_MEDIA.

(** ** A message that reads as a description *)

Section reading.
Context (m : mem).
Definition val_reads (s : sip_str) (v : list Z) : Prop := match v with [] => s = no_str | _ => reads m s v end.
Definition attr_reads (a : sdp_attr) (x : attr) : Prop := at_id a = attr_ref (fst x) ∧ reads m (at_name a) (fst x) ∧ val_reads (at_value a) (snd x).
Definition bw_reads (b : sdp_bw) (x : list Z * Z) : Prop := reads m (b_type b) (fst x) ∧ b_value b = snd x.
Definition conn_reads (c : sdp_conn) (x : conn) : Prop := reads m (c_nettype c) (txt "IN") ∧ reads m (c_addrtype c) (fst x) ∧ reads m (c_addr c) (snd x).
Definition origin_reads (o : sdp_origin) (x : list Z * Z * Z * list Z * list Z) : Prop :=
  let '(user, id, version, addrtype, addr) := x in
  reads m (o_user o) user ∧ o_id o = id ∧ o_version o = version ∧ reads m (o_nettype o) (txt "IN") ∧
  reads m (o_addrtype o) addrtype ∧ reads m (o_addr o) addr.
Definition omatch {A B} (R : A → B → Prop) (a : option A) (b : option B) : Prop :=
  match a, b with Some a, Some b => R a b | None, None => True | _, _ => False end.
Definition media_reads (d : sdp_media) (x : dmedia) : Prop :=
  md_type d = token_ref k_mtype (dm_type x) ∧ reads m (md_type_name d) (dm_type x) ∧ md_port d = dm_port x ∧ md_nports d = dm_nports x ∧
  md_proto d = token_ref k_proto (dm_proto x) ∧ reads m (md_proto_name d) (dm_proto x) ∧ reads_opt m (md_title d) (dm_title x) ∧
  omatch conn_reads (md_conn d) (dm_conn x) ∧ md_fmt_count d = count (dm_fmts x) ∧ md_bw_count d = count (dm_bws x) ∧
  md_attr_count d = count (dm_attrs x).
Definition desc_reads (msg : sdp_msg) (d : desc) : Prop :=
  omatch origin_reads (sm_origin msg) (d_origin d) ∧ reads_opt m (sm_name msg) (d_name d) ∧ reads_opt m (sm_info msg) (d_info d) ∧
  reads_opt m (sm_uri msg) (d_uri d) ∧ omatch conn_reads (sm_conn msg) (d_conn d) ∧ sm_time msg = d_time d ∧
  sm_bw_count msg = count (d_bws d) ∧ sm_attr_count msg = count (d_attrs d) ∧ Forall2 media_reads (sm_media msg) (d_media d) ∧
  Forall2 attr_reads (sm_attrs msg) (all_attrs d) ∧ Forall2 bw_reads (sm_bws msg) (all_bws d) ∧ Forall2 (reads m) (sm_fmts msg) (all_fmts d).
End reading.

(** ** The writer *)

Section writer.
Context (buf : mem) (cap : Z) (Hcap : 0 <= cap <= INT_MAX) (Hbuf : cap <= mlen buf).

Lemma sdp_put_wrote w bs cs : wrote buf cap w bs → ∃ w', sdp_put w (Some cs) (mlen cs) = Ok w' ∧ wrote buf cap w' (bs ++ cs).
Proof using Hbuf Hcap. by apply put_wrote. Qed.
Lemma sdp_put_txt_wrote w bs cs : wrote buf cap w bs → ∃ w', sdp_put_txt w cs = Ok w' ∧ wrote buf cap w' (bs ++ cs).
Proof using Hbuf Hcap. apply sdp_put_wrote. Qed.
Lemma put_u64_wrote w bs v : u64_ok v → wrote buf cap w bs → ∃ w', put_u64 w v = Ok w' ∧ wrote buf cap w' (bs ++ dec64 v).
Proof using Hbuf Hcap.
  intros Hv Hw. unfold put_u64. destruct (dec64_spec v Hv) as (E & _). rewrite E. bstep. by apply sdp_put_txt_wrote.
Qed.
(** Optional parts: [nlen ? put : nothing] and the like. *)
Lemma put_unless_wrote w bs (cs pre : list Z) : wrote buf cap w bs →
  ∃ w', (if mlen cs =? 0 then Ok w else w ← sdp_put_txt w pre; sdp_put w (Some cs) (mlen cs)) = Ok w' ∧
    wrote buf cap w' (bs ++ match cs with [] => [] | _ => pre ++ cs end).
Proof using Hbuf Hcap.
  intros Hw. destruct cs as [|c cs]; [exists w; split; [done|by rewrite app_nil_r]|]. rewrite mlen_pos by done.
  destruct (sdp_put_txt_wrote w bs pre Hw) as (w1 & -> & H1). bstep. destruct (sdp_put_wrote w1 _ (c :: cs) H1) as (w2 & -> & H2).
  exists w2. split; [done|]. by rewrite <-app_assoc in H2.
Qed.
Lemma put_dash_wrote w bs cs : wrote buf cap w bs →
  ∃ w', (if mlen cs =? 0 then sdp_put_txt w (txt "-") else sdp_put w (Some cs) (mlen cs)) = Ok w' ∧ wrote buf cap w' (bs ++ or_dash cs).
Proof using Hbuf Hcap. intros Hw. destruct cs as [|c cs]; [by apply sdp_put_txt_wrote|]. rewrite mlen_pos by done. by apply sdp_put_wrote. Qed.
Lemma put_val_wrote w bs cs : wrote buf cap w bs →
  ∃ w', (if mlen cs =? 0 then Ok w else sdp_put w (Some cs) (mlen cs)) = Ok w' ∧ wrote buf cap w' (bs ++ cs).
Proof using Hbuf Hcap.
  intros Hw. destruct cs as [|c cs]; [exists w; split; [done|by rewrite app_nil_r]|]. rewrite mlen_pos by done. by apply sdp_put_wrote.
Qed.
Lemma put_nports_wrote w bs v : u64_ok v → wrote buf cap w bs →
  ∃ w', (if 1 <? v then w ← sdp_put_txt w (txt "/"); put_u64 w v else Ok w) = Ok w' ∧ wrote buf cap w' (bs ++ if 1 <? v then [47] ++ dec64 v else []).
Proof using Hbuf Hcap.
  intros Hv Hw. destruct (1 <? v); [|exists w; split; [done|by rewrite app_nil_r]].
  destruct (sdp_put_txt_wrote w bs (txt "/") Hw) as (w1 & -> & H1). bstep. destruct (put_u64_wrote w1 _ v Hv H1) as (w2 & -> & H2).
  exists w2. split; [done|]. by rewrite <-app_assoc in H2.
Qed.

Ltac step1 L := let w' := fresh "w" in let E := fresh "E" in destruct L as (w' & E & ?); rewrite E; clear E; bstep.
Ltac wnext :=
  match goal with
  | H : wrote buf cap ?w ?bs |- context [sdp_put_txt ?w ?cs] => step1 (sdp_put_txt_wrote w bs cs H); clear H
  | H : wrote buf cap ?w ?bs |- context [put_u64 ?w ?v] => step1 (put_u64_wrote w bs v ltac:(done) H); clear H
  | H : wrote buf cap ?w ?bs |- context [sdp_put ?w (Some ?cs) (mlen ?cs)] => step1 (sdp_put_wrote w bs cs H); clear H
  end.

Lemma put_media_name_wrote w bs type port nports proto fmts : type ≠ [] → proto ≠ [] → u16_ok port → u16_ok nports → Forall tok fmts → wrote buf cap w bs →
  ∃ w' rc, sdp_put_media_name w (Some type) (mlen type) port nports (Some proto) (mlen proto) (Some (joined fmts)) (mlen (joined fmts)) = Ok (w', rc) ∧
    wrote buf cap w' (bs ++ ([109; 61] ++ media_txt type port nports proto fmts) ++ CRLF).
Proof using Hbuf Hcap.
  intros Ht Hp Hpo Hnp HF Hw. unfold u16_ok, UINT16_MAX in *.
  assert (Hpo' : u64_ok port) by (unfold u64_ok, UINT64_MAX; lia). assert (Hnp' : u64_ok nports) by (unfold u64_ok, UINT64_MAX; lia).
  unfold sdp_put_media_name. rewrite !mlen_pos by done. cbn [is_null orb bad_slice andb].
  wnext. wnext. wnext. wnext.
  match goal with H : wrote buf cap ?w ?bs |- _ => step1 (put_nports_wrote w bs nports Hnp' H); clear H end. wnext. wnext.
  match goal with H : wrote buf cap ?w ?bs |- _ => step1 (put_unless_wrote w bs (joined fmts) [32] H); clear H end. wnext.
  eexists _, _. split; [done|]. unfold media_txt, ports_txt.
  assert (Ej : match joined fmts with [] => [] | _ => [32] ++ joined fmts end = match fmts with [] => [] | _ => [32] ++ joined fmts end).
  { destruct HF as [|t ts [Hne _] _]; [done|]. destruct t as [|x t]; [done|]. by destruct ts. }
  rewrite Ej in *. change (txt "m=") with [109; 61] in *. by rewrite <-!app_assoc in *.
Qed.
Lemma put_attr_name_wrote w bs name val : name ≠ [] → wrote buf cap w bs →
  ∃ w' rc, sdp_put_attr_name w (Some name) (mlen name) (Some val) (mlen val) = Ok (w', rc) ∧ wrote buf cap w' (bs ++ ([97; 61] ++ attr_txt name val) ++ CRLF).
Proof using Hbuf Hcap.
  intros Hn Hw. unfold sdp_put_attr_name. rewrite (mlen_pos name) by done. cbn [is_null orb bad_slice andb]. wnext. wnext.
  match goal with H : wrote buf cap ?w ?bs |- _ => step1 (put_unless_wrote w bs val (txt ":") H); clear H end. wnext.
  eexists _, _. split; [done|]. unfold attr_txt. change (txt "a=") with [97; 61] in *. change (txt ":") with [58] in *. by rewrite <-!app_assoc in *.
Qed.
Lemma table_names : (∀ id, 1 <= id < SDP_A_MAX → sdp_attr_name id ≠ []) ∧
  (∀ id, 1 <= id < SDP_M_MAX → tok (sdp_mtype_name id)) ∧ (∀ id, 1 <= id < SDP_P_MAX → tok (sdp_proto_name id)).
Proof using.
  clear. assert (F : ∀ (P : Z → Prop) k, Forall P (map Z.of_nat (seq 1 k)) → ∀ id, 1 <= id < Z.of_nat k + 1 → P id).
  { intros P k HF id Hid. apply (proj1 (Forall_forall _ _) HF). apply list_elem_of_In, in_map_iff. exists (Z.to_nat id). split; [lia|]. apply in_seq. lia. }
  split_and!; [apply (F _ 25%nat)|apply (F _ 6%nat)|apply (F _ 10%nat)]; unfold tok, free; apply (bool_decide_unpack _); vm_compute; exact I.
Qed.
Lemma put_call_wrote w bs c : call_ok c → wrote buf cap w bs →
  ∃ w' rc, put_call w c = Ok (w', rc) ∧ wrote buf cap w' (bs ++ call_line c ++ CRLF).
Proof using Hbuf Hcap.
  intros Hc Hw. destruct table_names as (HA & HM & HP). unfold call_line. destruct c as [user id version addrtype addr|name|addrtype addr|bwtype value|start stop|type port nports proto fmts|type port nports proto fmts|id val|name val|type val]; cbn [put_call line_type line_val call_ok] in *.
  - destruct Hc as (Hu & Hid & Hv & [Ht _] & [Ha _]). unfold sdp_put_origin. rewrite (mlen_pos addrtype), (mlen_pos addr) by done. cbn [is_null orb bad_slice andb].
    wnext. match goal with H : wrote buf cap ?w ?bs |- _ => step1 (put_dash_wrote w bs user H); clear H end. do 9 wnext.
    eexists _, _. split; [done|]. change (txt "o=") with [111; 61] in *. by rewrite <-!app_assoc in *.
  - unfold sdp_put_name. cbn [is_null bad_slice andb]. wnext. match goal with H : wrote buf cap ?w ?bs |- _ => step1 (put_dash_wrote w bs name H); clear H end. wnext.
    eexists _, _. split; [done|]. change (txt "s=") with [115; 61] in *. by rewrite <-!app_assoc in *.
  - destruct Hc as ([Ht _] & [Ha _]). unfold sdp_put_conn. rewrite (mlen_pos addrtype), (mlen_pos addr) by done. cbn [is_null orb]. do 5 wnext.
    eexists _, _. split; [done|]. change (txt "c=IN ") with ([99; 61] ++ txt "IN ") in *. by rewrite <-!app_assoc in *.
  - destruct Hc as (Hb & _ & Hv). unfold sdp_put_bw. rewrite mlen_pos by done. cbn [is_null orb]. do 5 wnext.
    eexists _, _. split; [done|]. change (txt "b=") with [98; 61] in *. change (txt ":") with [58] in *. by rewrite <-!app_assoc in *.
  - destruct Hc as (Hs & He). unfold sdp_put_time. do 5 wnext. eexists _, _. split; [done|]. change (txt "t=") with [116; 61] in *. by rewrite <-!app_assoc in *.
  - destruct Hc as (Ht & Hp & Hn & Hpr & HF). unfold sdp_put_media. cbv zeta. destruct (HM type Ht), (HP proto Hpr). rewrite !bool_decide_eq_false_2 by done. cbn [orb].
    by apply put_media_name_wrote.
  - destruct Hc as ([Ht _] & Hp & Hn & [Hpr _] & HF). by apply put_media_name_wrote.
  - destruct Hc as (Hid & _). unfold sdp_put_attr. cbv zeta. rewrite bool_decide_eq_false_2 by (by apply HA). by apply put_attr_name_wrote; [apply HA|].
  - destruct Hc as (Hn & _). by apply put_attr_name_wrote.
  - destruct Hc as (Ht & _). unfold sdp_put_line. rewrite (proj2 (Z.ltb_ge type 97)), (proj2 (Z.ltb_ge 122 type)) by lia. cbn [is_null orb bad_slice andb]. wnext.
    match goal with H : wrote buf cap ?w ?bs |- _ => step1 (put_val_wrote w bs val H); clear H end. wnext. eexists _, _. split; [done|]. by rewrite <-!app_assoc in *.
Qed.
Lemma put_calls_wrote cs : Forall call_ok cs → ∀ w bs, wrote buf cap w bs → ∃ w', put_calls w cs = Ok w' ∧ wrote buf cap w' (bs ++ calls_txt cs).
Proof using Hbuf Hcap.
  induction 1 as [|c cs Hc _ IH]; intros w bs Hw; cbn [put_calls]; [exists w; split; [done|by rewrite app_nil_r]|].
  destruct (put_call_wrote w bs c Hc Hw) as (w1 & rc & -> & H1). bstep. cbn [fst]. destruct (IH w1 _ H1) as (w2 & -> & H2). exists w2. split; [done|].
  unfold calls_txt in *. cbn [mbind list_bind]. by rewrite <-app_assoc in H2.
Qed.
End writer.
End SdpRound.
