(* ===== verification/SdpBack.v ===== *)
(** * SdpBack: the parser on written descriptions

    Each line a call writes is parsed to what the call describes, and so is the whole
    text. *)

From stdpp Require Import strings.
From S2P Require Import Prelude Endian SipStr SipMsg SipWrite SipScan SipName SipParse SipRound SipValue SipUriRound SdpMsg SdpAttr SdpWrite SdpScan SdpParse SdpAccess SdpRound.

Module SdpBack.
Import SipStr SipMsg SipWrite SipScan SipName SipParse SipRound SipValue SipUriRound SdpMsg SdpAttr SdpWrite SdpScan SdpParse SdpAccess SdpRound.

(** ** Fields of a line *)

Definition gap (ts : list (list Z)) : list Z := match ts with [] => [] | _ => [32] end.
Lemma joined_cons t ts : joined (t :: ts) = t ++ gap ts ++ joined ts.
Proof. destruct ts; [by rewrite app_nil_r|done]. Qed.
Lemma gap_ws ts : is_ws_text (gap ts).
Proof. destruct ts; repeat constructor. Qed.
Definition word (t : list Z) : Prop := t ≠ [] ∧ free [32; 9] t.
Lemma tok_word t : tok t → word t.
Proof. intros [Hn Hf]. split; [done|]. apply (free_sub [32; 9; 10]); [set_solver|done]. Qed.
Lemma dec64_word v : u64_ok v → word (dec64 v).
Proof.
  intros Hv. destruct (dec64_spec v Hv) as (_ & _ & Hl & _). split; [intros E; rewrite E, mlen_nil in Hl; lia|]. apply dec64_free; [done|by repeat constructor].
Qed.

Section text.
Context (m : mem) (Hm : mlen m <= INT_MAX).

Lemma field_step p e w t ts : is_ws_text w → word t → holds m p (w ++ joined (t :: ts)) → e = p + mlen (w ++ joined (t :: ts)) →
  ∃ q, sdp_field m p e = Ok (Str (Some (p + mlen w)) (mlen t), q) ∧ holds m (p + mlen w) t ∧
    holds m q (gap ts ++ joined ts) ∧ e = q + mlen (gap ts ++ joined ts).
Proof using Hm.
  intros Hw [Hne Hf] H He. rewrite joined_cons in H, He. exists (p + mlen w + mlen t). split.
  { eapply sdp_field_text; try done. destruct ts; cbn; [done|set_solver]. }
  apply holds_app in H as [_ H]. apply holds_app in H as [H1 H2]. rewrite !mlen_app in *. split_and!; done || lia.
Qed.
Lemma reads_here p t : holds m p t → reads m (Str (Some p) (mlen t)) t.
Proof using. clear. intros (_ & _ & H). by exists p. Qed.
Lemma fields_text ts : ∀ p e w, is_ws_text w → Forall word ts → holds m p (w ++ joined ts) → e = p + mlen (w ++ joined ts) →
  ∃ l, sdp_fields (length ts) m p e = Ok (Some l) ∧ Forall2 (λ s t, ∃ p, s = Str (Some p) (mlen t) ∧ holds m p t) l ts.
Proof using Hm.
  induction ts as [|t ts IH]; intros p e w Hw HF H He; cbn [length sdp_fields]; [by eexists|]. apply Forall_cons in HF as [Ht HF].
  destruct (field_step p e w t ts Hw Ht H He) as (q & -> & H1 & H2 & H3). bstep. cbn [fst snd s_len]. rewrite mlen_pos by apply Ht.
  destruct (IH q e (gap ts) (gap_ws ts) HF H2 H3) as (l & -> & Hl). bstep. eexists. split; [done|]. constructor; [by eexists|done].
Qed.
Lemma str_u64_dec p v : u64_ok v → holds m p (dec64 v) → str_u64 m (Str (Some p) (mlen (dec64 v))) = Ok (Some v).
Proof using.
  clear. intros Hv (Hp & Hl & Hs). unfold str_u64. cbn [s_p s_len]. pose proof (mlen_nonneg (dec64 v)).
  rewrite sdp_parse_u64_spec by lia. rewrite Hs. destruct (dec64_spec v Hv) as (_ & _ & _ & ->). done.
Qed.

Lemma origin_text v e user id version addrtype addr : let x := (user, id, version, addrtype, addr) in
  word user → u64_ok id → u64_ok version → word addrtype → word addr →
  holds m v (joined [user; dec64 id; dec64 version; txt "IN"; addrtype; addr]) →
  e = v + mlen (joined [user; dec64 id; dec64 version; txt "IN"; addrtype; addr]) →
  ∃ o, parse_origin m v e = Ok (Some o) ∧ origin_reads m o x.
Proof using Hm.
  intros x Hu Hid Hv Ht Ha H He. unfold parse_origin.
  destruct (fields_text [user; dec64 id; dec64 version; txt "IN"; addrtype; addr] v e []) as (l & El & HF); [constructor| |done|done|].
  { repeat constructor; try apply Hu; try apply Ht; try apply Ha; try (by apply dec64_word); try done; set_solver. }
  cbn [length] in El. rewrite El. bstep. repeat (apply Forall2_cons_inv_r in HF as (? & ? & (? & -> & ?) & HF & ->)). apply Forall2_nil_inv_r in HF as ->.
  rewrite str_u64_dec by done. bstep. rewrite str_u64_dec by done. bstep. eexists. split; [done|]. unfold x, origin_reads.
  cbn [o_user o_id o_version o_nettype o_addrtype o_addr default]. split_and!; try done; by apply reads_here.
Qed.
Lemma conn_text v e addrtype addr : word addrtype → word addr → holds m v (joined [txt "IN"; addrtype; addr]) → e = v + mlen (joined [txt "IN"; addrtype; addr]) →
  ∃ c, parse_conn m v e = Ok (Some c) ∧ conn_reads m c (addrtype, addr).
Proof using Hm.
  intros Ht Ha H He. unfold parse_conn. destruct (fields_text [txt "IN"; addrtype; addr] v e []) as (l & El & HF); [constructor| |done|done|].
  { repeat constructor; try apply Ht; try apply Ha; try done; set_solver. }
  cbn [length] in El. rewrite El. bstep. repeat (apply Forall2_cons_inv_r in HF as (? & ? & (? & -> & ?) & HF & ->)). apply Forall2_nil_inv_r in HF as ->.
  eexists. split; [done|]. unfold conn_reads. cbn [c_nettype c_addrtype c_addr fst snd]. split_and!; by apply reads_here.
Qed.
Lemma fmt_loop_text ts : ∀ fuel p e w fmts, is_ws_text w → Forall word ts → (ts = [] → w = []) → holds m p (w ++ joined ts) → e = p + mlen (w ++ joined ts) →
  count fmts + count ts <= SDP_MAX_FMTS → (length ts < fuel)%nat →
  ∃ l, fmt_loop fuel m p e fmts = Ok (inr (fmts ++ l)) ∧ Forall2 (reads m) l ts.
Proof using Hm.
  induction ts as [|t ts IH]; intros fuel p e w fmts Hw HF Hnil H He Hc Hf; (destruct fuel as [|fuel]; [lia|]); cbn [fmt_loop].
  - rewrite Hnil in * by done. cbn [app joined] in *. rewrite mlen_nil, Z.add_0_r in He. subst e. destruct (holds_pos _ _ _ H) as [H0 H1]. rewrite mlen_nil in H1.
    rewrite sdp_field_none by lia. bstep. exists []. by rewrite app_nil_r.
  - apply Forall_cons in HF as [Ht HF]. destruct (field_step p e w t ts Hw Ht H He) as (q & -> & H1 & H2 & H3). bstep. cbn [fst snd s_len].
    rewrite mlen_pos by apply Ht. unfold count in *. cbn [length] in *. rewrite (proj2 (Z.leb_gt _ _)) by lia.
    destruct (IH fuel q e (gap ts) (fmts ++ [Str (Some (p + mlen w)) (mlen t)])) as (l & -> & Hl); try done.
    + apply gap_ws.
    + by intros ->.
    + rewrite length_app. cbn [length]. lia.
    + lia.
    + eexists. split; [by rewrite <-app_assoc|]. constructor; [by apply reads_here|done].
Qed.
Lemma ports_text p port nports : u16_ok port → u16_ok nports → holds m p (ports_txt port nports) →
  parse_ports m (Str (Some p) (mlen (ports_txt port nports))) = Ok (Some (port, if 1 <? nports then nports else 1)).
Proof using.
  clear. intros Hp Hn H. unfold parse_ports. cbn [s_p s_len]. unfold ports_txt in *. unfold u16_ok, UINT16_MAX in *. destruct (holds_pos _ _ _ H) as [H0 H1].
  assert (U : ∀ v q, 0 <= v <= 65535 → holds m q (dec64 v) → sdp_parse_u16 m q (mlen (dec64 v)) = Ok (Some v)).
  { intros v q Hv (Hq & Hl & Hs). pose proof (mlen_nonneg (dec64 v)). rewrite sdp_parse_u16_spec by lia. rewrite Hs, num_text_dec64; [done|unfold UINT16_MAX; lia|done]. }
  assert (F : Forall (λ x, x ≠ 47) (dec64 port)) by (apply free_ne, dec64_free; [unfold UINT64_MAX; lia|by repeat constructor]).
  destruct (1 <? nports).
  - pose proof H as HA. apply holds_app in H as [HP H]. apply (holds_app m _ [47]) in H as [_ HN]. change (mlen [47]) with 1 in HN.
    assert (L : mlen (dec64 port ++ [47] ++ dec64 nports) = mlen (dec64 port) + 1 + mlen (dec64 nports)) by (rewrite !mlen_app; change (mlen [47]) with 1; lia).
    rewrite L. pose proof (mlen_nonneg (dec64 nports)).
    rewrite (memchr_text m p (dec64 port) 47 (dec64 nports) _ HA F) by lia. bstep. replace (p + mlen (dec64 port) - p) with (mlen (dec64 port)) by lia.
    rewrite U by done. bstep. replace (mlen (dec64 port) + 1 + mlen (dec64 nports) - mlen (dec64 port) - 1) with (mlen (dec64 nports)) by lia.
    by rewrite U by done.
  - rewrite app_nil_r in *. rewrite (memchr_text_none m p (dec64 port)) by done. bstep. rewrite U by done. done.
Qed.
Lemma media_text_joined type port nports proto fmts : Forall tok fmts → media_txt type port nports proto fmts = joined (type :: ports_txt port nports :: proto :: fmts).
Proof using. clear. intros _. rewrite !joined_cons. unfold media_txt. cbn [gap]. destruct fmts; [by rewrite !app_nil_r|done]. Qed.
Lemma ports_word port nports : u16_ok port → u16_ok nports → word (ports_txt port nports).
Proof using.
  clear. unfold u16_ok, UINT16_MAX. intros Hp Hn. assert (Hp' : u64_ok port) by (unfold u64_ok, UINT64_MAX; lia). assert (Hn' : u64_ok nports) by (unfold u64_ok, UINT64_MAX; lia).
  unfold ports_txt. destruct (dec64_word port Hp') as [Hne Hf]. split; [intros [E _]%app_nil; done|]. apply Forall_app. split; [done|].
  destruct (1 <? nports); [|constructor]. apply Forall_app. split; [repeat constructor; set_solver|]. apply (dec64_word nports Hn').
Qed.
Lemma media_text v e bw_off attr_off fmts type port nports proto ts :
  word type → word proto → u16_ok port → u16_ok nports → Forall word ts →
  holds m v (joined (type :: ports_txt port nports :: proto :: ts)) → e = v + mlen (joined (type :: ports_txt port nports :: proto :: ts)) →
  count fmts + count ts <= SDP_MAX_FMTS →
  ∃ d l, parse_media m v e bw_off attr_off fmts = Ok (inr (d, fmts ++ l)) ∧ Forall2 (reads m) l ts ∧
    media_reads m d (DMedia type port (if 1 <? nports then nports else 1) proto ts None None [] []).
Proof using Hm.
  intros Ht Hpr Hp Hn HF H He Hc. unfold parse_media.
  destruct (field_step v e [] type _ ltac:(constructor) Ht H He) as (q1 & -> & H1 & H2 & E2). bstep. cbn [snd]. rewrite mlen_nil, Z.add_0_r in *.
  destruct (field_step q1 e _ (ports_txt port nports) _ (gap_ws _) (ports_word _ _ Hp Hn) H2 E2) as (q2 & -> & H3 & H4 & E4). bstep. cbn [snd].
  destruct (field_step q2 e _ proto _ (gap_ws _) Hpr H4 E4) as (q3 & -> & H5 & H6 & E6). bstep. cbn [fst snd]. cbv iota beta zeta. cbn [s_len].
  rewrite !mlen_pos by (apply Ht || apply Hpr || by apply ports_word). cbn [orb].
  rewrite ports_text by done. bstep. unfold str_ref. cbn [s_p].
  destruct (holds_pos _ _ _ H1), (holds_pos _ _ _ H5). pose proof (mlen_nonneg type). pose proof (mlen_nonneg proto).
  rewrite sdp_mtype_from_eq, sdp_proto_from_eq by lia. bstep. assert (S1 : slice m v (mlen type) = type) by apply H1. assert (S5 : slice m (q2 + mlen (gap (proto :: ts))) (mlen proto) = proto) by apply H5.
  rewrite S1, S5. destruct (holds_pos _ _ _ H6).
  assert (Hlen : Z.of_nat (length ts) <= mlen (joined ts)).
  { clear -HF. induction HF as [|t ts [Hne _] _ IH]; [done|]. rewrite joined_cons, !mlen_app. cbn [length]. pose proof (mlen_nonneg (gap ts)).
    pose proof (mlen_ne t Hne). lia. }
  destruct (fmt_loop_text ts (S (Z.to_nat (e - q3))) q3 e (gap ts) fmts (gap_ws ts) HF) as (l & -> & Hl); try done.
  { by intros ->. }
  { rewrite mlen_app in E6. pose proof (mlen_nonneg (gap ts)). lia. }
  bstep. eexists _, l. split; [done|]. split; [done|]. unfold media_reads. cbn. split_and!; try done; try (by apply reads_here).
  apply Forall2_length in Hl. unfold count. rewrite length_app. lia.
Qed.
End text.

(** ** Updates of a message follow those of the description *)

Section updates.
Context (m : mem) (msg : sdp_msg) (d : desc) (HR : desc_reads m msg d).

(** Both are in the session, or both in their last media section. *)
Lemma cur_cases :
  (cur msg = None ∧ sm_media msg = [] ∧ d_media d = []) ∨
  (∃ l md dl dm, sm_media msg = l ++ [md] ∧ d_media d = dl ++ [dm] ∧ cur msg = Some md ∧ last (d_media d) = Some dm ∧
     Forall2 (media_reads m) l dl ∧ media_reads m md dm).
Proof using HR.
  destruct HR as (_ & _ & _ & _ & _ & _ & _ & _ & HM & _). unfold cur. destruct (sm_media msg) as [|x l _] using rev_ind.
  - apply Forall2_nil_inv_l in HM. by left.
  - right. apply Forall2_app_inv_l in HM as (dl & dm' & HL & HM & E). apply Forall2_cons_inv_l in HM as (dm & ? & Hdm & HN & ->). apply Forall2_nil_inv_l in HN as ->.
    exists l, x, dl, dm. rewrite E, !last_snoc. split_and!; done.
Qed.
Lemma bind_snoc {A B} (f : A → list B) l x : (l ++ [x]) ≫= f = (l ≫= f) ++ f x.
Proof using. clear. rewrite bind_app. cbn. by rewrite app_nil_r. Qed.

(** A change of the current section that adds nothing to the pools. *)
Lemma cur_reads l dl md md' dm dm' : sm_media msg = l ++ [md] → d_media d = dl ++ [dm] → Forall2 (media_reads m) l dl → media_reads m md' dm' →
  dm_attrs dm' = dm_attrs dm → dm_bws dm' = dm_bws dm → dm_fmts dm' = dm_fmts dm →
  desc_reads m (set_cur md' msg) (Desc (d_origin d) (d_name d) (d_info d) (d_uri d) (d_conn d) (d_time d) (d_bws d) (d_attrs d) (removelast (d_media d) ++ [dm'])).
Proof using HR.
  intros E1 E2 HL HM Ea Eb Ef. destruct HR as (H1 & H2 & H3 & H4 & H5 & H6 & H7 & H8 & _ & H10 & H11 & H12).
  unfold all_attrs, all_bws, all_fmts in H10, H11, H12. rewrite E2 in H10, H11, H12. rewrite bind_snoc in H10. rewrite bind_snoc in H11. rewrite bind_snoc in H12.
  unfold desc_reads, all_attrs, all_bws, all_fmts. rewrite (set_cur_media msg l md md' E1), E2, removelast_last.
  cbn [d_origin d_name d_info d_uri d_conn d_time d_bws d_attrs d_media]. rewrite !bind_snoc, Ea, Eb, Ef.
  split_and!; try done. apply Forall2_app; [done|by constructor].
Qed.
Lemma title_reads s v : reads m s v → desc_reads m (set_title s msg) (apply (CLine 105 v) d).
Proof using HR.
  intros Hs. unfold set_title. cbn [apply Z.eqb]. change (105 =? 105) with true. cbv iota. unfold on_cur.
  destruct cur_cases as [(-> & E1 & E2)|(l & md & dl & dm & E1 & E2 & -> & -> & HL & HM)].
  - rewrite E2. cbn [last]. destruct HR as (H1 & H2 & H3 & H4 & H5 & H6 & H7 & H8 & H9 & H10 & H11 & H12). unfold desc_reads, all_attrs, all_bws, all_fmts in *. cbn. rewrite E1, E2 in *. done.
  - eapply cur_reads; try done. unfold media_reads in *. cbn. tauto.
Qed.
Lemma cur_conn_reads : omatch (conn_reads m) (cur_conn msg) (match last (d_media d) with Some dm => dm_conn dm | None => d_conn d end).
Proof using HR.
  unfold cur_conn. destruct cur_cases as [(-> & E1 & E2)|(l & md & dl & dm & E1 & E2 & -> & -> & HL & HM)]; [rewrite E2; apply HR|]. apply HM.
Qed.
Lemma conn_set_reads c x : cur_conn msg = None → conn_reads m c x → desc_reads m (set_conn c msg) (apply (CConn (fst x) (snd x)) d).
Proof using HR.
  intros Hn Hc. pose proof cur_conn_reads as Ho. rewrite Hn in Ho. unfold set_conn. cbn [apply]. unfold on_cur.
  destruct cur_cases as [(Ec & E1 & E2)|(l & md & dl & dm & E1 & E2 & Ec & El & HL & HM)].
  - rewrite Ec. rewrite E2 in *. cbn [last] in *. destruct (d_conn d) eqn:Ed; [done|]. cbn [first_wins].
    destruct HR as (H1 & H2 & H3 & H4 & H5 & H6 & H7 & H8 & H9 & H10 & H11 & H12). unfold desc_reads, all_attrs, all_bws, all_fmts in *. cbn. rewrite E1, E2 in *. by destruct x.
  - rewrite Ec. rewrite El in *. destruct (dm_conn dm) eqn:Ed; [done|]. cbn [first_wins]. eapply cur_reads; try done. unfold media_reads in *. cbn. destruct x. cbn [fst snd]. tauto.
Qed.
Lemma attr_add_reads a x : attr_reads m a x → count (all_attrs d) < SDP_MAX_ATTRS → desc_reads m (add_attr a msg) (add_d_attr x d).
Proof using HR.
  intros Ha Hc. unfold SDP_MAX_ATTRS in Hc. unfold add_attr, add_d_attr, on_cur. destruct HR as (H1 & H2 & H3 & H4 & H5 & H6 & H7 & H8 & H9 & H10 & H11 & H12).
  unfold all_attrs, all_bws, all_fmts in H10, H11, H12, Hc.
  destruct cur_cases as [(Ec & E1 & E2)|(l & md & dl & dm & E1 & E2 & Ec & El & HL & HM)].
  - rewrite Ec. unfold desc_reads, all_attrs, all_bws, all_fmts. rewrite E2 in *. cbn in H10, H11, H12, Hc |- *. rewrite app_nil_r in *. rewrite E1.
    unfold count in *. rewrite H8, u16_small, length_app by lia. cbn [length]. split_and!; try done; try lia; rewrite ?app_nil_r; try done. apply Forall2_app; [done|by constructor].
  - rewrite Ec, El. cbv zeta. unfold desc_reads, all_attrs, all_bws, all_fmts. cbn [sm_origin sm_name sm_info sm_uri sm_conn sm_time sm_bw_count sm_attr_count sm_media sm_attrs sm_fmts sm_bws].
    rewrite (set_cur_media msg l md _ E1). cbn [set_cur set_media sm_origin sm_name sm_info sm_uri sm_conn sm_time sm_bw_count sm_attr_count sm_attrs sm_fmts sm_bws].
    rewrite E2, removelast_last in *. cbn [d_origin d_name d_info d_uri d_conn d_time d_bws d_attrs d_media]. rewrite bind_snoc in H10. rewrite bind_snoc in H11. rewrite bind_snoc in H12. rewrite bind_snoc in Hc. rewrite !bind_snoc. cbn [dm_attrs dm_bws dm_fmts].
    split_and!; try done.
    + apply Forall2_app; [done|]. constructor; [|done]. destruct HM as (M1 & M2 & M3 & M4 & M5 & M6 & M7 & M8 & M9 & M10 & M11). unfold media_reads. cbn.
      rewrite M11. unfold count in *. rewrite !length_app in Hc. rewrite u16_small by lia. rewrite length_app. cbn [length]. split_and!; try done; lia.
    + rewrite !app_assoc in *. apply Forall2_app; [done|by constructor].
Qed.
Lemma bw_add_reads b x : bw_reads m b x → count (all_bws d) < SDP_MAX_BWS → desc_reads m (add_bw b msg) (apply (CBw (fst x) (snd x)) d).
Proof using HR.
  intros Ha Hc. unfold SDP_MAX_BWS in Hc. cbn [apply]. unfold add_bw, on_cur. destruct HR as (H1 & H2 & H3 & H4 & H5 & H6 & H7 & H8 & H9 & H10 & H11 & H12).
  unfold all_attrs, all_bws, all_fmts in H10, H11, H12, Hc. rewrite <-(surjective_pairing x).
  destruct cur_cases as [(Ec & E1 & E2)|(l & md & dl & dm & E1 & E2 & Ec & El & HL & HM)].
  - rewrite Ec. unfold desc_reads, all_attrs, all_bws, all_fmts. rewrite E2 in *. cbn in H10, H11, H12, Hc |- *. rewrite app_nil_r in *. rewrite E1.
    unfold count in *. rewrite H7, u16_small, length_app by lia. cbn [length]. split_and!; try done; try lia; rewrite ?app_nil_r; try done. apply Forall2_app; [done|by constructor].
  - rewrite Ec, El. cbv zeta. unfold desc_reads, all_attrs, all_bws, all_fmts. cbn [sm_origin sm_name sm_info sm_uri sm_conn sm_time sm_bw_count sm_attr_count sm_media sm_attrs sm_fmts sm_bws].
    rewrite (set_cur_media msg l md _ E1). cbn [set_cur set_media sm_origin sm_name sm_info sm_uri sm_conn sm_time sm_bw_count sm_attr_count sm_attrs sm_fmts sm_bws].
    rewrite E2, removelast_last in *. cbn [d_origin d_name d_info d_uri d_conn d_time d_bws d_attrs d_media]. rewrite bind_snoc in H10. rewrite bind_snoc in H11. rewrite bind_snoc in H12. rewrite bind_snoc in Hc. rewrite !bind_snoc. cbn [dm_attrs dm_bws dm_fmts].
    split_and!; try done.
    + apply Forall2_app; [done|]. constructor; [|done]. destruct HM as (M1 & M2 & M3 & M4 & M5 & M6 & M7 & M8 & M9 & M10 & M11). unfold media_reads. cbn.
      rewrite M10. unfold count in *. rewrite !length_app in Hc. rewrite u16_small by lia. rewrite length_app. cbn [length]. split_and!; try done; lia.
    + rewrite !app_assoc in *. apply Forall2_app; [done|by constructor].
Qed.
Lemma media_add_reads md l type port nports proto ts : media_reads m md (DMedia type port (if 1 <? nports then nports else 1) proto ts None None [] []) →
  Forall2 (reads m) l ts → desc_reads m (add_media md (sm_fmts msg ++ l) msg) (add_d_media type port nports proto ts d).
Proof using HR.
  intros HM Hl. destruct HR as (H1 & H2 & H3 & H4 & H5 & H6 & H7 & H8 & H9 & H10 & H11 & H12). unfold desc_reads, all_attrs, all_bws, all_fmts, add_media, add_d_media in *.
  cbn [sm_origin sm_name sm_info sm_uri sm_conn sm_time sm_bw_count sm_attr_count sm_media sm_attrs sm_fmts sm_bws d_origin d_name d_info d_uri d_conn d_time d_bws d_attrs d_media].
  rewrite !bind_snoc. cbn [dm_attrs dm_bws dm_fmts]. rewrite !app_nil_r. split_and!; try done; apply Forall2_app; try done. by constructor.
Qed.
End updates.

(** ** The pools grow with the calls *)

Lemma on_cur_cases f g d : (d_media d = [] ∧ on_cur f g d = g d) ∨
  (∃ dl dm, d_media d = dl ++ [dm] ∧
     on_cur f g d = Desc (d_origin d) (d_name d) (d_info d) (d_uri d) (d_conn d) (d_time d) (d_bws d) (d_attrs d) (dl ++ [f dm])).
Proof.
  unfold on_cur. destruct (last (d_media d)) as [dm|] eqn:E.
  - apply last_Some in E as [dl E]. right. exists dl, dm. split; [done|]. by rewrite E, removelast_last.
  - apply last_None in E. by left.
Qed.
Lemma all_attrs_add x d : all_attrs (add_d_attr x d) = all_attrs d ++ [x] ∧ all_bws (add_d_attr x d) = all_bws d ∧
  all_fmts (add_d_attr x d) = all_fmts d ∧ length (d_media (add_d_attr x d)) = length (d_media d).
Proof.
  unfold add_d_attr, all_attrs, all_bws, all_fmts. match goal with |- context [on_cur ?f ?g d] => destruct (on_cur_cases f g d) as [[E ->]|(dl & dm & E & ->)] end; cbn [d_attrs d_bws d_media].
  - rewrite E. cbn. by rewrite !app_nil_r.
  - rewrite E, !bind_snoc, !length_app. cbn [dm_attrs dm_bws dm_fmts length]. by rewrite !app_assoc.
Qed.
Lemma all_bws_add t v d : all_attrs (apply (CBw t v) d) = all_attrs d ∧ all_bws (apply (CBw t v) d) = all_bws d ++ [(t, v)] ∧
  all_fmts (apply (CBw t v) d) = all_fmts d ∧ length (d_media (apply (CBw t v) d)) = length (d_media d).
Proof.
  cbn [apply]. unfold all_attrs, all_bws, all_fmts. match goal with |- context [on_cur ?f ?g d] => destruct (on_cur_cases f g d) as [[E ->]|(dl & dm & E & ->)] end; cbn [d_attrs d_bws d_media].
  - rewrite E. cbn. by rewrite !app_nil_r.
  - rewrite E, !bind_snoc, !length_app. cbn [dm_attrs dm_bws dm_fmts length]. by rewrite !app_assoc.
Qed.
Lemma all_media_add t po np pr ts d : all_attrs (add_d_media t po np pr ts d) = all_attrs d ∧ all_bws (add_d_media t po np pr ts d) = all_bws d ∧
  all_fmts (add_d_media t po np pr ts d) = all_fmts d ++ ts ∧ length (d_media (add_d_media t po np pr ts d)) = S (length (d_media d)).
Proof.
  unfold add_d_media, all_attrs, all_bws, all_fmts. cbn [d_attrs d_bws d_media]. rewrite !bind_snoc, length_app. cbn [dm_attrs dm_bws dm_fmts length].
  rewrite !app_nil_r. split_and!; done || lia.
Qed.
(** The other calls leave the pools alone. *)
Lemma all_same c d : match c with CBw _ _ | CMedia _ _ _ _ _ | CMediaName _ _ _ _ _ | CAttr _ _ | CAttrName _ _ => True
  | _ => all_attrs (apply c d) = all_attrs d ∧ all_bws (apply c d) = all_bws d ∧ all_fmts (apply c d) = all_fmts d ∧ length (d_media (apply c d)) = length (d_media d) end.
Proof.
  destruct c as [| |t a|t v|a b|t po np pr ts|t po np pr ts|id v|n v|t v]; cbn [apply]; try done.
  - unfold all_attrs, all_bws, all_fmts. match goal with |- context [on_cur ?f ?g d] => destruct (on_cur_cases f g d) as [[E ->]|(dl & dm & E & ->)] end; cbn [d_attrs d_bws d_media]; [done|].
    rewrite E, !bind_snoc, !length_app. done.
  - destruct (t =? 105); [|by destruct (t =? 117)].
    unfold all_attrs, all_bws, all_fmts. match goal with |- context [on_cur ?f ?g d] => destruct (on_cur_cases f g d) as [[E ->]|(dl & dm & E & ->)] end; cbn [d_attrs d_bws d_media]; [done|].
    rewrite E, !bind_snoc, !length_app. done.
Qed.
Lemma fits_apply c d : fits (apply c d) → fits d ∧
  match c with
  | CBw _ _ => count (all_bws d) < SDP_MAX_BWS
  | CMedia _ _ _ _ ts | CMediaName _ _ _ _ ts => count (all_fmts d) + count ts <= SDP_MAX_FMTS ∧ count (d_media d) < SDP_MAX_MEDIA
  | CAttr _ _ | CAttrName _ _ => count (all_attrs d) < SDP_MAX_ATTRS
  | _ => True
  end.
Proof.
  unfold fits, count. pose proof (all_same c d) as Hs.
  destruct c as [| |t a|t v|a b|t po np pr ts|t po np pr ts|id v|n v|t v]; cbn [apply] in *;
    repeat match goal with
    | H : _ ∧ _ ∧ _ ∧ _ = _ |- _ => destruct H as (-> & -> & -> & ->)
    end; try tauto.
  all: try (destruct (all_bws_add t v d) as (H1 & H2 & H3 & H4); cbn [apply] in *; rewrite H1, H2, H3, H4, length_app; cbn [length]; lia).
  all: try (destruct (all_media_add (sdp_mtype_name t) po np (sdp_proto_name pr) ts d) as (-> & -> & -> & ->); rewrite length_app; lia).
  all: try (destruct (all_media_add t po np pr ts d) as (-> & -> & -> & ->); rewrite length_app; lia).
  all: try (destruct (all_attrs_add (sdp_attr_name id, v) d) as (-> & -> & -> & ->); rewrite length_app; cbn [length]; lia).
  all: destruct (all_attrs_add (n, v) d) as (-> & -> & -> & ->); rewrite length_app; cbn [length]; lia.
Qed.
Lemma fits_run cs : ∀ d, fits (foldl (λ d c, apply c d) d cs) → fits d.
Proof. induction cs as [|c cs IH]; intros d H; [done|]. cbn [foldl] in H. apply IH in H. by apply fits_apply in H as [? _]. Qed.

(** ** One line *)

Lemma count_Forall2 {A B} (R : A → B → Prop) l k : Forall2 R l k → count l = count k.
Proof. intros H. unfold count. by rewrite (Forall2_length _ _ _ H). Qed.
Lemma bw_line_text m v e msg d t x : mlen m <= INT_MAX → t ≠ [] → free [58; 10] t → u64_ok x → holds m v (t ++ [58] ++ dec64 x) → e = v + mlen (t ++ [58] ++ dec64 x) →
  desc_reads m msg d → count (all_bws d) < SDP_MAX_BWS → ∃ msg', bw_line m v e msg = Ok (inr msg') ∧ desc_reads m msg' (apply (CBw t x) d).
Proof.
  intros Hm Hne Hf Hx H He HR Hc. unfold bw_line. pose proof (mlen_nonneg (dec64 x)). pose proof (mlen_ne t Hne).
  assert (Le : e = v + mlen t + 1 + mlen (dec64 x)) by (rewrite He, !mlen_app; change (mlen [58]) with 1; lia).
  rewrite (memchr_text m v t 58 (dec64 x)); [|done|apply free_ne, (free_sub [58; 10]); [set_solver|done]|lia]. bstep.
  rewrite (proj2 (Z.eqb_neq _ v)) by lia. pose proof HR as (_ & _ & _ & _ & _ & _ & _ & _ & _ & _ & HB & _). apply count_Forall2 in HB. rewrite HB.
  rewrite (proj2 (Z.leb_gt _ _)) by lia. apply holds_app in H as [HT H]. apply (holds_app m _ [58]) in H as [_ HD]. change (mlen [58]) with 1 in HD.
  destruct (holds_pos _ _ _ HD). replace (e - (v + mlen t) - 1) with (mlen (dec64 x)) by lia. rewrite sdp_parse_u64_spec by lia. destruct HD as (_ & _ & ->).
  destruct (dec64_spec x Hx) as (_ & _ & _ & ->). bstep. eexists. split; [done|]. apply (bw_add_reads m msg d HR _ (t, x)); [|done].
  split; [|done]. by apply sub_reads.
Qed.
Lemma time_line_text m v e msg d a b : mlen m <= INT_MAX → u64_ok a → u64_ok b → holds m v (joined [dec64 a; dec64 b]) → e = v + mlen (joined [dec64 a; dec64 b]) →
  desc_reads m msg d → ∃ msg', time_line m v e msg = Ok (inr msg') ∧ desc_reads m msg' (apply (CTime a b) d).
Proof.
  intros Hm Ha Hb H He HR. unfold time_line. pose proof HR as (H1 & H2 & H3 & H4 & H5 & H6 & H7). cbn [apply]. rewrite H6. destruct (d_time d) as [t|] eqn:Et; cbn [is_Some_b first_wins].
  { eexists. split; [done|]. unfold desc_reads. cbn. rewrite H6. split_and!; try done; apply H7. }
  destruct (field_step m Hm v e [] _ _ ltac:(constructor) (dec64_word a Ha) H He) as (q1 & -> & F1 & F2 & E2). bstep. cbn [snd].
  destruct (field_step m Hm q1 e _ _ _ (gap_ws _) (dec64_word b Hb) F2 E2) as (q2 & -> & F3 & F4 & E4). bstep. cbn [fst s_len].
  rewrite !mlen_pos by (apply dec64_word; done). cbn [orb]. rewrite str_u64_dec by done. bstep. rewrite str_u64_dec by done. bstep.
  eexists. split; [done|]. unfold desc_reads. cbn. split_and!; try done; apply H7.
Qed.
Lemma attr_line_text m v e msg d name val : bytes_ok m → mlen m <= INT_MAX → name ≠ [] → free [58] name → starts_ok val →
  holds m v (attr_txt name val) → e = v + mlen (attr_txt name val) → desc_reads m msg d → count (all_attrs d) < SDP_MAX_ATTRS →
  ∃ msg', attr_line m v e msg = Ok (inr msg') ∧ desc_reads m msg' (add_d_attr (name, val) d).
Proof.
  intros Hb Hm Hne Hf Hv H He HR Hc. unfold attr_line. pose proof HR as (_ & _ & _ & _ & _ & _ & _ & _ & _ & HA & _). apply count_Forall2 in HA. rewrite HA.
  rewrite (proj2 (Z.leb_gt _ _)) by lia. unfold attr_txt in *. pose proof (mlen_nonneg name). pose proof (mlen_nonneg val).
  pose proof (holds_app _ _ _ _ H) as [HN HV]. destruct (holds_pos _ _ _ HN).
  assert (Hname : sdp_attr_from (Some (m, v)) (mlen name) = Ok (attr_ref name)).
  { rewrite sdp_attr_from_eq by (done || lia). by destruct HN as (_ & _ & ->). }
  destruct val as [|c val].
  - rewrite app_nil_r in *. rewrite (memchr_text_none m v name); [|done|by apply free_ne|lia]. bstep. replace (e - v) with (mlen name) by lia. rewrite Hname. bstep.
    eexists. split; [done|]. apply attr_add_reads; [done| |done]. split_and!; [done| |done]. by apply sub_reads.
  - rewrite (memchr_text m v name 58 (c :: val)); [|done|by apply free_ne|rewrite He, !mlen_app; change (mlen [58]) with 1; lia]. bstep. cbv iota.
    replace (v + mlen name - v) with (mlen name) by lia. rewrite Hname. bstep. apply (holds_app m _ [58]) in HV as [_ HV]. change (mlen [58]) with 1 in HV.
    assert (Ee : e = v + mlen name + 1 + mlen (c :: val)) by (rewrite He, !mlen_app; change (mlen [58]) with 1; lia).
    rewrite (skip_text sdp_is_ws m (v + mlen name + 1) e [] (c :: val) HV Ee); [|constructor|done]. rewrite mlen_nil, Z.add_0_r. bstep.
    eexists. split; [done|]. apply attr_add_reads; [done| |done]. split_and!; [done|by apply sub_reads|]. by apply sub_reads.
Qed.
Lemma media_line_text m v e msg d type port nports proto ts : mlen m <= INT_MAX → word type → word proto → u16_ok port → u16_ok nports → Forall tok ts →
  holds m v (media_txt type port nports proto ts) → e = v + mlen (media_txt type port nports proto ts) → desc_reads m msg d →
  count (all_fmts d) + count ts <= SDP_MAX_FMTS → count (d_media d) < SDP_MAX_MEDIA →
  ∃ msg', media_line m v e msg = Ok (inr msg') ∧ desc_reads m msg' (add_d_media type port nports proto ts d).
Proof.
  intros Hm Ht Hpr Hp Hn HF H He HR Hc Hcm. rewrite media_text_joined in H, He by done. unfold media_line.
  pose proof HR as (_ & _ & _ & _ & _ & _ & _ & _ & HM & _ & _ & HFm). apply count_Forall2 in HM, HFm. rewrite HM, (proj2 (Z.leb_gt _ _)) by lia.
  destruct (media_text m Hm v e (count (sm_bws msg)) (count (sm_attrs msg)) (sm_fmts msg) type port nports proto ts) as (md & l & -> & Hl & Hmd); try done.
  { eapply Forall_impl; [exact HF|]. apply tok_word. }
  { rewrite HFm. done. }
  bstep. eexists. split; [done|]. by apply media_add_reads.
Qed.

Lemma sdp_line_back m v e c msg d : bytes_ok m → mlen m <= INT_MAX → call_ok c → holds m v (line_val c) → e = v + mlen (line_val c) →
  desc_reads m msg d → fits (apply c d) → ∃ msg', sdp_line m (line_type c) v e msg = Ok (inr msg') ∧ desc_reads m msg' (apply c d).
Proof.
  intros Hb Hm Hc H He HR Hfit. apply fits_apply in Hfit as [_ Hfit]. destruct table_names as (HA & HM & HP). unfold sdp_line.
  destruct c as [user id version addrtype addr|name|addrtype addr|bwtype value|start stop|type port nports proto fmts|type port nports proto fmts|id val|name val|type val];
    cbn [line_type line_val call_ok] in *; cbn [Z.eqb Pos.eqb]; cbv iota.
  - destruct Hc as (Hu & Hid & Hv & Ht & Ha).
    destruct (origin_text m Hm v e (or_dash user) id version addrtype addr) as (o & -> & Ho); try done; try by apply tok_word.
    bstep. eexists. split; [done|]. destruct HR as (_ & HR). by split.
  - eexists. split; [done|]. destruct HR as (H1 & _ & H2). split; [done|]. split; [|done]. by apply sub_reads.
  - destruct Hc as (Ht & Ha). unfold conn_line. pose proof (cur_conn_reads m msg d HR) as Ho. destruct (cur_conn msg) as [c|] eqn:Ec; cbn [is_Some_b].
    { eexists. split; [done|]. cbn [apply]. match goal with |- context [on_cur ?f ?g d] => destruct (on_cur_cases f g d) as [[E ->]|(dl & dm & E & ->)] end; rewrite E in Ho.
      - cbn [last] in Ho. destruct (d_conn d) as [x|] eqn:Ed; [|done]. cbn [first_wins]. rewrite <-Ed. by destruct d.
      - rewrite last_snoc in Ho. destruct (dm_conn dm) as [x|] eqn:Ed; [|done]. cbn [first_wins]. rewrite <-Ed. destruct dm, d; cbn in *. by rewrite <-E. }
    destruct (conn_text m Hm v e addrtype addr) as (c & -> & Hcr); try done; try by apply tok_word. bstep. eexists. split; [done|]. by apply (conn_set_reads m msg d HR c (addrtype, addr)).
  - destruct Hc as (H1 & H2 & H3). by apply bw_line_text.
  - destruct Hc as (H1 & H2). by apply time_line_text.
  - destruct Hc as (H1 & H2 & H3 & H4 & H5). destruct Hfit as [F1 F2]. apply media_line_text; try done; apply tok_word; [by apply HM|by apply HP].
  - destruct Hc as (H1 & H2 & H3 & H4 & H5). destruct Hfit as [F1 F2]. apply media_line_text; try done; by apply tok_word.
  - destruct Hc as (H1 & [H2 _] & H3). apply attr_line_text; try done; [by apply HA|].
    assert (F : Forall (λ id, free [58] (sdp_attr_name id)) (ids_of k_attr)) by (unfold free; apply (bool_decide_unpack _); vm_compute; exact I).
    apply (proj1 (Forall_forall _ _) F). apply list_elem_of_In, in_map_iff. exists (Z.to_nat id). unfold SDP_A_MAX in H1. split; [lia|]. apply in_seq. cbn. lia.
  - destruct Hc as (H1 & H2 & H3 & [H4 _] & H5). apply attr_line_text; try done. apply (free_sub [58; 10]); [set_solver|done].
  - destruct Hc as (H1 & H2 & H3).
    assert (N : ∀ k, k ∈ [118; 111; 115; 99; 98; 116; 109; 97] → (type =? k) = false) by (intros k Hk; apply Z.eqb_neq; intros ->; done).
    rewrite (N 118), (N 111), (N 115), (N 99), (N 98), (N 116), (N 109), (N 97) by (apply (bool_decide_unpack _); vm_compute; exact I).
    cbn [apply]. destruct (Z.eqb_spec type 105) as [->|E1].
    { eexists. split; [done|]. pose proof (title_reads m msg d HR (sub_str v e) val) as T. cbn [apply] in T. apply T. by apply sub_reads. }
    destruct (Z.eqb_spec type 117) as [->|E2]; [|by eexists]. eexists. split; [done|]. destruct HR as (R1 & R2 & R3 & _ & R5).
    split; [done|]. split; [done|]. split; [done|]. split; [|done]. by apply sub_reads.
Qed.

(** ** The whole text *)

Lemma ends_app a b : b ≠ [] → ends_ok b → ends_ok (a ++ b).
Proof. intros Hb. destruct b as [|x b _] using rev_ind; [done|]. unfold ends_ok. by rewrite app_assoc, !last_snoc. Qed.
Lemma tok_ends t : tok t → ends_ok t.
Proof. intros [_ Hf]. unfold ends_ok. destruct (last t) as [c|] eqn:El; [|done]. eapply last_free in El; [|exact Hf]. apply sdp_ws_free. set_solver. Qed.
Lemma tok_text t : tok t → text_ok t.
Proof. intros Ht. split; [|by apply tok_ends]. apply (free_sub [32; 9; 10]); [set_solver|apply Ht]. Qed.
Lemma joined_text ts : Forall tok ts → text_ok (joined ts).
Proof.
  induction 1 as [|t ts Ht HF IH]; [split; [constructor|done]|]. rewrite joined_cons. destruct (tok_text t Ht) as [H1 H2], IH as [H3 H4]. split.
  - apply Forall_app. split; [done|]. apply Forall_app. split; [|done]. destruct ts; repeat constructor. set_solver.
  - destruct HF as [|t' ts [Hne _] _]; [by rewrite app_nil_r|]. apply ends_app; [done|]. apply ends_app; [|done]. rewrite joined_cons. intros [E _]%app_nil. done.
Qed.
Lemma dec64_tok v : u64_ok v → tok (dec64 v).
Proof. intros Hv. split; [by apply dec64_word|]. apply dec64_free; [done|by repeat constructor]. Qed.
Lemma ports_tok port nports : u16_ok port → u16_ok nports → tok (ports_txt port nports).
Proof.
  intros Hp Hn. split; [by apply ports_word|]. unfold u16_ok, UINT16_MAX in *. unfold ports_txt. apply Forall_app.
  split; [apply dec64_tok; unfold u64_ok, UINT64_MAX; lia|]. destruct (1 <? nports); [|constructor].
  apply Forall_app. split; [repeat constructor; set_solver|]. apply dec64_tok. unfold u64_ok, UINT64_MAX. lia.
Qed.
Lemma dash_text name : text_ok name → text_ok (or_dash name).
Proof. destruct name; [|done]. intros _. split; [repeat constructor; set_solver|done]. Qed.
Lemma attr_text name val : free [10] name → (val = [] → ends_ok name) → text_ok val → text_ok (attr_txt name val).
Proof.
  intros Hn He [Hv1 Hv2]. unfold attr_txt. destruct val as [|c val]; [rewrite app_nil_r; by split; auto|]. split.
  - apply Forall_app. split; [done|]. apply Forall_app. split; [repeat constructor; set_solver|done].
  - apply ends_app; [done|]. by apply ends_app.
Qed.
Lemma line_val_text c : call_ok c → text_ok (line_val c).
Proof.
  destruct table_names as (_ & HM & HP).
  destruct c as [user id version addrtype addr|name|addrtype addr|bwtype value|start stop|type port nports proto fmts|type port nports proto fmts|id val|name val|type val];
    cbn [call_ok line_val]; intros Hc.
  - destruct Hc as (Hu & Hid & Hv & Ht & Ha). apply (joined_text [or_dash user; dec64 id; dec64 version; txt "IN"; addrtype; addr]).
    repeat constructor; try apply Hu; try apply Ht; try apply Ha; try (by apply dec64_tok); done || set_solver.
  - by apply dash_text.
  - destruct Hc as (Ht & Ha). apply (joined_text [txt "IN"; addrtype; addr]). repeat constructor; try apply Ht; try apply Ha; done || set_solver.
  - destruct Hc as (_ & Hf & Hv). destruct (tok_text _ (dec64_tok value Hv)) as [H1 H2]. split.
    + apply Forall_app. split; [apply (free_sub [58; 10]); [set_solver|done]|]. apply Forall_app. split; [repeat constructor; set_solver|done].
    + apply ends_app; [done|]. apply ends_app; [by apply dec64_tok|done].
  - destruct Hc as (Ha & Hb). apply (joined_text [dec64 start; dec64 stop]). repeat constructor; by apply dec64_tok.
  - destruct Hc as (Ht & Hp & Hn & Hpr & HF). rewrite media_text_joined by done. apply joined_text. repeat constructor; try apply HM; try apply HP; try (by apply ports_tok); done.
  - destruct Hc as (Ht & Hp & Hn & Hpr & HF). rewrite media_text_joined by done. apply joined_text. repeat constructor; try apply Ht; try apply Hpr; try (by apply ports_tok); done.
  - destruct Hc as (Hid & Hv & _).
    assert (F : Forall (λ id, tok (sdp_attr_name id)) (ids_of k_attr)) by (unfold tok, free; apply (bool_decide_unpack _); vm_compute; exact I).
    assert (Hn : tok (sdp_attr_name id)).
    { apply (proj1 (Forall_forall _ _) F). apply list_elem_of_In, in_map_iff. exists (Z.to_nat id). unfold SDP_A_MAX in Hid. split; [lia|]. apply in_seq. cbn. lia. }
    apply attr_text; [apply (tok_text _ Hn)|intros _; by apply tok_ends|done].
  - destruct Hc as (_ & Hf & He & Hv & _). apply attr_text; [apply (free_sub [58; 10]); [set_solver|done]|done|done].
  - apply Hc.
Qed.
Lemma line_type_ok c : call_ok c → 97 <= line_type c <= 122.
Proof. destruct c; cbn [line_type call_ok]; try lia. Qed.

Lemma sdp_lines_back m e : bytes_ok m → mlen m <= INT_MAX → ∀ cs fuel p msg d, Forall call_ok cs → holds m p (calls_txt cs) → e = p + mlen (calls_txt cs) →
  desc_reads m msg d → fits (foldl (λ d c, apply c d) d cs) → (length cs < fuel)%nat →
  ∃ msg', sdp_lines fuel m p e true msg = Ok (inr msg') ∧ desc_reads m msg' (foldl (λ d c, apply c d) d cs).
Proof.
  intros Hb Hm. induction cs as [|c cs IH]; intros fuel p msg d HF H He HR Hfit Hf; (destruct fuel as [|fuel]; [lia|]); cbn [sdp_lines].
  { change (calls_txt []) with (@nil Z) in He. rewrite mlen_nil in He. rewrite (proj2 (Z.leb_le e p)) by lia. by eexists. }
  apply Forall_cons in HF as [Hc HF]. destruct (line_val_text c Hc) as [Hlf Hends]. pose proof (line_type_ok c Hc).
  assert (Et : calls_txt (c :: cs) = (call_line c ++ CRLF) ++ calls_txt cs) by done. rewrite Et in H, He. apply holds_app in H as [HL HR'].
  assert (Ll : mlen (call_line c) = 2 + mlen (line_val c)) by (unfold call_line; rewrite mlen_app; done). pose proof (mlen_nonneg (line_val c)). pose proof (mlen_nonneg (calls_txt cs)).
  assert (Lc : mlen (call_line c ++ CRLF) = mlen (call_line c) + 2) by (rewrite mlen_app; done). rewrite mlen_app, Lc in He. rewrite Lc in HR'.
  destruct (holds_pos _ _ _ HR'). destruct (holds_pos _ _ _ HL) as [Hp0 _]. rewrite (proj2 (Z.leb_gt e p)) by lia.
  assert (Hno : no_lf (call_line c)).
  { unfold call_line, no_lf. repeat (constructor; [unfold LF; lia|]). apply free_ne. done. }
  rewrite (sdp_line_end_crlf m p e (call_line c) HL Hno) by lia. bstep. rewrite (proj2 (Z.eqb_neq _ p)), (proj2 (Z.ltb_ge _ 2)) by lia.
  apply holds_app in HL as [HL _]. unfold call_line in HL. pose proof (holds_app _ _ _ _ HL) as [HT HV]. change (mlen [line_type c; 61]) with 2 in HV.
  assert (G0 : get m p = line_type c) by (rewrite <-(Z.add_0_r p); by rewrite (text_get m p _ 0 HT)).
  assert (G1 : get m (p + 1) = 61) by (by rewrite (text_get m p _ 1 HT)).
  rewrite (rd_Ok m (p + 1)), G1 by lia. bstep. change (negb (61 =? 61)) with false. cbv iota. rewrite (rd_Ok m p), G0 by lia. bstep. cbv iota beta zeta.
  rewrite (trim_text sdp_is_ws m (p + 2) (p + mlen (call_line c)) (line_val c) []); [|by rewrite app_nil_r|rewrite app_nil_r; lia|constructor|exact Hends].
  bstep. cbn [negb foldl] in *. pose proof (fits_run cs _ Hfit) as Hfc.
  destruct (sdp_line_back m (p + 2) (p + 2 + mlen (line_val c)) c msg d Hb Hm Hc HV eq_refl HR Hfc) as (msg' & -> & HR2). bstep.
  apply IH; try done; [|lia|cbn [length] in Hf; lia]. by rewrite <-Z.add_assoc.
Qed.

(** ** Descriptions *)

(** The calls build the text, or report the overflow, and nothing else. *)
Lemma write_desc_spec buf cap cs : 0 <= cap <= mlen buf → mlen buf <= INT_MAX → Forall call_ok cs →
  ∃ w, write_desc buf cap cs = Ok (w, if mlen (desc_txt cs) <=? cap then mlen (desc_txt cs) else SDP_E_OVERFLOW) ∧
    (mlen (desc_txt cs) <= cap → w_buf w = Some (splice buf 0 (desc_txt cs))).
Proof.
  intros Hcap Hi HF. assert (Hc : 0 <= cap <= INT_MAX) by lia. assert (Hle : cap <= mlen buf) by lia.
  assert (H0 : wrote buf cap (sdp_wbuf_init (Some buf) cap) []).
  { unfold wrote, sdp_wbuf_init. cbn [w_cap w_overflow w_off w_buf is_null]. rewrite (proj2 (Z.ltb_ge INT_MAX cap)) by lia.
    rewrite splice_nil, mlen_nil. split_and!; done || lia. }
  unfold write_desc, sdp_put_version.
  destruct (sdp_put_txt_wrote buf cap Hc Hle _ _ (txt "v=0" ++ CRLF) H0) as (w1 & -> & H1). bstep. unfold sdp_done. cbn [fst].
  destruct (put_calls_wrote buf cap Hc Hle cs HF w1 _ H1) as (w2 & -> & H2). bstep. exists w2.
  assert (Et : ([] ++ txt "v=0" ++ CRLF) ++ calls_txt cs = desc_txt cs) by (unfold desc_txt; by rewrite app_nil_l, <-app_assoc). rewrite Et in H2.
  destruct H2 as [_ H2]. unfold sdp_end. destruct (w_overflow w2).
  - rewrite (proj2 (Z.leb_gt _ _)) by done. split; [done|lia].
  - destruct H2 as (Hl & -> & ->). by rewrite (proj2 (Z.leb_le _ _)) by done.
Qed.
Lemma calls_txt_long cs : Z.of_nat (length cs) <= mlen (calls_txt cs).
Proof.
  induction cs as [|c cs IH]; [done|]. change (calls_txt (c :: cs)) with ((call_line c ++ CRLF) ++ calls_txt cs).
  rewrite !mlen_app. change (mlen CRLF) with 2. pose proof (mlen_nonneg (call_line c)). cbn [length]. lia.
Qed.
(** The octets of a written description, parsed. *)
Lemma sdp_parse_desc m cs : bytes_ok m → mlen m <= INT_MAX → holds m 0 (desc_txt cs) → Forall call_ok cs → fits (described cs) →
  ∃ msg, sdp_msg_parse true (Some m) (mlen (desc_txt cs)) = Ok (inr msg) ∧ desc_reads m msg (described cs).
Proof.
  intros Hb Hi H HF Hfit. destruct (holds_pos _ _ _ H) as [_ Hle]. rewrite Z.add_0_l in Hle. unfold sdp_msg_parse. cbn [negb orb].
  rewrite (proj2 (Z.ltb_ge INT_MAX _)) by lia. set (e := mlen (desc_txt cs)) in *.
  unfold desc_txt in H. rewrite app_assoc in H. apply holds_app in H as [HV HC]. change (mlen (txt "v=0" ++ CRLF)) with 5 in HC. rewrite Z.add_0_l in HC.
  assert (Le : e = 5 + mlen (calls_txt cs)) by (unfold e, desc_txt; rewrite app_assoc, mlen_app; done).
  pose proof (mlen_nonneg (calls_txt cs)). pose proof (calls_txt_long cs). cbn [sdp_lines]. rewrite (proj2 (Z.leb_gt e 0)) by lia.
  assert (Hno : no_lf (txt "v=0")) by (apply (bool_decide_unpack _); vm_compute; exact I).
  rewrite (sdp_line_end_crlf m 0 e (txt "v=0") HV Hno) by (change (mlen (txt "v=0")) with 3; lia). bstep. change (0 + mlen (txt "v=0")) with 3. cbv iota beta zeta.
  change (3 =? 0) with false. change (3 - 0 <? 2) with false. change (0 + 1) with 1. change (0 + 2) with 2. change (3 + 2) with 5.
  apply holds_app in HV as [HV _].
  assert (G : get m 0 = 118 ∧ get m 1 = 61 ∧ get m 2 = 48).
  { split_and!; [exact (text_get m 0 _ 0 HV ltac:(done))|exact (text_get m 0 _ 1 HV ltac:(done))|exact (text_get m 0 _ 2 HV ltac:(done))]. }
  destruct G as (G0 & G1 & G2). rewrite (rd_Ok m 1), G1 by lia. bstep. change (negb (61 =? 61)) with false. cbv iota. rewrite (rd_Ok m 0), G0 by lia. bstep.
  rewrite (trim_text sdp_is_ws m 2 3 (txt "0") []); [|rewrite app_nil_r; by apply (holds_app m 0 (txt "v=") (txt "0"))|done|constructor|done].
  bstep. change (mlen (txt "0")) with 1. cbn [negb]. rewrite (rd_Ok m 2), G2 by lia. bstep.
  change (negb (118 =? 118)) with false. change (negb (2 + 1 - 2 =? 1)) with false. change (negb (48 =? 48)) with false. cbv iota.
  apply (sdp_lines_back m e Hb Hi cs (Z.to_nat e) 5 sdp_empty no_desc); [done|done|done| |done|lia].
  unfold desc_reads, sdp_empty, no_desc. cbn. split_and!; done || constructor.
Qed.

(** ** Every section has its own lines *)

(** The entries of a pool a section owns. *)
Definition owned {A} (pool : list A) (r : Z * Z) : list A := take (Z.to_nat (snd r)) (drop (Z.to_nat (fst r)) pool).
(** They are the attributes, bandwidth lines and formats that were written in it. *)
Definition own_lines (m : mem) (msg : sdp_msg) (d : desc) : Prop :=
  Forall2 (attr_reads m) (owned (sm_attrs msg) (0, sm_attr_count msg)) (d_attrs d) ∧
  Forall2 (bw_reads m) (owned (sm_bws msg) (0, sm_bw_count msg)) (d_bws d) ∧
  Forall2 (λ md dm,
    Forall2 (attr_reads m) (owned (sm_attrs msg) (md_attr_off md, md_attr_count md)) (dm_attrs dm) ∧
    Forall2 (bw_reads m) (owned (sm_bws msg) (md_bw_off md, md_bw_count md)) (dm_bws dm) ∧
    Forall2 (reads m) (owned (sm_fmts msg) (md_fmt_off md, md_fmt_count md)) (dm_fmts dm)) (sm_media msg) (d_media d).

Lemma owned_app {A B} (R : A → B → Prop) pool xs ys c : c = count xs → Forall2 R pool (xs ++ ys) →
  Forall2 R (owned pool (0, c)) xs ∧ Forall2 R (drop (Z.to_nat c) pool) ys.
Proof.
  intros -> H. apply Forall2_app_inv_r in H as (l1 & l2 & H1 & H2 & ->). unfold owned, count. cbn [fst snd].
  rewrite Nat2Z.id, <-(Forall2_length _ _ _ H1), drop_0, take_app_length, drop_app_length. done.
Qed.
Lemma owned_tiles {A B} (R : A → B → Prop) pool runs : ∀ xs off e, 0 <= off → tiles off runs e → Forall2 (λ r x, snd r = count x) runs xs →
  Forall2 R (drop (Z.to_nat off) pool) (concat xs) → Forall2 (λ r, Forall2 R (owned pool r)) runs xs.
Proof.
  induction runs as [|[o c] runs IH]; intros xs off e Ho Ht HF HR; [by apply Forall2_nil_inv_l in HF as ->|].
  apply Forall2_cons_inv_l in HF as (x & xs' & E & HF & ->). cbn [snd tiles concat] in *. destruct Ht as (-> & Hc & Ht).
  apply (owned_app R _ _ _ c E) in HR as [H1 H2]. constructor.
  - unfold owned in *. by rewrite drop_0 in H1.
  - rewrite drop_drop in H2. apply (IH xs' (off + c) e); [lia|done..|]. by replace (Z.to_nat (off + c)) with (Z.to_nat off + Z.to_nat c)%nat by lia.
Qed.
Lemma bind_concat {A B} (f : A → list B) l : l ≫= f = concat (f <$> l).
Proof. induction l as [|x l IH]; [done|]. cbn. by rewrite IH. Qed.
Lemma desc_own n m msg d : sdp_ok n msg → desc_reads m msg d → own_lines m msg d.
Proof.
  intros ((Ha0 & Ha & Hb0 & Hb & Hf & _) & _) (_ & _ & _ & _ & _ & _ & Cb & Ca & HM & Ra & Rb & Rf).
  unfold all_attrs, all_bws, all_fmts in *. rewrite bind_concat in Ra. rewrite bind_concat in Rb. rewrite bind_concat in Rf.
  apply (owned_app _ _ _ _ _ Ca) in Ra as [Sa Ra]. apply (owned_app _ _ _ _ _ Cb) in Rb as [Sb Rb]. split_and!; [done..|].
  assert (F : ∀ {B} (run : sdp_media → Z * Z) (g : dmedia → list B), (∀ md dm, media_reads m md dm → snd (run md) = count (g dm)) →
    Forall2 (λ r x, snd r = count x) (run <$> sm_media msg) (g <$> d_media d)).
  { intros B run g Hg. apply Forall2_fmap. eapply Forall2_impl; [exact HM|]. exact Hg. }
  pose proof (owned_tiles _ _ _ _ _ _ Ha0 Ha (F _ attr_run dm_attrs ltac:(by intros md dm H; apply H)) Ra) as Oa.
  pose proof (owned_tiles _ _ _ _ _ _ Hb0 Hb (F _ bw_run dm_bws ltac:(by intros md dm H; apply H)) Rb) as Ob.
  pose proof (owned_tiles _ _ _ _ _ _ (Z.le_refl 0) Hf (F _ fmt_run dm_fmts ltac:(by intros md dm H; apply H)) Rf) as Of.
  assert (L : ∀ {B C} (R : B → C → Prop) pool run g, Forall2 (λ r, Forall2 R (owned pool r)) (run <$> sm_media msg) (g <$> d_media d) →
    ∀ i md dm, sm_media msg !! i = Some md → d_media d !! i = Some dm → Forall2 R (owned pool (run md)) (g dm)).
  { intros B C R pool run g H i md dm E1 E2. apply (Forall2_lookup_lr _ _ _ i _ _ H); rewrite list_lookup_fmap; [by rewrite E1|by rewrite E2]. }
  apply Forall2_same_length_lookup. split; [by apply Forall2_length in HM|]. intros i md dm E1 E2.
  split_and!; [exact (L _ _ _ _ _ _ Oa i md dm E1 E2)|exact (L _ _ _ _ _ _ Ob i md dm E1 E2)|exact (L _ _ _ _ _ _ Of i md dm E1 E2)].
Qed.

(** C22: Written descriptions parse back.  For any sequence of writer calls with fields the
    grammar admits, the writer reports the length of the text, or the overflow exactly when
    the text is longer than the buffer; the parser then accepts the octets, and what it
    returns reads as the description the calls state: the origin, the name, the information
    line, the URI and the first connection and timing lines; the media sections in order with
    their own title, connection, type, ports and protocol; the attributes, bandwidth lines and
    formats in order, and each section's own ones, from its offset in the pools on, are those
    that were written in it. *)
Theorem sdp_description_roundtrip buf cap cs :
  bytes_ok buf → bytes_ok (desc_txt cs) → 0 <= cap <= mlen buf → mlen buf <= INT_MAX → Forall call_ok cs → fits (described cs) →
  ∃ w rc, write_desc buf cap cs = Ok (w, rc) ∧
    if mlen (desc_txt cs) <=? cap then
      rc = mlen (desc_txt cs) ∧
      ∃ m msg, w_buf w = Some m ∧ sdp_msg_parse true (Some m) rc = Ok (inr msg) ∧ desc_reads m msg (described cs) ∧ own_lines m msg (described cs)
    else rc = SDP_E_OVERFLOW.
Proof.
  intros Hb Ht Hcap Hi HF Hfit. destruct (write_desc_spec buf cap cs Hcap Hi HF) as (w & -> & Hw). eexists _, _. split; [done|].
  destruct (Z.leb_spec (mlen (desc_txt cs)) cap); [|done]. split; [done|]. specialize (Hw ltac:(lia)). set (t := desc_txt cs) in *.
  assert (Lm : mlen (splice buf 0 t) = mlen buf) by (apply mlen_splice; lia).
  assert (H0 : holds (splice buf 0 t) 0 t) by (split_and!; [lia|lia|apply slice_splice_same; [done|lia|lia]]).
  destruct (sdp_parse_desc (splice buf 0 t) cs) as (msg & E & R); [by apply bytes_ok_splice|lia|done|done|done|].
  exists (splice buf 0 t), msg. split_and!; [done..|]. apply (desc_own (mlen t)); [|done].
  by apply (parse_ok (splice buf 0 t)); [apply bytes_ok_splice|rewrite Lm; pose proof (mlen_nonneg t); lia|].
Qed.

Definition ex_calls : list call :=
  [COrigin [] 7 1 (txt "IP4") (txt "h"); CName (txt "call"); CConn (txt "IP4") (txt "10.0.0.1"); CTime 0 0; CAttrName (txt "tool") (txt "x");
   CMedia 1 9 1 1 [txt "0"; txt "8"]; CConn (txt "IP4") (txt "10.0.0.2"); CBw (txt "AS") 64; CAttr 1 (txt "8 PCMA/8000"); CLine 105 (txt "voice");
   CMedia 2 5004 1 1 [txt "99"]; CBw (txt "AS") 9; CAttr 1 (txt "99 H264/90000")].
Lemma sdp_description_roundtrip_witness :
  ∃ w rc, write_desc (zeros 300) 300 ex_calls = Ok (w, rc) ∧
    if mlen (desc_txt ex_calls) <=? 300 then
      rc = mlen (desc_txt ex_calls) ∧
      ∃ m msg, w_buf w = Some m ∧ sdp_msg_parse true (Some m) rc = Ok (inr msg) ∧ desc_reads m msg (described ex_calls) ∧ own_lines m msg (described ex_calls)
    else rc = SDP_E_OVERFLOW.
Proof.
  apply (sdp_description_roundtrip (zeros 300) 300 ex_calls).
  - by apply (bool_decide_unpack _); vm_compute.
  - by apply (bool_decide_unpack _); vm_compute.
  - done.
  - done.
  - unfold call_ok, ex_calls, tok, text_ok, free, ends_ok, u64_ok, u16_ok. repeat constructor; try done; try (by apply (bool_decide_unpack _); vm_compute).
  - unfold fits. split_and!; by vm_compute.
Defined.
End SdpBack.
