(* ===== verification/NetLoop.v ===== *)
(** * NetLoop: the event loop

    Models [net/src/loop.c]: the table of file descriptors, the pre-poll hooks,
    the timer heap with its handle table, and one iteration of the dispatcher.

    Array positions ([size_t]) are [nat]; the sentinels [TMR_NOPOS] and
    [TMR_NOSLOT] are [None].  Function and data pointers are integers, 0 for
    NULL.  What the operating system answers (the clock, the allocator, epoll) is
    an argument. *)

From S2P Require Import Prelude.

Module NetLoop.

Definition NET_OK : Z := 0.
Definition NET_ERR : Z := -1.
Definition NET_RD : Z := 1.
Definition NET_WR : Z := 2.
Definition NET_ER : Z := 4.

Definition EPOLLIN : Z := 1.
Definition EPOLLPRI : Z := 2.
Definition EPOLLOUT : Z := 4.
Definition EPOLLERR : Z := 8.
Definition EPOLLHUP : Z := 16.

Definition INT_MAX : Z := 2147483647.
Definition LOOP_BATCH : Z := 64.
Definition LOOP_MAX_MS : Z := 3600000.

(** ** Arrays of structures *)

Definition aget {A} (l : list A) (i : nat) : res A :=
  match l !! i with Some x => Ok x | None => Ub end.
Definition aset {A} (l : list A) (i : nat) (x : A) : res (list A) :=
  if decide (i < length l)%nat then Ok (<[i := x]> l) else Ub.

(** ** State *)

Record fdrec := FdRec { f_cb : Z; f_ud : Z }.
Record tmr := Tmr { t_due : Z; t_slot : nat; t_cb : Z; t_ud : Z }.
Record tmrslot := TmrSlot { s_pos : option nat; s_gen : Z; s_next : option nat }.
Record pre := Pre { p_cb : Z; p_ud : Z }.

(** The capacities of the C structure are the lengths of the arrays. *)
Record net_loop := NetLoop {
  l_stop : bool;
  l_fds : list fdrec;
  l_tmr : list tmr; l_ntmr : nat;
  l_slot : list tmrslot; l_freeslot : option nat;
  l_pre : list pre; l_npre : nat; l_pre_gaps : bool }.

Definition set_stop l x := NetLoop x (l_fds l) (l_tmr l) (l_ntmr l) (l_slot l) (l_freeslot l)
  (l_pre l) (l_npre l) (l_pre_gaps l).
Definition set_fds l x := NetLoop (l_stop l) x (l_tmr l) (l_ntmr l) (l_slot l) (l_freeslot l)
  (l_pre l) (l_npre l) (l_pre_gaps l).
Definition set_tmr l x := NetLoop (l_stop l) (l_fds l) x (l_ntmr l) (l_slot l) (l_freeslot l)
  (l_pre l) (l_npre l) (l_pre_gaps l).
Definition set_ntmr l x := NetLoop (l_stop l) (l_fds l) (l_tmr l) x (l_slot l) (l_freeslot l)
  (l_pre l) (l_npre l) (l_pre_gaps l).
Definition set_slot l x := NetLoop (l_stop l) (l_fds l) (l_tmr l) (l_ntmr l) x (l_freeslot l)
  (l_pre l) (l_npre l) (l_pre_gaps l).
Definition set_freeslot l x := NetLoop (l_stop l) (l_fds l) (l_tmr l) (l_ntmr l) (l_slot l) x
  (l_pre l) (l_npre l) (l_pre_gaps l).
Definition set_pre l x n g := NetLoop (l_stop l) (l_fds l) (l_tmr l) (l_ntmr l) (l_slot l)
  (l_freeslot l) x n g.

(** Cells an array has after it grew and before they are written. *)
Definition junk_tmr : tmr := Tmr (-1) 0 (-1) (-1).
Definition junk_pre : pre := Pre (-1) (-1).

(** [calloc] and [epoll_create1] succeed or the constructor returns NULL. *)
Definition net_loop_new (alloc epoll : bool) : option net_loop :=
  if negb alloc then None else
  if negb epoll then None else Some (NetLoop false [] [] 0 [] None [] 0 false).

(** ** File descriptors *)

Definition ep_events (ev : Z) : Z :=
  Z.lor (if negb (Z.land ev NET_RD =? 0) then EPOLLIN else 0)
        (if negb (Z.land ev NET_WR =? 0) then EPOLLOUT else 0).

Definition ep_revents (ev : Z) : Z :=
  Z.lor (Z.lor (if negb (Z.land ev (Z.lor EPOLLIN EPOLLPRI) =? 0) then NET_RD else 0)
               (if negb (Z.land ev EPOLLOUT =? 0) then NET_WR else 0))
        (if negb (Z.land ev (Z.lor EPOLLERR EPOLLHUP) =? 0) then NET_ER else 0).

(** [while (cap <= fd) cap *= 2;] on an [int]. *)
Fixpoint cap_loop (fuel : nat) (cap fd : Z) : res Z :=
  match fuel with
  | O => Ub
  | S fuel =>
      if cap <=? fd then if INT_MAX <? cap * 2 then Ub else cap_loop fuel (cap * 2) fd
      else Ok cap
  end.

(** [grow] and [ctl] are the outcomes of [realloc] and [epoll_ctl]. *)
Definition net_loop_add (grow ctl : bool) (l : net_loop) (fd ev cb ud : Z) : res (net_loop * Z) :=
  if (fd <? 0) || (cb =? 0) then Ok (l, NET_ERR) else
  let cap := Z.of_nat (length (l_fds l)) in
  fds ← (if cap <=? fd then
           c ← cap_loop 32 (if negb (cap =? 0) then cap else 64) fd;
           Ok (if grow then Some (l_fds l ++ replicate (Z.to_nat (c - cap)) (FdRec 0 0)) else None)
         else Ok (Some (l_fds l)));
  match fds with
  | None => Ok (l, NET_ERR)
  | Some fds =>
      let l := set_fds l fds in
      if negb ctl then Ok (l, NET_ERR) else
      fds ← aset (l_fds l) (Z.to_nat fd) (FdRec cb ud);
      Ok (set_fds l fds, NET_OK)
  end.

(** The guard of [net_loop_mod], [net_loop_del] and the dispatcher. *)
Definition fd_known (l : net_loop) (fd : Z) : res bool :=
  if (fd <? 0) || (Z.of_nat (length (l_fds l)) <=? fd) then Ok false else
  r ← aget (l_fds l) (Z.to_nat fd); Ok (negb (f_cb r =? 0)).

Definition net_loop_mod (ctl : bool) (l : net_loop) (fd ev : Z) : res Z :=
  k ← fd_known l fd;
  if negb k then Ok NET_ERR else Ok (if ctl then NET_OK else NET_ERR).

Definition net_loop_del (ctl : bool) (l : net_loop) (fd : Z) : res (net_loop * Z) :=
  k ← fd_known l fd;
  if negb k then Ok (l, NET_ERR) else
  fds ← aset (l_fds l) (Z.to_nat fd) (FdRec 0 0);
  Ok (set_fds l fds, if ctl then NET_OK else NET_ERR).

(** ** Pre-poll hooks *)

Definition pre_is (cb ud : Z) (p : pre) : bool := (p_cb p =? cb) && (p_ud p =? ud).

(** The first of the [n] hooks from position [i] on that satisfies [f]. *)
Fixpoint pre_find (f : pre → bool) (ps : list pre) (i n : nat) : res (option nat) :=
  match n with
  | O => Ok None
  | S n => p ← aget ps i; if f p then Ok (Some i) else pre_find f ps (S i) n
  end.

Definition net_loop_pre_add (grow : bool) (l : net_loop) (cb ud : Z) : res (net_loop * Z) :=
  if cb =? 0 then Ok (l, NET_ERR) else
  same ← pre_find (pre_is cb ud) (l_pre l) 0 (l_npre l);
  match same with
  | Some _ => Ok (l, NET_OK)
  | None =>
      gap ← pre_find (λ p, p_cb p =? 0) (l_pre l) 0 (l_npre l);
      match gap with
      | Some i =>
          ps ← aset (l_pre l) i (Pre cb ud);
          Ok (set_pre l ps (l_npre l) (l_pre_gaps l), NET_OK)
      | None =>
          if bool_decide (l_npre l = length (l_pre l)) && negb grow then Ok (l, NET_ERR) else
          let c := if bool_decide (length (l_pre l) = 0%nat) then 4%nat else (length (l_pre l) * 2)%nat in
          let ps := if bool_decide (l_npre l = length (l_pre l))
                    then l_pre l ++ replicate (c - length (l_pre l)) junk_pre else l_pre l in
          ps ← aset ps (l_npre l) (Pre cb ud);
          Ok (set_pre l ps (S (l_npre l)) (l_pre_gaps l), NET_OK)
      end
  end.

Definition net_loop_pre_del (l : net_loop) (cb ud : Z) : res (net_loop * Z) :=
  found ← pre_find (pre_is cb ud) (l_pre l) 0 (l_npre l);
  match found with
  | None => Ok (l, NET_ERR)
  | Some i => ps ← aset (l_pre l) i (Pre 0 0); Ok (set_pre l ps (l_npre l) true, NET_OK)
  end.

(** The loop of [pre_compact] over the [n] hooks from [i] on, [w] kept so far. *)
Fixpoint compact_loop (ps : list pre) (i w n : nat) : res (list pre * nat) :=
  match n with
  | O => Ok (ps, w)
  | S n =>
      p ← aget ps i;
      if negb (p_cb p =? 0) then ps ← aset ps w p; compact_loop ps (S i) (S w) n
      else compact_loop ps (S i) w n
  end.
Definition pre_compact (l : net_loop) : res net_loop :=
  '(ps, w) ← compact_loop (l_pre l) 0 0 (l_npre l);
  Ok (set_pre l ps w false).

(** ** Timers *)

Definition TMR_SLOT (id : Z) : Z := Z.land id 4294967295.
Definition TMR_GEN (id : Z) : Z := u32 (Z.shiftr id 32).
Definition TMR_ID (gen : Z) (slot : nat) : Z := Z.lor (Z.shiftl gen 32) (Z.of_nat slot).

Definition tmr_place (l : net_loop) (i : nat) : res net_loop :=
  t ← aget (l_tmr l) i;
  s ← aget (l_slot l) (t_slot t);
  ss ← aset (l_slot l) (t_slot t) (TmrSlot (Some i) (s_gen s) (s_next s));
  Ok (set_slot l ss).

(** [h[i] = t; tmr_place(l, i);] *)
Definition tmr_put (l : net_loop) (i : nat) (t : tmr) : res net_loop :=
  h ← aset (l_tmr l) i t; tmr_place (set_tmr l h) i.

Definition parent (i : nat) : nat := ((i - 1) / 2)%nat.

Fixpoint up_loop (fuel : nat) (l : net_loop) (i : nat) (t : tmr) : res net_loop :=
  match fuel with
  | O => Ub
  | S fuel =>
      if bool_decide (i = 0%nat) then tmr_put l i t else
      p ← aget (l_tmr l) (parent i);
      if t_due t <? t_due p then l ← tmr_put l i p; up_loop fuel l (parent i) t
      else tmr_put l i t
  end.
Definition tmr_up (l : net_loop) (i : nat) : res net_loop :=
  t ← aget (l_tmr l) i; up_loop (S i) l i t.

(** The smaller child of [i], whose first child is in range. *)
Definition child (l : net_loop) (n i : nat) : res (nat * tmr) :=
  let c := (2 * i + 1)%nat in
  a ← aget (l_tmr l) c;
  if bool_decide (c + 1 < n)%nat then
    b ← aget (l_tmr l) (c + 1);
    Ok (if t_due b <? t_due a then ((c + 1)%nat, b) else (c, a))
  else Ok (c, a).

Fixpoint down_loop (fuel : nat) (l : net_loop) (n i : nat) (t : tmr) : res net_loop :=
  match fuel with
  | O => Ub
  | S fuel =>
      if bool_decide (n <= 2 * i + 1)%nat then tmr_put l i t else
      '(c, x) ← child l n i;
      if t_due t <=? t_due x then tmr_put l i t
      else l ← tmr_put l i x; down_loop fuel l n c t
  end.
Definition tmr_down (l : net_loop) (n i : nat) : res net_loop :=
  t ← aget (l_tmr l) i; down_loop (S n) l n i t.

Definition bump (gen : Z) : Z := let g := u32 (gen + 1) in if g =? 0 then 1 else g.

Definition tmr_remove (l : net_loop) (i : nat) : res net_loop :=
  t ← aget (l_tmr l) i;
  s ← aget (l_slot l) (t_slot t);
  ss ← aset (l_slot l) (t_slot t) (TmrSlot None (bump (s_gen s)) (l_freeslot l));
  let l := set_freeslot (set_slot l ss) (Some (t_slot t)) in
  match l_ntmr l with
  | O => Ub
  | S n =>
      let l := set_ntmr l n in
      last ← aget (l_tmr l) n;
      h ← aset (l_tmr l) i last;
      let l := set_tmr l h in
      if bool_decide (i < n)%nat then
        l ← tmr_place l i; l ← tmr_down l n i; tmr_up l i
      else Ok l
  end.

(** The new part of a grown handle table: slots [a .. c - 1], linked. *)
Definition fresh_slots (a c : nat) : list tmrslot :=
  map (λ i, TmrSlot None 1 (if bool_decide (i + 1 < c)%nat then Some (i + 1)%nat else None))
      (seq a (c - a)).

Definition tmr_slot_alloc (grow : bool) (l : net_loop) : res (net_loop * option nat) :=
  let take l :=
    match l_freeslot l with
    | None => Ub
    | Some s => x ← aget (l_slot l) s; Ok (set_freeslot l (s_next x), Some s)
    end in
  match l_freeslot l with
  | Some _ => take l
  | None =>
      let a := length (l_slot l) in
      let c := if bool_decide (a = 0%nat) then 16%nat else (a * 2)%nat in
      if UINT32_MAX <=? Z.of_nat c then Ok (l, None) else
      if negb grow then Ok (l, None) else
      take (set_freeslot (set_slot l (l_slot l ++ fresh_slots a c)) (Some a))
  end.

(** [grow_heap] and [grow_slots] are the outcomes of the two [realloc]s. *)
Definition net_loop_after (grow_heap grow_slots : bool) (now : Z) (l : net_loop) (ms cb ud : Z) :
    res (net_loop * Z) :=
  if cb =? 0 then Ok (l, 0) else
  let full := bool_decide (l_ntmr l = length (l_tmr l)) in
  if full && negb grow_heap then Ok (l, 0) else
  let c := if bool_decide (length (l_tmr l) = 0%nat) then 16%nat else (length (l_tmr l) * 2)%nat in
  let l := if full then set_tmr l (l_tmr l ++ replicate (c - length (l_tmr l)) junk_tmr) else l in
  '(l, s) ← tmr_slot_alloc grow_slots l;
  match s with
  | None => Ok (l, 0)
  | Some s =>
      h ← aset (l_tmr l) (l_ntmr l) (Tmr (u64 (now + ms)) s cb ud);
      x ← aget (l_slot l) s;
      ss ← aset (l_slot l) s (TmrSlot (Some (l_ntmr l)) (s_gen x) (s_next x));
      let n := l_ntmr l in
      l ← tmr_up (set_ntmr (set_slot (set_tmr l h) ss) (S n)) n;
      x ← aget (l_slot l) s;
      Ok (l, TMR_ID (s_gen x) s)
  end.

Definition net_loop_cancel (l : net_loop) (id : Z) : res (net_loop * Z) :=
  let s := TMR_SLOT id in
  if Z.of_nat (length (l_slot l)) <=? s then Ok (l, NET_ERR) else
  x ← aget (l_slot l) (Z.to_nat s);
  if negb (s_gen x =? TMR_GEN id) then Ok (l, NET_ERR) else
  match s_pos x with
  | None => Ok (l, NET_ERR)
  | Some i => l ← tmr_remove l i; Ok (l, NET_OK)
  end.

(** ** Dispatch *)

Section dispatch.
(** The callbacks act on the loop and on a world of their own. *)
Context {W : Type} (call_pre call_tmr : Z → Z → net_loop * W → res (net_loop * W))
  (call_io : Z → Z → Z → Z → net_loop * W → res (net_loop * W)).

(** The hooks run from position [i] on; a hook may add others. *)
Fixpoint run_pre (fuel : nat) (i : nat) (lw : net_loop * W) : res (net_loop * W) :=
  match fuel with
  | O => Ub
  | S fuel =>
      if bool_decide (i < l_npre lw.1)%nat then
        p ← aget (l_pre lw.1) i;
        lw ← (if negb (p_cb p =? 0) then call_pre (p_cb p) (p_ud p) lw else Ok lw);
        run_pre fuel (S i) lw
      else Ok lw
  end.

(** What [epoll_wait] is told to wait at most, at time [now]. *)
Definition poll_timeout (l : net_loop) (timeout_ms now : Z) : res Z :=
  let t := if timeout_ms <? 0 then -1 else timeout_ms in
  if bool_decide (l_ntmr l = 0%nat) then Ok t else
  h ← aget (l_tmr l) 0;
  let d := if now <? t_due h then t_due h - now else 0 in
  let until := if LOOP_MAX_MS <? d then LOOP_MAX_MS else i32 d in
  Ok (if (t <? 0) || (until <? t) then until else t).

Fixpoint run_due (fuel : nat) (now : Z) (lw : net_loop * W) : res (net_loop * W) :=
  match fuel with
  | O => Ub
  | S fuel =>
      if bool_decide (l_ntmr lw.1 = 0%nat) then Ok lw else
      due ← aget (l_tmr lw.1) 0;
      if t_due due <=? now then
        l ← tmr_remove lw.1 0;
        lw ← call_tmr (t_cb due) (t_ud due) (l, lw.2);
        run_due fuel now lw
      else Ok lw
  end.

Fixpoint run_io (evs : list (Z * Z)) (lw : net_loop * W) : res (net_loop * W) :=
  match evs with
  | [] => Ok lw
  | (fd, events) :: evs =>
      if Z.of_nat (length (l_fds lw.1)) <=? fd then run_io evs lw else
      r ← aget (l_fds lw.1) (Z.to_nat fd);
      lw ← (if negb (f_cb r =? 0) then call_io (f_cb r) (f_ud r) fd (ep_revents events) lw else Ok lw);
      run_io evs lw
  end.

(** [wait] is what [epoll_wait] answers for a timeout: its events, none when it was
    interrupted, or [None] for any other error; [now1] and [now2] are the clock
    before and after. *)
Definition net_loop_step (fuel : nat) (lw : net_loop * W) (timeout_ms now1 : Z)
    (wait : Z → option (list (Z * Z))) (now2 : Z) : res (net_loop * W * Z) :=
  lw ← run_pre fuel 0 lw;
  lw ← (if l_pre_gaps lw.1 then l ← pre_compact lw.1; Ok (l, lw.2) else Ok lw);
  t ← poll_timeout lw.1 timeout_ms now1;
  match wait t with
  | None => Ok (lw, NET_ERR)
  | Some evs =>
      lw ← (if bool_decide (l_ntmr lw.1 = 0%nat) then Ok lw else run_due fuel now2 lw);
      lw ← run_io evs lw;
      Ok (lw, Z.of_nat (length evs))
  end.

(** One element of [envs] per iteration. *)
Fixpoint net_loop_run (fuel : nat) (envs : list (Z * (Z → option (list (Z * Z))) * Z))
    (lw : net_loop * W) : res (net_loop * W * Z) :=
  if l_stop lw.1 then Ok (set_stop lw.1 false, lw.2, NET_OK) else
  match envs with
  | [] => Ub
  | (now1, wait, now2) :: envs =>
      '(lw, rc) ← net_loop_step fuel lw (-1) now1 wait now2;
      if rc =? NET_ERR then Ok (lw, NET_ERR) else net_loop_run fuel envs lw
  end.
End dispatch.

Definition net_loop_stop (l : net_loop) : net_loop := set_stop l true.

End NetLoop.
