(* ===== verification/NetTimer.v ===== *)
(** * NetTimer: correctness of the timer heap

    The heap and handle table of [net/src/loop.c] (modelled in NetLoop) as an
    abstract set of armed timers: what arming, cancelling and firing do to it. *)

From S2P Require Import Prelude NetLoop.
From Stdlib Require Import Sorted.
Import NetLoop.

Module NetTimer.

#[local] Instance tmr_inhabited : Inhabited tmr := populate junk_tmr.
#[local] Instance tmrslot_inhabited : Inhabited tmrslot := populate (TmrSlot None 0 None).

(** ** Arrays *)

Lemma aget_Ok `{Inhabited A} (l : list A) i : (i < length l)%nat → aget l i = Ok (l !!! i).
Proof.
  intros Hi. unfold aget. destruct (lookup_lt_is_Some_2 l i Hi) as [x Hx].
  by rewrite Hx, (list_lookup_total_correct _ _ _ Hx).
Qed.
Lemma aset_Ok {A} (l : list A) i x : (i < length l)%nat → aset l i x = Ok (<[i := x]> l).
Proof. intros. unfold aset. by rewrite decide_True. Qed.

Lemma total_insert `{Inhabited A} (l : list A) i j x : (i < length l)%nat →
  <[i := x]> l !!! j = if bool_decide (j = i) then x else l !!! j.
Proof.
  intros. case_bool_decide as E; [subst; by apply list_lookup_total_insert_eq|].
  by apply list_lookup_total_insert_ne.
Qed.

(** Writing over a cell replaces one element of the multiset. *)
Lemma insert_perm {A} (l : list A) i x : (i < length l)%nat → <[i := x]> l ≡ₚ x :: delete i l.
Proof.
  intros Hi. rewrite (delete_Permutation (<[i := x]> l) i x) by (by apply list_lookup_insert_eq).
  apply Permutation_skip. rewrite !delete_take_drop.
  by rewrite take_insert_ge, drop_insert_lt by lia.
Qed.

(** Moving the element at [p] to [i] moves the hole from [i] to [p]. *)
Lemma hole_perm `{Inhabited A} (l : list A) i p t : (i < length l)%nat → (p < length l)%nat → p ≠ i →
  <[p := t]> (<[i := l !!! p]> l) ≡ₚ <[i := t]> l.
Proof.
  intros Hi Hp Hne. rewrite (insert_perm _ p t), (insert_perm l i t) by (by rewrite ?length_insert).
  apply Permutation_skip, (Permutation_cons_inv (a := l !!! p)).
  rewrite <-(insert_perm l i) by done.
  rewrite <-(delete_Permutation (<[i := l !!! p]> l) p (l !!! p)); [done|].
  rewrite list_lookup_insert_ne by done. by apply list_lookup_lookup_total_lt.
Qed.

Definition armed (l : net_loop) : list tmr := take (l_ntmr l) (l_tmr l).
Definition slots (ts : list tmr) : list nat := map t_slot ts.

Lemma slots_distinct n (h : list tmr) i j : (n <= length h)%nat → NoDup (slots (take n h)) →
  (i < n)%nat → (j < n)%nat → t_slot (h !!! i) = t_slot (h !!! j) → i = j.
Proof.
  intros Hn Hd Hi Hj E.
  assert (∀ k, (k < n)%nat → slots (take n h) !! k = Some (t_slot (h !!! k))) as Hl.
  { intros k Hk. unfold slots. rewrite list_lookup_fmap, lookup_take_lt by done.
    by rewrite (list_lookup_lookup_total_lt h k) by lia. }
  eapply (NoDup_lookup _ i j); [done|by apply Hl|]. rewrite E. by apply Hl.
Qed.

Lemma slot_elem n (h : list tmr) i : (n <= length h)%nat → (i < n)%nat →
  t_slot (h !!! i) ∈ slots (take n h).
Proof.
  intros Hn Hi. unfold slots. apply list_elem_of_fmap. exists (h !!! i). split; [done|].
  apply (list_elem_of_lookup_2 _ i). rewrite lookup_take_lt by done.
  apply list_lookup_lookup_total_lt. lia.
Qed.

(** ** Writing positions back *)

(** The handle table after heap entry [i] was recorded for slot [s]. *)
Definition place (ss : list tmrslot) (s i : nat) : list tmrslot :=
  <[s := TmrSlot (Some i) (s_gen (ss !!! s)) (s_next (ss !!! s))]> ss.

Lemma tmr_put_Ok l i t : (i < length (l_tmr l))%nat → (t_slot t < length (l_slot l))%nat →
  tmr_put l i t = Ok (set_slot (set_tmr l (<[i := t]> (l_tmr l))) (place (l_slot l) (t_slot t) i)).
Proof.
  intros Hi Ht. unfold tmr_put, tmr_place. rewrite aset_Ok by done. bstep. cbn [l_tmr l_slot set_tmr].
  rewrite aget_Ok by (by rewrite length_insert). bstep.
  rewrite list_lookup_total_insert_eq by done. rewrite aget_Ok by done. bstep.
  rewrite aset_Ok by done. done.
Qed.

Section hole.
(** The heap and table before the sift. *)
Context (n : nat) (h0 : list tmr) (ss0 : list tmrslot).
Context (Hn : (n <= length h0)%nat) (Hdup : NoDup (slots (take n h0)))
  (Hrange : ∀ s, s ∈ slots (take n h0) → (s < length ss0)%nat).

(** During a sift the entry [t] is held and cell [i] is free. *)
Record hole (h : list tmr) (ss : list tmrslot) (i : nat) (t : tmr) : Prop := {
  ho_len : length h = length h0;
  ho_slen : length ss = length ss0;
  ho_i : (i < n)%nat;
  ho_perm : take n (<[i := t]> h) ≡ₚ take n h0;
  ho_placed : ∀ j, (j < n)%nat → j ≠ i → s_pos (ss !!! t_slot (h !!! j)) = Some j;
  ho_frame : ∀ s, s_gen (ss !!! s) = s_gen (ss0 !!! s) ∧ s_next (ss !!! s) = s_next (ss0 !!! s);
  ho_other : ∀ s, s ∉ slots (take n h0) → ss !!! s = ss0 !!! s }.

(** When it is over. *)
Record settled (h : list tmr) (ss : list tmrslot) : Prop := {
  st_len : length h = length h0;
  st_slen : length ss = length ss0;
  st_perm : take n h ≡ₚ take n h0;
  st_placed : ∀ j, (j < n)%nat → s_pos (ss !!! t_slot (h !!! j)) = Some j;
  st_frame : ∀ s, s_gen (ss !!! s) = s_gen (ss0 !!! s) ∧ s_next (ss !!! s) = s_next (ss0 !!! s);
  st_other : ∀ s, s ∉ slots (take n h0) → ss !!! s = ss0 !!! s }.

(** The heap with the held entry in the free cell. *)
Definition filled (h : list tmr) (i : nat) (t : tmr) : list tmr := <[i := t]> h.

Lemma hole_slots h ss i t : hole h ss i t →
  slots (take n (<[i := t]> h)) ≡ₚ slots (take n h0).
Proof using. intros []. by apply Permutation_map. Qed.

Lemma hole_bounds h ss i t j : hole h ss i t → (j < n)%nat →
  (t_slot (<[i := t]> h !!! j) < length ss)%nat ∧ t_slot (<[i := t]> h !!! j) ∈ slots (take n h0).
Proof using Hn Hrange.
  intros Hh Hj. pose proof (hole_slots _ _ _ _ Hh) as Hp. destruct Hh.
  assert (t_slot (<[i := t]> h !!! j) ∈ slots (take n h0)) as E.
  { rewrite <-Hp. apply slot_elem; [rewrite length_insert; lia|done]. }
  split; [|done]. rewrite ho_slen0. by apply Hrange.
Qed.

Lemma hole_ne h ss i t j k : hole h ss i t → (j < n)%nat → (k < n)%nat → j ≠ k →
  t_slot (<[i := t]> h !!! j) ≠ t_slot (<[i := t]> h !!! k).
Proof using Hn Hdup.
  intros Hh Hj Hk Hne E. pose proof (hole_slots _ _ _ _ Hh) as Hp. destruct Hh.
  apply Hne, (slots_distinct n (<[i := t]> h)); try done; [rewrite length_insert; lia|].
  by rewrite Hp.
Qed.

Lemma place_get (ss : list tmrslot) (s i s' : nat) : (s < length ss)%nat →
  place ss s i !!! s' =
    if bool_decide (s' = s) then TmrSlot (Some i) (s_gen (ss !!! s)) (s_next (ss !!! s)) else ss !!! s'.
Proof using. apply total_insert. Qed.

(** What recording an entry of the heap leaves alone. *)
Lemma place_frame ss s i : (s < length ss)%nat → s ∈ slots (take n h0) →
  (∀ s', s_gen (ss !!! s') = s_gen (ss0 !!! s') ∧ s_next (ss !!! s') = s_next (ss0 !!! s')) →
  (∀ s', s' ∉ slots (take n h0) → ss !!! s' = ss0 !!! s') →
  (∀ s', s_gen (place ss s i !!! s') = s_gen (ss0 !!! s') ∧
         s_next (place ss s i !!! s') = s_next (ss0 !!! s')) ∧
  (∀ s', s' ∉ slots (take n h0) → place ss s i !!! s' = ss0 !!! s').
Proof using.
  intros Hs Hin Hf Ho. split; intros s'.
  - rewrite place_get by done. case_bool_decide; [subst; apply Hf|apply Hf].
  - intros Hni. rewrite place_get by done. case_bool_decide; [by subst|by apply Ho].
Qed.

Lemma hole_step h ss i t p : hole h ss i t → (p < n)%nat → p ≠ i →
  hole (<[i := h !!! p]> h) (place ss (t_slot (h !!! p)) i) p t.
Proof using Hn Hdup Hrange.
  intros Hh Hp Hne. pose proof Hh as [Hl Hsl Hi Hperm Hpl Hfr Hot].
  destruct (hole_bounds h ss i t p Hh Hp) as [Hs Hin].
  rewrite total_insert, bool_decide_false in Hs, Hin by (done || lia).
  destruct (place_frame ss _ i Hs Hin Hfr Hot) as [Hfr' Hot'].
  constructor; try done.
  - by rewrite length_insert.
  - unfold place. by rewrite length_insert.
  - rewrite !take_insert_lt by done.
    replace (h !!! p) with (take n h !!! p) by (by apply lookup_total_take_lt).
    rewrite hole_perm by (rewrite ?length_take; lia || done). by rewrite <-take_insert_lt.
  - intros j Hj Hjp. rewrite (total_insert h) by lia. case_bool_decide as E.
    + subst j. rewrite place_get by done. by rewrite bool_decide_true.
    + rewrite place_get by done. rewrite bool_decide_false; [by apply Hpl|].
      intros Es. apply (hole_ne h ss i t j p Hh); try done.
      by rewrite !total_insert, !bool_decide_false by (done || lia).
Qed.

Lemma hole_done h ss i t : hole h ss i t →
  settled (<[i := t]> h) (place ss (t_slot t) i).
Proof using Hn Hdup Hrange.
  intros Hh. pose proof Hh as [Hl Hsl Hi Hperm Hpl Hfr Hot].
  destruct (hole_bounds h ss i t i Hh Hi) as [Hs Hin].
  rewrite total_insert, bool_decide_true in Hs, Hin by (done || lia).
  destruct (place_frame ss _ i Hs Hin Hfr Hot) as [Hfr' Hot'].
  constructor; try done.
  - by rewrite length_insert.
  - unfold place. by rewrite length_insert.
  - intros j Hj. rewrite place_get by done. destruct (decide (j = i)) as [->|E].
    + by rewrite list_lookup_total_insert_eq, bool_decide_true by (done || lia).
    + rewrite (total_insert h), (bool_decide_false (j = i)) by (done || lia).
      rewrite bool_decide_false; [by apply Hpl|]. intros Es.
      apply (hole_ne h ss i t j i Hh); try done.
      by rewrite !total_insert, bool_decide_false, bool_decide_true by (done || lia).
Qed.
End hole.

(** ** Heap order *)

Definition heap (n : nat) (h : list tmr) : Prop :=
  ∀ j, (0 < j < n)%nat → t_due (h !!! parent j) <= t_due (h !!! j).

(** Order except between [i] and its parent; what is below [i] fits above it. *)
Definition heap_up (n : nat) (h : list tmr) (i : nat) : Prop :=
  (∀ j, (0 < j < n)%nat → j ≠ i → t_due (h !!! parent j) <= t_due (h !!! j)) ∧
  (∀ c, (0 < c < n)%nat → (0 < i)%nat → parent c = i → t_due (h !!! parent i) <= t_due (h !!! c)).

(** Order except between [i] and its neighbours, and between [i0], where the
    sift began, and its parent. *)
Definition heap_down (n : nat) (h : list tmr) (i0 i : nat) : Prop :=
  (∀ j, (0 < j < n)%nat → j ≠ i0 → parent j ≠ i → t_due (h !!! parent j) <= t_due (h !!! j)) ∧
  (∀ c, (0 < c < n)%nat → (0 < i)%nat → parent c = i → t_due (h !!! parent i) <= t_due (h !!! c)) ∧
  (i ≠ i0 → (0 < i0)%nat → t_due (h !!! parent i0) <= t_due (h !!! i0)) ∧
  (i0 <= i)%nat.

Lemma parent_child c i : (0 < c)%nat → parent c = i ↔ c = (2 * i + 1)%nat ∨ c = (2 * i + 2)%nat.
Proof.
  intros Hc. unfold parent. pose proof (Nat.div_mod_eq (c - 1) 2).
  pose proof (Nat.mod_upper_bound (c - 1) 2). lia.
Qed.
Lemma parent_lt i : (0 < i)%nat → (parent i < i)%nat.
Proof. intros Hi. pose proof (proj1 (parent_child i _ Hi) eq_refl). lia. Qed.

(** Values of the filled heap after the hole moved from [i] to [p]. *)
Lemma moved (h : list tmr) i p t j : (i < length h)%nat → (p < length h)%nat → p ≠ i →
  <[p := t]> (<[i := h !!! p]> h) !!! j =
    if bool_decide (j = p) then t else if bool_decide (j = i) then h !!! p else h !!! j.
Proof. intros. by rewrite !total_insert by (by rewrite ?length_insert). Qed.

Lemma up_order_step n h i t : (0 < i < n)%nat → (n <= length h)%nat →
  heap_up n (<[i := t]> h) i → t_due t < t_due (h !!! parent i) →
  heap_up n (<[parent i := t]> (<[i := h !!! parent i]> h)) (parent i).
Proof.
  intros Hi Hl [H1 H2] Hlt. pose proof (parent_lt i ltac:(lia)) as Hp.
  assert (∀ j, <[i := t]> h !!! j = if bool_decide (j = i) then t else h !!! j) as Hv
    by (intros; apply total_insert; lia).
  split.
  - intros j Hj Hjp. rewrite !moved by lia.
    pose proof (H1 j Hj) as A. pose proof (H2 j Hj ltac:(lia)) as B. rewrite !Hv in A, B.
    pose proof (parent_lt j ltac:(lia)).
    destruct (decide (parent j = i)) as [Ej|Ej].
    + specialize (B Ej). rewrite (bool_decide_false (parent i = i)) in B by lia.
      rewrite (bool_decide_false (j = i)) in * by lia.
      rewrite Ej, (bool_decide_false (i = parent i)), (bool_decide_true (i = i)) by lia.
      by rewrite (bool_decide_false (j = parent i)) by lia.
    + rewrite (bool_decide_false (parent j = i)) in * by done.
      rewrite (bool_decide_false (j = parent i)) by done.
      destruct (decide (j = i)) as [->|Eji].
      * rewrite (bool_decide_true (parent i = parent i)), (bool_decide_true (i = i)) by done. lia.
      * rewrite (bool_decide_false (j = i)) in * by done. specialize (A Eji).
        destruct (decide (parent j = parent i)) as [E|E].
        -- rewrite bool_decide_true by done. rewrite E in A. lia.
        -- by rewrite bool_decide_false by done.
  - intros c Hc Hpi Ec. rewrite !moved by lia. pose proof (parent_lt (parent i) Hpi).
    rewrite !(bool_decide_false (parent (parent i) = _)) by lia.
    rewrite (bool_decide_false (c = parent i)) by (pose proof (parent_lt c); lia).
    pose proof (H1 (parent i) ltac:(lia) ltac:(lia)) as A. rewrite !Hv in A.
    rewrite !bool_decide_false in A by lia.
    destruct (decide (c = i)) as [->|E]; [by rewrite bool_decide_true|].
    rewrite bool_decide_false by done. pose proof (H1 c Hc E) as B. rewrite !Hv in B.
    rewrite Ec, !bool_decide_false in B by lia. lia.
Qed.

(** [c] is the smaller of the children of [i]. *)
Definition min_child (n : nat) (h : list tmr) (i c : nat) : Prop :=
  (0 < c < n)%nat ∧ parent c = i ∧
  ∀ c', (0 < c' < n)%nat → parent c' = i → t_due (h !!! c) <= t_due (h !!! c').

Lemma min_child_gt n h i c : min_child n h i c → (i < c < n)%nat.
Proof. intros (? & <- & _). pose proof (parent_lt c). lia. Qed.

Lemma down_order_step n h i0 i t c : (n <= length h)%nat → min_child n h i c →
  heap_down n (<[i := t]> h) i0 i → t_due (h !!! c) < t_due t →
  heap_down n (<[c := t]> (<[i := h !!! c]> h)) i0 c.
Proof.
  intros Hl Hmc (H1 & H2 & H3 & H4) Hlt. pose proof (min_child_gt _ _ _ _ Hmc) as Hic.
  destruct Hmc as (Hc & Hpc & Hmin).
  assert (∀ j, <[i := t]> h !!! j = if bool_decide (j = i) then t else h !!! j) as Hv
    by (intros; apply total_insert; lia).
  assert ((0 < i)%nat → t_due (h !!! parent i) <= t_due (h !!! c)) as Hup.
  { intros Hi. pose proof (H2 c Hc Hi Hpc) as A. rewrite !Hv in A. pose proof (parent_lt i Hi).
    by rewrite !bool_decide_false in A by lia. }
  split_and!.
  - intros j Hj Hj0 Hpj. rewrite !moved by lia. pose proof (parent_lt j ltac:(lia)).
    rewrite (bool_decide_false (parent j = c)) by done.
    destruct (decide (j = i)) as [->|Eji].
    { rewrite (bool_decide_false (i = c)), (bool_decide_true (i = i)), bool_decide_false by lia.
      apply Hup. lia. }
    destruct (decide (parent j = i)) as [Ej|Ej].
    { rewrite Ej, (bool_decide_true (i = i)), (bool_decide_false (j = i)) by done.
      destruct (decide (j = c)) as [->|Ejc];
        [rewrite bool_decide_true by done; lia|rewrite bool_decide_false by done; by apply Hmin]. }
    pose proof (H1 j Hj Hj0 Ej) as A. rewrite !Hv in A.
    rewrite !(bool_decide_false (_ = i)) in A |- * by done. rewrite bool_decide_false; [done|].
    intros ->. done.
  - intros c2 Hc2 _ Ec2. rewrite Hpc, !moved by lia. pose proof (parent_lt c2 ltac:(lia)).
    rewrite (bool_decide_false (i = c)), (bool_decide_true (i = i)), !bool_decide_false by lia.
    pose proof (H1 c2 Hc2 ltac:(lia) ltac:(lia)) as A. rewrite !Hv in A.
    by rewrite Ec2, !bool_decide_false in A by lia.
  - intros _ Hi0. rewrite !moved by lia. pose proof (parent_lt i0 Hi0).
    rewrite (bool_decide_false (parent i0 = c)), (bool_decide_false (parent i0 = i)),
      (bool_decide_false (i0 = c)) by lia.
    destruct (decide (i0 = i)) as [->|E]; [rewrite bool_decide_true by done; by apply Hup|].
    rewrite bool_decide_false by done. pose proof (H3 ltac:(done) Hi0) as A. rewrite !Hv in A.
    by rewrite !bool_decide_false in A by lia.
  - lia.
Qed.

Lemma down_order_end n h i0 i t : (i < n)%nat → (n <= length h)%nat →
  heap_down n (<[i := t]> h) i0 i →
  (∀ c, (0 < c < n)%nat → parent c = i → t_due t <= t_due (h !!! c)) →
  heap_up n (<[i := t]> h) i0.
Proof.
  intros Hi Hl (H1 & H2 & H3 & H4) Hend.
  assert (∀ j, (0 < j < n)%nat → j ≠ i0 →
    t_due (<[i := t]> h !!! parent j) <= t_due (<[i := t]> h !!! j)) as Ha.
  { intros j Hj Hj0. destruct (decide (parent j = i)) as [E|E]; [|by apply H1].
    rewrite !total_insert, (bool_decide_true (parent j = i)) by (done || lia).
    pose proof (parent_lt j ltac:(lia)). rewrite bool_decide_false by lia. by apply Hend. }
  split; [done|]. intros c Hc Hi0 Ec. destruct (decide (i = i0)) as [->|E]; [by apply H2|].
  pose proof (parent_lt c ltac:(lia)). pose proof (Ha c Hc ltac:(lia)) as A. rewrite Ec in A.
  specialize (H3 E Hi0). lia.
Qed.

Section sift.
Context (n : nat) (h0 : list tmr) (ss0 : list tmrslot).
Context (Hn : (n <= length h0)%nat) (Hdup : NoDup (slots (take n h0)))
  (Hrange : ∀ s, s ∈ slots (take n h0) → (s < length ss0)%nat).

Lemma up_loop_spec fuel : ∀ l i t, (i < fuel)%nat → hole n h0 ss0 (l_tmr l) (l_slot l) i t →
  heap_up n (<[i := t]> (l_tmr l)) i →
  ∃ h ss, up_loop fuel l i t = Ok (set_slot (set_tmr l h) ss) ∧ settled n h0 ss0 h ss ∧ heap n h.
Proof using Hn Hdup Hrange.
  induction fuel as [|fuel IH]; intros l i t Hf Hh Ho; [lia|]. cbn [up_loop].
  pose proof Hh as [Hl Hsl Hi _ _ _ _].
  assert (t_slot t < length (l_slot l))%nat as Hts.
  { destruct (hole_bounds n h0 ss0 Hn Hrange _ _ _ _ i Hh Hi) as [Hs _].
    by rewrite total_insert, bool_decide_true in Hs by (done || lia). }
  assert (heap n (<[i := t]> (l_tmr l)) →
    ∃ h ss, tmr_put l i t = Ok (set_slot (set_tmr l h) ss) ∧ settled n h0 ss0 h ss ∧ heap n h) as Hend.
  { intros Hheap. rewrite tmr_put_Ok by (done || lia). do 2 eexists. split; [done|].
    split; [|done]. by apply hole_done. }
  case_bool_decide as E; [apply Hend; intros j Hj; apply (proj1 Ho); lia|].
  pose proof (parent_lt i ltac:(lia)). rewrite aget_Ok by lia. bstep.
  destruct (Z.ltb_spec (t_due t) (t_due (l_tmr l !!! parent i))) as [Hlt|Hge].
  - pose proof (hole_step n h0 ss0 Hn Hdup Hrange _ _ _ _ (parent i) Hh ltac:(lia) ltac:(lia)) as Hh'.
    destruct (hole_bounds n h0 ss0 Hn Hrange _ _ _ _ (parent i) Hh ltac:(lia)) as [Hps _].
    rewrite total_insert, bool_decide_false in Hps by lia.
    rewrite tmr_put_Ok by (done || lia). bstep.
    destruct (IH (set_slot (set_tmr l (<[i := l_tmr l !!! parent i]> (l_tmr l)))
      (place (l_slot l) (t_slot (l_tmr l !!! parent i)) i)) (parent i) t) as (h & ss & -> & ? & ?);
      [lia|done|apply up_order_step; done || lia|]. do 2 eexists. split; [done|]. done.
  - apply Hend. intros j Hj. destruct (decide (j = i)) as [->|]; [|by apply (proj1 Ho)].
    rewrite !total_insert, (bool_decide_true (i = i)), bool_decide_false by (done || lia). lia.
Qed.

Lemma child_spec l i : length (l_tmr l) = length h0 → (2 * i + 1 < n)%nat →
  ∃ c, child l n i = Ok (c, l_tmr l !!! c) ∧ min_child n (l_tmr l) i c.
Proof using Hn.
  intros Hl Hi. unfold child. cbv zeta. rewrite (aget_Ok _ (2 * i + 1)) by lia. bstep.
  assert (∀ c, (0 < c)%nat → parent c = i ↔ c = (2 * i + 1)%nat ∨ c = (2 * i + 1 + 1)%nat) as Hpc.
  { intros c Hc. rewrite (parent_child c i Hc). lia. }
  case_bool_decide as E.
  - rewrite aget_Ok by lia. bstep.
    destruct (Z.ltb_spec (t_due (l_tmr l !!! (2 * i + 1 + 1)%nat)) (t_due (l_tmr l !!! (2 * i + 1)%nat)));
      eexists; (split; [done|]); (split_and!; [lia|lia|apply Hpc; lia|]); intros c' Hc' Hp;
      apply Hpc in Hp as [-> | ->]; lia.
  - eexists. split; [done|]. split_and!; [lia|lia|apply Hpc; lia|].
    intros c' Hc' Hp. apply Hpc in Hp as [-> | ->]; lia.
Qed.

Lemma down_loop_spec i0 fuel : ∀ l i t, (n - i < fuel)%nat →
  hole n h0 ss0 (l_tmr l) (l_slot l) i t → heap_down n (<[i := t]> (l_tmr l)) i0 i →
  ∃ h ss, down_loop fuel l n i t = Ok (set_slot (set_tmr l h) ss) ∧ settled n h0 ss0 h ss ∧
    heap_up n h i0.
Proof using Hn Hdup Hrange.
  induction fuel as [|fuel IH]; intros l i t Hf Hh Ho; [lia|]. cbn [down_loop].
  pose proof Hh as [Hl Hsl Hi _ _ _ _].
  assert (t_slot t < length (l_slot l))%nat as Hts.
  { destruct (hole_bounds n h0 ss0 Hn Hrange _ _ _ _ i Hh Hi) as [Hs _].
    by rewrite total_insert, bool_decide_true in Hs by (done || lia). }
  assert ((∀ c, (0 < c < n)%nat → parent c = i → t_due t <= t_due (l_tmr l !!! c)) →
    ∃ h ss, tmr_put l i t = Ok (set_slot (set_tmr l h) ss) ∧ settled n h0 ss0 h ss ∧
      heap_up n h i0) as Hend.
  { intros Hc. rewrite tmr_put_Ok by (done || lia). do 2 eexists. split; [done|].
    split; [by apply hole_done|]. apply down_order_end; done || lia. }
  case_bool_decide as E.
  { apply Hend. intros c Hc Hp. apply parent_child in Hp; lia. }
  destruct (child_spec l i Hl ltac:(lia)) as (c & -> & Hmc). bstep.
  pose proof (min_child_gt _ _ _ _ Hmc) as Hic.
  destruct (Z.leb_spec (t_due t) (t_due (l_tmr l !!! c))) as [Hle|Hgt].
  { apply Hend. intros c' Hc' Hp. destruct Hmc as (_ & _ & Hmin). specialize (Hmin c' Hc' Hp). lia. }
  pose proof (hole_step n h0 ss0 Hn Hdup Hrange _ _ _ _ c Hh ltac:(lia) ltac:(lia)) as Hh'.
  destruct (hole_bounds n h0 ss0 Hn Hrange _ _ _ _ c Hh ltac:(lia)) as [Hps _].
  rewrite total_insert, bool_decide_false in Hps by lia.
  rewrite tmr_put_Ok by (done || lia). bstep.
  destruct (IH (set_slot (set_tmr l (<[i := l_tmr l !!! c]> (l_tmr l)))
    (place (l_slot l) (t_slot (l_tmr l !!! c)) i)) c t) as (h & ss & -> & ? & ?);
    [lia|done|apply down_order_step; done || lia|]. do 2 eexists. split; [done|]. done.
Qed.
End sift.

(** ** The invariant *)

(** [fl] is the list of free slots from [head] on. *)
Fixpoint chain (ss : list tmrslot) (head : option nat) (fl : list nat) : Prop :=
  match fl with
  | [] => head = None
  | s :: fl =>
      head = Some s ∧ (s < length ss)%nat ∧ s_pos (ss !!! s) = None ∧ chain ss (s_next (ss !!! s)) fl
  end.

(** Well-formedness without the heap order. *)
Record wfs (l : net_loop) : Prop := {
  wf_n : (l_ntmr l <= length (l_tmr l))%nat;
  wf_dup : NoDup (slots (armed l));
  wf_range : ∀ s, s ∈ slots (armed l) → (s < length (l_slot l))%nat;
  wf_placed : ∀ j, (j < l_ntmr l)%nat → s_pos (l_slot l !!! t_slot (l_tmr l !!! j)) = Some j;
  wf_pos : ∀ s i, (s < length (l_slot l))%nat → s_pos (l_slot l !!! s) = Some i →
    (i < l_ntmr l)%nat ∧ t_slot (l_tmr l !!! i) = s;
  wf_gen : ∀ s, (s < length (l_slot l))%nat → 1 <= s_gen (l_slot l !!! s) < 4294967296;
  wf_cslot : Z.of_nat (length (l_slot l)) < UINT32_MAX }.

(** Every slot is armed, in the free list, or one of [k] set aside. *)
Definition free_ok (k : nat) (l : net_loop) : Prop :=
  ∃ fl, NoDup fl ∧ chain (l_slot l) (l_freeslot l) fl ∧
    (length fl + k + l_ntmr l = length (l_slot l))%nat.

Definition wf (l : net_loop) : Prop := wfs l ∧ heap (l_ntmr l) (l_tmr l) ∧ free_ok 0 l.

(** An armed timer as its owner sees it: handle, due time, callback and argument. *)
Definition entry (ss : list tmrslot) (t : tmr) : Z * Z * Z * Z :=
  (TMR_ID (s_gen (ss !!! t_slot t)) (t_slot t), t_due t, t_cb t, t_ud t).
Definition timers (l : net_loop) : list (Z * Z * Z * Z) := map (entry (l_slot l)) (armed l).
Definition handle (e : Z * Z * Z * Z) : Z := e.1.1.1.
Definition due (e : Z * Z * Z * Z) : Z := e.1.1.2.

Lemma wf_new alloc epoll l : net_loop_new alloc epoll = Some l → wf l ∧ timers l = [].
Proof.
  unfold net_loop_new. destruct alloc, epoll; try done. intros [= <-]. split; [|done].
  split_and!; [|intros j Hj; cbn in Hj; lia|exists []; split; [constructor|done]].
  constructor; cbn; try done; try lia.
  - constructor.
  - intros s Hs. by apply elem_of_nil in Hs.
Qed.

Lemma chain_None ss head fl s : chain ss head fl → s ∈ fl → s_pos (ss !!! s) = None.
Proof.
  revert head. induction fl as [|x fl IH]; intros head Hc Hs; [by apply elem_of_nil in Hs|].
  destruct Hc as (_ & _ & Hp & Hc). apply elem_of_cons in Hs as [->|Hs]; [done|by eapply IH].
Qed.

Lemma chain_frame ss ss' fl : ∀ head, (length ss <= length ss')%nat →
  (∀ s, s ∈ fl → ss' !!! s = ss !!! s) → chain ss head fl → chain ss' head fl.
Proof.
  induction fl as [|x fl IH]; intros head Hl Hs Hc; [done|]. destruct Hc as (-> & Hx & Hp & Hc).
  cbn [chain]. rewrite (Hs x) by left. split_and!; try done; [lia|].
  apply IH; [lia|intros s Hin; apply Hs; by right|done].
Qed.

Lemma armed_slot l s : wfs l → (s < length (l_slot l))%nat →
  s ∈ slots (armed l) ↔ ∃ i, s_pos (l_slot l !!! s) = Some i.
Proof.
  intros Hw Hs. split.
  - intros Hin. unfold slots in Hin. apply list_elem_of_fmap in Hin as (t & -> & Ht).
    apply list_elem_of_lookup in Ht as [i Hi]. unfold armed in Hi.
    apply lookup_take_Some in Hi as [Hi Hin]. exists i.
    rewrite <-(list_lookup_total_correct _ _ _ Hi). by apply (wf_placed l Hw).
  - intros [i Hi]. destruct (wf_pos l Hw s i Hs Hi) as [Hin <-].
    apply slot_elem; [apply Hw|done].
Qed.

(** A sift that started from a well-formed state ends in one. *)
Lemma settled_wfs l h ss : wfs l → settled (l_ntmr l) (l_tmr l) (l_slot l) h ss →
  wfs (set_slot (set_tmr l h) ss) ∧ timers (set_slot (set_tmr l h) ss) ≡ₚ timers l.
Proof.
  intros Hw [Hl Hsl Hp Hpl Hfr Hot]. pose proof Hw as [W1 W2 W3 W4 W5 W6 W7].
  assert (slots (take (l_ntmr l) h) ≡ₚ slots (armed l)) as Hps by (by apply Permutation_map).
  split.
  - constructor; cbn [l_ntmr l_tmr l_slot l_freeslot set_slot set_tmr armed].
    + lia.
    + unfold armed. cbn. by rewrite Hps.
    + intros s. unfold armed. cbn. rewrite Hps, Hsl. apply W3.
    + done.
    + intros s i Hs Hi. rewrite Hsl in Hs. destruct (decide (s ∈ slots (armed l))) as [Hin|Hni].
      * rewrite <-Hps in Hin. unfold slots in Hin. apply list_elem_of_fmap in Hin as (t & -> & Ht).
        apply list_elem_of_lookup in Ht as [j Hj]. apply lookup_take_Some in Hj as [Hj Hjn].
        rewrite <-(list_lookup_total_correct _ _ _ Hj) in Hi |- *.
        rewrite Hpl in Hi by done. by simplify_eq.
      * exfalso. rewrite Hot in Hi by done. apply Hni. apply armed_slot; eauto.
    + intros s Hs. destruct (Hfr s) as [-> _]. apply W6. lia.
    + lia.
  - unfold timers, armed. cbn. rewrite (map_ext (entry ss) (entry (l_slot l))).
    + by apply Permutation_map.
    + intros t. unfold entry. by destruct (Hfr (t_slot t)) as [-> _].
Qed.

Lemma settled_free k l h ss : wfs l → settled (l_ntmr l) (l_tmr l) (l_slot l) h ss → free_ok k l →
  free_ok k (set_slot (set_tmr l h) ss).
Proof.
  intros Hw [Hl Hsl Hp Hpl Hfr Hot] (fl & Hd & Hc & Hlen). exists fl.
  cbn [l_slot l_freeslot l_ntmr set_slot set_tmr]. split_and!; [done| |lia].
  eapply chain_frame; [|intros s Hs; apply Hot|done]; [lia|].
  intros Hin. assert (s < length (l_slot l))%nat as Hlt by (by apply (wf_range l Hw)).
  apply armed_slot in Hin as [i Hi]; try done. by rewrite (chain_None _ _ _ _ Hc Hs) in Hi.
Qed.

Lemma hole_start n (h : list tmr) ss i : (n <= length h)%nat → (i < n)%nat →
  (∀ j, (j < n)%nat → s_pos (ss !!! t_slot (h !!! j)) = Some j) → hole n h ss h ss i (h !!! i).
Proof.
  intros Hn Hi Hp. constructor; try done.
  - rewrite list_insert_id by (apply list_lookup_lookup_total_lt; lia). done.
  - intros j Hj _. by apply Hp.
Qed.

Lemma tmr_up_spec l i : wfs l → free_ok 0 l → (i < l_ntmr l)%nat → heap_up (l_ntmr l) (l_tmr l) i →
  ∃ h ss, tmr_up l i = Ok (set_slot (set_tmr l h) ss) ∧ wf (set_slot (set_tmr l h) ss) ∧
    timers (set_slot (set_tmr l h) ss) ≡ₚ timers l ∧
    (∀ s, s_gen (ss !!! s) = s_gen (l_slot l !!! s)) ∧ length ss = length (l_slot l).
Proof.
  intros Hw Hf Hi Ho. pose proof Hw as [W1 W2 W3 W4 _ _ _]. unfold tmr_up.
  rewrite aget_Ok by lia. bstep.
  destruct (up_loop_spec (l_ntmr l) (l_tmr l) (l_slot l) W1 W2 W3 (S i) l i (l_tmr l !!! i))
    as (h & ss & -> & Hst & Hh); [lia|by apply hole_start| |].
  { by rewrite list_insert_id by (apply list_lookup_lookup_total_lt; lia). }
  destruct (settled_wfs l h ss Hw Hst) as [Hw' Ht]. do 2 eexists. split; [done|].
  pose proof (settled_free 0 l h ss Hw Hst Hf).
  destruct Hst as [_ Hsl _ _ Hfr _]. split_and!; try done. intros s. apply Hfr.
Qed.

Lemma tmr_down_spec l i : wfs l → free_ok 0 l → (i < l_ntmr l)%nat → heap_down (l_ntmr l) (l_tmr l) i i →
  ∃ h ss, tmr_down l (l_ntmr l) i = Ok (set_slot (set_tmr l h) ss) ∧
    wfs (set_slot (set_tmr l h) ss) ∧ free_ok 0 (set_slot (set_tmr l h) ss) ∧ heap_up (l_ntmr l) h i ∧
    timers (set_slot (set_tmr l h) ss) ≡ₚ timers l.
Proof.
  intros Hw Hf Hi Ho. pose proof Hw as [W1 W2 W3 W4 _ _ _]. unfold tmr_down.
  rewrite aget_Ok by lia. bstep.
  destruct (down_loop_spec (l_ntmr l) (l_tmr l) (l_slot l) W1 W2 W3 i (S (l_ntmr l)) l i
    (l_tmr l !!! i)) as (h & ss & -> & Hst & Hh); [lia|by apply hole_start| |].
  { by rewrite list_insert_id by (apply list_lookup_lookup_total_lt; lia). }
  destruct (settled_wfs l h ss Hw Hst) as [Hw' Ht]. pose proof (settled_free 0 l h ss Hw Hst Hf).
  do 2 eexists. split; done.
Qed.

(** ** Removal *)

Lemma take_S_total (h : list tmr) n : (n < length h)%nat → take (S n) h = take n h ++ [h !!! n].
Proof. intros. apply take_S_r. by apply list_lookup_lookup_total_lt. Qed.

(** Overwriting entry [i] with the last one and dropping that removes [i]. *)
Lemma remove_perm (h : list tmr) n i : (i <= n)%nat → (n < length h)%nat →
  take (S n) h ≡ₚ h !!! i :: take n (<[i := h !!! n]> h).
Proof.
  intros Hi Hn. rewrite take_S_total by done. destruct (decide (i = n)) as [->|E].
  - rewrite take_insert_ge by done. by rewrite Permutation_app_comm.
  - rewrite take_insert_lt by lia. rewrite insert_perm by (rewrite length_take; lia).
    assert (take n h ≡ₚ h !!! i :: delete i (take n h)) as Hp.
    { apply delete_Permutation. rewrite lookup_take_lt by lia.
      apply list_lookup_lookup_total_lt. lia. }
    rewrite Hp at 1. rewrite Permutation_app_comm. cbn. by rewrite Permutation_swap.
Qed.

Definition released (l : net_loop) (i : nat) : list tmrslot :=
  let s := t_slot (l_tmr l !!! i) in
  <[s := TmrSlot None (bump (s_gen (l_slot l !!! s))) (l_freeslot l)]> (l_slot l).

(** The state between taking out entry [i] and restoring the heap order. *)
Definition removed (l : net_loop) (i n : nat) : net_loop :=
  let h := l_tmr l in
  NetLoop (l_stop l) (l_fds l) (<[i := h !!! n]> h) n
    (if bool_decide (i < n)%nat then place (released l i) (t_slot (h !!! n)) i else released l i)
    (Some (t_slot (h !!! i))) (l_pre l) (l_npre l) (l_pre_gaps l).

Lemma bump_range g : 1 <= bump g < 4294967296.
Proof. unfold bump. pose proof (u32_range (g + 1)). destruct (Z.eqb_spec (u32 (g + 1)) 0); lia. Qed.

Section removal.
Context (l : net_loop) (n : nat) (Hw : wfs l) (Hn : l_ntmr l = S n).

Lemma last_in_range : (n < length (l_tmr l))%nat.
Proof using Hw Hn. pose proof (wf_n l Hw). lia. Qed.
Lemma slot_in_range j : (j <= n)%nat → (t_slot (l_tmr l !!! j) < length (l_slot l))%nat.
Proof using Hw Hn.
  intros. apply (wf_range l Hw). apply slot_elem; [apply Hw|lia].
Qed.
Lemma slot_differs j k : (j <= n)%nat → (k <= n)%nat → j ≠ k →
  t_slot (l_tmr l !!! j) ≠ t_slot (l_tmr l !!! k).
Proof using Hw Hn.
  intros Hj Hk Hne E. apply Hne. apply (slots_distinct (l_ntmr l) (l_tmr l)); try done;
    [apply Hw|apply Hw|lia|lia].
Qed.

Context (i : nat) (Hi : (i <= n)%nat).

(** The handle table of the intermediate state. *)
Lemma removed_slot s' : l_slot (removed l i n) !!! s' =
  if bool_decide (s' = t_slot (l_tmr l !!! n)) && bool_decide (i < n)%nat
  then TmrSlot (Some i) (s_gen (l_slot l !!! s')) (s_next (l_slot l !!! s'))
  else if bool_decide (s' = t_slot (l_tmr l !!! i))
  then TmrSlot None (bump (s_gen (l_slot l !!! s'))) (l_freeslot l) else l_slot l !!! s'.
Proof using Hw Hn Hi.
  cbn [l_slot removed]. pose proof (slot_in_range i Hi) as H1. pose proof (slot_in_range n ltac:(lia)).
  assert (∀ x, released l i !!! x = if bool_decide (x = t_slot (l_tmr l !!! i))
    then TmrSlot None (bump (s_gen (l_slot l !!! x))) (l_freeslot l) else l_slot l !!! x) as Hr.
  { intros x. unfold released. rewrite total_insert by done. case_bool_decide; [by subst|done]. }
  destruct (bool_decide (i < n)%nat) eqn:E; [|by rewrite andb_false_r, Hr].
  apply bool_decide_eq_true in E. rewrite andb_true_r.
  rewrite place_get by (unfold released; by rewrite length_insert).
  destruct (decide (s' = t_slot (l_tmr l !!! n))) as [->|Es].
  - rewrite !(bool_decide_true (t_slot (l_tmr l !!! n) = _)) by done.
    by rewrite Hr, bool_decide_false by (apply slot_differs; lia).
  - by rewrite !(bool_decide_false (s' = t_slot (l_tmr l !!! n))), Hr by done.
Qed.

Lemma removed_armed : armed l ≡ₚ l_tmr l !!! i :: armed (removed l i n).
Proof using Hw Hn Hi. unfold armed. rewrite Hn. apply remove_perm; [done|apply last_in_range]. Qed.

Lemma removed_cell j : (j < n)%nat →
  l_tmr (removed l i n) !!! j = if bool_decide (j = i) then l_tmr l !!! n else l_tmr l !!! j.
Proof using Hw Hn Hi. intros. apply total_insert. pose proof last_in_range. lia. Qed.

Lemma removed_timers : timers l ≡ₚ entry (l_slot l) (l_tmr l !!! i) :: timers (removed l i n).
Proof using Hw Hn Hi.
  unfold timers. rewrite (Permutation_map (entry (l_slot l)) removed_armed). cbn [map].
  apply Permutation_skip. erewrite map_ext_in; [done|]. intros t Ht%list_elem_of_In. unfold entry.
  do 4 f_equal. rewrite removed_slot. destruct (bool_decide _ && _); [done|].
  rewrite bool_decide_false; [done|]. intros E.
  pose proof (wf_dup l Hw) as Hd. unfold slots in Hd. 
  rewrite (Permutation_map t_slot removed_armed) in Hd. cbn in Hd.
  apply NoDup_cons in Hd as [Hni _]. apply Hni. rewrite <-E. by apply list_elem_of_fmap_2.
Qed.

Lemma removed_length : length (l_slot (removed l i n)) = length (l_slot l).
Proof using. cbn. unfold released, place. case_bool_decide; by rewrite ?length_insert. Qed.

Lemma removed_wfs : wfs (removed l i n).
Proof using Hw Hn Hi.
  pose proof Hw as [W1 W2 W3 W4 W5 W6 W7]. pose proof last_in_range. pose proof removed_length as Hsl.
  assert (slots (armed l) ≡ₚ t_slot (l_tmr l !!! i) :: slots (armed (removed l i n))) as Hps
    by exact (Permutation_map t_slot removed_armed).
  constructor; rewrite ?Hsl; try done.
  - cbn. rewrite length_insert. lia.
  - rewrite Hps in W2. by apply NoDup_cons in W2 as [_ ?].
  - intros s Hs. apply W3. rewrite Hps. by right.
  - intros j Hj. change (l_ntmr (removed l i n)) with n in Hj. rewrite removed_slot, removed_cell by done.
    destruct (decide (j = i)) as [->|E].
    + by rewrite !(bool_decide_true (i = i)), bool_decide_true, bool_decide_true by done.
    + rewrite (bool_decide_false (j = i)) by done.
      rewrite (bool_decide_false (_ = t_slot (l_tmr l !!! n))) by (apply slot_differs; lia).
      cbn [andb]. rewrite bool_decide_false by (apply slot_differs; lia). apply W4. lia.
  - intros s k Hs Hk. change (l_ntmr (removed l i n)) with n. rewrite removed_slot in Hk.
    destruct (decide (s = t_slot (l_tmr l !!! n) ∧ (i < n)%nat)) as [[-> Hlt]|Hno].
    { rewrite !bool_decide_true in Hk by done. cbn in Hk. injection Hk as Hk. subst k. split; [done|].
      by rewrite removed_cell, bool_decide_true by done. }
    replace (bool_decide (s = t_slot (l_tmr l !!! n)) && bool_decide (i < n)%nat) with false in Hk.
    2: { symmetry. apply andb_false_iff. rewrite !bool_decide_eq_false. destruct (decide (s = t_slot (l_tmr l !!! n))); tauto. }
    case_bool_decide as Es; [done|]. destruct (W5 s k Hs Hk) as [Hkn <-].
    assert (k ≠ i) by (by intros ->). assert (k ≠ n) by (intros ->; destruct (decide (i = n)); [by subst|apply Hno; split; [done|lia]]).
    split; [lia|]. by rewrite removed_cell, bool_decide_false by lia.
  - intros s Hs. rewrite removed_slot. destruct (bool_decide _ && _); [by apply W6|].
    case_bool_decide; [apply bump_range|by apply W6].
Qed.

Lemma removed_free : free_ok 0 l → free_ok 0 (removed l i n).
Proof using Hw Hn Hi.
  intros (fl & Hd & Hc & Hlen). pose proof removed_length as Hsl.
  assert (∀ s, s ∈ fl → s ≠ t_slot (l_tmr l !!! i) ∧ s ≠ t_slot (l_tmr l !!! n)) as Hfl.
  { intros s Hs. pose proof (chain_None _ _ _ _ Hc Hs) as Hp.
    split; intros ->; rewrite (wf_placed l Hw) in Hp by lia; done. }
  exists (t_slot (l_tmr l !!! i) :: fl). split_and!.
  - apply NoDup_cons. split; [|done]. intros Hin. by destruct (Hfl _ Hin).
  - assert (l_slot (removed l i n) !!! t_slot (l_tmr l !!! i) =
      TmrSlot None (bump (s_gen (l_slot l !!! t_slot (l_tmr l !!! i)))) (l_freeslot l)) as Hri.
    { rewrite removed_slot, (bool_decide_true (t_slot (l_tmr l !!! i) = t_slot (l_tmr l !!! i))) by done.
      destruct (decide (i < n)%nat) as [E|E]; [|by rewrite (bool_decide_false (i < n)%nat), andb_false_r].
      rewrite bool_decide_false; [done|]. apply slot_differs; lia. }
    cbn [chain]. rewrite Hsl, Hri. split_and!; [done|apply slot_in_range; lia|done|]. cbn [s_next].
    eapply chain_frame; [|intros s Hs|done]; [lia|]. destruct (Hfl s Hs).
    by rewrite removed_slot, !(bool_decide_false (s = _)).
  - rewrite Hsl. cbn [length l_ntmr removed]. lia.
Qed.

Lemma removed_order : heap (l_ntmr l) (l_tmr l) → (i < n)%nat →
  heap_down n (l_tmr (removed l i n)) i i.
Proof using Hw Hn Hi.
  intros Hh Hlt. unfold heap in Hh. rewrite Hn in Hh. split_and!; [| |done|done].
  - intros j Hj Hji Hpj. pose proof (parent_lt j ltac:(lia)).
    rewrite !removed_cell, !bool_decide_false by lia. apply Hh. lia.
  - intros c Hc Hi0 Hpc. pose proof (parent_lt c ltac:(lia)). pose proof (parent_lt i Hi0).
    rewrite !removed_cell, !bool_decide_false by lia. pose proof (Hh c ltac:(lia)) as A.
    pose proof (Hh i ltac:(lia)). rewrite Hpc in A. lia.
Qed.
End removal.

Lemma tmr_remove_spec l i : wf l → (i < l_ntmr l)%nat →
  ∃ l', tmr_remove l i = Ok l' ∧ wf l' ∧ S (l_ntmr l') = l_ntmr l ∧
    timers l ≡ₚ entry (l_slot l) (l_tmr l !!! i) :: timers l'.
Proof.
  intros (Hw & Hh & Hf) Hi. destruct (l_ntmr l) as [|n] eqn:Hn; [lia|].
  assert (i <= n)%nat as Hin by lia. rewrite <-Hn in Hh.
  pose proof (removed_wfs l n Hw Hn i Hin) as Hr. pose proof (removed_free l n Hw Hn i Hin Hf) as Hrf. pose proof (removed_timers l n Hw Hn i Hin) as Ht.
  pose proof (last_in_range l n Hw Hn). pose proof (slot_in_range l n Hw Hn i Hin) as Hsi.
  unfold tmr_remove. rewrite aget_Ok by lia. bstep. rewrite aget_Ok by done. bstep.
  rewrite aset_Ok by done. bstep. cbn [l_ntmr set_freeslot set_slot]. rewrite Hn.
  cbn [l_tmr set_ntmr set_freeslot set_slot]. rewrite aget_Ok by lia. bstep.
  rewrite aset_Ok by lia. bstep. fold (released l i). unfold removed in *.
  case_bool_decide as Hlt.
  - unfold tmr_place. cbn [l_tmr l_slot set_tmr set_ntmr set_freeslot set_slot].
    rewrite aget_Ok by (rewrite length_insert; lia). bstep.
    rewrite list_lookup_total_insert_eq by lia.
    pose proof (slot_in_range l n Hw Hn n ltac:(lia)) as Hsn.
    assert (length (released l i) = length (l_slot l)) as Hrl by apply length_insert.
    rewrite aget_Ok by (by rewrite Hrl). bstep. rewrite aset_Ok by (by rewrite Hrl). bstep.
    fold (place (released l i) (t_slot (l_tmr l !!! n)) i).
    pose proof (removed_order l n Hw Hn i Hin Hh Hlt) as Ho. unfold removed in Ho.
    rewrite bool_decide_true in Ho by done.
    destruct (tmr_down_spec _ i Hr Hrf Hlt Ho) as (h & ss & Hd & Hw' & Hf' & Hup & Ht').
    match type of Hd with ?X = _ => match goal with |- context [tmr_down ?a n i] =>
      change (tmr_down a n i) with X end end.
    rewrite Hd. bstep.
    destruct (tmr_up_spec _ i Hw' Hf' Hlt Hup) as (h' & ss' & Hu & Hw'' & Ht'' & _).
    rewrite Hu. eexists. split; [done|]. split; [done|]. split; [done|]. by rewrite Ht'', Ht'.
  - eexists. split; [done|]. split_and!; [split_and!; [exact Hr| |exact Hrf]|done|exact Ht].
    intros j Hj. cbn [l_ntmr l_tmr set_tmr set_ntmr set_freeslot set_slot] in Hj |- *.
    assert (i = n) as -> by lia. rewrite Hn in Hh.
    pose proof (parent_lt j ltac:(lia)). rewrite !list_lookup_total_insert_ne by lia. apply Hh. lia.
Qed.

(** ** Handles *)

Lemma TMR_ID_parts g s : 1 <= g < 4294967296 → Z.of_nat s < 4294967296 →
  TMR_SLOT (TMR_ID g s) = Z.of_nat s ∧ TMR_GEN (TMR_ID g s) = g ∧ 0 < TMR_ID g s < 18446744073709551616.
Proof.
  intros Hg Hs. unfold TMR_ID. rewrite lor_low by (change (2 ^ 32) with 4294967296; lia).
  change (2 ^ 32) with 4294967296. unfold TMR_SLOT, TMR_GEN.
  change 4294967295 with (Z.ones 32). rewrite Z.land_ones, shiftr_div by lia.
  change (2 ^ 32) with 4294967296. rewrite u32_small by (Z.to_euclidean_division_equations; lia).
  split_and!; Z.to_euclidean_division_equations; lia.
Qed.

Lemma TMR_ID_split id : 0 <= id < 18446744073709551616 →
  TMR_ID (TMR_GEN id) (Z.to_nat (TMR_SLOT id)) = id ∧ 0 <= TMR_SLOT id < 4294967296.
Proof.
  intros Hid. unfold TMR_ID, TMR_GEN, TMR_SLOT.
  change 4294967295 with (Z.ones 32). rewrite Z.land_ones, shiftr_div by lia.
  change (2 ^ 32) with 4294967296. pose proof (Z.mod_pos_bound id 4294967296 ltac:(lia)).
  rewrite u32_small, Z2Nat.id by (Z.to_euclidean_division_equations; lia).
  rewrite lor_low by (change (2 ^ 32) with 4294967296; lia). change (2 ^ 32) with 4294967296.
  split; Z.to_euclidean_division_equations; lia.
Qed.

(** The timer in heap cell [i] has the handle of its slot. *)
Lemma armed_entry l i : wfs l → (i < l_ntmr l)%nat →
  entry (l_slot l) (l_tmr l !!! i) ∈ timers l.
Proof.
  intros Hw Hi. apply list_elem_of_fmap_2. apply (list_elem_of_lookup_2 _ i). unfold armed.
  rewrite lookup_take_lt by done. apply list_lookup_lookup_total_lt. pose proof (wf_n l Hw). lia.
Qed.

Lemma timers_inv l e : wfs l → e ∈ timers l →
  ∃ i, (i < l_ntmr l)%nat ∧ e = entry (l_slot l) (l_tmr l !!! i) ∧
    (t_slot (l_tmr l !!! i) < length (l_slot l))%nat.
Proof.
  intros Hw He. unfold timers in He. apply list_elem_of_fmap in He as (t & -> & Ht).
  apply list_elem_of_lookup in Ht as [i Hi]. unfold armed in Hi.
  apply lookup_take_Some in Hi as [Hi Hin]. exists i.
  rewrite <-(list_lookup_total_correct _ _ _ Hi). split_and!; try done.
  apply (wf_range l Hw), slot_elem; [apply Hw|done].
Qed.

Lemma handle_slot l e : wfs l → e ∈ timers l →
  ∃ i, (i < l_ntmr l)%nat ∧ e = entry (l_slot l) (l_tmr l !!! i) ∧
    TMR_SLOT (handle e) = Z.of_nat (t_slot (l_tmr l !!! i)) ∧
    TMR_GEN (handle e) = s_gen (l_slot l !!! t_slot (l_tmr l !!! i)) ∧
    (t_slot (l_tmr l !!! i) < length (l_slot l))%nat ∧ handle e ≠ 0.
Proof.
  intros Hw He. destruct (timers_inv l e Hw He) as (i & Hi & -> & Hs). exists i.
  pose proof (wf_cslot l Hw) as Hc. unfold UINT32_MAX in Hc.
  destruct (TMR_ID_parts (s_gen (l_slot l !!! t_slot (l_tmr l !!! i))) (t_slot (l_tmr l !!! i)))
    as (E1 & E2 & E3); [by apply Hw|lia|]. unfold handle, entry; cbn. split_and!; try done. lia.
Qed.

Lemma net_loop_cancel_spec l id : wf l → 0 <= id < 18446744073709551616 →
  if bool_decide (id ∈ map handle (timers l))
  then ∃ l' e, net_loop_cancel l id = Ok (l', NET_OK) ∧ wf l' ∧ handle e = id ∧ timers l ≡ₚ e :: timers l'
  else net_loop_cancel l id = Ok (l, NET_ERR).
Proof.
  intros Hw Hid. pose proof Hw as (Hws & _). destruct (TMR_ID_split id Hid) as [Eid Hsl].
  assert (id ∈ map handle (timers l) →
    (Z.to_nat (TMR_SLOT id) < length (l_slot l))%nat ∧
    s_gen (l_slot l !!! Z.to_nat (TMR_SLOT id)) = TMR_GEN id ∧
    ∃ i, s_pos (l_slot l !!! Z.to_nat (TMR_SLOT id)) = Some i) as Hin.
  { intros Hin. apply list_elem_of_fmap in Hin as (e & -> & He).
    destruct (handle_slot l e Hws He) as (i & Hi & -> & E1 & E2 & E3 & _).
    rewrite E1, Nat2Z.id. split_and!; [done|done|]. exists i. by apply Hws. }
  unfold net_loop_cancel.
  destruct (Z.leb_spec (Z.of_nat (length (l_slot l))) (TMR_SLOT id)) as [Hge|Hlt].
  { rewrite bool_decide_false; [done|]. intros [? _]%Hin. lia. }
  rewrite aget_Ok by lia. bstep.
  destruct (Z.eqb_spec (s_gen (l_slot l !!! Z.to_nat (TMR_SLOT id))) (TMR_GEN id)) as [Eg|Eg]; cbn [negb].
  2: { rewrite bool_decide_false; [done|]. by intros (_ & ? & _)%Hin. }
  destruct (s_pos (l_slot l !!! Z.to_nat (TMR_SLOT id))) as [i|] eqn:Ep.
  2: { rewrite bool_decide_false; [done|]. intros (_ & _ & i & ?)%Hin. done. }
  destruct (wf_pos l Hws (Z.to_nat (TMR_SLOT id)) i ltac:(lia) Ep) as [Hi Hsi].
  destruct (tmr_remove_spec l i Hw Hi) as (l' & -> & Hw' & _ & Ht). bstep.
  assert (handle (entry (l_slot l) (l_tmr l !!! i)) = id) as Hh.
  { unfold handle, entry. cbn. by rewrite Hsi, Eg. }
  rewrite bool_decide_true; [by exists l', (entry (l_slot l) (l_tmr l !!! i))|].
  rewrite <-Hh. apply list_elem_of_fmap_2. by apply armed_entry.
Qed.

(** ** Arming *)

Lemma fresh_total ss a c s : a = length ss → (a <= s < c)%nat →
  (ss ++ fresh_slots a c) !!! s =
    TmrSlot None 1 (if bool_decide (s + 1 < c)%nat then Some (s + 1)%nat else None).
Proof.
  intros -> Hs. apply list_lookup_total_correct. rewrite lookup_app_r by lia. unfold fresh_slots.
  rewrite list_lookup_fmap, lookup_seq_lt by lia. cbn.
  by replace (length ss + (s - length ss))%nat with s by lia.
Qed.

Lemma length_fresh a c : length (fresh_slots a c) = (c - a)%nat.
Proof. unfold fresh_slots. by rewrite length_map, length_seq. Qed.

Lemma fresh_chain ss a c : a = length ss → ∀ m p, (p + m = c)%nat → (a <= p)%nat →
  chain (ss ++ fresh_slots a c) (if bool_decide (m = 0%nat) then None else Some p) (seq p m).
Proof.
  intros Ha. induction m as [|m IH]; intros p Hp Hap; [done|]. cbn [seq chain].
  rewrite (fresh_total ss a c p) by (done || lia).
  split_and!; [done|rewrite length_app, length_fresh; lia|done|]. cbn [s_next].
  specialize (IH (S p) ltac:(lia) ltac:(lia)). replace (p + 1)%nat with (S p) by lia.
  destruct (decide (m = 0%nat)) as [->|Hm].
  - rewrite bool_decide_false by lia. done.
  - rewrite bool_decide_false in IH by done. by rewrite bool_decide_true by lia.
Qed.

(** A state with a handle set aside. *)
Definition reserved (l : net_loop) (s : nat) : Prop :=
  wfs l ∧ (s < length (l_slot l))%nat ∧ s_pos (l_slot l !!! s) = None ∧
  ∃ fl, NoDup fl ∧ (s ∉ fl) ∧ chain (l_slot l) (l_freeslot l) fl ∧
    (length fl + 1 + l_ntmr l = length (l_slot l))%nat.

Lemma take_free l s fl : wfs l → NoDup (s :: fl) → chain (l_slot l) (Some s) (s :: fl) →
  (length (s :: fl) + l_ntmr l = length (l_slot l))%nat →
  reserved (set_freeslot l (s_next (l_slot l !!! s))) s.
Proof.
  intros [W1 W2 W3 W4 W5 W6 W7] Hnd (_ & Hs & Hp & Hc) Hlen. cbn [length] in Hlen.
  apply NoDup_cons in Hnd as [Hni Hd].
  split; [by constructor|]. split_and!; [done|done|]. exists fl. split_and!; try done. cbn. lia.
Qed.

Lemma tmr_slot_alloc_spec grow l : wfs l → free_ok 0 l →
  (∃ l' s, tmr_slot_alloc grow l = Ok (l', Some s) ∧ reserved l' s ∧ l_tmr l' = l_tmr l ∧
     l_ntmr l' = l_ntmr l ∧ timers l' = timers l) ∨
  (tmr_slot_alloc grow l = Ok (l, None) ∧ (grow = false ∨ UINT32_MAX <= 2 * Z.of_nat (l_ntmr l))).
Proof.
  intros Hw (fl & W8 & W9 & W10). pose proof Hw as [W1 W2 W3 W4 W5 W6 W7]. unfold tmr_slot_alloc.
  destruct (l_freeslot l) as [s|] eqn:Ef.
  { destruct fl as [|s' fl]; [done|]. pose proof W9 as ([= <-] & Hs & _). left.
    rewrite aget_Ok by done. bstep. do 2 eexists. split; [done|]. split_and!; try done.
    eapply take_free; try done. lia. }
  destruct fl as [|? ?]; [|by destruct W9]. cbn [length] in W10.
  set (a := length (l_slot l)) in *.
  set (c := if bool_decide (a = 0%nat) then 16%nat else (a * 2)%nat). cbv zeta.
  assert (a < c)%nat as Hac by (unfold c; case_bool_decide; lia).
  destruct (Z.leb_spec UINT32_MAX (Z.of_nat c)) as [Hge|Hlt].
  { right. split; [done|]. right. unfold c, UINT32_MAX in *. case_bool_decide; lia. }
  destruct grow; cbn [negb]; [|by right; split; [done|left]].
  left. set (l1 := set_freeslot (set_slot l (l_slot l ++ fresh_slots a c)) (Some a)).
  assert (∀ s, (s < a)%nat → l_slot l1 !!! s = l_slot l !!! s) as Hold.
  { intros s Hs. cbn. unfold a in Hs. rewrite !list_lookup_total_alt, lookup_app_l by done. done. }
  assert (length (l_slot l1) = c) as Hl1.
  { cbn. rewrite length_app, length_fresh. unfold a in *. lia. }
  assert (∀ s, (s < c)%nat → (s < a)%nat ∨ s_pos (l_slot l1 !!! s) = None ∧ s_gen (l_slot l1 !!! s) = 1)
    as Hnew.
  { intros s Hs. destruct (decide (s < a)%nat); [by left|right]. cbn.
    by rewrite (fresh_total _ a c) by (done || lia). }
  pose proof (fresh_chain (l_slot l) a c eq_refl (c - a) a ltac:(lia) ltac:(lia)) as Hch.
  rewrite bool_decide_false in Hch by lia.
  assert (wfs l1) as Hw1.
  { constructor; try done; rewrite ?Hl1.
    - intros s Hs. pose proof (W3 s Hs). unfold a in Hac. lia.
    - intros j Hj. rewrite Hold; [by apply W4|]. apply W3, slot_elem; done.
    - intros s i Hs Hi. destruct (Hnew s Hs) as [Ha|[E _]]; [|by rewrite E in Hi].
      rewrite Hold in Hi by done. by apply W5.
    - intros s Hs. destruct (Hnew s Hs) as [Ha|[_ ->]]; [rewrite Hold by done; by apply W6|lia].
    - unfold UINT32_MAX in *. lia. }
  destruct (c - a)%nat as [|m] eqn:Ec; [lia|]. cbn [seq] in Hch. pose proof Hch as (_ & Hs & _).
  change (l_freeslot l1) with (Some a). cbn match. rewrite aget_Ok by done. bstep.
  do 2 eexists. split; [done|]. split_and!; [|done|done|].
  - apply (take_free l1 a (seq (S a) m)); [done| |done|].
    + apply (NoDup_seq a (S m)).
    + rewrite Hl1. cbn [length l_ntmr l1 set_freeslot set_slot]. rewrite length_seq. lia.
  - unfold timers. cbn. apply map_ext_in. intros t Ht%list_elem_of_In. unfold entry.
    change (l_slot l ++ fresh_slots a c) with (l_slot l1). rewrite Hold; [done|].
    apply W3. by apply list_elem_of_fmap_2.
Qed.

Lemma grown_wf l x : wf l → wf (set_tmr l (l_tmr l ++ x)) ∧ timers (set_tmr l (l_tmr l ++ x)) = timers l.
Proof.
  intros ([W1 W2 W3 W4 W5 W6 W7] & Hh & Hf).
  assert (armed (set_tmr l (l_tmr l ++ x)) = armed l) as Ha.
  { unfold armed. cbn. by rewrite take_app_le. }
  assert (∀ j, (j < l_ntmr l)%nat → (l_tmr l ++ x) !!! j = l_tmr l !!! j) as Hj.
  { intros j Hj. by rewrite !list_lookup_total_alt, lookup_app_l by lia. }
  split; [|unfold timers; by rewrite Ha]. split_and!; [| |exact Hf].
  - constructor; try done; rewrite ?Ha; try done.
    + cbn. rewrite length_app. lia.
    + intros j Hjn. cbn. rewrite Hj by done. by apply W4.
    + intros s i Hs Hi. destruct (W5 s i Hs Hi). cbn. rewrite Hj by done. done.
  - intros j Hjn. cbn [l_ntmr l_tmr set_tmr] in *. pose proof (parent_lt j ltac:(lia)).
    rewrite !Hj by lia. by apply Hh.
Qed.

(** A new last entry with the handle set aside. *)
Definition pushed (l : net_loop) (t : tmr) : net_loop :=
  NetLoop (l_stop l) (l_fds l) (<[l_ntmr l := t]> (l_tmr l)) (S (l_ntmr l))
    (place (l_slot l) (t_slot t) (l_ntmr l)) (l_freeslot l) (l_pre l) (l_npre l) (l_pre_gaps l).

Lemma pushed_spec l t : reserved l (t_slot t) → heap (l_ntmr l) (l_tmr l) →
  (l_ntmr l < length (l_tmr l))%nat →
  wfs (pushed l t) ∧ free_ok 0 (pushed l t) ∧ heap_up (S (l_ntmr l)) (l_tmr (pushed l t)) (l_ntmr l) ∧
  timers (pushed l t) ≡ₚ entry (l_slot l) t :: timers l ∧
  (∀ s, s_gen (l_slot (pushed l t) !!! s) = s_gen (l_slot l !!! s)).
Proof.
  intros (Hw & Hs & Hp & fl & Hd & Hni & Hc & Hlen) Hh Hn. pose proof Hw as [W1 W2 W3 W4 W5 W6 W7].
  set (s := t_slot t) in *. set (n := l_ntmr l) in *.
  assert (∀ x, l_slot (pushed l t) !!! x = if bool_decide (x = s)
    then TmrSlot (Some n) (s_gen (l_slot l !!! s)) (s_next (l_slot l !!! s)) else l_slot l !!! x) as Hx
    by (intros; by apply place_get).
  assert (∀ x, s_gen (l_slot (pushed l t) !!! x) = s_gen (l_slot l !!! x)) as Hg.
  { intros x. rewrite Hx. case_bool_decide; [by subst|done]. }
  assert (s ∉ slots (armed l)) as Hsn.
  { intros [i Hi]%armed_slot; try done. by rewrite Hp in Hi. }
  assert (armed (pushed l t) = armed l ++ [t]) as Ha.
  { unfold armed, pushed. cbn [l_ntmr l_tmr]. fold n. rewrite take_S_total by (by rewrite length_insert).
    by rewrite take_insert_ge, list_lookup_total_insert_eq by lia. }
  assert (∀ j, (j < n)%nat → l_tmr (pushed l t) !!! j = l_tmr l !!! j) as Hj.
  { intros j Hj. apply list_lookup_total_insert_ne. fold n. lia. }
  assert (l_tmr (pushed l t) !!! n = t) as Hjn by (by apply list_lookup_total_insert_eq).
  assert (length (l_slot (pushed l t)) = length (l_slot l)) as Hsl by (cbn; apply length_insert).
  split_and!.
  - constructor; rewrite ?Ha, ?Hsl; try done.
    + cbn. rewrite length_insert. fold n. lia.
    + unfold slots. rewrite map_app. apply NoDup_app. split_and!; [done| |apply NoDup_singleton].
      intros x Hx1 Hx2. apply list_elem_of_singleton in Hx2. by subst x.
    + intros x. unfold slots. rewrite map_app, elem_of_app. cbn. rewrite list_elem_of_singleton.
      intros [?| ->]; [by apply W3|done].
    + intros j Hjl. change (l_ntmr (pushed l t)) with (S n) in Hjl.
      destruct (decide (j = n)) as [->|E]; [rewrite Hjn, Hx; fold s; by rewrite bool_decide_true|].
      rewrite Hj, Hx by lia. rewrite bool_decide_false; [apply W4; fold n; lia|].
      intros E'. apply Hsn. rewrite <-E'. apply slot_elem; fold n; lia.
    + intros x i Hxl Hi. change (l_ntmr (pushed l t)) with (S n). rewrite Hx in Hi.
      case_bool_decide as E; [simplify_eq/=; split; [lia|by rewrite Hjn]|].
      destruct (W5 x i Hxl Hi) as [Hin <-]. fold n in Hin. split; [lia|by rewrite Hj].
    + intros x Hxl. rewrite Hg. by apply W6.
  - exists fl. split_and!; [done| |rewrite Hsl; cbn; fold n; lia].
    eapply chain_frame; [|intros x Hxin; rewrite Hx|exact Hc]; [lia|].
    rewrite bool_decide_false; [done|]. by intros ->.
  - split.
    + intros j Hjl Hne. pose proof (parent_lt j ltac:(lia)). rewrite !Hj by lia. apply Hh. fold n. lia.
    + intros c Hc' Hn0 Hpc. pose proof (parent_lt c ltac:(lia)). lia.
  - unfold timers. rewrite Ha, map_app. cbn [map]. rewrite Permutation_app_comm. cbn [app].
    erewrite (map_ext (entry (l_slot (pushed l t))) (entry (l_slot l)));
      [|intros t'; unfold entry; by rewrite Hg]. unfold entry at 1. by rewrite Hg.
  - done.
Qed.

Lemma length_timers l : wfs l → length (timers l) = l_ntmr l.
Proof.
  intros Hw. unfold timers, armed. rewrite length_map, length_take. pose proof (wf_n l Hw). lia.
Qed.

Lemma net_loop_after_spec gh gs now l ms cb ud : wf l →
  ∃ l' id, net_loop_after gh gs now l ms cb ud = Ok (l', id) ∧ wf l' ∧
    (id = 0 ∧ timers l' = timers l ∧
       (cb = 0 ∨ gh = false ∨ gs = false ∨ UINT32_MAX <= 2 * Z.of_nat (length (timers l))) ∨
     cb ≠ 0 ∧ 0 < id < 18446744073709551616 ∧ (id ∉ map handle (timers l)) ∧
       timers l' ≡ₚ (id, u64 (now + ms), cb, ud) :: timers l).
Proof.
  intros Hw. unfold net_loop_after. destruct (Z.eqb_spec cb 0) as [->|Hcb].
  { do 2 eexists. split; [done|]. split; [done|]. left. auto. }
  destruct (bool_decide (l_ntmr l = length (l_tmr l)) && negb gh) eqn:Eg.
  { apply andb_true_iff in Eg as [_ Eg]. do 2 eexists. split; [done|]. split; [done|]. left.
    destruct gh; [done|auto]. }
  set (l1 := if bool_decide (l_ntmr l = length (l_tmr l)) then _ else l). cbv zeta. clear Eg.
  assert (wf l1 ∧ timers l1 = timers l ∧ (l_ntmr l1 < length (l_tmr l1))%nat ∧ l_ntmr l1 = l_ntmr l)
    as ((Hw1 & Hh1 & Hf1) & Ht1 & Hn1 & Hs1).
  { unfold l1. pose proof (wf_n l (proj1 Hw)). case_bool_decide as E; [|split_and!; try done; lia].
    destruct (grown_wf l (replicate ((if bool_decide (length (l_tmr l) = 0%nat) then 16
      else length (l_tmr l) * 2)%nat - length (l_tmr l)) junk_tmr) Hw) as [? ?].
    split_and!; try done. cbn [l_tmr l_ntmr set_tmr]. rewrite length_app, length_replicate.
    case_bool_decide; lia. }
  destruct (tmr_slot_alloc_spec gs l1 Hw1 Hf1) as [(l2 & s & -> & Hr & E1 & E2 & E3)|[-> Hf]]; bstep.
  2: { do 2 eexists. split; [done|]. split; [done|]. left. rewrite Hs1, <-(length_timers l (proj1 Hw)) in Hf.
       naive_solver. }
  set (t := Tmr (u64 (now + ms)) s cb ud). pose proof Hr as (Hw2 & Hs2 & Hp2 & _).
  destruct (pushed_spec l2 t Hr) as (Hwp & Hfp & Hop & Htp & Hgp); [by rewrite E1, E2|by rewrite E1, E2|].
  rewrite aset_Ok by (by rewrite E1, E2). bstep. rewrite aget_Ok by done. bstep.
  rewrite aset_Ok by done. bstep. change (set_ntmr _ _) with (pushed l2 t).
  destruct (tmr_up_spec (pushed l2 t) (l_ntmr l2) Hwp Hfp) as (h & ss & -> & Hw' & Ht' & Hg' & Hl');
    [cbn; lia|done|]. bstep. cbn [l_slot set_slot].
  rewrite aget_Ok by (rewrite Hl'; cbn; unfold place; by rewrite length_insert). bstep.
  rewrite Hg', Hgp. do 2 eexists. split; [done|]. split; [done|]. right.
  pose proof (wf_cslot l2 Hw2) as Hc. unfold UINT32_MAX in Hc.
  destruct (TMR_ID_parts (s_gen (l_slot l2 !!! s)) s) as (P1 & P2 & P3); [by apply Hw2|lia|].
  split_and!; [done|lia|lia| |].
  - rewrite <-Ht1, <-E3. intros Hin. apply list_elem_of_fmap in Hin as (e & Ee & He).
    destruct (handle_slot l2 e Hw2 He) as (i & Hi & -> & F1 & _). rewrite <-Ee, P1 in F1.
    assert (s = t_slot (l_tmr l2 !!! i)) as E by lia. rewrite E in Hp2.
    by rewrite (wf_placed l2 Hw2) in Hp2.
  - by rewrite Ht', Htp, E3, Ht1.
Qed.

(** ** Firing *)

Lemma heap_root n h j : heap n h → (j < n)%nat → t_due (h !!! 0%nat) <= t_due (h !!! j).
Proof.
  intros Hh. induction (lt_wf j) as [j _ IH]. intros Hj. destruct (decide (j = 0%nat)) as [->|]; [done|].
  pose proof (parent_lt j ltac:(lia)). pose proof (IH (parent j) ltac:(lia) ltac:(lia)).
  pose proof (Hh j ltac:(lia)). lia.
Qed.

Lemma root_due l e : wf l → e ∈ timers l → t_due (l_tmr l !!! 0%nat) <= due e.
Proof.
  intros (Hw & Hh & _) He. destruct (timers_inv l e Hw He) as (i & Hi & -> & _).
  by apply (heap_root (l_ntmr l)).
Qed.

(** Callbacks that note that they ran. *)
Definition note (cb ud : Z) (lw : net_loop * list (Z * Z)) : res (net_loop * list (Z * Z)) :=
  Ok (lw.1, lw.2 ++ [(cb, ud)]).
Lemma note_eq cb ud l w : note cb ud (l, w) = Ok (l, w ++ [(cb, ud)]).
Proof. done. Qed.
Definition call_of (e : Z * Z * Z * Z) : Z * Z := (e.1.2, e.2).

Definition by_due (e e' : Z * Z * Z * Z) : Prop := due e <= due e'.

Lemma run_due_spec now fuel : ∀ l w, wf l → (l_ntmr l < fuel)%nat →
  ∃ l' fired, run_due note fuel now (l, w) = Ok (l', w ++ map call_of fired) ∧ wf l' ∧
    timers l ≡ₚ fired ++ timers l' ∧ StronglySorted by_due fired ∧
    Forall (λ e, due e <= now) fired ∧ Forall (λ e, now < due e) (timers l').
Proof.
  induction fuel as [|fuel IH]; intros l w Hw Hf; [lia|]. cbn [run_due fst snd].
  pose proof Hw as (Hws & Hh & _). case_bool_decide as E.
  { exists l, []. rewrite app_nil_r. split_and!; try done; [constructor|].
    unfold timers, armed. rewrite E. constructor. }
  rewrite aget_Ok by (pose proof (wf_n l Hws); lia). bstep.
  destruct (Z.leb_spec (t_due (l_tmr l !!! 0%nat)) now) as [Hd|Hd].
  2: { exists l, []. rewrite app_nil_r. split_and!; try done; [constructor|].
       apply Forall_forall. intros e He. pose proof (root_due l e Hw He). lia. }
  destruct (tmr_remove_spec l 0 Hw ltac:(lia)) as (l1 & -> & Hw1 & Hn1 & Ht). bstep.
  rewrite note_eq. bstep.
  set (e := entry (l_slot l) (l_tmr l !!! 0%nat)) in *.
  destruct (IH l1 (w ++ [(t_cb (l_tmr l !!! 0%nat), t_ud (l_tmr l !!! 0%nat))]) Hw1 ltac:(lia))
    as (l' & fired & -> & Hw' & Ht' & Hs & Hle & Hgt).
  exists l', (e :: fired). rewrite <-app_assoc. split_and!; try done.
  - by rewrite Ht, Ht'.
  - constructor; [done|]. apply Forall_forall. intros e' He'. apply (root_due l e' Hw).
    rewrite Ht, Ht'. right. apply elem_of_app. by left.
  - by constructor.
Qed.

(** ** Refinement of a bag of timers *)

Inductive op :=
| Arm (grow_heap grow_slots : bool) (now ms cb ud : Z)
| Disarm (id : Z)
| Expire (now : Z).
Inductive out := Handle (id : Z) | Code (rc : Z) | Fired (calls : list (Z * Z)).

Definition exec (o : op) (l : net_loop) : res (net_loop * out) :=
  match o with
  | Arm gh gs now ms cb ud => '(l, id) ← net_loop_after gh gs now l ms cb ud; Ok (l, Handle id)
  | Disarm id => '(l, rc) ← net_loop_cancel l id; Ok (l, Code rc)
  | Expire now => '(l, calls) ← run_due note (S (l_ntmr l)) now (l, []); Ok (l, Fired calls)
  end.

Fixpoint exec_all (os : list op) (l : net_loop) : res (net_loop * list out) :=
  match os with
  | [] => Ok (l, [])
  | o :: os => '(l, x) ← exec o l; '(l, xs) ← exec_all os l; Ok (l, x :: xs)
  end.

(** What the operations promise, on a bag of armed timers. *)
Inductive bag_step (b : list (Z * Z * Z * Z)) : op → out → list (Z * Z * Z * Z) → Prop :=
| bag_refused gh gs now ms cb ud :
    cb = 0 ∨ gh = false ∨ gs = false ∨ UINT32_MAX <= 2 * Z.of_nat (length b) →
    bag_step b (Arm gh gs now ms cb ud) (Handle 0) b
| bag_armed gh gs now ms cb ud id :
    cb ≠ 0 → 0 < id < 18446744073709551616 → (id ∉ map handle b) →
    bag_step b (Arm gh gs now ms cb ud) (Handle id) ((id, u64 (now + ms), cb, ud) :: b)
| bag_cancelled id e b' :
    b ≡ₚ e :: b' → handle e = id → bag_step b (Disarm id) (Code NET_OK) b'
| bag_unknown id : id ∉ map handle b → bag_step b (Disarm id) (Code NET_ERR) b
| bag_expired now fired b' :
    b ≡ₚ fired ++ b' → StronglySorted by_due fired →
    Forall (λ e, due e <= now) fired → Forall (λ e, now < due e) b' →
    bag_step b (Expire now) (Fired (map call_of fired)) b'.

Inductive bag_run : list (Z * Z * Z * Z) → list op → list out → list (Z * Z * Z * Z) → Prop :=
| bag_done b b' : b ≡ₚ b' → bag_run b [] [] b'
| bag_more b b1 b2 o os x xs b' :
    b ≡ₚ b1 → bag_step b1 o x b2 → bag_run b2 os xs b' → bag_run b (o :: os) (x :: xs) b'.

Lemma bag_run_perm b1 b2 os xs b' : b1 ≡ₚ b2 → bag_run b2 os xs b' → bag_run b1 os xs b'.
Proof.
  intros Hp Hr. inversion Hr as [? ? H|? b ? ? ? ? ? ? H Hs Hr']; subst.
  - apply bag_done. by rewrite Hp.
  - eapply bag_more; [|exact Hs|exact Hr']. by rewrite Hp.
Qed.

Definition op_ok (o : op) : Prop :=
  match o with Disarm id => 0 <= id < 18446744073709551616 | _ => True end.

Lemma exec_refines o l : wf l → op_ok o →
  ∃ l' x b', exec o l = Ok (l', x) ∧ wf l' ∧ bag_step (timers l) o x b' ∧ b' ≡ₚ timers l'.
Proof.
  intros Hw Ho. destruct o as [gh gs now ms cb ud|id|now]; cbn [exec].
  - destruct (net_loop_after_spec gh gs now l ms cb ud Hw)
      as (l' & id & -> & Hw' & [(-> & Ht & Hr)|(Hcb & Hid & Hni & Ht)]); bstep;
      do 3 eexists; (split; [done|]); (split; [done|]).
    + split; [by constructor|by rewrite Ht].
    + split; [by constructor|by rewrite Ht].
  - pose proof (net_loop_cancel_spec l id Hw Ho) as Hc. case_bool_decide as E.
    + destruct Hc as (l' & e & -> & Hw' & He & Ht). bstep. do 3 eexists. split_and!; try done.
      by econstructor.
    + rewrite Hc. bstep. do 3 eexists. split_and!; try done. by constructor.
  - destruct (run_due_spec now (S (l_ntmr l)) l [] Hw ltac:(lia))
      as (l' & fired & -> & Hw' & Ht & Hs & Hle & Hgt). bstep. do 3 eexists. split_and!; try done.
    by constructor.
Qed.

(** C5: the timers of the event loop behave as a bag of armed timers.  For any
    sequence of calls from a well-formed loop (a new one is) nothing is accessed
    out of bounds and the heap, its handle table and its free list stay well
    formed.  Arming returns a handle that no armed timer has, never 0, and fails
    only without a callback, without memory, or past two billion timers;
    cancelling removes exactly the timer the handle names and reports a handle
    that names none, a fired or cancelled timer's included; and at a given time
    exactly the timers that are due fire, earliest first. *)
Theorem net_timers_refine os l :
  wf l → Forall op_ok os →
  ∃ l' xs, exec_all os l = Ok (l', xs) ∧ wf l' ∧ bag_run (timers l) os xs (timers l').
Proof.
  revert l. induction os as [|o os IH]; intros l Hw Hos; cbn [exec_all].
  { do 2 eexists. split_and!; [done|done|by constructor]. }
  apply Forall_cons_iff in Hos as [Ho Hos].
  destruct (exec_refines o l Hw Ho) as (l1 & x & b & -> & Hw1 & Hstep & Hp). bstep.
  destruct (IH l1 Hw1 Hos) as (l' & xs & -> & Hw' & Hrun). bstep.
  do 2 eexists. split_and!; [done|done|]. econstructor; [done|done|]. by eapply bag_run_perm.
Qed.

(** Three timers of which one is cancelled and two fire, the later armed first. *)
Lemma net_timers_refine_witness :
  ∃ l' xs, exec_all [Arm true true 100 30 7 1; Arm true true 100 10 7 2; Arm true true 100 20 7 3;
                     Disarm 4294967298; Disarm 4294967298; Expire 200] (NetLoop false [] [] 0 [] None [] 0 false)
    = Ok (l', xs) ∧ wf l' ∧
    bag_run (timers (NetLoop false [] [] 0 [] None [] 0 false))
      [Arm true true 100 30 7 1; Arm true true 100 10 7 2; Arm true true 100 20 7 3;
       Disarm 4294967298; Disarm 4294967298; Expire 200] xs (timers l').
Proof.
  apply (net_timers_refine [Arm true true 100 30 7 1; Arm true true 100 10 7 2; Arm true true 100 20 7 3;
    Disarm 4294967298; Disarm 4294967298; Expire 200] (NetLoop false [] [] 0 [] None [] 0 false)).
  - apply (wf_new true true). reflexivity.
  - repeat constructor; cbn; lia.
Defined.

Example timers_run :
  ('(l, xs) ← exec_all [Arm true true 100 30 7 1; Arm true true 100 10 7 2; Arm true true 100 20 7 3;
     Disarm 4294967298; Disarm 4294967298; Expire 200] (NetLoop false [] [] 0 [] None [] 0 false);
   Ok xs) =
  Ok [Handle 4294967296; Handle 4294967297; Handle 4294967298; Code NET_OK; Code NET_ERR;
      Fired [(7, 2); (7, 1)]].
Proof. by vm_compute. Qed.

End NetTimer.
