(* ===== verification/NetHook.v ===== *)
(** * NetHook: the pre-poll hooks as an ordered set

    What adding, dropping and compacting the hooks of [net/src/loop.c] (modelled
    in NetLoop) do to the hooks that are registered. *)

From S2P Require Import Prelude NetLoop.
Import NetLoop.

Module NetHook.

#[local] Instance pre_eq_dec : EqDecision pre.
Proof. solve_decision. Defined.

Definition live (p : pre) : bool := negb (p_cb p =? 0).
Definition hooks_of (ps : list pre) : list pre := filter (λ p, live p = true) ps.

(** The registered hooks in the order they run. *)
Definition hooks (l : net_loop) : list pre := hooks_of (take (l_npre l) (l_pre l)).

Record hooks_wf (l : net_loop) : Prop := {
  hw_n : (l_npre l <= length (l_pre l))%nat;
  hw_dup : NoDup (hooks l);
  hw_gaps : l_pre_gaps l = false → Forall (λ p, live p = true) (take (l_npre l) (l_pre l)) }.

Lemma pre_find_spec f ps n : ∀ i, (i + n <= length ps)%nat →
  (∃ j p, pre_find f ps i n = Ok (Some j) ∧ (i <= j < i + n)%nat ∧ ps !! j = Some p ∧ f p = true) ∨
  (pre_find f ps i n = Ok None ∧ Forall (λ p, f p = false) (take n (drop i ps))).
Proof.
  induction n as [|n IH]; intros i Hi; cbn [pre_find]; [right; by split|].
  destruct (lookup_lt_is_Some_2 ps i) as [p Hp]; [lia|]. unfold aget. rewrite Hp. bstep.
  destruct (f p) eqn:Ef; [left; exists i, p; split_and!; done || lia|].
  destruct (IH (S i) ltac:(lia)) as [(j & q & -> & Hj & Hq & Eq)|[-> Hall]].
  - left. exists j, q. split_and!; done || lia.
  - right. split; [done|]. rewrite (drop_S ps p i Hp). cbn. by constructor.
Qed.

(** Replacing a cell among the first [n]. *)
Lemma take_split {A} (ps : list A) n j p : (j < n)%nat → ps !! j = Some p →
  take n ps = take j ps ++ p :: take (n - S j) (drop (S j) ps).
Proof.
  intros Hj Hp. rewrite <-(take_drop j (take n ps)), take_take, Nat.min_l by lia. f_equal.
  rewrite (drop_S (take n ps) p j) by (by rewrite lookup_take_lt). f_equal.
  by rewrite skipn_firstn_comm.
Qed.
Lemma take_insert_split {A} (ps : list A) n j p q : (j < n)%nat → ps !! j = Some p →
  take n (<[j := q]> ps) = take j ps ++ q :: take (n - S j) (drop (S j) ps).
Proof.
  intros Hj Hp. rewrite (take_split _ n j q) by (done || apply list_lookup_insert_eq; by eapply lookup_lt_Some).
  by rewrite take_insert_ge, drop_insert_lt by lia.
Qed.

Lemma hooks_of_app a b : hooks_of (a ++ b) = hooks_of a ++ hooks_of b.
Proof. apply filter_app. Qed.
Lemma hooks_of_cons p a : hooks_of (p :: a) = (if live p then [p] else []) ++ hooks_of a.
Proof.
  unfold hooks_of. destruct (live p) eqn:E; [by rewrite filter_cons_True|].
  by rewrite filter_cons_False by (by rewrite E).
Qed.

Lemma live_pre cb ud : cb ≠ 0 → live (Pre cb ud) = true.
Proof. intros. unfold live. cbn. by rewrite (proj2 (Z.eqb_neq cb 0)). Qed.

Lemma pre_is_eq cb ud p : pre_is cb ud p = true ↔ p = Pre cb ud.
Proof.
  unfold pre_is. rewrite andb_true_iff, !Z.eqb_eq. destruct p; cbn.
  split; [by intros [-> ->]|by intros [= -> ->]].
Qed.


Lemma not_registered cb ud ps : cb ≠ 0 → Forall (λ p, pre_is cb ud p = false) ps →
  Pre cb ud ∉ hooks_of ps.
Proof.
  intros Hcb Hall Hin. unfold hooks_of in Hin. apply list_elem_of_filter in Hin as [_ Hin].
  rewrite Forall_forall in Hall. specialize (Hall _ Hin). by rewrite (proj2 (pre_is_eq cb ud _)) in Hall.
Qed.

Lemma registered cb ud ps n j p : cb ≠ 0 → (j < n)%nat → ps !! j = Some p → pre_is cb ud p = true →
  Pre cb ud ∈ hooks_of (take n ps).
Proof.
  intros Hcb Hj Hp ->%pre_is_eq. apply list_elem_of_filter. split; [by apply live_pre|].
  apply (list_elem_of_lookup_2 _ j). by rewrite lookup_take_lt.
Qed.

Lemma pre_add_spec grow l cb ud : hooks_wf l →
  ∃ l' rc, net_loop_pre_add grow l cb ud = Ok (l', rc) ∧ hooks_wf l' ∧
    if (cb =? 0) then rc = NET_ERR ∧ l' = l else
    if bool_decide (Pre cb ud ∈ hooks l) then rc = NET_OK ∧ l' = l else
    rc = NET_OK ∧ (∃ a b, hooks l = a ++ b ∧ hooks l' = a ++ Pre cb ud :: b ∧
                          (l_pre_gaps l = false → b = [])) ∨
    rc = NET_ERR ∧ l' = l ∧ grow = false.
Proof.
  intros Hw. pose proof Hw as [W1 W2 W3]. unfold net_loop_pre_add.
  destruct (Z.eqb_spec cb 0) as [->|Hcb]; [by do 2 eexists|].
  destruct (pre_find_spec (pre_is cb ud) (l_pre l) (l_npre l) 0 ltac:(lia))
    as [(j & p & -> & Hj & Hp & Hi)|[-> Hall]]; bstep.
  { do 2 eexists. split; [done|]. split; [done|]. rewrite bool_decide_true; [done|].
    unfold hooks. apply (registered cb ud _ _ j p); done || lia. }
  rewrite drop_0 in Hall. pose proof (not_registered cb ud _ Hcb Hall) as Hni.
  rewrite (bool_decide_false (Pre cb ud ∈ hooks l)) by exact Hni.
  destruct (pre_find_spec (λ p, p_cb p =? 0) (l_pre l) (l_npre l) 0 ltac:(lia))
    as [(j & p & -> & Hj & Hp & Hi)|[-> Hnz]]; bstep.
  - unfold aset. rewrite decide_True by lia. bstep. do 2 eexists. split; [done|].
    assert (live p = false) as Hlp by (unfold live; by rewrite Hi).
    set (a := take j (l_pre l)). set (b := take (l_npre l - S j) (drop (S j) (l_pre l))).
    assert (hooks l = hooks_of a ++ hooks_of b) as Ha.
    { unfold hooks. rewrite (take_split _ _ j p) by (done || lia).
      by rewrite hooks_of_app, hooks_of_cons, Hlp. }
    assert (hooks (set_pre l (<[j := Pre cb ud]> (l_pre l)) (l_npre l) (l_pre_gaps l)) =
      hooks_of a ++ Pre cb ud :: hooks_of b) as Hb.
    { unfold hooks. cbn [l_pre l_npre set_pre]. rewrite (take_insert_split _ _ j p) by (done || lia).
      by rewrite hooks_of_app, hooks_of_cons, live_pre. }
    assert (l_pre_gaps l = false → False) as Hg.
    { intros Hg. specialize (W3 Hg). rewrite Forall_lookup in W3.
      specialize (W3 j p). rewrite lookup_take_lt, Hlp in W3 by lia. by specialize (W3 Hp). }
    split.
    + constructor; [cbn; rewrite length_insert; lia| |by intros ?%Hg]. rewrite Hb.
      rewrite <-Permutation_middle. apply NoDup_cons. rewrite <-Ha. done.
    + left. split; [done|]. exists (hooks_of a), (hooks_of b). split_and!; [done|done|by intros ?%Hg].
  - rewrite drop_0 in Hnz.
    destruct (bool_decide (l_npre l = length (l_pre l)) && negb grow) eqn:Eg.
    { do 2 eexists. split; [done|]. split; [done|]. right. split_and!; try done.
      apply andb_true_iff in Eg as [_ Eg]. by destruct grow. }
    set (ps := if bool_decide (l_npre l = length (l_pre l)) then _ else l_pre l). cbv zeta.
    assert (take (l_npre l) ps = take (l_npre l) (l_pre l) ∧ (l_npre l < length ps)%nat) as [Ht Hl].
    { unfold ps. case_bool_decide as E; [|split; [done|lia]].
      rewrite take_app_le by lia. split; [done|]. rewrite length_app, length_replicate.
      case_bool_decide; lia. }
    unfold aset. rewrite decide_True by done. bstep. do 2 eexists. split; [done|].
    assert (take (S (l_npre l)) (<[l_npre l := Pre cb ud]> ps) =
      take (l_npre l) (l_pre l) ++ [Pre cb ud]) as Hts.
    { rewrite (take_S_r _ _ (Pre cb ud)) by (by apply list_lookup_insert_eq).
      by rewrite take_insert_ge, Ht by done. }
    assert (hooks (set_pre l (<[l_npre l := Pre cb ud]> ps) (S (l_npre l)) (l_pre_gaps l)) =
      hooks l ++ [Pre cb ud]) as Hb.
    { unfold hooks. cbn [l_pre l_npre set_pre]. by rewrite Hts, hooks_of_app, hooks_of_cons, live_pre. }
    split.
    + constructor; [cbn; rewrite length_insert; lia| |].
      * rewrite Hb, Permutation_app_comm. cbn. by apply NoDup_cons.
      * cbn [l_pre l_npre l_pre_gaps set_pre]. intros Hg. rewrite Hts. apply Forall_app.
        split; [by apply W3|]. constructor; [by apply live_pre|constructor].
    + left. split; [done|]. exists (hooks l), []. by rewrite app_nil_r.
Qed.

Lemma pre_del_spec l cb ud : hooks_wf l → cb ≠ 0 →
  ∃ l' rc, net_loop_pre_del l cb ud = Ok (l', rc) ∧ hooks_wf l' ∧
    if bool_decide (Pre cb ud ∈ hooks l)
    then rc = NET_OK ∧ ∃ a b, hooks l = a ++ Pre cb ud :: b ∧ hooks l' = a ++ b
    else rc = NET_ERR ∧ l' = l.
Proof.
  intros Hw Hcb. pose proof Hw as [W1 W2 W3]. unfold net_loop_pre_del.
  destruct (pre_find_spec (pre_is cb ud) (l_pre l) (l_npre l) 0 ltac:(lia))
    as [(j & p & -> & Hj & Hp & Hi)|[-> Hall]]; bstep.
  - rewrite bool_decide_true by (unfold hooks; apply (registered cb ud _ _ j p); done || lia).
    unfold aset. rewrite decide_True by lia. bstep. do 2 eexists. split; [done|].
    apply pre_is_eq in Hi as ->.
    set (a := take j (l_pre l)). set (b := take (l_npre l - S j) (drop (S j) (l_pre l))).
    assert (hooks l = hooks_of a ++ Pre cb ud :: hooks_of b) as Ha.
    { unfold hooks. rewrite (take_split _ _ j (Pre cb ud)) by (done || lia).
      by rewrite hooks_of_app, hooks_of_cons, live_pre. }
    assert (hooks (set_pre l (<[j := Pre 0 0]> (l_pre l)) (l_npre l) true) =
      hooks_of a ++ hooks_of b) as Hb.
    { unfold hooks. cbn [l_pre l_npre set_pre]. rewrite (take_insert_split _ _ j (Pre cb ud)) by (done || lia).
      by rewrite hooks_of_app, hooks_of_cons. }
    split; [|by eauto]. constructor; [cbn; rewrite length_insert; lia| |done].
    rewrite Hb. rewrite Ha, <-Permutation_middle in W2. by apply NoDup_cons in W2 as [_ ?].
  - rewrite drop_0 in Hall. rewrite bool_decide_false by (by apply not_registered).
    by do 2 eexists.
Qed.

(** The compaction loop keeps the live hooks, in order, in front. *)
Lemma compact_loop_spec n : ∀ ps i w, (w <= i)%nat → (i + n <= length ps)%nat →
  ∃ ps' w', compact_loop ps i w n = Ok (ps', w') ∧ length ps' = length ps ∧ (w' <= i + n)%nat ∧
    take w' ps' = take w ps ++ hooks_of (take n (drop i ps)).
Proof.
  induction n as [|n IH]; intros ps i w Hwi Hl; cbn [compact_loop].
  { do 2 eexists. split_and!; try done; [lia|]. cbn. by rewrite app_nil_r. }
  destruct (lookup_lt_is_Some_2 ps i) as [p Hp]; [lia|]. unfold aget. rewrite Hp. bstep.
  rewrite (drop_S ps p i Hp). cbn [take]. rewrite hooks_of_cons. unfold live at 1.
  destruct (p_cb p =? 0) eqn:E; cbn [negb].
  - destruct (IH ps (S i) w ltac:(lia) ltac:(lia)) as (ps' & w' & -> & ? & ? & Ht).
    do 2 eexists. split_and!; done || lia.
  - unfold aset. rewrite decide_True by lia. bstep.
    destruct (IH (<[w := p]> ps) (S i) (S w)) as (ps' & w' & -> & Hl' & ? & Ht);
      [lia|rewrite length_insert; lia|].
    do 2 eexists. rewrite length_insert in Hl'. split_and!; [done|done|lia|].
    rewrite Ht, (take_S_r _ _ p) by (apply list_lookup_insert_eq; lia).
    by rewrite take_insert_ge, drop_insert_lt, <-app_assoc by lia.
Qed.

Lemma hooks_of_id ps : Forall (λ p, live p = true) ps → hooks_of ps = ps.
Proof. induction 1 as [|p ps Hp _ IH]; [done|]. by rewrite hooks_of_cons, Hp, IH. Qed.
Lemma hooks_of_live ps : Forall (λ p, live p = true) (hooks_of ps).
Proof. apply Forall_forall. intros p Hp. unfold hooks_of in Hp. by apply list_elem_of_filter in Hp as [? _]. Qed.

Lemma pre_compact_spec l : hooks_wf l →
  ∃ l', pre_compact l = Ok l' ∧ hooks_wf l' ∧ hooks l' = hooks l ∧ l_pre_gaps l' = false ∧
    l_npre l' = length (hooks l).
Proof.
  intros [W1 W2 W3]. unfold pre_compact.
  destruct (compact_loop_spec (l_npre l) (l_pre l) 0 0 ltac:(lia) ltac:(lia))
    as (ps & w & -> & Hl & Hw & Ht). bstep.
  rewrite drop_0, take_0 in Ht. cbn [app] in Ht. fold (hooks l) in Ht.
  assert (hooks (set_pre l ps w false) = hooks l) as Hh.
  { unfold hooks at 1. cbn [l_pre l_npre set_pre]. rewrite Ht. by apply hooks_of_id, hooks_of_live. }
  eexists. split; [done|]. split_and!; [|done|done|].
  - constructor; [cbn; lia|by rewrite Hh|]. cbn [l_pre l_npre set_pre]. rewrite Ht. intros _. apply hooks_of_live.
  - cbn [l_npre set_pre]. rewrite <-Ht, length_take. lia.
Qed.

Inductive hook_op := Add (grow : bool) (cb ud : Z) | Del (cb ud : Z) | Compact.

Definition hook_exec (o : hook_op) (l : net_loop) : res (net_loop * Z) :=
  match o with
  | Add grow cb ud => net_loop_pre_add grow l cb ud
  | Del cb ud => net_loop_pre_del l cb ud
  | Compact => l ← pre_compact l; Ok (l, NET_OK)
  end.
Fixpoint hook_exec_all (os : list hook_op) (l : net_loop) : res (net_loop * list Z) :=
  match os with
  | [] => Ok (l, [])
  | o :: os => '(l, rc) ← hook_exec o l; '(l, rcs) ← hook_exec_all os l; Ok (l, rc :: rcs)
  end.

(** What the calls promise, on the list of registered hooks. *)
Inductive hook_step (b : list pre) : hook_op → Z → list pre → Prop :=
| hook_null grow ud : hook_step b (Add grow 0 ud) NET_ERR b
| hook_again grow cb ud : cb ≠ 0 → Pre cb ud ∈ b → hook_step b (Add grow cb ud) NET_OK b
| hook_added grow cb ud a c : cb ≠ 0 → (Pre cb ud ∉ b) → b = a ++ c →
    hook_step b (Add grow cb ud) NET_OK (a ++ Pre cb ud :: c)
| hook_nomem cb ud : cb ≠ 0 → (Pre cb ud ∉ b) → hook_step b (Add false cb ud) NET_ERR b
| hook_dropped cb ud a c : b = a ++ Pre cb ud :: c → hook_step b (Del cb ud) NET_OK (a ++ c)
| hook_unknown cb ud : (Pre cb ud ∉ b) → hook_step b (Del cb ud) NET_ERR b
| hook_compact : hook_step b Compact NET_OK b.

Inductive hook_run : list pre → list hook_op → list Z → list pre → Prop :=
| hook_nil b : hook_run b [] [] b
| hook_cons b b1 b2 o os rc rcs :
    hook_step b o rc b1 → hook_run b1 os rcs b2 → hook_run b (o :: os) (rc :: rcs) b2.

Definition hook_ok (o : hook_op) : Prop := match o with Del cb _ => cb ≠ 0 | _ => True end.

(** The pre-poll hooks are a set without duplicates, listed in the order they
    run.  For any sequence of calls from a well-formed loop nothing is accessed
    out of bounds; adding a hook twice is one registration, adding one keeps the
    others in their order and fails only without a callback or without memory,
    dropping removes exactly the named hook, and compacting changes nothing but
    the gaps. *)
Theorem net_hooks_refine os l :
  hooks_wf l → Forall hook_ok os →
  ∃ l' rcs, hook_exec_all os l = Ok (l', rcs) ∧ hooks_wf l' ∧ NoDup (hooks l') ∧
    hook_run (hooks l) os rcs (hooks l').
Proof.
  revert l. induction os as [|o os IH]; intros l Hw Hos; cbn [hook_exec_all].
  { do 2 eexists. split; [done|]. split; [done|]. split; [apply Hw|constructor]. }
  apply Forall_cons_iff in Hos as [Ho Hos].
  assert (∃ l1 rc, hook_exec o l = Ok (l1, rc) ∧ hooks_wf l1 ∧ hook_step (hooks l) o rc (hooks l1))
    as (l1 & rc & -> & Hw1 & Hs).
  { destruct o as [grow cb ud|cb ud|]; cbn [hook_exec].
    - destruct (pre_add_spec grow l cb ud Hw) as (l1 & rc & -> & Hw1 & H). exists l1, rc.
      split; [done|]. split; [done|]. destruct (Z.eqb_spec cb 0) as [->|Hcb].
      { destruct H as [-> ->]. constructor. }
      case_bool_decide as E; [destruct H as [-> ->]; by constructor|].
      destruct H as [(-> & a & b & Ha & -> & _)|(-> & -> & ->)]; by constructor.
    - destruct (pre_del_spec l cb ud Hw Ho) as (l1 & rc & -> & Hw1 & H). exists l1, rc.
      split; [done|]. split; [done|]. case_bool_decide as E; [|destruct H as [-> ->]; by constructor].
      destruct H as (-> & a & b & Ha & ->). by constructor.
    - destruct (pre_compact_spec l Hw) as (l1 & -> & Hw1 & Hh & _). bstep. exists l1, NET_OK.
      split; [done|]. split; [done|]. rewrite Hh. constructor. }
  bstep. destruct (IH l1 Hw1 Hos) as (l' & rcs & -> & Hw' & Hd & Hr). bstep.
  do 2 eexists. split; [done|]. split; [done|]. split; [done|]. by econstructor.
Qed.

Lemma hooks_wf_new : hooks_wf (NetLoop false [] [] 0 [] None [] 0 false).
Proof. constructor; cbn; try done. constructor. Qed.

Lemma net_hooks_refine_witness :
  ∃ l' rcs, hook_exec_all [Add true 5 1; Add true 5 2; Add true 5 1; Del 5 1; Compact; Del 5 1]
              (NetLoop false [] [] 0 [] None [] 0 false) = Ok (l', rcs) ∧
    hooks_wf l' ∧ NoDup (hooks l') ∧
    hook_run (hooks (NetLoop false [] [] 0 [] None [] 0 false))
      [Add true 5 1; Add true 5 2; Add true 5 1; Del 5 1; Compact; Del 5 1] rcs (hooks l').
Proof.
  apply (net_hooks_refine [Add true 5 1; Add true 5 2; Add true 5 1; Del 5 1; Compact; Del 5 1]
    (NetLoop false [] [] 0 [] None [] 0 false) hooks_wf_new).
  repeat constructor; cbn; done.
Defined.

(** A hook registered after another was dropped takes its cell and runs before
    hooks registered earlier. *)
Lemma net_hooks_reuse_order :
  ('(l, rcs) ← hook_exec_all [Add true 5 1; Add true 5 2; Del 5 1; Add true 5 3]
                 (NetLoop false [] [] 0 [] None [] 0 false);
   Ok (hooks l)) = Ok [Pre 5 3; Pre 5 2].
Proof. by vm_compute. Qed.

End NetHook.
