(* ===== verification/NetTxq.v ===== *)
(** * NetTxq: socket addresses and the transmit queue

    Models [net/src/addr.c] (without the conversions to and from text, which are
    the C library's) and [net/src/txq.c].  A socket address is a tagged union:
    its family says which member is meaningful; the address octets and the port
    are values, the byte order on the wire being the C library's.  The queue works
    on the event loop of NetLoop, which it shares with its owner.  What the
    operating system answers is an argument. *)

From S2P Require Import Prelude NetLoop.
Import NetLoop.

Module NetTxq.

(** ** Addresses *)

Definition AF_UNSPEC : Z := 0.
Definition AF_INET : Z := 2.
Definition AF_INET6 : Z := 10.

Inductive net_addr :=
| V4 (port : Z) (addr : list Z)
| V6 (port flowinfo : Z) (addr : list Z) (scope : Z)
| Other (family : Z).

#[export] Instance net_addr_eq_dec : EqDecision net_addr.
Proof. solve_decision. Defined.

Definition family (a : net_addr) : Z :=
  match a with V4 _ _ => AF_INET | V6 _ _ _ _ => AF_INET6 | Other f => f end.

(** [None] is the return of [NET_ERR]; the output is then cleared. *)
Definition net_addr_any (fam port : Z) : option net_addr :=
  if fam =? AF_INET then Some (V4 port (zeros 4)) else
  if (fam =? AF_INET6) || (fam =? AF_UNSPEC) then Some (V6 port 0 (zeros 16) 0) else None.

(** The sizes of the three socket address structures. *)
Definition net_addr_len (a : net_addr) : Z :=
  match a with V4 _ _ => 16 | V6 _ _ _ _ => 28 | Other _ => 128 end.

Definition net_addr_port (a : net_addr) : Z :=
  match a with V4 p _ => p | V6 p _ _ _ => p | Other _ => 0 end.

Definition net_addr_set_port (a : net_addr) (port : Z) : net_addr :=
  match a with V4 _ x => V4 port x | V6 _ f x s => V6 port f x s | Other f => Other f end.

Definition net_addr_eq (a b : net_addr) : bool :=
  match a, b with
  | V4 p x, V4 p' x' => (p =? p') && bool_decide (x = x')
  | V6 p _ x _, V6 p' _ x' _ => (p =? p') && bool_decide (x = x')
  | _, _ => false
  end.

Definition net_addr_map6 (a : net_addr) : net_addr :=
  match a with
  | V4 p x => V6 p 0 (zeros 10 ++ [255; 255] ++ x) 0
  | _ => a
  end.

(** ** The queue *)

Definition NET_TXQ_BATCH : nat := 64.
Definition NET_TXQ_MAX_BYTES : Z := 8388608.

(** A slot of the ring; [m_buf] has the capacity of its allocation. *)
Record txmsg := TxMsg { m_to : option net_addr; m_buf : mem; m_len : Z }.
Definition zero_msg : txmsg := TxMsg None [] 0.

Record net_txq := NetTxq {
  q_l : bool; q_base_ev : Z; q_wr_armed : bool; q_retry_id : Z;
  q_q : list txmsg; q_head : nat; q_n : nat; q_bytes : Z; q_max_bytes : Z;
  q_sent : Z; q_calls : Z; q_dropped : Z; q_blocked : Z }.

(** The fields the operations write. *)
Definition set_wr q wr id := NetTxq (q_l q) (q_base_ev q) wr id (q_q q) (q_head q) (q_n q) (q_bytes q)
  (q_max_bytes q) (q_sent q) (q_calls q) (q_dropped q) (q_blocked q).
Definition set_ring q ms hd n bytes := NetTxq (q_l q) (q_base_ev q) (q_wr_armed q) (q_retry_id q) ms hd n
  bytes (q_max_bytes q) (q_sent q) (q_calls q) (q_dropped q) (q_blocked q).
Definition set_counts q sent calls dropped blocked := NetTxq (q_l q) (q_base_ev q) (q_wr_armed q)
  (q_retry_id q) (q_q q) (q_head q) (q_n q) (q_bytes q) (q_max_bytes q) sent calls dropped blocked.

(** The socket of a queue: its descriptor and the family it is bound to; and the
    address of the queue itself, which identifies its hook. *)
Record sock := Sock { k_fd : Z; k_family : Z; k_self : Z }.

(** The callbacks, as function pointers. *)
Definition pre_tramp : Z := 1001.
Definition retry_tramp : Z := 1002.

(** What the system answers during one call: [epoll_ctl], the allocations of the
    loop and of the queue, the clock. *)
Record env := Env { e_ctl : bool; e_heap : bool; e_slots : bool; e_hook : bool; e_now : Z;
                    e_ring : bool; e_buf : bool }.

Definition net_txq_new (alloc ring l : bool) (k : option sock) (base_ev max_bytes : Z) : option net_txq :=
  match k with
  | None => None
  | Some k =>
      if negb l || (k_fd k <? 0) then None else
      if negb alloc then None else
      if negb ring then None else
      Some (NetTxq true base_ev false 0 (replicate NET_TXQ_BATCH zero_msg) 0 0 0
              (if negb (max_bytes =? 0) then max_bytes else NET_TXQ_MAX_BYTES) 0 0 0 0)
  end.

Definition net_txq_detach (q : net_txq) : net_txq :=
  NetTxq false (q_base_ev q) false 0 (q_q q) (q_head q) (q_n q) (q_bytes q) (q_max_bytes q)
    (q_sent q) (q_calls q) (q_dropped q) (q_blocked q).

Section queue.
Context (k : sock) (e : env).

Definition arm_wr (q : net_txq) (l : net_loop) : res (net_txq * net_loop) :=
  if negb (q_l q) || q_wr_armed q then Ok (q, l) else
  rc ← net_loop_mod (e_ctl e) l (k_fd k) (Z.lor (q_base_ev q) NET_WR);
  if rc =? NET_OK then Ok (set_wr q true (q_retry_id q), l) else
  if negb (q_retry_id q =? 0) then Ok (q, l) else
  '(l, id) ← net_loop_after (e_heap e) (e_slots e) (e_now e) l 1 retry_tramp (k_self k);
  Ok (set_wr q (q_wr_armed q) id, l).

Definition disarm_wr (q : net_txq) (l : net_loop) : res net_txq :=
  if negb (q_l q) || negb (q_wr_armed q) then Ok q else
  _ ← net_loop_mod (e_ctl e) l (k_fd k) (q_base_ev q);
  Ok (set_wr q false (q_retry_id q)).

(** The slot [i] places behind the head. *)
Definition ring_at (q : net_txq) (i : nat) : nat := ((q_head q + i) mod length (q_q q))%nat.

Fixpoint gather (q : net_txq) (i n : nat) : res (list txmsg) :=
  match n with
  | O => Ok []
  | S n => m ← aget (q_q q) (ring_at q i); ms ← gather q (S i) n; Ok (m :: ms)
  end.

(** [None] is the return of [NET_ERR]. *)
Definition grow (q : net_txq) : res (option net_txq) :=
  let cap := (length (q_q q) * 2)%nat in
  if negb (e_ring e) then Ok None else
  ms ← gather q 0 (q_n q);
  Ok (Some (set_ring q (ms ++ replicate (cap - q_n q) zero_msg) 0 (q_n q) (q_bytes q))).

Fixpoint pop_bytes (q : net_txq) (i n : nat) (bytes : Z) : res Z :=
  match n with
  | O => Ok bytes
  | S n => m ← aget (q_q q) (ring_at q i); pop_bytes q (S i) n (u64 (bytes - m_len m))
  end.
Definition pop (q : net_txq) (n : nat) : res net_txq :=
  bytes ← pop_bytes q 0 n (q_bytes q);
  Ok (set_ring q (q_q q) (ring_at q n) (q_n q - n) bytes).

Definition drop_one (q : net_txq) : net_txq :=
  set_counts q (q_sent q) (q_calls q) (u64 (q_dropped q + 1)) (q_blocked q).

Definition net_txq_send (q : net_txq) (l : net_loop) (buf : mem) (to : option net_addr) :
    res (net_txq * net_loop * Z) :=
  let len := mlen buf in
  if q_max_bytes q <? u64 (q_bytes q + len) then Ok (drop_one q, l, NET_ERR) else
  q' ← (if bool_decide (q_n q = length (q_q q)) then grow q else Ok (Some q));
  match q' with
  | None => Ok (drop_one q, l, NET_ERR)
  | Some q =>
      let i := ring_at q (q_n q) in
      m ← aget (q_q q) i;
      let short := negb (len =? 0) && (mlen (m_buf m) <? len) in
      if short && negb (e_buf e) then Ok (drop_one q, l, NET_ERR) else
      let b := if short then m_buf m ++ uninit (len - mlen (m_buf m)) else m_buf m in
      b ← (if negb (len =? 0) then wrn b 0 buf else Ok b);
      ms ← aset (q_q q) i (TxMsg to b len);
      l ← (if bool_decide (q_n q = 0%nat) && q_l q
           then '(l, _) ← net_loop_pre_add (e_hook e) l pre_tramp (k_self k); Ok l else Ok l);
      Ok (set_ring q ms (q_head q) (S (q_n q)) (u64 (q_bytes q + len)), l, NET_OK)
  end.

(** ** Flushing *)

(** What [sendmmsg] answers: it takes up to so many (and at least one) of the
    datagrams handed over, or fails with an error number. *)
Inductive answer := Takes (more : nat) | Fails (errno : Z).

Definition EINTR : Z := 4.
Definition EAGAIN : Z := 11.
Definition EWOULDBLOCK : Z := 11.
Definition ENOBUFS : Z := 105.

Definition again (errno : Z) : bool := (errno =? EAGAIN) || (errno =? EWOULDBLOCK) || (errno =? ENOBUFS).

(** A datagram as the kernel gets it: the destination, if any, and the octets. *)
Definition datagram (m : txmsg) : res (option net_addr * list Z) :=
  bs ← rdn (m_buf m) 0 (m_len m);
  Ok ((λ a, if k_family k =? AF_INET6 then net_addr_map6 a else a) <$> m_to m, bs).

Fixpoint datagrams (ms : list txmsg) : res (list (option net_addr * list Z)) :=
  match ms with
  | [] => Ok []
  | m :: ms => d ← datagram m; ds ← datagrams ms; Ok (d :: ds)
  end.

(** [total += r] in an [int]. *)
Definition int_add (a b : Z) : res Z := if INT_MAX <? a + b then Ub else Ok (a + b).

(** The loop of [net_txq_flush], on the answers still to come: [None] while the
    kernel has not answered.  The result carries the datagrams the kernel took, in
    order, and those it refused for good. *)
Fixpoint flush_loop (answers : list answer) (q : net_txq) (l : net_loop) (total : Z)
    (sent lost : list (option net_addr * list Z)) :
    res (option (net_txq * net_loop * Z * list (option net_addr * list Z) * list (option net_addr * list Z))) :=
  if bool_decide (q_n q = 0%nat) then
    q ← disarm_wr q l;
    l ← (if q_l q then '(l, _) ← net_loop_pre_del l pre_tramp (k_self k); Ok l else Ok l);
    Ok (Some (q, l, total, sent, lost))
  else
    match answers with
    | [] => Ok None
    | a :: answers =>
        let n := if bool_decide (q_n q < NET_TXQ_BATCH)%nat then q_n q else NET_TXQ_BATCH in
        ms ← gather q 0 n;
        ds ← datagrams ms;
        let q1 := set_counts q (q_sent q) (u64 (q_calls q + 1)) (q_dropped q) (q_blocked q) in
        match a with
        | Takes more =>
            let r := Nat.min (S more) n in
            let q := set_counts q1 (u64 (q_sent q1 + Z.of_nat r)) (q_calls q1) (q_dropped q1)
                       (q_blocked q1) in
            total ← int_add total (Z.of_nat r);
            q ← pop q r;
            let sent := sent ++ take r ds in
            if bool_decide (r < n)%nat then
              let q := set_counts q (q_sent q) (q_calls q) (q_dropped q) (u64 (q_blocked q + 1)) in
              '(q, l) ← arm_wr q l;
              Ok (Some (q, l, total, sent, lost))
            else flush_loop answers q l total sent lost
        | Fails errno =>
            if errno =? EINTR then flush_loop answers q l total sent lost else
            if again errno then
              let q := set_counts q1 (q_sent q1) (q_calls q1) (q_dropped q1) (u64 (q_blocked q1 + 1)) in
              '(q, l) ← arm_wr q l;
              Ok (Some (q, l, total, sent, lost))
            else
              q ← pop (drop_one q1) 1;
              flush_loop answers q l total sent (lost ++ take 1 ds)
        end
    end.

Definition net_txq_flush (answers : list answer) (q : net_txq) (l : net_loop) :=
  flush_loop answers q l 0 [] [].

(** The retry timer has fired. *)
Definition retry_fired (answers : list answer) (q : net_txq) (l : net_loop) :=
  net_txq_flush answers (set_wr q (q_wr_armed q) 0) l.

(** What destroying an attached queue does to the loop. *)
Definition net_txq_free (q : net_txq) (l : net_loop) : res net_loop :=
  if negb (q_l q) then Ok l else
  '(l, _) ← net_loop_pre_del l pre_tramp (k_self k);
  l ← (if negb (q_retry_id q =? 0) then '(l, _) ← net_loop_cancel l (q_retry_id q); Ok l else Ok l);
  _ ← (if q_wr_armed q then net_loop_mod (e_ctl e) l (k_fd k) (q_base_ev q) else Ok NET_OK);
  Ok l.

End queue.

Definition net_txq_pending (q : net_txq) : nat := q_n q.
Definition net_txq_bytes (q : net_txq) : Z := q_bytes q.
Definition net_txq_sent (q : net_txq) : Z := q_sent q.
Definition net_txq_calls (q : net_txq) : Z := q_calls q.
Definition net_txq_dropped (q : net_txq) : Z := q_dropped q.
Definition net_txq_blocked (q : net_txq) : Z := q_blocked q.

End NetTxq.
