(* ===== verification/NetQueue.v ===== *)
(** * NetQueue: correctness of the transmit queue

    The ring of [net/src/txq.c] (modelled in NetTxq) as a FIFO queue of datagrams
    with a byte cap, on the event loop whose hooks NetHook and whose timers
    NetTimer specify. *)

From S2P Require Import Prelude NetLoop NetTimer NetHook NetTxq.
Import NetLoop NetTxq.

Module NetQueue.

#[local] Instance txmsg_inhabited : Inhabited txmsg := populate zero_msg.

(** ** The ring *)

Definition cap (q : net_txq) : nat := length (q_q q).
Definition slot (q : net_txq) (i : nat) : txmsg := q_q q !!! ring_at q i.
Definition items (q : net_txq) : list txmsg := map (slot q) (seq 0 (q_n q)).

Definition msg_ok (m : txmsg) : Prop := 0 <= m_len m <= mlen (m_buf m).
Definition weight (ms : list txmsg) : Z := foldr (λ m w, m_len m + w) 0 ms.

Record queue_wf (q : net_txq) : Prop := {
  qw_cap : (0 < cap q)%nat;
  qw_head : (q_head q < cap q)%nat;
  qw_n : (q_n q <= cap q)%nat;
  qw_ok : Forall msg_ok (items q);
  qw_bytes : q_bytes q = weight (items q);
  qw_max : q_bytes q <= q_max_bytes q <= OBJ_MAX }.

Lemma ring_lt q i : (0 < cap q)%nat → (ring_at q i < cap q)%nat.
Proof. intros. unfold ring_at. apply Nat.mod_upper_bound. unfold cap in *. lia. Qed.

Lemma mod_shift c h i : (h < c)%nat → (i < c)%nat →
  ((h + i) mod c = if bool_decide (h + i < c)%nat then h + i else h + i - c)%nat.
Proof.
  intros Hh Hi. case_bool_decide as E; [by apply Nat.mod_small|].
  replace (h + i)%nat with ((h + i - c) + 1 * c)%nat at 1 by lia.
  rewrite Nat.Div0.mod_add. apply Nat.mod_small. lia.
Qed.

Lemma ring_inj q i j : (q_head q < cap q)%nat → (i < cap q)%nat → (j < cap q)%nat →
  ring_at q i = ring_at q j → i = j.
Proof.
  intros Hh Hi Hj. unfold ring_at, cap in *. rewrite !mod_shift by done. repeat case_bool_decide; lia.
Qed.

Lemma gather_spec q n : (0 < cap q)%nat → ∀ i, gather q i n = Ok (map (slot q) (seq i n)).
Proof.
  intros Hc. induction n as [|n IH]; intros i; [done|]. cbn [gather seq map].
  rewrite NetTimer.aget_Ok by (by apply ring_lt). bstep. by rewrite IH.
Qed.

Lemma length_items q : length (items q) = q_n q.
Proof. unfold items. by rewrite length_map, length_seq. Qed.

Lemma items_take q n : (n <= q_n q)%nat → map (slot q) (seq 0 n) = take n (items q).
Proof.
  intros Hn. unfold items. rewrite <-fmap_take. f_equal.
  rewrite take_seq. f_equal. lia.
Qed.

(** ** Growing, pushing and popping *)

Definition regrown (q : net_txq) : net_txq :=
  set_ring q (items q ++ replicate (length (q_q q) * 2 - q_n q) zero_msg) 0 (q_n q) (q_bytes q).

Lemma grow_spec e q : (0 < cap q)%nat → grow e q = Ok (if e_ring e then Some (regrown q) else None).
Proof.
  intros Hc. unfold grow. destruct (e_ring e); [|done]. cbn [negb]. by rewrite gather_spec.
Qed.

Lemma regrown_items q : (0 < cap q)%nat → (q_n q <= cap q)%nat → items (regrown q) = items q.
Proof.
  intros Hc Hn. unfold items at 1. cbn [q_n regrown set_ring].
  apply list_eq_same_length with (n := q_n q);
    [by rewrite length_items|by rewrite length_map, length_seq|].
  intros i x y Hi Hx Hy. rewrite list_lookup_fmap, lookup_seq_lt in Hx by done. simplify_eq/=.
  unfold slot, ring_at. cbn [q_head q_q regrown set_ring].
  rewrite Nat.mod_small.
  - apply list_lookup_total_correct. by rewrite lookup_app_l by (rewrite length_items; lia).
  - rewrite length_app, length_items, length_replicate. unfold cap in *. lia.
Qed.

Lemma regrown_cap q : (0 < cap q)%nat → (q_n q <= cap q)%nat → (q_n q < cap (regrown q))%nat.
Proof.
  intros. unfold cap in *. cbn. rewrite length_app, length_items, length_replicate. lia.
Qed.

Definition push (q : net_txq) (m : txmsg) : net_txq :=
  set_ring q (<[ring_at q (q_n q) := m]> (q_q q)) (q_head q) (S (q_n q)) (u64 (q_bytes q + m_len m)).

Lemma push_items q m : (q_head q < cap q)%nat → (q_n q < cap q)%nat → items (push q m) = items q ++ [m].
Proof.
  intros Hh Hn. unfold items at 1. cbn [q_n push set_ring]. rewrite seq_S, map_app. cbn [map Nat.add].
  assert (∀ i, (i <= q_n q)%nat → slot (push q m) i = if bool_decide (i = q_n q) then m else slot q i) as Hs.
  { intros i Hi. unfold slot, ring_at. cbn [q_head q_q push set_ring]. rewrite length_insert.
    fold (ring_at q i). rewrite NetTimer.total_insert by (apply ring_lt; lia).
    case_bool_decide as E; case_bool_decide as E'; try done.
    - exfalso. apply E'. apply (ring_inj q); try done; lia.
    - by subst i. }
  f_equal.
  - apply map_ext_in. intros i [_ Hi]%in_seq. rewrite Hs by lia. by rewrite bool_decide_false by lia.
  - f_equal. rewrite Hs by lia. by rewrite bool_decide_true.
Qed.

Lemma weight_app a b : weight (a ++ b) = weight a + weight b.
Proof. induction a as [|m a IH]; [done|]. cbn [app]. unfold weight in *. cbn. lia. Qed.
Lemma weight_nonneg ms : Forall msg_ok ms → 0 <= weight ms.
Proof. induction 1 as [|m ms [? ?] _ IH]; [done|]. unfold weight in *. cbn. lia. Qed.

Lemma pop_bytes_spec q n : (0 < cap q)%nat → ∀ i b, Forall msg_ok (map (slot q) (seq i n)) →
  weight (map (slot q) (seq i n)) <= b <= OBJ_MAX →
  pop_bytes q i n b = Ok (b - weight (map (slot q) (seq i n))).
Proof.
  intros Hc. induction n as [|n IH]; intros i b Hok Hb; cbn [pop_bytes seq map].
  { f_equal. cbn. lia. }
  rewrite NetTimer.aget_Ok by (by apply ring_lt). bstep. fold (slot q i).
  cbn [seq map] in Hok, Hb. apply Forall_cons_iff in Hok as [Hm Hok].
  pose proof (weight_nonneg _ Hok). unfold msg_ok in Hm. unfold weight in Hb. cbn [foldr] in Hb.
  fold (weight (map (slot q) (seq (S i) n))) in Hb. unfold OBJ_MAX in *.
  rewrite u64_small by lia. rewrite IH by (done || lia). f_equal.
  unfold weight. cbn [foldr]. lia.
Qed.

Definition popped (q : net_txq) (n : nat) : net_txq :=
  set_ring q (q_q q) (ring_at q n) (q_n q - n) (weight (drop n (items q))).

Lemma popped_items q n : (q_head q < cap q)%nat → (n <= q_n q <= cap q)%nat →
  items (popped q n) = drop n (items q).
Proof.
  intros Hh Hn. unfold items. cbn [q_n popped set_ring]. rewrite <-fmap_drop, drop_seq.
  apply list_eq_same_length with (n := (q_n q - n)%nat);
    [by rewrite length_map, length_seq|by rewrite length_map, length_seq|].
  intros i x y Hi Hx Hy. rewrite list_lookup_fmap, lookup_seq_lt in Hx, Hy by done. simplify_eq/=.
  unfold slot, ring_at, popped. cbn [q_head q_q set_ring]. unfold ring_at.
  rewrite Nat.Div0.add_mod_idemp_l. do 2 f_equal. lia.
Qed.

Lemma pop_spec q n : queue_wf q → (n <= q_n q)%nat →
  pop q n = Ok (popped q n) ∧ queue_wf (popped q n).
Proof.
  intros [W1 W2 W3 W4 W5 W6] Hn.
  assert (items q = take n (items q) ++ drop n (items q)) as Hsp by (by rewrite take_drop).
  pose proof W4 as W4'. rewrite Hsp in W4'. apply Forall_app in W4' as [Ha Hb].
  assert (weight (items q) = weight (take n (items q)) + weight (drop n (items q))) as Hw
    by (rewrite Hsp at 1; apply weight_app).
  pose proof (weight_nonneg _ Ha). pose proof (weight_nonneg _ Hb). split.
  - unfold pop. rewrite pop_bytes_spec; rewrite ?items_take by done; try done; [|lia].
    bstep. unfold popped. do 2 f_equal. lia.
  - pose proof (popped_items q n W2 (conj Hn W3)) as Hi. constructor.
    + done.
    + apply (ring_lt q n W1).
    + cbn. unfold cap in *. cbn. lia.
    + by rewrite Hi.
    + by rewrite Hi.
    + cbn [q_bytes q_max_bytes popped set_ring]. lia.
Qed.

(** ** The loop underneath *)

Definition loop_ok (l : net_loop) : Prop := NetTimer.wf l ∧ NetHook.hooks_wf l.

Lemma timer_wf_pre l ps n g : NetTimer.wf l → NetTimer.wf (set_pre l ps n g).
Proof. intros ([] & ? & ?). split; [by constructor|done]. Qed.

Lemma pre_add_frame gr l cb ud l' rc : net_loop_pre_add gr l cb ud = Ok (l', rc) →
  ∃ ps n g, l' = set_pre l ps n g.
Proof.
  assert (l = set_pre l (l_pre l) (l_npre l) (l_pre_gaps l)) as E by (by destruct l).
  unfold net_loop_pre_add. destruct (cb =? 0); [intros [= <- _]; eauto|].
  destruct (pre_find (pre_is cb ud) _ _ _) as [[j|]|rc1|]; bstep; [intros [= <- _]; eauto| |done|done].
  destruct (pre_find _ _ _ _) as [[j|]|rc1|]; bstep; [| |done|done].
  - destruct (aset _ _ _); bstep; [intros [= <- _]; eauto|done|done].
  - destruct (_ && _); [intros [= <- _]; eauto|].
    destruct (aset _ _ _); bstep; [intros [= <- _]; eauto|done|done].
Qed.
Lemma pre_del_frame l cb ud l' rc : net_loop_pre_del l cb ud = Ok (l', rc) →
  ∃ ps n g, l' = set_pre l ps n g.
Proof.
  assert (l = set_pre l (l_pre l) (l_npre l) (l_pre_gaps l)) as E by (by destruct l).
  unfold net_loop_pre_del. destruct (pre_find _ _ _ _) as [[j|]|rc1|]; bstep;
    [| |done|done]; [|intros [= <- _]; eauto].
  destruct (aset _ _ _); bstep; [intros [= <- _]; eauto|done|done].
Qed.

(** The timers do not touch the hooks. *)
Definition same_pre (l l' : net_loop) : Prop :=
  l_pre l' = l_pre l ∧ l_npre l' = l_npre l ∧ l_pre_gaps l' = l_pre_gaps l.

Lemma same_pre_trans l1 l2 l3 : same_pre l1 l2 → same_pre l2 l3 → same_pre l1 l3.
Proof. intros (? & ? & ?) (? & ? & ?). split_and!; congruence. Qed.

Lemma tmr_put_pre l i t l' : tmr_put l i t = Ok l' → same_pre l l'.
Proof.
  unfold tmr_put, tmr_place. destruct (aset _ _ _); bstep; try done.
  destruct (aget _ _); bstep; try done. destruct (aget _ _); bstep; try done.
  destruct (aset _ _ _); bstep; try done. by intros [= <-].
Qed.
Lemma up_loop_pre fuel : ∀ l i t l', up_loop fuel l i t = Ok l' → same_pre l l'.
Proof.
  induction fuel as [|fuel IH]; intros l i t l'; cbn [up_loop]; [done|].
  case_bool_decide; [apply tmr_put_pre|]. destruct (aget _ _) as [p| |]; bstep; try done.
  destruct (_ <? _); [|apply tmr_put_pre]. destruct (tmr_put l i p) as [l1| |] eqn:E; bstep; try done.
  intros H'. eapply same_pre_trans; [by eapply tmr_put_pre|by eapply IH].
Qed.
Lemma after_pre gh gs now l ms cb ud l' id : net_loop_after gh gs now l ms cb ud = Ok (l', id) →
  same_pre l l'.
Proof.
  unfold net_loop_after. destruct (cb =? 0); [by intros [= <- _]|].
  destruct (_ && _); [by intros [= <- _]|].
  set (l1 := if bool_decide (l_ntmr l = length (l_tmr l)) then _ else l). cbv zeta.
  assert (same_pre l l1) as H1 by (unfold l1; by destruct (bool_decide _)).
  destruct (tmr_slot_alloc gs l1) as [[l2 s]| |] eqn:Ea; bstep; try done.
  assert (same_pre l1 l2) as H2.
  { unfold tmr_slot_alloc in Ea. destruct (l_freeslot l1) as [f|].
    - destruct (aget _ _); bstep; [|done|done]. cbn in Ea. by injection Ea as <- _.
    - destruct (_ <=? _); [by injection Ea as <- _|]. destruct (negb gs); [by injection Ea as <- _|].
      cbn in Ea. destruct (aget _ _); [|done|done]. cbn in Ea. by injection Ea as <- _. }
  destruct s as [s|]; [|by intros [= <- _]; eapply same_pre_trans].
  destruct (aset _ _ _); bstep; try done. destruct (aget _ _); bstep; try done.
  destruct (aset _ _ _); bstep; try done. unfold tmr_up.
  destruct (aget _ _) as [t| |]; bstep; try done.
  destruct (up_loop _ _ _ _) as [l3| |] eqn:Eu; bstep; try done. apply up_loop_pre in Eu.
  destruct (aget _ _); bstep; try done. intros [= <- _].
  eapply same_pre_trans; [exact H1|]. eapply same_pre_trans; [exact H2|exact Eu].
Qed.

Lemma same_pre_hooks l l' : same_pre l l' →
  NetHook.hooks l' = NetHook.hooks l ∧ (NetHook.hooks_wf l → NetHook.hooks_wf l').
Proof.
  intros (E1 & E2 & E3). unfold NetHook.hooks. rewrite E1, E2. split; [done|].
  intros [H1 H2 H3]. unfold NetHook.hooks in *. constructor; unfold NetHook.hooks; rewrite ?E1, ?E2, ?E3; done.
Qed.

Lemma mod_Ok ctl l fd ev : ∃ rc, net_loop_mod ctl l fd ev = Ok rc.
Proof.
  unfold net_loop_mod, fd_known. destruct (Z.ltb_spec fd 0); bstep; [by eexists|].
  destruct (Z.leb_spec (Z.of_nat (length (l_fds l))) fd); bstep; [by eexists|].
  destruct (lookup_lt_is_Some_2 (l_fds l) (Z.to_nat fd)) as [r Hr]; [lia|].
  unfold aget. rewrite Hr. bstep. destruct (f_cb r =? 0); by eexists.
Qed.

Lemma arm_wr_spec k e q l : loop_ok l →
  ∃ wr id l', arm_wr k e q l = Ok (set_wr q wr id, l') ∧ loop_ok l' ∧
    NetHook.hooks l' = NetHook.hooks l.
Proof.
  intros [Hw Hh]. unfold arm_wr.
  assert (q = set_wr q (q_wr_armed q) (q_retry_id q)) as Eq by (by destruct q).
  destruct (_ || _); [exists (q_wr_armed q), (q_retry_id q), l; by rewrite <-Eq|].
  destruct (mod_Ok (e_ctl e) l (k_fd k) (Z.lor (q_base_ev q) NET_WR)) as [rc ->]. bstep.
  destruct (rc =? NET_OK); [do 3 eexists; split; [done|]; split; [by split|done]|].
  destruct (negb _); [exists (q_wr_armed q), (q_retry_id q), l; by rewrite <-Eq|].
  destruct (NetTimer.net_loop_after_spec (e_heap e) (e_slots e) (e_now e) l 1 retry_tramp (k_self k) Hw)
    as (l' & id & E & Hw' & _).
  rewrite E. bstep. apply after_pre, same_pre_hooks in E as [Hk Hh']. do 3 eexists.
  split; [done|]. split; [|done]. split; [done|by apply Hh'].
Qed.

Lemma disarm_wr_spec k e q l : ∃ wr, disarm_wr k e q l = Ok (set_wr q wr (q_retry_id q)).
Proof.
  unfold disarm_wr. destruct (_ || _).
  - exists (q_wr_armed q). by destruct q.
  - destruct (mod_Ok (e_ctl e) l (k_fd k) (q_base_ev q)) as [rc ->]. by eexists.
Qed.

(** ** Datagrams *)

(** The datagram in a slot, the datagrams queued, and what goes to the kernel. *)
Definition raw (m : txmsg) : option net_addr * list Z := (m_to m, take (Z.to_nat (m_len m)) (m_buf m)).
Definition queue (q : net_txq) : list (option net_addr * list Z) := map raw (items q).
Definition octets (ds : list (option net_addr * list Z)) : Z := foldr (λ d w, mlen d.2 + w) 0 ds.
Definition wire (k : sock) (d : option net_addr * list Z) : option net_addr * list Z :=
  ((λ a, if k_family k =? AF_INET6 then net_addr_map6 a else a) <$> d.1, d.2).

Lemma weight_octets ms : Forall msg_ok ms → weight ms = octets (map raw ms).
Proof.
  induction 1 as [|m ms [? ?] _ IH]; [done|]. unfold weight, octets in *. cbn [map foldr].
  rewrite IH. cbn [raw snd]. by rewrite mlen_take by lia.
Qed.

Lemma queue_bytes q : queue_wf q → q_bytes q = octets (queue q) ∧ 0 <= octets (queue q).
Proof.
  intros [_ _ _ Hok Hb _]. unfold queue. rewrite <-weight_octets by done.
  split; [done|by apply weight_nonneg].
Qed.

Lemma datagrams_spec k ms : Forall msg_ok ms → datagrams k ms = Ok (map (wire k) (map raw ms)).
Proof.
  induction 1 as [|m ms [? ?] _ IH]; [done|]. cbn [datagrams map]. unfold datagram.
  rewrite rdn_Ok by lia. bstep. rewrite IH. bstep. done.
Qed.

Definition hook (k : sock) : pre := Pre pre_tramp (k_self k).

(** Hooks of others are left alone. *)
Definition same_others (k : sock) (l l' : net_loop) : Prop :=
  ∀ h, h ≠ hook k → h ∈ NetHook.hooks l' ↔ h ∈ NetHook.hooks l.

Lemma hook_on k e l : loop_ok l →
  ∃ l' rc, net_loop_pre_add (e_hook e) l pre_tramp (k_self k) = Ok (l', rc) ∧ loop_ok l' ∧
    (e_hook e = true → hook k ∈ NetHook.hooks l') ∧ same_others k l l'.
Proof.
  intros [Hw Hh]. destruct (NetHook.pre_add_spec (e_hook e) l pre_tramp (k_self k) Hh)
    as (l' & rc & E & Hh' & H).
  exists l', rc. split; [done|]. pose proof (pre_add_frame _ _ _ _ _ _ E) as (ps & n & g & El').
  split; [split; [subst l'; by apply timer_wf_pre|done]|].
  change (pre_tramp =? 0) with false in H. fold (hook k) in H. case_bool_decide as Ein.
  - destruct H as [_ ->]. split; [done|by intros h].
  - destruct H as [(-> & a & b & Ha & Hb & _)|(-> & -> & ->)].
    + split; [intros _; rewrite Hb; apply elem_of_app; right; left|].
      intros h Hne. rewrite Ha, Hb, !elem_of_app, elem_of_cons. naive_solver.
    + split; [done|by intros h].
Qed.

Lemma hook_off k l : loop_ok l →
  ∃ l' rc, net_loop_pre_del l pre_tramp (k_self k) = Ok (l', rc) ∧ loop_ok l' ∧
    (hook k ∉ NetHook.hooks l') ∧ same_others k l l'.
Proof.
  intros [Hw Hh]. destruct (NetHook.pre_del_spec l pre_tramp (k_self k) Hh ltac:(done))
    as (l' & rc & E & Hh' & H).
  exists l', rc. split; [done|]. pose proof (pre_del_frame _ _ _ _ _ E) as (ps & n & g & El').
  split; [split; [subst l'; by apply timer_wf_pre|done]|]. fold (hook k) in H.
  case_bool_decide as Ein; [|destruct H as [_ ->]; split; [done|by intros h]].
  destruct H as (-> & a & b & Ha & Hb). pose proof (NetHook.hw_dup l Hh) as Hd. rewrite Ha in Hd.
  rewrite Hb. split.
  - rewrite <-Permutation_middle in Hd. by apply NoDup_cons in Hd as [? _].
  - intros h Hne. rewrite Ha, Hb, !elem_of_app, elem_of_cons. naive_solver.
Qed.

(** ** Sending *)

(** The buffer a datagram is copied into. *)
Lemma fill_buffer b buf : 
  let len := mlen buf in
  let short := negb (len =? 0) && (mlen b <? len) in
  let b1 := if short then b ++ uninit (len - mlen b) else b in
  ∃ b2, (if negb (len =? 0) then wrn b1 0 buf else Ok b1) = Ok b2 ∧ len <= mlen b2 ∧
    take (Z.to_nat len) b2 = buf.
Proof.
  intros len short b1. pose proof (mlen_nonneg buf) as H0. fold len in H0. pose proof (mlen_nonneg b).
  unfold b1, short. destruct (Z.eqb_spec len 0) as [E|E]; cbn [negb andb].
  - exists b. split; [done|]. split; [lia|]. rewrite E. change (Z.to_nat 0) with 0%nat. rewrite take_0.
    destruct buf as [|x buf]; [done|]. unfold len in E. rewrite mlen_cons in E. pose proof (mlen_nonneg buf). lia.
  - set (b1' := if mlen b <? len then _ else b).
    assert (len <= mlen b1') as Hl by (unfold b1'; destruct (Z.ltb_spec (mlen b) len); mlia).
    rewrite wrn_Ok by (unfold len in *; lia). eexists. split; [done|].
    rewrite mlen_splice by (unfold len in *; lia). split; [done|].
    rewrite splice_0. unfold len, mlen. rewrite Nat2Z.id. by rewrite take_app_length.
Qed.

Lemma push_wf q to b len : queue_wf q → (q_n q < cap q)%nat → 0 <= len <= mlen b →
  q_bytes q + len <= q_max_bytes q → queue_wf (push q (TxMsg to b len)).
Proof.
  intros Hw Hn Hl Hm. pose proof Hw as [W1 W2 W3 W4 W5 W6].
  pose proof (queue_bytes q Hw) as [Hb Hb0]. rewrite <-Hb in Hb0.
  pose proof (push_items q (TxMsg to b len) W2 Hn) as Hi.
  assert (q_bytes (push q (TxMsg to b len)) = q_bytes q + len) as Hnew.
  { cbn. unfold OBJ_MAX in *. apply u64_small. lia. }
  constructor.
  - unfold cap in *. cbn. by rewrite length_insert.
  - unfold cap in *. cbn. by rewrite length_insert.
  - unfold cap in *. cbn. rewrite length_insert. lia.
  - rewrite Hi. apply Forall_app. split; [done|]. constructor; [done|constructor].
  - rewrite Hi, Hnew, weight_app, W5. unfold weight. cbn. lia.
  - rewrite Hnew. cbn. lia.
Qed.

Lemma regrown_wf q : queue_wf q → queue_wf (regrown q).
Proof.
  intros [W1 W2 W3 W4 W5 W6]. pose proof (regrown_items q W1 W3) as Hi.
  pose proof (regrown_cap q W1 W3) as Hc. constructor; rewrite ?Hi; try done; cbn in *; lia.
Qed.

Lemma drop_one_wf q : queue_wf q → queue_wf (drop_one q).
Proof. intros []. by constructor. Qed.

Lemma txq_send_spec k e q l buf to : queue_wf q → loop_ok l → mlen buf <= OBJ_MAX →
  ∃ q' l' rc, net_txq_send k e q l buf to = Ok (q', l', rc) ∧ queue_wf q' ∧ loop_ok l' ∧
    q_l q' = q_l q ∧ q_max_bytes q' = q_max_bytes q ∧ same_others k l l' ∧
    (rc = NET_OK ∧ octets (queue q) + mlen buf <= q_max_bytes q ∧ queue q' = queue q ++ [(to, buf)] ∧
       (if bool_decide (queue q = []) && q_l q then e_hook e = true → hook k ∈ NetHook.hooks l' else l' = l) ∨
     rc = NET_ERR ∧ queue q' = queue q ∧ l' = l ∧
       (q_max_bytes q < octets (queue q) + mlen buf ∨ e_ring e = false ∨ e_buf e = false)).
Proof.
  intros Hw Hl Hbuf. pose proof Hw as [W1 W2 W3 W4 W5 W6].
  destruct (queue_bytes q Hw) as [Hb Hb0]. pose proof (mlen_nonneg buf). unfold net_txq_send.
  unfold OBJ_MAX in *. rewrite u64_small by lia.
  destruct (Z.ltb_spec (q_max_bytes q) (q_bytes q + mlen buf)) as [Hgt|Hle].
  { do 3 eexists. split; [done|]. split; [by apply drop_one_wf|]. do 4 (split; [done|]). right.
    rewrite <-Hb. split_and!; try done. by left. }
  set (q1 := if bool_decide (q_n q = length (q_q q)) then regrown q else q).
  assert (queue_wf q1 ∧ (q_n q1 < cap q1)%nat ∧ items q1 = items q ∧ q_n q1 = q_n q ∧
    q_bytes q1 = q_bytes q ∧ q_max_bytes q1 = q_max_bytes q ∧ q_l q1 = q_l q) as (Hw1 & Hn1 & Hi1 & En & Eb & Em & El).
  { unfold q1. case_bool_decide as E.
    - split; [by apply regrown_wf|]. split; [exact (regrown_cap q W1 W3)|].
      split; [by apply regrown_items|done].
    - split_and!; try done. unfold cap in *. lia. }
  assert ((if bool_decide (q_n q = length (q_q q)) then grow e q else Ok (Some q)) =
    Ok (if bool_decide (q_n q = length (q_q q)) && negb (e_ring e) then None else Some q1)) as ->.
  { unfold q1. destruct (bool_decide _); [|done]. rewrite grow_spec by done. by destruct (e_ring e). }
  bstep. destruct (bool_decide _ && negb (e_ring e)) eqn:Er.
  { apply andb_true_iff in Er as [_ Er]. do 3 eexists. split; [done|]. split; [by apply drop_one_wf|].
    do 4 (split; [done|]). right. split_and!; try done. right. left. by destruct (e_ring e). }
  clear Er. pose proof Hw1 as [V1 V2 V3 V4 V5 V6].
  rewrite NetTimer.aget_Ok by (by apply ring_lt). bstep. fold (slot q1 (q_n q1)).
  destruct (fill_buffer (m_buf (slot q1 (q_n q1))) buf) as (b2 & Hfill & Hb2 & Htake). cbv zeta in Hfill.
  destruct (_ && negb (e_buf e)) eqn:Es.
  { apply andb_true_iff in Es as [_ Es]. do 3 eexists. split; [done|]. split; [by apply drop_one_wf|].
    cbn [q_l q_max_bytes drop_one set_counts]. do 4 (split; [done|]). right.
    split_and!; try done; [|right; right; by destruct (e_buf e)].
    unfold queue. change (items (drop_one q1)) with (items q1). by rewrite Hi1. }
  rewrite Hfill. bstep. rewrite NetTimer.aset_Ok by (by apply ring_lt). bstep.
  assert (bool_decide (q_n q1 = 0%nat) = bool_decide (queue q = [])) as ->.
  { apply bool_decide_ext. rewrite En, <-(length_items q), <-(length_map raw). fold (queue q).
    destruct (queue q); cbn; done || lia. }
  rewrite El. fold (push q1 (TxMsg to b2 (mlen buf))).
  assert (queue (push q1 (TxMsg to b2 (mlen buf))) = queue q ++ [(to, buf)]) as Hq.
  { unfold queue. rewrite push_items, map_app, Hi1 by done. cbn [map]. do 2 f_equal. unfold raw. cbn.
    by rewrite Htake. }
  assert (queue_wf (push q1 (TxMsg to b2 (mlen buf)))) as Hwp by (apply push_wf; done || lia).
  destruct (bool_decide (queue q = []) && q_l q).
  - destruct (hook_on k e l Hl) as (l' & rc & -> & Hl' & Hon & Hoth). bstep.
    do 3 eexists. split; [done|]. do 5 (split; [done|]). left. split_and!; try done. lia.
  - bstep. do 3 eexists. split; [done|]. do 5 (split; [done|]). left. split_and!; try done. lia.
Qed.

(** ** Flushing *)

(** The datagrams a flush took off the queue, in order, and whether each went out. *)
Definition went (tags : list (bool * (option net_addr * list Z))) := filter (λ t, t.1 = true) tags.
Definition gone (tags : list (bool * (option net_addr * list Z))) := filter (λ t, t.1 = false) tags.

Lemma went_sent b ds : went (map (pair b) ds) = (if b : bool then map (pair true) ds else []).
Proof.
  unfold went. induction ds as [|d ds IH]; [by destruct b|]. cbn [map]. destruct b.
  - by rewrite filter_cons_True, IH.
  - by rewrite filter_cons_False, IH.
Qed.
Lemma gone_sent b ds : gone (map (pair b) ds) = (if b : bool then [] else map (pair false) ds).
Proof.
  unfold gone. induction ds as [|d ds IH]; [by destruct b|]. cbn [map]. destruct b.
  - by rewrite filter_cons_False, IH.
  - by rewrite filter_cons_True, IH.
Qed.
Lemma map_snd_pair {A B} (b : A) (ds : list B) : map snd (map (pair b) ds) = ds.
Proof. rewrite map_map. apply map_id. Qed.

(** What a flush reports: the queue it leaves, the number sent, what was sent and
    what was refused for good. *)
Definition flushed (k : sock) (q : net_txq) (l : net_loop) (total : Z)
    (sent lost : list (option net_addr * list Z)) (q' : net_txq) (l' : net_loop) (total' : Z)
    (sent' lost' : list (option net_addr * list Z)) : Prop :=
  queue_wf q' ∧ loop_ok l' ∧ q_l q' = q_l q ∧ q_max_bytes q' = q_max_bytes q ∧
  same_others k l l' ∧
  (if bool_decide (queue q' = []) then q_l q = true → hook k ∉ NetHook.hooks l'
   else NetHook.hooks l' = NetHook.hooks l) ∧
  ∃ tags, queue q = map snd tags ++ queue q' ∧
    sent' = sent ++ map (wire k) (map snd (went tags)) ∧
    lost' = lost ++ map (wire k) (map snd (gone tags)) ∧
    total' = total + Z.of_nat (length (went tags)).

Definition decisive (a : answer) : bool := match a with Fails e => negb (e =? EINTR) | Takes _ => true end.
(** The kernel takes a whole batch, or fails for a reason that is not pressure. *)
Definition accepts (a : answer) : bool :=
  match a with Takes more => (63 <=? more)%nat | Fails e => negb (again e) end.

Lemma flushed_step k q l total sent lost b n q1 q' l' total' sent' lost' :
  (n <= length (queue q))%nat → queue q1 = drop n (queue q) → q_l q1 = q_l q →
  q_max_bytes q1 = q_max_bytes q →
  flushed k q1 l (if b : bool then total + Z.of_nat n else total)
    (if b : bool then sent ++ map (wire k) (take n (queue q)) else sent)
    (if b : bool then lost else lost ++ map (wire k) (take n (queue q))) q' l' total' sent' lost' →
  flushed k q l total sent lost q' l' total' sent' lost'.
Proof.
  intros Hn Hq1 El Em (H1 & H2 & H3 & H4 & H5 & H6 & tags & Ht & Hs & Hlo & Hto).
  rewrite El in H3, H6. rewrite Em in H4. split_and!; try done; try apply H1; try apply H2.
  exists (map (pair b) (take n (queue q)) ++ tags).
  rewrite map_app, map_snd_pair, <-app_assoc, <-Ht, Hq1, take_drop. split; [done|].
  unfold went, gone in *. rewrite !filter_app, !map_app.
  fold (went (map (pair b) (take n (queue q)))) (gone (map (pair b) (take n (queue q)))).
  rewrite went_sent, gone_sent. destruct b.
  - rewrite map_snd_pair. cbn [map app]. rewrite length_app, length_map, length_take, Nat.min_l by done.
    rewrite Hs, Hlo, Hto, ?map_app, <-?app_assoc. split_and!; try done. lia.
  - rewrite map_snd_pair. cbn [map app]. rewrite Hs, Hlo, Hto, ?map_app, <-?app_assoc. done.
Qed.

Lemma set_counts_items q a b c d : items (set_counts q a b c d) = items q.
Proof. done. Qed.
Lemma set_counts_wf q a b c d : queue_wf q → queue_wf (set_counts q a b c d).
Proof. intros []. by constructor. Qed.
Lemma set_wr_wf q wr id : queue_wf q → queue_wf (set_wr q wr id).
Proof. intros []. by constructor. Qed.

Lemma flushed_stop k q q' l l' total sent lost : queue_wf q' → loop_ok l' →
  queue q' = queue q → q_l q' = q_l q → q_max_bytes q' = q_max_bytes q → queue q ≠ [] →
  NetHook.hooks l' = NetHook.hooks l → flushed k q l total sent lost q' l' total sent lost.
Proof.
  intros H1 H2 Hq El Em Hne Hh. unfold flushed. rewrite Hq, bool_decide_false by done.
  split_and!; try done; try apply H1; try apply H2.
  - intros h _. by rewrite Hh.
  - exists []. cbn. rewrite !app_nil_r, Z.add_0_r. done.
Qed.

Definition count_decisive (answers : list answer) : nat :=
  length (filter (λ a, decisive a = true) answers).

Lemma length_queue q : length (queue q) = q_n q.
Proof. unfold queue. by rewrite length_map, length_items. Qed.
Lemma queue_nil q : queue q = [] ↔ q_n q = 0%nat.
Proof. rewrite <-length_queue. destruct (queue q); cbn; done || lia. Qed.

Lemma popped_queue q n : queue_wf q → (n <= q_n q)%nat → queue (popped q n) = drop n (queue q).
Proof.
  intros [_ W2 W3 _ _ _] Hn. unfold queue. rewrite popped_items by done. apply fmap_drop.
Qed.

(** What the batch handed to the kernel holds. *)
Lemma batch_spec k q n : queue_wf q → (n <= q_n q)%nat →
  (ms ← gather q 0 n; datagrams k ms) = Ok (map (wire k) (take n (queue q))).
Proof.
  intros [W1 _ _ W4 _ _] Hn. rewrite gather_spec by done. bstep. rewrite items_take by done.
  rewrite datagrams_spec by (by apply Forall_take). do 2 f_equal. unfold queue. apply fmap_take.
Qed.

Lemma flush_done k e q l total sent lost : queue_wf q → loop_ok l → q_n q = 0%nat →
  ∃ q' l', (q ← disarm_wr k e q l;
            l ← (if q_l q then '(l, _) ← net_loop_pre_del l pre_tramp (k_self k); Ok l else Ok l);
            Ok (Some (q, l, total, sent, lost))) = Ok (Some (q', l', total, sent, lost)) ∧
    flushed k q l total sent lost q' l' total sent lost ∧ queue q' = [].
Proof.
  intros Hw Hl Hn. destruct (disarm_wr_spec k e q l) as [wr ->]. bstep.
  set (q' := set_wr q wr (q_retry_id q)). change (q_l q') with (q_l q).
  assert (queue q = []) as Hq by (by apply queue_nil).
  assert (queue q' = []) as Hq' by exact Hq.
  assert (∀ l', loop_ok l' → same_others k l l' → (q_l q = true → hook k ∉ NetHook.hooks l') →
    flushed k q l total sent lost q' l' total sent lost) as Hfl.
  { intros l' Hl' Hoth Hh. unfold flushed. rewrite Hq', Hq, bool_decide_true by done.
    split; [by apply set_wr_wf|]. do 5 (split; [done|]). exists []. cbn.
    by rewrite !app_nil_r, Z.add_0_r. }
  destruct (q_l q) eqn:El.
  - destruct (hook_off k l Hl) as (l' & rc & -> & Hl' & Hoff & Hoth). bstep. do 2 eexists.
    split; [done|]. split; [by apply Hfl|done].
  - bstep. do 2 eexists. split; [done|]. split; [|done]. by apply Hfl.
Qed.

(** Taking [r] datagrams off during a flush, sent or lost. *)
Lemma flush_pop k q q1 l total sent lost (b : bool) r :
  queue_wf q → queue_wf q1 → items q1 = items q → q_n q1 = q_n q → q_l q1 = q_l q →
  q_max_bytes q1 = q_max_bytes q → (r <= q_n q)%nat →
  pop q1 r = Ok (popped q1 r) ∧ queue_wf (popped q1 r) ∧ queue (popped q1 r) = drop r (queue q) ∧
  q_n (popped q1 r) = (q_n q - r)%nat ∧
  ∀ q' l' total' sent' lost',
    flushed k (popped q1 r) l (if b then total + Z.of_nat r else total)
      (if b then sent ++ map (wire k) (take r (queue q)) else sent)
      (if b then lost else lost ++ map (wire k) (take r (queue q))) q' l' total' sent' lost' →
    flushed k q l total sent lost q' l' total' sent' lost'.
Proof.
  intros Hw Hw1 Hi Hn El Em Hr. destruct (pop_spec q1 r Hw1 ltac:(lia)) as [Hp Hpw].
  assert (queue (popped q1 r) = drop r (queue q)) as Hpq.
  { rewrite popped_queue by (done || lia). unfold queue. by rewrite Hi. }
  do 3 (split; [done|]). split; [cbn; lia|]. intros q' l' total' sent' lost'.
  apply flushed_step; try done. rewrite length_queue. lia.
Qed.

Lemma flush_loop_spec k e : ∀ answers q l total sent lost, queue_wf q → loop_ok l →
  0 <= total → total + Z.of_nat (q_n q) <= INT_MAX →
  ∃ r, flush_loop k e answers q l total sent lost = Ok r ∧
    match r with
    | None => (count_decisive answers < q_n q)%nat ∧ (Fails EAGAIN ∉ answers)
    | Some (q', l', total', sent', lost') =>
        flushed k q l total sent lost q' l' total' sent' lost' ∧
        (Forall (λ a, accepts a = true) answers → queue q' = [])
    end.
Proof.
  induction answers as [|a answers IH]; intros q l total sent lost Hw Hl Ht0 Htn; cbn [flush_loop].
  { case_bool_decide as E; [|eexists; split; [done|]; split; [cbn; lia|apply not_elem_of_nil]].
    destruct (flush_done k e q l total sent lost Hw Hl E) as (q' & l' & -> & Hf & Hq).
    eexists. split; [done|]. done. }
  case_bool_decide as E.
  { destruct (flush_done k e q l total sent lost Hw Hl E) as (q' & l' & -> & Hf & Hq).
    eexists. split; [done|]. done. }
  set (n := if bool_decide (q_n q < NET_TXQ_BATCH)%nat then q_n q else NET_TXQ_BATCH). cbv zeta.
  assert (0 < n <= q_n q ∧ n <= 64)%nat as [Hn Hn64].
  { unfold n, NET_TXQ_BATCH. case_bool_decide; lia. }
  pose proof (batch_spec k q n Hw (proj2 Hn)) as Hb.
  destruct (gather q 0 n) as [ms| |]; [|done|done]. cbn [mbind res_bind] in Hb |- *. rewrite Hb. bstep.
  assert (queue q ≠ []) as Hne by (by rewrite queue_nil).
  destruct a as [more|errno].
  - set (r := Nat.min (S more) n). assert (0 < r <= n)%nat as Hr by (unfold r; lia).
    rewrite firstn_map, take_take, Nat.min_l by lia.
    unfold int_add. rewrite (proj2 (Z.ltb_ge _ _)) by lia. bstep.
    match goal with |- context [pop ?x r] => set (q1 := x) end.
    destruct (flush_pop k q q1 l total sent lost true r Hw) as (-> & Hw' & Hq' & Hn' & Hstep);
      try done; [by apply set_counts_wf, set_counts_wf|lia|]. bstep.
    case_bool_decide as Hrn.
    + match goal with |- context [arm_wr k e ?x l] => set (q2 := x) end.
      destruct (arm_wr_spec k e q2 l Hl) as (wr & id & l' & -> & Hl' & Hh'). bstep.
      eexists. split; [done|]. split.
      * apply Hstep. apply flushed_stop; try done.
        -- by apply set_wr_wf, set_counts_wf.
        -- rewrite queue_nil, Hn'. lia.
      * intros Hacc. apply Forall_cons_iff in Hacc as [Hacc _]. unfold accepts in Hacc.
        apply Nat.leb_le in Hacc. unfold r in Hrn. lia.
    + destruct (IH (popped q1 r) l (total + Z.of_nat r) (sent ++ map (wire k) (take r (queue q))) lost Hw' Hl ltac:(lia) ltac:(lia))
        as (res & -> & Hres). eexists. split; [done|].
      destruct res as [[[[[q' l'] total'] sent'] lost']|].
      * destruct Hres as [Hf Hacc]. split; [by apply Hstep|].
        intros [_ ?]%Forall_cons_iff. by apply Hacc.
      * destruct Hres as [Hc Hna]. split; [|by rewrite not_elem_of_cons].
        unfold count_decisive in *. rewrite filter_cons_True by done. cbn [length]. lia.
  - destruct (Z.eqb_spec errno EINTR) as [->|Hni].
    { destruct (IH q l total sent lost Hw Hl Ht0 Htn) as (res & -> & Hres). eexists. split; [done|].
      destruct res as [[[[[q' l'] total'] sent'] lost']|].
      2: { destruct Hres as [Hc Hna]. split; [done|by rewrite not_elem_of_cons]. }
      destruct Hres as [Hf Hacc]. split; [done|]. intros [_ ?]%Forall_cons_iff. by apply Hacc. }
    destruct (again errno) eqn:Ea.
    { match goal with |- context [arm_wr k e ?x l] => set (q2 := x) end.
      destruct (arm_wr_spec k e q2 l Hl) as (wr & id & l' & -> & Hl' & Hh'). bstep.
      eexists. split; [done|]. split.
      - apply flushed_stop; try done. by apply set_wr_wf, set_counts_wf, set_counts_wf.
      - intros Hacc. apply Forall_cons_iff in Hacc as [Hacc _]. cbn in Hacc. by rewrite Ea in Hacc. }
    rewrite firstn_map, take_take, Nat.min_l by lia.
    match goal with |- context [pop ?x 1] => set (q1 := x) end.
    destruct (flush_pop k q q1 l total sent lost false 1 Hw) as (-> & Hw' & Hq' & Hn' & Hstep);
      try done; [by apply set_counts_wf, set_counts_wf|lia|]. bstep.
    destruct (IH (popped q1 1) l total sent (lost ++ map (wire k) (take 1 (queue q))) Hw' Hl Ht0 ltac:(lia))
      as (res & -> & Hres). eexists. split; [done|].
    destruct res as [[[[[q' l'] total'] sent'] lost']|].
    + destruct Hres as [Hf Hacc]. split; [by apply Hstep|].
      intros [_ ?]%Forall_cons_iff. by apply Hacc.
    + destruct Hres as [Hc Hna]. split.
      * unfold count_decisive in *. rewrite filter_cons_True; [cbn [length]; lia|]. cbn.
        by rewrite (proj2 (Z.eqb_neq errno EINTR) Hni).
      * rewrite not_elem_of_cons. split; [|done]. intros [= <-]. done.
Qed.

(** ** The queue as a FIFO *)

Inductive op :=
| Send (e : env) (buf : mem) (to : option net_addr)
| Flush (e : env) (answers : list answer).
Inductive out :=
| Code (rc : Z)
| Out (total : Z) (sent lost : list (option net_addr * list Z)).

(** A flush whose kernel gives the listed answers and pushes back on any further
    call. *)
Definition exec (k : sock) (o : op) (ql : net_txq * net_loop) : res (net_txq * net_loop * out) :=
  match o with
  | Send e buf to => '(q, l, rc) ← net_txq_send k e ql.1 ql.2 buf to; Ok (q, l, Code rc)
  | Flush e answers =>
      r ← net_txq_flush k e (answers ++ [Fails EAGAIN]) ql.1 ql.2;
      match r with
      | Some (q, l, total, sent, lost) => Ok (q, l, Out total sent lost)
      | None => Ub
      end
  end.
Fixpoint exec_all (k : sock) (os : list op) (ql : net_txq * net_loop) : res (net_txq * net_loop * list out) :=
  match os with
  | [] => Ok (ql, [])
  | o :: os => '(ql, x) ← exec k o ql; '(ql, xs) ← exec_all k os ql; Ok (ql, x :: xs)
  end.

(** What the calls promise, on the queued datagrams. *)
Inductive fifo_step (k : sock) (max : Z) (b : list (option net_addr * list Z)) :
    op → out → list (option net_addr * list Z) → Prop :=
| fifo_send e buf to : octets b + mlen buf <= max →
    fifo_step k max b (Send e buf to) (Code NET_OK) (b ++ [(to, buf)])
| fifo_full e buf to : max < octets b + mlen buf ∨ e_ring e = false ∨ e_buf e = false →
    fifo_step k max b (Send e buf to) (Code NET_ERR) b
| fifo_flush e answers tags b' : b = map snd tags ++ b' →
    fifo_step k max b (Flush e answers)
      (Out (Z.of_nat (length (went tags))) (map (wire k) (map snd (went tags)))
           (map (wire k) (map snd (gone tags)))) b'.

Inductive fifo_run (k : sock) (max : Z) :
    list (option net_addr * list Z) → list op → list out → list (option net_addr * list Z) → Prop :=
| fifo_nil b : fifo_run k max b [] [] b
| fifo_cons b b1 b2 o os x xs :
    fifo_step k max b o x b1 → fifo_run k max b1 os xs b2 → fifo_run k max b (o :: os) (x :: xs) b2.

(** The invariant: ring and loop are well formed, and the queue's hook is registered only
    while something is queued. *)
Definition sound (k : sock) (q : net_txq) (l : net_loop) : Prop :=
  queue_wf q ∧ loop_ok l ∧ (q_l q = true → hook k ∈ NetHook.hooks l → queue q ≠ []).
(** While something is queued the hook is registered. *)
Definition hooked (k : sock) (q : net_txq) (l : net_loop) : Prop :=
  q_l q = true → queue q ≠ [] → hook k ∈ NetHook.hooks l.

(** A datagram is an object; [hook_ok]: the loop has memory for the hook. *)
Definition op_ok (o : op) : Prop := match o with Send e buf _ => mlen buf <= OBJ_MAX | Flush _ _ => True end.
Definition hook_ok (o : op) : Prop := match o with Send e _ _ => e_hook e = true | Flush _ _ => True end.

Lemma send_inv k e q l buf to : sound k q l → mlen buf <= OBJ_MAX →
  ∃ q' l' rc, net_txq_send k e q l buf to = Ok (q', l', rc) ∧ sound k q' l' ∧
    q_max_bytes q' = q_max_bytes q ∧ (length (queue q') <= S (length (queue q)))%nat ∧
    fifo_step k (q_max_bytes q) (queue q) (Send e buf to) (Code rc) (queue q') ∧
    (hooked k q l → e_hook e = true → hooked k q' l').
Proof.
  intros (Hw & Hl & Hh) Hb.
  destruct (txq_send_spec k e q l buf to Hw Hl Hb)
    as (q' & l' & rc & -> & Hw' & Hl' & El & Em & Hoth & [(-> & Hle & Hq & Hon)|(-> & Hq & -> & Hr)]);
    do 3 eexists; (split; [done|]).
  - split; [|split; [done|rewrite Hq; split; [rewrite length_app; cbn; lia|split; [by constructor|]]]].
    + split; [done|]. split; [done|]. rewrite Hq. intros _ _. by destruct (queue q).
    + intros Hk He. unfold hooked in *. rewrite El. intros Hql _. rewrite Hql, andb_true_r in Hon.
      case_bool_decide as E; [by apply Hon|]. subst l'. by apply Hk.
  - split; [|split; [done|rewrite Hq; split; [lia|split; [by constructor|]]]].
    + split; [done|]. split; [done|]. by rewrite El, Hq.
    + intros Hk _. unfold hooked in *. by rewrite El, Hq.
Qed.

Lemma flushed_inv k q l total sent lost q' l' total' sent' lost' : sound k q l →
  flushed k q l total sent lost q' l' total' sent' lost' → sound k q' l' ∧ (hooked k q l → hooked k q' l').
Proof.
  intros (Hw & Hl & Hh) (Hw' & Hl' & El & Em & Hoth & Hk & tags & Ht & _). unfold sound, hooked in *. rewrite El.
  case_bool_decide as E; [split; [|by rewrite E]; split; [done|]; split; [done|]; intros Hql Hin; by destruct (Hk Hql)|].
  split; [done|]. rewrite Hk. intros Hk' Hql _. apply Hk'; [done|]. intros Hq. rewrite Hq in Ht. symmetry in Ht. by apply app_eq_nil in Ht as [_ ?].
Qed.
Lemma flush_inv k e answers q l : sound k q l → Z.of_nat (q_n q) <= INT_MAX →
  ∃ q' l' total sent lost,
    net_txq_flush k e (answers ++ [Fails EAGAIN]) q l = Ok (Some (q', l', total, sent, lost)) ∧
    sound k q' l' ∧ q_max_bytes q' = q_max_bytes q ∧ (length (queue q') <= length (queue q))%nat ∧
    fifo_step k (q_max_bytes q) (queue q) (Flush e answers) (Out total sent lost) (queue q') ∧
    (hooked k q l → hooked k q' l').
Proof.
  intros Hi Hn. pose proof Hi as (Hw & Hl & _). unfold net_txq_flush.
  destruct (flush_loop_spec k e (answers ++ [Fails EAGAIN]) q l 0 [] [] Hw Hl ltac:(done) ltac:(lia)) as (r & -> & Hr).
  destruct r as [[[[[q' l'] total] sent] lost]|].
  2: { destruct Hr as [_ Hr]. exfalso. apply Hr, elem_of_app. right. left. }
  destruct Hr as [Hf _]. destruct (flushed_inv _ _ _ _ _ _ _ _ _ _ _ Hi Hf) as [Hi' Hk].
  destruct Hf as (Hw' & Hl' & El & Em & Hoth & _ & tags & Ht & -> & -> & ->).
  do 5 eexists. split; [done|]. split; [done|]. split; [done|]. split; [rewrite Ht, length_app; lia|]. split; [by constructor|done].
Qed.

(** Any sequence of calls. *)
Lemma exec_all_spec k os q l : sound k q l → Forall op_ok os → Z.of_nat (q_n q + length os) <= INT_MAX →
  ∃ q' l' xs, exec_all k os (q, l) = Ok (q', l', xs) ∧ sound k q' l' ∧
    fifo_run k (q_max_bytes q) (queue q) os xs (queue q') ∧ q_max_bytes q' = q_max_bytes q ∧
    (hooked k q l → Forall hook_ok os → hooked k q' l').
Proof.
  revert q l. induction os as [|o os IH]; intros q l Hi Hos Hn; cbn [exec_all].
  { do 3 eexists. split; [done|]. split; [done|]. split; [constructor|done]. }
  apply Forall_cons_iff in Hos as [Ho Hos]. cbn [length] in Hn.
  assert (∃ q1 l1 x, exec k o (q, l) = Ok (q1, l1, x) ∧ sound k q1 l1 ∧ q_max_bytes q1 = q_max_bytes q ∧
    (length (queue q1) <= S (length (queue q)))%nat ∧ fifo_step k (q_max_bytes q) (queue q) o x (queue q1) ∧
    (hooked k q l → hook_ok o → hooked k q1 l1)) as (q1 & l1 & x & -> & Hi1 & Em & Hl1 & Hs & Hk).
  { destruct o as [e buf to|e answers]; cbn [exec fst snd].
    - destruct (send_inv k e q l buf to Hi Ho) as (q1 & l1 & rc & -> & ? & ? & ? & ? & ?).
      bstep. do 3 eexists. split; [done|]. done.
    - destruct (flush_inv k e answers q l Hi ltac:(lia)) as (q1 & l1 & total & sent & lost & -> & ? & ? & ? & ? & ?).
      bstep. do 3 eexists. split; [done|]. split_and!; [done..|lia|done|by intros ? _; auto]. }
  rewrite !length_queue in Hl1. bstep. destruct (IH q1 l1 Hi1 Hos ltac:(lia)) as (q' & l' & xs & -> & Hi' & Hr & Hm & Hk'). bstep.
  rewrite Em in Hr, Hm. do 3 eexists. split; [done|]. split; [done|]. split; [by econstructor|]. split; [done|].
  intros Hh [? ?]%Forall_cons_iff. auto.
Qed.

(** C6: the transmit queue is a FIFO with a byte cap.  For any sequence of sends
    and flushes from a queue and a loop that satisfy the invariant, whatever the
    kernel and the allocator answer, nothing is accessed out of bounds and the invariant is
    kept (datagrams are objects of C, and their number fits the [int] a flush returns).  A
    send appends the datagram, or refuses it, exactly when the queued octets would
    exceed the cap or an allocation for the queue fails, and then nothing is queued; a flush
    takes datagrams off the front in order, each either handed to the kernel (to
    the IPv4-mapped address on an IPv6 socket) or refused for good, and reports
    the number handed over.  The reported byte count is the octets queued and
    never exceeds the cap.  The queue's pre-poll hook is registered only while
    something is queued, and whenever something is queued provided the loop had memory
    for the hook on every send. *)
Theorem net_txq_fifo k os q l :
  sound k q l → Forall op_ok os → Z.of_nat (q_n q + length os) <= INT_MAX →
  ∃ q' l' xs, exec_all k os (q, l) = Ok (q', l', xs) ∧ sound k q' l' ∧
    fifo_run k (q_max_bytes q) (queue q) os xs (queue q') ∧
    net_txq_pending q' = length (queue q') ∧ net_txq_bytes q' = octets (queue q') ∧
    net_txq_bytes q' <= q_max_bytes q ∧
    (hooked k q l → Forall hook_ok os → hooked k q' l').
Proof.
  intros Hi Hos Hn. destruct (exec_all_spec k os q l Hi Hos Hn) as (q' & l' & xs & E & Hi' & Hr & Em & Hk).
  destruct Hi' as (Hw & Hl & Hh). do 3 eexists. split; [exact E|]. split; [done|]. split; [done|]. rewrite length_queue.
  split; [done|]. split; [by apply queue_bytes|]. split; [|done]. rewrite <-Em. apply Hw.
Qed.

Definition queue0 (max : Z) : net_txq :=
  NetTxq true 1 false 0 (replicate NET_TXQ_BATCH zero_msg) 0 0 0 max 0 0 0 0.
Definition loop0 : net_loop := NetLoop false [] [] 0 [] None [] 0 false.

Lemma sound_new k max : 0 <= max <= OBJ_MAX → sound k (queue0 max) loop0.
Proof.
  intros Hm. split; [|split; [split; [by apply (NetTimer.wf_new true true)|apply NetHook.hooks_wf_new]|]].
  - constructor; unfold cap; cbn [q_q q_head q_n q_bytes q_max_bytes queue0];
      rewrite ?length_replicate; unfold NET_TXQ_BATCH; try lia; [constructor|done].
  - intros _ H. by apply elem_of_nil in H.
Qed.

Definition env0 : env := Env true true true true 0 true true.

(** Two datagrams, one of them to an IPv4 peer of an IPv6 socket; the kernel takes
    the first and refuses the second; a third is over the cap. *)
Lemma net_txq_fifo_witness :
  ∃ q' l' xs, exec_all (Sock 3 AF_INET6 77)
      [Send env0 [1; 2; 3] (Some (V4 5060 [10; 0; 0; 1])); Send env0 [4] None; Send env0 [5; 6] None;
       Flush env0 [Takes 0; Fails 90]] (queue0 5, loop0) = Ok (q', l', xs) ∧
    sound (Sock 3 AF_INET6 77) q' l' ∧
    fifo_run (Sock 3 AF_INET6 77) 5 (queue (queue0 5))
      [Send env0 [1; 2; 3] (Some (V4 5060 [10; 0; 0; 1])); Send env0 [4] None; Send env0 [5; 6] None;
       Flush env0 [Takes 0; Fails 90]] xs (queue q').
Proof.
  destruct (net_txq_fifo (Sock 3 AF_INET6 77)
    [Send env0 [1; 2; 3] (Some (V4 5060 [10; 0; 0; 1])); Send env0 [4] None; Send env0 [5; 6] None;
     Flush env0 [Takes 0; Fails 90]] (queue0 5) loop0 (sound_new _ 5 ltac:(by vm_compute)))
    as (q' & l' & xs & H1 & H2 & H3 & _).
  - repeat constructor; by vm_compute.
  - by vm_compute.
  - exists q', l', xs. split; [exact H1|]. split; [exact H2|exact H3].
Defined.

(** C7: a queue drains when the kernel lets it: if it takes whole batches, or
    fails for reasons other than pressure, and answers at least as often (an
    interrupted call apart) as datagrams are queued, the flush returns with an
    empty queue, every datagram was handed over or refused for good, in order, and
    the hook is gone from the loop. *)
Theorem net_txq_drains k e answers q l :
  sound k q l → Forall (λ a, accepts a = true) answers → (q_n q <= count_decisive answers)%nat →
  Z.of_nat (q_n q) <= INT_MAX →
  ∃ q' l' total sent lost tags,
    net_txq_flush k e answers q l = Ok (Some (q', l', total, sent, lost)) ∧ sound k q' l' ∧
    queue q' = [] ∧ net_txq_bytes q' = 0 ∧ (q_l q = true → hook k ∉ NetHook.hooks l') ∧
    queue q = map snd tags ∧ sent = map (wire k) (map snd (went tags)) ∧
    lost = map (wire k) (map snd (gone tags)) ∧ total = Z.of_nat (length sent).
Proof.
  intros Hi Hacc Hn Hm. pose proof Hi as (Hw & Hl & _). unfold net_txq_flush.
  destruct (flush_loop_spec k e answers q l 0 [] [] Hw Hl ltac:(done) ltac:(lia)) as (r & -> & Hr).
  destruct r as [[[[[q' l'] total] sent] lost]|]; [|destruct Hr; lia].
  destruct Hr as [Hf Hq]. specialize (Hq Hacc). destruct (flushed_inv _ _ _ _ _ _ _ _ _ _ _ Hi Hf) as [Hi' _].
  destruct Hf as (Hw' & Hl' & El & Em & Hoth & Hk & tags & Ht & -> & -> & ->).
  rewrite Hq in Hk, Ht. rewrite bool_decide_true in Hk by done. rewrite app_nil_r in Ht.
  do 5 eexists. exists tags. split; [done|]. split; [done|]. split; [done|].
  split; [unfold net_txq_bytes; rewrite (proj1 (queue_bytes q' Hw')); by rewrite Hq|]. do 2 (split; [done|]).
  split_and!; try done. cbn [app]. by rewrite !length_map.
Qed.

(** Three datagrams queued: the kernel is interrupted, refuses the first for good and takes
    the other two, and the hook is gone. *)
Definition loaded_ops : list op := [Send env0 [1; 2; 3] (Some (V4 5060 [10; 0; 0; 1])); Send env0 [4] None; Send env0 [5; 6] None].
Definition loaded : net_txq * net_loop :=
  match exec_all (Sock 3 AF_INET 77) loaded_ops (queue0 100, loop0) with Ok (ql, _) => ql | _ => (queue0 100, loop0) end.
Lemma loaded_sound : sound (Sock 3 AF_INET 77) loaded.1 loaded.2.
Proof.
  destruct (exec_all_spec (Sock 3 AF_INET 77) loaded_ops (queue0 100) loop0) as (q' & l' & xs & E & Hi & _); [by apply sound_new|by repeat constructor|by vm_compute|].
  unfold loaded. by rewrite E.
Qed.
Lemma net_txq_drains_witness :
  length (queue loaded.1) = 3%nat ∧ NetHook.hooks loaded.2 = [hook (Sock 3 AF_INET 77)] ∧
  ∃ q' l' total sent lost,
    net_txq_flush (Sock 3 AF_INET 77) env0 [Fails EINTR; Fails 90; Takes 63; Takes 63] loaded.1 loaded.2
      = Ok (Some (q', l', total, sent, lost)) ∧
    queue q' = [] ∧ total = 2 ∧ sent = [(None, [4]); (None, [5; 6])] ∧ lost = [(Some (V4 5060 [10; 0; 0; 1]), [1; 2; 3])] ∧
    hook (Sock 3 AF_INET 77) ∉ NetHook.hooks l'.
Proof.
  split; [by vm_compute|]. split; [by vm_compute|].
  destruct (net_txq_drains (Sock 3 AF_INET 77) env0 [Fails EINTR; Fails 90; Takes 63; Takes 63] loaded.1 loaded.2)
    as (q' & l' & total & sent & lost & tags & E & _ & Hq & _ & Hh & _); [exact loaded_sound|by repeat constructor|vm_compute; lia|by vm_compute|].
  exists q', l', total, sent, lost. split; [exact E|]. split; [exact Hq|].
  assert (Er : match net_txq_flush (Sock 3 AF_INET 77) env0 [Fails EINTR; Fails 90; Takes 63; Takes 63] loaded.1 loaded.2 with
    | Ok (Some (_, _, t, s, d)) => Some (t, s, d) | _ => None end = Some (2, [(None, [4]); (None, [5; 6])], [(Some (V4 5060 [10; 0; 0; 1]), [1; 2; 3])])) by (by vm_compute).
  rewrite E in Er. cbn in Er. injection Er as -> -> ->. do 3 (split; [done|]). by apply Hh.
Defined.

(** When the loop has no memory for the hook the send still reports success, and
    as later sends find the queue non-empty the hook is never registered. *)
Lemma net_txq_hook_lost :
  ('(ql, xs) ← exec_all (Sock 3 AF_INET 77)
     [Send (Env true true true false 0 true true) [1] None; Send env0 [2] None] (queue0 100, loop0);
   Ok (xs, length (queue ql.1), NetHook.hooks ql.2)) = Ok ([Code NET_OK; Code NET_OK], 2%nat, []).
Proof. by vm_compute. Qed.

End NetQueue.
