(* ===== verification/DnsMsg.v ===== *)
(** * DnsMsg: the DNS resolver

    Models [net/src/dns.c]: the octets of a question and of a response, the queries that are
    outstanding, their timers on the event loop of NetLoop, and what the callbacks are given.
    A query is known by its address, which is also the argument of its timer.  The buffers a
    name is expanded into are the octets written to them so far; a write past their size is
    [Ub].  Datagrams, the clock, the allocator and the seed are arguments; what the resolver
    sends and the callbacks it makes are its outputs, in order.  A callback is the last thing
    the code does for a query, so what it calls itself is a later step. *)

From S2P Require Import Prelude Endian NetLoop NetTxq.
Import NetLoop.

Module DnsMsg.

Definition NET_TIMEOUT : Z := -2.
Definition DNS_QRY_MAX : Z := 300.
Definition DNS_RSP_MAX : Z := 2048.
Definition DNS_EDNS : Z := 1232.
Definition DNS_TYPE_OPT : Z := 41.
Definition NET_DNS_A : Z := 1.
Definition NET_DNS_AAAA : Z := 28.
Definition NET_DNS_SRV : Z := 33.
Definition NET_DNS_NAPTR : Z := 35.
Definition NET_DNS_MAX : Z := 32.

(** The functions the loop calls back. *)
Definition DNS_READABLE : Z := 101.
Definition DNS_TIMEO : Z := 102.

(** ** State *)

(** [q_pkt] is the stored packet, of [len] octets. *)
Record dnsq := Dnsq {
  q_ptr : Z; q_id : Z; q_qtype : Z; q_tries : Z; q_tmr : Z; q_cb : Z; q_ud : Z; q_pkt : list Z; q_name : list Z }.
Record net_dns := NetDns { d_fd : Z; d_server : NetTxq.net_addr; d_qs : list dnsq; d_timeout_ms : Z; d_tries : Z; d_seq : Z }.

Inductive rr_data :=
  | RA (a : list Z)
  | RAAAA (aaaa : list Z)
  | RSRV (prio weight port : Z) (target : list Z)
  | RNAPTR (order pref : Z) (flags service regexp replace : list Z).
Record net_dns_rr := Rr { r_type : Z; r_ttl : Z; r_u : rr_data }.

Inductive out :=
  | Sent (to : NetTxq.net_addr) (pkt : list Z)
  | Called (cb ud status : Z) (rr : list net_dns_rr).

Definition set_qs (qs : list dnsq) (d : net_dns) : net_dns := NetDns (d_fd d) (d_server d) qs (d_timeout_ms d) (d_tries d) (d_seq d).
Definition set_seq (s : Z) (d : net_dns) : net_dns := NetDns (d_fd d) (d_server d) (d_qs d) (d_timeout_ms d) (d_tries d) s.
Definition set_timer (tries tmr : Z) (q : dnsq) : dnsq :=
  Dnsq (q_ptr q) (q_id q) (q_qtype q) tries tmr (q_cb q) (q_ud q) (q_pkt q) (q_name q).

(** ** Octets *)

Definition get16 (m : mem) (p : Z) : res Z := a ← rd m p; b ← rd m (p + 1); Ok (u16 (Z.lor (Z.shiftl a 8) b)).
Definition get32 (m : mem) (p : Z) : res Z :=
  a ← rd m p; b ← rd m (p + 1); c ← rd m (p + 2); d ← rd m (p + 3);
  Ok (Z.lor (Z.lor (Z.lor (Z.shiftl a 24) (Z.shiftl b 16)) (Z.shiftl c 8)) d).
Definition put16 (m : mem) (p v : Z) : res mem := m ← wr m p (u8 (Z.shiftr v 8)); wr m (p + 1) (u8 v).

Definition put_out (cap : Z) (out bs : list Z) : res (list Z) := if cap <? mlen out + mlen bs then Ub else Ok (out ++ bs).
(** [fin] is negative until the offset behind the name is known. *)
Fixpoint name_loop (fuel : nat) (m : mem) (n o : Z) (out : list Z) (jumps fin : Z) : res (option (Z * list Z)) :=
  match fuel with
  | O => Ub
  | S fuel =>
      if n <=? o then Ok None else
      l ← rd m o;
      if l =? 0 then
        _ ← put_out 256 out [0];
        Ok (Some (if fin <? 0 then o + 1 else fin, out))
      else if Z.land l 192 =? 192 then
        if (n <=? o + 1) || (40 <? jumps + 1) then Ok None else
        b ← rd m (o + 1);
        name_loop fuel m n (Z.lor (Z.shiftl (Z.land l 63) 8) b) out (jumps + 1) (if fin <? 0 then o + 2 else fin)
      else if negb (Z.land l 192 =? 0) then Ok None
      else if (n <? o + 1 + l) || (256 <? mlen out + l + 2) then Ok None
      else
        out ← (if negb (mlen out =? 0) then put_out 256 out [46] else Ok out);
        bs ← rdn m (o + 1) l;
        out ← put_out 256 out bs;
        name_loop fuel m n (o + (1 + l)) out jumps fin
  end.
(** The offset behind the name and the text. *)
Definition dns_name (m : mem) (n off : Z) : res (option (Z * list Z)) := name_loop 300 m n off [] 0 (-1).

Definition dns_cstr (m : mem) (n off cap : Z) : res (option (Z * list Z)) :=
  if n <=? off then Ok None else
  l ← rd m off;
  if n <? off + 1 + l then Ok None else
  let c := if l <? cap then l else cap - 1 in
  bs ← rdn m (off + 1) c;
  _ ← put_out cap bs [0];
  Ok (Some (off + 1 + l, bs)).

(** [name] is the rest of a C string, without its terminator. *)
Fixpoint qname_loop (fuel : nat) (m : mem) (p w : Z) (name : list Z) : res (mem * option Z) :=
  match fuel with
  | O => Ub
  | S fuel =>
      match name with
      | [] => m ← wr m (p + w) 0; Ok (m, Some (w + 1))
      | _ =>
          let dot : option nat := fst <$> list_find (λ c, c = 46) name in
          let l := match dot with Some i => Z.of_nat i | None => mlen name end in
          if (l =? 0) || (63 <? l) || (255 <? w + l + 2) then Ok (m, None) else
          m ← wr m (p + w) (u8 l);
          let w := w + 1 in
          m ← wrn m (p + w) (slice name 0 l);
          qname_loop fuel m p (w + l) (drop (Z.to_nat (l + match dot with Some _ => 1 | None => 0 end)) name)
      end
  end.
Definition dns_qname (m : mem) (p : Z) (name : list Z) : res (mem * option Z) := qname_loop (S (length name)) m p 0 name.

(** A C string in an array, and [strcasecmp] on two of them. *)
Fixpoint cstr (bs : list Z) : list Z := match bs with [] => [] | b :: bs => if b =? 0 then [] else b :: cstr bs end.
Definition tolower (c : Z) : Z := if (65 <=? c) && (c <=? 90) then c + 32 else c.
Definition strcaseeq (a b : list Z) : bool := bool_decide (tolower <$> cstr a = tolower <$> cstr b).

(** ** Queries *)

Fixpoint find_q (f : dnsq → bool) (qs : list dnsq) : option dnsq :=
  match qs with [] => None | q :: qs => if f q then Some q else find_q f qs end.
Definition dns_find (d : net_dns) (id : Z) : option dnsq := find_q (λ q, q_id q =? id) (d_qs d).
(** The query a pointer leads to; there is none once it was freed. *)
Definition at_ptr (d : net_dns) (p : Z) : res dnsq := match find_q (λ q, q_ptr q =? p) (d_qs d) with Some q => Ok q | None => Ub end.

Fixpoint unlink (p : Z) (qs : list dnsq) : list dnsq :=
  match qs with [] => [] | q :: qs => if q_ptr q =? p then qs else q :: unlink p qs end.
Definition dns_detach (l : net_loop) (d : net_dns) (q : dnsq) : res (net_loop * net_dns) :=
  let d := set_qs (unlink (q_ptr q) (d_qs d)) d in
  if negb (q_tmr q =? 0) then r ← net_loop_cancel l (q_tmr q); Ok (fst r, d) else Ok (l, d).
(** [*q] after an assignment through the pointer. *)
Definition put_q (q : dnsq) (d : net_dns) : net_dns :=
  set_qs ((λ x, if q_ptr x =? q_ptr q then q else x) <$> d_qs d) d.

Definition dns_send (d : net_dns) (q : dnsq) : list out := [Sent (d_server d) (q_pkt q)].

(** [gh gs now] are what the allocator and the clock answer [net_loop_after]. *)
Definition dns_timeo (gh gs : bool) (now : Z) (l : net_loop) (d : net_dns) (ud : Z) : res (net_loop * net_dns * list out) :=
  q ← at_ptr d ud;
  let tries := q_tries q + 1 in
  if tries <? d_tries d then
    if 64 <=? tries then Ub else
    let q := set_timer tries 0 q in
    '(l, id) ← net_loop_after gh gs now l (u64 (Z.shiftl (d_timeout_ms d) tries)) DNS_TIMEO (q_ptr q);
    Ok (l, put_q (set_timer tries id q) d, dns_send d q)
  else
    let q := set_timer tries 0 q in
    '(l, d) ← dns_detach l d q;
    Ok (l, d, [Called (q_cb q) (q_ud q) NET_TIMEOUT []]).

(** ** Responses *)

(** One resource record of the wanted type: [None] is a [continue]. *)
Definition rr_read (m : mem) (n type rd_ rdlen off : Z) : res (option rr_data) :=
  if type =? NET_DNS_A then
    if negb (rdlen =? 4) then Ok None else a ← rdn m rd_ 4; Ok (Some (RA a))
  else if type =? NET_DNS_AAAA then
    if negb (rdlen =? 16) then Ok None else a ← rdn m rd_ 16; Ok (Some (RAAAA a))
  else if type =? NET_DNS_SRV then
    if rdlen <? 7 then Ok None else
    prio ← get16 m rd_; weight ← get16 m (rd_ + 2); port ← get16 m (rd_ + 4);
    t ← dns_name m n (rd_ + 6);
    Ok (match t with None => None | Some (_, target) => Some (RSRV prio weight port target) end)
  else if type =? NET_DNS_NAPTR then
    if rdlen <? 7 then Ok None else
    order ← get16 m rd_; pref ← get16 m (rd_ + 2);
    f ← dns_cstr m off (rd_ + 4) 16;
    match f with
    | None => Ok None
    | Some (so, flags) =>
        s ← dns_cstr m off so 64;
        match s with
        | None => Ok None
        | Some (so, service) =>
            r ← dns_cstr m off so 256;
            match r with
            | None => Ok None
            | Some (so, regexp) =>
                t ← dns_name m n so;
                Ok (match t with None => None | Some (_, replace) => Some (RNAPTR order pref flags service regexp replace) end)
            end
        end
    end
  else Ok None.
(** The loop over [i] records from [off] on. *)
Fixpoint rr_loop (i : nat) (m : mem) (n off qtype : Z) (rr : list net_dns_rr) : res (list net_dns_rr) :=
  match i with
  | O => Ok rr
  | S i =>
      o ← dns_name m n off;
      match o with
      | None => Ok rr
      | Some (o, _) =>
          if n <? o + 10 then Ok rr else
          type ← get16 m o;
          ttl ← get32 m (o + 4);
          rdlen ← get16 m (o + 8);
          let rd_ := o + 10 in
          if n <? rd_ + rdlen then Ok rr else
          let off := rd_ + rdlen in
          if negb (type =? qtype) || (Z.of_nat (length rr) =? NET_DNS_MAX) then rr_loop i m n off qtype rr else
          v ← rr_read m n type rd_ rdlen off;
          match v with
          | None => rr_loop i m n off qtype rr
          | Some v => rr_loop i m n off qtype (rr ++ [Rr type ttl v])
          end
      end
  end.
Definition dns_parse (l : net_loop) (d : net_dns) (m : mem) (n : Z) : res (net_loop * net_dns * list out) :=
  if n <? 12 then Ok (l, d, []) else
  flags ← get16 m 2;
  if Z.land flags 32768 =? 0 then Ok (l, d, []) else
  id ← get16 m 0;
  match dns_find d id with
  | None => Ok (l, d, [])
  | Some q =>
      qd ← get16 m 4;
      if negb (qd =? 1) then Ok (l, d, []) else
      o ← dns_name m n 12;
      match o with
      | None => Ok (l, d, [])
      | Some (o, qname) =>
          if n <? o + 4 then Ok (l, d, []) else
          if negb (strcaseeq qname (q_name q)) then Ok (l, d, []) else
          qtype ← get16 m o;
          if negb (qtype =? q_qtype q) then Ok (l, d, []) else
          '(l, d) ← dns_detach l d q;
          let rcode := Z.land flags 15 in
          an ← get16 m 6;
          rr ← rr_loop (if rcode =? 0 then Z.to_nat an else 0%nat) m n (o + 4) (q_qtype q) [];
          Ok (l, d, [Called (q_cb q) (q_ud q) rcode rr])
      end
  end.

(** The datagrams that wait at the socket, each cut to the buffer, which they share. *)
Fixpoint readable_loop (grams : list (list Z)) (buf : mem) (l : net_loop) (d : net_dns) : res (net_loop * net_dns * list out) :=
  match grams with
  | [] => Ok (l, d, [])
  | g :: grams =>
      let g := take (Z.to_nat DNS_RSP_MAX) g in
      buf ← wrn buf 0 g;
      '(l, d, o) ← dns_parse l d buf (mlen g);
      '(l, d, os) ← readable_loop grams buf l d;
      Ok (l, d, o ++ os)
  end.
Definition dns_readable (grams : list (list Z)) (l : net_loop) (d : net_dns) : res (net_loop * net_dns * list out) :=
  readable_loop grams (uninit DNS_RSP_MAX) l d.

(** ** Operations *)

(** [conf] is the server of resolv.conf, [udp] the outcome of opening the socket [fd]. *)
Definition net_dns_new (alloc udp grow ctl : bool) (fd seed : Z) (conf server : option NetTxq.net_addr) (self : Z) (l : net_loop) :
    res (net_loop * option net_dns) :=
  if negb alloc then Ok (l, None) else
  match (match server with Some s => Some s | None => conf end) with
  | None => Ok (l, None)
  | Some s =>
      if negb (match NetTxq.net_addr_any (NetTxq.family s) 0 with Some _ => true | None => false end) || negb udp then Ok (l, None) else
      '(l, rc) ← net_loop_add grow ctl l fd NET_RD DNS_READABLE self;
      if negb (rc =? 0) then Ok (l, None) else Ok (l, Some (NetDns fd s [] 500 3 (u16 seed)))
  end.
Fixpoint free_loop (fuel : nat) (l : net_loop) (d : net_dns) : res (net_loop * net_dns) :=
  match fuel with
  | O => Ub
  | S fuel =>
      match d_qs d with
      | [] => Ok (l, d)
      | q :: _ => '(l, d) ← dns_detach l d q; free_loop fuel l d
      end
  end.
Definition net_dns_free (ctl : bool) (l : net_loop) (d : option net_dns) : res net_loop :=
  match d with
  | None => Ok l
  | Some d =>
      '(l, d) ← free_loop (S (length (d_qs d))) l d;
      r ← net_loop_del ctl l (d_fd d);
      Ok (fst r)
  end.
Definition net_dns_conf (d : net_dns) (timeout_ms tries : Z) : net_dns :=
  let d := if 0 <? timeout_ms then NetDns (d_fd d) (d_server d) (d_qs d) timeout_ms (d_tries d) (d_seq d) else d in
  if 0 <? tries then NetDns (d_fd d) (d_server d) (d_qs d) (d_timeout_ms d) tries (d_seq d) else d.

(** The loop that picks an identifier; it goes on for ever while every one is taken. *)
Fixpoint next_id (fuel : nat) (d : net_dns) : res Z :=
  match fuel with
  | O => Ub
  | S fuel =>
      let seq := u16 (d_seq d + 1) in
      match dns_find d seq with Some _ => next_id fuel (set_seq seq d) | None => Ok seq end
  end.
(** The packet of a query. *)
Definition query_pkt (id type : Z) (name : list Z) : res (option (list Z)) :=
  let p := zeros DNS_QRY_MAX in
  p ← put16 p 0 id;
  p ← put16 p 2 256;
  p ← put16 p 4 1;
  p ← put16 p 6 0;
  p ← put16 p 8 0;
  p ← put16 p 10 1;
  '(p, w) ← dns_qname p 12 name;
  match w with
  | None => Ok None
  | Some w =>
      let o := 12 + w in
      p ← put16 p o type;
      p ← put16 p (o + 2) 1;
      let o := o + 4 in
      p ← wr p o 0;
      p ← put16 p (o + 1) DNS_TYPE_OPT;
      p ← put16 p (o + 3) DNS_EDNS;
      p ← wrn p (o + 5) (zeros 6);
      bs ← rdn p 0 (o + 11);
      Ok (Some bs)
  end.
(** [alloc] is the address of the query, if there is memory for it. *)
Definition net_dns_query (alloc : option Z) (gh gs : bool) (now : Z) (l : net_loop) (d : net_dns) (name : option (list Z)) (type cb ud : Z) :
    res (net_loop * net_dns * list out * Z) :=
  match name with
  | None => Ok (l, d, [], NET_ERR)
  | Some name =>
      if (cb =? 0) || (255 <? mlen name) then Ok (l, d, [], NET_ERR) else
      match alloc with
      | None => Ok (l, d, [], NET_ERR)
      | Some ptr =>
          id ← next_id (Z.to_nat 65536) d;
          let d := set_seq id d in
          pkt ← query_pkt id type name;
          match pkt with
          | None => Ok (l, d, [], NET_ERR)
          | Some pkt =>
              let q := Dnsq ptr id type 0 0 cb ud pkt name in
              let d := set_qs (q :: d_qs d) d in
              '(l, tmr) ← net_loop_after gh gs now l (u64 (d_timeout_ms d)) DNS_TIMEO ptr;
              Ok (l, put_q (set_timer 0 tmr q) d, dns_send d q, NET_OK)
          end
      end
  end.
End DnsMsg.
