(* ===== verification/DnsName.v ===== *)
(** * DnsName: domain names

    Names on the wire as a relation: what stands at an offset of a message, through its
    compression pointers.  [dns_name] decides it, within the jumps and the buffer it allows,
    and [dns_qname] writes the names that stand for a dotted text. *)

From S2P Require Import Prelude Endian NetLoop NetTxq DnsMsg.

Module DnsName.
Import DnsMsg.

(** The first [n] cells of a buffer hold octets. *)
Definition octets (m : mem) (n : Z) : Prop := n <= mlen m ∧ ∀ i, 0 <= i < n → 0 <= get m i < 256.

Lemma octets_slice m n p k : octets m n → 0 <= p → p + k <= n → bytes_ok (slice m p k).
Proof.
  intros [Hn Hm] Hp Hk. destruct (Z_le_gt_dec k 0) as [Hz|Hz].
  { unfold slice. replace (Z.to_nat k) with 0%nat by lia. constructor. }
  apply Forall_lookup. intros i x Hx. pose proof (lookup_lt_Some _ _ _ Hx) as Hl.
  assert (L : mlen (slice m p k) = k) by (apply mlen_slice; lia). unfold mlen in L.
  pose proof (get_slice m p k (Z.of_nat i) Hp ltac:(lia)) as G. unfold get in G at 1. rewrite Nat2Z.id, (nth_lookup_Some _ _ _ _ Hx) in G. subst x. apply Hm. lia.
Qed.

(** ** Names on the wire *)

(** From offset [o], through [j] pointers, stand the labels [ls]; what follows the name
    where it began is at [fin]. *)
Inductive names (m : mem) (n : Z) : Z → Z → list (list Z) → Z → Prop :=
  | names_end o : 0 <= o < n → get m o = 0 → names m n o 0 [] (o + 1)
  | names_label o j ls fin : 0 <= o < n → 1 <= get m o <= 63 → o + 1 + get m o <= n →
      names m n (o + 1 + get m o) j ls fin → names m n o j (slice m (o + 1) (get m o) :: ls) fin
  | names_ptr o j ls fin : 0 <= o → o + 1 < n → 192 <= get m o →
      names m n (get m o mod 64 * 256 + get m (o + 1)) j ls fin → names m n o (1 + j) ls (o + 2).

(** The dotted text of labels, behind what was already written. *)
Definition dot_add (t l : list Z) : list Z := (if mlen t =? 0 then t else t ++ [46]) ++ l.
Definition dotted_from (t : list Z) (ls : list (list Z)) : list Z := foldl dot_add t ls.
Definition dotted (ls : list (list Z)) : list Z := dotted_from [] ls.

Lemma names_det m n o j ls fin : names m n o j ls fin → ∀ j' ls' fin', names m n o j' ls' fin' → j' = j ∧ ls' = ls ∧ fin' = fin.
Proof.
  induction 1 as [o Ho H0|o j ls fin Ho Hl Hn H IH|o j ls fin Ho Hn Hp H IH]; intros j' ls' fin' H';
    inversion H' as [? ? ?|? ? ls2 ? ? ? ? H2|? ? ? ? ? ? ? H2]; subst; try lia; try done.
  - by destruct (IH _ _ _ H2) as (-> & -> & ->).
  - by destruct (IH _ _ _ H2) as (-> & -> & _).
Qed.
Lemma names_nonneg m n o j ls fin : names m n o j ls fin → 0 <= j ∧ o < fin <= n ∧ 0 <= o.
Proof. induction 1; lia. Qed.

Lemma dot_add_grows t l : mlen t + mlen l <= mlen (dot_add t l).
Proof. unfold dot_add. rewrite mlen_app. destruct (mlen t =? 0); rewrite ?mlen_app; change (mlen [46]) with 1; lia. Qed.
Lemma dotted_grows ls : ∀ t, mlen t <= mlen (dotted_from t ls).
Proof.
  induction ls as [|l ls IH]; intros t; [done|]. change (dotted_from t (l :: ls)) with (dotted_from (dot_add t l) ls).
  pose proof (IH (dot_add t l)). pose proof (dot_add_grows t l). pose proof (mlen_nonneg l). lia.
Qed.
Lemma ptr_bits l : 0 <= l < 256 → (Z.land l 192 =? 192) = (192 <=? l) ∧ (negb (Z.land l 192 =? 0)) = (64 <=? l) ∧ Z.land l 63 = l mod 64.
Proof.
  revert l. apply (byte_prop (λ l, (Z.land l 192 =? 192) = (192 <=? l) ∧ (negb (Z.land l 192 =? 0)) = (64 <=? l) ∧ Z.land l 63 = l mod 64)). vm_compute. reflexivity.
Qed.

(** ** Reading *)

(** What a name that was read says, and why one is refused. *)
Definition name_result (m : mem) (n o : Z) (t : list Z) (jumps fin : Z) (r : option (Z * list Z)) : Prop :=
  match r with
  | Some (f, t') => ∃ j ls f', names m n o j ls f' ∧ jumps + j <= 40 ∧ t' = dotted_from t ls ∧ mlen t' <= 255 ∧ f = if fin <? 0 then f' else fin
  | None => ∀ j ls f', names m n o j ls f' → 40 < jumps + j ∨ 255 < mlen (dotted_from t ls)
  end.
Lemma name_loop_spec m n fuel : octets m n → ∀ o t jumps fin, 0 <= o → mlen t <= 255 → 0 <= jumps <= 40 →
  (256 - mlen t) + (41 - jumps) <= Z.of_nat fuel →
  ∃ r, name_loop fuel m n o t jumps fin = Ok r ∧ name_result m n o t jumps fin r.
Proof.
  intros [Hn Hm]. induction fuel as [|fuel IH]; intros o t jumps fin Ho Ht Hj Hf; [lia|]. cbn [name_loop].
  destruct (Z.leb_spec n o) as [He|He]. { exists None. split; [done|]. intros j ls f' H%names_nonneg. lia. }
  rewrite (rd_Ok m o) by lia. bstep. pose proof (Hm o ltac:(lia)) as Hl. destruct (Z.eqb_spec (get m o) 0) as [H0|H0].
  { unfold put_out. rewrite (proj2 (Z.ltb_ge 256 _)) by (change (mlen [0]) with 1; lia). bstep. eexists. split; [done|]. cbv iota beta.
    exists 0, [], (o + 1). split_and!; [by constructor|lia|done|done|done]. }
  destruct (ptr_bits (get m o) Hl) as (-> & -> & ->). destruct (Z.leb_spec 192 (get m o)) as [Hp|Hp].
  - destruct (Z.leb_spec n (o + 1)) as [Hs|Hs]; cbn [orb].
    { exists None. split; [done|]. intros j ls f' H. inversion H; subst; lia. }
    destruct (Z.ltb_spec 40 (jumps + 1)) as [Hk|Hk].
    { exists None. split; [done|]. intros j ls f' H. inversion H as [| |? j0 ? ? ? ? ? H2]; subst; [lia|lia|]. pose proof (names_nonneg _ _ _ _ _ _ H2). lia. }
    rewrite (rd_Ok m (o + 1)) by lia. bstep. pose proof (Hm (o + 1) ltac:(lia)) as Hl1. rewrite lor_octet by done. pose proof (Z.mod_pos_bound (get m o) 64 ltac:(lia)).
    destruct (IH (get m o mod 64 * 256 + get m (o + 1)) t (jumps + 1) (if fin <? 0 then o + 2 else fin)) as (r & -> & Hr); [lia|lia|lia|lia|].
    exists r. split; [done|]. destruct r as [[f t']|].
    + destruct Hr as (j & ls & f' & Hnm & Hj' & Et & Lt & ->). exists (1 + j), ls, (o + 2). split_and!; [by apply (names_ptr m n o j ls f')|lia|done|done|].
      destruct (fin <? 0) eqn:Ef; [by rewrite (proj2 (Z.ltb_ge _ 0)) by lia|by rewrite Ef].
    + intros j ls f' H'. inversion H' as [| |? j0 ? ? ? ? ? H2]; subst; [lia|lia|]. destruct (Hr _ _ _ H2); [left|right]; lia.
  - destruct (Z.leb_spec 64 (get m o)) as [H64|H64]. { exists None. split; [done|]. intros j ls f' H'. inversion H'; subst; lia. }
    destruct (Z.ltb_spec n (o + 1 + get m o)) as [Hx|Hx]; cbn [orb]. { exists None. split; [done|]. intros j ls f' H'. inversion H'; subst; lia. }
    assert (Ls : mlen (slice m (o + 1) (get m o)) = get m o) by (apply mlen_slice; lia).
    destruct (Z.ltb_spec 256 (mlen t + get m o + 2)) as [Hw|Hw].
    { exists None. split; [done|]. intros j ls f' H'. inversion H' as [|? ? ls0 ? ? ? ? H2|]; subst; [lia| |lia]. right.
      change (255 < mlen (dotted_from (dot_add t (slice m (o + 1) (get m o))) ls0)). pose proof (dotted_grows ls0 (dot_add t (slice m (o + 1) (get m o)))).
      assert (mlen (dot_add t (slice m (o + 1) (get m o))) = mlen t + 1 + get m o); [|lia].
      unfold dot_add. rewrite mlen_app, Ls. rewrite (proj2 (Z.eqb_neq _ 0)) by lia. rewrite mlen_app. change (mlen [46]) with 1. lia. }
    set (t1 := if mlen t =? 0 then t else t ++ [46]). assert (L1 : mlen t <= mlen t1 <= mlen t + 1).
    { unfold t1. destruct (mlen t =? 0); rewrite ?mlen_app; change (mlen [46]) with 1; lia. }
    assert (E1 : (if negb (mlen t =? 0) then put_out 256 t [46] else Ok t) = Ok t1).
    { unfold t1, put_out. destruct (mlen t =? 0); [done|]. cbn [negb]. by rewrite (proj2 (Z.ltb_ge 256 _)) by (change (mlen [46]) with 1; lia). }
    rewrite E1. bstep. rewrite (rdn_Ok m (o + 1) (get m o)) by lia. bstep. unfold put_out at 1. rewrite Ls, (proj2 (Z.ltb_ge 256 _)) by lia. bstep.
    assert (Ed : t1 ++ slice m (o + 1) (get m o) = dot_add t (slice m (o + 1) (get m o))) by done. rewrite Ed.
    assert (Ld : mlen t + 1 <= mlen (dot_add t (slice m (o + 1) (get m o))) <= 255).
    { unfold dot_add. fold t1. rewrite mlen_app, Ls. pose proof (mlen_nonneg t). lia. }
    destruct (IH (o + (1 + get m o)) (dot_add t (slice m (o + 1) (get m o))) jumps fin) as (r & -> & Hr); [lia|lia|lia|lia|].
    exists r. split; [done|]. rewrite Z.add_assoc in Hr. destruct r as [[f t']|].
    + destruct Hr as (j & ls & f' & Hnm & Hj' & Et & Lt & Ef). exists j, (slice m (o + 1) (get m o) :: ls), f'. split_and!; [apply names_label; [lia|lia|lia|done]|lia|done|done|done].
    + intros j ls f' H'. inversion H' as [|? ? ls0 ? ? ? ? H2|]; subst; [lia| |lia]. by apply (Hr _ _ _ H2).
Qed.

(** C17: [dns_name] decides the names of a message.  On any octets it ends, reads inside the
    datagram and writes inside the buffer of 256; it returns a text exactly when a name
    stands at the offset that goes through at most forty pointers and whose dotted text has
    at most 255 octets, and then returns that text and the offset behind the name where it
    began.  In particular a chain of pointers that loops is refused. *)
Theorem dns_name_exact m n off : octets m n → 0 <= off →
  ∃ r, dns_name m n off = Ok r ∧
    ∀ fin t, r = Some (fin, t) ↔ ∃ j ls, names m n off j ls fin ∧ j <= 40 ∧ t = dotted ls ∧ mlen t <= 255.
Proof.
  intros Hm Ho. destruct (name_loop_spec m n 300 Hm off [] 0 (-1)) as (r & E & Hr); [done|by rewrite mlen_nil|lia|rewrite mlen_nil; lia|].
  exists r. split; [exact E|]. intros fin t. split.
  - intros ->. destruct Hr as (j & ls & f' & Hnm & Hj & Et & Lt & ->). exists j, ls. by split_and!.
  - intros (j & ls & Hnm & Hj & -> & Lt). destruct r as [[f t']|].
    + destruct Hr as (j' & ls' & f' & Hnm' & _ & -> & _ & ->). by destruct (names_det _ _ _ _ _ _ Hnm _ _ _ Hnm') as (-> & -> & ->).
    + destruct (Hr _ _ _ Hnm); unfold dotted in *; lia.
Qed.
Definition ex_name : list Z := [1; 97; 2; 98; 99; 0; 1; 120; 192; 2].
Lemma dns_name_exact_witness : ∃ r, dns_name ex_name 10 6 = Ok r ∧
  ∀ fin t, r = Some (fin, t) ↔ ∃ j ls, names ex_name 10 6 j ls fin ∧ j <= 40 ∧ t = dotted ls ∧ mlen t <= 255.
Proof.
  apply (dns_name_exact ex_name 10 6); [|done]. split; [done|]. intros i Hi. apply get_range. apply (bool_decide_unpack _). vm_compute. exact I.
Defined.
Example ex_name_text : dns_name ex_name 10 6 = Ok (Some (10, [120; 46; 98; 99])).
Proof. reflexivity. Qed.
End DnsName.
