(* ===== verification/DnsQname.v ===== *)
(** * DnsQname: names and questions written

    The labels a dotted text stands for, their octets, and the packet of a query: what
    [dns_qname] writes is read back by [dns_name] as the text without its trailing dot. *)

From S2P Require Import Prelude Endian NetLoop NetTxq DnsMsg DnsName.

Module DnsQname.
Import DnsMsg DnsName.

(** ** Labels *)

(** The labels of a dotted text; a trailing dot does not begin one. *)
Fixpoint pieces (cur name : list Z) : list (list Z) :=
  match name with
  | [] => match cur with [] => [] | _ => [cur] end
  | c :: name => if c =? 46 then cur :: pieces [] name else pieces (cur ++ [c]) name
  end.
Definition label_ok (l : list Z) : Prop := 1 <= mlen l <= 63.
#[export] Instance label_ok_dec l : Decision (label_ok l).
Proof. unfold label_ok. apply _. Defined.
Lemma label_ne l : label_ok l → l ≠ [].
Proof. intros [Hl _] ->. done. Qed.
Definition enc (ls : list (list Z)) : list Z := l ← ls; mlen l :: l.
Definition wire (ls : list (list Z)) : list Z := enc ls ++ [0].
(** The labels a name is sent as, if it is one that can be. *)
Definition qname_of (name : list Z) : option (list (list Z)) :=
  let ls := pieces [] name in
  if bool_decide (Forall label_ok ls) && (mlen (wire ls) <=? 255) then Some ls else None.

Lemma enc_cons l ls : enc (l :: ls) = (mlen l :: l) ++ enc ls.
Proof. done. Qed.
Lemma mlen_enc_cons l ls : mlen (enc (l :: ls)) = 1 + mlen l + mlen (enc ls).
Proof. rewrite enc_cons, mlen_app, mlen_cons. lia. Qed.
Lemma mlen_wire ls : mlen (wire ls) = mlen (enc ls) + 1.
Proof. unfold wire. by rewrite mlen_app. Qed.

Lemma pieces_dot name i c : list_find (λ c, c = 46) name = Some (i, c) → ∀ cur, pieces cur name = (cur ++ take i name) :: pieces [] (drop (S i) name).
Proof.
  revert i. induction name as [|x name IH]; intros i; [done|]. cbn [list_find pieces]. case_decide as Ex.
  - intros [= <- <-] cur. rewrite (proj2 (Z.eqb_eq x 46)) by done. by rewrite take_0, app_nil_r.
  - intros H cur. apply fmap_Some in H as ([i' c'] & H & [= -> ->]). rewrite (proj2 (Z.eqb_neq x 46)) by done. cbn [prod_map fst] in *. rewrite (IH _ H).
    by rewrite <-app_assoc.
Qed.
Lemma pieces_last name : list_find (λ c, c = 46) name = None → ∀ cur, cur ++ name ≠ [] → pieces cur name = [cur ++ name].
Proof.
  induction name as [|x name IH]; cbn [list_find pieces]; [intros _ cur; rewrite app_nil_r; by destruct cur|]. case_decide as Ex; [done|].
  intros H cur _. rewrite (proj2 (Z.eqb_neq x 46)) by done. rewrite IH; [by rewrite <-app_assoc|by apply fmap_None in H|]. rewrite <-app_assoc. by destruct cur.
Qed.
(** The step of the loop: the length up to the first dot and what is left behind it. *)
Definition dot_at (name : list Z) : option nat := fst <$> list_find (λ c, c = 46) name.
Definition head_len (name : list Z) : Z := match dot_at name with Some i => Z.of_nat i | None => mlen name end.
Definition rest (name : list Z) : list Z := drop (Z.to_nat (head_len name + match dot_at name with Some _ => 1 | None => 0 end)) name.
Lemma pieces_step name : name ≠ [] → 0 <= head_len name <= mlen name ∧ (length (rest name) < length name)%nat ∧
  pieces [] name = slice name 0 (head_len name) :: pieces [] (rest name) ∧
  (name = slice name 0 (head_len name) ++ [46] ++ rest name ∨ name = slice name 0 (head_len name) ∧ rest name = []).
Proof.
  intros Hn. unfold rest, head_len, dot_at, slice. destruct (list_find _ name) as [[i c]|] eqn:E; cbn [fmap option_fmap option_map fst].
  - pose proof E as E'. apply list_find_Some in E' as (Hi & -> & _). pose proof (lookup_lt_Some _ _ _ Hi).
    rewrite Nat2Z.id. replace (Z.to_nat (Z.of_nat i + 1)) with (S i) by lia. rewrite (pieces_dot _ _ _ E), length_drop, drop_0.
    split_and!; [lia|unfold mlen; lia|lia|done|]. left. change ([46] ++ drop (S i) name) with (46 :: drop (S i) name). rewrite <-(drop_S _ _ _ Hi). by rewrite take_drop.
  - rewrite (pieces_last _ E) by done. rewrite Z.add_0_r. unfold mlen. rewrite Nat2Z.id, drop_0, take_ge, drop_ge by done.
    split_and!; [lia|lia|destruct name; [done|cbn; lia]|done|by right].
Qed.

(** ** Writing *)

Lemma qname_loop_eq fuel m p w name : name ≠ [] → qname_loop (S fuel) m p w name =
  (let l := head_len name in
   if (l =? 0) || (63 <? l) || (255 <? w + l + 2) then Ok (m, None) else
   m ← wr m (p + w) (u8 l); m ← wrn m (p + (w + 1)) (slice name 0 l); qname_loop fuel m p (w + 1 + l) (rest name)).
Proof. by destruct name. Qed.

(** The loop writes the labels, or refuses. *)
Lemma qname_loop_spec fuel : ∀ m p w name, (length name < fuel)%nat → 0 <= p → 0 <= w <= 254 → p + 255 <= mlen m →
  ∃ m' r, qname_loop fuel m p w name = Ok (m', r) ∧
    if bool_decide (Forall label_ok (pieces [] name)) && (w + mlen (wire (pieces [] name)) <=? 255)
    then r = Some (w + mlen (wire (pieces [] name))) ∧ m' = splice m (p + w) (wire (pieces [] name)) else r = None.
Proof.
  induction fuel as [|fuel IH]; intros m p w name Hf Hp Hw Hm; [lia|]. destruct (decide (name = [])) as [->|Hn].
  { cbn [qname_loop pieces]. rewrite wr_wrn, wrn_Ok by (change (mlen [0]) with 1; lia). bstep. eexists _, _. split; [done|].
    change (wire []) with [0]. change (mlen [0]) with 1. rewrite bool_decide_eq_true_2, (proj2 (Z.leb_le _ 255)) by (constructor || lia). done. }
  rewrite qname_loop_eq by done. destruct (pieces_step name Hn) as (Hh & Hr & -> & _). cbv zeta.
  set (h := slice name 0 (head_len name)). assert (Lh : mlen h = head_len name) by (apply mlen_slice; lia).
  rewrite mlen_wire, mlen_enc_cons, Lh. pose proof (mlen_nonneg (enc (pieces [] (rest name)))).
  destruct ((head_len name =? 0) || (63 <? head_len name) || (255 <? w + head_len name + 2)) eqn:Ec.
  { eexists _, _. split; [done|]. destruct (bool_decide _) eqn:Eb; [|done]. cbn [andb]. destruct (Z.leb_spec (w + (1 + head_len name + mlen (enc (pieces [] (rest name))) + 1)) 255); [|done].
    apply bool_decide_eq_true, Forall_cons in Eb as [[Hl1 Hl2] _]. rewrite Lh in *.
    rewrite (proj2 (Z.eqb_neq _ 0)), (proj2 (Z.ltb_ge 63 _)), (proj2 (Z.ltb_ge 255 _)) in Ec by lia. done. }
  apply orb_false_iff in Ec as [Ec E3%Z.ltb_ge]. apply orb_false_iff in Ec as [E1%Z.eqb_neq E2%Z.ltb_ge].
  rewrite u8_small by lia. rewrite wr_wrn, wrn_Ok by (change (mlen [head_len name]) with 1; lia). bstep.
  rewrite wrn_next by (change (mlen [head_len name]) with 1; lia). set (m1 := splice m (p + w) _).
  assert (L1 : mlen m1 = mlen m) by (apply mlen_splice; rewrite ?mlen_app, ?Lh; change (mlen [head_len name]) with 1; lia).
  destruct (IH m1 p (w + 1 + head_len name) (rest name)) as (m' & r & -> & Hres); [lia|lia|lia|lia|]. eexists _, _. split; [done|].
  rewrite mlen_wire in Hres. rewrite (bool_decide_ext (Forall label_ok (h :: pieces [] (rest name))) (Forall label_ok (pieces [] (rest name)))).
  2: { rewrite Forall_cons. unfold label_ok at 1. rewrite Lh. intuition lia. }
  replace (w + (1 + head_len name + mlen (enc (pieces [] (rest name))) + 1)) with (w + 1 + head_len name + (mlen (enc (pieces [] (rest name))) + 1)) by lia.
  destruct (bool_decide _ && _); [|done]. destruct Hres as [-> ->]. split; [done|]. unfold m1, wire. rewrite enc_cons, <-Lh.
  replace (p + (w + 1 + mlen h)) with (p + w + mlen ([mlen h] ++ h)) by (rewrite mlen_app; change (mlen [mlen h]) with 1; lia).
  rewrite splice_app by (rewrite ?mlen_app, ?Lh; change (mlen [head_len name]) with 1; lia). by rewrite <-!app_assoc.
Qed.
Lemma dns_qname_spec m p name : 0 <= p → p + 255 <= mlen m →
  ∃ m' r, dns_qname m p name = Ok (m', r) ∧
    match qname_of name with Some ls => r = Some (mlen (wire ls)) ∧ m' = splice m p (wire ls) | None => r = None end.
Proof.
  intros Hp Hm. destruct (qname_loop_spec (S (length name)) m p 0 name) as (m' & r & E & H); [lia|lia|lia|lia|]. exists m', r. split; [exact E|].
  unfold qname_of. rewrite Z.add_0_l, Z.add_0_r in H. by destruct (bool_decide _ && _).
Qed.

(** ** Reading back *)

Lemma names_wire m n ls : ∀ o, octets m n → Forall label_ok ls → holds m o (wire ls) → o + mlen (wire ls) <= n → names m n o 0 ls (o + mlen (wire ls)).
Proof.
  induction ls as [|l ls IH]; intros o Hm HF H Hn; destruct (holds_pos _ _ _ H).
  - change (wire []) with [0] in *. change (mlen [0]) with 1 in *. apply names_end; [lia|]. apply holds_cons in H as [E _]. rewrite rd_Ok in E by lia. by injection E.
  - apply Forall_cons in HF as [[Hl1 Hl2] HF]. unfold wire in H. rewrite enc_cons in H. rewrite mlen_wire, mlen_enc_cons in *. pose proof (mlen_nonneg (enc ls)).
    rewrite <-app_assoc in H. apply holds_app in H as [HL HW]. destruct (holds_pos _ _ _ HL) as [_ Hle]. rewrite mlen_cons in Hle, HW.
    apply holds_cons in HL as [E HL]. rewrite rd_Ok in E by lia. injection E as E. destruct HL as (_ & _ & Es).
    rewrite Z.add_assoc in HW. pose proof (IH (o + 1 + mlen l) Hm HF HW) as IHn. specialize (IHn ltac:(lia)).
    replace (o + (1 + mlen l + mlen (enc ls) + 1)) with (o + 1 + mlen l + (mlen (enc ls) + 1)) by lia. rewrite <-E in IHn at 1. rewrite <-Es at 1. rewrite <-E at 1.
    apply names_label; rewrite ?E; [lia|lia|lia|]. by rewrite E in IHn.
Qed.
Lemma dotted_from_app a t ls : t ≠ [] → dotted_from (a ++ t) ls = a ++ dotted_from t ls.
Proof.
  revert t. induction ls as [|l ls IH]; intros t Ht; [done|]. change (dotted_from (dot_add (a ++ t) l) ls = a ++ dotted_from (dot_add t l) ls).
  assert (E : dot_add (a ++ t) l = a ++ dot_add t l).
  { unfold dot_add. pose proof (mlen_nonneg a). destruct t as [|c t]; [done|]. pose proof (mlen_nonneg t). rewrite mlen_app, !mlen_cons.
    rewrite !(proj2 (Z.eqb_neq _ 0)) by lia. by rewrite <-!app_assoc. }
  rewrite E. apply IH. destruct t; [done|]. unfold dot_add. rewrite mlen_cons. pose proof (mlen_nonneg t). by rewrite (proj2 (Z.eqb_neq _ 0)) by lia.
Qed.
Lemma dotted_cons l ls : l ≠ [] → ls ≠ [] → Forall label_ok ls → dotted (l :: ls) = l ++ [46] ++ dotted ls.
Proof.
  intros Hl Hls HF. destruct ls as [|x ls]; [done|]. apply Forall_cons in HF as [[Hx _] _]. unfold dotted.
  change (dotted_from l (x :: ls) = l ++ [46] ++ dotted_from x ls). change (dotted_from l (x :: ls)) with (dotted_from (dot_add l x) ls).
  assert (E : dot_add l x = (l ++ [46]) ++ x). { unfold dot_add. destruct l; [done|]. rewrite mlen_cons. pose proof (mlen_nonneg l). by rewrite (proj2 (Z.eqb_neq _ 0)) by lia. }
  rewrite E, dotted_from_app; [by rewrite <-app_assoc|]. by intros ->.
Qed.
Lemma mlen_dotted ls : Forall label_ok ls → mlen (dotted ls) + (if bool_decide (ls = []) then 1 else 2) = mlen (wire ls).
Proof.
  induction 1 as [|l ls Hl HF IH]; [done|]. rewrite mlen_wire, mlen_enc_cons in *. rewrite bool_decide_eq_false_2 by done. destruct (decide (ls = [])) as [->|Hn].
  - change (dotted [l]) with l. change (mlen (enc [])) with 0. lia.
  - rewrite dotted_cons by (done || by apply label_ne). rewrite bool_decide_eq_false_2 in IH by done. rewrite !mlen_app. change (mlen [46]) with 1. lia.
Qed.
(** The text of the labels is the name without its trailing dot. *)
Lemma dotted_pieces name : Forall label_ok (pieces [] name) → name = dotted (pieces [] name) ∨ name = dotted (pieces [] name) ++ [46].
Proof.
  remember (length name) as k eqn:Hk. revert name Hk. induction k as [k IH] using lt_wf_ind. intros name -> HF. destruct (decide (name = [])) as [->|Hn]; [by left|].
  destruct (pieces_step name Hn) as (Hh & Hr & Ep & [En|[En Er]]); rewrite Ep in *.
  - apply Forall_cons in HF as [Hl HF]. specialize (IH _ Hr (rest name) eq_refl HF). set (h := slice name 0 (head_len name)) in *.
    destruct (decide (pieces [] (rest name) = [])) as [E0|E0].
    + rewrite E0 in *. change (dotted [h]) with h. destruct IH as [E|E]; rewrite E in En; [by right|]. exfalso.
      assert (Er : rest name = [46]) by done. by rewrite Er in E0.
    + rewrite dotted_cons by (done || by apply label_ne). destruct IH as [E|E]; [left|right]; (etransitivity; [exact En|]); rewrite <-?app_assoc; do 2 f_equal; exact E.
  - rewrite Er. left. exact En.
Qed.
Lemma dns_name_wire m n o ls : octets m n → Forall label_ok ls → mlen (wire ls) <= 255 → holds m o (wire ls) → o + mlen (wire ls) <= n →
  dns_name m n o = Ok (Some (o + mlen (wire ls), dotted ls)).
Proof.
  intros Hm HF Hl H Hn. destruct (holds_pos _ _ _ H) as [Ho _]. destruct (name_loop_spec m n 300 Hm o [] 0 (-1)) as (r & E & Hr); [done|by rewrite mlen_nil|lia|rewrite mlen_nil; lia|].
  pose proof (names_wire m n ls o Hm HF H Hn) as HN. unfold dns_name. rewrite E. pose proof (mlen_dotted ls HF). destruct r as [[f t]|].
  - destruct Hr as (j & ls' & f' & HN' & _ & -> & _ & ->). by destruct (names_det _ _ _ _ _ _ HN _ _ _ HN') as (-> & -> & ->).
  - destruct (Hr _ _ _ HN) as [|Hc]; [lia|]. fold (dotted ls) in Hc. destruct (bool_decide _) in *; lia.
Qed.
End DnsQname.
