(* ===== verification/DnsSafe.v ===== *)
(** * DnsSafe: reading a response

    The record loop of [dns_parse] stays inside the datagram, ends, and delivers records of
    the type asked for whose texts fit the arrays of [net_dns_rr]. *)

From S2P Require Import Prelude Endian NetLoop NetTxq DnsMsg DnsName DnsQname.

Module DnsSafe.
Import DnsMsg DnsName DnsQname.

(** [bstep] by rewriting: the kernel need not compare the continuations. *)
Lemma bind_Ok {A B} (a : A) (f : A → res B) : Ok a ≫= f = f a.
Proof. done. Qed.
Ltac bok := rewrite bind_Ok; cbv beta.

Section octets.
Context (m : mem) (n : Z) (Hm : octets m n).

Lemma get16_val p : 0 <= p → p + 2 <= n → get16 m p = Ok (get m p * 256 + get m (p + 1)) ∧ 0 <= get m p * 256 + get m (p + 1) < 65536.
Proof using Hm.
  intros Hp Hn. destruct Hm as [Hl Hb]. pose proof (Hb p ltac:(lia)). pose proof (Hb (p + 1) ltac:(lia)). unfold get16.
  rewrite (rd_Ok m p) by lia. bstep. rewrite (rd_Ok m (p + 1)) by lia. bstep. rewrite lor_octet, u16_small by lia. split; [done|lia].
Qed.
Lemma get32_total p : 0 <= p → p + 4 <= n → ∃ v, get32 m p = Ok v.
Proof using Hm.
  intros Hp Hn. destruct Hm as [Hl Hb]. unfold get32. rewrite (rd_Ok m p) by lia. bstep. rewrite (rd_Ok m (p + 1)) by lia. bstep.
  rewrite (rd_Ok m (p + 2)) by lia. bstep. rewrite (rd_Ok m (p + 3)) by lia. bstep. by eexists.
Qed.
Lemma dns_name_total p : 0 <= p → ∃ r, dns_name m n p = Ok r ∧ match r with Some (fin, t) => p < fin <= n ∧ mlen t <= 255 | None => True end.
Proof using Hm.
  intros Hp. destruct (name_loop_spec m n 300 Hm p [] 0 (-1)) as (r & E & Hr); [done|by rewrite mlen_nil|lia|rewrite mlen_nil; lia|].
  exists r. split; [exact E|]. destruct r as [[f t]|]; [|done]. destruct Hr as (j & ls & f' & Hn & _ & _ & Ht & ->). split; [|done].
  pose proof (names_nonneg _ _ _ _ _ _ Hn). cbn. lia.
Qed.
Lemma dns_cstr_total k p cap : k <= n → 0 <= p → 1 <= cap →
  ∃ r, dns_cstr m k p cap = Ok r ∧ match r with Some (so, bs) => p < so <= k ∧ mlen bs < cap | None => True end.
Proof using Hm.
  intros Hk Hp Hc. destruct Hm as [Hl Hb]. unfold dns_cstr. destruct (Z.leb_spec k p); [by eexists|]. pose proof (Hb p ltac:(lia)).
  rewrite rd_Ok by lia. bstep. destruct (Z.ltb_spec k (p + 1 + get m p)); [by eexists|].
  set (c := if get m p <? cap then get m p else cap - 1). assert (0 <= c <= get m p ∧ c < cap) by (unfold c; destruct (Z.ltb_spec (get m p) cap); lia).
  rewrite rdn_Ok by lia. bstep. assert (Ls : mlen (slice m (p + 1) c) = c) by (apply mlen_slice; lia). unfold put_out. rewrite Ls. change (mlen [0]) with 1.
  rewrite (proj2 (Z.ltb_ge cap _)) by lia. bstep. eexists. split; [done|]. cbv iota beta. rewrite Ls. lia.
Qed.

(** The data of a record of a type, as the arrays of [net_dns_rr] hold it. *)
Definition data_ok (type : Z) (v : rr_data) : Prop :=
  match v with
  | RA a => type = NET_DNS_A ∧ mlen a = 4
  | RAAAA a => type = NET_DNS_AAAA ∧ mlen a = 16
  | RSRV prio weight port target => type = NET_DNS_SRV ∧ mlen target < 256
  | RNAPTR order pref flags service regexp replace =>
      type = NET_DNS_NAPTR ∧ mlen flags < 16 ∧ mlen service < 64 ∧ mlen regexp < 256 ∧ mlen replace < 256
  end.
Definition rr_ok (type : Z) (r : net_dns_rr) : Prop := r_type r = type ∧ data_ok type (r_u r).

Lemma rr_read_total type p len : 0 <= p → 0 <= len → p + len <= n →
  ∃ v, rr_read m n type p len (p + len) = Ok v ∧ match v with Some v => data_ok type v | None => True end.
Proof using Hm.
  intros Hp Hlen Hn. pose proof Hm as [Hl _]. unfold rr_read.
  destruct (Z.eqb_spec type NET_DNS_A) as [->|_].
  { destruct (Z.eqb_spec len 4); [|by eexists]. cbn [negb]. rewrite rdn_Ok by lia. bok. eexists. split; [done|]. split; [done|]. apply mlen_slice; lia. }
  destruct (Z.eqb_spec type NET_DNS_AAAA) as [->|_].
  { destruct (Z.eqb_spec len 16); [|by eexists]. cbn [negb]. rewrite rdn_Ok by lia. bok. eexists. split; [done|]. split; [done|]. apply mlen_slice; lia. }
  destruct (Z.eqb_spec type NET_DNS_SRV) as [->|_].
  { destruct (Z.ltb_spec len 7); [by eexists|]. rewrite (proj1 (get16_val p ltac:(lia) ltac:(lia))). bok. rewrite (proj1 (get16_val (p + 2) ltac:(lia) ltac:(lia))). bok.
    rewrite (proj1 (get16_val (p + 4) ltac:(lia) ltac:(lia))). bok. destruct (dns_name_total (p + 6) ltac:(lia)) as (r & -> & Hr). bok.
    eexists. split; [done|]. destruct r as [[f t]|]; [|done]. split; [done|lia]. }
  destruct (Z.eqb_spec type NET_DNS_NAPTR) as [->|_]; [|by eexists].
  destruct (Z.ltb_spec len 7); [by eexists|]. rewrite (proj1 (get16_val p ltac:(lia) ltac:(lia))). bok. rewrite (proj1 (get16_val (p + 2) ltac:(lia) ltac:(lia))). bok.
  destruct (dns_cstr_total (p + len) (p + 4) 16) as (r & -> & Hr); [lia|lia|lia|]. bok. destruct r as [[s1 flags]|]; [|by eexists].
  destruct (dns_cstr_total (p + len) s1 64) as (r & -> & Hr1); [lia|lia|lia|]. bok. destruct r as [[s2 service]|]; [|by eexists].
  destruct (dns_cstr_total (p + len) s2 256) as (r & -> & Hr2); [lia|lia|lia|]. bok. destruct r as [[s3 regexp]|]; [|by eexists].
  destruct (dns_name_total s3 ltac:(lia)) as (r & -> & Hr3). bok. eexists. split; [done|]. destruct r as [[f t]|]; [|done]. split_and!; done || lia.
Qed.
Lemma rr_loop_total qtype i : ∀ off rr, 0 <= off → Forall (rr_ok qtype) rr → Z.of_nat (length rr) <= NET_DNS_MAX →
  ∃ rr', rr_loop i m n off qtype rr = Ok rr' ∧ Forall (rr_ok qtype) rr' ∧ Z.of_nat (length rr') <= NET_DNS_MAX.
Proof using Hm.
  induction i as [|i IH]; intros off rr Ho HF Hn; cbn [rr_loop]; [by eexists|]. destruct (dns_name_total off Ho) as (r & -> & Hr). bok.
  destruct r as [[o t]|]; [|by eexists]. destruct Hr as [Hr _]. destruct (Z.ltb_spec n (o + 10)); [by eexists|].
  destruct (get16_val o ltac:(lia) ltac:(lia)) as [-> _]. bok. destruct (get32_total (o + 4) ltac:(lia) ltac:(lia)) as [ttl ->]. bok.
  destruct (get16_val (o + 8) ltac:(lia) ltac:(lia)) as [-> Hrl]. bok. cbv zeta. set (type := get m o * 256 + get m (o + 1)). set (rdlen := get m (o + 8) * 256 + get m (o + 8 + 1)) in *.
  destruct (Z.ltb_spec n (o + 10 + rdlen)); [by eexists|]. destruct (Z.eqb_spec type qtype) as [Et|]; cbn [negb orb]; [|apply IH; lia || done].
  destruct (Z.eqb_spec (Z.of_nat (length rr)) NET_DNS_MAX); [apply IH; lia || done|]. rewrite Et.
  destruct (rr_read_total qtype (o + 10) rdlen) as (v & -> & Hv); [lia|lia|lia|]. bok. destruct v as [v|]; apply IH; try done; try lia.
  - apply Forall_app. split; [done|]. by constructor.
  - rewrite length_app. cbn [length]. lia.
Qed.
End octets.
End DnsSafe.
