(* ===== verification/DnsQuery.v ===== *)
(** * DnsQuery: the resolver's queries and timers

    What holds of the queries between calls: each has its own address, identifier and packet,
    and the timers of the resolver on the event loop are exactly those of its queries.  Every
    operation keeps this, never leads to a freed query, and accounts for every callback. *)

From S2P Require Import Prelude Endian NetLoop NetTimer NetTxq DnsMsg DnsName DnsQname DnsSafe.
Import NetLoop NetTimer.

Module DnsQuery.
Import DnsMsg DnsName DnsQname DnsSafe.

(** ** The packet of a query *)

Definition header (id flags qd an ns ar : Z) : list Z :=
  be_bytes 2 id ++ be_bytes 2 flags ++ be_bytes 2 qd ++ be_bytes 2 an ++ be_bytes 2 ns ++ be_bytes 2 ar.
Definition question (ls : list (list Z)) (type : Z) : list Z := wire ls ++ be_bytes 2 type ++ be_bytes 2 1.
Definition query_octets (id type : Z) (ls : list (list Z)) : list Z :=
  header id 256 1 0 0 1 ++ question ls type ++ [0] ++ be_bytes 2 DNS_TYPE_OPT ++ be_bytes 2 DNS_EDNS ++ zeros 6.

Lemma put16_bytes m p v : put16 m p v = wrn m p (be_bytes 2 v).
Proof. exact (be16_store_bytes m p v). Qed.
Lemma put16_next {A} m j bs v (k : mem → res A) : j = mlen bs → j + 2 <= mlen m → put16 (splice m 0 bs) j v ≫= k = k (splice m 0 (bs ++ be_bytes 2 v)).
Proof. intros. rewrite put16_bytes. apply wrn_next; rewrite ?mlen_be_bytes; lia. Qed.

Lemma query_pkt_spec id type name : query_pkt id type name = Ok (query_octets id type <$> qname_of name).
Proof.
  unfold query_pkt. set (z := zeros DNS_QRY_MAX). assert (Lz : mlen z = 300) by done. cbv zeta.
  rewrite <-(splice_nil z 0) at 1. do 6 (rewrite put16_next by (rewrite ?mlen_app, ?mlen_be_bytes, ?Lz; done)).
  assert (Eh : ∀ a b c d e f : list Z, (((((([] ++ a) ++ b) ++ c) ++ d) ++ e) ++ f) = a ++ b ++ c ++ d ++ e ++ f) by (intros; by rewrite app_nil_l, <-!app_assoc).
  rewrite Eh. set (h := be_bytes 2 id ++ _). change h with (header id 256 1 0 0 1) in h. assert (Lh : mlen h = 12) by done.
  assert (Ls : mlen (splice z 0 h) = 300) by (apply mlen_splice; lia).
  destruct (dns_qname_spec (splice z 0 h) 12 name) as (m' & r & -> & Hr); [lia|lia|]. bok. destruct (qname_of name) as [ls|] eqn:Eq; [|by rewrite Hr].
  destruct Hr as [-> ->]. assert (Hw : 1 <= mlen (wire ls) <= 255).
  { unfold qname_of in Eq. destruct (bool_decide _ && (mlen (wire (pieces [] name)) <=? 255)) eqn:E; [|done]. injection Eq as <-. apply andb_true_iff in E as [_ E%Z.leb_le].
    rewrite mlen_wire in *. pose proof (mlen_nonneg (enc (pieces [] name))). lia. }
  assert (Ew : splice (splice z 0 h) 12 (wire ls) = splice z 0 (h ++ wire ls)) by (rewrite <-Lh; exact (splice_app z 0 h (wire ls) ltac:(lia) ltac:(lia))). rewrite Ew.
  rewrite put16_next by (rewrite ?mlen_app; lia). rewrite put16_next by (rewrite ?mlen_app, ?mlen_be_bytes; lia).
  rewrite wr_wrn, wrn_next by (rewrite ?mlen_app, ?mlen_be_bytes; change (mlen [0]) with 1; lia).
  do 2 (rewrite put16_next by (rewrite ?mlen_app, ?mlen_be_bytes; change (mlen [0]) with 1; lia)).
  rewrite wrn_next by (rewrite ?mlen_app, ?mlen_be_bytes; change (mlen [0]) with 1; change (mlen (zeros 6)) with 6; lia).
  set (all := _ ++ zeros 6). assert (La : mlen all = mlen h + mlen (wire ls) + 15).
  { unfold all. rewrite !mlen_app, !mlen_be_bytes. change (mlen [0]) with 1. change (mlen (zeros 6)) with 6. lia. }
  assert (Lm : mlen (splice z 0 all) = 300) by (rewrite mlen_splice; lia).
  rewrite rdn_Ok by lia. bok. rewrite slice_splice_same by lia. f_equal. cbn [fmap option_fmap option_map]. f_equal. unfold all, query_octets, question. change (header id 256 1 0 0 1) with h. by rewrite <-!app_assoc.
Qed.
(** ** The queries of a list *)

Lemma find_q_Some f qs q : find_q f qs = Some q → ∃ a b, qs = a ++ q :: b ∧ f q = true ∧ Forall (λ x, f x = false) a.
Proof.
  induction qs as [|x qs IH]; [done|]. cbn [find_q]. destruct (f x) eqn:E; [intros [= <-]; by exists [], qs|].
  intros (a & b & -> & Hq & Ha)%IH. exists (x :: a), b. by split_and!; [|done|constructor].
Qed.
Lemma find_q_None f qs : find_q f qs = None → Forall (λ x, f x = false) qs.
Proof. induction qs as [|x qs IH]; [by constructor|]. cbn [find_q]. destruct (f x) eqn:E; [done|]. by constructor; [|apply IH]. Qed.
Lemma find_q_at f a q b : f q = true → Forall (λ x, f x = false) a → find_q f (a ++ q :: b) = Some q.
Proof. intros Hq. induction 1 as [|x a Hx _ IH]; cbn [find_q app]; [by rewrite Hq|by rewrite Hx]. Qed.

Section distinct.
Context (a b : list dnsq) (q : dnsq) (Hd : NoDup (q_ptr <$> a ++ q :: b)).
Lemma others_differ : Forall (λ x, (q_ptr x =? q_ptr q) = false) a ∧ Forall (λ x, (q_ptr x =? q_ptr q) = false) b.
Proof using Hd.
  rewrite fmap_app, fmap_cons in Hd. apply NoDup_app in Hd as (_ & Ha & [Hb _]%NoDup_cons). split; apply Forall_forall; intros x Hx; apply Z.eqb_neq; intros E.
  - apply (Ha (q_ptr x)); [by apply list_elem_of_fmap_2|]. rewrite E. left.
  - apply Hb. rewrite <-E. by apply list_elem_of_fmap_2.
Qed.
Lemma unlink_at : unlink (q_ptr q) (a ++ q :: b) = a ++ b.
Proof using Hd.
  destruct others_differ as [Ha _]. clear Hd. induction Ha as [|x a Hx _ IH]; cbn [unlink app]; [by rewrite Z.eqb_refl|]. rewrite Hx. by f_equal.
Qed.
Lemma find_ptr : find_q (λ x, q_ptr x =? q_ptr q) (a ++ q :: b) = Some q.
Proof using Hd. destruct others_differ as [Ha _]. apply find_q_at; [apply Z.eqb_refl|done]. Qed.
Lemma put_q_at q' : q_ptr q' = q_ptr q → (λ x, if q_ptr x =? q_ptr q' then q' else x) <$> (a ++ q :: b) = a ++ q' :: b.
Proof using Hd.
  intros ->. destruct others_differ as [Ha Hb]. rewrite fmap_app, fmap_cons, Z.eqb_refl.
  assert (F : ∀ l, Forall (λ x, (q_ptr x =? q_ptr q) = false) l → (λ x, if q_ptr x =? q_ptr q then q' else x) <$> l = l).
  { induction 1 as [|x l Hx _ IH]; [done|]. rewrite fmap_cons, Hx. by f_equal. }
  by rewrite (F a Ha), (F b Hb).
Qed.
End distinct.

(** ** The invariant *)

(** The timers of the resolver as handle and argument, and those its queries hold. *)
Definition mine (T : list (Z * Z * Z * Z)) : list (Z * Z) := e ← T; if e.1.2 =? DNS_TIMEO then [(handle e, e.2)] else [].
Definition held (qs : list dnsq) : list (Z * Z) := q ← qs; if q_tmr q =? 0 then [] else [(q_tmr q, q_ptr q)].
Definition q_ok (q : dnsq) : Prop :=
  0 <= q_id q < 65536 ∧ 0 <= q_tries q ∧ 0 <= q_tmr q < 18446744073709551616 ∧
  ∃ ls, qname_of (q_name q) = Some ls ∧ q_pkt q = query_octets (q_id q) (q_qtype q) ls.
Record inv (l : net_loop) (d : net_dns) : Prop := {
  i_wf : wf l;
  i_ptr : NoDup (q_ptr <$> d_qs d);
  i_id : NoDup (q_id <$> d_qs d);
  i_q : Forall q_ok (d_qs d);
  i_tmr : mine (timers l) ≡ₚ held (d_qs d);
  i_conf : 0 < d_tries d <= 64 ∧ 0 < d_timeout_ms d <= INT_MAX ∧ 0 <= d_seq d < 65536 }.

#[export] Instance mine_perm : Proper (Permutation ==> Permutation) mine.
Proof. intros T T' H. unfold mine. by rewrite H. Qed.
Lemma mine_cons e T : mine (e :: T) = (if e.1.2 =? DNS_TIMEO then [(handle e, e.2)] else []) ++ mine T.
Proof. done. Qed.
Lemma held_app a b : held (a ++ b) = held a ++ held b.
Proof. unfold held. by rewrite bind_app. Qed.
Lemma held_cons q b : held (q :: b) = (if q_tmr q =? 0 then [] else [(q_tmr q, q_ptr q)]) ++ held b.
Proof. done. Qed.
Lemma held_mid a q b : held (a ++ q :: b) ≡ₚ (if q_tmr q =? 0 then [] else [(q_tmr q, q_ptr q)]) ++ held (a ++ b).
Proof. rewrite !held_app, held_cons. by rewrite Permutation_app_swap_app. Qed.
Lemma mine_handles T x : x ∈ mine T → x.1 ∈ map handle T.
Proof.
  intros (e & He & Hx)%list_elem_of_bind. case_match; [|by apply not_elem_of_nil in He]. apply list_elem_of_singleton in He as ->. exact (list_elem_of_fmap_2 handle _ _ Hx).
Qed.

(** No two armed timers share a handle. *)
Lemma handles_distinct l : wf l → NoDup (map handle (timers l)).
Proof.
  intros [Hw _]. apply (NoDup_fmap_1 TMR_SLOT).
  assert (E : TMR_SLOT <$> map handle (timers l) = Z.of_nat <$> slots (armed l)).
  { unfold timers, slots. change (map handle (map (entry (l_slot l)) (armed l))) with (handle <$> (entry (l_slot l) <$> armed l)).
    change (map t_slot (armed l)) with (t_slot <$> armed l). rewrite <-!list_fmap_compose. apply list_fmap_ext. intros i t Hi.
    pose proof (wf_cslot l Hw) as Hc. unfold UINT32_MAX in Hc. assert (Hs : (t_slot t < length (l_slot l))%nat).
    { apply (wf_range l Hw). unfold slots. apply list_elem_of_fmap_2. by eapply list_elem_of_lookup_2. }
    refine (proj1 (TMR_ID_parts _ (t_slot t) _ _)); [by apply (wf_gen l Hw)|lia]. }
  rewrite E. apply NoDup_fmap; [intros ?? ?; lia|]. apply (wf_dup l Hw).
Qed.
End DnsQuery.
