(* ===== verification/DnsResolver.v ===== *)
(** * DnsResolver: every query is answered once

    The operations of the resolver as steps on the event loop and the queries.  What was
    accepted and not yet called back is exactly what is outstanding, whatever datagrams
    arrive and however the clock and the allocator behave; and when the timers can be armed,
    letting them fire settles every query. *)

From S2P Require Import Prelude Endian NetLoop NetTimer NetTxq DnsMsg DnsName DnsQname DnsSafe DnsQuery.
Import NetLoop NetTimer.

Module DnsResolver.
Import DnsMsg DnsName DnsQname DnsSafe DnsQuery.
#[local] Existing Instance NetTimer.tmr_inhabited.

(** ** Steps *)

(** The earliest timer of the loop fires, as [run_due] does it; the callbacks of others do
    not concern the resolver. *)
Definition fire (gh gs : bool) (now : Z) (l : net_loop) (d : net_dns) : res (net_loop * net_dns * list out) :=
  if bool_decide (l_ntmr l = 0%nat) then Ok (l, d, []) else
  due ← aget (l_tmr l) 0;
  l ← tmr_remove l 0;
  if t_cb due =? DNS_TIMEO then dns_timeo gh gs now l d (t_ud due) else Ok (l, d, []).

Inductive op :=
  | OQuery (alloc : option Z) (gh gs : bool) (now : Z) (name : option (list Z)) (type cb ud : Z)
  | OReadable (grams : list (list Z))
  | OFire (gh gs : bool) (now : Z)
  | OConf (timeout_ms tries : Z)
  | OArm (gh gs : bool) (now ms cb ud : Z).
(** The last component is what the call took on. *)
Definition exec (o : op) (l : net_loop) (d : net_dns) : res (net_loop * net_dns * list out * list (Z * Z)) :=
  match o with
  | OQuery alloc gh gs now name type cb ud =>
      '(l, d, os, rc) ← net_dns_query alloc gh gs now l d name type cb ud; Ok (l, d, os, if rc =? NET_OK then [(cb, ud)] else [])
  | OReadable grams => '(l, d, os) ← dns_readable grams l d; Ok (l, d, os, [])
  | OFire gh gs now => '(l, d, os) ← fire gh gs now l d; Ok (l, d, os, [])
  | OConf timeout_ms tries => Ok (l, net_dns_conf d timeout_ms tries, [], [])
  | OArm gh gs now ms cb ud => '(l, _) ← net_loop_after gh gs now l ms cb ud; Ok (l, d, [], [])
  end.
(** What the callers owe: the allocator returns no block in use, an identifier is left, a
    retry count under which the timeout can be shifted, and timers of others name their own
    callback. *)
Definition op_ok (d : net_dns) (o : op) : Prop :=
  match o with
  | OQuery alloc _ _ _ _ _ _ _ => (∀ p, alloc = Some p → p ∉ q_ptr <$> d_qs d) ∧ Z.of_nat (length (d_qs d)) < 65536
  | OReadable grams => Forall bytes_ok grams
  | OFire _ _ _ => True
  | OConf timeout_ms tries => timeout_ms <= INT_MAX ∧ tries <= 64
  | OArm _ _ _ _ cb _ => cb ≠ DNS_TIMEO
  end.

(** ** Accounts *)

Definition asker (q : dnsq) : Z * Z := (q_cb q, q_ud q).
Definition outstanding (d : net_dns) : list (Z * Z) := asker <$> d_qs d.
Definition called (os : list out) : list (Z * Z) := o ← os; match o with Called cb ud _ _ => [(cb, ud)] | Sent _ _ => [] end.
(** What a call reports: a status and records of one type, none unless the status is 0. *)
Definition out_ok (o : out) : Prop :=
  match o with
  | Sent _ pkt => ∃ id type ls, pkt = query_octets id type ls
  | Called _ _ status rr => (status = NET_TIMEOUT ∧ rr = []) ∨ 0 <= status < 16 ∧ (status ≠ 0 → rr = []) ∧
      ∃ type, Forall (rr_ok type) rr ∧ Z.of_nat (length rr) <= NET_DNS_MAX
  end.

Lemma called_app a b : called (a ++ b) = called a ++ called b.
Proof. unfold called. by rewrite bind_app. Qed.
Lemma outstanding_mid d a q b : d_qs d = a ++ q :: b → outstanding d ≡ₚ asker q :: (asker <$> (a ++ b)).
Proof. intros E. unfold outstanding. rewrite E, !fmap_app, fmap_cons. by rewrite Permutation_middle. Qed.

(** ** Detaching *)

Lemma inv_qs l d a q b : inv l d → d_qs d = a ++ q :: b →
  NoDup (q_ptr <$> a ++ q :: b) ∧ NoDup (q_ptr <$> a ++ b) ∧ NoDup (q_id <$> a ++ b) ∧ q_ok q ∧ Forall q_ok (a ++ b).
Proof.
  intros [Hw Hp Hi Hq Ht Hc] E. rewrite E in *. assert (S : ∀ f : dnsq → Z, f <$> (a ++ b) `sublist_of` f <$> (a ++ q :: b)).
  { intros f. rewrite !fmap_app, fmap_cons. apply sublist_app; [done|]. by constructor. }
  split_and!; [done|exact (sublist_NoDup _ _ Hp (S q_ptr))|exact (sublist_NoDup _ _ Hi (S q_id))| |]; rewrite Forall_app, Forall_cons in Hq; [apply Hq|apply Forall_app; split; apply Hq].
Qed.
Lemma taken l d a q b e T : inv l d → d_qs d = a ++ q :: b → q_tmr q ≠ 0 → timers l ≡ₚ e :: T → handle e = q_tmr q → mine T ≡ₚ held (a ++ b).
Proof.
  intros Hinv E Hq HT He. destruct Hinv as [Hw _ _ _ Ht _]. rewrite E, held_mid, HT, mine_cons in Ht. rewrite (proj2 (Z.eqb_neq _ 0)) in Ht by done.
  assert (Hin : (q_tmr q, q_ptr q) ∈ (if e.1.2 =? DNS_TIMEO then [(handle e, e.2)] else []) ++ mine T) by (rewrite Ht; left).
  pose proof (handles_distinct l Hw) as Hd. change (map handle (timers l)) with (handle <$> timers l) in Hd. rewrite HT, fmap_cons in Hd. apply NoDup_cons in Hd as [Hd _].
  apply elem_of_app in Hin as [Hin|Hin].
  - destruct (e.1.2 =? DNS_TIMEO); [|by apply not_elem_of_nil in Hin]. apply list_elem_of_singleton in Hin as [= E1 E2]. rewrite E1, E2 in Ht. by apply Permutation_cons_inv in Ht.
  - exfalso. apply Hd. rewrite He. exact (mine_handles _ _ Hin).
Qed.
Lemma detach_spec l d a q b : inv l d → d_qs d = a ++ q :: b → ∃ l', dns_detach l d q = Ok (l', set_qs (a ++ b) d) ∧ inv l' (set_qs (a ++ b) d).
Proof.
  intros Hinv E. destruct (inv_qs l d a q b Hinv E) as (Hp & Hp' & Hi' & (_ & _ & Hh & _) & Hq'). pose proof Hinv as [Hw _ _ _ Ht Hc].
  unfold dns_detach. rewrite E, (unlink_at a b q Hp). destruct (Z.eqb_spec (q_tmr q) 0) as [E0|E0]; cbn [negb].
  - exists l. split; [done|]. rewrite E, held_mid, E0 in Ht. by constructor.
  - pose proof (net_loop_cancel_spec l (q_tmr q) Hw Hh) as HC. rewrite bool_decide_eq_true_2 in HC.
    + destruct HC as (l' & e & -> & Hw' & He & HT). bstep. exists l'. split; [done|]. pose proof (taken l d a q b e _ Hinv E E0 HT He). by constructor.
    + assert (Hin : (q_tmr q, q_ptr q) ∈ mine (timers l)). { rewrite Ht, E, held_mid, (proj2 (Z.eqb_neq _ 0)) by done. left. }
      exact (mine_handles _ _ Hin).
Qed.

(** ** Timers *)

Lemma armed_at l : wf l → l_ntmr l ≠ 0%nat → ∃ l1, aget (l_tmr l) 0 = Ok (l_tmr l !!! 0%nat) ∧ tmr_remove l 0 = Ok l1 ∧ wf l1 ∧ S (l_ntmr l1) = l_ntmr l ∧
  timers l ≡ₚ entry (l_slot l) (l_tmr l !!! 0%nat) :: timers l1.
Proof.
  intros Hw Hn. pose proof (wf_n l (proj1 Hw)). destruct (tmr_remove_spec l 0 Hw ltac:(lia)) as (l1 & E1 & Hw1 & Hn1 & HT).
  exists l1. split_and!; [apply aget_Ok; lia|done|done|done|done].
Qed.
Lemma inv_tmr l d l' : inv l d → wf l' → mine (timers l') ≡ₚ held (d_qs d) → inv l' d.
Proof. intros [Hw Hp Hi Hq Ht Hc] Hw' Ht'. by constructor. Qed.
(** A query whose timer fired or was armed again. *)
Lemma inv_timer l d a q b tries tmr l' : inv l d → d_qs d = a ++ q :: b → 0 <= tries → 0 <= tmr < 18446744073709551616 → wf l' →
  mine (timers l') ≡ₚ (if tmr =? 0 then [] else [(tmr, q_ptr q)]) ++ held (a ++ b) → inv l' (put_q (set_timer tries tmr q) d).
Proof.
  intros Hinv E Htr Htm Hw' Ht'. destruct (inv_qs l d a q b Hinv E) as (Hp & _ & _ & (Hid & _ & _ & Hls) & Hq'). pose proof Hinv as [_ _ Hi _ _ Hc].
  assert (Eq : d_qs (put_q (set_timer tries tmr q) d) = a ++ set_timer tries tmr q :: b) by (unfold put_q; cbn [d_qs set_qs]; rewrite E; by apply put_q_at).
  rewrite E in Hi. constructor; rewrite ?Eq; try done.
  - rewrite !fmap_app, !fmap_cons in *. done.
  - rewrite !fmap_app, !fmap_cons in *. done.
  - apply Forall_app in Hq' as [Ha Hb]. apply Forall_app. split; [done|]. constructor; [|done]. split; [exact Hid|]. split; [exact Htr|]. split; [exact Htm|exact Hls].
  - rewrite held_mid. exact Ht'.
Qed.

(** What a step of ours does to the queries and says. *)
Definition step_ok (l' : net_loop) (d d' : net_dns) (os : list out) : Prop :=
  inv l' d' ∧ outstanding d ≡ₚ called os ++ outstanding d' ∧ Forall out_ok os.
Lemma step_same l d l' : inv l d → wf l' → mine (timers l') ≡ₚ mine (timers l) → step_ok l' d d [].
Proof. intros Hinv Hw Ht. split_and!; [|done|constructor]. apply (inv_tmr l); [done|done|]. rewrite Ht. apply Hinv. Qed.

Lemma timeo_spec gh gs now l l1 d a q b : inv l d → d_qs d = a ++ q :: b → wf l1 → mine (timers l1) ≡ₚ held (a ++ b) →
  ∃ l' d' os, dns_timeo gh gs now l1 d (q_ptr q) = Ok (l', d', os) ∧ step_ok l' d d' os ∧
    d_tries d' = d_tries d ∧
    (d_qs d' = a ++ b ∧ timers l' = timers l1 ∧ d_tries d <= q_tries q + 1 ∧ os = [Called (q_cb q) (q_ud q) NET_TIMEOUT []] ∨
     ∃ id, d_qs d' = a ++ set_timer (q_tries q + 1) id q :: b ∧ q_tries q + 1 < d_tries d ∧ os = dns_send d q ∧ length (timers l') = (length (timers l1) + if (id =? 0)%Z then 0 else 1)%nat ∧
       (id = 0 → gh = false ∨ gs = false ∨ UINT32_MAX <= 2 * Z.of_nat (length (timers l1)))).
Proof.
  intros Hinv E Hw1 Ht1. destruct (inv_qs l d a q b Hinv E) as (Hp & Hp' & Hi' & Hqo & Hq'). pose proof Hqo as (_ & Htr & _ & ls & _ & Epkt). pose proof Hinv as [_ _ _ _ _ Hc].
  unfold dns_timeo, at_ptr. rewrite E, (find_ptr a b q Hp). bok. destruct (Z.ltb_spec (q_tries q + 1) (d_tries d)) as [Hlt|Hge].
  - rewrite (proj2 (Z.leb_gt 64 _)) by lia. cbv zeta. change (q_ptr (set_timer (q_tries q + 1) 0 q)) with (q_ptr q).
    destruct (net_loop_after_spec gh gs now l1 (u64 (Z.shiftl (d_timeout_ms d) (q_tries q + 1))) DNS_TIMEO (q_ptr q) Hw1) as (l' & id & -> & Hw' & HT). bok.
    change (set_timer (q_tries q + 1) id (set_timer (q_tries q + 1) 0 q)) with (set_timer (q_tries q + 1) id q).
    eexists l', _, _. split; [reflexivity|].
    assert (Eq : d_qs (put_q (set_timer (q_tries q + 1) id q) d) = a ++ set_timer (q_tries q + 1) id q :: b) by (unfold put_q; cbn [d_qs set_qs]; rewrite E; by apply put_q_at).
    assert (HI : 0 <= id < 18446744073709551616 ∧ mine (timers l') ≡ₚ (if id =? 0 then [] else [(id, q_ptr q)]) ++ held (a ++ b) ∧
      length (timers l') = (length (timers l1) + if (id =? 0)%Z then 0 else 1)%nat ∧ (id = 0 → gh = false ∨ gs = false ∨ UINT32_MAX <= 2 * Z.of_nat (length (timers l1)))).
    { destruct HT as [(-> & HT & Hr)|(_ & Hid & _ & HT)].
      - rewrite HT. split; [lia|]. split; [exact Ht1|]. split; [symmetry; apply Nat.add_0_r|]. intros _. destruct Hr as [?|Hr]; done.
      - rewrite (proj2 (Z.eqb_neq id 0)) by lia. split; [lia|]. split; [|split; [|lia]].
        + rewrite HT, mine_cons. cbn [fst snd handle]. change (DNS_TIMEO =? DNS_TIMEO) with true. cbv iota. by rewrite Ht1.
        + rewrite HT. cbn. lia. }
    destruct HI as (Hid & HM & HL & Hz). split; [split_and!|split; [done|right; exists id; by split_and!]].
    + apply (inv_timer l d a q b); try done. lia.
    + change (called (dns_send d _)) with (@nil (Z * Z)). unfold outstanding. rewrite Eq, E, !fmap_app, !fmap_cons. done.
    + constructor; [|constructor]. exists (q_id q), (q_qtype q), ls. exact Epkt.
  - unfold dns_detach. cbn [q_ptr q_tmr set_timer]. change (0 =? 0) with true. cbn [negb]. rewrite E, (unlink_at a b q Hp). bok. eexists l1, _, _. split; [reflexivity|].
    split; [split_and!|split; [done|by left]].
    + constructor; cbn [d_qs set_qs]; done.
    + by rewrite (outstanding_mid d a q b E).
    + constructor; [by left|constructor].
Qed.
Lemma fire_spec gh gs now l d : inv l d → ∃ l' d' os, fire gh gs now l d = Ok (l', d', os) ∧ step_ok l' d d' os.
Proof.
  intros Hinv. pose proof Hinv as [Hw _ _ _ Ht _]. unfold fire. case_bool_decide as En. { exists l, d, []. split; [done|]. by apply (step_same l). }
  destruct (armed_at l Hw En) as (l1 & -> & -> & Hw1 & _ & HT). bok. bok. destruct (Z.eqb_spec (t_cb (l_tmr l !!! 0%nat)) DNS_TIMEO) as [Ec|Ec].
  - assert (Hin : (handle (entry (l_slot l) (l_tmr l !!! 0%nat)), t_ud (l_tmr l !!! 0%nat)) ∈ held (d_qs d)).
    { rewrite <-Ht, HT, mine_cons. cbn [fst snd entry]. rewrite (proj2 (Z.eqb_eq _ _) Ec). left. }
    apply list_elem_of_bind in Hin as (q & Hx & Hq). destruct (Z.eqb_spec (q_tmr q) 0) as [|E0]; [by apply not_elem_of_nil in Hx|].
    apply list_elem_of_singleton in Hx as [= Eh Eu]. apply list_elem_of_split in Hq as (a & b & E).
    pose proof (taken l d a q b _ _ Hinv E E0 HT Eh) as HM. rewrite Eu. destruct (timeo_spec gh gs now l l1 d a q b Hinv E Hw1 HM) as (l' & d' & os & Eq & Hs & _ & _). by exists l', d', os.
  - exists l1, d, []. split; [done|]. apply (step_same l); [done|done|]. rewrite HT, mine_cons. cbn [fst snd entry]. by rewrite (proj2 (Z.eqb_neq _ _) Ec).
Qed.

(** ** Queries *)

Lemma next_id_spec fuel : ∀ d, 0 <= d_seq d < 65536 →
  (∃ id, next_id fuel d = Ok id ∧ 0 <= id < 65536 ∧ dns_find d id = None) ∨
  ∀ k, 1 <= k <= Z.of_nat fuel → u16 (d_seq d + k) ∈ q_id <$> d_qs d.
Proof.
  induction fuel as [|fuel IH]; intros d Hs; cbn [next_id]; [right; lia|]. cbv zeta. pose proof (u16_range (d_seq d + 1)) as Hr.
  destruct (dns_find d (u16 (d_seq d + 1))) as [q|] eqn:E; [|left; by eexists].
  destruct (IH (set_seq (u16 (d_seq d + 1)) d) Hr) as [(id & -> & Hid & Hf)|Hall]; [left; by exists id|]. right. intros k Hk.
  destruct (decide (k = 1)) as [->|Hk1].
  - apply find_q_Some in E as (a & b & -> & Eq%Z.eqb_eq & _). rewrite <-Eq. apply list_elem_of_fmap_2, elem_of_app. right. left.
  - specialize (Hall (k - 1) ltac:(lia)). cbn [d_seq d_qs set_seq] in Hall. unfold u16 in *. rewrite Zplus_mod_idemp_l in Hall. by replace (d_seq d + 1 + (k - 1)) with (d_seq d + k) in Hall by lia.
Qed.
(** While not every identifier is taken, one is found. *)
Lemma next_id_found d : 0 <= d_seq d < 65536 → Z.of_nat (length (d_qs d)) < 65536 →
  ∃ id, next_id (Z.to_nat 65536) d = Ok id ∧ 0 <= id < 65536 ∧ id ∉ q_id <$> d_qs d.
Proof.
  intros Hs Hn. destruct (next_id_spec (Z.to_nat 65536) d Hs) as [(id & E & Hid & Hf)|Hall].
  - exists id. split_and!; [done|lia|lia|]. intros (q & -> & Hq)%list_elem_of_fmap. apply find_q_None in Hf. rewrite Forall_forall in Hf.
    specialize (Hf q Hq). by rewrite Z.eqb_refl in Hf.
  - exfalso. set (ids := Z.of_nat <$> seq 0 (Z.to_nat 65536)). assert (HS : ids ⊆+ q_id <$> d_qs d).
    { apply NoDup_submseteq. { apply NoDup_fmap; [intros ?? ?; lia|apply NoDup_ListNoDup, seq_NoDup]. }
      intros x (n & -> & Hx)%list_elem_of_fmap. apply elem_of_seq in Hx. set (k := (Z.of_nat n - d_seq d - 1) mod 65536 + 1).
      assert (Hk : 1 <= k <= 65536) by (unfold k; pose proof (Z.mod_pos_bound (Z.of_nat n - d_seq d - 1) 65536 ltac:(lia)); lia).
      specialize (Hall k ltac:(lia)). replace (u16 (d_seq d + k)) with (Z.of_nat n) in Hall; [done|]. unfold u16, k.
      rewrite <-(Z.mod_small (Z.of_nat n) 65536) at 1 by lia. rewrite Z.add_comm, <-Z.add_assoc, Zplus_mod_idemp_l. f_equal. lia. }
    apply submseteq_length in HS. unfold ids in HS. rewrite !length_fmap, length_seq in HS. lia.
Qed.
Lemma query_spec alloc gh gs now l d name type cb ud : inv l d → op_ok d (OQuery alloc gh gs now name type cb ud) →
  ∃ l' d' os rc, net_dns_query alloc gh gs now l d name type cb ud = Ok (l', d', os, rc) ∧ inv l' d' ∧ Forall out_ok os ∧ called os = [] ∧
    outstanding d' = (if rc =? NET_OK then [(cb, ud)] else []) ++ outstanding d.
Proof.
  intros Hinv [Hfresh Hn]. pose proof Hinv as [Hw Hp Hi Hq Ht (Hc1 & Hc2 & Hs)]. unfold net_dns_query.
  assert (Hsame : ∀ d', d_qs d' = d_qs d → d_tries d' = d_tries d → d_timeout_ms d' = d_timeout_ms d → 0 <= d_seq d' < 65536 →
    ∃ l1 d1 os rc, Ok (l, d', @nil out, NET_ERR) = Ok (l1, d1, os, rc) ∧ inv l1 d1 ∧ Forall out_ok os ∧ called os = [] ∧
      outstanding d1 = (if rc =? NET_OK then [(cb, ud)] else []) ++ outstanding d).
  { intros d' E1 E2 E3 E4. do 4 eexists. split; [reflexivity|]. split; [|split_and!; [constructor|done|unfold outstanding; by rewrite E1]]. constructor; rewrite ?E1, ?E2, ?E3; done. }
  destruct name as [name|]; [|by apply Hsame]. destruct ((cb =? 0) || (255 <? mlen name)); [by apply Hsame|]. destruct alloc as [ptr|]; [|by apply Hsame].
  destruct (next_id_found d Hs Hn) as (id & -> & Hid & Hnew). bok. cbv zeta. rewrite query_pkt_spec. bok.
  destruct (qname_of name) as [ls|] eqn:El; cbn [fmap option_fmap option_map]; [|by apply Hsame]. set (q := Dnsq ptr id type 0 0 cb ud (query_octets id type ls) name).
  destruct (net_loop_after_spec gh gs now l (u64 (d_timeout_ms d)) DNS_TIMEO ptr Hw) as (l' & tmr & E & Hw' & HT).
  change (d_timeout_ms (set_qs (q :: d_qs (set_seq id d)) (set_seq id d))) with (d_timeout_ms d). rewrite E. bok.
  set (d1 := set_qs (q :: d_qs (set_seq id d)) (set_seq id d)).
  assert (Hinv1 : inv l d1).
  { constructor; cbn [d1 d_qs set_qs set_seq d_tries d_timeout_ms d_seq]; rewrite ?fmap_cons.
    - done.
    - constructor; [by apply Hfresh|done].
    - by constructor.
    - constructor; [|done]. unfold q_ok. cbn. split_and!; try lia. by exists ls.
    - rewrite held_cons. exact Ht.
    - split_and!; lia. }
  do 4 eexists. split; [reflexivity|]. split.
  { apply (inv_timer l d1 [] q (d_qs d) 0 tmr l' Hinv1); [done|lia| |done|].
    - destruct HT as [(-> & _)|(_ & ? & _)]; lia.
    - cbn [app]. destruct HT as [(-> & -> & _)|(_ & Hr & _ & HT)]; [exact Ht|]. rewrite (proj2 (Z.eqb_neq tmr 0)) by lia. rewrite HT, mine_cons. cbn [fst snd handle app].
      change (DNS_TIMEO =? DNS_TIMEO) with true. cbv iota. cbn [app]. by rewrite Ht. }
  split; [constructor; [by exists id, type, ls|constructor]|]. split; [done|].
  unfold outstanding, put_q. cbn [d1 d_qs set_qs set_seq]. change (q :: d_qs d) with ([] ++ q :: d_qs d). rewrite (put_q_at [] (d_qs d) q); [done| |done].
  cbn [app]. rewrite fmap_cons. constructor; [by apply Hfresh|done].
Qed.

(** ** Responses *)

Lemma land_range a k : 0 <= k → 0 <= Z.land a (2 ^ k - 1) < 2 ^ k.
Proof. intros Hk. change (2 ^ k - 1) with (Z.pred (2 ^ k)). rewrite <-Z.ones_equiv, Z.land_ones by done. apply Z.mod_pos_bound. lia. Qed.
Lemma step_none l d : inv l d → step_ok l d d [].
Proof. intros Hinv. apply (step_same l); [done|apply Hinv|done]. Qed.
Lemma dns_parse_ok l d m n : inv l d → octets m n → ∃ l' d' os, dns_parse l d m n = Ok (l', d', os) ∧ step_ok l' d d' os.
Proof.
  intros Hinv Hm. assert (Hsame : ∃ l' d' os, Ok (l, d, []) = Ok (l', d', os) ∧ step_ok l' d d' os) by (do 3 eexists; split; [reflexivity|by apply step_none]).
  unfold dns_parse. destruct (Z.ltb_spec n 12) as [|Hn]; [done|]. destruct (get16_val m n Hm 2) as [-> _]; [lia|lia|]. bok. cbv zeta.
  set (flags := get m 2 * 256 + get m (2 + 1)). destruct (Z.land flags 32768 =? 0); [done|]. destruct (get16_val m n Hm 0) as [-> _]; [lia|lia|]. bok.
  destruct (dns_find d _) as [q|] eqn:Ef; [|done]. destruct (get16_val m n Hm 4) as [-> _]; [lia|lia|]. bok. destruct (negb _); [done|].
  destruct (dns_name_total m n Hm 12) as (r & -> & Hr); [lia|]. bok. destruct r as [[o qname]|]; [|done]. destruct Hr as [Ho _].
  destruct (Z.ltb_spec n (o + 4)) as [|Hno]; [done|]. destruct (negb _); [done|]. destruct (get16_val m n Hm o) as [-> _]; [lia|lia|]. bok. destruct (negb _); [done|].
  apply find_q_Some in Ef as (a & b & E & _ & _). destruct (detach_spec l d a q b Hinv E) as (l' & -> & Hinv'). bok. destruct (get16_val m n Hm 6) as [-> _]; [lia|lia|]. bok.
  set (an := get m 6 * 256 + get m (6 + 1)). destruct (rr_loop_total m n Hm (q_qtype q) (if Z.land flags 15 =? 0 then Z.to_nat an else 0%nat) (o + 4) []) as (rr & Er & HF & Hl);
    [lia|constructor|done|]. rewrite Er. bok. do 3 eexists. split; [reflexivity|]. split; [exact Hinv'|]. split; [by rewrite (outstanding_mid d a q b E)|].
  constructor; [|constructor]. right. split; [exact (land_range flags 4 ltac:(done))|]. split; [|by exists (q_qtype q)].
  intros Hc%Z.eqb_neq. rewrite Hc in Er. cbn [rr_loop] in Er. by injection Er.
Qed.
Lemma octets_splice buf g : mlen g <= mlen buf → bytes_ok g → octets (splice buf 0 g) (mlen g).
Proof.
  intros Hl Hg. split; [rewrite mlen_splice; lia|]. intros i Hi. rewrite splice_0, get_app_l by done. by apply get_range.
Qed.
Lemma readable_spec grams : ∀ buf l d, inv l d → Forall bytes_ok grams → mlen buf = DNS_RSP_MAX →
  ∃ l' d' os, readable_loop grams buf l d = Ok (l', d', os) ∧ step_ok l' d d' os.
Proof.
  induction grams as [|g grams IH]; intros buf l d Hinv HF Hb; cbn [readable_loop]. { do 3 eexists. split; [reflexivity|]. by apply step_none. }
  apply Forall_cons in HF as [Hg HF]. cbv zeta. set (g' := take (Z.to_nat DNS_RSP_MAX) g). assert (Lg : 0 <= mlen g' <= DNS_RSP_MAX).
  { unfold g', mlen. rewrite length_take. unfold DNS_RSP_MAX. lia. }
  assert (Hg' : bytes_ok g') by (by apply Forall_take). rewrite wrn_Ok by lia. bok. pose proof (octets_splice buf g' ltac:(lia) Hg') as Ho.
  destruct (dns_parse_ok l d (splice buf 0 g') (mlen g') Hinv Ho) as (l1 & d1 & o & -> & Hi1 & Ha1 & Hf1). bok.
  destruct (IH (splice buf 0 g') l1 d1 Hi1 HF) as (l2 & d2 & os & -> & Hi2 & Ha2 & Hf2); [rewrite mlen_splice; lia|]. bok.
  do 3 eexists. split; [reflexivity|]. split; [done|]. split; [|by apply Forall_app]. by rewrite called_app, Ha1, Ha2, app_assoc.
Qed.

(** ** Runs *)

Lemma conf_spec l d timeout_ms tries : inv l d → timeout_ms <= INT_MAX → tries <= 64 → inv l (net_dns_conf d timeout_ms tries).
Proof.
  intros [Hw Hp Hi Hq Ht (Hc1 & Hc2 & Hc3)] H1 H2. unfold net_dns_conf. cbv zeta.
  destruct (Z.ltb_spec 0 timeout_ms), (Z.ltb_spec 0 tries); constructor; cbn [d_qs d_tries d_timeout_ms d_seq]; try done; split_and!; lia.
Qed.
Lemma exec_spec o l d : inv l d → op_ok d o →
  ∃ l' d' os acc, exec o l d = Ok (l', d', os, acc) ∧ inv l' d' ∧ Forall out_ok os ∧ acc ++ outstanding d ≡ₚ called os ++ outstanding d'.
Proof.
  intros Hinv Ho. destruct o as [alloc gh gs now name type cb ud|grams|gh gs now|timeout_ms tries|gh gs now ms cb ud]; cbn [exec].
  - destruct (query_spec alloc gh gs now l d name type cb ud Hinv Ho) as (l' & d' & os & rc & -> & Hi & Hf & Hc & Ha). bok.
    do 4 eexists. split; [reflexivity|]. split; [done|]. split; [done|]. by rewrite Hc, Ha.
  - destruct (readable_spec grams (uninit DNS_RSP_MAX) l d Hinv Ho eq_refl) as (l' & d' & os & E & Hi & Ha & Hf). unfold dns_readable. rewrite E. bok. by do 4 eexists.
  - destruct (fire_spec gh gs now l d Hinv) as (l' & d' & os & -> & Hi & Ha & Hf). bok. by do 4 eexists.
  - destruct Ho. do 4 eexists. split; [reflexivity|]. split; [by apply conf_spec|]. split; [constructor|]. unfold net_dns_conf, outstanding. cbv zeta. by destruct (0 <? timeout_ms), (0 <? tries).
  - pose proof Hinv as [Hw _ _ _ Ht _]. destruct (net_loop_after_spec gh gs now l ms cb ud Hw) as (l' & id & -> & Hw' & HT). bok.
    do 4 eexists. split; [reflexivity|]. split; [|split; [constructor|done]]. apply (inv_tmr l); [done|done|]. destruct HT as [(_ & -> & _)|(_ & _ & _ & HT)]; [done|].
    rewrite HT, mine_cons. cbn [fst snd]. cbn [op_ok] in Ho. by rewrite (proj2 (Z.eqb_neq _ _) Ho).
Qed.

(** The states a resolver gets to, with the callbacks taken on and everything said so far. *)
Inductive reach : net_loop → net_dns → list (Z * Z) → list out → Prop :=
  | reach_new l d : wf l → mine (timers l) = [] → d_qs d = [] → d_timeout_ms d = 500 → d_tries d = 3 → 0 <= d_seq d < 65536 → reach l d [] []
  | reach_step l d acc os o l' d' os' acc' : reach l d acc os → op_ok d o → exec o l d = Ok (l', d', os', acc') → reach l' d' (acc ++ acc') (os ++ os').
Lemma reach_inv l d acc os : reach l d acc os → inv l d ∧ Forall out_ok os ∧ acc ≡ₚ called os ++ outstanding d.
Proof.
  induction 1 as [l d Hw Hm Hq Ht Htr Hs|l d acc os o l' d' os' acc' _ (Hinv & Hf & Ha) Ho E].
  - split; [|split; [constructor|unfold outstanding; by rewrite Hq]]. constructor; rewrite ?Hq, ?Htr, ?Ht; try apply NoDup_nil_2; try apply Forall_nil_2; try done; try (by rewrite Hm); unfold INT_MAX; lia.
  - destruct (exec_spec o l d Hinv Ho) as (l1 & d1 & os1 & acc1 & E1 & Hi & Hf1 & Ha1). rewrite E in E1. injection E1 as <- <- <- <-. split; [done|]. split; [by apply Forall_app|].
    rewrite called_app, <-app_assoc, <-Ha1, Ha, <-!app_assoc. f_equiv. apply Permutation_app_comm.
Qed.

(** C15: the resolver answers every query once.  In every state it gets to, whatever
    datagrams arrived, however often timers fired and whether or not memory could be had,
    the next operation runs: it stays inside the datagram and its buffers and leads to no
    query that was freed.  The queries that are outstanding have distinct addresses and
    identifiers, the timers of the resolver on the loop are exactly the ones its queries
    hold, and the callbacks taken on are those made and those outstanding, each once; what
    is sent is a query in full, and what a callback is given is a timeout, an error without
    records, or at most 32 records of one type. *)
Theorem dns_resolver_accounts l d acc os : reach l d acc os →
  inv l d ∧ Forall out_ok os ∧ acc ≡ₚ called os ++ outstanding d ∧
  ∀ o, op_ok d o → ∃ r, exec o l d = Ok r.
Proof.
  intros H. destruct (reach_inv l d acc os H) as (Hinv & Hf & Ha). split_and!; [done|done|done|].
  intros o Ho. destruct (exec_spec o l d Hinv Ho) as (l' & d' & os' & acc' & E & _). by eexists.
Qed.
Definition ex_loop : net_loop := NetLoop false [] [] 0 [] None [] 0 false.
Definition ex_dns : net_dns := NetDns 5 (NetTxq.V4 53 [9; 9; 9; 9]) [] 500 3 7.
Definition ex_ask : op := OQuery (Some 4096) true true 100 (Some [97; 46; 98]) NET_DNS_A 9 11.
Definition ex_asked : net_loop * net_dns * list out * list (Z * Z) :=
  match exec ex_ask ex_loop ex_dns with Ok r => r | _ => (ex_loop, ex_dns, [], []) end.
Lemma dns_resolver_accounts_witness :
  inv ex_asked.1.1.1 ex_asked.1.1.2 ∧ Forall out_ok ex_asked.1.2 ∧ ex_asked.2 ≡ₚ called ex_asked.1.2 ++ outstanding ex_asked.1.1.2 ∧
  ∀ o, op_ok ex_asked.1.1.2 o → ∃ r, exec o ex_asked.1.1.1 ex_asked.1.1.2 = Ok r.
Proof.
  apply (dns_resolver_accounts ex_asked.1.1.1 ex_asked.1.1.2 ex_asked.2 ex_asked.1.2).
  apply (reach_step ex_loop ex_dns [] [] ex_ask ex_asked.1.1.1 ex_asked.1.1.2 ex_asked.1.2 ex_asked.2).
  - apply reach_new; [by apply (wf_new true true)|reflexivity|reflexivity|reflexivity|reflexivity|split; done].
  - split; [intros p _; apply not_elem_of_nil|reflexivity].
  - vm_compute. reflexivity.
Defined.

(** ** Settling *)

(** How often the timer of a query may still fire, and the timers of others. *)
Definition owed (d : net_dns) (q : dnsq) : Z := if q_tmr q =? 0 then 0 else Z.max 1 (d_tries d - q_tries q).
Fixpoint sum (l : list Z) : Z := match l with [] => 0 | x :: l => x + sum l end.
Definition total (d : net_dns) : Z := sum (owed d <$> d_qs d).
Definition others (l : net_loop) : Z := Z.of_nat (length (timers l)) - Z.of_nat (length (mine (timers l))).
(** The queries without a timer: there was no memory for one. *)
Definition stuck (qs : list dnsq) : list dnsq := filter (λ q, q_tmr q = 0) qs.
Definition timed_out (o : out) : Prop := match o with Called _ _ status _ => status = NET_TIMEOUT | Sent _ _ => True end.
(** The two allocations of a timer succeed. *)
Definition has_memory (t : bool * bool * Z) : Prop := t.1.1 = true ∧ t.1.2 = true.

Lemma sum_app a b : sum (a ++ b) = sum a + sum b.
Proof. induction a as [|x a IH]; cbn [sum app]; lia. Qed.
Lemma sum_held d qs : Z.of_nat (length (held qs)) <= sum (owed d <$> qs).
Proof.
  induction qs as [|q qs IH]; [done|]. rewrite held_cons, length_app, fmap_cons. cbn [sum]. unfold owed at 1. destruct (q_tmr q =? 0); cbn [length]; lia.
Qed.
Lemma held_none qs : length (held qs) = 0%nat → Forall (λ q, q_tmr q = 0) qs.
Proof.
  induction qs as [|q qs IH]; [constructor|]. rewrite held_cons, length_app. destruct (Z.eqb_spec (q_tmr q) 0); cbn [length]; [|lia]. intros H. constructor; [done|]. by apply IH.
Qed.
Lemma total_none d : Forall (λ q, q_tmr q = 0) (d_qs d) → total d = 0.
Proof. unfold total. induction 1 as [|q qs Hq _ IH]; [done|]. rewrite fmap_cons. cbn [sum]. unfold owed at 1. rewrite Hq. cbn. lia. Qed.
Lemma stuck_all qs : Forall (λ q, q_tmr q = 0) qs → stuck qs = qs.
Proof. induction 1 as [|q qs Hq _ IH]; [done|]. unfold stuck in *. by rewrite filter_cons_True, IH. Qed.
Lemma stuck_mid a q b : q_tmr q ≠ 0 → stuck (a ++ q :: b) = stuck (a ++ b).
Proof. intros Hq. unfold stuck. by rewrite !filter_app, filter_cons_False. Qed.
Lemma others_nonneg l : 0 <= others l.
Proof.
  unfold others. generalize (timers l). induction l0 as [|e T IH]; [done|]. rewrite mine_cons, length_app. cbn [length]. destruct (e.1.2 =? DNS_TIMEO); cbn [length]; lia.
Qed.
Lemma total_eq d d' : d_tries d' = d_tries d → total d' = sum (owed d <$> d_qs d').
Proof. intros E. unfold total. f_equal. apply list_fmap_ext. intros i q _. unfold owed. by rewrite E. Qed.

(** One expiry: what is still to come shrinks, and with memory no query loses its timer
    without an answer. *)
Lemma fire_live gh gs now l d : inv l d →
  ∃ l' d' os, fire gh gs now l d = Ok (l', d', os) ∧ step_ok l' d d' os ∧ (length (timers l') <= length (timers l))%nat ∧ Forall timed_out os ∧
    (total d' + others l' < total d + others l ∨ total d' + others l' = 0) ∧
    (gh = true → gs = true → 2 * Z.of_nat (length (timers l)) < UINT32_MAX →
     Z.of_nat (length os) = total d - total d' ∧ stuck (d_qs d') = stuck (d_qs d)).
Proof.
  intros Hinv. pose proof Hinv as [Hw _ _ _ Ht _]. unfold fire. case_bool_decide as En.
  { exists l, d, []. split; [done|]. split; [by apply step_none|]. split; [done|]. split; [constructor|]. split; [right|intros; cbn; split; [lia|done]].
    pose proof (length_timers l (proj1 Hw)) as Hl. rewrite En in Hl. apply nil_length_inv in Hl. unfold others. rewrite Hl in Ht |- *. apply Permutation_length in Ht.
    rewrite (total_none d) by (by apply held_none). done. }
  destruct (armed_at l Hw En) as (l1 & -> & -> & Hw1 & Hn1 & HT). bok. bok. set (e := entry (l_slot l) (l_tmr l !!! 0%nat)) in *.
  pose proof (Permutation_length HT) as HL. cbn [length] in HL. pose proof (Permutation_length (mine_perm _ _ HT)) as HM. rewrite mine_cons, length_app in HM.
  destruct (Z.eqb_spec (t_cb (l_tmr l !!! 0%nat)) DNS_TIMEO) as [Ec|Ec].
  2: { assert (Ee : (e.1.2 =? DNS_TIMEO) = false) by (by apply Z.eqb_neq). rewrite Ee in HM. cbn [length] in HM.
    exists l1, d, []. split; [done|]. split. { apply (step_same l); [done|done|]. rewrite HT, mine_cons. by rewrite Ee. }
    unfold others. split; [lia|]. split; [constructor|]. split; [left; lia|]. intros _ _ _. cbn. split; [lia|done]. }
  assert (Ee : (e.1.2 =? DNS_TIMEO) = true) by (by apply Z.eqb_eq). rewrite Ee in HM. cbn [length] in HM.
  assert (Hin : (handle e, t_ud (l_tmr l !!! 0%nat)) ∈ held (d_qs d)) by (rewrite <-Ht, HT, mine_cons, Ee; left).
  apply list_elem_of_bind in Hin as (q & Hx & Hq). destruct (Z.eqb_spec (q_tmr q) 0) as [|E0]; [by apply not_elem_of_nil in Hx|].
  apply list_elem_of_singleton in Hx as [= Eh Eu]. apply list_elem_of_split in Hq as (a & b & E).
  pose proof (taken l d a q b _ _ Hinv E E0 HT Eh) as HM1. rewrite Eu.
  destruct (timeo_spec gh gs now l l1 d a q b Hinv E Hw1 HM1) as (l' & d' & os & -> & Hs & Htr & Hcase). exists l', d', os. split; [done|]. split; [done|].
  pose proof Hs as ([_ _ _ _ Ht' _] & _ & _).
  assert (Etot : total d = sum (owed d <$> a) + (owed d q + sum (owed d <$> b))) by (unfold total; by rewrite E, fmap_app, fmap_cons, sum_app).
  assert (Eo : owed d q = Z.max 1 (d_tries d - q_tries q)) by (unfold owed; by rewrite (proj2 (Z.eqb_neq _ 0))).
  apply Permutation_length in Ht'. apply Permutation_length in HM1. rewrite (total_eq d d' Htr), E, (stuck_mid a q b E0).
  destruct Hcase as [(E' & Et' & Hge & ->)|(id & E' & Hlt & -> & Hl' & Hz)].
  - rewrite E', Et' in *. unfold others. rewrite !fmap_app, sum_app, Et', HL, HM. cbn [length].
    split; [lia|]. split; [by repeat constructor|]. split; [left; lia|]. intros _ _ _. split; [lia|done].
  - set (q' := set_timer (q_tries q + 1) id q) in *. rewrite E' in *. rewrite held_mid, length_app in Ht'. change (q_tmr q') with id in *. rewrite fmap_app, fmap_cons, sum_app. cbn [sum].
    assert (Eo' : owed d q' = if id =? 0 then 0 else owed d q - 1) by (unfold owed at 1; change (q_tmr q') with id; destruct (id =? 0); [done|]; rewrite Eo; cbn [q' q_tries set_timer]; lia).
    assert (Hm : (length (mine (timers l')) = length (mine (timers l1)) + if (id =? 0)%Z then 0 else 1)%nat) by (rewrite Ht', HM1; destruct (id =? 0); cbn [length]; lia).
    unfold others. split; [destruct (id =? 0); lia|]. split; [by repeat constructor|]. split; [left; destruct (id =? 0); lia|].
    intros -> -> Hb. assert (Hid : id ≠ 0) by (intros Ez; destruct (Hz Ez) as [?|[?|?]]; [done|done|lia]). rewrite (stuck_mid a q' b Hid). rewrite (proj2 (Z.eqb_neq id 0) Hid) in Eo'.
    cbn [length dns_send]. split; [lia|done].
Qed.
(** The loop lets its first timer fire once per entry: the answers of the allocator and the
    clock. *)
Fixpoint fires (ts : list (bool * bool * Z)) (l : net_loop) (d : net_dns) : res (net_loop * net_dns * list out) :=
  match ts with
  | [] => Ok (l, d, [])
  | (gh, gs, now) :: ts => '(l, d, o) ← fire gh gs now l d; '(l, d, os) ← fires ts l d; Ok (l, d, o ++ os)
  end.

(** C16: no query that holds a timer waits for ever.  From any reachable state, whatever the
    allocator answers and without any response, letting the timers of the loop fire as often
    as there are other timers and attempts left leaves no timer of the resolver: every query
    was called back once with [NET_TIMEOUT] or is one without a timer.  With memory for
    the timers (and handles left for them, fewer than 2^31 timers) the queries that are left are
    exactly those that held no timer to begin with, and what was sent in between is
    exactly the retransmissions the configured number of tries leaves. *)
Theorem dns_queries_settle ts l d : inv l d → total d + others l <= Z.of_nat (length ts) →
  ∃ l' d' os, fires ts l d = Ok (l', d', os) ∧ inv l' d' ∧ Forall (λ q, q_tmr q = 0) (d_qs d') ∧
    called os ++ outstanding d' ≡ₚ outstanding d ∧ Forall timed_out os ∧
    (Forall has_memory ts → 2 * Z.of_nat (length (timers l)) < UINT32_MAX →
     d_qs d' = stuck (d_qs d) ∧ Z.of_nat (length os) = total d).
Proof.
  revert l d. induction ts as [|[[gh gs] now] ts IH]; intros l d Hinv Hn; cbn [fires].
  - pose proof (others_nonneg l). pose proof (sum_held d (d_qs d)). change (sum (owed d <$> d_qs d)) with (total d) in *. cbn [length] in Hn.
    assert (E : Forall (λ q, q_tmr q = 0) (d_qs d)) by (apply held_none; lia). do 3 eexists. split; [reflexivity|]. split; [done|]. split; [done|].
    split; [done|]. split; [constructor|]. intros _ _. by rewrite stuck_all, total_none.
  - destruct (fire_live gh gs now l d Hinv) as (l1 & d1 & o & -> & (Hi1 & Ha1 & _) & Hl1 & Hto & Hdec & Hmem). bok. cbn [length] in Hn.
    destruct (IH l1 d1 Hi1) as (l' & d' & os & -> & Hi' & Hq' & Hc' & Hto' & Hmem'); [destruct Hdec; lia|].
    bok. do 3 eexists. split; [reflexivity|]. split; [done|]. split; [done|]. rewrite called_app, <-app_assoc, Hc', Ha1. split; [done|]. split; [by apply Forall_app|].
    intros [[Hgh Hgs] Hts]%Forall_cons Hb. destruct (Hmem Hgh Hgs Hb) as [Hlen Hst]. destruct Hmem' as [Hq1 Hlen1]; [done|lia|]. rewrite length_app, Hq1, Hst. split; [done|lia].
Qed.
Lemma ex_asked_inv : inv ex_asked.1.1.1 ex_asked.1.1.2.
Proof.
  destruct (exec_spec ex_ask ex_loop ex_dns) as (l' & d' & os & acc & E & Hi & _).
  - apply (reach_inv ex_loop ex_dns [] []). apply reach_new; [by apply (wf_new true true)|reflexivity|reflexivity|reflexivity|reflexivity|split; done].
  - split; [intros p _; apply not_elem_of_nil|reflexivity].
  - unfold ex_asked. by rewrite E.
Qed.
(** The query is sent twice more and then called back; without memory for the second timer
    it stays, without one. *)
Lemma dns_queries_settle_witness :
  (∃ l' d' os, fires [(true, true, 600); (true, true, 1600); (true, true, 3600)] ex_asked.1.1.1 ex_asked.1.1.2 = Ok (l', d', os) ∧ d_qs d' = [] ∧
    called os ≡ₚ outstanding ex_asked.1.1.2 ∧ Forall timed_out os ∧ Z.of_nat (length os) = 3) ∧
  (∃ l' d' os, fires [(false, true, 600); (true, true, 1600); (true, true, 3600)] ex_asked.1.1.1 ex_asked.1.1.2 = Ok (l', d', os) ∧ Forall (λ q, q_tmr q = 0) (d_qs d') ∧
    called os ++ outstanding d' ≡ₚ outstanding ex_asked.1.1.2).
Proof.
  split.
  - destruct (dns_queries_settle [(true, true, 600); (true, true, 1600); (true, true, 3600)] ex_asked.1.1.1 ex_asked.1.1.2 ex_asked_inv) as (l' & d' & os & E & _ & _ & Hc & Hto & Hm); [vm_compute; done|].
    destruct Hm as [Hq Hl]; [by repeat constructor|vm_compute; done|]. assert (Eq : d_qs d' = []) by (rewrite Hq; vm_compute; done). exists l', d', os. split; [exact E|]. split; [exact Eq|].
    unfold outstanding in Hc at 1. rewrite Eq, app_nil_r in Hc. split; [exact Hc|]. split; [exact Hto|]. rewrite Hl. vm_compute. done.
  - destruct (dns_queries_settle [(false, true, 600); (true, true, 1600); (true, true, 3600)] ex_asked.1.1.1 ex_asked.1.1.2 ex_asked_inv) as (l' & d' & os & E & _ & Hq & Hc & _); [vm_compute; done|].
    exists l', d', os. split; [exact E|]. split; [exact Hq|exact Hc].
Defined.
End DnsResolver.
