(* ===== verification/DnsReply.v ===== *)
(** * DnsReply: responses answered

    The octets of a response a server sends to a query, and what [dns_parse] makes of them:
    the records of the type asked for, in order, with their names expanded.  A query for a
    name with a trailing dot is never answered. *)

From S2P Require Import Prelude Endian NetLoop NetTimer NetTxq DnsMsg DnsName DnsQname DnsSafe DnsQuery DnsResolver.
Import NetLoop NetTimer.

Module DnsReply.
Import DnsMsg DnsName DnsQname DnsSafe DnsQuery DnsResolver.

(** ** Records as a server writes them *)

Inductive sdata :=
  | SA (a : list Z)
  | SAAAA (aaaa : list Z)
  | SSRV (prio weight port : Z) (target : list (list Z))
  | SNAPTR (order pref : Z) (flags service regexp : list Z) (replace : list (list Z))
  | SOther (type : Z) (bs : list Z).
(** The owner is a name in full, or a pointer to the one of the question. *)
Record srr := Srr { s_owner : option (list (list Z)); s_ttl : Z; s_data : sdata }.

Definition cs (s : list Z) : list Z := mlen s :: s.
Definition s_type (v : sdata) : Z :=
  match v with SA _ => NET_DNS_A | SAAAA _ => NET_DNS_AAAA | SSRV _ _ _ _ => NET_DNS_SRV | SNAPTR _ _ _ _ _ _ => NET_DNS_NAPTR | SOther t _ => t end.
Definition rdata (v : sdata) : list Z :=
  match v with
  | SA a | SAAAA a => a
  | SSRV prio weight port target => be_bytes 2 prio ++ be_bytes 2 weight ++ be_bytes 2 port ++ wire target
  | SNAPTR order pref flags service regexp replace =>
      be_bytes 2 order ++ be_bytes 2 pref ++ cs flags ++ cs service ++ cs regexp ++ wire replace
  | SOther _ bs => bs
  end.
Definition owner_bytes (o : option (list (list Z))) : list Z := match o with Some ls => wire ls | None => [192; 12] end.
Definition rr_head (r : srr) : list Z := be_bytes 2 (s_type (s_data r)) ++ be_bytes 2 1 ++ be_bytes 4 (s_ttl r) ++ be_bytes 2 (mlen (rdata (s_data r))).
Definition rr_bytes (r : srr) : list Z := owner_bytes (s_owner r) ++ rr_head r ++ rdata (s_data r).
Definition rrs_bytes (rs : list srr) : list Z := r ← rs; rr_bytes r.
Definition response (id flags : Z) (ls : list (list Z)) (type : Z) (rs : list srr) (tail : list Z) : list Z :=
  header id flags 1 (Z.of_nat (length rs)) 0 0 ++ question ls type ++ rrs_bytes rs ++ tail.

Definition name_ok (ls : list (list Z)) : Prop := Forall label_ok ls ∧ mlen (wire ls) <= 255.
Definition w16 (v : Z) : Prop := 0 <= v < 65536.
Definition srr_ok (r : srr) : Prop :=
  match s_owner r with Some ls => name_ok ls | None => True end ∧ 0 <= s_ttl r < 4294967296 ∧ mlen (rdata (s_data r)) < 65536 ∧
  match s_data r with
  | SA a => mlen a = 4
  | SAAAA a => mlen a = 16
  | SSRV prio weight port target => w16 prio ∧ w16 weight ∧ w16 port ∧ name_ok target
  | SNAPTR order pref flags service regexp replace =>
      w16 order ∧ w16 pref ∧ mlen flags <= 15 ∧ mlen service <= 63 ∧ mlen regexp <= 255 ∧ name_ok replace
  | SOther type _ => w16 type ∧ type ∉ [NET_DNS_A; NET_DNS_AAAA; NET_DNS_SRV; NET_DNS_NAPTR]
  end.
(** The record as the callback gets it, if it is one of the type asked for. *)
Definition value_of (v : sdata) : option rr_data :=
  match v with
  | SA a => Some (RA a)
  | SAAAA a => Some (RAAAA a)
  | SSRV prio weight port target => Some (RSRV prio weight port (dotted target))
  | SNAPTR order pref flags service regexp replace => Some (RNAPTR order pref flags service regexp (dotted replace))
  | SOther _ _ => None
  end.
Definition delivered_rr (qtype : Z) (r : srr) : option net_dns_rr :=
  if s_type (s_data r) =? qtype then match value_of (s_data r) with Some v => Some (Rr qtype (s_ttl r) v) | None => None end else None.
Definition delivered (qtype : Z) (rs : list srr) : list net_dns_rr := take (Z.to_nat NET_DNS_MAX) (omap (delivered_rr qtype) rs).

(** ** Reading them *)

Section reading.
Context (m : mem) (n : Z) (Hm : octets m n).

Lemma get16_holds p v : holds m p (be_bytes 2 v) → w16 v → p + 2 <= n → get16 m p = Ok v.
Proof using Hm.
  intros H Hv Hn. destruct (holds_pos _ _ _ H) as [Hp _]. destruct (get16_val m n Hm p Hp Hn) as [-> _]. f_equal. unfold w16 in Hv.
  apply holds_cons in H as [E0 H]. apply holds_cons in H as [E1 _]. destruct Hm as [Hl _]. rewrite rd_Ok in E0, E1 by lia. injection E0 as ->. injection E1 as ->.
  change (Z.of_nat 1) with 1. change (Z.of_nat 0) with 0. change (256 ^ 1) with 256. change (256 ^ 0) with 1. rewrite Z.div_1_r. Z.to_euclidean_division_equations; lia.
Qed.
Lemma get32_holds p v : holds m p (be_bytes 4 v) → 0 <= v < 4294967296 → p + 4 <= n → get32 m p = Ok v.
Proof using Hm.
  intros H Hv Hn. destruct (holds_pos _ _ _ H) as [Hp _]. unfold get32.
  apply holds_cons in H as [E0 H]. apply holds_cons in H as [E1 H]. apply holds_cons in H as [E2 H]. apply holds_cons in H as [E3 _].
  replace (p + 1 + 1) with (p + 2) in E2 by lia. replace (p + 1 + 1 + 1) with (p + 3) in E3 by lia. rewrite E0. bok. rewrite E1. bok. rewrite E2. bok. rewrite E3. bok. f_equal.
  rewrite (lor_octets _ _ 24 16), (lor_octets _ _ 16 8), lor_octet by (try lia; apply Z.mod_pos_bound; lia).
  change (256 ^ Z.of_nat 3) with 16777216. change (256 ^ Z.of_nat 2) with 65536. change (256 ^ Z.of_nat 1) with 256. change (256 ^ Z.of_nat 0) with 1. Z.to_euclidean_division_equations; lia.
Qed.
Lemma dns_name_names p j ls fin : names m n p j ls fin → j <= 40 → mlen (dotted ls) <= 255 → dns_name m n p = Ok (Some (fin, dotted ls)).
Proof using Hm.
  intros HN Hj Hl. destruct (names_nonneg _ _ _ _ _ _ HN) as (_ & _ & Hp). destruct (dns_name_exact m n p Hm Hp) as (r & -> & Hr).
  by rewrite (proj2 (Hr fin (dotted ls)) (ex_intro _ j (ex_intro _ ls (conj HN (conj Hj (conj eq_refl Hl)))))).
Qed.
Lemma dotted_short ls : name_ok ls → mlen (dotted ls) <= 255.
Proof using. intros [HF Hl]. pose proof (mlen_dotted ls HF). destruct (bool_decide _); lia. Qed.
Lemma dns_name_full p ls : holds m p (wire ls) → name_ok ls → p + mlen (wire ls) <= n → dns_name m n p = Ok (Some (p + mlen (wire ls), dotted ls)).
Proof using Hm. intros H Ho Hn. apply (dns_name_names p 0); [by apply names_wire; [| apply Ho | |]|lia|by apply dotted_short]. Qed.
Lemma dns_cstr_holds k p cap s : holds m p (cs s) → mlen s < cap → mlen s < 256 → p + mlen (cs s) <= k → k <= n → dns_cstr m k p cap = Ok (Some (p + mlen (cs s), s)).
Proof using Hm.
  intros H Hc Hs Hk Hn. destruct (holds_pos _ _ _ H) as [Hp Hle]. unfold cs in *. rewrite mlen_cons in *. pose proof (mlen_nonneg s). unfold dns_cstr.
  rewrite (proj2 (Z.leb_gt k p)) by lia. apply holds_cons in H as [-> H]. bok. rewrite (proj2 (Z.ltb_ge k _)) by lia. cbv zeta. rewrite (proj2 (Z.ltb_lt _ cap)) by done.
  rewrite (holds_rdn m (p + 1) s (mlen s) H eq_refl). bok. unfold put_out. change (mlen [0]) with 1. rewrite (proj2 (Z.ltb_ge cap _)) by lia. bok. do 3 f_equal. lia.
Qed.

Lemma mlen_be2 v : mlen (be_bytes 2 v) = 2.
Proof using. apply mlen_be_bytes. Qed.
Lemma mlen_cs s : mlen (cs s) = 1 + mlen s.
Proof using. apply mlen_cons. Qed.

Lemma rr_read_value v p : holds m p (rdata v) → srr_ok (Srr None 0 v) → p + mlen (rdata v) <= n → value_of v ≠ None →
  rr_read m n (s_type v) p (mlen (rdata v)) (p + mlen (rdata v)) = Ok (value_of v).
Proof using Hm.
  intros H (_ & _ & _ & Hv) Hn Hne. cbn [s_data] in Hv. unfold rr_read. destruct v as [a|a|prio weight port ls|order pref flags service regexp ls|type bs]; cbn [s_type rdata value_of] in *; [| | | |done].
  - change (NET_DNS_A =? NET_DNS_A) with true. cbv iota. rewrite Hv. change (negb (4 =? 4)) with false. cbv iota. rewrite (holds_rdn m p a 4 H) by done. done.
  - change (NET_DNS_AAAA =? NET_DNS_A) with false. change (NET_DNS_AAAA =? NET_DNS_AAAA) with true. cbv iota. rewrite Hv. change (negb (16 =? 16)) with false. cbv iota. rewrite (holds_rdn m p a 16 H) by done. done.
  - destruct Hv as (H1 & H2 & H3 & H4). change (NET_DNS_SRV =? NET_DNS_A) with false. change (NET_DNS_SRV =? NET_DNS_AAAA) with false. change (NET_DNS_SRV =? NET_DNS_SRV) with true. cbv iota.
    rewrite !mlen_app, !mlen_be2 in *. assert (1 <= mlen (wire ls)) by (rewrite mlen_wire; pose proof (mlen_nonneg (enc ls)); lia).
    rewrite (proj2 (Z.ltb_ge _ 7)) by lia. apply holds_app in H as [A1 H]. apply holds_app in H as [A2 H]. apply holds_app in H as [A3 H]. rewrite !mlen_be2 in *.
    rewrite <-!Z.add_assoc in *. rewrite (get16_holds p prio A1) by (done || lia). bok. rewrite (get16_holds (p + 2) weight A2) by (done || lia). bok.
    rewrite (get16_holds (p + 4) port A3) by (done || lia). bok. by rewrite (dns_name_full (p + 6) ls H) by (done || lia).
  - destruct Hv as (H1 & H2 & H3 & H4 & H5 & H6). change (NET_DNS_NAPTR =? NET_DNS_A) with false. change (NET_DNS_NAPTR =? NET_DNS_AAAA) with false. change (NET_DNS_NAPTR =? NET_DNS_SRV) with false.
    change (NET_DNS_NAPTR =? NET_DNS_NAPTR) with true. cbv iota. rewrite !mlen_app, !mlen_be2 in *. assert (1 <= mlen (wire ls)) by (rewrite mlen_wire; pose proof (mlen_nonneg (enc ls)); lia).
    pose proof (mlen_cs flags). pose proof (mlen_cs service). pose proof (mlen_cs regexp). pose proof (mlen_nonneg flags). pose proof (mlen_nonneg service). pose proof (mlen_nonneg regexp).
    rewrite (proj2 (Z.ltb_ge _ 7)) by lia.
    apply holds_app in H as [A1 H]. apply holds_app in H as [A2 H]. apply holds_app in H as [A3 H]. apply holds_app in H as [A4 H]. apply holds_app in H as [A5 H]. rewrite !mlen_be2 in *.
    replace (p + 2 + 2) with (p + 4) in * by lia. rewrite (get16_holds p order A1) by (done || lia). bok. rewrite (get16_holds (p + 2) pref A2) by (done || lia). bok.
    rewrite (dns_cstr_holds _ (p + 4) 16 flags A3) by lia. bok. cbv iota beta. rewrite (dns_cstr_holds _ _ 64 service A4) by lia. bok. cbv iota beta.
    rewrite (dns_cstr_holds _ _ 256 regexp A5) by lia. bok. cbv iota beta. by rewrite (dns_name_full _ ls H) by (done || lia).
Qed.

Context (qls : list (list Z)) (Hq : names m n 12 0 qls (12 + mlen (wire qls))) (Hqo : name_ok qls).
Lemma owner_read p o : holds m p (owner_bytes o) → match o with Some ls => name_ok ls | None => True end → p + mlen (owner_bytes o) < n →
  ∃ t, dns_name m n p = Ok (Some (p + mlen (owner_bytes o), t)).
Proof using Hm Hq Hqo.
  intros H Ho Hn. destruct o as [ls|]; cbn [owner_bytes] in *. { exists (dotted ls). apply dns_name_full; [done|done|lia]. }
  change (mlen [192; 12]) with 2 in *. exists (dotted qls). destruct (holds_pos _ _ _ H) as [Hp _]. destruct Hm as [Hl _].
  apply holds_cons in H as [E0 H]. apply holds_cons in H as [E1 _]. rewrite rd_Ok in E0, E1 by lia. injection E0 as E0. injection E1 as E1.
  apply (dns_name_names p (1 + 0)); [|lia|by apply dotted_short]. apply (names_ptr m n p 0 qls (12 + mlen (wire qls))); [lia|lia|lia|]. by rewrite E0, E1.
Qed.
Lemma value_type v : value_of v = None → srr_ok (Srr None 0 v) → s_type v ∉ [NET_DNS_A; NET_DNS_AAAA; NET_DNS_SRV; NET_DNS_NAPTR].
Proof using. intros H (_ & _ & _ & Hv). destruct v; try done. apply Hv. Qed.
Lemma rr_loop_records qtype rs : ∀ off acc, holds m off (rrs_bytes rs) → off + mlen (rrs_bytes rs) <= n → Forall srr_ok rs → Z.of_nat (length acc) <= NET_DNS_MAX →
  rr_loop (length rs) m n off qtype acc = Ok (acc ++ take (Z.to_nat NET_DNS_MAX - length acc) (omap (delivered_rr qtype) rs)).
Proof using Hm Hq Hqo.
  induction rs as [|r rs IH]; intros off acc H Hn HF Hacc; cbn [rr_loop length omap list_omap]. { by rewrite take_nil, app_nil_r. }
  apply Forall_cons in HF as [Hr HF]. change (rrs_bytes (r :: rs)) with (rr_bytes r ++ rrs_bytes rs) in *. rewrite mlen_app in Hn. apply holds_app in H as [HR HS].
  pose proof (mlen_nonneg (rrs_bytes rs)). pose proof Hr as (Ho & Httl & Hlen & Hv). unfold rr_bytes in *. rewrite !mlen_app in *. set (o := off + mlen (owner_bytes (s_owner r))) in *.
  assert (Lh : mlen (rr_head r) = 10) by (unfold rr_head; rewrite !mlen_app, !mlen_be_bytes; done). pose proof (mlen_nonneg (rdata (s_data r))).
  apply holds_app in HR as [HO HR]. destruct (owner_read off (s_owner r) HO Ho) as [t ->]; [lia|]. bok. fold o in HR |- *. cbv iota beta. rewrite (proj2 (Z.ltb_ge n _)) by lia.
  apply holds_app in HR as [HH HD]. rewrite Lh in HD. unfold rr_head in HH. apply holds_app in HH as [A1 HH]. apply holds_app in HH as [_ HH]. apply holds_app in HH as [A2 A3].
  rewrite !mlen_be_bytes in *. change (Z.of_nat 2) with 2 in *. change (Z.of_nat 4) with 4 in *. replace (o + 2 + 2) with (o + 4) in * by lia. replace (o + 4 + 4) with (o + 8) in A3 by lia.
  assert (Ht : w16 (s_type (s_data r))). { unfold w16. destruct (s_data r); cbn [s_type]; try (split; done). apply Hv. }
  rewrite (get16_holds o _ A1 Ht) by lia. bok. rewrite (get32_holds (o + 4) _ A2) by lia. bok. rewrite (get16_holds (o + 8) _ A3) by (unfold w16; lia). bok. cbv zeta.
  rewrite (proj2 (Z.ltb_ge n _)) by lia. replace (off + (mlen (owner_bytes (s_owner r)) + (mlen (rr_head r) + mlen (rdata (s_data r))))) with (o + 10 + mlen (rdata (s_data r))) in HS by lia.
  unfold delivered_rr at 1. destruct (Z.eqb_spec (s_type (s_data r)) qtype) as [Et|Et]; cbn [negb orb]; [|apply IH; done || lia].
  destruct (Z.eqb_spec (Z.of_nat (length acc)) NET_DNS_MAX) as [Ef|Ef].
  { rewrite IH by (done || lia). f_equal. replace (Z.to_nat NET_DNS_MAX - length acc)%nat with 0%nat by lia. by rewrite !take_0. }
  assert (Hr0 : srr_ok (Srr None 0 (s_data r))) by (split_and!; done || lia).
  destruct (value_of (s_data r)) as [v|] eqn:Ev.
  - rewrite (rr_read_value (s_data r) (o + 10) HD Hr0) by (lia || by rewrite Ev). rewrite Ev. bok. cbv iota. rewrite Et. rewrite IH; [|done|lia|done|rewrite length_app; cbn [length]; lia].
    f_equal. rewrite length_app, <-app_assoc. cbn [length app]. f_equal. replace (Z.to_nat NET_DNS_MAX - length acc)%nat with (S (Z.to_nat NET_DNS_MAX - (length acc + 1)))%nat by lia. done.
  - pose proof (value_type _ Ev Hr0) as Hni. assert (Er : rr_read m n (s_type (s_data r)) (o + 10) (mlen (rdata (s_data r))) (o + 10 + mlen (rdata (s_data r))) = Ok None).
    { unfold rr_read. rewrite !(proj2 (Z.eqb_neq _ _)); [done|..]; intros E; rewrite E in Hni; apply Hni; set_solver. }
    rewrite Er. bok. cbv iota. apply IH; done || lia.
Qed.
End reading.

(** ** Responses *)

Lemma id_found d q : NoDup (q_id <$> d_qs d) → q ∈ d_qs d → dns_find d (q_id q) = Some q.
Proof.
  intros Hd (a & b & E)%list_elem_of_split. unfold dns_find. rewrite E in *. apply find_q_at; [apply Z.eqb_refl|]. apply Forall_forall. intros x Hx. apply Z.eqb_neq. intros Ex.
  rewrite fmap_app, fmap_cons in Hd. apply NoDup_app in Hd as (_ & Hd & _). apply (Hd (q_id x)); [by apply list_elem_of_fmap_2|]. rewrite Ex. left.
Qed.
Section header.
Context (m : mem) (n id flags an : Z) (rest_ : list Z) (Hm : octets m n) (H : holds m 0 (header id flags 1 an 0 0 ++ rest_)) (Hn : 12 <= n)
  (Hid : w16 id) (Hfl : w16 flags) (Han : w16 an).
Lemma header_read : get16 m 0 = Ok id ∧ get16 m 2 = Ok flags ∧ get16 m 4 = Ok 1 ∧ get16 m 6 = Ok an ∧ holds m 12 rest_.
Proof using Hm H Hn Hid Hfl Han.
  apply holds_app in H as [HH HR]. change (mlen (header id flags 1 an 0 0)) with 12 in HR. unfold header in HH.
  apply holds_app in HH as [A0 HH]. apply holds_app in HH as [A1 HH]. apply holds_app in HH as [A2 HH]. apply holds_app in HH as [A3 _].
  rewrite !mlen_be2 in *. assert (w16 1) by (split; done). split_and!; [apply (get16_holds m n Hm)..|exact HR]; done || lia.
Qed.
End header.

(** What becomes of a response that echoes an identifier and a type. *)
Lemma answered l d q m flags ls rs tail :
  let resp := response (q_id q) flags ls (q_qtype q) rs tail in
  inv l d → q ∈ d_qs d → w16 (q_qtype q) → octets m (mlen resp) → holds m 0 resp → w16 flags → Z.land flags 32768 ≠ 0 →
  name_ok ls → Forall srr_ok rs → Z.of_nat (length rs) < 65536 →
  if strcaseeq (dotted ls) (q_name q) then ∃ l' d', dns_parse l d m (mlen resp) =
      Ok (l', d', [Called (q_cb q) (q_ud q) (Z.land flags 15) (if Z.land flags 15 =? 0 then delivered (q_qtype q) rs else [])]) ∧
    inv l' d' ∧ d_qs d ≡ₚ q :: d_qs d'
  else dns_parse l d m (mlen resp) = Ok (l, d, []).
Proof.
  intros resp Hinv Hq Hty Hm H Hfl Hqr Hlo Hrs Hlen. pose proof Hinv as [_ _ Hi Hqs _ _]. pose proof (proj1 (Forall_forall _ _) Hqs q Hq) as (Hid & _).
  set (n := mlen resp) in *. assert (Ln : n = 12 + (mlen (wire ls) + 4) + (mlen (rrs_bytes rs) + mlen tail)).
  { unfold n, resp, response, question. rewrite !mlen_app, !mlen_be2. change (mlen (header _ _ _ _ _ _)) with 12. lia. }
  pose proof (mlen_nonneg (wire ls)). pose proof (mlen_nonneg (rrs_bytes rs)). pose proof (mlen_nonneg tail).
  destruct (header_read m n (q_id q) flags (Z.of_nat (length rs)) (question ls (q_qtype q) ++ rrs_bytes rs ++ tail) Hm H) as (E0 & E1 & E2 & E3 & HB); [lia|done|done|unfold w16; lia|].
  unfold question in HB. rewrite <-!app_assoc in HB. apply holds_app in HB as [HW HB]. apply holds_app in HB as [HT HB]. apply holds_app in HB as [_ HB]. apply holds_app in HB as [HR _].
  rewrite !mlen_be2 in *. unfold dns_parse. rewrite (proj2 (Z.ltb_ge n 12)) by lia. rewrite E1. bok. rewrite (proj2 (Z.eqb_neq _ 0) Hqr). rewrite E0. bok.
  rewrite (id_found d q Hi Hq). rewrite E2. bok. change (negb (1 =? 1)) with false. cbv iota. rewrite (dns_name_full m n Hm 12 ls HW Hlo) by lia. bok. cbv iota beta.
  rewrite (proj2 (Z.ltb_ge n _)) by lia. destruct (strcaseeq (dotted ls) (q_name q)); cbv iota beta delta [negb]; [|done]. rewrite (get16_holds m n Hm _ _ HT Hty) by lia. bok. rewrite Z.eqb_refl. cbv iota.
  apply list_elem_of_split in Hq as (a & b & E). destruct (detach_spec l d a q b Hinv E) as (l' & -> & Hinv'). bok. cbv zeta. rewrite E3. bok. rewrite Nat2Z.id.
  pose proof (names_wire m n ls 12 Hm (proj1 Hlo) HW ltac:(lia)) as HN. replace (12 + mlen (wire ls) + 2 + 2) with (12 + mlen (wire ls) + 4) in HR by lia.
  pose proof (rr_loop_records m n Hm ls HN Hlo (q_qtype q) rs _ [] HR ltac:(lia) Hrs ltac:(done)) as EL. cbn [length app] in EL. rewrite Nat.sub_0_r in EL.
  exists l', (set_qs (a ++ b) d). split; [|split; [done|cbn [d_qs set_qs]; by rewrite E, Permutation_middle]].
  destruct (Z.land flags 15 =? 0); [rewrite EL; by bok|]. cbn [rr_loop]. by bok.
Qed.
Definition ex_q : dnsq := hd (Dnsq 0 0 0 0 0 0 0 [] []) (d_qs ex_asked.1.1.2).
Definition ex_rrs : list srr := [Srr None 60 (SOther 5 (wire [[98]])); Srr None 30 (SA [1; 2; 3; 4]); Srr (Some [[66]]) 31 (SA [5; 6; 7; 8])].
Definition ex_resp : list Z := response (q_id ex_q) 33152 [[65]; [98]] (q_qtype ex_q) ex_rrs [0; 0; 41].
(** ** Absolute names *)

Lemma cstr_free bs : Forall (λ c, c ≠ 0) bs → cstr bs = bs.
Proof. induction 1 as [|c bs Hc _ IH]; [done|]. cbn [cstr]. rewrite (proj2 (Z.eqb_neq c 0)) by done. by f_equal. Qed.
Lemma cstr_short bs : (length (cstr bs) <= length bs)%nat.
Proof. induction bs as [|c bs IH]; [done|]. cbn [cstr length]. destruct (c =? 0); cbn [length]; lia. Qed.
Lemma pieces_trailing name : ∀ cur, (name = [] → cur ≠ []) → last name ≠ Some 46 → pieces cur (name ++ [46]) = pieces cur name.
Proof.
  induction name as [|c name IH]; intros cur Hc Hl; cbn [pieces app]; [change (46 =? 46) with true; cbv iota; by destruct cur; [destruct Hc|]|].
  destruct (Z.eqb_spec c 46) as [->|Hne].
  - f_equal. apply IH; [by intros ->|]. by destruct name.
  - apply IH; [by destruct cur|]. by destruct name.
Qed.

(** The dot at the end of a stored name is one octet too many for any echo of its labels. *)
Lemma echo_matches ls qls name : name = dotted qls ∨ name = dotted qls ++ [46] → strcaseeq (dotted ls) (dotted qls) = true → Forall (λ c, c ≠ 0) name →
  last (dotted qls) ≠ Some 46 → strcaseeq (dotted ls) name = negb (bool_decide (last name = Some 46)).
Proof.
  intros Hn He Hz Hl. destruct Hn as [-> | ->]; [by rewrite He, bool_decide_eq_false_2|]. rewrite last_snoc, bool_decide_eq_true_2 by done. unfold strcaseeq in *.
  apply bool_decide_eq_true in He. apply bool_decide_eq_false. rewrite He, (cstr_free (dotted qls ++ [46])) by done. apply Forall_app in Hz as [Hz _]. rewrite (cstr_free (dotted qls)) by done.
  intros E%(f_equal length). rewrite !length_fmap, length_app in E. cbn [length] in E. lia.
Qed.
Lemma pieces_no_dot name : ∀ cur, 46 ∉ cur → Forall (λ l, 46 ∉ l) (pieces cur name).
Proof.
  induction name as [|c name IH]; intros cur Hc; cbn [pieces]; [destruct cur; by repeat constructor|]. destruct (Z.eqb_spec c 46) as [->|Hne].
  - constructor; [done|]. apply IH, not_elem_of_nil.
  - apply IH. rewrite elem_of_app, list_elem_of_singleton. by intros [?|?].
Qed.
Lemma dotted_last ls : Forall label_ok ls → Forall (λ l, 46 ∉ l) ls → last (dotted ls) ≠ Some 46.
Proof.
  induction ls as [|l ls IH]; [done|]. intros [Hl HF]%Forall_cons [Hd HD]%Forall_cons. destruct (decide (ls = [])) as [->|Hne].
  - change (dotted [l]) with l. intros [l' ->]%last_Some. apply Hd, elem_of_app. right. by apply list_elem_of_singleton.
  - rewrite dotted_cons by (done || by apply label_ne). rewrite app_assoc, last_app. pose proof (mlen_dotted ls HF) as L. rewrite bool_decide_eq_false_2 in L by done.
    destruct (last (dotted ls)) eqn:E; [by apply IH|]. apply last_None in E. rewrite E, mlen_nil in L. destruct ls as [|x ls]; [done|]. apply Forall_cons in HF as [[Hx _] _].
    unfold wire in L. rewrite enc_cons, !mlen_app, mlen_cons in L. pose proof (mlen_nonneg (enc ls)). change (mlen [0]) with 1 in L. lia.
Qed.

(** C14: an answer is delivered.  A response to an outstanding query that echoes the labels of
    the question sent for it, in any letter case, takes the query off the list and its timer
    off the loop
    and calls back once: with the error code alone, or with the records of the type asked
    for, in the order of the response and at most 32 of them, each with its time to live and
    its data, names expanded.  Records of other types and what follows the answers do not
    matter, and an owner may be a pointer into the question.  The exception is a query
    whose name was given with a trailing dot: its response is dropped and nothing changes. *)
Theorem dns_answer_delivered l d q m flags ls qls rs tail :
  let resp := response (q_id q) flags ls (q_qtype q) rs tail in
  inv l d → q ∈ d_qs d → w16 (q_qtype q) → octets m (mlen resp) → holds m 0 resp → w16 flags → Z.land flags 32768 ≠ 0 →
  qname_of (q_name q) = Some qls → Forall (λ c, c ≠ 0) (q_name q) →
  name_ok ls → strcaseeq (dotted ls) (dotted qls) = true → Forall srr_ok rs → Z.of_nat (length rs) < 65536 →
  if bool_decide (last (q_name q) = Some 46) then dns_parse l d m (mlen resp) = Ok (l, d, [])
  else ∃ l' d', dns_parse l d m (mlen resp) =
      Ok (l', d', [Called (q_cb q) (q_ud q) (Z.land flags 15) (if Z.land flags 15 =? 0 then delivered (q_qtype q) rs else [])]) ∧
    inv l' d' ∧ d_qs d ≡ₚ q :: d_qs d'.
Proof.
  intros resp Hinv Hq Hty Hm H Hfl Hqr Hqn Hz Hlo He Hrs Hlen. pose proof (answered l d q m flags ls rs tail Hinv Hq Hty Hm H Hfl Hqr Hlo Hrs Hlen) as A.
  unfold qname_of in Hqn. destruct (bool_decide _ && _) eqn:Ec; [|done]. injection Hqn as <-. apply andb_true_iff in Ec as [HF%bool_decide_eq_true _].
  rewrite (echo_matches ls _ (q_name q) (dotted_pieces _ HF) He Hz) in A by (apply dotted_last; [done|apply pieces_no_dot, not_elem_of_nil]).
  by destruct (bool_decide _).
Qed.
Lemma dns_answer_delivered_witness : ∃ l' d', dns_parse ex_asked.1.1.1 ex_asked.1.1.2 ex_resp (mlen ex_resp) =
      Ok (l', d', [Called (q_cb ex_q) (q_ud ex_q) (Z.land 33152 15) (if Z.land 33152 15 =? 0 then delivered (q_qtype ex_q) ex_rrs else [])]) ∧
    inv l' d' ∧ d_qs ex_asked.1.1.2 ≡ₚ ex_q :: d_qs d'.
Proof.
  apply (dns_answer_delivered ex_asked.1.1.1 ex_asked.1.1.2 ex_q ex_resp 33152 [[65]; [98]] [[97]; [98]] ex_rrs [0; 0; 41]).
  - exact ex_asked_inv.
  - vm_compute. left.
  - split; done.
  - split; [reflexivity|]. intros i Hi. apply get_range. apply (bool_decide_unpack _). vm_compute. exact I.
  - split; [done|]. split; [done|]. vm_compute. reflexivity.
  - split; done.
  - done.
  - vm_compute. reflexivity.
  - apply (bool_decide_unpack _). vm_compute. exact I.
  - split; [apply (bool_decide_unpack _); vm_compute; exact I|done].
  - vm_compute. reflexivity.
  - unfold ex_rrs, srr_ok, name_ok, w16. cbn [s_owner s_ttl s_data]. repeat constructor; try done; try set_solver; apply (bool_decide_unpack _); vm_compute; exact I.
  - done.
Defined.

(** A query for an absolute name is never answered.  The trailing dot is accepted and
    the question sent is the right one, but the text of the echoed question has no trailing
    dot and the stored name has: a response that echoes the question sent, whatever else it
    says, is dropped and the query left as it was. *)
Theorem dns_absolute_unanswered l d q name m n : inv l d → q ∈ d_qs d → q_name q = name ++ [46] → name ≠ [] → last name ≠ Some 46 →
  Forall (λ c, c ≠ 0) name → qname_of (name ++ [46]) = qname_of name ∧
  ∀ ls type rest, qname_of (q_name q) = Some ls → octets m n → get16 m 0 = Ok (q_id q) → holds m 12 (question ls type ++ rest) → 12 + mlen (question ls type) <= n →
  dns_parse l d m n = Ok (l, d, []).
Proof.
  intros Hinv Hq Hname Hne Hlast Hz. assert (Ep : pieces [] (name ++ [46]) = pieces [] name) by (apply pieces_trailing; [by intros ->|done]).
  split; [unfold qname_of; by rewrite Ep|]. intros ls type rest Hqn Hm Hid H Hn. rewrite Hname in Hqn. unfold qname_of in Hqn. rewrite Ep in Hqn.
  destruct (bool_decide _ && _) eqn:Ec; [|done]. injection Hqn as <-. apply andb_true_iff in Ec as [Hls%bool_decide_eq_true Hw%Z.leb_le]. set (ls := pieces [] name) in *.
  assert (Ed : name = dotted ls). { destruct (dotted_pieces name Hls) as [E|E]; [exact E|]. exfalso. apply Hlast. rewrite E. apply last_snoc. }
  apply holds_app in H as [H _]. unfold question in *. rewrite !mlen_app, !mlen_be2 in Hn. apply holds_app in H as [HW HT]. apply holds_app in HT as [HT _].
  pose proof (mlen_nonneg (wire ls)). unfold dns_parse. rewrite (proj2 (Z.ltb_ge n 12)) by lia. destruct (get16_val m n Hm 2) as [-> _]; [lia|lia|]. bok.
  destruct (Z.land _ 32768 =? 0); [done|]. rewrite Hid. bok. rewrite (id_found d q (i_id l d Hinv) Hq). destruct (get16_val m n Hm 4) as [-> _]; [lia|lia|]. bok. destruct (negb _); [done|].
  rewrite (dns_name_full m n Hm 12 ls HW (conj Hls Hw)) by lia. bok. cbv iota beta. destruct (n <? _); [done|].
  assert (Es : strcaseeq (dotted ls) (q_name q) = false); [|by rewrite Es].
  apply bool_decide_eq_false. intros E%(f_equal length). rewrite !length_fmap, Hname, <-Ed, (cstr_free (name ++ [46])) in E by (apply Forall_app; split; [done|repeat constructor; done]).
  pose proof (cstr_short name). rewrite length_app in E. cbn [length] in E. lia.
Qed.
Definition ex_abs : net_loop * net_dns * list out * list (Z * Z) :=
  match exec (OQuery (Some 4096) true true 100 (Some [97; 46; 98; 46]) NET_DNS_A 9 11) ex_loop ex_dns with Ok r => r | _ => (ex_loop, ex_dns, [], []) end.
Definition ex_absq : dnsq := hd (Dnsq 0 0 0 0 0 0 0 [] []) (d_qs ex_abs.1.1.2).
Lemma ex_abs_inv : inv ex_abs.1.1.1 ex_abs.1.1.2.
Proof.
  destruct (exec_spec (OQuery (Some 4096) true true 100 (Some [97; 46; 98; 46]) NET_DNS_A 9 11) ex_loop ex_dns) as (l' & d' & os & acc & E & Hi & _).
  - apply (reach_inv ex_loop ex_dns [] []). apply reach_new; [by apply (wf_new true true)|reflexivity|reflexivity|reflexivity|reflexivity|split; done].
  - split; [intros p _; apply not_elem_of_nil|reflexivity].
  - unfold ex_abs. by rewrite E.
Qed.
Lemma dns_absolute_unanswered_witness : let m := response (q_id ex_absq) 33152 [[97]; [98]] NET_DNS_A [Srr None 30 (SA [1; 2; 3; 4])] [] in
  qname_of [97; 46; 98; 46] = qname_of [97; 46; 98] ∧
  ∀ ls type rest, qname_of (q_name ex_absq) = Some ls → octets m (mlen m) → get16 m 0 = Ok (q_id ex_absq) → holds m 12 (question ls type ++ rest) → 12 + mlen (question ls type) <= mlen m →
  dns_parse ex_abs.1.1.1 ex_abs.1.1.2 m (mlen m) = Ok (ex_abs.1.1.1, ex_abs.1.1.2, []).
Proof.
  intros m. apply (dns_absolute_unanswered ex_abs.1.1.1 ex_abs.1.1.2 ex_absq [97; 46; 98] m (mlen m) ex_abs_inv).
  - vm_compute. left.
  - vm_compute. reflexivity.
  - done.
  - done.
  - repeat constructor; done.
Defined.
(** The same run evaluated: the answer is dropped. *)
Example absolute_dropped : dns_parse ex_abs.1.1.1 ex_abs.1.1.2 (response (q_id ex_absq) 33152 [[97]; [98]] NET_DNS_A [Srr None 30 (SA [1; 2; 3; 4])] []) 37 =
  Ok (ex_abs.1.1.1, ex_abs.1.1.2, []).
Proof. vm_compute. reflexivity. Qed.
(** One label that holds a dot passes for two: the echo is compared as text. *)
Example dot_in_label : dns_name [3; 97; 46; 98; 0] 5 0 = dns_name [1; 97; 1; 98; 0] 5 0.
Proof. vm_compute. reflexivity. Qed.
End DnsReply.
