(* ===== verification/Nlmsg.v ===== *)
(** * Nlmsg: netlink requests

    What [nlmsg/rtnl/src/rtnl.c] and [nlmsg/xfrm/src/xfrm.c] share: laying a request down as
    a header, a fixed payload and attributes written with the TLV codec of Tlv, and the
    exchange with the kernel.  How the kernel lays its structures out and what [inet_pton]
    makes of a literal is not code of this repository: both are fields of a class, with the
    sizes and the address lengths their documentation states.  A structure is assigned
    field by field in the code and laid down whole here. *)

From S2P Require Import Prelude Endian Tlv NetLoop NetTxq.

Module Nlmsg.
Import NetTxq.

Definition NLMSG_HDRLEN : Z := 16.
Definition NLMSG_ERROR : Z := 2.
Definition NLMSG_DONE : Z := 3.
Definition NLM_F_REQUEST : Z := 1.
Definition NLM_F_ACK : Z := 4.
Definition NLM_F_REPLACE : Z := 256.
Definition NLM_F_EXCL : Z := 512.
Definition NLM_F_CREATE : Z := 1024.

(** The codes of both modules. *)
Definition NL_OK : Z := 0.
Definition NL_E_SYS : Z := -1.
Definition NL_E_INVAL : Z := -2.
Definition NL_E_OVERFLOW : Z := -3.
Definition NL_E_ACK : Z := -5.

Record nlmsghdr := Nlmsghdr { nlmsg_len : Z; nlmsg_type : Z; nlmsg_flags : Z; nlmsg_seq : Z; nlmsg_pid : Z }.
Class Netlink := {
  inet_pton : Z → list Z → option (list Z);
  inet_pton_len f s bs : inet_pton f s = Some bs → bytes_ok bs ∧ mlen bs = if f =? AF_INET then 4 else 16;
  nlmsghdr_bytes : nlmsghdr → list Z;
  nlmsghdr_bytes_ok h : bytes_ok (nlmsghdr_bytes h);
  nlmsghdr_bytes_len h : mlen (nlmsghdr_bytes h) = NLMSG_HDRLEN }.

Definition align4 (n : Z) : Z := Z.land (n + 3) (-4).

Section requests.
Context `{HO : HostOrder} `{NL : Netlink}.
#[local] Abbreviation nla := TLV_PROF_NETLINK (only parsing).

(** The octets of the first family that takes the literal, then zeros, and the family. *)
Definition addr_pton (s : option (list Z)) : Z + (list Z * Z) :=
  match s with
  | None | Some [] => inl NL_E_INVAL
  | Some s =>
      match inet_pton AF_INET s with
      | Some bs => inr (splice (zeros 16) 0 bs, AF_INET)
      | None =>
          match inet_pton AF_INET6 s with
          | Some bs => inr (splice (zeros 16) 0 bs, AF_INET6)
          | None => inl NL_E_INVAL
          end
      end
  end.
Definition fam_len (f : Z) : Z := if f =? AF_INET then 4 else 16.

(** The request up to its attributes, and the writer of those. *)
Definition msg_begin (buf : mem) (cap type flags seq : Z) (fixed : list Z) : res (Z + (mem * nlmsghdr * tlv_wbuf)) :=
  let base := align4 (NLMSG_HDRLEN + mlen fixed) in
  if cap <? base then Ok (inl NL_E_OVERFLOW) else
  buf ← wrn buf 0 (zeros base);
  let nh := Nlmsghdr 0 type flags seq 0 in
  buf ← wrn buf 0 (nlmsghdr_bytes nh);
  buf ← (if negb (mlen fixed =? 0) then wrn buf NLMSG_HDRLEN fixed else Ok buf);
  Ok (inr (take (Z.to_nat base) buf, nh, tlv_wbuf_init (drop (Z.to_nat base) buf) (cap - base))).
Definition msg_end (head : mem) (nh : nlmsghdr) (w : tlv_wbuf) : res (mem * Z) :=
  if w_overflow w then Ok (head ++ w_buf w, NL_E_OVERFLOW) else
  let len := u32 (u64 (mlen head + w_off w)) in
  head ← wrn head 0 (nlmsghdr_bytes (Nlmsghdr len (nlmsg_type nh) (nlmsg_flags nh) (nlmsg_seq nh) (nlmsg_pid nh)));
  Ok (head ++ w_buf w, i32 len).

(** ** What a request holds *)

Definition pad4 (n : Z) : list Z := zeros (align4 n - n).
Definition request (type flags seq : Z) (fixed : list Z) (attrs : list tlv_tree) : list Z :=
  let body := fixed ++ pad4 (NLMSG_HDRLEN + mlen fixed) ++ trees_bytes nla attrs in
  nlmsghdr_bytes (Nlmsghdr (NLMSG_HDRLEN + mlen body) type flags seq 0) ++ body.

(** The attributes written so far; [cap] is the room for them. *)
Definition wrote (cap : Z) (w : tlv_wbuf) (bs : list Z) : Prop :=
  wbuf_wf w ∧ w_cap w = cap ∧ if w_overflow w then cap < mlen bs else written w = bs.

Section attrs.
Context (cap : Z) (Hcap : cap < 2147483648).
Lemma wrote_fits w bs val type : wrote cap w bs → len_fits nla (mlen val) = true →
  ∃ w' rc, tlv_put w nla type 0 val (mlen val) = Ok (w', rc) ∧ wrote cap w' (bs ++ tlv_entry nla type 0 val).
Proof using Hcap.
  intros (Hw & Hc & Hb) Hf. assert (Hv : mlen val < 4294967296) by (pose proof (mlen_nonneg val); unfold len_fits, len_field in Hf; cbn in Hf; lia).
  rewrite tlv_put_eq, Hf by (exact _ || done). set (e := tlv_entry nla type 0 val). pose proof (mlen_nonneg e). destruct (roomb w (mlen e)) eqn:Er.
  - pose proof (append_emits w e Hw Er) as (Hw' & Hc' & Ho' & Hwr). do 2 eexists. split; [done|]. split; [done|]. split; [lia|].
    pose proof (roomb_overflow _ _ Er) as Ho. rewrite Ho' , Ho. rewrite Ho in Hb. by rewrite Hwr, Hb.
  - do 2 eexists. split; [done|]. split; [done|]. split; [done|]. cbn [w_overflow set_overflow]. rewrite mlen_app. destruct (w_overflow w) eqn:Eo; [lia|].
    unfold roomb in Er. rewrite Eo in Er. cbn [negb andb] in Er. rewrite <-Hb, mlen_written by done. lia.
Qed.
Lemma host_u32 v : tlv_store (uninit 4) 0 4 false v = Ok (host_bytes 4 v).
Proof using. unfold tlv_store. change (4 =? 2) with false. change (4 =? 4) with true. cbv iota. unfold host_bytes. destruct host_big; by rewrite wrn_Ok. Qed.
Lemma mlen_host n v : mlen (host_bytes n v) = Z.of_nat n.
Proof using. unfold host_bytes. destruct host_big; [apply mlen_be_bytes|]. unfold mlen. rewrite length_rev. apply mlen_be_bytes. Qed.
Lemma host_octets_ok n v : bytes_ok (host_bytes n v).
Proof using. unfold host_bytes. destruct host_big; [apply be_bytes_ok|]. apply Forall_rev, be_bytes_ok. Qed.
Lemma wrote_u32 w bs type v : wrote cap w bs → ∃ w' rc, tlv_put_u32 w nla type 0 v = Ok (w', rc) ∧ wrote cap w' (bs ++ tlv_entry nla type 0 (host_bytes 4 v)).
Proof using Hcap.
  intros Hw. unfold tlv_put_u32. change (big_endian nla) with false. rewrite host_u32. bstep. pose proof (mlen_host 4 v) as L. change (Z.of_nat 4) with 4 in L.
  pose proof (wrote_fits w bs (host_bytes 4 v) type Hw) as H. rewrite L in H. by apply H.
Qed.
(** One attribute nested in another, whatever the calls return. *)
Lemma wrote_nest w bs type sub v : wrote cap w bs →
  ∃ w1 h w2 rc2 w3 rc3, tlv_begin w nla type 0 = Ok (w1, h) ∧ tlv_put_u32 w1 nla sub 0 v = Ok (w2, rc2) ∧ tlv_end w2 nla h = Ok (w3, rc3) ∧
    wrote cap w3 (bs ++ tlv_entry nla type 0 (tlv_entry nla sub 0 (host_bytes 4 v))).
Proof using Hcap.
  intros (Hw & Hc & Hb). set (inner := tlv_entry nla sub 0 (host_bytes 4 v)).
  assert (Li : mlen inner = 8). { unfold inner. rewrite mlen_tlv_entry by exact _. by rewrite mlen_host. }
  assert (Lo : mlen (tlv_entry nla type 0 inner) = 12). { rewrite mlen_tlv_entry by exact _. by rewrite Li. }
  assert (Lh : mlen (tlv_hdr0 nla type 0) = 4) by (apply mlen_tlv_hdr0; exact _).
  rewrite tlv_begin_eq by (exact _ || done). change (hdr_len nla) with 4.
  assert (Hover : ∀ w' n, wbuf_wf w' → w_cap w' = cap → w_overflow w' = true → cap < mlen bs + n → n <= 12 → ∀ h,
    ∃ w2 rc2 w3 rc3, tlv_put_u32 w' nla sub 0 v = Ok (w2, rc2) ∧ tlv_end w2 nla h = Ok (w3, rc3) ∧ wrote cap w3 (bs ++ tlv_entry nla type 0 inner)).
  { intros w' n Hw' Hc' Ho Hn Hn' h. destruct (wrote_u32 w' (bs ++ zeros 12) sub v) as (w2 & rc2 & E2 & Hw2 & Hc2 & Hb2).
    { split; [done|]. split; [done|]. rewrite Ho, mlen_app. change (mlen (zeros 12)) with 12. lia. }
    assert (Ho2 : w_overflow w2 = true).
    { clear Hb2. unfold tlv_put_u32 in E2. change (big_endian nla) with false in E2. rewrite host_u32 in E2. cbn [mbind res_bind] in E2. pose proof (mlen_host 4 v) as L. change (Z.of_nat 4) with 4 in L.
      pose proof (tlv_put_eq nla w' sub 0 (host_bytes 4 v) Hw') as EQ. rewrite L in EQ. rewrite EQ in E2 by done. clear EQ. change (len_fits nla 4) with true in E2. cbv iota in E2.
      unfold roomb in E2. rewrite Ho in E2. cbn [negb andb] in E2. injection E2 as <- _. done. }
    do 4 eexists. split; [exact E2|]. split; [unfold tlv_end; rewrite Ho2; reflexivity|]. split; [done|]. split; [done|]. rewrite Ho2, mlen_app, Lo. lia. }
  destruct (roomb w 4) eqn:E4.
  2: { destruct (Hover (set_overflow w) 4) with (h := TLV_E_OVERFLOW) as (w2 & rc2 & w3 & rc3 & H2 & H3 & H4); [done|done|done| |lia|by do 6 eexists].
    destruct (w_overflow w) eqn:Eo; [lia|]. unfold roomb in E4. rewrite Eo in E4. cbn [negb andb] in E4. rewrite <-Hb, mlen_written by done. lia. }
  pose proof (roomb_overflow _ _ E4) as Ho. rewrite Ho in Hb. rewrite <-Lh in E4. destruct (append_emits w _ Hw E4) as (Hw1 & Hc1 & Ho1 & Hwr1).
  set (w1 := append w (tlv_hdr0 nla type 0)) in *. rewrite Hb in Hwr1.
  destruct (wrote_u32 w1 (bs ++ tlv_hdr0 nla type 0) sub v) as (w2 & rc2 & E2 & Hw2 & Hc2 & Hb2); [split; [done|]; split; [lia|by rewrite Ho1, Ho]|].
  fold inner in Hb2. destruct (w_overflow w2) eqn:Eo2.
  - do 6 eexists. split; [reflexivity|]. split; [exact E2|]. split; [unfold tlv_end; rewrite Eo2; reflexivity|]. split; [done|]. split; [done|].
    rewrite Eo2, mlen_app, Lo. rewrite !mlen_app, Lh, Li in Hb2. lia.
  - rewrite <-app_assoc in Hb2. destruct (tlv_end_eq nla w2 bs type 0 inner Hw2 Eo2 Hb2) as (w3 & E3 & Hw3 & Hc3 & Ho3 & Hwr3); [by rewrite Li|rewrite Li; change (pad_len nla (4 + 8)) with 0|].
    { assert (Ep : pad_len nla (hdr_len nla + 8) = 0) by reflexivity. rewrite Ep. unfold roomb. rewrite Eo2. cbn [negb andb]. destruct Hw2 as [? _]. lia. }
    pose proof (mlen_written w Hw) as Lw. rewrite Hb in Lw. assert (Eh : i32 (w_off w) = mlen bs) by (destruct Hw as [? _]; rewrite i32_small; lia).
    do 6 eexists. split; [reflexivity|]. split; [exact E2|]. split; [rewrite Eh; exact E3|]. split; [done|]. split; [lia|]. by rewrite Ho3.
Qed.
End attrs.

(** ** A whole request *)

Lemma align4_spec n : align4 n = (n + 3) / 4 * 4.
Proof using. unfold align4. change (-4) with (Z.lnot (Z.ones 2)). rewrite <-Z.ldiff_land, Z.ldiff_ones_r, Z.shiftl_mul_pow2, Z.shiftr_div_pow2 by done. done. Qed.
Lemma align4_range n : n <= align4 n < n + 4.
Proof using. rewrite align4_spec. Z.to_euclidean_division_equations; lia. Qed.

(** The builders return the length of the request, which then begins the buffer, or say that
    it does not fit. *)
Definition built (cap type flags seq : Z) (fixed : list Z) (attrs : list tlv_tree) (buf : mem) (rc : Z) : Prop :=
  let r := request type flags seq fixed attrs in
  if mlen r <=? cap then rc = mlen r ∧ slice buf 0 rc = r else rc = NL_E_OVERFLOW.

Lemma mlen_request type flags seq fixed attrs :
  mlen (request type flags seq fixed attrs) = align4 (NLMSG_HDRLEN + mlen fixed) + mlen (trees_bytes nla attrs).
Proof using.
  unfold request, pad4. cbv zeta. pose proof (align4_range (NLMSG_HDRLEN + mlen fixed)). rewrite !mlen_app, nlmsghdr_bytes_len, mlen_zeros by lia. lia.
Qed.
Lemma msg_begin_spec buf cap type flags seq fixed : 0 <= cap <= mlen buf → mlen buf < 2147483648 →
  let base := align4 (NLMSG_HDRLEN + mlen fixed) in
  if cap <? base then msg_begin buf cap type flags seq fixed = Ok (inl NL_E_OVERFLOW)
  else ∃ head w, msg_begin buf cap type flags seq fixed = Ok (inr (head, Nlmsghdr 0 type flags seq 0, w)) ∧
    head = nlmsghdr_bytes (Nlmsghdr 0 type flags seq 0) ++ fixed ++ pad4 (NLMSG_HDRLEN + mlen fixed) ∧ wrote (cap - base) w [].
Proof using.
  intros Hcap Hi base. unfold msg_begin. fold base. pose proof (align4_range (NLMSG_HDRLEN + mlen fixed)) as Hb. fold base in Hb. pose proof (mlen_nonneg fixed). unfold NLMSG_HDRLEN in *.
  destruct (Z.ltb_spec cap base) as [|Hle]; [done|]. cbv zeta. set (h := nlmsghdr_bytes (Nlmsghdr 0 type flags seq 0)). assert (Lh : mlen h = 16) by apply nlmsghdr_bytes_len.
  rewrite wrn_Ok by (rewrite ?mlen_zeros; lia). bstep. change (splice buf 0 (zeros base)) with (splice buf 0 ([] ++ zeros base)).
  rewrite (wrn_over buf 0 0 [] base h) by (rewrite ?mlen_nil; lia). cbn [app].
  assert (E : (if negb (mlen fixed =? 0) then wrn (splice buf 0 (h ++ zeros (base - mlen h))) 16 fixed else Ok (splice buf 0 (h ++ zeros (base - mlen h)))) =
    Ok (splice buf 0 ((h ++ fixed) ++ zeros (base - mlen h - mlen fixed)))).
  { destruct (Z.eqb_spec (mlen fixed) 0) as [E0|E0]; cbn [negb].
    - assert (fixed = []) as -> by (destruct fixed; [done|rewrite mlen_cons in E0; pose proof (mlen_nonneg fixed); lia]). by rewrite app_nil_r, Z.sub_0_r.
    - pose proof (wrn_over buf 0 16 h (base - mlen h) fixed (λ m, Ok m)) as W. rewrite <-W by lia. by destruct (wrn _ _ _). }
  rewrite E. bstep. set (all := (h ++ fixed) ++ zeros (base - mlen h - mlen fixed)). assert (La : mlen all = base) by (unfold all; rewrite !mlen_app, mlen_zeros by lia; lia).
  do 2 eexists. split; [reflexivity|]. split.
  - rewrite splice_0, take_app_le by (unfold mlen in *; lia). rewrite take_ge by (unfold mlen in *; lia). unfold all, pad4. rewrite <-app_assoc. do 3 f_equal. unfold base. lia.
  - unfold wrote, wbuf_wf, tlv_wbuf_init, OBJ_MAX. cbn [w_off w_cap w_buf w_overflow]. assert (mlen (splice buf 0 all) = mlen buf) by (apply mlen_splice; lia).
    rewrite mlen_drop by lia. split_and!; lia || done.
Qed.
Lemma msg_end_spec buf cap type flags seq fixed attrs head w : 0 <= cap <= mlen buf → mlen buf < 2147483648 → align4 (NLMSG_HDRLEN + mlen fixed) <= cap →
  head = nlmsghdr_bytes (Nlmsghdr 0 type flags seq 0) ++ fixed ++ pad4 (NLMSG_HDRLEN + mlen fixed) →
  wrote (cap - align4 (NLMSG_HDRLEN + mlen fixed)) w (trees_bytes nla attrs) →
  ∃ buf' rc, msg_end head (Nlmsghdr 0 type flags seq 0) w = Ok (buf', rc) ∧ built cap type flags seq fixed attrs buf' rc.
Proof using.
  intros Hcap Hi Hle Hh (Hw & Hc & Hb). unfold built. cbv zeta. rewrite mlen_request. set (base := align4 (NLMSG_HDRLEN + mlen fixed)) in *.
  pose proof (align4_range (NLMSG_HDRLEN + mlen fixed)) as Hr. fold base in Hr. pose proof (mlen_nonneg fixed). pose proof (nlmsghdr_bytes_len (Nlmsghdr 0 type flags seq 0)) as L0.
  assert (Lh : mlen head = base). { rewrite Hh. unfold pad4. rewrite !mlen_app, L0, mlen_zeros by (unfold base in *; lia). fold base. lia. }
  unfold msg_end. destruct (w_overflow w).
  - do 2 eexists. split; [reflexivity|]. by rewrite (proj2 (Z.leb_gt _ _)) by lia.
  - pose proof (mlen_written w Hw) as Lw. rewrite Hb in Lw. destruct Hw as [Ho Hm]. rewrite (proj2 (Z.leb_le _ _)) by lia. cbv zeta. rewrite Lh.
    unfold NLMSG_HDRLEN in Hr. rewrite u64_small, u32_small, i32_small by lia. set (len := base + w_off w). pose proof (nlmsghdr_bytes_len (Nlmsghdr len type flags seq 0)) as L1. unfold NLMSG_HDRLEN in *.
    cbn [nlmsg_type nlmsg_flags nlmsg_seq nlmsg_pid]. rewrite wrn_Ok by lia. bstep. do 2 eexists. split; [reflexivity|]. split; [lia|].
    rewrite splice_0. assert (Ed : drop (length (nlmsghdr_bytes (Nlmsghdr len type flags seq 0))) head = fixed ++ pad4 (16 + mlen fixed)).
    { rewrite Hh. apply drop_app_length'. unfold mlen in *. lia. }
    rewrite Ed. assert (Lp : mlen (pad4 (16 + mlen fixed)) = base - (16 + mlen fixed)). { unfold pad4. fold base. apply mlen_zeros. lia. }
    set (pre := nlmsghdr_bytes (Nlmsghdr len type flags seq 0) ++ fixed ++ pad4 (16 + mlen fixed)).
    assert (Lpre : mlen pre = base) by (unfold pre; rewrite !mlen_app; lia). unfold slice. rewrite drop_0.
    assert (Et : take (Z.to_nat len) (pre ++ w_buf w) = pre ++ take (Z.to_nat (w_off w)) (w_buf w)).
    { unfold mlen in Lpre. rewrite take_app_ge by lia. do 2 f_equal. lia. }
    rewrite Et. unfold pre.
    change (take (Z.to_nat (w_off w)) (w_buf w)) with (written w). rewrite Hb. unfold request. cbv zeta. rewrite <-!app_assoc.
    do 3 f_equal. unfold NLMSG_HDRLEN. rewrite !mlen_app, Lp. unfold len. lia.
Qed.

(** What the kernel finds in a request: its attributes, group by group. *)
Lemma request_attrs (grouped : Z → bool) type flags seq fixed attrs : Forall (tree_ok nla grouped) attrs → bytes_ok fixed → mlen (request type flags seq fixed attrs) < 2147483648 →
  let r := request type flags seq fixed attrs in let base := align4 (NLMSG_HDRLEN + mlen fixed) in
  tree_read nla grouped (S (length r)) r (tlv_iter_init nla base (mlen r - base)) = Ok attrs.
Proof using.
  intros Hok Hf Hl r base. fold r in Hl. assert (Hr : r = (nlmsghdr_bytes (Nlmsghdr (NLMSG_HDRLEN + mlen (fixed ++ pad4 (NLMSG_HDRLEN + mlen fixed) ++ trees_bytes nla attrs)) type flags seq 0) ++
    fixed ++ pad4 (NLMSG_HDRLEN + mlen fixed)) ++ trees_bytes nla attrs) by (unfold r, request; cbv zeta; by rewrite <-!app_assoc).
  pose proof (mlen_request type flags seq fixed attrs) as Lr. fold r base in Lr. pose proof (mlen_nonneg (trees_bytes nla attrs)). pose proof (align4_range (NLMSG_HDRLEN + mlen fixed)) as Hb. fold base in Hb.
  pose proof (mlen_nonneg fixed). set (pre := _ ++ fixed ++ _) in Hr. assert (Lp : mlen pre = base) by (assert (mlen r = mlen pre + mlen (trees_bytes nla attrs)) by (rewrite Hr at 1; apply mlen_app); lia).
  unfold NLMSG_HDRLEN in *. apply (tree_read_bytes nla grouped); cbn [it_end it_cur it_prof tlv_iter_init]; [unfold mlen in *; lia| |done|].
  - split_and!; cbn [it_end it_cur it_prof tlv_iter_init]; try done; try (unfold OBJ_MAX; lia). rewrite Hr. unfold pre. rewrite !bytes_ok_app. split_and!; [apply nlmsghdr_bytes_ok|done|apply bytes_ok_zeros|].
    apply (trees_bytes_ok nla grouped); [|done]. apply Forall_forall. intros t _ Ht. by apply (tree_bytes_ok nla grouped).
  - replace (base + (mlen r - base) - base) with (mlen (trees_bytes nla attrs)) by lia. rewrite Hr. rewrite slice_app_ge by lia. rewrite Lp, Z.sub_diag. by apply slice_full.
Qed.

(** ** Addresses and attribute runs *)

(** A non-empty string. *)
Definition given (s : option (list Z)) : bool := match s with None | Some [] => false | Some _ => true end.
(** A literal by the family that takes it, IPv4 first. *)
Definition literal (s : option (list Z)) : option (Z * list Z) :=
  match s with
  | None | Some [] => None
  | Some s =>
      match inet_pton AF_INET s, inet_pton AF_INET6 s with
      | Some bs, _ => Some (AF_INET, bs)
      | None, Some bs => Some (AF_INET6, bs)
      | None, None => None
      end
  end.
Lemma literal_ok s fam bs : literal s = Some (fam, bs) → (fam = AF_INET ∨ fam = AF_INET6) ∧ bytes_ok bs ∧ mlen bs = fam_len fam.
Proof using.
  unfold literal, fam_len. destruct s as [[|c s]|]; [done| |done]. destruct (inet_pton AF_INET (c :: s)) eqn:E4.
  - intros [= <- <-]. apply inet_pton_len in E4. tauto.
  - destruct (inet_pton AF_INET6 (c :: s)) eqn:E6; [|done]. intros [= <- <-]. apply inet_pton_len in E6. tauto.
Qed.
Lemma literal_not_given s : given s = false → literal s = None.
Proof using. by destruct s as [[|c s]|]. Qed.
Lemma addr_pton_literal s :
  addr_pton s = match literal s with Some (fam, bs) => inr (splice (zeros 16) 0 bs, fam) | None => inl NL_E_INVAL end.
Proof using. destruct s as [[|c s]|]; [done| |done]. unfold addr_pton, literal. destruct (inet_pton AF_INET _); [done|]. by destruct (inet_pton AF_INET6 _). Qed.

Lemma trees_bytes_app ts us : trees_bytes nla (ts ++ us) = trees_bytes nla ts ++ trees_bytes nla us.
Proof using. unfold trees_bytes. by rewrite map_app, concat_app. Qed.
Lemma trees_bytes_one t : trees_bytes nla [t] = tree_bytes nla t.
Proof using. unfold trees_bytes. cbn [map concat]. by rewrite app_nil_r. Qed.

Section runs.
Context (cap : Z) (Hcap : cap < 2147483648).
Lemma trees_snoc ts t : trees_bytes nla (ts ++ [t]) = trees_bytes nla ts ++ tree_bytes nla t.
Proof using. by rewrite trees_bytes_app, trees_bytes_one. Qed.
Lemma wrote_leaf w ts type val : wrote cap w (trees_bytes nla ts) → len_fits nla (mlen val) = true →
  ∃ w' rc, tlv_put w nla type 0 val (mlen val) = Ok (w', rc) ∧ wrote cap w' (trees_bytes nla (ts ++ [Leaf type 0 val])).
Proof using Hcap. intros Hw Hf. rewrite trees_snoc. by apply wrote_fits. Qed.
(** An address, from the buffer it was parsed into. *)
Lemma wrote_addr w ts type s fam bs : wrote cap w (trees_bytes nla ts) → literal s = Some (fam, bs) →
  ∃ w' rc, tlv_put w nla type 0 (splice (zeros 16) 0 bs) (fam_len fam) = Ok (w', rc) ∧ wrote cap w' (trees_bytes nla (ts ++ [Leaf type 0 bs])).
Proof using Hcap.
  intros Hw Hl. destruct (literal_ok _ _ _ Hl) as (Hf & _ & L). assert (4 <= mlen bs <= 16) by (rewrite L; destruct Hf as [-> | ->]; unfold fam_len; cbn; lia).
  assert (Lz : mlen (zeros 16) = 16) by done. rewrite <-L, tlv_put_take by (rewrite mlen_splice; lia). rewrite slice_splice_same by (done || lia).
  apply wrote_leaf; [done|]. unfold len_fits, len_field. cbn. lia.
Qed.
Lemma wrote_word w ts type v : wrote cap w (trees_bytes nla ts) →
  ∃ w' rc, tlv_put_u32 w nla type 0 v = Ok (w', rc) ∧ wrote cap w' (trees_bytes nla (ts ++ [Leaf type 0 (host_bytes 4 v)])).
Proof using Hcap. intros Hw. rewrite trees_snoc. by apply wrote_u32. Qed.
Lemma wrote_if (c : bool) w ts t (put : tlv_wbuf → res tlv_wbuf) : wrote cap w (trees_bytes nla ts) →
  (c = true → ∃ w', put w = Ok w' ∧ wrote cap w' (trees_bytes nla (ts ++ [t]))) →
  ∃ w', (if c then put w else Ok w) = Ok w' ∧ wrote cap w' (trees_bytes nla (ts ++ if c then [t] else [])).
Proof using. intros Hw Hp. destruct c; [by apply Hp|]. exists w. by rewrite app_nil_r. Qed.
End runs.

(** Attributes the profile can hold. *)
Lemma leaf_ok grouped type val : 0 <= type < 65536 → grouped type = false → bytes_ok val → mlen val < 65532 → tree_ok nla grouped (Leaf type 0 val).
Proof using. intros Ht Hg Hb Hl. split; [|done]. split; [exact Ht|]. split; [done|]. unfold len_fits, len_field. cbn. lia. Qed.
Lemma fam_len_cases fam : fam = AF_INET ∨ fam = AF_INET6 → fam_len fam = 4 ∨ fam_len fam = 16.
Proof using. intros [-> | ->]; [by left|by right]. Qed.
Lemma addr_ok grouped type s fam bs : 0 <= type < 65536 → grouped type = false → literal s = Some (fam, bs) → tree_ok nla grouped (Leaf type 0 bs).
Proof using.
  intros Ht Hg Hl. destruct (literal_ok _ _ _ Hl) as (Hf & Hb & L). apply leaf_ok; [done|done|done|]. destruct (fam_len_cases _ Hf); lia.
Qed.
Lemma word_leaf_ok grouped type v : 0 <= type < 65536 → grouped type = false → tree_ok nla grouped (Leaf type 0 (host_bytes 4 v)).
Proof using. intros Ht Hg. apply leaf_ok; [done|done|apply host_octets_ok|by rewrite mlen_host]. Qed.
Lemma mlen_leaf type val : mlen (tree_bytes nla (Leaf type 0 val)) = align4 (4 + mlen val).
Proof using.
  cbn [tree_bytes]. rewrite mlen_tlv_entry by exact _. pose proof (mlen_nonneg val). rewrite align4_spec. unfold pad_len. change (hdr_len nla) with 4. change (align nla) with 4.
  change (1 <? 4) with true. cbv iota. destruct (Z.eqb_spec ((4 + mlen val) mod 4) 0); Z.to_euclidean_division_equations; lia.
Qed.

(** What a builder that lays down [fixed] and [attrs] owes its caller. *)
Definition lays (buf : mem) (cap seq : Z) (grouped : Z → bool) (plan : option (Z * Z * list Z * list tlv_tree)) (r : res (mem * Z)) : Prop :=
  ∃ buf' rc, r = Ok (buf', rc) ∧
    match plan with
    | None => rc = NL_E_INVAL
    | Some (type, flags, fixed, attrs) =>
        let q := request type flags seq fixed attrs in let base := align4 (NLMSG_HDRLEN + mlen fixed) in
        built cap type flags seq fixed attrs buf' rc ∧
        tree_read nla grouped (S (length q)) q (tlv_iter_init nla base (mlen q - base)) = Ok attrs
    end.
Section lay.
Context (buf : mem) (cap seq : Z) (grouped : Z → bool) (Hcap : 0 <= cap <= mlen buf) (Hbuf : mlen buf < 2147483648).
Lemma lays_msg type flags fixed attrs (write : mem → nlmsghdr → tlv_wbuf → res (mem * Z)) :
  (∀ c w, c < 2147483648 → wrote c w [] → ∃ w', (∀ head nh, write head nh w = msg_end head nh w') ∧ wrote c w' (trees_bytes nla attrs)) →
  Forall (tree_ok nla grouped) attrs → bytes_ok fixed → mlen (request type flags seq fixed attrs) < 2147483648 →
  lays buf cap seq grouped (Some (type, flags, fixed, attrs))
    (b ← msg_begin buf cap type flags seq fixed;
     match b with
     | inl rc => Ok (buf, rc)
     | inr (head, nh, w) => write head nh w
     end).
Proof using Hcap Hbuf.
  intros Hw Hok Hf Hl. pose proof (msg_begin_spec buf cap type flags seq fixed Hcap Hbuf) as Hb. cbv zeta in Hb.
  pose proof (request_attrs grouped type flags seq fixed attrs Hok Hf Hl) as Hr. cbv zeta in Hr. unfold lays. cbv zeta.
  pose proof (align4_range (NLMSG_HDRLEN + mlen fixed)) as Ha. pose proof (mlen_nonneg fixed). unfold NLMSG_HDRLEN in Ha.
  destruct (Z.ltb_spec cap (align4 (NLMSG_HDRLEN + mlen fixed))) as [Hlt|Hle].
  - rewrite Hb. bstep. do 2 eexists. split; [reflexivity|]. split; [|exact Hr]. unfold built. cbv zeta. rewrite mlen_request.
    pose proof (mlen_nonneg (trees_bytes nla attrs)). by rewrite (proj2 (Z.leb_gt _ _)) by lia.
  - destruct Hb as (head & w & Eb & Eh & Hw0). rewrite Eb. bstep. unfold NLMSG_HDRLEN in *. assert (Hc : cap - align4 (16 + mlen fixed) < 2147483648) by lia. destruct (Hw _ w Hc Hw0) as (w' & Ew & Hw'). rewrite Ew.
    destruct (msg_end_spec buf cap type flags seq fixed attrs head w' Hcap Hbuf Hle Eh Hw') as (buf' & rc & Ee & Hbt). rewrite Ee. do 2 eexists. split; [reflexivity|]. split; [exact Hbt|exact Hr].
Qed.
(** More was put than there is room for. *)
Lemma overflow_msg type flags fixed (write : mem → nlmsghdr → tlv_wbuf → res (mem * Z)) :
  (∀ c w, 0 <= c < 2147483648 → wrote c w [] → ∃ w' bs, (∀ head nh, write head nh w = msg_end head nh w') ∧ wrote c w' bs ∧ c < mlen bs) →
  ∃ buf', (b ← msg_begin buf cap type flags seq fixed;
     match b with
     | inl rc => Ok (buf, rc)
     | inr (head, nh, w) => write head nh w
     end) = Ok (buf', NL_E_OVERFLOW).
Proof using Hcap Hbuf.
  intros Hw. pose proof (msg_begin_spec buf cap type flags seq fixed Hcap Hbuf) as Hb. cbv zeta in Hb. pose proof (align4_range (NLMSG_HDRLEN + mlen fixed)) as Ha. pose proof (mlen_nonneg fixed).
  unfold NLMSG_HDRLEN in Ha. destruct (Z.ltb_spec cap (align4 (NLMSG_HDRLEN + mlen fixed))) as [Hlt|Hle]; [rewrite Hb; by exists buf|].
  destruct Hb as (head & w & Eb & _ & Hw0). rewrite Eb. bstep. unfold NLMSG_HDRLEN in *. assert (Hc : 0 <= cap - align4 (16 + mlen fixed) < 2147483648) by lia.
  destruct (Hw _ w Hc Hw0) as (w' & bs & Ew & (Hwf & Hc' & Hb') & Hlong). rewrite Ew. unfold msg_end. destruct (w_overflow w'); [by eexists|]. pose proof (mlen_written w' Hwf) as L. rewrite Hb' in L. destruct Hwf as [? _]. lia.
Qed.
End lay.
End requests.

(** ** Transactions *)

(** [rtnl_sock] and [xfrm_sock]; [nl_open] and [nl_close] stand for both modules' functions,
    which differ in the protocol number. *)

Record nl_sock := NlSock { ns_fd : Z; ns_seq : Z; ns_portid : Z; ns_nl_errno : Z }.
Inductive answer := AIntr | AFail | AMsgs (ms : list (Z * Z)).
(** The messages of a datagram by type and error: [None] when none is conclusive. *)
Fixpoint conclusive (s : nl_sock) (ms : list (Z * Z)) : option (nl_sock * Z) :=
  match ms with
  | [] => None
  | (type, error) :: ms =>
      if type =? NLMSG_ERROR then
        if error =? 0 then Some (s, NL_OK) else Some (NlSock (ns_fd s) (ns_seq s) (ns_portid s) (- error), NL_E_ACK)
      else if type =? NLMSG_DONE then Some (s, NL_OK) else conclusive s ms
  end.
(** [None] while the kernel has not answered. *)
Fixpoint recv_loop (s : nl_sock) (answers : list answer) : option (nl_sock * Z) :=
  match answers with
  | [] => None
  | AIntr :: answers => recv_loop s answers
  | AFail :: _ => Some (s, NL_E_SYS)
  | AMsgs ms :: answers => match conclusive s ms with Some r => Some r | None => recv_loop s answers end
  end.
Definition transact (sent : bool) (answers : list answer) (s : nl_sock) : option (nl_sock * Z) :=
  if sent then recv_loop s answers else Some (s, NL_E_SYS).
Definition run (sent : bool) (answers : list answer) (s : nl_sock) (len : Z) : option (nl_sock * Z) :=
  if len <? 0 then Some (s, len) else
  match transact sent answers s with
  | None => None
  | Some (s, rc) => Some (NlSock (ns_fd s) (u32 (ns_seq s + 1)) (ns_portid s) (ns_nl_errno s), rc)
  end.
Definition with_sock (sent : bool) (answers : list answer) (s : option nl_sock) (build : Z → res (mem * Z)) : res (option (option nl_sock * Z)) :=
  match s with
  | None => Ok (Some (None, NL_E_INVAL))
  | Some s =>
      if ns_fd s <? 0 then Ok (Some (Some s, NL_E_INVAL)) else
      m ← build (ns_seq s);
      Ok (match run sent answers s (snd m) with None => None | Some (s, rc) => Some (Some s, rc) end)
  end.
(** [sock]: the descriptor, or negative; [bound] and [name] the outcomes of the other two
    calls. *)
Definition nl_open (sock : Z) (bound : bool) (name : option Z) (s : option nl_sock) : option nl_sock * Z :=
  match s with
  | None => (None, NL_E_INVAL)
  | Some _ =>
      let s := NlSock (-1) 1 0 0 in
      if sock <? 0 then (Some s, NL_E_SYS) else
      if negb bound then (Some s, NL_E_SYS) else
      let s := match name with Some pid => NlSock (ns_fd s) (ns_seq s) pid (ns_nl_errno s) | None => s end in
      (Some (NlSock sock (ns_seq s) (ns_portid s) (ns_nl_errno s)), NL_OK)
  end.
Definition nl_close (s : option nl_sock) : option nl_sock :=
  match s with
  | Some s => if 0 <=? ns_fd s then Some (NlSock (-1) (ns_seq s) (ns_portid s) (ns_nl_errno s)) else Some s
  | None => None
  end.

(** All the conclusions the kernel's answers hold, a failed read as [None]. *)
Definition message_conclusion (m : Z * Z) : list (option Z) := if m.1 =? NLMSG_ERROR then [Some m.2] else if m.1 =? NLMSG_DONE then [Some 0] else [].
Definition answer_conclusions (a : answer) : list (option Z) := match a with AIntr => [] | AFail => [None] | AMsgs ms => ms ≫= message_conclusion end.
(** The verdict of the first, and the socket it leaves. *)
Definition verdict (s : nl_sock) (answers : list answer) : option (nl_sock * Z) :=
  match answers ≫= answer_conclusions with
  | [] => None
  | None :: _ => Some (s, NL_E_SYS)
  | Some e :: _ => if e =? 0 then Some (s, NL_OK) else Some (NlSock (ns_fd s) (ns_seq s) (ns_portid s) (- e), NL_E_ACK)
  end.
Definition advance (s : nl_sock) : nl_sock := NlSock (ns_fd s) (u32 (ns_seq s + 1)) (ns_portid s) (ns_nl_errno s).

Lemma conclusive_first s ms : conclusive s ms =
  match ms ≫= message_conclusion with
  | Some e :: _ => if e =? 0 then Some (s, NL_OK) else Some (NlSock (ns_fd s) (ns_seq s) (ns_portid s) (- e), NL_E_ACK)
  | _ => None
  end.
Proof.
  induction ms as [|[type error] ms IH]; [done|]. cbn [conclusive]. rewrite bind_cons. unfold message_conclusion at 1. cbn [fst snd].
  destruct (type =? NLMSG_ERROR); [cbn [app]; by destruct (error =? 0)|]. destruct (type =? NLMSG_DONE); [done|exact IH].
Qed.
Lemma message_conclusions_some ms x l : ms ≫= message_conclusion = x :: l → ∃ e, x = Some e.
Proof.
  intros H. assert (Hin : x ∈ ms ≫= message_conclusion) by (rewrite H; left). apply list_elem_of_bind in Hin as ([type error] & Hx & _). unfold message_conclusion in Hx. cbn [fst snd] in Hx.
  destruct (type =? NLMSG_ERROR); [|destruct (type =? NLMSG_DONE); [|by apply not_elem_of_nil in Hx]]; apply list_elem_of_singleton in Hx as ->; eauto.
Qed.
Lemma recv_loop_verdict s answers : recv_loop s answers = verdict s answers.
Proof.
  unfold verdict. induction answers as [|[| |ms] answers IH]; [done|exact IH|done|]. cbn [recv_loop]. rewrite bind_cons. cbn [answer_conclusions]. rewrite conclusive_first.
  destruct (ms ≫= message_conclusion) as [|x l] eqn:E; [exact IH|]. destruct (message_conclusions_some _ _ _ E) as [e ->]. cbn [app]. by destruct (e =? 0).
Qed.
Lemma with_sock_verdict sent answers s build buf rc : 0 <= ns_fd s → build (ns_seq s) = Ok (buf, rc) →
  with_sock sent answers (Some s) build = Ok (if rc <? 0 then Some (Some s, rc) else '(s', rc) ← if sent then verdict s answers else Some (s, NL_E_SYS); Some (Some (advance s'), rc)).
Proof.
  intros Hf E. unfold with_sock. rewrite (proj2 (Z.ltb_ge _ _)) by lia. rewrite E. bstep. cbn [snd]. f_equal. unfold run, transact. destruct (rc <? 0); [done|].
  destruct sent; [|done]. rewrite recv_loop_verdict. by destruct (verdict s answers) as [[s' rc']|].
Qed.

(** ** A little-endian host that knows two literals *)

Definition little_host : HostOrder := false.
#[local] Existing Instance little_host.
Definition two_literals : Netlink.
Proof.
  refine {| inet_pton := λ f s, if f =? AF_INET then if bool_decide (s = [49; 46; 50]) then Some [1; 0; 0; 2] else None
                                else if bool_decide (s = [58; 58; 49]) then Some (zeros 15 ++ [1]) else None;
            nlmsghdr_bytes := λ h, host_bytes 4 (nlmsg_len h) ++ host_bytes 2 (nlmsg_type h) ++ host_bytes 2 (nlmsg_flags h) ++ host_bytes 4 (nlmsg_seq h) ++ host_bytes 4 (nlmsg_pid h) |}.
  - intros f s bs. destruct (f =? AF_INET); case_bool_decide; intros [= <-]; (split; [apply (bool_decide_unpack _); vm_compute; exact I|done]).
  - intros h. rewrite !bytes_ok_app. split_and!; apply host_octets_ok.
  - intros h. by rewrite !mlen_app, !mlen_host.
Defined.
End Nlmsg.
