(* ===== verification/Rtnl.v ===== *)
(** * Rtnl: address and route requests

    Models [nlmsg/rtnl/src/rtnl.c].  Every builder lays down the request that a table of its
    arguments names: the fixed structure with the defaults of an add or a delete, and the
    attributes, which read back from the octets with the TLV iterator.  The layout of
    [struct ifaddrmsg] and [struct rtmsg] is the kernel's and a field of a class.  What
    [sendto] and [recv] answer, datagrams already split by the macros of netlink.h, are
    arguments. *)

From S2P Require Import Prelude Endian Tlv NetLoop NetTxq Nlmsg.

Module Rtnl.
Import NetTxq Nlmsg.

Definition RTM_NEWADDR : Z := 20.
Definition RTM_DELADDR : Z := 21.
Definition RTM_NEWROUTE : Z := 24.
Definition RTM_DELROUTE : Z := 25.
Definition IFA_ADDRESS : Z := 1.
Definition IFA_LOCAL : Z := 2.
Definition RTA_DST : Z := 1.
Definition RTA_OIF : Z := 4.
Definition RTA_GATEWAY : Z := 5.
Definition RTA_PRIORITY : Z := 6.
Definition RTA_METRICS : Z := 8.
Definition RTAX_MTU : Z := 2.
Definition RT_TABLE_MAIN : Z := 254.
Definition RTPROT_BOOT : Z := 3.
Definition RTN_UNICAST : Z := 1.
Definition RT_SCOPE_UNIVERSE : Z := 0.
Definition RT_SCOPE_LINK : Z := 253.
Definition RT_SCOPE_NOWHERE : Z := 255.

(** The members the builders set; the others are zero. *)
Record ifaddrmsg := Ifaddrmsg { ifa_family : Z; ifa_prefixlen : Z; ifa_scope : Z; ifa_index : Z }.
Record rtmsg := Rtmsg { rtm_family : Z; rtm_dst_len : Z; rtm_table : Z; rtm_protocol : Z; rtm_scope : Z; rtm_type : Z }.
Class Rtnetlink := {
  ifaddrmsg_bytes : ifaddrmsg → list Z;
  ifaddrmsg_ok m : bytes_ok (ifaddrmsg_bytes m) ∧ mlen (ifaddrmsg_bytes m) = 8;
  rtmsg_bytes : rtmsg → list Z;
  rtmsg_ok m : bytes_ok (rtmsg_bytes m) ∧ mlen (rtmsg_bytes m) = 12 }.

(** A literal is [None] for NULL. *)
Record rtnl_addr := RtnlAddr { ra_addr : option (list Z); ra_prefixlen : Z; ra_ifindex : Z; ra_scope : Z }.
Record rtnl_route := RtnlRoute {
  rt_dst : option (list Z); rt_dstlen : Z; rt_gateway : option (list Z); rt_ifindex : Z; rt_mtu : Z; rt_priority : Z;
  rt_table : Z; rt_scope : Z; rt_protocol : Z; rt_type : Z }.

Section builders.
Context `{HO : HostOrder} `{NL : Netlink} `{RT : Rtnetlink}.
#[local] Abbreviation nla := TLV_PROF_NETLINK.

Definition addr_build (buf : mem) (cap type flags seq : Z) (a : option rtnl_addr) : res (mem * Z) :=
  match a with
  | None => Ok (buf, NL_E_INVAL)
  | Some a =>
      if (match ra_addr a with None => true | Some _ => false end) || (ra_ifindex a =? 0) then Ok (buf, NL_E_INVAL) else
      match addr_pton (ra_addr a) with
      | inl rc => Ok (buf, rc)
      | inr (raw, fam) =>
          let alen := fam_len fam in
          if u8 (alen * 8) <? ra_prefixlen a then Ok (buf, NL_E_INVAL) else
          b ← msg_begin buf cap type flags seq (ifaddrmsg_bytes (Ifaddrmsg (u8 fam) (ra_prefixlen a) (ra_scope a) (ra_ifindex a)));
          match b with
          | inl rc => Ok (buf, rc)
          | inr (head, nh, w) =>
              w ← (if fam =? AF_INET then r ← tlv_put w nla IFA_LOCAL 0 raw alen; Ok (fst r) else Ok w);
              r ← tlv_put w nla IFA_ADDRESS 0 raw alen;
              msg_end head nh (fst r)
          end
      end
  end.
Definition rtnl_addr_msg (buf : mem) (cap seq : Z) (a : option rtnl_addr) : res (mem * Z) :=
  addr_build buf cap RTM_NEWADDR (Z.lor (Z.lor (Z.lor NLM_F_REQUEST NLM_F_ACK) NLM_F_CREATE) NLM_F_REPLACE) seq a.
Definition rtnl_addr_del_msg (buf : mem) (cap seq : Z) (a : option rtnl_addr) : res (mem * Z) :=
  addr_build buf cap RTM_DELADDR (Z.lor NLM_F_REQUEST NLM_F_ACK) seq a.

Definition or_default (v d : Z) : Z := if negb (v =? 0) then v else d.
(** The fixed part of a route request. *)
Definition route_msg (r : rtnl_route) (del has_gw : bool) (fam : Z) : rtmsg :=
  Rtmsg (u8 fam) (rt_dstlen r) (or_default (rt_table r) RT_TABLE_MAIN) (or_default (rt_protocol r) (if del then 0 else RTPROT_BOOT))
    (or_default (rt_scope r) (if del then RT_SCOPE_NOWHERE else if has_gw then RT_SCOPE_UNIVERSE else RT_SCOPE_LINK))
    (or_default (rt_type r) (if del then 0 else RTN_UNICAST)).
Definition opt_pton (s : option (list Z)) : Z + (list Z * Z) := if given s then addr_pton s else inr ([], 0).
Definition route_build (buf : mem) (cap type flags seq : Z) (r : option rtnl_route) : res (mem * Z) :=
  match r with
  | None => Ok (buf, NL_E_INVAL)
  | Some r =>
      let has_dst := given (rt_dst r) in
      let has_gw := given (rt_gateway r) in
      let del := type =? RTM_DELROUTE in
      match opt_pton (rt_dst r) with
      | inl rc => Ok (buf, rc)
      | inr (dst, dfam) =>
          match opt_pton (rt_gateway r) with
          | inl rc => Ok (buf, rc)
          | inr (gw, gfam) =>
              if negb has_dst && negb has_gw then Ok (buf, NL_E_INVAL) else
              if has_dst && has_gw && negb (gfam =? dfam) then Ok (buf, NL_E_INVAL) else
              let fam := if has_dst then dfam else gfam in
              let alen := fam_len fam in
              if u8 (alen * 8) <? rt_dstlen r then Ok (buf, NL_E_INVAL) else
              if negb has_dst && negb (rt_dstlen r =? 0) then Ok (buf, NL_E_INVAL) else
              b ← msg_begin buf cap type flags seq (rtmsg_bytes (route_msg r del has_gw fam));
              match b with
              | inl rc => Ok (buf, rc)
              | inr (head, nh, w) =>
                  w ← (if has_dst then x ← tlv_put w nla RTA_DST 0 dst (fam_len dfam); Ok (fst x) else Ok w);
                  w ← (if has_gw then x ← tlv_put w nla RTA_GATEWAY 0 gw (fam_len gfam); Ok (fst x) else Ok w);
                  w ← (if negb (rt_ifindex r =? 0) then x ← tlv_put_u32 w nla RTA_OIF 0 (rt_ifindex r); Ok (fst x) else Ok w);
                  w ← (if negb (rt_priority r =? 0) then x ← tlv_put_u32 w nla RTA_PRIORITY 0 (rt_priority r); Ok (fst x) else Ok w);
                  w ← (if negb (rt_mtu r =? 0) then
                         '(w, nest) ← tlv_begin w nla RTA_METRICS 0;
                         x ← tlv_put_u32 w nla RTAX_MTU 0 (rt_mtu r);
                         y ← tlv_end (fst x) nla nest;
                         Ok (fst y)
                       else Ok w);
                  msg_end head nh w
              end
          end
      end
  end.
Definition rtnl_route_msg (buf : mem) (cap seq : Z) (r : option rtnl_route) : res (mem * Z) :=
  route_build buf cap RTM_NEWROUTE (Z.lor (Z.lor (Z.lor NLM_F_REQUEST NLM_F_ACK) NLM_F_CREATE) NLM_F_REPLACE) seq r.
Definition rtnl_route_del_msg (buf : mem) (cap seq : Z) (r : option rtnl_route) : res (mem * Z) :=
  route_build buf cap RTM_DELROUTE (Z.lor NLM_F_REQUEST NLM_F_ACK) seq r.

(** ** What is asked of the kernel *)

Inductive op := AddAddr (a : option rtnl_addr) | DelAddr (a : option rtnl_addr) | AddRoute (r : option rtnl_route) | DelRoute (r : option rtnl_route).
Definition op_msg (buf : mem) (cap seq : Z) (o : op) : res (mem * Z) :=
  match o with
  | AddAddr a => rtnl_addr_msg buf cap seq a
  | DelAddr a => rtnl_addr_del_msg buf cap seq a
  | AddRoute r => rtnl_route_msg buf cap seq r
  | DelRoute r => rtnl_route_del_msg buf cap seq r
  end.

(** An address needs a literal, an interface and a prefix within the address; IPv4 carries it
    twice. *)
Definition addr_plan (a : option rtnl_addr) : option (list Z * list tlv_tree) :=
  a ← a;
  '(fam, bs) ← literal (ra_addr a);
  if bool_decide (ra_ifindex a ≠ 0 ∧ ra_prefixlen a <= 8 * mlen bs)
  then Some (ifaddrmsg_bytes (Ifaddrmsg fam (ra_prefixlen a) (ra_scope a) (ra_ifindex a)),
             (if fam =? AF_INET then [Leaf IFA_LOCAL 0 bs] else []) ++ [Leaf IFA_ADDRESS 0 bs])
  else None.
(** A destination or a gateway; [Some None] when it is left out. *)
Definition endpoint (s : option (list Z)) : option (option (Z * list Z)) := if given s then Some <$> literal s else Some None.
Definition route_family (d g : option (Z * list Z)) : option Z :=
  match d, g with
  | None, None => None
  | Some (f, _), None | None, Some (f, _) => Some f
  | Some (f, _), Some (f', _) => if f =? f' then Some f else None
  end.
Definition unless_zero (v d : Z) : Z := if v =? 0 then d else v.
Definition word_attr (type v : Z) : list tlv_tree := if v =? 0 then [] else [Leaf type 0 (host_bytes 4 v)].
Definition addr_attr (type : Z) (d : option (Z * list Z)) : list tlv_tree := match d with Some (_, bs) => [Leaf type 0 bs] | None => [] end.
(** A route needs a destination or a gateway, of one family, and a prefix within the
    destination, zero without one.  A delete leaves what was not given open; an add takes
    the boot protocol, a unicast type and the scope its gateway implies. *)
Definition route_plan (del : bool) (r : option rtnl_route) : option (list Z * list tlv_tree) :=
  r ← r;
  d ← endpoint (rt_dst r);
  g ← endpoint (rt_gateway r);
  fam ← route_family d g;
  if rt_dstlen r <=? (match d with Some _ => 8 * fam_len fam | None => 0 end)
  then Some (rtmsg_bytes (if del
               then Rtmsg fam (rt_dstlen r) (unless_zero (rt_table r) 254) (rt_protocol r) (unless_zero (rt_scope r) 255) (rt_type r)
               else Rtmsg fam (rt_dstlen r) (unless_zero (rt_table r) 254) (unless_zero (rt_protocol r) 3) (unless_zero (rt_scope r) (match g with Some _ => 0 | None => 253 end)) (unless_zero (rt_type r) 1)),
             addr_attr RTA_DST d ++ addr_attr RTA_GATEWAY g ++ word_attr RTA_OIF (rt_ifindex r) ++ word_attr RTA_PRIORITY (rt_priority r) ++
             if rt_mtu r =? 0 then [] else [Group RTA_METRICS 0 [Leaf RTAX_MTU 0 (host_bytes 4 (rt_mtu r))]])
  else None.
Definition tagged (type flags : Z) (p : option (list Z * list tlv_tree)) : option (Z * Z * list Z * list tlv_tree) := '(fixed, attrs) ← p; Some (type, flags, fixed, attrs).
Definition op_plan (o : op) : option (Z * Z * list Z * list tlv_tree) :=
  match o with
  | AddAddr a => tagged RTM_NEWADDR 1285 (addr_plan a)
  | DelAddr a => tagged RTM_DELADDR 5 (addr_plan a)
  | AddRoute r => tagged RTM_NEWROUTE 1285 (route_plan false r)
  | DelRoute r => tagged RTM_DELROUTE 5 (route_plan true r)
  end.
(** Only route metrics nest; the type number of an interface address attribute differs. *)
Definition op_grouped (o : op) (type : Z) : bool := match o with AddAddr _ | DelAddr _ => false | AddRoute _ | DelRoute _ => type =? RTA_METRICS end.
Definition op_ok (o : op) : Prop :=
  match o with
  | AddAddr (Some a) | DelAddr (Some a) => 0 <= ra_prefixlen a
  | AddRoute (Some r) | DelRoute (Some r) => 0 <= rt_dstlen r
  | _ => True
  end.

(** ** Transactions *)

Definition RTNL_BUF_MAX : Z := 1024.
Definition rtnl_addr_add sent answers s a := with_sock sent answers s (λ seq, rtnl_addr_msg (uninit RTNL_BUF_MAX) RTNL_BUF_MAX seq a).
Definition rtnl_addr_del sent answers s a := with_sock sent answers s (λ seq, rtnl_addr_del_msg (uninit RTNL_BUF_MAX) RTNL_BUF_MAX seq a).
Definition rtnl_route_add sent answers s r := with_sock sent answers s (λ seq, rtnl_route_msg (uninit RTNL_BUF_MAX) RTNL_BUF_MAX seq r).
Definition rtnl_route_del sent answers s r := with_sock sent answers s (λ seq, rtnl_route_del_msg (uninit RTNL_BUF_MAX) RTNL_BUF_MAX seq r).

(** ** The requests *)

Section lay.
Context (buf : mem) (cap seq : Z) (Hcap : 0 <= cap <= mlen buf) (Hbuf : mlen buf < 2147483648).
Lemma family_u8 fam : fam = AF_INET ∨ fam = AF_INET6 → u8 fam = fam ∧ u8 (fam_len fam * 8) = 8 * fam_len fam.
Proof using. by intros [-> | ->]. Qed.
Lemma addr_attns_len fam bs : mlen bs = fam_len fam → fam = AF_INET ∨ fam = AF_INET6 →
  mlen (trees_bytes nla ((if fam =? AF_INET then [Leaf IFA_LOCAL 0 bs] else []) ++ [Leaf IFA_ADDRESS 0 bs])) <= 20.
Proof using.
  intros L [-> | ->]; rewrite trees_bytes_app, mlen_app, !trees_bytes_one, mlen_leaf, L.
  - change (AF_INET =? AF_INET) with true. cbv iota. rewrite trees_bytes_one, mlen_leaf, L. done.
  - done.
Qed.
Lemma addr_build_lays type flags a : lays buf cap seq (λ _, false) (tagged type flags (addr_plan a)) (addr_build buf cap type flags seq a).
Proof using Hcap Hbuf.
  unfold addr_plan, addr_build. destruct a as [a|]; [|by do 2 eexists]. cbn [mbind option_bind]. rewrite addr_pton_literal.
  destruct (ra_addr a) as [s|] eqn:Es; [|by do 2 eexists]. cbn [orb]. destruct (literal (Some s)) as [[fam bs]|] eqn:El.
  2: { destruct (ra_ifindex a =? 0); by do 2 eexists. }
  cbn [mbind option_bind]. destruct (literal_ok _ _ _ El) as (Hf & Hb & L). destruct (family_u8 _ Hf) as [Eu8 E8]. rewrite Eu8, E8, <-L.
  destruct (Z.eqb_spec (ra_ifindex a) 0) as [E0|E0]; [rewrite bool_decide_eq_false_2 by tauto; by do 2 eexists|].
  destruct (Z.ltb_spec (8 * mlen bs) (ra_prefixlen a)); [rewrite bool_decide_eq_false_2 by lia; by do 2 eexists|rewrite bool_decide_eq_true_2 by done]. cbn [tagged mbind option_bind].
  rewrite L. destruct (ifaddrmsg_ok (Ifaddrmsg fam (ra_prefixlen a) (ra_scope a) (ra_ifindex a))) as [Hok Hlen]. apply lays_msg; [done|done| | |done|].
  - intros c w Hc Hw. destruct (wrote_if c (fam =? AF_INET) w [] (Leaf IFA_LOCAL 0 bs) (λ w, r ← tlv_put w nla IFA_LOCAL 0 (splice (zeros 16) 0 bs) (fam_len fam); Ok (fst r)) Hw) as (w1 & E1 & Hw1).
    { intros _. destruct (wrote_addr c Hc w [] IFA_LOCAL _ _ _ Hw El) as (w1 & rc & -> & Hw1). by exists w1. }
    destruct (wrote_addr c Hc w1 _ IFA_ADDRESS _ _ _ Hw1 El) as (w2 & rc & E2 & Hw2). exists w2. split; [|exact Hw2]. intros head nh. rewrite E1. bstep. rewrite E2. by bstep.
  - apply Forall_app. split; [destruct (fam =? AF_INET); [|done]|]; (constructor; [|constructor]); by apply (addr_ok _ _ (Some s) fam).
  - rewrite mlen_request, Hlen. pose proof (addr_attns_len fam bs L Hf). change (align4 (NLMSG_HDRLEN + 8)) with 24. lia.
Qed.

Lemma opt_pton_endpoint s : opt_pton s =
  match endpoint s with
  | None => inl NL_E_INVAL
  | Some None => inr ([], 0)
  | Some (Some (fam, bs)) => inr (splice (zeros 16) 0 bs, fam)
  end.
Proof using. unfold opt_pton, endpoint. destruct (given s); [|done]. rewrite addr_pton_literal. by destruct (literal s) as [[fam bs]|]. Qed.
Lemma given_endpoint s d : endpoint s = Some d → given s = match d with Some _ => true | None => false end.
Proof using. unfold endpoint. destruct (given s); [|by intros [= <-]]. by destruct (literal s); intros [= <-]. Qed.
Lemma endpoint_literal s d : endpoint s = Some (Some d) → literal s = Some d.
Proof using. unfold endpoint. destruct (given s); [|done]. by destruct (literal s); intros [= <-]. Qed.
Lemma route_family_ok sd sg d g fam : endpoint sd = Some d → endpoint sg = Some g → route_family d g = Some fam → fam = AF_INET ∨ fam = AF_INET6.
Proof using.
  intros Hd Hg. destruct d as [[fd bd]|], g as [[fg bg]|]; cbn [route_family]; [destruct (fd =? fg); [|done]| | |done]; intros [= <-];
    (by apply endpoint_literal, literal_ok in Hd as [? _]) || (by apply endpoint_literal, literal_ok in Hg as [? _]).
Qed.

(** The attributes of a route, each put when it is given. *)
Section writes.
Context (c : Z) (Hc : c < 2147483648).
Lemma put_addr_attr w ts type s d raw fam : wrote c w (trees_bytes nla ts) → endpoint s = Some d →
  match d with Some (fam, bs) => (splice (zeros 16) 0 bs, fam) | None => ([], 0) end = (raw, fam) →
  ∃ w', (if given s then x ← tlv_put w nla type 0 raw (fam_len fam); Ok (fst x) else Ok w) = Ok w' ∧ wrote c w' (trees_bytes nla (ts ++ addr_attr type d)).
Proof using Hc.
  intros Hw Hd. rewrite (given_endpoint _ _ Hd). destruct d as [[f bs]|]; [|exists w; by rewrite app_nil_r]. intros [= <- <-].
  destruct (wrote_addr c Hc w ts type _ _ _ Hw (endpoint_literal _ _ Hd)) as (w' & rc & -> & Hw'). by exists w'.
Qed.
Lemma put_word_attr w ts type v : wrote c w (trees_bytes nla ts) →
  ∃ w', (if negb (v =? 0) then x ← tlv_put_u32 w nla type 0 v; Ok (fst x) else Ok w) = Ok w' ∧ wrote c w' (trees_bytes nla (ts ++ word_attr type v)).
Proof using Hc.
  intros Hw. unfold word_attr. destruct (v =? 0); [exists w; by rewrite app_nil_r|]. destruct (wrote_word c Hc w ts type v Hw) as (w' & rc & E & Hw'). exists w'. cbn [negb]. by rewrite E.
Qed.
Lemma put_mtu_attr w ts v : wrote c w (trees_bytes nla ts) →
  ∃ w', (if negb (v =? 0) then
           '(w, nest) ← tlv_begin w nla RTA_METRICS 0;
           x ← tlv_put_u32 w nla RTAX_MTU 0 v;
           y ← tlv_end (fst x) nla nest;
           Ok (fst y)
         else Ok w) = Ok w' ∧ wrote c w' (trees_bytes nla (ts ++ if v =? 0 then [] else [Group RTA_METRICS 0 [Leaf RTAX_MTU 0 (host_bytes 4 v)]])).
Proof using Hc.
  intros Hw. destruct (v =? 0); [exists w; by rewrite app_nil_r|]. destruct (wrote_nest c Hc w _ RTA_METRICS RTAX_MTU v Hw) as (w1 & h & w2 & rc2 & w3 & rc3 & E1 & E2 & E3 & Hw3).
  exists w3. cbn [negb]. rewrite E1. bstep. rewrite E2. bstep. cbn [fst]. rewrite E3. split; [done|]. rewrite trees_snoc. cbn [tree_bytes map concat]. by rewrite app_nil_r.
Qed.
End writes.

Lemma addr_attr_fits type s d : endpoint s = Some d → mlen (trees_bytes nla (addr_attr type d)) <= 20.
Proof using.
  intros Hd. destruct d as [[fam bs]|]; [|done]. apply endpoint_literal, literal_ok in Hd as (Hf & _ & L). cbn [addr_attr]. rewrite trees_bytes_one, mlen_leaf, L.
  by destruct (fam_len_cases _ Hf) as [-> | ->].
Qed.
Lemma word_attr_fits type v : mlen (trees_bytes nla (word_attr type v)) <= 8.
Proof using. unfold word_attr. destruct (v =? 0); [done|]. by rewrite trees_bytes_one, mlen_leaf, mlen_host. Qed.
Lemma mtu_attr_fits v : mlen (trees_bytes nla (if v =? 0 then [] else [Group RTA_METRICS 0 [Leaf RTAX_MTU 0 (host_bytes 4 v)]])) <= 12.
Proof using.
  destruct (v =? 0); [done|]. rewrite trees_bytes_one. change (tree_bytes nla (Group RTA_METRICS 0 [Leaf RTAX_MTU 0 (host_bytes 4 v)])) with
    (tree_bytes nla (Leaf RTA_METRICS 0 (trees_bytes nla [Leaf RTAX_MTU 0 (host_bytes 4 v)]))). by rewrite mlen_leaf, trees_bytes_one, mlen_leaf, mlen_host.
Qed.
Lemma route_attns_ok sd sg d g i p v : endpoint sd = Some d → endpoint sg = Some g →
  Forall (tree_ok nla (λ t, t =? RTA_METRICS)) (addr_attr RTA_DST d ++ addr_attr RTA_GATEWAY g ++ word_attr RTA_OIF i ++ word_attr RTA_PRIORITY p ++
    if v =? 0 then [] else [Group RTA_METRICS 0 [Leaf RTAX_MTU 0 (host_bytes 4 v)]]).
Proof using.
  intros Hd Hg. rewrite !Forall_app. unfold word_attr. split_and!.
  - destruct d as [[fam bs]|]; [|constructor]. apply Forall_singleton. by apply (addr_ok _ _ sd fam), endpoint_literal.
  - destruct g as [[fam bs]|]; [|constructor]. apply Forall_singleton. by apply (addr_ok _ _ sg fam), endpoint_literal.
  - destruct (i =? 0); [constructor|]. apply Forall_singleton. by apply word_leaf_ok.
  - destruct (p =? 0); [constructor|]. apply Forall_singleton. by apply word_leaf_ok.
  - destruct (v =? 0); [constructor|]. apply Forall_singleton. split; [|split; [done|split; [by apply (word_leaf_ok (λ t, t =? RTA_METRICS))|done]]].
    split; [done|]. split; [done|]. by rewrite trees_bytes_one, mlen_leaf, mlen_host.
Qed.

(** The fixed part, from the defaults of the code to those of the plan. *)
Lemma route_msg_plan r del (g : option (Z * list Z)) fam : fam = AF_INET ∨ fam = AF_INET6 →
  route_msg r del (match g with Some _ => true | None => false end) fam =
  if del then Rtmsg fam (rt_dstlen r) (unless_zero (rt_table r) 254) (rt_protocol r) (unless_zero (rt_scope r) 255) (rt_type r)
  else Rtmsg fam (rt_dstlen r) (unless_zero (rt_table r) 254) (unless_zero (rt_protocol r) 3) (unless_zero (rt_scope r) (match g with Some _ => 0 | None => 253 end)) (unless_zero (rt_type r) 1).
Proof using.
  intros Hf. destruct (family_u8 _ Hf) as [Eu _]. unfold route_msg, or_default, unless_zero. rewrite Eu.
  destruct del, g, (Z.eqb_spec (rt_table r) 0), (Z.eqb_spec (rt_protocol r) 0), (Z.eqb_spec (rt_scope r) 0), (Z.eqb_spec (rt_type r) 0); cbn [negb]; f_equal; congruence.
Qed.
Lemma route_guards r d g : 0 <= rt_dstlen r → endpoint (rt_dst r) = Some d → endpoint (rt_gateway r) = Some g →
  let has (x : option (Z * list Z)) := match x with Some _ => true | None => false end in
  let family (x : option (Z * list Z)) := match x with Some (f, _) => f | None => 0 end in
  let fam := if has d then family d else family g in
  let ok := match route_family d g with Some f => rt_dstlen r <=? (match d with Some _ => 8 * fam_len f | None => 0 end) | None => false end in
  (negb (has d) && negb (has g) || has d && has g && negb (family g =? family d) || (u8 (fam_len fam * 8) <? rt_dstlen r) || negb (has d) && negb (rt_dstlen r =? 0)) = negb ok ∧
  (ok = true → route_family d g = Some fam).
Proof using.
  intros H0 Hd Hg. destruct d as [[fd bd]|], g as [[fg bg]|]; cbn [route_family negb andb orb]; [| | |done].
  - apply endpoint_literal, literal_ok in Hd as (Hf & _). destruct (family_u8 _ Hf) as [_ ->]. rewrite (Z.eqb_sym fg). destruct (fd =? fg); cbn [negb andb orb]; [|done]. split; [|done]. lia.
  - apply endpoint_literal, literal_ok in Hd as (Hf & _). destruct (family_u8 _ Hf) as [_ ->]. split; [|done]. lia.
  - apply endpoint_literal, literal_ok in Hg as (Hf & _). destruct (family_u8 _ Hf) as [_ ->]. split; [|done]. destruct (fam_len_cases _ Hf); lia.
Qed.
Lemma chain4 {A} (a b c d : bool) (x y : A) : (if a then x else if b then x else if c then x else if d then x else y) = if a || b || c || d then x else y.
Proof using. by destruct a, b, c, d. Qed.
Lemma route_build_lays type flags r : match r with Some r => 0 <= rt_dstlen r | None => True end →
  lays buf cap seq (λ t, t =? RTA_METRICS) (tagged type flags (route_plan (type =? RTM_DELROUTE) r)) (route_build buf cap type flags seq r).
Proof using Hcap Hbuf.
  intros H0. unfold route_plan, route_build. destruct r as [r|]; [|by do 2 eexists]. cbn [mbind option_bind]. rewrite !opt_pton_endpoint.
  destruct (endpoint (rt_dst r)) as [d|] eqn:Ed; [|by do 2 eexists]. destruct (endpoint (rt_gateway r)) as [g|] eqn:Eg; [|destruct d as [[??]|]; by do 2 eexists]. cbn [mbind option_bind].
  destruct (route_guards r d g H0 Ed Eg) as [Gk Gf]. set (raw x := match x with Some (fam, bs) => (splice (zeros 16) 0 bs, fam) | None => ([], 0) end : list Z * Z).
  assert (Er : ∀ x : option (Z * list Z), match x with Some (fam, bs) => inr (splice (zeros 16) 0 bs, fam) | None => inr ([], 0) end = (inr (raw x) : Z + _)) by (intros [[??]|]; done).
  rewrite !Er. destruct (raw d) as [dst dfam] eqn:Erd, (raw g) as [gw gfam] eqn:Erg. rewrite (given_endpoint _ _ Ed), (given_endpoint _ _ Eg).
  assert (Ed' : (match d with Some (f, _) => f | None => 0 end) = dfam) by (destruct d as [[??]|]; by injection Erd). assert (Eg' : (match g with Some (f, _) => f | None => 0 end) = gfam) by (destruct g as [[??]|]; by injection Erg).
  cbv zeta in Gk, Gf. rewrite Ed', Eg' in Gk. rewrite Ed', Eg' in Gf. set (hd := match d with Some _ => true | None => false end) in *. set (hg := match g with Some _ => true | None => false end) in *.
  set (fam := if hd then dfam else gfam) in *. cbv zeta. set (ok := match route_family d g with Some f => _ | None => false end) in Gk, Gf.
  rewrite (chain4 (negb hd && negb hg)), Gk. destruct ok eqn:Eok; cbn [negb].
  2: { unfold ok in Eok. destruct (route_family d g) as [f|]; cbn [mbind option_bind]; [rewrite Eok|]; by do 2 eexists. }
  unfold ok in Eok. rewrite (Gf eq_refl) in Eok |- *. cbn [mbind option_bind]. rewrite Eok. cbn [tagged mbind option_bind].
  pose proof (route_family_ok _ _ _ _ _ Ed Eg (Gf eq_refl)) as Hf. rewrite (route_msg_plan r _ g fam Hf). set (fixed := if type =? RTM_DELROUTE then _ else _).
  destruct (rtmsg_ok fixed) as [Hok Hlen]. apply lays_msg; [done|done| |exact (route_attns_ok _ _ _ _ _ _ _ Ed Eg)|done|].
  - intros c w Hc Hw. destruct (put_addr_attr c Hc w [] RTA_DST _ _ _ _ Hw Ed Erd) as (w1 & E1 & Hw1). destruct (put_addr_attr c Hc w1 _ RTA_GATEWAY _ _ _ _ Hw1 Eg Erg) as (w2 & E2 & Hw2).
    destruct (put_word_attr c Hc w2 _ RTA_OIF (rt_ifindex r) Hw2) as (w3 & E3 & Hw3). destruct (put_word_attr c Hc w3 _ RTA_PRIORITY (rt_priority r) Hw3) as (w4 & E4 & Hw4).
    destruct (put_mtu_attr c Hc w4 _ (rt_mtu r) Hw4) as (w5 & E5 & Hw5). rewrite <-!app_assoc in Hw5. rewrite (given_endpoint _ _ Ed) in E1. rewrite (given_endpoint _ _ Eg) in E2.
    exists w5. split; [|exact Hw5]. intros head nh. unfold hd, hg. rewrite E1. bstep. rewrite E2. bstep. rewrite E3. bstep. rewrite E4. bstep. rewrite E5. by bstep.
  - rewrite mlen_request, Hlen, !trees_bytes_app, !mlen_app. change (align4 (NLMSG_HDRLEN + 12)) with 28. pose proof (addr_attr_fits RTA_DST _ _ Ed). pose proof (addr_attr_fits RTA_GATEWAY _ _ Eg).
    pose proof (word_attr_fits RTA_OIF (rt_ifindex r)). pose proof (word_attr_fits RTA_PRIORITY (rt_priority r)). pose proof (mtu_attr_fits (rt_mtu r)). lia.
Qed.
End lay.

Lemma op_msg_lays buf cap seq o : 0 <= cap <= mlen buf → mlen buf < 2147483648 → op_ok o → lays buf cap seq (op_grouped o) (op_plan o) (op_msg buf cap seq o).
Proof using.
  intros Hcap Hbuf Ho. destruct o as [a|a|r|r]; [by apply addr_build_lays|by apply addr_build_lays| |]; apply (route_build_lays buf cap seq Hcap Hbuf); by destruct r.
Qed.
(** What the buffer of a transaction has to hold. *)
Lemma rtnl_plan_small o type flags seq fixed attrs : op_plan o = Some (type, flags, fixed, attrs) → mlen (request type flags seq fixed attrs) <= 96.
Proof using.
  assert (Ha : ∀ a, addr_plan a = Some (fixed, attrs) → mlen (request type flags seq fixed attrs) <= 96).
  { intros [a|]; [|done]. unfold addr_plan. cbn [mbind option_bind]. destruct (literal (ra_addr a)) as [[fam bs]|] eqn:El; [|done]. cbn [mbind option_bind]. case_bool_decide; [|done]. intros [= <- <-].
    destruct (literal_ok _ _ _ El) as (Hf & _ & L). pose proof (addr_attns_len fam bs L Hf). rewrite mlen_request, (proj2 (ifaddrmsg_ok _)). change (align4 (NLMSG_HDRLEN + 8)) with 24. lia. }
  assert (Hr : ∀ del r, route_plan del r = Some (fixed, attrs) → mlen (request type flags seq fixed attrs) <= 96).
  { intros del [r|]; [|done]. unfold route_plan. cbn [mbind option_bind]. destruct (endpoint (rt_dst r)) as [d|] eqn:Ed; [|done]. destruct (endpoint (rt_gateway r)) as [g|] eqn:Eg; [|done]. cbn [mbind option_bind].
    destruct (route_family d g); [|done]. cbn [mbind option_bind]. case_match; [|done]. intros [= <- <-]. rewrite mlen_request, (proj2 (rtmsg_ok _)), !trees_bytes_app, !mlen_app. change (align4 (NLMSG_HDRLEN + 12)) with 28.
    pose proof (addr_attr_fits RTA_DST _ _ Ed). pose proof (addr_attr_fits RTA_GATEWAY _ _ Eg). pose proof (word_attr_fits RTA_OIF (rt_ifindex r)). pose proof (word_attr_fits RTA_PRIORITY (rt_priority r)). pose proof (mtu_attr_fits (rt_mtu r)). lia. }
  destruct o as [a|a|r|r]; cbn [op_plan]; [destruct (addr_plan a) as [[f t]|] eqn:E|destruct (addr_plan a) as [[f t]|] eqn:E|destruct (route_plan false r) as [[f t]|] eqn:E|destruct (route_plan true r) as [[f t]|] eqn:E];
    cbn [tagged mbind option_bind]; try done; intros [= <- <- <- <-]; eauto.
Qed.
Lemma lays_small buf cap seq o : 96 <= cap <= mlen buf → mlen buf < 2147483648 → op_ok o →
  ∃ buf' rc, op_msg buf cap seq o = Ok (buf', rc) ∧ match op_plan o with Some _ => 0 <= rc | None => rc = NL_E_INVAL end.
Proof using.
  intros Hcap Hbuf Ho. assert (Hc : 0 <= cap <= mlen buf) by lia. destruct (op_msg_lays buf cap seq o Hc Hbuf Ho) as (buf' & rc & E & H). exists buf', rc. split; [done|].
  destruct (op_plan o) as [[[[type flags] fixed] attrs]|] eqn:Ep; [|done]. destruct H as [H _]. pose proof (rtnl_plan_small o type flags seq fixed attrs Ep). unfold built in H. cbv zeta in H.
  rewrite (proj2 (Z.leb_le _ _)) in H by lia. destruct H as [-> _]. apply mlen_nonneg.
Qed.

(** ** Transactions *)

Definition op_run (sent : bool) (answers : list answer) (s : option nl_sock) (o : op) : res (option (option nl_sock * Z)) :=
  match o with
  | AddAddr a => rtnl_addr_add sent answers s a
  | DelAddr a => rtnl_addr_del sent answers s a
  | AddRoute r => rtnl_route_add sent answers s r
  | DelRoute r => rtnl_route_del sent answers s r
  end.
(** C26: what the four builders of rtnl.c lay down.  For any arguments (lengths are not negative)
    and a buffer of any size a builder returns: the invalid-argument code when the arguments
    make no request (no literal, an interface or a family missing, families that differ, a
    prefix beyond the address), the overflow code when the request does not fit, and
    otherwise its length, with the request at the start of the buffer: header with the
    length filled in, the fixed structure with the defaults of an add or a delete, the
    attributes in order.  The TLV iterator reads the attributes back, metrics nested. *)
Theorem rtnl_requests_exact buf cap seq o : 0 <= cap <= mlen buf → mlen buf < 2147483648 → op_ok o →
  ∃ buf' rc, op_msg buf cap seq o = Ok (buf', rc) ∧
    match op_plan o with
    | None => rc = NL_E_INVAL
    | Some (type, flags, fixed, attrs) =>
        let q := request type flags seq fixed attrs in let base := align4 (NLMSG_HDRLEN + mlen fixed) in
        (if mlen q <=? cap then rc = mlen q ∧ slice buf' 0 rc = q else rc = NL_E_OVERFLOW) ∧
        tree_read nla (op_grouped o) (S (length q)) q (tlv_iter_init nla base (mlen q - base)) = Ok attrs
    end.
Proof using. apply op_msg_lays. Qed.

(** A transaction on an open socket.  Arguments that make no request are refused without
    touching the socket; every request fits the buffer, and the outcome is then that of the
    first conclusive message among the kernel's answers, interrupted reads skipped: done,
    the error it reports, kept in the socket, or a failed read.  The sequence number moves
    on whatever the outcome.  Without a conclusion the call does not return. *)
Theorem rtnl_transaction_verdict sent answers s o : 0 <= ns_fd s → op_ok o →
  op_run sent answers (Some s) o = Ok
    match op_plan o with
    | None => Some (Some s, NL_E_INVAL)
    | Some _ =>
        '(s', rc) ← if sent then verdict s answers else Some (s, NL_E_SYS);
        Some (Some (advance s'), rc)
    end.
Proof using.
  intros Hf Ho. destruct (lays_small (uninit RTNL_BUF_MAX) RTNL_BUF_MAX (ns_seq s) o) as (buf' & rc & E & H); [done|done|done|].
  pose proof (with_sock_verdict sent answers s (λ seq, op_msg (uninit RTNL_BUF_MAX) RTNL_BUF_MAX seq o) buf' rc Hf E) as W.
  assert (Er : op_run sent answers (Some s) o = with_sock sent answers (Some s) (λ seq, op_msg (uninit RTNL_BUF_MAX) RTNL_BUF_MAX seq o)) by (by destruct o). rewrite Er, W.
  destruct (op_plan o); [|by subst rc]. by rewrite (proj2 (Z.ltb_ge _ _)) by lia.
Qed.
End builders.

(** ** Witnesses *)

#[local] Existing Instances little_host two_literals.
#[local] Instance plain_layout : Rtnetlink.
Proof.
  refine {| ifaddrmsg_bytes := λ m, be_bytes 1 (ifa_family m) ++ be_bytes 1 (ifa_prefixlen m) ++ be_bytes 1 0 ++ be_bytes 1 (ifa_scope m) ++ host_bytes 4 (ifa_index m);
            rtmsg_bytes := λ m, be_bytes 1 (rtm_family m) ++ be_bytes 1 (rtm_dst_len m) ++ be_bytes 2 0 ++ be_bytes 1 (rtm_table m) ++ be_bytes 1 (rtm_protocol m) ++
                                be_bytes 1 (rtm_scope m) ++ be_bytes 1 (rtm_type m) ++ be_bytes 4 0 |}.
  - intros m. rewrite !bytes_ok_app, !mlen_app, !mlen_be_bytes, mlen_host. split_and!; try apply be_bytes_ok; [apply host_octets_ok|done].
  - intros m. rewrite !bytes_ok_app, !mlen_app, !mlen_be_bytes. split_and!; try apply be_bytes_ok; done.
Defined.
Definition mtu_route : rtnl_route := RtnlRoute (Some [49; 46; 50]) 24 None 3 1400 0 0 0 0 0.
Lemma rtnl_requests_exact_witness : ∃ buf rc, op_msg (uninit 64) 64 7 (AddRoute (Some mtu_route)) = Ok (buf, rc) ∧ rc = 56 ∧
  slice buf 0 rc = request RTM_NEWROUTE 1285 7 (rtmsg_bytes (Rtmsg 2 24 254 3 253 1))
    [Leaf RTA_DST 0 [1; 0; 0; 2]; Leaf RTA_OIF 0 [3; 0; 0; 0]; Group RTA_METRICS 0 [Leaf RTAX_MTU 0 [120; 5; 0; 0]]].
Proof.
  destruct (rtnl_requests_exact (uninit 64) 64 7 (AddRoute (Some mtu_route))) as (buf & rc & E & [Hb _]); [done|done|done|].
  exists buf, rc. split; [exact E|]. exact Hb.
Defined.
Lemma rtnl_transaction_verdict_witness :
  op_run true [AIntr; AMsgs [(0, 0)]; AMsgs [(NLMSG_ERROR, -17)]] (Some (NlSock 5 41 900 0)) (AddRoute (Some mtu_route)) = Ok (Some (Some (NlSock 5 42 900 17), NL_E_ACK)).
Proof. rewrite (rtnl_transaction_verdict true _ (NlSock 5 41 900 0)) by done. reflexivity. Defined.
End Rtnl.
