(* ===== verification/Xfrm.v ===== *)
(** * Xfrm: security association and policy requests

    Models [nlmsg/xfrm/src/xfrm.c], with the builders and the exchange of Nlmsg.  The layout
    of the kernel's structures is a field of a class; the sizes are those of a 64-bit host.
    A member the kernel declares in network order is the octets it holds.  A key is the
    octets at the pointer, none for NULL. *)

From S2P Require Import Prelude Endian Tlv NetLoop NetTxq Nlmsg.

Module Xfrm.
Import NetTxq Nlmsg.

Definition XFRM_MSG_NEWSA : Z := 16.
Definition XFRM_MSG_DELSA : Z := 17.
Definition XFRM_MSG_NEWPOLICY : Z := 19.
Definition XFRM_MSG_DELPOLICY : Z := 20.
Definition XFRM_MSG_UPDPOLICY : Z := 25.
Definition XFRM_MSG_UPDSA : Z := 26.
Definition XFRM_MSG_FLUSHSA : Z := 28.
Definition XFRM_MSG_FLUSHPOLICY : Z := 29.
Definition XFRMA_ALG_AUTH : Z := 1.
Definition XFRMA_ALG_CRYPT : Z := 2.
Definition XFRMA_ENCAP : Z := 4.
Definition XFRMA_TMPL : Z := 5.
Definition XFRMA_ALG_AEAD : Z := 18.
Definition XFRM_INF : Z := 18446744073709551615.

(** ** The kernel's structures: the members the builders set, the others are zero *)

Record xfrm_lifetime_cfg := Lifetime { soft_byte_limit : Z; hard_byte_limit : Z; soft_packet_limit : Z; hard_packet_limit : Z }.
Record xfrm_selector := Selector {
  sel_daddr : list Z; sel_saddr : list Z; sel_dport : list Z; sel_dport_mask : Z; sel_sport : list Z; sel_sport_mask : Z;
  sel_family : Z; sel_prefixlen_d : Z; sel_prefixlen_s : Z; sel_proto : Z }.
Record xfrm_usersa_info := UsersaInfo {
  ui_daddr : list Z; ui_spi : list Z; ui_proto : Z; ui_saddr : list Z; ui_lft : xfrm_lifetime_cfg; ui_reqid : Z; ui_family : Z;
  ui_mode : Z; ui_replay_window : Z; ui_flags : Z }.
Record xfrm_usersa_id := UsersaId { si_daddr : list Z; si_spi : list Z; si_family : Z; si_proto : Z }.
Record xfrm_userpolicy_info := UserpolicyInfo {
  pi_sel : xfrm_selector; pi_lft : xfrm_lifetime_cfg; pi_priority : Z; pi_index : Z; pi_dir : Z; pi_action : Z }.
Record xfrm_userpolicy_id := UserpolicyId { pd_sel : option xfrm_selector; pd_index : Z; pd_dir : Z }.
Record xfrm_user_tmpl := UserTmpl {
  tm_daddr : list Z; tm_proto : Z; tm_family : Z; tm_saddr : list Z; tm_reqid : Z; tm_mode : Z; tm_algos : Z }.
Record xfrm_encap_tmpl := EncapTmpl { en_type : Z; en_sport : list Z; en_dport : list Z; en_oa : list Z }.
Class XfrmLayout := {
  usersa_info_bytes : xfrm_usersa_info → list Z;
  usersa_info_ok i : bytes_ok (usersa_info_bytes i) ∧ mlen (usersa_info_bytes i) = 224;
  usersa_id_bytes : xfrm_usersa_id → list Z;
  usersa_id_ok i : bytes_ok (usersa_id_bytes i) ∧ mlen (usersa_id_bytes i) = 24;
  userpolicy_info_bytes : xfrm_userpolicy_info → list Z;
  userpolicy_info_ok i : bytes_ok (userpolicy_info_bytes i) ∧ mlen (userpolicy_info_bytes i) = 168;
  userpolicy_id_bytes : xfrm_userpolicy_id → list Z;
  userpolicy_id_ok i : bytes_ok (userpolicy_id_bytes i) ∧ mlen (userpolicy_id_bytes i) = 64;
  user_tmpl_bytes : xfrm_user_tmpl → list Z;
  user_tmpl_ok i : bytes_ok (user_tmpl_bytes i) ∧ mlen (user_tmpl_bytes i) = 64;
  encap_tmpl_bytes : xfrm_encap_tmpl → list Z;
  encap_tmpl_ok i : bytes_ok (encap_tmpl_bytes i) ∧ mlen (encap_tmpl_bytes i) = 24 }.

(** ** The arguments *)

Record xfrm_sa := XfrmSa {
  sa_src : option (list Z); sa_dst : option (list Z); sa_spi : Z; sa_proto : Z; sa_mode : Z; sa_reqid : Z; sa_replay_window : Z; sa_flags : Z;
  sa_enc_alg : option (list Z); sa_enc_key : list Z; sa_enc_key_len : Z;
  sa_auth_alg : option (list Z); sa_auth_key : list Z; sa_auth_key_len : Z;
  sa_aead_alg : option (list Z); sa_aead_key : list Z; sa_aead_key_len : Z; sa_aead_icv_bits : Z;
  sa_encap_sport : Z; sa_encap_dport : Z; sa_encap_oaddr : option (list Z) }.
Record xfrm_sa_id := XfrmSaId { id_dst : option (list Z); id_spi : Z; id_proto : Z }.
Record xfrm_sel_arg := SelArg {
  s_src : option (list Z); s_dst : option (list Z); s_src_prefix : Z; s_dst_prefix : Z; s_proto : Z; s_sport : Z; s_dport : Z }.
(** The selector fields of the two policy arguments are [pol_sel] and [pid_sel]. *)
Record xfrm_policy := XfrmPolicy {
  pol_sel : xfrm_sel_arg; pol_dir : Z; pol_action : Z; pol_priority : Z; pol_index : Z; pol_has_tmpl : bool;
  pol_tmpl_src : option (list Z); pol_tmpl_dst : option (list Z); pol_tmpl_reqid : Z; pol_tmpl_proto : Z; pol_tmpl_mode : Z }.
Record xfrm_policy_id := XfrmPolicyId { pid_sel : xfrm_sel_arg; pid_dir : Z; pid_index : Z }.

Section builders.
Context `{HO : HostOrder} `{NL : Netlink} `{XL : XfrmLayout}.
#[local] Abbreviation nla := TLV_PROF_NETLINK.

(** [struct xfrm_algo] and [struct xfrm_algo_aead]: a name of 64 octets and the lengths in
    bits. *)
Definition ALG_NAME_SIZE : Z := 64.
Definition XFRM_KEY_MAX : Z := 512.
(** [memset], then [strncpy] of at most [ALG_NAME_SIZE - 1] characters. *)
Definition alg_name (name : list Z) : list Z :=
  let s := take (Z.to_nat (ALG_NAME_SIZE - 1)) name in s ++ zeros (ALG_NAME_SIZE - mlen s).
Definition put_algo (w : tlv_wbuf) (attr : Z) (name : list Z) (key : mem) (key_len : Z) : res tlv_wbuf :=
  if XFRM_KEY_MAX <? key_len then Ok (set_overflow w) else
  tmp ← wrn (uninit (68 + XFRM_KEY_MAX)) 0 (alg_name name ++ host_bytes 4 (u32 (key_len * 8)));
  tmp ← (if negb (key_len =? 0) then k ← rdn key 0 key_len; wrn tmp 68 k else Ok tmp);
  r ← tlv_put w nla attr 0 tmp (u32 (68 + key_len));
  Ok (fst r).
Definition put_aead (w : tlv_wbuf) (name : list Z) (key : mem) (key_len icv_bits : Z) : res tlv_wbuf :=
  if XFRM_KEY_MAX <? key_len then Ok (set_overflow w) else
  tmp ← wrn (uninit (72 + XFRM_KEY_MAX)) 0 (alg_name name ++ host_bytes 4 (u32 (key_len * 8)) ++ host_bytes 4 icv_bits);
  tmp ← (if negb (key_len =? 0) then k ← rdn key 0 key_len; wrn tmp 72 k else Ok tmp);
  r ← tlv_put w nla XFRMA_ALG_AEAD 0 tmp (u32 (72 + key_len));
  Ok (fst r).

Definition fill_selector (a : xfrm_sel_arg) : Z + (xfrm_selector * Z) :=
  match addr_pton (s_src a) with
  | inl rc => inl rc
  | inr (saddr, fs) =>
      match addr_pton (s_dst a) with
      | inl rc => inl rc
      | inr (daddr, fd) =>
          if negb (fs =? fd) then inl NL_E_INVAL else
          inr (Selector daddr saddr (be_bytes 2 (s_dport a)) (if negb (s_dport a =? 0) then 65535 else 0)
                 (be_bytes 2 (s_sport a)) (if negb (s_sport a =? 0) then 65535 else 0)
                 fs (s_dst_prefix a) (s_src_prefix a) (s_proto a), fs)
      end
  end.

Definition no_limit : xfrm_lifetime_cfg := Lifetime XFRM_INF XFRM_INF XFRM_INF XFRM_INF.
Definition null (s : option (list Z)) : bool := match s with None => true | Some _ => false end.
Definition put_encap (w : tlv_wbuf) (sa : xfrm_sa) : res tlv_wbuf :=
  let oa := if negb (null (sa_encap_oaddr sa)) then match addr_pton (sa_encap_oaddr sa) with inr (oa, _) => oa | inl _ => zeros 16 end else zeros 16 in
  let enc := encap_tmpl_bytes (EncapTmpl 2 (be_bytes 2 (sa_encap_sport sa)) (be_bytes 2 (sa_encap_dport sa)) oa) in
  r ← tlv_put w nla XFRMA_ENCAP 0 enc (mlen enc);
  Ok (fst r).
(** The attributes of a security association. *)
Definition sa_attrs (w : tlv_wbuf) (sa : xfrm_sa) : res tlv_wbuf :=
  w ← match sa_aead_alg sa with Some name => put_aead w name (sa_aead_key sa) (sa_aead_key_len sa) (sa_aead_icv_bits sa) | None => Ok w end;
  w ← match sa_enc_alg sa with Some name => put_algo w XFRMA_ALG_CRYPT name (sa_enc_key sa) (sa_enc_key_len sa) | None => Ok w end;
  w ← match sa_auth_alg sa with Some name => put_algo w XFRMA_ALG_AUTH name (sa_auth_key sa) (sa_auth_key_len sa) | None => Ok w end;
  if negb (sa_encap_sport sa =? 0) || negb (sa_encap_dport sa =? 0) then put_encap w sa else Ok w.
Definition sa_build (buf : mem) (cap type flags seq : Z) (sa : option xfrm_sa) : res (mem * Z) :=
  match sa with
  | None => Ok (buf, NL_E_INVAL)
  | Some sa =>
      if null (sa_src sa) || null (sa_dst sa) then Ok (buf, NL_E_INVAL) else
      if null (sa_aead_alg sa) && null (sa_enc_alg sa) && null (sa_auth_alg sa) then Ok (buf, NL_E_INVAL) else
      match addr_pton (sa_dst sa) with
      | inl rc => Ok (buf, rc)
      | inr (daddr, fd) =>
          match addr_pton (sa_src sa) with
          | inl rc => Ok (buf, rc)
          | inr (saddr, fs) =>
              if negb (fs =? fd) then Ok (buf, NL_E_INVAL) else
              let info := UsersaInfo daddr (be_bytes 4 (sa_spi sa)) (sa_proto sa) saddr no_limit (sa_reqid sa) fd (sa_mode sa) (sa_replay_window sa) (u8 (sa_flags sa)) in
              b ← msg_begin buf cap type flags seq (usersa_info_bytes info);
              match b with
              | inl rc => Ok (buf, rc)
              | inr (head, nh, w) =>
                  w ← sa_attrs w sa;
                  msg_end head nh w
              end
          end
      end
  end.
Definition xfrm_sa_msg (buf : mem) (cap seq : Z) (sa : option xfrm_sa) : res (mem * Z) :=
  sa_build buf cap XFRM_MSG_NEWSA (Z.lor (Z.lor (Z.lor NLM_F_REQUEST NLM_F_ACK) NLM_F_CREATE) NLM_F_EXCL) seq sa.

(** A request without attributes: [msg_begin], then [msg_end], which passes an error on. *)
Definition plain_msg (buf : mem) (cap type seq : Z) (fixed : list Z) : res (mem * Z) :=
  b ← msg_begin buf cap type (Z.lor NLM_F_REQUEST NLM_F_ACK) seq fixed;
  match b with
  | inl rc => Ok (buf, rc)
  | inr (head, nh, w) => msg_end head nh w
  end.
Definition xfrm_sa_del_msg (buf : mem) (cap seq : Z) (id : option xfrm_sa_id) : res (mem * Z) :=
  match id with
  | None => Ok (buf, NL_E_INVAL)
  | Some id =>
      if null (id_dst id) then Ok (buf, NL_E_INVAL) else
      match addr_pton (id_dst id) with
      | inl rc => Ok (buf, rc)
      | inr (daddr, fam) => plain_msg buf cap XFRM_MSG_DELSA seq (usersa_id_bytes (UsersaId daddr (be_bytes 4 (id_spi id)) fam (id_proto id)))
      end
  end.

(** An endpoint of the template, zero when it is NULL. *)
Definition tmpl_addr (s : option (list Z)) (fam : Z) : Z + (list Z * Z) := if negb (null s) then addr_pton s else inr (zeros 16, fam).
Definition policy_build (buf : mem) (cap type flags seq : Z) (pol : option xfrm_policy) : res (mem * Z) :=
  match pol with
  | None => Ok (buf, NL_E_INVAL)
  | Some pol =>
      if null (s_src (pol_sel pol)) || null (s_dst (pol_sel pol)) then Ok (buf, NL_E_INVAL) else
      match fill_selector (pol_sel pol) with
      | inl rc => Ok (buf, rc)
      | inr (sel, fam) =>
          let info := UserpolicyInfo sel no_limit (pol_priority pol) (pol_index pol) (pol_dir pol) (pol_action pol) in
          b ← msg_begin buf cap type flags seq (userpolicy_info_bytes info);
          match b with
          | inl rc => Ok (buf, rc)
          | inr (head, nh, w) =>
              if pol_has_tmpl pol then
                match tmpl_addr (pol_tmpl_dst pol) fam with
                | inl rc => Ok (head ++ w_buf w, rc)
                | inr (daddr, tf) =>
                    match tmpl_addr (pol_tmpl_src pol) fam with
                    | inl rc => Ok (head ++ w_buf w, rc)
                    | inr (saddr, _) =>
                        let t := user_tmpl_bytes (UserTmpl daddr (pol_tmpl_proto pol) tf saddr (pol_tmpl_reqid pol) (pol_tmpl_mode pol) 4294967295) in
                        r ← tlv_put w nla XFRMA_TMPL 0 t (mlen t);
                        msg_end head nh (fst r)
                    end
                end
              else msg_end head nh w
          end
      end
  end.
Definition xfrm_policy_msg (buf : mem) (cap seq : Z) (pol : option xfrm_policy) : res (mem * Z) :=
  policy_build buf cap XFRM_MSG_NEWPOLICY (Z.lor (Z.lor (Z.lor NLM_F_REQUEST NLM_F_ACK) NLM_F_CREATE) NLM_F_EXCL) seq pol.
Definition xfrm_policy_del_msg (buf : mem) (cap seq : Z) (id : option xfrm_policy_id) : res (mem * Z) :=
  match id with
  | None => Ok (buf, NL_E_INVAL)
  | Some id =>
      match (if negb (pid_index id =? 0) then inr None else match fill_selector (pid_sel id) with inl rc => inl rc | inr (sel, _) => inr (Some sel) end) with
      | inl rc => Ok (buf, rc)
      | inr sel => plain_msg buf cap XFRM_MSG_DELPOLICY seq (userpolicy_id_bytes (UserpolicyId sel (pid_index id) (pid_dir id)))
      end
  end.
Definition xfrm_flush_sa_msg (buf : mem) (cap seq proto : Z) : res (mem * Z) := plain_msg buf cap XFRM_MSG_FLUSHSA seq (be_bytes 1 proto).
Definition xfrm_flush_policy_msg (buf : mem) (cap seq : Z) : res (mem * Z) := plain_msg buf cap XFRM_MSG_FLUSHPOLICY seq [].

(** ** Transactions *)

Definition XFRM_BUF_MAX : Z := 2048.
Definition xfrm_run (sent : bool) (answers : list answer) (s : option nl_sock) (build : mem → Z → Z → res (mem * Z)) : res (option (option nl_sock * Z)) :=
  with_sock sent answers s (build (uninit XFRM_BUF_MAX) XFRM_BUF_MAX).
Definition build_sa_upd (buf : mem) (cap seq : Z) (sa : option xfrm_sa) : res (mem * Z) := sa_build buf cap XFRM_MSG_UPDSA (Z.lor NLM_F_REQUEST NLM_F_ACK) seq sa.
Definition build_pol_upd (buf : mem) (cap seq : Z) (pol : option xfrm_policy) : res (mem * Z) :=
  policy_build buf cap XFRM_MSG_UPDPOLICY (Z.lor NLM_F_REQUEST NLM_F_ACK) seq pol.
Definition xfrm_sa_add sent answers s sa := xfrm_run sent answers s (λ b c q, xfrm_sa_msg b c q sa).
Definition xfrm_sa_update sent answers s sa := xfrm_run sent answers s (λ b c q, build_sa_upd b c q sa).
Definition xfrm_sa_del sent answers s id := xfrm_run sent answers s (λ b c q, xfrm_sa_del_msg b c q id).
Definition xfrm_policy_add sent answers s p := xfrm_run sent answers s (λ b c q, xfrm_policy_msg b c q p).
Definition xfrm_policy_update sent answers s p := xfrm_run sent answers s (λ b c q, build_pol_upd b c q p).
Definition xfrm_policy_del sent answers s id := xfrm_run sent answers s (λ b c q, xfrm_policy_del_msg b c q id).
Definition xfrm_flush_sa sent answers s proto := with_sock sent answers s (λ seq, xfrm_flush_sa_msg (uninit XFRM_BUF_MAX) XFRM_BUF_MAX seq proto).
Definition xfrm_flush_policy sent answers s := with_sock sent answers s (λ seq, xfrm_flush_policy_msg (uninit XFRM_BUF_MAX) XFRM_BUF_MAX seq).

(** ** What is asked of the kernel *)

Inductive op :=
| AddSa (sa : option xfrm_sa) | UpdSa (sa : option xfrm_sa) | DelSa (id : option xfrm_sa_id) | FlushSa (proto : Z)
| AddPol (p : option xfrm_policy) | UpdPol (p : option xfrm_policy) | DelPol (id : option xfrm_policy_id) | FlushPol.
Definition op_msg (buf : mem) (cap seq : Z) (o : op) : res (mem * Z) :=
  match o with
  | AddSa sa => xfrm_sa_msg buf cap seq sa
  | UpdSa sa => build_sa_upd buf cap seq sa
  | DelSa id => xfrm_sa_del_msg buf cap seq id
  | FlushSa proto => xfrm_flush_sa_msg buf cap seq proto
  | AddPol p => xfrm_policy_msg buf cap seq p
  | UpdPol p => build_pol_upd buf cap seq p
  | DelPol id => xfrm_policy_del_msg buf cap seq id
  | FlushPol => xfrm_flush_policy_msg buf cap seq
  end.

(** Bad arguments, bad arguments that are only looked at when the buffer has room for [n]
    octets, a key beyond 512 octets, or a request. *)
Inductive plan := Refuse | RefuseIn (n : Z) | TooLong | Lay (type flags : Z) (fixed : list Z) (attrs : list tlv_tree).

Definition pad16 (bs : list Z) : list Z := bs ++ zeros (16 - mlen bs).
Definition port_mask (port : Z) : Z := if port =? 0 then 0 else 65535.
Definition alg_attr (attr : Z) (alg : option (list Z)) (extra key : list Z) (key_len : Z) : list tlv_tree :=
  match alg with
  | Some name => [Leaf attr 0 (alg_name name ++ host_bytes 4 (8 * key_len) ++ extra ++ slice key 0 key_len)]
  | None => []
  end.
Definition key_fits (alg : option (list Z)) (key_len : Z) : bool := match alg with Some _ => key_len <=? 512 | None => true end.
(** The original address is zero when none, or a bad one, is given. *)
Definition encap_attr (sa : xfrm_sa) : list tlv_tree :=
  if (sa_encap_sport sa =? 0) && (sa_encap_dport sa =? 0) then []
  else [Leaf XFRMA_ENCAP 0 (encap_tmpl_bytes (EncapTmpl 2 (be_bytes 2 (sa_encap_sport sa)) (be_bytes 2 (sa_encap_dport sa))
          (match literal (sa_encap_oaddr sa) with Some (_, bs) => pad16 bs | None => zeros 16 end)))].
Definition keys_fit (sa : xfrm_sa) : bool :=
  key_fits (sa_aead_alg sa) (sa_aead_key_len sa) && key_fits (sa_enc_alg sa) (sa_enc_key_len sa) && key_fits (sa_auth_alg sa) (sa_auth_key_len sa).
Definition sa_trees (sa : xfrm_sa) : list tlv_tree :=
  alg_attr XFRMA_ALG_AEAD (sa_aead_alg sa) (host_bytes 4 (sa_aead_icv_bits sa)) (sa_aead_key sa) (sa_aead_key_len sa) ++
  alg_attr XFRMA_ALG_CRYPT (sa_enc_alg sa) [] (sa_enc_key sa) (sa_enc_key_len sa) ++
  alg_attr XFRMA_ALG_AUTH (sa_auth_alg sa) [] (sa_auth_key sa) (sa_auth_key_len sa) ++ encap_attr sa.
Definition sa_plan (type flags : Z) (sa : option xfrm_sa) : plan :=
  match sa with
  | None => Refuse
  | Some sa =>
      match literal (sa_dst sa), literal (sa_src sa) with
      | Some (fam, daddr), Some (fs, saddr) =>
          if negb (fs =? fam) || null (sa_aead_alg sa) && null (sa_enc_alg sa) && null (sa_auth_alg sa) then Refuse
          else if keys_fit sa
          then Lay type flags
            (usersa_info_bytes (UsersaInfo (pad16 daddr) (be_bytes 4 (sa_spi sa)) (sa_proto sa) (pad16 saddr) no_limit (sa_reqid sa) fam (sa_mode sa) (sa_replay_window sa) (sa_flags sa mod 256)))
            (sa_trees sa)
          else TooLong
      | _, _ => Refuse
      end
  end.
Definition selector_plan (a : xfrm_sel_arg) : option (xfrm_selector * Z) :=
  '(fam, saddr) ← literal (s_src a);
  '(fd, daddr) ← literal (s_dst a);
  if fam =? fd
  then Some (Selector (pad16 daddr) (pad16 saddr) (be_bytes 2 (s_dport a)) (port_mask (s_dport a)) (be_bytes 2 (s_sport a)) (port_mask (s_sport a))
               fam (s_dst_prefix a) (s_src_prefix a) (s_proto a), fam)
  else None.
(** An endpoint of the template with its family, that of the selector when it is left out. *)
Definition tmpl_end (s : option (list Z)) (fam : Z) : option (list Z * Z) :=
  match s with None => Some (zeros 16, fam) | Some s => '(f, bs) ← literal (Some s); Some (pad16 bs, f) end.
Definition policy_plan (type flags : Z) (p : option xfrm_policy) : plan :=
  match p with
  | None => Refuse
  | Some p =>
      match selector_plan (pol_sel p) with
      | None => Refuse
      | Some (sel, fam) =>
          let lay := Lay type flags (userpolicy_info_bytes (UserpolicyInfo sel no_limit (pol_priority p) (pol_index p) (pol_dir p) (pol_action p))) in
          if pol_has_tmpl p then
            match tmpl_end (pol_tmpl_dst p) fam, tmpl_end (pol_tmpl_src p) fam with
            | Some (daddr, tf), Some (saddr, _) =>
                lay [Leaf XFRMA_TMPL 0 (user_tmpl_bytes (UserTmpl daddr (pol_tmpl_proto p) tf saddr (pol_tmpl_reqid p) (pol_tmpl_mode p) 4294967295))]
            | _, _ => RefuseIn 184
            end
          else lay []
      end
  end.
Definition op_plan (o : op) : plan :=
  match o with
  | AddSa sa => sa_plan XFRM_MSG_NEWSA 1541 sa
  | UpdSa sa => sa_plan XFRM_MSG_UPDSA 5 sa
  | DelSa id =>
      match id ≫= λ id, literal (id_dst id), id with
      | Some (fam, daddr), Some id => Lay XFRM_MSG_DELSA 5 (usersa_id_bytes (UsersaId (pad16 daddr) (be_bytes 4 (id_spi id)) fam (id_proto id))) []
      | _, _ => Refuse
      end
  | FlushSa proto => Lay XFRM_MSG_FLUSHSA 5 (be_bytes 1 proto) []
  | AddPol p => policy_plan XFRM_MSG_NEWPOLICY 1541 p
  | UpdPol p => policy_plan XFRM_MSG_UPDPOLICY 5 p
  | DelPol None => Refuse
  | DelPol (Some id) =>
      if pid_index id =? 0 then
        match selector_plan (pid_sel id) with
        | Some (sel, _) => Lay XFRM_MSG_DELPOLICY 5 (userpolicy_id_bytes (UserpolicyId (Some sel) 0 (pid_dir id))) []
        | None => Refuse
        end
      else Lay XFRM_MSG_DELPOLICY 5 (userpolicy_id_bytes (UserpolicyId None (pid_index id) (pid_dir id))) []
  | FlushPol => Lay XFRM_MSG_FLUSHPOLICY 5 [] []
  end.
(** Names and keys are octets and a key is as long as it is said to be. *)
Definition alg_ok (alg : option (list Z)) (key : list Z) (key_len : Z) : Prop :=
  match alg with Some name => bytes_ok name ∧ bytes_ok key ∧ 0 <= key_len <= mlen key | None => True end.
Definition sa_ok (sa : xfrm_sa) : Prop :=
  alg_ok (sa_aead_alg sa) (sa_aead_key sa) (sa_aead_key_len sa) ∧ alg_ok (sa_enc_alg sa) (sa_enc_key sa) (sa_enc_key_len sa) ∧ alg_ok (sa_auth_alg sa) (sa_auth_key sa) (sa_auth_key_len sa).
Definition op_ok (o : op) : Prop := match o with AddSa (Some sa) | UpdSa (Some sa) => sa_ok sa | _ => True end.
(** What a builder returns for a plan. *)
Definition obeys (buf : mem) (cap seq : Z) (p : plan) (r : res (mem * Z)) : Prop :=
  ∃ buf' rc, r = Ok (buf', rc) ∧
    match p with
    | Refuse => rc = NL_E_INVAL
    | RefuseIn n => rc = if cap <? n then NL_E_OVERFLOW else NL_E_INVAL
    | TooLong => rc = NL_E_OVERFLOW
    | Lay type flags fixed attrs =>
        let q := request type flags seq fixed attrs in let base := align4 (NLMSG_HDRLEN + mlen fixed) in
        built cap type flags seq fixed attrs buf' rc ∧
        tree_read nla (λ _, false) (S (length q)) q (tlv_iter_init nla base (mlen q - base)) = Ok attrs
    end.

(** ** The attributes *)

Lemma mlen_alg_name name : mlen (alg_name name) = 64.
Proof using. unfold alg_name, ALG_NAME_SIZE. cbv zeta. assert (mlen (take (Z.to_nat (64 - 1)) name) <= 63) by (unfold mlen; rewrite length_take; lia). rewrite mlen_app, mlen_zeros by lia. lia. Qed.
Lemma alg_name_ok name : bytes_ok name → bytes_ok (alg_name name).
Proof using. intros H. unfold alg_name. cbv zeta. rewrite bytes_ok_app. split; [by apply Forall_take|apply bytes_ok_zeros]. Qed.
Lemma pton_pad16 s fam bs : literal s = Some (fam, bs) → splice (zeros 16) 0 bs = pad16 bs.
Proof using.
  intros H. destruct (literal_ok _ _ _ H) as (Hf & _ & L). rewrite splice_0. unfold pad16, zeros. rewrite drop_replicate. do 2 f_equal. unfold mlen. destruct (fam_len_cases _ Hf); unfold mlen in *; lia.
Qed.
Lemma addr_pton_pad16 s : addr_pton s = match literal s with Some (fam, bs) => inr (pad16 bs, fam) | None => inl NL_E_INVAL end.
Proof using. rewrite addr_pton_literal. destruct (literal s) as [[fam bs]|] eqn:E; [|done]. by rewrite (pton_pad16 _ _ _ E). Qed.
(** The scratch buffer of a key. *)
Lemma key_copied n hd key len : mlen hd = n → 0 <= len <= 512 → len <= mlen key →
  ∃ tmp, (if negb (len =? 0) then k ← rdn key 0 len; wrn (splice (uninit (n + 512)) 0 hd) n k else Ok (splice (uninit (n + 512)) 0 hd)) = Ok tmp ∧
    mlen tmp = n + 512 ∧ slice tmp 0 (n + len) = hd ++ slice key 0 len.
Proof using.
  intros <- Hl Hk. pose proof (mlen_nonneg hd). set (u := uninit (mlen hd + 512)). assert (Lu : mlen u = mlen hd + 512) by (apply mlen_uninit; lia).
  assert (Ls : mlen (splice u 0 hd) = mlen hd + 512) by (rewrite mlen_splice; lia). assert (Lk : mlen (slice key 0 len) = len) by (apply mlen_slice; lia).
  destruct (Z.eqb_spec len 0) as [->|Hn]; cbn [negb].
  - eexists. split; [reflexivity|]. split; [done|]. rewrite Z.add_0_r, slice_splice_same by lia. by rewrite app_nil_r.
  - rewrite rdn_Ok by lia. bstep. rewrite wrn_Ok by lia. eexists. split; [reflexivity|]. split; [rewrite mlen_splice; lia|].
    assert (Ed : splice (splice u 0 hd) (mlen hd) (slice key 0 len) = splice u 0 (hd ++ slice key 0 len)).
    { rewrite !splice_0. unfold splice. rewrite take_app_length' by (unfold mlen; lia). rewrite drop_app_ge by (unfold mlen; lia). rewrite drop_drop, length_app, <-app_assoc. do 3 f_equal. unfold mlen in *. lia. }
    rewrite Ed. apply slice_splice_same; rewrite ?mlen_app; lia.
Qed.
Section writes.
Context (c : Z) (Hc : 0 <= c < 2147483648).
(** What an algorithm puts: its attribute, or more than there is room for. *)
Definition alg_bytes (attr : Z) (alg : option (list Z)) (extra key : list Z) (key_len : Z) : list Z :=
  if key_fits alg key_len then trees_bytes nla (alg_attr attr alg extra key key_len) else zeros (c + 1).
Lemma wrote_too_long w bs : wrote c w bs → wrote c (set_overflow w) (bs ++ zeros (c + 1)).
Proof using Hc. intros (Hw & Hcw & _). split; [done|]. split; [done|]. cbn [w_overflow set_overflow]. rewrite mlen_app, mlen_zeros by lia. pose proof (mlen_nonneg bs). lia. Qed.
Lemma key_wrote n hd w bs attr key len : wrote c w bs → mlen hd = n → n <= 72 → 0 <= len <= 512 → len <= mlen key →
  ∃ w', (tmp ← wrn (uninit (n + 512)) 0 hd;
         tmp ← (if negb (len =? 0) then k ← rdn key 0 len; wrn tmp n k else Ok tmp);
         r ← tlv_put w nla attr 0 tmp (u32 (n + len));
         Ok (fst r)) = Ok w' ∧ wrote c w' (bs ++ trees_bytes nla [Leaf attr 0 (hd ++ slice key 0 len)]).
Proof using Hc.
  intros Hw Lh Hn Hl Hk. pose proof (mlen_nonneg hd). rewrite wrn_Ok by (rewrite ?mlen_uninit; lia). bstep.
  destruct (key_copied n hd key len Lh Hl Hk) as (tmp & Et & Lt & Es). rewrite Et. bstep. rewrite u32_small by lia. rewrite tlv_put_take, Es by lia.
  set (val := hd ++ _). assert (Lv : mlen val = n + len) by (unfold val; rewrite mlen_app, mlen_slice by lia; lia). rewrite <-Lv.
  destruct (wrote_fits c ltac:(lia) w bs val attr Hw) as (w' & rc & E & Hw'); [unfold len_fits, len_field; cbn; lia|]. rewrite E. exists w'. split; [done|]. by rewrite trees_bytes_one.
Qed.
Lemma put_algo_wrote w bs attr alg key key_len : wrote c w bs → alg_ok alg key key_len →
  ∃ w', match alg with Some name => put_algo w attr name key key_len | None => Ok w end = Ok w' ∧ wrote c w' (bs ++ alg_bytes attr alg [] key key_len).
Proof using Hc.
  intros Hw Ho. destruct alg as [name|]; [|exists w; by rewrite app_nil_r]. destruct Ho as (_ & _ & Hk). unfold put_algo, alg_bytes, XFRM_KEY_MAX. cbn [key_fits].
  destruct (Z.ltb_spec 512 key_len); [rewrite (proj2 (Z.leb_gt _ _)) by lia; eexists; split; [reflexivity|by apply wrote_too_long]|]. rewrite (proj2 (Z.leb_le _ _)) by lia.
  rewrite (u32_small (key_len * 8)), (Z.mul_comm key_len) by lia. cbn [alg_attr app]. rewrite app_assoc. apply (key_wrote 68); [done| |lia|lia|lia]. by rewrite mlen_app, mlen_alg_name, mlen_host.
Qed.
Lemma put_aead_wrote w bs alg key key_len icv : wrote c w bs → alg_ok alg key key_len →
  ∃ w', match alg with Some name => put_aead w name key key_len icv | None => Ok w end = Ok w' ∧ wrote c w' (bs ++ alg_bytes XFRMA_ALG_AEAD alg (host_bytes 4 icv) key key_len).
Proof using Hc.
  intros Hw Ho. destruct alg as [name|]; [|exists w; by rewrite app_nil_r]. destruct Ho as (_ & _ & Hk). unfold put_aead, alg_bytes, XFRM_KEY_MAX. cbn [key_fits].
  destruct (Z.ltb_spec 512 key_len); [rewrite (proj2 (Z.leb_gt _ _)) by lia; eexists; split; [reflexivity|by apply wrote_too_long]|]. rewrite (proj2 (Z.leb_le _ _)) by lia.
  rewrite (u32_small (key_len * 8)), (Z.mul_comm key_len) by lia. cbn [alg_attr]. rewrite (app_assoc (host_bytes 4 _) _ (slice _ _ _)), (app_assoc (alg_name name) _ (slice _ _ _)).
  apply (key_wrote 72); [done| |lia|lia|lia]. by rewrite !mlen_app, mlen_alg_name, !mlen_host.
Qed.
Lemma put_encap_wrote w bs sa : wrote c w bs →
  ∃ w', (if negb (sa_encap_sport sa =? 0) || negb (sa_encap_dport sa =? 0) then put_encap w sa else Ok w) = Ok w' ∧ wrote c w' (bs ++ trees_bytes nla (encap_attr sa)).
Proof using Hc.
  intros Hw. unfold encap_attr. rewrite <-negb_andb. destruct ((_ =? 0) && _); cbn [negb]; [exists w; by rewrite app_nil_r|]. unfold put_encap. cbv zeta.
  set (oa := if negb (null _) then _ else _). assert (Eo : oa = match literal (sa_encap_oaddr sa) with Some (_, b) => pad16 b | None => zeros 16 end).
  { unfold oa. rewrite addr_pton_pad16. destruct (sa_encap_oaddr sa) as [s|]; [|done]. cbn [null negb]. by destruct (literal (Some s)) as [[??]|]. }
  rewrite Eo. set (enc := encap_tmpl_bytes _). destruct (encap_tmpl_ok (EncapTmpl 2 (be_bytes 2 (sa_encap_sport sa)) (be_bytes 2 (sa_encap_dport sa)) oa)) as [_ L]. rewrite Eo in L. fold enc in L.
  destruct (wrote_fits c ltac:(lia) w bs enc XFRMA_ENCAP Hw) as (w' & rc & E & Hw'); [unfold len_fits, len_field; cbn; lia|]. rewrite E. exists w'. split; [done|]. by rewrite trees_bytes_one.
Qed.
Definition sa_bytes (sa : xfrm_sa) : list Z :=
  alg_bytes XFRMA_ALG_AEAD (sa_aead_alg sa) (host_bytes 4 (sa_aead_icv_bits sa)) (sa_aead_key sa) (sa_aead_key_len sa) ++
  alg_bytes XFRMA_ALG_CRYPT (sa_enc_alg sa) [] (sa_enc_key sa) (sa_enc_key_len sa) ++
  alg_bytes XFRMA_ALG_AUTH (sa_auth_alg sa) [] (sa_auth_key sa) (sa_auth_key_len sa) ++ trees_bytes nla (encap_attr sa).
Lemma sa_attrs_wrote w sa : wrote c w [] → sa_ok sa → ∃ w', sa_attrs w sa = Ok w' ∧ wrote c w' (sa_bytes sa).
Proof using Hc.
  intros Hw (Ha & He & Hu). destruct (put_aead_wrote w [] _ _ _ (sa_aead_icv_bits sa) Hw Ha) as (w1 & E1 & Hw1). destruct (put_algo_wrote w1 _ XFRMA_ALG_CRYPT _ _ _ Hw1 He) as (w2 & E2 & Hw2).
  destruct (put_algo_wrote w2 _ XFRMA_ALG_AUTH _ _ _ Hw2 Hu) as (w3 & E3 & Hw3). destruct (put_encap_wrote w3 _ sa Hw3) as (w4 & E4 & Hw4). rewrite <-!app_assoc in Hw4.
  exists w4. split; [|exact Hw4]. unfold sa_attrs. rewrite E1. bstep. rewrite E2. bstep. rewrite E3. bstep. exact E4.
Qed.
Lemma sa_bytes_fit sa : keys_fit sa = true → sa_bytes sa = trees_bytes nla (sa_trees sa).
Proof using.
  unfold keys_fit, sa_bytes, sa_trees, alg_bytes. rewrite !andb_true_iff. intros [[-> ->] ->]. by rewrite !trees_bytes_app.
Qed.
Lemma sa_bytes_long sa : keys_fit sa = false → c < mlen (sa_bytes sa).
Proof using Hc.
  unfold keys_fit, sa_bytes, alg_bytes. intros Hf. assert (Lz : mlen (zeros (c + 1)) = c + 1) by (apply mlen_zeros; lia). rewrite !mlen_app.
  set (a := trees_bytes nla (alg_attr XFRMA_ALG_AEAD _ _ _ _)). set (b := trees_bytes nla (alg_attr XFRMA_ALG_CRYPT _ _ _ _)). set (d := trees_bytes nla (alg_attr XFRMA_ALG_AUTH _ _ _ _)). set (e := trees_bytes nla (encap_attr sa)).
  pose proof (mlen_nonneg a). pose proof (mlen_nonneg b). pose proof (mlen_nonneg d). pose proof (mlen_nonneg e). repeat case_match; try done; lia.
Qed.
End writes.

Lemma alg_attr_ok attr alg extra key key_len : 0 <= attr < 65536 → bytes_ok extra → mlen extra <= 4 → alg_ok alg key key_len → key_fits alg key_len = true →
  Forall (tree_ok nla (λ _, false)) (alg_attr attr alg extra key key_len) ∧ mlen (trees_bytes nla (alg_attr attr alg extra key key_len)) <= 588.
Proof using.
  intros Ha Hb Hl Ho Hf. pose proof (mlen_nonneg extra). destruct alg as [name|]; [|split; [constructor|unfold trees_bytes; cbn [alg_attr map concat]; rewrite mlen_nil; lia]]. destruct Ho as (Hn & Hk & Hlen). cbn [key_fits] in Hf. cbn [alg_attr].
  set (val := alg_name name ++ _). assert (Lv : mlen val = 68 + mlen extra + key_len) by (unfold val; rewrite !mlen_app, mlen_alg_name, mlen_host, mlen_slice by lia; lia).
  rewrite trees_bytes_one, mlen_leaf, Forall_singleton. pose proof (align4_spec (4 + mlen val)). split; [|Z.to_euclidean_division_equations; lia].
  apply leaf_ok; [done|done| |lia]. unfold val. rewrite !bytes_ok_app. split_and!; [by apply alg_name_ok|apply host_octets_ok|done|]. by apply bytes_ok_slice.
Qed.
Lemma encap_attr_ok sa : Forall (tree_ok nla (λ _, false)) (encap_attr sa) ∧ mlen (trees_bytes nla (encap_attr sa)) <= 28.
Proof using.
  unfold encap_attr. destruct ((_ =? 0) && _); [done|]. set (e := EncapTmpl _ _ _ _). destruct (encap_tmpl_ok e) as [Hb Hl]. rewrite trees_bytes_one, mlen_leaf, Forall_singleton, Hl. split; [|done].
  apply leaf_ok; [done|done|done|lia].
Qed.

Lemma sa_trees_ok sa : sa_ok sa → keys_fit sa = true → Forall (tree_ok nla (λ _, false)) (sa_trees sa) ∧ mlen (trees_bytes nla (sa_trees sa)) <= 1792.
Proof using.
  intros (Ha & He & Hu) Hk. unfold keys_fit in Hk. rewrite !andb_true_iff in Hk. destruct Hk as [[Ka Ke] Ku]. unfold sa_trees. destruct (encap_attr_ok sa) as [H4 L4].
  destruct (alg_attr_ok XFRMA_ALG_AEAD _ (host_bytes 4 (sa_aead_icv_bits sa)) _ _ ltac:(done) (host_octets_ok _ _) ltac:(by rewrite mlen_host) Ha Ka) as [H1 L1].
  destruct (alg_attr_ok XFRMA_ALG_CRYPT _ [] _ _ ltac:(done) bytes_ok_nil ltac:(done) He Ke) as [H2 L2]. destruct (alg_attr_ok XFRMA_ALG_AUTH _ [] _ _ ltac:(done) bytes_ok_nil ltac:(done) Hu Ku) as [H3 L3].
  rewrite !Forall_app, !trees_bytes_app, !mlen_app. split; [done|lia].
Qed.

(** ** The builders *)

Section lay.
Context (buf : mem) (cap seq : Z) (Hcap : 0 <= cap <= mlen buf) (Hbuf : mlen buf < 2147483648).
Lemma obeys_refuse : obeys buf cap seq Refuse (Ok (buf, NL_E_INVAL)).
Proof using. by do 2 eexists. Qed.
Lemma obeys_lays type flags fixed attrs r : lays buf cap seq (λ _, false) (Some (type, flags, fixed, attrs)) r → obeys buf cap seq (Lay type flags fixed attrs) r.
Proof using. done. Qed.
Lemma plain_obeys type fixed : bytes_ok fixed → mlen fixed <= 1000 → obeys buf cap seq (Lay type 5 fixed []) (plain_msg buf cap type seq fixed).
Proof using Hcap Hbuf.
  intros Hb Hl. apply obeys_lays. unfold plain_msg. change (Z.lor NLM_F_REQUEST NLM_F_ACK) with 5. apply (lays_msg buf cap seq _ Hcap Hbuf type 5 fixed [] (λ head nh w, msg_end head nh w)); [|done|done|].
  - intros c w _ Hw. by exists w.
  - rewrite mlen_request. pose proof (align4_range (NLMSG_HDRLEN + mlen fixed)) as Ha. unfold NLMSG_HDRLEN in *. change (mlen (trees_bytes nla [])) with 0. lia.
Qed.
Lemma sa_obeys type flags sa : match sa with Some sa => sa_ok sa | None => True end → obeys buf cap seq (sa_plan type flags sa) (sa_build buf cap type flags seq sa).
Proof using Hcap Hbuf.
  intros Ho. unfold sa_plan, sa_build. destruct sa as [sa|]; [|apply obeys_refuse]. rewrite !addr_pton_pad16. destruct (literal (sa_dst sa)) as [[fam daddr]|] eqn:Ed.
  2: { repeat (case_match; try apply obeys_refuse). }
  destruct (literal (sa_src sa)) as [[fs saddr]|] eqn:Es; [|repeat (case_match; try apply obeys_refuse)].
  destruct (sa_dst sa) as [sd|]; [|done]. destruct (sa_src sa) as [ss|]; [|done]. cbn [null orb]. destruct (null _ && null _ && null _); [rewrite orb_true_r; apply obeys_refuse|]. rewrite orb_false_r.
  destruct (negb (fs =? fam)); [apply obeys_refuse|]. cbv zeta. change (u8 (sa_flags sa)) with (sa_flags sa mod 256). set (info := UsersaInfo _ _ _ _ _ _ _ _ _ _). destruct (usersa_info_ok info) as [Hi Li].
  destruct (keys_fit sa) eqn:Ek.
  - destruct (sa_trees_ok sa Ho Ek) as [Hok Hl]. apply obeys_lays, (lays_msg buf cap seq _ Hcap Hbuf _ _ _ _ (λ head nh w, w ← sa_attrs w sa; msg_end head nh w)); [|done|done|].
    + intros c w Hc Hw. assert (Hc0 : 0 <= c < 2147483648) by (destruct Hw as ([? _] & <- & _); lia). destruct (sa_attrs_wrote c Hc0 w sa Hw Ho) as (w' & E & Hw'). rewrite (sa_bytes_fit c sa Ek) in Hw'.
      exists w'. split; [|done]. intros head nh. rewrite E. by bstep.
    + rewrite mlen_request, Li. change (align4 (NLMSG_HDRLEN + 224)) with 240. lia.
  - destruct (overflow_msg buf cap seq Hcap Hbuf type flags (usersa_info_bytes info) (λ head nh w, w ← sa_attrs w sa; msg_end head nh w)) as [buf' E]; [|rewrite E; by do 2 eexists].
    intros c w Hc Hw. destruct (sa_attrs_wrote c Hc w sa Hw Ho) as (w' & E & Hw'). exists w', (sa_bytes c sa). split; [intros head nh; rewrite E; by bstep|]. split; [done|]. by apply sa_bytes_long.
Qed.
Lemma fill_selector_plan a : fill_selector a = match selector_plan a with Some r => inr r | None => inl NL_E_INVAL end.
Proof using.
  unfold fill_selector, selector_plan, port_mask. rewrite !addr_pton_pad16. destruct (literal (s_src a)) as [[fs saddr]|]; [|done]. cbn [mbind option_bind]. destruct (literal (s_dst a)) as [[fd daddr]|]; [|done].
  cbn [mbind option_bind]. destruct (fs =? fd); [|done]. cbn [negb]. do 2 f_equal. by destruct (s_dport a =? 0), (s_sport a =? 0).
Qed.
Lemma selector_not_null a : selector_plan a = None ∨ null (s_src a) || null (s_dst a) = false.
Proof using. unfold selector_plan. destruct (s_src a) as [x|]; [|by left]. destruct (s_dst a) as [y|]; [by right|]. left. by destruct (literal (Some x)) as [[??]|]. Qed.
Lemma tmpl_addr_end s fam : tmpl_addr s fam = match tmpl_end s fam with Some r => inr r | None => inl NL_E_INVAL end.
Proof using. unfold tmpl_addr, tmpl_end. destruct s as [s|]; [|done]. cbn [null negb]. rewrite addr_pton_pad16. by destruct (literal (Some s)) as [[??]|]. Qed.
Lemma tmpl_ok t : tree_ok nla (λ _, false) (Leaf XFRMA_TMPL 0 (user_tmpl_bytes t)) ∧ mlen (trees_bytes nla [Leaf XFRMA_TMPL 0 (user_tmpl_bytes t)]) = 68.
Proof using. destruct (user_tmpl_ok t) as [Hb Hl]. split; [apply leaf_ok; [done|done|done|lia]|]. by rewrite trees_bytes_one, mlen_leaf, Hl. Qed.
(** A template that is refused, once the fixed part has found room. *)
Lemma refuse_in type flags fixed : mlen fixed = 168 →
  obeys buf cap seq (RefuseIn 184) (b ← msg_begin buf cap type flags seq fixed;
    match b with
    | inl rc => Ok (buf, rc)
    | inr (head, nh, w) => Ok (head ++ w_buf w, NL_E_INVAL)
    end).
Proof using Hcap Hbuf.
  intros L. pose proof (msg_begin_spec buf cap type flags seq fixed Hcap Hbuf) as Hb. cbv zeta in Hb. rewrite L in Hb. change (align4 (NLMSG_HDRLEN + 168)) with 184 in Hb. unfold obeys.
  destruct (cap <? 184); [rewrite Hb; by do 2 eexists|]. destruct Hb as (head & w & E & _). rewrite E. by do 2 eexists.
Qed.
Lemma policy_obeys type flags p : obeys buf cap seq (policy_plan type flags p) (policy_build buf cap type flags seq p).
Proof using Hcap Hbuf.
  unfold policy_plan, policy_build. destruct p as [p|]; [|apply obeys_refuse]. rewrite fill_selector_plan. destruct (selector_not_null (pol_sel p)) as [-> | ->]; [by case_match; apply obeys_refuse|].
  destruct (selector_plan (pol_sel p)) as [[sel fam]|]; [|apply obeys_refuse]. cbv zeta. set (info := UserpolicyInfo _ _ _ _ _ _). destruct (userpolicy_info_ok info) as [Hi Li].
  assert (Lr : ∀ attrs, mlen (trees_bytes nla attrs) <= 68 → mlen (request type flags seq (userpolicy_info_bytes info) attrs) < 2147483648) by (intros attrs ?; rewrite mlen_request, Li; change (align4 (NLMSG_HDRLEN + 168)) with 184; lia).
  destruct (pol_has_tmpl p).
  2: { apply obeys_lays, (lays_msg buf cap seq _ Hcap Hbuf _ _ _ _ (λ head nh w, msg_end head nh w)); [|done|done|by apply Lr]. intros c w _ Hw. by exists w. }
  rewrite !tmpl_addr_end. destruct (tmpl_end (pol_tmpl_dst p) fam) as [[daddr tf]|]; [|by apply refuse_in]. destruct (tmpl_end (pol_tmpl_src p) fam) as [[saddr sf]|]; [|by apply refuse_in].
  set (t := UserTmpl _ _ _ _ _ _ _). destruct (tmpl_ok t) as [Ht Lt]. pose proof (user_tmpl_ok t) as [_ L64].
  apply obeys_lays, (lays_msg buf cap seq _ Hcap Hbuf _ _ _ _ (λ head nh w, r ← tlv_put w nla XFRMA_TMPL 0 (user_tmpl_bytes t) (mlen (user_tmpl_bytes t)); msg_end head nh (fst r)));
    [|by apply Forall_singleton|done|apply Lr; lia].
  intros c w Hc Hw. destruct (wrote_leaf c Hc w [] XFRMA_TMPL (user_tmpl_bytes t) Hw) as (w' & rc & E & Hw'); [by rewrite L64|]. exists w'. split; [|exact Hw']. intros head nh. rewrite E. by bstep.
Qed.
Lemma op_msg_obeys o : op_ok o → obeys buf cap seq (op_plan o) (op_msg buf cap seq o).
Proof using Hcap Hbuf.
  intros Ho. destruct o as [sa|sa|id|proto|p|p|id|]; cbn [op_plan op_msg].
  - apply (sa_obeys XFRM_MSG_NEWSA 1541). by destruct sa.
  - apply (sa_obeys XFRM_MSG_UPDSA 5). by destruct sa.
  - unfold xfrm_sa_del_msg. destruct id as [id|]; [|apply obeys_refuse]. cbn [mbind option_bind]. rewrite addr_pton_pad16. destruct (literal (id_dst id)) as [[fam daddr]|] eqn:E; [|case_match; apply obeys_refuse].
    destruct (id_dst id) as [s|]; [|done]. cbn [null]. destruct (usersa_id_ok (UsersaId (pad16 daddr) (be_bytes 4 (id_spi id)) fam (id_proto id))). apply plain_obeys; [done|lia].
  - apply plain_obeys; [apply be_bytes_ok|]. by rewrite mlen_be_bytes.
  - apply (policy_obeys XFRM_MSG_NEWPOLICY 1541).
  - apply (policy_obeys XFRM_MSG_UPDPOLICY 5).
  - unfold xfrm_policy_del_msg. destruct id as [id|]; [|apply obeys_refuse]. rewrite fill_selector_plan. destruct (Z.eqb_spec (pid_index id) 0) as [E|E]; cbn [negb].
    + destruct (selector_plan (pid_sel id)) as [[sel fam]|]; [|apply obeys_refuse]. rewrite E. destruct (userpolicy_id_ok (UserpolicyId (Some sel) 0 (pid_dir id))). apply plain_obeys; [done|lia].
    + destruct (userpolicy_id_ok (UserpolicyId None (pid_index id) (pid_dir id))). apply plain_obeys; [done|lia].
  - apply plain_obeys; [constructor|by rewrite mlen_nil].
Qed.
End lay.

(** Every request fits the buffer of a transaction. *)
Lemma xfrm_plan_small o type flags seq fixed attrs : op_ok o → op_plan o = Lay type flags fixed attrs → mlen (request type flags seq fixed attrs) <= XFRM_BUF_MAX.
Proof using.
  assert (Hl : ∀ f, mlen f <= 64 → mlen (request type flags seq f []) <= XFRM_BUF_MAX).
  { intros f Hf. rewrite mlen_request. pose proof (align4_range (NLMSG_HDRLEN + mlen f)) as Ha. unfold NLMSG_HDRLEN, XFRM_BUF_MAX in *. change (mlen (trees_bytes nla [])) with 0. lia. }
  assert (Hs : ∀ t f sa, match sa with Some sa => sa_ok sa | None => True end → sa_plan t f sa = Lay type flags fixed attrs → mlen (request type flags seq fixed attrs) <= XFRM_BUF_MAX).
  { intros t f [sa|] Ho; [|done]. unfold sa_plan. repeat (case_match; try done). intros [= <- <- <- <-]. destruct (sa_trees_ok sa Ho) as [_ L]; [done|].
    rewrite mlen_request, (proj2 (usersa_info_ok _)). change (align4 (NLMSG_HDRLEN + 224)) with 240. unfold XFRM_BUF_MAX. lia. }
  assert (Hp : ∀ t f p, policy_plan t f p = Lay type flags fixed attrs → mlen (request type flags seq fixed attrs) <= XFRM_BUF_MAX).
  { intros t f [p|]; [|done]. unfold policy_plan. repeat (case_match; try done); intros [= <- <- <- <-]; rewrite mlen_request, (proj2 (userpolicy_info_ok _)), ?(proj2 (tmpl_ok _)); done. }
  destruct o as [sa|sa|id|proto|p|p|id|]; cbn [op_plan op_ok]; intros Ho; [by apply Hs; destruct sa|by apply Hs; destruct sa| | |apply Hp|apply Hp| |].
  - repeat (case_match; try done). intros [= <- <- <- <-]. apply Hl. rewrite (proj2 (usersa_id_ok _)). lia.
  - intros [= <- <- <- <-]. apply Hl. done.
  - repeat (case_match; try done); intros [= <- <- <- <-]; apply Hl; rewrite (proj2 (userpolicy_id_ok _)); lia.
  - intros [= <- <- <- <-]. by apply Hl.
Qed.
Definition op_run (sent : bool) (answers : list answer) (s : option nl_sock) (o : op) : res (option (option nl_sock * Z)) :=
  match o with
  | AddSa sa => xfrm_sa_add sent answers s sa
  | UpdSa sa => xfrm_sa_update sent answers s sa
  | DelSa id => xfrm_sa_del sent answers s id
  | FlushSa proto => xfrm_flush_sa sent answers s proto
  | AddPol p => xfrm_policy_add sent answers s p
  | UpdPol p => xfrm_policy_update sent answers s p
  | DelPol id => xfrm_policy_del sent answers s id
  | FlushPol => xfrm_flush_policy sent answers s
  end.

(** C25: what the eight builders of xfrm.c lay down.  For any arguments whose keys are as long as
    they are said to be, and a buffer of any size, a builder returns one of three.  The
    invalid-argument code, when an end of the association or selector is missing or no
    literal, when the two are of different families, when an association has no algorithm,
    or when an end given for the template is no literal (that one only once the fixed part
    has found room).  The overflow code, when a key has more than 512 octets or the request
    does not fit.  Otherwise the length, with the request at the start of the buffer: header,
    fixed structure with addresses, selector, port masks and unlimited lifetimes, and the
    attributes in order, which the TLV iterator reads back: algorithm names cut to 63
    octets, key lengths in bits, keys.  Two addresses are not refused though one would expect
    it: an original address of the UDP encapsulation that is no literal is laid down as
    zeros, and the ends of a template may be of different families, the family written being
    that of the destination. *)
Theorem xfrm_requests_exact buf cap seq o : 0 <= cap <= mlen buf → mlen buf < 2147483648 → op_ok o →
  ∃ buf' rc, op_msg buf cap seq o = Ok (buf', rc) ∧
    match op_plan o with
    | Refuse => rc = NL_E_INVAL
    | RefuseIn n => rc = if cap <? n then NL_E_OVERFLOW else NL_E_INVAL
    | TooLong => rc = NL_E_OVERFLOW
    | Lay type flags fixed attrs =>
        let q := request type flags seq fixed attrs in let base := align4 (NLMSG_HDRLEN + mlen fixed) in
        (if mlen q <=? cap then rc = mlen q ∧ slice buf' 0 rc = q else rc = NL_E_OVERFLOW) ∧
        tree_read nla (λ _, false) (S (length q)) q (tlv_iter_init nla base (mlen q - base)) = Ok attrs
    end.
Proof using. intros. by apply op_msg_obeys. Qed.

(** A transaction on an open socket: refused arguments leave the socket alone; every request
    fits the buffer, its outcome is that of the kernel's first conclusive message and the
    sequence number moves on. *)
Theorem xfrm_transaction_verdict sent answers s o : 0 <= ns_fd s → op_ok o →
  op_run sent answers (Some s) o = Ok
    match op_plan o with
    | Refuse | RefuseIn _ => Some (Some s, NL_E_INVAL)
    | TooLong => Some (Some s, NL_E_OVERFLOW)
    | Lay _ _ _ _ => '(s', rc) ← if sent then verdict s answers else Some (s, NL_E_SYS); Some (Some (advance s'), rc)
    end.
Proof using.
  intros Hf Ho. destruct (op_msg_obeys (uninit XFRM_BUF_MAX) XFRM_BUF_MAX (ns_seq s)) with (o := o) as (buf & rc & E & H); [done|done|done|].
  pose proof (with_sock_verdict sent answers s (λ seq, op_msg (uninit XFRM_BUF_MAX) XFRM_BUF_MAX seq o) buf rc Hf E) as W.
  assert (Er : op_run sent answers (Some s) o = with_sock sent answers (Some s) (λ seq, op_msg (uninit XFRM_BUF_MAX) XFRM_BUF_MAX seq o)) by (by destruct o). rewrite Er, W. clear Er W.
  destruct (op_plan o) as [|n| |type flags fixed attrs] eqn:Ep; [by rewrite H| |by rewrite H|].
  - assert (n = 184) as -> by (clear -Ep; destruct o; cbn [op_plan] in Ep; unfold sa_plan, policy_plan in Ep; repeat (case_match; try done); congruence). by rewrite H.
  - destruct H as [H _]. unfold built in H. cbv zeta in H. rewrite (proj2 (Z.leb_le _ _)) in H by (by apply (xfrm_plan_small o)). destruct H as [-> _].
    pose proof (mlen_nonneg (request type flags (ns_seq s) fixed attrs)). by rewrite (proj2 (Z.ltb_ge _ _)) by lia.
Qed.

(** An original address that is no literal is not refused: the request carries zeros. *)
Theorem xfrm_encap_oaddr_ignored buf cap seq sa s : literal (Some s) = None → sa_encap_oaddr sa = Some s →
  let none := XfrmSa (sa_src sa) (sa_dst sa) (sa_spi sa) (sa_proto sa) (sa_mode sa) (sa_reqid sa) (sa_replay_window sa) (sa_flags sa)
    (sa_enc_alg sa) (sa_enc_key sa) (sa_enc_key_len sa) (sa_auth_alg sa) (sa_auth_key sa) (sa_auth_key_len sa)
    (sa_aead_alg sa) (sa_aead_key sa) (sa_aead_key_len sa) (sa_aead_icv_bits sa) (sa_encap_sport sa) (sa_encap_dport sa) None in
  xfrm_sa_msg buf cap seq (Some sa) = xfrm_sa_msg buf cap seq (Some none).
Proof using.
  intros Hl Hs none. unfold xfrm_sa_msg, sa_build, sa_attrs, put_encap. cbn [none sa_src sa_dst sa_spi sa_proto sa_mode sa_reqid sa_replay_window sa_flags sa_enc_alg sa_enc_key sa_enc_key_len sa_auth_alg sa_auth_key
    sa_auth_key_len sa_aead_alg sa_aead_key sa_aead_key_len sa_aead_icv_bits sa_encap_sport sa_encap_dport sa_encap_oaddr null negb]. rewrite Hs, (addr_pton_pad16 (Some s)), Hl. done.
Qed.
End builders.

(** ** Witness *)

#[local] Existing Instances little_host two_literals.
(** The layout of a 64-bit host. *)
Definition fit (n : Z) (bs : list Z) : list Z := let s := take (Z.to_nat n) (u8 <$> bs) in s ++ zeros (n - mlen s).
Lemma fit_ok n bs : 0 <= n → bytes_ok (fit n bs) ∧ mlen (fit n bs) = n.
Proof.
  intros Hn. unfold fit. cbv zeta. set (s := take _ _). assert (mlen s <= n) by (unfold s, mlen; rewrite length_take; lia). split; [|rewrite mlen_app, mlen_zeros by lia; lia].
  rewrite bytes_ok_app. split; [|apply bytes_ok_zeros]. apply Forall_take, Forall_fmap, Forall_forall. intros b _. cbn. unfold u8. pose proof (Z.mod_pos_bound b 256). lia.
Qed.
Definition lft_bytes (l : xfrm_lifetime_cfg) : list Z := host_bytes 8 (soft_byte_limit l) ++ host_bytes 8 (hard_byte_limit l) ++ host_bytes 8 (soft_packet_limit l) ++ host_bytes 8 (hard_packet_limit l) ++ zeros 32.
Definition sel_bytes (s : xfrm_selector) : list Z :=
  fit 16 (sel_daddr s) ++ fit 16 (sel_saddr s) ++ fit 2 (sel_dport s) ++ host_bytes 2 (sel_dport_mask s) ++ fit 2 (sel_sport s) ++ host_bytes 2 (sel_sport_mask s) ++
  host_bytes 2 (sel_family s) ++ [sel_prefixlen_d s; sel_prefixlen_s s; sel_proto s] ++ zeros 11.
#[local] Instance lp64_layout : XfrmLayout.
Proof.
  refine {| usersa_info_bytes := λ i, fit 224 (zeros 56 ++ fit 16 (ui_daddr i) ++ fit 4 (ui_spi i) ++ [ui_proto i] ++ zeros 3 ++ fit 16 (ui_saddr i) ++ lft_bytes (ui_lft i) ++ zeros 48 ++
              host_bytes 4 (ui_reqid i) ++ host_bytes 2 (ui_family i) ++ [ui_mode i; ui_replay_window i; ui_flags i]);
            usersa_id_bytes := λ i, fit 24 (fit 16 (si_daddr i) ++ fit 4 (si_spi i) ++ host_bytes 2 (si_family i) ++ [si_proto i]);
            userpolicy_info_bytes := λ i, fit 168 (sel_bytes (pi_sel i) ++ lft_bytes (pi_lft i) ++ zeros 32 ++ host_bytes 4 (pi_priority i) ++ host_bytes 4 (pi_index i) ++ [pi_dir i; pi_action i]);
            userpolicy_id_bytes := λ i, fit 64 (match pd_sel i with Some s => sel_bytes s | None => zeros 56 end ++ host_bytes 4 (pd_index i) ++ [pd_dir i]);
            user_tmpl_bytes := λ t, fit 64 (fit 16 (tm_daddr t) ++ zeros 4 ++ [tm_proto t] ++ zeros 3 ++ host_bytes 2 (tm_family t) ++ zeros 2 ++ fit 16 (tm_saddr t) ++ host_bytes 4 (tm_reqid t) ++ [tm_mode t; 0; 0; 0] ++
              host_bytes 4 (tm_algos t) ++ host_bytes 4 (tm_algos t) ++ host_bytes 4 (tm_algos t));
            encap_tmpl_bytes := λ e, fit 24 (host_bytes 2 (en_type e) ++ fit 2 (en_sport e) ++ fit 2 (en_dport e) ++ zeros 2 ++ fit 16 (en_oa e)) |};
    intros; by apply fit_ok.
Defined.
(** An AH association with a key of four octets, and encapsulation. *)
Definition ah_sa : xfrm_sa :=
  XfrmSa (Some [49; 46; 50]) (Some [49; 46; 50]) 258 51 0 7 32 256 None [] 0 (Some [104; 109]) [9; 8; 7; 6] 4 None [] 0 0 500 4500 None.
Lemma xfrm_requests_exact_witness : ∃ buf rc, op_msg (uninit 400) 400 7 (AddSa (Some ah_sa)) = Ok (buf, rc) ∧ rc = 344 ∧
  slice buf 0 rc = request XFRM_MSG_NEWSA 1541 7 (usersa_info_bytes (UsersaInfo (pad16 [1; 0; 0; 2]) [0; 0; 1; 2] 51 (pad16 [1; 0; 0; 2]) no_limit 7 2 0 32 0))
    [Leaf XFRMA_ALG_AUTH 0 ([104; 109] ++ zeros 62 ++ [32; 0; 0; 0; 9; 8; 7; 6]); Leaf XFRMA_ENCAP 0 ([2; 0; 1; 244; 17; 148; 0; 0] ++ zeros 16)].
Proof.
  assert (Ho : op_ok (AddSa (Some ah_sa))). { split; [exact I|]. split; [exact I|]. split; [|split; [|done]]; apply (bool_decide_unpack _); vm_compute; exact I. }
  destruct (xfrm_requests_exact (uninit 400) 400 7 (AddSa (Some ah_sa))) as (buf & rc & E & [Hb _]); [done|done|exact Ho|].
  exists buf, rc. split; [exact E|]. vm_compute in Hb. vm_compute. exact Hb.
Defined.
End Xfrm.
